(* ===== verification/_CoqProject ===== *)
-Q . S2P
Prelude.v
Bits.v
TimerFramework.v
PageAlloc.v
Events.v
Topology.v
Hotplug.v
Bytes.v
Libc.v
Printf.v
Nvm.v
NvmSpec.v
Session.v
Io.v
NvmIo.v
PState.v
Xlat.v
XlatWalk.v
XlatDesc.v
XlatTree.v
XlatMap.v
XlatRegions.v
XlatInit.v
XlatLookup.v
XlatStatic.v
XlatUnmap.v
XlatDyn.v
XlatChange.v
XlatLimits.v
Gic.v
GicV5.v
Irq.v
GicSpec.v
GicCtx.v
GicSgi.v
IrqHandlers.v
GicV5Spec.v
SoftGic.v
FuzzMalloc.v
FuzzHeap.v
FuzzAlloc.v
FuzzPool.v
FuzzFree.v
FuzzMem.v
FuzzConstraint.v
FuzzConSet.v
FuzzConGen.v
FuzzTree.v
FuzzTreeSpec.v
FuzzTreeRun.v
Pcie.v
PcieTree.v
PcieEnum.v
PcieTable.v
PcieSpec.v
PcieDoe.v
PcieDoeSpec.v
Nor.v
NorSpec.v
Ffa.v
FfaMem.v
FfaSpec.v
FfaRun.v
Cactus.v
CactusSpec.v
