(* ===== verification/Prelude.v ===== *)
(** * TF-A-Tests: a verification library

    TF-A-Tests (TFTF) is a bare-metal test framework for Trusted Firmware-A.
    One image boots on the lead CPU of an Arm platform, runs suites of test
    functions, turns other CPUs on and off through PSCI while it does, keeps
    the state of the session in non-volatile memory so that a test may reset
    the system, and reports at the end.  This library models the framework
    and the libraries it stands on, and proves what each part promises.

    ** Parts, and how they interact

    tftf/framework/main.c drives a session.  It reads and writes the session
    state through nvm_results_helpers.c, which uses the accessors of
    plat/common/tftf_nvm_accessors.c, and these use either memory or the
    storage layer drivers/io.  main.c turns CPUs on and off through hotplug.c
    and iterates over the CPUs of plat_topology.c; tests synchronise with
    events.c, sleep and wake through timer_framework.c, allocate pages with
    page_alloc.c, run through the power states of plat_state_id.c, handle
    interrupts with lib/exceptions/irq.c over the GIC drivers, and print with
    the C library.  The files, in order:

    - [Prelude]: machine integers, the monad of C functions, arrays, sums,
      tactics and hints.
    - [Bits]: the rounding and power-of-two macros of
      include/lib/utils_def.h.
    - [TimerFramework]: tftf/framework/timer/timer_framework.c.  Its state is
      the record of that file's static variables; an operation takes the
      values it reads from the counter, the GIC and the CPU.
    - [PageAlloc]: lib/heap/page_alloc.c, one operation at a time and
      interleaved at its lock.
    - [Events]: lib/events/events.c, as a step relation on program counters.
    - [Topology]: plat/common/plat_topology.c: the node array and its walks.
    - [Hotplug]: lib/power_management/hotplug/hotplug.c, as functions and as
      a step relation in which all CPUs take part.
    - [Bytes], [Libc], [Printf]: memory as bytes, lib/libc's memory and
      string functions and rand.c, snprintf.c and printf.c.
    - [Nvm]: tftf/framework/nvm_results_helpers.c over the class [NvmStore],
      the interface of the accessors; the DRAM build is an instance.
    - [NvmSpec]: the abstract session state, the relation [rep] between it
      and a store, and a simulation lemma for each operation.
    - [Session]: tftf/framework/main.c and report.c, and the layout of the
      test lists that tools/generate_test_list makes; proved against
      [NvmStore] and [NvmSpec], so they hold for each instance.
    - [Io]: drivers/io/io_storage.c, io_memmap.c and io_fip.c, and
      plat/common/image_loader.c.  The class [PoolSafe] is what the storage
      layer asks of a driver; the two drivers are instances.
    - [NvmIo]: the accessors over the storage layer (USE_NVM = 1), a second
      instance of [NvmStore].
    - [PState]: plat/common/plat_state_id.c, the composite IDs and the power
      state format of lib/psci/psci.c, and [tftf_timer_sleep()], which uses
      them and the timer.
    - [Xlat]: lib/xlat_tables_v2 (xlat_tables_core.c, xlat_tables_utils.c,
      xlat_tables_context.c): the array of regions, the tables, their region
      counts and the descriptors.  Its theory: [XlatWalk] (what the tables
      hold for an address, and when they are well shaped), [XlatDesc]
      (descriptors), [XlatTree] (writes), [XlatMap] and [XlatUnmap] (mapping
      and unmapping one region), [XlatRegions] (the array), [XlatInit]
      (mapping all regions), [XlatLookup] (the software walk), [XlatStatic]
      and [XlatDyn] (end to end), [XlatChange] (changing attributes),
      [XlatLimits] (chosen addresses; where the code falls short).
    - [Gic], [GicV5], [Irq]: drivers/arm/gic (gic_v2v3_common.c, gic_v2.c,
      gic_v3.c, gic_v5.c, arm_gic.c) and lib/exceptions/irq.c, over the class
      [GicHw] of register accesses.  [GicSpec] states what the architecture
      documents of the registers (the class [GicOk]) and proves the drivers
      against it; [GicCtx] is about saved contexts, [GicSgi] about SGIs,
      priorities and the search for redistributors, [IrqHandlers] about the
      tables of handlers and the dispatcher, [GicV5Spec] about GICv5.
      [SoftGic] is an instance of the class, a register file, to which the
      theorems are applied.
    - [FuzzMalloc]: smc_fuzz/src/smcmalloc.c, the memory pool of the SMC
      fuzzing module.  Its theory: [FuzzHeap] (the pool as a chain of free and
      live regions), [FuzzAlloc] and [FuzzPool] (allocation), [FuzzFree]
      (release, and the theorems).  [FuzzMem] is the class [Allocator] of what
      a client may rely on, with the pool as an instance.
    - [FuzzConstraint]: smc_fuzz/src/constraint.c over that class; the tables
      the build generates are the class [FuzzTables].  [FuzzConSet] is about
      setting constraints, [FuzzConGen] about generating arguments.
    - [FuzzTree]: smc_fuzz/src/randsmcmod.c, fifo3d.c and nfifo.c: reading the
      bias tree from a device tree and running it.  [FuzzTreeSpec] has trees,
      their encoding and what is built of them, [FuzzTreeRun] the theorems.
    - [Pcie]: lib/pcie/pcie.c and pcie_dvsec_rmeda.c over the class [PcieHw]
      of accesses to the configuration space; [PciePlat] is the platform
      port.  [PcieTree] is a hierarchy of functions and bridges, with the laws
      of a function's registers as the class [FnOk] and the routing of
      requests, [PcieEnum] the enumeration of a bus, [PcieTable] the table of
      devices, [PcieSpec] the theorems and a hierarchy with registers.
    - [PcieDoe]: lib/pcie/pcie_doe.c, the mailbox of a PCIe function.
      [PcieDoeSpec] has the mailbox as a state machine and the theorems.
    - [Nor]: drivers/io/vexpress_nor (io_vexpress_nor_hw.c and
      io_vexpress_nor_ops.c) over the class [NorHw] of word accesses.
      [NorSpec] has the flash as a state machine and the theorems.
    - [Ffa]: the FF-A calls of ffa_helpers.c over the class [Spmc] of what a
      partition manager answers; [FfaMem]: the descriptors of ffa_helpers.c
      and the memory transactions and messages of spm_common.c.  [FfaSpec] has
      the bytes of a message and what any manager is sent of it, [FfaRun] a
      manager that keeps the regions it is sent, and the theorems with it.
    - [Cactus]: the secure partition spm/cactus: the commands of
      cactus_test_cmds.h, its message loop, the dispatch of commands and the
      handlers that talk to other partitions, over [Spmc] and the class
      [SpHw] of a counter and hypervisor calls.  [CactusSpec] has what the
      handlers leave alone, a system of partitions that call each other, and
      the theorems.

    ** Conventions

    A C function is a computation [M S A] over the record [S] of the static
    variables it uses.  It returns ([Ok]) or stops: [AssertFail] (the build has
    assertions), [PanicCall], [OutOfBounds] (an access outside an object),
    [Undefined] (a division by zero, a shift by a negative amount), [FuelOut] (a
    wait that does not end) or [NoMemory] (an allocator that is checked).  An
    unsigned integer is a [Z] in its range, and what the code stores goes
    through [u32] or [u64] where it can wrap.  A C array is a list; a pointer to an element is its index.  Struct
    layouts in memory, where the code depends on them, are AArch64's.  CPUs
    are named by core position.  What the code reads from outside (answers of
    the firmware, device registers, tables of the platform port, the result of
    a test function) is an argument; calls whose effect is outside are recorded
    in a log, newest first.  Sequential models keep a lock as a flag: taking a
    taken lock does not return.  Interleaved models ([PageAlloc], [Events],
    [Hotplug]) let the other CPUs run between any two steps outside a lock's
    critical section; [Events] interleaves single loads and stores.  Cache
    maintenance, barriers and log messages have no state and are left out.

    ** What the theorems show

    - The session: from a fresh start every test of the lists runs once, in
      order, and each result is recorded before the session ends; each branch
      of the resumption after a reset; how the results of the CPUs combine.
      The session state refines its abstract specification in both builds,
      with results, outputs and control words read back as written.
    - The timer: in every reachable state a pending request is covered by the
      programmed one, which is due at most one timer step later; the handler
      wakes each core whose time has come and no other and programs an
      earliest remaining request; requests and cancellations on each branch.
    - CPUs: in every interleaving the framework's view of a CPU is exact; the
      topology describes the CPUs of the platform, its iterators visit each
      present CPU once; events lose no count and do not deadlock; the
      combinations of power states are enumerated once each, and the power
      state parameter has the format the firmware asked for.
    - Memory: allocated blocks are aligned, disjoint and inside the heap;
      memmove, strlcpy, rand, the digits of printed numbers and the
      truncation of vsnprintf agree with reference definitions.
    - Translation tables: from the registration of a context through adding
      regions and building the tables to a lookup, every address is translated
      as the smallest region that contains it says; dynamic regions that come
      and go keep this, in any order of calls; a removed region is unmapped
      and invalidated in the TLBs; access rights change for the pages of a
      range and nothing else.  The number of tables that is enough is
      [tables_needed], computed from the regions.
    - Interrupts: enabling and disabling one interrupt changes that interrupt
      and nothing else of the controller, on GICv2 and GICv3; handlers are a
      map from interrupts to functions, and the dispatcher runs the registered
      one; SGIs reach their core; saved contexts come back; a CPU finds its
      redistributor.
    - Storage: an image found in a package is loaded byte for byte, a missing
      one leaves everything closed; the handle pool is exact after any
      sequence of calls.
    - SMC fuzzing: live allocations are aligned, inside the pool and apart;
      allocation succeeds exactly when a free region fits, release removes one
      allocation, and nothing leaks; constraints form a list per field, and
      generated arguments satisfy them, from setting a constraint to reading
      the field of a call back; a bias tree is read back as it was written,
      and a run makes the calls it is asked for, each one reachable.
    - PCIe: on any hierarchy that fits into the window, the buses are numbered
      so that every function can be reached at its number, the table lists the
      PCI Express functions in order with types, root ports and capabilities;
      an exchange with a mailbox delivers the request, padded to words, and
      the whole of the response, and every way it can fail is reported.
    - NOR flash: a write changes exactly the bytes it reports as written, on
      each branch, and they are read back.
    - FF-A: a valid handle is only returned for a transaction that was sent as
      a whole; what is sent in fragments is retrieved in fragments byte for
      byte, and each field of a message is read back as written; an indirect
      message arrives once.
    - Partitions: calls between partitions end, whatever they are asked, and a
      circle of requests is refused and reported; the arguments of a command
      are read back as they were passed; requests are counted.
    - Where the code does something other than it means to (two CPUs that get
      the same block, a CPU that waits for itself after a denied CPU_OFF, an
      empty suite, a result lost because its output does not fit, ...), a
      theorem states what it does.

    ** Bounds and fuel

    Loops over arrays and levels recurse on the number of rounds that are
    left.  Loops that scan for a terminator ([strlen], the table of contents
    of a package) take fuel, and their theorems say how much is enough: the
    size of the memory, one more than the number of entries.  Waits for
    another CPU take fuel and are shown either to end or to use up any amount.
    The session loop takes one unit per test; the search for a redistributor one
    per redistributor of a frame; a wait for an idle GICv5 one per read;
    reading a bias tree one per word read, a walk down one per level; the
    enumeration of PCIe buses one per level of bridges, for which the number
    of buses is enough; the search for a capability one per capability, and
    4096 for the one whose offsets add up; a wait for the flash one per read
    of its status, a write one per byte; an FF-A transaction one per
    constituent, and retrieving one per byte of the region; a system of
    partitions one per partition that can be entered.  The
    recursions over table levels take the number of levels left, which the
    assertion on the level bounds.

    ** What is not modelled

    The theorems on PCIe are about one window for segment 0 that starts at bus
    0; what is printed about the devices is left out.  Of the SMC fuzzing module the functions that make the calls, the vectors
    they use, the allocations of the bias tree (its arrays are values) and the
    run on several CPUs are left out.  Of lib/xlat_tables_v2 the AArch32
    build, the build without dynamic regions, the VERBOSE dumps and the code
    that turns the MMU on are left out.  The session theorems run the loop on
    the lead CPU: the turns of several CPUs inside one test are covered by
    [Hotplug] and [Events] only.  Of FF-A the names of functions and errors,
    the boot information, the table of features to test and NULL pointers as
    arguments are left out; of Cactus its start and the handlers that work on
    devices, mappings or vector registers.  [tftf_warm_boot_main()] and
    [load_partial_image()] are left out, as are the other device drivers,
    assembly, platform ports, the test functions themselves, the
    other payloads (realm, ivy, cactus_mm, fwu) and vendored libraries. *)

From stdpp Require Export base tactics numbers list option relations.
From Stdlib Require Export ZArith Lia.

#[export] Set Default Goal Selector "!".

(** ** Machine integers

    A [w]-bit unsigned C integer is a [Z] in [0 .. 2^w); every arithmetic
    result the code stores in such a variable goes through [wrap]. *)

Definition wrap (w x : Z) : Z := (x mod 2 ^ w)%Z.

Definition u8 (x : Z) : Z := wrap 8 x.
Definition u32 (x : Z) : Z := wrap 32 x.
Definition u64 (x : Z) : Z := wrap 64 x.

Definition UINT32_MAX : Z := 4294967295.
Definition UINT64_MAX : Z := 18446744073709551615.

(** The C conversion of a value to a 32-bit signed [int] (two's complement). *)
Definition s32 (x : Z) : Z :=
  let y := u32 x in if (y <? 2147483648)%Z then y else (y - 4294967296)%Z.

#[global] Arguments wrap : simpl never.
#[global] Arguments u8 : simpl never.
#[global] Arguments u32 : simpl never.
#[global] Arguments u64 : simpl never.
#[global] Arguments s32 : simpl never.
#[global] Arguments Z.div : simpl never.
#[global] Arguments Z.modulo : simpl never.
#[global] Arguments Z.pow : simpl never.

Definition in_width (w x : Z) : Prop := (0 <= x < 2 ^ w)%Z.

Create HintDb tftf.
Create Rewrite HintDb tftf.

Section wrap_lemmas.
Local Open Scope Z_scope.

Lemma wrap_small (w x : Z) : in_width w x → wrap w x = x.
Proof. intros H. unfold wrap. by apply Z.mod_small. Qed.

Lemma wrap_in_width (w x : Z) : 0 <= w → in_width w (wrap w x).
Proof. intros Hw. unfold in_width, wrap. apply Z.mod_pos_bound. lia. Qed.

Lemma wrap_idemp (w x : Z) : 0 <= w → wrap w (wrap w x) = wrap w x.
Proof. intros Hw. apply wrap_small, wrap_in_width, Hw. Qed.

Lemma u32_small (x : Z) : 0 <= x <= UINT32_MAX → u32 x = x.
Proof. unfold UINT32_MAX. intros H. apply wrap_small. unfold in_width. lia. Qed.

Lemma u64_small (x : Z) : 0 <= x <= UINT64_MAX → u64 x = x.
Proof. unfold UINT64_MAX. intros H. apply wrap_small. unfold in_width. lia. Qed.

Lemma u32_range (x : Z) : 0 <= u32 x <= UINT32_MAX.
Proof. pose proof (wrap_in_width 32 x). unfold in_width, u32, UINT32_MAX in *. lia. Qed.

Lemma u64_range (x : Z) : 0 <= u64 x <= UINT64_MAX.
Proof. pose proof (wrap_in_width 64 x). unfold in_width, u64, UINT64_MAX in *. lia. Qed.

Lemma u64_neg (x : Z) : - UINT64_MAX <= x < 0 → u64 x = x + UINT64_MAX + 1.
Proof.
  unfold UINT64_MAX, u64, wrap. intros H.
  rewrite <- (Z.mod_small (x + 18446744073709551615 + 1) (2 ^ 64)) by lia.
  replace (x + 18446744073709551615 + 1) with (x + 1 * 2 ^ 64) by lia.
  by rewrite Z.mod_add.
Qed.

Lemma s32_small (x : Z) : -2147483648 <= x < 2147483648 → s32 x = x.
Proof.
  intros H. unfold s32, u32, wrap.
  destruct (Z.ltb_spec x 0).
  - replace (x mod 2 ^ 32) with (x + 4294967296).
    + destruct (Z.ltb_spec (x + 4294967296) 2147483648); lia.
    + rewrite <- (Z.mod_small (x + 4294967296) (2 ^ 32)) by lia.
      replace (x + 4294967296) with (x + 1 * 2 ^ 32) by lia.
      by rewrite Z.mod_add.
  - rewrite Z.mod_small by lia. destruct (Z.ltb_spec x 2147483648); lia.
Qed.
End wrap_lemmas.

#[export] Hint Resolve u32_range u64_range : tftf.

(** ** Outcomes

    A C function either returns ([Ok]) or stops.  It stops by a failed
    [assert()] or a call of [panic()], by reaching undefined behaviour (an
    index outside an array, a call through a NULL pointer; a division by zero),
    because the fuel of a bounded loop ran out, or because memory did. *)

Inductive stop : Set :=
| AssertFail
| PanicCall
| OutOfBounds
| Undefined
| FuelOut
| NoMemory.

#[export] Instance stop_eq_dec : EqDecision stop.
Proof. solve_decision. Defined.

Inductive outcome (A : Type) : Type :=
| Ok (a : A)
| Stop (why : stop).
Arguments Ok {A} a.
Arguments Stop {A} why.

(** A stateful computation over a state [S]. *)
Definition M (S A : Type) : Type := S → outcome (A * S).

#[export] Instance M_ret S : MRet (M S) := λ A a s, Ok (a, s).
#[export] Instance M_bind S : MBind (M S) := λ A B f m s,
  match m s with
  | Ok (a, s') => f a s'
  | Stop w => Stop w
  end.

Definition get {S} : M S S := λ s, Ok (s, s).
Definition put {S} (s : S) : M S unit := λ _, Ok (tt, s).
Definition modify {S} (f : S → S) : M S unit := λ s, Ok (tt, f s).
Definition fail {S A} (w : stop) : M S A := λ _, Stop w.

(** [assert(b)] in a build with assertions enabled. *)
Definition assert_ {S} (b : bool) : M S unit :=
  λ s, if b then Ok (tt, s) else Stop AssertFail.

(** Partial correctness with exceptions ruled out: [m], started in [s],
    returns, and [Q] holds of the result and of the final state. *)
Definition returns {S A} (m : M S A) (s : S) (Q : A → S → Prop) : Prop :=
  match m s with
  | Ok (a, s') => Q a s'
  | Stop _ => False
  end.

Section monad_lemmas.
Context {S : Type}.

Lemma bind_Ok {A B} (m : M S A) (f : A → M S B) (s s' : S) (a : A) :
  m s = Ok (a, s') → (m ≫= f) s = f a s'.
Proof. intros H. unfold mbind, M_bind. by rewrite H. Qed.

Lemma bind_Ok_inv {A B} (m : M S A) (f : A → M S B) (s s' : S) (b : B) :
  (m ≫= f) s = Ok (b, s') →
  ∃ a s1, m s = Ok (a, s1) ∧ f a s1 = Ok (b, s').
Proof.
  unfold mbind, M_bind. destruct (m s) as [[a s1]|w]; [|done]. eauto.
Qed.

Lemma assert_Ok_inv (b : bool) (s s' : S) (u : unit) :
  assert_ b s = Ok (u, s') → b = true ∧ s' = s.
Proof. unfold assert_. destruct b; intros ?; simplify_eq. done. Qed.

Lemma returns_bind {A B} (m : M S A) (f : A → M S B) (s : S)
    (R : A → S → Prop) (Q : B → S → Prop) :
  returns m s R → (∀ a s', R a s' → returns (f a) s' Q) →
  returns (m ≫= f) s Q.
Proof.
  unfold returns, mbind, M_bind. destruct (m s) as [[a s']|w]; [|done].
  intros HR HQ. by apply HQ.
Qed.

Lemma returns_mono {A} (m : M S A) (s : S) (Q R : A → S → Prop) :
  returns m s Q → (∀ a s', Q a s' → R a s') → returns m s R.
Proof. unfold returns. destruct (m s) as [[a s']|w]; eauto. Qed.
End monad_lemmas.

(** ** Arrays

    A C array is a list; an index is a [Z].  Reading or writing outside the
    array is undefined behaviour, [OutOfBounds]. *)

Section arrays.
Local Open Scope Z_scope.
Context {A : Type}.

Definition zlen (l : list A) : Z := Z.of_nat (length l).

Definition zget (l : list A) (i : Z) : option A :=
  if i <? 0 then None else l !! Z.to_nat i.

Definition zset (l : list A) (i : Z) (x : A) : list A :=
  if i <? 0 then l else <[Z.to_nat i := x]> l.

Definition in_range (l : list A) (i : Z) : bool := (0 <=? i) && (i <? zlen l).

Lemma zget_Some_range (l : list A) (i : Z) (x : A) :
  zget l i = Some x → 0 <= i < zlen l.
Proof.
  unfold zget, zlen. destruct (Z.ltb_spec i 0); [done|].
  intros Hl%lookup_lt_Some. lia.
Qed.

Lemma zget_is_Some (l : list A) (i : Z) :
  0 <= i < zlen l → ∃ x, zget l i = Some x.
Proof.
  unfold zget, zlen. intros Hi. destruct (Z.ltb_spec i 0); [lia|].
  destruct (lookup_lt_is_Some_2 l (Z.to_nat i)) as [x Hx]; [lia|]. eauto.
Qed.

Lemma zget_None (l : list A) (i : Z) :
  zget l i = None ↔ i < 0 ∨ zlen l <= i.
Proof.
  unfold zget, zlen. destruct (Z.ltb_spec i 0); [intuition lia|].
  rewrite lookup_ge_None. lia.
Qed.

Lemma zlen_zset (l : list A) (i : Z) (x : A) : zlen (zset l i x) = zlen l.
Proof.
  unfold zlen, zset. destruct (Z.ltb_spec i 0); [done|].
  by rewrite length_insert.
Qed.

Lemma zget_zset_eq (l : list A) (i : Z) (x : A) :
  0 <= i < zlen l → zget (zset l i x) i = Some x.
Proof.
  unfold zget, zset, zlen. intros Hi. destruct (Z.ltb_spec i 0); [lia|].
  apply list_lookup_insert_eq. lia.
Qed.

Lemma zget_zset_ne (l : list A) (i j : Z) (x : A) :
  i ≠ j → zget (zset l i x) j = zget l j.
Proof.
  unfold zget, zset. intros Hij. destruct (Z.ltb_spec i 0); [done|].
  destruct (Z.ltb_spec j 0); [done|].
  apply list_lookup_insert_ne. lia.
Qed.

Lemma zget_zset (l : list A) (i j : Z) (x : A) :
  zget (zset l i x) j =
  if decide (i = j ∧ 0 <= i < zlen l) then Some x else zget l j.
Proof.
  case_decide as Hd.
  - destruct Hd as [-> Hd]. by apply zget_zset_eq.
  - destruct (decide (i = j)) as [->|Hne]; [|by apply zget_zset_ne].
    assert (j < 0 ∨ zlen l <= j) as Hj by lia.
    rewrite (proj2 (zget_None l j) Hj).
    apply zget_None. rewrite zlen_zset. lia.
Qed.

Lemma zlen_replicate (n : nat) (x : A) : zlen (replicate n x) = Z.of_nat n.
Proof. unfold zlen. by rewrite length_replicate. Qed.

Lemma zlen_nonneg (l : list A) : 0 <= zlen l.
Proof. unfold zlen. lia. Qed.

Lemma zget_replicate (n : nat) (x : A) (i : Z) :
  0 <= i < Z.of_nat n → zget (replicate n x) i = Some x.
Proof.
  intros Hi. unfold zget. destruct (Z.ltb_spec i 0); [lia|].
  apply lookup_replicate_2. lia.
Qed.

(** The element in the middle of a list, for loops that walk an array. *)
Lemma zget_mid (l k : list A) (x : A) : zget (l ++ x :: k) (zlen l) = Some x.
Proof.
  unfold zget, zlen. destruct (Z.ltb_spec (Z.of_nat (length l)) 0); [lia|].
  rewrite Nat2Z.id. by apply list_lookup_middle.
Qed.

Lemma zset_mid (l k : list A) (x y : A) :
  zset (l ++ x :: k) (zlen l) y = l ++ y :: k.
Proof.
  unfold zset, zlen. destruct (Z.ltb_spec (Z.of_nat (length l)) 0); [lia|].
  rewrite Nat2Z.id, insert_app_r_alt by lia. by rewrite Nat.sub_diag.
Qed.

Lemma zlen_app (l k : list A) : zlen (l ++ k) = zlen l + zlen k.
Proof. unfold zlen. rewrite length_app. lia. Qed.

Lemma zlen_cons (x : A) (l : list A) : zlen (x :: l) = zlen l + 1.
Proof. unfold zlen. cbn [length]. lia. Qed.
Lemma zget_cons (x : A) (l : list A) (i : Z) :
  zget (x :: l) i = if i =? 0 then Some x else zget l (i - 1).
Proof.
  unfold zget. destruct (Z.eqb_spec i 0) as [->|Hi]; [done|].
  destruct (Z.ltb_spec i 0), (Z.ltb_spec (i - 1) 0); try done; try lia.
  by replace (Z.to_nat i) with (S (Z.to_nat (i - 1))) by lia.
Qed.

Lemma zget_elem (l : list A) (i : Z) (x : A) : zget l i = Some x → x ∈ l.
Proof. unfold zget. destruct (Z.ltb_spec i 0); [done|]. apply list_elem_of_lookup_2. Qed.

Lemma zset_id (l : list A) (i : Z) (x : A) : zget l i = Some x → zset l i x = l.
Proof. unfold zget, zset. destruct (Z.ltb_spec i 0); [done|]. apply list_insert_id. Qed.

Lemma zset_zset (l : list A) (i : Z) (x y : A) : zset (zset l i x) i y = zset l i y.
Proof. unfold zset. destruct (Z.ltb_spec i 0); [done|]. apply list_insert_insert_eq. Qed.

Lemma zset_comm (l : list A) (i j : Z) (x y : A) :
  i ≠ j → zset (zset l i x) j y = zset (zset l j y) i x.
Proof.
  intros Hij. unfold zset. destruct (Z.ltb_spec i 0), (Z.ltb_spec j 0); try done.
  apply list_insert_insert_ne. lia.
Qed.
End arrays.

Lemma zlen_fmap {A B} (g : A → B) (l : list A) : zlen (g <$> l) = zlen l.
Proof. unfold zlen. by rewrite length_fmap. Qed.

#[global] Arguments zget : simpl never.
#[global] Arguments zset : simpl never.
#[global] Arguments zlen : simpl never.
#[export] Hint Rewrite @zlen_app @zlen_cons : tftf.
#[export] Hint Rewrite @zlen_zset @zlen_replicate : tftf.
#[export] Hint Resolve zlen_nonneg : tftf.

(** ** Sums over a list *)

Section zsum.
Local Open Scope Z_scope.
Context {A : Type}.

Definition zsum (f : A → Z) (l : list A) : Z := foldr (λ x n, f x + n) 0 l.

Lemma zsum_app (f : A → Z) (l k : list A) : zsum f (l ++ k) = zsum f l + zsum f k.
Proof. induction l as [|x l IH]; cbn; [done|]. unfold zsum in *. lia. Qed.

(** Replacing one element changes the sum by the difference. *)
Lemma zsum_insert (f : A → Z) (l : list A) (i : nat) (x y : A) :
  l !! i = Some y → zsum f (<[i := x]> l) = zsum f l - f y + f x.
Proof.
  intros Hl. rewrite <- (take_drop_middle l i y Hl) at 2.
  rewrite insert_take_drop by (by eapply lookup_lt_Some).
  rewrite !zsum_app. cbn. lia.
Qed.

Lemma zsum_zset (f : A → Z) (l : list A) (i : Z) (x y : A) :
  zget l i = Some y → zsum f (zset l i x) = zsum f l - f y + f x.
Proof.
  unfold zget, zset. destruct (Z.ltb_spec i 0); [done|]. apply zsum_insert.
Qed.

Lemma zsum_nonneg (f : A → Z) (l : list A) : (∀ x, x ∈ l → 0 <= f x) → 0 <= zsum f l.
Proof.
  intros H. induction l as [|x l IH]; cbn; [lia|].
  assert (0 <= f x) by (apply H; left). assert (0 <= zsum f l); [|unfold zsum in *; lia].
  apply IH. intros y Hy. apply H. by right.
Qed.

Lemma zsum_ge (f : A → Z) (l : list A) (i : nat) (x : A) :
  (∀ y, y ∈ l → 0 <= f y) → l !! i = Some x → f x <= zsum f l.
Proof.
  revert i. induction l as [|z l IH]; intros i H Hl; [done|].
  assert (∀ w, w ∈ l → 0 <= f w) as Hw by (intros; apply H; by right).
  assert (0 <= f z) by (apply H; left). cbn [zsum foldr].
  change (foldr (λ x n, f x + n) 0 l) with (zsum f l).
  destruct i as [|i]; cbn in Hl; simplify_eq.
  - pose proof (zsum_nonneg f l Hw). lia.
  - specialize (IH i Hw Hl). lia.
Qed.

(** Two distinct elements count twice. *)
Lemma zsum_ge_2 (f : A → Z) (l : list A) (i j : nat) (x y : A) :
  (∀ z, z ∈ l → 0 <= f z) → i ≠ j → l !! i = Some x → l !! j = Some y →
  f x + f y <= zsum f l.
Proof.
  intros H Hij Hi Hj. revert i j Hij Hi Hj.
  induction l as [|z l IH]; intros i j Hij Hi Hj; [done|].
  assert (∀ w, w ∈ l → 0 <= f w) as Hl by (intros; apply H; by right).
  assert (0 <= f z) by (apply H; left). cbn [zsum foldr].
  change (foldr (λ x n, f x + n) 0 l) with (zsum f l).
  destruct i as [|i], j as [|j]; cbn in Hi, Hj; simplify_eq.
  - pose proof (zsum_ge f l j y Hl Hj). lia.
  - pose proof (zsum_ge f l i x Hl Hi). lia.
  - assert (i ≠ j) by congruence. specialize (IH Hl i j ltac:(done) Hi Hj). lia.
Qed.
End zsum.
#[global] Arguments zsum : simpl never.

(** Array reads and writes as computations. *)
Definition aget {S A} (l : list A) (i : Z) : M S A :=
  λ s, match zget l i with Some x => Ok (x, s) | None => Stop OutOfBounds end.

Definition aset {S A} (l : list A) (i : Z) (x : A) : M S (list A) :=
  λ s, if in_range l i then Ok (zset l i x, s) else Stop OutOfBounds.

Lemma aget_Ok {S A} (l : list A) (i : Z) (x : A) (s : S) :
  zget l i = Some x → aget l i s = Ok (x, s).
Proof. intros H. unfold aget. by rewrite H. Qed.

Lemma aset_Ok {S A} (l : list A) (i : Z) (x : A) (s : S) :
  (0 <= i < zlen l)%Z → aset l i x s = Ok (zset l i x, s).
Proof.
  intros H. unfold aset, in_range.
  by rewrite (proj2 (Z.leb_le 0 i)), (proj2 (Z.ltb_lt i (zlen l))) by lia.
Qed.

(** ** Tactics *)

(** Case analysis on the conditions a computation tests. *)
Ltac case_Z :=
  match goal with
  | |- context [Z.ltb ?a ?b] => destruct (Z.ltb_spec a b)
  | |- context [Z.leb ?a ?b] => destruct (Z.leb_spec a b)
  | |- context [Z.eqb ?a ?b] => destruct (Z.eqb_spec a b)
  | H : context [Z.ltb ?a ?b] |- _ => destruct (Z.ltb_spec a b)
  | H : context [Z.leb ?a ?b] |- _ => destruct (Z.leb_spec a b)
  | H : context [Z.eqb ?a ?b] |- _ => destruct (Z.eqb_spec a b)
  end.

(** Invert a successful run of a monadic computation, one bind at a time. *)
Ltac inv_run :=
  repeat match goal with
  | H : mbind _ _ _ = Ok _ |- _ =>
      let a := fresh "a" in let s := fresh "s" in
      let H1 := fresh "Hrun" in
      apply bind_Ok_inv in H as (a & s & H1 & H)
  | H : assert_ _ _ = Ok _ |- _ =>
      let Hb := fresh "Hassert" in
      apply assert_Ok_inv in H as [Hb ->]
  | H : mret _ _ = Ok _ |- _ => unfold mret, M_ret in H; simplify_eq
  | H : get _ = Ok _ |- _ => unfold get in H; simplify_eq
  | H : put _ _ = Ok _ |- _ => unfold put in H; simplify_eq
  | H : modify _ _ = Ok _ |- _ => unfold modify in H; simplify_eq
  | H : fail _ _ = Ok _ |- _ => discriminate H
  | H : Stop _ = Ok _ |- _ => discriminate H
  end.

(** Turn boolean hypotheses into propositions. *)
Ltac bool_hyps :=
  repeat match goal with
  | H : negb _ = true |- _ => apply negb_true_iff in H
  | H : negb _ = false |- _ => apply negb_false_iff in H
  | H : (_ && _)%bool = true |- _ => apply andb_true_iff in H as [? ?]
  | H : (_ || _)%bool = false |- _ => apply orb_false_iff in H as [? ?]
  | H : (_ =? _)%Z = true |- _ => apply Z.eqb_eq in H
  | H : (_ =? _)%Z = false |- _ => apply Z.eqb_neq in H
  | H : (_ <? _)%Z = true |- _ => apply Z.ltb_lt in H
  | H : (_ <? _)%Z = false |- _ => apply Z.ltb_ge in H
  | H : (_ <=? _)%Z = true |- _ => apply Z.leb_le in H
  | H : (_ <=? _)%Z = false |- _ => apply Z.leb_gt in H
  end.
