(* ===== verification/Bits.v ===== *)
(** * Bit arithmetic (include/lib/utils_def.h)

    The rounding and power-of-two macros the allocator, the translation
    tables and the drivers share, on 64-bit operands, with their arithmetic
    meaning. *)

From S2P Require Import Prelude.

Local Open Scope Z_scope.

(** [is_power_of_2(x)] *)
Definition is_power_of_2 (x : Z) : bool :=
  negb (x =? 0) && (Z.land x (u64 (x - 1)) =? 0).

(** [IS_POWER_OF_TWO(x)], which accepts 0 *)
Definition IS_POWER_OF_TWO (x : Z) : bool := Z.land x (u64 (x - 1)) =? 0.

(** [round_boundary(value, boundary)] *)
Definition round_boundary (boundary : Z) : Z := u64 (boundary - 1).

(** [round_up(value, boundary)] *)
Definition round_up (value boundary : Z) : Z :=
  u64 (Z.lor (u64 (value - 1)) (round_boundary boundary) + 1).

(** [round_down(value, boundary)]; [Z.ldiff a b] is [a & ~b] *)
Definition round_down (value boundary : Z) : Z :=
  Z.ldiff value (round_boundary boundary).

(** [BIT_64(nr)] and [BIT_32(nr)] *)
Definition BIT_64 (nr : Z) : Z := u64 (Z.shiftl 1 nr).
Definition BIT_32 (nr : Z) : Z := u32 (Z.shiftl 1 nr).

(** [div_round_up(val, div)] *)
Definition div_round_up (val div : Z) : Z := u64 (u64 (val + div) - 1) / div.

(** [check_uptr_overflow(ptr, inc)] and [check_u32_overflow(v, inc)] *)
Definition check_uptr_overflow (ptr inc : Z) : bool := u64 (UINT64_MAX - inc) <? ptr.
Definition check_u32_overflow (v inc : Z) : bool := u32 (UINT32_MAX - inc) <? v.

(** ** Masks *)

Lemma ones_pred (k : Z) : 0 <= k → 2 ^ k - 1 = Z.ones k.
Proof. intros Hk. rewrite Z.ones_equiv. lia. Qed.

Lemma pow2_pos (k : Z) : 0 <= k → 0 < 2 ^ k.
Proof. intros. apply Z.pow_pos_nonneg; lia. Qed.

Lemma pow2_lt_64 (k : Z) : 0 <= k < 64 → 0 < 2 ^ k <= 2 ^ 63.
Proof.
  intros Hk. split; [apply pow2_pos; lia|]. apply Z.pow_le_mono_r; lia.
Qed.

Lemma land_mask (x k : Z) : 0 <= k → Z.land x (2 ^ k - 1) = x mod 2 ^ k.
Proof. intros Hk. rewrite ones_pred by done. by apply Z.land_ones. Qed.

Lemma ldiff_mask (x k : Z) : 0 <= k → Z.ldiff x (2 ^ k - 1) = x - x mod 2 ^ k.
Proof.
  intros Hk. rewrite ones_pred by done. rewrite Z.ldiff_ones_r by done.
  rewrite Z.shiftl_mul_pow2, Z.shiftr_div_pow2 by done.
  pose proof (Z.div_mod x (2 ^ k) ltac:(pose proof (pow2_pos k Hk); lia)). lia.
Qed.

Lemma lor_mask (x k : Z) : 0 <= k →
  Z.lor x (2 ^ k - 1) = x - x mod 2 ^ k + (2 ^ k - 1).
Proof.
  intros Hk. rewrite <- ldiff_mask by done.
  rewrite (Z.add_nocarry_lxor (Z.ldiff x (2 ^ k - 1))).
  - apply Z.bits_inj'. intros n Hn.
    rewrite Z.lor_spec, Z.lxor_spec, Z.ldiff_spec.
    by destruct (Z.testbit x n), (Z.testbit (2 ^ k - 1) n).
  - apply Z.bits_inj'. intros n Hn.
    rewrite Z.land_spec, Z.ldiff_spec, Z.bits_0.
    by destruct (Z.testbit x n), (Z.testbit (2 ^ k - 1) n).
Qed.

(** ** Powers of two *)

Lemma land_pred_pow2 (k : Z) : 0 <= k → Z.land (2 ^ k) (2 ^ k - 1) = 0.
Proof.
  intros Hk. rewrite land_mask by done. apply Z.mod_same.
  pose proof (pow2_pos k Hk). lia.
Qed.

Lemma land_pred_0 (x : Z) : 0 < x → Z.land x (x - 1) = 0 → ∃ k, 0 <= k ∧ x = 2 ^ k.
Proof.
  intros Hx Hz. exists (Z.log2 x). split; [apply Z.log2_nonneg|].
  destruct (Z.log2_spec x Hx) as [Hlo Hhi].
  destruct (decide (x = 2 ^ Z.log2 x)) as [|Hne]; [done|exfalso].
  assert (Z.log2 (x - 1) = Z.log2 x) as Hl.
  { apply Z.log2_unique; [apply Z.log2_nonneg|]. lia. }
  assert (Z.testbit (Z.land x (x - 1)) (Z.log2 x) = true) as Hb.
  { rewrite Z.land_spec, Z.bit_log2 by done. cbn. rewrite <- Hl. apply Z.bit_log2.
    pose proof (Z.log2_nonneg x). pose proof (pow2_pos (Z.log2 x)). lia. }
  by rewrite Hz, Z.bits_0 in Hb.
Qed.

Lemma is_power_of_2_spec (x : Z) : in_width 64 x →
  is_power_of_2 x = true ↔ ∃ k, 0 <= k < 64 ∧ x = 2 ^ k.
Proof.
  unfold is_power_of_2, in_width. intros Hx. split.
  - intros H. bool_hyps.
    rewrite u64_small in * by (unfold UINT64_MAX; lia).
    destruct (land_pred_0 x) as (k & Hk & ->); [lia|done|].
    exists k. split; [|done]. split; [done|].
    apply (Z.pow_lt_mono_r_iff 2); lia.
  - intros (k & Hk & ->). pose proof (pow2_lt_64 k Hk).
    rewrite u64_small by (unfold UINT64_MAX; lia).
    rewrite land_pred_pow2 by lia. rewrite andb_true_r, negb_true_iff.
    apply Z.eqb_neq. lia.
Qed.

(** ** Rounding *)

Lemma round_boundary_pow2 (k : Z) : 0 <= k < 64 → round_boundary (2 ^ k) = 2 ^ k - 1.
Proof.
  intros Hk. pose proof (pow2_lt_64 k Hk). apply u64_small. unfold UINT64_MAX. lia.
Qed.

Lemma round_down_pow2 (v k : Z) : 0 <= k < 64 →
  round_down v (2 ^ k) = v - v mod 2 ^ k.
Proof.
  intros Hk. unfold round_down. rewrite round_boundary_pow2 by done.
  apply ldiff_mask. lia.
Qed.

(** The smallest multiple of [b] that is not below [v]. *)
Definition align_up (v b : Z) : Z := (v + b - 1) / b * b.

Lemma align_up_spec (v b : Z) : 0 < b →
  v <= align_up v b < v + b ∧ (b | align_up v b).
Proof.
  intros Hb. unfold align_up. split; [|apply Z.divide_factor_r].
  pose proof (Z.div_mod (v + b - 1) b ltac:(lia)).
  pose proof (Z.mod_pos_bound (v + b - 1) b Hb). nia.
Qed.

Lemma round_up_pow2 (v k : Z) : 0 <= k < 64 → in_width 64 v →
  align_up v (2 ^ k) <= UINT64_MAX →
  round_up v (2 ^ k) = align_up v (2 ^ k).
Proof.
  intros Hk Hv Hle. pose proof (pow2_lt_64 k Hk) as Hp.
  pose proof (align_up_spec v (2 ^ k) ltac:(lia)) as [Hb _].
  unfold round_up, in_width, UINT64_MAX in *. rewrite round_boundary_pow2 by done.
  destruct (decide (v = 0)) as [->|Hv0].
  - assert (align_up 0 (2 ^ k) = 0) as ->.
    { unfold align_up. rewrite (Z.div_small (0 + 2 ^ k - 1)) by lia. done. }
    rewrite (u64_neg (0 - 1)) by (unfold UINT64_MAX; lia).
    rewrite lor_mask by lia. unfold UINT64_MAX.
    change (0 - 1 + 18446744073709551615 + 1) with (2 ^ 64 - 1).
    rewrite ones_pred by lia.
    assert (Z.ones 64 mod 2 ^ k = 2 ^ k - 1) as ->.
    { rewrite <- Z.land_ones, ones_pred by lia.
      rewrite Z.land_comm, Z.land_ones by lia.
      apply Z.mod_small. rewrite <- ones_pred by lia. lia. }
    rewrite <- ones_pred by lia. unfold u64, wrap.
    replace (2 ^ 64 - 1 - (2 ^ k - 1) + (2 ^ k - 1) + 1) with (1 * 2 ^ 64) by lia.
    by rewrite Z.mod_mul.
  - rewrite (u64_small (v - 1)) by (unfold UINT64_MAX; lia).
    rewrite lor_mask by lia.
    assert (v - 1 - (v - 1) mod 2 ^ k + (2 ^ k - 1) + 1 = align_up v (2 ^ k)) as ->.
    { unfold align_up. pose proof (Z.div_mod (v - 1) (2 ^ k) ltac:(lia)) as Hd.
      replace (v + 2 ^ k - 1) with (v - 1 + 1 * 2 ^ k) by lia.
      rewrite Z.div_add by lia. lia. }
    apply u64_small. unfold UINT64_MAX. lia.
Qed.

(** Fields that do not overlap add up. *)
Lemma lor_fields (a b k : Z) : 0 <= k → 0 <= b < 2 ^ k → Z.lor (a * 2 ^ k) b = a * 2 ^ k + b.
Proof.
  intros Hk Hb. rewrite <- Z.add_lor_land.
  rewrite <- (Z.mod_small b (2 ^ k)) at 3 by done.
  rewrite <- Z.land_ones, (Z.land_comm b), Z.land_assoc, Z.land_ones, Z_mod_mult by done.
  rewrite Z.land_0_l. lia.
Qed.
