(* ===== verification/TimerFramework.v ===== *)
(** * The timer framework (tftf/framework/timer/timer_framework.c)

    One physical timer is shared by all cores.  Each core may have one pending
    request, an absolute time in milliseconds; the timer is programmed for one
    core at a time, [current_prog_core].  Requests less than one step apart
    are merged: the handler running on the programmed core wakes the others
    with an SGI.

    The device drivers, the GIC and the CPU's own registers are the
    environment: the values a call reads from them are fields of [cpu_env] or
    of [plat_timer_t], and the calls made to them are recorded in order in
    [calls], the newest first. *)

From S2P Require Import Prelude.

Local Open Scope Z_scope.

Definition INVALID_CORE : Z := UINT32_MAX.
Definition INVALID_TIME : Z := UINT64_MAX.
Definition MAX_TIME_OUT_MS : Z := 10000.
Definition IRQ_WAKE_SGI : Z := 7.
Definition GIC_HIGHEST_NS_PRIORITY : Z := 0.
Definition PSCI_E_SUCCESS : Z := 0.

(** The I bit of DAIF as [read_daif()] returns it; [disable_irq()] sets it. *)
Definition DAIF_I : Z := 128.

(** A function pointer; 0 is NULL. *)
Definition irq_handler_t : Type := Z.

(** The platform's timer: the return codes of its [program] and [cancel]
    operations, whether it has a [handler], its step and its interrupt. *)
Record plat_timer_t := {
  program : Z → Z;
  cancel : Z;
  handler : irq_handler_t;
  timer_step_value : Z;
  timer_irq : Z;
}.

(** What a call reads from the CPU it runs on and from the hardware. *)
Record cpu_env := {
  (** [platform_get_core_pos(read_mpidr_el1())] *)
  core_pos : Z;
  (** [syscounter_read()] *)
  syscounter : Z;
  (** [arm_gic_is_intr_pending(TIMER_IRQ)] *)
  timer_pending : bool;
  (** [tftf_is_core_pos_online(core)] *)
  core_online : Z → bool;
}.

(** The calls made to the environment. *)
Inductive dev_call : Type :=
| ProgramTimer (time_out_ms : Z)
| CancelTimer
| DriverHandler
| CoreHandler (h : irq_handler_t)
| GicSetTarget (irq core : Z)
| GicSetPriority (irq prio : Z)
| GicEnable (irq : Z)
| GicClear (irq : Z)
| RegisterTimerIrq (irq : Z)
| RegisterSgiHandler (sgi : Z) (h : irq_handler_t)
| UnregisterSgiHandler (sgi : Z)
| SendSgi (sgi core : Z)
| Isb.

#[export] Instance dev_call_eq_dec : EqDecision dev_call.
Proof. solve_decision. Defined.

Record timer_state := {
  interrupt_req_time : list Z;
  current_prog_core : Z;
  timer_lock : bool;
  systicks_per_ms : Z;
  timer_handler : list irq_handler_t;
  daif : Z;
  calls : list dev_call;
}.

Definition set_req (s : timer_state) (v : list Z) : timer_state :=
  {| interrupt_req_time := v; current_prog_core := current_prog_core s;
     timer_lock := timer_lock s; systicks_per_ms := systicks_per_ms s;
     timer_handler := timer_handler s; daif := daif s; calls := calls s |}.
Definition set_prog (s : timer_state) (v : Z) : timer_state :=
  {| interrupt_req_time := interrupt_req_time s; current_prog_core := v;
     timer_lock := timer_lock s; systicks_per_ms := systicks_per_ms s;
     timer_handler := timer_handler s; daif := daif s; calls := calls s |}.
Definition set_lock (s : timer_state) (v : bool) : timer_state :=
  {| interrupt_req_time := interrupt_req_time s;
     current_prog_core := current_prog_core s;
     timer_lock := v; systicks_per_ms := systicks_per_ms s;
     timer_handler := timer_handler s; daif := daif s; calls := calls s |}.
Definition set_systicks (s : timer_state) (v : Z) : timer_state :=
  {| interrupt_req_time := interrupt_req_time s;
     current_prog_core := current_prog_core s;
     timer_lock := timer_lock s; systicks_per_ms := v;
     timer_handler := timer_handler s; daif := daif s; calls := calls s |}.
Definition set_handlers (s : timer_state) (v : list irq_handler_t) : timer_state :=
  {| interrupt_req_time := interrupt_req_time s;
     current_prog_core := current_prog_core s;
     timer_lock := timer_lock s; systicks_per_ms := systicks_per_ms s;
     timer_handler := v; daif := daif s; calls := calls s |}.
Definition set_daif (s : timer_state) (v : Z) : timer_state :=
  {| interrupt_req_time := interrupt_req_time s;
     current_prog_core := current_prog_core s;
     timer_lock := timer_lock s; systicks_per_ms := systicks_per_ms s;
     timer_handler := timer_handler s; daif := v; calls := calls s |}.
Definition add_call (s : timer_state) (c : dev_call) : timer_state :=
  {| interrupt_req_time := interrupt_req_time s;
     current_prog_core := current_prog_core s;
     timer_lock := timer_lock s; systicks_per_ms := systicks_per_ms s;
     timer_handler := timer_handler s; daif := daif s; calls := c :: calls s |}.

(** The state before [tftf_initialise_timer()]: zeroed memory, and
    [current_prog_core] as its initialiser sets it. *)
Definition timer_boot (ncores : nat) : timer_state :=
  {| interrupt_req_time := replicate ncores 0;
     current_prog_core := INVALID_CORE; timer_lock := false;
     systicks_per_ms := 0; timer_handler := replicate ncores 0;
     daif := 0; calls := [] |}.

(** ** Primitive operations *)

Definition call (c : dev_call) : M timer_state unit := modify (λ s, add_call s c).

(** Taking a lock that is already held spins for ever. *)
Definition spin_lock : M timer_state unit :=
  λ s, if timer_lock s then Stop FuelOut else Ok (tt, set_lock s true).
Definition spin_unlock : M timer_state unit := modify (λ s, set_lock s false).

Definition read_daif : M timer_state Z := s ← get; mret (daif s).
Definition write_daif (v : Z) : M timer_state unit := modify (λ s, set_daif s v).
Definition disable_irq : M timer_state unit :=
  modify (λ s, set_daif s (Z.lor (daif s) DAIF_I)).

(** [interrupt_req_time[i]], read and written *)
Definition req_time (i : Z) : M timer_state Z :=
  s ← get; aget (interrupt_req_time s) i.
Definition write_req_time (i t : Z) : M timer_state unit :=
  s ← get;
  l ← aset (interrupt_req_time s) i t;
  modify (λ s, set_req s l).
Definition write_handler (i : Z) (h : irq_handler_t) : M timer_state unit :=
  s ← get;
  l ← aset (timer_handler s) i h;
  modify (λ s, set_handlers s l).

Section Timer.

Context (PLATFORM_CORE_COUNT : nat).
Context (plat : plat_timer_t).
(** [arm_gic_is_irq_shared(TIMER_IRQ)] *)
Context (irq_shared : bool).

Abbreviation TIMER_STEP_VALUE := (timer_step_value plat).
Abbreviation TIMER_IRQ := (timer_irq plat).

Definition PROGRAM_TIMER (ms : Z) : M timer_state Z :=
  call (ProgramTimer ms);; mret (program plat ms).

(** [get_current_time_ms()] *)
Definition get_current_time_ms (e : cpu_env) : M timer_state Z :=
  s ← get;
  assert_ (negb (systicks_per_ms s =? 0));;
  mret (syscounter e / systicks_per_ms s).

Definition get_current_prog_time : M timer_state Z :=
  s ← get;
  if current_prog_core s =? INVALID_CORE then mret 0
  else req_time (current_prog_core s).

(** [tftf_initialise_timer()].  [rc] is the return code of
    [plat_initialise_timer_ops()], [cntfrq] the counter frequency. *)
Definition tftf_initialise_timer (rc cntfrq : Z) : M timer_state Z :=
  if negb (rc =? 0) then mret rc
  else
    assert_ (negb (TIMER_STEP_VALUE =? 0));;
    modify (λ s, set_req s (replicate PLATFORM_CORE_COUNT INVALID_TIME));;
    call (RegisterTimerIrq TIMER_IRQ);;
    call (GicSetPriority TIMER_IRQ GIC_HIGHEST_NS_PRIORITY);;
    call (GicEnable TIMER_IRQ);;
    modify (λ s, set_systicks s (u32 (cntfrq / 1000)));;
    mret 0.

Definition tftf_initialise_timer_secondary_core : M timer_state unit :=
  if negb irq_shared then
    call (GicSetPriority TIMER_IRQ GIC_HIGHEST_NS_PRIORITY);;
    call (GicEnable TIMER_IRQ)
  else mret tt.

(** The loop of [get_lowest_req_core()], over the requests from core [i] on. *)
Fixpoint lowest_req_loop (l : list Z) (i lowest_timer lowest_core_req : Z) : Z :=
  match l with
  | [] => lowest_core_req
  | t :: l' =>
      if t <? lowest_timer then lowest_req_loop l' (i + 1) t i
      else lowest_req_loop l' (i + 1) lowest_timer lowest_core_req
  end.

Definition get_lowest_req_core : M timer_state Z :=
  s ← get;
  mret (lowest_req_loop (interrupt_req_time s) 0 INVALID_TIME INVALID_CORE).

Definition tftf_program_timer (e : cpu_env) (time_out_ms : Z) : M timer_state Z :=
  if (MAX_TIME_OUT_MS <? time_out_ms) || (time_out_ms =? 0) then mret (-1)
  else
    let time_out_ms :=
      if time_out_ms <? TIMER_STEP_VALUE then TIMER_STEP_VALUE else time_out_ms in
    t ← req_time (core_pos e);
    assert_ (t =? INVALID_TIME);;
    flags ← read_daif;
    disable_irq;;
    spin_lock;;
    s ← get;
    assert_ ((current_prog_core s <? Z.of_nat PLATFORM_CORE_COUNT)
             || (current_prog_core s =? INVALID_CORE));;
    current_time ← get_current_time_ms e;
    write_req_time (core_pos e) (u64 (current_time + time_out_ms));;
    prog_time ← get_current_prog_time;
    mine ← req_time (core_pos e);
    rc ← (if (prog_time =? 0) || (mine <? u64 (prog_time - TIMER_STEP_VALUE)) then
            (if irq_shared then call (GicSetTarget TIMER_IRQ (core_pos e))
             else mret tt);;
            rc ← PROGRAM_TIMER time_out_ms;
            modify (λ s, set_prog s (core_pos e));;
            mret rc
          else mret 0);
    spin_unlock;;
    write_daif flags;;
    call Isb;;
    mret rc.

(** [tftf_program_timer_and_suspend()] and
    [tftf_program_timer_and_sys_suspend()] differ only in the suspend call;
    the result is (rc, *timer_rc, *suspend_rc). *)
Definition program_and_suspend (suspend : M timer_state Z) (e : cpu_env)
    (milli_secs : Z) : M timer_state (Z * Z * Z) :=
  flags ← read_daif;
  disable_irq;;
  timer_rc_val ← tftf_program_timer e milli_secs;
  res ← (if timer_rc_val =? 0 then
           suspend_rc_val ← suspend;
           mret (if suspend_rc_val =? PSCI_E_SUCCESS then 0 else -1, suspend_rc_val)
         else mret (-1, PSCI_E_SUCCESS));
  write_daif flags;;
  call Isb;;
  mret (res.1, timer_rc_val, res.2).

Definition tftf_program_timer_and_suspend (tftf_cpu_suspend : Z → M timer_state Z)
    (e : cpu_env) (milli_secs pwr_state : Z) : M timer_state (Z * Z * Z) :=
  program_and_suspend (tftf_cpu_suspend pwr_state) e milli_secs.

Definition tftf_program_timer_and_sys_suspend (tftf_system_suspend : M timer_state Z)
    (e : cpu_env) (milli_secs : Z) : M timer_state (Z * Z * Z) :=
  program_and_suspend tftf_system_suspend e milli_secs.

(** The part of [tftf_cancel_timer()] that looks for the next consumer. *)
Definition cancel_reprogram (e : cpu_env) : M timer_state Z :=
  next ← get_lowest_req_core;
  if negb (next =? INVALID_CORE) then
    call (GicSetTarget TIMER_IRQ next);;
    modify (λ s, set_prog s next);;
    current_time ← get_current_time_ms e;
    t ← req_time next;
    if u64 (current_time + TIMER_STEP_VALUE) <? t
    then PROGRAM_TIMER (u64 (t - current_time))
    else PROGRAM_TIMER TIMER_STEP_VALUE
  else
    modify (λ s, set_prog s INVALID_CORE);;
    mret 0.

Definition tftf_cancel_timer (e : cpu_env) : M timer_state Z :=
  flags ← read_daif;
  disable_irq;;
  spin_lock;;
  write_req_time (core_pos e) INVALID_TIME;;
  s ← get;
  rc ← (if core_pos e =? current_prog_core s then
          call CancelTimer;;
          if negb (cancel plat =? 0) then mret (cancel plat)
          else
            (if timer_pending e then call (GicClear TIMER_IRQ) else mret tt);;
            cancel_reprogram e
        else mret 0);
  spin_unlock;;
  write_daif flags;;
  call Isb;;
  mret rc.

(** [tftf_send_sgi()] of lib/exceptions/irq.c. *)
Definition tftf_send_sgi (e : cpu_env) (sgi core : Z) : M timer_state unit :=
  assert_ (core_online e core);;
  call (SendSgi sgi core).

(** The loop of the handler that wakes the cores of the same time slice: it
    walks [n] cores from core [i] on. *)
Fixpoint wake_loop (e : cpu_env) (limit : Z) (n : nat) (i : Z) : M timer_state unit :=
  match n with
  | O => mret tt
  | S n' =>
      t ← req_time i;
      (if t <=? limit then
         write_req_time i INVALID_TIME;;
         tftf_send_sgi e IRQ_WAKE_SGI i
       else mret tt);;
      wake_loop e limit n' (i + 1)
  end.

(** The end of the handler: program the timer for the next request. *)
Definition handler_reprogram (current_time : Z) : M timer_state Z :=
  next ← get_lowest_req_core;
  rc ← (if negb (next =? INVALID_CORE) then
          t ← req_time next;
          assert_ (current_time <? t);;
          call (GicSetTarget TIMER_IRQ next);;
          PROGRAM_TIMER (u64 (t - current_time))
        else mret 0);
  modify (λ s, set_prog s next);;
  mret rc.

Definition tftf_timer_framework_handler (e : cpu_env) : M timer_state Z :=
  t ← req_time (core_pos e);
  assert_ (negb (t =? INVALID_TIME));;
  spin_lock;;
  current_time ← get_current_time_ms e;
  s ← get;
  assert_ (core_pos e =? current_prog_core s);;
  write_req_time (core_pos e) INVALID_TIME;;
  (if negb (handler plat =? 0) then call DriverHandler else mret tt);;
  (if timer_pending e then fail PanicCall else mret tt);;
  s ← get;
  h ← aget (timer_handler s) (core_pos e);
  (if negb (h =? 0) then call (CoreHandler h) else mret tt);;
  wake_loop e (u64 (current_time + TIMER_STEP_VALUE)) PLATFORM_CORE_COUNT 0;;
  rc ← handler_reprogram current_time;
  spin_unlock;;
  mret rc.

(** [ret] is the return code of [tftf_irq_register_handler_sgi()]. *)
Definition tftf_timer_register_handler (e : cpu_env) (ret : Z) (h : irq_handler_t)
    : M timer_state Z :=
  s ← get;
  cur ← aget (timer_handler s) (core_pos e);
  assert_ (cur =? 0);;
  write_handler (core_pos e) h;;
  call (RegisterSgiHandler IRQ_WAKE_SGI h);;
  assert_ (ret =? 0);;
  mret ret.

Definition tftf_timer_unregister_handler (e : cpu_env) (ret : Z) : M timer_state Z :=
  call (UnregisterSgiHandler IRQ_WAKE_SGI);;
  assert_ (ret =? 0);;
  s ← get;
  cur ← aget (timer_handler s) (core_pos e);
  assert_ (negb (cur =? 0));;
  write_handler (core_pos e) 0;;
  mret ret.

Definition tftf_get_timer_irq : M timer_state Z :=
  assert_ (negb (TIMER_IRQ =? 0));; mret TIMER_IRQ.

Definition tftf_get_timer_step_value : M timer_state Z :=
  assert_ (negb (TIMER_STEP_VALUE =? 0));; mret TIMER_STEP_VALUE.

Definition tftf_timer_gic_state_restore (e : cpu_env) : M timer_state unit :=
  spin_lock;;
  call (GicSetPriority TIMER_IRQ GIC_HIGHEST_NS_PRIORITY);;
  call (GicEnable TIMER_IRQ);;
  t ← req_time (core_pos e);
  (if t =? INVALID_TIME then mret tt
   else
     modify (λ s, set_prog s (core_pos e));;
     call (GicSetTarget TIMER_IRQ (core_pos e)));;
  spin_unlock.

End Timer.

(** ** Inversion of the primitive operations *)

Lemma req_time_inv (i t : Z) (s s' : timer_state) :
  req_time i s = Ok (t, s') → s' = s ∧ zget (interrupt_req_time s) i = Some t.
Proof.
  unfold req_time. intros H. inv_run. unfold aget in H.
  destruct (zget _ i) eqn:E; by simplify_eq.
Qed.

Lemma aget_inv {A} (l : list A) (i : Z) (x : A) (s s' : timer_state) :
  aget l i s = Ok (x, s') → s' = s ∧ zget l i = Some x.
Proof. unfold aget. intros H. destruct (zget l i) eqn:E; by simplify_eq. Qed.

Lemma write_req_time_inv (i t : Z) (u : unit) (s s' : timer_state) :
  write_req_time i t s = Ok (u, s') →
  s' = set_req s (zset (interrupt_req_time s) i t)
  ∧ 0 <= i < zlen (interrupt_req_time s).
Proof.
  unfold write_req_time. intros H. inv_run. unfold aset, in_range in *.
  repeat case_Z; cbn in *; simplify_eq; split; [done|lia].
Qed.

Lemma write_handler_inv (i h : Z) (u : unit) (s s' : timer_state) :
  write_handler i h s = Ok (u, s') →
  s' = set_handlers s (zset (timer_handler s) i h).
Proof.
  unfold write_handler. intros H. inv_run. unfold aset in *.
  case_match; by simplify_eq.
Qed.

Lemma spin_lock_inv (u : unit) (s s' : timer_state) :
  spin_lock s = Ok (u, s') → s' = set_lock s true ∧ timer_lock s = false.
Proof. unfold spin_lock. destruct (timer_lock s) eqn:E; intros; by simplify_eq. Qed.

Ltac inv_timer :=
  repeat first
  [ progress inv_run
  | match goal with
    | H : req_time _ _ = Ok _ |- _ => apply req_time_inv in H as [-> H]
    | H : aget _ _ _ = Ok _ |- _ => apply aget_inv in H as [-> H]
    | H : write_req_time _ _ _ = Ok _ |- _ => apply write_req_time_inv in H as [-> H]
    | H : write_handler _ _ _ = Ok _ |- _ => apply write_handler_inv in H as ->
    | H : spin_lock _ = Ok _ |- _ => apply spin_lock_inv in H as [-> H]
    | H : spin_unlock _ = Ok _ |- _ => unfold spin_unlock in H
    | H : call _ _ = Ok _ |- _ => unfold call in H
    | H : read_daif _ = Ok _ |- _ => unfold read_daif in H
    | H : write_daif _ _ = Ok _ |- _ => unfold write_daif in H
    | H : disable_irq _ = Ok _ |- _ => unfold disable_irq in H
    | H : get_current_time_ms _ _ = Ok _ |- _ => unfold get_current_time_ms in H
    | H : get_lowest_req_core _ = Ok _ |- _ => unfold get_lowest_req_core in H
    | H : PROGRAM_TIMER _ _ _ = Ok _ |- _ => unfold PROGRAM_TIMER in H
    | H : tftf_send_sgi _ _ _ _ = Ok _ |- _ => unfold tftf_send_sgi in H
    | H : (if ?b then _ else _) _ = Ok _ |- _ => destruct b eqn:?
    end ].

(** ** The earliest request *)

Section lowest.

(** [lowest_req_loop] returns the initial core when nothing in the list is
    below the initial time, and otherwise the first minimum of the list. *)
Lemma lowest_req_loop_spec (l : list Z) (i lt lc : Z) :
  (lowest_req_loop l i lt lc = lc ∧ ∀ t, t ∈ l → lt <= t)
  ∨ ∃ k t, l !! k = Some t ∧ lowest_req_loop l i lt lc = i + Z.of_nat k
           ∧ t < lt ∧ (∀ t', t' ∈ l → t <= t').
Proof.
  revert i lt lc. induction l as [|a l IH]; intros i lt lc; cbn.
  { left. split; [done|]. intros t Ht. by apply not_elem_of_nil in Ht. }
  destruct (Z.ltb_spec a lt) as [Ha|Ha].
  - right. destruct (IH (i + 1) a i) as [[-> Hmin]|(k & t & Hk & -> & Hlt & Hmin)].
    + exists 0%nat, a. split_and!; [done|lia|done|].
      intros t' [->|Ht']%elem_of_cons; [lia|by apply Hmin].
    + exists (S k), t. split_and!; [done|lia|lia|].
      intros t' [->|Ht']%elem_of_cons; [lia|by apply Hmin].
  - destruct (IH (i + 1) lt lc) as [[-> Hmin]|(k & t & Hk & -> & Hlt & Hmin)].
    + left. split; [done|]. intros t' [->|Ht']%elem_of_cons; [lia|by apply Hmin].
    + right. exists (S k), t. split_and!; [done|lia|done|].
      intros t' [->|Ht']%elem_of_cons; [lia|by apply Hmin].
Qed.

Lemma zget_elem_of (l : list Z) (i t : Z) : zget l i = Some t → t ∈ l.
Proof.
  unfold zget. case_Z; [done|]. intros Hl. by apply list_elem_of_lookup_2 in Hl.
Qed.

(** The core [get_lowest_req_core()] finds: INVALID_CORE when no core has a
    request, otherwise the core of an earliest request. *)
Definition is_lowest (l : list Z) (c : Z) : Prop :=
  (c = INVALID_CORE ∧ ∀ i t, zget l i = Some t → t = INVALID_TIME)
  ∨ (∃ t, zget l c = Some t ∧ t < INVALID_TIME
          ∧ ∀ i t', zget l i = Some t' → t <= t').

Lemma lowest_is_lowest (l : list Z) :
  (∀ i t, zget l i = Some t → t <= INVALID_TIME) →
  is_lowest l (lowest_req_loop l 0 INVALID_TIME INVALID_CORE).
Proof.
  intros Hle.
  destruct (lowest_req_loop_spec l 0 INVALID_TIME INVALID_CORE)
    as [[-> Hmin]|(k & t & Hk & -> & Hlt & Hmin)].
  - left. split; [done|]. intros i t Ht.
    specialize (Hle _ _ Ht). apply zget_elem_of, Hmin in Ht. lia.
  - right. exists t. split_and!; [|done|].
    + unfold zget. case_Z; [lia|]. by rewrite Z.add_0_l, Nat2Z.id.
    + intros i t' Ht'. by eapply Hmin, zget_elem_of.
Qed.

End lowest.

(** ** The invariant of the timer framework *)

Section TimerInvariant.

Context (PLATFORM_CORE_COUNT : nat).
Context (plat : plat_timer_t).
Context (irq_shared : bool).

Abbreviation STEP := (timer_step_value plat).
Abbreviation NCORES := (Z.of_nat PLATFORM_CORE_COUNT).

(** No request is lost: while some core has a request, the timer is
    programmed for a core with a request that is due at most one step after
    it. *)
Record timer_ok (s : timer_state) : Prop := {
  ok_len : zlen (interrupt_req_time s) = NCORES;
  ok_hlen : zlen (timer_handler s) = NCORES;
  ok_ticks : 0 < systicks_per_ms s;
  ok_lock : timer_lock s = false;
  ok_times : ∀ i t, zget (interrupt_req_time s) i = Some t →
    t = INVALID_TIME ∨ STEP <= t < INVALID_TIME;
  ok_prog : current_prog_core s = INVALID_CORE ∨
    ∃ t, zget (interrupt_req_time s) (current_prog_core s) = Some t ∧ t ≠ INVALID_TIME;
  ok_cover : ∀ i t, zget (interrupt_req_time s) i = Some t → t ≠ INVALID_TIME →
    ∃ tp, zget (interrupt_req_time s) (current_prog_core s) = Some tp
          ∧ tp ≠ INVALID_TIME ∧ tp <= t + STEP;
}.

(** The system counter is far from wrapping around. *)
Definition clock_sane (e : cpu_env) : Prop := 0 <= syscounter e < 2 ^ 63.

Definition plat_sane : Prop :=
  0 < STEP <= MAX_TIME_OUT_MS ∧ 0 < NCORES < INVALID_CORE.

(** The current time in milliseconds, as the framework computes it. *)
Definition now (e : cpu_env) (s : timer_state) : Z :=
  syscounter e / systicks_per_ms s.

Lemma now_bounds (e : cpu_env) (s : timer_state) :
  clock_sane e → 0 < systicks_per_ms s → 0 <= now e s < 2 ^ 63.
Proof.
  unfold clock_sane, now. intros Hc Hs. split.
  - apply Z.div_pos; lia.
  - apply Z.div_lt_upper_bound; nia.
Qed.

Lemma ok_time_le (s : timer_state) (i t : Z) :
  timer_ok s → zget (interrupt_req_time s) i = Some t → t <= INVALID_TIME.
Proof. intros Hok Ht. destruct (ok_times s Hok i t Ht); lia. Qed.

Lemma invalid_core_out (s : timer_state) :
  plat_sane → timer_ok s → zget (interrupt_req_time s) INVALID_CORE = None.
Proof.
  intros [_ Hn] Hok. apply zget_None. rewrite (ok_len s Hok). lia.
Qed.

(** Updates that touch neither the requests nor the programmed core keep
    the invariant. *)
Lemma timer_ok_frame (s s' : timer_state) :
  timer_ok s →
  interrupt_req_time s' = interrupt_req_time s →
  current_prog_core s' = current_prog_core s →
  systicks_per_ms s' = systicks_per_ms s →
  zlen (timer_handler s') = zlen (timer_handler s) →
  timer_lock s' = timer_lock s →
  timer_ok s'.
Proof.
  intros [] E1 E2 E3 E4 E5. split; rewrite ?E1, ?E2, ?E3, ?E4, ?E5; done.
Qed.

(** A freshly chosen minimum covers every request. *)
Lemma lowest_covers (l : list Z) (c : Z) :
  0 < STEP →
  is_lowest l c →
  (∀ i t, zget l i = Some t → t = INVALID_TIME ∨ STEP <= t < INVALID_TIME) →
  (c = INVALID_CORE ∨ ∃ t, zget l c = Some t ∧ t ≠ INVALID_TIME)
  ∧ (∀ i t, zget l i = Some t → t ≠ INVALID_TIME →
      ∃ tp, zget l c = Some tp ∧ tp ≠ INVALID_TIME ∧ tp <= t + STEP).
Proof.
  intros Hs [[-> Hnone]|(t & Hc & Hlt & Hmin)] Htimes.
  - split; [by left|]. intros i t Ht Hne. by apply Hnone in Ht.
  - split; [right; exists t; split; [done|lia]|].
    intros i t' Ht' Hne. exists t. split_and!; [done|lia|].
    specialize (Hmin _ _ Ht'). lia.
Qed.

(** Clearing a request keeps every time in range. *)
Lemma times_clear (l : list Z) (i : Z) :
  (∀ i t, zget l i = Some t → t = INVALID_TIME ∨ STEP <= t < INVALID_TIME) →
  ∀ j t, zget (zset l i INVALID_TIME) j = Some t →
         t = INVALID_TIME ∨ STEP <= t < INVALID_TIME.
Proof.
  intros H j t. rewrite zget_zset. case_decide; [|by apply H].
  intros [= <-]. by left.
Qed.

(** *** Initialisation *)

Lemma initialise_timer_ok (cntfrq : Z) (s : timer_state) :
  plat_sane → 1000 <= cntfrq < 2 ^ 32 →
  tftf_initialise_timer PLATFORM_CORE_COUNT plat 0 cntfrq
    (timer_boot PLATFORM_CORE_COUNT) = Ok (0, s) →
  timer_ok s.
Proof.
  intros [Hs Hn] Hf H. unfold tftf_initialise_timer in H. cbn in H.
  inv_timer.
  assert (u32 (cntfrq / 1000) = cntfrq / 1000) as Hu.
  { apply u32_small. split; [apply Z.div_pos; lia|].
    assert (cntfrq / 1000 <= cntfrq) by (apply Z.div_le_upper_bound; lia).
    unfold UINT32_MAX. lia. }
  assert (0 < cntfrq / 1000) by (apply Z.div_str_pos; lia).
  assert (∀ i t, zget (replicate PLATFORM_CORE_COUNT INVALID_TIME) i = Some t →
                 t = INVALID_TIME) as Hall.
  { intros i t Ht. pose proof (zget_Some_range _ _ _ Ht) as Hr.
    rewrite zlen_replicate in Hr. rewrite zget_replicate in Ht by lia.
    by simplify_eq. }
  split; cbn; rewrite ?zlen_replicate; try done.
  - rewrite Hu. lia.
  - intros i t Ht. left. by eapply Hall.
  - by left.
  - intros i t Ht Hne. by apply Hall in Ht.
Qed.

(** *** Programming the timer *)

(** The result of a successful [tftf_program_timer()]: which requests stay,
    which core is programmed, and that the lock and DAIF are given back. *)
Lemma program_timer_inv (e : cpu_env) (ms rc : Z) (s s' : timer_state) :
  tftf_program_timer PLATFORM_CORE_COUNT plat irq_shared e ms s = Ok (rc, s') →
  (s' = s ∧ rc = -1 ∧ (MAX_TIME_OUT_MS < ms ∨ ms = 0))
  ∨ (let t := u64 (now e s + Z.max ms STEP) in
     let l := zset (interrupt_req_time s) (core_pos e) t in
     ms <= MAX_TIME_OUT_MS ∧ ms ≠ 0 ∧
     0 <= core_pos e < zlen (interrupt_req_time s) ∧
     zget (interrupt_req_time s) (core_pos e) = Some INVALID_TIME ∧
     timer_lock s = false ∧ systicks_per_ms s ≠ 0 ∧
     interrupt_req_time s' = l ∧ timer_handler s' = timer_handler s ∧
     systicks_per_ms s' = systicks_per_ms s ∧ timer_lock s' = false ∧
     daif s' = daif s ∧
     ∃ tp, (if current_prog_core s =? INVALID_CORE then tp = 0
            else zget l (current_prog_core s) = Some tp) ∧
       if (tp =? 0) || (t <? u64 (tp - STEP))
       then current_prog_core s' = core_pos e ∧ rc = program plat (Z.max ms STEP)
            ∧ calls s' = Isb :: ProgramTimer (Z.max ms STEP)
                :: (if irq_shared then [GicSetTarget (timer_irq plat) (core_pos e)]
                    else []) ++ calls s
       else current_prog_core s' = current_prog_core s ∧ rc = 0
            ∧ calls s' = Isb :: calls s).
Proof.
  unfold tftf_program_timer. intros H.
  destruct (_ || _) eqn:Hbad.
  { inv_run. left. split_and!; [done|done|]. apply orb_true_iff in Hbad as [?%Z.ltb_lt|?%Z.eqb_eq]; lia. }
  right. cbn zeta.
  replace (if ms <? STEP then STEP else ms) with (Z.max ms STEP) in H
    by (destruct (Z.ltb_spec ms STEP); lia).
  unfold get_current_prog_time in H.
  apply orb_false_iff in Hbad as [Hb1%Z.ltb_ge Hb2%Z.eqb_neq].
  unfold now. inv_timer; cbn in *; simplify_eq;
    rewrite ?zget_zset_eq in * by lia; simplify_eq;
    split_and!; try (bool_hyps; congruence || lia).
  all: match goal with
       | H : (current_prog_core _ =? INVALID_CORE) = _ |- _ => rewrite H
       end; eexists; split; [done || eassumption|].
  all: repeat match goal with
       | H : ?b = _ |- context [if ?b then _ else _] => rewrite H
       end; done.
Qed.

Lemma program_timer_preserves (e : cpu_env) (ms rc : Z) (s s' : timer_state) :
  plat_sane → clock_sane e → 0 <= ms → timer_ok s →
  tftf_program_timer PLATFORM_CORE_COUNT plat irq_shared e ms s = Ok (rc, s') →
  timer_ok s'.
Proof.
  intros Hps Hc Hms Hok H. pose proof Hps as [Hst Hn]. unfold MAX_TIME_OUT_MS in Hst.
  pose proof (now_bounds e s Hc (ok_ticks s Hok)) as Hnow.
  apply program_timer_inv in H as [(-> & _)|H]; [done|].
  cbn zeta in H. unfold MAX_TIME_OUT_MS in H.
  destruct H as (Hms1 & Hms2 & Hr & Hinv & _ & _ & El & Eh & Et & Elk & _ & tp & Htp & Hif).
  set (t := u64 (now e s + Z.max ms STEP)) in *.
  assert (t = now e s + Z.max ms STEP) as Ht.
  { apply u64_small. unfold UINT64_MAX. lia. }
  assert (t < INVALID_TIME) as Htlt by (unfold INVALID_TIME, UINT64_MAX; lia).
  assert (zget (interrupt_req_time s') (core_pos e) = Some t) as Hmine
    by (rewrite El; by apply zget_zset_eq).
  (* the programmed core before the call, when there is one *)
  assert (tp ≠ 0 → STEP <= tp < INVALID_TIME
          ∧ current_prog_core s ≠ core_pos e
          ∧ zget (interrupt_req_time s) (current_prog_core s) = Some tp) as Hold.
  { intros H0. destruct (Z.eqb_spec (current_prog_core s) INVALID_CORE) as [E|E]; [done|].
    destruct (ok_prog s Hok) as [?|(t0 & Ht0 & Hne)]; [done|].
    assert (current_prog_core s ≠ core_pos e) as Hd by congruence.
    rewrite zget_zset_ne in Htp by congruence. simplify_eq.
    destruct (ok_times s Hok _ _ Htp); [done|]. done. }
  assert (∀ i t', zget (interrupt_req_time s') i = Some t' →
          (i = core_pos e ∧ t' = t) ∨ zget (interrupt_req_time s) i = Some t') as Hcase.
  { intros i t' Hi. rewrite El, zget_zset in Hi. case_decide as Hd; [|by right].
    left. destruct Hd. split; congruence. }
  split.
  - rewrite El. autorewrite with tftf. apply (ok_len s Hok).
  - rewrite Eh. apply (ok_hlen s Hok).
  - rewrite Et. apply (ok_ticks s Hok).
  - done.
  - intros i t' [[-> ->]|Hi]%Hcase; [lia|by eapply ok_times].
  - destruct (_ || _) eqn:Hb in Hif; destruct Hif as [Ep _]; rewrite Ep.
    { right. exists t. split; [done|lia]. }
    apply orb_false_iff in Hb as [H0%Z.eqb_neq _].
    destruct (Hold H0) as (Hrange & Hd & Hz). right. exists tp.
    rewrite El, zget_zset_ne by congruence. split; [done|lia].
  - intros i t' Hi Hne.
    destruct (_ || _) eqn:Hb in Hif; destruct Hif as [Ep _]; rewrite Ep.
    + exists t. split_and!; [done|lia|].
      destruct (Hcase _ _ Hi) as [[-> ->]|Hs]; [lia|].
      (* the new request is earlier than the one programmed before *)
      destruct (ok_cover s Hok _ _ Hs Hne) as (tp0 & Hp0 & Hne0 & Hle0).
      destruct (Z.eqb_spec (current_prog_core s) INVALID_CORE) as [E|E].
      { rewrite E, invalid_core_out in Hp0 by done. done. }
      assert (current_prog_core s ≠ core_pos e) as Hd by congruence.
      rewrite zget_zset_ne in Htp by congruence. simplify_eq.
      destruct (ok_times s Hok _ _ Htp) as [?|Hrg]; [done|].
      apply orb_true_iff in Hb as [H0%Z.eqb_eq|Hlt%Z.ltb_lt]; [lia|].
      rewrite (u64_small (tp - STEP)) in Hlt by (unfold INVALID_TIME in *; lia). lia.
    + apply orb_false_iff in Hb as [H0%Z.eqb_neq Hge%Z.ltb_ge].
      destruct (Hold H0) as (Hrange & Hd & Hz).
      rewrite (u64_small (tp - STEP)) in Hge by (unfold INVALID_TIME in *; lia).
      exists tp. rewrite El at 1. rewrite zget_zset_ne by congruence.
      split_and!; [done|lia|].
      destruct (Hcase _ _ Hi) as [[-> ->]|Hs]; [lia|].
      destruct (ok_cover s Hok _ _ Hs Hne) as (tp0 & Hp0 & Hne0 & Hle0).
      simplify_eq. done.
Qed.

(** *** Cancelling *)

(** The requests of [l] at or before [limit], cleared. *)
Lemma cancel_reprogram_inv (e : cpu_env) (rc : Z) (s s' : timer_state) :
  cancel_reprogram plat e s = Ok (rc, s') →
  interrupt_req_time s' = interrupt_req_time s ∧
  timer_handler s' = timer_handler s ∧ systicks_per_ms s' = systicks_per_ms s ∧
  timer_lock s' = timer_lock s ∧ daif s' = daif s ∧
  current_prog_core s' =
    lowest_req_loop (interrupt_req_time s) 0 INVALID_TIME INVALID_CORE.
Proof.
  unfold cancel_reprogram. intros H. inv_timer; cbn; try done.
  bool_hyps. split_and!; congruence || done.
Qed.

Lemma cancel_timer_inv (e : cpu_env) (rc : Z) (s s' : timer_state) :
  cancel plat = 0 →
  tftf_cancel_timer plat e s = Ok (rc, s') →
  let l := zset (interrupt_req_time s) (core_pos e) INVALID_TIME in
  interrupt_req_time s' = l ∧
  timer_handler s' = timer_handler s ∧ systicks_per_ms s' = systicks_per_ms s ∧
  timer_lock s' = false ∧ daif s' = daif s ∧
  current_prog_core s' =
    if core_pos e =? current_prog_core s
    then lowest_req_loop l 0 INVALID_TIME INVALID_CORE
    else current_prog_core s.
Proof.
  unfold tftf_cancel_timer. intros Hc H. cbn zeta. inv_timer.
  all: try (rewrite Hc in *; done).
  all: try (match goal with
       | H : cancel_reprogram _ _ _ = Ok _ |- _ =>
           apply cancel_reprogram_inv in H as (E1 & E2 & E3 & E4 & E5 & E6)
       end).
  all: cbn in *; repeat match goal with
       | H : ?b = _ |- context [if ?b then _ else _] => rewrite H
       end; done.
Qed.

Lemma cancel_timer_preserves (e : cpu_env) (rc : Z) (s s' : timer_state) :
  plat_sane → cancel plat = 0 → timer_ok s →
  tftf_cancel_timer plat e s = Ok (rc, s') → timer_ok s'.
Proof.
  intros [Hst Hn] Hc Hok H.
  apply cancel_timer_inv in H as (El & Eh & Et & Elk & _ & Ep); [|done].
  pose proof (times_clear (interrupt_req_time s) (core_pos e) (ok_times s Hok)) as Hcl.
  rewrite <- El in Hcl, Ep.
  assert (is_lowest (interrupt_req_time s')
            (lowest_req_loop (interrupt_req_time s') 0 INVALID_TIME INVALID_CORE)) as Hlow.
  { apply lowest_is_lowest. intros i t Ht. destruct (Hcl _ _ Ht); lia. }
  destruct (lowest_covers _ _ ltac:(lia) Hlow Hcl) as [Hlp Hlc].
  split.
  - rewrite El, zlen_zset. apply (ok_len s Hok).
  - rewrite Eh. apply (ok_hlen s Hok).
  - rewrite Et. apply (ok_ticks s Hok).
  - done.
  - done.
  - rewrite Ep. case_Z; [done|].
    destruct (ok_prog s Hok) as [?|(t & Ht & Hne)]; [by left|right].
    exists t. by rewrite El, zget_zset_ne.
  - intros i t Hi Hne. rewrite Ep. case_Z; [by eapply Hlc|].
    rewrite El, zget_zset in Hi. case_decide; [congruence|].
    destruct (ok_cover s Hok _ _ Hi Hne) as (tp & Htp & ?).
    exists tp. rewrite El, zget_zset_ne by done. done.
Qed.


(** *** The interrupt handler *)

(** A request at or before [limit] is cleared. *)
Definition clear_due (limit t : Z) : Z := if t <=? limit then INVALID_TIME else t.

(** The cores, numbered from [i], whose request is at or before [limit]. *)
Fixpoint due_cores (l : list Z) (limit i : Z) : list Z :=
  match l with
  | [] => []
  | t :: l' =>
      if t <=? limit then i :: due_cores l' limit (i + 1)
      else due_cores l' limit (i + 1)
  end.

(** [s] with requests [l], after the SGIs to [cs] were sent in this order. *)
Definition woken_state (s : timer_state) (l cs : list Z) : timer_state :=
  {| interrupt_req_time := l; current_prog_core := current_prog_core s;
     timer_lock := timer_lock s; systicks_per_ms := systicks_per_ms s;
     timer_handler := timer_handler s; daif := daif s;
     calls := rev (map (SendSgi IRQ_WAKE_SGI) cs) ++ calls s |}.

Lemma wake_loop_run (e : cpu_env) (limit : Z) (suf pre : list Z) (s : timer_state) :
  interrupt_req_time s = pre ++ suf →
  wake_loop e limit (length suf) (zlen pre) s =
  if forallb (core_online e) (due_cores suf limit (zlen pre))
  then Ok (tt, woken_state s (pre ++ map (clear_due limit) suf)
                 (due_cores suf limit (zlen pre)))
  else Stop AssertFail.
Proof.
  revert pre s. induction suf as [|t suf IH]; intros pre s Hs; cbn [length wake_loop].
  { cbn. rewrite <- Hs. by destruct s. }
  unfold mbind at 1, M_bind at 1, req_time, get, mbind at 1, M_bind at 1.
  rewrite Hs. unfold aget. rewrite zget_mid.
  unfold mbind at 1, M_bind at 1. cbn [due_cores map].
  unfold clear_due at 1. destruct (Z.leb_spec t limit) as [Hd|Hd].
  - unfold write_req_time, tftf_send_sgi, assert_, get, mbind, M_bind, aset.
    rewrite Hs. unfold in_range. autorewrite with tftf.
    pose proof (zlen_nonneg pre). pose proof (zlen_nonneg suf).
    rewrite (proj2 (Z.leb_le 0 (zlen pre))),
      (proj2 (Z.ltb_lt (zlen pre) (zlen pre + (zlen suf + 1)))) by lia.
    cbn [andb]. unfold modify. rewrite zset_mid. cbn [forallb].
    destruct (core_online e (zlen pre)); [|done]. cbn [andb call modify].
    replace (zlen pre + 1) with (zlen (pre ++ [INVALID_TIME])) by (autorewrite with tftf; done).
    rewrite IH by (cbn; by rewrite <- app_assoc). rewrite <- !app_assoc. cbn [app].
    destruct (forallb _ _); [|done]. unfold woken_state. cbn.
    by rewrite <- app_assoc.
  - unfold mret, M_ret.
    replace (zlen pre + 1) with (zlen (pre ++ [t])) by (autorewrite with tftf; done).
    rewrite IH by (by rewrite <- app_assoc). rewrite <- !app_assoc. done.
Qed.


Lemma zget_map_clear (limit : Z) (l : list Z) (i t : Z) :
  zget (map (clear_due limit) l) i = Some t ↔
  ∃ t0, zget l i = Some t0 ∧ t = clear_due limit t0.
Proof.
  unfold zget. case_Z; [naive_solver|].
  replace (map (clear_due limit) l) with (clear_due limit <$> l) by done.
  rewrite list_lookup_fmap_Some. naive_solver.
Qed.

Lemma due_cores_spec (l : list Z) (limit i c : Z) :
  c ∈ due_cores l limit i ↔
  ∃ t, zget l (c - i) = Some t ∧ t <= limit.
Proof.
  revert i. induction l as [|t l IH]; intros i; cbn.
  { split; [by intros ?%not_elem_of_nil|]. intros (t & Ht & _).
    unfold zget in Ht. case_match; [done|]. by rewrite lookup_nil in Ht. }
  assert (zget (t :: l) (c - i) = if decide (c = i) then Some t else zget l (c - (i + 1))) as ->.
  { case_decide as Hd.
    - subst. by rewrite Z.sub_diag.
    - unfold zget. destruct (Z.ltb_spec (c - i) 0), (Z.ltb_spec (c - (i + 1)) 0); [done|lia|lia|].
      replace (Z.to_nat (c - i)) with (S (Z.to_nat (c - (i + 1)))) by lia. done. }
  specialize (IH (i + 1)).
  destruct (Z.leb_spec t limit); rewrite ?elem_of_cons, IH; case_decide as Hd.
  - split; [intros _; eauto|auto].
  - naive_solver.
  - subst. split.
    + intros (t' & Ht' & _). apply zget_Some_range in Ht'. lia.
    + intros (t' & Ht' & ?). simplify_eq. lia.
  - done.
Qed.

(** What the handler leaves behind: the requests after the wake-ups, and the
    calls it made for the next request, the newest first. *)
Definition handler_left (e : cpu_env) (s : timer_state) : list Z :=
  map (clear_due (now e s + STEP)) (zset (interrupt_req_time s) (core_pos e) INVALID_TIME).

Definition handler_woken (e : cpu_env) (s : timer_state) : list Z :=
  due_cores (zset (interrupt_req_time s) (core_pos e) INVALID_TIME) (now e s + STEP) 0.

Definition reprogram_calls (l : list Z) (t0 : Z) : list dev_call :=
  let next := lowest_req_loop l 0 INVALID_TIME INVALID_CORE in
  match zget l next with
  | Some t => [ProgramTimer (t - t0); GicSetTarget (timer_irq plat) next]
  | None => []
  end.

Definition own_calls (h : Z) : list dev_call :=
  (if h =? 0 then [] else [CoreHandler h])
    ++ (if handler plat =? 0 then [] else [DriverHandler]).

Lemma left_times (e : cpu_env) (s : timer_state) (i t : Z) :
  timer_ok s → zget (handler_left e s) i = Some t →
  t = INVALID_TIME ∨ (STEP <= t < INVALID_TIME ∧ now e s + STEP < t).
Proof.
  intros Hok. unfold handler_left. rewrite zget_map_clear.
  intros (t0 & Ht0 & ->). unfold clear_due. case_Z; [by left|].
  destruct (times_clear _ _ (ok_times s Hok) _ _ Ht0); [by left|right; lia].
Qed.

(** The end of the handler, in a state whose remaining requests are all later
    than the current time. *)
Lemma handler_reprogram_run (t0 : Z) (s : timer_state) :
  0 < NCORES < INVALID_CORE → zlen (interrupt_req_time s) = NCORES → 0 <= t0 →
  (∀ i t, zget (interrupt_req_time s) i = Some t → t = INVALID_TIME ∨ t0 < t < INVALID_TIME) →
  ∃ rc,
  handler_reprogram plat t0 s =
    Ok (rc, {| interrupt_req_time := interrupt_req_time s;
               current_prog_core := lowest_req_loop (interrupt_req_time s) 0
                                      INVALID_TIME INVALID_CORE;
               timer_lock := timer_lock s; systicks_per_ms := systicks_per_ms s;
               timer_handler := timer_handler s; daif := daif s;
               calls := reprogram_calls (interrupt_req_time s) t0 ++ calls s |}).
Proof.
  intros Hn Hlen Ht0 Htimes.
  assert (is_lowest (interrupt_req_time s)
    (lowest_req_loop (interrupt_req_time s) 0 INVALID_TIME INVALID_CORE)) as Hlow.
  { apply lowest_is_lowest. intros i t Ht. destruct (Htimes _ _ Ht); lia. }
  unfold handler_reprogram, reprogram_calls, get_lowest_req_core, get, mret, M_ret,
    mbind, M_bind.
  destruct Hlow as [[-> Hnone]|(t & Hc & Hlt & Hmin)].
  - assert (zget (interrupt_req_time s) INVALID_CORE = None) as ->.
    { apply zget_None. lia. }
    rewrite Z.eqb_refl. cbn. by eexists.
  - pose proof (zget_Some_range _ _ _ Hc) as Hr.
    destruct (Z.eqb_spec (lowest_req_loop (interrupt_req_time s) 0 INVALID_TIME INVALID_CORE)
      INVALID_CORE) as [E|_]; [lia|].
    cbn. unfold req_time, aget, get, mbind, M_bind. rewrite Hc.
    destruct (Htimes _ _ Hc) as [?|Hlate]; [lia|].
    unfold assert_. rewrite (proj2 (Z.ltb_lt t0 t)) by lia.
    cbn. rewrite (u64_small (t - t0)) by (unfold INVALID_TIME in *; lia).
    by eexists.
Qed.


(** The state a successful run of the handler ends in. *)
Definition handler_post (e : cpu_env) (h : Z) (s : timer_state) : timer_state :=
  {| interrupt_req_time := handler_left e s;
     current_prog_core := lowest_req_loop (handler_left e s) 0 INVALID_TIME INVALID_CORE;
     timer_lock := false; systicks_per_ms := systicks_per_ms s;
     timer_handler := timer_handler s; daif := daif s;
     calls := reprogram_calls (handler_left e s) (now e s)
                ++ rev (map (SendSgi IRQ_WAKE_SGI) (handler_woken e s))
                ++ own_calls h ++ calls s |}.

Lemma handler_run (e : cpu_env) (t h : Z) (s : timer_state) :
  plat_sane → clock_sane e → timer_ok s →
  core_pos e = current_prog_core s →
  zget (interrupt_req_time s) (core_pos e) = Some t → t ≠ INVALID_TIME →
  zget (timer_handler s) (core_pos e) = Some h →
  timer_pending e = false →
  forallb (core_online e) (handler_woken e s) = true →
  ∃ rc, tftf_timer_framework_handler PLATFORM_CORE_COUNT plat e s =
        Ok (rc, handler_post e h s).
Proof.
  intros [Hst Hn] Hc Hok Hpos Ht Hne Hh Hpend Hon. unfold MAX_TIME_OUT_MS in Hst.
  pose proof (now_bounds e s Hc (ok_ticks s Hok)) as Hnow.
  pose proof (zget_Some_range _ _ _ Ht) as Hr.
  set (s1 := {| interrupt_req_time := zset (interrupt_req_time s) (core_pos e) INVALID_TIME;
       current_prog_core := current_prog_core s; timer_lock := true;
       systicks_per_ms := systicks_per_ms s; timer_handler := timer_handler s;
       daif := daif s; calls := own_calls h ++ calls s |}).
  set (s2 := woken_state s1 (handler_left e s) (handler_woken e s)).
  assert (wake_loop e (u64 (now e s + STEP)) PLATFORM_CORE_COUNT 0 s1 = Ok (tt, s2)) as Hwake.
  { rewrite u64_small by (unfold UINT64_MAX; lia).
    pose proof (wake_loop_run e (now e s + STEP) (interrupt_req_time s1) [] s1 eq_refl) as Hw.
    replace (length (interrupt_req_time s1)) with PLATFORM_CORE_COUNT in Hw.
    - change (zlen []) with 0 in Hw. unfold handler_woken in Hon. cbn in Hw.
      rewrite Hon in Hw. rewrite Hw. done.
    - subst s1. cbn. pose proof (ok_len s Hok) as Hl. rewrite <- (zlen_zset _ (core_pos e) INVALID_TIME) in Hl.
      unfold zlen in Hl. lia. }
  destruct (handler_reprogram_run (now e s) s2) as [rc Hrep]; [done| |lia| |].
  { cbn. unfold handler_left, zlen. rewrite length_map.
    change (zlen (zset (interrupt_req_time s) (core_pos e) INVALID_TIME) = NCORES).
    rewrite zlen_zset. apply (ok_len s Hok). }
  { cbn. intros i t' Ht'. destruct (left_times e s i t' Hok Ht'); [by left|right; lia]. }
  exists rc. unfold tftf_timer_framework_handler.
  assert (∀ A (k : timer_state → M timer_state A) s, (get ≫= k) s = k s s) as Hget by done.
  unfold req_time. rewrite (bind_Ok _ _ s s t) by (by apply aget_Ok).
  unfold assert_. rewrite (proj2 (Z.eqb_neq t INVALID_TIME)) by done. cbn.
  rewrite (bind_Ok _ _ s s tt) by done.
  rewrite (bind_Ok _ _ s (set_lock s true) tt)
    by (unfold spin_lock; by rewrite (ok_lock s Hok)).
  rewrite (bind_Ok _ _ _ (set_lock s true) (now e s)); last first.
  { unfold get_current_time_ms, get, assert_, mbind, M_bind. cbn.
    pose proof (ok_ticks s Hok). by rewrite (proj2 (Z.eqb_neq _ _)) by lia. }
  rewrite Hget. cbn. rewrite Hpos, Z.eqb_refl, <- Hpos.
  rewrite (bind_Ok _ _ _ (set_lock s true) tt) by done.
  rewrite (bind_Ok _ _ _ (set_req (set_lock s true)
     (zset (interrupt_req_time s) (core_pos e) INVALID_TIME)) tt); last first.
  { unfold write_req_time. rewrite Hget. cbn. erewrite bind_Ok; [|by apply aset_Ok]. done. }
  unfold handler_post. unfold own_calls in s1. fold s2.
  destruct (handler plat =? 0) eqn:Ep, (h =? 0) eqn:Eh; cbn;
    (erewrite bind_Ok; [|reflexivity]); rewrite Hpend;
    (erewrite bind_Ok; [|reflexivity]); rewrite Hget; cbn;
    (erewrite bind_Ok; [|by apply aget_Ok]); rewrite Eh; cbn;
    (erewrite bind_Ok; [|reflexivity]);
    (erewrite bind_Ok; [|exact Hwake]);
    (erewrite bind_Ok; [|exact Hrep]); subst s1 s2; cbn;
    unfold own_calls; rewrite Eh, ?Ep; done.
Qed.


(** Conversely, these conditions are all the handler needs to return. *)
Lemma handler_Ok_pre (e : cpu_env) (rc : Z) (s s' : timer_state) :
  plat_sane → clock_sane e → timer_ok s →
  tftf_timer_framework_handler PLATFORM_CORE_COUNT plat e s = Ok (rc, s') →
  ∃ t h, core_pos e = current_prog_core s
    ∧ zget (interrupt_req_time s) (core_pos e) = Some t ∧ t ≠ INVALID_TIME
    ∧ zget (timer_handler s) (core_pos e) = Some h ∧ timer_pending e = false
    ∧ forallb (core_online e) (handler_woken e s) = true.
Proof.
  intros [Hst Hn] Hc Hok H. unfold MAX_TIME_OUT_MS in Hst.
  pose proof (now_bounds e s Hc (ok_ticks s Hok)) as Hnow.
  pose proof (ok_len s Hok) as Hl.
  rewrite <- (zlen_zset _ (core_pos e) INVALID_TIME) in Hl.
  assert (∀ s1 u s2, wake_loop e (u64 (now e s + STEP)) PLATFORM_CORE_COUNT 0 s1 = Ok (u, s2) →
    interrupt_req_time s1 = zset (interrupt_req_time s) (core_pos e) INVALID_TIME →
    forallb (core_online e) (handler_woken e s) = true) as Hw.
  { intros s1 u s2 Hw E. rewrite u64_small in Hw by (unfold UINT64_MAX; lia).
    pose proof (wake_loop_run e (now e s + STEP) (interrupt_req_time s1) [] s1 eq_refl) as Hrun.
    replace (length (interrupt_req_time s1)) with PLATFORM_CORE_COUNT in Hrun
      by (rewrite E; unfold zlen in Hl; lia).
    change (zlen []) with 0 in Hrun. rewrite Hw, E in Hrun. unfold handler_woken.
    by destruct (forallb _ _). }
  unfold tftf_timer_framework_handler in H. inv_timer; cbn in *; bool_hyps.
  all: match goal with
    | Hz : zget (interrupt_req_time _) _ = Some ?t,
      Hh : zget (timer_handler _) _ = Some ?h |- _ => exists t, h
    end; split_and!; try done.
  all: eapply Hw; [eassumption|done].
Qed.

Lemma handler_post_ok (e : cpu_env) (h : Z) (s : timer_state) :
  plat_sane → timer_ok s → timer_ok (handler_post e h s).
Proof.
  intros [Hst Hn] Hok.
  assert (∀ i t, zget (handler_left e s) i = Some t →
          t = INVALID_TIME ∨ STEP <= t < INVALID_TIME) as Htimes.
  { intros i t Ht. destruct (left_times e s i t Hok Ht); [by left|right; lia]. }
  assert (is_lowest (handler_left e s)
    (lowest_req_loop (handler_left e s) 0 INVALID_TIME INVALID_CORE)) as Hlow.
  { apply lowest_is_lowest. intros i t Ht. destruct (Htimes _ _ Ht); lia. }
  destruct (lowest_covers _ _ ltac:(lia) Hlow Htimes) as [Hlp Hlc].
  split; cbn; try done.
  - unfold handler_left, zlen. rewrite length_map.
    change (zlen (zset (interrupt_req_time s) (core_pos e) INVALID_TIME) = NCORES).
    rewrite zlen_zset. apply (ok_len s Hok).
  - apply (ok_hlen s Hok).
  - apply (ok_ticks s Hok).
Qed.

Lemma handler_preserves (e : cpu_env) (rc : Z) (s s' : timer_state) :
  plat_sane → clock_sane e → timer_ok s →
  tftf_timer_framework_handler PLATFORM_CORE_COUNT plat e s = Ok (rc, s') →
  timer_ok s'.
Proof.
  intros Hp Hc Hok H.
  destruct (handler_Ok_pre e rc s s' Hp Hc Hok H) as (t & h & ? & ? & ? & ? & ? & ?).
  destruct (handler_run e t h s) as [rc' Hr]; [done..|].
  rewrite Hr in H. simplify_eq. by apply handler_post_ok.
Qed.

(** *** Handlers of the cores, and the state of the GIC *)

Lemma register_handler_preserves (e : cpu_env) (ret h rc : Z) (s s' : timer_state) :
  timer_ok s → tftf_timer_register_handler e ret h s = Ok (rc, s') → timer_ok s'.
Proof.
  intros Hok H. unfold tftf_timer_register_handler in H. inv_timer.
  eapply timer_ok_frame; [exact Hok|cbn; autorewrite with tftf; done..].
Qed.

Lemma unregister_handler_preserves (e : cpu_env) (ret rc : Z) (s s' : timer_state) :
  timer_ok s → tftf_timer_unregister_handler e ret s = Ok (rc, s') → timer_ok s'.
Proof.
  intros Hok H. unfold tftf_timer_unregister_handler in H. inv_timer.
  eapply timer_ok_frame; [exact Hok|cbn; autorewrite with tftf; done..].
Qed.

(** A core that resumes with a request of its own takes over the timer; it
    must be the core the others rely on, or come first anyway. *)
Definition may_restore (e : cpu_env) (s : timer_state) : Prop :=
  ∀ t, zget (interrupt_req_time s) (core_pos e) = Some t → t ≠ INVALID_TIME →
  ∀ i t', zget (interrupt_req_time s) i = Some t' → t' ≠ INVALID_TIME → t <= t' + STEP.

Lemma gic_state_restore_preserves (e : cpu_env) (u : unit) (s s' : timer_state) :
  timer_ok s → may_restore e s →
  tftf_timer_gic_state_restore plat e s = Ok (u, s') → timer_ok s'.
Proof.
  intros Hok Hmay H. unfold tftf_timer_gic_state_restore in H. inv_timer; cbn in *.
  - eapply timer_ok_frame; [exact Hok|cbn; try done..]. all: symmetry; by apply ok_lock.
  - bool_hyps. destruct Hok. split; cbn; try done.
    + right. eauto.
    + intros i t Ht Hne. eexists. split_and!; [done|done|]. by eapply Hmay.
Qed.

(** *** Runs of the framework

    Every core may call any operation at any time the calling convention
    allows; the environment differs from one step to the next. *)

Inductive timer_step (s : timer_state) : timer_state → Prop :=
| step_program e ms rc s' :
    clock_sane e → 0 <= ms →
    tftf_program_timer PLATFORM_CORE_COUNT plat irq_shared e ms s = Ok (rc, s') →
    timer_step s s'
| step_cancel e rc s' :
    tftf_cancel_timer plat e s = Ok (rc, s') → timer_step s s'
| step_irq e rc s' :
    clock_sane e →
    tftf_timer_framework_handler PLATFORM_CORE_COUNT plat e s = Ok (rc, s') →
    timer_step s s'
| step_register e ret h rc s' :
    tftf_timer_register_handler e ret h s = Ok (rc, s') → timer_step s s'
| step_unregister e ret rc s' :
    tftf_timer_unregister_handler e ret s = Ok (rc, s') → timer_step s s'
| step_restore e u s' :
    may_restore e s →
    tftf_timer_gic_state_restore plat e s = Ok (u, s') → timer_step s s'
| step_secondary u s' :
    tftf_initialise_timer_secondary_core plat irq_shared s = Ok (u, s') →
    timer_step s s'.

Inductive timer_reachable : timer_state → Prop :=
| reach_init cntfrq s :
    1000 <= cntfrq < 2 ^ 32 →
    tftf_initialise_timer PLATFORM_CORE_COUNT plat 0 cntfrq
      (timer_boot PLATFORM_CORE_COUNT) = Ok (0, s) →
    timer_reachable s
| reach_step s s' : timer_reachable s → timer_step s s' → timer_reachable s'.

Lemma step_preserves (s s' : timer_state) :
  plat_sane → cancel plat = 0 → timer_ok s → timer_step s s' → timer_ok s'.
Proof.
  intros Hp Hc Hok Hs. destruct Hs.
  - by eapply program_timer_preserves.
  - by eapply cancel_timer_preserves.
  - by eapply handler_preserves.
  - by eapply register_handler_preserves.
  - by eapply unregister_handler_preserves.
  - by eapply gic_state_restore_preserves.
  - unfold tftf_initialise_timer_secondary_core in *. inv_timer; [|done].
    by eapply timer_ok_frame.
Qed.

Lemma reachable_ok (s : timer_state) :
  plat_sane → cancel plat = 0 → timer_reachable s → timer_ok s.
Proof.
  intros Hp Hc. induction 1; [by eapply initialise_timer_ok|by eapply step_preserves].
Qed.


(** *** Every valid call returns *)

Lemma program_timer_run (e : cpu_env) (ms : Z) (s : timer_state) :
  timer_ok s → 0 < ms <= MAX_TIME_OUT_MS →
  zget (interrupt_req_time s) (core_pos e) = Some INVALID_TIME →
  ∃ rc s', tftf_program_timer PLATFORM_CORE_COUNT plat irq_shared e ms s = Ok (rc, s').
Proof.
  intros Hok Hms Hmine. pose proof (zget_Some_range _ _ _ Hmine) as Hr.
  unfold tftf_program_timer, MAX_TIME_OUT_MS in *.
  rewrite (proj2 (Z.ltb_ge _ _)), (proj2 (Z.eqb_neq ms 0)) by lia. cbn.
  assert (∀ A (k : timer_state → M timer_state A) s, (get ≫= k) s = k s s) as Hget by done.
  unfold req_time, get_current_prog_time, get_current_time_ms, write_req_time.
  erewrite bind_Ok; [|apply aget_Ok, Hmine]. rewrite Z.eqb_refl.
  unfold read_daif, disable_irq.
  do 3 (erewrite bind_Ok; [|reflexivity]).
  erewrite bind_Ok; [|unfold spin_lock; cbn; rewrite (ok_lock s Hok); reflexivity].
  rewrite Hget. cbn.
  erewrite bind_Ok; last first.
  { unfold assert_. destruct (ok_prog s Hok) as [->|(t & Ht & _)].
    - rewrite orb_true_r. reflexivity.
    - apply zget_Some_range in Ht. rewrite (ok_len s Hok) in Ht.
      rewrite (proj2 (Z.ltb_lt _ _)) by lia. reflexivity. }
  erewrite bind_Ok; last first.
  { rewrite Hget. cbn. pose proof (ok_ticks s Hok). erewrite bind_Ok; [reflexivity|].
    unfold assert_. rewrite (proj2 (Z.eqb_neq _ _)) by lia. reflexivity. }
  erewrite bind_Ok; last first.
  { rewrite Hget. cbn. erewrite bind_Ok; [|apply aset_Ok, Hr]. reflexivity. }
  set (l := zset _ _ _).
  assert (is_Some (zget l (core_pos e))) as [tm Htm].
  { subst l. rewrite zget_zset_eq by done. done. }
  assert (current_prog_core s ≠ INVALID_CORE → is_Some (zget l (current_prog_core s))) as Hp.
  { intros Hne. destruct (ok_prog s Hok) as [?|(t & Ht & _)]; [done|].
    apply zget_is_Some. subst l. rewrite zlen_zset. by eapply zget_Some_range. }
  rewrite bind_Ok with (s' := set_req (set_lock (set_daif s (Z.lor (daif s) DAIF_I)) true) l)
    (a := if current_prog_core s =? INVALID_CORE then 0
          else default 0 (zget l (current_prog_core s))); last first.
  { rewrite Hget. cbn. case_Z; [done|].
    destruct Hp as [tp Htp]; [done|]. rewrite Htp. unfold req_time. by apply aget_Ok. }
  erewrite bind_Ok; last first.
  { rewrite Hget. apply aget_Ok. exact Htm. }
  unfold mbind, M_bind, call, modify, PROGRAM_TIMER.
  destruct (_ || _), irq_shared; cbn; eauto.
Qed.

Lemma due_cores_ge (l : list Z) (limit i c : Z) : c ∈ due_cores l limit i → i <= c.
Proof. intros (t & Ht & _)%due_cores_spec. apply zget_Some_range in Ht. lia. Qed.

Lemma due_cores_NoDup (l : list Z) (limit i : Z) : NoDup (due_cores l limit i).
Proof.
  revert i. induction l as [|t l IH]; intros i; cbn; [constructor|].
  case_Z; [|done]. constructor; [|done]. intros ?%due_cores_ge. lia.
Qed.

Lemma handler_woken_spec (e : cpu_env) (s : timer_state) (c : Z) :
  now e s + STEP < INVALID_TIME →
  0 <= core_pos e < zlen (interrupt_req_time s) →
  c ∈ handler_woken e s ↔
  c ≠ core_pos e ∧ ∃ t, zget (interrupt_req_time s) c = Some t ∧ t <= now e s + STEP.
Proof.
  intros Hlim Hr. unfold handler_woken. rewrite due_cores_spec, Z.sub_0_r, zget_zset.
  case_decide as Hd.
  - split; [intros (t & [= <-] & ?); lia|intros [? _]; lia].
  - destruct (decide (c = core_pos e)) as [->|Hne]; [lia|]. naive_solver.
Qed.


(** ** Properties *)


(** C32: when the timer interrupt fires on the core it was programmed for (the
    interrupt acknowledged, the cores with requests online), the handler
    returns without a failed assertion.  It serves exactly the handling core
    and the cores due within one step, sends each of those other cores one
    wake-up SGI, keeps every other request, and programs the timer for an
    earliest remaining request, relative to the current time. *)
Theorem timer_handler_serves (e : cpu_env) (s : timer_state) (t : Z) :
  plat_sane → cancel plat = 0 → clock_sane e → timer_reachable s →
  core_pos e = current_prog_core s →
  zget (interrupt_req_time s) (core_pos e) = Some t → t ≠ INVALID_TIME →
  timer_pending e = false →
  (∀ c tc, zget (interrupt_req_time s) c = Some tc → tc ≠ INVALID_TIME → core_online e c = true) →
  ∃ rc s' woken own,
    tftf_timer_framework_handler PLATFORM_CORE_COUNT plat e s = Ok (rc, s')
    ∧ (∀ i ti, zget (interrupt_req_time s) i = Some ti →
         zget (interrupt_req_time s') i =
         Some (if (i =? core_pos e) || (ti <=? now e s + STEP) then INVALID_TIME else ti))
    ∧ NoDup woken
    ∧ (∀ c, c ∈ woken ↔ c ≠ core_pos e ∧
         ∃ tc, zget (interrupt_req_time s) c = Some tc ∧ tc <= now e s + STEP)
    ∧ is_lowest (interrupt_req_time s') (current_prog_core s')
    ∧ (∀ c sgi, SendSgi sgi c ∉ own)
    ∧ calls s' =
        match zget (interrupt_req_time s') (current_prog_core s') with
        | Some tn => [ProgramTimer (tn - now e s);
                      GicSetTarget (timer_irq plat) (current_prog_core s')]
        | None => []
        end ++ rev (map (SendSgi IRQ_WAKE_SGI) woken) ++ own ++ calls s.
Proof.
  intros Hp Hcan Hc Hreach Hpos Ht Hne Hpend Hon.
  pose proof (reachable_ok s Hp Hcan Hreach) as Hok.
  pose proof (now_bounds e s Hc (ok_ticks s Hok)) as Hnow.
  pose proof (zget_Some_range _ _ _ Ht) as Hr.
  assert (now e s + STEP < INVALID_TIME) as Hlim.
  { destruct Hp as [Hst _]. unfold MAX_TIME_OUT_MS, INVALID_TIME, UINT64_MAX in *. lia. }
  destruct (zget_is_Some (timer_handler s) (core_pos e)) as [h Hh].
  { rewrite (ok_hlen s Hok), <- (ok_len s Hok). done. }
  destruct (handler_run e t h s Hp Hc Hok Hpos Ht Hne Hh Hpend) as [rc Hrun].
  { apply forallb_forall. intros c Hin%list_elem_of_In.
    apply handler_woken_spec in Hin as (_ & tc & Htc & Hle); [|done..].
    apply (Hon c tc Htc). lia. }
  exists rc, (handler_post e h s), (handler_woken e s), (own_calls h).
  split_and!; [done| |apply due_cores_NoDup| | | |done].
  - intros i ti Hi. cbn. apply zget_map_clear. rewrite zget_zset.
    destruct (Z.eqb_spec i (core_pos e)) as [->|Hni]; cbn.
    + exists INVALID_TIME. rewrite decide_True by done. split; [done|].
      unfold clear_due. case_Z; done.
    + exists ti. rewrite decide_False by lia. split; [done|]. done.
  - intros c. by apply handler_woken_spec.
  - apply lowest_is_lowest. cbn. intros i ti Hi.
    destruct (left_times e s i ti Hok Hi); lia.
  - intros c sgi. unfold own_calls.
    destruct (h =? 0), (handler plat =? 0); cbn;
      rewrite ?elem_of_cons, ?elem_of_nil; naive_solver.
Qed.

(** a core without a pending request that asks for 1 to 10000 ms gets one:
    the call returns, records exactly one new request, at the current time
    plus the delay (rounded up to one timer step), changes no other request,
    gives back the lock and the interrupt mask, and the timer then is
    programmed for this core or for a core due no later than one step after
    it.  Any other delay is refused with -1 and changes nothing. *)
Theorem timer_program_registers (e : cpu_env) (ms : Z) (s : timer_state) :
  plat_sane → cancel plat = 0 → clock_sane e → timer_reachable s → 0 <= ms →
  zget (interrupt_req_time s) (core_pos e) = Some INVALID_TIME →
  if (1 <=? ms) && (ms <=? MAX_TIME_OUT_MS)
  then ∃ rc s',
    tftf_program_timer PLATFORM_CORE_COUNT plat irq_shared e ms s = Ok (rc, s')
    ∧ interrupt_req_time s' =
        zset (interrupt_req_time s) (core_pos e) (now e s + Z.max ms STEP)
    ∧ timer_lock s' = false ∧ daif s' = daif s
    ∧ (current_prog_core s' = core_pos e ∧ rc = program plat (Z.max ms STEP)
       ∨ current_prog_core s' = current_prog_core s ∧ rc = 0
         ∧ ∃ tp, zget (interrupt_req_time s) (current_prog_core s) = Some tp
                 ∧ tp <= now e s + Z.max ms STEP + STEP)
  else tftf_program_timer PLATFORM_CORE_COUNT plat irq_shared e ms s = Ok (-1, s).
Proof.
  intros Hp Hcan Hc Hreach Hms Hmine.
  pose proof (reachable_ok s Hp Hcan Hreach) as Hok.
  pose proof (now_bounds e s Hc (ok_ticks s Hok)) as Hnow.
  unfold MAX_TIME_OUT_MS. destruct (_ && _) eqn:Hg; bool_hyps.
  - destruct (program_timer_run e ms s) as (rc & s' & Hrun);
      [done|unfold MAX_TIME_OUT_MS; lia|done|].
    pose proof (program_timer_preserves e ms rc s s' Hp Hc Hms Hok Hrun) as Hok'.
    exists rc, s'. split; [done|].
    apply program_timer_inv in Hrun as [(_ & _ & ?)|Hres];
      [unfold MAX_TIME_OUT_MS in *; lia|].
    cbn zeta in Hres.
    destruct Hres as (_ & _ & Hr & _ & _ & _ & El & _ & _ & Elk & Ed & tp & Htp & Hif).
    destruct Hp as [Hst Hn]. unfold MAX_TIME_OUT_MS in Hst.
    rewrite (u64_small (now e s + Z.max ms STEP)) in * by (unfold UINT64_MAX; lia).
    split_and!; [done..|].
    destruct (_ || _) eqn:Hb in Hif; destruct Hif as (Ep & Erc & _); [by left|right].
    split_and!; [done..|].
    assert (∃ tp', zget (interrupt_req_time s') (current_prog_core s') = Some tp' ∧
      tp' <= now e s + Z.max ms STEP + STEP) as (tp' & Htp' & Hle).
    { destruct (ok_cover s' Hok' (core_pos e) (now e s + Z.max ms STEP)) as (tp' & ? & _ & ?).
      - rewrite El. by apply zget_zset_eq.
      - unfold INVALID_TIME, UINT64_MAX. lia.
      - eauto. }
    apply orb_false_iff in Hb as [Hn0%Z.eqb_neq _].
    destruct (Z.eqb_spec (current_prog_core s) INVALID_CORE); [done|].
    destruct (ok_prog s Hok) as [?|(t0 & Ht0 & Hne0)]; [done|].
    rewrite Ep, El, zget_zset_ne in Htp' by congruence. eauto.
  - unfold tftf_program_timer, MAX_TIME_OUT_MS.
    assert ((10000 <? ms) || (ms =? 0) = true) as ->; [|done].
    apply andb_false_iff in Hg as [?%Z.leb_gt|?%Z.leb_gt].
    + rewrite orb_true_iff, Z.eqb_eq. lia.
    + rewrite orb_true_iff, Z.ltb_lt. lia.
Qed.

(** a cancelled request is gone, the other requests are kept, and, when
    it was the one the timer was programmed for, the timer is moved to an
    earliest remaining request (to none when there is none left). *)
Theorem timer_cancel_moves_on (e : cpu_env) (rc : Z) (s s' : timer_state) :
  plat_sane → cancel plat = 0 → timer_reachable s →
  tftf_cancel_timer plat e s = Ok (rc, s') →
  zget (interrupt_req_time s') (core_pos e) = Some INVALID_TIME
  ∧ (∀ i, i ≠ core_pos e →
       zget (interrupt_req_time s') i = zget (interrupt_req_time s) i)
  ∧ timer_lock s' = false ∧ daif s' = daif s
  ∧ (if core_pos e =? current_prog_core s
     then is_lowest (interrupt_req_time s') (current_prog_core s')
     else current_prog_core s' = current_prog_core s).
Proof.
  intros Hp Hcan Hreach Hrun. pose proof (reachable_ok s Hp Hcan Hreach) as Hok.
  assert (0 <= core_pos e < zlen (interrupt_req_time s)) as Hr.
  { unfold tftf_cancel_timer in Hrun. inv_timer; done. }
  apply cancel_timer_inv in Hrun as (El & _ & _ & Elk & Ed & Ep); [|done].
  split_and!; [..|done|done|].
  - rewrite El. by apply zget_zset_eq.
  - intros i Hi. rewrite El. by apply zget_zset_ne.
  - destruct (_ =? _); [|done]. rewrite Ep, El.
    apply lowest_is_lowest. intros i t Ht.
    destruct (times_clear _ _ (ok_times s Hok) _ _ Ht); lia.
Qed.

End TimerInvariant.


(** ** A run on three cores

    A timer with a step of 2 ms, a counter of 1000 ticks per ms.  Core 0 asks
    for 50 ms at 0 ms, core 1 for 10 ms at 1 ms (it takes the timer over),
    core 2 for 11 ms at 1 ms (it is merged with core 1's request). *)

Definition demo_plat : plat_timer_t :=
  {| program := λ _, 0; cancel := 0; handler := 5; timer_step_value := 2; timer_irq := 34 |}.
Definition demo_env (core ms : Z) : cpu_env :=
  {| core_pos := core; syscounter := ms * 1000; timer_pending := false;
     core_online := λ _, true |}.
Definition final {S A} (m : M S A) (s : S) : S :=
  match m s with Ok (_, s') => s' | Stop _ => s end.

Definition demo0 : timer_state :=
  final (tftf_initialise_timer 3 demo_plat 0 1000000) (timer_boot 3).
Definition demo1 : timer_state :=
  final (tftf_program_timer 3 demo_plat true (demo_env 0 0) 50) demo0.
Definition demo2 : timer_state :=
  final (tftf_program_timer 3 demo_plat true (demo_env 1 1) 10) demo1.
Definition demo3 : timer_state :=
  final (tftf_program_timer 3 demo_plat true (demo_env 2 1) 11) demo2.

Lemma demo_plat_sane : plat_sane 3 demo_plat.
Proof. unfold plat_sane. vm_compute. intuition discriminate. Qed.

Lemma demo_env_sane (core ms : Z) : 0 <= ms < 100 → clock_sane (demo_env core ms).
Proof. unfold clock_sane. cbn. lia. Qed.

Lemma demo2_reachable : timer_reachable 3 demo_plat true demo2.
Proof.
  apply reach_step with demo1; [apply reach_step with demo0|].
  - apply (reach_init _ _ _ 1000000); [lia|reflexivity].
  - apply (step_program _ _ _ _ (demo_env 0 0) 50 0); [by apply demo_env_sane|lia|reflexivity].
  - apply (step_program _ _ _ _ (demo_env 1 1) 10 0); [by apply demo_env_sane|lia|reflexivity].
Qed.

Lemma demo3_reachable : timer_reachable 3 demo_plat true demo3.
Proof.
  apply reach_step with demo2; [apply demo2_reachable|].
  apply (step_program _ _ _ _ (demo_env 2 1) 11 0); [by apply demo_env_sane|lia|reflexivity].
Qed.


Lemma timer_handler_serves_witness :
  ∃ rc s' woken own,
    tftf_timer_framework_handler 3 demo_plat (demo_env 1 11) demo3 = Ok (rc, s')
    ∧ (∀ i ti, zget (interrupt_req_time demo3) i = Some ti →
         zget (interrupt_req_time s') i =
         Some (if (i =? 1) || (ti <=? now (demo_env 1 11) demo3 + 2)
               then INVALID_TIME else ti))
    ∧ NoDup woken
    ∧ (∀ c, c ∈ woken ↔ c ≠ 1 ∧
         ∃ tc, zget (interrupt_req_time demo3) c = Some tc
               ∧ tc <= now (demo_env 1 11) demo3 + 2)
    ∧ is_lowest (interrupt_req_time s') (current_prog_core s')
    ∧ (∀ c sgi, SendSgi sgi c ∉ own)
    ∧ calls s' =
        match zget (interrupt_req_time s') (current_prog_core s') with
        | Some tn => [ProgramTimer (tn - now (demo_env 1 11) demo3);
                      GicSetTarget 34 (current_prog_core s')]
        | None => []
        end ++ rev (map (SendSgi IRQ_WAKE_SGI) woken) ++ own ++ calls demo3.
Proof.
  apply (timer_handler_serves 3 demo_plat true (demo_env 1 11) demo3 11).
  - apply demo_plat_sane.
  - reflexivity.
  - apply demo_env_sane. lia.
  - apply demo3_reachable.
  - reflexivity.
  - reflexivity.
  - discriminate.
  - reflexivity.
  - reflexivity.
Defined.

Lemma timer_program_registers_witness :
  ∃ rc s',
    tftf_program_timer 3 demo_plat true (demo_env 2 1) 11 demo2 = Ok (rc, s')
    ∧ interrupt_req_time s' =
        zset (interrupt_req_time demo2) 2 (now (demo_env 2 1) demo2 + Z.max 11 2)
    ∧ timer_lock s' = false ∧ daif s' = daif demo2
    ∧ (current_prog_core s' = 2 ∧ rc = program demo_plat (Z.max 11 2)
       ∨ current_prog_core s' = current_prog_core demo2 ∧ rc = 0
         ∧ ∃ tp, zget (interrupt_req_time demo2) (current_prog_core demo2) = Some tp
                 ∧ tp <= now (demo_env 2 1) demo2 + Z.max 11 2 + 2).
Proof.
  apply (timer_program_registers 3 demo_plat true (demo_env 2 1) 11 demo2).
  - apply demo_plat_sane.
  - reflexivity.
  - apply demo_env_sane. lia.
  - apply demo2_reachable.
  - lia.
  - reflexivity.
Defined.

Lemma timer_cancel_moves_on_witness :
  zget (interrupt_req_time (final (tftf_cancel_timer demo_plat (demo_env 1 3)) demo3)) 1
    = Some INVALID_TIME ∧
  is_lowest (interrupt_req_time (final (tftf_cancel_timer demo_plat (demo_env 1 3)) demo3))
    (current_prog_core (final (tftf_cancel_timer demo_plat (demo_env 1 3)) demo3)).
Proof.
  destruct (timer_cancel_moves_on 3 demo_plat true (demo_env 1 3) 0 demo3
    (final (tftf_cancel_timer demo_plat (demo_env 1 3)) demo3)) as (H1 & _ & _ & _ & H2).
  - apply demo_plat_sane.
  - reflexivity.
  - apply demo3_reachable.
  - reflexivity.
  - split; [exact H1|exact H2].
Defined.
