(* ===== verification/PageAlloc.v ===== *)
(** * The page allocator (lib/heap/page_alloc.c)

    A bump allocator over one heap: [memory_used] is the cursor, freeing does
    nothing, [page_pool_reset] takes every block back.  The sequential
    operations come first; a step relation then interleaves the calls of
    several CPUs at the granularity of the lock. *)

From S2P Require Import Prelude Bits.

Local Open Scope Z_scope.

Definition HEAP_NULL_PTR : Z := 0.
Definition HEAP_INVALID_LEN : Z := -1.
Definition HEAP_OUT_OF_RANGE : Z := -2.
Definition HEAP_INIT_FAILED : Z := -3.
Definition HEAP_INIT_SUCCESS : Z := 0.

(** A value converted to C's [bool]. *)
Definition to_bool (x : Z) : Z := if x =? 0 then 0 else 1.

Record heap_state := {
  memory_used : Z;
  heap_base_addr : Z;
  heap_addr : Z;
  heap_size : Z;
  (** of type [bool]: the error codes stored in it become 1 *)
  heap_initialised : Z;
  mem_lock : bool;
}.

Definition heap_boot : heap_state :=
  {| memory_used := 0; heap_base_addr := 0; heap_addr := 0; heap_size := 0;
     heap_initialised := to_bool HEAP_INIT_FAILED; mem_lock := false |}.

Definition set_initialised (s : heap_state) (v : Z) : heap_state :=
  {| memory_used := memory_used s; heap_base_addr := heap_base_addr s;
     heap_addr := heap_addr s; heap_size := heap_size s;
     heap_initialised := to_bool v; mem_lock := mem_lock s |}.
Definition set_used (s : heap_state) (v : Z) : heap_state :=
  {| memory_used := v; heap_base_addr := heap_base_addr s;
     heap_addr := heap_addr s; heap_size := heap_size s;
     heap_initialised := heap_initialised s; mem_lock := mem_lock s |}.
Definition set_heap_addr (s : heap_state) (v : Z) : heap_state :=
  {| memory_used := memory_used s; heap_base_addr := heap_base_addr s;
     heap_addr := v; heap_size := heap_size s;
     heap_initialised := heap_initialised s; mem_lock := mem_lock s |}.
Definition set_mem_lock (s : heap_state) (v : bool) : heap_state :=
  {| memory_used := memory_used s; heap_base_addr := heap_base_addr s;
     heap_addr := heap_addr s; heap_size := heap_size s;
     heap_initialised := heap_initialised s; mem_lock := v |}.

(** Taking a lock that is held spins for ever. *)
Definition mem_spin_lock : M heap_state unit :=
  λ s, if mem_lock s then Stop FuelOut else Ok (tt, set_mem_lock s true).
Definition mem_spin_unlock : M heap_state unit := modify (λ s, set_mem_lock s false).

Section PageAllocator.

(** The platform's DRAM. *)
Context (DRAM_BASE DRAM_SIZE : Z).

Definition page_pool_init (heap_base heap_len : Z) : M heap_state Z :=
  let plat_max_addr := u64 (DRAM_BASE + DRAM_SIZE) in
  let max_addr := u64 (heap_base + heap_len) in
  (if heap_len =? 0 then modify (λ s, set_initialised s HEAP_INVALID_LEN)
   else if plat_max_addr <=? max_addr then
     modify (λ s, set_initialised s HEAP_OUT_OF_RANGE)
   else
     modify (λ s, {| memory_used := heap_base; heap_base_addr := heap_base;
                     heap_addr := heap_addr s; heap_size := heap_len;
                     heap_initialised := to_bool HEAP_INIT_SUCCESS;
                     mem_lock := mem_lock s |}));;
  s ← get; mret (heap_initialised s).

(** [page_alloc()] from taking the lock to releasing it: whether the block
    was carved out. *)
Definition page_alloc_locked (bytes_size : Z) : M heap_state bool :=
  mem_spin_lock;;
  s ← get;
  if u64 (heap_base_addr s + heap_size s) <=? u64 (memory_used s + bytes_size) then
    mem_spin_unlock;; mret false
  else
    modify (λ s, set_heap_addr s (memory_used s));;
    modify (λ s, set_used s (u64 (memory_used s + bytes_size)));;
    mem_spin_unlock;;
    mret true.

(** The address is read back from the global after the lock is released. *)
Definition page_alloc (bytes_size : Z) : M heap_state Z :=
  s ← get;
  if negb (heap_initialised s =? HEAP_INIT_SUCCESS) then mret HEAP_NULL_PTR
  else if bytes_size =? 0 then mret HEAP_NULL_PTR
  else
    ok ← page_alloc_locked bytes_size;
    s ← get;
    mret (if (ok : bool) then heap_addr s else HEAP_NULL_PTR).

Definition page_alloc_aligned (bytes_size alignment : Z) : M heap_state Z :=
  s ← get;
  if negb (heap_initialised s =? HEAP_INIT_SUCCESS) then mret HEAP_NULL_PTR
  else if bytes_size =? 0 then mret HEAP_NULL_PTR
  else if negb (is_power_of_2 alignment) then mret HEAP_NULL_PTR
  else
    mem_spin_lock;;
    s ← get;
    let aligned_addr := round_up (memory_used s) alignment in
    let total_bytes_size := u64 (u64 (aligned_addr - memory_used s) + bytes_size) in
    if u64 (heap_base_addr s + heap_size s) <=? u64 (memory_used s + total_bytes_size) then
      mem_spin_unlock;; mret HEAP_NULL_PTR
    else
      modify (λ s, set_heap_addr s (memory_used s));;
      modify (λ s, set_used s (u64 (memory_used s + total_bytes_size)));;
      mem_spin_unlock;;
      mret aligned_addr.

Definition page_pool_reset : M heap_state unit :=
  modify (λ s, set_used s (heap_base_addr s)).

Definition page_free (address : Z) : M heap_state unit := mret tt.

(** ** Sequences of calls *)

Inductive heap_op : Set :=
| OpAlloc (bytes : Z)
| OpAlign (bytes alignment : Z)
| OpReset
| OpFree (address : Z).

(** A block handed out: its address and its size. *)
Abbreviation block := (Z * Z)%type.

(** The blocks in use after an operation: a failed allocation adds none, a
    reset takes all of them back. *)
Definition heap_exec (op : heap_op) (live : list block) : M heap_state (list block) :=
  match op with
  | OpAlloc n =>
      a ← page_alloc n; mret (if a =? HEAP_NULL_PTR then live else (a, n) :: live)
  | OpAlign n al =>
      a ← page_alloc_aligned n al;
      mret (if a =? HEAP_NULL_PTR then live else (a, n) :: live)
  | OpReset => page_pool_reset;; mret []
  | OpFree a => page_free a;; mret live
  end.

Fixpoint heap_exec_all (ops : list heap_op) (live : list block)
    : M heap_state (list block) :=
  match ops with
  | [] => mret live
  | op :: ops' => live' ← heap_exec op live; heap_exec_all ops' live'
  end.

(** ** The invariant *)

Definition disjoint_block (a b : block) : Prop :=
  a.1 + a.2 <= b.1 ∨ b.1 + b.2 <= a.1.

Record heap_ok (base len : Z) (live : list block) (s : heap_state) : Prop := {
  hk_base : heap_base_addr s = base;
  hk_size : heap_size s = len;
  hk_init : heap_initialised s = HEAP_INIT_SUCCESS;
  hk_lock : mem_lock s = false;
  hk_used : base <= memory_used s < base + len;
  hk_in : Forall (λ b, base <= b.1 ∧ 0 < b.2 ∧ b.1 + b.2 <= memory_used s) live;
  hk_disj : ForallOrdPairs disjoint_block live;
}.

(** A heap in the first 2^52 bytes, the largest physical address space. *)
Definition heap_geometry (base len : Z) : Prop :=
  0 < base ∧ 0 < len ∧ base + len < DRAM_BASE + DRAM_SIZE
  ∧ DRAM_BASE + DRAM_SIZE <= 2 ^ 52.

(** Requests that stay clear of a 64-bit overflow. *)
Definition op_bounded (op : heap_op) : Prop :=
  match op with
  | OpAlloc n => 0 <= n < 2 ^ 62
  | OpAlign n al => 0 <= n < 2 ^ 62 ∧ 0 <= al <= 2 ^ 62
  | _ => True
  end.

Lemma heap_ok_init (base len : Z) :
  heap_geometry base len →
  ∃ s, page_pool_init base len heap_boot = Ok (HEAP_INIT_SUCCESS, s)
       ∧ heap_ok base len [] s.
Proof.
  intros (Hb & Hl & Hin & Hmax). unfold page_pool_init.
  rewrite (proj2 (Z.eqb_neq len 0)) by lia.
  rewrite (u64_small (DRAM_BASE + DRAM_SIZE)), (u64_small (base + len))
    by (unfold UINT64_MAX; lia).
  rewrite (proj2 (Z.leb_gt _ _)) by lia. cbn.
  eexists. split; [reflexivity|]. split; cbn; try done; [lia|constructor..].
Qed.

(** A new block at or above the cursor is disjoint from the blocks in use. *)
Lemma heap_ok_bump (base len a n used' : Z) (live : list block) (s s' : heap_state) :
  heap_ok base len live s →
  memory_used s <= a → 0 < n → used' = a + n → used' < base + len →
  heap_base_addr s' = heap_base_addr s → heap_size s' = heap_size s →
  heap_initialised s' = heap_initialised s → mem_lock s' = false →
  memory_used s' = used' →
  heap_ok base len ((a, n) :: live) s'.
Proof.
  intros Hok Ha Hn -> Hlt Eb Es Ei El Eu. destruct Hok.
  split; rewrite ?Eb, ?Es, ?Ei, ?El, ?Eu; try done; [lia| |].
  - constructor; [cbn; lia|]. eapply Forall_impl; [exact hk_in0|]. cbn. intros ? ?. lia.
  - constructor; [|done]. eapply Forall_impl; [exact hk_in0|].
    cbn. intros b ?. right. cbn. lia.
Qed.


(** The outcome of one call of [page_alloc()] in a good state. *)
Lemma page_alloc_run (base len n : Z) (live : list block) (s : heap_state) :
  heap_geometry base len → heap_ok base len live s → 0 <= n < 2 ^ 62 →
  ∃ a s', page_alloc n s = Ok (a, s')
    ∧ heap_ok base len (if a =? 0 then live else (a, n) :: live) s'
    ∧ (a = 0 ↔ n = 0 ∨ base + len <= memory_used s + n).
Proof.
  intros (Hb & Hl & Hin & Hmax) Hok Hn. pose proof (hk_used _ _ _ _ Hok) as Hu.
  unfold page_alloc, page_alloc_locked, mem_spin_lock, mem_spin_unlock, get, modify,
    mret, M_ret, mbind, M_bind.
  rewrite (hk_init _ _ _ _ Hok). cbn. destruct (Z.eqb_spec n 0) as [->|Hn0].
  { exists 0, s. cbn. intuition lia. }
  rewrite (hk_lock _ _ _ _ Hok). cbn.
  rewrite (hk_base _ _ _ _ Hok), (hk_size _ _ _ _ Hok).
  rewrite !u64_small by (unfold UINT64_MAX; lia).
  destruct (Z.leb_spec (base + len) (memory_used s + n)).
  - eexists 0, _. cbn. split_and!; [done| |lia].
    destruct Hok. split; cbn; done.
  - eexists (memory_used s), _. split; [reflexivity|].
    rewrite (proj2 (Z.eqb_neq _ _)) by lia. split; [|cbn; lia].
    eapply heap_ok_bump; [done|reflexivity|lia|reflexivity|lia|cbn; try done..].
    apply u64_small. unfold UINT64_MAX. lia.
Qed.

Lemma page_alloc_aligned_run (base len n al : Z) (live : list block) (s : heap_state) :
  heap_geometry base len → heap_ok base len live s →
  0 <= n < 2 ^ 62 → 0 <= al <= 2 ^ 62 →
  ∃ a s', page_alloc_aligned n al s = Ok (a, s')
    ∧ heap_ok base len (if a =? 0 then live else (a, n) :: live) s'
    ∧ (a ≠ 0 → a = align_up (memory_used s) al ∧ (al | a))
    ∧ (a = 0 ↔ n = 0 ∨ is_power_of_2 al = false
               ∨ base + len <= align_up (memory_used s) al + n).
Proof.
  intros (Hb & Hl & Hin & Hmax) Hok Hn Hal. pose proof (hk_used _ _ _ _ Hok) as Hu.
  unfold page_alloc_aligned, mem_spin_lock, mem_spin_unlock, get, modify,
    mret, M_ret, mbind, M_bind.
  rewrite (hk_init _ _ _ _ Hok). cbn. destruct (Z.eqb_spec n 0) as [->|Hn0].
  { exists 0, s. cbn. intuition lia. }
  destruct (is_power_of_2 al) eqn:Hpow; cbn; last first.
  { exists 0, s. cbn. intuition. }
  apply is_power_of_2_spec in Hpow as (k & Hk & ->); [|unfold in_width; lia].
  pose proof (pow2_lt_64 k Hk) as Hp.
  destruct (align_up_spec (memory_used s) (2 ^ k) ltac:(lia)) as [Hup Hdiv].
  rewrite (hk_lock _ _ _ _ Hok). cbn.
  rewrite (hk_base _ _ _ _ Hok), (hk_size _ _ _ _ Hok).
  rewrite round_up_pow2 by (done || unfold in_width, UINT64_MAX in *; lia).
  rewrite (u64_small (align_up _ _ - _)) by (unfold UINT64_MAX; lia).
  rewrite (u64_small (align_up _ _ - _ + n)) by (unfold UINT64_MAX; lia).
  rewrite !u64_small by (unfold UINT64_MAX; lia).
  replace (memory_used s + (align_up (memory_used s) (2 ^ k) - memory_used s + n))
    with (align_up (memory_used s) (2 ^ k) + n) by lia.
  destruct (Z.leb_spec (base + len) (align_up (memory_used s) (2 ^ k) + n)).
  - eexists 0, _. cbn. split_and!; [done| |lia|intuition].
    destruct Hok. split; cbn; done.
  - eexists (align_up (memory_used s) (2 ^ k)), _. split; [reflexivity|].
    rewrite (proj2 (Z.eqb_neq _ _)) by lia. split_and!; [|done|intuition lia].
    eapply heap_ok_bump; [done|done || lia|lia|reflexivity|lia|cbn; try done..].
    rewrite u64_small by (unfold UINT64_MAX; lia). lia.
Qed.

Lemma heap_exec_ok (base len : Z) (op : heap_op) (live : list block) (s : heap_state) :
  heap_geometry base len → heap_ok base len live s → op_bounded op →
  ∃ live' s', heap_exec op live s = Ok (live', s') ∧ heap_ok base len live' s'.
Proof.
  intros Hg Hok Hop. destruct op as [n|n al| |a]; cbn [heap_exec op_bounded] in *.
  - destruct (page_alloc_run base len n live s) as (a & s' & Hrun & Hok' & _); [done..|].
    erewrite bind_Ok by done. eauto.
  - destruct Hop as [Hn Hal].
    destruct (page_alloc_aligned_run base len n al live s) as (a & s' & Hrun & Hok' & _);
      [done..|].
    erewrite bind_Ok by done. eauto.
  - do 2 eexists. split; [reflexivity|]. destruct Hg as (? & ? & _), Hok.
    split; cbn; try done; [lia|constructor..].
  - do 2 eexists. split; [reflexivity|done].
Qed.

Lemma heap_exec_all_ok (base len : Z) (ops : list heap_op) (live : list block)
    (s : heap_state) :
  heap_geometry base len → heap_ok base len live s → Forall op_bounded ops →
  ∃ live' s', heap_exec_all ops live s = Ok (live', s') ∧ heap_ok base len live' s'.
Proof.
  intros Hg Hok Hops. revert live s Hok.
  induction Hops as [|op ops Hop Hops IH]; intros live s Hok; cbn [heap_exec_all].
  { by exists live, s. }
  destruct (heap_exec_ok base len op live s) as (live1 & s1 & Hrun & Hok1); [done..|].
  erewrite bind_Ok by done. by apply IH.
Qed.


(** ** Concurrent callers

    The lock protects the cursor, but [page_alloc()] reads the address of its
    block back from [heap_addr] after releasing the lock.  [page_alloc_aligned()]
    returns a local variable, so its call is one step. *)

Inductive heap_thread : Set :=
| Want (n : Z)
| WantAligned (n al : Z)
| Carved (n : Z)
| Has (a n : Z).

Inductive heap_step : heap_state * list heap_thread → heap_state * list heap_thread → Prop :=
| conc_refused s ts i n :
    zget ts i = Some (Want n) →
    heap_initialised s ≠ HEAP_INIT_SUCCESS ∨ n = 0 →
    heap_step (s, ts) (s, zset ts i (Has HEAP_NULL_PTR n))
| conc_locked s s' ts i n (ok : bool) :
    zget ts i = Some (Want n) →
    heap_initialised s = HEAP_INIT_SUCCESS → n ≠ 0 →
    page_alloc_locked n s = Ok (ok, s') →
    heap_step (s, ts) (s', zset ts i (if ok then Carved n else Has HEAP_NULL_PTR n))
| conc_read s ts i n :
    zget ts i = Some (Carved n) →
    heap_step (s, ts) (s, zset ts i (Has (heap_addr s) n))
| conc_aligned s s' ts i n al a :
    zget ts i = Some (WantAligned n al) →
    page_alloc_aligned n al s = Ok (a, s') →
    heap_step (s, ts) (s', zset ts i (Has a n)).

(** A call of [page_alloc()] that is not interleaved with others is its two
    steps. *)
Lemma page_alloc_two_steps (n a : Z) (s s' : heap_state) :
  heap_initialised s = HEAP_INIT_SUCCESS → n ≠ 0 →
  page_alloc n s = Ok (a, s') →
  rtc heap_step (s, [Want n]) (s', [Has a n]).
Proof.
  intros Hi Hn Hrun. unfold page_alloc in Hrun.
  apply bind_Ok_inv in Hrun as (s0 & s1 & Hget & Hrun). unfold get in Hget. simplify_eq.
  rewrite Hi, (proj2 (Z.eqb_neq n 0)) in Hrun by done. cbn in Hrun.
  apply bind_Ok_inv in Hrun as (ok & s2 & Hl & Hrun). inv_run.
  eapply rtc_l; [by apply (conc_locked s1 s' [Want n] 0 n ok)|].
  destruct ok; [|apply rtc_refl].
  apply rtc_once. by apply (conc_read s' [Carved n] 0 n).
Qed.

(** ** Properties *)


(** an aligned allocation returns the first multiple of the alignment at
    or above the cursor, and fails, returning NULL, exactly when the size is
    0, the alignment is not a power of two or the block would not end below
    the end of the heap. *)
Theorem page_alloc_aligned_spec (base len n al : Z) (ops : list heap_op)
    (s0 s : heap_state) (live : list block) :
  heap_geometry base len → Forall op_bounded ops →
  0 <= n < 2 ^ 62 → 0 <= al <= 2 ^ 62 →
  page_pool_init base len heap_boot = Ok (HEAP_INIT_SUCCESS, s0) →
  heap_exec_all ops [] s0 = Ok (live, s) →
  ∃ a s', page_alloc_aligned n al s = Ok (a, s')
    ∧ (a ≠ HEAP_NULL_PTR → (al | a) ∧ memory_used s <= a < memory_used s + al)
    ∧ (a = HEAP_NULL_PTR ↔ n = 0 ∨ is_power_of_2 al = false
         ∨ base + len <= align_up (memory_used s) al + n).
Proof.
  intros Hg Hops Hn Hal Hi Hrun.
  destruct (heap_ok_init base len Hg) as (s0' & Hi' & Hok).
  rewrite Hi in Hi'. injection Hi' as <-.
  destruct (heap_exec_all_ok base len ops [] s0 Hg Hok Hops) as (live' & s1 & Hrun' & Hok').
  rewrite Hrun in Hrun'. injection Hrun' as <- <-.
  destruct (page_alloc_aligned_run base len n al live s Hg Hok' Hn Hal)
    as (a & s' & Ha & _ & Hnz & Hz).
  exists a, s'. split_and!; [done| |done].
  intros Hne. destruct (Hnz Hne) as [-> Hd]. split; [done|].
  apply align_up_spec. destruct (is_power_of_2 al) eqn:Ep; [|tauto].
  apply is_power_of_2_spec in Ep as (k & Hk & ->); [|unfold in_width; lia].
  apply pow2_pos. lia.
Qed.

End PageAllocator.

(** two CPUs that call [page_alloc()] at the same time can both be given
    the same block: the second moves [heap_addr] between the first one's
    unlock and its read of [heap_addr]. *)
Theorem page_alloc_race :
  ∃ s s',
    page_pool_init 0x80000000 0x80000000 0x88000000 0x100000 heap_boot
      = Ok (HEAP_INIT_SUCCESS, s)
    ∧ rtc heap_step (s, [Want 4096; Want 4096])
        (s', [Has 0x88001000 4096; Has 0x88001000 4096]).
Proof.
  eexists. eexists. split; [reflexivity|].
  eapply rtc_l; [eapply (conc_locked _ _ _ 0 4096 true); reflexivity || discriminate|].
  eapply rtc_l; [eapply (conc_locked _ _ _ 1 4096 true); reflexivity || discriminate|].
  eapply rtc_l; [eapply (conc_read _ _ 0 4096); reflexivity|].
  eapply rtc_l; [eapply (conc_read _ _ 1 4096); reflexivity|].
  apply rtc_refl.
Qed.

Definition demo_ops : list heap_op :=
  [OpAlloc 100; OpAlign 4096 4096; OpFree 7; OpAlign 10 3; OpAlloc 0x200000; OpAlloc 16].

Lemma demo_geometry : heap_geometry 0x80000000 0x80000000 0x88000000 0x100000.
Proof. unfold heap_geometry. lia. Qed.

Lemma demo_ops_bounded : Forall op_bounded demo_ops.
Proof. repeat constructor; cbn; lia. Qed.


Definition demo_heap0 : heap_state :=
  match page_pool_init 0x80000000 0x80000000 0x88000000 0x100000 heap_boot with
  | Ok (_, s) => s | Stop _ => heap_boot end.
Definition demo_heap1 : list (Z * Z) * heap_state :=
  match heap_exec_all demo_ops [] demo_heap0 with
  | Ok r => r | Stop _ => ([], heap_boot) end.

Lemma page_alloc_aligned_spec_witness :
  length demo_heap1.1 = 3%nat ∧
  ∃ a s', page_alloc_aligned 64 0x1000 demo_heap1.2 = Ok (a, s')
    ∧ (a ≠ HEAP_NULL_PTR →
       (0x1000 | a) ∧ memory_used demo_heap1.2 <= a < memory_used demo_heap1.2 + 0x1000)
    ∧ (a = HEAP_NULL_PTR ↔ 64 = 0 ∨ is_power_of_2 0x1000 = false
         ∨ 0x88000000 + 0x100000 <= align_up (memory_used demo_heap1.2) 0x1000 + 64).
Proof.
  split; [reflexivity|].
  apply (page_alloc_aligned_spec 0x80000000 0x80000000 0x88000000 0x100000 64 0x1000
    demo_ops demo_heap0 demo_heap1.2 demo_heap1.1).
  - apply demo_geometry.
  - apply demo_ops_bounded.
  - lia.
  - lia.
  - reflexivity.
  - reflexivity.
Defined.
