(* ===== verification/Events.v ===== *)
(** * Events between CPUs (lib/events/events.c)

    An event is a counter protected by a spinlock.  Each CPU runs one call,
    a send or a wait, as a sequence of steps between which the other CPUs may
    run: taking the lock, the load and the store of each access to the
    counter, and releasing the lock. *)

From S2P Require Import Prelude.

Local Open Scope Z_scope.

(** [event_t] *)
Record event_t := {
  cnt : Z;
  lock : bool;
}.

Definition tftf_init_event : event_t := {| cnt := 0; lock := false |}.

(** Where a CPU is in its call. *)
Inductive pc : Set :=
(** [send_event_common(event, inc)] *)
| SLock (inc : Z)
| SLoad (inc : Z)
| SStore (inc v : Z)
| SUnlock (inc : Z)
| SDone (inc : Z)
(** [tftf_wait_for_event(event)] *)
| WPoll
| WLock
| WCheck
| WLoad
| WStore (v : Z)
| WUnlock (event_received : bool)
| WDone.

#[export] Instance pc_eq_dec : EqDecision pc.
Proof. solve_decision. Defined.

(** One step of a CPU at [p]; [None] while it spins on the lock. *)
Definition send_event_common (e : event_t) (p : pc) : option (event_t * pc) :=
  match p with
  | SLock inc =>
      if lock e then None else Some ({| cnt := cnt e; lock := true |}, SLoad inc)
  | SLoad inc => Some (e, SStore inc (cnt e))
  | SStore inc v => Some ({| cnt := u32 (v + inc); lock := lock e |}, SUnlock inc)
  | SUnlock inc => Some ({| cnt := cnt e; lock := false |}, SDone inc)
  | _ => None
  end.

Definition tftf_wait_for_event (e : event_t) (p : pc) : option (event_t * pc) :=
  match p with
  | WPoll => if cnt e =? 0 then Some (e, WPoll) else Some (e, WLock)
  | WLock => if lock e then None else Some ({| cnt := cnt e; lock := true |}, WCheck)
  | WCheck => if negb (cnt e =? 0) then Some (e, WLoad) else Some (e, WUnlock false)
  | WLoad => Some (e, WStore (cnt e))
  | WStore v => Some ({| cnt := u32 (v - 1); lock := lock e |}, WUnlock true)
  | WUnlock r => Some ({| cnt := cnt e; lock := false |}, if r then WDone else WPoll)
  | _ => None
  end.

Definition cpu_step (e : event_t) (p : pc) : option (event_t * pc) :=
  match p with
  | SLock _ | SLoad _ | SStore _ _ | SUnlock _ | SDone _ => send_event_common e p
  | _ => tftf_wait_for_event e p
  end.

Section Api.
Context (PLATFORM_CORE_COUNT : Z).

(** The calls of the API, as the first step of a CPU. *)
Definition tftf_send_event : outcome pc := Ok (SLock 1).
Definition tftf_send_event_to_all : outcome pc := Ok (SLock PLATFORM_CORE_COUNT).
Definition tftf_send_event_to (cpus_count : Z) : outcome pc :=
  if cpus_count <=? PLATFORM_CORE_COUNT then Ok (SLock cpus_count) else Stop AssertFail.

End Api.

(** ** The system *)

Definition system : Type := event_t * list pc.

Inductive sys_step : system → system → Prop :=
| sys_cpu e e' cpus i p p' :
    cpus !! i = Some p → cpu_step e p = Some (e', p') →
    sys_step (e, cpus) (e', <[i := p']> cpus).

(** CPUs about to send or to wait. *)
Definition starting (p : pc) : Prop :=
  match p with SLock inc => 0 <= inc | WPoll => True | _ => False end.

(** ** Counting *)

(** The increments already stored, and those of the whole run. *)
Definition sent1 (p : pc) : Z :=
  match p with SUnlock inc | SDone inc => inc | _ => 0 end.
Definition total1 (p : pc) : Z :=
  match p with
  | SLock inc | SLoad inc | SStore inc _ | SUnlock inc | SDone inc => inc
  | _ => 0
  end.
(** The events already taken. *)
Definition received1 (p : pc) : Z :=
  match p with WUnlock true | WDone => 1 | _ => 0 end.
Definition waiter1 (p : pc) : Z :=
  match p with
  | WPoll | WLock | WCheck | WLoad | WStore _ | WUnlock _ | WDone => 1
  | _ => 0
  end.
(** Whether the CPU is between taking and releasing the lock. *)
Definition holds1 (p : pc) : Z :=
  match p with
  | SLoad _ | SStore _ _ | SUnlock _ | WCheck | WLoad | WStore _ | WUnlock _ => 1
  | _ => 0
  end.

Abbreviation sent := (zsum sent1).
Abbreviation total := (zsum total1).
Abbreviation received := (zsum received1).
Abbreviation waiters := (zsum waiter1).
Abbreviation holders := (zsum holds1).

Definition inc_ok (p : pc) : Prop := 0 <= total1 p.

Lemma sent1_le_total1 (p : pc) : inc_ok p → 0 <= sent1 p <= total1 p.
Proof. unfold inc_ok. destruct p; cbn; lia. Qed.

Lemma zsum_bounds (l : list pc) : Forall inc_ok l → 0 <= sent l <= total l.
Proof.
  induction 1 as [|p l Hp Hl IH]; unfold zsum in *; cbn; [lia|].
  pose proof (sent1_le_total1 p Hp). lia.
Qed.

(** The values a CPU carries agree with the counter. *)
Definition local_ok (c : Z) (p : pc) : Prop :=
  match p with
  | SStore _ v => v = c
  | WLoad => c ≠ 0
  | WStore v => v = c ∧ c ≠ 0
  | _ => True
  end.

Record events_ok (tot : Z) (s : system) : Prop := {
  ev_inc : Forall inc_ok s.2;
  ev_total : total s.2 = tot;
  ev_cnt : cnt s.1 = sent s.2 - received s.2;
  ev_cnt_nonneg : 0 <= cnt s.1;
  ev_lock : holders s.2 = if lock s.1 then 1 else 0;
  ev_local : ∀ i p, s.2 !! i = Some p → local_ok (cnt s.1) p;
}.


(** The counts after one CPU moved. *)
Ltac count_update Hi :=
  rewrite ?(zsum_insert sent1 _ _ _ _ Hi), ?(zsum_insert total1 _ _ _ _ Hi),
    ?(zsum_insert received1 _ _ _ _ Hi), ?(zsum_insert holds1 _ _ _ _ Hi).

Lemma holds1_nonneg (l : list pc) : ∀ p, p ∈ l → 0 <= holds1 p.
Proof. intros p _. destruct p; cbn; lia. Qed.

Lemma received1_nonneg (l : list pc) : ∀ p, p ∈ l → 0 <= received1 p.
Proof. intros p _. destruct p as [| | | | | | | | | |[]|]; cbn; lia. Qed.

(** At most one CPU is inside the critical section. *)
Lemma holder_unique (tot : Z) (s : system) (i j : nat) (p q : pc) :
  events_ok tot s → s.2 !! i = Some p → s.2 !! j = Some q →
  holds1 p = 1 → holds1 q = 1 → i = j.
Proof.
  intros Hok Hi Hj Hp Hq. destruct (decide (i = j)) as [|Hne]; [done|].
  pose proof (zsum_ge_2 holds1 s.2 i j p q (holds1_nonneg _) Hne Hi Hj).
  rewrite (ev_lock _ _ Hok) in *. destruct (lock s.1); lia.
Qed.

Lemma holder_locked (tot : Z) (s : system) (i : nat) (p : pc) :
  events_ok tot s → s.2 !! i = Some p → holds1 p = 1 → lock s.1 = true.
Proof.
  intros Hok Hi Hp.
  pose proof (zsum_ge holds1 s.2 i p (holds1_nonneg _) Hi).
  rewrite (ev_lock _ _ Hok) in *. destruct (lock s.1); [done|lia].
Qed.

(** A step that keeps the counter. *)
Lemma events_ok_same_cnt (tot : Z) (e e' : event_t) (cpus : list pc) (i : nat) (p p' : pc) :
  events_ok tot (e, cpus) → cpus !! i = Some p →
  cnt e' = cnt e → total1 p' = total1 p → sent1 p' = sent1 p →
  received1 p' = received1 p →
  holders cpus - holds1 p + holds1 p' = (if lock e' then 1 else 0) →
  local_ok (cnt e) p' →
  events_ok tot (e', <[i := p']> cpus).
Proof.
  intros Hok Hi Ec Et Es Er Hl Hp'. destruct Hok; cbn in *.
  split; cbn; count_update Hi; rewrite ?Ec, ?Et, ?Es, ?Er; try lia.
  - apply Forall_insert; [done|]. unfold inc_ok in *. rewrite Et.
    by eapply Forall_lookup_1 in ev_inc0.
  - intros j q Hj. apply list_lookup_insert_Some in Hj as [(-> & <- & _)|[_ Hj]];
      [done|by eauto].
Qed.

(** A store to the counter by the CPU that holds the lock. *)
Lemma events_ok_store (tot c' : Z) (lk : bool) (e : event_t) (cpus : list pc) (i : nat)
    (p p' : pc) :
  events_ok tot (e, cpus) → cpus !! i = Some p → lk = lock e → 0 <= c' →
  holds1 p = 1 → holds1 p' = 1 →
  total1 p' = total1 p →
  c' = cnt e - sent1 p + sent1 p' + received1 p - received1 p' →
  local_ok c' p' →
  events_ok tot ({| cnt := c'; lock := lk |}, <[i := p']> cpus).
Proof.
  intros Hok Hi -> Hc Hh Hh' Et Hd Hp'. pose proof Hok as [].  cbn in *.
  split; cbn; count_update Hi; rewrite ?Et; try lia.
  - apply Forall_insert; [done|]. unfold inc_ok in *. rewrite Et.
    by eapply Forall_lookup_1 in ev_inc0.
  - intros j q Hj. apply list_lookup_insert_Some in Hj as [(-> & <- & _)|[Hne Hj]]; [done|].
    destruct (decide (holds1 q = 1)) as [Hq|Hq].
    + destruct Hne. by eapply (holder_unique tot (e, cpus)).
    + by destruct q.
Qed.

Lemma sys_step_ok (tot : Z) (s s' : system) :
  tot <= UINT32_MAX → events_ok tot s → sys_step s s' → events_ok tot s'.
Proof.
  intros Htot Hok Hstep. destruct Hstep as [e e' cpus i p p' Hi Hs].
  pose proof (ev_lock _ _ Hok) as Hlk. cbn in Hlk.
  pose proof (ev_local _ _ Hok i p Hi) as Hloc. cbn in Hloc.
  pose proof (Forall_lookup_1 _ _ _ _ (ev_inc _ _ Hok) Hi) as Hinc.
  unfold inc_ok in Hinc.
  assert (holds1 p = 1 → lock e = true) as Hheld by (by eapply (holder_locked tot (e, cpus))).
  assert (∀ inc, p = SStore inc (cnt e) → 0 <= cnt e + inc <= UINT32_MAX) as Hadd.
  { intros inc ->. pose proof (ev_total _ _ Hok) as Ht. cbn in Ht.
    assert (sent (<[i := SUnlock inc]> cpus) <= total (<[i := SUnlock inc]> cpus)) as Hle.
    { apply zsum_bounds, Forall_insert; [apply (ev_inc _ _ Hok)|done]. }
    rewrite (zsum_insert sent1 _ _ _ _ Hi), (zsum_insert total1 _ _ _ _ Hi) in Hle. cbn in *.
    pose proof (ev_cnt _ _ Hok) as Hc. cbn in Hc.
    assert (0 <= received cpus).
    { apply zsum_nonneg, received1_nonneg. }
    pose proof (ev_cnt_nonneg _ _ Hok). cbn in *. lia. }
  destruct p; cbn in Hs, Hloc, Hinc, Hheld; repeat case_match; simplify_eq; bool_hyps;
    try (specialize (Hheld eq_refl)).
  all: try (eapply events_ok_same_cnt; [exact Hok|exact Hi|
    cbn; (done || (repeat case_match; (congruence || lia)))..]).
  - rewrite u32_small by (apply Hadd; done).
    eapply events_ok_store; [exact Hok|exact Hi|done|apply Hadd; done|done..|cbn; lia|done].
  - destruct Hloc as [-> Hnz]. pose proof (ev_cnt_nonneg _ _ Hok) as Hnn. cbn in Hnn.
    assert (cnt e <= UINT32_MAX).
    { pose proof (ev_total _ _ Hok). pose proof (ev_cnt _ _ Hok).
      pose proof (zsum_bounds _ (ev_inc _ _ Hok)).
      assert (0 <= received cpus); [|cbn in *; lia].
      apply zsum_nonneg, received1_nonneg. }
    rewrite u32_small by lia.
    eapply events_ok_store; [exact Hok|exact Hi|done|lia|done..|cbn; lia|done].
Qed.


(** ** Runs *)

(** The states a group of CPUs reaches from a fresh event. *)
Definition event_reachable (cpus0 : list pc) (s : system) : Prop :=
  Forall starting cpus0 ∧ total cpus0 <= UINT32_MAX
  ∧ rtc sys_step (tftf_init_event, cpus0) s.

Lemma starting_counts (cpus : list pc) :
  Forall starting cpus →
  Forall inc_ok cpus ∧ sent cpus = 0 ∧ received cpus = 0 ∧ holders cpus = 0
  ∧ ∀ i p c, cpus !! i = Some p → local_ok c p.
Proof.
  induction 1 as [|p l Hp Hl (I & S & R & L & C)].
  { split_and!; [constructor|done..]. }
  split_and!.
  - constructor; [|done]. unfold inc_ok. by destruct p.
  - unfold zsum in *. cbn. destruct p; cbn in *; (done || lia).
  - unfold zsum in *. cbn. destruct p; cbn in *; (done || lia).
  - unfold zsum in *. cbn. destruct p; cbn in *; (done || lia).
  - intros [|i] q c; cbn; [|apply C]. intros [= <-]. by destruct p.
Qed.

Lemma reachable_events_ok (cpus0 : list pc) (s : system) :
  event_reachable cpus0 s → events_ok (total cpus0) s.
Proof.
  intros (Hst & Htot & Hr).
  destruct (starting_counts cpus0 Hst) as (I & S & R & L & C).
  assert (events_ok (total cpus0) (tftf_init_event, cpus0)) as H0.
  { split; cbn; rewrite ?S, ?R, ?L; try done. intros i p. apply C. }
  revert H0. induction Hr as [|s1 s2 s3 H12 H23 IH]; [done|].
  intros H1. by apply IH, (sys_step_ok _ s1 s2).
Qed.

(** The number of waiting CPUs is that of the start. *)
Lemma waiters_constant (s s' : system) : rtc sys_step s s' → waiters s'.2 = waiters s.2.
Proof.
  induction 1 as [|s1 s2 s3 H12 H23 IH]; [done|]. rewrite IH.
  destruct H12 as [e e' cpus i p p' Hi Hs]. cbn.
  rewrite (zsum_insert waiter1 _ _ _ _ Hi).
  assert (waiter1 p' = waiter1 p); [|lia].
  destruct p; cbn in Hs; repeat case_match; simplify_eq; done.
Qed.

Lemma zsum_minus {A} (f g : A → Z) (l : list A) :
  zsum (λ x, f x - g x) l = zsum f l - zsum g l.
Proof. induction l as [|x l IH]; unfold zsum in *; cbn; lia. Qed.

Lemma zsum_ext {A} (f g : A → Z) (l : list A) :
  (∀ i x, l !! i = Some x → f x = g x) → zsum f l = zsum g l.
Proof.
  induction l as [|x l IH]; intros H; unfold zsum in *; cbn; [done|].
  rewrite (H 0%nat x) by done. rewrite IH; [done|]. intros i y. apply (H (S i)).
Qed.

(** No CPU can do anything that changes the state. *)
Definition stuck (s : system) : Prop := ∀ s', sys_step s s' → s' = s.

Definition finished (p : pc) : Prop :=
  match p with SDone _ | WDone => True | _ => False end.

Lemma stuck_next (s : system) (i : nat) (p p' : pc) (e' : event_t) :
  stuck s → s.2 !! i = Some p → cpu_step s.1 p = Some (e', p') → p' = p.
Proof.
  intros Hs Hi Hc. destruct s as [e cpus]; cbn in *.
  assert ((e', <[i := p']> cpus) = (e, cpus)) as E by (apply Hs; by econstructor).
  injection E as -> E.
  assert ((<[i := p']> cpus : list pc) !! i = Some p) as Hl by (by rewrite E).
  rewrite list_lookup_insert_eq in Hl by (by eapply lookup_lt_Some). congruence.
Qed.

(** In a stuck state nobody is inside the critical section or spinning. *)
Lemma stuck_pcs (tot : Z) (s : system) (i : nat) (p : pc) :
  events_ok tot s → stuck s → s.2 !! i = Some p →
  finished p ∨ p = WPoll ∧ cnt s.1 = 0.
Proof.
  intros Hok Hs.
  assert (∀ i p, s.2 !! i = Some p → holds1 p ≠ 1) as Hnone.
  { intros j q Hj Hq. destruct q; try done; cbn in Hq.
    all: try (by eapply (stuck_next s j) in Hj; [|done|reflexivity]).
    - destruct (cnt s.1 =? 0) eqn:E.
      + eapply (stuck_next s j) in Hj; [|done|cbn; rewrite E; reflexivity]. done.
      + eapply (stuck_next s j) in Hj; [|done|cbn; rewrite E; reflexivity]. done.
    - eapply (stuck_next s j) in Hj; [|done|reflexivity]. by destruct event_received. }
  assert (lock s.1 = false) as Hlock.
  { pose proof (ev_lock _ _ Hok) as Hl. destruct (lock s.1); [|done].
    rewrite (zsum_ext holds1 (λ _, 0)) in Hl.
    - exfalso. clear -Hl. induction s.2 as [|x l IH]; [done|].
      apply IH. unfold zsum in *. cbn in *. lia.
    - intros j q Hj. specialize (Hnone j q Hj). destruct q; cbn in *; done. }
  intros Hi. specialize (Hnone i p Hi).
  destruct p; try (by left); try (by destruct Hnone).
  - eapply (stuck_next s i) in Hi; [|done|cbn; rewrite Hlock; reflexivity]. done.
  - right. split; [done|]. destruct (Z.eqb_spec (cnt s.1) 0) as [|Hne]; [done|].
    apply Z.eqb_neq in Hne.
    eapply (stuck_next s i) in Hi; [|done|cbn; rewrite Hne; reflexivity]. done.
  - eapply (stuck_next s i) in Hi; [|done|cbn; rewrite Hlock; reflexivity]. done.
Qed.

(** ** Properties *)

(** C8: in every interleaving of sends and waits on a fresh event (whose
    increments add up to at most [UINT32_MAX]), no increment and no decrement
    of the counter is lost: it always is the number of events sent minus the
    number received, never negative; and at most one CPU is inside the
    critical section. *)
Theorem event_counter_exact (cpus0 : list pc) (s : system) :
  event_reachable cpus0 s →
  cnt s.1 = sent s.2 - received s.2 ∧ received s.2 <= sent s.2 ∧ sent s.2 <= total cpus0
  ∧ ∀ i j p q, s.2 !! i = Some p → s.2 !! j = Some q →
      holds1 p = 1 → holds1 q = 1 → i = j.
Proof.
  intros Hr. pose proof (reachable_events_ok cpus0 s Hr) as Hok.
  pose proof (ev_cnt _ _ Hok). pose proof (ev_cnt_nonneg _ _ Hok).
  pose proof (zsum_bounds _ (ev_inc _ _ Hok)). pose proof (ev_total _ _ Hok).
  split_and!; [lia..|]. intros i j p q. by apply (holder_unique (total cpus0) s).
Qed.


(** ** A run: CPU 0 sends to two CPUs, CPUs 1 and 2 wait *)

Definition demo_cpus : list pc := [SLock 2; WPoll; WPoll].

(** Let CPU [i] make one step. *)
Definition run1 (s : system) (i : nat) : system :=
  match s.2 !! i with
  | Some p =>
      match cpu_step s.1 p with
      | Some (e', p') => (e', <[i := p']> s.2)
      | None => s
      end
  | None => s
  end.

Definition demo_schedule : list nat :=
  [1; 0; 0; 2; 0; 0; 1; 2; 1; 1; 1; 1; 1; 2; 2; 2; 2; 2; 2]%nat.
Definition demo_end : system :=
  foldl run1 (tftf_init_event, demo_cpus) demo_schedule.

Lemma run1_steps (s : system) (l : list nat) : rtc sys_step s (foldl run1 s l).
Proof.
  revert s. induction l as [|i l IH]; intros s; cbn; [apply rtc_refl|].
  unfold run1 at 2. destruct s as [e cpus]; cbn.
  destruct (cpus !! i) as [p|] eqn:Hi; [|apply IH].
  destruct (cpu_step e p) as [[e' p']|] eqn:Hs; [|apply IH].
  eapply rtc_l; [by econstructor|apply IH].
Qed.

Lemma demo_event_reachable : event_reachable demo_cpus demo_end.
Proof.
  split; [|split; [vm_compute; discriminate|apply run1_steps]].
  repeat (apply Forall_cons; split; [cbn; (lia || done)|]). by apply Forall_nil.
Qed.

Lemma demo_end_eq : demo_end = (tftf_init_event, [SDone 2; WDone; WDone]).
Proof. reflexivity. Qed.

Lemma event_counter_exact_witness :
  cnt demo_end.1 = sent demo_end.2 - received demo_end.2
  ∧ received demo_end.2 <= sent demo_end.2 ∧ sent demo_end.2 <= total demo_cpus
  ∧ ∀ i j p q, demo_end.2 !! i = Some p → demo_end.2 !! j = Some q →
      holds1 p = 1 → holds1 q = 1 → i = j.
Proof. apply (event_counter_exact demo_cpus demo_end). apply demo_event_reachable. Defined.

