(* ===== verification/Topology.v ===== *)
(** * The power domain topology (plat/common/plat_topology.c)

    The platform describes its tree of power domains as an array of child
    counts, level by level.  [tftf_init_topology()] turns it into an array of
    nodes, highest level first, the CPUs last; the other operations walk this
    array.  What the platform port provides (the description, the MPIDR of
    each CPU, the position of an MPIDR) are parameters. *)

From S2P Require Import Prelude.

Local Open Scope Z_scope.

Definition PWR_DOMAIN_INIT : Z := UINT32_MAX.
Definition INVALID_MPID : Z := 0xFFFFFFFF.
Definition MPIDR_AFFLVL1 : Z := 1.
Definition MPIDR_MT_MASK : Z := 2 ^ 24.
Definition MPIDR_AFFLVL_MASK : Z := 0xff.

Record tftf_pwr_domain_node_t := {
  cpu_start_node : Z;
  ncpus : Z;
  mpidr : Z;
  parent_node : Z;
  level : Z;
  is_present : Z;
}.

#[export] Instance node_eq_dec : EqDecision tftf_pwr_domain_node_t.
Proof. solve_decision. Defined.

Definition zero_node : tftf_pwr_domain_node_t :=
  {| cpu_start_node := 0; ncpus := 0; mpidr := 0; parent_node := 0; level := 0;
     is_present := 0 |}.

Record topo_state := {
  topology_setup_done : Z;
  tftf_pwr_domain_start_idx : list Z;
  tftf_pd_nodes : list tftf_pwr_domain_node_t;
}.

Definition set_nodes (s : topo_state) (l : list tftf_pwr_domain_node_t) : topo_state :=
  {| topology_setup_done := topology_setup_done s;
     tftf_pwr_domain_start_idx := tftf_pwr_domain_start_idx s; tftf_pd_nodes := l |}.
Definition set_starts (s : topo_state) (l : list Z) : topo_state :=
  {| topology_setup_done := topology_setup_done s;
     tftf_pwr_domain_start_idx := l; tftf_pd_nodes := tftf_pd_nodes s |}.
Definition set_done (s : topo_state) (v : Z) : topo_state :=
  {| topology_setup_done := v;
     tftf_pwr_domain_start_idx := tftf_pwr_domain_start_idx s;
     tftf_pd_nodes := tftf_pd_nodes s |}.

(** [tftf_pd_nodes[i]] and [tftf_pwr_domain_start_idx[l]], read and written *)
Definition node (i : Z) : M topo_state tftf_pwr_domain_node_t :=
  s ← get; aget (tftf_pd_nodes s) i.
Definition write_node (i : Z) (n : tftf_pwr_domain_node_t) : M topo_state unit :=
  s ← get;
  l ← aset (tftf_pd_nodes s) i n;
  modify (λ s, set_nodes s l).
Definition start_idx (l : Z) : M topo_state Z :=
  s ← get; aget (tftf_pwr_domain_start_idx s) l.
Definition write_start_idx (l v : Z) : M topo_state unit :=
  s ← get;
  k ← aset (tftf_pwr_domain_start_idx s) l v;
  modify (λ s, set_starts s k).

Section Topo.

Context (PLATFORM_CORE_COUNT PLATFORM_NUM_AFFS : Z).
Context (PLATFORM_MAX_AFFLVL : nat).
(** [tftf_plat_get_pwr_domain_tree_desc()] and [tftf_plat_get_mpidr()] of the
    platform port *)
Context (plat_array : list Z).
Context (tftf_plat_get_mpidr : Z → Z).

Abbreviation MAX_AFFLVL := (Z.of_nat PLATFORM_MAX_AFFLVL).

Definition topo_boot : topo_state :=
  {| topology_setup_done := 0;
     tftf_pwr_domain_start_idx := replicate (S PLATFORM_MAX_AFFLVL) 0;
     tftf_pd_nodes := replicate (Z.to_nat PLATFORM_NUM_AFFS) zero_node |}.

(** ** Building the tree *)

(** The body of the innermost loop of [populate_power_domain_tree()]: node
    [j] of level [num_level] becomes a child of node [parent_idx - 1]. *)
Definition init_node (num_level parent_idx j : Z) : M topo_state unit :=
  n ← node j;
  let n1 := {| cpu_start_node := cpu_start_node n; ncpus := ncpus n; mpidr := mpidr n;
               parent_node := u32 (parent_idx - 1); level := num_level;
               is_present := is_present n |} in
  write_node j n1;;
  if num_level =? 0 then
    start ← start_idx 0;
    let cpu_id := s32 (j - start) in
    assert_ (cpu_id <? PLATFORM_CORE_COUNT);;
    let mp := tftf_plat_get_mpidr cpu_id in
    write_node j {| cpu_start_node := j; ncpus := 1; mpidr := mp;
                    parent_node := parent_node n1; level := level n1;
                    is_present := if negb (mp =? INVALID_MPID) then 1
                                  else is_present n1 |}
  else mret tt.

(** The innermost loop: [n] children from node [j] on. *)
Fixpoint init_children (num_level parent_idx : Z) (n : nat) (j : Z) : M topo_state unit :=
  match n with
  | O => mret tt
  | S n' => init_node num_level parent_idx j;;
            init_children num_level parent_idx n' (j + 1)
  end.

(** The loop over the [n] parents of a level; it returns the next free node,
    the next parent and the number of nodes allocated. *)
Fixpoint populate_level (num_level : Z) (n : nat)
    (node_index parent_idx num_nodes_at_next_lvl : Z) : M topo_state (Z * Z * Z) :=
  match n with
  | O => mret (node_index, parent_idx, num_nodes_at_next_lvl)
  | S n' =>
      assert_ (parent_idx <=? PLATFORM_NUM_AFFS - PLATFORM_CORE_COUNT);;
      num_children ← aget plat_array parent_idx;
      init_children num_level parent_idx (Z.to_nat num_children) node_index;;
      populate_level num_level n' (node_index + num_children) (parent_idx + 1)
        (num_nodes_at_next_lvl + num_children)
  end.

(** The loop over the levels, [lvls] of them left, the next one being
    [lvls - 1]. *)
Fixpoint populate_levels (lvls : nat) (num_nodes_at_lvl node_index parent_idx : Z)
    : M topo_state Z :=
  match lvls with
  | O => mret node_index
  | S lvls' =>
      let num_level := Z.of_nat lvls' in
      write_start_idx num_level node_index;;
      r ← populate_level num_level (Z.to_nat num_nodes_at_lvl) node_index parent_idx 0;
      populate_levels lvls' r.2 r.1.1 r.1.2
  end.

(** [j], the last node index used, is [node_index] at the end of every level. *)
Definition populate_power_domain_tree : M topo_state unit :=
  j ← populate_levels (S PLATFORM_MAX_AFFLVL) 1 0 0;
  assert_ (j =? PLATFORM_NUM_AFFS).

(** [get_parent_pwr_domain_nodes()]: the ancestors of a node, nearest first. *)
Fixpoint get_parents (n : nat) (parent : Z) : M topo_state (list Z) :=
  match n with
  | O => mret []
  | S n' =>
      p ← node parent;
      rest ← get_parents n' (parent_node p);
      mret (parent :: rest)
  end.

Definition get_parent_pwr_domain_nodes (cpu_node : Z) (end_lvl : nat)
    : M topo_state (list Z) :=
  n ← node cpu_node;
  get_parents end_lvl (parent_node n).

(** One ancestor [t] of a CPU, against [i], the ancestor at the same level
    the loop saw last. *)
Definition update_ancestor (cpu present t i : Z) : M topo_state unit :=
  (if negb (t =? i) then
     n ← node t;
     write_node t {| cpu_start_node := cpu; ncpus := ncpus n; mpidr := mpidr n;
                     parent_node := parent_node n; level := level n;
                     is_present := if is_present n =? 0 then present else is_present n |}
   else mret tt);;
  n ← node t;
  write_node t {| cpu_start_node := cpu_start_node n; ncpus := u32 (ncpus n + 1);
                  mpidr := mpidr n; parent_node := parent_node n; level := level n;
                  is_present := is_present n |}.

(** The ancestors from the highest level down. *)
Fixpoint update_ancestors (cpu present : Z) (ts seen : list Z) : M topo_state unit :=
  match ts, seen with
  | t :: ts', i :: seen' =>
      update_ancestors cpu present ts' seen';;
      update_ancestor cpu present t i
  | _, _ => mret tt
  end.

(** The loop over the CPUs, [n] of them from [cpu_id] on; [nodes_idx] are the
    ancestors seen last. *)
Fixpoint update_cpus (n : nat) (cpu_id : Z) (nodes_idx : list Z) : M topo_state unit :=
  match n with
  | O => mret tt
  | S n' =>
      off ← start_idx 0;
      temp_index ← get_parent_pwr_domain_nodes (cpu_id + off) PLATFORM_MAX_AFFLVL;
      c ← node (cpu_id + off);
      update_ancestors (cpu_id + off) (is_present c) temp_index nodes_idx;;
      update_cpus n' (cpu_id + 1) temp_index
  end.

Definition update_pwrlvl_limits : M topo_state unit :=
  update_cpus (Z.to_nat PLATFORM_CORE_COUNT) 0
    (replicate PLATFORM_MAX_AFFLVL UINT32_MAX).

Definition tftf_init_topology : M topo_state unit :=
  populate_power_domain_tree;;
  update_pwrlvl_limits;;
  modify (λ s, set_done s 1).

(** ** Walking the tree *)

Definition setup_done : M topo_state unit :=
  s ← get; assert_ (topology_setup_done s =? 1).

(** [CPU_NODE_IS_VALID(cpu_node)], in 32-bit unsigned arithmetic *)
Definition CPU_NODE_IS_VALID (cpu_node : Z) : M topo_state bool :=
  start ← start_idx 0;
  if u32 (cpu_node - start) <? PLATFORM_CORE_COUNT then
    n ← node cpu_node; mret (level n =? 0)
  else mret false.

(** The first present node from [i] on, among [n] nodes for which [stop]
    does not hold. *)
Fixpoint next_present (n : nat) (i : Z) (stop : tftf_pwr_domain_node_t → bool)
    : M topo_state Z :=
  match n with
  | O => mret PWR_DOMAIN_INIT
  | S n' =>
      d ← node i;
      if stop d then mret PWR_DOMAIN_INIT
      else if negb (is_present d =? 0) then mret i
      else next_present n' (i + 1) stop
  end.

Fixpoint count_present (n : nat) (i lvl count : Z) : M topo_state Z :=
  match n with
  | O => mret count
  | S n' =>
      d ← node i;
      if negb (level d =? lvl) then mret count
      else count_present n' (i + 1) lvl
             (if negb (is_present d =? 0) then count + 1 else count)
  end.

Definition tftf_get_total_aff_count (aff_lvl : Z) : M topo_state Z :=
  setup_done;;
  if MAX_AFFLVL <? aff_lvl then mret 0
  else
    node_idx ← start_idx aff_lvl;
    count_present (Z.to_nat (PLATFORM_NUM_AFFS - node_idx)) node_idx aff_lvl 0.

Definition tftf_get_next_peer_domain (pwr_domain_idx pwr_lvl : Z) : M topo_state Z :=
  setup_done;;
  assert_ (pwr_lvl <=? MAX_AFFLVL);;
  let scan idx :=
    assert_ (idx <? PLATFORM_NUM_AFFS);;
    d ← node idx;
    assert_ (level d =? pwr_lvl);;
    next_present (Z.to_nat (PLATFORM_NUM_AFFS - (idx + 1))) (idx + 1)
      (λ d, negb (level d =? pwr_lvl)) in
  if pwr_domain_idx =? PWR_DOMAIN_INIT then
    start ← start_idx pwr_lvl;
    d ← node start;
    if negb (is_present d =? 0) then mret start else scan start
  else scan pwr_domain_idx.

Definition tftf_get_next_cpu_in_pwr_domain (pwr_domain_idx cpu_node : Z) : M topo_state Z :=
  setup_done;;
  assert_ (negb (pwr_domain_idx =? PWR_DOMAIN_INIT)
           && (pwr_domain_idx <? PLATFORM_NUM_AFFS));;
  dom ← node pwr_domain_idx;
  let scan cpu :=
    ok ← CPU_NODE_IS_VALID cpu;
    assert_ ok;;
    let cpu_end_node := u32 (cpu_start_node dom + ncpus dom - 1) in
    assert_ (cpu_end_node <? PLATFORM_NUM_AFFS);;
    next_present (Z.to_nat (cpu_end_node - cpu)) (cpu + 1) (λ _, false) in
  if cpu_node =? PWR_DOMAIN_INIT then
    d ← node (cpu_start_node dom);
    if negb (is_present d =? 0) then mret (cpu_start_node dom)
    else scan (cpu_start_node dom)
  else scan cpu_node.

Definition tftf_topology_next_cpu (cpu_node : Z) : M topo_state Z :=
  setup_done;;
  let scan cpu :=
    ok ← CPU_NODE_IS_VALID cpu;
    assert_ ok;;
    next_present (Z.to_nat (PLATFORM_NUM_AFFS - (cpu + 1))) (cpu + 1) (λ _, false) in
  if cpu_node =? PWR_DOMAIN_INIT then
    start ← start_idx 0;
    d ← node start;
    if negb (is_present d =? 0) then mret start else scan start
  else scan cpu_node.

(** The nodes [for_each_cpu()] visits, with at most [fuel] rounds. *)
Fixpoint for_each_cpu_from (fuel : nat) (cpu : Z) : M topo_state (list Z) :=
  match fuel with
  | O => fail FuelOut
  | S fuel' =>
      if cpu =? PWR_DOMAIN_INIT then mret []
      else
        next ← tftf_topology_next_cpu cpu;
        rest ← for_each_cpu_from fuel' next;
        mret (cpu :: rest)
  end.

Definition for_each_cpu (fuel : nat) : M topo_state (list Z) :=
  first ← tftf_topology_next_cpu PWR_DOMAIN_INIT;
  for_each_cpu_from fuel first.

Fixpoint climb (n : nat) (i : Z) : M topo_state Z :=
  match n with
  | O => mret i
  | S n' => d ← node i; climb n' (parent_node d)
  end.

(** [PLAT_MAX_PWR_LEVEL] is taken to be [PLATFORM_MAX_AFFLVL], as ports define it;
    [platform_get_core_pos()] is an operation of the port. *)
Definition tftf_get_parent_node_from_mpidr (platform_get_core_pos : Z → Z)
    (mpid pwrlvl : Z) : M topo_state Z :=
  let core_pos := platform_get_core_pos mpid in
  if PLATFORM_CORE_COUNT <=? core_pos then mret PWR_DOMAIN_INIT
  else if MAX_AFFLVL <? pwrlvl then mret PWR_DOMAIN_INIT
  else
    start ← start_idx 0;
    climb (Z.to_nat pwrlvl) (start + core_pos).

Definition tftf_get_mpidr_from_node (cpu_node : Z) : M topo_state Z :=
  setup_done;;
  ok ← CPU_NODE_IS_VALID cpu_node;
  assert_ ok;;
  d ← node cpu_node;
  mret (if negb (is_present d =? 0) then mpidr d else INVALID_MPID).

(** [for_each_cpu(cpu) { if (test) return mpidr; }], the loop of the searches
    below. *)
Fixpoint find_cpu_from (test : Z → M topo_state bool) (fuel : nat) (cpu : Z)
    : M topo_state Z :=
  match fuel with
  | O => fail FuelOut
  | S fuel' =>
      if cpu =? PWR_DOMAIN_INIT then mret INVALID_MPID
      else
        mp ← tftf_get_mpidr_from_node cpu;
        found ← test mp;
        if (found : bool) then mret mp
        else
          next ← tftf_topology_next_cpu cpu;
          find_cpu_from test fuel' next
  end.

Definition find_cpu (test : Z → M topo_state bool) : M topo_state Z :=
  first ← tftf_topology_next_cpu PWR_DOMAIN_INIT;
  find_cpu_from test (S (Z.to_nat PLATFORM_NUM_AFFS)) first.

Definition tftf_find_any_cpu_other_than (exclude_mpid : Z) : M topo_state Z :=
  find_cpu (λ mp, mret (negb (mp =? exclude_mpid))).

Definition tftf_find_any_cpu_in_other_cluster (platform_get_core_pos : Z → Z)
    (exclude_mpid : Z) : M topo_state Z :=
  exclude_cluster_node ←
    tftf_get_parent_node_from_mpidr platform_get_core_pos exclude_mpid MPIDR_AFFLVL1;
  find_cpu (λ mp,
    cluster_node ← tftf_get_parent_node_from_mpidr platform_get_core_pos mp MPIDR_AFFLVL1;
    mret (negb (cluster_node =? exclude_cluster_node))).

(** The MPIDs of the CPUs visited that differ from [exclude_mpid]. *)
Fixpoint possible_cpus (exclude_mpid : Z) (cpus : list Z) : M topo_state (list Z) :=
  match cpus with
  | [] => mret []
  | c :: cpus' =>
      mp ← tftf_get_mpidr_from_node c;
      rest ← possible_cpus exclude_mpid cpus';
      mret (if negb (mp =? exclude_mpid) then mp :: rest else rest)
  end.

(** [r] is the value of [rand()]. *)
Definition tftf_find_random_cpu_other_than (r exclude_mpid : Z) : M topo_state Z :=
  if PLATFORM_CORE_COUNT =? 1 then mret INVALID_MPID
  else
    cpus ← for_each_cpu (S (Z.to_nat PLATFORM_NUM_AFFS));
    possible ← possible_cpus exclude_mpid cpus;
    if zlen possible =? 0 then mret INVALID_MPID
    else aget possible (r mod zlen possible).

(** [MPIDR_AFF_ID(mpid, n)] for the levels 0 to 2 *)
Definition MPIDR_AFF_ID (mpid n : Z) : Z := Z.land (Z.shiftr mpid (8 * n)) MPIDR_AFFLVL_MASK.

(** [own] is the MPIDR of the calling CPU. *)
Definition tftf_platform_get_cluster_id (own mpid : Z) : Z :=
  if negb (Z.land own MPIDR_MT_MASK =? 0) then MPIDR_AFF_ID mpid 2 else MPIDR_AFF_ID mpid 1.
Definition tftf_platform_get_core_id (own mpid : Z) : Z :=
  if negb (Z.land own MPIDR_MT_MASK =? 0) then MPIDR_AFF_ID mpid 1 else MPIDR_AFF_ID mpid 0.


(** ** Inversion of the accesses to the arrays *)

Lemma node_inv (i : Z) (n : tftf_pwr_domain_node_t) (s s' : topo_state) :
  node i s = Ok (n, s') → s' = s ∧ zget (tftf_pd_nodes s) i = Some n.
Proof.
  unfold node. intros H. inv_run. unfold aget in H. case_match; by simplify_eq.
Qed.

Lemma write_node_inv (i : Z) (n : tftf_pwr_domain_node_t) (u : unit) (s s' : topo_state) :
  write_node i n s = Ok (u, s') →
  s' = set_nodes s (zset (tftf_pd_nodes s) i n) ∧ 0 <= i < zlen (tftf_pd_nodes s).
Proof.
  unfold write_node. intros H. inv_run. unfold aset, in_range in *.
  repeat case_Z; cbn in *; simplify_eq; split; [done|lia].
Qed.

Lemma start_idx_inv (l v : Z) (s s' : topo_state) :
  start_idx l s = Ok (v, s') → s' = s ∧ zget (tftf_pwr_domain_start_idx s) l = Some v.
Proof.
  unfold start_idx. intros H. inv_run. unfold aget in H. case_match; by simplify_eq.
Qed.

Lemma write_start_idx_inv (l v : Z) (u : unit) (s s' : topo_state) :
  write_start_idx l v s = Ok (u, s') →
  s' = set_starts s (zset (tftf_pwr_domain_start_idx s) l v)
  ∧ 0 <= l < zlen (tftf_pwr_domain_start_idx s).
Proof.
  unfold write_start_idx. intros H. inv_run. unfold aset, in_range in *.
  repeat case_Z; cbn in *; simplify_eq; split; [done|lia].
Qed.

Ltac inv_topo :=
  repeat first
  [ progress inv_run
  | match goal with
    | H : node _ _ = Ok _ |- _ => apply node_inv in H as [-> H]
    | H : write_node _ _ _ = Ok _ |- _ => apply write_node_inv in H as [-> H]
    | H : start_idx _ _ = Ok _ |- _ => apply start_idx_inv in H as [-> H]
    | H : write_start_idx _ _ _ = Ok _ |- _ => apply write_start_idx_inv in H as [-> H]
    | H : setup_done _ = Ok _ |- _ => unfold setup_done in H
    | H : aget _ _ _ = Ok _ |- _ =>
        unfold aget in H; destruct (zget _ _) eqn:?; [|done]; simplify_eq
    | H : (if ?b then _ else _) _ = Ok _ |- _ => destruct b eqn:?
    end ].

(** ** What building the tree establishes *)

(** A small platform described by bytes. *)
Definition platform_sane : Prop :=
  0 < PLATFORM_CORE_COUNT ∧ 0 <= PLATFORM_NUM_AFFS < 2 ^ 31
  ∧ Forall (λ c, 0 <= c < 256) plat_array.

(** Node [k] describes CPU number [k - start]. *)
Record cpu_good (start k : Z) (n : tftf_pwr_domain_node_t) : Prop := {
  cg_level : level n = 0;
  cg_start : cpu_start_node n = k;
  cg_ncpus : ncpus n = 1;
  cg_count : k - start < PLATFORM_CORE_COUNT;
  cg_mpidr : mpidr n = tftf_plat_get_mpidr (k - start);
  cg_present : is_present n = if mpidr n =? INVALID_MPID then 0 else 1;
}.

(** While level [lvl] is being built, its nodes being [start .. ni - 1]. *)
Record pop_inv (lvl start ni : Z) (s : topo_state) : Prop := {
  pi_len : zlen (tftf_pd_nodes s) = PLATFORM_NUM_AFFS;
  pi_start : lvl = 0 → zget (tftf_pwr_domain_start_idx s) 0 = Some start;
  pi_range : 0 <= start <= ni ∧ ni <= PLATFORM_NUM_AFFS;
  pi_free : ∀ k n, ni <= k → zget (tftf_pd_nodes s) k = Some n → n = zero_node;
  pi_old : ∀ k n, k < start → zget (tftf_pd_nodes s) k = Some n →
    lvl < level n ∧ (parent_node n < k ∨ parent_node n = UINT32_MAX);
  pi_new : ∀ k n, start <= k < ni → zget (tftf_pd_nodes s) k = Some n →
    level n = lvl ∧ (parent_node n < start ∨ parent_node n = UINT32_MAX)
    ∧ (lvl = 0 → cpu_good start k n);
}.

Lemma u32_parent (start p : Z) :
  0 <= p <= start → start < 2 ^ 31 →
  u32 (p - 1) < start ∨ u32 (p - 1) = UINT32_MAX.
Proof.
  intros Hp Hs. destruct (decide (p = 0)) as [->|Hne]; [by right|].
  left. rewrite u32_small by (unfold UINT32_MAX; lia). lia.
Qed.

(** Storing a good node at the first free index extends the level. *)
Lemma pop_inv_store (lvl start j : Z) (n : tftf_pwr_domain_node_t) (s : topo_state) :
  pop_inv lvl start j s → 0 <= j < zlen (tftf_pd_nodes s) →
  level n = lvl → (parent_node n < start ∨ parent_node n = UINT32_MAX) →
  (lvl = 0 → cpu_good start j n) →
  pop_inv lvl start (j + 1) (set_nodes s (zset (tftf_pd_nodes s) j n)).
Proof.
  intros Hinv Hj Hl Hp Hg. destruct Hinv. split; cbn; rewrite ?zlen_zset; try done.
  - lia.
  - intros k m Hk. rewrite zget_zset. case_decide; [lia|]. apply pi_free0. lia.
  - intros k m Hk. rewrite zget_zset. case_decide; [lia|]. by apply pi_old0.
  - intros k m Hk. rewrite zget_zset. case_decide as Hd.
    + destruct Hd as [<- _]. intros [= <-]. done.
    + apply pi_new0. lia.
Qed.

Lemma init_node_ok (lvl start p j : Z) (u : unit) (s s' : topo_state) :
  platform_sane → pop_inv lvl start j s → 0 <= p <= start →
  init_node lvl p j s = Ok (u, s') → pop_inv lvl start (j + 1) s'.
Proof.
  intros (Hc & Hn & _) Hinv Hp H. unfold init_node in H. inv_topo; cbn in *.
  - bool_hyps. subst lvl. rewrite zset_zset. autorewrite with tftf in *.
    match goal with Hz : zget (tftf_pwr_domain_start_idx _) 0 = Some ?st |- _ =>
      rewrite (pi_start _ _ _ _ Hinv eq_refl) in Hz; injection Hz as <- end.
    match goal with Hz : zget (tftf_pd_nodes _) j = Some ?old |- _ =>
      rewrite (pi_free _ _ _ _ Hinv j old ltac:(lia) Hz) in * end.
    pose proof (pi_range _ _ _ _ Hinv). pose proof (pi_len _ _ _ _ Hinv).
    rewrite s32_small in * by lia.
    apply (pop_inv_store 0 start j _ _ Hinv); cbn; [done|done|apply u32_parent; lia|].
    intros _. split; cbn; try done. by destruct (_ =? INVALID_MPID).
  - bool_hyps. apply (pop_inv_store lvl start j _ _ Hinv); cbn; [done|done| |done].
    pose proof (pi_range _ _ _ _ Hinv). apply u32_parent; lia.
Qed.

Lemma init_children_ok (lvl start p : Z) (n : nat) (j : Z) (u : unit) (s s' : topo_state) :
  platform_sane → 0 <= p <= start → pop_inv lvl start j s →
  init_children lvl p n j s = Ok (u, s') → pop_inv lvl start (j + Z.of_nat n) s'.
Proof.
  intros Hs Hp. revert j s. induction n as [|n IH]; intros j s Hinv H; cbn in H.
  - inv_run. by rewrite Z.add_0_r.
  - inv_run. apply (init_node_ok lvl start) in Hrun; [|done..].
    apply IH in H; [|done]. by replace (j + Z.of_nat (S n)) with (j + 1 + Z.of_nat n) by lia.
Qed.

Lemma populate_level_ok (lvl start : Z) (n : nat) (ni p nx : Z) (r : Z * Z * Z)
    (s s' : topo_state) :
  platform_sane → 0 <= p → p + Z.of_nat n <= start + 1 → pop_inv lvl start ni s →
  populate_level lvl n ni p nx s = Ok (r, s') →
  pop_inv lvl start r.1.1 s' ∧ r.1.2 = p + Z.of_nat n ∧ r.2 = nx + (r.1.1 - ni).
Proof.
  intros Hs. revert ni p nx s. induction n as [|n IH]; intros ni p nx s Hp Hle Hinv H; cbn in H.
  - inv_run. cbn. split; [done|lia].
  - inv_topo. destruct Hs as (Hc & Hn & Hbytes).
    match goal with
    | Hz : zget plat_array p = Some ?c, Hr : init_children _ _ _ _ _ = Ok _ |- _ =>
        assert (0 <= c) by (unfold zget in Hz; case_match; [done|];
          eapply Forall_lookup_1 in Hbytes; [|exact Hz]; cbn in Hbytes; lia);
        apply (init_children_ok lvl start) in Hr; [|done|lia|done];
        rewrite Z2Nat.id in Hr by done
    end.
    apply IH in H as (Hinv' & E1 & E2); [|lia|lia|done].
    split; [done|lia].
Qed.


(** Starting a level: the nodes built so far are all of higher levels. *)
Lemma pop_inv_next (lvl start ni : Z) (s : topo_state) :
  0 <= lvl → lvl < zlen (tftf_pwr_domain_start_idx s) →
  pop_inv (lvl + 1) start ni s →
  pop_inv lvl ni ni (set_starts s (zset (tftf_pwr_domain_start_idx s) lvl ni)).
Proof.
  intros Hl Hlen Hinv. destruct Hinv. split; cbn; try done.
  - intros ->. apply zget_zset_eq. lia.
  - lia.
  - intros k n Hk Hz. destruct (decide (k < start)) as [Hlt|Hge].
    + destruct (pi_old0 k n Hlt Hz). split; [lia|done].
    + destruct (pi_new0 k n ltac:(lia) Hz) as (? & Hp & _). split; [lia|].
      destruct Hp; [left; lia|by right].
  - intros k n Hk. lia.
Qed.

Lemma populate_levels_ok (lvls : nat) (num start ni p j : Z) (s s' : topo_state) :
  platform_sane → (0 < lvls)%nat → 0 <= p → 0 <= num → p + num = ni + 1 →
  pop_inv (Z.of_nat lvls) start ni s →
  populate_levels lvls num ni p s = Ok (j, s') → ∃ st, pop_inv 0 st j s'.
Proof.
  intros Hs. revert num start ni p s.
  induction lvls as [|lvls IH]; intros num start ni p s Hpos Hp Hnum Hsum Hinv H; [lia|].
  cbn [populate_levels] in H. inv_topo.
  replace (Z.of_nat (S lvls)) with (Z.of_nat lvls + 1) in Hinv by lia.
  apply pop_inv_next in Hinv; [|lia..].
  match goal with Hr : populate_level _ _ _ _ _ _ = Ok _ |- _ =>
    apply (populate_level_ok (Z.of_nat lvls) ni) in Hr as (Hinv' & E1 & E2);
      [|done|lia|rewrite Z2Nat.id by done; lia|done] end.
  rewrite Z2Nat.id in E1 by done. pose proof (pi_range _ _ _ _ Hinv').
  destruct lvls as [|lvls].
  - cbn in H. inv_run. eauto.
  - eapply IH in H; [done|lia|lia|lia|lia|done].
Qed.

Lemma pop_inv_boot : 0 <= PLATFORM_NUM_AFFS →
  pop_inv (Z.of_nat (S PLATFORM_MAX_AFFLVL)) 0 0 topo_boot.
Proof.
  intros Hn. split; cbn [topo_boot tftf_pd_nodes tftf_pwr_domain_start_idx].
  - rewrite zlen_replicate. lia.
  - lia.
  - lia.
  - intros k n Hk Hz. pose proof (zget_Some_range _ _ _ Hz) as Hr.
    rewrite zlen_replicate in Hr. rewrite zget_replicate in Hz by lia. congruence.
  - intros k n Hk Hz. apply zget_Some_range in Hz. lia.
  - intros k n Hk. lia.
Qed.

(** *** The limits of the domains *)

(** What [update_pwrlvl_limits()] keeps: the shape of the tree, and every
    node from [st] on. *)
Record limits_frame (st : Z) (s s' : topo_state) : Prop := {
  lf_starts : tftf_pwr_domain_start_idx s' = tftf_pwr_domain_start_idx s;
  lf_len : zlen (tftf_pd_nodes s') = zlen (tftf_pd_nodes s);
  lf_shape : ∀ k n', zget (tftf_pd_nodes s') k = Some n' →
    ∃ n, zget (tftf_pd_nodes s) k = Some n ∧ level n' = level n
         ∧ parent_node n' = parent_node n;
  lf_cpus : ∀ k, st <= k → zget (tftf_pd_nodes s') k = zget (tftf_pd_nodes s) k;
}.

Lemma limits_frame_refl (st : Z) (s : topo_state) : limits_frame st s s.
Proof. split; try done. eauto. Qed.

Lemma limits_frame_trans (st : Z) (s1 s2 s3 : topo_state) :
  limits_frame st s1 s2 → limits_frame st s2 s3 → limits_frame st s1 s3.
Proof.
  intros [] []. split.
  - congruence.
  - congruence.
  - intros k n3 Hk. destruct (lf_shape1 k n3 Hk) as (n2 & Hk2 & -> & ->). eauto.
  - intros k Hk. rewrite lf_cpus1, lf_cpus0 by done. done.
Qed.

Lemma limits_frame_store (st t : Z) (n n' : tftf_pwr_domain_node_t) (s : topo_state) :
  zget (tftf_pd_nodes s) t = Some n → t < st →
  level n' = level n → parent_node n' = parent_node n →
  limits_frame st s (set_nodes s (zset (tftf_pd_nodes s) t n')).
Proof.
  intros Hz Ht El Ep. split; cbn.
  - done.
  - by rewrite zlen_zset.
  - intros k m. rewrite zget_zset. case_decide as Hd; [|eauto].
    destruct Hd as [<- _]. intros [= <-]. eauto.
  - intros k Hk. apply zget_zset_ne. lia.
Qed.

Lemma update_ancestor_frame (st cpu present t i : Z) (u : unit) (s s' : topo_state) :
  t < st → update_ancestor cpu present t i s = Ok (u, s') → limits_frame st s s'.
Proof.
  intros Ht H. unfold update_ancestor in H. inv_topo.
  - eapply limits_frame_trans; eapply limits_frame_store; done.
  - by eapply limits_frame_store.
Qed.

Lemma update_ancestors_frame (st cpu present : Z) (ts seen : list Z) (u : unit)
    (s s' : topo_state) :
  Forall (λ t, t < st) ts →
  update_ancestors cpu present ts seen s = Ok (u, s') → limits_frame st s s'.
Proof.
  intros Hts. revert seen u s s'.
  induction Hts as [|t ts Ht Hts IH]; intros seen u s s' H; cbn in H.
  { inv_run. apply limits_frame_refl. }
  destruct seen as [|i seen]; inv_run; [apply limits_frame_refl|].
  eapply limits_frame_trans; [by eapply IH|by eapply update_ancestor_frame].
Qed.

(** The parents of every node lie before it, those of the nodes from [st] on
    before [st]. *)
Definition parents_before (st : Z) (s : topo_state) : Prop :=
  ∀ k n, zget (tftf_pd_nodes s) k = Some n →
    (parent_node n < Z.min k st ∨ parent_node n = UINT32_MAX).

Lemma get_parents_before (st : Z) (n : nat) (p : Z) (ts : list Z) (s s' : topo_state) :
  zlen (tftf_pd_nodes s) < UINT32_MAX → parents_before st s →
  (p < st ∨ p = UINT32_MAX) →
  get_parents n p s = Ok (ts, s') → s' = s ∧ Forall (λ t, t < st) ts.
Proof.
  intros Hlen Hpar. revert p ts s'. induction n as [|n IH]; intros p ts s' Hp H; cbn in H.
  { inv_run. split; [done|constructor]. }
  inv_topo. pose proof (zget_Some_range _ _ _ Hrun) as Hr.
  apply IH in Hrun0 as [-> Hts].
  - split; [done|]. constructor; [lia|done].
  - destruct (Hpar _ _ Hrun); [left; lia|by right].
Qed.

Lemma parents_before_frame (st : Z) (s s' : topo_state) :
  limits_frame st s s' → parents_before st s → parents_before st s'.
Proof.
  intros Hf Hp k n' Hz. destruct (lf_shape _ _ _ Hf k n' Hz) as (n & Hn & _ & ->).
  by apply Hp.
Qed.

Lemma update_cpus_frame (st : Z) (n : nat) (cpu_id : Z) (seen : list Z) (u : unit)
    (s s' : topo_state) :
  zlen (tftf_pd_nodes s) < UINT32_MAX → parents_before st s →
  update_cpus n cpu_id seen s = Ok (u, s') → limits_frame st s s'.
Proof.
  revert cpu_id seen s. induction n as [|n IH]; intros cpu_id seen s Hlen Hpar H; cbn in H.
  { inv_run. apply limits_frame_refl. }
  unfold get_parent_pwr_domain_nodes in H. inv_topo.
  match goal with
  | Hn : zget (tftf_pd_nodes _) _ = Some ?c, Hg : get_parents _ _ _ = Ok _ |- _ =>
      apply (get_parents_before st) in Hg as [-> Hts]; [|done|done|];
      [|destruct (Hpar _ _ Hn); [left; lia|by right]]
  end.
  match goal with Hu : update_ancestors _ _ _ _ _ = Ok _ |- _ =>
    apply (update_ancestors_frame st) in Hu; [|done]; rename Hu into Hf end.
  eapply limits_frame_trans; [exact Hf|].
  eapply IH; [by rewrite (lf_len _ _ _ Hf)|by eapply parents_before_frame|done].
Qed.

(** Every CPU up to the platform's count is read. *)
Lemma update_cpus_reads (n : nat) (cpu_id off k : Z) (seen : list Z) (u : unit)
    (s s' : topo_state) (st : Z) :
  zlen (tftf_pd_nodes s) < UINT32_MAX → parents_before st s →
  zget (tftf_pwr_domain_start_idx s) 0 = Some off →
  update_cpus n cpu_id seen s = Ok (u, s') →
  cpu_id <= k < cpu_id + Z.of_nat n → off + k < zlen (tftf_pd_nodes s).
Proof.
  revert cpu_id seen s.
  induction n as [|n IH]; intros cpu_id seen s Hlen Hpar Hoff H Hk; cbn in H; [lia|].
  unfold get_parent_pwr_domain_nodes in H. inv_topo. simplify_eq.
  match goal with
  | Hn : zget (tftf_pd_nodes s) (cpu_id + off) = Some ?c,
    Hg : get_parents _ (parent_node ?c) _ = Ok _ |- _ =>
      apply zget_Some_range in Hn as Hr0;
      apply (get_parents_before st) in Hg as [-> Hts]; [|done|done|];
      [|destruct (Hpar _ _ Hn); [left; lia|by right]]
  end.
  match goal with Hu : update_ancestors _ _ _ _ _ = Ok _ |- _ =>
    apply (update_ancestors_frame st) in Hu; [|done]; rename Hu into Hf end.
  destruct (decide (k = cpu_id)) as [->|Hne]; [lia|].
  rewrite <- (lf_len _ _ _ Hf). eapply IH; [| | |exact H|lia].
  - by rewrite (lf_len _ _ _ Hf).
  - by eapply parents_before_frame.
  - by rewrite (lf_starts _ _ _ Hf).
Qed.

(** *** The topology after initialisation *)

(** The CPUs are the last nodes, from [start] on, each as the platform
    describes it; every other node is of a higher level. *)
Record topo_ok (start : Z) (s : topo_state) : Prop := {
  to_done : topology_setup_done s = 1;
  to_len : zlen (tftf_pd_nodes s) = PLATFORM_NUM_AFFS;
  to_start : zget (tftf_pwr_domain_start_idx s) 0 = Some start;
  to_range : 0 <= start ∧ start + PLATFORM_CORE_COUNT = PLATFORM_NUM_AFFS;
  to_domains : ∀ k n, k < start → zget (tftf_pd_nodes s) k = Some n → 0 < level n;
  to_cpus : ∀ k n, start <= k → zget (tftf_pd_nodes s) k = Some n → cpu_good start k n;
}.

Lemma init_topology_ok (u : unit) (s : topo_state) :
  platform_sane → tftf_init_topology topo_boot = Ok (u, s) → ∃ start, topo_ok start s.
Proof.
  intros Hs H. pose proof Hs as (Hc & Hn & _).
  unfold tftf_init_topology, populate_power_domain_tree in H. inv_run.
  apply (populate_levels_ok _ _ 0) in Hrun1 as [st Hinv];
    [|done|lia..|apply pop_inv_boot; lia].
  bool_hyps. subst. exists st.
  match type of Hinv with pop_inv _ _ _ ?x => rename x into sp end. pose proof (pi_range _ _ _ _ Hinv).
  assert (zlen (tftf_pd_nodes sp) < UINT32_MAX) as Hlen.
  { rewrite (pi_len _ _ _ _ Hinv). unfold UINT32_MAX. lia. }
  assert (parents_before st sp) as Hpar.
  { intros k n Hz. pose proof (zget_Some_range _ _ _ Hz) as Hr.
    rewrite (pi_len _ _ _ _ Hinv) in Hr. destruct (decide (k < st)) as [Hlt|Hge].
    - destruct (pi_old _ _ _ _ Hinv k n Hlt Hz) as [_ [?|?]]; [left; lia|by right].
    - destruct (pi_new _ _ _ _ Hinv k n ltac:(lia) Hz) as (_ & [?|?] & _);
        [left; lia|by right]. }
  pose proof (pi_len _ _ _ _ Hinv) as Elen.
  assert (∀ k n, st <= k → zget (tftf_pd_nodes sp) k = Some n → cpu_good st k n) as Hgood.
  { intros k n Hk Hz. pose proof (zget_Some_range _ _ _ Hz) as Hr.
    by apply (pi_new _ _ _ _ Hinv k n ltac:(lia) Hz). }
  pose proof (update_cpus_reads _ _ st (PLATFORM_CORE_COUNT - 1) _ _ _ _ st Hlen Hpar
    (pi_start _ _ _ _ Hinv eq_refl) Hrun0 ltac:(lia)) as Hreads.
  apply (update_cpus_frame st) in Hrun0 as Hf; [|done..].
  split; cbn.
  - done.
  - rewrite (lf_len _ _ _ Hf). done.
  - rewrite (lf_starts _ _ _ Hf). by apply (pi_start _ _ _ _ Hinv).
  - destruct (zget_is_Some (tftf_pd_nodes sp) (PLATFORM_NUM_AFFS - 1)) as [n Hz]; [lia|].
    pose proof (cg_count _ _ _ (Hgood (PLATFORM_NUM_AFFS - 1) n ltac:(lia) Hz)). lia.
  - intros k n' Hk Hz. destruct (lf_shape _ _ _ Hf k n' Hz) as (n & Hz' & -> & _).
    by destruct (pi_old _ _ _ _ Hinv k n Hk Hz').
  - intros k n Hk Hz. rewrite (lf_cpus _ _ _ Hf k Hk) in Hz. by apply Hgood.
Qed.



(** ** Walking the CPUs *)

(** Reference: the indices, from [i] on, of the present nodes of [l]. *)
Fixpoint present_nodes (l : list tftf_pwr_domain_node_t) (i : Z) : list Z :=
  match l with
  | [] => []
  | n :: l' =>
      if negb (is_present n =? 0) then i :: present_nodes l' (i + 1)
      else present_nodes l' (i + 1)
  end.

(** The present CPUs of a topology, in ascending order. *)
Definition present_cpus (start : Z) (s : topo_state) : list Z :=
  present_nodes (drop (Z.to_nat start) (tftf_pd_nodes s)) start.

Lemma present_nodes_spec (l : list tftf_pwr_domain_node_t) (i k : Z) :
  k ∈ present_nodes l i ↔ ∃ n, zget l (k - i) = Some n ∧ is_present n ≠ 0.
Proof.
  revert i. induction l as [|n l IH]; intros i; cbn.
  { split; [by intros ?%not_elem_of_nil|]. intros (n & Hn & _).
    apply zget_Some_range in Hn. unfold zlen in Hn. cbn in Hn. lia. }
  assert (zget (n :: l) (k - i) = if decide (k = i) then Some n else zget l (k - (i + 1))) as ->.
  { case_decide as Hd; [subst; by rewrite Z.sub_diag|].
    unfold zget. destruct (Z.ltb_spec (k - i) 0), (Z.ltb_spec (k - (i + 1)) 0); [done|lia|lia|].
    replace (Z.to_nat (k - i)) with (S (Z.to_nat (k - (i + 1)))) by lia. done. }
  specialize (IH (i + 1)).
  assert (¬ ∃ m, zget l (i - (i + 1)) = Some m ∧ is_present m ≠ 0) as Hneg.
  { intros (m & Hm & _). apply zget_Some_range in Hm. lia. }
  destruct (Z.eqb_spec (is_present n) 0); cbn; rewrite ?elem_of_cons, IH; case_decide as Hd.
  - subst. split; [done|]. intros (m & [= <-] & ?). done.
  - done.
  - subst. split; [eauto|by left].
  - naive_solver.
Qed.

(** [s] is read but not changed; its nodes are [pre ++ suf]. *)
Lemma node_mid (pre suf : list tftf_pwr_domain_node_t) (n : tftf_pwr_domain_node_t)
    (s : topo_state) :
  tftf_pd_nodes s = pre ++ n :: suf → node (zlen pre) s = Ok (n, s).
Proof. intros E. apply aget_Ok. rewrite E. apply zget_mid. Qed.

Lemma next_present_run (suf pre : list tftf_pwr_domain_node_t) (s : topo_state) :
  tftf_pd_nodes s = pre ++ suf →
  next_present (length suf) (zlen pre) (λ _, false) s =
  Ok (hd PWR_DOMAIN_INIT (present_nodes suf (zlen pre)), s).
Proof.
  revert pre. induction suf as [|n suf IH]; intros pre E; cbn [length next_present]; [done|].
  erewrite bind_Ok by (by eapply node_mid). cbn.
  destruct (is_present n =? 0); [|done]. cbn.
  replace (zlen pre + 1) with (zlen (pre ++ [n])) by (by autorewrite with tftf).
  apply IH. by rewrite <- app_assoc.
Qed.

Lemma cpu_node_valid (start k : Z) (n : tftf_pwr_domain_node_t) (s : topo_state) :
  platform_sane → topo_ok start s → start <= k → zget (tftf_pd_nodes s) k = Some n →
  CPU_NODE_IS_VALID k s = Ok (true, s).
Proof.
  intros (Hc & Hn & _) Hok Hk Hz. pose proof (zget_Some_range _ _ _ Hz) as Hr.
  rewrite (to_len _ _ Hok) in Hr. pose proof (to_range _ _ Hok).
  unfold CPU_NODE_IS_VALID. erewrite bind_Ok by (apply aget_Ok, (to_start _ _ Hok)).
  rewrite u32_small by (unfold UINT32_MAX; lia).
  rewrite (proj2 (Z.ltb_lt _ _)) by lia.
  erewrite bind_Ok by (by apply aget_Ok).
  by rewrite (cg_level _ _ _ (to_cpus _ _ Hok k n Hk Hz)).
Qed.

Lemma setup_done_run (start : Z) (s : topo_state) :
  topo_ok start s → setup_done s = Ok (tt, s).
Proof.
  intros Hok. unfold setup_done, get, assert_, mbind, M_bind. by rewrite (to_done _ _ Hok).
Qed.

Lemma next_cpu_run (start : Z) (pre suf : list tftf_pwr_domain_node_t)
    (n : tftf_pwr_domain_node_t) (s : topo_state) :
  platform_sane → topo_ok start s → tftf_pd_nodes s = pre ++ n :: suf →
  start <= zlen pre →
  tftf_topology_next_cpu (zlen pre) s =
  Ok (hd PWR_DOMAIN_INIT (present_nodes suf (zlen pre + 1)), s).
Proof.
  intros Hs Hok E Hst. pose proof Hs as (Hc & Hn & _).
  assert (zlen pre + 1 + zlen suf = PLATFORM_NUM_AFFS) as Hlen.
  { rewrite <- (to_len _ _ Hok), E. autorewrite with tftf. lia. }
  pose proof (zlen_nonneg suf). pose proof (zlen_nonneg pre).
  unfold tftf_topology_next_cpu. erewrite bind_Ok by (by eapply setup_done_run).
  rewrite (proj2 (Z.eqb_neq _ _)) by (unfold PWR_DOMAIN_INIT, UINT32_MAX; lia).
  erewrite bind_Ok by (eapply cpu_node_valid; [done|done|done|rewrite E; apply zget_mid]).
  erewrite bind_Ok by done.
  replace (Z.to_nat (PLATFORM_NUM_AFFS - (zlen pre + 1))) with (length suf)
    by (unfold zlen in *; lia).
  replace (zlen pre + 1) with (zlen (pre ++ [n])) by (by autorewrite with tftf).
  apply next_present_run. by rewrite <- app_assoc.
Qed.

Lemma first_cpu_run (start : Z) (pre suf : list tftf_pwr_domain_node_t)
    (n : tftf_pwr_domain_node_t) (s : topo_state) :
  platform_sane → topo_ok start s → tftf_pd_nodes s = pre ++ n :: suf →
  start = zlen pre →
  tftf_topology_next_cpu PWR_DOMAIN_INIT s =
  Ok (hd PWR_DOMAIN_INIT (present_nodes (n :: suf) (zlen pre)), s).
Proof.
  intros Hs Hok E Hst.
  pose proof (next_cpu_run start pre suf n s Hs Hok E ltac:(lia)) as Hnext.
  pose proof Hs as (_ & Hn & _).
  assert (zlen pre + 1 + zlen suf = PLATFORM_NUM_AFFS) as Hlen.
  { rewrite <- (to_len _ _ Hok), E. autorewrite with tftf. lia. }
  pose proof (zlen_nonneg suf). pose proof (zlen_nonneg pre).
  unfold tftf_topology_next_cpu in *.
  erewrite bind_Ok in Hnext by (by eapply setup_done_run).
  rewrite (proj2 (Z.eqb_neq (zlen pre) _)) in Hnext
    by (unfold PWR_DOMAIN_INIT, UINT32_MAX; lia).
  erewrite bind_Ok by (by eapply setup_done_run). rewrite Z.eqb_refl.
  erewrite bind_Ok by (apply aget_Ok, (to_start _ _ Hok)). rewrite Hst.
  erewrite bind_Ok by (by eapply node_mid). cbn [present_nodes].
  by destruct (is_present n =? 0).
Qed.

(** The nodes of an initialised topology, split at the first CPU. *)
Lemma topo_split (start : Z) (s : topo_state) :
  0 < PLATFORM_CORE_COUNT → topo_ok start s →
  ∃ pre n suf, tftf_pd_nodes s = pre ++ n :: suf ∧ zlen pre = start
    ∧ drop (Z.to_nat start) (tftf_pd_nodes s) = n :: suf.
Proof.
  intros Hc Hok. pose proof (to_range _ _ Hok). pose proof (to_len _ _ Hok) as Hl.
  unfold zlen in Hl.
  destruct (drop (Z.to_nat start) (tftf_pd_nodes s)) as [|n suf] eqn:Ed.
  { apply (f_equal length) in Ed. rewrite length_drop in Ed. cbn in Ed. lia. }
  exists (take (Z.to_nat start) (tftf_pd_nodes s)), n, suf. rewrite <- Ed.
  split_and!; [by rewrite take_drop| |done]. unfold zlen. rewrite length_take. lia.
Qed.

Lemma for_each_cpu_from_run (start : Z) (suf pre : list tftf_pwr_domain_node_t)
    (fuel : nat) (s : topo_state) :
  platform_sane → topo_ok start s → tftf_pd_nodes s = pre ++ suf → start <= zlen pre →
  (length suf < fuel)%nat →
  for_each_cpu_from fuel (hd PWR_DOMAIN_INIT (present_nodes suf (zlen pre))) s =
  Ok (present_nodes suf (zlen pre), s).
Proof.
  intros Hs Hok. revert pre fuel.
  induction suf as [|n suf IH]; intros pre fuel E Hst Hf; destruct fuel as [|fuel];
    [cbn in Hf; lia| |cbn in Hf; lia|].
  { done. }
  assert (tftf_pd_nodes s = (pre ++ [n]) ++ suf) as E' by (by rewrite <- app_assoc).
  assert (zlen (pre ++ [n]) = zlen pre + 1) as El by (by autorewrite with tftf).
  cbn [length present_nodes] in *. destruct (Z.eqb_spec (is_present n) 0) as [Hp|Hp]; cbn [negb].
  - rewrite <- El. apply IH; [done|lia|lia].
  - cbn [hd for_each_cpu_from].
    assert (zlen pre < PLATFORM_NUM_AFFS).
    { rewrite <- (to_len _ _ Hok), E. autorewrite with tftf. pose proof (zlen_nonneg suf). lia. }
    destruct Hs as (Hc & Hn & Hb).
    rewrite (proj2 (Z.eqb_neq _ _)) by (unfold PWR_DOMAIN_INIT, UINT32_MAX; lia).
    erewrite bind_Ok by (by eapply (next_cpu_run start)).
    rewrite <- El. erewrite bind_Ok by (apply IH; [done|lia|lia]). done.
Qed.


Lemma mpidr_from_node_run (start : Z) (pre suf : list tftf_pwr_domain_node_t)
    (n : tftf_pwr_domain_node_t) (s : topo_state) :
  platform_sane → topo_ok start s → tftf_pd_nodes s = pre ++ n :: suf →
  start <= zlen pre →
  tftf_get_mpidr_from_node (zlen pre) s =
  Ok (if negb (is_present n =? 0) then mpidr n else INVALID_MPID, s).
Proof.
  intros Hs Hok E Hst. unfold tftf_get_mpidr_from_node.
  erewrite bind_Ok by (by eapply setup_done_run).
  erewrite bind_Ok by (eapply cpu_node_valid; [done|done|done|rewrite E; apply zget_mid]).
  erewrite bind_Ok by done. erewrite bind_Ok by (by eapply node_mid). done.
Qed.

(** Reference: the MPIDR of the first present node of [l] that passes [t]. *)
Fixpoint find_ref (t : Z → bool) (l : list tftf_pwr_domain_node_t) : Z :=
  match l with
  | [] => INVALID_MPID
  | n :: l' => if negb (is_present n =? 0) && t (mpidr n) then mpidr n else find_ref t l'
  end.

Lemma find_cpu_from_run (test : Z → M topo_state bool) (t : Z → bool) (start : Z)
    (suf pre : list tftf_pwr_domain_node_t) (fuel : nat) (s : topo_state) :
  platform_sane → topo_ok start s → (∀ mp, test mp s = Ok (t mp, s)) →
  tftf_pd_nodes s = pre ++ suf → start <= zlen pre → (length suf < fuel)%nat →
  find_cpu_from test fuel (hd PWR_DOMAIN_INIT (present_nodes suf (zlen pre))) s =
  Ok (find_ref t suf, s).
Proof.
  intros Hs Hok Ht. revert pre fuel.
  induction suf as [|n suf IH]; intros pre fuel E Hst Hf; destruct fuel as [|fuel];
    [cbn in Hf; lia| |cbn in Hf; lia|].
  { done. }
  assert (tftf_pd_nodes s = (pre ++ [n]) ++ suf) as E' by (by rewrite <- app_assoc).
  assert (zlen (pre ++ [n]) = zlen pre + 1) as El by (by autorewrite with tftf).
  cbn [length present_nodes find_ref] in *.
  destruct (Z.eqb_spec (is_present n) 0) as [Hp|Hp]; cbn [negb andb].
  - rewrite <- El. apply IH; [done|lia|lia].
  - cbn [hd find_cpu_from].
    assert (zlen pre < PLATFORM_NUM_AFFS).
    { rewrite <- (to_len _ _ Hok), E. autorewrite with tftf. pose proof (zlen_nonneg suf). lia. }
    pose proof Hs as (Hc & Hn & Hb).
    rewrite (proj2 (Z.eqb_neq _ _)) by (unfold PWR_DOMAIN_INIT, UINT32_MAX; lia).
    erewrite bind_Ok by (by eapply (mpidr_from_node_run start)).
    rewrite (proj2 (Z.eqb_neq _ _)) by done. cbn [negb].
    erewrite bind_Ok by apply Ht. destruct (t (mpidr n)); [done|].
    erewrite bind_Ok by (by eapply (next_cpu_run start)).
    rewrite <- El. apply IH; [done|lia|lia].
Qed.

Lemma find_cpu_run (test : Z → M topo_state bool) (t : Z → bool) (start : Z) (s : topo_state) :
  platform_sane → topo_ok start s → (∀ mp, test mp s = Ok (t mp, s)) →
  find_cpu test s = Ok (find_ref t (drop (Z.to_nat start) (tftf_pd_nodes s)), s).
Proof.
  intros Hs Hok Ht. pose proof Hs as (Hc & Hn & Hb).
  destruct (topo_split start s Hc Hok) as (pre & n & suf & E & <- & Ed). rewrite Ed.
  unfold find_cpu. erewrite bind_Ok by (by eapply first_cpu_run).
  eapply find_cpu_from_run; [done|done|done|done|done|].
  pose proof (to_len _ _ Hok) as Hl. rewrite E in Hl. unfold zlen in Hl.
  rewrite length_app in Hl. lia.
Qed.

Lemma find_ref_spec (t : Z → bool) (l : list tftf_pwr_domain_node_t) :
  Forall (λ n, is_present n ≠ 0 → mpidr n ≠ INVALID_MPID) l →
  (find_ref t l = INVALID_MPID
   ∧ ∀ i n, l !! i = Some n → is_present n ≠ 0 → t (mpidr n) = false)
  ∨ (∃ i n, l !! i = Some n ∧ is_present n ≠ 0 ∧ t (mpidr n) = true
       ∧ find_ref t l = mpidr n ∧ mpidr n ≠ INVALID_MPID
       ∧ ∀ j m, (j < i)%nat → l !! j = Some m → is_present m ≠ 0 → t (mpidr m) = false).
Proof.
  induction 1 as [|n l Hn Hl IH]; cbn; [by left|].
  destruct (Z.eqb_spec (is_present n) 0) as [Hp|Hp]; cbn [negb andb];
    [|destruct (t (mpidr n)) eqn:Et].
  2: { right. exists 0%nat, n. split_and!; try done; [by apply Hn|]. intros; lia. }
  all: destruct IH as [[-> Hall]|(i & m & Hi & Hm & Htm & -> & Hv & Hbefore)];
    [left; split; [done|intros [|j] k Hj; cbn in Hj; [congruence|by eapply Hall]]|right].
  all: exists (S i), m; split_and!; try done;
    intros [|j] k Hlt Hj; cbn in Hj; [congruence|by eapply (Hbefore j); [lia|]].
Qed.

Lemma possible_cpus_run (start exclude : Z) (suf pre : list tftf_pwr_domain_node_t)
    (s : topo_state) :
  platform_sane → topo_ok start s → tftf_pd_nodes s = pre ++ suf → start <= zlen pre →
  ∃ l, possible_cpus exclude (present_nodes suf (zlen pre)) s = Ok (l, s)
    ∧ ∀ mp, mp ∈ l ↔ mp ≠ exclude ∧ ∃ n, n ∈ suf ∧ is_present n ≠ 0 ∧ mpidr n = mp.
Proof.
  intros Hs Hok. revert pre. induction suf as [|n suf IH]; intros pre E Hst; cbn.
  { exists []. split; [done|]. intros mp. rewrite elem_of_nil.
    split; [done|]. intros (_ & n & ?%not_elem_of_nil & _). done. }
  assert (tftf_pd_nodes s = (pre ++ [n]) ++ suf) as E' by (by rewrite <- app_assoc).
  assert (zlen (pre ++ [n]) = zlen pre + 1) as El by (by autorewrite with tftf).
  destruct (IH (pre ++ [n]) E' ltac:(lia)) as (l & Hl & Hspec). rewrite El in Hl.
  destruct (Z.eqb_spec (is_present n) 0) as [Hp|Hp]; cbn.
  - exists l. split; [done|]. intros mp. rewrite Hspec.
    setoid_rewrite elem_of_cons. naive_solver.
  - erewrite bind_Ok by (by eapply (mpidr_from_node_run start)).
    erewrite bind_Ok by done.
    rewrite (proj2 (Z.eqb_neq (is_present n) 0)) by done. cbn [negb].
    eexists. split; [reflexivity|]. intros mp.
    destruct (Z.eqb_spec (mpidr n) exclude); cbn; rewrite ?elem_of_cons, Hspec;
      setoid_rewrite elem_of_cons; naive_solver.
Qed.

(** ** Properties *)

(** C37: a topology that [tftf_init_topology()] builds from the platform's
    description without a failed assertion has one node per CPU of the
    platform, in the order of the CPU numbers, with the MPIDR the platform
    gives it and present exactly when this MPIDR is valid; every other node
    is a domain of a higher level. *)
Theorem topology_describes_cpus (u : unit) (s : topo_state) :
  platform_sane → tftf_init_topology topo_boot = Ok (u, s) →
  ∃ start,
    zget (tftf_pwr_domain_start_idx s) 0 = Some start
    ∧ start + PLATFORM_CORE_COUNT = PLATFORM_NUM_AFFS
    ∧ (∀ k n, k < start → zget (tftf_pd_nodes s) k = Some n → 0 < level n)
    ∧ (∀ c, 0 <= c < PLATFORM_CORE_COUNT →
        zget (tftf_pd_nodes s) (start + c) =
        Some {| cpu_start_node := start + c; ncpus := 1; mpidr := tftf_plat_get_mpidr c;
                parent_node := default 0
                  (parent_node <$> zget (tftf_pd_nodes s) (start + c));
                level := 0;
                is_present := if tftf_plat_get_mpidr c =? INVALID_MPID then 0 else 1 |}).
Proof.
  intros Hs H. destruct (init_topology_ok u s Hs H) as [start Hok].
  exists start. pose proof (to_range _ _ Hok) as [Hst Hsum].
  split_and!; [apply (to_start _ _ Hok)|done|apply (to_domains _ _ Hok)|].
  intros c Hc. destruct (zget_is_Some (tftf_pd_nodes s) (start + c)) as [n Hz].
  { rewrite (to_len _ _ Hok). lia. }
  rewrite Hz. cbn. destruct (to_cpus _ _ Hok (start + c) n ltac:(lia) Hz) as [E1 E2 E3 _ E4 E5].
  replace (start + c - start) with c in E4 by lia. rewrite E4 in E5.
  destruct n; cbn in *. by subst.
Qed.

(** [for_each_cpu()] ends after visiting every present CPU exactly once,
    in ascending order, and nothing else. *)
Theorem for_each_cpu_visits (u : unit) (s : topo_state) :
  platform_sane → tftf_init_topology topo_boot = Ok (u, s) →
  ∃ start cpus,
    zget (tftf_pwr_domain_start_idx s) 0 = Some start
    ∧ for_each_cpu (S (Z.to_nat PLATFORM_NUM_AFFS)) s = Ok (cpus, s)
    ∧ cpus = present_cpus start s
    ∧ (∀ k, k ∈ cpus ↔ start <= k < PLATFORM_NUM_AFFS
         ∧ tftf_plat_get_mpidr (k - start) ≠ INVALID_MPID).
Proof.
  intros Hs H. destruct (init_topology_ok u s Hs H) as [start Hok].
  pose proof Hs as (Hc & Hn & _). pose proof (to_len _ _ Hok) as Hlen.
  destruct (topo_split start s Hc Hok) as (pre & n & suf & E & <- & Ed).
  exists (zlen pre), (present_cpus (zlen pre) s).
  split_and!; [apply (to_start _ _ Hok)| |done|].
  - unfold for_each_cpu. erewrite bind_Ok by (by eapply first_cpu_run).
    unfold present_cpus. rewrite Ed. eapply for_each_cpu_from_run; [done|done|done|done|].
    rewrite E in Hlen. unfold zlen in Hlen. rewrite length_app in Hlen. lia.
  - intros k. unfold present_cpus. rewrite Ed, present_nodes_spec.
    assert (∀ m, zget (n :: suf) (k - zlen pre) = Some m ↔
                 zlen pre <= k ∧ zget (tftf_pd_nodes s) k = Some m) as Hidx.
    { intros m. unfold zget. pose proof (zlen_nonneg pre).
      destruct (Z.ltb_spec (k - zlen pre) 0), (Z.ltb_spec k 0); 
        [split; [done|by intros [? ?]]|split; [done|intros [? ?]; lia]|lia|].
      rewrite E, lookup_app_r by (unfold zlen in *; lia).
      replace (Z.to_nat k - length pre)%nat with (Z.to_nat (k - zlen pre)) by (unfold zlen; lia).
      intuition lia. }
    setoid_rewrite Hidx. split.
    + intros (m & (Hk & Hm) & Hp). pose proof (zget_Some_range _ _ _ Hm).
      destruct (to_cpus _ _ Hok k m Hk Hm) as [_ _ _ _ E4 E5]. split; [lia|].
      rewrite <- E4. intros E6. rewrite E6 in E5. done.
    + intros [Hk Hmp]. pose proof (zlen_nonneg pre). destruct (zget_is_Some (tftf_pd_nodes s) k) as [m Hm]; [lia|].
      exists m. split; [by split; [lia|]|].
      destruct (to_cpus _ _ Hok k m ltac:(lia) Hm) as [_ _ _ _ E4 E5].
      rewrite E5, (proj2 (Z.eqb_neq _ _)) by congruence. done.
Qed.

(** [tftf_find_any_cpu_other_than()] returns the MPID of the first present
    CPU that differs from the one excluded, and [INVALID_MPID] exactly when
    every present CPU is the excluded one. *)
Theorem find_any_cpu_correct (u : unit) (exclude : Z) (s : topo_state) :
  platform_sane → tftf_init_topology topo_boot = Ok (u, s) →
  ∃ mp, tftf_find_any_cpu_other_than exclude s = Ok (mp, s)
    ∧ if mp =? INVALID_MPID
      then ∀ c, 0 <= c < PLATFORM_CORE_COUNT →
             tftf_plat_get_mpidr c = INVALID_MPID ∨ tftf_plat_get_mpidr c = exclude
      else mp ≠ exclude ∧ ∃ c, 0 <= c < PLATFORM_CORE_COUNT ∧ tftf_plat_get_mpidr c = mp
           ∧ ∀ c', 0 <= c' < c →
               tftf_plat_get_mpidr c' = INVALID_MPID ∨ tftf_plat_get_mpidr c' = exclude.
Proof.
  intros Hs H. destruct (init_topology_ok u s Hs H) as [start Hok].
  pose proof Hs as (Hc & Hn & _). pose proof (to_range _ _ Hok) as [Hst Hsum].
  pose proof (to_len _ _ Hok) as Hlen.
  set (t := λ mp, negb (mp =? exclude)).
  set (l := drop (Z.to_nat start) (tftf_pd_nodes s)).
  assert (∀ i n, l !! i = Some n → cpu_good start (start + Z.of_nat i) n
            ∧ 0 <= Z.of_nat i < PLATFORM_CORE_COUNT) as Hgood.
  { intros i n Hi. subst l. rewrite lookup_drop in Hi.
    pose proof (lookup_lt_Some _ _ _ Hi) as Hlt. unfold zlen in Hlen. split; [|lia].
    apply (to_cpus _ _ Hok); [lia|]. unfold zget. case_Z; [lia|]. rewrite <- Hi. f_equal. lia. }
  assert (∀ c, 0 <= c < PLATFORM_CORE_COUNT → ∃ n, l !! Z.to_nat c = Some n) as Hget.
  { intros c Hcc. subst l. setoid_rewrite lookup_drop. apply lookup_lt_is_Some.
    unfold zlen in Hlen. lia. }
  assert (∀ i n, l !! i = Some n → (is_present n ≠ 0 → t (mpidr n) = false) →
            tftf_plat_get_mpidr (Z.of_nat i) = INVALID_MPID
            ∨ tftf_plat_get_mpidr (Z.of_nat i) = exclude) as Hskip.
  { intros i n Hi Hf. destruct (Hgood i n Hi) as [[_ _ _ _ E4 E5] _].
    replace (start + Z.of_nat i - start) with (Z.of_nat i) in E4 by lia. rewrite <- E4.
    destruct (Z.eqb_spec (mpidr n) INVALID_MPID) as [|Hne]; [by left|right].
    assert (is_present n ≠ 0) as Hp by (rewrite E5; done).
    specialize (Hf Hp). unfold t in Hf. by bool_hyps. }
  exists (find_ref t l). split; [by apply (find_cpu_run _ t)|].
  destruct (find_ref_spec t l) as [[-> Hall]|(i & n & Hi & Hp & Htn & -> & Hv & Hb)].
  - apply Forall_lookup. intros i n Hi Hp E. destruct (Hgood i n Hi) as [[_ _ _ _ _ E5] _].
    rewrite E in E5. done.
  - rewrite Z.eqb_refl. intros c Hcc. destruct (Hget c Hcc) as [n Hnn].
    rewrite <- (Z2Nat.id c) by lia. eauto.
  - rewrite (proj2 (Z.eqb_neq _ _)) by done. unfold t in Htn. bool_hyps. split; [done|].
    destruct (Hgood i n Hi) as [[_ _ _ _ E4 _] Hr]. exists (Z.of_nat i).
    split; [done|]. split; [rewrite E4; f_equal; lia|].
    intros c' Hc'. destruct (Hget c' ltac:(lia)) as [m Hm].
    rewrite <- (Z2Nat.id c') by lia. eapply Hskip; [done|]. apply (Hb (Z.to_nat c')); [lia|done].
Qed.

End Topo.


(** ** A platform: two clusters of four CPUs under one system domain *)

Definition fvp_desc : list Z := [1; 2; 4; 4].

(** The MPIDR of CPU [c]; the CPUs of [absent] are not there. *)
Definition fvp_mpidr (absent : list Z) (c : Z) : Z :=
  if decide (c ∈ absent) then INVALID_MPID else c / 4 * 256 + c mod 4.

Definition fvp_topology (absent : list Z) : topo_state :=
  match tftf_init_topology 8 11 2 fvp_desc (fvp_mpidr absent) (topo_boot 11 2) with
  | Ok (_, s) => s
  | Stop _ => topo_boot 11 2
  end.

Lemma fvp_sane : platform_sane 8 11 fvp_desc.
Proof.
  unfold platform_sane, fvp_desc. split; [lia|]. split; [lia|].
  repeat (apply Forall_cons; split; [lia|]). by apply Forall_nil.
Qed.

Lemma topology_describes_cpus_witness :
  ∃ start,
    zget (tftf_pwr_domain_start_idx (fvp_topology [4])) 0 = Some start
    ∧ start + 8 = 11
    ∧ (∀ k n, k < start → zget (tftf_pd_nodes (fvp_topology [4])) k = Some n → 0 < level n)
    ∧ (∀ c, 0 <= c < 8 →
        zget (tftf_pd_nodes (fvp_topology [4])) (start + c) =
        Some {| cpu_start_node := start + c; ncpus := 1; mpidr := fvp_mpidr [4] c;
                parent_node := default 0
                  (parent_node <$> zget (tftf_pd_nodes (fvp_topology [4])) (start + c));
                level := 0;
                is_present := if fvp_mpidr [4] c =? INVALID_MPID then 0 else 1 |}).
Proof.
  apply (topology_describes_cpus 8 11 2 fvp_desc (fvp_mpidr [4]) tt).
  - apply fvp_sane.
  - vm_compute. reflexivity.
Defined.

Lemma for_each_cpu_visits_witness :
  ∃ start cpus,
    zget (tftf_pwr_domain_start_idx (fvp_topology [4])) 0 = Some start
    ∧ for_each_cpu 8 11 12 (fvp_topology [4]) = Ok (cpus, fvp_topology [4])
    ∧ cpus = present_cpus start (fvp_topology [4])
    ∧ (∀ k, k ∈ cpus ↔ start <= k < 11 ∧ fvp_mpidr [4] (k - start) ≠ INVALID_MPID).
Proof.
  apply (for_each_cpu_visits 8 11 2 fvp_desc (fvp_mpidr [4]) tt).
  - apply fvp_sane.
  - vm_compute. reflexivity.
Defined.

Lemma find_any_cpu_correct_witness :
  ∃ mp, tftf_find_any_cpu_other_than 8 11 0 (fvp_topology [1]) = Ok (mp, fvp_topology [1])
    ∧ if mp =? INVALID_MPID
      then ∀ c, 0 <= c < 8 → fvp_mpidr [1] c = INVALID_MPID ∨ fvp_mpidr [1] c = 0
      else mp ≠ 0 ∧ ∃ c, 0 <= c < 8 ∧ fvp_mpidr [1] c = mp
           ∧ ∀ c', 0 <= c' < c → fvp_mpidr [1] c' = INVALID_MPID ∨ fvp_mpidr [1] c' = 0.
Proof.
  apply (find_any_cpu_correct 8 11 2 fvp_desc (fvp_mpidr [1]) tt 0).
  - apply fvp_sane.
  - vm_compute. reflexivity.
Defined.

(** the presence of a domain is taken from its first CPU only: with the
    first CPU of the second cluster absent, this cluster (node 2) is marked
    absent and is not counted, although its three other CPUs are present and
    visited. *)
Theorem domain_presence_first_cpu :
  zget (tftf_pd_nodes (fvp_topology [4])) 2 =
    Some {| cpu_start_node := 7; ncpus := 4; mpidr := 0; parent_node := 0; level := 1;
            is_present := 0 |}
  ∧ tftf_get_total_aff_count 11 2 1 (fvp_topology [4]) = Ok (1, fvp_topology [4])
  ∧ for_each_cpu 8 11 12 (fvp_topology [4]) =
      Ok ([3; 4; 5; 6; 8; 9; 10], fvp_topology [4]).
Proof. vm_compute. done. Qed.
