(* ===== verification/Hotplug.v ===== *)
(** * CPU hotplug (lib/power_management/hotplug/hotplug.c)

    The framework's view of each CPU (off, being turned on, on), the count of
    the CPUs in a test, and the operations that turn CPUs on and off.  The
    firmware's PSCI calls are parameters: what they return is an argument of
    the operations.  The second half interleaves the operations of all CPUs. *)

From S2P Require Import Prelude.

Local Open Scope Z_scope.

Definition PSCI_E_SUCCESS : Z := 0.
Definition PSCI_E_DENIED : Z := -3.
Definition PSCI_E_ALREADY_ON : Z := -4.
Definition PSCI_E_ON_PENDING : Z := -5.

Inductive tftf_affinity_info_t : Set :=
| STATE_OFF
| STATE_ON_PENDING
| STATE_ON.

#[export] Instance affinity_eq_dec : EqDecision tftf_affinity_info_t.
Proof. solve_decision. Defined.

Record tftf_cpu_state_t := {
  state : tftf_affinity_info_t;
  lock : bool;
}.

Inductive hp_call : Set :=
| DisableIrq
| EnableIrq
| GicDisableLocal
| GicEnableLocal
| ConsoleFlush.

Record hp_state := {
  cpus_status_map : list tftf_cpu_state_t;
  cpus_status_init_done : Z;
  ref_cnt : Z;
  ref_cnt_lock : bool;
  test_entrypoint : list Z;
  hp_calls : list hp_call;
}.

Definition set_map (s : hp_state) (l : list tftf_cpu_state_t) : hp_state :=
  {| cpus_status_map := l; cpus_status_init_done := cpus_status_init_done s;
     ref_cnt := ref_cnt s; ref_cnt_lock := ref_cnt_lock s;
     test_entrypoint := test_entrypoint s; hp_calls := hp_calls s |}.
Definition set_init_done (s : hp_state) (v : Z) : hp_state :=
  {| cpus_status_map := cpus_status_map s; cpus_status_init_done := v;
     ref_cnt := ref_cnt s; ref_cnt_lock := ref_cnt_lock s;
     test_entrypoint := test_entrypoint s; hp_calls := hp_calls s |}.
Definition set_ref (s : hp_state) (c : Z) (l : bool) : hp_state :=
  {| cpus_status_map := cpus_status_map s;
     cpus_status_init_done := cpus_status_init_done s;
     ref_cnt := c; ref_cnt_lock := l;
     test_entrypoint := test_entrypoint s; hp_calls := hp_calls s |}.
Definition set_entries (s : hp_state) (l : list Z) : hp_state :=
  {| cpus_status_map := cpus_status_map s;
     cpus_status_init_done := cpus_status_init_done s;
     ref_cnt := ref_cnt s; ref_cnt_lock := ref_cnt_lock s;
     test_entrypoint := l; hp_calls := hp_calls s |}.
Definition hp_do (c : hp_call) : M hp_state unit :=
  modify (λ s, {| cpus_status_map := cpus_status_map s;
     cpus_status_init_done := cpus_status_init_done s;
     ref_cnt := ref_cnt s; ref_cnt_lock := ref_cnt_lock s;
     test_entrypoint := test_entrypoint s; hp_calls := c :: hp_calls s |}).

(** The entry of a CPU in [cpus_status_map], read and written *)
Definition cpu_entry (i : Z) : M hp_state tftf_cpu_state_t :=
  s ← get; aget (cpus_status_map s) i.
Definition write_entry (i : Z) (e : tftf_cpu_state_t) : M hp_state unit :=
  s ← get;
  l ← aset (cpus_status_map s) i e;
  modify (λ s, set_map s l).

Definition cpu_state (i : Z) : M hp_state tftf_affinity_info_t :=
  e ← cpu_entry i; mret (state e).
Definition write_state (i : Z) (st : tftf_affinity_info_t) : M hp_state unit :=
  e ← cpu_entry i; write_entry i {| state := st; lock := lock e |}.
Definition cpu_lock (i : Z) : M hp_state unit :=
  e ← cpu_entry i;
  if lock e then fail FuelOut else write_entry i {| state := state e; lock := true |}.
Definition cpu_unlock (i : Z) : M hp_state unit :=
  e ← cpu_entry i; write_entry i {| state := state e; lock := false |}.
Definition write_entrypoint (i ep : Z) : M hp_state unit :=
  s ← get;
  l ← aset (test_entrypoint s) i ep;
  modify (λ s, set_entries s l).

Section Hotplug_ops.

Context (PLATFORM_CORE_COUNT : Z).

Definition hp_boot : hp_state :=
  {| cpus_status_map :=
       replicate (Z.to_nat PLATFORM_CORE_COUNT) {| state := STATE_OFF; lock := false |};
     cpus_status_init_done := 0; ref_cnt := 0; ref_cnt_lock := false;
     test_entrypoint := replicate (Z.to_nat PLATFORM_CORE_COUNT) 0; hp_calls := [] |}.

(** ** The reference count *)

Definition ref_lock : M hp_state unit :=
  λ s, if ref_cnt_lock s then Stop FuelOut else Ok (tt, set_ref s (ref_cnt s) true).
Definition ref_unlock : M hp_state unit := modify (λ s, set_ref s (ref_cnt s) false).

Definition tftf_inc_ref_cnt : M hp_state Z :=
  ref_lock;;
  s ← get;
  assert_ (ref_cnt s <? PLATFORM_CORE_COUNT);;
  let cnt := u32 (ref_cnt s + 1) in
  modify (λ s, set_ref s cnt (ref_cnt_lock s));;
  ref_unlock;;
  mret cnt.

Definition tftf_dec_ref_cnt : M hp_state Z :=
  ref_lock;;
  s ← get;
  assert_ (negb (ref_cnt s =? 0));;
  let cnt := u32 (ref_cnt s - 1) in
  modify (λ s, set_ref s cnt (ref_cnt_lock s));;
  ref_unlock;;
  mret cnt.

Definition tftf_get_ref_cnt : M hp_state Z := s ← get; mret (ref_cnt s).

(** ** The state of a CPU *)

(** [is_primary] is [(mpid & MPID_MASK) == tftf_primary_core]. *)
Definition tftf_init_cpus_status_map (is_primary : bool) (core_pos : Z) : M hp_state unit :=
  assert_ is_primary;;
  s ← get;
  assert_ (cpus_status_init_done s =? 0);;
  modify (λ s, set_init_done s 1);;
  write_state core_pos STATE_ON.

(** [while (state == OFF) ;], giving up after [fuel] rounds *)
Fixpoint wait_not_off (fuel : nat) (core_pos : Z) : M hp_state unit :=
  match fuel with
  | O => fail FuelOut
  | S fuel' =>
      st ← cpu_state core_pos;
      if decide (st = STATE_OFF) then wait_not_off fuel' core_pos else mret tt
  end.

(** [tftf_set_cpu_online()] from taking the lock on *)
Definition set_cpu_online_locked (core_pos : Z) : M hp_state unit :=
  cpu_lock core_pos;;
  st ← cpu_state core_pos;
  assert_ (bool_decide (st = STATE_ON_PENDING));;
  write_state core_pos STATE_ON;;
  cpu_unlock core_pos.

Definition tftf_set_cpu_online (fuel : nat) (core_pos : Z) : M hp_state unit :=
  wait_not_off fuel core_pos;;
  set_cpu_online_locked core_pos.

Definition tftf_is_core_pos_online (core_pos : Z) : M hp_state bool :=
  st ← cpu_state core_pos; mret (bool_decide (st = STATE_ON)).

(** [tftf_is_cpu_online(mpid)], at the position of the MPID *)
Definition tftf_is_cpu_online (core_pos : Z) : M hp_state bool :=
  tftf_is_core_pos_online core_pos.

Definition tftf_set_cpu_offline (core_pos : Z) : M hp_state unit :=
  cpu_lock core_pos;;
  on ← tftf_is_cpu_online core_pos;
  assert_ on;;
  write_state core_pos STATE_OFF;;
  cpu_unlock core_pos.

(** ** Turning a CPU on *)

(** [tftf_cpu_on()] up to the first PSCI call: [Some ret] when it returns
    early, [None] with the lock held otherwise *)
Definition cpu_on_begin (core_pos : Z) : M hp_state (option Z) :=
  cpu_lock core_pos;;
  cpu_state ← cpu_state core_pos;
  match cpu_state with
  | STATE_ON => cpu_unlock core_pos;; mret (Some PSCI_E_ALREADY_ON)
  | STATE_ON_PENDING => cpu_unlock core_pos;; mret (Some PSCI_E_SUCCESS)
  | STATE_OFF => mret None
  end.

(** The do-while loop: [rets] are the results of the PSCI calls made. *)
Fixpoint cpu_on_loop (rets : list Z) : M hp_state Z :=
  match rets with
  | [] => fail FuelOut
  | ret :: rets' =>
      assert_ (negb (ret =? PSCI_E_ON_PENDING));;
      if ret =? PSCI_E_ALREADY_ON then cpu_on_loop rets' else mret ret
  end.

(** [tftf_cpu_on()] after the loop *)
Definition cpu_on_end (core_pos entrypoint ret : Z) : M hp_state unit :=
  if ret =? PSCI_E_SUCCESS then
    write_entrypoint core_pos entrypoint;;
    write_state core_pos STATE_ON_PENDING;;
    cpu_unlock core_pos
  else cpu_unlock core_pos.

Definition tftf_cpu_on (rets : list Z) (core_pos entrypoint : Z) : M hp_state Z :=
  early ← cpu_on_begin core_pos;
  match early with
  | Some ret => mret ret
  | None =>
      ret ← cpu_on_loop rets;
      cpu_on_end core_pos entrypoint ret;;
      mret ret
  end.

(** [tftf_try_cpu_on()]: the part under the lock, and the rest *)
Definition try_cpu_on_locked (core_pos : Z) : M hp_state unit :=
  cpu_lock core_pos;;
  st ← cpu_state core_pos;
  assert_ (bool_decide (st = STATE_OFF));;
  write_state core_pos STATE_ON_PENDING;;
  cpu_unlock core_pos.

Definition tftf_try_cpu_on (ret core_pos entrypoint : Z) : M hp_state Z :=
  (if ret =? PSCI_E_SUCCESS then
     try_cpu_on_locked core_pos;;
     write_entrypoint core_pos entrypoint
   else mret tt);;
  mret ret.

(** ** Turning the calling CPU off *)

Definition tftf_prepare_cpu_off : M hp_state unit := hp_do DisableIrq;; hp_do GicDisableLocal.
Definition tftf_revert_cpu_off : M hp_state unit := hp_do GicEnableLocal;; hp_do EnableIrq.

(** [psci] is the outcome of the PSCI CPU_OFF call: [None] when the CPU is
    powered off, [Some ret] when the call returns. *)
Definition tftf_cpu_off (fuel : nat) (psci : option Z) (core_pos : Z)
    : M hp_state (option Z) :=
  tftf_prepare_cpu_off;;
  tftf_set_cpu_offline core_pos;;
  cnt ← tftf_get_ref_cnt;
  (if cnt =? 0 then hp_do ConsoleFlush else mret tt);;
  match psci with
  | None => mret None
  | Some ret =>
      assert_ (ret =? PSCI_E_DENIED);;
      tftf_set_cpu_online fuel core_pos;;
      tftf_revert_cpu_off;;
      mret (Some ret)
  end.

End Hotplug_ops.


(** ** What the operations do to the entry of one CPU *)

(** [s] with the entry of CPU [i] replaced. *)
Definition upd (s : hp_state) (i : Z) (st : tftf_affinity_info_t) (lk : bool) : hp_state :=
  set_map s (zset (cpus_status_map s) i {| state := st; lock := lk |}).

Definition entry_is (s : hp_state) (i : Z) (st : tftf_affinity_info_t) (lk : bool) : Prop :=
  zget (cpus_status_map s) i = Some {| state := st; lock := lk |}.

Lemma entry_is_upd (s : hp_state) (i : Z) (st st' : tftf_affinity_info_t) (lk lk' : bool) :
  entry_is s i st lk → entry_is (upd s i st' lk') i st' lk'.
Proof.
  intros H. unfold entry_is, upd. cbn. apply zget_zset_eq. by eapply zget_Some_range.
Qed.

Lemma upd_upd (s : hp_state) (i : Z) (st st' : tftf_affinity_info_t) (lk lk' : bool) :
  upd (upd s i st lk) i st' lk' = upd s i st' lk'.
Proof.
  unfold upd, set_map. cbn. f_equal. unfold zset. case_Z; [done|].
  by rewrite list_insert_insert_eq.
Qed.

Section entry_runs.
Implicit Types (s : hp_state) (i : Z) (st : tftf_affinity_info_t) (lk : bool).

Lemma cpu_entry_run s i st lk :
  entry_is s i st lk → cpu_entry i s = Ok ({| state := st; lock := lk |}, s).
Proof. intros Hi. by apply aget_Ok. Qed.

Lemma write_entry_run s i st lk st' lk' :
  entry_is s i st lk →
  write_entry i {| state := st'; lock := lk' |} s = Ok (tt, upd s i st' lk').
Proof.
  intros Hi. unfold write_entry, get, mbind, M_bind.
  rewrite aset_Ok by (by eapply zget_Some_range). done.
Qed.

Lemma cpu_state_run s i st lk : entry_is s i st lk → cpu_state i s = Ok (st, s).
Proof.
  intros Hi. unfold cpu_state. by rewrite (bind_Ok _ _ _ _ _ (cpu_entry_run _ _ _ _ Hi)).
Qed.

Lemma write_state_run s i st lk st' :
  entry_is s i st lk → write_state i st' s = Ok (tt, upd s i st' lk).
Proof.
  intros Hi. unfold write_state. rewrite (bind_Ok _ _ _ _ _ (cpu_entry_run _ _ _ _ Hi)).
  by eapply write_entry_run.
Qed.

Lemma cpu_lock_run s i st :
  entry_is s i st false → cpu_lock i s = Ok (tt, upd s i st true).
Proof.
  intros Hi. unfold cpu_lock. rewrite (bind_Ok _ _ _ _ _ (cpu_entry_run _ _ _ _ Hi)). cbn.
  by eapply write_entry_run.
Qed.

Lemma cpu_unlock_run s i st lk :
  entry_is s i st lk → cpu_unlock i s = Ok (tt, upd s i st false).
Proof.
  intros Hi. unfold cpu_unlock. rewrite (bind_Ok _ _ _ _ _ (cpu_entry_run _ _ _ _ Hi)).
  by eapply write_entry_run.
Qed.
End entry_runs.

#[export] Hint Resolve entry_is_upd : tftf.

(** Run one operation on the entry of the CPU at hand. *)
Ltac hp_step :=
  first
  [ erewrite bind_Ok; [|by eapply cpu_lock_run; eauto with tftf]
  | erewrite bind_Ok; [|by eapply cpu_state_run; eauto with tftf]
  | erewrite bind_Ok; [|by eapply write_state_run; eauto with tftf]
  | erewrite bind_Ok; [|by eapply cpu_unlock_run; eauto with tftf]
  | erewrite bind_Ok; [|reflexivity] ];
  rewrite ?upd_upd.

Lemma set_cpu_online_run (s : hp_state) (i : Z) :
  entry_is s i STATE_ON_PENDING false →
  set_cpu_online_locked i s = Ok (tt, upd s i STATE_ON false).
Proof.
  intros Hi. unfold set_cpu_online_locked. do 4 hp_step.
  erewrite cpu_unlock_run by (eapply entry_is_upd; done). by rewrite upd_upd.
Qed.

Lemma set_cpu_offline_run (s : hp_state) (i : Z) :
  entry_is s i STATE_ON false →
  tftf_set_cpu_offline i s = Ok (tt, upd s i STATE_OFF false).
Proof.
  intros Hi. unfold tftf_set_cpu_offline, tftf_is_cpu_online, tftf_is_core_pos_online.
  hp_step.
  erewrite bind_Ok; [|hp_step; reflexivity]. do 2 hp_step.
  erewrite cpu_unlock_run by (eapply entry_is_upd; done). by rewrite upd_upd.
Qed.

Lemma try_cpu_on_run (s : hp_state) (i : Z) :
  entry_is s i STATE_OFF false →
  try_cpu_on_locked i s = Ok (tt, upd s i STATE_ON_PENDING false).
Proof.
  intros Hi. unfold try_cpu_on_locked. do 4 hp_step.
  erewrite cpu_unlock_run by (eapply entry_is_upd; done). by rewrite upd_upd.
Qed.

Lemma cpu_on_begin_run (s : hp_state) (i : Z) (st : tftf_affinity_info_t) :
  entry_is s i st false →
  cpu_on_begin i s =
  match st with
  | STATE_ON => Ok (Some PSCI_E_ALREADY_ON, upd s i STATE_ON false)
  | STATE_ON_PENDING => Ok (Some PSCI_E_SUCCESS, upd s i STATE_ON_PENDING false)
  | STATE_OFF => Ok (None, upd s i STATE_OFF true)
  end.
Proof. intros Hi. unfold cpu_on_begin. do 2 hp_step. destruct st; [done|by hp_step..]. Qed.

(** Giving a CPU the entry it has changes nothing. *)
Lemma upd_same (s : hp_state) (i : Z) (st : tftf_affinity_info_t) (lk : bool) :
  entry_is s i st lk → upd s i st lk = s.
Proof.
  intros H. unfold entry_is, upd, set_map, zget, zset in *.
  destruct s as [m d r l e c]; cbn in *. case_match; [done|].
  by rewrite list_insert_id.
Qed.


(** ** Inversion *)

(** An operation that starts by taking the lock of CPU [i] and returns found
    it free. *)
Lemma locked_inv {A} (i : Z) (f : unit → M hp_state A) (a : A) (s s' : hp_state) :
  (cpu_lock i ≫= f) s = Ok (a, s') → ∃ st, entry_is s i st false.
Proof.
  intros H. apply bind_Ok_inv in H as (u & s1 & Hl & _).
  unfold cpu_lock in Hl. apply bind_Ok_inv in Hl as (e & s2 & He & Hl).
  unfold cpu_entry, get, aget, mbind, M_bind in He.
  destruct (zget (cpus_status_map s) i) as [[st lk]|] eqn:E; [|done].
  injection He as <- <-. destruct lk; [done|]. by exists st.
Qed.

Lemma cpu_on_begin_inv (i : Z) (r : option Z) (s s' : hp_state) :
  cpu_on_begin i s = Ok (r, s') →
  match r with
  | Some _ => s' = s
  | None => entry_is s i STATE_OFF false ∧ s' = upd s i STATE_OFF true
  end.
Proof.
  intros H. destruct (locked_inv _ _ _ _ _ H) as [st Hi].
  rewrite (cpu_on_begin_run s i st Hi) in H.
  destruct st; simplify_eq; [done|by apply upd_same..].
Qed.

Lemma set_cpu_online_inv (i : Z) (u : unit) (s s' : hp_state) :
  set_cpu_online_locked i s = Ok (u, s') →
  entry_is s i STATE_ON_PENDING false ∧ s' = upd s i STATE_ON false.
Proof.
  intros H. destruct (locked_inv _ _ _ _ _ H) as [st Hi].
  destruct (decide (st = STATE_ON_PENDING)) as [->|Hne].
  - rewrite (set_cpu_online_run s i Hi) in H. by simplify_eq.
  - unfold set_cpu_online_locked in H.
    erewrite bind_Ok in H; [|by eapply cpu_lock_run].
    erewrite bind_Ok in H; [|eapply cpu_state_run; by eapply entry_is_upd].
    rewrite bool_decide_eq_false_2 in H by done. inv_run. done.
Qed.

Lemma set_cpu_offline_inv (i : Z) (u : unit) (s s' : hp_state) :
  tftf_set_cpu_offline i s = Ok (u, s') →
  entry_is s i STATE_ON false ∧ s' = upd s i STATE_OFF false.
Proof.
  intros H. destruct (locked_inv _ _ _ _ _ H) as [st Hi].
  destruct (decide (st = STATE_ON)) as [->|Hne].
  - rewrite (set_cpu_offline_run s i Hi) in H. by simplify_eq.
  - unfold tftf_set_cpu_offline, tftf_is_cpu_online, tftf_is_core_pos_online in H.
    erewrite bind_Ok in H; [|by eapply cpu_lock_run].
    erewrite bind_Ok in H; [|erewrite bind_Ok; [reflexivity|eapply cpu_state_run; by eapply entry_is_upd]].
    rewrite bool_decide_eq_false_2 in H by done. inv_run. done.
Qed.

Lemma try_cpu_on_inv (i : Z) (u : unit) (s s' : hp_state) :
  try_cpu_on_locked i s = Ok (u, s') →
  entry_is s i STATE_OFF false ∧ s' = upd s i STATE_ON_PENDING false.
Proof.
  intros H. destruct (locked_inv _ _ _ _ _ H) as [st Hi].
  destruct (decide (st = STATE_OFF)) as [->|Hne].
  - rewrite (try_cpu_on_run s i Hi) in H. by simplify_eq.
  - unfold try_cpu_on_locked in H.
    erewrite bind_Ok in H; [|by eapply cpu_lock_run].
    erewrite bind_Ok in H; [|eapply cpu_state_run; by eapply entry_is_upd].
    rewrite bool_decide_eq_false_2 in H by done. inv_run. done.
Qed.

Lemma write_entrypoint_inv (i ep : Z) (u : unit) (s s' : hp_state) :
  write_entrypoint i ep s = Ok (u, s') →
  s' = set_entries s (zset (test_entrypoint s) i ep).
Proof.
  unfold write_entrypoint. intros H. inv_run. unfold aset in *. case_match; by simplify_eq.
Qed.

(** The end of [tftf_cpu_on()], from an entry whose lock is held. *)
Lemma cpu_on_end_inv (i ep ret : Z) (st : tftf_affinity_info_t) (u : unit) (s s' : hp_state) :
  entry_is s i st true → cpu_on_end i ep ret s = Ok (u, s') →
  cpus_status_map s' = cpus_status_map
    (upd s i (if ret =? PSCI_E_SUCCESS then STATE_ON_PENDING else st) false)
  ∧ test_entrypoint s' =
    (if ret =? PSCI_E_SUCCESS then zset (test_entrypoint s) i ep else test_entrypoint s).
Proof.
  intros Hi H. unfold cpu_on_end in H. destruct (ret =? PSCI_E_SUCCESS).
  - apply bind_Ok_inv in H as (u1 & s1 & Hw & H). apply write_entrypoint_inv in Hw as ->.
    set (s1 := set_entries s _) in *.
    assert (entry_is s1 i st true) as Hi1 by done.
    erewrite bind_Ok in H; [|by eapply write_state_run].
    erewrite cpu_unlock_run in H by (by eapply entry_is_upd). simplify_eq.
    rewrite upd_upd. done.
  - erewrite cpu_unlock_run in H by done. by simplify_eq.
Qed.

(** ** All CPUs together

    The power state of each CPU, and what a running CPU is doing: between the
    steps of [tftf_cpu_on()] and [tftf_try_cpu_on()] other CPUs may run, the
    CPU being turned on among them. *)

Inductive caller : Set :=
| Idle
(** in the loop of [tftf_cpu_on()], holding the lock of [t] *)
| OnSmc (t ep : Z)
(** after the loop, the firmware having accepted the call *)
| OnCommit (t ep : Z)
(** in [tftf_try_cpu_on()], the firmware having accepted the call *)
| TryLock (t ep : Z)
(** after the lock was released, before the entry point is written *)
| TryEntry (t ep : Z).

Inductive cpu : Set :=
| PowerOff
| Booting
| Running (c : caller)
(** after [tftf_set_cpu_offline()], before the firmware powers it off *)
| Leaving.

Section System.

(** The answer of PSCI CPU_ON for a target in a given state. *)
Context (fw_cpu_on : cpu → Z).

(** A CPU is turned on only when it is off. *)
Definition fw_turns_on_off_only : Prop :=
  ∀ p, fw_cpu_on p = PSCI_E_SUCCESS → p = PowerOff.

Inductive hp_step_rel : hp_state * list cpu → hp_state * list cpu → Prop :=
| st_on_early i t ret hs hs' cpus :
    zget cpus i = Some (Running Idle) → cpu_on_begin t hs = Ok (Some ret, hs') →
    hp_step_rel (hs, cpus) (hs', cpus)
| st_on_take i t ep hs hs' cpus :
    zget cpus i = Some (Running Idle) → cpu_on_begin t hs = Ok (None, hs') →
    hp_step_rel (hs, cpus) (hs', zset cpus i (Running (OnSmc t ep)))
| st_on_again i t ep p hs cpus :
    zget cpus i = Some (Running (OnSmc t ep)) → zget cpus t = Some p →
    fw_cpu_on p = PSCI_E_ALREADY_ON →
    hp_step_rel (hs, cpus) (hs, cpus)
| st_on_accept i t ep p hs cpus :
    zget cpus i = Some (Running (OnSmc t ep)) → zget cpus t = Some p →
    fw_cpu_on p = PSCI_E_SUCCESS →
    hp_step_rel (hs, cpus)
      (hs, zset (zset cpus t Booting) i (Running (OnCommit t ep)))
| st_on_refuse i t ep p u hs hs' cpus :
    zget cpus i = Some (Running (OnSmc t ep)) → zget cpus t = Some p →
    fw_cpu_on p ≠ PSCI_E_SUCCESS → fw_cpu_on p ≠ PSCI_E_ALREADY_ON →
    cpu_on_end t ep (fw_cpu_on p) hs = Ok (u, hs') →
    hp_step_rel (hs, cpus) (hs', zset cpus i (Running Idle))
| st_on_commit i t ep u hs hs' cpus :
    zget cpus i = Some (Running (OnCommit t ep)) →
    cpu_on_end t ep PSCI_E_SUCCESS hs = Ok (u, hs') →
    hp_step_rel (hs, cpus) (hs', zset cpus i (Running Idle))
| st_try_accept i t ep p hs cpus :
    zget cpus i = Some (Running Idle) → zget cpus t = Some p →
    fw_cpu_on p = PSCI_E_SUCCESS →
    hp_step_rel (hs, cpus)
      (hs, zset (zset cpus t Booting) i (Running (TryLock t ep)))
| st_try_lock i t ep u hs hs' cpus :
    zget cpus i = Some (Running (TryLock t ep)) → try_cpu_on_locked t hs = Ok (u, hs') →
    hp_step_rel (hs, cpus) (hs', zset cpus i (Running (TryEntry t ep)))
| st_try_entry i t ep u hs hs' cpus :
    zget cpus i = Some (Running (TryEntry t ep)) → write_entrypoint t ep hs = Ok (u, hs') →
    hp_step_rel (hs, cpus) (hs', zset cpus i (Running Idle))
| st_boot i u hs hs' cpus :
    zget cpus i = Some Booting → set_cpu_online_locked i hs = Ok (u, hs') →
    hp_step_rel (hs, cpus) (hs', zset cpus i (Running Idle))
| st_off i u hs hs' cpus :
    zget cpus i = Some (Running Idle) → tftf_set_cpu_offline i hs = Ok (u, hs') →
    hp_step_rel (hs, cpus) (hs', zset cpus i Leaving)
| st_die i hs cpus :
    zget cpus i = Some Leaving → hp_step_rel (hs, cpus) (hs, zset cpus i PowerOff).

(** *** Counting the calls in flight for a CPU *)

Definition unsettled1 (c : Z) (p : cpu) : Z :=
  match p with
  | Running (OnCommit t _) | Running (TryLock t _) => if t =? c then 1 else 0
  | _ => 0
  end.
Definition holder1 (c : Z) (p : cpu) : Z :=
  match p with
  | Running (OnSmc t _) | Running (OnCommit t _) => if t =? c then 1 else 0
  | _ => 0
  end.

Abbreviation unsettled c := (zsum (unsettled1 c)).
Abbreviation holder c := (zsum (holder1 c)).

(** How the framework's view of a CPU relates to what it really does, given
    the number [u] of accepted CPU_ON calls not yet recorded. *)
Definition view_ok (st : tftf_affinity_info_t) (p : cpu) (u : Z) : Prop :=
  match p with
  | PowerOff | Leaving => st = STATE_OFF ∧ u = 0
  | Booting => (st = STATE_OFF ∧ u = 1) ∨ (st = STATE_ON_PENDING ∧ u = 0)
  | Running _ => st = STATE_ON ∧ u = 0
  end.

Record hp_ok (s : hp_state * list cpu) : Prop := {
  hp_len : zlen (cpus_status_map s.1) = zlen s.2;
  hp_view : ∀ c st lk p, entry_is s.1 c st lk → zget s.2 c = Some p →
    view_ok st p (unsettled c s.2);
  hp_lock : ∀ c st lk, entry_is s.1 c st lk → holder c s.2 = if lk then 1 else 0;
}.


(** The counts for CPU [c] after CPU [i] moved. *)
Ltac count_cpus H c :=
  rewrite ?(zsum_zset (unsettled1 c) _ _ _ _ H), ?(zsum_zset (holder1 c) _ _ _ _ H).

(** A step that touches the entry of CPU [t] only. *)
Lemma hp_ok_step (hs hs' : hp_state) (cpus cpus' : list cpu) (t : Z)
    (st st' : tftf_affinity_info_t) (lk lk' : bool) :
  hp_ok (hs, cpus) → entry_is hs t st lk →
  cpus_status_map hs' = cpus_status_map (upd hs t st' lk') →
  zlen cpus' = zlen cpus →
  (∀ c p', c ≠ t → zget cpus' c = Some p' →
     ∃ p, zget cpus c = Some p ∧ ∀ st u, view_ok st p u → view_ok st p' u) →
  (∀ c, c ≠ t → unsettled c cpus' = unsettled c cpus ∧ holder c cpus' = holder c cpus) →
  (∀ p', zget cpus' t = Some p' → view_ok st' p' (unsettled t cpus')) →
  holder t cpus' = (if lk' then 1 else 0) →
  hp_ok (hs', cpus').
Proof.
  intros Hok Ht Em Hlen Hother Hcnt Hview Hhold.
  pose proof (zget_Some_range _ _ _ Ht) as Hr.
  assert (∀ c stc lkc, entry_is hs' c stc lkc →
          (c = t ∧ stc = st' ∧ lkc = lk') ∨ (c ≠ t ∧ entry_is hs c stc lkc)) as Hcase.
  { intros c stc lkc. unfold entry_is. rewrite Em. cbn. rewrite zget_zset. case_decide as Hd.
    - destruct Hd as [<- _]. intros [= <- <-]. by left.
    - intros Hc. right. split; [|done]. intros ->. lia. }
  split; cbn.
  - rewrite Em, Hlen. cbn. rewrite zlen_zset. apply (hp_len _ Hok).
  - intros c stc lkc p' Hc Hp. destruct (Hcase _ _ _ Hc) as [(-> & -> & ->)|[Hne Hold]].
    + by apply Hview.
    + destruct (Hother c p' Hne Hp) as (p & Hpold & Himp).
      destruct (Hcnt c Hne) as [-> _]. apply Himp. by apply (hp_view _ Hok c stc lkc p).
  - intros c stc lkc Hc. destruct (Hcase _ _ _ Hc) as [(-> & -> & ->)|[Hne Hold]]; [done|].
    destruct (Hcnt c Hne) as [_ ->]. by apply (hp_lock _ Hok c stc lkc).
Qed.

Lemma unsettled_ge (c i : Z) (p : cpu) (cpus : list cpu) :
  zget cpus i = Some p → unsettled1 c p <= unsettled c cpus.
Proof.
  unfold zget. case_Z; [done|]. intros Hi. eapply zsum_ge; [|done].
  intros q _. destruct q as [| |[]|]; cbn; repeat case_match; lia.
Qed.

(** The phase of CPU [i] before and after it moved from one call to another. *)
Lemma running_moves (cpus : list cpu) (i : Z) (a b : caller) :
  zget cpus i = Some (Running a) →
  ∀ c p', zget (zset cpus i (Running b)) c = Some p' →
  ∃ p, zget cpus c = Some p ∧ ∀ st u, view_ok st p u → view_ok st p' u.
Proof.
  intros Hi c p'. rewrite zget_zset. case_decide as Hd; [|eauto].
  destruct Hd as [<- _]. intros [= <-]. exists (Running a). by split.
Qed.

(** The CPU another one has successfully turned on. *)
Lemma accepted (hs : hp_state) (cpus : list cpu) (t : Z) :
  hp_ok (hs, cpus) → zget cpus t = Some PowerOff →
  ∃ lk, entry_is hs t STATE_OFF lk ∧ unsettled t cpus = 0
        ∧ holder t cpus = if lk then 1 else 0.
Proof.
  intros Hok Ht. destruct (zget_is_Some (cpus_status_map hs) t) as [[st lk] He].
  { pose proof (hp_len _ Hok) as Hl. cbn in Hl. rewrite Hl. by eapply zget_Some_range. }
  destruct (hp_view _ Hok t st lk PowerOff He Ht) as [-> Hu].
  exists lk. split_and!; [done..|]. by apply (hp_lock _ Hok t STATE_OFF lk).
Qed.

Lemma accept_ok (hs : hp_state) (cpus : list cpu) (i t : Z) (a b : caller) :
  hp_ok (hs, cpus) → zget cpus i = Some (Running a) → zget cpus t = Some PowerOff →
  (∀ c, unsettled1 c (Running b) - unsettled1 c (Running a) = if c =? t then 1 else 0) →
  (∀ c, holder1 c (Running b) = holder1 c (Running a)) →
  hp_ok (hs, zset (zset cpus t Booting) i (Running b)).
Proof.
  intros Hok Hi Ht Hu Hh. destruct (accepted hs cpus t Hok Ht) as (lk & He & Hu0 & Hh0).
  assert (i ≠ t) as Hne by congruence.
  assert (zget (zset cpus t Booting) i = Some (Running a)) as Hi'
    by (by rewrite zget_zset_ne).
  apply (hp_ok_step hs hs cpus _ t STATE_OFF STATE_OFF lk lk Hok He).
  - by rewrite (upd_same hs t STATE_OFF lk He).
  - by rewrite !zlen_zset.
  - intros c p' Hc Hp. destruct (running_moves _ i a b Hi' c p' Hp) as (p & Hz & Himp).
    rewrite zget_zset_ne in Hz by done. eauto.
  - intros c Hc. count_cpus Hi' c. count_cpus Ht c.
    rewrite Hh. specialize (Hu c). rewrite (proj2 (Z.eqb_neq _ _)) in Hu by done.
    cbn in *. lia.
  - intros p'. rewrite zget_zset_ne, zget_zset_eq by (done || by eapply zget_Some_range).
    intros [= <-]. left. split; [done|].
    count_cpus Hi' t. count_cpus Ht t.
    specialize (Hu t). rewrite Z.eqb_refl in Hu. cbn in *. lia.
  - count_cpus Hi' t. count_cpus Ht t. rewrite Hh. cbn in *. lia.
Qed.

(** A running CPU that finishes a locked section on the entry of [t]. *)
Lemma settle_ok (hs hs' : hp_state) (cpus : list cpu) (i t : Z) (a b : caller)
    (st st' : tftf_affinity_info_t) (lk lk' : bool) :
  hp_ok (hs, cpus) → zget cpus i = Some (Running a) → entry_is hs t st lk →
  cpus_status_map hs' = cpus_status_map (upd hs t st' lk') →
  (∀ c, c ≠ t → unsettled1 c (Running b) = unsettled1 c (Running a)
                ∧ holder1 c (Running b) = holder1 c (Running a)) →
  (∀ p, view_ok st p (unsettled t cpus) →
        view_ok st' p (unsettled t cpus - unsettled1 t (Running a) + unsettled1 t (Running b))) →
  holder1 t (Running b) - holder1 t (Running a) =
    (if lk' then 1 else 0) - (if lk then 1 else 0) →
  hp_ok (hs', zset cpus i (Running b)).
Proof.
  intros Hok Hi Ht Em Hc Hv Hh.
  apply (hp_ok_step hs hs' cpus _ t st st' lk lk' Hok Ht Em).
  - by rewrite zlen_zset.
  - intros c p' _. by apply (running_moves cpus i a b).
  - intros c Hne. count_cpus Hi c. destruct (Hc c Hne) as [-> ->]. lia.
  - intros p' Hp. count_cpus Hi t.
    destruct (running_moves cpus i a b Hi t p' Hp) as (p & Hz & Himp).
    apply Himp, Hv. by apply (hp_view _ Hok t st lk p).
  - count_cpus Hi t. pose proof (hp_lock _ Hok t st lk Ht). cbn in *. lia.
Qed.

(** A CPU that changes its own entry and its own phase. *)
Lemma own_ok (hs hs' : hp_state) (cpus : list cpu) (i : Z) (p p' : cpu)
    (st st' : tftf_affinity_info_t) (lk : bool) :
  hp_ok (hs, cpus) → zget cpus i = Some p → entry_is hs i st lk →
  cpus_status_map hs' = cpus_status_map (upd hs i st' lk) →
  (∀ c, unsettled1 c p' = unsettled1 c p ∧ holder1 c p' = holder1 c p) →
  (view_ok st p (unsettled i cpus) → view_ok st' p' (unsettled i cpus)) →
  hp_ok (hs', zset cpus i p').
Proof.
  intros Hok Hi He Em Hc Hv.
  assert (∀ c, unsettled c (zset cpus i p') = unsettled c cpus
               ∧ holder c (zset cpus i p') = holder c cpus) as Hcnt.
  { intros c. count_cpus Hi c. destruct (Hc c) as [-> ->]. lia. }
  apply (hp_ok_step hs hs' cpus _ i st st' lk lk Hok He Em).
  - by rewrite zlen_zset.
  - intros c q Hne. rewrite zget_zset_ne by done. eauto.
  - intros c _. apply Hcnt.
  - intros q. rewrite zget_zset_eq by (by eapply zget_Some_range). intros [= <-].
    destruct (Hcnt i) as [-> _]. apply Hv. by apply (hp_view _ Hok i st lk p).
  - destruct (Hcnt i) as [_ ->]. by apply (hp_lock _ Hok i st lk).
Qed.


(** The entry of a CPU another one holds the lock of. *)
Lemma held_entry (hs : hp_state) (cpus : list cpu) (i t : Z) (p : cpu) :
  hp_ok (hs, cpus) → zget cpus i = Some p → holder1 t p = 1 →
  0 <= t < zlen cpus → ∃ st, entry_is hs t st true.
Proof.
  intros Hok Hi Hp Ht. destruct (zget_is_Some (cpus_status_map hs) t) as [[st lk] He].
  { pose proof (hp_len _ Hok) as Hl. cbn in Hl. by rewrite Hl. }
  exists st. pose proof (hp_lock _ Hok t st lk He) as Hl. cbn in Hl.
  assert (1 <= holder t cpus) as Hge.
  { rewrite <- Hp. unfold zget in Hi. destruct (i <? 0); [done|].
    apply (zsum_ge (holder1 t) cpus (Z.to_nat i) p); [|done].
    intros q _. destruct q as [| |[]|]; cbn; repeat case_match; lia. }
  destruct lk; [exact He|lia].
Qed.

Lemma cpu_on_end_range (t ep ret : Z) (u : unit) (hs hs' : hp_state) :
  cpu_on_end t ep ret hs = Ok (u, hs') → 0 <= t < zlen (cpus_status_map hs).
Proof.
  unfold cpu_on_end, write_state, cpu_unlock, cpu_entry. intros H.
  case_match; inv_run;
    repeat match goal with
    | H : write_entrypoint _ _ _ = Ok _ |- _ => apply write_entrypoint_inv in H as ->
    | H : aget _ _ _ = Ok _ |- _ => unfold aget in H
    end; destruct (zget (cpus_status_map _) t) eqn:E in *;
    try done; by apply zget_Some_range in E.
Qed.

Ltac solve_callers :=
  intros; cbn; repeat case_Z; try (split; lia); try lia; congruence.

Lemma hp_step_ok (s s' : hp_state * list cpu) :
  fw_turns_on_off_only → hp_ok s → hp_step_rel s s' → hp_ok s'.
Proof.
  intros Hfw Hok Hstep.
  destruct Hstep as
    [i t ret hs hs' cpus Hi Hb|i t ep hs hs' cpus Hi Hb|i t ep p hs cpus Hi Hp Hr
    |i t ep p hs cpus Hi Hp Hr|i t ep p u hs hs' cpus Hi Hp Hr1 Hr2 He
    |i t ep u hs hs' cpus Hi He|i t ep p hs cpus Hi Hp Hr|i t ep u hs hs' cpus Hi He
    |i t ep u hs hs' cpus Hi He|i u hs hs' cpus Hi He|i u hs hs' cpus Hi He|i hs cpus Hi].
  - apply cpu_on_begin_inv in Hb as ->. done.
  - apply cpu_on_begin_inv in Hb as [Ht ->].
    eapply (settle_ok hs _ cpus i t Idle); [done|done|done|done| | |]; [solve_callers| |solve_callers].
    intros q. cbn. by rewrite Z.sub_0_r, Z.add_0_r.
  - done.
  - rewrite (Hfw p Hr) in Hp.
    eapply (accept_ok hs cpus i t (OnSmc t ep)); [done|done|done|solve_callers|solve_callers].
  - destruct (held_entry hs cpus i t _ Hok Hi) as [st Ht];
      [cbn; by rewrite Z.eqb_refl|by eapply zget_Some_range|].
    pose proof (cpu_on_end_inv t ep _ st u hs hs' Ht He) as [Em _].
    rewrite (proj2 (Z.eqb_neq _ _)) in Em by done.
    eapply (settle_ok hs _ cpus i t (OnSmc t ep)); [done|done|done|done| | |];
      [solve_callers| |solve_callers].
    intros q. cbn. by rewrite Z.sub_0_r, Z.add_0_r.
  - pose proof (cpu_on_end_range _ _ _ _ _ _ He) as Hr.
    destruct (held_entry hs cpus i t _ Hok Hi) as [st Ht];
      [cbn; by rewrite Z.eqb_refl|pose proof (hp_len _ Hok) as Hl; cbn in Hl; lia|].
    pose proof (cpu_on_end_inv t ep _ st u hs hs' Ht He) as [Em _]. rewrite Z.eqb_refl in Em.
    pose proof (unsettled_ge t i _ cpus Hi) as Hu. cbn in Hu. rewrite Z.eqb_refl in Hu.
    eapply (settle_ok hs _ cpus i t (OnCommit t ep)); [done|done|done|done| | |];
      [solve_callers| |solve_callers].
    intros q Hv. cbn. rewrite Z.eqb_refl. destruct q; cbn in *; lia || intuition lia.
  - rewrite (Hfw p Hr) in Hp.
    eapply (accept_ok hs cpus i t Idle); [done|done|done|solve_callers|solve_callers].
  - apply try_cpu_on_inv in He as [Ht ->].
    pose proof (unsettled_ge t i _ cpus Hi) as Hu. cbn in Hu. rewrite Z.eqb_refl in Hu.
    eapply (settle_ok hs _ cpus i t (TryLock t ep)); [done|done|done|done| | |];
      [solve_callers| |solve_callers].
    intros q Hv. cbn. rewrite Z.eqb_refl. destruct q; cbn in *; lia || intuition lia.
  - apply write_entrypoint_inv in He as ->.
    destruct (zget_is_Some (cpus_status_map hs) i) as [[st lk] Ht].
    { pose proof (hp_len _ Hok) as Hl. cbn in Hl. rewrite Hl. by eapply zget_Some_range. }
    eapply (own_ok hs _ cpus i (Running (TryEntry t ep)) (Running Idle) st st lk);
      [done|done|done|by rewrite (upd_same hs i st lk Ht)|solve_callers|done].
  - apply set_cpu_online_inv in He as [Ht ->].
    eapply (own_ok hs _ cpus i Booting); [done|done|done|done|solve_callers|].
    cbn. intros [[? _]|[_ ?]]; [done|by split].
  - apply set_cpu_offline_inv in He as [Ht ->].
    eapply (own_ok hs _ cpus i (Running Idle)); [done|done|done|done|solve_callers|].
    cbn. intros [_ ?]. by split.
  - destruct (zget_is_Some (cpus_status_map hs) i) as [[st lk] Ht].
    { pose proof (hp_len _ Hok) as Hl. cbn in Hl. rewrite Hl. by eapply zget_Some_range. }
    eapply (own_ok hs _ cpus i Leaving PowerOff st st lk);
      [done|done|done|by rewrite (upd_same hs i st lk Ht)|solve_callers|done].
Qed.


(** *** Runs from the boot of the primary CPU *)

Definition boot_cpus (n : nat) (primary : Z) : list cpu :=
  zset (replicate n PowerOff) primary (Running Idle).

Definition hp_reachable (n : nat) (s : hp_state * list cpu) : Prop :=
  ∃ primary u hs0,
    0 <= primary < Z.of_nat n
    ∧ tftf_init_cpus_status_map true primary (hp_boot (Z.of_nat n)) = Ok (u, hs0)
    ∧ rtc hp_step_rel (hs0, boot_cpus n primary) s.

Lemma boot_entry (n : nat) (c : Z) :
  0 <= c < Z.of_nat n → entry_is (hp_boot (Z.of_nat n)) c STATE_OFF false.
Proof.
  intros Hc. unfold entry_is, hp_boot. cbn. rewrite Nat2Z.id. by apply zget_replicate.
Qed.

Lemma zsum_zero {A} (f : A → Z) (l : list A) : (∀ x, x ∈ l → f x = 0) → zsum f l = 0.
Proof.
  intros H. induction l as [|x l IH]; [done|]. unfold zsum in *. cbn.
  rewrite (H x) by left. rewrite IH; [done|]. intros y Hy. apply H. by right.
Qed.

Lemma boot_ok (n : nat) (primary : Z) (u : unit) (hs0 : hp_state) :
  0 <= primary < Z.of_nat n →
  tftf_init_cpus_status_map true primary (hp_boot (Z.of_nat n)) = Ok (u, hs0) →
  hp_ok (hs0, boot_cpus n primary).
Proof.
  intros Hp H. set (b := set_init_done (hp_boot (Z.of_nat n)) 1).
  assert (hs0 = upd b primary STATE_ON false) as ->.
  { unfold tftf_init_cpus_status_map in H. do 4 (erewrite bind_Ok in H; [|reflexivity]).
    fold b in H. erewrite (write_state_run b primary STATE_OFF false) in H
      by (by apply boot_entry).
    by injection H as _ <-. }
  assert (∀ f, (∀ c, f c (Running Idle) = 0 ∧ f c PowerOff = 0) →
          ∀ c : Z, zsum (f c) (boot_cpus n primary) = 0) as Hz.
  { intros f Hf c. apply zsum_zero. intros q Hq.
    apply list_elem_of_lookup in Hq as [k Hk]. unfold boot_cpus, zset in Hk.
    destruct (Z.ltb_spec primary 0); [lia|].
    apply list_lookup_insert_Some in Hk as [(_ & <- & _)|[_ Hk]]; [apply Hf|].
    apply lookup_replicate in Hk as [-> _]. apply Hf. }
  split; cbn.
  - unfold boot_cpus. rewrite !zlen_zset, !zlen_replicate. lia.
  - intros c st lk p Hc Hq. rewrite Hz by done. unfold boot_cpus in Hq. unfold entry_is, upd in Hc. cbn in Hc.
    rewrite zget_zset, zlen_replicate in Hc. rewrite zget_zset, zlen_replicate in Hq.
    rewrite !Nat2Z.id in Hc.
    destruct (decide (primary = c ∧ 0 <= primary < Z.of_nat n)) as [_|Hd]; simplify_eq; [done|].
    apply zget_Some_range in Hq as Hr. rewrite zlen_replicate in Hr.
    rewrite zget_replicate in Hc by lia. rewrite zget_replicate in Hq by lia.
    by simplify_eq.
  - intros c st lk Hc. rewrite Hz by done. unfold entry_is, upd in Hc. cbn in Hc.
    rewrite zget_zset in Hc. case_decide; simplify_eq; [done|].
    apply zget_Some_range in Hc as Hr. rewrite zlen_replicate in Hr.
    rewrite zget_replicate in Hc by lia. by simplify_eq.
Qed.

Lemma reachable_hp_ok (n : nat) (s : hp_state * list cpu) :
  fw_turns_on_off_only → hp_reachable n s → hp_ok s.
Proof.
  intros Hfw (primary & u & hs0 & Hp & Hi & Hr).
  pose proof (boot_ok n primary u hs0 Hp Hi) as H0. revert H0.
  induction Hr as [|s1 s2 s3 H12 _ IH]; [done|]. intros H1.
  by apply IH, (hp_step_ok s1 s2).
Qed.

(** ** Properties *)


End System.

Lemma upd_entries_upd (s : hp_state) (i : Z) (l : list Z) (a b : tftf_affinity_info_t)
    (la lb : bool) :
  upd (set_entries (upd s i a la) l) i b lb = upd (set_entries s l) i b lb.
Proof.
  pose proof (upd_upd s i a b la lb) as E. unfold upd, set_map, set_entries in *.
  cbn in *. injection E as ->. done.
Qed.

(** every branch of [tftf_cpu_on()] for a CPU whose lock is free: it does
    nothing for a CPU that is on (ALREADY_ON) or being turned on (SUCCESS);
    for a CPU that is off it calls the firmware until the answer is not
    ALREADY_ON, and then records the entry point and marks the CPU pending if
    the firmware accepted, and changes nothing if it refused. *)
Theorem cpu_on_branches (s : hp_state) (i ep ret : Z) (st : tftf_affinity_info_t) (tries : nat) :
  entry_is s i st false → 0 <= i < zlen (test_entrypoint s) →
  ret ≠ PSCI_E_ON_PENDING → ret ≠ PSCI_E_ALREADY_ON →
  tftf_cpu_on (replicate tries PSCI_E_ALREADY_ON ++ [ret]) i ep s =
  match st with
  | STATE_ON => Ok (PSCI_E_ALREADY_ON, s)
  | STATE_ON_PENDING => Ok (PSCI_E_SUCCESS, s)
  | STATE_OFF =>
      Ok (ret, if ret =? PSCI_E_SUCCESS
               then upd (set_entries s (zset (test_entrypoint s) i ep)) i STATE_ON_PENDING false
               else s)
  end.
Proof.
  intros Hi Hr Hp Ha. unfold tftf_cpu_on.
  erewrite bind_Ok; last first.
  { rewrite (cpu_on_begin_run s i st Hi).
    instantiate (2 := match st with STATE_ON => Some PSCI_E_ALREADY_ON
      | STATE_ON_PENDING => Some PSCI_E_SUCCESS | STATE_OFF => None end).
    instantiate (1 := match st with STATE_OFF => upd s i STATE_OFF true | _ => s end).
    destruct st; [done|by rewrite (upd_same _ _ _ _ Hi)..]. }
  destruct st; [|done..].
  assert (cpu_on_loop (replicate tries PSCI_E_ALREADY_ON ++ [ret]) (upd s i STATE_OFF true)
          = Ok (ret, upd s i STATE_OFF true)) as Hloop.
  { induction tries as [|k IH]; cbn.
    - unfold assert_, mbind, M_bind.
      rewrite (proj2 (Z.eqb_neq ret PSCI_E_ON_PENDING)) by done. cbn.
      by rewrite (proj2 (Z.eqb_neq ret PSCI_E_ALREADY_ON)).
    - exact IH. }
  erewrite bind_Ok by exact Hloop. unfold cpu_on_end.
  destruct (ret =? PSCI_E_SUCCESS).
  - set (s1 := upd s i STATE_OFF true).
    set (s2 := set_entries s1 (zset (test_entrypoint s) i ep)).
    assert (entry_is s2 i STATE_OFF true) as H2 by (by eapply entry_is_upd).
    erewrite bind_Ok; [reflexivity|].
    erewrite bind_Ok; last first.
    { unfold write_entrypoint, get, mbind, M_bind. cbn.
      rewrite aset_Ok by done. reflexivity. }
    fold s2. erewrite bind_Ok; [|by eapply write_state_run].
    erewrite cpu_unlock_run by (by eapply entry_is_upd). rewrite upd_upd.
    subst s2 s1. by rewrite upd_entries_upd.
  - erewrite bind_Ok; [|eapply cpu_unlock_run; by eapply entry_is_upd].
    by rewrite upd_upd, (upd_same _ _ _ _ Hi).
Qed.

(** when the firmware denies CPU_OFF, [tftf_cpu_off()] never returns: it
    has marked the CPU as off and then waits for its state to be anything
    else before marking it online again. *)
Theorem cpu_off_denied_hangs (fuel : nat) (s : hp_state) (i : Z) :
  entry_is s i STATE_ON false →
  tftf_cpu_off fuel (Some PSCI_E_DENIED) i s = Stop FuelOut.
Proof.
  intros Hi. unfold tftf_cpu_off, tftf_prepare_cpu_off.
  erewrite bind_Ok; [|reflexivity].
  erewrite bind_Ok; [|by apply set_cpu_offline_run].
  erewrite bind_Ok; [|reflexivity].
  assert (∀ s1 : hp_state, entry_is s1 i STATE_OFF false →
          wait_not_off fuel i s1 = Stop FuelOut) as Hwait.
  { intros s1 H1. induction fuel as [|k IH]; [done|]. cbn [wait_not_off].
    erewrite bind_Ok; [|by eapply cpu_state_run]. by rewrite decide_True. }
  unfold tftf_set_cpu_online, hp_do. cbn.
  destruct (ref_cnt s =? 0); (erewrite bind_Ok; [|reflexivity]);
    (erewrite bind_Ok; [|reflexivity]); unfold mbind, M_bind; rewrite Hwait;
    done || by apply (entry_is_upd _ _ STATE_ON _ false).
Qed.


(** ** Runs on two CPUs *)

(** A firmware that answers as PSCI documents. *)
Definition demo_fw (p : cpu) : Z :=
  match p with
  | PowerOff => PSCI_E_SUCCESS
  | Booting => PSCI_E_ON_PENDING
  | _ => PSCI_E_ALREADY_ON
  end.

Lemma demo_fw_sane : fw_turns_on_off_only demo_fw.
Proof. intros p. by destruct p. Qed.

Definition demo_map (a b : tftf_affinity_info_t) : list tftf_cpu_state_t :=
  [{| state := a; lock := false |}; {| state := b; lock := false |}].
Definition demo_hs (a b : tftf_affinity_info_t) (ep : Z) : hp_state :=
  {| cpus_status_map := demo_map a b; cpus_status_init_done := 1; ref_cnt := 0;
     ref_cnt_lock := false; test_entrypoint := [0; ep]; hp_calls := [] |}.

(** CPU 0 turns CPU 1 on with [tftf_try_cpu_on(1, 0x8800)]. *)
Lemma demo_try_reachable :
  hp_reachable demo_fw 2
    (demo_hs STATE_ON STATE_ON_PENDING 0, [Running (TryEntry 1 0x8800); Booting]).
Proof.
  exists 0, tt, (demo_hs STATE_ON STATE_OFF 0). split; [lia|]. split; [reflexivity|].
  eapply rtc_l; [apply (st_try_accept _ 0 1 0x8800 PowerOff); reflexivity|].
  eapply rtc_l; [eapply (st_try_lock _ 0 1 0x8800); reflexivity|].
  apply rtc_refl.
Qed.

(** [tftf_try_cpu_on()] marks the CPU pending before it writes its entry
    point, so the CPU can be online, and go on to run its test, while its
    entry point is still the old one (here NULL). *)
Theorem try_cpu_on_entry_race :
  hp_reachable demo_fw 2
    (demo_hs STATE_ON STATE_ON 0, [Running (TryEntry 1 0x8800); Running Idle]).
Proof.
  destruct demo_try_reachable as (primary & u & hs0 & Hp & Hi & Hr).
  exists primary, u, hs0. split_and!; [lia..|done|].
  eapply rtc_r; [exact Hr|].
  eapply (st_boot _ 1); reflexivity.
Qed.


Lemma cpu_on_branches_witness :
  tftf_cpu_on [PSCI_E_ALREADY_ON; PSCI_E_SUCCESS] 1 0x8800 (demo_hs STATE_ON STATE_OFF 0)
  = Ok (PSCI_E_SUCCESS, demo_hs STATE_ON STATE_ON_PENDING 0x8800).
Proof.
  apply (cpu_on_branches (demo_hs STATE_ON STATE_OFF 0) 1 0x8800 PSCI_E_SUCCESS STATE_OFF 1).
  - reflexivity.
  - cbn. unfold zlen. cbn. lia.
  - discriminate.
  - discriminate.
Defined.

Lemma cpu_off_denied_hangs_witness :
  tftf_cpu_off 1000 (Some PSCI_E_DENIED) 0 (demo_hs STATE_ON STATE_OFF 0) = Stop FuelOut.
Proof. apply cpu_off_denied_hangs. reflexivity. Defined.
