(* ===== verification/Bytes.v ===== *)
(** * Bytes in memory

    Memory is a list of bytes ([Z] in [0 .. 255]).  C objects are stored
    little-endian.  [splice] and [slice] are what memcpy() does to and from a
    region of memory. *)

From S2P Require Import Prelude.

Local Open Scope Z_scope.

(** ** Little-endian integers *)

Fixpoint le_bytes (n : nat) (v : Z) : list Z :=
  match n with
  | O => []
  | S n' => v mod 256 :: le_bytes n' (v / 256)
  end.

Fixpoint le_value (bs : list Z) : Z :=
  match bs with
  | [] => 0
  | b :: bs' => b + 256 * le_value bs'
  end.

Lemma length_le_bytes (n : nat) (v : Z) : length (le_bytes n v) = n.
Proof. revert v. induction n; intros v; cbn; [done|]. by f_equal. Qed.

Lemma le_value_bytes (n : nat) (v : Z) :
  le_value (le_bytes n v) = v mod 2 ^ (8 * Z.of_nat n).
Proof.
  revert v. induction n as [|n IH]; intros v; cbn [le_bytes le_value].
  { by rewrite Z.mul_0_r, Z.mod_1_r. }
  rewrite IH. replace (8 * Z.of_nat (S n)) with (8 + 8 * Z.of_nat n) by lia.
  rewrite Z.pow_add_r by lia. change (2 ^ 8) with 256.
  rewrite Z.rem_mul_r by (try lia; apply Z.pow_nonzero; lia). lia.
Qed.

(** A value that fits is read back as it was stored. *)
Lemma le_roundtrip (n : nat) (v : Z) :
  0 <= v < 2 ^ (8 * Z.of_nat n) → le_value (le_bytes n v) = v.
Proof. intros Hv. rewrite le_value_bytes. by apply Z.mod_small. Qed.

Lemma le_bytes_range (n : nat) (v : Z) : Forall (λ b, 0 <= b < 256) (le_bytes n v).
Proof.
  revert v. induction n as [|n IH]; intros v; cbn; constructor; [|apply IH].
  apply Z.mod_pos_bound. lia.
Qed.

(** Bytes are read back from the value that was made of them. *)
Lemma le_bytes_value (bs : list Z) (n : nat) : Forall (λ x, 0 <= x < 256) bs → (length bs ≤ n)%nat →
  le_bytes n (le_value bs) = bs ++ replicate (n - length bs) 0.
Proof.
  intros Hbs. revert n. induction Hbs as [|x bs Hx _ IH]; intros n Hn.
  - cbn [le_value length app]. rewrite Nat.sub_0_r. clear Hn. induction n as [|n IHn]; [done|]. cbn [le_bytes replicate]. by rewrite Zmod_0_l, Zdiv_0_l, IHn.
  - destruct n as [|n]; [cbn in Hn; lia|]. cbn [le_value le_bytes length app Nat.sub]. rewrite Z.mul_comm, Z.mod_add, Z.mod_small by lia.
    rewrite Z.div_add, Z.div_small by lia. rewrite Z.add_0_l. rewrite IH; [done|cbn in Hn; lia].
Qed.

(** ** Regions *)

(** [n] bytes from offset [off] on *)
Definition slice (off n : Z) (l : list Z) : list Z :=
  take (Z.to_nat n) (drop (Z.to_nat off) l).

(** [l] with [d] stored at offset [off] *)
Definition splice (off : Z) (d l : list Z) : list Z :=
  take (Z.to_nat off) l ++ d ++ drop (Z.to_nat off + length d) l.

Lemma zlen_splice (off : Z) (d l : list Z) :
  0 <= off → off + zlen d <= zlen l → zlen (splice off d l) = zlen l.
Proof.
  intros H0 Hle. unfold zlen, splice in *.
  rewrite !length_app, length_take, length_drop. lia.
Qed.

Lemma length_slice (off n : Z) (l : list Z) :
  0 <= off → 0 <= n → off + n <= zlen l → zlen (slice off n l) = n.
Proof.
  intros H0 Hn Hle. unfold zlen, slice in *. rewrite length_take, length_drop. lia.
Qed.

(** Reading back exactly what was written. *)
Lemma slice_splice_eq (off n : Z) (d l : list Z) :
  0 <= off → zlen d = n → off + n <= zlen l → slice off n (splice off d l) = d.
Proof.
  intros H0 Hd Hle. unfold slice, splice, zlen in *.
  rewrite drop_app_le by (rewrite length_take; lia).
  rewrite drop_ge by (rewrite length_take; lia). cbn.
  replace (Z.to_nat n) with (length d) by lia. by rewrite take_app_length.
Qed.

(** Reading a region the write does not touch. *)
Lemma slice_splice_ne (off n off' : Z) (d l : list Z) :
  0 <= off → 0 <= off' → 0 <= n → off' + zlen d <= zlen l →
  off + n <= off' ∨ off' + zlen d <= off →
  slice off n (splice off' d l) = slice off n l.
Proof.
  intros H0 H0' Hn Hle Hdisj. unfold slice, splice, zlen in *.
  destruct Hdisj as [Hb|Ha].
  - rewrite <- (take_drop (Z.to_nat off') l) at 3.
    rewrite !drop_app_le by (rewrite length_take; lia).
    rewrite !take_app_le; [done|..]; rewrite length_drop, length_take; lia.
  - rewrite app_assoc, drop_app_ge by (rewrite length_app, length_take; lia).
    rewrite length_app, length_take, drop_drop. repeat f_equal. lia.
Qed.

Lemma slice_0 (off : Z) (l : list Z) : slice off 0 l = [].
Proof. done. Qed.

Lemma splice_nil (off : Z) (l : list Z) : splice off [] l = l.
Proof. unfold splice. cbn. by rewrite Nat.add_0_r, take_drop. Qed.

Lemma slice_all (n : Z) (l : list Z) : zlen l = n → slice 0 n l = l.
Proof. intros <-. unfold slice, zlen. cbn. rewrite Nat2Z.id. by apply take_ge. Qed.

(** A region inside a region. *)
Lemma slice_slice (off n off' n' : Z) (l : list Z) :
  0 <= off → 0 <= off' → 0 <= n' → off' + n' <= n →
  slice off' n' (slice off n l) = slice (off + off') n' l.
Proof.
  intros H0 H0' Hn Hle. unfold slice.
  rewrite skipn_firstn_comm, take_take, drop_drop. repeat f_equal; lia.
Qed.

(** The first bytes of a stored concatenation. *)
Lemma slice_app_l (a b : list Z) (n : Z) : zlen a = n → slice 0 n (a ++ b) = a.
Proof.
  intros Hn. unfold slice, zlen in *. cbn. replace (Z.to_nat n) with (length a) by lia.
  apply take_app_length.
Qed.

Lemma slice_app_r (a b : list Z) (off n : Z) :
  zlen a <= off → slice off n (a ++ b) = slice (off - zlen a) n b.
Proof.
  intros Ho. unfold slice, zlen in *. rewrite drop_app_ge by lia. repeat f_equal. lia.
Qed.

(** Storing one byte, and storing a list byte by byte. *)
Lemma zset_splice (l : list Z) (i v : Z) : 0 <= i < zlen l → zset l i v = splice i [v] l.
Proof.
  intros Hi. unfold splice, zset, zlen in *. case_Z; [lia|]. cbn.
  rewrite insert_take_drop by lia. do 2 f_equal. by rewrite Nat.add_1_r.
Qed.

Lemma splice_cons (off c : Z) (d l : list Z) :
  0 <= off → off + zlen d + 1 <= zlen l →
  splice (off + 1) d (splice off [c] l) = splice off (c :: d) l.
Proof.
  intros H0 Hle. unfold splice, zlen in *. cbn [app length].
  set (k := Z.to_nat off) in *. replace (Z.to_nat (off + 1)) with (S k) by lia.
  assert (length (take k l) = k) as Hk by (rewrite length_take; lia).
  assert (take (S k) (take k l ++ c :: drop (k + 1) l) = take k l ++ [c]) as ->.
  { rewrite take_app_ge, Hk by lia. by replace (S k - k)%nat with 1%nat by lia. }
  assert (drop (S k + length d) (take k l ++ c :: drop (k + 1) l)
          = drop (k + S (length d)) l) as ->.
  { rewrite drop_app_ge, Hk by lia.
    replace (S k + length d - k)%nat with (S (length d)) by lia. cbn [drop].
    rewrite drop_drop. f_equal. lia. }
  by rewrite <- app_assoc.
Qed.

(** Storing a concatenation piece by piece. *)
Lemma splice_app (off k : Z) (a b l : list Z) :
  0 <= off → zlen a = k → off + k + zlen b <= zlen l →
  splice off (a ++ b) l = splice (off + k) b (splice off a l).
Proof.
  intros H0 Hk Hle. unfold splice, zlen in *. rewrite length_app.
  set (o := Z.to_nat off) in *. replace (Z.to_nat (off + k)) with (o + length a)%nat by lia.
  assert (length (take o l) = o) as Ho by (rewrite length_take; lia).
  assert (take (o + length a) (take o l ++ a ++ drop (o + length a) l) = take o l ++ a) as ->.
  { rewrite app_assoc, take_app_le by (rewrite length_app; lia).
    apply take_ge. rewrite length_app. lia. }
  assert (drop (o + length a + length b) (take o l ++ a ++ drop (o + length a) l)
          = drop (o + (length a + length b)) l) as ->.
  { rewrite app_assoc, drop_app_ge by (rewrite length_app; lia).
    rewrite length_app, drop_drop. f_equal. lia. }
  by rewrite <- !app_assoc.
Qed.

Lemma zlen_take_le (n : Z) (l : list Z) : 0 <= n <= zlen l → zlen (take (Z.to_nat n) l) = n.
Proof. intros Hn. unfold zlen in *. rewrite length_take. lia. Qed.

Lemma slice_replicate (off n : Z) (k : nat) (x : Z) : 0 <= off → 0 <= n → off + n <= Z.of_nat k →
  slice off n (replicate k x) = replicate (Z.to_nat n) x.
Proof. intros Ho Hn Hk. unfold slice. rewrite drop_replicate, take_replicate. f_equal. lia. Qed.

(** A region that is stored twice *)
Lemma splice_splice (off : Z) (d d' l : list Z) : 0 <= off → zlen d = zlen d' → off + zlen d <= zlen l →
  splice off d (splice off d' l) = splice off d l.
Proof.
  intros Ho Hd Hl. unfold splice, zlen in *. rewrite take_app_le, take_take, Nat.min_id by (rewrite length_take; lia). do 2 f_equal.
  rewrite app_assoc, drop_app_ge; rewrite length_app, length_take; [|lia].
  rewrite drop_drop. f_equal. lia.
Qed.

Lemma slice_in_splice (off o n : Z) (d l : list Z) : 0 <= off → 0 <= o → 0 <= n → o + n <= zlen d → off + zlen d <= zlen l →
  slice (off + o) n (splice off d l) = slice o n d.
Proof.
  intros H1 H2 H3 H4 H5. rewrite <- (slice_splice_eq off (zlen d) d l) at 2 by lia. by rewrite slice_slice by lia.
Qed.

Lemma splice_middle (o : Z) (d a m c : list Z) : 0 <= o → o + zlen d <= zlen m →
  splice (zlen a + o) d (a ++ m ++ c) = a ++ splice o d m ++ c.
Proof.
  intros Ho Hd. unfold splice, zlen in *. rewrite Z2Nat.inj_add, Nat2Z.id by lia.
  rewrite take_app_add, take_app_le by lia. rewrite <- Nat.add_assoc, drop_app_add, drop_app_le by lia.
  by rewrite <- !app_assoc.
Qed.

Lemma splice_prefix (o : Z) (d m c : list Z) : 0 <= o → o + zlen d <= zlen m → splice o d (m ++ c) = splice o d m ++ c.
Proof. intros Ho Hd. apply (splice_middle o d [] m c Ho Hd). Qed.

Lemma splice_in_slice (off n o : Z) (d l : list Z) : 0 <= off → 0 <= n → 0 <= o → o + zlen d <= n → off + n <= zlen l →
  splice off (splice o d (slice off n l)) l = splice (off + o) d l.
Proof.
  intros H0 Hn Ho Hd Hl. pose proof (length_slice off n l H0 Hn Hl) as Hs.
  assert (l = take (Z.to_nat off) l ++ slice off n l ++ drop (Z.to_nat (off + n)) l) as Hsplit.
  { unfold slice. rewrite <- (take_drop (Z.to_nat off) l) at 1. f_equal.
    rewrite <- (take_drop (Z.to_nat n) (drop (Z.to_nat off) l)) at 1. f_equal. rewrite drop_drop. f_equal. lia. }
  assert (zlen (take (Z.to_nat off) l) = off) as Ht by (apply zlen_take_le; lia).
  assert (∀ a m c, zlen a = off → zlen m = n → splice off (splice o d m) (a ++ m ++ c) = splice (off + o) d (a ++ m ++ c)) as Hmid.
  { intros a m c <- <-. rewrite splice_middle by lia. pose proof (zlen_splice o d m Ho Hd) as Hz. unfold splice at 1.
    unfold zlen in *. rewrite Nat2Z.id, take_app_length. do 2 f_equal. rewrite drop_app_add, drop_app_ge by lia.
    replace (length (splice o d m) - length m)%nat with 0%nat by lia. done. }
  specialize (Hmid _ _ (drop (Z.to_nat (off + n)) l) Ht Hs). by rewrite <- Hsplit in Hmid.
Qed.

Lemma take_take_drop (a b : Z) (l : list Z) : 0 <= a → 0 <= b →
  take (Z.to_nat (a + b)) l = take (Z.to_nat a) l ++ take (Z.to_nat b) (drop (Z.to_nat a) l).
Proof.
  intros Ha Hb. rewrite <- (take_drop (Z.to_nat a) (take (Z.to_nat (a + b)) l)), take_take, skipn_firstn_comm. repeat f_equal; lia.
Qed.
