(* ===== verification/Libc.v ===== *)
(** * The C library: memory and strings (lib/libc)

    Memory is one array of bytes; a pointer is an index into it, NULL is
    [None] where a function may return it.  Loops whose bound is the position
    of a terminator take fuel; a terminator inside the memory makes the size
    of the memory enough. *)

From S2P Require Import Prelude Bytes.

Local Open Scope Z_scope.

Definition memory : Type := list Z.

Definition rd (p : Z) : M memory Z := m ← get; aget m p.
Definition wr (p v : Z) : M memory unit := m ← get; m' ← aset m p v; put m'.

(** ** Memory *)

(** [memcpy()]: [n] bytes are left *)
Fixpoint memcpy_loop (n : nat) (d s : Z) : M memory unit :=
  match n with
  | O => mret tt
  | S n' => c ← rd s; wr d c;; memcpy_loop n' (d + 1) (s + 1)
  end.

Definition memcpy (dst src len : Z) : M memory Z :=
  memcpy_loop (Z.to_nat len) dst src;; mret dst.

(** The backward loop of [memmove()], from [d] and [s] down *)
Fixpoint memmove_back (n : nat) (d s : Z) : M memory unit :=
  match n with
  | O => mret tt
  | S n' => c ← rd (s - 1); wr (d - 1) c;; memmove_back n' (d - 1) (s - 1)
  end.

Definition memmove (dst src len : Z) : M memory Z :=
  if len <=? u64 (dst - src) then memcpy dst src len
  else memmove_back (Z.to_nat len) (dst + len) (src + len);; mret dst.

Fixpoint memset_loop (n : nat) (p v : Z) : M memory unit :=
  match n with
  | O => mret tt
  | S n' => wr p v;; memset_loop n' (p + 1) v
  end.

Definition memset (dst val count : Z) : M memory Z :=
  memset_loop (Z.to_nat count) dst (u8 val);; mret dst.

Fixpoint memcmp_loop (n : nat) (s d : Z) : M memory Z :=
  match n with
  | O => mret 0
  | S n' =>
      sc ← rd s; dc ← rd d;
      if negb (sc - dc =? 0) then mret (sc - dc) else memcmp_loop n' (s + 1) (d + 1)
  end.

Definition memcmp (s1 s2 len : Z) : M memory Z := memcmp_loop (Z.to_nat len) s1 s2.

Fixpoint memchr_loop (n : nat) (s c : Z) : M memory (option Z) :=
  match n with
  | O => mret None
  | S n' => b ← rd s; if b =? c then mret (Some s) else memchr_loop n' (s + 1) c
  end.

Definition memchr (src c len : Z) : M memory (option Z) :=
  memchr_loop (Z.to_nat len) src (u8 c).

(** ** Strings *)

Fixpoint strlen_loop (fuel : nat) (p n : Z) : M memory Z :=
  match fuel with
  | O => fail FuelOut
  | S fuel' => c ← rd p; if c =? 0 then mret n else strlen_loop fuel' (p + 1) (n + 1)
  end.

Definition strlen (fuel : nat) (s : Z) : M memory Z := strlen_loop fuel s 0.

Fixpoint strnlen_loop (n : nat) (p len : Z) : M memory Z :=
  match n with
  | O => mret len
  | S n' => c ← rd p; if c =? 0 then mret len else strnlen_loop n' (p + 1) (len + 1)
  end.

Definition strnlen (s maxlen : Z) : M memory Z := strnlen_loop (Z.to_nat maxlen) s 0.

Fixpoint strcmp (fuel : nat) (s1 s2 : Z) : M memory Z :=
  match fuel with
  | O => fail FuelOut
  | S fuel' =>
      a ← rd s1; b ← rd s2;
      if a =? b then (if a =? 0 then mret 0 else strcmp fuel' (s1 + 1) (s2 + 1))
      else mret (a - b)
  end.

Fixpoint strncmp_loop (n : nat) (s1 s2 : Z) : M memory Z :=
  match n with
  | O => mret 0
  | S n' =>
      a ← rd s1; b ← rd s2;
      if negb (a =? b) then mret (a - b)
      else if a =? 0 then mret 0
      else strncmp_loop n' (s1 + 1) (s2 + 1)
  end.

Definition strncmp (s1 s2 n : Z) : M memory Z := strncmp_loop (Z.to_nat n) s1 s2.

(** [strncpy()]: copy up to the terminator, then pad with zeroes *)
Fixpoint strncpy_loop (n : nat) (d s : Z) : M memory unit :=
  match n with
  | O => mret tt
  | S n' =>
      c ← rd s;
      wr d c;;
      if c =? 0 then memset_loop n' (d + 1) 0 else strncpy_loop n' (d + 1) (s + 1)
  end.

Definition strncpy (dst src n : Z) : M memory Z :=
  strncpy_loop (Z.to_nat n) dst src;; mret dst.

(** The first loop of [strlcpy()]: [nleft - 1] rounds at most; it returns the
    pointers and whether it stopped at the terminator. *)
Fixpoint strlcpy_copy (n : nat) (d s : Z) : M memory (Z * Z * bool) :=
  match n with
  | O => mret (d, s, false)
  | S n' =>
      c ← rd s;
      wr d c;;
      if c =? 0 then mret (d + 1, s + 1, true) else strlcpy_copy n' (d + 1) (s + 1)
  end.

(** [while ( *src++ ) ;] *)
Fixpoint skip_string (fuel : nat) (s : Z) : M memory Z :=
  match fuel with
  | O => fail FuelOut
  | S fuel' => c ← rd s; if c =? 0 then mret (s + 1) else skip_string fuel' (s + 1)
  end.

Definition strlcpy (fuel : nat) (dst src dsize : Z) : M memory Z :=
  r ← strlcpy_copy (Z.to_nat (dsize - 1)) dst src;
  if (r.2 : bool) then mret (r.1.2 - src - 1)
  else
    (if negb (dsize =? 0) then wr r.1.1 0 else mret tt);;
    send ← skip_string fuel r.1.2;
    mret (send - src - 1).

Fixpoint strchr (fuel : nat) (p c : Z) : M memory (option Z) :=
  match fuel with
  | O => fail FuelOut
  | S fuel' =>
      b ← rd p;
      if b =? c then mret (Some p)
      else if b =? 0 then mret None
      else strchr fuel' (p + 1) c
  end.

Fixpoint strrchr_loop (fuel : nat) (p c : Z) (save : option Z) : M memory (option Z) :=
  match fuel with
  | O => fail FuelOut
  | S fuel' =>
      b ← rd p;
      let save' := if b =? c then Some p else save in
      if b =? 0 then mret save' else strrchr_loop fuel' (p + 1) c save'
  end.

Definition strrchr (fuel : nat) (p c : Z) : M memory (option Z) :=
  strrchr_loop fuel p c None.

(** ** Pseudo-random numbers (rand.c) *)

Definition RAND_MAX : Z := 0x7ffffffd.

(** [rand()]: the result and the new value of [next]; [int] variables hold
    the converted value *)
Definition rand (next : Z) : Z * Z :=
  let next := if next =? 0 then 123459876 else next in
  let hi := s32 (next / 127773) in
  let lo := s32 (next mod 127773) in
  let x := 16807 * lo - 2836 * hi in
  let x := if x <? 0 then x + 0x7fffffff else x in
  let next := u32 x in
  (next mod (RAND_MAX + 1), next).

Definition srand (seed : Z) : Z := seed.

(** ** Copying *)

Lemma rd_run (p v : Z) (m : memory) : zget m p = Some v → rd p m = Ok (v, m).
Proof. intros H. by apply aget_Ok. Qed.

Lemma wr_run (p v : Z) (m : memory) : 0 <= p < zlen m → wr p v m = Ok (tt, zset m p v).
Proof. intros H. unfold wr, get, put, mbind, M_bind. by rewrite aset_Ok. Qed.

(** A memory is determined by its size and its bytes. *)
Lemma mem_ext (m m' : memory) :
  zlen m = zlen m' → (∀ p, 0 <= p < zlen m → zget m p = zget m' p) → m = m'.
Proof.
  intros Hl H. apply list_eq. intros i. unfold zlen, zget in *.
  destruct (decide (i < length m)%nat) as [Hi|Hi].
  - specialize (H (Z.of_nat i) ltac:(lia)).
    rewrite !(proj2 (Z.ltb_ge (Z.of_nat i) 0)) in H by lia. by rewrite !Nat2Z.id in H.
  - rewrite !lookup_ge_None_2 by lia. done.
Qed.

(** The byte at [p] after storing [d] at [off]. *)
Lemma zget_splice (off p : Z) (d l : list Z) :
  0 <= off → off + zlen d <= zlen l →
  zget (splice off d l) p =
  if decide (off <= p < off + zlen d) then zget d (p - off) else zget l p.
Proof.
  intros H0 Hle. unfold zget, splice, zlen in *.
  destruct (Z.ltb_spec p 0) as [Hp|Hp].
  { rewrite decide_False by lia. done. }
  case_decide as Hd.
  - destruct (Z.ltb_spec (p - off) 0); [lia|].
    rewrite lookup_app_r by (rewrite length_take; lia).
    rewrite lookup_app_l by (rewrite length_take; lia).
    rewrite length_take. f_equal. lia.
  - destruct (decide (p < off)).
    + rewrite lookup_app_l by (rewrite length_take; lia).
      rewrite lookup_take_lt by lia. done.
    + rewrite lookup_app_r by (rewrite length_take; lia).
      rewrite lookup_app_r by (rewrite length_take; lia).
      rewrite lookup_drop, length_take. f_equal. lia.
Qed.

Lemma zget_slice (off n p : Z) (l : list Z) :
  0 <= off → 0 <= p < n → zget (slice off n l) p = zget l (off + p).
Proof.
  intros H0 Hp. unfold zget, slice.
  rewrite !(proj2 (Z.ltb_ge _ 0)) by lia.
  rewrite lookup_take_lt by lia. rewrite lookup_drop. f_equal. lia.
Qed.

(** The forward loop copies correctly unless the destination starts inside
    the source. *)
Lemma memcpy_loop_run (n : nat) (d s : Z) (m : memory) :
  0 <= d → 0 <= s → d + Z.of_nat n <= zlen m → s + Z.of_nat n <= zlen m →
  (d <= s ∨ s + Z.of_nat n <= d) →
  memcpy_loop n d s m = Ok (tt, splice d (slice s (Z.of_nat n) m) m).
Proof.
  revert d s m. induction n as [|n IH]; intros d s m Hd Hs Hdn Hsn Hov; cbn [memcpy_loop].
  { by rewrite slice_0, splice_nil. }
  destruct (zget_is_Some m s) as [c Hc]; [lia|].
  rewrite (bind_Ok _ _ _ _ _ (rd_run s c m Hc)).
  rewrite (bind_Ok _ _ _ _ _ (wr_run d c m ltac:(lia))).
  rewrite IH by (rewrite ?zlen_zset; lia). do 2 f_equal.
  assert (zlen (slice (s + 1) (Z.of_nat n) (zset m d c)) = Z.of_nat n) as L1
    by (apply length_slice; rewrite ?zlen_zset; lia).
  assert (zlen (slice s (Z.of_nat (S n)) m) = Z.of_nat (S n)) as L2
    by (apply length_slice; lia).
  apply mem_ext.
  { rewrite !zlen_splice, zlen_zset; rewrite ?zlen_zset; lia. }
  intros p Hp. rewrite !zget_splice by (rewrite ?zlen_zset; lia). rewrite L1, L2.
  destruct (decide (d + 1 <= p < d + 1 + Z.of_nat n)) as [H1|H1].
  - rewrite decide_True by lia. rewrite !zget_slice by lia.
    rewrite zget_zset_ne by lia. f_equal. lia.
  - destruct (decide (p = d)) as [->|Hne].
    + rewrite decide_True by lia. rewrite zget_zset_eq, zget_slice by lia.
      rewrite <- Hc. f_equal. lia.
    + rewrite decide_False by lia. rewrite zget_zset_ne by lia. done.
Qed.


(** The backward loop copies correctly when the destination starts inside
    the source. *)
Lemma memmove_back_run (n : nat) (d s : Z) (m : memory) :
  0 <= s → s <= d → d + Z.of_nat n <= zlen m →
  memmove_back n (d + Z.of_nat n) (s + Z.of_nat n) m =
  Ok (tt, splice d (slice s (Z.of_nat n) m) m).
Proof.
  revert m. induction n as [|n IH]; intros m Hs Hov Hdn; cbn [memmove_back].
  { by rewrite slice_0, splice_nil. }
  destruct (zget_is_Some m (s + Z.of_nat (S n) - 1)) as [c Hc]; [lia|].
  rewrite (bind_Ok _ _ _ _ _ (rd_run _ c m Hc)).
  rewrite (bind_Ok _ _ _ _ _ (wr_run (d + Z.of_nat (S n) - 1) c m ltac:(lia))).
  replace (d + Z.of_nat (S n) - 1) with (d + Z.of_nat n) in * by lia.
  replace (s + Z.of_nat (S n) - 1) with (s + Z.of_nat n) in * by lia.
  rewrite IH by (rewrite ?zlen_zset; lia). do 2 f_equal.
  assert (zlen (slice s (Z.of_nat n) (zset m (d + Z.of_nat n) c)) = Z.of_nat n) as L1
    by (apply length_slice; rewrite ?zlen_zset; lia).
  assert (zlen (slice s (Z.of_nat (S n)) m) = Z.of_nat (S n)) as L2
    by (apply length_slice; lia).
  apply mem_ext.
  { rewrite !zlen_splice, zlen_zset; rewrite ?zlen_zset; lia. }
  intros p Hp. rewrite !zget_splice by (rewrite ?zlen_zset; lia). rewrite L1, L2.
  destruct (decide (d <= p < d + Z.of_nat n)) as [H1|H1].
  - rewrite decide_True by lia. rewrite !zget_slice by lia.
    rewrite zget_zset_ne by lia. done.
  - destruct (decide (p = d + Z.of_nat n)) as [->|Hne].
    + rewrite decide_True by lia. rewrite zget_zset_eq, zget_slice by lia.
      rewrite <- Hc. f_equal. lia.
    + rewrite decide_False by lia. rewrite zget_zset_ne by lia. done.
Qed.

(** ** Strings in memory *)

(** The string [str] (without its terminator) is at address [p]. *)
Definition string_at (m : memory) (p : Z) (str : list Z) : Prop :=
  0 <= p ∧ slice p (zlen str + 1) m = str ++ [0] ∧ Forall (λ c, c ≠ 0) str.

Lemma string_at_nil (m : memory) (p : Z) : string_at m p [] → zget m p = Some 0.
Proof.
  intros (Hp & Hs & _). cbn in Hs. change (zlen [] + 1) with 1 in Hs.
  replace p with (p + 0) by lia. rewrite <- (zget_slice p 1 0) by lia. by rewrite Hs.
Qed.

Lemma string_at_cons (m : memory) (p c : Z) (str : list Z) :
  string_at m p (c :: str) → zget m p = Some c ∧ c ≠ 0 ∧ string_at m (p + 1) str.
Proof.
  intros (Hp & Hs & Hnz). autorewrite with tftf in Hs.
  apply Forall_cons in Hnz as [Hc Hnz]. pose proof (zlen_nonneg str).
  split_and!; [|done|].
  - replace p with (p + 0) by lia. rewrite <- (zget_slice p (zlen str + 1 + 1) 0) by lia.
    by rewrite Hs.
  - split_and!; [lia| |done].
    rewrite <- (slice_slice p (zlen str + 1 + 1) 1 (zlen str + 1)) by lia.
    rewrite Hs. change ((c :: str) ++ [0]) with ([c] ++ (str ++ [0])).
    rewrite slice_app_r by (unfold zlen; cbn; lia).
    change (1 - zlen [c]) with 0. apply slice_all. by autorewrite with tftf.
Qed.

Lemma strlen_run (str : list Z) (fuel : nat) (p n : Z) (m : memory) :
  string_at m p str → (length str < fuel)%nat →
  strlen_loop fuel p n m = Ok (n + zlen str, m).
Proof.
  revert fuel p n. induction str as [|c str IH]; intros fuel p n Hs Hf;
    (destruct fuel as [|fuel]; [lia|]); cbn [strlen_loop].
  - rewrite (bind_Ok _ _ _ _ _ (rd_run p 0 m (string_at_nil m p Hs))). cbn.
    unfold zlen. cbn. by rewrite Z.add_0_r.
  - apply string_at_cons in Hs as (Hc & Hnz & Hs).
    rewrite (bind_Ok _ _ _ _ _ (rd_run p c m Hc)).
    rewrite (proj2 (Z.eqb_neq c 0)) by done.
    rewrite IH by (done || (cbn in Hf; lia)). autorewrite with tftf. do 2 f_equal. lia.
Qed.

(** Equal prefixes: [strcmp()] decides equality of strings. *)
Lemma strcmp_run (a b : list Z) (fuel : nat) (p q : Z) (m : memory) :
  string_at m p a → string_at m q b → (length a < fuel)%nat →
  ∃ r, strcmp fuel p q m = Ok (r, m) ∧ (r = 0 ↔ a = b).
Proof.
  revert b fuel p q. induction a as [|x a IH]; intros b fuel p q Ha Hb Hf;
    (destruct fuel as [|fuel]; [lia|]); cbn [strcmp].
  - rewrite (bind_Ok _ _ _ _ _ (rd_run p 0 m (string_at_nil m p Ha))).
    destruct b as [|y b].
    + rewrite (bind_Ok _ _ _ _ _ (rd_run q 0 m (string_at_nil m q Hb))). by exists 0.
    + apply string_at_cons in Hb as (Hy & Hnz & Hb).
      rewrite (bind_Ok _ _ _ _ _ (rd_run q y m Hy)).
      rewrite (proj2 (Z.eqb_neq 0 y)) by done. eexists. split; [done|].
      split; [lia|done].
  - apply string_at_cons in Ha as (Hx & Hnx & Ha).
    rewrite (bind_Ok _ _ _ _ _ (rd_run p x m Hx)).
    destruct b as [|y b].
    + rewrite (bind_Ok _ _ _ _ _ (rd_run q 0 m (string_at_nil m q Hb))).
      rewrite (proj2 (Z.eqb_neq x 0)) by done. eexists. split; [done|].
      split; [lia|done].
    + apply string_at_cons in Hb as (Hy & Hny & Hb).
      rewrite (bind_Ok _ _ _ _ _ (rd_run q y m Hy)).
      destruct (Z.eqb_spec x y) as [->|Hne].
      * rewrite (proj2 (Z.eqb_neq y 0)) by done.
        destruct (IH b fuel (p + 1) (q + 1) Ha Hb) as (r & Hr & Heq); [cbn in Hf; lia|].
        exists r. split; [done|]. rewrite Heq. naive_solver.
      * eexists. split; [done|]. split; [lia|congruence].
Qed.

Lemma skip_string_run (str : list Z) (fuel : nat) (p : Z) (m : memory) :
  string_at m p str → (length str < fuel)%nat →
  skip_string fuel p m = Ok (p + zlen str + 1, m).
Proof.
  revert fuel p. induction str as [|c str IH]; intros fuel p Hs Hf;
    (destruct fuel as [|fuel]; [lia|]); cbn [skip_string].
  - rewrite (bind_Ok _ _ _ _ _ (rd_run p 0 m (string_at_nil m p Hs))). cbn.
    change (zlen []) with 0. by rewrite Z.add_0_r.
  - apply string_at_cons in Hs as (Hc & Hnz & Hs).
    rewrite (bind_Ok _ _ _ _ _ (rd_run p c m Hc)).
    rewrite (proj2 (Z.eqb_neq c 0)) by done.
    rewrite IH by (done || (cbn in Hf; lia)). autorewrite with tftf. do 2 f_equal. lia.
Qed.

(** A write outside a string keeps it. *)
Lemma string_at_zset (m : memory) (p d v : Z) (str : list Z) :
  string_at m p str → 0 <= d < zlen m → d < p ∨ p + zlen str < d →
  string_at (zset m d v) p str.
Proof.
  intros (Hp & Hs & Hnz) Hd Hout. split_and!; [done| |done].
  rewrite <- Hs. pose proof (zlen_nonneg str).
  rewrite zset_splice by done.
  apply slice_splice_ne; [lia..| |]; change (zlen [v]) with 1; lia.
Qed.


(** The first loop of [strlcpy()], with room for [n] characters. *)
Lemma strlcpy_copy_run (str : list Z) (n : nat) (d s : Z) (m : memory) :
  string_at m s str → 0 <= d → d + Z.of_nat n < zlen m →
  (d + Z.of_nat n < s ∨ s + zlen str < d) →
  ∃ m', strlcpy_copy n d s m =
    (if decide (length str < n)%nat
     then Ok (d + zlen str + 1, s + zlen str + 1, true, m')
     else Ok (d + Z.of_nat n, s + Z.of_nat n, false, m'))
    ∧ m' = splice d (take n (str ++ [0])) m
    ∧ string_at m' (s + Z.of_nat (min n (length str))) (drop n str).
Proof.
  revert n d s m. induction str as [|c str IH]; intros n d s m Hs Hd Hdn Hov.
  - destruct n as [|n]; cbn [strlcpy_copy].
    + exists m. rewrite splice_nil. cbn. rewrite !Z.add_0_r. split_and!; [done..|].
      by destruct Hs as (? & ? & ?).
    + rewrite (bind_Ok _ _ _ _ _ (rd_run s 0 m (string_at_nil m s Hs))).
      rewrite (bind_Ok _ _ _ _ _ (wr_run d 0 m ltac:(lia))). cbn.
      exists (splice d [0] m). rewrite decide_True by lia. change (zlen []) with 0.
      rewrite !Z.add_0_r, (zset_splice m d 0) by lia. split_and!; [done|by rewrite take_nil|].
      destruct Hs as (Hp & Hs & _). split_and!; [lia| |constructor].
      change (zlen [] + 1) with 1 in *. rewrite slice_splice_ne; [done|lia..| |];
        change (zlen [0]) with 1; change (zlen []) with 0 in *; lia.
  - pose proof Hs as Hs0. apply string_at_cons in Hs as (Hc & Hnz & Hs).
    autorewrite with tftf in *. pose proof (zlen_nonneg str).
    destruct n as [|n]; cbn [strlcpy_copy].
    + exists m. rewrite splice_nil. cbn. rewrite !Z.add_0_r. by split_and!.
    + rewrite (bind_Ok _ _ _ _ _ (rd_run s c m Hc)).
      rewrite (bind_Ok _ _ _ _ _ (wr_run d c m ltac:(lia))).
      rewrite (proj2 (Z.eqb_neq c 0)) by done.
      destruct (IH n (d + 1) (s + 1) (zset m d c)) as (m' & Hrun & Hm' & Hs').
      { apply string_at_zset; [done|lia..]. }
      1-3: rewrite ?zlen_zset; lia.
      exists m'. split_and!.
      * rewrite Hrun. cbn [length].
        destruct (decide (length str < n)%nat), (decide (S (length str) < S n)%nat); try lia;
          f_equal; f_equal; f_equal; f_equal; lia.
      * rewrite Hm'. cbn [app take].
        assert (zlen (take n (str ++ [0])) <= Z.of_nat n)
          by (unfold zlen; rewrite length_take; lia).
        rewrite zset_splice by lia. apply splice_cons; lia.
      * cbn [length drop Nat.min].
        replace (s + Z.of_nat (S (n `min` length str)))
          with (s + 1 + Z.of_nat (n `min` length str)) by lia. done.
Qed.


(** ** Properties *)

(** [memmove()] copies the source as it was before the call, whatever the
    overlap of source and destination, and changes nothing else. *)
Theorem memmove_correct (m : memory) (dst src len : Z) :
  zlen m <= 2 ^ 63 → 0 <= dst → 0 <= src → 0 <= len →
  dst + len <= zlen m → src + len <= zlen m →
  memmove dst src len m = Ok (dst, splice dst (slice src len m) m).
Proof.
  intros Hm Hd Hs Hl Hdl Hsl. destruct (Z_of_nat_complete len Hl) as [n ->].
  unfold memmove, memcpy. rewrite Nat2Z.id.
  destruct (Z.leb_spec (Z.of_nat n) (u64 (dst - src))) as [Hge|Hlt].
  - erewrite bind_Ok; [reflexivity|].
    apply memcpy_loop_run; try lia. destruct (decide (src <= dst)) as [Hle|Hgt]; [|lia].
    rewrite u64_small in Hge by (unfold UINT64_MAX; lia). lia.
  - assert (src <= dst) as Hle.
    { destruct (decide (src <= dst)) as [|Hgt]; [done|].
      rewrite u64_neg in Hlt by (unfold UINT64_MAX; lia). unfold UINT64_MAX in *. lia. }
    erewrite bind_Ok; [reflexivity|]. by apply memmove_back_run.
Qed.

(** [strlcpy()] on a buffer of [dsize > 0] bytes that does not overlap the
    source returns the length of the source, and leaves in the buffer as much
    of the string as fits, always terminated, changing nothing after it. *)
Theorem strlcpy_correct (str : list Z) (fuel : nat) (m : memory) (dst src dsize : Z) :
  string_at m src str → 0 < dsize → 0 <= dst → dst + dsize <= zlen m →
  (dst + dsize <= src ∨ src + zlen str < dst) → (length str < fuel)%nat →
  strlcpy fuel dst src dsize m =
  Ok (zlen str, splice dst (take (Z.to_nat (dsize - 1)) str ++ [0]) m).
Proof.
  intros Hs Hz Hd Hle Hov Hf. unfold strlcpy. set (n := Z.to_nat (dsize - 1)).
  assert (Z.of_nat n = dsize - 1) as En by lia.
  destruct (strlcpy_copy_run str n dst src m) as (m' & Hrun & Hm' & Hs'); [done|lia..|].
  assert (zlen (take n (str ++ [0])) <= Z.of_nat n)
    by (unfold zlen; rewrite length_take; lia).
  destruct (decide (length str < n)%nat) as [Hlt|Hge].
  - erewrite bind_Ok by done. cbn. rewrite Hm'.
    rewrite take_ge by (rewrite length_app; cbn; lia). rewrite (take_ge str) by lia.
    unfold mret, M_ret. do 2 f_equal. lia.
  - erewrite bind_Ok by done. cbn [snd fst].
    rewrite (proj2 (Z.eqb_neq dsize 0)) by lia. cbn [negb].
    assert (zlen m' = zlen m) as Elen by (rewrite Hm'; apply zlen_splice; lia).
    erewrite bind_Ok by (apply wr_run; lia).
    replace (Nat.min n (length str)) with n in Hs' by lia.
    erewrite bind_Ok.
    2: { eapply (skip_string_run (drop n str)).
         - apply string_at_zset; [done|lia|].
           unfold zlen in *. rewrite length_drop. lia.
         - rewrite length_drop. lia. }
    unfold mret, M_ret. f_equal. f_equal.
    + unfold zlen. rewrite length_drop. lia.
    + rewrite zset_splice by lia. rewrite Hm', take_app_le by lia. symmetry.
      apply splice_app; [done| |change (zlen [0]) with 1; lia].
      unfold zlen. rewrite length_take. lia.
Qed.

(** [rand()] is the Park-Miller generator: from a state in
    [1 .. 2^31 - 2] it moves to [16807 * next mod (2^31 - 1)], which is in
    this range again, with no intermediate value outside an [int], and the
    result lies in [0 .. RAND_MAX]. *)
Theorem rand_park_miller (next : Z) :
  1 <= next <= 2 ^ 31 - 2 →
  (rand next).2 = (16807 * next) mod (2 ^ 31 - 1)
  ∧ 1 <= (rand next).2 <= 2 ^ 31 - 2
  ∧ 0 <= (rand next).1 <= RAND_MAX
  ∧ -2 ^ 31 <= 16807 * (next mod 127773) - 2836 * (next / 127773) < 2 ^ 31.
Proof.
  intros Hn. unfold rand, RAND_MAX. rewrite (proj2 (Z.eqb_neq next 0)) by lia.
  pose proof (Z.div_mod next 127773 ltac:(lia)) as Hdm.
  pose proof (Z.mod_pos_bound next 127773 ltac:(lia)) as Hlo.
  assert (0 <= next / 127773 <= 16807) as Hhi.
  { split; [apply Z.div_pos; lia|].
    assert (next / 127773 < 16808) by (apply Z.div_lt_upper_bound; lia). lia. }
  rewrite !s32_small by lia.
  set (hi := next / 127773) in *. set (lo := next mod 127773) in *.
  set (x := 16807 * lo - 2836 * hi).
  assert (16807 * next = hi * (2 ^ 31 - 1) + x) as Hx by (subst x; lia).
  assert (- (2 ^ 31 - 1) < x < 2 ^ 31 - 1) as Hxb by (subst x; lia).
  assert (x ≠ 0) as Hx0.
  { intros E. rewrite E, Z.add_0_r in Hx.
    assert ((2 ^ 31 - 1 | next)) as Hdiv.
    { apply (Z.gauss _ 16807); [exists hi; lia|]. by vm_compute. }
    apply Z.divide_pos_le in Hdiv; lia. }
  assert ((16807 * next) mod (2 ^ 31 - 1) = if x <? 0 then x + 0x7fffffff else x) as Hmod.
  { rewrite Hx. rewrite Z.add_comm, Z.mod_add by lia.
    destruct (Z.ltb_spec x 0).
    - rewrite <- (Z.mod_small (x + 0x7fffffff) (2 ^ 31 - 1)) by lia.
      replace (x + 0x7fffffff) with (x + 1 * (2 ^ 31 - 1)) by lia. by rewrite Z.mod_add.
    - apply Z.mod_small. lia. }
  rewrite <- Hmod. pose proof (Z.mod_pos_bound (16807 * next) (2 ^ 31 - 1) ltac:(lia)) as Hb.
  assert ((16807 * next) mod (2 ^ 31 - 1) ≠ 0) as Hnz.
  { rewrite Hmod. destruct (Z.ltb_spec x 0); lia. }
  cbn [fst snd]. rewrite u32_small by (unfold UINT32_MAX; lia).
  pose proof (Z.mod_pos_bound ((16807 * next) mod (2 ^ 31 - 1)) (0x7ffffffd + 1) ltac:(lia)).
  split_and!; try lia.
Qed.

(** ** Witnesses *)

(** 16 bytes: the string "abc" at 2, another "abd" at 8. *)
Definition demo_mem : memory := [9; 9; 97; 98; 99; 0; 9; 9; 97; 98; 100; 0; 9; 9; 9; 9].

Lemma demo_string_abc : string_at demo_mem 2 [97; 98; 99].
Proof. split_and!; [lia|reflexivity|repeat constructor; lia]. Qed.

Lemma memmove_correct_witness :
  memmove 4 2 6 demo_mem = Ok (4, [9; 9; 97; 98; 97; 98; 99; 0; 9; 9; 100; 0; 9; 9; 9; 9]).
Proof.
  apply (memmove_correct demo_mem 4 2 6).
  all: unfold zlen; cbn; lia.
Defined.

Lemma strlcpy_correct_witness :
  strlcpy 16 12 2 3 demo_mem =
  Ok (3, [9; 9; 97; 98; 99; 0; 9; 9; 97; 98; 100; 0; 97; 98; 0; 9]).
Proof.
  apply (strlcpy_correct [97; 98; 99] 16 demo_mem 12 2 3).
  - apply demo_string_abc.
  - lia.
  - lia.
  - unfold zlen. cbn. lia.
  - right. unfold zlen. cbn. lia.
  - cbn. lia.
Defined.

Lemma rand_park_miller_witness :
  (rand 1).2 = 16807 ∧ 1 <= (rand 1).2 <= 2 ^ 31 - 2
  ∧ 0 <= (rand 1).1 <= RAND_MAX
  ∧ -2 ^ 31 <= 16807 * (1 mod 127773) - 2836 * (1 / 127773) < 2 ^ 31.
Proof. apply (rand_park_miller 1). lia. Defined.
