(* ===== verification/Printf.v ===== *)
(** * Formatted output (lib/libc/snprintf.c, lib/libc/printf.c)

    Characters are bytes, a format is the list of its characters without the
    terminator, and the variable arguments are a list of 64-bit values and
    strings.  [vsnprintf()] writes into a buffer, [vprintf()] to the console.
    The reference they are compared with first parses the format into
    directives and then renders those. *)

From S2P Require Import Prelude Bytes.

Local Open Scope Z_scope.

(** A 64-bit signed value *)
Definition s64 (x : Z) : Z :=
  let y := u64 x in if y <? 2 ^ 63 then y else y - 2 ^ 64.
#[global] Arguments s64 : simpl never.

(** ** Characters *)

Definition ch_percent : Z := 37.
Definition ch_minus : Z := 45.
Definition ch_space : Z := 32.
Definition ch_0 : Z := 48.
Definition ch_1 : Z := 49.
Definition ch_9 : Z := 57.
Definition ch_a : Z := 97.
Definition ch_d : Z := 100.
Definition ch_i : Z := 105.
Definition ch_l : Z := 108.
Definition ch_p : Z := 112.
Definition ch_s : Z := 115.
Definition ch_u : Z := 117.
Definition ch_x : Z := 120.
Definition ch_z : Z := 122.

Definition is_digit (c : Z) : bool := (ch_0 <=? c) && (c <=? ch_9).

Inductive arg : Set :=
| ANum (v : Z)
| AStr (str : list Z).

(** ** The format specifier

    What the code has read of the specifier after a percent sign. *)
Record flags := {
  l_count : Z;
  left : bool;
  padc : Z;
  padn : Z;
}.

Definition no_flags : flags := {| l_count := 0; left := false; padc := 0; padn := 0 |}.

Inductive mode : Set :=
(** outside a specifier *)
| Text
(** at the label [loop] *)
| Spec (f : flags)
(** in the loop of the cases '1' to '9' *)
| Width (f : flags)
(** in the loop of the case '0' *)
| Zeroes (f : flags).

Inductive conversion : Set :=
| Signed
| Unsigned
| Hex
| Pointer
| String.

Inductive directive : Set :=
| Lit (c : Z)
| Conv (k : conversion) (f : flags).

Inductive spec_result : Set :=
| More (m : mode)
| Got (d : directive)
| Bad.

(** The switch at the label [loop]; [full] is set for [vprintf()], which also
    knows 'p' and 'z'. *)
Definition spec_switch (full : bool) (f : flags) (c : Z) : spec_result :=
  if (ch_1 <=? c) && (c <=? ch_9) then
    More (Width {| l_count := l_count f; left := left f; padc := ch_space;
                   padn := c - ch_0 |})
  else if c =? ch_minus then
    More (Spec {| l_count := l_count f; left := true; padc := padc f; padn := padn f |})
  else if (c =? ch_i) || (c =? ch_d) then Got (Conv Signed f)
  else if c =? ch_l then
    More (Spec {| l_count := l_count f + 1; left := left f; padc := padc f;
                  padn := padn f |})
  else if c =? ch_s then Got (Conv String f)
  else if c =? ch_u then Got (Conv Unsigned f)
  else if c =? ch_x then Got (Conv Hex f)
  else if c =? ch_0 then
    More (Zeroes {| l_count := l_count f; left := left f; padc := ch_0; padn := 0 |})
  else if full && (c =? ch_p) then Got (Conv Pointer f)
  else if full && (c =? ch_z) then
    More (Spec {| l_count := 2; left := left f; padc := padc f; padn := padn f |})
  else Bad.

Definition more_digits (f : flags) (c : Z) : flags :=
  {| l_count := l_count f; left := left f; padc := padc f;
     padn := padn f * 10 + (c - ch_0) |}.

(** The end of the loop of the cases '1' to '9' *)
Definition end_width (f : flags) : flags :=
  {| l_count := l_count f; left := left f; padc := padc f;
     padn := if left f then - padn f else padn f |}.

(** One character of the format in mode [m], which is not [Text]. *)
Definition spec_step (full : bool) (m : mode) (c : Z) : spec_result :=
  match m with
  | Text => Bad
  | Spec f => spec_switch full f c
  | Width f =>
      if is_digit c then More (Width (more_digits f c))
      else spec_switch full (end_width f) c
  | Zeroes f =>
      if is_digit c then More (Zeroes (more_digits f c)) else spec_switch full f c
  end.

(** ** Numbers *)

(** The character of a digit *)
Definition digit_char (rem : Z) : Z := if rem <? 0xa then ch_0 + rem else ch_a + (rem - 0xa).

(** The do-while loop that fills [num_buf], with room for [room] more
    characters; the most significant digit comes first in the result.
    [None] is a write outside [num_buf]. *)
Fixpoint num_loop (room : nat) (unum radix : Z) (acc : list Z) : option (list Z) :=
  match room with
  | O => None
  | S room' =>
      let acc' := digit_char (unum mod radix) :: acc in
      let unum' := unum / radix in
      if 0 <? unum' then num_loop room' unum' radix acc' else Some acc'
  end.

Definition num_chars (unum radix : Z) : option (list Z) := num_loop 20 unum radix [].

(** ** snprintf *)

Record out_state := {
  buf : list Z;
  pos : Z;
  count : Z;
}.

(** The pattern [if (count < n) { *s = c; s++; } count++;] *)
Definition emit (n c : Z) : M out_state unit :=
  st ← get;
  if count st <? n then
    b ← aset (buf st) (pos st) c;
    put {| buf := b; pos := pos st + 1; count := count st + 1 |}
  else put {| buf := buf st; pos := pos st; count := count st + 1 |}.

Fixpoint string_print (n : Z) (str : list Z) : M out_state unit :=
  match str with
  | [] => mret tt
  | c :: str' => emit n c;; string_print n str'
  end.

(** A padding loop that runs [k] times *)
Definition pad_print (n padc : Z) (k : nat) : M out_state unit :=
  string_print n (replicate k padc).

Definition unsigned_num_print (n unum radix padc padn : Z) : M out_state unit :=
  match num_chars unum radix with
  | None => fail OutOfBounds
  | Some num_buf =>
      let width := zlen num_buf in
      (if 0 <? padn then pad_print n padc (Z.to_nat (padn - width)) else mret tt);;
      string_print n num_buf;;
      (if padn <? 0 then pad_print n padc (Z.to_nat (- padn - width)) else mret tt)
  end.

(** [get_num_va_args()] and [get_unum_va_args()] *)
Definition get_num_va_args (v l_count : Z) : Z := if l_count =? 0 then s32 v else s64 v.
Definition get_unum_va_args (v l_count : Z) : Z := if l_count =? 0 then u32 v else u64 v.

(** A conversion of [vsnprintf()]; [num] is an [int] there. *)
Definition conv_print (n : Z) (k : conversion) (f : flags) (a : arg) : M out_state unit :=
  match k, a with
  | Signed, ANum v =>
      let num := s32 (get_num_va_args v (l_count f)) in
      (if num <? 0 then emit n ch_minus else mret tt);;
      unsigned_num_print n (u32 (if num <? 0 then - num else num)) 10 (padc f) (padn f)
  | Unsigned, ANum v =>
      unsigned_num_print n (get_unum_va_args v (l_count f)) 10 (padc f) (padn f)
  | Hex, ANum v =>
      unsigned_num_print n (get_unum_va_args v (l_count f)) 16 (padc f) (padn f)
  | String, AStr str => string_print n str
  | _, _ => fail OutOfBounds
  end.

Fixpoint vsnprintf_loop (n : Z) (m : mode) (fmt : list Z) (args : list arg)
    : M out_state unit :=
  match fmt with
  | [] => match m with Text => mret tt | _ => fail AssertFail end
  | c :: fmt' =>
      match m with
      | Text =>
          if c =? ch_percent then vsnprintf_loop n (Spec no_flags) fmt' args
          else emit n c;; vsnprintf_loop n Text fmt' args
      | _ =>
          match spec_step false m c with
          | More m' => vsnprintf_loop n m' fmt' args
          | Got (Conv k f) =>
              match args with
              | [] => fail OutOfBounds
              | a :: args' => conv_print n k f a;; vsnprintf_loop n Text fmt' args'
              end
          | Got (Lit _) | Bad => fail AssertFail
          end
      end
  end.

(** [vsnprintf(s, n, fmt, args)] on the buffer [s]: the return value and the
    buffer afterwards *)
Definition vsnprintf (s : list Z) (n : Z) (fmt : list Z) (args : list arg)
    : outcome (Z * list Z) :=
  let body (n : Z) (s : list Z) :=
    match vsnprintf_loop n Text fmt args {| buf := s; pos := 0; count := 0 |} with
    | Stop w => Stop w
    | Ok (_, st) =>
        if 0 <? n then
          if in_range (buf st) (pos st)
          then Ok (s32 (count st), zset (buf st) (pos st) 0)
          else Stop OutOfBounds
        else Ok (s32 (count st), buf st)
    end in
  if n =? 0 then body 0 s
  else if n =? 1 then
    (if in_range s 0 then body 0 (zset s 0 0) else Stop OutOfBounds)
  else body (n - 1) s.

Definition snprintf := vsnprintf.

(** ** printf

    The state is what was sent to the console, in order. *)

Definition putchar (c : Z) : M (list Z) unit := modify (λ out, out ++ [c]).

Fixpoint puts_n (str : list Z) : M (list Z) unit :=
  match str with
  | [] => mret tt
  | c :: str' => putchar c;; puts_n str'
  end.

(** [string_print()] of printf.c: it returns the characters it sent *)
Definition string_print_pad (str : list Z) (padc padn : Z) : M (list Z) Z :=
  let i := zlen str in
  let before := if 0 <? padn then Z.to_nat (padn - i) else O in
  let after := if padn <? 0 then Z.to_nat (- padn - i) else O in
  puts_n (replicate before padc);;
  puts_n str;;
  puts_n (replicate after padc);;
  mret (Z.of_nat before + i + Z.of_nat after).

Definition num_print_pad (unum radix padc padn : Z) : M (list Z) Z :=
  match num_chars unum radix with
  | None => fail OutOfBounds
  | Some num_buf => string_print_pad num_buf padc padn
  end.

Definition conv_printf (k : conversion) (f : flags) (a : arg) : M (list Z) Z :=
  match k, a with
  | Signed, ANum v =>
      let num := get_num_va_args v (l_count f) in
      if num <? 0 then
        putchar ch_minus;;
        num_print_pad (u64 (- num)) 10 (padc f) (padn f - 1)
      else num_print_pad (u64 num) 10 (padc f) (padn f)
  | Unsigned, ANum v => num_print_pad (get_unum_va_args v (l_count f)) 10 (padc f) (padn f)
  | Hex, ANum v => num_print_pad (get_unum_va_args v (l_count f)) 16 (padc f) (padn f)
  | Pointer, ANum v =>
      if 0 <? u64 v then
        c1 ← string_print_pad [ch_0; ch_x] (padc f) 0;
        c2 ← num_print_pad (u64 v) 16 (padc f) (padn f - 2);
        mret (c1 + c2)
      else num_print_pad (u64 v) 16 (padc f) (padn f)
  | String, AStr str => string_print_pad str (padc f) (padn f)
  | _, _ => fail OutOfBounds
  end.

Fixpoint vprintf_loop (m : mode) (fmt : list Z) (args : list arg) (count : Z)
    : M (list Z) Z :=
  match fmt with
  | [] => match m with Text => mret count | _ => mret (-1) end
  | c :: fmt' =>
      match m with
      | Text =>
          if c =? ch_percent then vprintf_loop (Spec no_flags) fmt' args count
          else putchar c;; vprintf_loop Text fmt' args (count + 1)
      | _ =>
          match spec_step true m c with
          | More m' => vprintf_loop m' fmt' args count
          | Got (Conv k f) =>
              match args with
              | [] => fail OutOfBounds
              | a :: args' =>
                  k ← conv_printf k f a;
                  vprintf_loop Text fmt' args' (count + k)
              end
          | Got (Lit _) | Bad => mret (-1)
          end
      end
  end.

Definition vprintf (fmt : list Z) (args : list arg) : M (list Z) Z :=
  vprintf_loop Text fmt args 0.

Definition printf := vprintf.

(** ** The reference *)

Fixpoint parse_format (full : bool) (m : mode) (fmt : list Z) : option (list directive) :=
  match fmt with
  | [] => match m with Text => Some [] | _ => None end
  | c :: fmt' =>
      match m with
      | Text =>
          if c =? ch_percent then parse_format full (Spec no_flags) fmt'
          else cons (Lit c) <$> parse_format full Text fmt'
      | _ =>
          match spec_step full m c with
          | More m' => parse_format full m' fmt'
          | Got d => cons d <$> parse_format full Text fmt'
          | Bad => None
          end
      end
  end.

(** Pad [body] to the width [w]: on the left when positive, on the right when
    negative. *)
Definition pad (c w : Z) (body : list Z) : list Z :=
  replicate (Z.to_nat (w - zlen body)) c ++ body ++ replicate (Z.to_nat (- w - zlen body)) c.

(** What [vsnprintf()] would write for one argument with enough room. *)
Definition render_conv (k : conversion) (f : flags) (a : arg) : option (list Z) :=
  match k, a with
  | Signed, ANum v =>
      let num := s32 v in
      body ← num_chars (Z.abs num) 10;
      Some ((if num <? 0 then [ch_minus] else []) ++ pad (padc f) (padn f) body)
  | Unsigned, ANum v =>
      pad (padc f) (padn f) <$> num_chars (get_unum_va_args v (l_count f)) 10
  | Hex, ANum v =>
      pad (padc f) (padn f) <$> num_chars (get_unum_va_args v (l_count f)) 16
  | String, AStr str => Some str
  | _, _ => None
  end.

Fixpoint render (ds : list directive) (args : list arg) : option (list Z) :=
  match ds with
  | [] => Some []
  | Lit c :: ds' => cons c <$> render ds' args
  | Conv k f :: ds' =>
      match args with
      | [] => None
      | a :: args' =>
          x ← render_conv k f a;
          y ← render ds' args';
          Some (x ++ y)
      end
  end.


(** ** Truncated output

    After [out] was sent to a buffer [s0] that keeps [n] characters. *)
Record out_rel (n : Z) (s0 : list Z) (out : list Z) (st : out_state) : Prop := {
  or_count : count st = zlen out;
  or_pos : pos st = Z.min (zlen out) n;
  or_buf : buf st = splice 0 (take (Z.to_nat n) out) s0;
}.

Lemma out_rel_start (n : Z) (s0 : list Z) :
  0 <= n → out_rel n s0 [] {| buf := s0; pos := 0; count := 0 |}.
Proof.
  intros Hn. split; cbn; [done| |by rewrite take_nil, splice_nil].
  change (zlen []) with 0. lia.
Qed.

Lemma zlen_take (n : Z) (l : list Z) : 0 <= n → zlen (take (Z.to_nat n) l) = Z.min n (zlen l).
Proof. intros Hn. unfold zlen. rewrite length_take. lia. Qed.

Lemma emit_run (n c : Z) (s0 out : list Z) (st : out_state) :
  0 <= n <= zlen s0 → out_rel n s0 out st →
  ∃ st', emit n c st = Ok (tt, st') ∧ out_rel n s0 (out ++ [c]) st'.
Proof.
  intros Hn [Ec Ep Eb]. unfold emit, get, put, mbind, M_bind. pose proof (zlen_nonneg out).
  destruct (Z.ltb_spec (count st) n) as [Hlt|Hge].
  - assert (take (Z.to_nat n) out = out) as Et by (apply take_ge; unfold zlen in *; lia).
    assert (zlen (buf st) = zlen s0) as El by (rewrite Eb, Et; apply zlen_splice; lia).
    rewrite aset_Ok by lia. eexists. split; [reflexivity|]. split; cbn.
    + autorewrite with tftf. change (zlen []) with 0. lia.
    + autorewrite with tftf. change (zlen []) with 0. lia.
    + rewrite take_ge by (rewrite length_app; unfold zlen in *; cbn; lia).
      rewrite zset_splice by lia. rewrite Eb, Et, Ep, Z.min_l by lia.
      symmetry. replace (zlen out) with (0 + zlen out) by lia.
      apply splice_app; [lia|done|]. change (zlen [c]) with 1. lia.
  - eexists. split; [reflexivity|]. split; cbn.
    + autorewrite with tftf. change (zlen []) with 0. lia.
    + autorewrite with tftf. change (zlen []) with 0. lia.
    + rewrite take_app_le by (unfold zlen in *; lia). done.
Qed.

Lemma string_print_run (n : Z) (str s0 out : list Z) (st : out_state) :
  0 <= n <= zlen s0 → out_rel n s0 out st →
  ∃ st', string_print n str st = Ok (tt, st') ∧ out_rel n s0 (out ++ str) st'.
Proof.
  intros Hn. revert out st. induction str as [|c str IH]; intros out st Hr; cbn [string_print].
  { exists st. by rewrite app_nil_r. }
  destruct (emit_run n c s0 out st Hn Hr) as (st1 & He & Hr1).
  destruct (IH _ _ Hr1) as (st2 & Hs & Hr2). exists st2.
  rewrite (bind_Ok _ _ _ _ _ He). by rewrite <- app_assoc in Hr2.
Qed.

Lemma unsigned_num_print_run (n unum radix padc padn : Z) (body s0 out : list Z)
    (st : out_state) :
  0 <= n <= zlen s0 → num_chars unum radix = Some body → out_rel n s0 out st →
  ∃ st', unsigned_num_print n unum radix padc padn st = Ok (tt, st')
         ∧ out_rel n s0 (out ++ pad padc padn body) st'.
Proof.
  intros Hn Hb Hr. unfold unsigned_num_print. rewrite Hb. unfold pad_print, pad.
  pose proof (zlen_nonneg body).
  set (k1 := Z.to_nat (padn - zlen body)). set (k2 := Z.to_nat (- padn - zlen body)).
  destruct (string_print_run n (replicate k1 padc) s0 out st Hn Hr) as (st1 & H1 & Hr1).
  destruct (string_print_run n body s0 _ _ Hn Hr1) as (st2 & H2 & Hr2).
  destruct (string_print_run n (replicate k2 padc) s0 _ _ Hn Hr2) as (st3 & H3 & Hr3).
  exists st3. rewrite <- !app_assoc in Hr3. split; [|done].
  rewrite (bind_Ok _ _ st st1 tt).
  2: { destruct (Z.ltb_spec 0 padn); [done|]. subst k1.
       replace (Z.to_nat (padn - zlen body)) with 0%nat in H1 by lia. done. }
  rewrite (bind_Ok _ _ _ _ _ H2).
  destruct (Z.ltb_spec padn 0); [done|]. subst k2.
  replace (Z.to_nat (- padn - zlen body)) with 0%nat in H3 by lia. done.
Qed.

Lemma s32_range (x : Z) : -2147483648 <= s32 x < 2147483648.
Proof.
  unfold s32. pose proof (u32_range x). unfold UINT32_MAX in *.
  destruct (Z.ltb_spec (u32 x) 2147483648); lia.
Qed.

(** Storing a 64-bit value into an [int] keeps its low 32 bits. *)
Lemma s32_get_num (v l : Z) : s32 (get_num_va_args v l) = s32 v.
Proof.
  unfold get_num_va_args. destruct (l =? 0).
  - apply s32_small. pose proof (s32_range v). lia.
  - unfold s64. assert (s32 (u64 v) = s32 v) as E1.
    { unfold s32. assert (u32 (u64 v) = u32 v) as ->; [|done].
      unfold u32, u64, wrap. apply Z.mod_mod_divide. by exists (2 ^ 32). }
    destruct (_ <? _); [done|]. rewrite <- E1. unfold s32.
    assert (u32 (u64 v - 2 ^ 64) = u32 (u64 v)) as ->; [|done].
    unfold u32, wrap. replace (u64 v - 2 ^ 64) with (u64 v + (- 2 ^ 32) * 2 ^ 32) by lia.
    by rewrite Z.mod_add.
Qed.

Lemma conv_print_run (n : Z) (k : conversion) (f : flags) (a : arg) (x s0 out : list Z)
    (st : out_state) :
  0 <= n <= zlen s0 → render_conv k f a = Some x → out_rel n s0 out st →
  ∃ st', conv_print n k f a st = Ok (tt, st') ∧ out_rel n s0 (out ++ x) st'.
Proof.
  intros Hn Hx Hr. destruct k, a as [v|str]; cbn [render_conv conv_print] in *; try done.
  - destruct (num_chars (Z.abs (s32 v)) 10) as [body|] eqn:Eb; [|done].
    cbn in Hx. injection Hx as <-. rewrite s32_get_num. pose proof (s32_range v).
    assert (u32 (if s32 v <? 0 then - s32 v else s32 v) = Z.abs (s32 v)) as ->.
    { destruct (Z.ltb_spec (s32 v) 0); rewrite u32_small; unfold UINT32_MAX; lia. }
    destruct (s32 v <? 0).
    + destruct (emit_run n ch_minus s0 out st Hn Hr) as (st1 & H1 & Hr1).
      rewrite (bind_Ok _ _ _ _ _ H1).
      destruct (unsigned_num_print_run n _ 10 (padc f) (padn f) body s0 _ st1 Hn Eb Hr1)
        as (st2 & H2 & Hr2). exists st2. by rewrite <- app_assoc in Hr2.
    + rewrite (bind_Ok _ _ st st tt) by done. cbn [app].
      by apply (unsigned_num_print_run n _ 10 (padc f) (padn f) body).
  - destruct (num_chars _ 10) as [body|] eqn:Eb; [|done]. cbn in Hx. injection Hx as <-.
    by apply (unsigned_num_print_run n _ 10 (padc f) (padn f) body).
  - destruct (num_chars _ 16) as [body|] eqn:Eb; [|done]. cbn in Hx. injection Hx as <-.
    by apply (unsigned_num_print_run n _ 16 (padc f) (padn f) body).
  - injection Hx as <-. by apply string_print_run.
Qed.

Lemma vsnprintf_loop_run (n : Z) (fmt s0 : list Z) (m : mode) (args : list arg)
    (ds : list directive) (x out : list Z) (st : out_state) :
  0 <= n <= zlen s0 → parse_format false m fmt = Some ds → render ds args = Some x →
  out_rel n s0 out st →
  ∃ st', vsnprintf_loop n m fmt args st = Ok (tt, st') ∧ out_rel n s0 (out ++ x) st'.
Proof.
  intros Hn. revert m args ds x out st.
  induction fmt as [|c fmt IH]; intros m args ds x out st Hp Hx Hr; cbn in Hp.
  { destruct m; simplify_eq. cbn in Hx. simplify_eq. exists st. by rewrite app_nil_r. }
  assert (∀ m', m' ≠ Text → spec_step false m' c ≠ Bad →
    match spec_step false m' c with
    | More m'' => parse_format false m'' fmt
    | Got d => cons d <$> parse_format false Text fmt
    | Bad => None end = Some ds → m = m' →
    ∃ st', vsnprintf_loop n m (c :: fmt) args st = Ok (tt, st')
           ∧ out_rel n s0 (out ++ x) st') as Hspec.
  { intros m' Hm Hb Hd ->.
    assert (vsnprintf_loop n m' (c :: fmt) args = match spec_step false m' c with
      | More m' => vsnprintf_loop n m' fmt args
      | Got (Conv k f) =>
          match args with
          | [] => fail OutOfBounds
          | a :: args' => conv_print n k f a;; vsnprintf_loop n Text fmt args'
          end
      | Got (Lit _) | Bad => fail AssertFail
      end) as -> by (by destruct m').
    destruct (spec_step false m' c) as [m''|d|] eqn:Es; [by eapply IH| |done].
    destruct (parse_format false Text fmt) as [ds'|] eqn:Ep; [|done].
    cbn in Hd. injection Hd as <-.
    destruct d as [ch|k f].
    { exfalso. clear -Es. assert (∀ f, spec_switch false f c ≠ Got (Lit ch)) as Hno
        by (intros f; unfold spec_switch; repeat case_match; done).
      destruct m' as [|f|f|f]; cbn in Es; try case_match; try done;
        by (eapply Hno in Es). }
    cbn [render] in Hx. destruct args as [|a args']; [done|].
    destruct (render_conv k f a) as [x1|] eqn:E1; [|done]. cbn in Hx.
    destruct (render ds' args') as [x2|] eqn:E2; [|done]. cbn in Hx. injection Hx as <-.
    destruct (conv_print_run n k f a x1 s0 out st Hn E1 Hr) as (st1 & H1 & Hr1).
    rewrite (bind_Ok _ _ _ _ _ H1).
    destruct (IH Text args' ds' x2 _ st1 Ep E2 Hr1) as (st2 & H2 & Hr2).
    exists st2. by rewrite <- app_assoc in Hr2. }
  destruct m as [|f|f|f].
  - cbn [vsnprintf_loop]. destruct (c =? ch_percent); [by eapply IH|].
    destruct (parse_format false Text fmt) as [ds'|] eqn:Ep; [|done].
    cbn in Hp. injection Hp as <-. cbn [render] in Hx.
    destruct (render ds' args) as [x2|] eqn:E2; [|done]. cbn in Hx. injection Hx as <-.
    destruct (emit_run n c s0 out st Hn Hr) as (st1 & H1 & Hr1).
    rewrite (bind_Ok _ _ _ _ _ H1).
    destruct (IH Text args ds' x2 _ st1 Ep E2 Hr1) as (st2 & H2 & Hr2).
    exists st2. by rewrite <- app_assoc in Hr2.
  - apply (Hspec (Spec f)); [done| |done|done]. by intros E; rewrite E in Hp.
  - apply (Hspec (Width f)); [done| |done|done]. by intros E; rewrite E in Hp.
  - apply (Hspec (Zeroes f)); [done| |done|done]. by intros E; rewrite E in Hp.
Qed.


(** ** Numbers and their digits *)

(** The value of a digit character, and of a number written in [radix]. *)
Definition digit_val (c : Z) : Z := if c <? ch_a then c - ch_0 else c - ch_a + 0xa.
Definition num_value (radix : Z) (cs : list Z) : Z :=
  foldl (λ v c, v * radix + digit_val c) 0 cs.

Lemma digit_val_char (r : Z) : 0 <= r < 16 → digit_val (digit_char r) = r.
Proof.
  intros Hr. unfold digit_val, digit_char, ch_0, ch_a.
  destruct (Z.ltb_spec r 0xa); case_Z; lia.
Qed.

Lemma num_loop_spec (room : nat) (unum radix : Z) (acc : list Z) :
  2 <= radix <= 16 → (0 < room)%nat → 0 <= unum < radix ^ Z.of_nat room →
  ∃ cs, num_loop room unum radix acc = Some (cs ++ acc)
    ∧ num_value radix cs = unum ∧ cs ≠ []
    ∧ (unum ≠ 0 → head cs ≠ Some ch_0)
    ∧ Forall (λ c, 0 <= digit_val c < radix ∧ digit_char (digit_val c) = c) cs.
Proof.
  intros Hr. revert unum acc. induction room as [|room IH]; intros unum acc Hpos Hu; [lia|].
  cbn [num_loop].
  pose proof (Z.mod_pos_bound unum radix ltac:(lia)) as Hm.
  pose proof (Z.div_mod unum radix ltac:(lia)) as Hdm.
  assert (digit_val (digit_char (unum mod radix)) = unum mod radix) as Hdv
    by (apply digit_val_char; lia).
  assert (0 <= unum / radix) by (apply Z.div_pos; lia).
  destruct (Z.ltb_spec 0 (unum / radix)) as [Hq|Hq].
  - destruct (IH (unum / radix) (digit_char (unum mod radix) :: acc))
      as (cs & Hrun & Hval & Hne & Hlead & Hall).
    { destruct room; [|lia]. change (Z.of_nat 1) with 1 in Hu. rewrite Z.pow_1_r in Hu.
      rewrite Z.div_small in Hq by lia. lia. }
    { split; [done|]. apply Z.div_lt_upper_bound; [lia|].
      rewrite Nat2Z.inj_succ, Z.pow_succ_r in Hu by lia. lia. }
    exists (cs ++ [digit_char (unum mod radix)]). split_and!.
    + by rewrite Hrun, <- app_assoc.
    + unfold num_value in *. rewrite foldl_app. cbn. rewrite Hval, Hdv. lia.
    + by destruct cs.
    + intros _. destruct cs as [|c cs]; [done|]. apply Hlead. lia.
    + apply Forall_app. split; [done|]. constructor; [|constructor]. rewrite Hdv.
      split; [lia|done].
  - assert (unum / radix = 0) as E by lia. rewrite E in Hdm.
    exists [digit_char (unum mod radix)]. split_and!; [done| |done| |].
    + unfold num_value. cbn. rewrite Hdv. lia.
    + intros Hnz [= Hc]. rewrite Hc in Hdv. change (digit_val ch_0) with 0 in Hdv. lia.
    + constructor; [|constructor]. rewrite Hdv. split; [lia|done].
Qed.

Lemma num_chars_spec (unum radix : Z) :
  radix = 10 ∨ radix = 16 → 0 <= unum < 2 ^ 64 →
  ∃ cs, num_chars unum radix = Some cs ∧ num_value radix cs = unum ∧ cs ≠ []
    ∧ (unum ≠ 0 → head cs ≠ Some ch_0)
    ∧ Forall (λ c, 0 <= digit_val c < radix ∧ digit_char (digit_val c) = c) cs.
Proof.
  intros Hr Hu. destruct (num_loop_spec 20 unum radix []) as (cs & Hrun & Hrest).
  - lia.
  - lia.
  - destruct Hr as [-> | ->]; lia.
  - exists cs. rewrite app_nil_r in Hrun. done.
Qed.

(** ** Properties *)

(** The loop's invariant at the end of the format *)
Lemma vsnprintf_run (s : list Z) (n : Z) (fmt : list Z) (args : list arg)
    (ds : list directive) (out : list Z) :
  parse_format false Text fmt = Some ds → render ds args = Some out →
  0 <= n <= zlen s → zlen out < 2 ^ 31 →
  vsnprintf s n fmt args =
  Ok (zlen out, if n =? 0 then s else splice 0 (take (Z.to_nat (n - 1)) out ++ [0]) s).
Proof.
  intros Hp Hx Hn Hlen. pose proof (zlen_nonneg out). unfold vsnprintf.
  destruct (Z.eqb_spec n 0) as [->|Hn0]; [|destruct (Z.eqb_spec n 1) as [->|Hn1]].
  - destruct (vsnprintf_loop_run 0 fmt s Text args ds out [] _ ltac:(lia) Hp Hx
      (out_rel_start 0 s ltac:(lia))) as (st & Hrun & [Ec Ep Eb]).
    rewrite Hrun. cbn. cbn in Ec, Eb. rewrite Ec, Eb, s32_small by lia.
    by rewrite splice_nil.
  - unfold in_range. rewrite (proj2 (Z.ltb_lt 0 (zlen s))) by lia. cbn.
    destruct (vsnprintf_loop_run 0 fmt (zset s 0 0) Text args ds out [] _
      ltac:(rewrite zlen_zset; lia) Hp Hx (out_rel_start 0 (zset s 0 0) ltac:(lia)))
      as (st & Hrun & [Ec Ep Eb]).
    rewrite Hrun. cbn in Ec, Eb. rewrite Ec, Eb, s32_small, splice_nil by lia.
    by rewrite zset_splice by lia.
  - destruct (vsnprintf_loop_run (n - 1) fmt s Text args ds out [] _ ltac:(lia) Hp Hx
      (out_rel_start (n - 1) s ltac:(lia))) as (st & Hrun & [Ec Ep Eb]).
    rewrite Hrun, (proj2 (Z.ltb_lt 0 (n - 1))) by lia. cbn [app] in *.
    set (t := take (Z.to_nat (n - 1)) out) in *.
    assert (zlen t = Z.min (n - 1) (zlen out)) as Ht by (apply zlen_take; lia).
    assert (zlen (buf st) = zlen s) as El by (rewrite Eb; apply zlen_splice; lia).
    unfold in_range. rewrite (proj2 (Z.leb_le 0 (pos st))), (proj2 (Z.ltb_lt (pos st) _)) by lia.
    cbn [andb]. rewrite Ec, s32_small by lia. do 2 f_equal.
    rewrite zset_splice, Eb by lia. symmetry.
    replace (pos st) with (0 + zlen t) by lia.
    apply splice_app; [lia|done|]. change (zlen [0]) with 1. lia.
Qed.


(** every 64-bit number fits the 20 characters of [num_buf] in decimal and
    in hexadecimal, and the characters printed are its digits: they spell the
    number, without a leading zero unless it is 0. *)
Theorem number_digits_roundtrip (unum radix : Z) :
  radix = 10 ∨ radix = 16 → 0 <= unum < 2 ^ 64 →
  ∃ cs, num_chars unum radix = Some cs ∧ num_value radix cs = unum
    ∧ (unum ≠ 0 → head cs ≠ Some ch_0)
    ∧ Forall (λ c, 0 <= digit_val c < radix ∧ digit_char (digit_val c) = c) cs.
Proof.
  intros Hr Hu. destruct (num_chars_spec unum radix Hr Hu) as (cs & ? & ? & _ & ? & ?).
  eauto.
Qed.

(** The formats "%d", "%-5d" and "%ld". *)
Definition fmt_d : list Z := [ch_percent; ch_d].
Definition fmt_left5d : list Z := [ch_percent; ch_minus; 53; ch_d].
Definition fmt_ld : list Z := [ch_percent; ch_l; ch_d].

(** three deviations from the documented output: [printf("%d", -3)] sends
    two characters and returns 1 (the sign is not counted);
    [printf("%-5d", -3)] sends seven characters instead of five (the
    adjustment for the sign widens a left-justified field); and
    [snprintf("%ld", 2^32 + 1)] writes "1" (the value goes through an
    [int]). *)
Theorem printf_deviations :
  printf fmt_d [ANum (-3)] [] = Ok (1, [ch_minus; 51])
  ∧ printf fmt_left5d [ANum (-3)] [] =
      Ok (6, [ch_minus; 51; ch_space; ch_space; ch_space; ch_space; ch_space])
  ∧ snprintf (replicate 8 7) 8 fmt_ld [ANum (2 ^ 32 + 1)] = Ok (1, [49; 0; 7; 7; 7; 7; 7; 7]).
Proof. vm_compute. done. Qed.

(** The format "x=%5d|%s" with -42 and "hello". *)
Definition demo_fmt : list Z := [120; 61; ch_percent; 53; ch_d; 124; ch_percent; ch_s].
Definition demo_args : list arg := [ANum (-42); AStr [104; 101; 108; 108; 111]].
Definition demo_out : list Z := [120; 61; 45; 32; 32; 32; 52; 50; 124; 104; 101; 108; 108; 111].


Lemma number_digits_roundtrip_witness :
  ∃ cs, num_chars (2 ^ 64 - 1) 10 = Some cs ∧ num_value 10 cs = 2 ^ 64 - 1
    ∧ (2 ^ 64 - 1 ≠ 0 → head cs ≠ Some ch_0)
    ∧ Forall (λ c, 0 <= digit_val c < 10 ∧ digit_char (digit_val c) = c) cs.
Proof.
  apply (number_digits_roundtrip (2 ^ 64 - 1) 10).
  - left. reflexivity.
  - lia.
Defined.
