(* ===== verification/Nvm.v ===== *)
(** * The test session's state in non-volatile memory

    [tftf_nvm_read()] and [tftf_nvm_write()] (plat/common/tftf_nvm_accessors.c)
    are an interface, [NvmStore], which the helpers of
    tftf/framework/nvm_results_helpers.c use; the DRAM-backed build
    (USE_NVM = 0) is an instance.  The layout of [tftf_state_t]
    (tftf/framework/include/nvm.h) is that of AArch64. *)

From S2P Require Import Prelude Bytes Printf.

Local Open Scope Z_scope.

Definition STATUS_SUCCESS : Z := 0.
Definition STATUS_OUT_OF_RESOURCES : Z := 3.
Definition STATUS_FAIL : Z := 0xD.

(** ** The interface to the store

    [nvm_bytes] is the content of the NVM area, [nvm_write] and [nvm_read] are
    the two accessors; a read also returns the bytes it stored in the
    caller's buffer. *)
Class NvmStore (T : Type) := {
  nvm_bytes : T → list Z;
  nvm_ok : T → Prop;
  nvm_write : Z → list Z → M T Z;
  nvm_read : Z → Z → M T (Z * list Z);
  nvm_write_ok t off d :
    nvm_ok t → 0 <= off → off + zlen d <= zlen (nvm_bytes t) →
    ∃ t', nvm_write off d t = Ok (STATUS_SUCCESS, t')
          ∧ nvm_bytes t' = splice off d (nvm_bytes t) ∧ nvm_ok t';
  nvm_write_full t off d :
    nvm_ok t → 0 <= off → off + zlen d < 2 ^ 64 → zlen (nvm_bytes t) < off + zlen d →
    nvm_write off d t = Ok (STATUS_OUT_OF_RESOURCES, t);
  nvm_read_ok t off n :
    nvm_ok t → 0 <= off → 0 <= n → off + n <= zlen (nvm_bytes t) →
    ∃ t', nvm_read off n t = Ok ((STATUS_SUCCESS, slice off n (nvm_bytes t)), t')
          ∧ nvm_bytes t' = nvm_bytes t ∧ nvm_ok t';
}.

(** ** The store in DRAM (USE_NVM = 0)

    The content of memory from [DRAM_BASE + TFTF_NVM_OFFSET] on; its length
    is [TFTF_NVM_SIZE]. *)

Record dram_nvm := { dram : list Z }.

Definition tftf_nvm_write (offset : Z) (buffer : list Z) : M dram_nvm Z :=
  s ← get;
  if zlen (dram s) <? u64 (offset + zlen buffer) then mret STATUS_OUT_OF_RESOURCES
  else
    put {| dram := splice offset buffer (dram s) |};;
    mret STATUS_SUCCESS.

(** A refused read leaves the caller's buffer as it is: no bytes. *)
Definition tftf_nvm_read (offset size : Z) : M dram_nvm (Z * list Z) :=
  s ← get;
  if zlen (dram s) <? u64 (offset + size) then mret (STATUS_OUT_OF_RESOURCES, [])
  else mret (STATUS_SUCCESS, slice offset size (dram s)).

#[export, refine] Instance dram_store : NvmStore dram_nvm := {|
  nvm_bytes := dram;
  nvm_ok s := zlen (dram s) < 2 ^ 64;
  nvm_write := tftf_nvm_write;
  nvm_read := tftf_nvm_read;
|}.
Proof.
  - intros t off d Hok Ho Hle. unfold tftf_nvm_write, get, put, mbind, M_bind.
    pose proof (zlen_nonneg d).
    rewrite u64_small by (unfold UINT64_MAX; lia). rewrite (proj2 (Z.ltb_ge _ _)) by lia.
    eexists. split; [reflexivity|]. cbn. by rewrite zlen_splice by lia.
  - intros t off d Hok Ho Hlt Hfull. unfold tftf_nvm_write, get, mbind, M_bind.
    pose proof (zlen_nonneg d).
    rewrite u64_small by (unfold UINT64_MAX; lia). by rewrite (proj2 (Z.ltb_lt _ _)) by lia.
  - intros t off n Hok Ho Hn Hle. unfold tftf_nvm_read, get, mbind, M_bind.
    rewrite u64_small by (unfold UINT64_MAX; lia). rewrite (proj2 (Z.ltb_ge _ _)) by lia.
    eexists. by split.
Defined.

(** ** The layout of tftf_state_t *)

Definition BUILD_MESSAGE_SIZE : Z := 0x20.
Definition TEST_BUFFER_SIZE : Z := 0x80.
Definition TESTCASE_OUTPUT_MAX_SIZE : Z := 1024.
Definition sizeof_TESTCASE_RESULT : Z := 24.

Inductive test_progress_t : Set :=
| TEST_READY
| TEST_IN_PROGRESS
| TEST_COMPLETE
| TEST_REBOOTING.

#[export] Instance progress_eq_dec : EqDecision test_progress_t.
Proof. solve_decision. Defined.

Definition progress_code (p : test_progress_t) : Z :=
  match p with
  | TEST_READY => 0 | TEST_IN_PROGRESS => 1 | TEST_COMPLETE => 2 | TEST_REBOOTING => 3
  end.
(** [TEST_PROGRESS_IS_VALID()] and the value it stands for *)
Definition progress_of_code (c : Z) : option test_progress_t :=
  if c =? 0 then Some TEST_READY
  else if c =? 1 then Some TEST_IN_PROGRESS
  else if c =? 2 then Some TEST_COMPLETE
  else if c =? 3 then Some TEST_REBOOTING
  else None.

(** [test_result_t]; the enumeration is a signed [int] *)
Definition TEST_RESULT_NA : Z := -1.
Definition TEST_RESULT_SKIPPED : Z := 0.
Definition TEST_RESULT_SUCCESS : Z := 1.
Definition TEST_RESULT_FAIL : Z := 2.
Definition TEST_RESULT_CRASHED : Z := 3.
Definition TEST_RESULT_IS_VALID (r : Z) : bool := (0 <=? r) && (r <? 4).

Record test_ref_t := { testsuite_idx : Z; testcase_idx : Z }.

Record TESTCASE_RESULT := {
  result : Z;
  duration : Z;
  output_offset : Z;
  output_size : Z;
}.

(** The bytes of the structures; padding bytes are zero. *)
Definition ref_bytes (r : test_ref_t) : list Z :=
  le_bytes 4 (testsuite_idx r) ++ le_bytes 4 (testcase_idx r).
Definition ref_of_bytes (b : list Z) : test_ref_t :=
  {| testsuite_idx := le_value (slice 0 4 b); testcase_idx := le_value (slice 4 4 b) |}.

Definition result_bytes (r : TESTCASE_RESULT) : list Z :=
  le_bytes 4 (result r) ++ le_bytes 4 0 ++ le_bytes 8 (duration r)
    ++ le_bytes 4 (output_offset r) ++ le_bytes 4 (output_size r).
Definition result_of_bytes (b : list Z) : TESTCASE_RESULT :=
  {| result := s32 (le_value (slice 0 4 b)); duration := le_value (slice 8 8 b);
     output_offset := le_value (slice 16 4 b); output_size := le_value (slice 20 4 b) |}.

Section Helpers.

Context {T : Type} `{NvmStore T}.

(** [TESTCASE_RESULT_COUNT] of the generated tests_list.h, and the build
    message of this binary, terminator included *)
Context (TESTCASE_RESULT_COUNT : Z).
Context (build_message : list Z).

(** [TFTF_STATE_OFFSET(field)] *)
Definition off_build_message : Z := 0.
Definition off_test_to_run : Z := 32.
Definition off_test_progress : Z := 40.
Definition off_testcase_buffer : Z := 44.
Definition off_testcase_results : Z := 176.
Definition off_result_buffer_size : Z :=
  off_testcase_results + sizeof_TESTCASE_RESULT * TESTCASE_RESULT_COUNT.
Definition off_result_buffer : Z := off_result_buffer_size + 8.
Definition sizeof_tftf_state : Z := off_result_buffer + 8.

(** The store, and the output of the current test *)
Record nvm_env := {
  store : T;
  testcase_output : list Z;
  testcase_output_idx : Z;
  testcase_output_lock : bool;
}.

Definition with_store (s : nvm_env) (t : T) : nvm_env :=
  {| store := t; testcase_output := testcase_output s;
     testcase_output_idx := testcase_output_idx s;
     testcase_output_lock := testcase_output_lock s |}.

Definition lift_store {A} (m : M T A) : M nvm_env A := λ s,
  match m (store s) with
  | Ok (a, t) => Ok (a, with_store s t)
  | Stop w => Stop w
  end.

Definition env_write (off : Z) (d : list Z) : M nvm_env Z := lift_store (nvm_write off d).
Definition env_read (off n : Z) : M nvm_env (Z * list Z) := lift_store (nvm_read off n).

(** [strncpy(dst, src, n)] as the bytes it leaves in [dst] *)
Fixpoint strncpy_bytes (n : nat) (src : list Z) : list Z :=
  match n with
  | O => []
  | S n' =>
      match src with
      | [] => 0 :: strncpy_bytes n' []
      | c :: src' => if c =? 0 then replicate n 0 else c :: strncpy_bytes n' src'
      end
  end.

(** [strncmp(a, b, n) == 0] *)
Fixpoint strncmp_eq (n : nat) (a b : list Z) : bool :=
  match n with
  | O => true
  | S n' =>
      let x := hd 0 a in
      let y := hd 0 b in
      (x =? y) && ((x =? 0) || strncmp_eq n' (tl a) (tl b))
  end.

(** [tftf_init_state] once the build message is copied in: every other field
    is zero, but for the result of test 0, which is NA *)
Definition init_state_bytes : list Z :=
  strncpy_bytes (Z.to_nat BUILD_MESSAGE_SIZE) build_message
    ++ ref_bytes {| testsuite_idx := 0; testcase_idx := 0 |}
    ++ le_bytes 4 (progress_code TEST_READY)
    ++ replicate (Z.to_nat (off_testcase_results - off_testcase_buffer)) 0
    ++ (if 0 <? TESTCASE_RESULT_COUNT
        then result_bytes {| result := TEST_RESULT_NA; duration := 0;
                             output_offset := 0; output_size := 0 |}
             ++ replicate (Z.to_nat (sizeof_TESTCASE_RESULT * (TESTCASE_RESULT_COUNT - 1))) 0
        else [])
    ++ replicate 16 0.

(** With NEW_TEST_SESSION = 0 *)
Definition new_test_session : M nvm_env bool :=
  r ← env_read off_build_message BUILD_MESSAGE_SIZE;
  mret (negb (strncmp_eq (Z.to_nat BUILD_MESSAGE_SIZE) build_message r.2)).

Definition tftf_init_nvm : M nvm_env Z := env_write 0 init_state_bytes.

Definition tftf_clean_nvm : M nvm_env Z := env_write off_build_message [0].

Definition tftf_set_test_to_run (r : test_ref_t) : M nvm_env Z :=
  env_write off_test_to_run (ref_bytes r).

Definition tftf_get_test_to_run : M nvm_env (Z * test_ref_t) :=
  r ← env_read off_test_to_run 8; mret (r.1, ref_of_bytes r.2).

Definition tftf_set_test_progress (p : test_progress_t) : M nvm_env Z :=
  env_write off_test_progress (le_bytes 4 (progress_code p)).

Definition tftf_get_test_progress : M nvm_env (Z * Z) :=
  r ← env_read off_test_progress 4; mret (r.1, le_value r.2).

(** The length of the string in the output buffer *)
Fixpoint string_length (l : list Z) : Z :=
  match l with
  | [] => 0
  | c :: l' => if c =? 0 then 0 else 1 + string_length l'
  end.

(** The label [reset_test_output] *)
Definition reset_test_output : M nvm_env unit :=
  modify (λ s, {| store := store s; testcase_output := zset (testcase_output s) 0 0;
                  testcase_output_idx := 0;
                  testcase_output_lock := testcase_output_lock s |}).

(** The part of [tftf_testcase_set_result()] that saves the output: the
    status, and the offset it was saved at *)
Definition save_output (size : Z) : M nvm_env (Z * Z) :=
  r ← env_read off_result_buffer_size 4;
  if negb (r.1 =? STATUS_SUCCESS) then mret (r.1, 0)
  else
    let result_buffer_size := le_value r.2 in
    s ← get;
    st ← env_write (off_result_buffer + result_buffer_size)
           (take (Z.to_nat (size + 1)) (testcase_output s));
    if negb (st =? STATUS_SUCCESS) then mret (st, result_buffer_size)
    else
      st ← env_write off_result_buffer_size
             (le_bytes 4 (u32 (result_buffer_size + size + 1)));
      mret (st, result_buffer_size).

(** [index] is the index of the test case. *)
Definition tftf_testcase_set_result (index res dur : Z) : M nvm_env Z :=
  s ← get;
  let size := string_length (testcase_output s) in
  o ← (if negb (size =? 0) then save_output size else mret (STATUS_SUCCESS, 0));
  st ← (if negb (o.1 =? STATUS_SUCCESS) then mret o.1
        else env_write (off_testcase_results + index * sizeof_TESTCASE_RESULT)
               (result_bytes {| result := res; duration := dur; output_offset := o.2;
                                output_size := size |}));
  reset_test_output;;
  mret st.

(** The result and the output string (without its terminator) *)
Definition tftf_testcase_get_result (index : Z) : M nvm_env (Z * TESTCASE_RESULT * list Z) :=
  r ← env_read (off_testcase_results + index * sizeof_TESTCASE_RESULT)
        sizeof_TESTCASE_RESULT;
  let res := result_of_bytes r.2 in
  if negb (r.1 =? STATUS_SUCCESS) then mret (r.1, res, [])
  else if negb (output_size res =? 0) then
    o ← env_read (off_result_buffer + output_offset res) (output_size res);
    if negb (o.1 =? STATUS_SUCCESS) then mret (o.1, res, [])
    else mret (STATUS_SUCCESS, res, o.2)
  else mret (STATUS_SUCCESS, res, []).

Definition output_spin_lock : M nvm_env unit := λ s,
  if testcase_output_lock s then Stop FuelOut
  else Ok (tt, {| store := store s; testcase_output := testcase_output s;
                  testcase_output_idx := testcase_output_idx s;
                  testcase_output_lock := true |}).
Definition output_spin_unlock : M nvm_env unit :=
  modify (λ s, {| store := store s; testcase_output := testcase_output s;
                  testcase_output_idx := testcase_output_idx s;
                  testcase_output_lock := false |}).

Definition tftf_testcase_printf (fmt : list Z) (args : list arg) : M nvm_env Z :=
  output_spin_lock;;
  s ← get;
  assert_ (testcase_output_idx s <=? zlen (testcase_output s));;
  let idx := testcase_output_idx s in
  let available := zlen (testcase_output s) - idx in
  if available =? 0 then output_spin_unlock;; mret (-1)
  else
    match vsnprintf (drop (Z.to_nat idx) (testcase_output s)) available fmt args with
    | Stop w => fail w
    | Ok (written, b) =>
        modify (λ s, {| store := store s;
                        testcase_output := take (Z.to_nat idx) (testcase_output s) ++ b;
                        testcase_output_idx := testcase_output_idx s;
                        testcase_output_lock := testcase_output_lock s |});;
        if written <? 0 then output_spin_unlock;; mret written
        else
          let written := if available <=? written then available - 1 else written in
          modify (λ s, {| store := store s; testcase_output := testcase_output s;
                          testcase_output_idx := u32 (testcase_output_idx s + written);
                          testcase_output_lock := testcase_output_lock s |});;
          output_spin_unlock;;
          mret written
    end.

(** In a debug build *)
Definition tftf_notify_reboot : M nvm_env unit :=
  p ← tftf_get_test_progress;
  assert_ (p.2 =? progress_code TEST_IN_PROGRESS);;
  tftf_set_test_progress TEST_REBOOTING;;
  mret tt.


(** ** Structures and their bytes *)

Lemma zlen_le_bytes (n : nat) (v : Z) : zlen (le_bytes n v) = Z.of_nat n.
Proof. unfold zlen. by rewrite length_le_bytes. Qed.

Lemma ref_roundtrip (r : test_ref_t) :
  0 <= testsuite_idx r < 2 ^ 32 → 0 <= testcase_idx r < 2 ^ 32 →
  ref_of_bytes (ref_bytes r) = r.
Proof.
  intros H1 H2. unfold ref_of_bytes, ref_bytes.
  rewrite slice_app_l by (by rewrite zlen_le_bytes).
  rewrite slice_app_r by (rewrite zlen_le_bytes; lia). rewrite zlen_le_bytes.
  rewrite slice_all by (by rewrite zlen_le_bytes).
  rewrite !le_roundtrip by (cbn; lia). by destruct r.
Qed.

Definition result_fits (r : TESTCASE_RESULT) : Prop :=
  -2147483648 <= result r < 2147483648 ∧ 0 <= duration r < 2 ^ 64
  ∧ 0 <= output_offset r < 2 ^ 32 ∧ 0 <= output_size r < 2 ^ 32.

Lemma s32_wrap (x : Z) : -2147483648 <= x < 2147483648 → s32 (x mod 2 ^ 32) = x.
Proof.
  intros Hx. rewrite <- (s32_small x) at 2 by done. unfold s32, u32, wrap.
  by rewrite Z.mod_mod by lia.
Qed.

Lemma result_roundtrip (r : TESTCASE_RESULT) :
  result_fits r → result_of_bytes (result_bytes r) = r.
Proof.
  intros (H1 & H2 & H3 & H4).
  assert (result_of_bytes (result_bytes r) =
    {| result := s32 (le_value (le_bytes 4 (result r)));
       duration := le_value (le_bytes 8 (duration r));
       output_offset := le_value (le_bytes 4 (output_offset r));
       output_size := le_value (le_bytes 4 (output_size r)) |}) as -> by reflexivity.
  rewrite le_value_bytes, s32_wrap by done. rewrite !le_roundtrip by (cbn; lia).
  by destruct r.
Qed.

Lemma zlen_result_bytes (r : TESTCASE_RESULT) : zlen (result_bytes r) = 24.
Proof. done. Qed.

Lemma progress_roundtrip (p : test_progress_t) :
  progress_of_code (le_value (le_bytes 4 (progress_code p))) = Some p.
Proof. by destruct p. Qed.

(** ** The results in the store *)

Abbreviation bytes s := (nvm_bytes (store s)).

(** The size of the buffer of outputs, the record of test [i] and its output *)
Definition buffer_size (b : list Z) : Z := le_value (slice off_result_buffer_size 4 b).
Definition record_at (b : list Z) (i : Z) : TESTCASE_RESULT :=
  result_of_bytes (slice (off_testcase_results + i * sizeof_TESTCASE_RESULT)
                     sizeof_TESTCASE_RESULT b).
Definition output_at (b : list Z) (i : Z) : list Z :=
  if output_size (record_at b i) =? 0 then []
  else slice (off_result_buffer + output_offset (record_at b i))
         (output_size (record_at b i)) b.

(** The saved outputs lie inside the part of the buffer that is in use. *)
Record results_ok (b : list Z) : Prop := {
  ro_count : 0 < TESTCASE_RESULT_COUNT;
  ro_size : 0 <= buffer_size b ∧ off_result_buffer + buffer_size b <= zlen b;
  ro_out : ∀ i, 0 <= i < TESTCASE_RESULT_COUNT → output_size (record_at b i) ≠ 0 →
    0 <= output_offset (record_at b i) ∧ 0 <= output_size (record_at b i)
    ∧ output_offset (record_at b i) + output_size (record_at b i) <= buffer_size b;
}.

Lemma env_write_run (s : nvm_env) (off : Z) (d : list Z) :
  nvm_ok (store s) → 0 <= off → off + zlen d <= zlen (bytes s) →
  ∃ t, env_write off d s = Ok (STATUS_SUCCESS, with_store s t)
       ∧ nvm_bytes t = splice off d (bytes s) ∧ nvm_ok t
       ∧ zlen (nvm_bytes t) = zlen (bytes s).
Proof.
  intros Hok Ho Hle. destruct (nvm_write_ok (store s) off d Hok Ho Hle) as (t & Hw & Hb & Ht).
  exists t. unfold env_write, lift_store. rewrite Hw. split_and!; [done..|].
  rewrite Hb. by apply zlen_splice.
Qed.

Lemma env_read_run (s : nvm_env) (off n : Z) :
  nvm_ok (store s) → 0 <= off → 0 <= n → off + n <= zlen (bytes s) →
  ∃ t, env_read off n s = Ok ((STATUS_SUCCESS, slice off n (bytes s)), with_store s t)
       ∧ nvm_bytes t = bytes s ∧ nvm_ok t.
Proof.
  intros Hok Ho Hn Hle. destruct (nvm_read_ok (store s) off n Hok Ho Hn Hle) as (t & Hr & Hb & Ht).
  exists t. unfold env_read, lift_store. by rewrite Hr.
Qed.

Lemma get_result_run (s : nvm_env) (i : Z) :
  nvm_ok (store s) → results_ok (bytes s) → 0 <= i < TESTCASE_RESULT_COUNT →
  ∃ t, tftf_testcase_get_result i s =
         Ok ((STATUS_SUCCESS, record_at (bytes s) i, output_at (bytes s) i), with_store s t)
       ∧ nvm_bytes t = bytes s ∧ nvm_ok t.
Proof.
  intros Hok Hro Hi. destruct Hro as [_ [Hb0 Hble] Hout].
  unfold off_result_buffer, off_result_buffer_size, off_testcase_results,
    sizeof_TESTCASE_RESULT in *.
  destruct (env_read_run s (176 + i * 24) 24) as (t1 & H1 & E1 & Hok1); [done|lia..|].
  unfold tftf_testcase_get_result. rewrite (bind_Ok _ _ _ _ _ H1). cbn [fst snd negb].
  change (result_of_bytes (slice (176 + i * 24) 24 (bytes s))) with (record_at (bytes s) i).
  unfold output_at. destruct (Z.eqb_spec (output_size (record_at (bytes s) i)) 0) as [E|E].
  - exists t1. done.
  - cbn [negb]. specialize (Hout i Hi E). unfold off_result_buffer, off_result_buffer_size.
    destruct (env_read_run (with_store s t1) (off_result_buffer + output_offset (record_at (bytes s) i))
      (output_size (record_at (bytes s) i))) as (t2 & H2 & E2 & Hok2);
      unfold off_result_buffer, off_result_buffer_size, off_testcase_results,
        sizeof_TESTCASE_RESULT in *; cbn in *; rewrite ?E1 in *; [done|lia..|].
    rewrite (bind_Ok _ _ _ _ _ H2). cbn. exists t2. done.
Qed.



(** ** Saving a result *)

(** The offsets, for [lia] *)
Lemma layout :
  off_testcase_results = 176 ∧ sizeof_TESTCASE_RESULT = 24
  ∧ off_result_buffer_size = 176 + 24 * TESTCASE_RESULT_COUNT
  ∧ off_result_buffer = 184 + 24 * TESTCASE_RESULT_COUNT.
Proof. unfold off_result_buffer, off_result_buffer_size. unfold off_testcase_results, sizeof_TESTCASE_RESULT. lia. Qed.

(** Take the branch of a successful call. *)
Ltac ok_status :=
  cbn [fst snd]; change (STATUS_SUCCESS =? STATUS_SUCCESS) with true; cbn [negb].

(** The store after an output of [size] characters is saved *)
Definition saved (b out : list Z) (size : Z) : list Z :=
  splice off_result_buffer_size (le_bytes 4 (buffer_size b + size + 1))
    (splice (off_result_buffer + buffer_size b) (take (Z.to_nat (size + 1)) out) b).

Lemma zlen_prefix (n : Z) (l : list Z) : 0 <= n <= zlen l → zlen (take (Z.to_nat n) l) = n.
Proof. unfold zlen. rewrite length_take. lia. Qed.

Lemma string_length_bounds (l : list Z) : 0 <= string_length l <= zlen l.
Proof.
  induction l as [|c l IH]; cbn; [unfold zlen; cbn; lia|]. rewrite zlen_cons. case_Z; lia.
Qed.

(** Room for the output and its terminator *)
Record room (b out : list Z) : Prop := {
  rm_term : string_length out < zlen out;
  rm_space : off_result_buffer + buffer_size b + string_length out + 1 <= zlen b;
  rm_width : buffer_size b + string_length out + 1 < 2 ^ 32;
}.

Lemma zlen_first_splice (b out : list Z) :
  results_ok b → room b out →
  zlen (splice (off_result_buffer + buffer_size b)
          (take (Z.to_nat (string_length out + 1)) out) b) = zlen b.
Proof.
  intros Hro [H1 H2 H3]. pose proof (string_length_bounds out). pose proof layout.
  destruct Hro as [? [? ?] _]. pose proof (zlen_prefix (string_length out + 1) out).
  apply zlen_splice; lia.
Qed.

Lemma zlen_saved (b out : list Z) :
  results_ok b → room b out → zlen (saved b out (string_length out)) = zlen b.
Proof.
  intros Hro Hrm. pose proof (zlen_first_splice _ _ Hro Hrm) as Hz.
  destruct Hro as [? [? ?] _]. unfold saved. pose proof layout.
  rewrite zlen_splice; [done|lia|]. rewrite zlen_le_bytes. lia.
Qed.

Lemma save_output_run (s : nvm_env) :
  nvm_ok (store s) → results_ok (bytes s) → room (bytes s) (testcase_output s) →
  ∃ t, save_output (string_length (testcase_output s)) s =
         Ok ((STATUS_SUCCESS, buffer_size (bytes s)), with_store s t)
       ∧ nvm_bytes t = saved (bytes s) (testcase_output s) (string_length (testcase_output s))
       ∧ nvm_ok t.
Proof.
  intros Hok Hro Hrm. pose proof (string_length_bounds (testcase_output s)).
  destruct Hrm as [H1 H2 H3]. destruct Hro as [? [? ?] _]. pose proof layout.
  set (size := string_length (testcase_output s)) in *.
  pose proof (zlen_prefix (size + 1) (testcase_output s)) as Hzt.
  unfold save_output, saved.
  destruct (env_read_run s off_result_buffer_size 4) as (t1 & E1 & B1 & K1); [done|lia..|].
  rewrite (bind_Ok _ _ _ _ _ E1). ok_status.
  change (le_value (slice off_result_buffer_size 4 (bytes s))) with (buffer_size (bytes s)).
  erewrite bind_Ok; [|reflexivity].
  destruct (env_write_run (with_store s t1) (off_result_buffer + buffer_size (bytes s))
    (take (Z.to_nat (size + 1)) (testcase_output s))) as (t2 & E2 & B2 & K2 & Z2);
    cbn [store with_store] in *; rewrite ?B1 in *; [done|lia|lia|].
  erewrite bind_Ok; [|exact E2]. ok_status.
  destruct (env_write_run (with_store (with_store s t1) t2) off_result_buffer_size
    (le_bytes 4 (u32 (buffer_size (bytes s) + size + 1)))) as (t3 & E3 & B3 & K3 & Z3);
    cbn [store with_store] in *; [done|lia|rewrite zlen_le_bytes; lia|].
  erewrite bind_Ok; [|exact E3]. exists t3. split_and!; [done| |done].
  rewrite B3, B2, u32_small by (unfold UINT32_MAX; lia). done.
Qed.


(** What a reader of the store sees: the header, each test's record and output *)
Definition header (b : list Z) : list Z := slice 0 off_testcase_results b.
Definition same_size (b b' : list Z) : Prop :=
  zlen b' = zlen b ∧ buffer_size b' = buffer_size b.
Definition same_results (b b' : list Z) (i : Z) : Prop :=
  record_at b' i = record_at b i ∧ output_at b' i = output_at b i.

(** Reads of what lies outside the two regions an output is saved in *)
Lemma slice_saved (b out : list Z) (off n : Z) :
  results_ok b → room b out → 0 <= off → 0 <= n →
  off + n <= off_result_buffer_size
  ∨ (off_result_buffer <= off ∧ off + n <= off_result_buffer + buffer_size b) →
  slice off n (saved b out (string_length out)) = slice off n b.
Proof.
  intros Hro Hrm Ho Hn Hor. pose proof (zlen_first_splice _ _ Hro Hrm) as Hz.
  destruct Hrm, Hro as [? [? ?] _]. pose proof layout.
  pose proof (string_length_bounds out). pose proof (zlen_prefix (string_length out + 1) out).
  unfold saved.
  assert (zlen (le_bytes 4 (buffer_size b + string_length out + 1)) = 4) by apply zlen_le_bytes.
  rewrite slice_splice_ne by lia. apply slice_splice_ne; lia.
Qed.

Lemma buffer_size_saved (b out : list Z) :
  results_ok b → room b out →
  buffer_size (saved b out (string_length out)) = buffer_size b + string_length out + 1.
Proof.
  intros Hro Hrm. pose proof (zlen_first_splice _ _ Hro Hrm) as Hz.
  destruct Hrm, Hro as [? [? ?] _]. pose proof layout. pose proof (string_length_bounds out).
  unfold buffer_size at 1, saved. rewrite slice_splice_eq by (rewrite ?zlen_le_bytes; lia).
  apply le_roundtrip. cbn. lia.
Qed.

Lemma take_slice (n m : Z) (l : list Z) :
  0 <= n <= m → slice 0 n (take (Z.to_nat m) l) = take (Z.to_nat n) l.
Proof.
  intros H1. unfold slice. change (Z.to_nat 0) with O. rewrite drop_0, take_take.
  f_equal. lia.
Qed.

Lemma output_saved (b out : list Z) :
  results_ok b → room b out →
  slice (off_result_buffer + buffer_size b) (string_length out) (saved b out (string_length out))
  = take (Z.to_nat (string_length out)) out.
Proof.
  intros Hro Hrm. pose proof (zlen_first_splice _ _ Hro Hrm) as Hz.
  destruct Hrm, Hro as [? [? ?] _]. pose proof layout.
  pose proof (string_length_bounds out). pose proof (zlen_prefix (string_length out + 1) out).
  unfold saved.
  assert (zlen (le_bytes 4 (buffer_size b + string_length out + 1)) = 4) by apply zlen_le_bytes.
  rewrite slice_splice_ne by lia.
  rewrite <- (take_slice (string_length out) (string_length out + 1)) by lia.
  rewrite <- (slice_splice_eq (off_result_buffer + buffer_size b) (string_length out + 1)
    (take (Z.to_nat (string_length out + 1)) out) b) at 2 by lia.
  rewrite slice_slice by lia. f_equal. lia.
Qed.

Lemma record_at_ext (b b' : list Z) (i : Z) :
  slice (off_testcase_results + i * sizeof_TESTCASE_RESULT) sizeof_TESTCASE_RESULT b'
  = slice (off_testcase_results + i * sizeof_TESTCASE_RESULT) sizeof_TESTCASE_RESULT b →
  record_at b' i = record_at b i.
Proof. unfold record_at. by intros ->. Qed.

(** The same record and the same buffer give the same output. *)
Lemma same_results_intro (b b' : list Z) (i : Z) :
  results_ok b → 0 <= i < TESTCASE_RESULT_COUNT → record_at b' i = record_at b i →
  (∀ off n, off_result_buffer <= off → 0 <= n → off + n <= off_result_buffer + buffer_size b →
     slice off n b' = slice off n b) →
  same_results b b' i.
Proof.
  intros Hro Hi Hr Hs. split; [done|]. unfold output_at. rewrite Hr. case_Z; [done|].
  destruct (ro_out _ Hro i Hi) as (?&?&?); [done|]. apply Hs; lia.
Qed.

Lemma saved_ok (b out : list Z) :
  results_ok b → room b out →
  let b' := saved b out (string_length out) in
  results_ok b' ∧ header b' = header b
  ∧ ∀ i, 0 <= i < TESTCASE_RESULT_COUNT → same_results b b' i.
Proof.
  intros Hro Hrm b'. pose proof layout. pose proof (buffer_size_saved _ _ Hro Hrm) as Hbs.
  pose proof (zlen_saved _ _ Hro Hrm) as Hz. pose proof (string_length_bounds out).
  fold b' in Hbs, Hz. pose proof (ro_size _ Hro) as [? ?]. pose proof (ro_count _ Hro).
  pose proof (rm_space _ _ Hrm).
  assert (∀ i, 0 <= i < TESTCASE_RESULT_COUNT → record_at b' i = record_at b i) as Hrec.
  { intros i Hi. apply record_at_ext, slice_saved; try done; lia. }
  split_and!.
  - split; [done| lia|]. intros i Hi. rewrite Hrec by done. intros Hne.
    pose proof (ro_out _ Hro i Hi Hne). lia.
  - apply slice_saved; [done|done|lia..].
  - intros i Hi. apply same_results_intro; [done..|by apply Hrec|].
    intros off n ? ? ?. apply slice_saved; [done|done|lia..].
Qed.


(** Writing the record of test [i]: its output must lie in the used part. *)
Definition recorded (b : list Z) (i : Z) (r : TESTCASE_RESULT) : list Z :=
  splice (off_testcase_results + i * sizeof_TESTCASE_RESULT) (result_bytes r) b.

Lemma slice_recorded (b : list Z) (i : Z) (r : TESTCASE_RESULT) (off n : Z) :
  results_ok b → 0 <= i < TESTCASE_RESULT_COUNT → 0 <= off → 0 <= n →
  off + n <= off_testcase_results + i * sizeof_TESTCASE_RESULT
  ∨ off_testcase_results + (i + 1) * sizeof_TESTCASE_RESULT <= off →
  slice off n (recorded b i r) = slice off n b.
Proof.
  intros Hro Hi Ho Hn Hor. pose proof (zlen_result_bytes r). pose proof layout.
  destruct Hro as [? [? ?] _]. apply slice_splice_ne; lia.
Qed.

Lemma recorded_ok (b : list Z) (i : Z) (r : TESTCASE_RESULT) :
  results_ok b → 0 <= i < TESTCASE_RESULT_COUNT → result_fits r →
  (output_size r ≠ 0 → output_offset r + output_size r <= buffer_size b) →
  let b' := recorded b i r in
  results_ok b' ∧ same_size b b' ∧ header b' = header b ∧ record_at b' i = r
  ∧ output_at b' i = (if output_size r =? 0 then []
                      else slice (off_result_buffer + output_offset r) (output_size r) b)
  ∧ ∀ j, 0 <= j < TESTCASE_RESULT_COUNT → j ≠ i → same_results b b' j.
Proof.
  intros Hro Hi Hfit Hout b'. pose proof layout. pose proof (ro_size _ Hro) as [? ?].
  pose proof (zlen_result_bytes r).
  assert (buffer_size b' = buffer_size b) as Hbs.
  { unfold buffer_size, b'. f_equal. apply slice_recorded; [done..|lia|lia|lia]. }
  assert (zlen b' = zlen b) as Hz by (apply zlen_splice; lia).
  assert (record_at b' i = r) as Hri.
  { unfold record_at, b', recorded. rewrite slice_splice_eq by lia. by apply result_roundtrip. }
  assert (∀ j, 0 <= j < TESTCASE_RESULT_COUNT → j ≠ i → record_at b' j = record_at b j) as Hrj.
  { intros j Hj Hne. apply record_at_ext, slice_recorded; [done..|lia|lia|nia]. }
  destruct Hfit as (?&?&?&?).
  split_and!; [|done| |done| |].
  - split; [by destruct Hro|lia|]. intros j Hj Hne. rewrite Hbs.
    destruct (decide (j = i)) as [->|Hji]; [rewrite Hri in *; lia|].
    rewrite Hrj in * by done. by apply (ro_out _ Hro).
  - apply slice_recorded; [done..|lia|lia|lia].
  - unfold output_at. rewrite Hri. case_Z; [done|].
    apply slice_recorded; [done..|lia|lia|lia].
  - intros j Hj Hne. apply same_results_intro; [done..|by apply Hrj|].
    intros off n ? ? ?. apply slice_recorded; [done..|lia|lia|lia].
Qed.

Lemma same_results_trans (b1 b2 b3 : list Z) (i : Z) :
  same_results b1 b2 i → same_results b2 b3 i → same_results b1 b3 i.
Proof. intros [? ?] [? ?]. split; congruence. Qed.

(** The store after [tftf_testcase_set_result()] *)
Definition result_set (b out : list Z) (i res dur : Z) (b' : list Z) : Prop :=
  results_ok b' ∧ zlen b' = zlen b
  ∧ buffer_size b' = buffer_size b
                     + (if string_length out =? 0 then 0 else string_length out + 1)
  ∧ header b' = header b
  ∧ result (record_at b' i) = res ∧ duration (record_at b' i) = dur
  ∧ output_at b' i = take (Z.to_nat (string_length out)) out
  ∧ ∀ j, 0 <= j < TESTCASE_RESULT_COUNT → j ≠ i → same_results b b' j.

(** The record written once the output is dealt with *)
Lemma record_run (s : nvm_env) (i : Z) (r : TESTCASE_RESULT) :
  nvm_ok (store s) → results_ok (bytes s) → 0 <= i < TESTCASE_RESULT_COUNT →
  ∃ t, env_write (off_testcase_results + i * sizeof_TESTCASE_RESULT) (result_bytes r) s
         = Ok (STATUS_SUCCESS, with_store s t)
       ∧ nvm_bytes t = recorded (bytes s) i r ∧ nvm_ok t.
Proof.
  intros Hok Hro Hi. pose proof layout. destruct Hro as [? [? ?] _].
  pose proof (zlen_result_bytes r).
  destruct (env_write_run s (off_testcase_results + i * sizeof_TESTCASE_RESULT)
    (result_bytes r)) as (t & E & B & K & _); [done|lia|lia|]. by exists t.
Qed.

Lemma set_result_run (s : nvm_env) (i res dur : Z) :
  nvm_ok (store s) → results_ok (bytes s) →
  (string_length (testcase_output s) ≠ 0 → room (bytes s) (testcase_output s)) →
  0 <= i < TESTCASE_RESULT_COUNT → -2147483648 <= res < 2147483648 → 0 <= dur < 2 ^ 64 →
  ∃ s', tftf_testcase_set_result i res dur s = Ok (STATUS_SUCCESS, s')
    ∧ nvm_ok (store s') ∧ result_set (bytes s) (testcase_output s) i res dur (bytes s')
    ∧ testcase_output s' = zset (testcase_output s) 0 0 ∧ testcase_output_idx s' = 0
    ∧ testcase_output_lock s' = testcase_output_lock s.
Proof.
  intros Hok Hro Hrm Hi Hres Hdur. set (out := testcase_output s) in *.
  pose proof (string_length_bounds out).   pose proof (ro_size _ Hro) as [? ?].
  unfold tftf_testcase_set_result. erewrite bind_Ok; [|reflexivity]. cbn zeta.
  change (string_length (testcase_output s)) with (string_length out).
  destruct (Z.eqb_spec (string_length out) 0) as [E0|E0]; cbn [negb].
  - erewrite bind_Ok; [|reflexivity]. ok_status. rewrite E0.
    set (r := {| result := res |}).
    destruct (record_run s i r) as (t & E & B & K); [done..|].
    erewrite bind_Ok; [|exact E]. cbn [fst].
    eexists. split; [reflexivity|]. cbn. split_and!; [done| |done..].
    destruct (recorded_ok (bytes s) i r) as (P1 & [Q1 Q2] & P2 & P3 & P4 & P5);
      [done|done|unfold result_fits, r; cbn; lia|done|].
    rewrite B. unfold result_set. rewrite P3, P4, E0. split_and!; try done. rewrite Q2. cbn. lia.
  - specialize (Hrm E0). pose proof (rm_width _ _ Hrm).
    destruct (save_output_run s Hok Hro Hrm) as (t1 & E1 & B1 & K1).
    erewrite bind_Ok; [|exact E1]. ok_status.
    destruct (saved_ok _ _ Hro Hrm) as (S1 & S2 & S3).
    pose proof (buffer_size_saved _ _ Hro Hrm) as Hbs. pose proof (output_saved _ _ Hro Hrm) as Hso.
    set (b1 := saved _ _ _) in *. fold out in Hso, Hbs.
    set (r := {| result := res |}).
    destruct (record_run (with_store s t1) i r) as (t & E & B & K);
      [done|cbn; by rewrite B1|done|].
    erewrite bind_Ok; [|exact E].
    eexists. split; [reflexivity|]. cbn. split_and!; [done| |done..].
    cbn in B. rewrite B1 in B.
    destruct (recorded_ok b1 i r) as (P1 & [Q1 Q2] & P2 & P3 & P4 & P5);
      [done|done|unfold result_fits, r; cbn; lia|unfold r; cbn; lia|].
    pose proof (zlen_saved _ _ Hro Hrm) as Hzs. fold b1 in Hzs.
    rewrite B. unfold result_set. rewrite P2, P3, P4, Q1, Q2. unfold r.
    cbn [result duration output_size output_offset].
    rewrite (proj2 (Z.eqb_neq _ _)) by done. split_and!; try done; [lia|].
    intros j Hj Hne. eapply same_results_trans; [by apply S3|by apply P5].
Qed.


(** ** The properties of the results *)

(** storing the result of test [i] succeeds when the output buffer in the
    store has room; reading the results back then gives the stored result,
    duration and output for [i], what was there before for every other test,
    and the header (build message, test to run, progress) is untouched.  The
    output buffer starts empty for the next test. *)
Theorem testcase_result_roundtrip (s : nvm_env) (i res dur : Z) :
  nvm_ok (store s) → results_ok (bytes s) → room (bytes s) (testcase_output s) →
  0 <= i < TESTCASE_RESULT_COUNT → -2147483648 <= res < 2147483648 → 0 <= dur < 2 ^ 64 →
  ∃ s', tftf_testcase_set_result i res dur s = Ok (STATUS_SUCCESS, s')
    ∧ nvm_ok (store s') ∧ results_ok (bytes s') ∧ header (bytes s') = header (bytes s)
    ∧ (∃ r s1, tftf_testcase_get_result i s' =
         Ok ((STATUS_SUCCESS, r,
              take (Z.to_nat (string_length (testcase_output s))) (testcase_output s)), s1)
         ∧ result r = res ∧ duration r = dur)
    ∧ (∀ j, 0 <= j < TESTCASE_RESULT_COUNT → j ≠ i →
         ∃ x s1 s2, tftf_testcase_get_result j s = Ok (x, s1)
                    ∧ tftf_testcase_get_result j s' = Ok (x, s2))
    ∧ string_length (testcase_output s') = 0 ∧ testcase_output_idx s' = 0.
Proof.
  intros Hok Hro Hrm Hi Hres Hdur.
  destruct (set_result_run s i res dur Hok Hro (λ _, Hrm) Hi Hres Hdur)
    as (s' & Hs & Hok' & (Hro' & _ & _ & Hh & Hr & Hd & Ho & Hj) & Hout & Hidx & _).
  exists s'. split_and!; [done..| | | |done].
  - destruct (get_result_run s' i Hok' Hro' Hi) as (t & Hg & _). rewrite Hg, Ho. eauto.
  - intros j Hj1 Hne. destruct (get_result_run s j Hok Hro Hj1) as (t & Hg & _).
    destruct (get_result_run s' j Hok' Hro' Hj1) as (t' & Hg' & _).
    destruct (Hj j Hj1 Hne) as [E1 E2]. rewrite E1, E2 in Hg'. eauto.
  - rewrite Hout. pose proof (rm_term _ _ Hrm). pose proof (string_length_bounds (testcase_output s)).
    destruct (testcase_output s) as [|c l]; [unfold zlen in *; cbn in *; lia|]. done.
Qed.

Lemma set_result_no_room_run (s : nvm_env) (i res dur : Z) :
  nvm_ok (store s) → results_ok (bytes s) →
  0 < string_length (testcase_output s) < zlen (testcase_output s) →
  zlen (bytes s) < off_result_buffer + buffer_size (bytes s)
                   + string_length (testcase_output s) + 1 < 2 ^ 64 →
  ∃ s', tftf_testcase_set_result i res dur s = Ok (STATUS_OUT_OF_RESOURCES, s')
    ∧ nvm_ok (store s') ∧ bytes s' = bytes s ∧ testcase_output_idx s' = 0
    ∧ testcase_output s' = zset (testcase_output s) 0 0
    ∧ testcase_output_lock s' = testcase_output_lock s.
Proof.
  intros Hok Hro Hsz Hfull. pose proof layout. pose proof (ro_size _ Hro) as [? ?].
  pose proof (ro_count _ Hro).
  pose proof (zlen_prefix (string_length (testcase_output s) + 1) (testcase_output s)).
  destruct (env_read_run s off_result_buffer_size 4) as (t1 & E1 & B1 & K1); [done|lia..|].
  unfold tftf_testcase_set_result. erewrite bind_Ok; [|reflexivity]. cbn zeta.
  rewrite (proj2 (Z.eqb_neq _ _)) by lia. cbn [negb].
  assert (save_output (string_length (testcase_output s)) s =
          Ok ((STATUS_OUT_OF_RESOURCES, buffer_size (bytes s)), with_store s t1)) as Hsave.
  { unfold save_output. rewrite (bind_Ok _ _ _ _ _ E1). ok_status.
    fold (buffer_size (bytes s)). erewrite bind_Ok; [|reflexivity].
    unfold env_write, lift_store. erewrite bind_Ok; cycle 1.
    - cbn [store with_store testcase_output].
      rewrite nvm_write_full; [reflexivity|done|lia..|rewrite B1; lia].
    - done. }
  rewrite (bind_Ok _ _ _ _ _ Hsave). eexists. split; [reflexivity|]. cbn.
  done.
Qed.

(** when the output of the test does not fit in the store, the call returns
    STATUS_OUT_OF_RESOURCES, records no result for the test, leaves the whole
    store as it was and discards the output. *)
Theorem testcase_result_no_room (s : nvm_env) (i res dur : Z) :
  nvm_ok (store s) → results_ok (bytes s) →
  0 < string_length (testcase_output s) < zlen (testcase_output s) →
  zlen (bytes s) < off_result_buffer + buffer_size (bytes s)
                   + string_length (testcase_output s) + 1 < 2 ^ 64 →
  ∃ s', tftf_testcase_set_result i res dur s = Ok (STATUS_OUT_OF_RESOURCES, s')
    ∧ bytes s' = bytes s ∧ testcase_output_idx s' = 0
    ∧ zget (testcase_output s') 0 = Some 0.
Proof.
  intros Hok Hro Hsz Hfull.
  destruct (set_result_no_room_run s i res dur Hok Hro Hsz Hfull)
    as (s' & E & _ & B & Hi & Ho & _).
  exists s'. split_and!; [done..|]. rewrite Ho. apply zget_zset_eq. lia.
Qed.


(** ** The state of the session *)

(** Writes and reads of the control fields, which lie in the header *)
Lemma header_write_results (b d : list Z) (off : Z) :
  results_ok b → 0 <= off → off + zlen d <= off_testcase_results →
  results_ok (splice off d b) ∧ same_size b (splice off d b)
  ∧ ∀ i, 0 <= i < TESTCASE_RESULT_COUNT → same_results b (splice off d b) i.
Proof.
  intros Hro Ho Hle. pose proof layout. pose proof (ro_size _ Hro) as [? ?].
  pose proof (ro_count _ Hro). pose proof (zlen_nonneg d).
  assert (∀ o n, off_testcase_results <= o → 0 <= n →
    slice o n (splice off d b) = slice o n b) as Hs
    by (intros; apply slice_splice_ne; lia).
  assert (zlen (splice off d b) = zlen b) as Hz by (apply zlen_splice; lia).
  assert (∀ i, 0 <= i → record_at (splice off d b) i = record_at b i) as Hr
    by (intros i Hi; apply record_at_ext, Hs; lia).
  assert (buffer_size (splice off d b) = buffer_size b) as Hbs
    by (unfold buffer_size; f_equal; apply Hs; lia).
  split_and!; [|done|].
  - split; [done|lia|]. intros i Hi. rewrite Hr, Hbs by lia. by apply (ro_out _ Hro).
  - intros i Hi. apply same_results_intro; [done..|apply Hr; lia|].
    intros. apply Hs; lia.
Qed.

Definition ref_fits (r : test_ref_t) : Prop :=
  0 <= testsuite_idx r < 2 ^ 32 ∧ 0 <= testcase_idx r < 2 ^ 32.

(** The reference and the progress the store holds *)
Definition ref_at (b : list Z) : test_ref_t := ref_of_bytes (slice off_test_to_run 8 b).
Definition progress_at (b : list Z) : Z := le_value (slice off_test_progress 4 b).
Definition message_at (b : list Z) : list Z := slice off_build_message BUILD_MESSAGE_SIZE b.

(** What a session holds between two tests *)
Record session_view := {
  sv_message : list Z;
  sv_ref : test_ref_t;
  sv_progress : Z;
}.
Definition view (b : list Z) : session_view :=
  {| sv_message := message_at b; sv_ref := ref_at b; sv_progress := progress_at b |}.

Lemma set_test_to_run_run (s : nvm_env) (r : test_ref_t) :
  nvm_ok (store s) → results_ok (bytes s) → ref_fits r →
  ∃ t, tftf_set_test_to_run r s = Ok (STATUS_SUCCESS, with_store s t)
    ∧ nvm_ok t ∧ results_ok (nvm_bytes t) ∧ same_size (bytes s) (nvm_bytes t)
    ∧ view (nvm_bytes t) = {| sv_message := message_at (bytes s); sv_ref := r;
                              sv_progress := progress_at (bytes s) |}
    ∧ ∀ i, 0 <= i < TESTCASE_RESULT_COUNT → same_results (bytes s) (nvm_bytes t) i.
Proof.
  intros Hok Hro [Hf1 Hf2]. pose proof layout. pose proof (ro_size _ Hro) as [? ?].
  pose proof (ro_count _ Hro). assert (zlen (ref_bytes r) = 8) as Hz by done.
  assert (off_test_to_run = 32) by done.
  destruct (env_write_run s off_test_to_run (ref_bytes r)) as (t & E & B & K & Z0); [done|lia..|].
  exists t. rewrite B. split_and!; [done|done| | | |].
  - apply header_write_results; [done|lia..].
  - apply header_write_results; [done|lia..].
  - unfold view, message_at, ref_at, progress_at. f_equal.
    + apply slice_splice_ne; [done|done|done|lia|]. left. done.
    + rewrite slice_splice_eq by (done || lia). by apply ref_roundtrip.
    + f_equal. apply slice_splice_ne; [done|done|done|lia|]. rewrite Hz. right. done.
  - intros i Hi. apply header_write_results; [done|lia|lia|done].
Qed.

Lemma set_progress_run (s : nvm_env) (p : test_progress_t) :
  nvm_ok (store s) → results_ok (bytes s) →
  ∃ t, tftf_set_test_progress p s = Ok (STATUS_SUCCESS, with_store s t)
    ∧ nvm_ok t ∧ results_ok (nvm_bytes t) ∧ same_size (bytes s) (nvm_bytes t)
    ∧ view (nvm_bytes t) = {| sv_message := message_at (bytes s); sv_ref := ref_at (bytes s);
                              sv_progress := progress_code p |}
    ∧ ∀ i, 0 <= i < TESTCASE_RESULT_COUNT → same_results (bytes s) (nvm_bytes t) i.
Proof.
  intros Hok Hro. pose proof layout. pose proof (ro_size _ Hro) as [? ?].
  pose proof (ro_count _ Hro). set (d := le_bytes 4 (progress_code p)).
  assert (zlen d = 4) as Hz by apply zlen_le_bytes. assert (off_test_progress = 40) by done.
  destruct (env_write_run s off_test_progress d) as (t & E & B & K & Z0); [done|lia..|].
  exists t. rewrite B. split_and!; [done|done| | | |].
  - apply header_write_results; [done|lia..].
  - apply header_write_results; [done|lia..].
  - unfold view, message_at, ref_at, progress_at. f_equal.
    + apply slice_splice_ne; [done|done|done|lia|]. left. done.
    + f_equal. apply slice_splice_ne; [done|done|done|lia|]. left. done.
    + rewrite slice_splice_eq by (done || lia). unfold d. by destruct p.
  - intros i Hi. apply header_write_results; [done|lia|lia|done].
Qed.

Lemma get_test_to_run_run (s : nvm_env) :
  nvm_ok (store s) → results_ok (bytes s) →
  ∃ t, tftf_get_test_to_run s = Ok ((STATUS_SUCCESS, ref_at (bytes s)), with_store s t)
    ∧ nvm_ok t ∧ nvm_bytes t = bytes s.
Proof.
  intros Hok Hro. pose proof layout. destruct Hro as [? [? ?] _].
  assert (off_test_to_run = 32) by done.
  destruct (env_read_run s off_test_to_run 8) as (t & E & B & K); [done|lia..|].
  exists t. unfold tftf_get_test_to_run. by rewrite (bind_Ok _ _ _ _ _ E).
Qed.

Lemma get_progress_run (s : nvm_env) :
  nvm_ok (store s) → results_ok (bytes s) →
  ∃ t, tftf_get_test_progress s = Ok ((STATUS_SUCCESS, progress_at (bytes s)), with_store s t)
    ∧ nvm_ok t ∧ nvm_bytes t = bytes s.
Proof.
  intros Hok Hro. pose proof layout. destruct Hro as [? [? ?] _].
  assert (off_test_progress = 40) by done.
  destruct (env_read_run s off_test_progress 4) as (t & E & B & K); [done|lia..|].
  exists t. unfold tftf_get_test_progress. by rewrite (bind_Ok _ _ _ _ _ E).
Qed.


(** ** The start and the end of a session *)

(** Reads inside what was just stored *)
Lemma slice_splice_in (off n : Z) (d b : list Z) :
  0 <= off → 0 <= n → off + n <= zlen d → zlen d <= zlen b →
  slice off n (splice 0 d b) = slice off n d.
Proof.
  intros Ho Hn Hle Hb. unfold splice, slice, zlen in *. change (Z.to_nat 0) with O.
  rewrite take_0. cbn [app]. rewrite drop_app_le by lia.
  rewrite take_app_le; [done|]. rewrite length_drop. lia.
Qed.

Lemma slice_zeros (off n k : Z) :
  0 <= off → 0 <= n → off + n <= k →
  slice off n (replicate (Z.to_nat k) 0) = replicate (Z.to_nat n) 0.
Proof. intros. unfold slice. rewrite drop_replicate, take_replicate. f_equal. lia. Qed.

Lemma length_strncpy (n : nat) (src : list Z) : length (strncpy_bytes n src) = n.
Proof.
  revert src. induction n as [|n IH]; intros src; [done|]. cbn.
  destruct src as [|c src]; [cbn; by rewrite IH|]. case_Z; [cbn; by rewrite length_replicate|].
  cbn. by rewrite IH.
Qed.

(** A string compares equal to its copy. *)
Lemma strncmp_strncpy (n : nat) (src : list Z) : strncmp_eq n src (strncpy_bytes n src) = true.
Proof.
  revert src. induction n as [|n IH]; intros src; [done|]. destruct src as [|c src]; [done|].
  cbn [strncmp_eq strncpy_bytes hd tl]. destruct (Z.eqb_spec c 0) as [->|Hc]; [done|].
  cbn [hd tl]. rewrite Z.eqb_refl, IH. by rewrite orb_true_r.
Qed.

(** The initial state: 176 bytes of header, the record of test 0, and zeros *)
Definition init_header : list Z :=
  strncpy_bytes (Z.to_nat BUILD_MESSAGE_SIZE) build_message
    ++ ref_bytes {| testsuite_idx := 0; testcase_idx := 0 |}
    ++ le_bytes 4 (progress_code TEST_READY)
    ++ replicate (Z.to_nat (off_testcase_results - off_testcase_buffer)) 0.
Definition NA_bytes : list Z :=
  result_bytes {| result := TEST_RESULT_NA; duration := 0; output_offset := 0; output_size := 0 |}.

Lemma init_split :
  0 < TESTCASE_RESULT_COUNT →
  init_state_bytes = (init_header ++ NA_bytes)
    ++ replicate (Z.to_nat (24 * (TESTCASE_RESULT_COUNT - 1) + 16)) 0.
Proof.
  intros Hc. unfold init_state_bytes, init_header, NA_bytes.
  rewrite (proj2 (Z.ltb_lt _ _)) by done. rewrite <- !app_assoc. do 5 f_equal.
  rewrite <- replicate_add. f_equal. unfold sizeof_TESTCASE_RESULT. lia.
Qed.

Lemma zlen_init_header : zlen init_header = 176.
Proof.
  unfold init_header. rewrite !zlen_app, zlen_replicate. unfold zlen at 1.
  by rewrite length_strncpy.
Qed.

Lemma zlen_init : 0 < TESTCASE_RESULT_COUNT → zlen init_state_bytes = sizeof_tftf_state.
Proof.
  intros Hc. rewrite init_split, !zlen_app, zlen_init_header, zlen_replicate by done.
  change (zlen NA_bytes) with 24. pose proof layout. unfold sizeof_tftf_state. lia.
Qed.

(** Past the record of test 0 there are only zeros. *)
Lemma init_zeros (off n : Z) :
  0 < TESTCASE_RESULT_COUNT → 200 <= off → 0 <= n → off + n <= sizeof_tftf_state →
  slice off n init_state_bytes = replicate (Z.to_nat n) 0.
Proof.
  intros Hc Ho Hn Hle. pose proof layout. unfold sizeof_tftf_state in *.
  assert (zlen (init_header ++ NA_bytes) = 200) as Hz
    by (rewrite zlen_app, zlen_init_header; done).
  rewrite init_split, slice_app_r, Hz by (done || lia). apply slice_zeros; lia.
Qed.

Lemma init_first : 0 < TESTCASE_RESULT_COUNT → slice 176 24 init_state_bytes = NA_bytes.
Proof.
  intros Hc. rewrite init_split by done. rewrite <- app_assoc, slice_app_r;
    rewrite zlen_init_header; [|lia]. by apply slice_app_l.
Qed.

Lemma init_buffer_size (b : list Z) :
  0 < TESTCASE_RESULT_COUNT → sizeof_tftf_state <= zlen b →
  buffer_size (splice 0 init_state_bytes b) = 0.
Proof.
  intros Hc Hb. pose proof layout. pose proof (zlen_init Hc) as Hz.
  assert (sizeof_tftf_state = off_result_buffer + 8) by done.
  unfold buffer_size. rewrite slice_splice_in, init_zeros by lia. done.
Qed.

Lemma init_results (b : list Z) :
  0 < TESTCASE_RESULT_COUNT → sizeof_tftf_state <= zlen b →
  results_ok (splice 0 init_state_bytes b)
  ∧ record_at (splice 0 init_state_bytes b) 0 =
      {| result := TEST_RESULT_NA; duration := 0; output_offset := 0; output_size := 0 |}
  ∧ ∀ i, 0 < i < TESTCASE_RESULT_COUNT → record_at (splice 0 init_state_bytes b) i =
      {| result := TEST_RESULT_SKIPPED; duration := 0; output_offset := 0; output_size := 0 |}.
Proof.
  intros Hc Hb. pose proof layout as (L1 & L2 & L3 & L4). pose proof (zlen_init Hc) as Hz.
  assert (sizeof_tftf_state = off_result_buffer + 8) by done.
  assert (record_at (splice 0 init_state_bytes b) 0 =
      {| result := TEST_RESULT_NA; duration := 0; output_offset := 0; output_size := 0 |}) as HNA.
  { unfold record_at. rewrite slice_splice_in by lia. rewrite L1, L2.
    change (176 + 0 * 24) with 176. rewrite init_first by done. done. }
  assert (∀ i, 0 < i < TESTCASE_RESULT_COUNT → record_at (splice 0 init_state_bytes b) i =
      {| result := TEST_RESULT_SKIPPED; duration := 0; output_offset := 0; output_size := 0 |}) as Hi.
  { intros i Hi. unfold record_at. rewrite slice_splice_in, init_zeros by lia. done. }
  split_and!; [|done|done].
  pose proof (init_buffer_size b Hc Hb) as Hbs.
  assert (zlen (splice 0 init_state_bytes b) = zlen b) by (apply zlen_splice; lia).
  split; [done|lia|]. intros i Hir. destruct (decide (i = 0)) as [->|].
  - by rewrite HNA.
  - by rewrite Hi by lia.
Qed.

Lemma init_view (b : list Z) :
  0 < TESTCASE_RESULT_COUNT → sizeof_tftf_state <= zlen b →
  view (splice 0 init_state_bytes b) =
  {| sv_message := strncpy_bytes (Z.to_nat BUILD_MESSAGE_SIZE) build_message;
     sv_ref := {| testsuite_idx := 0; testcase_idx := 0 |};
     sv_progress := progress_code TEST_READY |}.
Proof.
  intros Hc Hb. pose proof (zlen_init Hc) as Hz. pose proof layout.
  assert (sizeof_tftf_state = off_result_buffer + 8) by done.
  assert (zlen (strncpy_bytes (Z.to_nat BUILD_MESSAGE_SIZE) build_message) = 32) as Hm
    by (unfold zlen; by rewrite length_strncpy).
  assert (∀ off n, 0 <= off → 0 <= n → off + n <= 176 →
    slice off n (splice 0 init_state_bytes b) = slice off n init_state_bytes) as Hs
    by (intros; apply slice_splice_in; lia).
  unfold view, message_at, ref_at, progress_at. rewrite !Hs by done.
  unfold init_state_bytes. rewrite (slice_app_l _ _ BUILD_MESSAGE_SIZE) by done.
  set (m := strncpy_bytes _ _) in *.
  rewrite (slice_app_r m _ off_test_to_run), (slice_app_r m _ off_test_progress)
    by (rewrite Hm; done).
  by rewrite Hm.
Qed.


Lemma new_session_run (s : nvm_env) :
  nvm_ok (store s) → results_ok (bytes s) →
  ∃ t, new_test_session s =
         Ok (negb (strncmp_eq (Z.to_nat BUILD_MESSAGE_SIZE) build_message (message_at (bytes s))),
             with_store s t)
    ∧ nvm_ok t ∧ nvm_bytes t = bytes s.
Proof.
  intros Hok Hro. pose proof layout. destruct Hro as [? [? ?] _].
  assert (off_build_message + BUILD_MESSAGE_SIZE = 32) by done.
  destruct (env_read_run s off_build_message BUILD_MESSAGE_SIZE) as (t & E & B & K); [done..|lia|].
  exists t. unfold new_test_session. by rewrite (bind_Ok _ _ _ _ _ E).
Qed.

Lemma clean_run (s : nvm_env) :
  nvm_ok (store s) → results_ok (bytes s) →
  ∃ t, tftf_clean_nvm s = Ok (STATUS_SUCCESS, with_store s t)
    ∧ nvm_ok t ∧ results_ok (nvm_bytes t) ∧ same_size (bytes s) (nvm_bytes t)
    ∧ view (nvm_bytes t) = {| sv_message := 0 :: tl (message_at (bytes s));
                              sv_ref := ref_at (bytes s);
                              sv_progress := progress_at (bytes s) |}
    ∧ hd 0 (message_at (nvm_bytes t)) = 0
    ∧ ∀ i, 0 <= i < TESTCASE_RESULT_COUNT → same_results (bytes s) (nvm_bytes t) i.
Proof.
  intros Hok Hro. pose proof layout. pose proof (ro_size _ Hro) as [? ?].
  pose proof (ro_count _ Hro). assert (off_build_message = 0) by done.
  assert (zlen [0] = 1) as Hz by done.
  destruct (env_write_run s off_build_message [0]) as (t & E & B & K & Z0); [done|lia..|].
  exists t. rewrite B. split_and!; [done|done| | | | |].
  - apply header_write_results; [done|lia..].
  - apply header_write_results; [done|lia..].
  - unfold view. f_equal.
    + unfold message_at, splice, slice. destruct (bytes s) as [|c b]; [|done].
      unfold zlen in *. cbn in *. lia.
    + unfold ref_at. f_equal. apply slice_splice_ne; [done|done|done|lia|]. right. done.
    + unfold progress_at. f_equal. apply slice_splice_ne; [done|done|done|lia|]. right. done.
  - done.
  - intros i Hi. apply header_write_results; [done|lia|lia|done].
Qed.

(** The fields of a view *)
Ltac inv_view H H1 H2 H3 :=
  pose proof (f_equal sv_message H) as H1; pose proof (f_equal sv_ref H) as H2;
  pose proof (f_equal sv_progress H) as H3;
  cbn [sv_message sv_ref sv_progress view] in H1, H2, H3; clear H.

(** initialising the store starts a session: the saved build message is that
    of this binary, so the next boot resumes it, at test 0 and TEST_READY;
    cleaning the store at the end makes the next boot start a new session,
    whatever the session did in between. *)
Theorem session_start_end (s : nvm_env) :
  nvm_ok (store s) → 0 < TESTCASE_RESULT_COUNT → sizeof_tftf_state <= zlen (bytes s) →
  hd 0 build_message ≠ 0 →
  (∃ s1, tftf_init_nvm s = Ok (STATUS_SUCCESS, s1) ∧ nvm_ok (store s1) ∧ results_ok (bytes s1)
     ∧ (∃ s2, new_test_session s1 = Ok (false, s2))
     ∧ (∃ s2, tftf_get_test_to_run s1 =
              Ok ((STATUS_SUCCESS, {| testsuite_idx := 0; testcase_idx := 0 |}), s2))
     ∧ ∃ s2, tftf_get_test_progress s1 = Ok ((STATUS_SUCCESS, progress_code TEST_READY), s2))
  ∧ (results_ok (bytes s) →
     ∃ s1 s2, tftf_clean_nvm s = Ok (STATUS_SUCCESS, s1) ∧ new_test_session s1 = Ok (true, s2)).
Proof.
  intros Hok Hc Hsz Hm. pose proof (zlen_init Hc) as Hz. split.
  - destruct (env_write_run s 0 init_state_bytes) as (t & E & B & K & Z0); [done|lia..|].
    pose proof (init_results (bytes s) Hc Hsz) as [Hro _].
    pose proof (init_view (bytes s) Hc Hsz) as Hv. rewrite <- B in Hro, Hv.
    exists (with_store s t). inv_view Hv Hv1 Hv2 Hv3.
    destruct (new_session_run (with_store s t)) as (t2 & E2 & _); [done..|].
    destruct (get_test_to_run_run (with_store s t)) as (t3 & E3 & _); [done..|].
    destruct (get_progress_run (with_store s t)) as (t4 & E4 & _); [done..|].
    cbn [store with_store] in *. rewrite Hv1, strncmp_strncpy in E2. rewrite Hv2 in E3.
    rewrite Hv3 in E4. split_and!; eauto.
  - intros Hro. destruct (clean_run s Hok Hro) as (t & E & K & Hro' & _ & _ & Hhd & _).
    destruct (new_session_run (with_store s t)) as (t2 & E2 & _); [done..|].
    cbn [store with_store] in E2. destruct (Z.to_nat BUILD_MESSAGE_SIZE) as [|n] eqn:En; [done|].
    cbn [strncmp_eq] in E2. rewrite Hhd, (proj2 (Z.eqb_neq _ _)) in E2 by done. eauto.
Qed.

(** the test to run and the progress are read back as last set, setting one
    does not change the other, and neither changes the build message or any
    test's result. *)
Theorem session_control_roundtrip (s : nvm_env) (r : test_ref_t) (p : test_progress_t) :
  nvm_ok (store s) → results_ok (bytes s) → ref_fits r →
  ∃ s1 s2, tftf_set_test_to_run r s = Ok (STATUS_SUCCESS, s1)
    ∧ tftf_set_test_progress p s1 = Ok (STATUS_SUCCESS, s2)
    ∧ (∃ s3, tftf_get_test_to_run s2 = Ok ((STATUS_SUCCESS, r), s3))
    ∧ (∃ s3 c, tftf_get_test_progress s2 = Ok ((STATUS_SUCCESS, c), s3)
               ∧ progress_of_code c = Some p)
    ∧ (∃ s3, tftf_get_test_progress s1
             = Ok ((STATUS_SUCCESS, progress_at (bytes s)), s3))
    ∧ (∃ x s3 s4, new_test_session s = Ok (x, s3) ∧ new_test_session s2 = Ok (x, s4))
    ∧ ∀ i, 0 <= i < TESTCASE_RESULT_COUNT →
        ∃ x s3 s4, tftf_testcase_get_result i s = Ok (x, s3)
                   ∧ tftf_testcase_get_result i s2 = Ok (x, s4).
Proof.
  intros Hok Hro Hf.
  destruct (set_test_to_run_run s r Hok Hro Hf) as (t1 & E1 & K1 & R1 & _ & V1 & S1).
  destruct (set_progress_run (with_store s t1) p K1 R1) as (t2 & E2 & K2 & R2 & _ & V2 & S2).
  inv_view V1 V11 V12 V13. inv_view V2 V21 V22 V23. cbn [store with_store] in *.
  rewrite V11 in V21. rewrite V12 in V22.
  set (s2 := with_store (with_store s t1) t2) in *.
  destruct (get_test_to_run_run s2 K2 R2) as (t3 & E3 & _).
  destruct (get_progress_run s2 K2 R2) as (t4 & E4 & _).
  destruct (get_progress_run (with_store s t1) K1 R1) as (t5 & E5 & _).
  destruct (new_session_run s Hok Hro) as (t6 & E6 & _).
  destruct (new_session_run s2 K2 R2) as (t7 & E7 & _).
  unfold s2 in E3, E4, E7. cbn [store with_store] in *.
  rewrite V22 in E3. rewrite V23 in E4. rewrite V13 in E5. rewrite V21 in E7.
  exists (with_store s t1), s2. split_and!; [done|done|eauto| |eauto|eauto|].
  - do 2 eexists. split; [exact E4|]. by destruct p.
  - intros i Hi. destruct (get_result_run s i Hok Hro Hi) as (t8 & E8 & _).
    destruct (get_result_run s2 i K2 R2 Hi) as (t9 & E9 & _).
    destruct (same_results_trans _ _ _ _ (S1 i Hi) (S2 i Hi)) as [Q1 Q2].
    unfold s2 in E9 at 2 3. cbn [store with_store] in E9. rewrite Q1, Q2 in E9. eauto.
Qed.


(** ** The output of a test *)

(** [testcase_output_idx] points at the terminator of the string. *)
Record output_ok (s : nvm_env) : Prop := {
  oo_size : 0 <= testcase_output_idx s < zlen (testcase_output s);
  oo_width : zlen (testcase_output s) < 2 ^ 31;
  oo_term : string_length (testcase_output s) = testcase_output_idx s;
  oo_unlocked : testcase_output_lock s = false;
}.

Definition text (s : nvm_env) : list Z :=
  take (Z.to_nat (testcase_output_idx s)) (testcase_output s).

Lemma string_length_prefix (l : list Z) :
  Forall (λ c, c ≠ 0) (take (Z.to_nat (string_length l)) l).
Proof.
  induction l as [|c l IH]; cbn [string_length]; [constructor|]. case_Z; [constructor|].
  pose proof (string_length_bounds l).
  replace (Z.to_nat (1 + string_length l)) with (S (Z.to_nat (string_length l))) by lia.
  by constructor.
Qed.

Lemma string_length_app (a l : list Z) :
  Forall (λ c, c ≠ 0) a → string_length (a ++ 0 :: l) = zlen a.
Proof.
  induction 1 as [|c a Hc _ IH]; [done|]. cbn. rewrite zlen_cons, IH.
  rewrite (proj2 (Z.eqb_neq _ _)) by done. lia.
Qed.

(** A terminated string [y] stored at the terminator of the string of [out] *)
Lemma append_string (out y : list Z) :
  Forall (λ c, c ≠ 0) y → string_length out + zlen y < zlen out →
  let idx := Z.to_nat (string_length out) in
  let out' := take idx out ++ splice 0 (y ++ [0]) (drop idx out) in
  zlen out' = zlen out ∧ string_length out' = string_length out + zlen y
  ∧ take (Z.to_nat (string_length out + zlen y)) out' = take idx out ++ y.
Proof.
  intros Hy Hle idx out'. pose proof (string_length_bounds out). pose proof (zlen_nonneg y).
  assert (out' = (take idx out ++ y) ++ 0 :: drop (S (length y)) (drop idx out)) as ->.
  { unfold out', splice. change (Z.to_nat 0) with O. rewrite take_0, length_app. cbn [app length].
    by rewrite Nat.add_1_r, <- !app_assoc. }
  assert (zlen (take idx out) = string_length out) as Hpre by (apply zlen_prefix; lia).
  split_and!.
  - unfold zlen in *. rewrite !length_app. cbn [length]. rewrite !length_drop. lia.
  - rewrite string_length_app, zlen_app; [lia|].
    apply Forall_app. split; [|done]. apply string_length_prefix.
  - rewrite take_app_le by (rewrite length_app; unfold zlen in *; lia).
    apply take_ge. rewrite length_app. unfold zlen in *. lia.
Qed.

(** One call of [tftf_testcase_printf()] *)
Lemma testcase_printf_run (s : nvm_env) (fmt : list Z) (args : list arg)
    (ds : list directive) (x : list Z) :
  output_ok s → parse_format false Text fmt = Some ds → render ds args = Some x →
  Forall (λ c, c ≠ 0) x → zlen x < 2 ^ 31 →
  let room := zlen (testcase_output s) - testcase_output_idx s - 1 in
  ∃ s', tftf_testcase_printf fmt args s = Ok (Z.min (zlen x) room, s')
    ∧ output_ok s' ∧ text s' = text s ++ take (Z.to_nat room) x
    ∧ zlen (testcase_output s') = zlen (testcase_output s) ∧ store s' = store s.
Proof.
  intros [Hs Hw Ht Hl] Hp Hx Hnz Hlen room0. unfold text. rewrite <- Ht in *.
  set (out := testcase_output s) in *. set (idx := string_length out) in *.
  pose proof (zlen_nonneg x). pose proof (string_length_bounds out).
  assert (0 <= room0 ∧ zlen out = idx + room0 + 1) as [Hroom Hlo] by (unfold room0; lia).
  set (y := take (Z.to_nat room0) x).
  assert (zlen y = Z.min (zlen x) room0) as Hy by (unfold y, zlen; rewrite length_take; lia).
  destruct (append_string out y) as (A1 & A2 & A3); [by apply Forall_take|fold idx; lia|].
  fold idx in A1, A2, A3. set (out' := take (Z.to_nat idx) out ++ _) in *.
  exists {| store := store s; testcase_output := out'; testcase_output_idx := idx + zlen y;
            testcase_output_lock := false |}.
  split_and!; [| |done|done|done].
  - unfold tftf_testcase_printf, output_spin_lock, mbind, M_bind. rewrite Hl. cbn.
    rewrite <- ?Ht. fold out idx. rewrite (proj2 (Z.leb_le _ _)) by lia. cbn.
    rewrite (proj2 (Z.eqb_neq _ _)) by lia.
    assert (zlen (drop (Z.to_nat idx) out) = room0 + 1)
      by (unfold zlen in *; rewrite length_drop; lia).
    rewrite (vsnprintf_run _ _ _ _ ds x) by (done || lia).
    rewrite (proj2 (Z.eqb_neq _ _)) by lia.
    replace (zlen out - idx - 1) with room0 by lia. fold y. fold out'. cbn.
    rewrite (proj2 (Z.ltb_ge _ _)) by lia. unfold mbind, M_bind, modify, mret, M_ret. cbn.
    rewrite <- ?Ht. fold out idx.
    assert ((if zlen out - idx <=? zlen x then room0 else zlen x) = zlen y) as -> by (case_Z; lia).
    rewrite u32_small by (unfold UINT32_MAX; lia). by rewrite Hy.
  - split; cbn; [lia..|done].
Qed.

(** tftf_testcase_printf() appends the formatted text to the output of the
    test, cut to the room left, keeps the string terminated with the index at
    the terminator, returns the number of characters it appended and releases
    the lock; the NVM is not touched. *)
Theorem testcase_printf_appends (s : nvm_env) (fmt : list Z) (args : list arg)
    (ds : list directive) (x : list Z) :
  output_ok s → parse_format false Text fmt = Some ds → render ds args = Some x →
  Forall (λ c, c ≠ 0) x → zlen x < 2 ^ 31 →
  let room := zlen (testcase_output s) - testcase_output_idx s - 1 in
  ∃ s', tftf_testcase_printf fmt args s = Ok (Z.min (zlen x) room, s')
    ∧ output_ok s' ∧ text s' = text s ++ take (Z.to_nat room) x
    ∧ zlen (testcase_output s') = zlen (testcase_output s) ∧ store s' = store s.
Proof. apply testcase_printf_run. Qed.

End Helpers.

(** ** Witnesses: two tests, a store of 300 bytes *)

Definition demo_msg : list Z := [116; 102; 116; 102; 0].
Definition demo_dram : dram_nvm :=
  {| dram := splice 0 (init_state_bytes 2 demo_msg) (replicate 300 0) |}.
Definition demo_env (out : list Z) (idx : Z) : nvm_env (T := dram_nvm) :=
  {| store := demo_dram; testcase_output := out; testcase_output_idx := idx;
     testcase_output_lock := false |}.

Lemma demo_results : results_ok 2 (dram demo_dram).
Proof. apply init_results; vm_compute; congruence. Qed.

Lemma demo_nvm_ok : nvm_ok demo_dram.
Proof. vm_compute. reflexivity. Qed.

Lemma testcase_result_roundtrip_witness :
  ∃ s', tftf_testcase_set_result 2 1 TEST_RESULT_FAIL 77 (demo_env [65; 66; 0; 0] 2)
        = Ok (STATUS_SUCCESS, s')
    ∧ ∃ r s1, tftf_testcase_get_result 2 1 s' = Ok ((STATUS_SUCCESS, r, [65; 66]), s1)
              ∧ result r = TEST_RESULT_FAIL ∧ duration r = 77.
Proof.
  destruct (testcase_result_roundtrip 2 (demo_env [65; 66; 0; 0] 2) 1 TEST_RESULT_FAIL 77)
    as (s' & E & _ & _ & _ & G & _).
  - exact demo_nvm_ok.
  - exact demo_results.
  - split; vm_compute; congruence.
  - lia.
  - unfold TEST_RESULT_FAIL. lia.
  - lia.
  - exists s'. split; [exact E|exact G].
Defined.

Lemma testcase_result_no_room_witness :
  ∃ s', tftf_testcase_set_result 2 1 TEST_RESULT_FAIL 77
          (demo_env (replicate 100 65 ++ [0; 0]) 100) = Ok (STATUS_OUT_OF_RESOURCES, s')
    ∧ nvm_bytes (store s') = dram demo_dram.
Proof.
  destruct (testcase_result_no_room 2 (demo_env (replicate 100 65 ++ [0; 0]) 100)
    1 TEST_RESULT_FAIL 77) as (s' & E & B & _).
  - exact demo_nvm_ok.
  - exact demo_results.
  - split; vm_compute; reflexivity.
  - split; vm_compute; reflexivity.
  - exists s'. split; [exact E|exact B].
Defined.

Lemma session_start_end_witness :
  ∃ s1 s2, tftf_clean_nvm (demo_env [0] 0) = Ok (STATUS_SUCCESS, s1)
           ∧ new_test_session demo_msg s1 = Ok (true, s2).
Proof.
  destruct (session_start_end 2 demo_msg (demo_env [0] 0)) as [_ E].
  - exact demo_nvm_ok.
  - lia.
  - vm_compute. congruence.
  - vm_compute. congruence.
  - exact (E demo_results).
Defined.

Lemma session_control_roundtrip_witness :
  ∃ s1 s2, tftf_set_test_to_run {| testsuite_idx := 3; testcase_idx := 1 |} (demo_env [0] 0)
           = Ok (STATUS_SUCCESS, s1)
    ∧ tftf_set_test_progress TEST_COMPLETE s1 = Ok (STATUS_SUCCESS, s2).
Proof.
  destruct (session_control_roundtrip 2 demo_msg (demo_env [0] 0)
    {| testsuite_idx := 3; testcase_idx := 1 |} TEST_COMPLETE) as (s1 & s2 & E1 & E2 & _).
  - exact demo_nvm_ok.
  - exact demo_results.
  - unfold ref_fits. cbn. lia.
  - exists s1, s2. split; [exact E1|exact E2].
Defined.

Lemma testcase_printf_appends_witness :
  ∃ s', tftf_testcase_printf demo_fmt demo_args (demo_env ([65; 66] ++ replicate 10 0) 2)
        = Ok (9, s')
    ∧ text s' = [65; 66] ++ take 9 demo_out.
Proof.
  destruct (testcase_printf_appends (demo_env ([65; 66] ++ replicate 10 0) 2) demo_fmt demo_args
    [Lit 120; Lit 61;
     Conv Signed {| l_count := 0; left := false; padc := ch_space; padn := 5 |};
     Lit 124; Conv String no_flags] demo_out) as (s' & E & _ & F & _).
  - split; cbn; vm_compute; try (split; congruence); done.
  - reflexivity.
  - vm_compute. reflexivity.
  - repeat constructor; done.
  - vm_compute. reflexivity.
  - exists s'. split; [exact E|exact F].
Defined.
