(* ===== verification/NvmSpec.v ===== *)
(** * What the session state promises

    An abstract session state: the build message, the test to run, its
    progress, a table of results, the text of the current output and the
    space left for outputs.  [rep] relates a store, under any implementation
    of [NvmStore], to it; every operation of
    tftf/framework/nvm_results_helpers.c simulates its abstract counterpart,
    on its error branch too. *)

From S2P Require Import Prelude Bytes Printf Nvm.

Local Open Scope Z_scope.

(** ** The abstract state *)

Record entry := { e_result : Z; e_duration : Z; e_output : list Z }.

Record spec := {
  sp_message : list Z;
  sp_ref : test_ref_t;
  sp_progress : Z;
  sp_results : Z → entry;
  sp_free : Z;
  sp_cap : Z;
  sp_out : list Z;
}.

Definition sp_set_message (a : spec) (m : list Z) : spec :=
  {| sp_message := m; sp_ref := sp_ref a; sp_progress := sp_progress a;
     sp_results := sp_results a; sp_free := sp_free a; sp_cap := sp_cap a; sp_out := sp_out a |}.
Definition sp_set_ref (a : spec) (r : test_ref_t) : spec :=
  {| sp_message := sp_message a; sp_ref := r; sp_progress := sp_progress a;
     sp_results := sp_results a; sp_free := sp_free a; sp_cap := sp_cap a; sp_out := sp_out a |}.
Definition sp_set_progress (a : spec) (p : Z) : spec :=
  {| sp_message := sp_message a; sp_ref := sp_ref a; sp_progress := p;
     sp_results := sp_results a; sp_free := sp_free a; sp_cap := sp_cap a; sp_out := sp_out a |}.
Definition sp_set_out (a : spec) (x : list Z) : spec :=
  {| sp_message := sp_message a; sp_ref := sp_ref a; sp_progress := sp_progress a;
     sp_results := sp_results a; sp_free := sp_free a; sp_cap := sp_cap a; sp_out := x |}.

(** The space an output takes *)
Definition out_cost (x : list Z) : Z := if zlen x =? 0 then 0 else zlen x + 1.

(** Without space for its output, a test gets no result. *)
Definition sp_set_result (a : spec) (i res dur : Z) : Z * spec :=
  if sp_free a <? out_cost (sp_out a) then (STATUS_OUT_OF_RESOURCES, sp_set_out a [])
  else
    (STATUS_SUCCESS,
     {| sp_message := sp_message a; sp_ref := sp_ref a; sp_progress := sp_progress a;
        sp_results := λ j, if decide (j = i) then
                             {| e_result := res; e_duration := dur; e_output := sp_out a |}
                           else sp_results a j;
        sp_free := sp_free a - out_cost (sp_out a); sp_cap := sp_cap a; sp_out := [] |}).

Definition sp_printf (a : spec) (x : list Z) : Z * spec :=
  let room := sp_cap a - zlen (sp_out a) - 1 in
  (Z.min (zlen x) room, sp_set_out a (sp_out a ++ take (Z.to_nat room) x)).

Section Spec.

Context {T : Type} `{NvmStore T}.
Context (COUNT : Z).
Context (build_message : list Z).

Abbreviation bytes s := (nvm_bytes (store s)).

Definition entry_at (b : list Z) (i : Z) : entry :=
  {| e_result := result (record_at b i); e_duration := duration (record_at b i);
     e_output := output_at COUNT b i |}.

(** The store [s] holds the abstract state [a]. *)
Record rep (s : nvm_env (T := T)) (a : spec) : Prop := {
  rp_ok : nvm_ok (store s);
  rp_res : results_ok COUNT (bytes s);
  rp_small : zlen (bytes s) < off_result_buffer COUNT + 2 ^ 32 ∧ zlen (bytes s) < 2 ^ 63;
  rp_view : view (bytes s) = {| sv_message := sp_message a; sv_ref := sp_ref a;
                                sv_progress := sp_progress a |};
  rp_results : ∀ i, 0 <= i < COUNT → entry_at (bytes s) i = sp_results a i;
  rp_free : sp_free a = zlen (bytes s) - off_result_buffer COUNT - buffer_size COUNT (bytes s);
  rp_out : output_ok s;
  rp_cap : zlen (testcase_output s) = sp_cap a;
  rp_text : text s = sp_out a;
}.

Lemma entry_same (b b' : list Z) (i : Z) :
  same_results COUNT b b' i → entry_at b' i = entry_at b i.
Proof. intros [E1 E2]. unfold entry_at. by rewrite E1, E2. Qed.

Lemma output_ok_store (s : nvm_env (T := T)) (t : T) : output_ok s → output_ok (with_store s t).
Proof. by intros []. Qed.

(** Operations that leave the results and the output alone *)
Lemma rep_header (s : nvm_env) (t : T) (a : spec) (m : list Z) (r : test_ref_t) (p : Z) :
  rep s a → nvm_ok t → results_ok COUNT (nvm_bytes t) →
  same_size COUNT (bytes s) (nvm_bytes t) →
  view (nvm_bytes t) = {| sv_message := m; sv_ref := r; sv_progress := p |} →
  (∀ i, 0 <= i < COUNT → same_results COUNT (bytes s) (nvm_bytes t) i) →
  rep (with_store s t)
    {| sp_message := m; sp_ref := r; sp_progress := p; sp_results := sp_results a;
       sp_free := sp_free a; sp_cap := sp_cap a; sp_out := sp_out a |}.
Proof.
  intros [] Hok Hro [Hz Hb] Hv Hs. split; cbn; try done; [by rewrite Hz| | |].
  - intros i Hi. rewrite (entry_same _ _ _ (Hs i Hi)). by apply rp_results0.
  - by rewrite Hz, Hb.
  - by apply output_ok_store.
Qed.

Lemma rep_view_fields (s : nvm_env) (a : spec) :
  rep s a → message_at (bytes s) = sp_message a ∧ ref_at (bytes s) = sp_ref a
            ∧ progress_at (bytes s) = sp_progress a.
Proof.
  intros Hr. pose proof (rp_view _ _ Hr) as Hv. split_and!.
  - apply (f_equal sv_message Hv).
  - apply (f_equal sv_ref Hv).
  - apply (f_equal sv_progress Hv).
Qed.

Lemma sim_set_ref (s : nvm_env) (a : spec) (r : test_ref_t) :
  rep s a → ref_fits r →
  ∃ s', tftf_set_test_to_run r s = Ok (STATUS_SUCCESS, s') ∧ rep s' (sp_set_ref a r).
Proof.
  intros Hr Hf. destruct (rep_view_fields _ _ Hr) as (E1 & E2 & E3).
  destruct (set_test_to_run_run COUNT s r (rp_ok _ _ Hr) (rp_res _ _ Hr) Hf)
    as (t & E & K & R & Z0 & V & S). rewrite E1, E3 in V.
  eexists. split; [exact E|]. by eapply rep_header.
Qed.

Lemma sim_set_progress (s : nvm_env) (a : spec) (p : test_progress_t) :
  rep s a →
  ∃ s', tftf_set_test_progress p s = Ok (STATUS_SUCCESS, s')
        ∧ rep s' (sp_set_progress a (progress_code p)).
Proof.
  intros Hr. destruct (rep_view_fields _ _ Hr) as (E1 & E2 & E3).
  destruct (set_progress_run COUNT s p (rp_ok _ _ Hr) (rp_res _ _ Hr))
    as (t & E & K & R & Z0 & V & S). rewrite E1, E2 in V.
  eexists. split; [exact E|]. by eapply rep_header.
Qed.

Lemma sim_clean (s : nvm_env) (a : spec) :
  rep s a →
  ∃ s', tftf_clean_nvm s = Ok (STATUS_SUCCESS, s')
        ∧ rep s' (sp_set_message a (0 :: tl (sp_message a))).
Proof.
  intros Hr. destruct (rep_view_fields _ _ Hr) as (E1 & E2 & E3).
  destruct (clean_run COUNT s (rp_ok _ _ Hr) (rp_res _ _ Hr))
    as (t & E & K & R & Z0 & V & _ & S). rewrite E1, E2, E3 in V.
  eexists. split; [exact E|]. by eapply rep_header.
Qed.

(** Reads *)
Lemma rep_store (s : nvm_env) (t : T) (a : spec) :
  rep s a → nvm_ok t → nvm_bytes t = bytes s → rep (with_store s t) a.
Proof.
  intros [] K B. split; cbn; rewrite ?B; try done. by apply output_ok_store.
Qed.

Lemma sim_get_ref (s : nvm_env) (a : spec) :
  rep s a → ∃ s', tftf_get_test_to_run s = Ok ((STATUS_SUCCESS, sp_ref a), s') ∧ rep s' a.
Proof.
  intros Hr. destruct (rep_view_fields _ _ Hr) as (_ & <- & _).
  destruct (get_test_to_run_run COUNT s (rp_ok _ _ Hr) (rp_res _ _ Hr)) as (t & E & K & B).
  eexists. split; [exact E|]. by apply rep_store.
Qed.

Lemma sim_get_progress (s : nvm_env) (a : spec) :
  rep s a → ∃ s', tftf_get_test_progress s = Ok ((STATUS_SUCCESS, sp_progress a), s') ∧ rep s' a.
Proof.
  intros Hr. destruct (rep_view_fields _ _ Hr) as (_ & _ & <-).
  destruct (get_progress_run COUNT s (rp_ok _ _ Hr) (rp_res _ _ Hr)) as (t & E & K & B).
  eexists. split; [exact E|]. by apply rep_store.
Qed.

Lemma sim_new_session (s : nvm_env) (a : spec) :
  rep s a →
  ∃ s', new_test_session build_message s =
          Ok (negb (strncmp_eq (Z.to_nat BUILD_MESSAGE_SIZE) build_message (sp_message a)), s')
        ∧ rep s' a.
Proof.
  intros Hr. destruct (rep_view_fields _ _ Hr) as (<- & _ & _).
  destruct (new_session_run COUNT build_message s (rp_ok _ _ Hr) (rp_res _ _ Hr))
    as (t & E & K & B).
  eexists. split; [exact E|]. by apply rep_store.
Qed.

Lemma sim_get_result (s : nvm_env) (a : spec) (i : Z) :
  rep s a → 0 <= i < COUNT →
  ∃ s' r, tftf_testcase_get_result COUNT i s =
            Ok ((STATUS_SUCCESS, r, e_output (sp_results a i)), s')
          ∧ result r = e_result (sp_results a i) ∧ duration r = e_duration (sp_results a i)
          ∧ rep s' a.
Proof.
  intros Hr Hi. rewrite <- (rp_results _ _ Hr i Hi).
  destruct (get_result_run COUNT s i (rp_ok _ _ Hr) (rp_res _ _ Hr) Hi) as (t & E & B & K).
  do 2 eexists. split; [exact E|]. split_and!; [done|done|]. by apply rep_store.
Qed.

(** ** Results and output *)

Lemma rep_string (s : nvm_env (T := T)) (a : spec) :
  rep s a → string_length (testcase_output s) = zlen (sp_out a)
            ∧ take (Z.to_nat (string_length (testcase_output s))) (testcase_output s) = sp_out a.
Proof.
  intros []. destruct rp_out0. rewrite oo_term, <- rp_text0. split; [|done].
  unfold text. by rewrite zlen_prefix by lia.
Qed.

Lemma output_reset (out : list Z) : 0 < zlen out → string_length (zset out 0 0) = 0.
Proof. destruct out as [|c l]; [done|]. done. Qed.

(** After the label [reset_test_output] *)
Lemma rep_reset (s s' : nvm_env (T := T)) :
  output_ok s → testcase_output s' = zset (testcase_output s) 0 0 → testcase_output_idx s' = 0 →
  testcase_output_lock s' = testcase_output_lock s →
  output_ok s' ∧ zlen (testcase_output s') = zlen (testcase_output s) ∧ text s' = [].
Proof.
  intros [] Ho Hi Hl. split_and!.
  - split; rewrite ?Ho, ?Hi, ?zlen_zset; try lia; [|congruence]. apply output_reset. lia.
  - by rewrite Ho, zlen_zset.
  - unfold text. by rewrite Hi.
Qed.


Lemma header_slice (b : list Z) (off n : Z) :
  0 <= off → 0 <= n → off + n <= off_testcase_results →
  slice off n (header b) = slice off n b.
Proof. intros. unfold header. by rewrite slice_slice by lia. Qed.

Lemma sim_set_result (s : nvm_env) (a : spec) (i res dur : Z) :
  rep s a → 0 <= i < COUNT → -2147483648 <= res < 2147483648 → 0 <= dur < 2 ^ 64 →
  ∃ s', tftf_testcase_set_result COUNT i res dur s = Ok ((sp_set_result a i res dur).1, s')
        ∧ rep s' (sp_set_result a i res dur).2.
Proof.
  intros Hr Hi Hres Hdur. destruct (rep_string _ _ Hr) as [Hlen Htext].
  pose proof (zlen_nonneg (sp_out a)). pose proof (layout COUNT).
  destruct Hr as [Rok Rres Rsmall Rview Rresults Rfree Rout Rcap Rtext].
  pose proof (ro_size _ _ Rres). pose proof (ro_count _ _ Rres). pose proof Rout as [Hs Hw Ht Hl].
  assert (zlen (sp_out a) = testcase_output_idx s) as Hidx by congruence.
  unfold sp_set_result, out_cost in *.
  destruct (Z.ltb_spec (sp_free a) (if zlen (sp_out a) =? 0 then 0 else zlen (sp_out a) + 1))
    as [Hlt|Hge]; cbn [fst snd].
  - destruct (Z.eqb_spec (zlen (sp_out a)) 0) as [E0|E0]; [lia|].
    destruct (set_result_no_room_run COUNT s i res dur Rok Rres) as (s' & E & K & B & I & O & L);
      [lia|lia|].
    destruct (rep_reset s s' Rout O I L) as (P1 & P2 & P3).
    exists s'. split; [done|]. split; cbn; rewrite ?B; try done. congruence.
  - assert (string_length (testcase_output s) ≠ 0 →
            room COUNT (bytes s) (testcase_output s)) as Hroom.
    { intros Hne. rewrite (proj2 (Z.eqb_neq _ _)) in Hge by lia. split; lia. }
    destruct (set_result_run COUNT s i res dur Rok Rres Hroom Hi Hres Hdur)
      as (s' & E & K & (R' & Z' & B' & H' & Q1 & Q2 & Q3 & Q4) & O & I & L).
    destruct (rep_reset s s' Rout O I L) as (P1 & P2 & P3).
    exists s'. split; [done|]. split; cbn; try done.
    + by rewrite Z'.
    + rewrite <- Rview. unfold view, message_at, ref_at, progress_at.
      rewrite <- !(header_slice (bytes s')), <- !(header_slice (bytes s)), H' by done. done.
    + intros j Hj. case_decide as Hd.
      * subst j. unfold entry_at. by rewrite Q1, Q2, Q3, Htext.
      * rewrite (entry_same _ _ _ (Q4 j Hj Hd)). by apply Rresults.
    + rewrite Z', B', Hlen, Rfree. lia.
    + congruence.
Qed.


Lemma sim_printf (s : nvm_env) (a : spec) (fmt : list Z) (args : list arg)
    (ds : list directive) (x : list Z) :
  rep s a → parse_format false Text fmt = Some ds → render ds args = Some x →
  Forall (λ c, c ≠ 0) x → zlen x < 2 ^ 31 →
  ∃ s', tftf_testcase_printf fmt args s = Ok ((sp_printf a x).1, s')
        ∧ rep s' (sp_printf a x).2.
Proof.
  intros Hr Hp Hx Hnz Hlen. destruct (rep_string _ _ Hr) as [Hl _].
  destruct Hr as [Rok Rres Rsmall Rview Rresults Rfree Rout Rcap Rtext].
  destruct (testcase_printf_run s fmt args ds x Rout Hp Hx Hnz Hlen)
    as (s' & E & O & X & Z' & S').
  rewrite (oo_term _ Rout) in Hl.
  unfold sp_printf. rewrite <- Rcap, <- Hl. exists s'. split; [done|].
  split; cbn; rewrite ?S'; try done; [by rewrite Rcap in Z'|]. by rewrite X, Rtext.
Qed.

(** The state of a new session *)
Definition sp_initial (space cap : Z) : spec :=
  {| sp_message := strncpy_bytes (Z.to_nat BUILD_MESSAGE_SIZE) build_message;
     sp_ref := {| testsuite_idx := 0; testcase_idx := 0 |};
     sp_progress := progress_code TEST_READY;
     sp_results := λ i, {| e_result := if decide (i = 0) then TEST_RESULT_NA
                                       else TEST_RESULT_SKIPPED;
                           e_duration := 0; e_output := [] |};
     sp_free := space; sp_cap := cap; sp_out := [] |}.

Lemma sim_init (s : nvm_env) :
  nvm_ok (store s) → 0 < COUNT → sizeof_tftf_state COUNT <= zlen (bytes s) →
  zlen (bytes s) < off_result_buffer COUNT + 2 ^ 32 → zlen (bytes s) < 2 ^ 63 →
  output_ok s → text s = [] →
  ∃ s', tftf_init_nvm COUNT build_message s = Ok (STATUS_SUCCESS, s')
        ∧ rep s' (sp_initial (zlen (bytes s) - off_result_buffer COUNT)
                    (zlen (testcase_output s))).
Proof.
  intros Hok Hc Hsz Hs1 Hs2 Hout Htext. pose proof (zlen_init COUNT build_message Hc) as Hz.
  destruct (env_write_run s 0 (init_state_bytes COUNT build_message)) as (t & E & B & K & Z0);
    [done|lia|lia|].
  destruct (init_results COUNT build_message (bytes s) Hc Hsz) as (R & F0 & Fi).
  pose proof (init_view COUNT build_message (bytes s) Hc Hsz) as V.
  exists (with_store s t). split; [exact E|].
  split; cbn; rewrite ?B; try done; try (by apply output_ok_store).
  - rewrite <- B, Z0. done.
  - intros i Hi. unfold entry_at, output_at. case_decide as Hd.
    + subst i. by rewrite F0.
    + by rewrite Fi by lia.
  - rewrite (init_buffer_size COUNT build_message) by done. rewrite <- B, Z0. lia.
Qed.

(** ** Sequences of operations *)

Inductive op : Type :=
| NewSession
| SetRef (r : test_ref_t)
| GetRef
| SetProgress (p : test_progress_t)
| GetProgress
| SetResult (index res dur : Z)
| GetResult (index : Z)
| TestPrintf (fmt : list Z) (args : list arg)
| NotifyReboot
| CleanNvm.

Inductive answer : Type :=
| IsNew (b : bool)
| Status (st : Z)
| RefIs (st : Z) (r : test_ref_t)
| ProgressIs (st c : Z)
| ResultIs (st res dur : Z) (out : list Z)
| Done.

Definition run_op (o : op) : M (nvm_env (T := T)) answer :=
  match o with
  | NewSession => b ← new_test_session build_message; mret (IsNew b)
  | SetRef r => st ← tftf_set_test_to_run r; mret (Status st)
  | GetRef => r ← tftf_get_test_to_run; mret (RefIs r.1 r.2)
  | SetProgress p => st ← tftf_set_test_progress p; mret (Status st)
  | GetProgress => r ← tftf_get_test_progress; mret (ProgressIs r.1 r.2)
  | SetResult i res dur => st ← tftf_testcase_set_result COUNT i res dur; mret (Status st)
  | GetResult i =>
      r ← tftf_testcase_get_result COUNT i;
      mret (ResultIs r.1.1 (result r.1.2) (duration r.1.2) r.2)
  | TestPrintf fmt args => n ← tftf_testcase_printf fmt args; mret (Status n)
  | NotifyReboot => tftf_notify_reboot;; mret Done
  | CleanNvm => st ← tftf_clean_nvm; mret (Status st)
  end.

(** The text a format stands for *)
Definition formatted (fmt : list Z) (args : list arg) : list Z :=
  match parse_format false Text fmt with
  | Some ds => default [] (render ds args)
  | None => []
  end.

Definition spec_op (o : op) (a : spec) : answer * spec :=
  match o with
  | NewSession =>
      (IsNew (negb (strncmp_eq (Z.to_nat BUILD_MESSAGE_SIZE) build_message (sp_message a))), a)
  | SetRef r => (Status STATUS_SUCCESS, sp_set_ref a r)
  | GetRef => (RefIs STATUS_SUCCESS (sp_ref a), a)
  | SetProgress p => (Status STATUS_SUCCESS, sp_set_progress a (progress_code p))
  | GetProgress => (ProgressIs STATUS_SUCCESS (sp_progress a), a)
  | SetResult i res dur =>
      let r := sp_set_result a i res dur in (Status r.1, r.2)
  | GetResult i =>
      let e := sp_results a i in
      (ResultIs STATUS_SUCCESS (e_result e) (e_duration e) (e_output e), a)
  | TestPrintf fmt args => let r := sp_printf a (formatted fmt args) in (Status r.1, r.2)
  | NotifyReboot => (Done, sp_set_progress a (progress_code TEST_REBOOTING))
  | CleanNvm => (Status STATUS_SUCCESS, sp_set_message a (0 :: tl (sp_message a)))
  end.

(** What the callers respect *)
Definition op_ok (a : spec) (o : op) : Prop :=
  match o with
  | SetRef r => ref_fits r
  | SetResult i res dur =>
      0 <= i < COUNT ∧ -2147483648 <= res < 2147483648 ∧ 0 <= dur < 2 ^ 64
  | GetResult i => 0 <= i < COUNT
  | TestPrintf fmt args =>
      (∃ ds x, parse_format false Text fmt = Some ds ∧ render ds args = Some x)
      ∧ Forall (λ c, c ≠ 0) (formatted fmt args) ∧ zlen (formatted fmt args) < 2 ^ 31
  | NotifyReboot => sp_progress a = progress_code TEST_IN_PROGRESS
  | _ => True
  end.

Fixpoint run_ops (os : list op) : M (nvm_env (T := T)) (list answer) :=
  match os with
  | [] => mret []
  | o :: os' => x ← run_op o; xs ← run_ops os'; mret (x :: xs)
  end.

Fixpoint spec_ops (os : list op) (a : spec) : list answer * spec :=
  match os with
  | [] => ([], a)
  | o :: os' =>
      let '(x, a1) := spec_op o a in
      let '(xs, a2) := spec_ops os' a1 in (x :: xs, a2)
  end.

Fixpoint ops_ok (a : spec) (os : list op) : Prop :=
  match os with
  | [] => True
  | o :: os' => op_ok a o ∧ ops_ok (spec_op o a).2 os'
  end.

Lemma sim_notify_reboot (s : nvm_env) (a : spec) :
  rep s a → sp_progress a = progress_code TEST_IN_PROGRESS →
  ∃ s', tftf_notify_reboot s = Ok (tt, s')
        ∧ rep s' (sp_set_progress a (progress_code TEST_REBOOTING)).
Proof.
  intros Hr Hp. destruct (sim_get_progress s a Hr) as (s1 & E1 & R1).
  destruct (sim_set_progress s1 a TEST_REBOOTING R1) as (s2 & E2 & R2).
  exists s2. split; [|done]. unfold tftf_notify_reboot.
  erewrite bind_Ok; [|exact E1]. cbn [snd]. rewrite Hp. erewrite bind_Ok; [|reflexivity].
  by erewrite bind_Ok; [|exact E2].
Qed.

(** One operation *)
Lemma sim_op (s : nvm_env) (a : spec) (o : op) :
  rep s a → op_ok a o → ∃ s', run_op o s = Ok ((spec_op o a).1, s') ∧ rep s' (spec_op o a).2.
Proof.
  intros Hr Ho. destruct o; cbn [run_op spec_op op_ok fst snd] in *.
  - destruct (sim_new_session s a Hr) as (s' & E & R). exists s'. split; [by erewrite bind_Ok by exact E|done].
  - destruct (sim_set_ref s a r Hr Ho) as (s' & E & R). exists s'. split; [by erewrite bind_Ok by exact E|done].
  - destruct (sim_get_ref s a Hr) as (s' & E & R). exists s'. split; [by erewrite bind_Ok by exact E|done].
  - destruct (sim_set_progress s a p Hr) as (s' & E & R). exists s'. split; [by erewrite bind_Ok by exact E|done].
  - destruct (sim_get_progress s a Hr) as (s' & E & R). exists s'. split; [by erewrite bind_Ok by exact E|done].
  - destruct Ho as (? & ? & ?).
    destruct (sim_set_result s a index res dur) as (s' & E & R); [done..|].
    exists s'. split; [by erewrite bind_Ok by exact E|done].
  - destruct (sim_get_result s a index Hr Ho) as (s' & r & E & Q1 & Q2 & R).
    exists s'. erewrite bind_Ok by exact E. cbn. by rewrite Q1, Q2.
  - destruct Ho as ((ds & x & Hp & Hx) & Hnz & Hlen).
    unfold formatted in *. rewrite Hp, Hx in *. cbn in *.
    destruct (sim_printf s a fmt args ds x) as (s' & E & R); [done..|].
    exists s'. split; [by erewrite bind_Ok by exact E|done].
  - destruct (sim_notify_reboot s a Hr Ho) as (s' & E & R). exists s'. split; [by erewrite bind_Ok by exact E|done].
  - destruct (sim_clean s a Hr) as (s' & E & R). exists s'. split; [by erewrite bind_Ok by exact E|done].
Qed.

Lemma sim_ops (os : list op) (s : nvm_env) (a : spec) :
  rep s a → ops_ok a os →
  ∃ s', run_ops os s = Ok ((spec_ops os a).1, s') ∧ rep s' (spec_ops os a).2.
Proof.
  revert s a. induction os as [|o os IH]; intros s a Hr Ho; cbn [run_ops spec_ops].
  { by exists s. }
  destruct Ho as [Ho Hos]. destruct (sim_op s a o Hr Ho) as (s1 & E1 & R1).
  destruct (spec_op o a) as [x a1]. cbn [fst snd] in *.
  destruct (IH s1 a1 R1 Hos) as (s2 & E2 & R2). destruct (spec_ops os a1) as [xs a2].
  exists s2. erewrite bind_Ok by exact E1. by erewrite bind_Ok by exact E2.
Qed.

(** C4: the session state refines its abstract specification: after
    tftf_init_nvm() on any store large enough, every sequence of operations
    of the framework returns exactly the answers of the abstract state, and
    the store still holds it at the end. *)
Theorem session_state_refines (s : nvm_env) (os : list op) :
  nvm_ok (store s) → 0 < COUNT → sizeof_tftf_state COUNT <= zlen (bytes s) →
  zlen (bytes s) < off_result_buffer COUNT + 2 ^ 32 → zlen (bytes s) < 2 ^ 63 →
  output_ok s → text s = [] →
  let a := sp_initial (zlen (bytes s) - off_result_buffer COUNT) (zlen (testcase_output s)) in
  ops_ok a os →
  ∃ s1 s2, tftf_init_nvm COUNT build_message s = Ok (STATUS_SUCCESS, s1)
    ∧ run_ops os s1 = Ok ((spec_ops os a).1, s2) ∧ rep s2 (spec_ops os a).2.
Proof.
  intros Hok Hc Hsz Hs1 Hs2 Hout Htext a Hos.
  destruct (sim_init s Hok Hc Hsz Hs1 Hs2 Hout Htext) as (s1 & E1 & R1).
  destruct (sim_ops os s1 a R1 Hos) as (s2 & E2 & R2). by exists s1, s2.
Qed.

End Spec.

(** ** Witness: a test that fails with an output, read back after a reboot flag *)

Definition demo_ops : list op :=
  [SetProgress TEST_IN_PROGRESS; TestPrintf demo_fmt demo_args; NotifyReboot;
   SetResult 1 TEST_RESULT_FAIL 5; GetResult 1; GetProgress; CleanNvm; NewSession].

Definition demo_blank : nvm_env (T := dram_nvm) :=
  {| store := {| dram := replicate 300 0 |}; testcase_output := replicate 64 0;
     testcase_output_idx := 0; testcase_output_lock := false |}.

Lemma session_state_refines_witness :
  ∃ s1 s2, tftf_init_nvm 2 demo_msg demo_blank = Ok (STATUS_SUCCESS, s1)
    ∧ run_ops 2 demo_msg demo_ops s1 =
      Ok ([Status 0; Status 14; Done; Status 0; ResultIs 0 2 5 demo_out;
           ProgressIs 0 3; Status 0; IsNew true], s2).
Proof.
  destruct (session_state_refines 2 demo_msg demo_blank demo_ops) as (s1 & s2 & E1 & E2 & _).
  - vm_compute. reflexivity.
  - lia.
  - vm_compute. congruence.
  - vm_compute. reflexivity.
  - vm_compute. reflexivity.
  - split; cbn; vm_compute; try (split; congruence); done.
  - reflexivity.
  - cbn. split_and!; try done; try lia.
    + do 2 eexists. split; reflexivity.
    + vm_compute. repeat constructor; done.
  - exists s1, s2. split; [exact E1|exact E2].
Defined.
