(* ===== verification/Session.v ===== *)
(** * The test session (tftf/framework/main.c, tftf/framework/report.c)

    The order of the tests, the life of one test on the CPUs that take part in
    it, the overall result, the move to the next test, the report, and the
    resumption of a session after a reset.  The session state in NVM is the
    component [Nvm], used through [NvmStore]; the reference count and the
    state of the CPUs are the component [Hotplug].  As in [Hotplug], a CPU is
    named by its core position. *)

From S2P Require Import Prelude Bytes Printf Hotplug Nvm NvmSpec.

Local Open Scope Z_scope.

(** ** The list of tests

    The arrays the build generates (tools/generate_test_list) end with an
    entry whose name is NULL. *)

Record test_case_t := {
  tc_index : Z;
  tc_name : option (list Z);
  tc_test : Z;
}.
Record test_suite_t := {
  ts_name : option (list Z);
  testcases : list test_case_t;
}.

Definition null_testcase : test_case_t := {| tc_index := 0; tc_name := None; tc_test := 0 |}.
Definition null_testsuite : test_suite_t := {| ts_name := None; testcases := [] |}.

(** [generate_testcase_lists()] and [generate_testsuite_lists()]: a suite is
    its name and its test cases, a test case its name and its function. *)
Fixpoint generate_testcases (index : Z) (tcs : list (list Z * Z)) : list test_case_t :=
  match tcs with
  | [] => [null_testcase]
  | (n, f) :: tcs' =>
      {| tc_index := index; tc_name := Some n; tc_test := f |}
        :: generate_testcases (index + 1) tcs'
  end.

Fixpoint generate_testsuites (index : Z) (tss : list (list Z * list (list Z * Z)))
    : list test_suite_t :=
  match tss with
  | [] => [null_testsuite]
  | (n, tcs) :: tss' =>
      {| ts_name := Some n; testcases := generate_testcases index tcs |}
        :: generate_testsuites (index + zlen tcs) tss'
  end.

(** ** The state *)

(** What is done to the platform or printed *)
Inductive event : Type :=
| WatchdogSet
| WatchdogReset
| SuiteStart (name : option (list Z))
| TestStart (name : option (list Z))
| TestEnd (res : Z) (output : list Z)
| NoResult
| SuiteResult (name : option (list Z)) (passed : bool)
| Stat (res count : Z)
| TotalTests (count : Z)
| PlatformEnd.

Definition PSCI_STATE_ON : Z := 0.

Section Session_ops.

Context {T : Type} `{NvmStore T}.
Context (TESTCASE_RESULT_COUNT : Z) (build_message : list Z).
Context (PLATFORM_CORE_COUNT : Z).
Context (testsuites : list test_suite_t).

(** [for_each_cpu]: the core positions of the CPUs of the topology, in order *)
Context (cpus : list Z).

(** Build options: [DEBUG], and
    [PLAT_SUPPORTS_NS_RESET && !NEW_TEST_SESSION && USE_NVM] *)
Context (DEBUG reset_between_tests : bool).

Record session := {
  nv : nvm_env (T := T);
  hs : hp_state;
  test_results : list Z;
  test_is_rebooting : Z;
  lead_cpu : Z;
  cpu_on_ctx_id_arr : list Z;
  events : list event;
}.

Definition lift_nv {A} (m : M nvm_env A) : M session A := λ s,
  match m (nv s) with
  | Ok (a, n) => Ok (a, {| nv := n; hs := hs s; test_results := test_results s;
                           test_is_rebooting := test_is_rebooting s; lead_cpu := lead_cpu s;
                           cpu_on_ctx_id_arr := cpu_on_ctx_id_arr s; events := events s |})
  | Stop w => Stop w
  end.
Definition lift_hs {A} (m : M hp_state A) : M session A := λ s,
  match m (hs s) with
  | Ok (a, h) => Ok (a, {| nv := nv s; hs := h; test_results := test_results s;
                           test_is_rebooting := test_is_rebooting s; lead_cpu := lead_cpu s;
                           cpu_on_ctx_id_arr := cpu_on_ctx_id_arr s; events := events s |})
  | Stop w => Stop w
  end.
Definition set_results (l : list Z) : M session unit :=
  modify (λ s, {| nv := nv s; hs := hs s; test_results := l;
                  test_is_rebooting := test_is_rebooting s; lead_cpu := lead_cpu s;
                  cpu_on_ctx_id_arr := cpu_on_ctx_id_arr s; events := events s |}).
Definition set_rebooting (v : Z) : M session unit :=
  modify (λ s, {| nv := nv s; hs := hs s; test_results := test_results s;
                  test_is_rebooting := v; lead_cpu := lead_cpu s;
                  cpu_on_ctx_id_arr := cpu_on_ctx_id_arr s; events := events s |}).
(** [lead_cpu_mpid = read_mpidr_el1() & MPID_MASK] *)
Definition set_lead (v : Z) : M session unit :=
  modify (λ s, {| nv := nv s; hs := hs s; test_results := test_results s;
                  test_is_rebooting := test_is_rebooting s; lead_cpu := v;
                  cpu_on_ctx_id_arr := cpu_on_ctx_id_arr s; events := events s |}).
Definition note (e : event) : M session unit :=
  modify (λ s, {| nv := nv s; hs := hs s; test_results := test_results s;
                  test_is_rebooting := test_is_rebooting s; lead_cpu := lead_cpu s;
                  cpu_on_ctx_id_arr := cpu_on_ctx_id_arr s; events := e :: events s |}).

(** The context IDs of [tftf_psci_cpu_on()] *)
Definition tftf_get_cpu_on_ctx_id (core_pos : Z) : M session Z :=
  assert_ (core_pos <? PLATFORM_CORE_COUNT);;
  s ← get; aget (cpu_on_ctx_id_arr s) core_pos.
Definition tftf_set_cpu_on_ctx_id (core_pos context_id : Z) : M session unit :=
  assert_ (core_pos <? PLATFORM_CORE_COUNT);;
  s ← get;
  l ← aset (cpu_on_ctx_id_arr s) core_pos context_id;
  modify (λ s, {| nv := nv s; hs := hs s; test_results := test_results s;
                  test_is_rebooting := test_is_rebooting s; lead_cpu := lead_cpu s;
                  cpu_on_ctx_id_arr := l; events := events s |}).

Definition tftf_is_rebooted : M session Z := s ← get; mret (test_is_rebooting s).

(** ** The current and the next test *)

Definition current_testsuite : M session test_suite_t :=
  r ← lift_nv tftf_get_test_to_run;
  aget testsuites (testsuite_idx r.2).

Definition current_testcase : M session test_case_t :=
  r ← lift_nv tftf_get_test_to_run;
  ts ← aget testsuites (testsuite_idx r.2);
  aget (testcases ts) (testcase_idx r.2).

(** The new reference is stored, and the test is ready. *)
Definition move_to (testsuite_idx testcase_idx : Z) : M session unit :=
  lift_nv (tftf_set_test_to_run {| testsuite_idx := testsuite_idx;
                                   testcase_idx := testcase_idx |});;
  lift_nv (tftf_set_test_progress TEST_READY);;
  mret tt.

(** [None] is the NULL pointer: there are no more tests. *)
Definition advance_to_next_test : M session (option test_case_t) :=
  (if DEBUG then
     progress ← lift_nv tftf_get_test_progress;
     assert_ (progress.2 =? progress_code TEST_COMPLETE)
   else mret tt);;
  test_to_run ← lift_nv tftf_get_test_to_run;
  let tsi := testsuite_idx test_to_run.2 in
  let tci := u32 (testcase_idx test_to_run.2 + 1) in
  ts ← aget testsuites tsi;
  testcase ← aget (testcases ts) tci;
  match tc_name testcase with
  | None =>
      let tsi := u32 (tsi + 1) in
      testsuite ← aget testsuites tsi;
      match ts_name testsuite with
      | None => mret None
      | Some _ =>
          testcase ← aget (testcases testsuite) 0;
          move_to tsi 0;;
          mret (Some testcase)
      end
  | Some _ =>
      move_to tsi tci;;
      mret (Some testcase)
  end.

(** ** The report *)

Definition print_testsuite_start (ts : test_suite_t) : M session unit :=
  note (SuiteStart (ts_name ts)).
Definition print_test_start (tc : test_case_t) : M session unit := note (TestStart (tc_name tc)).

Definition print_test_end (tc : test_case_t) : M session unit :=
  r ← lift_nv (tftf_testcase_get_result TESTCASE_RESULT_COUNT (tc_index tc));
  assert_ (TEST_RESULT_IS_VALID (result r.1.2));;
  note (TestEnd (result r.1.2) r.2).

(** The loop over the test cases of a suite: [passed], [total_tests] and
    [tests_stats] are its variables. *)
Fixpoint summary_cases (tcs : list test_case_t) (passed : bool) (total : Z) (stats : list Z)
    : M session (bool * Z * list Z) :=
  match tcs with
  | [] => fail OutOfBounds
  | tc :: tcs' =>
      match tc_name tc with
      | None => mret (passed, total, stats)
      | Some _ =>
          r ← lift_nv (tftf_testcase_get_result TESTCASE_RESULT_COUNT (tc_index tc));
          if negb (r.1.1 =? STATUS_SUCCESS) then
            note NoResult;;
            summary_cases tcs' passed total stats
          else
            let res := result r.1.2 in
            assert_ (TEST_RESULT_IS_VALID res);;
            let passed := if negb (res =? TEST_RESULT_SUCCESS)
                             && negb (res =? TEST_RESULT_SKIPPED) then false else passed in
            n ← aget stats res;
            stats ← aset stats res (n + 1);
            summary_cases tcs' passed (total + 1) stats
      end
  end.

Fixpoint summary_suites (tss : list test_suite_t) (total : Z) (stats : list Z)
    : M session (Z * list Z) :=
  match tss with
  | [] => fail OutOfBounds
  | ts :: tss' =>
      match ts_name ts with
      | None => mret (total, stats)
      | Some _ =>
          r ← summary_cases (testcases ts) true total stats;
          note (SuiteResult (ts_name ts) r.1.1);;
          summary_suites tss' r.1.2 r.2
      end
  end.

(** [for (int i = TEST_RESULT_MIN; i < TEST_RESULT_MAX; i++)] *)
Fixpoint note_stats (i : Z) (stats : list Z) : M session unit :=
  match stats with
  | [] => mret tt
  | n :: stats' => note (Stat i n);; note_stats (i + 1) stats'
  end.

Definition print_tests_summary : M session unit :=
  r ← summary_suites testsuites 0 [0; 0; 0; 0];
  note_stats 0 r.2;;
  note (TotalTests r.1).


(** ** One test *)

(** [while (tftf_psci_affinity_info() == PSCI_STATE_ON) ;]: [answers] are the
    results of the calls made. *)
Fixpoint wait_affinity_off (answers : list Z) : M session unit :=
  match answers with
  | [] => fail FuelOut
  | a :: answers' => if a =? PSCI_STATE_ON then wait_affinity_off answers' else mret tt
  end.

(** The loop over the CPUs; [aff] gives the firmware's answers for a CPU. *)
Fixpoint wait_others (aff : Z → list Z) (l : list Z) : M session unit :=
  match l with
  | [] => mret tt
  | c :: l' =>
      s ← get;
      (if c =? lead_cpu s then on ← lift_hs (tftf_is_cpu_online c); assert_ on
       else wait_affinity_off (aff c));;
      wait_others aff l'
  end.

(** Executed by the CPU at [core_pos] *)
Definition prepare_next_test (aff : Z → list Z) (core_pos : Z) : M session unit :=
  s ← get;
  assert_ (core_pos =? lead_cpu s);;
  wait_others aff cpus;;
  cnt ← lift_hs tftf_get_ref_cnt;
  assert_ (cnt =? 0);;
  tc ← current_testcase;
  lift_hs (write_entrypoint (lead_cpu s) (tc_test tc));;
  set_results (replicate (Z.to_nat PLATFORM_CORE_COUNT) TEST_RESULT_NA);;
  test_to_run ← lift_nv tftf_get_test_to_run;
  (if testcase_idx test_to_run.2 =? 0 then
     ts ← current_testsuite; print_testsuite_start ts
   else mret tt);;
  tc ← current_testcase;
  print_test_start tc;;
  note WatchdogSet;;
  lift_nv (tftf_set_test_progress TEST_IN_PROGRESS);;
  mret tt.

(** The loop of [get_overall_test_result()], from the CPUs [l] on *)
Fixpoint overall_loop (l : list Z) (result : Z) : M session Z :=
  match l with
  | [] => assert_ (negb (result =? TEST_RESULT_NA));; mret result
  | core_pos :: l' =>
      s ← get;
      r ← aget (test_results s) core_pos;
      if r =? TEST_RESULT_NA then overall_loop l' result
      else if r =? TEST_RESULT_SKIPPED then mret TEST_RESULT_SKIPPED
      else if r =? TEST_RESULT_SUCCESS then overall_loop l' TEST_RESULT_SUCCESS
      else if r =? TEST_RESULT_FAIL then mret TEST_RESULT_FAIL
      else if r =? TEST_RESULT_CRASHED then mret TEST_RESULT_CRASHED
      else fail PanicCall
  end.

Definition get_overall_test_result : M session Z := overall_loop cpus TEST_RESULT_NA.

(** [close_test()] returns 1 or 0, or resets the platform. *)
Inductive closed : Set :=
| SessionFinished
| MoveOn
| PlatReset.

Definition close_test : M session closed :=
  (if DEBUG then
     progress ← lift_nv tftf_get_test_progress;
     assert_ (negb (progress.2 =? progress_code TEST_REBOOTING))
   else mret tt);;
  lift_nv (tftf_set_test_progress TEST_COMPLETE);;
  set_rebooting 0;;
  note WatchdogReset;;
  cnt ← lift_hs tftf_get_ref_cnt;
  assert_ (cnt =? 0);;
  tc ← current_testcase;
  res ← get_overall_test_result;
  lift_nv (tftf_testcase_set_result TESTCASE_RESULT_COUNT (tc_index tc) res 0);;
  tc ← current_testcase;
  print_test_end tc;;
  next ← advance_to_next_test;
  match next with
  | None =>
      print_tests_summary;;
      lift_nv tftf_clean_nvm;;
      mret SessionFinished
  | Some _ => mret (if reset_between_tests then PlatReset else MoveOn)
  end.

(** ** The loop of a CPU *)

Definition write_result (core_pos res : Z) : M session unit :=
  s ← get;
  l ← aset (test_results s) core_pos res;
  set_results l.

(** [run_tests()] up to the call of the test function *)
Definition enter_test (aff : Z → list Z) (core_pos : Z) : M session unit :=
  s ← get;
  cnt ← (if core_pos =? lead_cpu s then lift_hs tftf_get_ref_cnt else mret 1);
  (if (core_pos =? lead_cpu s) && (cnt =? 0) then prepare_next_test aff core_pos
   else mret tt);;
  lift_hs (tftf_inc_ref_cnt PLATFORM_CORE_COUNT);;
  write_result core_pos TEST_RESULT_CRASHED.

(** [while (test_entrypoint[core_pos] == 0) ;] and the address called *)
Definition test_to_call (core_pos : Z) : M session Z :=
  s ← get;
  ep ← aget (test_entrypoint (hs s)) core_pos;
  if ep =? 0 then fail FuelOut else mret ep.

(** What the CPU does once its test function has returned [res] *)
Inductive left_test : Set :=
| Closed (c : closed)
| PowerDown.

Definition leave_test (core_pos res : Z) : M session left_test :=
  write_result core_pos res;;
  lift_hs (write_entrypoint core_pos 0);;
  cpus_cnt ← lift_hs tftf_dec_ref_cnt;
  if cpus_cnt =? 0 then c ← close_test; mret (Closed c)
  else mret PowerDown.

(** [hand_over_to_lead_cpu()] up to the wait for the lead CPU: [tries] holds
    what the firmware answers in each call of [tftf_cpu_on()]. *)
Definition MIN_RETRY_TO_POWER_ON_LEAD_CPU : nat := 10.
Fixpoint power_on_lead (n : nat) (tries : list (list Z)) (ret : Z) : M session Z :=
  match n with
  | O => mret ret
  | S n' =>
      s ← get;
      match tries with
      | [] => fail FuelOut
      | rets :: tries' =>
          ret ← lift_hs (tftf_cpu_on rets (lead_cpu s) 0);
          if ret =? PSCI_E_SUCCESS then mret ret else power_on_lead n' tries' ret
      end
  end.

(** The calling CPU is switched off; the call does not return. *)
Definition power_down (fuel : nat) (psci : option Z) (core_pos : Z) : M session unit :=
  r ← lift_hs (tftf_cpu_off fuel psci core_pos);
  match r with
  | None => mret tt
  | Some _ => fail PanicCall
  end.

(** [while (!tftf_is_cpu_online(lead_cpu_mpid)) ;] passes once the lead CPU has
    booted. *)
Definition hand_over_to_lead_cpu (tries : list (list Z)) (fuel : nat) (psci : option Z)
    (core_pos : Z) : M session unit :=
  ret ← power_on_lead MIN_RETRY_TO_POWER_ON_LEAD_CPU tries 0;
  if negb (ret =? PSCI_E_SUCCESS) then fail PanicCall
  else
    s ← get;
    on ← lift_hs (tftf_is_cpu_online (lead_cpu s));
    if (on : bool) then power_down fuel psci core_pos else fail FuelOut.

(** ** Resuming a session *)

Definition resume_test_session : M session Z :=
  lift_nv tftf_get_test_to_run;;
  p ← lift_nv tftf_get_test_progress;
  match progress_of_code p.2 with
  | None => fail AssertFail
  | Some TEST_READY => mret 0
  | Some TEST_IN_PROGRESS =>
      tc ← current_testcase;
      lift_nv (tftf_testcase_set_result TESTCASE_RESULT_COUNT (tc_index tc)
                 TEST_RESULT_CRASHED 0);;
      next ← advance_to_next_test;
      match next with
      | None => mret (-1)
      | Some _ => mret 0
      end
  | Some TEST_COMPLETE => mret (-1)
  | Some TEST_REBOOTING => set_rebooting 1;; mret 0
  end.

(** [tftf_exit()] *)
Definition tftf_exit : M session unit := note PlatformEnd.

(** [tftf_cold_boot_main()] from the test of [new_test_session()] to the entry
    of the test session, on the primary CPU: [true] when it gets there, [false]
    when it exits.  [tftf_init_pstate_framework()], called before the lead CPU
    is chosen, has a state of its own ([PState]) and touches none of this one;
    the lead CPU is the calling one, so that there is no hand-over. *)
Definition cold_boot_session (core_pos : Z) : M session bool :=
  new ← lift_nv (new_test_session build_message);
  go ← (if (new : bool) then
          st ← lift_nv (tftf_init_nvm TESTCASE_RESULT_COUNT build_message);
          if negb (st =? STATUS_SUCCESS) then
            lift_nv tftf_clean_nvm;; tftf_exit;; mret false
          else mret true
        else
          rc ← resume_test_session;
          if rc <? 0 then
            print_tests_summary;;
            lift_nv tftf_clean_nvm;;
            tftf_exit;; mret false
          else mret true);
  if (go : bool) then
    lift_hs (tftf_init_cpus_status_map true core_pos);;
    set_lead core_pos;;
    mret true
  else mret false.

(** ** The loop of [run_tests()]

    [call] is the test function at an address, [aff], [tries] and [psci] are
    the firmware's answers. *)
Section Run.

Context (call : Z → M session Z).
Context (aff : Z → list Z) (tries : list (list Z)) (psci : option Z).

Inductive run_end : Set :=
| Exited
| Reset
| PoweredOff.

Fixpoint run_tests (fuel : nat) (core_pos : Z) : M session run_end :=
  match fuel with
  | O => fail FuelOut
  | S fuel' =>
      enter_test aff core_pos;;
      ep ← test_to_call core_pos;
      res ← call ep;
      l ← leave_test core_pos res;
      match l with
      | Closed SessionFinished => tftf_exit;; mret Exited
      | Closed MoveOn =>
          s ← get;
          if negb (core_pos =? lead_cpu s) then
            hand_over_to_lead_cpu tries fuel psci core_pos;; mret PoweredOff
          else run_tests fuel' core_pos
      | Closed PlatReset => mret Reset
      | PowerDown => power_down fuel psci core_pos;; mret PoweredOff
      end
  end.
End Run.

End Session_ops.


(** ** The generated list of tests *)

Section Tests.

Context (specs : list (list Z * list (list Z * Z))).

(** A test, by the index of its suite and its index in the suite *)
Definition case_at (r : test_ref_t) : option (list Z * Z) :=
  ts ← zget specs (testsuite_idx r); zget ts.2 (testcase_idx r).

(** The number of tests before suite [i], and the position of a test *)
Definition offset (i : Z) : Z := zsum (λ ts, zlen ts.2) (take (Z.to_nat i) specs).
Definition position (r : test_ref_t) : Z := offset (testsuite_idx r) + testcase_idx r.
Definition total : Z := zsum (λ ts, zlen ts.2) specs.

(** The test after [r] in the list *)
Definition next_ref (r : test_ref_t) : option test_ref_t :=
  match case_at {| testsuite_idx := testsuite_idx r; testcase_idx := testcase_idx r + 1 |} with
  | Some _ => Some {| testsuite_idx := testsuite_idx r; testcase_idx := testcase_idx r + 1 |}
  | None =>
      match zget specs (testsuite_idx r + 1) with
      | Some _ => Some {| testsuite_idx := testsuite_idx r + 1; testcase_idx := 0 |}
      | None => None
      end
  end.

(** What the build rejects is left out: there is a test in every suite, and
    the indices fit in an [unsigned int]. *)
Record specs_ok : Prop := {
  so_nonempty : Forall (λ ts, ts.2 ≠ []) specs;
  so_suites : zlen specs + 1 < 2 ^ 32;
  so_cases : Forall (λ ts, zlen ts.2 + 1 < 2 ^ 32) specs;
}.

Definition suite_of (i : Z) (ts : list Z * list (list Z * Z)) : test_suite_t :=
  {| ts_name := Some ts.1; testcases := generate_testcases (offset i) ts.2 |}.
Definition case_of (r : test_ref_t) (tc : list Z * Z) : test_case_t :=
  {| tc_index := position r; tc_name := Some tc.1; tc_test := tc.2 |}.

Lemma generate_testcases_get (k j : Z) (tcs : list (list Z * Z)) :
  zget (generate_testcases k tcs) j =
  match zget tcs j with
  | Some tc => Some {| tc_index := k + j; tc_name := Some tc.1; tc_test := tc.2 |}
  | None => if j =? zlen tcs then Some null_testcase else None
  end.
Proof.
  revert k j. induction tcs as [|[n f] tcs IH]; intros k j; cbn [generate_testcases].
  - rewrite zget_cons. destruct (Z.eqb_spec j 0) as [->|]; [done|].
    rewrite !(proj2 (zget_None [] _)) by (unfold zlen; cbn; lia).
    change (zlen []) with 0. by rewrite (proj2 (Z.eqb_neq _ _)) by done.
  - rewrite !zget_cons, IH, zlen_cons. destruct (Z.eqb_spec j 0) as [->|Hj].
    { by rewrite Z.add_0_r. }
    replace (k + 1 + (j - 1)) with (k + j) by lia. destruct (zget tcs (j - 1)); [done|].
    destruct (Z.eqb_spec (j - 1) (zlen tcs)), (Z.eqb_spec j (zlen tcs + 1)); done || lia.
Qed.

Lemma generate_testsuites_get (k i : Z) (tss : list (list Z * list (list Z * Z))) :
  zget (generate_testsuites k tss) i =
  match zget tss i with
  | Some ts => Some {| ts_name := Some ts.1;
                       testcases := generate_testcases
                         (k + zsum (λ ts, zlen ts.2) (take (Z.to_nat i) tss)) ts.2 |}
  | None => if i =? zlen tss then Some null_testsuite else None
  end.
Proof.
  revert k i. induction tss as [|[n tcs] tss IH]; intros k i; cbn [generate_testsuites].
  - rewrite zget_cons. destruct (Z.eqb_spec i 0) as [->|]; [done|].
    rewrite !(proj2 (zget_None [] _)) by (unfold zlen; cbn; lia).
    change (zlen []) with 0. by rewrite (proj2 (Z.eqb_neq _ _)) by done.
  - rewrite !zget_cons, IH, zlen_cons. destruct (Z.eqb_spec i 0) as [->|Hi].
    { cbn. by rewrite Z.add_0_r. }
    destruct (zget tss (i - 1)) as [ts|] eqn:Hg.
    + apply zget_Some_range in Hg as Hr.
      replace (Z.to_nat i) with (S (Z.to_nat (i - 1))) by lia. cbn [take].
      change (zsum (λ ts, zlen ts.2) ((n, tcs) :: take (Z.to_nat (i - 1)) tss))
        with (zlen tcs + zsum (λ ts, zlen ts.2) (take (Z.to_nat (i - 1)) tss)).
      by rewrite Z.add_assoc.
    + destruct (Z.eqb_spec (i - 1) (zlen tss)), (Z.eqb_spec i (zlen tss + 1)); done || lia.
Qed.

Lemma case_at_inv (r : test_ref_t) (tc : list Z * Z) :
  case_at r = Some tc →
  ∃ ts, zget specs (testsuite_idx r) = Some ts ∧ zget ts.2 (testcase_idx r) = Some tc.
Proof.
  unfold case_at. intros Hc. destruct (zget specs (testsuite_idx r)) as [ts|] eqn:E; [|done].
  exists ts. done.
Qed.

Lemma offset_succ (i : Z) (ts : list Z * list (list Z * Z)) :
  zget specs i = Some ts → offset (i + 1) = offset i + zlen ts.2.
Proof.
  intros Hg. apply zget_Some_range in Hg as Hr. unfold offset.
  replace (Z.to_nat (i + 1)) with (S (Z.to_nat i)) by lia.
  unfold zget in Hg. destruct (Z.ltb_spec i 0); [lia|].
  rewrite (take_S_r _ _ _ Hg), zsum_app. unfold zsum at 2. cbn. lia.
Qed.

Lemma offset_total (i : Z) : zlen specs <= i → offset i = total.
Proof.
  intros Hi. unfold offset, total, zlen in *. by rewrite take_ge by lia.
Qed.

Lemma next_position (r : test_ref_t) (tc : list Z * Z) :
  specs_ok → case_at r = Some tc →
  match next_ref r with
  | Some r' => position r' = position r + 1 ∧ (∃ tc', case_at r' = Some tc')
  | None => position r + 1 = total
  end.
Proof.
  intros Hok Hc. destruct (case_at_inv _ _ Hc) as (ts & Hts & Htc).
  apply zget_Some_range in Hts as Hi. apply zget_Some_range in Htc as Hj.
  pose proof (offset_succ _ _ Hts) as Hoff.
  unfold next_ref. destruct (case_at {| testsuite_idx := testsuite_idx r; testcase_idx := testcase_idx r + 1 |})
    as [tc'|] eqn:Hn.
  - unfold position. cbn. split; [lia|]. eauto.
  - unfold case_at in Hn. cbn [testsuite_idx testcase_idx] in Hn. rewrite Hts in Hn. cbn in Hn.
    apply zget_None in Hn. destruct (zget specs (testsuite_idx r + 1)) as [ts'|] eqn:Hn'.
    + unfold position. cbn. split; [lia|]. unfold case_at. cbn. rewrite Hn'. cbn.
      assert (ts'.2 ≠ []) as Hne.
      { apply zget_Some_range in Hn' as ?. unfold zget in Hn'. case_Z; [lia|].
        by apply (Forall_lookup_1 _ _ _ _ (so_nonempty Hok) Hn'). }
      destruct ts' as [n' [|tc' l]]; [done|]. by exists tc'.
    + apply zget_None in Hn'. unfold position.
      rewrite <- (offset_total (testsuite_idx r + 1)) by lia. lia.
Qed.
End Tests.


(** ** The operations against the abstract session state *)

Section Sim.

Context {T : Type} `{NvmStore T}.
Context (build_message : list Z).
Context (CORES : Z).
Context (specs : list (list Z * list (list Z * Z))).
Context (cpus : list Z).
Context (DEBUG : bool).
Context (Hspecs : specs_ok specs).

Abbreviation suites := (generate_testsuites 0 specs).
Abbreviation N := (total specs).
Abbreviation rep := (rep N).
Abbreviation Sess := (session (T := T)).

Definition with_nv (s : Sess) (n : nvm_env) : Sess :=
  {| nv := n; hs := hs s; test_results := test_results s;
     test_is_rebooting := test_is_rebooting s; lead_cpu := lead_cpu s;
     cpu_on_ctx_id_arr := cpu_on_ctx_id_arr s; events := events s |}.
Definition with_hs (s : Sess) (h : hp_state) : Sess :=
  {| nv := nv s; hs := h; test_results := test_results s;
     test_is_rebooting := test_is_rebooting s; lead_cpu := lead_cpu s;
     cpu_on_ctx_id_arr := cpu_on_ctx_id_arr s; events := events s |}.

Lemma lift_nv_run {A} (m : M nvm_env A) (s : Sess) (a : A) (n : nvm_env) :
  m (nv s) = Ok (a, n) → lift_nv m s = Ok (a, with_nv s n).
Proof. intros E. unfold lift_nv. by rewrite E. Qed.

Lemma lift_hs_run {A} (m : M hp_state A) (s : Sess) (a : A) (h : hp_state) :
  m (hs s) = Ok (a, h) → lift_hs m s = Ok (a, with_hs s h).
Proof. intros E. unfold lift_hs. by rewrite E. Qed.

(** The suite and the test case the arrays hold *)
Lemma suites_get (i : Z) :
  zget suites i =
  match zget specs i with
  | Some ts => Some (suite_of specs i ts)
  | None => if i =? zlen specs then Some null_testsuite else None
  end.
Proof. apply generate_testsuites_get. Qed.

Lemma cases_get (r : test_ref_t) (ts : list Z * list (list Z * Z)) :
  zget (testcases (suite_of specs (testsuite_idx r) ts)) (testcase_idx r) =
  match zget ts.2 (testcase_idx r) with
  | Some tc => Some (case_of specs r tc)
  | None => if testcase_idx r =? zlen ts.2 then Some null_testcase else None
  end.
Proof. apply generate_testcases_get. Qed.

Lemma current_testcase_run (s : Sess) (a : spec) (tc : list Z * Z) :
  rep (nv s) a → case_at specs (sp_ref a) = Some tc →
  ∃ n, current_testcase suites s = Ok (case_of specs (sp_ref a) tc, with_nv s n) ∧ rep n a.
Proof.
  intros Hr Hc. destruct (case_at_inv _ _ _ Hc) as (ts & Hts & Htc).
  destruct (sim_get_ref _ _ _ Hr) as (n & E & R). exists n. split; [|done].
  unfold current_testcase. rewrite (bind_Ok _ _ _ _ _ (lift_nv_run _ _ _ _ E)). cbn [snd].
  rewrite (bind_Ok _ _ _ _ _ (aget_Ok _ _ (suite_of specs (testsuite_idx (sp_ref a)) ts) _
    ltac:(by rewrite suites_get, Hts))).
  apply aget_Ok. by rewrite cases_get, Htc.
Qed.

Lemma current_testsuite_run (s : Sess) (a : spec) (tc : list Z * Z) :
  rep (nv s) a → case_at specs (sp_ref a) = Some tc →
  ∃ n ts, current_testsuite suites s = Ok (ts, with_nv s n) ∧ rep n a.
Proof.
  intros Hr Hc. destruct (case_at_inv _ _ _ Hc) as (ts & Hts & Htc).
  destruct (sim_get_ref _ _ _ Hr) as (n & E & R).
  exists n, (suite_of specs (testsuite_idx (sp_ref a)) ts). split; [|done].
  unfold current_testsuite. rewrite (bind_Ok _ _ _ _ _ (lift_nv_run _ _ _ _ E)).
  apply aget_Ok. cbn. by rewrite suites_get, Hts.
Qed.

Lemma case_at_fits (r : test_ref_t) (tc : list Z * Z) :
  case_at specs r = Some tc →
  0 <= testsuite_idx r < zlen specs ∧ zlen specs + 1 < 2 ^ 32
  ∧ 0 <= testcase_idx r ∧ testcase_idx r + 2 < 2 ^ 32.
Proof.
  intros Hc. destruct (case_at_inv _ _ _ Hc) as (ts & Hts & Htc).
  apply zget_Some_range in Hts as Hi. apply zget_Some_range in Htc as Hj.
  pose proof (so_suites _ Hspecs).
  assert (zlen ts.2 + 1 < 2 ^ 32).
  { unfold zget in Hts. case_Z; [lia|].
    apply (Forall_lookup_1 _ _ _ _ (so_cases _ Hspecs) Hts). }
  lia.
Qed.

(** The state after a move to another test *)
Definition moved (a : spec) (r : test_ref_t) : spec :=
  sp_set_progress (sp_set_ref a r) (progress_code TEST_READY).

Lemma move_to_run (s : Sess) (a : spec) (r : test_ref_t) :
  rep (nv s) a → ref_fits r →
  ∃ n, move_to (testsuite_idx r) (testcase_idx r) s = Ok (tt, with_nv s n) ∧ rep n (moved a r).
Proof.
  intros Hr Hf. destruct r as [i j].
  destruct (sim_set_ref _ _ _ _ Hr Hf) as (n1 & E1 & R1).
  destruct (sim_set_progress _ _ _ TEST_READY R1) as (n2 & E2 & R2).
  exists n2. split; [|done]. unfold move_to. cbn [testsuite_idx testcase_idx].
  rewrite (bind_Ok _ _ _ _ _ (lift_nv_run _ _ _ _ E1)).
  by rewrite (bind_Ok _ _ _ _ _ (lift_nv_run _ (with_nv s n1) _ _ E2)).
Qed.

(** The move to the next test, and what it leaves *)
Definition advanced (a : spec) : spec :=
  match next_ref specs (sp_ref a) with Some r => moved a r | None => a end.

Lemma advance_check_run (s : Sess) (a : spec) :
  rep (nv s) a → (DEBUG = true → sp_progress a = progress_code TEST_COMPLETE) →
  ∃ n, (if DEBUG then
          progress ← lift_nv tftf_get_test_progress;
          assert_ (progress.2 =? progress_code TEST_COMPLETE)
        else mret tt) s = Ok (tt, with_nv s n) ∧ rep n a.
Proof.
  intros Hr Hp. destruct DEBUG.
  - destruct (sim_get_progress _ _ _ Hr) as (n & E & R). exists n. split; [|done].
    rewrite (bind_Ok _ _ _ _ _ (lift_nv_run _ _ _ _ E)). cbn [snd]. by rewrite Hp.
  - exists (nv s). split; [by destruct s|done].
Qed.

Lemma advance_run (s : Sess) (a : spec) (tc : list Z * Z) :
  rep (nv s) a → case_at specs (sp_ref a) = Some tc →
  (DEBUG = true → sp_progress a = progress_code TEST_COMPLETE) →
  ∃ n x, advance_to_next_test suites DEBUG s = Ok (x, with_nv s n) ∧ rep n (advanced a)
         ∧ (x = None ↔ next_ref specs (sp_ref a) = None).
Proof.
  intros Hr Hc Hp. destruct (case_at_fits _ _ Hc) as (Hi & Hn & Hj & Hj2).
  destruct (case_at_inv _ _ _ Hc) as (ts & Hts & Htc).
  destruct (advance_check_run _ _ Hr Hp) as (n0 & E0 & R0).
  destruct (sim_get_ref _ _ _ R0) as (n1 & E1 & R1).
  unfold advance_to_next_test, advanced, next_ref. rewrite (bind_Ok _ _ _ _ _ E0).
  rewrite (bind_Ok _ _ _ _ _ (lift_nv_run _ (with_nv s n0) _ _ E1)). cbn [snd].
  rewrite (u32_small (testcase_idx (sp_ref a) + 1)) by (unfold UINT32_MAX; lia).
  rewrite (bind_Ok _ _ _ _ _ (aget_Ok _ _ (suite_of specs (testsuite_idx (sp_ref a)) ts) _
    ltac:(by rewrite suites_get, Hts))).
  set (r1 := {| testsuite_idx := testsuite_idx (sp_ref a);
                testcase_idx := testcase_idx (sp_ref a) + 1 |}).
  pose proof (cases_get r1 ts) as Hg. cbn [testsuite_idx testcase_idx r1] in Hg.
  unfold case_at. cbn [testsuite_idx testcase_idx r1]. rewrite Hts.
  change (Some ts ≫= λ ts0, zget ts0.2 (testcase_idx (sp_ref a) + 1))
    with (zget ts.2 (testcase_idx (sp_ref a) + 1)).
  apply zget_Some_range in Htc as Hjr.
  destruct (zget ts.2 (testcase_idx (sp_ref a) + 1)) as [tc1|] eqn:Hn1.
  - rewrite (bind_Ok _ _ _ _ _ (aget_Ok _ _ _ _ Hg)). cbn [tc_name case_of].
    destruct (move_to_run (with_nv (with_nv s n0) n1) a r1 R1) as (n2 & E2 & R2);
      [unfold ref_fits, r1; cbn; lia|].
    do 2 eexists. rewrite (bind_Ok _ _ _ _ _ E2). split_and!; [reflexivity|done|done].
  - apply zget_None in Hn1 as Hn1'.
    rewrite (proj2 (Z.eqb_eq (testcase_idx (sp_ref a) + 1) (zlen ts.2))) in Hg by lia.
    rewrite (bind_Ok _ _ _ _ _ (aget_Ok _ _ _ _ Hg)). cbn [tc_name null_testcase].
    rewrite (u32_small (testsuite_idx (sp_ref a) + 1)) by (unfold UINT32_MAX; lia).
    pose proof (suites_get (testsuite_idx (sp_ref a) + 1)) as Hg2.
    destruct (zget specs (testsuite_idx (sp_ref a) + 1)) as [ts2|] eqn:Hs2.
    + rewrite (bind_Ok _ _ _ _ _ (aget_Ok _ _ _ _ Hg2)). cbn [ts_name suite_of].
      set (r2 := {| testsuite_idx := testsuite_idx (sp_ref a) + 1; testcase_idx := 0 |}).
      pose proof (next_position _ _ _ Hspecs Hc) as Hnp. unfold next_ref in Hnp.
      unfold case_at in Hnp. cbn [testsuite_idx testcase_idx] in Hnp.
      rewrite Hts, Hs2 in Hnp. cbn [mbind option_bind] in Hnp.
      rewrite Hn1 in Hnp. destruct Hnp as [_ [tc2 Hc2]]. cbn in Hc2. rewrite Hs2 in Hc2.
      cbn in Hc2. pose proof (cases_get r2 ts2) as Hg3. cbn [testsuite_idx testcase_idx r2] in Hg3.
      rewrite Hc2 in Hg3. rewrite (bind_Ok _ _ _ _ _ (aget_Ok _ _ _ _ Hg3)).
      destruct (move_to_run (with_nv (with_nv s n0) n1) a r2 R1) as (n2 & E2 & R2);
        [unfold ref_fits, r2; cbn; lia|].
      do 2 eexists. rewrite (bind_Ok _ _ _ _ _ E2). split_and!; [reflexivity|done|done].
    + apply zget_None in Hs2 as Hs2'.
      rewrite (proj2 (Z.eqb_eq (testsuite_idx (sp_ref a) + 1) (zlen specs))) in Hg2 by lia.
      rewrite (bind_Ok _ _ _ _ _ (aget_Ok _ _ _ _ Hg2)). cbn [ts_name null_testsuite].
      do 2 eexists. split_and!; [reflexivity|done|done].
Qed.


(** *** The report *)

(** What the report says of the results [res] of the tests [k .. k + n) *)
Fixpoint count_from (res : Z → Z) (k : Z) (n : nat) (r : Z) : Z :=
  match n with
  | O => 0
  | S n' => (if res k =? r then 1 else 0) + count_from res (k + 1) n' r
  end.
Fixpoint passed_from (res : Z → Z) (k : Z) (n : nat) : bool :=
  match n with
  | O => true
  | S n' => ((res k =? TEST_RESULT_SUCCESS) || (res k =? TEST_RESULT_SKIPPED))
            && passed_from res (k + 1) n'
  end.
Fixpoint suite_events (res : Z → Z) (k : Z) (tss : list (list Z * list (list Z * Z)))
    : list event :=
  match tss with
  | [] => []
  | (n, tcs) :: tss' =>
      SuiteResult (Some n) (passed_from res k (length tcs))
        :: suite_events res (k + zlen tcs) tss'
  end.
Definition summary_events (res : Z → Z) : list event :=
  suite_events res 0 specs
  ++ [Stat 0 (count_from res 0 (Z.to_nat N) 0); Stat 1 (count_from res 0 (Z.to_nat N) 1);
      Stat 2 (count_from res 0 (Z.to_nat N) 2); Stat 3 (count_from res 0 (Z.to_nat N) 3);
      TotalTests N].

(** [evs], oldest first, are noted. *)
Definition noted (s : Sess) (n : nvm_env) (evs : list event) : Sess :=
  {| nv := n; hs := hs s; test_results := test_results s;
     test_is_rebooting := test_is_rebooting s; lead_cpu := lead_cpu s;
     cpu_on_ctx_id_arr := cpu_on_ctx_id_arr s; events := reverse evs ++ events s |}.

Definition stat_list (f : Z → Z) : list Z := [f 0; f 1; f 2; f 3].

Lemma stat_get (f : Z → Z) (r : Z) : 0 <= r < 4 → zget (stat_list f) r = Some (f r).
Proof.
  intros Hr. assert (r = 0 ∨ r = 1 ∨ r = 2 ∨ r = 3) as [->|[->|[->| ->]]] by lia; done.
Qed.

Lemma stat_set (f : Z → Z) (r : Z) :
  0 <= r < 4 → zset (stat_list f) r (f r + 1) = stat_list (λ i, f i + if r =? i then 1 else 0).
Proof.
  intros Hr. unfold stat_list.
  assert (r = 0 ∨ r = 1 ∨ r = 2 ∨ r = 3) as [->|[->|[->| ->]]] by lia; cbn;
    by rewrite ?Z.add_0_r.
Qed.

Lemma stat_list_ext (f g : Z → Z) : (∀ r, f r = g r) → stat_list f = stat_list g.
Proof. intros E. unfold stat_list. by rewrite !E. Qed.

Lemma summary_cases_run (tcs : list (list Z * Z)) (k : Z) (passed : bool) (tot : Z) (f : Z → Z)
    (s : Sess) (a : spec) :
  rep (nv s) a → 0 <= k → k + zlen tcs <= N →
  (∀ i, 0 <= i < N → TEST_RESULT_IS_VALID (e_result (sp_results a i)) = true) →
  let res := λ i, e_result (sp_results a i) in
  ∃ n, summary_cases N (generate_testcases k tcs) passed tot (stat_list f) s =
       Ok ((passed && passed_from res k (length tcs), tot + zlen tcs,
            stat_list (λ r, f r + count_from res k (length tcs) r)), with_nv s n)
       ∧ rep n a.
Proof.
  intros Hr Hk Hle Hv res. revert k passed tot f s Hr Hk Hle.
  induction tcs as [|[nm fn] tcs IH]; intros k passed tot f s Hr Hk Hle.
  - exists (nv s). split; [|done]. cbn [length passed_from count_from generate_testcases].
    rewrite (stat_list_ext (λ r, f r + 0) f) by (intros; lia).
    rewrite andb_true_r. change (zlen []) with 0. rewrite Z.add_0_r. by destruct s.
  - rewrite zlen_cons in Hle. pose proof (zlen_nonneg tcs).
    cbn [generate_testcases summary_cases tc_name].
    destruct (sim_get_result _ _ _ k Hr) as (n1 & x & E1 & Q1 & _ & R1); [lia|].
    rewrite (bind_Ok _ _ _ _ _ (lift_nv_run _ _ _ _ E1)). cbn [fst snd].
    change (STATUS_SUCCESS =? STATUS_SUCCESS) with true. cbn [negb].
    pose proof (Hv k ltac:(lia)) as Hvk. rewrite Q1. fold (res k). fold (res k) in Hvk.
    rewrite Hvk. erewrite bind_Ok by reflexivity.
    unfold TEST_RESULT_IS_VALID in Hvk. bool_hyps.
    rewrite (bind_Ok _ _ _ _ _ (aget_Ok _ _ _ _ (stat_get f (res k) ltac:(lia)))).
    rewrite (bind_Ok _ _ _ _ _ (aset_Ok (stat_list f) (res k) (f (res k) + 1) _
      ltac:(change (zlen (stat_list f)) with 4; lia))), stat_set by lia.
    destruct (IH (k + 1) (if negb (res k =? TEST_RESULT_SUCCESS)
                             && negb (res k =? TEST_RESULT_SKIPPED) then false else passed)
      (tot + 1) (λ i, f i + if res k =? i then 1 else 0) (with_nv s n1)) as (n2 & E2 & R2);
      [exact R1|lia|lia|].
    exists n2. rewrite E2. split; [|done].
    cbn [length passed_from count_from]. fold (res k). rewrite zlen_cons.
    do 2 f_equal. f_equal; [f_equal|].
    + destruct (Z.eqb_spec (res k) TEST_RESULT_SUCCESS), (Z.eqb_spec (res k) TEST_RESULT_SKIPPED),
        passed; done.
    + lia.
    + apply stat_list_ext. intros r. lia.
Qed.

Lemma zlen_sum_nonneg (tss : list (list Z * list (list Z * Z))) :
  0 <= zsum (λ ts, zlen ts.2) tss.
Proof. apply zsum_nonneg. intros. apply zlen_nonneg. Qed.

Lemma count_from_app (res : Z → Z) (k : Z) (n m : nat) (r : Z) :
  count_from res k (n + m) r = count_from res k n r + count_from res (k + Z.of_nat n) m r.
Proof.
  revert k. induction n as [|n IH]; intros k; cbn [count_from Nat.add].
  - by rewrite Z.add_0_r.
  - rewrite IH. replace (k + 1 + Z.of_nat n) with (k + Z.of_nat (S n)) by lia. lia.
Qed.

Lemma summary_suites_run (tss : list (list Z * list (list Z * Z))) (k tot : Z) (f : Z → Z)
    (s : Sess) (a : spec) :
  rep (nv s) a → 0 <= k → k + zsum (λ ts, zlen ts.2) tss <= N →
  (∀ i, 0 <= i < N → TEST_RESULT_IS_VALID (e_result (sp_results a i)) = true) →
  let res := λ i, e_result (sp_results a i) in
  let m := zsum (λ ts, zlen ts.2) tss in
  ∃ n, summary_suites N (generate_testsuites k tss) tot (stat_list f) s =
       Ok ((tot + m, stat_list (λ r, f r + count_from res k (Z.to_nat m) r)),
           noted s n (suite_events res k tss))
       ∧ rep n a.
Proof.
  intros Hr Hk Hle Hv res. revert k tot f s Hr Hk Hle.
  induction tss as [|[nm tcs] tss IH]; intros k tot f s Hr Hk Hle m.
  - exists (nv s). split; [|done]. change m with 0.
    rewrite (stat_list_ext (λ r, f r + count_from res k (Z.to_nat 0) r) f) by (intros; apply Z.add_0_r).
    rewrite Z.add_0_r. by destruct s.
  - assert (m = zlen tcs + zsum (λ ts, zlen ts.2) tss) as Em by done. rewrite Em in *.
    change (zsum (λ ts, zlen ts.2) ((nm, tcs) :: tss)) with m in Hle. rewrite Em in Hle.
    pose proof (zlen_sum_nonneg tss). pose proof (zlen_nonneg tcs).
    cbn [generate_testsuites summary_suites ts_name testcases].
    destruct (summary_cases_run tcs k true tot f s a Hr Hk ltac:(lia) Hv) as (n1 & E1 & R1).
    rewrite (bind_Ok _ _ _ _ _ E1). cbn [fst snd]. erewrite bind_Ok by reflexivity.
    destruct (IH (k + zlen tcs) (tot + zlen tcs)
      (λ r, f r + count_from res k (length tcs) r)
      (noted s n1 [SuiteResult (Some nm) (passed_from res k (length tcs))]))
      as (n2 & E2 & R2); [exact R1|lia|lia|].
    exists n2. split; [|exact R2]. etransitivity; [exact E2|]. do 2 f_equal.
    + f_equal; [lia|]. apply stat_list_ext. intros r.
      rewrite Z2Nat.inj_add, count_from_app by lia.
      rewrite (Z2Nat.id (zlen tcs)) by lia. unfold zlen at 3. rewrite Nat2Z.id. lia.
    + unfold noted. cbn [nv hs test_results test_is_rebooting lead_cpu cpu_on_ctx_id_arr events
        suite_events].
      by rewrite (reverse_cons (suite_events _ _ _)), <- app_assoc.
Qed.

Lemma summary_run (s : Sess) (a : spec) :
  rep (nv s) a →
  (∀ i, 0 <= i < N → TEST_RESULT_IS_VALID (e_result (sp_results a i)) = true) →
  ∃ n, print_tests_summary N suites s =
       Ok (tt, noted s n (summary_events (λ i, e_result (sp_results a i)))) ∧ rep n a.
Proof.
  intros Hr Hv. unfold print_tests_summary.
  destruct (summary_suites_run specs 0 0 (λ _, 0) s a Hr) as (n & E & R); [lia|done|done|].
  exists n. split; [|done].
  change [0; 0; 0; 0] with (stat_list (λ _, 0)). rewrite (bind_Ok _ _ _ _ _ E).
  unfold noted, summary_events. cbn. by rewrite reverse_app.
Qed.


(** *** Closing a test *)

Lemma offset_bounds (i : Z) : 0 <= offset specs i <= N.
Proof.
  unfold offset, total. rewrite <- (take_drop (Z.to_nat i) specs) at 3. rewrite zsum_app.
  pose proof (zlen_sum_nonneg (take (Z.to_nat i) specs)).
  pose proof (zlen_sum_nonneg (drop (Z.to_nat i) specs)). lia.
Qed.

Lemma position_range (r : test_ref_t) (tc : list Z * Z) :
  case_at specs r = Some tc → 0 <= position specs r < N.
Proof.
  intros Hc. destruct (case_at_inv _ _ _ Hc) as (ts & Hts & Htc).
  apply zget_Some_range in Htc. pose proof (offset_succ _ _ _ Hts).
  pose proof (offset_bounds (testsuite_idx r)). pose proof (offset_bounds (testsuite_idx r + 1)).
  unfold position. lia.
Qed.

(** The abstract state once the result of the current test is stored *)
Definition stored (a : spec) (res : Z) : spec :=
  (sp_set_result (sp_set_progress a (progress_code TEST_COMPLETE))
     (position specs (sp_ref a)) res 0).2.
Definition all_valid (a : spec) : Prop :=
  ∀ i, 0 <= i < N → TEST_RESULT_IS_VALID (e_result (sp_results a i)) = true.

Definition closed_spec (a : spec) (res : Z) : spec :=
  match next_ref specs (sp_ref a) with
  | Some r => moved (stored a res) r
  | None => sp_set_message (stored a res) (0 :: tl (sp_message a))
  end.
Definition closed_how (a : spec) : closed :=
  match next_ref specs (sp_ref a) with Some _ => MoveOn | None => SessionFinished end.
Definition closed_events (a : spec) (res : Z) : list event :=
  [WatchdogReset; TestEnd res (sp_out a)]
  ++ match next_ref specs (sp_ref a) with
     | Some _ => []
     | None => summary_events (λ i, e_result (sp_results (stored a res) i))
     end.

Definition set_reb (s : Sess) (n : nvm_env) (v : Z) (evs : list event) : Sess :=
  {| nv := n; hs := hs s; test_results := test_results s;
     test_is_rebooting := v; lead_cpu := lead_cpu s;
     cpu_on_ctx_id_arr := cpu_on_ctx_id_arr s; events := reverse evs ++ events s |}.

Lemma stored_fields (a : spec) (res : Z) :
  out_cost (sp_out a) <= sp_free a →
  stored a res =
  {| sp_message := sp_message a; sp_ref := sp_ref a; sp_progress := progress_code TEST_COMPLETE;
     sp_results := λ j, if decide (j = position specs (sp_ref a)) then
                          {| e_result := res; e_duration := 0; e_output := sp_out a |}
                        else sp_results a j;
     sp_free := sp_free a - out_cost (sp_out a); sp_cap := sp_cap a; sp_out := [] |}.
Proof.
  intros Hf. unfold stored, sp_set_result. cbn. by rewrite (proj2 (Z.ltb_ge _ _)) by lia.
Qed.

Lemma print_test_end_run (s : Sess) (a : spec) (tc : test_case_t) :
  rep (nv s) a → 0 <= tc_index tc < N →
  TEST_RESULT_IS_VALID (e_result (sp_results a (tc_index tc))) = true →
  ∃ n, print_test_end N tc s =
       Ok (tt, noted s n [TestEnd (e_result (sp_results a (tc_index tc)))
                            (e_output (sp_results a (tc_index tc)))]) ∧ rep n a.
Proof.
  intros Hr Hi Hv. destruct (sim_get_result _ _ _ _ Hr Hi) as (n & r & E & Q & _ & R).
  exists n. split; [|done]. unfold print_test_end.
  rewrite (bind_Ok _ _ _ _ _ (lift_nv_run _ _ _ _ E)). cbn [fst snd]. rewrite Q, Hv. done.
Qed.

(** The check of a debug build, and the marks [close_test()] leaves first *)
Lemma close_begin_run (s : Sess) (a : spec) :
  rep (nv s) a → (DEBUG = true → sp_progress a ≠ progress_code TEST_REBOOTING) →
  ref_cnt (hs s) = 0 →
  ∃ n, (∀ B (k : M Sess B),
       ((if DEBUG then
           progress ← lift_nv tftf_get_test_progress;
           assert_ (negb (progress.2 =? progress_code TEST_REBOOTING))
         else mret tt);;
        lift_nv (tftf_set_test_progress TEST_COMPLETE);;
        set_rebooting 0;;
        note WatchdogReset;;
        cnt ← lift_hs tftf_get_ref_cnt;
        assert_ (cnt =? 0);;
        k) s = k (set_reb s n 0 [WatchdogReset]))
       ∧ rep n (sp_set_progress a (progress_code TEST_COMPLETE)).
Proof.
  intros Hr Hp Hc.
  assert (∃ n, (if DEBUG then
           progress ← lift_nv tftf_get_test_progress;
           assert_ (negb (progress.2 =? progress_code TEST_REBOOTING))
         else mret tt) s = Ok (tt, with_nv s n) ∧ rep n a) as (n0 & E0 & R0).
  { destruct DEBUG.
    - destruct (sim_get_progress _ _ _ Hr) as (n & E & R). exists n. split; [|done].
      rewrite (bind_Ok _ _ _ _ _ (lift_nv_run _ _ _ _ E)). cbn [snd].
      by rewrite (proj2 (Z.eqb_neq _ _)) by (by apply Hp).
    - exists (nv s). split; [by destruct s|done]. }
  destruct (sim_set_progress _ _ _ TEST_COMPLETE R0) as (n1 & E1 & R1).
  exists n1. split; [|done]. intros B k. rewrite (bind_Ok _ _ _ _ _ E0).
  rewrite (bind_Ok _ _ _ _ _ (lift_nv_run _ (with_nv s n0) _ _ E1)).
  do 2 (erewrite bind_Ok by reflexivity). erewrite bind_Ok; [|by apply lift_hs_run].
  cbn [with_hs with_nv hs]. rewrite Hc. by erewrite bind_Ok by reflexivity.
Qed.

Lemma close_run (s : Sess) (a : spec) (tc : list Z * Z) (res : Z) :
  rep (nv s) a → case_at specs (sp_ref a) = Some tc →
  (DEBUG = true → sp_progress a ≠ progress_code TEST_REBOOTING) → ref_cnt (hs s) = 0 →
  (∀ s', test_results s' = test_results s →
     get_overall_test_result (T := T) cpus s' = Ok (res, s')) →
  TEST_RESULT_IS_VALID res = true → out_cost (sp_out a) <= sp_free a →
  (next_ref specs (sp_ref a) = None → all_valid (stored a res)) →
  ∃ n, close_test N suites cpus DEBUG false s =
       Ok (closed_how a, set_reb s n 0 (closed_events a res)) ∧ rep n (closed_spec a res).
Proof.
  intros Hr Hc Hp Hcnt Hov Hv Hf Hall.
  pose proof (position_range _ _ Hc) as Hpos. pose proof Hv as Hv'.
  unfold TEST_RESULT_IS_VALID in Hv'. bool_hyps.
  unfold close_test.
  destruct (close_begin_run s a Hr Hp Hcnt) as (n1 & E1 & R1). rewrite E1. clear E1.
  set (a1 := sp_set_progress a (progress_code TEST_COMPLETE)) in *.
  set (s1 := set_reb s n1 0 [WatchdogReset]).
  destruct (current_testcase_run s1 a1 tc R1 Hc) as (n2 & E2 & R2).
  rewrite (bind_Ok _ _ _ _ _ E2), (bind_Ok _ _ _ _ _ (Hov (with_nv s1 n2) eq_refl)).
  cbn [tc_index case_of].
  destruct (sim_set_result _ _ _ (position specs (sp_ref a)) res 0 R2) as (n3 & E3 & R3); [lia..|].
  rewrite (bind_Ok _ _ _ _ _ (lift_nv_run _ (with_nv s1 n2) _ _ E3)). fold a1 in R3.
  change (sp_set_result a1 (position specs (sp_ref a)) res 0).2 with (stored a res) in R3.
  pose proof (stored_fields a res Hf) as Hst.
  assert (sp_ref (stored a res) = sp_ref a) as Hrf by by rewrite Hst.
  assert (sp_results (stored a res) (position specs (sp_ref a)) =
          {| e_result := res; e_duration := 0; e_output := sp_out a |}) as Hre.
  { rewrite Hst. cbn. by rewrite decide_True. }
  destruct (current_testcase_run (with_nv s1 n3) (stored a res) tc R3) as (n4 & E4 & R4);
    [by rewrite Hrf|]. rewrite Hrf in E4. rewrite (bind_Ok _ _ _ _ _ E4).
  destruct (print_test_end_run (with_nv s1 n4) (stored a res) (case_of specs (sp_ref a) tc) R4)
    as (n5 & E5 & R5); [done|cbn; by rewrite Hre|].
  cbn [tc_index case_of] in E5. rewrite Hre in E5. cbn [e_result e_output] in E5.
  rewrite (bind_Ok _ _ _ _ _ E5).
  set (s5 := noted (with_nv s1 n4) n5 [TestEnd res (sp_out a)]) in *.
  destruct (advance_run s5 (stored a res) tc R5) as (n6 & x & E6 & R6 & Hx);
    [by rewrite Hrf|by rewrite Hst|].
  rewrite (bind_Ok _ _ _ _ _ E6).
  unfold closed_spec, closed_how, closed_events, advanced in *. rewrite Hrf in *.
  destruct (next_ref specs (sp_ref a)) as [r|] eqn:Hnext.
  - destruct x as [x|]; [|by destruct Hx as [Hx _]; specialize (Hx eq_refl)].
    by exists n6.
  - rewrite (proj2 Hx) by done.
    destruct (summary_run (with_nv s5 n6) (stored a res) R6 (Hall eq_refl)) as (n7 & E7 & R7).
    rewrite (bind_Ok _ _ _ _ _ E7).
    destruct (sim_clean _ _ _ R7) as (n8 & E8 & R8).
    erewrite bind_Ok; [|apply lift_nv_run; exact E8].
    exists n8. split; [|by rewrite Hst in R8 |- *].
    unfold set_reb, noted, mret, M_ret. do 2 f_equal.
    cbn [with_nv s5 s1 noted set_reb hs test_results lead_cpu test_is_rebooting
      cpu_on_ctx_id_arr events nv].
    f_equal. by rewrite reverse_app, <- app_assoc.
Qed.


(** *** The overall result *)

Definition na_results : list Z := replicate (Z.to_nat CORES) TEST_RESULT_NA.

Lemma overall_lead (l : list Z) (core res r0 : Z) (s : Sess) :
  test_results s = zset na_results core res →
  Forall (λ c, 0 <= c < CORES) l → TEST_RESULT_IS_VALID res = true →
  core ∈ l ∨ (res = TEST_RESULT_SUCCESS ∧ r0 = TEST_RESULT_SUCCESS) →
  overall_loop l r0 s = Ok (res, s).
Proof.
  intros Hres Hl Hv. revert r0. unfold TEST_RESULT_IS_VALID in Hv. bool_hyps.
  induction Hl as [|c l Hc Hl IH]; intros r0 Hor; cbn [overall_loop].
  { destruct Hor as [Hin|[-> ->]]; [by apply not_elem_of_nil in Hin|]. done. }
  erewrite bind_Ok by reflexivity.
  assert (zget (test_results s) c = Some (if decide (c = core) then res else TEST_RESULT_NA)) as Hg.
  { rewrite Hres, zget_zset. unfold na_results. rewrite zlen_replicate.
    destruct (decide (c = core)) as [->|Hne].
    - by rewrite decide_True by lia.
    - rewrite decide_False by lia. apply zget_replicate. lia. }
  rewrite (bind_Ok _ _ _ _ _ (aget_Ok _ _ _ _ Hg)). case_decide as Hd.
  - assert (res = 0 ∨ res = 1 ∨ res = 2 ∨ res = 3) as [->|[->|[->| ->]]] by lia; cbn; try done.
    apply IH. by right.
  - cbn. apply IH. destruct Hor as [Hin|Hr]; [|by right].
    apply elem_of_cons in Hin as [->|Hin]; [done|by left].
Qed.

(** ** A test on the lead CPU *)

(** The lead CPU is at [core], [cnt] CPUs are in the test. *)
Record lead_ok (s : Sess) (core cnt : Z) : Prop := {
  lo_lead : lead_cpu s = core;
  lo_cnt : ref_cnt (hs s) = cnt;
  lo_unlocked : ref_cnt_lock (hs s) = false;
  lo_online : ∃ e, zget (cpus_status_map (hs s)) core = Some e ∧ state e = STATE_ON;
  lo_entry : 0 <= core < zlen (test_entrypoint (hs s));
  lo_core : 0 <= core < CORES ∧ CORES < 2 ^ 32;
}.

Lemma wait_affinity_run (answers : list Z) (s : Sess) :
  (∃ x, x ∈ answers ∧ x ≠ PSCI_STATE_ON) → wait_affinity_off answers s = Ok (tt, s).
Proof.
  intros (x & Hin & Hx). induction answers as [|y l IH]; [by apply not_elem_of_nil in Hin|].
  cbn. case_Z; [|done]. apply IH. apply elem_of_cons in Hin as [->|Hin]; done.
Qed.

Lemma is_online_run (s : Sess) (core cnt : Z) :
  lead_ok s core cnt → lift_hs (tftf_is_cpu_online core) s = Ok (true, s).
Proof.
  intros []. destruct lo_online0 as (e & He & Hs).
  unfold lift_hs, tftf_is_cpu_online, tftf_is_core_pos_online, cpu_state, cpu_entry, mbind,
    M_bind, get, aget. rewrite He. cbn. rewrite Hs. by destruct s.
Qed.

Lemma wait_others_run (aff : Z → list Z) (l : list Z) (s : Sess) (core cnt : Z) :
  lead_ok s core cnt → (∀ c, c ≠ core → ∃ x, x ∈ aff c ∧ x ≠ PSCI_STATE_ON) →
  wait_others aff l s = Ok (tt, s).
Proof.
  intros Hlo Haff. induction l as [|c l IH]; [done|]. cbn [wait_others].
  erewrite bind_Ok by reflexivity. rewrite (lo_lead _ _ _ Hlo).
  destruct (Z.eqb_spec c core) as [->|Hne].
  - erewrite bind_Ok; [exact IH|]. by rewrite (bind_Ok _ _ _ _ _ (is_online_run _ _ _ Hlo)).
  - erewrite bind_Ok; [exact IH|]. by apply wait_affinity_run, Haff.
Qed.

Lemma write_entrypoint_run (s : Sess) (core ep : Z) :
  0 <= core < zlen (test_entrypoint (hs s)) →
  lift_hs (write_entrypoint core ep) s =
  Ok (tt, with_hs s (set_entries (hs s) (zset (test_entrypoint (hs s)) core ep))).
Proof.
  intros Hc. apply lift_hs_run. unfold write_entrypoint. erewrite bind_Ok by reflexivity.
  by erewrite bind_Ok by (by apply aset_Ok).
Qed.

Lemma lead_ok_entry (s : Sess) (core cnt ep : Z) :
  lead_ok s core cnt →
  lead_ok (with_hs s (set_entries (hs s) (zset (test_entrypoint (hs s)) core ep))) core cnt.
Proof. intros []. split; cbn; try done. by rewrite zlen_zset. Qed.

Lemma lead_ok_ext (s s' : Sess) (core cnt : Z) :
  lead_ok s core cnt → lead_cpu s' = lead_cpu s → hs s' = hs s → lead_ok s' core cnt.
Proof. intros [] E1 E2. split; rewrite ?E1, ?E2; done. Qed.

Lemma suite_start_run (s : Sess) (a : spec) (tc : list Z * Z) :
  rep (nv s) a → case_at specs (sp_ref a) = Some tc →
  ∃ n evs, (∀ B (k : M Sess B),
           (test_to_run ← lift_nv tftf_get_test_to_run;
            (if testcase_idx test_to_run.2 =? 0 then
               ts ← current_testsuite suites; print_testsuite_start ts
             else mret tt);; k) s = k (noted s n evs)) ∧ rep n a.
Proof.
  intros Hr Hc. destruct (sim_get_ref _ _ _ Hr) as (n1 & E1 & R1).
  destruct (current_testsuite_run (with_nv s n1) a tc R1 Hc) as (n2 & ts & E2 & R2).
  exists (if testcase_idx (sp_ref a) =? 0 then n2 else n1),
    (if testcase_idx (sp_ref a) =? 0 then [SuiteStart (ts_name ts)] else []).
  split; [|by case_Z]. intros B k. rewrite (bind_Ok _ _ _ _ _ (lift_nv_run _ _ _ _ E1)).
  cbn [snd]. case_Z; [|done]. erewrite bind_Ok; [reflexivity|].
  by rewrite (bind_Ok _ _ _ _ _ E2).
Qed.

(** What [prepare_next_test()] leaves *)
Definition prepared (s : Sess) (n : nvm_env) (core ep : Z) (evs : list event) : Sess :=
  {| nv := n; hs := set_entries (hs s) (zset (test_entrypoint (hs s)) core ep);
     test_results := na_results; test_is_rebooting := test_is_rebooting s;
     lead_cpu := lead_cpu s; cpu_on_ctx_id_arr := cpu_on_ctx_id_arr s;
     events := reverse evs ++ events s |}.

Lemma prepare_run (aff : Z → list Z) (s : Sess) (a : spec) (tc : list Z * Z) (core : Z) :
  rep (nv s) a → case_at specs (sp_ref a) = Some tc → lead_ok s core 0 →
  (∀ c, c ≠ core → ∃ x, x ∈ aff c ∧ x ≠ PSCI_STATE_ON) →
  ∃ n evs, prepare_next_test CORES suites cpus aff core s =
           Ok (tt, prepared s n core tc.2 (evs ++ [TestStart (Some tc.1); WatchdogSet]))
           ∧ rep n (sp_set_progress a (progress_code TEST_IN_PROGRESS)).
Proof.
  intros Hr Hc Hlo Haff. unfold prepare_next_test. erewrite bind_Ok by reflexivity.
  rewrite (lo_lead _ _ _ Hlo), Z.eqb_refl. erewrite bind_Ok by reflexivity.
  rewrite (bind_Ok _ _ _ _ _ (wait_others_run aff cpus s core 0 Hlo Haff)).
  erewrite bind_Ok by (by apply lift_hs_run). rewrite (lo_cnt _ _ _ Hlo).
  erewrite bind_Ok by reflexivity.
  destruct (current_testcase_run (with_hs s (hs s)) a tc Hr Hc) as (n1 & E1 & R1).
  rewrite (bind_Ok _ _ _ _ _ E1). cbn [tc_test case_of].
  rewrite (bind_Ok _ _ _ _ _ (write_entrypoint_run (with_nv (with_hs s (hs s)) n1) core tc.2
    (lo_entry _ _ _ Hlo))).
  set (s2 := prepared s n1 core tc.2 []). 
  erewrite (bind_Ok _ _ _ s2 tt); [|reflexivity].
  destruct (suite_start_run s2 a tc R1 Hc) as (n2 & evs & E2 & R2). rewrite E2. clear E2.
  destruct (current_testcase_run (noted s2 n2 evs) a tc R2 Hc) as (n3 & E3 & R3).
  rewrite (bind_Ok _ _ _ _ _ E3). do 2 (erewrite bind_Ok by reflexivity).
  destruct (sim_set_progress _ _ _ TEST_IN_PROGRESS R3) as (n4 & E4 & R4).
  erewrite bind_Ok by (apply lift_nv_run; exact E4).
  exists n4, evs. split; [|done]. unfold prepared. by rewrite reverse_app, <- app_assoc.
Qed.

(** The state inside the test function *)
Definition in_test (s : Sess) (n : nvm_env) (core ep : Z) (evs : list event) : Sess :=
  {| nv := n;
     hs := set_ref (set_entries (hs s) (zset (test_entrypoint (hs s)) core ep)) 1 false;
     test_results := zset na_results core TEST_RESULT_CRASHED;
     test_is_rebooting := test_is_rebooting s;
     lead_cpu := lead_cpu s; cpu_on_ctx_id_arr := cpu_on_ctx_id_arr s;
     events := reverse evs ++ events s |}.

Lemma enter_run (aff : Z → list Z) (s : Sess) (a : spec) (tc : list Z * Z) (core : Z) :
  rep (nv s) a → case_at specs (sp_ref a) = Some tc → lead_ok s core 0 →
  (∀ c, c ≠ core → ∃ x, x ∈ aff c ∧ x ≠ PSCI_STATE_ON) →
  ∃ n evs, enter_test CORES suites cpus aff core s = Ok (tt, in_test s n core tc.2 evs)
           ∧ rep n (sp_set_progress a (progress_code TEST_IN_PROGRESS)).
Proof.
  intros Hr Hc Hlo Haff.
  destruct (prepare_run aff s a tc core Hr Hc Hlo Haff) as (n & evs & E & R).
  unfold enter_test. erewrite bind_Ok by reflexivity. rewrite (lo_lead _ _ _ Hlo), Z.eqb_refl.
  erewrite bind_Ok by (by apply lift_hs_run). rewrite (lo_cnt _ _ _ Hlo). cbn [andb Z.eqb].
  assert (with_hs s (hs s) = s) as -> by by destruct s. rewrite (bind_Ok _ _ _ _ _ E).
  destruct Hlo as [Hl Hcnt Hunl _ _ [Hcore Hw]].
  erewrite bind_Ok; cycle 1.
  { apply lift_hs_run. unfold tftf_inc_ref_cnt, ref_lock, mbind, M_bind, get. cbn.
    rewrite Hunl, Hcnt. cbn. rewrite (proj2 (Z.ltb_lt 0 CORES)) by lia. reflexivity. }
  unfold write_result. erewrite bind_Ok by reflexivity. erewrite bind_Ok; cycle 1.
  { apply aset_Ok. cbn. unfold na_results. rewrite zlen_replicate. lia. }
  exists n, (evs ++ [TestStart (Some tc.1); WatchdogSet]). done.
Qed.


(** The state after the last CPU has left the test *)
Definition left_state (s : Sess) (n : nvm_env) (core res : Z) (evs : list event) : Sess :=
  {| nv := n; hs := set_ref (set_entries (hs s) (zset (test_entrypoint (hs s)) core 0)) 0 false;
     test_results := zset na_results core res; test_is_rebooting := 0;
     lead_cpu := lead_cpu s; cpu_on_ctx_id_arr := cpu_on_ctx_id_arr s;
     events := reverse evs ++ events s |}.

Lemma leave_run (s : Sess) (a : spec) (tc : list Z * Z) (core res x : Z) :
  rep (nv s) a → case_at specs (sp_ref a) = Some tc → lead_ok s core 1 →
  test_results s = zset na_results core x → Forall (λ c, 0 <= c < CORES) cpus → core ∈ cpus →
  (DEBUG = true → sp_progress a ≠ progress_code TEST_REBOOTING) →
  TEST_RESULT_IS_VALID res = true → out_cost (sp_out a) <= sp_free a →
  (next_ref specs (sp_ref a) = None → all_valid (stored a res)) →
  ∃ n, leave_test N suites cpus DEBUG false core res s =
       Ok (Closed (closed_how a), left_state s n core res (closed_events a res))
       ∧ rep n (closed_spec a res).
Proof.
  intros Hr Hc Hlo Htr Hcpus Hin Hp Hv Hf Hall.
  destruct Hlo as [Hl Hcnt Hunl _ Hent [Hcore Hw]].
  set (h := set_ref (set_entries (hs s) (zset (test_entrypoint (hs s)) core 0)) 0 false).
  set (s1 := {| nv := nv s; hs := h; test_results := zset na_results core res;
                test_is_rebooting := test_is_rebooting s; lead_cpu := lead_cpu s;
                cpu_on_ctx_id_arr := cpu_on_ctx_id_arr s; events := events s |}).
  destruct (close_run s1 a tc res Hr Hc Hp eq_refl) as (n & E & R); [|done..|].
  { intros s' Hs'. apply overall_lead with (core := core); try done. by left. }
  exists n. split; [|done]. unfold leave_test.
  erewrite bind_Ok; cycle 1.
  { unfold write_result. erewrite bind_Ok by reflexivity.
    erewrite bind_Ok; [reflexivity|]. apply aset_Ok.
    rewrite Htr, zlen_zset. unfold na_results. rewrite zlen_replicate. lia. }
  erewrite bind_Ok; [|by apply write_entrypoint_run].
  rewrite Htr, zset_zset.
  erewrite (bind_Ok _ _ _ s1 0).
  { change (0 =? 0) with true. cbv iota. by rewrite (bind_Ok _ _ _ _ _ E). }
  unfold lift_hs, tftf_dec_ref_cnt, ref_lock, mbind, M_bind, get. cbn.
  rewrite Hunl, Hcnt. done.
Qed.

(** ** The whole session on the lead CPU *)

(** The tests in order, and what their results are to be *)
Definition tests : list (list Z * Z) := concat (map snd specs).

Lemma zget_concat (tss : list (list Z * list (list Z * Z))) (i j : Z)
    (ts : list Z * list (list Z * Z)) (tc : list Z * Z) :
  zget tss i = Some ts → zget ts.2 j = Some tc →
  zget (concat (map snd tss)) (zsum (λ ts, zlen ts.2) (take (Z.to_nat i) tss) + j) = Some tc.
Proof.
  revert i. induction tss as [|[nm tcs] tss IH]; intros i Hts Htc.
  { by apply zget_Some_range in Hts as []; unfold zlen in *; cbn in *; lia. }
  apply zget_Some_range in Htc as Hj. apply zget_Some_range in Hts as Hi.
  rewrite zget_cons in Hts. cbn [map concat snd].
  destruct (Z.eqb_spec i 0) as [Hz|Hi0].
  - injection Hts as <-. rewrite Hz.
    change (zsum (λ ts, zlen ts.2) (take (Z.to_nat 0) ((nm, tcs) :: tss))) with 0.
    rewrite Z.add_0_l. cbn [snd] in *. unfold zget in *. case_Z; [lia|].
    by apply lookup_app_l_Some.
  - specialize (IH (i - 1) Hts Htc).
    replace (Z.to_nat i) with (S (Z.to_nat (i - 1))) by lia. cbn [take].
    change (zsum (λ ts, zlen ts.2) ((nm, tcs) :: take (Z.to_nat (i - 1)) tss))
      with (zlen tcs + zsum (λ ts, zlen ts.2) (take (Z.to_nat (i - 1)) tss)).
    pose proof (zlen_sum_nonneg (take (Z.to_nat (i - 1)) tss)).
    set (m := zsum _ (take (Z.to_nat (i - 1)) tss)) in *.
    pose proof (zlen_nonneg tcs). unfold zget in *. do 2 (case_Z; [lia|]).
    unfold zlen in * |-. unfold zlen. rewrite lookup_app_r by lia.
    rewrite <- IH. rewrite (proj2 (Z.ltb_ge _ _)) by lia. f_equal. lia.
Qed.

Lemma tests_get (r : test_ref_t) (tc : list Z * Z) :
  case_at specs r = Some tc → zget tests (position specs r) = Some tc.
Proof.
  intros Hc. destruct (case_at_inv _ _ _ Hc) as (ts & Hts & Htc).
  by apply (zget_concat specs (testsuite_idx r) (testcase_idx r) ts tc).
Qed.


Lemma zlen_concat (tss : list (list Z * list (list Z * Z))) :
  zlen (concat (map snd tss)) = zsum (λ ts, zlen ts.2) tss.
Proof.
  induction tss as [|[nm tcs] tss IH]; [done|]. cbn [map concat snd]. by rewrite zlen_app, IH.
Qed.

Lemma zlen_tests : zlen tests = N.
Proof. apply zlen_concat. Qed.

Section Whole.

(** The test functions: the function at [ep] returns [outcome ep] and leaves
    [output ep] as the output of the test. *)
Context (call : Z → M Sess Z) (outcome : Z → Z) (output : Z → list Z).
Context (aff : Z → list Z) (tries : list (list Z)) (psci : option Z).
Context (core : Z).

Record tests_ok : Prop := {
  to_address : Forall (λ tc, tc.2 ≠ 0) tests;
  to_valid : Forall (λ tc, TEST_RESULT_IS_VALID (outcome tc.2) = true) tests;
  to_call : ∀ tc s a, tc ∈ tests → rep (nv s) a → sp_out a = [] →
    sp_cap a = TESTCASE_OUTPUT_MAX_SIZE →
    ∃ n, call tc.2 s = Ok (outcome tc.2, with_nv s n) ∧ rep n (sp_set_out a (output tc.2));
}.

Record platform_ok : Prop := {
  po_cpus : Forall (λ c, 0 <= c < CORES) cpus;
  po_lead : core ∈ cpus;
  po_aff : ∀ c, c ≠ core → ∃ x, x ∈ aff c ∧ x ≠ PSCI_STATE_ON;
}.

Context (Htests : tests_ok) (Hplat : platform_ok).

Definition expected (tc : list Z * Z) : entry :=
  {| e_result := outcome tc.2; e_duration := 0; e_output := output tc.2 |}.
Definition done_upto (a : spec) (p : Z) : Prop :=
  ∀ k tc, 0 <= k < p → zget tests k = Some tc → sp_results a k = expected tc.
Definition cost_from (p : Z) : Z :=
  zsum (λ tc, out_cost (output tc.2)) (drop (Z.to_nat p) tests).

Abbreviation run := (run_tests N CORES suites cpus DEBUG false call aff tries psci).

Lemma test_ok (tc : list Z * Z) :
  tc ∈ tests → tc.2 ≠ 0 ∧ TEST_RESULT_IS_VALID (outcome tc.2) = true.
Proof.
  intros Hin. split.
  - by apply (proj1 (Forall_forall _ _) (to_address Htests)).
  - by apply (proj1 (Forall_forall _ _) (to_valid Htests)).
Qed.

Lemma out_cost_nonneg (x : list Z) : 0 <= out_cost x.
Proof. unfold out_cost. pose proof (zlen_nonneg x). case_Z; lia. Qed.

Lemma cost_from_succ (p : Z) (tc : list Z * Z) :
  zget tests p = Some tc → cost_from p = out_cost (output tc.2) + cost_from (p + 1)
                           ∧ 0 <= cost_from (p + 1).
Proof.
  intros Hg. apply zget_Some_range in Hg as Hr. unfold cost_from. split.
  - unfold zget in Hg. destruct (Z.ltb_spec p 0); [lia|].
    rewrite (drop_S _ _ _ Hg). replace (Z.to_nat (p + 1)) with (S (Z.to_nat p)) by lia. done.
  - apply zsum_nonneg. intros. apply out_cost_nonneg.
Qed.

(** The abstract state when the test function returns *)
Definition ran (a : spec) (tc : list Z * Z) : spec :=
  sp_set_out (sp_set_progress a (progress_code TEST_IN_PROGRESS)) (output tc.2).

Lemma ran_valid (a : spec) (tc : list Z * Z) :
  case_at specs (sp_ref a) = Some tc → done_upto a (position specs (sp_ref a)) →
  out_cost (output tc.2) <= sp_free a → next_ref specs (sp_ref a) = None →
  all_valid (stored (ran a tc) (outcome tc.2)).
Proof.
  intros Hc Hd Hf Hn i Hi. rewrite stored_fields by done. cbn.
  pose proof (next_position _ _ _ Hspecs Hc) as Hnp. rewrite Hn in Hnp.
  pose proof (tests_get _ _ Hc) as Ht. case_decide as Hdec.
  - cbn. by apply test_ok, (zget_elem tests (position specs (sp_ref a))).
  - destruct (zget_is_Some tests i) as [tc' Htc']; [rewrite zlen_tests; lia|].
    rewrite (Hd i tc') by (done || lia). by apply test_ok, (zget_elem tests i).
Qed.

(** One round of the loop *)
Lemma round_run (fuel : nat) (s : Sess) (a : spec) (tc : list Z * Z) :
  rep (nv s) a → case_at specs (sp_ref a) = Some tc → lead_ok s core 0 → sp_out a = [] →
  sp_cap a = TESTCASE_OUTPUT_MAX_SIZE →
  done_upto a (position specs (sp_ref a)) → out_cost (output tc.2) <= sp_free a →
  ∃ s' evs, run (S fuel) core s =
    match closed_how a with
    | SessionFinished => (tftf_exit;; mret Exited) s'
    | _ => run fuel core s'
    end
    ∧ rep (nv s') (closed_spec (ran a tc) (outcome tc.2)) ∧ lead_ok s' core 0
    ∧ events s' = reverse (closed_events (ran a tc) (outcome tc.2)) ++ evs.
Proof.
  intros Hr Hc Hlo Hout Hcap Hd Hf. pose proof (zget_elem _ _ _ (tests_get _ _ Hc)) as Hin.
  destruct (test_ok tc Hin) as [Hep Hv].
  destruct (enter_run aff s a tc core Hr Hc Hlo (po_aff Hplat)) as (n1 & evs & E1 & R1).
  destruct (to_call Htests tc (in_test s n1 core tc.2 evs) _ Hin R1 Hout Hcap) as (n2 & E2 & R2).
  fold (ran a tc) in R2.
  pose proof Hlo as [Hl Hcnt Hunl Hon Hent [Hcore Hw]].
  set (s2 := with_nv (in_test s n1 core tc.2 evs) n2) in *.
  assert (lead_ok s2 core 1) as Hlo2.
  { split; cbn; try done. by rewrite zlen_zset. }
  destruct (leave_run s2 (ran a tc) tc core (outcome tc.2) TEST_RESULT_CRASHED R2 Hc Hlo2 eq_refl
    (po_cpus Hplat) (po_lead Hplat)) as (n3 & E3 & R3); [done|done|done| |].
  { intros Hn. by apply ran_valid. }
  exists (left_state s2 n3 core (outcome tc.2) (closed_events (ran a tc) (outcome tc.2))),
    (events s2). split_and!; [|exact R3| |reflexivity].
  - cbn [run_tests]. rewrite (bind_Ok _ _ _ _ _ E1).
    erewrite bind_Ok; cycle 1.
    { unfold test_to_call. erewrite bind_Ok by reflexivity. erewrite bind_Ok.
      - by rewrite (proj2 (Z.eqb_neq _ _)) by exact Hep.
      - apply aget_Ok. cbn. by apply zget_zset_eq. }
    rewrite (bind_Ok _ _ _ _ _ E2), (bind_Ok _ _ _ _ _ E3).
    change (closed_how (ran a tc)) with (closed_how a).
    unfold closed_how. destruct (next_ref specs (sp_ref a)); [|done].
    erewrite bind_Ok by reflexivity. cbn [lead_cpu left_state with_nv in_test s2].
    by rewrite Hl, Z.eqb_refl.
  - split; cbn; try done. by rewrite !zlen_zset.
Qed.

Lemma closed_results (a : spec) (tc : list Z * Z) :
  case_at specs (sp_ref a) = Some tc → done_upto a (position specs (sp_ref a)) →
  out_cost (output tc.2) <= sp_free a →
  done_upto (closed_spec (ran a tc) (outcome tc.2)) (position specs (sp_ref a) + 1).
Proof.
  intros Hc Hd Hf k tc' Hk Hg. pose proof (tests_get _ _ Hc) as Ht.
  assert (sp_results (closed_spec (ran a tc) (outcome tc.2)) k =
          sp_results (stored (ran a tc) (outcome tc.2)) k) as ->.
  { unfold closed_spec. by destruct (next_ref _ _). }
  rewrite stored_fields by done. cbn. case_decide as Hdec.
  - subst k. rewrite Ht in Hg. by simplify_eq.
  - apply Hd; [lia|done].
Qed.

Lemma run_all (fuel : nat) (s : Sess) (a : spec) (tc : list Z * Z) :
  rep (nv s) a → case_at specs (sp_ref a) = Some tc → lead_ok s core 0 → sp_out a = [] →
  sp_cap a = TESTCASE_OUTPUT_MAX_SIZE →
  done_upto a (position specs (sp_ref a)) → cost_from (position specs (sp_ref a)) <= sp_free a →
  N - position specs (sp_ref a) <= Z.of_nat fuel →
  ∃ s' a' evs, run fuel core s = Ok (Exited, s') ∧ rep (nv s') a' ∧ done_upto a' N
    ∧ sp_message a' = 0 :: tl (sp_message a)
    ∧ events s' = PlatformEnd
                  :: reverse (summary_events (λ i, e_result (sp_results a' i))) ++ evs.
Proof.
  revert s a tc. induction fuel as [|fuel IH]; intros s a tc Hr Hc Hlo Hout Hcap Hd Hcost Hfuel.
  { pose proof (position_range _ _ Hc). lia. }
  destruct (cost_from_succ _ _ (tests_get _ _ Hc)) as [Hcs Hcn].
  assert (out_cost (output tc.2) <= sp_free a) as Hf by lia.
  destruct (round_run fuel s a tc Hr Hc Hlo Hout Hcap Hd Hf) as (s' & evs & E & R & L & Ev).
  pose proof (closed_results a tc Hc Hd Hf) as Hd'.
  pose proof (next_position _ _ _ Hspecs Hc) as Hnp.
  unfold closed_how, closed_spec, closed_events in *. cbn [sp_ref ran sp_set_out sp_set_progress] in *.
  pose proof (stored_fields (ran a tc) (outcome tc.2) Hf) as Hst.
  destruct (next_ref specs (sp_ref a)) as [r|] eqn:Hn.
  - destruct Hnp as [Hpos [tc' Hc']].
    destruct (IH s' (moved (stored (ran a tc) (outcome tc.2)) r) tc' R Hc' L)
      as (s'' & a' & evs' & E' & R' & D' & M' & Ev').
    + by rewrite Hst.
    + by rewrite Hst.
    + cbn. by rewrite Hpos.
    + cbn [sp_ref moved sp_set_progress sp_set_ref]. rewrite Hpos, Hst. cbn. lia.
    + cbn. lia.
    + exists s'', a', evs'. rewrite E, E'. split_and!; try done. rewrite M', Hst. done.
  - exists (noted s' (nv s') [PlatformEnd]),
      (sp_set_message (stored (ran a tc) (outcome tc.2)) (0 :: tl (sp_message a))),
      (reverse [WatchdogReset; TestEnd (outcome tc.2) (output tc.2)] ++ evs).
    rewrite E. split_and!; try done.
    + by rewrite <- Hnp.
    + cbn [events noted]. rewrite Ev, reverse_app, <- app_assoc. done.
Qed.


(** *** The boot *)

Record hp_boot_ok (h : hp_state) : Prop := {
  bo_map : 0 <= core < zlen (cpus_status_map h) ∧ cpus_status_init_done h = 0;
  bo_entry : 0 <= core < zlen (test_entrypoint h);
  bo_ref : ref_cnt h = 0 ∧ ref_cnt_lock h = false;
  bo_core : 0 <= core < CORES ∧ CORES < 2 ^ 32;
}.

Record boot_ok (s : Sess) : Prop := {
  bo_store : nvm_ok (store (nv s));
  bo_size : sizeof_tftf_state N <= zlen (nvm_bytes (store (nv s)));
  bo_small : zlen (nvm_bytes (store (nv s))) < off_result_buffer N + 2 ^ 32;
  bo_width : zlen (nvm_bytes (store (nv s))) < 2 ^ 63;
  bo_output : output_ok (nv s) ∧ text (nv s) = []
              ∧ zlen (testcase_output (nv s)) = TESTCASE_OUTPUT_MAX_SIZE;
  bo_hp : hp_boot_ok (hs s);
}.

Lemma init_map_run (s : Sess) :
  hp_boot_ok (hs s) →
  ∃ h, lift_hs (tftf_init_cpus_status_map true core) s = Ok (tt, with_hs s h)
       ∧ lead_ok {| nv := nv s; hs := h; test_results := test_results s;
                    test_is_rebooting := test_is_rebooting s; lead_cpu := core;
                    cpu_on_ctx_id_arr := cpu_on_ctx_id_arr s; events := events s |} core 0.
Proof.
  intros []. destruct bo_map0 as [Hm Hi], bo_ref0 as [Hr Hl].
  destruct (zget_is_Some (cpus_status_map (hs s)) core Hm) as [e He].
  set (m := zset (cpus_status_map (hs s)) core {| state := STATE_ON; lock := lock e |}).
  exists (set_map (set_init_done (hs s) 1) m). split.
  - apply lift_hs_run. unfold tftf_init_cpus_status_map, write_state, write_entry, cpu_entry,
      mbind, M_bind, get, aget. cbn. rewrite Hi. cbn. rewrite He, (aset_Ok _ _ _ _ Hm). done.
  - split; cbn; try done. eexists. split; [by apply zget_zset_eq|done].
Qed.

Lemma new_session_raw (s : Sess) :
  boot_ok s →
  ∃ t, lift_nv (new_test_session build_message) s =
       Ok (negb (strncmp_eq (Z.to_nat BUILD_MESSAGE_SIZE) build_message
                   (message_at (nvm_bytes (store (nv s))))), with_nv s (with_store (nv s) t))
       ∧ nvm_ok t ∧ nvm_bytes t = nvm_bytes (store (nv s)).
Proof.
  intros []. pose proof (layout N). pose proof (zlen_sum_nonneg specs).
  assert (off_build_message + BUILD_MESSAGE_SIZE = 32) by done.
  assert (sizeof_tftf_state N = off_result_buffer N + 8) by done.
  assert (0 <= N) by done.
  destruct (env_read_run (nv s) off_build_message BUILD_MESSAGE_SIZE) as (t & E & B & K);
    [done|done|done|lia|].
  exists t. split; [|done]. apply lift_nv_run. unfold new_test_session.
  by rewrite (bind_Ok _ _ _ _ _ E).
Qed.

Lemma boot_new_run (s : Sess) :
  boot_ok s → 0 < N →
  strncmp_eq (Z.to_nat BUILD_MESSAGE_SIZE) build_message
    (message_at (nvm_bytes (store (nv s)))) = false →
  ∃ s', cold_boot_session N build_message suites DEBUG core s = Ok (true, s')
    ∧ rep (nv s') (sp_initial build_message
                     (zlen (nvm_bytes (store (nv s))) - off_result_buffer N)
                     (zlen (testcase_output (nv s))))
    ∧ lead_ok s' core 0.
Proof.
  intros Hb Hn Hnew. destruct (new_session_raw s Hb) as (t & E & K & B).
  unfold cold_boot_session. rewrite (bind_Ok _ _ _ _ _ E), Hnew. cbn [negb].
  destruct (bo_output _ Hb) as (Ho & Ht & _).
  destruct (sim_init N build_message (with_store (nv s) t)) as (n & E2 & R2); cbn in *;
    rewrite ?B in *; try done; try (by destruct Hb); try (by apply output_ok_store).
  destruct (init_map_run (with_nv s n)) as (h & E3 & L3); [by destruct Hb|].
  match type of L3 with lead_ok ?x _ _ => exists x end.
  split; [|split; [exact R2|exact L3]].
  erewrite (bind_Ok _ _ _ (with_nv s n) true); cycle 1.
  { erewrite bind_Ok by (apply lift_nv_run; exact E2). by destruct s. }
  rewrite (bind_Ok _ _ _ _ _ E3). done.
Qed.

Lemma first_case (tss : list (list Z * list (list Z * Z))) :
  specs_ok tss → tss ≠ [] →
  ∃ tc, case_at tss {| testsuite_idx := 0; testcase_idx := 0 |} = Some tc.
Proof.
  intros [Hnon _ _] Hne. destruct Hnon as [|[n [|tc l]] tss Hts _]; [done|done|]. by exists tc.
Qed.

End Whole.


(** ** Resuming an interrupted session *)

Definition with_reb (s : Sess) (n : nvm_env) (v : Z) : Sess :=
  {| nv := n; hs := hs s; test_results := test_results s;
     test_is_rebooting := v; lead_cpu := lead_cpu s;
     cpu_on_ctx_id_arr := cpu_on_ctx_id_arr s; events := events s |}.

(** The abstract state once the interrupted test is recorded as crashed *)
Definition crashed (a : spec) : spec :=
  (sp_set_result a (position specs (sp_ref a)) TEST_RESULT_CRASHED 0).2.

Lemma crashed_ref (a : spec) : sp_ref (crashed a) = sp_ref a.
Proof. unfold crashed, sp_set_result. by destruct (_ <? _). Qed.
Lemma crashed_progress (a : spec) : sp_progress (crashed a) = sp_progress a.
Proof. unfold crashed, sp_set_result. by destruct (_ <? _). Qed.

(** Up to the switch on the progress *)
Lemma resume_begin_run (s : Sess) (a : spec) (p : test_progress_t) :
  rep (nv s) a → sp_progress a = progress_code p →
  ∃ n, resume_test_session N suites DEBUG s =
       match p with
       | TEST_READY => Ok (0, with_nv s n)
       | TEST_IN_PROGRESS =>
           (tc ← current_testcase suites;
            lift_nv (tftf_testcase_set_result N (tc_index tc) TEST_RESULT_CRASHED 0);;
            next ← advance_to_next_test suites DEBUG;
            match next with None => mret (-1) | Some _ => mret 0 end) (with_nv s n)
       | TEST_COMPLETE => Ok (-1, with_nv s n)
       | TEST_REBOOTING => Ok (0, with_reb s n 1)
       end ∧ rep n a.
Proof.
  intros Hr Hp. destruct (sim_get_ref _ _ _ Hr) as (n1 & E1 & R1).
  destruct (sim_get_progress _ _ _ R1) as (n2 & E2 & R2). exists n2. split; [|done].
  unfold resume_test_session. rewrite (bind_Ok _ _ _ _ _ (lift_nv_run _ _ _ _ E1)).
  rewrite (bind_Ok _ _ _ _ _ (lift_nv_run _ (with_nv s n1) _ _ E2)).
  cbn [snd]. rewrite Hp. by destruct p.
Qed.

Lemma resume_crash_run (s : Sess) (a : spec) (tc : list Z * Z) :
  rep (nv s) a → case_at specs (sp_ref a) = Some tc →
  ∃ n, (∀ B (k : M Sess B),
       (tc ← current_testcase suites;
        lift_nv (tftf_testcase_set_result N (tc_index tc) TEST_RESULT_CRASHED 0);; k) s
       = k (with_nv s n)) ∧ rep n (crashed a).
Proof.
  intros Hr Hc. destruct (current_testcase_run s a tc Hr Hc) as (n1 & E1 & R1).
  destruct (sim_set_result _ _ _ (position specs (sp_ref a)) TEST_RESULT_CRASHED 0 R1)
    as (n2 & E2 & R2); [by eapply position_range|unfold TEST_RESULT_CRASHED; lia|lia|].
  exists n2. split; [|done]. intros B k. rewrite (bind_Ok _ _ _ _ _ E1).
  cbn [tc_index case_of]. by rewrite (bind_Ok _ _ _ _ _ (lift_nv_run _ (with_nv s n1) _ _ E2)).
Qed.

(** C39: what a boot does with an interrupted session, for each progress it can
    find, in a build without DEBUG: a test that had not started runs; a test
    that announced a reboot runs again and is told so; a test in progress is
    recorded as crashed and the next one runs, or the session ends after the
    last; a session interrupted between two tests is given up. *)
Theorem resume_branches (s : Sess) (a : spec) (tc : list Z * Z) (p : test_progress_t) :
  DEBUG = false → rep (nv s) a → case_at specs (sp_ref a) = Some tc →
  sp_progress a = progress_code p →
  ∃ rc s' a', resume_test_session N suites DEBUG s = Ok (rc, s') ∧ rep (nv s') a'
    ∧ match p with
      | TEST_READY => rc = 0 ∧ a' = a ∧ test_is_rebooting s' = test_is_rebooting s
      | TEST_REBOOTING => rc = 0 ∧ a' = a ∧ test_is_rebooting s' = 1
      | TEST_COMPLETE => rc = -1 ∧ a' = a
      | TEST_IN_PROGRESS =>
          match next_ref specs (sp_ref a) with
          | Some r => rc = 0 ∧ a' = moved (crashed a) r
          | None => rc = -1 ∧ a' = crashed a
          end
      end.
Proof.
  intros Hdbg Hr Hc Hp. destruct (resume_begin_run s a p Hr Hp) as (n & E & R). rewrite E.
  destruct p; [by exists 0, (with_nv s n), a| |by exists (-1), (with_nv s n), a
              |by exists 0, (with_reb s n 1), a].
  destruct (resume_crash_run (with_nv s n) a tc R Hc) as (n2 & E2 & R2). rewrite E2.
  destruct (advance_run (with_nv s n2) (crashed a) tc R2) as (n3 & x & E3 & R3 & Hx);
    [by rewrite crashed_ref|by rewrite Hdbg|].
  change (with_nv (with_nv s n) n2) with (with_nv s n2). rewrite (bind_Ok _ _ _ _ _ E3).
  unfold advanced in R3. rewrite crashed_ref in R3, Hx.
  destruct (next_ref specs (sp_ref a)) as [r|].
  - destruct x as [x|]; [|by destruct Hx as [Hx _]; specialize (Hx eq_refl)].
    by exists 0, (with_nv s n3), (moved (crashed a) r).
  - rewrite (proj2 Hx) by done. by exists (-1), (with_nv s n3), (crashed a).
Qed.

(** in a DEBUG build a test that crashed the platform stops the session:
    resume_test_session() moves on from a test in progress, but
    advance_to_next_test() asserts that the progress is TEST_COMPLETE. *)
Theorem resume_crash_debug_asserts (s : Sess) (a : spec) (tc : list Z * Z) :
  DEBUG = true → rep (nv s) a → case_at specs (sp_ref a) = Some tc →
  sp_progress a = progress_code TEST_IN_PROGRESS →
  resume_test_session N suites DEBUG s = Stop AssertFail.
Proof.
  intros Hdbg Hr Hc Hp.
  destruct (resume_begin_run s a TEST_IN_PROGRESS Hr Hp) as (n & E & R). rewrite E.
  destruct (resume_crash_run (with_nv s n) a tc R Hc) as (n2 & E2 & R2). rewrite E2.
  destruct (sim_get_progress _ _ _ R2) as (n3 & E3 & R3).
  unfold advance_to_next_test. rewrite Hdbg. unfold mbind, M_bind.
  rewrite (lift_nv_run _ (with_nv (with_nv s n) n2) _ _ E3). cbn [snd].
  by rewrite crashed_progress, Hp.
Qed.
End Sim.


(** ** The overall result of a test *)

(** The first result, in the order of the CPUs, that is neither NA nor SUCCESS *)
Fixpoint first_problem (rs : list Z) : option Z :=
  match rs with
  | [] => None
  | r :: rs' =>
      if (r =? TEST_RESULT_NA) || (r =? TEST_RESULT_SUCCESS) then first_problem rs' else Some r
  end.

Section Overall.

Context {T : Type} `{NvmStore T}.

Lemma overall_loop_spec (cpus rs : list Z) (r0 : Z) (s : session (T := T)) :
  Forall2 (λ c r, zget (test_results s) c = Some r) cpus rs →
  Forall (λ r, r = TEST_RESULT_NA ∨ TEST_RESULT_IS_VALID r = true) rs →
  r0 = TEST_RESULT_NA ∨ r0 = TEST_RESULT_SUCCESS →
  overall_loop cpus r0 s =
  match first_problem rs with
  | Some r => Ok (r, s)
  | None => if (r0 =? TEST_RESULT_SUCCESS) || existsb (Z.eqb TEST_RESULT_SUCCESS) rs
            then Ok (TEST_RESULT_SUCCESS, s) else Stop AssertFail
  end.
Proof.
  intros Hg Hv. revert r0. induction Hg as [|c r cpus rs Hc Hg IH]; intros r0 Hr0.
  { by destruct Hr0 as [-> | ->]. }
  inversion Hv as [|? ? Hr Hv']; subst. specialize (IH Hv'). cbn [overall_loop].
  erewrite bind_Ok by reflexivity. rewrite (bind_Ok _ _ _ _ _ (aget_Ok _ _ _ _ Hc)).
  destruct Hr as [->|Hr].
  - cbn. by apply IH.
  - unfold TEST_RESULT_IS_VALID in Hr. bool_hyps.
    assert (r = 0 ∨ r = 1 ∨ r = 2 ∨ r = 3) as [->|[->|[->| ->]]] by lia; try done.
    cbn. rewrite IH by (by right). cbn. by rewrite orb_true_r.
Qed.

(** the overall result of a test is the first problem (skipped, failed or
    crashed) in the order of the CPUs; without one it is SUCCESS provided some
    CPU succeeded, and an assertion fails when no CPU took part. *)
Theorem overall_result_spec (cpus rs : list Z) (s : session (T := T)) :
  Forall2 (λ c r, zget (test_results s) c = Some r) cpus rs →
  Forall (λ r, r = TEST_RESULT_NA ∨ TEST_RESULT_IS_VALID r = true) rs →
  get_overall_test_result cpus s =
  match first_problem rs with
  | Some r => Ok (r, s)
  | None => if existsb (Z.eqb TEST_RESULT_SUCCESS) rs
            then Ok (TEST_RESULT_SUCCESS, s) else Stop AssertFail
  end.
Proof. intros Hg Hv. apply overall_loop_spec; [done|done|by left]. Qed.
End Overall.

(** ** Witnesses: two suites, three tests, two CPUs *)

Definition demo_specs : list (list Z * list (list Z * Z)) :=
  [([65], [([97], 16); ([98], 20)]); ([66], [([99], 24)])].

Definition demo_outcome (ep : Z) : Z := if ep =? 20 then TEST_RESULT_FAIL else TEST_RESULT_SUCCESS.
Definition demo_output (ep : Z) : list Z := if ep =? 20 then demo_out else [].

(** The failing test prints a message. *)
Definition demo_call (ep : Z) : M (session (T := dram_nvm)) Z :=
  (if ep =? 20 then lift_nv (tftf_testcase_printf demo_fmt demo_args) else mret 0);;
  mret (demo_outcome ep).

Definition demo_nv (b : list Z) : nvm_env (T := dram_nvm) :=
  {| store := {| dram := b |}; testcase_output := replicate 1024 0;
     testcase_output_idx := 0; testcase_output_lock := false |}.
Definition demo_session (b : list Z) : session (T := dram_nvm) :=
  {| nv := demo_nv b; hs := hp_boot 2; test_results := [0; 0]; test_is_rebooting := 0;
     lead_cpu := 0; cpu_on_ctx_id_arr := [0; 0]; events := [] |}.

Lemma demo_specs_ok : specs_ok demo_specs.
Proof. split; [repeat constructor; done|vm_compute; done|repeat constructor; vm_compute; done]. Qed.

Lemma with_nv_self {T} (s : session (T := T)) : with_nv s (nv s) = s.
Proof. by destruct s. Qed.

Lemma demo_tests_ok : tests_ok demo_specs demo_call demo_outcome demo_output.
Proof.
  split; [repeat constructor; done|repeat constructor; done|].
  intros tc s a Hin Hr Ho Hcap. unfold demo_call, demo_outcome, demo_output. case_Z.
  - destruct (sim_printf (total demo_specs) (nv s) a demo_fmt demo_args
      [Lit 120; Lit 61;
       Conv Signed {| l_count := 0; left := false; padc := ch_space; padn := 5 |};
       Lit 124; Conv String no_flags] demo_out Hr) as (n & E & R);
      [reflexivity|vm_compute; reflexivity|repeat constructor; done|vm_compute; done|].
    exists n. erewrite bind_Ok by (apply lift_nv_run; exact E). split; [done|].
    unfold sp_printf in R. rewrite Hcap, Ho in R. exact R.
  - exists (nv s). rewrite with_nv_self. split; [done|]. unfold sp_set_out. rewrite <- Ho.
    by destruct a.
Qed.

Lemma demo_platform_ok : platform_ok 2 [0; 1] (λ _, [0; 1]) 0.
Proof.
  split; [repeat constructor; done|left|]. intros c Hc. exists 1. split; [|done]. right. left.
Qed.

Lemma demo_boot_ok : boot_ok 2 demo_specs 0 (demo_session (replicate 400 0)).
Proof.
  split; [vm_compute; done..| |].
  - split; [|done]. split; vm_compute; done.
  - split; vm_compute; done.
Qed.


(** An interrupted session: the second test was running. *)
Definition demo_interrupted : nvm_env (T := dram_nvm) :=
  match (tftf_init_nvm 3 demo_msg;;
         tftf_set_test_to_run {| testsuite_idx := 0; testcase_idx := 1 |};;
         tftf_set_test_progress TEST_IN_PROGRESS) (demo_nv (replicate 400 0)) with
  | Ok (_, n) => n
  | Stop _ => demo_nv []
  end.
Definition demo_resumed : session (T := dram_nvm) :=
  {| nv := demo_interrupted; hs := hp_boot 2; test_results := [0; 0]; test_is_rebooting := 0;
     lead_cpu := 0; cpu_on_ctx_id_arr := [0; 0]; events := [] |}.
Definition demo_interrupted_spec : spec :=
  sp_set_progress (sp_set_ref (sp_initial demo_msg (400 - off_result_buffer 3) 1024)
    {| testsuite_idx := 0; testcase_idx := 1 |}) (progress_code TEST_IN_PROGRESS).

Lemma demo_interrupted_rep : NvmSpec.rep 3 demo_interrupted demo_interrupted_spec.
Proof.
  unfold demo_interrupted, demo_interrupted_spec.
  destruct (sim_init 3 demo_msg (demo_nv (replicate 400 0))) as (n1 & E1 & R1);
    [vm_compute; done..|split; vm_compute; done|done|].
  rewrite (bind_Ok _ _ _ _ _ E1).
  destruct (sim_set_ref 3 n1 _ {| testsuite_idx := 0; testcase_idx := 1 |} R1) as (n2 & E2 & R2);
    [unfold ref_fits; cbn; lia|].
  rewrite (bind_Ok _ _ _ _ _ E2).
  destruct (sim_set_progress 3 n2 _ TEST_IN_PROGRESS R2) as (n3 & E3 & R3). by rewrite E3.
Qed.

Lemma resume_branches_witness :
  ∃ s' a', resume_test_session 3 (generate_testsuites 0 demo_specs) false demo_resumed = Ok (0, s')
    ∧ NvmSpec.rep 3 (nv s') a' ∧ sp_ref a' = {| testsuite_idx := 1; testcase_idx := 0 |}
    ∧ e_result (sp_results a' 1) = TEST_RESULT_CRASHED.
Proof.
  destruct (resume_branches demo_specs false demo_specs_ok demo_resumed demo_interrupted_spec
    ([98], 20) TEST_IN_PROGRESS) as (rc & s' & a' & E & R & -> & ->).
  - reflexivity.
  - exact demo_interrupted_rep.
  - reflexivity.
  - reflexivity.
  - eexists s', _. split; [exact E|]. split; [exact R|]. split; reflexivity.
Defined.

Lemma resume_crash_debug_asserts_witness :
  resume_test_session 3 (generate_testsuites 0 demo_specs) true demo_resumed = Stop AssertFail.
Proof.
  apply (resume_crash_debug_asserts demo_specs true demo_resumed demo_interrupted_spec
    ([98], 20)).
  - reflexivity.
  - exact demo_interrupted_rep.
  - reflexivity.
  - reflexivity.
Defined.

Lemma overall_result_spec_witness :
  get_overall_test_result [0; 1]
    {| nv := demo_nv []; hs := hp_boot 2; test_results := [TEST_RESULT_FAIL; TEST_RESULT_CRASHED];
       test_is_rebooting := 0; lead_cpu := 0; cpu_on_ctx_id_arr := []; events := [] |}
  = Ok (TEST_RESULT_FAIL,
    {| nv := demo_nv []; hs := hp_boot 2; test_results := [TEST_RESULT_FAIL; TEST_RESULT_CRASHED];
       test_is_rebooting := 0; lead_cpu := 0; cpu_on_ctx_id_arr := []; events := [] |}).
Proof.
  apply (overall_result_spec [0; 1] [TEST_RESULT_FAIL; TEST_RESULT_CRASHED]).
  - repeat constructor.
  - repeat constructor; by right.
Defined.

(** ** A suite without tests *)

Definition demo_empty_suite : list (list Z * list (list Z * Z)) :=
  [([65], [([97], 16)]); ([66], []); ([67], [([99], 24)])].

Definition demo_booted : session (T := dram_nvm) :=
  match cold_boot_session 2 demo_msg (generate_testsuites 0 demo_empty_suite) false 0
          (demo_session (replicate 400 0)) with
  | Ok (_, s) => s
  | Stop _ => demo_session []
  end.

(** the list generator keeps a suite all of whose tests are skipped; the
    session then moves to the terminating entry of that suite and waits for
    ever for its NULL test function, however many rounds are allowed. *)
Theorem empty_suite_hangs (fuel : nat) :
  ∃ s1, cold_boot_session 2 demo_msg (generate_testsuites 0 demo_empty_suite) false 0
          (demo_session (replicate 400 0)) = Ok (true, s1)
    ∧ run_tests 2 2 (generate_testsuites 0 demo_empty_suite) [0; 1] false false demo_call
        (λ _, [0; 1]) [] None (S (S fuel)) 0 s1 = Stop FuelOut.
Proof.
  exists demo_booted. split.
  - vm_compute. reflexivity.
  - vm_compute. reflexivity.
Qed.
