(* ===== verification/Io.v ===== *)
(** * The storage abstraction, the memory-mapped driver and firmware packages

    drivers/io/io_storage.c dispatches to drivers through their functions; the
    drivers are drivers/io/io_memmap.c and drivers/io/io_fip.c, which reads
    the table of contents of a firmware image package through another device.
    plat/common/image_loader.c loads images through them.  A pointer to an
    entity is its index in the pool; a read returns the bytes it stores in
    the caller's buffer. *)

From S2P Require Import Prelude Bytes.

Local Open Scope Z_scope.

Definition IO_SUCCESS : Z := 0.
Definition IO_FAIL : Z := -1.
Definition IO_NOT_SUPPORTED : Z := -2.
Definition IO_RESOURCES_EXHAUSTED : Z := -3.

Inductive io_seek_mode_t : Set :=
| IO_SEEK_INVALID
| IO_SEEK_SET
| IO_SEEK_END
| IO_SEEK_CUR
| IO_SEEK_MAX.
#[export] Instance seek_eq_dec : EqDecision io_seek_mode_t.
Proof. solve_decision. Defined.

(** The devices: the addresses of [memmap_dev_info] and [fip_dev_info] *)
Inductive dev : Set :=
| Memmap
| Fip.
#[export] Instance dev_eq_dec : EqDecision dev.
Proof. solve_decision. Defined.

(** [io_block_spec_t] and [io_uuid_spec_t] *)
Inductive io_spec : Type :=
| BlockSpec (offset length : Z)
| UuidSpec (uuid : list Z).

(** [info] is 0, or the address of the driver's file state *)
Record io_entity_t := { dev_handle : option dev; info : option dev }.

(** The [file_state_t] of io_memmap.c *)
Record memmap_file_t := { in_use : Z; base : Z; file_pos : Z }.

Record fip_toc_header_t := { name : Z; serial_number : Z; hdr_flags : Z }.
Record fip_toc_entry_t := { uuid : list Z; offset_address : Z; size : Z; entry_flags : Z }.
(** The [file_state_t] of io_fip.c *)
Record fip_file_t := { fip_pos : Z; entry : fip_toc_entry_t }.

Record io_state := {
  entity_pool : list io_entity_t;
  entity_map : list bool;
  entity_count : Z;
  devices : list dev;
  memmap_file : memmap_file_t;
  fip_file : fip_file_t;
  backend_dev_handle : option dev;
  backend_image_spec : option io_spec;
  memory : list Z;
}.

Definition set_pool (s : io_state) (p : list io_entity_t) : io_state :=
  {| entity_pool := p; entity_map := entity_map s; entity_count := entity_count s;
     devices := devices s; memmap_file := memmap_file s; fip_file := fip_file s;
     backend_dev_handle := backend_dev_handle s; backend_image_spec := backend_image_spec s;
     memory := memory s |}.
Definition set_alloc (s : io_state) (m : list bool) (c : Z) : io_state :=
  {| entity_pool := entity_pool s; entity_map := m; entity_count := c;
     devices := devices s; memmap_file := memmap_file s; fip_file := fip_file s;
     backend_dev_handle := backend_dev_handle s; backend_image_spec := backend_image_spec s;
     memory := memory s |}.
Definition set_devices (s : io_state) (d : list dev) : io_state :=
  {| entity_pool := entity_pool s; entity_map := entity_map s; entity_count := entity_count s;
     devices := d; memmap_file := memmap_file s; fip_file := fip_file s;
     backend_dev_handle := backend_dev_handle s; backend_image_spec := backend_image_spec s;
     memory := memory s |}.
Definition set_memmap (s : io_state) (f : memmap_file_t) : io_state :=
  {| entity_pool := entity_pool s; entity_map := entity_map s; entity_count := entity_count s;
     devices := devices s; memmap_file := f; fip_file := fip_file s;
     backend_dev_handle := backend_dev_handle s; backend_image_spec := backend_image_spec s;
     memory := memory s |}.
Definition set_fip (s : io_state) (f : fip_file_t) : io_state :=
  {| entity_pool := entity_pool s; entity_map := entity_map s; entity_count := entity_count s;
     devices := devices s; memmap_file := memmap_file s; fip_file := f;
     backend_dev_handle := backend_dev_handle s; backend_image_spec := backend_image_spec s;
     memory := memory s |}.
Definition set_backend (s : io_state) (d : option dev) (sp : option io_spec) : io_state :=
  {| entity_pool := entity_pool s; entity_map := entity_map s; entity_count := entity_count s;
     devices := devices s; memmap_file := memmap_file s; fip_file := fip_file s;
     backend_dev_handle := d; backend_image_spec := sp; memory := memory s |}.
Definition set_memory (s : io_state) (m : list Z) : io_state :=
  {| entity_pool := entity_pool s; entity_map := entity_map s; entity_count := entity_count s;
     devices := devices s; memmap_file := memmap_file s; fip_file := fip_file s;
     backend_dev_handle := backend_dev_handle s; backend_image_spec := backend_image_spec s;
     memory := m |}.

(** memcpy() from and to the memory of the platform *)
Definition mem_read (addr len : Z) : M io_state (list Z) := λ s,
  if (0 <=? addr) && (0 <=? len) && (addr + len <=? zlen (memory s))
  then Ok (slice addr len (memory s), s) else Stop OutOfBounds.
Definition mem_write (addr : Z) (d : list Z) : M io_state unit := λ s,
  if (0 <=? addr) && (addr + zlen d <=? zlen (memory s))
  then Ok (tt, set_memory s (splice addr d (memory s))) else Stop OutOfBounds.

(** The entity at a handle *)
Definition get_entity (h : Z) : M io_state io_entity_t := s ← get; aget (entity_pool s) h.
Definition put_entity (h : Z) (e : io_entity_t) : M io_state unit :=
  s ← get; p ← aset (entity_pool s) h e; modify (λ s, set_pool s p).

(** [io_dev_funcs_t]: [None] is a NULL pointer *)
Record io_dev_funcs_t := {
  f_open : option (io_spec → Z → M io_state Z);
  f_seek : option (Z → io_seek_mode_t → Z → M io_state Z);
  f_size : option (Z → M io_state (Z * Z));
  f_read : option (Z → Z → M io_state (Z * list Z));
  f_write : option (Z → list Z → M io_state (Z * Z));
  f_close : option (Z → M io_state Z);
  f_dev_init : option (Z → M io_state Z);
  f_dev_close : option (M io_state Z);
}.

(** ** io_storage.c *)

Section Storage.

Context (MAX_IO_HANDLES MAX_IO_DEVICES : Z).

(** The loop of [find_first_entity()]: NULL is looked for with [false], the
    entity at an index with its own map entry *)
Fixpoint find_free (m : list bool) (i : Z) : option Z :=
  match m with
  | [] => None
  | b :: m' => if b then find_free m' (i + 1) else Some i
  end.

Definition allocate_entity : M io_state (Z * Z) :=
  s ← get;
  if entity_count s <? MAX_IO_HANDLES then
    match find_free (entity_map s) 0 with
    | None => fail AssertFail
    | Some index =>
        modify (λ s, set_alloc s (zset (entity_map s) index true) (u32 (entity_count s + 1)));;
        mret (IO_SUCCESS, index)
    end
  else mret (IO_RESOURCES_EXHAUSTED, 0).

(** [entity_map[i]] is NULL or the address of [entity_pool[i]]. *)
Definition free_entity (h : Z) : M io_state Z :=
  s ← get;
  match zget (entity_map s) h with
  | Some true =>
      modify (λ s, set_alloc s (zset (entity_map s) h false) (u32 (entity_count s - 1)));;
      mret IO_SUCCESS
  | _ => mret IO_FAIL
  end.

Definition io_register_device (d : dev) : M io_state Z :=
  s ← get;
  if zlen (devices s) <? MAX_IO_DEVICES then
    modify (λ s, set_devices s (devices s ++ [d]));; mret IO_SUCCESS
  else mret IO_RESOURCES_EXHAUSTED.

Context (funcs : dev → io_dev_funcs_t).

Definition io_dev_init (d : dev) (params : Z) : M io_state Z :=
  match f_dev_init (funcs d) with
  | Some f => f params
  | None => mret IO_SUCCESS
  end.

Definition io_dev_close (d : dev) : M io_state Z :=
  match f_dev_close (funcs d) with
  | Some f => f
  | None => mret IO_SUCCESS
  end.

(** The result, and the handle *)
Definition io_open (d : dev) (spec : io_spec) : M io_state (Z * Z) :=
  r ← allocate_entity;
  if r.1 =? IO_SUCCESS then
    match f_open (funcs d) with
    | None => fail AssertFail
    | Some f =>
        result ← f spec r.2;
        if result =? IO_SUCCESS then
          e ← get_entity r.2;
          put_entity r.2 {| dev_handle := Some d; info := info e |};;
          mret (result, r.2)
        else
          free_entity r.2;;
          mret (result, 0)
    end
  else mret (r.1, 0).

(** The device of a valid entity *)
Definition entity_dev (h : Z) : M io_state dev :=
  e ← get_entity h;
  match dev_handle e with
  | Some d => mret d
  | None => fail AssertFail
  end.

Definition io_seek (h : Z) (mode : io_seek_mode_t) (offset : Z) : M io_state Z :=
  d ← entity_dev h;
  assert_ (negb (bool_decide (mode = IO_SEEK_INVALID)) && negb (bool_decide (mode = IO_SEEK_MAX)));;
  match f_seek (funcs d) with
  | Some f => f h mode offset
  | None => mret IO_NOT_SUPPORTED
  end.

(** The length is meaningful on success only. *)
Definition io_size (h : Z) : M io_state (Z * Z) :=
  d ← entity_dev h;
  match f_size (funcs d) with
  | Some f => f h
  | None => mret (IO_NOT_SUPPORTED, 0)
  end.

Definition io_read (h len : Z) : M io_state (Z * list Z) :=
  d ← entity_dev h;
  match f_read (funcs d) with
  | Some f => f h len
  | None => mret (IO_NOT_SUPPORTED, [])
  end.

Definition io_write (h : Z) (d : list Z) : M io_state (Z * Z) :=
  dv ← entity_dev h;
  match f_write (funcs dv) with
  | Some f => f h d
  | None => mret (IO_NOT_SUPPORTED, 0)
  end.

Definition io_close (h : Z) : M io_state Z :=
  d ← entity_dev h;
  result ← match f_close (funcs d) with
           | Some f => f h
           | None => mret IO_SUCCESS
           end;
  free_entity h;;
  mret result.
End Storage.


(** [memmap_dev_open()] and [fip_dev_open()] through a connector *)
Definition dev_open (dev_con : dev) : M io_state (Z * dev) := mret (IO_SUCCESS, dev_con).
Definition io_dev_open (dev_con : dev) : M io_state (Z * dev) := dev_open dev_con.

(** ** io_memmap.c *)

Definition memmap_dev_close : M io_state Z := mret IO_SUCCESS.

Definition memmap_block_open (spec : io_spec) (h : Z) : M io_state Z :=
  s ← get;
  if in_use (memmap_file s) =? 0 then
    match spec with
    | UuidSpec _ => fail OutOfBounds
    | BlockSpec offset _ =>
        modify (λ s, set_memmap s {| in_use := 1; base := offset; file_pos := 0 |});;
        e ← get_entity h;
        put_entity h {| dev_handle := dev_handle e; info := Some Memmap |};;
        mret IO_SUCCESS
    end
  else mret IO_RESOURCES_EXHAUSTED.

(** The file state the entity points to *)
Definition memmap_fp (h : Z) : M io_state memmap_file_t :=
  e ← get_entity h;
  s ← get;
  match info e with
  | Some Memmap => mret (memmap_file s)
  | _ => fail OutOfBounds
  end.

Definition memmap_block_seek (h : Z) (mode : io_seek_mode_t) (offset : Z) : M io_state Z :=
  if decide (mode = IO_SEEK_SET) then
    fp ← memmap_fp h;
    modify (λ s, set_memmap s {| in_use := in_use fp; base := base fp; file_pos := u64 offset |});;
    mret IO_SUCCESS
  else mret IO_FAIL.

Definition memmap_block_read (h len : Z) : M io_state (Z * list Z) :=
  fp ← memmap_fp h;
  d ← mem_read (u64 (base fp + file_pos fp)) len;
  modify (λ s, set_memmap s {| in_use := in_use fp; base := base fp;
                               file_pos := u64 (file_pos fp + len) |});;
  mret (IO_SUCCESS, d).

Definition memmap_block_write (h : Z) (d : list Z) : M io_state (Z * Z) :=
  fp ← memmap_fp h;
  mem_write (u64 (base fp + file_pos fp)) d;;
  modify (λ s, set_memmap s {| in_use := in_use fp; base := base fp;
                               file_pos := u64 (file_pos fp + zlen d) |});;
  mret (IO_SUCCESS, zlen d).

Definition memmap_block_close (h : Z) : M io_state Z :=
  e ← get_entity h;
  put_entity h {| dev_handle := dev_handle e; info := None |};;
  modify (λ s, set_memmap s {| in_use := 0; base := 0; file_pos := 0 |});;
  mret IO_SUCCESS.

Definition memmap_dev_funcs : io_dev_funcs_t :=
  {| f_open := Some memmap_block_open; f_seek := Some memmap_block_seek; f_size := None;
     f_read := Some memmap_block_read; f_write := Some memmap_block_write;
     f_close := Some memmap_block_close; f_dev_init := None;
     f_dev_close := Some memmap_dev_close |}.

(** ** io_fip.c *)

Definition TOC_HEADER_NAME : Z := 0xAA640001.
Definition sizeof_toc_header : Z := 16.
Definition sizeof_toc_entry : Z := 40.

Definition header_of_bytes (b : list Z) : fip_toc_header_t :=
  {| name := le_value (slice 0 4 b); serial_number := le_value (slice 4 4 b);
     hdr_flags := le_value (slice 8 8 b) |}.
Definition entry_of_bytes (b : list Z) : fip_toc_entry_t :=
  {| uuid := slice 0 16 b; offset_address := le_value (slice 16 8 b);
     size := le_value (slice 24 8 b); entry_flags := le_value (slice 32 8 b) |}.

Definition uuid_null : list Z := replicate 16 0.
Definition uuid_equal (a b : list Z) : bool := bool_decide (a = b).
Definition is_uuid_null (u : list Z) : bool := uuid_equal u uuid_null.
Definition no_entry : fip_toc_entry_t :=
  {| uuid := uuid_null; offset_address := 0; size := 0; entry_flags := 0 |}.

Definition is_valid_header (h : fip_toc_header_t) : bool :=
  (name h =? TOC_HEADER_NAME) && negb (serial_number h =? 0).

Section Fip_driver.

Context (MAX_IO_HANDLES : Z).
(** The drivers the package is read through *)
Context (lower : dev → io_dev_funcs_t).
(** The platform's [plat_get_image_source()]: the result, the device and the
    specification of an image *)
Context (plat_get_image_source : Z → Z * dev * io_spec).

Abbreviation lower_open := (io_open MAX_IO_HANDLES lower).
Abbreviation lower_seek := (io_seek lower).
Abbreviation lower_read := (io_read lower).
Abbreviation lower_close := (io_close lower).

(** [io_open(backend_dev_handle, backend_image_spec, ...)] *)
Definition backend_open : M io_state (Z * Z) :=
  s ← get;
  match backend_dev_handle s, backend_image_spec s with
  | Some d, Some sp => lower_open d sp
  | _, _ => fail AssertFail
  end.

Definition fip_dev_init (image_id : Z) : M io_state Z :=
  let '(result, d, sp) := plat_get_image_source image_id in
  if negb (result =? IO_SUCCESS) then mret IO_FAIL
  else
    modify (λ s, set_backend s (Some d) (Some sp));;
    r ← backend_open;
    if negb (r.1 =? IO_SUCCESS) then mret IO_FAIL
    else
      b ← lower_read r.2 sizeof_toc_header;
      let result :=
        if b.1 =? IO_SUCCESS then
          if negb (is_valid_header (header_of_bytes b.2)) then IO_FAIL else b.1
        else b.1 in
      lower_close r.2;;
      mret result.

Definition fip_dev_close : M io_state Z :=
  modify (λ s, set_backend s None None);;
  mret IO_SUCCESS.

Definition set_entry (e : fip_toc_entry_t) : M io_state unit :=
  modify (λ s, set_fip s {| fip_pos := fip_pos (fip_file s); entry := e |}).

(** The loop over the table of contents: the result and [found_file] *)
Fixpoint toc_loop (fuel : nat) (h : Z) (u : list Z) : M io_state (Z * bool) :=
  match fuel with
  | O => fail FuelOut
  | S fuel' =>
      r ← lower_read h sizeof_toc_entry;
      if r.1 =? IO_SUCCESS then
        set_entry (entry_of_bytes r.2);;
        if uuid_equal (uuid (entry_of_bytes r.2)) u then mret (r.1, true)
        else if negb (is_uuid_null (uuid (entry_of_bytes r.2))) then toc_loop fuel' h u
        else mret (r.1, false)
      else mret (r.1, false)
  end.

(** The part of [fip_file_open()] between the open and the close of the
    backend *)
Definition fip_lookup (h backend_handle : Z) (u : list Z) : M io_state Z :=
  r ← lower_seek backend_handle IO_SEEK_SET sizeof_toc_header;
  if negb (r =? IO_SUCCESS) then mret IO_FAIL
  else
    s ← get;
    r ← toc_loop (length (memory s) + 1) backend_handle u;
    if negb (r.1 =? IO_SUCCESS) then mret r.1
    else if (r.2 : bool) then
      modify (λ s, set_fip s {| fip_pos := 0; entry := entry (fip_file s) |});;
      e ← get_entity h;
      put_entity h {| dev_handle := dev_handle e; info := Some Fip |};;
      mret r.1
    else
      s ← get;
      let e := entry (fip_file s) in
      set_entry {| uuid := uuid e; offset_address := 0; size := size e;
                   entry_flags := entry_flags e |};;
      mret IO_FAIL.

Definition fip_file_open (spec : io_spec) (h : Z) : M io_state Z :=
  match spec with
  | BlockSpec _ _ => fail OutOfBounds
  | UuidSpec u =>
      s ← get;
      if negb (offset_address (entry (fip_file s)) =? 0) then mret IO_RESOURCES_EXHAUSTED
      else
        r ← backend_open;
        if negb (r.1 =? IO_SUCCESS) then mret IO_FAIL
        else
          result ← fip_lookup h r.2 u;
          lower_close r.2;;
          mret result
  end.

(** The file state the entity points to *)
Definition fip_fp (h : Z) : M io_state fip_file_t :=
  e ← get_entity h;
  s ← get;
  match info e with
  | Some Fip => mret (fip_file s)
  | _ => fail OutOfBounds
  end.

Definition fip_file_len (h : Z) : M io_state (Z * Z) :=
  fp ← fip_fp h; mret (IO_SUCCESS, size (entry fp)).

(** [file_pos] is an [unsigned int]. *)
Definition fip_file_read (h len : Z) : M io_state (Z * list Z) :=
  e ← get_entity h;
  assert_ (bool_decide (info e ≠ None));;
  r ← backend_open;
  if negb (r.1 =? IO_SUCCESS) then mret (IO_FAIL, [])
  else
    fp ← fip_fp h;
    k ← lower_seek r.2 IO_SEEK_SET (u64 (offset_address (entry fp) + fip_pos fp));
    res ← (if negb (k =? IO_SUCCESS) then mret (IO_FAIL, [])
           else
             b ← lower_read r.2 len;
             if negb (b.1 =? IO_SUCCESS) then mret (IO_FAIL, [])
             else
               modify (λ s, set_fip s {| fip_pos := u32 (fip_pos (fip_file s) + zlen b.2);
                                         entry := entry (fip_file s) |});;
               mret (b.1, b.2));
    lower_close r.2;;
    mret res.

Definition fip_file_close (h : Z) : M io_state Z :=
  s ← get;
  (if negb (offset_address (entry (fip_file s)) =? 0)
   then modify (λ s, set_fip s {| fip_pos := 0; entry := no_entry |}) else mret tt);;
  e ← get_entity h;
  put_entity h {| dev_handle := dev_handle e; info := None |};;
  mret IO_SUCCESS.

Definition fip_dev_funcs : io_dev_funcs_t :=
  {| f_open := Some fip_file_open; f_seek := None; f_size := Some fip_file_len;
     f_read := Some fip_file_read; f_write := None;
     f_close := Some fip_file_close; f_dev_init := Some fip_dev_init;
     f_dev_close := Some fip_dev_close |}.
End Fip_driver.

(** ** The drivers together

    A package is read through the memory-mapped device; a package inside a
    package has no driver. *)

Definition no_funcs : io_dev_funcs_t :=
  {| f_open := None; f_seek := None; f_size := None; f_read := None; f_write := None;
     f_close := None; f_dev_init := None; f_dev_close := None |}.

Definition backend_funcs (d : dev) : io_dev_funcs_t :=
  match d with Memmap => memmap_dev_funcs | Fip => no_funcs end.

Section Loader.

Context (MAX_IO_HANDLES PLAT_ARM_FWU_FIP_BASE : Z).
Context (plat_get_image_source : Z → Z * dev * io_spec).

Definition all_funcs (d : dev) : io_dev_funcs_t :=
  match d with
  | Memmap => memmap_dev_funcs
  | Fip => fip_dev_funcs MAX_IO_HANDLES backend_funcs plat_get_image_source
  end.

Abbreviation open := (io_open MAX_IO_HANDLES all_funcs).

(** ** plat/common/image_loader.c *)

Definition load_image (image_id image_base : Z) : M io_state Z :=
  let '(io_result, d, sp) := plat_get_image_source image_id in
  if negb (io_result =? IO_SUCCESS) then mret io_result
  else
    r ← open d sp;
    if negb (r.1 =? IO_SUCCESS) then mret r.1
    else
      sz ← io_size all_funcs r.2;
      io_result ←
        (if negb (sz.1 =? IO_SUCCESS) || (sz.2 =? 0) then mret sz.1
         else
           b ← io_read all_funcs r.2 sz.2;
           (if b.1 =? IO_SUCCESS then mem_write image_base b.2 else mret tt);;
           mret b.1);
      io_close all_funcs r.2;;
      io_dev_close all_funcs d;;
      mret io_result.

(** The offset is meaningful for a file of a package. *)
Definition get_image_offset (image_id : Z) : M io_state Z :=
  let '(io_result, d, sp) := plat_get_image_source image_id in
  if negb (io_result =? IO_SUCCESS) then mret 0
  else
    r ← open d sp;
    if negb (r.1 =? IO_SUCCESS) then mret 0
    else
      fp ← fip_fp r.2;
      let img_offset := u64 (PLAT_ARM_FWU_FIP_BASE + offset_address (entry fp)) in
      io_close all_funcs r.2;;
      io_dev_close all_funcs d;;
      mret img_offset.

Definition get_image_size (image_id : Z) : M io_state Z :=
  let '(io_result, d, sp) := plat_get_image_source image_id in
  if negb (io_result =? IO_SUCCESS) then mret 0
  else
    r ← open d sp;
    if negb (r.1 =? IO_SUCCESS) then mret 0
    else
      sz ← io_size all_funcs r.2;
      io_close all_funcs r.2;;
      io_dev_close all_funcs d;;
      mret sz.2.
End Loader.


(** ** The pool of entities *)

Definition used (m : list bool) : Z := zsum (λ b : bool, if b then 1 else 0) m.

Record pool_ok (MAX_IO_HANDLES : Z) (s : io_state) : Prop := {
  pk_map : zlen (entity_map s) = MAX_IO_HANDLES;
  pk_pool : zlen (entity_pool s) = MAX_IO_HANDLES;
  pk_count : entity_count s = used (entity_map s);
  pk_max : 0 <= MAX_IO_HANDLES < 2 ^ 32;
}.

Lemma used_cons (b : bool) (m : list bool) : used (b :: m) = (if b then 1 else 0) + used m.
Proof. done. Qed.

Lemma used_bounds (m : list bool) : 0 <= used m <= zlen m.
Proof.
  induction m as [|b m IH]; [done|]. rewrite zlen_cons, used_cons. destruct b; lia.
Qed.

Lemma find_free_spec (m : list bool) (k : Z) :
  match find_free m k with
  | Some i => 0 <= i - k ∧ zget m (i - k) = Some false
              ∧ (∀ j, 0 <= j < i - k → zget m j = Some true)
  | None => used m = zlen m
  end.
Proof.
  revert k. induction m as [|b m IH]; intros k; [done|]. cbn [find_free]. destruct b.
  - specialize (IH (k + 1)). destruct (find_free m (k + 1)) as [i|].
    + destruct IH as (H1 & H2 & H3).
      assert (∀ j, j ≠ 0 → zget (true :: m) j = zget m (j - 1)) as Hc.
      { intros j Hj. unfold zget. repeat case_Z; try lia; try done.
        by replace (Z.to_nat j) with (S (Z.to_nat (j - 1))) by lia. }
      split_and!; [lia| |].
      * rewrite Hc by lia. rewrite <- H2. f_equal. lia.
      * intros j Hj. destruct (decide (j = 0)) as [->|]; [done|]. rewrite Hc by done.
        apply H3. lia.
    + rewrite zlen_cons, used_cons. lia.
  - rewrite Z.sub_diag. split_and!; [lia|done|lia].
Qed.

Lemma used_set (m : list bool) (i : Z) (b c : bool) :
  zget m i = Some b →
  used (zset m i c) = used m - (if b then 1 else 0) + (if c then 1 else 0).
Proof. intros Hg. unfold used. by rewrite (zsum_zset _ _ _ _ b). Qed.

Section Pool.

Context (MAX_IO_HANDLES : Z).

Lemma allocate_run (s : io_state) :
  pool_ok MAX_IO_HANDLES s →
  if entity_count s <? MAX_IO_HANDLES then
    ∃ i, allocate_entity MAX_IO_HANDLES s =
         Ok ((IO_SUCCESS, i), set_alloc s (zset (entity_map s) i true) (entity_count s + 1))
         ∧ 0 <= i < MAX_IO_HANDLES ∧ zget (entity_map s) i = Some false
  else allocate_entity MAX_IO_HANDLES s = Ok ((IO_RESOURCES_EXHAUSTED, 0), s).
Proof.
  intros [Hm Hp Hc Hw]. unfold allocate_entity. case_Z.
  - pose proof (find_free_spec (entity_map s) 0) as Hf. erewrite bind_Ok by reflexivity.
    rewrite (proj2 (Z.ltb_lt _ _)) by done.
    destruct (find_free (entity_map s) 0) as [i|]; [|lia].
    rewrite Z.sub_0_r in Hf. destruct Hf as (H1 & H2 & H3). exists i.
    apply zget_Some_range in H2 as Hr. split_and!; [|lia|lia|done].
    pose proof (used_bounds (entity_map s)).
    erewrite bind_Ok by reflexivity. rewrite u32_small by (unfold UINT32_MAX; lia). done.
  - erewrite bind_Ok by reflexivity. by rewrite (proj2 (Z.ltb_ge _ _)) by lia.
Qed.

Lemma allocate_pool (s : io_state) (i : Z) :
  pool_ok MAX_IO_HANDLES s → zget (entity_map s) i = Some false →
  pool_ok MAX_IO_HANDLES (set_alloc s (zset (entity_map s) i true) (entity_count s + 1)).
Proof.
  intros [Hm Hp Hc Hw] Hi. split; cbn; [by rewrite zlen_zset|done| |done].
  rewrite (used_set _ _ _ _ Hi), Hc. lia.
Qed.

Lemma free_run (s : io_state) (h : Z) :
  pool_ok MAX_IO_HANDLES s → zget (entity_map s) h = Some true →
  free_entity h s =
    Ok (IO_SUCCESS, set_alloc s (zset (entity_map s) h false) (entity_count s - 1))
  ∧ pool_ok MAX_IO_HANDLES (set_alloc s (zset (entity_map s) h false) (entity_count s - 1)).
Proof.
  intros [Hm Hp Hc Hw] Hh. pose proof (used_bounds (zset (entity_map s) h false)) as Hu.
  pose proof (used_set _ _ _ false Hh) as Hs. cbv iota in Hs. pose proof (used_bounds (entity_map s)). split.
  - unfold free_entity. erewrite bind_Ok by reflexivity. rewrite Hh.
    erewrite bind_Ok by reflexivity. by rewrite u32_small by (unfold UINT32_MAX; lia).
  - split; cbn; [by rewrite zlen_zset|done|lia|done].
Qed.



(** ** The memory-mapped device *)

Section Memmap_runs.

(** The functions of the device under some table of drivers *)
Context (funcs : dev → io_dev_funcs_t) (Hfuncs : funcs Memmap = memmap_dev_funcs).

(** [s] with the entity [i] open on the device, the file in state [f] *)
Definition mm_state (s : io_state) (i : Z) (f : memmap_file_t) : io_state :=
  set_pool (set_memmap (set_alloc s (zset (entity_map s) i true) (entity_count s + 1)) f)
    (zset (entity_pool s) i {| dev_handle := Some Memmap; info := Some Memmap |}).
(** [s] once that entity is closed *)
Definition mm_closed (s : io_state) (i : Z) : io_state :=
  set_pool (set_memmap s {| in_use := 0; base := 0; file_pos := 0 |})
    (zset (entity_pool s) i {| dev_handle := Some Memmap; info := None |}).

Lemma get_entity_run (s : io_state) (h : Z) (e : io_entity_t) :
  zget (entity_pool s) h = Some e → get_entity h s = Ok (e, s).
Proof. intros He. unfold get_entity. erewrite bind_Ok by reflexivity. by apply aget_Ok. Qed.

Lemma put_entity_run (s : io_state) (h : Z) (e : io_entity_t) :
  0 <= h < zlen (entity_pool s) →
  put_entity h e s = Ok (tt, set_pool s (zset (entity_pool s) h e)).
Proof.
  intros Hh. unfold put_entity. erewrite bind_Ok by reflexivity.
  by rewrite (bind_Ok _ _ _ _ _ (aset_Ok _ _ _ _ Hh)).
Qed.

(** An entity that can be allocated *)
Definition free_at (s : io_state) (i : Z) : Prop :=
  0 <= i < MAX_IO_HANDLES ∧ zget (entity_map s) i = Some false.

Lemma mm_open_run (s : io_state) (b l : Z) :
  pool_ok MAX_IO_HANDLES s → entity_count s < MAX_IO_HANDLES → in_use (memmap_file s) = 0 →
  ∃ i, io_open MAX_IO_HANDLES funcs Memmap (BlockSpec b l) s =
       Ok ((IO_SUCCESS, i), mm_state s i {| in_use := 1; base := b; file_pos := 0 |})
       ∧ free_at s i.
Proof.
  intros Hp Hc Hu. pose proof (allocate_run s Hp) as Ha. rewrite (proj2 (Z.ltb_lt _ _)) in Ha by done.
  destruct Ha as (i & Ea & Hi & Hf). exists i. split; [|done].
  unfold io_open. rewrite (bind_Ok _ _ _ _ _ Ea). cbn [fst snd]. rewrite Hfuncs. cbn.
  pose proof (pk_pool _ _ Hp) as Hpl.
  destruct (zget_is_Some (entity_pool s) i ltac:(lia)) as [e He].
  set (s1 := set_alloc s (zset (entity_map s) i true) (entity_count s + 1)).
  set (s2 := set_memmap s1 {| in_use := 1; base := b; file_pos := 0 |}).
  erewrite (bind_Ok _ _ _ (set_pool s2 (zset (entity_pool s) i
    {| dev_handle := dev_handle e; info := Some Memmap |})) IO_SUCCESS); cycle 1.
  { unfold memmap_block_open. erewrite bind_Ok by reflexivity. cbn. rewrite Hu. cbn.
    erewrite (bind_Ok _ _ _ s2 tt) by reflexivity.
    erewrite bind_Ok by (by apply get_entity_run).
    by erewrite bind_Ok by (apply put_entity_run; cbn; lia). }
  cbn. erewrite bind_Ok by (apply get_entity_run; cbn; apply zget_zset_eq; lia). cbn.
  erewrite bind_Ok by (apply put_entity_run; cbn; rewrite zlen_zset; lia).
  unfold mm_state. cbn. by rewrite zset_zset.
Qed.

(** The entity of an open file *)
Lemma mm_entity (s : io_state) (i : Z) (f : memmap_file_t) :
  pool_ok MAX_IO_HANDLES s → free_at s i →
  zget (entity_pool (mm_state s i f)) i =
  Some {| dev_handle := Some Memmap; info := Some Memmap |}.
Proof. intros Hp [Hi _]. pose proof (pk_pool _ _ Hp). cbn. apply zget_zset_eq. lia. Qed.

Lemma mm_dev_run (s : io_state) (i : Z) (f : memmap_file_t) :
  pool_ok MAX_IO_HANDLES s → free_at s i →
  entity_dev i (mm_state s i f) = Ok (Memmap, mm_state s i f).
Proof.
  intros Hp Hi. unfold entity_dev.
  by erewrite bind_Ok by (apply get_entity_run; by apply mm_entity).
Qed.

Lemma mm_fp_run (s : io_state) (i : Z) (f : memmap_file_t) :
  pool_ok MAX_IO_HANDLES s → free_at s i →
  memmap_fp i (mm_state s i f) = Ok (f, mm_state s i f).
Proof.
  intros Hp Hi. unfold memmap_fp.
  by erewrite bind_Ok by (apply get_entity_run; by apply mm_entity).
Qed.

Lemma mm_seek_run (s : io_state) (i : Z) (f : memmap_file_t) (off : Z) :
  pool_ok MAX_IO_HANDLES s → free_at s i →
  io_seek funcs i IO_SEEK_SET off (mm_state s i f) =
  Ok (IO_SUCCESS, mm_state s i {| in_use := in_use f; base := base f; file_pos := u64 off |}).
Proof.
  intros Hp Hi. unfold io_seek. rewrite (bind_Ok _ _ _ _ _ (mm_dev_run s i f Hp Hi)).
  erewrite bind_Ok by reflexivity. rewrite Hfuncs. cbn. unfold memmap_block_seek.
  rewrite decide_True by done. by rewrite (bind_Ok _ _ _ _ _ (mm_fp_run s i f Hp Hi)).
Qed.

Lemma mm_read_run (s : io_state) (i : Z) (f : memmap_file_t) (len : Z) :
  pool_ok MAX_IO_HANDLES s → free_at s i → 0 <= len → 0 <= base f → 0 <= file_pos f →
  base f + file_pos f + len <= zlen (memory s) → zlen (memory s) < 2 ^ 64 →
  io_read funcs i len (mm_state s i f) =
  Ok ((IO_SUCCESS, slice (base f + file_pos f) len (memory s)),
      mm_state s i {| in_use := in_use f; base := base f; file_pos := file_pos f + len |}).
Proof.
  intros Hp Hi Hl Hb Hf Hle Hw. unfold io_read.
  rewrite (bind_Ok _ _ _ _ _ (mm_dev_run s i f Hp Hi)), Hfuncs. cbn. unfold memmap_block_read.
  rewrite (bind_Ok _ _ _ _ _ (mm_fp_run s i f Hp Hi)).
  rewrite !u64_small by (unfold UINT64_MAX; lia).
  erewrite bind_Ok; cycle 1.
  { unfold mem_read. cbn. rewrite !(proj2 (Z.leb_le _ _)) by lia. reflexivity. }
  done.
Qed.

Lemma mm_write_run (s : io_state) (i : Z) (f : memmap_file_t) (d : list Z) :
  pool_ok MAX_IO_HANDLES s → free_at s i → 0 <= base f → 0 <= file_pos f →
  base f + file_pos f + zlen d <= zlen (memory s) → zlen (memory s) < 2 ^ 64 →
  io_write funcs i d (mm_state s i f) =
  Ok ((IO_SUCCESS, zlen d),
      mm_state (set_memory s (splice (base f + file_pos f) d (memory s))) i
        {| in_use := in_use f; base := base f; file_pos := file_pos f + zlen d |}).
Proof.
  intros Hp Hi Hb Hf Hle Hw. pose proof (zlen_nonneg d). unfold io_write.
  rewrite (bind_Ok _ _ _ _ _ (mm_dev_run s i f Hp Hi)), Hfuncs. cbn. unfold memmap_block_write.
  rewrite (bind_Ok _ _ _ _ _ (mm_fp_run s i f Hp Hi)).
  rewrite !u64_small by (unfold UINT64_MAX; lia).
  erewrite bind_Ok; cycle 1.
  { unfold mem_write. cbn. rewrite !(proj2 (Z.leb_le _ _)) by lia. reflexivity. }
  done.
Qed.

Lemma mm_close_run (s : io_state) (i : Z) (f : memmap_file_t) :
  pool_ok MAX_IO_HANDLES s → free_at s i → entity_count s < MAX_IO_HANDLES →
  io_close funcs i (mm_state s i f) = Ok (IO_SUCCESS, mm_closed s i).
Proof.
  intros Hp Hi Hc. pose proof Hi as [Hr Hf]. pose proof (pk_pool _ _ Hp). pose proof (pk_map _ _ Hp).
  pose proof (pk_count _ _ Hp). pose proof (used_bounds (entity_map s)). pose proof (pk_max _ _ Hp).
  unfold io_close. rewrite (bind_Ok _ _ _ _ _ (mm_dev_run s i f Hp Hi)), Hfuncs. cbn.
  erewrite bind_Ok; cycle 1.
  { unfold memmap_block_close. erewrite bind_Ok by (apply get_entity_run; by apply mm_entity).
    erewrite bind_Ok by (apply put_entity_run; cbn; rewrite zlen_zset; lia).
    erewrite bind_Ok by reflexivity. reflexivity. }
  unfold free_entity. erewrite bind_Ok; cycle 1.
  { erewrite bind_Ok by reflexivity. cbn. rewrite zget_zset_eq by lia.
    erewrite bind_Ok by reflexivity. reflexivity. }
  cbn. unfold mm_closed, set_alloc, set_pool, set_memmap, mret, M_ret. cbn.
  rewrite !zset_zset, (zset_id (entity_map s) i false Hf).
  rewrite u32_small by (unfold UINT32_MAX; lia). do 3 f_equal. lia.
Qed.
End Memmap_runs.


(** ** Firmware packages *)

(** Entry [k] of the table of contents of the package at [b] *)
Definition toc_at (m : list Z) (b k : Z) : fip_toc_entry_t :=
  entry_of_bytes (slice (b + (sizeof_toc_header + sizeof_toc_entry * k)) sizeof_toc_entry m).

(** The search for [u] ends at entry [k]: it is the first with this UUID, or
    the terminating entry. *)
Definition toc_ends (m : list Z) (b : Z) (u : list Z) (k : Z) : Prop :=
  (∀ j, 0 <= j < k → uuid (toc_at m b j) ≠ u ∧ uuid (toc_at m b j) ≠ uuid_null)
  ∧ (uuid (toc_at m b k) = u ∨ uuid (toc_at m b k) = uuid_null).

Definition fip_at (e : fip_toc_entry_t) (s : io_state) : io_state :=
  set_fip s {| fip_pos := fip_pos (fip_file s); entry := e |}.

Section Fip_runs.

Context (plat_get_image_source : Z → Z * dev * io_spec).

Abbreviation bfuncs := backend_funcs.
Abbreviation funcs := (all_funcs MAX_IO_HANDLES plat_get_image_source).

Lemma toc_loop_run (n fuel : nat) (s : io_state) (i b j k : Z) (u : list Z) :
  pool_ok MAX_IO_HANDLES s → free_at s i → 0 <= b → 0 <= j → k = j + Z.of_nat n →
  (n < fuel)%nat → b + (sizeof_toc_header + sizeof_toc_entry * (k + 1)) <= zlen (memory s) →
  zlen (memory s) < 2 ^ 64 → toc_ends (memory s) b u k →
  toc_loop bfuncs fuel i u
    (mm_state s i {| in_use := 1; base := b;
                     file_pos := sizeof_toc_header + sizeof_toc_entry * j |}) =
  Ok ((IO_SUCCESS, bool_decide (uuid (toc_at (memory s) b k) = u)),
      mm_state (fip_at (toc_at (memory s) b k) s) i
        {| in_use := 1; base := b;
           file_pos := sizeof_toc_header + sizeof_toc_entry * (k + 1) |}).
Proof.
  intros Hp Hi Hb. revert fuel s j Hp Hi.
  induction n as [|n IH]; intros fuel s j Hp Hi Hj Hk Hfuel Hle Hw [Hbefore Hend];
    (destruct fuel as [|fuel]; [lia|]); cbn [toc_loop];
    unfold sizeof_toc_header, sizeof_toc_entry in *.
  - replace k with j in * by lia.
    rewrite (bind_Ok _ _ _ _ _ (mm_read_run bfuncs eq_refl s i
      {| in_use := 1; base := b; file_pos := 16 + 40 * j |} 40 Hp Hi ltac:(lia)
      Hb ltac:(cbn; lia) ltac:(cbn; lia) Hw)). cbn [fst snd base file_pos in_use].
    change (entry_of_bytes (slice (b + (16 + 40 * j)) 40 (memory s))) with (toc_at (memory s) b j).
    change (IO_SUCCESS =? IO_SUCCESS) with true. cbv iota.
    erewrite bind_Ok by reflexivity. unfold uuid_equal, is_uuid_null.
    replace (16 + 40 * j + 40) with (16 + 40 * (j + 1)) by lia.
    case_bool_decide as Hu; [done|]. destruct Hend as [Hend|Hend]; [done|].
    unfold uuid_equal. by rewrite bool_decide_true.
  - destruct (Hbefore j) as [Hu Hnull]; [lia|].
    rewrite (bind_Ok _ _ _ _ _ (mm_read_run bfuncs eq_refl s i
      {| in_use := 1; base := b; file_pos := 16 + 40 * j |} 40 Hp Hi ltac:(lia)
      Hb ltac:(cbn; lia) ltac:(cbn; lia) Hw)). cbn [fst snd base file_pos in_use].
    change (entry_of_bytes (slice (b + (16 + 40 * j)) 40 (memory s))) with (toc_at (memory s) b j).
    change (IO_SUCCESS =? IO_SUCCESS) with true. cbv iota.
    erewrite bind_Ok by reflexivity. unfold uuid_equal, is_uuid_null, uuid_equal.
    rewrite !bool_decide_false by done. cbn [negb].
    replace (16 + 40 * j + 40) with (16 + 40 * (j + 1)) by lia.
    apply (IH fuel (fip_at (toc_at (memory s) b j) s) (j + 1)); [|done|lia|lia|lia|done|done|done].
    by destruct Hp.
Qed.

(** The lookup of a file, the backend being open as entity [i] *)
Lemma fip_lookup_run (s : io_state) (h i b k : Z) (u : list Z) (eh : io_entity_t) :
  pool_ok MAX_IO_HANDLES s → free_at s i → h ≠ i → zget (entity_pool s) h = Some eh → 0 <= b →
  0 <= k → b + (sizeof_toc_header + sizeof_toc_entry * (k + 1)) <= zlen (memory s) →
  zlen (memory s) < 2 ^ 64 → toc_ends (memory s) b u k →
  let e := toc_at (memory s) b k in
  ∃ f, fip_lookup bfuncs h i u
         (mm_state s i {| in_use := 1; base := b; file_pos := 0 |}) =
       if bool_decide (uuid e = u) then
         Ok (IO_SUCCESS,
             mm_state (set_pool (set_fip s {| fip_pos := 0; entry := e |})
                         (zset (entity_pool s) h {| dev_handle := dev_handle eh; info := Some Fip |}))
               i f)
       else
         Ok (IO_FAIL,
             mm_state (fip_at {| uuid := uuid e; offset_address := 0; size := size e;
                                 entry_flags := entry_flags e |} s) i f).
Proof.
  intros Hp Hi Hne Heh Hb Hk Hle Hw Hends e.
  exists {| in_use := 1; base := b; file_pos := sizeof_toc_header + sizeof_toc_entry * (k + 1) |}.
  assert (0 <= h < zlen (entity_pool s)) as Hh by (by apply zget_Some_range in Heh).
  unfold fip_lookup. rewrite (bind_Ok _ _ _ _ _ (mm_seek_run bfuncs eq_refl s i _ _ Hp Hi)).
  cbn [in_use base]. change (negb (IO_SUCCESS =? IO_SUCCESS)) with false. cbv iota.
  erewrite bind_Ok by reflexivity. rewrite u64_small by done.
  pose proof (toc_loop_run (Z.to_nat k) (length (memory s) + 1) s i b 0 k u Hp Hi Hb) as Hloop.
  rewrite Z.mul_0_r, Z.add_0_r in Hloop.
  erewrite bind_Ok; cycle 1.
  { apply Hloop; try done; [lia|]. unfold zlen, sizeof_toc_header, sizeof_toc_entry in *. lia. }
  cbn [fst snd]. change (negb (IO_SUCCESS =? IO_SUCCESS)) with false. cbv iota. fold e.
  destruct (decide (uuid e = u)) as [Hu|Hu];
    [rewrite !bool_decide_true by done|rewrite !bool_decide_false by done].
  - erewrite bind_Ok by reflexivity.
    erewrite bind_Ok; cycle 1.
    { apply get_entity_run. cbn. rewrite zget_zset_ne by done. exact Heh. }
    erewrite bind_Ok by (apply put_entity_run; cbn; by rewrite zlen_zset).
    unfold mm_state, mret, M_ret, fip_at, set_pool, set_fip, set_memmap, set_alloc. cbn.
    do 3 f_equal. by rewrite (zset_comm _ i h) by done.
  - done.
Qed.

(** The package the driver reads lies at [b]. *)
Record backend_ok (s : io_state) (b : Z) : Prop := {
  bk_pool : pool_ok MAX_IO_HANDLES s;
  bk_free : in_use (memmap_file s) = 0;
  bk_dev : backend_dev_handle s = Some Memmap;
  bk_spec : ∃ l, backend_image_spec s = Some (BlockSpec b l);
  bk_base : 0 <= b;
  bk_width : zlen (memory s) < 2 ^ 64;
}.

(** What the operations on a file leave as it was *)
Definition same_frame (s s' : io_state) : Prop :=
  memory s' = memory s ∧ devices s' = devices s ∧ entity_map s' = entity_map s
  ∧ entity_count s' = entity_count s.

(** The entity [h] is open on a file of the package. *)
Record fip_open_at (s : io_state) (b h : Z) (f : fip_file_t) : Prop := {
  fo_backend : backend_ok s b;
  fo_map : zget (entity_map s) h = Some true;
  fo_entity : zget (entity_pool s) h = Some {| dev_handle := Some Fip; info := Some Fip |};
  fo_file : fip_file s = f;
}.

Lemma backend_open_run (s : io_state) (b : Z) :
  backend_ok s b → entity_count s < MAX_IO_HANDLES →
  ∃ i, backend_open MAX_IO_HANDLES bfuncs s =
       Ok ((IO_SUCCESS, i), mm_state s i {| in_use := 1; base := b; file_pos := 0 |})
       ∧ free_at s i.
Proof.
  intros [Hp Hf Hd [l Hs] Hb Hw] Hc.
  destruct (mm_open_run bfuncs eq_refl s b l Hp Hc Hf) as (i & E & Hi). exists i. split; [|done].
  unfold backend_open. erewrite bind_Ok by reflexivity. by rewrite Hd, Hs.
Qed.

Lemma pool_ok_ext (s s' : io_state) :
  pool_ok MAX_IO_HANDLES s → entity_map s' = entity_map s → entity_count s' = entity_count s →
  zlen (entity_pool s') = zlen (entity_pool s) → pool_ok MAX_IO_HANDLES s'.
Proof. intros [] E1 E2 E3. split; congruence. Qed.

(** The driver's open, with the entity [h] allocated *)
Lemma fip_file_open_run (s : io_state) (b h k : Z) (u : list Z) (eh : io_entity_t) :
  backend_ok s b → entity_count s < MAX_IO_HANDLES →
  zget (entity_map s) h = Some true → zget (entity_pool s) h = Some eh →
  offset_address (entry (fip_file s)) = 0 → 0 <= k →
  b + (sizeof_toc_header + sizeof_toc_entry * (k + 1)) <= zlen (memory s) →
  toc_ends (memory s) b u k →
  let e := toc_at (memory s) b k in
  ∃ i, free_at s i ∧ h ≠ i ∧
  fip_file_open MAX_IO_HANDLES bfuncs (UuidSpec u) h s =
  if bool_decide (uuid e = u) then
    Ok (IO_SUCCESS, mm_closed (set_pool (set_fip s {| fip_pos := 0; entry := e |})
          (zset (entity_pool s) h {| dev_handle := dev_handle eh; info := Some Fip |})) i)
  else
    Ok (IO_FAIL, mm_closed (fip_at {| uuid := uuid e; offset_address := 0; size := size e;
                                      entry_flags := entry_flags e |} s) i).
Proof.
  intros Hb Hc Hm Heh Ho Hk Hle Hends e. pose proof Hb as [Hp _ _ _ Hbb Hw].
  destruct (backend_open_run s b Hb Hc) as (i & Eo & Hi). exists i.
  assert (h ≠ i) as Hne by (intros <-; destruct Hi; congruence). split_and!; [done|done|].
  destruct (fip_lookup_run s h i b k u eh Hp Hi Hne Heh Hbb Hk Hle Hw Hends) as [f El]. fold e in El.
  unfold fip_file_open. erewrite bind_Ok by reflexivity. rewrite Ho.
  change (negb (0 =? 0)) with false. cbv iota. rewrite (bind_Ok _ _ _ _ _ Eo). cbn [fst snd].
  change (negb (IO_SUCCESS =? IO_SUCCESS)) with false. cbv iota.
  destruct (decide (uuid e = u)) as [Hu|Hu];
    [rewrite bool_decide_true in El |- * by done|rewrite bool_decide_false in El |- * by done];
    rewrite (bind_Ok _ _ _ _ _ El); erewrite bind_Ok; [reflexivity| |reflexivity|];
    (apply mm_close_run; [done| |done|done]).
  - by apply (pool_ok_ext s); [..|cbn; rewrite zlen_zset].
  - by apply (pool_ok_ext s).
Qed.

(** Opening a file that is in the package, and one that is not *)
Lemma fip_open_run (s : io_state) (b k : Z) (u : list Z) :
  backend_ok s b → entity_count s + 1 < MAX_IO_HANDLES →
  offset_address (entry (fip_file s)) = 0 → 0 <= k →
  b + (sizeof_toc_header + sizeof_toc_entry * (k + 1)) <= zlen (memory s) →
  toc_ends (memory s) b u k →
  let e := toc_at (memory s) b k in
  if bool_decide (uuid e = u) then
    ∃ h s', io_open MAX_IO_HANDLES funcs Fip (UuidSpec u) s = Ok ((IO_SUCCESS, h), s')
      ∧ free_at s h ∧ fip_open_at s' b h {| fip_pos := 0; entry := e |}
      ∧ memory s' = memory s ∧ devices s' = devices s
      ∧ entity_map s' = zset (entity_map s) h true ∧ entity_count s' = entity_count s + 1
  else
    ∃ s', io_open MAX_IO_HANDLES funcs Fip (UuidSpec u) s = Ok ((IO_FAIL, 0), s')
      ∧ same_frame s s' ∧ backend_ok s' b ∧ offset_address (entry (fip_file s')) = 0.
Proof.
  intros Hb Hc Ho Hk Hle Hends e. pose proof Hb as [Hp Hf Hd [l Hs] Hbb Hw].
  pose proof (allocate_run s Hp) as Ha. rewrite (proj2 (Z.ltb_lt _ _)) in Ha by lia.
  destruct Ha as (h & Ea & Hh & Hfree).
  set (s1 := set_alloc s (zset (entity_map s) h true) (entity_count s + 1)) in *.
  pose proof (allocate_pool s h Hp Hfree) as Hp1. fold s1 in Hp1.
  assert (backend_ok s1 b) as Hb1 by (split; try done; by exists l).
  pose proof (pk_pool _ _ Hp) as Hpl. pose proof (pk_map _ _ Hp) as Hml.
  assert (zget (entity_map s1) h = Some true) as Hm1 by (apply zget_zset_eq; lia).
  destruct (zget_is_Some (entity_pool s) h ltac:(lia)) as [eh Heh].
  destruct (fip_file_open_run s1 b h k u eh Hb1 ltac:(cbn; lia) Hm1 Heh Ho Hk Hle Hends)
    as (i & Hi & Hne & Eopen). change (memory s1) with (memory s) in Eopen. fold e in Eopen.
  unfold io_open. rewrite (bind_Ok _ _ _ _ _ Ea). cbn [fst snd].
  change (IO_SUCCESS =? IO_SUCCESS) with true. cbv iota. cbn [f_open all_funcs fip_dev_funcs].
  destruct (decide (uuid e = u)) as [Hu|Hu];
    [rewrite bool_decide_true in Eopen |- * by done|rewrite bool_decide_false in Eopen |- * by done];
    rewrite (bind_Ok _ _ _ _ _ Eopen).
  - change (IO_SUCCESS =? IO_SUCCESS) with true. cbv iota.
    erewrite bind_Ok; cycle 1.
    { apply get_entity_run. cbn. rewrite zget_zset_ne, zget_zset_eq by (done || lia). reflexivity. }
    erewrite bind_Ok by (apply put_entity_run; cbn; rewrite !zlen_zset; lia).
    eexists h, _. split; [reflexivity|]. split_and!; try done.
    split; [|done| |done].
    + split; try done; [|by exists l].
      apply (pool_ok_ext s1); try done. cbn. by rewrite !zlen_zset.
    + cbn. rewrite zget_zset_eq; [done|]. rewrite !zlen_zset. lia.
  - change (IO_FAIL =? IO_SUCCESS) with false. cbv iota.
    destruct (free_run (mm_closed (fip_at {| uuid := uuid e; offset_address := 0;
      size := size e; entry_flags := entry_flags e |} s1) i) h) as [Ef Hpf];
      [by apply (pool_ok_ext s1); [..|cbn; rewrite zlen_zset]|done|].
    rewrite (bind_Ok _ _ _ _ _ Ef). eexists. split; [reflexivity|].
    split_and!; [|split; try done; by exists l|done].
    unfold same_frame. cbn. rewrite zset_zset, (zset_id _ _ _ Hfree). split_and!; [done..|lia].
Qed.

Lemma fip_dev_run (s : io_state) (b h : Z) (f : fip_file_t) :
  fip_open_at s b h f → entity_dev h s = Ok (Fip, s).
Proof.
  intros [_ _ He _]. unfold entity_dev.
  by rewrite (bind_Ok _ _ _ _ _ (get_entity_run _ _ _ He)).
Qed.

Lemma fip_fp_run (s : io_state) (b h : Z) (f : fip_file_t) :
  fip_open_at s b h f → fip_fp h s = Ok (f, s).
Proof.
  intros [_ _ He <-]. unfold fip_fp. by rewrite (bind_Ok _ _ _ _ _ (get_entity_run _ _ _ He)).
Qed.

Lemma fip_size_run (s : io_state) (b h : Z) (f : fip_file_t) :
  fip_open_at s b h f → io_size funcs h s = Ok ((IO_SUCCESS, size (entry f)), s).
Proof.
  intros Hf. unfold io_size. rewrite (bind_Ok _ _ _ _ _ (fip_dev_run _ _ _ _ Hf)).
  cbn [f_size all_funcs fip_dev_funcs]. unfold fip_file_len.
  by rewrite (bind_Ok _ _ _ _ _ (fip_fp_run _ _ _ _ Hf)).
Qed.

Lemma fip_read_run (s : io_state) (b h len : Z) (f : fip_file_t) :
  fip_open_at s b h f → entity_count s < MAX_IO_HANDLES →
  0 <= offset_address (entry f) → 0 <= fip_pos f → 0 <= len → fip_pos f + len < 2 ^ 32 →
  b + offset_address (entry f) + fip_pos f + len <= zlen (memory s) →
  ∃ s', io_read funcs h len s =
        Ok ((IO_SUCCESS, slice (b + offset_address (entry f) + fip_pos f) len (memory s)), s')
    ∧ fip_open_at s' b h {| fip_pos := fip_pos f + len; entry := entry f |} ∧ same_frame s s'.
Proof.
  intros Hf Hc Ho Hpos Hl Hpw Hle. pose proof Hf as [Hb Hm He Hff].
  pose proof Hb as [Hp Hfree Hd [l Hs] Hbb Hw].
  destruct (backend_open_run s b Hb Hc) as (i & Eo & Hi).
  assert (h ≠ i) as Hne by (intros <-; destruct Hi; congruence).
  unfold io_read. rewrite (bind_Ok _ _ _ _ _ (fip_dev_run _ _ _ _ Hf)).
  cbn [f_read all_funcs fip_dev_funcs]. unfold fip_file_read.
  rewrite (bind_Ok _ _ _ _ _ (get_entity_run _ _ _ He)). erewrite bind_Ok by reflexivity.
  rewrite (bind_Ok _ _ _ _ _ Eo). cbn [fst snd].
  change (negb (IO_SUCCESS =? IO_SUCCESS)) with false. cbv iota.
  erewrite bind_Ok; cycle 1.
  { unfold fip_fp. erewrite bind_Ok; cycle 1.
    - apply get_entity_run. cbn. rewrite zget_zset_ne by done. exact He.
    - erewrite bind_Ok by reflexivity. reflexivity. }
  cbn [fip_file mm_state set_pool set_memmap set_alloc]. rewrite Hff.
  rewrite (bind_Ok _ _ _ _ _ (mm_seek_run bfuncs eq_refl s i _ _ Hp Hi)).
  cbn [in_use base].
  rewrite !(u64_small (offset_address (entry f) + fip_pos f)) by (unfold UINT64_MAX; lia).
  set (off := offset_address (entry f) + fip_pos f).
  pose proof (mm_read_run bfuncs eq_refl s i {| in_use := 1; base := b; file_pos := off |} len
    Hp Hi Hl Hbb ltac:(unfold off; cbn; lia) ltac:(unfold off; cbn; lia) Hw) as Er.
  cbn [in_use base file_pos] in Er.
  set (s2 := set_fip s {| fip_pos := fip_pos f + len; entry := entry f |}).
  set (f2 := {| in_use := 1; base := b; file_pos := off + len |}) in *.
  erewrite (bind_Ok _ _ _ (mm_state s2 i f2)
    (IO_SUCCESS, slice (b + off) len (memory s))); cycle 1.
  { change (negb (IO_SUCCESS =? IO_SUCCESS)) with false. cbv iota.
    rewrite (bind_Ok _ _ _ _ _ Er). cbn [fst snd].
    change (negb (IO_SUCCESS =? IO_SUCCESS)) with false. cbv iota.
    erewrite bind_Ok by reflexivity. cbn [fip_file mm_state set_pool set_memmap set_alloc].
    assert (zlen (slice (b + off) len (memory s)) = len) as ->
      by (unfold slice, zlen, off in *; rewrite length_take, length_drop; lia).
    rewrite Hff, u32_small by (unfold UINT32_MAX; lia). done. }
  rewrite (bind_Ok _ _ _ _ _ (mm_close_run bfuncs eq_refl s2 i f2 ltac:(by apply (pool_ok_ext s))
    Hi Hc)).
  exists (mm_closed s2 i). replace (b + offset_address (entry f) + fip_pos f) with (b + off) by (unfold off; lia).
  split_and!; [done| |done]. split; [|done| |done].
  - split; try done; [|by exists l]. apply (pool_ok_ext s); try done. cbn. by rewrite zlen_zset.
  - cbn. by rewrite zget_zset_ne.
Qed.

Lemma fip_close_run (s : io_state) (b h : Z) (f : fip_file_t) :
  fip_open_at s b h f → offset_address (entry f) ≠ 0 →
  ∃ s', io_close funcs h s = Ok (IO_SUCCESS, s')
    ∧ pool_ok MAX_IO_HANDLES s' ∧ in_use (memmap_file s') = 0
    ∧ offset_address (entry (fip_file s')) = 0 ∧ memory s' = memory s ∧ devices s' = devices s
    ∧ entity_map s' = zset (entity_map s) h false ∧ entity_count s' = entity_count s - 1.
Proof.
  intros Hf Ho. pose proof Hf as [Hb Hm He Hff]. pose proof Hb as [Hp Hfree Hd Hs Hbb Hw].
  apply zget_Some_range in He as Hh. unfold io_close.
  rewrite (bind_Ok _ _ _ _ _ (fip_dev_run _ _ _ _ Hf)). cbn [f_close all_funcs fip_dev_funcs].
  set (s1 := set_pool (set_fip s {| fip_pos := 0; entry := no_entry |})
    (zset (entity_pool s) h {| dev_handle := Some Fip; info := None |})).
  erewrite (bind_Ok _ _ _ s1 IO_SUCCESS); cycle 1.
  { unfold fip_file_close. erewrite bind_Ok by reflexivity. rewrite Hff.
    rewrite (proj2 (Z.eqb_neq _ _)) by done. erewrite bind_Ok by reflexivity.
    erewrite bind_Ok by (by apply get_entity_run).
    by erewrite bind_Ok by (by apply put_entity_run). }
  destruct (free_run s1 h) as [Ef Hpf];
    [by apply (pool_ok_ext s); [..|cbn; rewrite zlen_zset]|done|].
  rewrite (bind_Ok _ _ _ _ _ Ef). by eexists.
Qed.

(** ** Loading an image *)

(** The image is the file [u] of the package at [b], entry [k] of its table. *)
Record image_ok (s : io_state) (b k image_id : Z) (u : list Z) : Prop := {
  im_source : plat_get_image_source image_id = (IO_SUCCESS, Fip, UuidSpec u);
  im_backend : backend_ok s b;
  im_closed : offset_address (entry (fip_file s)) = 0;
  im_handles : entity_count s + 1 < MAX_IO_HANDLES;
  im_index : 0 <= k ∧ b + (sizeof_toc_header + sizeof_toc_entry * (k + 1)) <= zlen (memory s);
  im_ends : toc_ends (memory s) b u k;
}.

(** C29: load_image() copies the file with the image's UUID out of the package:
    the result is IO_SUCCESS, the memory at [image_base] holds exactly the
    bytes of the file and nothing else changes, and every handle and the
    drivers' file states are released. *)
Theorem load_image_copies (s : io_state) (b k image_id image_base : Z) (u : list Z) :
  image_ok s b k image_id u →
  let e := toc_at (memory s) b k in
  uuid e = u → 0 < offset_address e → 0 < size e < 2 ^ 32 →
  b + offset_address e + size e <= zlen (memory s) →
  0 <= image_base → image_base + size e <= zlen (memory s) →
  ∃ s', load_image MAX_IO_HANDLES plat_get_image_source image_id image_base s = Ok (IO_SUCCESS, s')
    ∧ memory s' = splice image_base (slice (b + offset_address e) (size e) (memory s)) (memory s)
    ∧ entity_map s' = entity_map s ∧ entity_count s' = entity_count s
    ∧ in_use (memmap_file s') = 0 ∧ offset_address (entry (fip_file s')) = 0.
Proof.
  intros [Hsrc Hb Hcl Hc [Hk Hle] Hends] e Hu Ho Hsz Hf0 Hi0 Hi1.
  pose proof (fip_open_run s b k u Hb Hc Hcl Hk Hle Hends) as Hopen. cbn zeta in Hopen. fold e in Hopen.
  rewrite bool_decide_true in Hopen by done.
  destruct Hopen as (h & s1 & E1 & Hh & F1 & M1 & D1 & P1 & C1).
  destruct (fip_read_run s1 b h (size e) _ F1) as (s2 & E2 & F2 & (M2 & D2 & P2 & C2));
    cbn [fip_pos entry] in *; rewrite ?M1; try lia.
  set (d := slice (b + offset_address e + 0) (size e) (memory s1)) in *.
  assert (zlen d = size e) as Hd.
  { unfold d, slice, zlen in *. rewrite M1, length_take, length_drop. lia. }
  set (s3 := set_memory s2 (splice image_base d (memory s2))).
  assert (fip_open_at s3 b h {| fip_pos := size e; entry := e |}) as F3.
  { destruct F2 as [[] ? ? ?]. split; try done. split; try done; [by apply (pool_ok_ext s2)|]. cbn.
    rewrite zlen_splice; [done|lia|]. rewrite M2, M1. lia. }
  destruct (fip_close_run s3 b h _ F3) as (s4 & E4 & _ & U4 & O4 & M4 & _ & P4 & C4);
    [change (offset_address e ≠ 0); lia|].
  unfold load_image. rewrite Hsrc. change (negb (IO_SUCCESS =? IO_SUCCESS)) with false. cbv iota.
  rewrite (bind_Ok _ _ _ _ _ E1). cbn [fst snd].
  change (negb (IO_SUCCESS =? IO_SUCCESS)) with false. cbv iota.
  rewrite (bind_Ok _ _ _ _ _ (fip_size_run _ _ _ _ F1)). cbn [fst snd entry].
  rewrite (proj2 (Z.eqb_neq (size e) 0)) by lia.
  erewrite (bind_Ok _ _ _ s3 IO_SUCCESS); cycle 1.
  { change (negb (IO_SUCCESS =? IO_SUCCESS) || false) with false. cbv iota.
    rewrite (bind_Ok _ _ _ _ _ E2). cbn [fst snd].
    change (IO_SUCCESS =? IO_SUCCESS) with true. cbv iota.
    erewrite bind_Ok; [reflexivity|]. unfold mem_write.
    rewrite !(proj2 (Z.leb_le _ _)) by (rewrite ?M2, ?M1; lia). reflexivity. }
  rewrite (bind_Ok _ _ _ _ _ E4). eexists. split; [reflexivity|]. cbn.
  rewrite M4, P4, C4. cbn. rewrite M2, M1, P2, P1, C2, C1, zset_zset.
  destruct Hh as [_ Hh]. rewrite (zset_id _ _ _ Hh).
  split_and!; [|done|lia|done|done]. unfold d. by rewrite M1, Z.add_0_r.
Qed.

(** an image whose UUID is not in the package is refused with IO_FAIL; the
    memory is unchanged and no handle stays allocated. *)
Theorem load_image_missing (s : io_state) (b k image_id image_base : Z) (u : list Z) :
  image_ok s b k image_id u → uuid (toc_at (memory s) b k) ≠ u →
  ∃ s', load_image MAX_IO_HANDLES plat_get_image_source image_id image_base s = Ok (IO_FAIL, s')
    ∧ same_frame s s' ∧ backend_ok s' b ∧ offset_address (entry (fip_file s')) = 0.
Proof.
  intros [Hsrc Hb Hcl Hc [Hk Hle] Hends] Hu.
  pose proof (fip_open_run s b k u Hb Hc Hcl Hk Hle Hends) as Hopen. cbn zeta in Hopen.
  rewrite bool_decide_false in Hopen by done. destruct Hopen as (s1 & E1 & R1).
  exists s1. split; [|done]. unfold load_image. rewrite Hsrc.
  change (negb (IO_SUCCESS =? IO_SUCCESS)) with false. cbv iota.
  by rewrite (bind_Ok _ _ _ _ _ E1).
Qed.
End Fip_runs.

(** ** Handles in use *)

(** What the storage layer relies on in a driver: its open and close leave the
    pool's bookkeeping as they find it. *)
Definition same_pool (s s' : io_state) : Prop :=
  entity_map s' = entity_map s ∧ entity_count s' = entity_count s
  ∧ zlen (entity_pool s') = zlen (entity_pool s).

Class PoolSafe (funcs : dev → io_dev_funcs_t) := {
  ps_open d f spec h s r s' :
    pool_ok MAX_IO_HANDLES s → f_open (funcs d) = Some f → f spec h s = Ok (r, s') →
    same_pool s s';
  ps_close d f h s r s' :
    pool_ok MAX_IO_HANDLES s → f_close (funcs d) = Some f → f h s = Ok (r, s') → same_pool s s';
  ps_seek d f h m o s r s' :
    pool_ok MAX_IO_HANDLES s → f_seek (funcs d) = Some f → f h m o s = Ok (r, s') → same_pool s s';
  ps_read d f h n s r s' :
    pool_ok MAX_IO_HANDLES s → f_read (funcs d) = Some f → f h n s = Ok (r, s') → same_pool s s';
}.

Section Handles.

Context (funcs : dev → io_dev_funcs_t) `{PoolSafe funcs}.

(** Clients open entities and close those they have open. *)
Inductive io_step : io_state * list Z → io_state * list Z → Prop :=
| step_open s hs d sp h s' :
    io_open MAX_IO_HANDLES funcs d sp s = Ok ((IO_SUCCESS, h), s') →
    io_step (s, hs) (s', h :: hs)
| step_open_fails s hs d sp r h s' :
    io_open MAX_IO_HANDLES funcs d sp s = Ok ((r, h), s') → r ≠ IO_SUCCESS →
    io_step (s, hs) (s', hs)
| step_close s l1 h l2 r s' :
    io_close funcs h s = Ok (r, s') →
    io_step (s, l1 ++ h :: l2) (s', l1 ++ l2).

Record handles_ok (x : io_state * list Z) : Prop := {
  ho_pool : pool_ok MAX_IO_HANDLES x.1;
  ho_nodup : NoDup x.2;
  ho_map : ∀ i, i ∈ x.2 ↔ zget (entity_map x.1) i = Some true;
}.

Lemma get_entity_inv (s s' : io_state) (h : Z) (e : io_entity_t) :
  get_entity h s = Ok (e, s') → s' = s.
Proof. unfold get_entity. intros E. inv_run. unfold aget in E. by destruct (zget _ _); simplify_eq. Qed.

Lemma put_entity_inv (s s' : io_state) (h : Z) (e : io_entity_t) (x : unit) :
  put_entity h e s = Ok (x, s') → same_pool s s'.
Proof.
  unfold put_entity. intros E. inv_run. unfold aset in *. destruct (in_range _ _); [|done].
  simplify_eq. unfold same_pool. cbn. by rewrite zlen_zset.
Qed.

Lemma same_pool_ok (s s' : io_state) :
  same_pool s s' → pool_ok MAX_IO_HANDLES s → pool_ok MAX_IO_HANDLES s'.
Proof. intros (E1 & E2 & E3) Hp. by apply (pool_ok_ext s). Qed.

(** An open either allocates a free entity or leaves the pool as it was. *)
Lemma io_open_inv (d : dev) (sp : io_spec) (s s' : io_state) (r h : Z) :
  pool_ok MAX_IO_HANDLES s → io_open MAX_IO_HANDLES funcs d sp s = Ok ((r, h), s') →
  pool_ok MAX_IO_HANDLES s' ∧
  if r =? IO_SUCCESS then
    free_at s h ∧ entity_map s' = zset (entity_map s) h true
  else entity_map s' = entity_map s.
Proof.
  intros Hp E. pose proof (allocate_run s Hp) as Ha. unfold io_open in E.
  destruct (Z.ltb_spec (entity_count s) MAX_IO_HANDLES) as [Hlt|Hge]; cycle 1.
  { rewrite (bind_Ok _ _ _ _ _ Ha) in E. cbn in E. inv_run. done. }
  destruct Ha as (i & Ea & Hi & Hf). rewrite (bind_Ok _ _ _ _ _ Ea) in E.
  pose proof (allocate_pool s i Hp Hf) as Hp1.
  set (s1 := set_alloc s (zset (entity_map s) i true) (entity_count s + 1)) in *.
  cbn [fst snd] in E. change (IO_SUCCESS =? IO_SUCCESS) with true in E. cbv iota in E.
  destruct (f_open (funcs d)) as [f|] eqn:Hopen; [|done]. inv_run.
  pose proof (ps_open _ _ _ _ _ _ _ Hp1 Hopen Hrun) as Hsp.
  pose proof (same_pool_ok _ _ Hsp Hp1) as Hp2. destruct Hsp as (M2 & C2 & L2).
  match type of M2 with entity_map ?x = _ => rename x into s2 end.
  destruct (Z.eqb_spec a IO_SUCCESS) as [->|Hr]; inv_run.
  - apply get_entity_inv in Hrun0 as ->. apply put_entity_inv in Hrun1 as Hsp3.
    pose proof (same_pool_ok _ _ Hsp3 Hp2). destruct Hsp3 as (M3 & _ & _).
    cbn. rewrite M3, M2. done.
  - assert (zget (entity_map s2) i = Some true) as Hm.
    { rewrite M2. cbn. apply zget_zset_eq. pose proof (pk_map _ _ Hp). lia. }
    destruct (free_run s2 i Hp2 Hm) as [Ef Hpf]. rewrite Ef in Hrun0. simplify_eq.
    rewrite (proj2 (Z.eqb_neq _ _)) by done. split; [done|].
    cbn. rewrite M2. cbn. by rewrite zset_zset, (zset_id _ _ _ Hf).
Qed.

Lemma io_close_inv (s s' : io_state) (h r : Z) :
  pool_ok MAX_IO_HANDLES s → zget (entity_map s) h = Some true →
  io_close funcs h s = Ok (r, s') →
  pool_ok MAX_IO_HANDLES s' ∧ entity_map s' = zset (entity_map s) h false.
Proof.
  intros Hp Hm E. unfold io_close in E. inv_run.
  assert (s0 = s) as ->.
  { unfold entity_dev in Hrun. inv_run. apply get_entity_inv in Hrun2 as ->.
    destruct (dev_handle _); inv_run. done. }
  assert (same_pool s s1) as Hsp.
  { destruct (f_close (funcs a)) as [f|] eqn:Hc; [by eapply ps_close|]. by inv_run. }
  pose proof (same_pool_ok _ _ Hsp Hp) as Hp1. destruct Hsp as (M1 & _ & _).
  assert (zget (entity_map s1) h = Some true) as Hm1 by by rewrite M1.
  destruct (free_run s1 h Hp1 Hm1) as [Ef Hpf]. rewrite Ef in Hrun1. simplify_eq.
  split; [done|]. cbn. by rewrite M1.
Qed.

(** Distinct handles on the used entries are as many as these. *)
Lemma used_handles (m : list bool) (hs : list Z) :
  NoDup hs → (∀ i, i ∈ hs ↔ zget m i = Some true) → used m = zlen hs.
Proof.
  intros Hn. revert m. induction Hn as [|h hs Hnin Hn IH]; intros m Hm.
  - assert (Forall (λ b, b = false) m) as Hall.
    { apply Forall_lookup_2. intros i [|] Hi; [|done]. exfalso.
      assert (zget m (Z.of_nat i) = Some true) as Hz.
      { unfold zget. case_Z; [lia|]. by rewrite Nat2Z.id. }
      apply Hm in Hz. by apply not_elem_of_nil in Hz. }
    induction Hall as [|b m -> _ IH']; [done|]. rewrite used_cons. rewrite IH'; [done|].
    intros i. split; [by intros ?%not_elem_of_nil|]. intros Hi.
    exfalso. apply zget_Some_range in Hi as Hr. apply (not_elem_of_nil (i + 1)), (Hm (i + 1)).
    rewrite zget_cons, (proj2 (Z.eqb_neq _ _)) by lia. by replace (i + 1 - 1) with i by lia.
  - assert (zget m h = Some true) as Hh by (apply Hm; left).
    apply zget_Some_range in Hh as Hr. rewrite zlen_cons, <- (IH (zset m h false)).
    + rewrite (used_set _ _ _ _ Hh). lia.
    + intros i. rewrite zget_zset. case_decide as Hd.
      * destruct Hd as [-> _]. split; [|done]. intros Hi. by exfalso.
      * rewrite <- Hm, elem_of_cons. split; [by right|]. intros [->|Hi]; [|done].
        exfalso. apply Hd. lia.
Qed.

Lemma handles_step (x y : io_state * list Z) : io_step x y → handles_ok x → handles_ok y.
Proof.
  intros Hs [Hp Hn Hm]. destruct Hs as [s hs d sp h s' E|s hs d sp r h s' E Hr|s l1 h l2 r s' E];
    cbn [fst snd] in *.
  - apply io_open_inv in E as [Hp' [Hf Hm']]; [|done]. cbn in *. destruct Hf as [Hh Hf].
    split; cbn; [done| |].
    + constructor; [|done]. rewrite Hm. congruence.
    + intros i. rewrite elem_of_cons, Hm, Hm', zget_zset. case_decide as Hd.
      * destruct Hd as [-> _]. naive_solver.
      * split; [intros [->|Hi]; [|done]|by right].
        exfalso. apply Hd. apply zget_Some_range in Hf. lia.
  - apply io_open_inv in E as [Hp' Hm']; [|done]. rewrite (proj2 (Z.eqb_neq _ _)) in Hm' by done.
    split; cbn; [done|done|]. by rewrite Hm'.
  - assert (zget (entity_map s) h = Some true) as Hh by (apply Hm; set_solver).
    apply io_close_inv in E as [Hp' Hm']; [|done|done].
    assert (NoDup (h :: l1 ++ l2)) as Hn' by (by rewrite Permutation_middle).
    inversion Hn' as [|? ? Hnin Hn'']; subst. split; cbn; [done|done|].
    intros i. rewrite Hm', zget_zset. apply zget_Some_range in Hh as Hr.
    case_decide as Hd.
    + destruct Hd as [-> _]. split; [|done]. intros Hi. by exfalso.
    + rewrite <- Hm. assert (i ≠ h) by (intros ->; apply Hd; lia). set_solver.
Qed.

(** C30: the pool hands out every entity to one user at a time: after any
    sequence of opens and closes, with any drivers that respect the pool, the
    entities marked used are exactly the handles that are open, without
    repetition, and [entity_count] is their number. *)
Theorem io_handles_exact (s s' : io_state) (hs : list Z) :
  pool_ok MAX_IO_HANDLES s → entity_count s = 0 →
  rtc io_step (s, []) (s', hs) →
  NoDup hs ∧ (∀ i, i ∈ hs ↔ zget (entity_map s') i = Some true)
  ∧ entity_count s' = zlen hs ∧ zlen hs <= MAX_IO_HANDLES.
Proof.
  intros Hp H0 Hrtc.
  assert (handles_ok (s, [])) as Hok0.
  { split; [done|constructor|]. cbn. intros i. split; [by intros ?%not_elem_of_nil|].
    intros Hi. exfalso. pose proof (used_set _ _ _ false Hi) as Hu. cbv iota in Hu.
    pose proof (used_bounds (zset (entity_map s) i false)). pose proof (pk_count _ _ Hp). lia. }
  assert (handles_ok (s', hs)) as [Hp' Hn Hm].
  { remember (s, []) as x. remember (s', hs) as y. clear Heqx Heqy.
    induction Hrtc; [done|]. eauto using handles_step. }
  cbn in *. pose proof (pk_count _ _ Hp') as Hc. pose proof (used_bounds (entity_map s')).
  pose proof (pk_map _ _ Hp'). rewrite <- (used_handles _ _ Hn Hm). split_and!; [done|done|done|lia].
Qed.
End Handles.

(** ** The drivers respect the pool *)

Lemma same_pool_refl (s : io_state) : same_pool s s.
Proof. done. Qed.
Lemma same_pool_trans (s1 s2 s3 : io_state) :
  same_pool s1 s2 → same_pool s2 s3 → same_pool s1 s3.
Proof. unfold same_pool. intuition congruence. Qed.

(** Invert a run of driver code and collect what it does to the pool. *)
Ltac inv_io :=
  repeat first
    [ progress inv_run
    | match goal with
      | H : get_entity _ _ = Ok _ |- _ => apply get_entity_inv in H as ->
      | H : put_entity _ _ _ = Ok _ |- _ => apply put_entity_inv in H
      | H : mem_read _ _ _ = Ok _ |- _ => unfold mem_read in H
      | H : mem_write _ _ _ = Ok _ |- _ => unfold mem_write in H
      | H : memmap_fp _ _ = Ok _ |- _ => unfold memmap_fp in H
      | H : fip_fp _ _ = Ok _ |- _ => unfold fip_fp in H
      | H : set_entry _ _ = Ok _ |- _ => unfold set_entry in H
      | H : (if ?b then _ else _) _ = Ok _ |- _ => destruct b
      | H : (if ?b then _ else _) = Ok _ |- _ => destruct b
      | H : (match ?x with _ => _ end) _ = Ok _ |- _ => destruct x
      | H : (match ?x with _ => _ end) = Ok _ |- _ => destruct x
      | H : Ok _ = Ok _ |- _ => injection H as H
      | H : (_, _) = (_, _) |- _ => injection H as H
      | H : ?a = ?b |- _ => is_var a; subst a
      | H : ?a = ?b |- _ => is_var b; subst b
      end ].

#[export] Instance backend_pool_safe : PoolSafe backend_funcs.
Proof.
  split; intros [|] f; intros; cbn in *; simplify_eq;
    unfold memmap_block_open, memmap_block_close, memmap_block_seek, memmap_block_read in *;
    inv_io; try done.
Qed.


Section Fip_safe.

Context (plat_get_image_source : Z → Z * dev * io_spec).

Lemma entity_dev_inv (s s' : io_state) (h : Z) (d : dev) : entity_dev h s = Ok (d, s') → s' = s.
Proof. intros E. unfold entity_dev in E. by inv_io. Qed.

Lemma lower_seek_pool (s s' : io_state) (h o r : Z) (m : io_seek_mode_t) :
  pool_ok MAX_IO_HANDLES s → io_seek backend_funcs h m o s = Ok (r, s') → same_pool s s'.
Proof.
  intros Hp E. unfold io_seek in E. inv_run. apply entity_dev_inv in Hrun as ->.
  destruct (f_seek (backend_funcs _)) as [f|] eqn:Hf; [by eapply ps_seek|by inv_io].
Qed.

Lemma lower_read_pool (s s' : io_state) (h n : Z) (r : Z * list Z) :
  pool_ok MAX_IO_HANDLES s → io_read backend_funcs h n s = Ok (r, s') → same_pool s s'.
Proof.
  intros Hp E. unfold io_read in E. inv_run. apply entity_dev_inv in Hrun as ->.
  destruct (f_read (backend_funcs _)) as [f|] eqn:Hf; [by eapply ps_read|by inv_io].
Qed.

Lemma toc_loop_pool (fuel : nat) (s s' : io_state) (h : Z) (u : list Z) (r : Z * bool) :
  pool_ok MAX_IO_HANDLES s → toc_loop backend_funcs fuel h u s = Ok (r, s') → same_pool s s'.
Proof.
  revert s. induction fuel as [|fuel IH]; intros s Hp E; [done|]. cbn [toc_loop] in E.
  apply bind_Ok_inv in E as (x & s1 & E1 & E). apply lower_read_pool in E1; [|done].
  pose proof (same_pool_ok _ _ E1 Hp) as Hp1.
  destruct (x.1 =? IO_SUCCESS); [|by inv_io].
  apply bind_Ok_inv in E as (y & s2 & E2 & E).
  assert (same_pool s s2) as H2 by (unfold set_entry in E2; inv_io; done).
  destruct (uuid_equal _ _); [by inv_io|]. destruct (negb _); [|by inv_io].
  eapply same_pool_trans; [exact H2|]. apply IH; [|done]. by apply (same_pool_ok s).
Qed.

Lemma fip_lookup_pool (s s' : io_state) (h i : Z) (u : list Z) (r : Z) :
  pool_ok MAX_IO_HANDLES s → fip_lookup backend_funcs h i u s = Ok (r, s') → same_pool s s'.
Proof.
  intros Hp E. unfold fip_lookup in E.
  apply bind_Ok_inv in E as (x & s1 & E1 & E). apply lower_seek_pool in E1; [|done].
  pose proof (same_pool_ok _ _ E1 Hp) as Hp1. destruct (negb _); [by inv_io|].
  apply bind_Ok_inv in E as (y & s2 & E2 & E). unfold get in E2. simplify_eq.
  apply bind_Ok_inv in E as (z & s3 & E3 & E). apply toc_loop_pool in E3; [|done].
  eapply same_pool_trans; [exact E1|]. eapply same_pool_trans; [exact E3|].
  destruct (negb _); [by inv_io|]. destruct z.2; inv_io; try done.
  all: match goal with H : same_pool _ _ |- _ => by apply H end.
Qed.

(** What runs between the open and the close of the backend *)
Lemma bracket_pool {A} (body : Z → M io_state A) (s s' : io_state) (i r : Z) (s1 s2 : io_state) (a : A) :
  pool_ok MAX_IO_HANDLES s →
  backend_open MAX_IO_HANDLES backend_funcs s = Ok ((IO_SUCCESS, i), s1) →
  body i s1 = Ok (a, s2) → (pool_ok MAX_IO_HANDLES s1 → same_pool s1 s2) →
  io_close backend_funcs i s2 = Ok (r, s') → same_pool s s'.
Proof.
  intros Hp Eo Eb Hb Ec. unfold backend_open in Eo. erewrite bind_Ok in Eo by reflexivity.
  destruct (backend_dev_handle s) as [d|]; [|done].
  destruct (backend_image_spec s) as [sp|]; [|done].
  apply (io_open_inv backend_funcs) in Eo as [Hp1 [[Hi Hf] Hm1]]; [|done].
  specialize (Hb Hp1). pose proof (same_pool_ok _ _ Hb Hp1) as Hp2. destruct Hb as (M2 & C2 & L2).
  apply (io_close_inv backend_funcs) in Ec as [Hp3 Hm3]; [|done|].
  2: { rewrite M2, Hm1. apply zget_zset_eq. pose proof (pk_map _ _ Hp). lia. }
  assert (entity_map s' = entity_map s) as Hm.
  { rewrite Hm3, M2, Hm1, zset_zset. by apply zset_id. }
  split_and!; [done| |].
  - by rewrite (pk_count _ _ Hp3), (pk_count _ _ Hp), Hm.
  - by rewrite (pk_pool _ _ Hp3), (pk_pool _ _ Hp).
Qed.

(** A failed open of the backend leaves the pool. *)
Lemma backend_open_fails (s s1 : io_state) (r : Z * Z) :
  pool_ok MAX_IO_HANDLES s →
  backend_open MAX_IO_HANDLES backend_funcs s = Ok (r, s1) → r.1 ≠ IO_SUCCESS → same_pool s s1.
Proof.
  intros Hp Eo Hr. destruct r as [r i]. cbn in Hr.
  unfold backend_open in Eo. erewrite bind_Ok in Eo by reflexivity.
  destruct (backend_dev_handle s) as [d|]; [|done].
  destruct (backend_image_spec s) as [sp|]; [|done].
  apply (io_open_inv backend_funcs) in Eo as [Hp1 Hm]; [|done].
  rewrite (proj2 (Z.eqb_neq _ _)) in Hm by done. split_and!; [done| |].
  - by rewrite (pk_count _ _ Hp1), (pk_count _ _ Hp), Hm.
  - by rewrite (pk_pool _ _ Hp1), (pk_pool _ _ Hp).
Qed.

Lemma fip_open_pool (s s' : io_state) (sp : io_spec) (h r : Z) :
  pool_ok MAX_IO_HANDLES s → fip_file_open MAX_IO_HANDLES backend_funcs sp h s = Ok (r, s') →
  same_pool s s'.
Proof.
  intros Hp E. unfold fip_file_open in E. destruct sp as [|u]; [done|].
  erewrite bind_Ok in E by reflexivity. destruct (negb _); [by inv_io|].
  apply bind_Ok_inv in E as ([x i] & s1 & E1 & E). cbn [fst snd] in E.
  destruct (Z.eqb_spec x IO_SUCCESS) as [->|Hx]; cbn [negb] in E.
  - apply bind_Ok_inv in E as (y & s2 & E2 & E). apply bind_Ok_inv in E as (z & s3 & E3 & E).
    inv_run. apply (bracket_pool (λ i, fip_lookup backend_funcs h i u) s _ i z s1 s2 r); try done.
    intros Hp1. by eapply fip_lookup_pool.
  - inv_run. by eapply backend_open_fails.
Qed.

Lemma fip_read_pool (s s' : io_state) (h n : Z) (r : Z * list Z) :
  pool_ok MAX_IO_HANDLES s → fip_file_read MAX_IO_HANDLES backend_funcs h n s = Ok (r, s') →
  same_pool s s'.
Proof.
  intros Hp E. unfold fip_file_read in E.
  apply bind_Ok_inv in E as (e & s0 & E0 & E). apply get_entity_inv in E0 as ->.
  apply bind_Ok_inv in E as (u0 & s0 & E0 & E). apply assert_Ok_inv in E0 as [_ ->].
  apply bind_Ok_inv in E as ([x i] & s1 & E1 & E). cbn [fst snd] in E.
  destruct (Z.eqb_spec x IO_SUCCESS) as [->|Hx]; cbn [negb] in E.
  - apply bind_Ok_inv in E as (fp & s2 & E2 & E).
    assert (s2 = s1) as -> by (unfold fip_fp in E2; by inv_io).
    apply bind_Ok_inv in E as (k & s3 & E3 & E).
    apply bind_Ok_inv in E as (res & s4 & E4 & E). apply bind_Ok_inv in E as (z & s5 & E5 & E).
    inv_run. apply (bracket_pool (λ _ _, Ok (tt, s4)) s _ i z s1 s4 tt); try done.
    intros Hp1. apply lower_seek_pool in E3; [|done].
    pose proof (same_pool_ok _ _ E3 Hp1) as Hp3. eapply same_pool_trans; [exact E3|].
    destruct (negb _); [by inv_io|]. apply bind_Ok_inv in E4 as (b & s6 & E6 & E4).
    apply lower_read_pool in E6; [|done]. destruct (negb _); inv_io; done.
  - inv_run. by eapply backend_open_fails.
Qed.

#[export] Instance all_pool_safe : PoolSafe (all_funcs MAX_IO_HANDLES plat_get_image_source).
Proof.
  split; intros [|] f; intros; cbn in *; simplify_eq;
    try (unfold memmap_block_open, memmap_block_close, memmap_block_seek, memmap_block_read,
           fip_file_close in *; inv_io; done).
  - by eapply fip_open_pool.
  - by eapply fip_read_pool.
Qed.
End Fip_safe.
End Pool.


(** ** The names of the images (include/drivers/io/io_fip.h)

    The array as the compiler sees it: two of the literals are not separated
    by a comma and make one string.  A name is the list of the parts of its
    literal. *)

Definition NS_BL1U_IMAGE_ID : Z := 16.
Definition FWU_FIP_IMAGE_ID : Z := 21.
Inductive image_name : Set := NameNsBl1u | NameFwuCert | NameScpBl2u | NameBl2u | NameNsBl2u | NameFip.
Definition image_names : list (list image_name) :=
  [[NameNsBl1u]; [NameFwuCert]; [NameScpBl2u]; [NameBl2u]; [NameNsBl2u; NameFip]].
Definition get_image_name {S} (image_id : Z) : M S (list image_name) :=
  assert_ ((NS_BL1U_IMAGE_ID <=? image_id) && (image_id <=? FWU_FIP_IMAGE_ID));;
  aget image_names (image_id - NS_BL1U_IMAGE_ID).

(** The last image the assertion admits is outside the array. *)
Lemma get_image_name_overrun {S} (s : S) :
  get_image_name FWU_FIP_IMAGE_ID s = Stop OutOfBounds.
Proof. done. Qed.

(** ** Witnesses: a package with one file, at address 0 *)

Definition demo_uuid : list Z := replicate 15 7 ++ [1].
Definition demo_memory : list Z :=
  le_bytes 4 TOC_HEADER_NAME ++ le_bytes 4 1 ++ le_bytes 8 0
  ++ demo_uuid ++ le_bytes 8 96 ++ le_bytes 8 4 ++ le_bytes 8 0
  ++ replicate 40 0 ++ [11; 12; 13; 14] ++ replicate 20 0.
Definition demo_source (id : Z) : Z * dev * io_spec :=
  (IO_SUCCESS, Fip, UuidSpec (if id =? 16 then demo_uuid else replicate 16 9)).
Definition demo_io : io_state :=
  {| entity_pool := replicate 2 {| dev_handle := None; info := None |};
     entity_map := [false; false]; entity_count := 0; devices := [Memmap; Fip];
     memmap_file := {| in_use := 0; base := 0; file_pos := 0 |};
     fip_file := {| fip_pos := 0; entry := no_entry |};
     backend_dev_handle := Some Memmap; backend_image_spec := Some (BlockSpec 0 200);
     memory := demo_memory |}.

Lemma demo_backend_ok : backend_ok 2 demo_io 0.
Proof. split; try done. by eexists. Qed.

Lemma load_image_copies_witness :
  ∃ s', load_image 2 demo_source 16 104 demo_io = Ok (IO_SUCCESS, s')
        ∧ memory s' = splice 104 [11; 12; 13; 14] demo_memory.
Proof.
  destruct (load_image_copies 2 demo_source demo_io 0 0 16 104 demo_uuid) as (s' & E & M & _).
  - split; try done; [exact demo_backend_ok|]. split; [lia|left; reflexivity].
  - reflexivity.
  - vm_compute. reflexivity.
  - vm_compute. done.
  - vm_compute. congruence.
  - lia.
  - vm_compute. congruence.
  - exists s'. split; [exact E|exact M].
Defined.

Lemma load_image_missing_witness :
  ∃ s', load_image 2 demo_source 17 104 demo_io = Ok (IO_FAIL, s') ∧ same_frame demo_io s'.
Proof.
  destruct (load_image_missing 2 demo_source demo_io 0 1 17 104 (replicate 16 9))
    as (s' & E & F & _).
  - split; try done; [exact demo_backend_ok|]. split; [|right; reflexivity].
    intros j Hj. assert (j = 0) as -> by lia. vm_compute. split; congruence.
  - vm_compute. congruence.
  - exists s'. split; [exact E|exact F].
Defined.

Lemma io_handles_exact_witness :
  ∃ s', io_open 2 (all_funcs 2 demo_source) Fip (UuidSpec demo_uuid) demo_io
        = Ok ((IO_SUCCESS, 0), s') ∧ entity_count s' = zlen [0].
Proof.
  destruct (io_open 2 (all_funcs 2 demo_source) Fip (UuidSpec demo_uuid) demo_io)
    as [[[r h] s']|w] eqn:E; [|vm_compute in E; congruence].
  assert (r = 0 ∧ h = 0) as [Hr Hh] by (vm_compute in E; split; congruence).
  rewrite Hr, Hh in *. exists s'. split; [reflexivity|].
  apply (io_handles_exact 2 (all_funcs 2 demo_source) demo_io s' [0]).
  - exact (bk_pool _ _ _ demo_backend_ok).
  - reflexivity.
  - eapply rtc_l; [|apply rtc_refl]. eapply step_open. exact E.
Defined.
