(* ===== verification/NvmIo.v ===== *)
(** * The session state in flash (USE_NVM = 1)

    The accessors of plat/common/tftf_nvm_accessors.c when the NVM is a file
    of the storage layer: every access takes the lock, seeks and transfers.
    With the memory-mapped driver behind the handle they are an instance of
    [NvmStore], so that everything proved of the session state holds of this
    build too. *)

From S2P Require Import Prelude Bytes Printf Io Nvm NvmSpec.

Local Open Scope Z_scope.

(** The storage layer, the handle [plat_get_nvm_handle()] returns and
    [flash_access_lock] *)
Record flash_nvm := { fl_io : io_state; fl_handle : Z; flash_access_lock : bool }.

Definition fl_lift {A} (m : M io_state A) : M flash_nvm A := λ t,
  match m (fl_io t) with
  | Ok (a, s) => Ok (a, {| fl_io := s; fl_handle := fl_handle t;
                           flash_access_lock := flash_access_lock t |})
  | Stop w => Stop w
  end.
Definition fl_spin_lock : M flash_nvm unit := λ t,
  if flash_access_lock t then Stop FuelOut
  else Ok (tt, {| fl_io := fl_io t; fl_handle := fl_handle t; flash_access_lock := true |}).
Definition fl_spin_unlock : M flash_nvm unit :=
  modify (λ t, {| fl_io := fl_io t; fl_handle := fl_handle t; flash_access_lock := false |}).

Section Flash.

Context (funcs : dev → io_dev_funcs_t).
Context (TFTF_NVM_OFFSET TFTF_NVM_SIZE : Z).

(** [tftf_nvm_write()] *)
Definition flash_nvm_write (offset : Z) (buffer : list Z) : M flash_nvm Z :=
  if TFTF_NVM_SIZE <? u64 (offset + zlen buffer) then mret STATUS_OUT_OF_RESOURCES
  else
    t ← get;
    let nvm_handle := fl_handle t in
    fl_spin_lock;;
    ret ← fl_lift (io_seek funcs nvm_handle IO_SEEK_SET (u64 (offset + TFTF_NVM_OFFSET)));
    ret ← (if negb (ret =? IO_SUCCESS) then mret ret
           else
             w ← fl_lift (io_write funcs nvm_handle buffer);
             if negb (w.1 =? IO_SUCCESS) then mret w.1
             else assert_ (w.2 =? zlen buffer);; mret w.1);
    fl_spin_unlock;;
    if negb (ret =? IO_SUCCESS) then mret STATUS_FAIL else mret STATUS_SUCCESS.

(** [tftf_nvm_read()] *)
Definition flash_nvm_read (offset size : Z) : M flash_nvm (Z * list Z) :=
  if TFTF_NVM_SIZE <? u64 (offset + size) then mret (STATUS_OUT_OF_RESOURCES, [])
  else
    t ← get;
    let nvm_handle := fl_handle t in
    fl_spin_lock;;
    ret ← fl_lift (io_seek funcs nvm_handle IO_SEEK_SET (u64 (TFTF_NVM_OFFSET + offset)));
    r ← (if negb (ret =? IO_SUCCESS) then mret (ret, [])
         else
           b ← fl_lift (io_read funcs nvm_handle size);
           if negb (b.1 =? IO_SUCCESS) then mret (b.1, [])
           else assert_ (zlen b.2 =? size);; mret b);
    fl_spin_unlock;;
    if negb (r.1 =? IO_SUCCESS) then mret (STATUS_FAIL, []) else mret (STATUS_SUCCESS, r.2).
End Flash.

(** A write inside a region, seen from the region *)
Lemma slice_splice_inside (o n k : Z) (d l : list Z) :
  0 <= o → 0 <= k → k + zlen d <= n → o + n <= zlen l →
  slice o n (splice (o + k) d l) = splice k d (slice o n l).
Proof.
  intros Ho Hk Hd Hn. unfold slice, splice, zlen in *.
  rewrite (drop_app_le (take _ l)) by (rewrite length_take; lia).
  rewrite skipn_firstn_comm, take_take.
  replace (Z.to_nat (o + k) - Z.to_nat o)%nat with (Z.to_nat k) by lia.
  rewrite (Nat.min_l (Z.to_nat k)) by lia.
  rewrite take_app_ge by (rewrite length_take, length_drop; lia).
  rewrite (take_app_ge d) by (rewrite length_take, length_drop; lia).
  rewrite length_take, length_drop.
  rewrite (skipn_firstn_comm _ _ (drop (Z.to_nat o) l)), drop_drop.
  do 3 f_equal; [lia|]. f_equal. lia.
Qed.

Section Flash_store.

Context (MAX_IO_HANDLES : Z) (TFTF_NVM_OFFSET TFTF_NVM_SIZE : Z).

(** The handle is open on the memory-mapped device, in a region that holds the
    NVM. *)
Definition flash_ok (t : flash_nvm) : Prop :=
  ∃ s f, fl_io t = mm_state s (fl_handle t) f ∧ pool_ok MAX_IO_HANDLES s
         ∧ free_at MAX_IO_HANDLES s (fl_handle t) ∧ 0 <= base f
         ∧ base f + TFTF_NVM_OFFSET + TFTF_NVM_SIZE <= zlen (memory s)
         ∧ zlen (memory s) < 2 ^ 64 ∧ 0 <= TFTF_NVM_OFFSET ∧ 0 <= TFTF_NVM_SIZE
         ∧ flash_access_lock t = false.

Definition flash_bytes (t : flash_nvm) : list Z :=
  slice (base (memmap_file (fl_io t)) + TFTF_NVM_OFFSET) TFTF_NVM_SIZE (memory (fl_io t)).

Lemma zlen_flash_bytes (t : flash_nvm) : flash_ok t → zlen (flash_bytes t) = TFTF_NVM_SIZE.
Proof.
  intros (s & f & E & _ & _ & Hb & Hle & _ & Ho & Hs & _). unfold flash_bytes. rewrite E. cbn.
  unfold slice, zlen in *. rewrite length_take, length_drop. lia.
Qed.

Lemma flash_write_run (t : flash_nvm) (off : Z) (d : list Z) :
  flash_ok t → 0 <= off → off + zlen d <= TFTF_NVM_SIZE →
  ∃ t', flash_nvm_write backend_funcs TFTF_NVM_OFFSET TFTF_NVM_SIZE off d t
        = Ok (STATUS_SUCCESS, t')
        ∧ flash_bytes t' = splice off d (flash_bytes t) ∧ flash_ok t'.
Proof.
  intros (s & f & E & Hp & Hi & Hb & Hle & Hw & Ho & Hs & Hl) Hoff Hd.
  destruct t as [io h lk]. cbn in *. subst io lk. pose proof (zlen_nonneg d).
  unfold flash_nvm_write. rewrite !u64_small by (unfold UINT64_MAX; lia).
  rewrite (proj2 (Z.ltb_ge _ _)) by lia. cbv iota. erewrite bind_Ok by reflexivity. cbn zeta.
  erewrite bind_Ok by reflexivity.
  set (f1 := {| in_use := in_use f; base := base f; file_pos := off + TFTF_NVM_OFFSET |}).
  set (f2 := {| in_use := in_use f; base := base f; file_pos := off + TFTF_NVM_OFFSET + zlen d |}).
  set (s2 := set_memory s (splice (base f + (off + TFTF_NVM_OFFSET)) d (memory s))).
  erewrite (bind_Ok _ _ _ {| fl_io := mm_state s h f1; fl_handle := h; flash_access_lock := true |}
    IO_SUCCESS); cycle 1.
  { unfold fl_lift. cbn [fl_io fl_handle]. rewrite (mm_seek_run _ _ eq_refl s h f _ Hp Hi).
    by rewrite u64_small by (unfold UINT64_MAX; lia). }
  erewrite (bind_Ok _ _ _ {| fl_io := mm_state s2 h f2; fl_handle := h; flash_access_lock := true |}
    IO_SUCCESS); cycle 1.
  { change (negb (IO_SUCCESS =? IO_SUCCESS)) with false. cbv iota. erewrite bind_Ok; cycle 1.
    - unfold fl_lift. cbn [fl_io fl_handle flash_access_lock].
      rewrite (mm_write_run _ _ eq_refl s h f1 d Hp Hi); try (cbn; lia). reflexivity.
    - cbn [fst snd]. change (negb (IO_SUCCESS =? IO_SUCCESS)) with false. cbv iota.
      rewrite Z.eqb_refl. by erewrite bind_Ok by reflexivity. }
  erewrite bind_Ok by reflexivity. cbn [negb Z.eqb fl_io fl_handle].
  eexists. split; [reflexivity|]. split.
  - unfold flash_bytes. cbn. replace (base f + (off + TFTF_NVM_OFFSET))
      with (base f + TFTF_NVM_OFFSET + off) by lia. apply slice_splice_inside; lia.
  - exists s2, f2. split_and!; try done; cbn; try lia; [by destruct Hp| |];
      rewrite zlen_splice; lia.
Qed.

Lemma flash_read_run (t : flash_nvm) (off n : Z) :
  flash_ok t → 0 <= off → 0 <= n → off + n <= TFTF_NVM_SIZE →
  ∃ t', flash_nvm_read backend_funcs TFTF_NVM_OFFSET TFTF_NVM_SIZE off n t
        = Ok ((STATUS_SUCCESS, slice off n (flash_bytes t)), t')
        ∧ flash_bytes t' = flash_bytes t ∧ flash_ok t'.
Proof.
  intros (s & f & E & Hp & Hi & Hb & Hle & Hw & Ho & Hs & Hl) Hoff Hn Hd.
  destruct t as [io h lk]. cbn in *. subst io lk.
  unfold flash_nvm_read. rewrite !u64_small by (unfold UINT64_MAX; lia).
  rewrite (proj2 (Z.ltb_ge _ _)) by lia. cbv iota. erewrite bind_Ok by reflexivity. cbn zeta.
  erewrite bind_Ok by reflexivity.
  set (f1 := {| in_use := in_use f; base := base f; file_pos := TFTF_NVM_OFFSET + off |}).
  set (f2 := {| in_use := in_use f; base := base f; file_pos := TFTF_NVM_OFFSET + off + n |}).
  set (d := slice (base f + (TFTF_NVM_OFFSET + off)) n (memory s)).
  erewrite (bind_Ok _ _ _ {| fl_io := mm_state s h f1; fl_handle := h; flash_access_lock := true |}
    IO_SUCCESS); cycle 1.
  { unfold fl_lift. cbn [fl_io fl_handle]. rewrite (mm_seek_run _ _ eq_refl s h f _ Hp Hi).
    by rewrite u64_small by (unfold UINT64_MAX; lia). }
  assert (zlen d = n) as Hdn.
  { unfold d, slice, zlen in *. rewrite length_take, length_drop. lia. }
  erewrite (bind_Ok _ _ _ {| fl_io := mm_state s h f2; fl_handle := h; flash_access_lock := true |}
    (IO_SUCCESS, d)); cycle 1.
  { change (negb (IO_SUCCESS =? IO_SUCCESS)) with false. cbv iota. erewrite bind_Ok; cycle 1.
    - unfold fl_lift. cbn [fl_io fl_handle flash_access_lock].
      rewrite (mm_read_run _ _ eq_refl s h f1 n Hp Hi); try (cbn; lia). reflexivity.
    - cbn [fst snd f1 base file_pos]. fold d.
      change (negb (IO_SUCCESS =? IO_SUCCESS)) with false. cbv iota. rewrite Hdn, Z.eqb_refl.
      by erewrite bind_Ok by reflexivity. }
  erewrite bind_Ok by reflexivity. eexists. split; [|split].
  - cbn [negb Z.eqb fst snd]. unfold flash_bytes. cbn. rewrite slice_slice by lia.
    unfold d. by rewrite Z.add_assoc.
  - done.
  - exists s, f2. split_and!; done.
Qed.

#[export, refine] Instance flash_store : NvmStore flash_nvm := {|
  nvm_bytes := flash_bytes;
  nvm_ok := flash_ok;
  nvm_write := flash_nvm_write backend_funcs TFTF_NVM_OFFSET TFTF_NVM_SIZE;
  nvm_read := flash_nvm_read backend_funcs TFTF_NVM_OFFSET TFTF_NVM_SIZE;
|}.
Proof.
  - intros t off d Hok Ho Hle. rewrite zlen_flash_bytes in Hle by done. by apply flash_write_run.
  - intros t off d Hok Ho Hlt Hfull. rewrite zlen_flash_bytes in Hfull by done.
    unfold flash_nvm_write. pose proof (zlen_nonneg d).
    rewrite u64_small by (unfold UINT64_MAX; lia). by rewrite (proj2 (Z.ltb_lt _ _)) by lia.
  - intros t off n Hok Ho Hn Hle. rewrite zlen_flash_bytes in Hle by done.
    by apply flash_read_run.
Defined.
End Flash_store.

(** The framework's environment over the handle *)
Definition flash_env (s : io_state) (h : Z) (out : list Z) : nvm_env (T := flash_nvm) :=
  {| store := {| fl_io := s; fl_handle := h; flash_access_lock := false |};
     testcase_output := out; testcase_output_idx := 0; testcase_output_lock := false |}.

(** C36: with USE_NVM = 1 the session state lives in a file of the storage layer:
    opening the memory-mapped device gives a handle through which, after
    tftf_init_nvm(), every sequence of operations of the framework answers as
    the abstract session state does. *)
Theorem flash_session_refines (MAX off size COUNT b l : Z) (msg : list Z) (s : io_state)
    (out : list Z) (os : list op) :
  pool_ok MAX s → entity_count s < MAX → in_use (memmap_file s) = 0 →
  0 <= b → 0 <= off → b + off + size <= zlen (memory s) → zlen (memory s) < 2 ^ 63 →
  0 < COUNT → sizeof_tftf_state COUNT <= size < off_result_buffer COUNT + 2 ^ 32 →
  0 < zlen out < 2 ^ 31 → hd 0 out = 0 →
  let a := sp_initial msg (size - off_result_buffer COUNT) (zlen out) in
  ops_ok COUNT msg a os →
  ∃ h s1 e1 e2, io_open MAX backend_funcs Memmap (BlockSpec b l) s = Ok ((IO_SUCCESS, h), s1)
    ∧ tftf_init_nvm (H := flash_store MAX off size) COUNT msg (flash_env s1 h out)
      = Ok (STATUS_SUCCESS, e1)
    ∧ run_ops (H := flash_store MAX off size) COUNT msg os e1 = Ok ((spec_ops msg os a).1, e2)
    ∧ rep (H := flash_store MAX off size) COUNT e2 (spec_ops msg os a).2.
Proof.
  intros Hp Hc Hu Hb Ho Hle Hw HC Hsz Hout Hhd a Hos.
  destruct (mm_open_run MAX backend_funcs eq_refl s b l Hp Hc Hu) as (h & Eo & Hi).
  exists h, (mm_state s h {| in_use := 1; base := b; file_pos := 0 |}).
  pose proof (layout COUNT). assert (sizeof_tftf_state COUNT = off_result_buffer COUNT + 8) by done.
  set (s1 := mm_state s h {| in_use := 1; base := b; file_pos := 0 |}).
  set (t := {| fl_io := s1; fl_handle := h; flash_access_lock := false |}).
  assert (flash_ok MAX off size t) as Ht.
  { exists s, {| in_use := 1; base := b; file_pos := 0 |}. split_and!; cbn; try done; lia. }
  pose proof (zlen_flash_bytes MAX off size t Ht) as Hz.
  destruct (sim_init (H := flash_store MAX off size) COUNT msg (flash_env s1 h out))
    as (e1 & E1 & R1); cbn [nvm_ok nvm_bytes flash_store store flash_env]; fold t;
    rewrite ?Hz; try done; try lia.
  { destruct out as [|c l0]; [by destruct Hout|]. cbn in Hhd. subst c.
    split; cbn; [lia|lia|done|done]. }
  cbn [nvm_ok nvm_bytes flash_store store flash_env testcase_output] in R1. fold t in R1.
  rewrite Hz in R1.
  destruct (sim_ops (H := flash_store MAX off size) COUNT msg os e1 a R1 Hos) as (e2 & E2 & R2).
  by exists e1, e2.
Qed.

(** ** Witness *)

Definition demo_flash : io_state :=
  {| entity_pool := replicate 1 {| dev_handle := None; info := None |};
     entity_map := [false]; entity_count := 0; devices := [Memmap];
     memmap_file := {| in_use := 0; base := 0; file_pos := 0 |};
     fip_file := {| fip_pos := 0; Io.entry := no_entry |};
     backend_dev_handle := None; backend_image_spec := None; memory := replicate 400 0 |}.

Lemma flash_session_refines_witness :
  ∃ h s1 e1 e2, io_open 1 backend_funcs Memmap (BlockSpec 50 300) demo_flash
                = Ok ((IO_SUCCESS, h), s1)
    ∧ tftf_init_nvm (H := flash_store 1 16 300) 2 demo_msg (flash_env s1 h (replicate 64 0))
      = Ok (STATUS_SUCCESS, e1)
    ∧ run_ops (H := flash_store 1 16 300) 2 demo_msg demo_ops e1 =
      Ok ([Status 0; Status 14; Done; Status 0; ResultIs 0 2 5 demo_out;
           ProgressIs 0 3; Status 0; IsNew true], e2).
Proof.
  destruct (flash_session_refines 1 16 300 2 50 300 demo_msg demo_flash (replicate 64 0) demo_ops)
    as (h & s1 & e1 & e2 & E0 & E1 & E2 & _).
  - split; vm_compute; done.
  - vm_compute. reflexivity.
  - reflexivity.
  - lia.
  - lia.
  - vm_compute. congruence.
  - vm_compute. reflexivity.
  - lia.
  - vm_compute. split; congruence.
  - vm_compute. split; congruence.
  - reflexivity.
  - cbn. split_and!; try done; try lia.
    + do 2 eexists. split; reflexivity.
    + vm_compute. repeat constructor; done.
  - exists h, s1, e1, e2. split; [exact E0|]. split; [exact E1|exact E2].
Defined.
