(* ===== verification/PState.v ===== *)
(** * Composite power states (plat/common/plat_state_id.c, lib/psci/psci.c)

    The local power states of each level, the counter that runs through their
    combinations, the parameters of PSCI CPU_SUSPEND made from one, and the
    format the power state parameter has; at the end, the sleep that combines
    them with the timer.  The platform's tables and the firmware's answers are
    parameters. *)

From S2P Require Import Prelude Bits TimerFramework.

Local Open Scope Z_scope.

(** [(unsigned int) -1] *)
Definition PWR_STATE_INIT_INDEX : Z := UINT32_MAX.
Definition PSTATE_E_SUCCESS : Z := 0.
Definition PSCI_E_NOT_SUPPORTED : Z := -1.
Definition PSCI_E_INVALID_PARAMS : Z := -2.

Definition PSTATE_ID_SHIFT : Z := 0.
Definition PSTATE_TYPE_SHIFT : Z := 16.
Definition PSTATE_AFF_LVL_SHIFT : Z := 24.
Definition PSTATE_ID_MASK : Z := 65535.
Definition PSTATE_AFF_LVL_MASK : Z := 3.
Definition PSTATE_ID_SHIFT_EXT : Z := 0.
Definition PSTATE_TYPE_SHIFT_EXT : Z := 30.
Definition PSTATE_ID_MASK_EXT : Z := 268435455.
Definition PSTATE_TYPE_MASK : Z := 1.
Definition PSTATE_AFF_LVL_0 : Z := 0.
Definition PSTATE_TYPE_STANDBY : Z := 0.
Definition PLAT_PSCI_DUMMY_STATE_ID : Z := 15.

Definition psci_state_id_valid (x : Z) : bool := Z.land x (Z.lnot PSTATE_ID_MASK) =? 0.
Definition psci_affinity_level_valid (x : Z) : bool :=
  Z.land x (Z.lnot PSTATE_AFF_LVL_MASK) =? 0.
Definition psci_state_id_ext_valid (x : Z) : bool :=
  Z.land x (Z.lnot PSTATE_ID_MASK_EXT) =? 0.
Definition psci_state_type_valid (x : Z) : bool := Z.land x (Z.lnot PSTATE_TYPE_MASK) =? 0.

Definition CPU_SUSPEND_FEAT_PSTATE_FORMAT_SHIFT : Z := 1.
Definition CPU_SUSPEND_FEAT_PSTATE_FORMAT_ORIGINAL : Z := 0.
Definition CPU_SUSPEND_FEAT_PSTATE_FORMAT_EXTENDED : Z := 1.
Definition CPU_SUSPEND_FEAT_VALID_MASK : Z := Z.lor (Z.shiftl 1 0) (Z.shiftl 1 1).

Record plat_state_prop_t := { suspend_depth : Z; state_ID : Z; is_pwrdown : Z }.

(** What the detection of the format does to the interrupt controller, to the
    interrupt mask and to the CPU *)
Inductive pstate_ev : Set :=
| EnableSgi
| DisableIrq
| SendSgi (core_pos : Z)
| CpuSuspend (power_state : Z)
| EnableIrq
| DisableSgi.

(** The static variables of plat_state_id.c and of psci.c; [pstate_log] is
    the newest event first. *)
Record pstate_state := {
  pstate_initialized : Z;
  plat_state_ptr : list (list plat_state_prop_t);
  power_states_per_level : list Z;
  pstate_format_detected : Z;
  pstate_format : Z;
  is_state_id_null : Z;
  pstate_log : list pstate_ev;
}.

Definition set_levels (s : pstate_state) (p : list (list plat_state_prop_t)) (c : list Z)
    : pstate_state :=
  {| pstate_initialized := pstate_initialized s; plat_state_ptr := p;
     power_states_per_level := c; pstate_format_detected := pstate_format_detected s;
     pstate_format := pstate_format s; is_state_id_null := is_state_id_null s;
     pstate_log := pstate_log s |}.

Definition set_initialized (s : pstate_state) : pstate_state :=
  {| pstate_initialized := 1; plat_state_ptr := plat_state_ptr s;
     power_states_per_level := power_states_per_level s;
     pstate_format_detected := pstate_format_detected s;
     pstate_format := pstate_format s; is_state_id_null := is_state_id_null s;
     pstate_log := pstate_log s |}.

Definition set_format (s : pstate_state) (detected format null : Z) : pstate_state :=
  {| pstate_initialized := pstate_initialized s; plat_state_ptr := plat_state_ptr s;
     power_states_per_level := power_states_per_level s;
     pstate_format_detected := detected; pstate_format := format; is_state_id_null := null;
     pstate_log := pstate_log s |}.

Definition pstate_emit (e : pstate_ev) : M pstate_state unit :=
  modify (λ s, {| pstate_initialized := pstate_initialized s; plat_state_ptr := plat_state_ptr s;
     power_states_per_level := power_states_per_level s;
     pstate_format_detected := pstate_format_detected s;
     pstate_format := pstate_format s; is_state_id_null := is_state_id_null s;
     pstate_log := e :: pstate_log s |}).

(** ** The format of the power state parameter (lib/psci/psci.c)

    [features] is the firmware's answer to PSCI_FEATURES for CPU_SUSPEND, an
    [int]; [suspend] what [tftf_cpu_suspend()] returns; [core] the position
    of the calling CPU. *)

Definition tftf_psci_get_pstate_format (features : Z) : Z :=
  if features =? PSCI_E_NOT_SUPPORTED then CPU_SUSPEND_FEAT_PSTATE_FORMAT_ORIGINAL
  else if negb (Z.land features (Z.lnot CPU_SUSPEND_FEAT_VALID_MASK) =? 0)
  then CPU_SUSPEND_FEAT_PSTATE_FORMAT_ORIGINAL
  else Z.land (Z.shiftr features CPU_SUSPEND_FEAT_PSTATE_FORMAT_SHIFT) 1.

Definition tftf_detect_psci_pstate_format (features suspend core : Z) : M pstate_state unit :=
  let format := tftf_psci_get_pstate_format features in
  modify (λ s, set_format s (pstate_format_detected s) format (is_state_id_null s));;
  if format =? CPU_SUSPEND_FEAT_PSTATE_FORMAT_EXTENDED then
    modify (λ s, set_format s 1 (pstate_format s) (is_state_id_null s))
  else
    pstate_emit EnableSgi;;
    pstate_emit DisableIrq;;
    pstate_emit (SendSgi core);;
    pstate_emit (CpuSuspend (Z.lor (u32 (Z.shiftl PSTATE_AFF_LVL_0 PSTATE_AFF_LVL_SHIFT))
                                (u32 (Z.shiftl PSTATE_TYPE_STANDBY PSTATE_TYPE_SHIFT))));;
    pstate_emit EnableIrq;;
    pstate_emit DisableSgi;;
    (if suspend =? PSTATE_E_SUCCESS
     then modify (λ s, set_format s (pstate_format_detected s) (pstate_format s) 1)
     else mret tt);;
    modify (λ s, set_format s 1 (pstate_format s) (is_state_id_null s)).

Definition tftf_make_psci_pstate (affinity_level state_type state_id : Z) : M pstate_state Z :=
  s ← get;
  assert_ (psci_state_type_valid state_type);;
  assert_ (negb (pstate_format_detected s =? 0));;
  if pstate_format s =? CPU_SUSPEND_FEAT_PSTATE_FORMAT_EXTENDED then
    assert_ (psci_state_id_ext_valid state_id);;
    mret (Z.lor (u32 (Z.shiftl state_type PSTATE_TYPE_SHIFT_EXT))
                (u32 (Z.shiftl state_id PSTATE_ID_SHIFT_EXT)))
  else
    assert_ (psci_affinity_level_valid affinity_level);;
    assert_ (psci_state_id_valid state_id);;
    let power_state := Z.lor (u32 (Z.shiftl affinity_level PSTATE_AFF_LVL_SHIFT))
                             (u32 (Z.shiftl state_type PSTATE_TYPE_SHIFT)) in
    mret (if is_state_id_null s =? 0
          then Z.lor power_state (u32 (Z.shiftl state_id PSTATE_ID_SHIFT))
          else power_state).

Definition tftf_is_psci_state_id_null : M pstate_state Z :=
  s ← get;
  assert_ (negb (pstate_format_detected s =? 0));;
  mret (if pstate_format s =? CPU_SUSPEND_FEAT_PSTATE_FORMAT_ORIGINAL
        then is_state_id_null s else 0).

Definition tftf_is_psci_pstate_format_original : M pstate_state bool :=
  s ← get;
  assert_ (negb (pstate_format_detected s =? 0));;
  mret (pstate_format s =? CPU_SUSPEND_FEAT_PSTATE_FORMAT_ORIGINAL).

(** ** The composite states (plat/common/plat_state_id.c) *)

Section PState_ops.

Context (PLAT_MAX_PWR_LEVEL PLAT_LOCAL_PSTATE_WIDTH : Z).
(** [plat_get_state_prop()]: NULL, or the states of a level, up to and with
    the entry whose [state_ID] is 0 *)
Context (plat_get_state_prop : Z → option (list plat_state_prop_t)).

(** [for (j = 0; (plat_state_ptr[i]+j)->state_ID != 0; j++)] *)
Fixpoint count_states (l : list plat_state_prop_t) (j : Z) : M pstate_state Z :=
  match l with
  | [] => fail OutOfBounds
  | p :: l' => if state_ID p =? 0 then mret j else count_states l' (j + 1)
  end.

Fixpoint init_levels (n : nat) (i : Z) : M pstate_state unit :=
  match n with
  | O => mret tt
  | S n' =>
      match plat_get_state_prop i with
      | None => fail AssertFail
      | Some l =>
          s ← get;
          p ← aset (plat_state_ptr s) i l;
          j ← count_states l 0;
          c ← aset (power_states_per_level s) i j;
          put (set_levels s p c);;
          init_levels n' (i + 1)
      end
  end.

Definition tftf_init_pstate_framework (features suspend core : Z) : M pstate_state unit :=
  s ← get;
  if negb (pstate_initialized s =? 0) then mret tt
  else
    tftf_detect_psci_pstate_format features suspend core;;
    init_levels (Z.to_nat (PLAT_MAX_PWR_LEVEL + 1)) 0;;
    modify set_initialized.

(** [psci_make_local_state_id()] *)
Definition psci_make_local_state_id (level local_state : Z) : Z :=
  u32 (Z.shiftl (Z.land local_state (Z.shiftl 1 PLAT_LOCAL_PSTATE_WIDTH - 1))
         (PLAT_LOCAL_PSTATE_WIDTH * level)).

(** [while (state_prop->state_ID)]: the ID of the first state of the type *)
Fixpoint find_state (l : list plat_state_prop_t) (state_type : Z) : M pstate_state (option Z) :=
  match l with
  | [] => fail OutOfBounds
  | p :: l' =>
      if state_ID p =? 0 then mret None
      else if state_type =? is_pwrdown p then mret (Some (state_ID p))
      else find_state l' state_type
  end.

(** The loop over the levels, [n] levels from [i] on *)
Fixpoint composite_loop (n : nat) (i state_type ret state_id : Z) : M pstate_state (Z * Z) :=
  match n with
  | O => mret (ret, state_id)
  | S n' =>
      found ← (match plat_get_state_prop i with
               | None => mret None
               | Some l => find_state l state_type
               end);
      match found with
      | Some id =>
          composite_loop n' (i + 1) state_type ret
            (Z.lor state_id (psci_make_local_state_id i id))
      | None =>
          composite_loop n' (i + 1) state_type PSCI_E_INVALID_PARAMS
            (Z.lor state_id (psci_make_local_state_id i PLAT_PSCI_DUMMY_STATE_ID))
      end
  end.

(** The result and [*state_id] *)
Definition tftf_psci_make_composite_state_id (affinity_level state_type : Z)
    : M pstate_state (Z * Z) :=
  r ← composite_loop (Z.to_nat (affinity_level + 1)) 0 state_type PSTATE_E_SUCCESS 0;
  mret (r.1, Z.lor r.2 (psci_make_local_state_id (PLAT_MAX_PWR_LEVEL + 1) affinity_level)).

(** The inner loop of the check: [n] levels from [i] on must be without a
    state. *)
Fixpoint check_above (n : nat) (i : Z) (idx : list Z) : M pstate_state unit :=
  match n with
  | O => mret tt
  | S n' =>
      v ← aget idx i;
      assert_ (v =? PWR_STATE_INIT_INDEX);;
      check_above n' (i + 1) idx
  end.

(** The outer loop: [n] levels from [i] on lie below the top level. *)
Fixpoint check_idx (n : nat) (i : Z) (idx : list Z) : M pstate_state unit :=
  match n with
  | O => mret tt
  | S n' =>
      v ← aget idx i;
      if v =? PWR_STATE_INIT_INDEX then check_above (S n) i idx
      else check_idx n' (i + 1) idx
  end.

(** The loop that increments, [n] levels from [i] on: [true] when every level
    has wrapped around *)
Fixpoint inc_loop (n : nat) (i : Z) (idx : list Z) : M pstate_state (list Z * bool) :=
  match n with
  | O => mret (idx, true)
  | S n' =>
      v ← aget idx i;
      s ← get;
      k ← aget (power_states_per_level s) i;
      if u32 (v + 1) =? k then
        idx ← aset idx i 0;
        inc_loop n' (i + 1) idx
      else
        idx ← aset idx i (u32 (v + 1));
        mret (idx, false)
  end.

Fixpoint reset_loop (n : nat) (i : Z) (idx : list Z) : M pstate_state (list Z) :=
  match n with
  | O => mret idx
  | S n' => idx ← aset idx i PWR_STATE_INIT_INDEX; reset_loop n' (i + 1) idx
  end.

(** The caller's array is passed in and out. *)
Definition tftf_set_next_state_id_idx (power_level : Z) (pstate_id_idx : list Z)
    : M pstate_state (list Z) :=
  assert_ (power_level <=? PLAT_MAX_PWR_LEVEL);;
  let n := Z.to_nat (power_level + 1) in
  check_idx (Z.to_nat power_level) 0 pstate_id_idx;;
  r ← inc_loop n 0 pstate_id_idx;
  if (r.2 : bool) then reset_loop n 0 r.1 else mret r.1.

Fixpoint deepest_loop (n : nat) (i : Z) (idx : list Z) : M pstate_state (list Z) :=
  match n with
  | O => mret idx
  | S n' =>
      s ← get;
      k ← aget (power_states_per_level s) i;
      idx ← aset idx i (u32 (k - 1));
      deepest_loop n' (i + 1) idx
  end.

Definition tftf_set_deepest_pstate_idx (power_level : Z) (pstate_id_idx : list Z)
    : M pstate_state (list Z) :=
  assert_ (power_level <=? PLAT_MAX_PWR_LEVEL);;
  deepest_loop (Z.to_nat (power_level + 1)) 0 pstate_id_idx.

Definition tftf_set_next_local_state_id_idx (power_level : Z) (pstate_id_idx : list Z)
    : M pstate_state (list Z) :=
  assert_ (power_level <=? PLAT_MAX_PWR_LEVEL);;
  v ← aget pstate_id_idx power_level;
  s ← get;
  k ← aget (power_states_per_level s) power_level;
  if k <=? u32 (v + 1) then aset pstate_id_idx power_level PWR_STATE_INIT_INDEX
  else aset pstate_id_idx power_level (u32 (v + 1)).

(** The local state a level is in *)
Definition local_state (i idx : Z) : M pstate_state plat_state_prop_t :=
  s ← get;
  l ← aget (plat_state_ptr s) i;
  aget l idx.

(** The variables of the loop of [tftf_get_pstate_vars()] *)
Record pstate_vars := { state_id : Z; suspend_type : Z; depth : Z; psci_ret : Z; level : Z }.

Fixpoint vars_loop (n : nat) (i : Z) (idx : list Z) (v : pstate_vars)
    : M pstate_state pstate_vars :=
  match n with
  | O => mret {| state_id := state_id v; suspend_type := suspend_type v; depth := depth v;
                 psci_ret := psci_ret v; level := i |}
  | S n' =>
      k ← aget idx i;
      if k =? PWR_STATE_INIT_INDEX then
        mret {| state_id := state_id v; suspend_type := suspend_type v; depth := depth v;
                psci_ret := psci_ret v; level := i |}
      else
        s ← get;
        m ← aget (power_states_per_level s) i;
        assert_ (k <=? m);;
        p ← local_state i k;
        vars_loop n' (i + 1) idx
          {| state_id := Z.lor (state_id v)
                           (u32 (Z.shiftl (state_ID p) (i * PLAT_LOCAL_PSTATE_WIDTH)));
             suspend_type := if suspend_type v <? is_pwrdown p then is_pwrdown p
                             else suspend_type v;
             depth := if depth v <? suspend_depth p then depth v else suspend_depth p;
             psci_ret := if depth v <? suspend_depth p then PSCI_E_INVALID_PARAMS
                         else psci_ret v;
             level := i |}
  end.

(** The power level, the suspend type, the state ID and the result *)
Definition tftf_get_pstate_vars (pstate_id_idx : list Z) : M pstate_state (Z * Z * Z * Z) :=
  k ← aget pstate_id_idx 0;
  s ← get;
  m ← aget (power_states_per_level s) 0;
  assert_ (negb (k =? PWR_STATE_INIT_INDEX) && (k <=? m));;
  p ← local_state 0 k;
  v ← vars_loop (Z.to_nat (PLAT_MAX_PWR_LEVEL + 1)) 0 pstate_id_idx
        {| state_id := 0; suspend_type := is_pwrdown p; depth := suspend_depth p;
           psci_ret := PSTATE_E_SUCCESS; level := 0 |};
  mret (level v - 1, suspend_type v, state_id v, psci_ret v).

(** [n] successive calls *)
Fixpoint next_times (n : nat) (power_level : Z) (idx : list Z) : M pstate_state (list Z) :=
  match n with
  | O => mret idx
  | S n' => idx ← next_times n' power_level idx; tftf_set_next_state_id_idx power_level idx
  end.
End PState_ops.

(** ** The combinations as numbers

    A level without a state is the digit 0, its [k]-th state the digit
    [k + 1]; level [i] has the weight of all combinations below it. *)

Definition digit (v : Z) : Z := if v =? PWR_STATE_INIT_INDEX then 0 else v + 1.

Fixpoint rank (ns ds : list Z) : Z :=
  match ns, ds with
  | n :: ns', d :: ds' => digit d + n * rank ns' ds'
  | _, _ => 0
  end.

(** The number of combinations: those of the first level alone, of the first
    two, and so on *)
Fixpoint combinations (ns : list Z) : Z :=
  match ns with
  | [] => 0
  | n :: ns' => n + n * combinations ns'
  end.

(** The levels with a state come first. *)
Fixpoint valid_idx (ns ds : list Z) : Prop :=
  match ns, ds with
  | [], [] => True
  | n :: ns', d :: ds' =>
      valid_idx ns' ds'
      ∧ (0 <= d < n ∨ (d = PWR_STATE_INIT_INDEX ∧ Forall (λ x, x = PWR_STATE_INIT_INDEX) ds'))
  | _, _ => False
  end.

Definition levels_ok (ns : list Z) : Prop := Forall (λ n, 1 <= n < UINT32_MAX) ns.

(** The increment on the levels *)
Fixpoint bump (ns ds : list Z) : list Z * bool :=
  match ns, ds with
  | n :: ns', d :: ds' =>
      if u32 (d + 1) =? n then let '(r, w) := bump ns' ds' in (0 :: r, w)
      else (u32 (d + 1) :: ds', false)
  | _, _ => (ds, true)
  end.

Lemma rank_none (ns ds : list Z) : Forall (λ x, x = PWR_STATE_INIT_INDEX) ds → rank ns ds = 0.
Proof.
  intros Hd. revert ns. induction Hd as [|d ds -> _ IH]; intros [|n ns]; try done.
  cbn. rewrite IH. lia.
Qed.

Lemma u32_init : u32 (PWR_STATE_INIT_INDEX + 1) = 0.
Proof. reflexivity. Qed.

Lemma valid_none (ns : list Z) : levels_ok ns → valid_idx ns (replicate (length ns) PWR_STATE_INIT_INDEX).
Proof.
  induction 1 as [|n ns Hn _ IH]; cbn; [done|]. split; [done|]. right. split; [done|].
  by apply Forall_replicate.
Qed.

Lemma bump_spec (ns ds : list Z) :
  levels_ok ns → valid_idx ns ds →
  let '(r, w) := bump ns ds in
  length r = length ds ∧
  if w then rank ns ds = combinations ns
  else valid_idx ns r ∧ rank ns r = rank ns ds + 1.
Proof.
  intros Hok. revert ds. induction Hok as [|n ns Hn Hok IH]; intros [|d ds] Hv; try done.
  destruct Hv as [Hv Hd]. specialize (IH ds Hv). cbn [bump].
  destruct Hd as [Hd|[-> Hd]].
  - rewrite u32_small by (unfold UINT32_MAX in *; lia).
    assert (digit d = d + 1) as Hdig.
    { unfold digit. by rewrite (proj2 (Z.eqb_neq _ _)) by (unfold PWR_STATE_INIT_INDEX; lia). }
    destruct (Z.eqb_spec (d + 1) n) as [Hn1|Hn1].
    + destruct (bump ns ds) as [r w]. destruct IH as [Hl IH]. split; [cbn; by f_equal|].
      destruct w; cbn [rank combinations valid_idx]; rewrite ?Hdig.
      * rewrite IH. lia.
      * destruct IH as [Hv' Hr]. split; [split; [done|left; lia]|].
        change (digit 0) with 1. rewrite Hr. lia.
    + split; [done|]. cbn [rank valid_idx]. split; [split; [done|left; lia]|].
      rewrite Hdig. unfold digit.
      rewrite (proj2 (Z.eqb_neq _ _)) by (unfold PWR_STATE_INIT_INDEX; lia). lia.
  - rewrite u32_init, (proj2 (Z.eqb_neq _ _)) by lia. split; [done|].
    cbn [rank valid_idx]. rewrite (rank_none ns ds Hd).
    split; [split; [done|left; lia]|]. change (digit 0) with 1.
    change (digit PWR_STATE_INIT_INDEX) with 0. lia.
Qed.

Lemma rank_bounds (ns ds : list Z) :
  levels_ok ns → valid_idx ns ds → 0 <= rank ns ds <= combinations ns.
Proof.
  intros Hok. revert ds. induction Hok as [|n ns Hn Hok IH]; intros [|d ds] Hv; cbn; try done.
  destruct Hv as [Hv Hd]. specialize (IH ds Hv).
  assert (0 <= digit d <= n).
  { unfold digit. case_Z; [lia|]. destruct Hd as [?|[? _]]; [lia|done]. }
  nia.
Qed.

(** A combination is known by its number. *)
Lemma rank_inj (ns ds ds' : list Z) :
  levels_ok ns → valid_idx ns ds → valid_idx ns ds' → rank ns ds = rank ns ds' → ds = ds'.
Proof.
  intros Hok. revert ds ds'.
  induction Hok as [|n ns Hn Hok IH]; intros [|d ds] [|d' ds'] Hv Hv' He; try done.
  destruct Hv as [Hv Hd], Hv' as [Hv' Hd']. cbn [rank] in He.
  pose proof (rank_bounds ns ds Hok Hv). pose proof (rank_bounds ns ds' Hok Hv').
  assert (∀ x l, valid_idx ns l → 0 <= x < n ∨ (x = PWR_STATE_INIT_INDEX
            ∧ Forall (λ x, x = PWR_STATE_INIT_INDEX) l) →
          (1 <= digit x <= n ∧ x = digit x - 1 ∧ x ≠ PWR_STATE_INIT_INDEX)
          ∨ (digit x = 0 ∧ rank ns l = 0 ∧ x = PWR_STATE_INIT_INDEX)) as Hcase.
  { intros x l Hl [Hx|[-> Hx]].
    - left. unfold digit, PWR_STATE_INIT_INDEX in *.
      rewrite (proj2 (Z.eqb_neq _ _)) by lia. lia.
    - right. split_and!; [done|by apply rank_none|done]. }
  destruct (Hcase d ds Hv Hd) as [(A1 & A2 & A3)|(A1 & A2 & A3)],
    (Hcase d' ds' Hv' Hd') as [(B1 & B2 & B3)|(B1 & B2 & B3)].
  - assert (rank ns ds = rank ns ds') as Hr by nia.
    f_equal; [nia|by apply IH].
  - nia.
  - nia.
  - f_equal; [congruence|]. apply IH; [done|done|congruence].
Qed.

(** ** The loops on the caller's array

    [pre] is what lies before the levels a loop walks, [rest] what lies
    after them. *)

Lemma aget_seg {S A} (pre rest : list A) (x : A) (s : S) :
  aget (pre ++ x :: rest) (zlen pre) s = Ok (x, s).
Proof. apply aget_Ok, zget_mid. Qed.

Lemma aset_seg {S A} (pre rest : list A) (x y : A) (s : S) :
  aset (pre ++ x :: rest) (zlen pre) y s = Ok (pre ++ y :: rest, s).
Proof.
  rewrite aset_Ok, zset_mid; [done|]. rewrite zlen_app, zlen_cons.
  pose proof (zlen_nonneg pre). pose proof (zlen_nonneg rest). lia.
Qed.

(** Moving one level on *)
Lemma seg_next {A} (pre rest : list A) (x : A) :
  pre ++ x :: rest = (pre ++ [x]) ++ rest.
Proof. by rewrite <- app_assoc. Qed.

Lemma zlen_snoc {A} (pre : list A) (x : A) : zlen pre + 1 = zlen (pre ++ [x]).
Proof. rewrite zlen_app. done. Qed.

Lemma check_above_ok (ds pre rest : list Z) (s : pstate_state) :
  Forall (λ x, x = PWR_STATE_INIT_INDEX) ds →
  check_above (length ds) (zlen pre) (pre ++ ds ++ rest) s = Ok (tt, s).
Proof.
  intros Hd. revert pre. induction Hd as [|d ds -> _ IH]; intros pre; [done|].
  cbn [length check_above app]. erewrite bind_Ok; [|apply aget_seg].
  erewrite bind_Ok; [|reflexivity].
  by rewrite (seg_next pre), (zlen_snoc pre PWR_STATE_INIT_INDEX), IH.
Qed.

Lemma check_idx_ok (n : nat) (ns ds pre rest : list Z) (s : pstate_state) :
  levels_ok ns → valid_idx ns ds → length ds = S n →
  check_idx n (zlen pre) (pre ++ ds ++ rest) s = Ok (tt, s).
Proof.
  revert ns ds pre. induction n as [|n IH]; intros ns ds pre Hok Hv Hl; [done|].
  destruct ds as [|d ds], ns as [|m ns]; try done. destruct Hv as [Hv Hd].
  apply Forall_cons in Hok as [Hm Hok].
  cbn [check_idx app]. erewrite bind_Ok; [|apply aget_seg].
  destruct (Z.eqb_spec d PWR_STATE_INIT_INDEX) as [->|Hne].
  - rewrite <- Hl. apply (check_above_ok (PWR_STATE_INIT_INDEX :: ds)).
    destruct Hd as [Hd|[_ Hd]]; [|by constructor].
    unfold PWR_STATE_INIT_INDEX in Hd. lia.
  - rewrite (seg_next pre), (zlen_snoc pre d). apply (IH ns); [done|done|]. cbn in Hl. lia.
Qed.

Lemma inc_loop_bump (ds ns pre npre rest nrest : list Z) (s : pstate_state) :
  power_states_per_level s = npre ++ ns ++ nrest →
  length ns = length ds → length npre = length pre →
  inc_loop (length ds) (zlen pre) (pre ++ ds ++ rest) s
  = Ok ((pre ++ (bump ns ds).1 ++ rest, (bump ns ds).2), s).
Proof.
  revert ns pre npre.
  induction ds as [|d ds IH]; intros [|n ns] pre npre Hp Hl Hn; try done.
  cbn [length inc_loop app bump]. erewrite bind_Ok; [|apply aget_seg].
  erewrite bind_Ok; [|reflexivity]. rewrite Hp.
  assert (zlen pre = zlen npre) as Hz by (unfold zlen; lia).
  erewrite bind_Ok; [|rewrite Hz; apply aget_seg].
  destruct (u32 (d + 1) =? n).
  - erewrite bind_Ok; [|apply aset_seg].
    rewrite (seg_next pre), (zlen_snoc pre 0), (IH ns (pre ++ [0]) (npre ++ [n])).
    + destruct (bump ns ds) as [r w]. cbn. by rewrite <- app_assoc.
    + rewrite Hp. by rewrite <- app_assoc.
    + cbn in Hl. lia.
    + rewrite !length_app. cbn. lia.
  - by erewrite bind_Ok; [|apply aset_seg].
Qed.

Lemma reset_loop_ok (ds pre rest : list Z) (s : pstate_state) :
  reset_loop (length ds) (zlen pre) (pre ++ ds ++ rest) s
  = Ok (pre ++ replicate (length ds) PWR_STATE_INIT_INDEX ++ rest, s).
Proof.
  revert pre. induction ds as [|d ds IH]; intros pre; [done|].
  cbn [length reset_loop app replicate]. erewrite bind_Ok; [|apply aset_seg].
  rewrite (seg_next pre), (zlen_snoc pre PWR_STATE_INIT_INDEX), IH. by rewrite <- app_assoc.
Qed.

(** One call moves to the next number, and from the last one to none. *)
Lemma next_step (max lvl : Z) (ns nrest c rest : list Z) (s : pstate_state) :
  levels_ok ns → power_states_per_level s = ns ++ nrest → zlen ns = lvl + 1 → 0 <= lvl <= max →
  valid_idx ns c → length c = length ns →
  ∃ c', tftf_set_next_state_id_idx max lvl (c ++ rest) s = Ok (c' ++ rest, s)
    ∧ valid_idx ns c' ∧ length c' = length ns
    ∧ rank ns c' = if rank ns c =? combinations ns then 0 else rank ns c + 1.
Proof.
  intros Hok Hp Hz Hlvl Hv Hlen. unfold tftf_set_next_state_id_idx, zlen in *.
  rewrite (proj2 (Z.leb_le _ _)) by lia. erewrite bind_Ok; [|reflexivity]. cbv zeta.
  replace (Z.to_nat (lvl + 1)) with (length c) by lia.
  erewrite bind_Ok; [|apply (check_idx_ok _ ns c [] rest); [done|done|lia]].
  erewrite bind_Ok; [|by apply (inc_loop_bump c ns [] [] rest nrest)].
  pose proof (bump_spec ns c Hok Hv) as Hb. destruct (bump ns c) as [r w]. cbn [fst snd app].
  destruct Hb as [Hl Hb]. destruct w.
  - rewrite <- Hl. rewrite (reset_loop_ok r [] rest). eexists. split; [reflexivity|].
    rewrite Hl, Hlen. split_and!; [by apply valid_none|apply length_replicate|].
    rewrite (proj2 (Z.eqb_eq _ _) Hb). by apply rank_none, Forall_replicate.
  - destruct Hb as [Hv' Hr]. exists r. split_and!; [done|done|lia|].
    pose proof (rank_bounds ns r Hok Hv'). rewrite (proj2 (Z.eqb_neq _ _)) by lia. done.
Qed.

Lemma valid_length (ns ds : list Z) : valid_idx ns ds → length ds = length ns.
Proof.
  revert ds. induction ns as [|n ns IH]; intros [|d ds] Hv; try done.
  destruct Hv as [Hv _]. cbn. by rewrite (IH ds).
Qed.

(** Only the combination number 0 has no state at level 0. *)
Lemma rank_head (ns ds : list Z) :
  levels_ok ns → valid_idx ns ds → ns ≠ [] →
  (ds !! 0%nat = Some PWR_STATE_INIT_INDEX ↔ rank ns ds = 0).
Proof.
  intros Hok Hv Hne. destruct Hok as [|n ns Hn Hok]; [done|]. destruct ds as [|d ds]; [done|].
  destruct Hv as [Hv Hd]. cbn [rank]. pose proof (rank_bounds ns ds Hok Hv).
  split; intros H1.
  - cbn in H1. simplify_eq. destruct Hd as [Hd|[_ Hd]].
    + unfold PWR_STATE_INIT_INDEX in Hd. lia.
    + rewrite (rank_none ns ds Hd). change (digit PWR_STATE_INIT_INDEX) with 0. lia.
  - unfold digit in H1. case_Z; [cbn; congruence|]. destruct Hd as [?|[? _]]; [nia|done].
Qed.

Section enumeration.
Context (max lvl : Z) (ns nrest rest : list Z) (s : pstate_state).
Context (Hok : levels_ok ns) (Hp : power_states_per_level s = ns ++ nrest).
Context (Hz : zlen ns = lvl + 1) (Hlvl : 0 <= lvl <= max).
Let start := replicate (length ns) PWR_STATE_INIT_INDEX ++ rest.

Lemma next_times_rank (m : nat) :
  Z.of_nat m <= combinations ns →
  ∃ c, next_times max m lvl start s = Ok (c ++ rest, s) ∧ valid_idx ns c
    ∧ rank ns c = Z.of_nat m.
Proof.
  induction m as [|m IH]; intros Hm.
  - exists (replicate (length ns) PWR_STATE_INIT_INDEX).
    split_and!; [done|by apply valid_none|by apply rank_none, Forall_replicate].
  - destruct IH as (c & Hc & Hv & Hr); [lia|]. cbn [next_times].
    erewrite bind_Ok; [|exact Hc].
    destruct (next_step max lvl ns nrest c rest s) as (c' & Hc' & Hv' & _ & Hr');
      [done|done|done|done|done|by apply valid_length|].
    exists c'. split_and!; [done|done|]. rewrite Hr', (proj2 (Z.eqb_neq _ _)) by lia. lia.
Qed.

Lemma next_times_reaches (c : list Z) :
  valid_idx ns c → next_times max (Z.to_nat (rank ns c)) lvl start s = Ok (c ++ rest, s).
Proof.
  intros Hv. pose proof (rank_bounds ns c Hok Hv).
  destruct (next_times_rank (Z.to_nat (rank ns c))) as (c' & Hc' & Hv' & Hr); [lia|].
  rewrite Hc'. by rewrite (rank_inj ns c' c Hok Hv' Hv) by lia.
Qed.

Lemma next_times_wraps :
  next_times max (S (Z.to_nat (combinations ns))) lvl start s = Ok (start, s).
Proof.
  pose proof (rank_bounds ns _ Hok (valid_none ns Hok)).
  destruct (next_times_rank (Z.to_nat (combinations ns))) as (c & Hc & Hv & Hr); [lia|].
  cbn [next_times]. erewrite bind_Ok; [|exact Hc].
  destruct (next_step max lvl ns nrest c rest s) as (c' & Hc' & Hv' & _ & Hr');
    [done|done|done|done|done|by apply valid_length|].
  rewrite Hc'. rewrite (proj2 (Z.eqb_eq _ _)) in Hr' by lia.
  unfold start. rewrite (rank_inj ns c' (replicate (length ns) PWR_STATE_INIT_INDEX)); [done|done|done| |].
  - by apply valid_none.
  - rewrite Hr'. symmetry. by apply rank_none, Forall_replicate.
Qed.
End enumeration.

(** Starting from an array without states, successive calls of
    [tftf_set_next_state_id_idx()] run through the combinations of local
    states up to the given power level in the order of their numbers: no
    assertion fails, each combination (a state for every level from 0 to some
    level, none above) comes exactly once, at the call of its number, the
    levels above and the static variables stay as they are, level 0 is without a
    state only when all of them have come, which is after
    [n0 + n0 n1 + n0 n1 n2 + ...] calls, and the next call starts again. *)
Theorem next_state_enumerates (max lvl : Z) (ns nrest rest : list Z) (s : pstate_state) :
  levels_ok ns → power_states_per_level s = ns ++ nrest → zlen ns = lvl + 1 → 0 <= lvl <= max →
  let start := replicate (length ns) PWR_STATE_INIT_INDEX ++ rest in
  (∀ m, Z.of_nat m <= combinations ns →
     ∃ c, next_times max m lvl start s = Ok (c ++ rest, s) ∧ valid_idx ns c
       ∧ rank ns c = Z.of_nat m
       ∧ (c !! 0%nat = Some PWR_STATE_INIT_INDEX ↔ m = 0%nat))
  ∧ (∀ c, valid_idx ns c →
       next_times max (Z.to_nat (rank ns c)) lvl start s = Ok (c ++ rest, s))
  ∧ next_times max (S (Z.to_nat (combinations ns))) lvl start s = Ok (start, s).
Proof.
  intros Hok Hp Hz Hlvl start.
  split_and!; [|by apply (next_times_reaches _ _ _ nrest)|by apply (next_times_wraps _ _ _ nrest)].
  intros m Hm. destruct (next_times_rank max lvl ns nrest rest s Hok Hp Hz Hlvl m Hm)
    as (c & Hc & Hv & Hr).
  exists c. split_and!; [done|done|done|]. rewrite (rank_head ns c), Hr; [lia|done|done|].
  intros ->. unfold zlen in Hz. cbn in Hz. lia.
Qed.

Definition demo_pstate : pstate_state :=
  {| pstate_initialized := 1; plat_state_ptr := []; power_states_per_level := [2; 3; 1];
     pstate_format_detected := 1; pstate_format := 1; is_state_id_null := 0;
     pstate_log := [] |}.

(** Two levels of three, with two and three states: eight combinations, the
    last of them the deepest. *)
Lemma next_state_enumerates_witness :
  combinations [2; 3] = 8
  ∧ next_times 2 8 1 [PWR_STATE_INIT_INDEX; PWR_STATE_INIT_INDEX; 7] demo_pstate
    = Ok ([1; 2; 7], demo_pstate)
  ∧ next_times 2 9 1 [PWR_STATE_INIT_INDEX; PWR_STATE_INIT_INDEX; 7] demo_pstate
    = Ok ([PWR_STATE_INIT_INDEX; PWR_STATE_INIT_INDEX; 7], demo_pstate).
Proof.
  destruct (next_state_enumerates 2 1 [2; 3] [1] [7] demo_pstate) as (_ & Hr & Hw);
    [repeat constructor; lia|reflexivity|reflexivity|lia|].
  split_and!; [reflexivity| |exact Hw].
  apply (Hr [1; 2]). cbn. split_and!; [done|left; lia|left; lia].
Defined.

(** ** The power state parameter *)

Lemma mask_valid (x k : Z) :
  0 <= k → (Z.land x (Z.lnot (2 ^ k - 1)) =? 0) = (0 <=? x) && (x <? 2 ^ k).
Proof.
  intros Hk. rewrite <- Z.ldiff_land, ldiff_mask by done.
  pose proof (pow2_pos k Hk). pose proof (Z.mod_pos_bound x (2 ^ k)).
  destruct (Z.leb_spec 0 x), (Z.ltb_spec x (2 ^ k)); cbn [andb].
  - rewrite Z.mod_small by lia. apply Z.eqb_eq. lia.
  - apply Z.eqb_neq. lia.
  - apply Z.eqb_neq. lia.
  - lia.
Qed.

(** The parameter the PSCI specification asks for: [None] where a field does
    not fit *)
Definition power_state_spec (ext null : bool) (lvl type id : Z) : option Z :=
  if negb (type <? 2) then None
  else if ext then if id <? 2 ^ 28 then Some (type * 2 ^ 30 + id) else None
  else if (lvl <? 4) && (id <? 2 ^ 16)
  then Some (lvl * 2 ^ 24 + type * 2 ^ 16 + if null then 0 else id) else None.

(** The firmware reports the extended format. *)
Definition reports_extended (features : Z) : bool := (features =? 2) || (features =? 3).

Lemma format_extended (features : Z) :
  tftf_psci_get_pstate_format features = if reports_extended features then 1 else 0.
Proof.
  unfold tftf_psci_get_pstate_format, reports_extended.
  change CPU_SUSPEND_FEAT_VALID_MASK with (2 ^ 2 - 1). rewrite mask_valid by lia.
  unfold PSCI_E_NOT_SUPPORTED. change (2 ^ 2) with 4.
  destruct (Z.eqb_spec features (-1)) as [->|]; [done|].
  destruct (Z.leb_spec 0 features), (Z.ltb_spec features 4); cbn [negb andb].
  - assert (features = 0 ∨ features = 1 ∨ features = 2 ∨ features = 3) as [->|[->|[->| ->]]]
      by lia; done.
  - by rewrite !(proj2 (Z.eqb_neq _ _)) by lia.
  - by rewrite !(proj2 (Z.eqb_neq _ _)) by lia.
  - lia.
Qed.

Definition detect_events (core : Z) : list pstate_ev :=
  [DisableSgi; EnableIrq; CpuSuspend 0; SendSgi core; DisableIrq; EnableSgi].

Lemma detect_format (features suspend core : Z) (s : pstate_state) :
  is_state_id_null s = 0 →
  ∃ s', tftf_detect_psci_pstate_format features suspend core s = Ok (tt, s')
    ∧ pstate_format_detected s' = 1
    ∧ pstate_format s' = (if reports_extended features then 1 else 0)
    ∧ (reports_extended features = false →
       is_state_id_null s' = if suspend =? 0 then 1 else 0)
    ∧ pstate_log s' = (if reports_extended features then [] else detect_events core)
        ++ pstate_log s.
Proof.
  intros Hn. unfold tftf_detect_psci_pstate_format. rewrite format_extended.
  destruct (reports_extended features); [eexists; by split_and!|].
  replace (Z.lor (u32 (Z.shiftl PSTATE_AFF_LVL_0 PSTATE_AFF_LVL_SHIFT))
                 (u32 (Z.shiftl PSTATE_TYPE_STANDBY PSTATE_TYPE_SHIFT))) with 0
    by (vm_compute; reflexivity).
  destruct s as [a b c d e f g]. cbn in Hn. subst f.
  unfold mbind, M_bind, mret, M_ret, pstate_emit, modify, set_format. cbn.
  change PSTATE_E_SUCCESS with 0.
  destruct (suspend =? 0); eexists; (split; [reflexivity|by split_and!]).
Qed.

Lemma make_pstate_run (lvl type id : Z) (s : pstate_state) :
  0 <= lvl → 0 <= type → 0 <= id → pstate_format_detected s = 1 →
  tftf_make_psci_pstate lvl type id s
  = match power_state_spec (pstate_format s =? 1) (negb (is_state_id_null s =? 0)) lvl type id with
    | Some v => Ok (v, s)
    | None => Stop AssertFail
    end.
Proof.
  intros Hl Ht Hi Hd. unfold tftf_make_psci_pstate, power_state_spec,
    psci_state_type_valid, psci_state_id_ext_valid, psci_affinity_level_valid,
    psci_state_id_valid.
  change PSTATE_TYPE_MASK with (2 ^ 1 - 1). change PSTATE_ID_MASK_EXT with (2 ^ 28 - 1).
  change PSTATE_AFF_LVL_MASK with (2 ^ 2 - 1). change PSTATE_ID_MASK with (2 ^ 16 - 1).
  rewrite !mask_valid by lia. rewrite !(proj2 (Z.leb_le 0 _)) by done.
  erewrite bind_Ok; [|reflexivity]. rewrite Hd.
  change (2 ^ 1) with 2. change (2 ^ 2) with 4. cbn [andb].
  destruct (Z.ltb_spec type 2); [|reflexivity].
  erewrite bind_Ok; [|reflexivity]. erewrite bind_Ok; [|reflexivity]. cbn [negb].
  rewrite !Z.shiftl_mul_pow2 by done.
  change PSTATE_TYPE_SHIFT_EXT with 30. change PSTATE_ID_SHIFT_EXT with 0.
  change PSTATE_TYPE_SHIFT with 16. change PSTATE_ID_SHIFT with 0.
  change PSTATE_AFF_LVL_SHIFT with 24.
  change CPU_SUSPEND_FEAT_PSTATE_FORMAT_EXTENDED with 1.
  change (2 ^ 0) with 1. rewrite Z.mul_1_r.
  destruct (pstate_format s =? 1).
  - destruct (Z.ltb_spec id (2 ^ 28)); [|reflexivity].
    erewrite bind_Ok; [|reflexivity].
    rewrite !u32_small, lor_fields by (unfold UINT32_MAX; lia). reflexivity.
  - destruct (Z.ltb_spec lvl 4); [|reflexivity].
    erewrite bind_Ok; [|reflexivity]. cbn [andb].
    destruct (Z.ltb_spec id (2 ^ 16)); [|reflexivity].
    erewrite bind_Ok; [|reflexivity].
    rewrite !u32_small, lor_fields by (unfold UINT32_MAX; lia).
    destruct (is_state_id_null s =? 0); cbn [negb]; [|by rewrite Z.add_0_r].
    replace (lvl * 2 ^ 24 + type * 2 ^ 16) with ((lvl * 2 ^ 8 + type) * 2 ^ 16) by lia.
    by rewrite lor_fields by lia.
Qed.

(** Detecting the format of the power state parameter and building a
    parameter gives the parameter of the format the firmware asks for, on
    every answer of the firmware: extended (state type in bit 30, state ID
    below it) exactly when PSCI_FEATURES answers with bit 1 and no reserved
    bit set, otherwise original (level in bits 25:24, type in bit 16), without
    the state ID when the trial CPU_SUSPEND with a null ID succeeded.  A field
    that does not fit stops at an assertion.  The trial suspends with the
    interrupt masked and its SGI pending, and both are undone. *)
Theorem power_state_parameter (features suspend core lvl type id : Z) (s : pstate_state) :
  is_state_id_null s = 0 → 0 <= lvl → 0 <= type → 0 <= id →
  let ext := reports_extended features in
  match power_state_spec ext (suspend =? 0) lvl type id with
  | Some v =>
      ∃ s', (tftf_detect_psci_pstate_format features suspend core;;
             tftf_make_psci_pstate lvl type id) s = Ok (v, s')
        ∧ pstate_log s' = (if ext then [] else detect_events core) ++ pstate_log s
  | None =>
      (tftf_detect_psci_pstate_format features suspend core;;
       tftf_make_psci_pstate lvl type id) s = Stop AssertFail
  end.
Proof.
  intros Hn Hl Ht Hi ext.
  destruct (detect_format features suspend core s Hn) as (s' & Hrun & Hd & Hf & Hnull & Hlog).
  erewrite !bind_Ok; [|exact Hrun..]. rewrite make_pstate_run by done.
  assert (power_state_spec (pstate_format s' =? 1) (negb (is_state_id_null s' =? 0)) lvl type id
          = power_state_spec ext (suspend =? 0) lvl type id) as ->.
  { rewrite Hf. unfold ext. destruct (reports_extended features); [done|].
    rewrite Hnull by done. by destruct (suspend =? 0). }
  destruct (power_state_spec ext (suspend =? 0) lvl type id); [eauto|done].
Qed.

(** Original format with state IDs: level 1, power down, state ID 0x23. *)
Lemma power_state_parameter_witness :
  ∃ s', (tftf_detect_psci_pstate_format 0 (-2) 5;; tftf_make_psci_pstate 1 1 35) demo_pstate
        = Ok (16842787, s')
    ∧ pstate_log s' = detect_events 5 ++ [].
Proof.
  apply (power_state_parameter 0 (-2) 5 1 1 35 demo_pstate); [reflexivity|lia|lia|lia].
Defined.

(** ** Sleeping (tftf_timer_sleep() of timer_framework.c)

    The calling core programs the timer and suspends in a standby state of
    level 0.  The state is that of this file and that of the timer. *)

Section Sleep.

Context (PLAT_MAX_PWR_LEVEL PLAT_LOCAL_PSTATE_WIDTH : Z).
Context (plat_get_state_prop : Z → option (list plat_state_prop_t)).
Context (ncores : nat) (plat : plat_timer_t) (irq_shared : bool).
Context (tftf_cpu_suspend : Z → M timer_state Z).

Definition on_pstate {A} (m : M pstate_state A) : M (pstate_state * timer_state) A := λ s,
  match m s.1 with Ok (a, p) => Ok (a, (p, s.2)) | Stop w => Stop w end.
Definition on_timer {A} (m : M timer_state A) : M (pstate_state * timer_state) A := λ s,
  match m s.2 with Ok (a, t) => Ok (a, (s.1, t)) | Stop w => Stop w end.

Definition tftf_timer_sleep (e : cpu_env) (milli_secs : Z) : M (pstate_state * timer_state) Z :=
  r ← on_pstate (tftf_psci_make_composite_state_id PLAT_MAX_PWR_LEVEL PLAT_LOCAL_PSTATE_WIDTH
                   plat_get_state_prop PSTATE_AFF_LVL_0 PSTATE_TYPE_STANDBY);
  if negb (r.1 =? PSTATE_E_SUCCESS) then mret (-1)
  else
    power_state ← on_pstate (tftf_make_psci_pstate PSTATE_AFF_LVL_0 PSTATE_TYPE_STANDBY r.2);
    t ← on_timer (tftf_program_timer_and_suspend ncores plat irq_shared tftf_cpu_suspend
                    e milli_secs power_state);
    mret (if negb (t.1.1 =? 0) then -1 else 0).

(** On a platform whose level 0 has a standby state and whose firmware takes
    the original format, sleeping suspends with exactly the local ID of the
    first such state as parameter (or 0 with null IDs), and returns 0 when the
    timer was programmed and the suspension succeeded, -1 otherwise. *)
Lemma timer_sleep_run (e : cpu_env) (ms id rc trc src : Z) (l : list plat_state_prop_t)
    (p : pstate_state) (t t' : timer_state) :
  plat_get_state_prop 0 = Some l → find_state l PSTATE_TYPE_STANDBY p = Ok (Some id, p) →
  0 <= PLAT_MAX_PWR_LEVEL → 0 <= PLAT_LOCAL_PSTATE_WIDTH <= 16 →
  pstate_format_detected p = 1 → pstate_format p = 0 →
  let sid := if is_state_id_null p =? 0 then id mod 2 ^ PLAT_LOCAL_PSTATE_WIDTH else 0 in
  tftf_program_timer_and_suspend ncores plat irq_shared tftf_cpu_suspend e ms sid t
  = Ok ((rc, trc, src), t') →
  tftf_timer_sleep e ms (p, t) = Ok (if negb (rc =? 0) then -1 else 0, (p, t')).
Proof.
  intros Hl Hf Hmax Hw Hd Hfmt sid Ht. pose proof (pow2_pos PLAT_LOCAL_PSTATE_WIDTH (proj1 Hw)).
  pose proof (Z.mod_pos_bound id (2 ^ PLAT_LOCAL_PSTATE_WIDTH)).
  assert (2 ^ PLAT_LOCAL_PSTATE_WIDTH <= 2 ^ 16) by (apply Z.pow_le_mono_r; lia).
  assert (tftf_psci_make_composite_state_id PLAT_MAX_PWR_LEVEL PLAT_LOCAL_PSTATE_WIDTH
            plat_get_state_prop PSTATE_AFF_LVL_0 PSTATE_TYPE_STANDBY p
          = Ok ((0, id mod 2 ^ PLAT_LOCAL_PSTATE_WIDTH), p)) as E1.
  { unfold tftf_psci_make_composite_state_id, PSTATE_AFF_LVL_0.
    change (Z.to_nat (0 + 1)) with 1%nat. cbn [composite_loop].
    unfold mbind, M_bind. rewrite Hl, Hf. unfold mret, M_ret, psci_make_local_state_id.
    cbn [fst snd].
    rewrite Z.land_0_l, Z.shiftl_0_l, Z.mul_0_r, Z.shiftl_0_r, Z.shiftl_mul_pow2, Z.mul_1_l,
      land_mask, Z.lor_0_l by lia.
    rewrite (u32_small (id mod _)) by (unfold UINT32_MAX; lia).
    change (u32 0) with 0. by rewrite Z.lor_0_r. }
  assert (tftf_make_psci_pstate PSTATE_AFF_LVL_0 PSTATE_TYPE_STANDBY
            (id mod 2 ^ PLAT_LOCAL_PSTATE_WIDTH) p = Ok (sid, p)) as E2.
  { rewrite make_pstate_run by (done || lia). rewrite Hfmt. cbn. unfold power_state_spec.
    cbn. rewrite (proj2 (Z.ltb_lt _ _)) by lia. unfold sid. by destruct (is_state_id_null p =? 0). }
  unfold tftf_timer_sleep. erewrite bind_Ok; [|unfold on_pstate; cbn [fst]; rewrite E1; reflexivity].
  cbn [fst snd]. change (negb (0 =? PSTATE_E_SUCCESS)) with false. cbv iota.
  erewrite bind_Ok; [|unfold on_pstate; cbn [fst]; rewrite E2; reflexivity].
  erewrite bind_Ok; [|unfold on_timer; cbn [fst snd]; rewrite Ht; reflexivity].
  done.
Qed.
End Sleep.
