(* ===== verification/Xlat.v ===== *)
(** * Translation tables: data and operations (lib/xlat_tables_v2)

    xlat_tables_core.c, xlat_tables_utils.c and xlat_tables_context.c in the
    AArch64 build with PLAT_XLAT_TABLES_DYNAMIC = 1, 4 KB granule.  Tables are
    arrays of 64-bit descriptors; the address of sub-table [i] is
    [tables_addr + 4096 * i], and a pointer read from a descriptor is
    resolved by its address.  Addresses are 64 bits wide. *)

From S2P Require Import Prelude Bits.

Local Open Scope Z_scope.

(** ** Constants (xlat_tables_defs.h, xlat_tables_v2.h, xlat_tables_private.h) *)

Definition INVALID_DESC : Z := 0.
Definition BLOCK_DESC : Z := 1.
Definition TABLE_DESC : Z := 3.
Definition PAGE_DESC : Z := 3.
Definition DESC_MASK : Z := 3.

Definition PAGE_SIZE_SHIFT : Z := 12.
Definition PAGE_SIZE : Z := Z.shiftl 1 PAGE_SIZE_SHIFT.
Definition PAGE_SIZE_MASK : Z := PAGE_SIZE - 1.
Definition IS_PAGE_ALIGNED (addr : Z) : bool := Z.land addr PAGE_SIZE_MASK =? 0.
Definition XLAT_TABLE_SIZE : Z := 4096.
Definition XLAT_TABLE_LEVEL_MAX : Z := 3.
Definition XLAT_TABLE_ENTRIES_SHIFT : Z := 9.
Definition XLAT_TABLE_ENTRIES : Z := 512.
Definition MIN_LVL_BLOCK_DESC : Z := 1.

Definition XLAT_ADDR_SHIFT (level : Z) : Z :=
  PAGE_SIZE_SHIFT + (XLAT_TABLE_LEVEL_MAX - level) * XLAT_TABLE_ENTRIES_SHIFT.
Definition XLAT_BLOCK_SIZE (level : Z) : Z := Z.shiftl 1 (XLAT_ADDR_SHIFT level).
Definition XLAT_BLOCK_MASK (level : Z) : Z := XLAT_BLOCK_SIZE level - 1.
Definition XLAT_TABLE_IDX (virtual_addr level : Z) : Z :=
  Z.land (Z.shiftr virtual_addr (XLAT_ADDR_SHIFT level)) 0x1FF.
Definition REGION_DEFAULT_GRANULARITY : Z := XLAT_BLOCK_SIZE MIN_LVL_BLOCK_DESC.

Definition GET_XLAT_TABLE_LEVEL_BASE (sz : Z) : Z :=
  if Z.shiftl 1 (XLAT_ADDR_SHIFT 0) <? sz then 0
  else if Z.shiftl 1 (XLAT_ADDR_SHIFT 1) <? sz then 1
  else if Z.shiftl 1 (XLAT_ADDR_SHIFT 2) <? sz then 2 else 3.
Definition GET_NUM_BASE_LEVEL_ENTRIES (sz : Z) : Z :=
  Z.shiftr sz (XLAT_ADDR_SHIFT (GET_XLAT_TABLE_LEVEL_BASE sz)).

Definition TABLE_ADDR_MASK : Z := 0x0000FFFFFFFFF000.
Definition UPPER_ATTRS (x : Z) : Z := Z.shiftl (Z.land x 7) 52.
Definition LOWER_ATTRS (x : Z) : Z := Z.shiftl (Z.land x 0xfff) 2.
Definition XN : Z := Z.shiftl 1 2.
Definition UXN : Z := Z.shiftl 1 2.
Definition PXN : Z := Z.shiftl 1 1.
Definition GP : Z := Z.shiftl 1 50.
Definition ACCESS_FLAG : Z := Z.shiftl 1 8.
Definition OSH : Z := Z.shiftl 2 6.
Definition ISH : Z := Z.shiftl 3 6.
Definition AP2_RO : Z := 1.
Definition AP2_RW : Z := 0.
Definition AP1_ACCESS_UNPRIVILEGED : Z := 1.
Definition AP_RO : Z := Z.shiftl AP2_RO 5.
Definition AP_RW : Z := Z.shiftl AP2_RW 5.
Definition AP_ACCESS_UNPRIVILEGED : Z := Z.shiftl AP1_ACCESS_UNPRIVILEGED 4.
Definition AP_NO_ACCESS_UNPRIVILEGED : Z := Z.shiftl 0 4.
Definition AP_ONE_VA_RANGE_RES1 : Z := Z.shiftl 1 4.
Definition NS : Z := Z.shiftl 1 3.
Definition ATTR_NON_CACHEABLE_INDEX : Z := 2.
Definition ATTR_DEVICE_INDEX : Z := 1.
Definition ATTR_IWBWA_OWBWA_NTR_INDEX : Z := 0.
Definition ATTR_INDEX_MASK : Z := 3.
Definition ATTR_INDEX_SHIFT : Z := 2.
Definition NS_SHIFT : Z := 5.
Definition AP1_SHIFT : Z := 6.
Definition AP2_SHIFT : Z := 7.

Definition MT_TYPE_MASK : Z := 7.
Definition MT_TYPE (attr : Z) : Z := Z.land attr MT_TYPE_MASK.
Definition MT_DEVICE : Z := 0.
Definition MT_NON_CACHEABLE : Z := 1.
Definition MT_MEMORY : Z := 2.
Definition MT_RO : Z := Z.shiftl 0 3.
Definition MT_RW : Z := Z.shiftl 1 3.
Definition MT_NS : Z := Z.shiftl 1 4.
Definition MT_EXECUTE : Z := Z.shiftl 0 5.
Definition MT_EXECUTE_NEVER : Z := Z.shiftl 1 5.
Definition MT_USER : Z := Z.shiftl 1 6.
Definition MT_CODE : Z := Z.lor (Z.lor MT_MEMORY MT_RO) MT_EXECUTE.
Definition MT_DYNAMIC : Z := Z.shiftl 1 31.

Definition EL1_EL0_REGIME : Z := 1.
Definition EL2_REGIME : Z := 2.
Definition EL3_REGIME : Z := 3.
Definition EL_REGIME_INVALID : Z := -1.

Definition EPERM : Z := 1.
Definition ENOMEM : Z := 12.
Definition EINVAL : Z := 22.
Definition ERANGE : Z := 34.

Definition MAX_VIRT_ADDR_SPACE_SIZE : Z := Z.shiftl 1 (64 - 16).

(** ** The context (xlat_tables_v2_helpers.h) *)

Record mmap_region_t := {
  base_pa : Z;
  base_va : Z;
  size : Z;
  attr : Z;
  granularity : Z;
}.

Definition null_region : mmap_region_t :=
  {| base_pa := 0; base_va := 0; size := 0; attr := 0; granularity := 0 |}.

(** [tlbi] records the addresses invalidated in the TLBs, the newest first. *)
Record xlat_ctx := {
  pa_max_address : Z;
  va_max_address : Z;
  mmap : list mmap_region_t;
  mmap_num : Z;
  tables : list (list Z);
  tables_mapped_regions : list Z;
  base_table : list Z;
  base_table_entries : Z;
  max_pa : Z;
  max_va : Z;
  base_level : Z;
  initialized : bool;
  xlat_regime : Z;
  tlbi : list Z;
}.

Definition set_mmap (c : xlat_ctx) (l : list mmap_region_t) (mpa mva : Z) : xlat_ctx :=
  {| pa_max_address := pa_max_address c; va_max_address := va_max_address c; mmap := l;
     mmap_num := mmap_num c; tables := tables c;
     tables_mapped_regions := tables_mapped_regions c; base_table := base_table c;
     base_table_entries := base_table_entries c; max_pa := mpa; max_va := mva;
     base_level := base_level c; initialized := initialized c;
     xlat_regime := xlat_regime c; tlbi := tlbi c |}.

Definition set_tables (c : xlat_ctx) (bt : list Z) (ts : list (list Z)) (cnt : list Z)
    (tl : list Z) : xlat_ctx :=
  {| pa_max_address := pa_max_address c; va_max_address := va_max_address c; mmap := mmap c;
     mmap_num := mmap_num c; tables := ts; tables_mapped_regions := cnt; base_table := bt;
     base_table_entries := base_table_entries c; max_pa := max_pa c; max_va := max_va c;
     base_level := base_level c; initialized := initialized c;
     xlat_regime := xlat_regime c; tlbi := tl |}.

Definition set_flags (c : xlat_ctx) (init : bool) (regime : Z) : xlat_ctx :=
  {| pa_max_address := pa_max_address c; va_max_address := va_max_address c; mmap := mmap c;
     mmap_num := mmap_num c; tables := tables c;
     tables_mapped_regions := tables_mapped_regions c; base_table := base_table c;
     base_table_entries := base_table_entries c; max_pa := max_pa c; max_va := max_va c;
     base_level := base_level c; initialized := init;
     xlat_regime := regime; tlbi := tlbi c |}.

(** What the library reads from the CPU, and where the linker put the
    sub-tables *)
Record xlat_env := {
  (** [HCR_EL2.E2H] *)
  host_mode : bool;
  (** [is_armv8_5_bti_present()] *)
  bti_present : bool;
  (** [is_mmu_enabled_ctx()] *)
  mmu_enabled : bool;
  (** [xlat_arch_get_max_supported_pa()] *)
  max_supported_pa : Z;
  (** [xlat_get_min_virt_addr_space_size()] *)
  min_virt_addr_space_size : Z;
  (** [xlat_arch_current_el()] *)
  current_el : Z;
  (** [&ctx->tables[0]] *)
  tables_addr : Z;
}.

(** A pointer to a table: the base table, or sub-table [i] *)
Inductive tref : Set :=
| BaseT
| SubT (i : Z).

#[export] Instance tref_eq_dec : EqDecision tref.
Proof. solve_decision. Defined.

Section Xlat_ops.

Context (e : xlat_env).

(** The number of tables in [ctx->tables] *)
Definition tables_num (c : xlat_ctx) : Z := zlen (tables c).

Definition table_addr (i : Z) : Z := tables_addr e + XLAT_TABLE_SIZE * i.

(** The table a descriptor points to, from the address in it *)
Definition table_at (c : xlat_ctx) (addr : Z) : option Z :=
  let off := addr - tables_addr e in
  let i := off / XLAT_TABLE_SIZE in
  if (off mod XLAT_TABLE_SIZE =? 0) && (0 <=? i) && (i <? tables_num c) then Some i else None.

(** [table_base[table_idx]], read and written *)
Definition entry (c : xlat_ctx) (t : tref) (k : Z) : option Z :=
  match t with
  | BaseT => zget (base_table c) k
  | SubT i => tb ← zget (tables c) i; zget tb k
  end.

Definition read_entry (t : tref) (k : Z) : M xlat_ctx Z := λ c,
  match entry c t k with
  | Some d => Ok (d, c)
  | None => Stop OutOfBounds
  end.

Definition put_entry (c : xlat_ctx) (t : tref) (k d : Z) : xlat_ctx :=
  match t with
  | BaseT => set_tables c (zset (base_table c) k d) (tables c) (tables_mapped_regions c) (tlbi c)
  | SubT i =>
      match zget (tables c) i with
      | Some tb => set_tables c (base_table c) (zset (tables c) i (zset tb k d))
                     (tables_mapped_regions c) (tlbi c)
      | None => c
      end
  end.

Definition write_entry (t : tref) (k d : Z) : M xlat_ctx unit := λ c,
  match entry c t k with
  | Some _ => Ok (tt, put_entry c t k d)
  | None => Stop OutOfBounds
  end.

(** [(uint64_t * )(uintptr_t)(desc & TABLE_ADDR_MASK)] *)
Definition subtable_of (desc : Z) : M xlat_ctx tref := λ c,
  match table_at c (Z.land desc TABLE_ADDR_MASK) with
  | Some i => Ok (SubT i, c)
  | None => Stop OutOfBounds
  end.

(** [TABLE_DESC | (unsigned long)subtable] *)
Definition table_desc (t : tref) : Z :=
  match t with
  | BaseT => TABLE_DESC
  | SubT i => Z.lor TABLE_DESC (table_addr i)
  end.

(** ** Region counts of the sub-tables *)

Definition xlat_table_get_index (t : tref) : M xlat_ctx Z :=
  c ← get;
  match t with
  | SubT i => assert_ ((0 <=? i) && (i <? tables_num c));; mret i
  | BaseT => fail AssertFail
  end.

(** The first table from [i] on that no region is mapped in *)
Fixpoint find_empty (counts : list Z) (i : Z) : option tref :=
  match counts with
  | [] => None
  | n :: counts' => if n =? 0 then Some (SubT i) else find_empty counts' (i + 1)
  end.

Definition xlat_table_get_empty : M xlat_ctx (option tref) :=
  c ← get; mret (find_empty (tables_mapped_regions c) 0).

Definition add_count (i n : Z) : M xlat_ctx unit :=
  c ← get;
  v ← aget (tables_mapped_regions c) i;
  l ← aset (tables_mapped_regions c) i (v + n);
  put (set_tables c (base_table c) (tables c) l (tlbi c)).

Definition xlat_table_inc_regions_count (t : tref) : M xlat_ctx unit :=
  idx ← xlat_table_get_index t; add_count idx 1.

Definition xlat_table_dec_regions_count (t : tref) : M xlat_ctx unit :=
  idx ← xlat_table_get_index t; add_count idx (-1).

Definition xlat_table_is_empty (t : tref) : M xlat_ctx bool :=
  idx ← xlat_table_get_index t;
  c ← get;
  v ← aget (tables_mapped_regions c) idx;
  mret (v =? 0).

(** ** Descriptors *)

Definition xlat_regime_is_dual (regime : Z) : M xlat_ctx bool :=
  if regime =? EL1_EL0_REGIME then mret true
  else if regime =? EL2_REGIME then mret (host_mode e)
  else assert_ (regime =? EL3_REGIME);; mret false.

Definition xlat_arch_regime_get_xn_desc (regime : Z) : M xlat_ctx Z :=
  dual ← xlat_regime_is_dual regime;
  mret (if (dual : bool) then Z.lor (UPPER_ATTRS UXN) (UPPER_ATTRS PXN) else UPPER_ATTRS XN).

(** [(attr & flag) != 0U] *)
Definition has (a flag : Z) : bool := negb (Z.land a flag =? 0).

Definition xlat_desc (a addr_pa level : Z) : M xlat_ctx Z :=
  c ← get;
  assert_ (Z.land addr_pa (XLAT_BLOCK_MASK level) =? 0);;
  let desc := Z.lor addr_pa (if level =? XLAT_TABLE_LEVEL_MAX then PAGE_DESC else BLOCK_DESC) in
  let desc := Z.lor desc (LOWER_ATTRS ACCESS_FLAG) in
  let desc := Z.lor desc (if has a MT_NS then LOWER_ATTRS NS else 0) in
  let desc := Z.lor desc (if has a MT_RW then LOWER_ATTRS AP_RW else LOWER_ATTRS AP_RO) in
  desc ← (if xlat_regime c =? EL1_EL0_REGIME then
            if has a MT_USER then mret (Z.lor desc (LOWER_ATTRS AP_ACCESS_UNPRIVILEGED))
            else mret (Z.lor desc (LOWER_ATTRS AP_NO_ACCESS_UNPRIVILEGED))
          else
            assert_ ((xlat_regime c =? EL2_REGIME) || (xlat_regime c =? EL3_REGIME));;
            mret (Z.lor desc (LOWER_ATTRS AP_ONE_VA_RANGE_RES1)));
  let mem_type := MT_TYPE a in
  if mem_type =? MT_DEVICE then
    let desc := Z.lor desc (LOWER_ATTRS (Z.lor ATTR_DEVICE_INDEX OSH)) in
    xn ← xlat_arch_regime_get_xn_desc (xlat_regime c);
    mret (Z.lor desc xn)
  else
    desc ← (if has a MT_RW || has a MT_EXECUTE_NEVER then
              xn ← xlat_arch_regime_get_xn_desc (xlat_regime c); mret (Z.lor desc xn)
            else mret desc);
    if mem_type =? MT_MEMORY then
      let desc := Z.lor desc (LOWER_ATTRS (Z.lor ATTR_IWBWA_OWBWA_NTR_INDEX ISH)) in
      mret (if bti_present e
               && (Z.land a (Z.lor (Z.lor MT_TYPE_MASK MT_RW) MT_EXECUTE_NEVER) =? MT_CODE)
            then Z.lor desc GP else desc)
    else
      assert_ (mem_type =? MT_NON_CACHEABLE);;
      mret (Z.lor desc (LOWER_ATTRS (Z.lor ATTR_NON_CACHEABLE_INDEX OSH))).

(** ** Mapping and unmapping a region in the tables *)

Inductive action_t : Set :=
| ACTION_NONE
| ACTION_WRITE_BLOCK_ENTRY
| ACTION_CREATE_NEW_TABLE
| ACTION_RECURSE_INTO_TABLE.

(** [mm->base_va + mm->size - 1U] *)
Definition region_end (mm : mmap_region_t) : Z := u64 (u64 (base_va mm + size mm) - 1).

Definition xlat_tables_find_start_va (mm : mmap_region_t) (table_base_va level : Z) : Z :=
  if table_base_va <? base_va mm then Z.ldiff (base_va mm) (XLAT_BLOCK_MASK level)
  else table_base_va.

Definition xlat_tables_va_to_index (table_base_va va level : Z) : Z :=
  u32 (Z.shiftr (u64 (va - table_base_va)) (XLAT_ADDR_SHIFT level)).

Definition xlat_tables_unmap_region_action (mm : mmap_region_t)
    (table_idx_va table_idx_end_va level desc_type : Z) : M xlat_ctx action_t :=
  if (base_va mm <=? table_idx_va) && (table_idx_end_va <=? region_end mm) then
    if level =? 3 then
      assert_ (desc_type =? PAGE_DESC);; mret ACTION_WRITE_BLOCK_ENTRY
    else if desc_type =? TABLE_DESC then mret ACTION_RECURSE_INTO_TABLE
    else assert_ (desc_type =? BLOCK_DESC);; mret ACTION_WRITE_BLOCK_ENTRY
  else if (base_va mm <=? table_idx_end_va) || (table_idx_va <=? region_end mm) then
    assert_ (level <? 3);;
    assert_ (desc_type =? TABLE_DESC);;
    mret ACTION_RECURSE_INTO_TABLE
  else mret ACTION_NONE.

(** [xlat_arch_tlbi_va()] *)
Definition xlat_arch_tlbi_va (va regime : Z) : M xlat_ctx unit :=
  (if regime =? EL1_EL0_REGIME then assert_ (1 <=? current_el e)
   else if regime =? EL2_REGIME then assert_ (2 <=? current_el e)
   else assert_ (regime =? EL3_REGIME);; assert_ (3 <=? current_el e));;
  modify (λ c, set_tables c (base_table c) (tables c) (tables_mapped_regions c) (va :: tlbi c)).

(** The loop of [xlat_tables_unmap_region()], at most [n] entries from
    [table_idx] on; [recurse] unmaps in a table of the next level. *)
Fixpoint unmap_loop (recurse : Z → tref → M xlat_ctx unit) (mm : mmap_region_t) (t : tref)
    (level : Z) (n : nat) (table_idx table_idx_va : Z) : M xlat_ctx unit :=
  match n with
  | O => mret tt
  | S n' =>
      let table_idx_end_va := u64 (u64 (table_idx_va + XLAT_BLOCK_SIZE level) - 1) in
      c ← get;
      desc ← read_entry t table_idx;
      action ← xlat_tables_unmap_region_action mm table_idx_va table_idx_end_va level
                 (Z.land desc DESC_MASK);
      (match action with
       | ACTION_WRITE_BLOCK_ENTRY =>
           write_entry t table_idx INVALID_DESC;;
           xlat_arch_tlbi_va table_idx_va (xlat_regime c)
       | ACTION_RECURSE_INTO_TABLE =>
           subtable ← subtable_of desc;
           recurse table_idx_va subtable;;
           empty ← xlat_table_is_empty subtable;
           if (empty : bool) then
             write_entry t table_idx INVALID_DESC;;
             xlat_arch_tlbi_va table_idx_va (xlat_regime c)
           else mret tt
       | ACTION_NONE => mret tt
       | ACTION_CREATE_NEW_TABLE => fail AssertFail
       end);;
      let table_idx_va := u64 (table_idx_va + XLAT_BLOCK_SIZE level) in
      if region_end mm <=? table_idx_va then mret tt
      else unmap_loop recurse mm t level n' (table_idx + 1) table_idx_va
  end.

(** [depth] is [XLAT_TABLE_LEVEL_MAX + 1 - level]: a call with level 4 fails
    the assertion. *)
Fixpoint xlat_tables_unmap_region (depth : nat) (mm : mmap_region_t) (table_base_va : Z)
    (t : tref) (table_entries level : Z) : M xlat_ctx unit :=
  match depth with
  | O => fail AssertFail
  | S depth' =>
      c ← get;
      assert_ ((base_level c <=? level) && (level <=? XLAT_TABLE_LEVEL_MAX));;
      let table_idx_va := xlat_tables_find_start_va mm table_base_va level in
      let table_idx := xlat_tables_va_to_index table_base_va table_idx_va level in
      unmap_loop (λ va sub, xlat_tables_unmap_region depth' mm va sub XLAT_TABLE_ENTRIES (level + 1))
        mm t level (Z.to_nat (table_entries - table_idx)) table_idx table_idx_va;;
      if base_level c <? level then xlat_table_dec_regions_count t else mret tt
  end.

Definition xlat_tables_map_region_action (mm : mmap_region_t)
    (desc_type dest_pa table_entry_base_va level : Z) : M xlat_ctx action_t :=
  let mm_end_va := region_end mm in
  let table_entry_end_va := u64 (u64 (table_entry_base_va + XLAT_BLOCK_SIZE level) - 1) in
  if (base_va mm <=? table_entry_base_va) && (table_entry_end_va <=? mm_end_va) then
    if level =? 3 then
      if desc_type =? PAGE_DESC then mret ACTION_NONE
      else assert_ (desc_type =? INVALID_DESC);; mret ACTION_WRITE_BLOCK_ENTRY
    else if desc_type =? TABLE_DESC then mret ACTION_RECURSE_INTO_TABLE
    else if desc_type =? INVALID_DESC then
      if negb (Z.land dest_pa (XLAT_BLOCK_MASK level) =? 0)
         || (level <? MIN_LVL_BLOCK_DESC) || (granularity mm <? XLAT_BLOCK_SIZE level)
      then mret ACTION_CREATE_NEW_TABLE
      else mret ACTION_WRITE_BLOCK_ENTRY
    else assert_ (desc_type =? BLOCK_DESC);; mret ACTION_NONE
  else if (base_va mm <=? table_entry_end_va) || (table_entry_base_va <=? mm_end_va) then
    assert_ (level <? 3);;
    if desc_type =? INVALID_DESC then mret ACTION_CREATE_NEW_TABLE
    else assert_ (desc_type =? TABLE_DESC);; mret ACTION_RECURSE_INTO_TABLE
  else mret ACTION_NONE.

(** The loop of [xlat_tables_map_region()] *)
Fixpoint map_loop (recurse : Z → tref → M xlat_ctx Z) (mm : mmap_region_t) (t : tref)
    (level : Z) (n : nat) (table_idx table_idx_va : Z) : M xlat_ctx Z :=
  match n with
  | O => mret (u64 (table_idx_va - 1))
  | S n' =>
      desc ← read_entry t table_idx;
      let table_idx_pa := u64 (u64 (base_pa mm + table_idx_va) - base_va mm) in
      let last := u64 (u64 (table_idx_va + XLAT_BLOCK_SIZE level) - 1) in
      let next :=
        let table_idx_va := u64 (table_idx_va + XLAT_BLOCK_SIZE level) in
        if region_end mm <=? table_idx_va then mret (u64 (table_idx_va - 1))
        else map_loop recurse mm t level n' (table_idx + 1) table_idx_va in
      action ← xlat_tables_map_region_action mm (Z.land desc DESC_MASK) table_idx_pa
                 table_idx_va level;
      match action with
      | ACTION_WRITE_BLOCK_ENTRY =>
          d ← xlat_desc (attr mm) table_idx_pa level;
          write_entry t table_idx d;;
          next
      | ACTION_CREATE_NEW_TABLE =>
          sub ← xlat_table_get_empty;
          match sub with
          | None => mret table_idx_va
          | Some subtable =>
              write_entry t table_idx (table_desc subtable);;
              end_va ← recurse table_idx_va subtable;
              if negb (end_va =? last) then mret end_va else next
          end
      | ACTION_RECURSE_INTO_TABLE =>
          subtable ← subtable_of desc;
          end_va ← recurse table_idx_va subtable;
          if negb (end_va =? last) then mret end_va else next
      | ACTION_NONE => next
      end
  end.

Fixpoint xlat_tables_map_region (depth : nat) (mm : mmap_region_t) (table_base_va : Z)
    (t : tref) (table_entries level : Z) : M xlat_ctx Z :=
  match depth with
  | O => fail AssertFail
  | S depth' =>
      c ← get;
      assert_ ((base_level c <=? level) && (level <=? XLAT_TABLE_LEVEL_MAX));;
      let table_idx_va := xlat_tables_find_start_va mm table_base_va level in
      let table_idx := xlat_tables_va_to_index table_base_va table_idx_va level in
      (if base_level c <? level then xlat_table_inc_regions_count t else mret tt);;
      map_loop (λ va sub, xlat_tables_map_region depth' mm va sub XLAT_TABLE_ENTRIES (level + 1))
        mm t level (Z.to_nat (table_entries - table_idx)) table_idx table_idx_va
  end.

(** The calls on the whole context *)
Definition map_all (mm : mmap_region_t) : M xlat_ctx Z :=
  c ← get;
  xlat_tables_map_region (Z.to_nat (4 - base_level c)) mm 0 BaseT (base_table_entries c)
    (base_level c).
Definition unmap_all (mm : mmap_region_t) : M xlat_ctx unit :=
  c ← get;
  xlat_tables_unmap_region (Z.to_nat (4 - base_level c)) mm 0 BaseT (base_table_entries c)
    (base_level c).

(** ** The array of regions *)

(** The loop of [mmap_add_region_check()] over the regions that are in the
    array *)
Fixpoint check_overlaps (mm : mmap_region_t) (l : list mmap_region_t) : M xlat_ctx Z :=
  match l with
  | [] => fail OutOfBounds
  | cur :: l' =>
      if size cur =? 0 then mret 0
      else
        let end_pa := u64 (u64 (base_pa mm + size mm) - 1) in
        let end_va := region_end mm in
        let cur_end_va := region_end cur in
        let fully_overlapped_va :=
          ((base_va cur <=? base_va mm) && (end_va <=? cur_end_va))
          || ((base_va mm <=? base_va cur) && (cur_end_va <=? end_va)) in
        if fully_overlapped_va then
          if has (attr mm) MT_DYNAMIC || has (attr cur) MT_DYNAMIC then mret (- EPERM)
          else if negb (u64 (base_va cur - base_pa cur) =? u64 (base_va mm - base_pa mm))
          then mret (- EPERM)
          else if (base_va mm =? base_va cur) && (size mm =? size cur) then mret (- EPERM)
          else check_overlaps mm l'
        else
          let cur_end_pa := u64 (u64 (base_pa cur + size cur) - 1) in
          let separated_pa := (end_pa <? base_pa cur) || (cur_end_pa <? base_pa mm) in
          let separated_va := (end_va <? base_va cur) || (cur_end_va <? base_va mm) in
          if negb separated_va || negb separated_pa then mret (- EPERM)
          else check_overlaps mm l'
  end.

Definition mmap_add_region_check (mm : mmap_region_t) : M xlat_ctx Z :=
  c ← get;
  let end_pa := u64 (u64 (base_pa mm + size mm) - 1) in
  let end_va := region_end mm in
  if negb (IS_PAGE_ALIGNED (base_pa mm)) || negb (IS_PAGE_ALIGNED (base_va mm))
     || negb (IS_PAGE_ALIGNED (size mm)) then mret (- EINVAL)
  else if negb (granularity mm =? XLAT_BLOCK_SIZE 1) && negb (granularity mm =? XLAT_BLOCK_SIZE 2)
          && negb (granularity mm =? XLAT_BLOCK_SIZE 3) then mret (- EINVAL)
  else if (end_pa <? base_pa mm) || (end_va <? base_va mm) then mret (- ERANGE)
  else if va_max_address c <? end_va then mret (- ERANGE)
  else if pa_max_address c <? end_pa then mret (- ERANGE)
  else
    last ← aget (mmap c) (mmap_num c - 1);
    if negb (size last =? 0) then mret (- ENOMEM)
    else check_overlaps mm (mmap c).

(** The two loops that look for the place of a new region: the cursor as an
    index; reading past the end of the array is undefined. *)
Fixpoint skip_lower (end_va : Z) (l : list mmap_region_t) (i : Z) : M xlat_ctx Z :=
  match l with
  | [] => fail OutOfBounds
  | cur :: l' =>
      if (region_end cur <? end_va) && negb (size cur =? 0) then skip_lower end_va l' (i + 1)
      else mret i
  end.
Fixpoint skip_smaller (end_va sz : Z) (l : list mmap_region_t) (i : Z) : M xlat_ctx Z :=
  match l with
  | [] => fail OutOfBounds
  | cur :: l' =>
      if (region_end cur =? end_va) && negb (size cur =? 0) && (size cur <? sz)
      then skip_smaller end_va sz l' (i + 1)
      else mret i
  end.
Definition find_place (mm : mmap_region_t) (l : list mmap_region_t) : M xlat_ctx Z :=
  i ← skip_lower (region_end mm) l 0;
  skip_smaller (region_end mm) (size mm) (drop (Z.to_nat i) l) i.

(** [while ((mm_last->size != 0U) && (mm_last < mm_end)) ++mm_last;] *)
Fixpoint find_last (l : list mmap_region_t) (i num : Z) : M xlat_ctx Z :=
  match l with
  | [] => fail OutOfBounds
  | cur :: l' => if negb (size cur =? 0) && (i <? num) then find_last l' (i + 1) num else mret i
  end.

(** [memmove()] of [n] elements of the array from index [src] to [dst] *)
Definition array_move {A} (dst src n : Z) (l : list A) : M xlat_ctx (list A) :=
  if (0 <=? dst) && (0 <=? src) && (0 <=? n) && (dst + n <=? zlen l) && (src + n <=? zlen l)
  then mret (take (Z.to_nat dst) l ++ take (Z.to_nat n) (drop (Z.to_nat src) l)
               ++ drop (Z.to_nat (dst + n)) l)
  else fail OutOfBounds.

Definition mmap_add_region_ctx (mm : mmap_region_t) : M xlat_ctx unit :=
  if size mm =? 0 then mret tt
  else
    c ← get;
    assert_ (negb (initialized c));;
    ret ← mmap_add_region_check mm;
    assert_ (ret =? 0);;
    let end_pa := u64 (u64 (base_pa mm + size mm) - 1) in
    let end_va := region_end mm in
    cursor ← find_place mm (mmap c);
    last ← find_last (mmap c) 0 (mmap_num c);
    last_mm ← aget (mmap c) last;
    assert_ (size last_mm =? 0);;
    l ← array_move (cursor + 1) cursor (last - cursor) (mmap c);
    end_mm ← aget l (mmap_num c);
    assert_ (size end_mm =? 0);;
    l ← aset l cursor mm;
    put (set_mmap c l (if max_pa c <? end_pa then end_pa else max_pa c)
           (if max_va c <? end_va then end_va else max_va c)).

(** [for (level = ctx->base_level; level <= 2U; ++level)], [n] levels *)
Fixpoint align_loop (n : nat) (level align_check : Z) (mm : mmap_region_t) : mmap_region_t :=
  match n with
  | O => mm
  | S n' =>
      if negb (Z.land align_check (XLAT_BLOCK_MASK level) =? 0)
      then align_loop n' (level + 1) align_check mm
      else {| base_pa := base_pa mm; base_va := round_up (base_va mm) (XLAT_BLOCK_SIZE level);
              size := size mm; attr := attr mm; granularity := granularity mm |}
  end.

Definition mmap_alloc_va_align_ctx (c : xlat_ctx) (mm : mmap_region_t) : mmap_region_t :=
  align_loop (Z.to_nat (3 - base_level c)) (base_level c) (Z.lor (base_pa mm) (size mm)) mm.

Definition at_va (mm : mmap_region_t) (va : Z) : mmap_region_t :=
  {| base_pa := base_pa mm; base_va := va; size := size mm; attr := attr mm;
     granularity := granularity mm |}.

(** The caller's region is passed in and out. *)
Definition mmap_add_region_alloc_va_ctx (mm : mmap_region_t) : M xlat_ctx mmap_region_t :=
  c ← get;
  assert_ (0 <? size mm);;
  let mm := mmap_alloc_va_align_ctx c (at_va mm (u64 (max_va c + 1))) in
  assert_ (max_va c <? base_va mm);;
  mmap_add_region_ctx mm;;
  mret mm.

(** The array ends with an entry whose granularity is 0. *)
Fixpoint mmap_add_ctx (l : list mmap_region_t) : M xlat_ctx unit :=
  match l with
  | [] => fail OutOfBounds
  | mm :: l' => if granularity mm =? 0 then mret tt else mmap_add_region_ctx mm;; mmap_add_ctx l'
  end.

(** ** Dynamic regions *)

Definition as_dynamic (mm : mmap_region_t) : mmap_region_t :=
  {| base_pa := base_pa mm; base_va := base_va mm; size := size mm;
     attr := Z.lor (attr mm) MT_DYNAMIC; granularity := granularity mm |}.

(** The update of the tables for the region at index [cursor]: [None] when it
    is mapped, [Some] error otherwise *)
Definition map_dynamic (mm : mmap_region_t) (cursor : Z) : M xlat_ctx (Z * option Z) :=
  end_va ← map_all mm;
  if negb (end_va =? region_end mm) then
    c ← get;
    l ← array_move cursor (cursor + 1) (mmap_num c - cursor) (mmap c);
    put (set_mmap c l (max_pa c) (max_va c));;
    if end_va <=? base_va mm then mret (end_va, Some (- ENOMEM))
    else
      unmap_all {| base_pa := 0; base_va := base_va mm; size := u64 (end_va - base_va mm);
                   attr := 0; granularity := 0 |};;
      mret (end_va, Some (- ENOMEM))
  else mret (end_va, None).

Definition mmap_add_dynamic_region_ctx (mm : mmap_region_t) : M xlat_ctx Z :=
  if size mm =? 0 then mret 0
  else
    let mm := as_dynamic mm in
    ret ← mmap_add_region_check mm;
    if negb (ret =? 0) then mret ret
    else
      c ← get;
      let end_pa := u64 (u64 (base_pa mm + size mm) - 1) in
      cursor ← find_place mm (mmap c);
      l ← array_move (cursor + 1) cursor (mmap_num c - cursor) (mmap c);
      end_mm ← aget l (mmap_num c);
      assert_ (size end_mm =? 0);;
      l ← aset l cursor mm;
      put (set_mmap c l (max_pa c) (max_va c));;
      r ← (if initialized c then map_dynamic mm cursor else mret (region_end mm, None));
      match r.2 with
      | Some err => mret err
      | None =>
          c ← get;
          put (set_mmap c (mmap c) (if max_pa c <? end_pa then end_pa else max_pa c)
                 (if max_va c <? r.1 then r.1 else max_va c));;
          mret 0
      end.

(** The result and the address chosen *)
Definition mmap_add_dynamic_region_alloc_va_ctx (mm : mmap_region_t) : M xlat_ctx (Z * Z) :=
  c ← get;
  let mm := at_va mm (u64 (max_va c + 1)) in
  if size mm =? 0 then mret (0, base_va mm)
  else
    let mm := mmap_alloc_va_align_ctx c mm in
    if base_va mm <? max_va c then mret (- ENOMEM, base_va mm)
    else
      r ← mmap_add_dynamic_region_ctx mm;
      mret (r, base_va mm).

(** [while (mm->size != 0U)]: the index of the region, or of the end *)
Fixpoint find_region (va sz : Z) (l : list mmap_region_t) (i : Z)
    : M xlat_ctx (Z * mmap_region_t) :=
  match l with
  | [] => fail OutOfBounds
  | cur :: l' =>
      if size cur =? 0 then mret (i, cur)
      else if (base_va cur =? va) && (size cur =? sz) then mret (i, cur)
      else find_region va sz l' (i + 1)
  end.

(** The highest end of the regions in the array, [f] giving the end *)
Fixpoint max_end (f : mmap_region_t → Z) (l : list mmap_region_t) (m : Z) : M xlat_ctx Z :=
  match l with
  | [] => fail OutOfBounds
  | cur :: l' => if size cur =? 0 then mret m
                 else max_end f l' (if m <? f cur then f cur else m)
  end.

Definition region_end_pa (mm : mmap_region_t) : Z := u64 (u64 (base_pa mm + size mm) - 1).

Definition mmap_remove_dynamic_region_ctx (va sz : Z) : M xlat_ctx Z :=
  c ← get;
  last ← aget (mmap c) (mmap_num c);
  assert_ (size last =? 0);;
  f ← find_region va sz (mmap c) 0;
  if size f.2 =? 0 then mret (- EINVAL)
  else if Z.land (attr f.2) MT_DYNAMIC =? 0 then mret (- EPERM)
  else
    let update_max_va_needed := region_end f.2 =? max_va c in
    let update_max_pa_needed := region_end_pa f.2 =? max_pa c in
    (if initialized c then unmap_all f.2 else mret tt);;
    c ← get;
    l ← array_move f.1 (f.1 + 1) (mmap_num c - f.1) (mmap c);
    mva ← (if update_max_va_needed then max_end region_end l 0 else mret (max_va c));
    mpa ← (if update_max_pa_needed then max_end region_end_pa l 0 else mret (max_pa c));
    put (set_mmap c l mpa mva);;
    mret 0.

(** ** Initialisation *)

(** The loop over the regions of the array *)
Fixpoint init_regions (l : list mmap_region_t) : M xlat_ctx unit :=
  match l with
  | [] => fail OutOfBounds
  | mm :: l' =>
      if size mm =? 0 then mret tt
      else
        end_va ← map_all mm;
        if negb (end_va =? region_end mm) then fail PanicCall else init_regions l'
  end.

(** The tables are zeroed *)
Definition zero_tables (c : xlat_ctx) : xlat_ctx :=
  set_tables c (replicate (Z.to_nat (base_table_entries c)) INVALID_DESC)
    (replicate (length (tables c)) (replicate 512 INVALID_DESC))
    (replicate (length (tables c)) 0) (tlbi c).

Definition init_xlat_tables_ctx : M xlat_ctx unit :=
  c ← get;
  assert_ (negb (initialized c));;
  assert_ ((xlat_regime c =? EL3_REGIME) || (xlat_regime c =? EL2_REGIME)
           || (xlat_regime c =? EL1_EL0_REGIME));;
  assert_ (negb (mmu_enabled e));;
  assert_ (u64 (min_virt_addr_space_size e - 1) <=? va_max_address c);;
  assert_ (va_max_address c <=? MAX_VIRT_ADDR_SPACE_SIZE - 1);;
  assert_ (IS_POWER_OF_TWO (u64 (va_max_address c + 1)));;
  put (zero_tables c);;
  init_regions (mmap c);;
  c ← get;
  assert_ (pa_max_address c <=? max_supported_pa e);;
  assert_ (max_va c <=? va_max_address c);;
  assert_ (max_pa c <=? pa_max_address c);;
  put (set_flags c true (xlat_regime c)).

(** A context as [REGISTER_XLAT_CONTEXT_FULL_SPEC()] defines it *)
Definition registered (mmap_count xlat_tables_count va_size pa_size regime : Z) : xlat_ctx :=
  {| pa_max_address := u64 (pa_size - 1); va_max_address := u64 (va_size - 1);
     mmap := replicate (Z.to_nat (mmap_count + 1)) null_region; mmap_num := mmap_count;
     tables := replicate (Z.to_nat xlat_tables_count) (replicate 512 0);
     tables_mapped_regions := replicate (Z.to_nat xlat_tables_count) 0;
     base_table := replicate (Z.to_nat (GET_NUM_BASE_LEVEL_ENTRIES va_size)) 0;
     base_table_entries := GET_NUM_BASE_LEVEL_ENTRIES va_size; max_pa := 0; max_va := 0;
     base_level := GET_XLAT_TABLE_LEVEL_BASE va_size; initialized := false;
     xlat_regime := regime; tlbi := [] |}.

(** [xlat_setup_dynamic_ctx()], on the arrays the caller gives.  [memset()]
    clears the first [mmap_num] regions. *)
Definition xlat_setup_dynamic_ctx (pa_max va_max : Z) (mm : list mmap_region_t) (num : Z)
    (tbls : list (list Z)) (base : list Z) (regime : Z) (mapped_regions : list Z) (c : xlat_ctx)
    : xlat_ctx :=
  let va_space_size := u64 (va_max + 1) in
  {| pa_max_address := pa_max; va_max_address := va_max;
     mmap := replicate (Z.to_nat num) null_region ++ drop (Z.to_nat num) mm; mmap_num := num;
     tables := tbls; tables_mapped_regions := mapped_regions; base_table := base;
     base_table_entries := GET_NUM_BASE_LEVEL_ENTRIES va_space_size; max_pa := 0; max_va := 0;
     base_level := GET_XLAT_TABLE_LEVEL_BASE va_space_size; initialized := false;
     xlat_regime := regime; tlbi := tlbi c |}.

(** ** The context of the running image (xlat_tables_context.c) *)

Definition MAP_REGION (pa va sz a : Z) : mmap_region_t :=
  {| base_pa := pa; base_va := va; size := sz; attr := a;
     granularity := REGION_DEFAULT_GRANULARITY |}.

Definition mmap_add_region (pa va sz a : Z) : M xlat_ctx unit :=
  mmap_add_region_ctx (MAP_REGION pa va sz a).
Definition mmap_add (l : list mmap_region_t) : M xlat_ctx unit := mmap_add_ctx l.
Definition mmap_add_region_alloc_va (pa sz a : Z) : M xlat_ctx Z :=
  mm ← mmap_add_region_alloc_va_ctx (MAP_REGION pa 0 sz a); mret (base_va mm).

Fixpoint mmap_add_alloc_va (l : list mmap_region_t) : M xlat_ctx (list mmap_region_t) :=
  match l with
  | [] => fail OutOfBounds
  | mm :: l' =>
      if granularity mm =? 0 then mret l
      else
        assert_ (base_va mm =? 0);;
        mm ← mmap_add_region_alloc_va_ctx mm;
        r ← mmap_add_alloc_va l';
        mret (mm :: r)
  end.

Definition mmap_add_dynamic_region (pa va sz a : Z) : M xlat_ctx Z :=
  mmap_add_dynamic_region_ctx (MAP_REGION pa va sz a).
Definition mmap_add_dynamic_region_alloc_va (pa sz a : Z) : M xlat_ctx (Z * Z) :=
  mmap_add_dynamic_region_alloc_va_ctx (MAP_REGION pa 0 sz a).
Definition mmap_remove_dynamic_region (va sz : Z) : M xlat_ctx Z :=
  mmap_remove_dynamic_region_ctx va sz.

Definition init_xlat_tables : M xlat_ctx unit :=
  c ← get;
  assert_ (xlat_regime c =? EL_REGIME_INVALID);;
  (if current_el e =? 1 then put (set_flags c (initialized c) EL1_EL0_REGIME)
   else if current_el e =? 2 then put (set_flags c (initialized c) EL2_REGIME)
   else assert_ (current_el e =? 3);; put (set_flags c (initialized c) EL3_REGIME));;
  init_xlat_tables_ctx.

(** ** Looking up and changing attributes (xlat_tables_utils.c) *)

(** The walk, from the table of [level] on: the table, the index of the entry
    and its level *)
Fixpoint find_xlat_table_entry (depth : nat) (virtual_addr : Z) (t : tref) (entries level : Z)
    : M xlat_ctx (option (tref * Z * Z)) :=
  match depth with
  | O => fail AssertFail
  | S depth' =>
      let idx := XLAT_TABLE_IDX virtual_addr level in
      if entries <=? idx then mret None
      else
        desc ← read_entry t idx;
        let desc_type := Z.land desc DESC_MASK in
        if desc_type =? INVALID_DESC then mret None
        else if level =? XLAT_TABLE_LEVEL_MAX then
          assert_ (desc_type =? PAGE_DESC);; mret (Some (t, idx, level))
        else if desc_type =? BLOCK_DESC then mret (Some (t, idx, level))
        else
          assert_ (desc_type =? TABLE_DESC);;
          sub ← subtable_of desc;
          find_xlat_table_entry depth' virtual_addr sub XLAT_TABLE_ENTRIES (level + 1)
  end.

(** From the base table; [va_size] is the size of the address space. *)
Definition find_entry (va va_size : Z) : M xlat_ctx (option (tref * Z * Z)) :=
  c ← get;
  let start_level := GET_XLAT_TABLE_LEVEL_BASE va_size in
  find_xlat_table_entry (Z.to_nat (4 - start_level)) va BaseT (base_table_entries c) start_level.

(** What [xlat_get_mem_attributes_internal()] stores *)
Record mem_info := { mi_attr : Z; mi_entry : tref * Z; mi_pa : Z; mi_level : Z }.

(** The attributes in a descriptor *)
Definition desc_attributes (regime desc : Z) : M xlat_ctx Z :=
  let attr_index := Z.land (Z.shiftr desc ATTR_INDEX_SHIFT) ATTR_INDEX_MASK in
  a ← (if attr_index =? ATTR_IWBWA_OWBWA_NTR_INDEX then mret MT_MEMORY
       else if attr_index =? ATTR_NON_CACHEABLE_INDEX then mret MT_NON_CACHEABLE
       else assert_ (attr_index =? ATTR_DEVICE_INDEX);; mret MT_DEVICE);
  let a := if Z.land (Z.shiftr desc AP2_SHIFT) 1 =? AP2_RW then Z.lor a MT_RW else a in
  let a := if (regime =? EL1_EL0_REGIME)
              && (Z.land (Z.shiftr desc AP1_SHIFT) 1 =? AP1_ACCESS_UNPRIVILEGED)
           then Z.lor a MT_USER else a in
  let a := if Z.land (Z.shiftr desc NS_SHIFT) 1 =? 1 then Z.lor a MT_NS else a in
  xn_mask ← xlat_arch_regime_get_xn_desc regime;
  if Z.land desc xn_mask =? xn_mask then mret (Z.lor a MT_EXECUTE_NEVER)
  else assert_ (Z.land desc xn_mask =? 0);; mret a.

Definition xlat_get_mem_attributes_internal (va : Z) : M xlat_ctx (Z * option mem_info) :=
  c ← get;
  assert_ (initialized c);;
  assert_ ((xlat_regime c =? EL1_EL0_REGIME) || (xlat_regime c =? EL2_REGIME)
           || (xlat_regime c =? EL3_REGIME));;
  let va_size := u64 (va_max_address c + 1) in
  assert_ (0 <? va_size);;
  f ← find_entry va va_size;
  match f with
  | None => mret (- EINVAL, None)
  | Some (t, idx, level) =>
      desc ← read_entry t idx;
      a ← desc_attributes (xlat_regime c) desc;
      mret (0, Some {| mi_attr := a; mi_entry := (t, idx);
                       mi_pa := Z.land desc TABLE_ADDR_MASK; mi_level := level |})
  end.

(** The result and [*attr] *)
Definition xlat_get_mem_attributes_ctx (va : Z) : M xlat_ctx (Z * option Z) :=
  r ← xlat_get_mem_attributes_internal va;
  mret (r.1, mi_attr <$> r.2).

(** The loop of the sanity checks, [n] pages from [va] on: [false] when one
    fails *)
Fixpoint check_pages (n : nat) (va va_size a : Z) : M xlat_ctx bool :=
  match n with
  | O => mret true
  | S n' =>
      f ← find_entry va va_size;
      match f with
      | None => mret false
      | Some (t, idx, level) =>
          desc ← read_entry t idx;
          if negb (Z.land desc DESC_MASK =? PAGE_DESC) || negb (level =? XLAT_TABLE_LEVEL_MAX)
          then mret false
          else if (Z.land (Z.shiftr desc ATTR_INDEX_SHIFT) ATTR_INDEX_MASK =? ATTR_DEVICE_INDEX)
                  && (Z.land a MT_EXECUTE_NEVER =? 0) then mret false
          else check_pages n' (u64 (va + PAGE_SIZE)) va_size a
      end
  end.

(** The loop that changes the pages: each entry is invalidated before it is
    written. *)
Fixpoint change_pages (n : nat) (va a : Z) : M xlat_ctx unit :=
  match n with
  | O => mret tt
  | S n' =>
      r ← xlat_get_mem_attributes_internal va;
      match r.2 with
      | None => fail OutOfBounds
      | Some i =>
          let mask := Z.lor (Z.lor MT_RW MT_EXECUTE_NEVER) MT_USER in
          let new_attr := Z.lor (Z.ldiff (mi_attr i) mask) (Z.land a mask) in
          let '(t, idx) := mi_entry i in
          c ← get;
          write_entry t idx INVALID_DESC;;
          xlat_arch_tlbi_va va (xlat_regime c);;
          d ← xlat_desc new_attr (mi_pa i) (mi_level i);
          write_entry t idx d;;
          change_pages n' (u64 (va + PAGE_SIZE)) a
      end
  end.

Definition xlat_change_mem_attributes_ctx (va sz a : Z) : M xlat_ctx Z :=
  c ← get;
  assert_ (initialized c);;
  let va_size := u64 (va_max_address c + 1) in
  assert_ (0 <? va_size);;
  if negb (IS_PAGE_ALIGNED va) then mret (- EINVAL)
  else if sz =? 0 then mret (- EINVAL)
  else if negb (sz mod PAGE_SIZE =? 0) then mret (- EINVAL)
  else if (Z.land a MT_EXECUTE_NEVER =? 0) && has a MT_RW then mret (- EINVAL)
  else
    let pages_count := Z.to_nat (sz / PAGE_SIZE) in
    ok ← check_pages pages_count va va_size a;
    if negb ok then mret (- EINVAL)
    else
      change_pages pages_count va a;;
      mret 0.

Definition xlat_get_mem_attributes (va : Z) : M xlat_ctx (Z * option Z) :=
  xlat_get_mem_attributes_ctx va.
Definition xlat_change_mem_attributes (va sz a : Z) : M xlat_ctx Z :=
  xlat_change_mem_attributes_ctx va sz a.

End Xlat_ops.
