(* ===== verification/XlatWalk.v ===== *)
(** * Translation tables: the walk and the shape of the tables

    What a table holds for a virtual address, when the tables form a
    well-shaped tree, and which writes leave a walk unchanged.  The table of
    level [l] at position [p] translates the addresses [va] with
    [va / sz (l - 1) = p], and its entry [k] those with
    [va / sz l = 512 * p + k]. *)

From S2P Require Import Prelude Bits Xlat.

Local Open Scope Z_scope.

(** ** Sizes *)

Definition sz (l : Z) : Z := XLAT_BLOCK_SIZE l.

Lemma sz_pow (l : Z) : l <= 3 → sz l = 2 ^ (12 + (3 - l) * 9).
Proof. intros Hl. unfold sz, XLAT_BLOCK_SIZE. by rewrite Z.shiftl_1_l. Qed.

Lemma sz_pos (l : Z) : l <= 3 → 4096 <= sz l.
Proof.
  intros Hl. rewrite sz_pow by done. change 4096 with (2 ^ 12). apply Z.pow_le_mono_r; lia.
Qed.

Lemma sz_up (l : Z) : l <= 3 → sz (l - 1) = 512 * sz l.
Proof.
  intros Hl. rewrite !sz_pow by lia. change 512 with (2 ^ 9). rewrite <- Z.pow_add_r by lia.
  f_equal. lia.
Qed.

Lemma sz_page (l : Z) : l <= 3 → (4096 | sz l).
Proof.
  intros Hl. rewrite sz_pow by done. exists (2 ^ ((3 - l) * 9)).
  change 4096 with (2 ^ 12). rewrite <- Z.pow_add_r by lia. f_equal. lia.
Qed.

Lemma sz_le_48 (l : Z) : -1 <= l <= 3 → sz l <= 2 ^ 48.
Proof. intros Hl. rewrite sz_pow by lia. apply Z.pow_le_mono_r; lia. Qed.

#[global] Opaque sz.

(** The block of level [l] an address lies in *)
Lemma div_range (a b q : Z) : 0 < b → (a / b = q ↔ q * b <= a < q * b + b).
Proof.
  intros Hb. split.
  - intros <-. pose proof (Z.div_mod a b ltac:(lia)). pose proof (Z.mod_pos_bound a b Hb). lia.
  - intros Ha. symmetry. apply (Z.div_unique a b q (a - q * b)); lia.
Qed.

Lemma div_up (va l : Z) : l <= 3 → va / sz l / 512 = va / sz (l - 1).
Proof.
  intros Hl. pose proof (sz_pos l Hl). rewrite sz_up by done.
  rewrite Z.div_div by lia. f_equal. lia.
Qed.

(** The index of an address in the table that translates it *)
Lemma idx_of (va l p : Z) : l <= 3 → va / sz (l - 1) = p →
  va / sz l = 512 * p + (va / sz l) mod 512 ∧ 0 <= (va / sz l) mod 512 < 512.
Proof.
  intros Hl <-. rewrite <- div_up by done.
  pose proof (Z.div_mod (va / sz l) 512 ltac:(lia)).
  pose proof (Z.mod_pos_bound (va / sz l) 512 ltac:(lia)). lia.
Qed.

Lemma idx_up (va l p k : Z) : l <= 3 → 0 <= k < 512 → va / sz l = 512 * p + k →
  va / sz (l - 1) = p ∧ (va / sz l) mod 512 = k.
Proof.
  intros Hl Hk E. rewrite <- div_up, E by done. split.
  - apply (div_range _ 512 p); lia.
  - rewrite Z.add_comm, Z.mul_comm, Z.mod_add by lia. by apply Z.mod_small.
Qed.

Lemma page_le (x y : Z) : (4096 | x) → (4096 | y) → x - 1 <= y ↔ x <= y.
Proof. intros [a ->] [b ->]. lia. Qed.

(** ** The walk *)

Section Walk.
Context (e : xlat_env).

(** The descriptor that maps [va] and its level, from table [t] of level [l]
    on *)
Fixpoint walk (d : nat) (c : xlat_ctx) (t : tref) (l va : Z) : option (Z * Z) :=
  match d with
  | O => None
  | S d' =>
      desc ← entry c t ((va / sz l) mod 512);
      let ty := Z.land desc DESC_MASK in
      if ty =? INVALID_DESC then None
      else if l =? 3 then Some (desc, l)
      else if ty =? BLOCK_DESC then Some (desc, l)
      else
        i ← table_at e c (Z.land desc TABLE_ADDR_MASK);
        walk d' c (SubT i) (l + 1) va
  end.

(** From a table of level [l], to the last level *)
Definition W (c : xlat_ctx) (t : tref) (l va : Z) : option (Z * Z) :=
  walk (Z.to_nat (4 - l)) c t l va.

(** The translation of the context *)
Definition mapping (c : xlat_ctx) (va : Z) : option (Z * Z) := W c BaseT (base_level c) va.

(** A walk depends on the entries and the number of tables only. *)
Lemma W_ext (c c' : xlat_ctx) (t : tref) (l va : Z) :
  (∀ t k, entry c' t k = entry c t k) → tables_num c' = tables_num c → W c' t l va = W c t l va.
Proof.
  intros He Hn. unfold W. generalize (Z.to_nat (4 - l)) as d. intros d. revert t l.
  induction d as [|d IH]; intros t l; [done|]. cbn [walk]. rewrite He.
  destruct (entry c t _) as [de|]; [|done]. cbn.
  destruct (Z.land de DESC_MASK =? INVALID_DESC); [done|]. destruct (l =? 3); [done|].
  destruct (Z.land de DESC_MASK =? BLOCK_DESC); [done|].
  unfold table_at. rewrite Hn. destruct (_ && _ && _); [|done]. cbn. apply IH.
Qed.

(** ** Pointers in descriptors *)

Definition env_ok (n : Z) : Prop :=
  (4096 | tables_addr e) ∧ 0 < tables_addr e ∧ tables_addr e + 4096 * n <= 2 ^ 48.

Lemma land_3 (x y : Z) : (4096 | x) → 0 <= y < 4096 → Z.land (x + y) 3 = Z.land y 3.
Proof.
  intros [q ->] Hy. change 3 with (Z.ones 2). rewrite !Z.land_ones by lia.
  change (2 ^ 2) with 4. replace (q * 4096 + y) with (y + (q * 1024) * 4) by lia.
  by rewrite Z.mod_add.
Qed.

Lemma lor_page (x y : Z) : (4096 | x) → 0 <= y < 4096 → Z.lor x y = x + y.
Proof.
  intros [q ->] Hy. rewrite <- Z.add_lor_land.
  rewrite <- (Z.mod_small y (2 ^ 12)) at 3 by (change (2 ^ 12) with 4096; lia).
  rewrite <- Z.land_ones, (Z.land_comm y), Z.land_assoc, Z.land_ones by lia.
  change (2 ^ 12) with 4096. rewrite Z.mod_mul by lia. rewrite Z.land_0_l. lia.
Qed.

Lemma table_addr_mask : TABLE_ADDR_MASK = Z.ldiff (Z.ones 48) (Z.ones 12).
Proof. reflexivity. Qed.

Lemma land_addr (x y : Z) : (4096 | x) → 0 <= x < 2 ^ 48 → 0 <= y < 4096 →
  Z.land (x + y) TABLE_ADDR_MASK = x.
Proof.
  intros Hx Hr Hy. rewrite table_addr_mask.
  assert (Z.land (x + y) (Z.ldiff (Z.ones 48) (Z.ones 12))
          = Z.ldiff (Z.land (x + y) (Z.ones 48)) (Z.ones 12)) as ->.
  { apply Z.bits_inj'. intros n Hn. rewrite Z.ldiff_spec, !Z.land_spec, Z.ldiff_spec.
    by rewrite andb_assoc. }
  rewrite Z.land_ones by lia.
  assert (x + 4096 <= 2 ^ 48).
  { destruct Hx as [q ->]. change (2 ^ 48) with (68719476736 * 4096) in *. lia. }
  rewrite Z.mod_small by lia. rewrite Z.ldiff_ones_r, Z.shiftl_mul_pow2, Z.shiftr_div_pow2 by lia.
  change (2 ^ 12) with 4096. destruct Hx as [q ->].
  rewrite (proj2 (div_range (q * 4096 + y) 4096 q ltac:(lia))) by lia. done.
Qed.

Lemma table_addr_page (n i : Z) : env_ok n → (4096 | table_addr e i).
Proof. intros [H _]. unfold table_addr. apply Z.divide_add_r; [done|apply Z.divide_factor_l]. Qed.

Lemma table_desc_val (n i : Z) : env_ok n → table_desc e (SubT i) = table_addr e i + 3.
Proof.
  intros He. cbn [table_desc]. rewrite Z.lor_comm. apply lor_page; [by eapply table_addr_page|].
  unfold TABLE_DESC. lia.
Qed.

Lemma table_desc_type (n i : Z) : env_ok n → Z.land (table_desc e (SubT i)) DESC_MASK = 3.
Proof.
  intros He. rewrite (table_desc_val n) by done. unfold DESC_MASK.
  rewrite land_3; [done|by eapply table_addr_page|lia].
Qed.

Lemma table_desc_at (c : xlat_ctx) (i : Z) :
  env_ok (tables_num c) → 0 <= i < tables_num c →
  table_at e c (Z.land (table_desc e (SubT i)) TABLE_ADDR_MASK) = Some i.
Proof.
  intros He Hi. rewrite (table_desc_val (tables_num c)) by done.
  rewrite land_addr; [|by eapply table_addr_page| |lia].
  - unfold table_at, table_addr, XLAT_TABLE_SIZE.
    replace (tables_addr e + 4096 * i - tables_addr e) with (i * 4096) by lia.
    rewrite Z.mod_mul, Z.div_mul by lia.
    by rewrite (proj2 (Z.leb_le _ _)), (proj2 (Z.ltb_lt _ _)) by lia.
  - destruct He as (_ & ? & ?). unfold table_addr, XLAT_TABLE_SIZE. lia.
Qed.

Lemma table_desc_inj (n i j : Z) : env_ok n →
  table_desc e (SubT i) = table_desc e (SubT j) → i = j.
Proof.
  intros He. rewrite !(table_desc_val n) by done. unfold table_addr, XLAT_TABLE_SIZE. lia.
Qed.

(** ** Well-shaped tables

    [own i] is the level and the position of sub-table [i] when it is in
    use. *)

Definition pos (own : Z → option (Z * Z)) (c : xlat_ctx) (t : tref) : option (Z * Z) :=
  match t with
  | BaseT => Some (base_level c, 0)
  | SubT i => own i
  end.

(** The number of entries of a table of level [l] *)
Definition entries_of (c : xlat_ctx) (l : Z) : Z :=
  if l =? base_level c then base_table_entries c else 512.

Definition entry_ok (own : Z → option (Z * Z)) (l p k d : Z) : Prop :=
  d = 0 ∨ (l < 3 ∧ Z.land d DESC_MASK = BLOCK_DESC) ∨ (l = 3 ∧ Z.land d DESC_MASK = PAGE_DESC)
  ∨ (l < 3 ∧ ∃ i, d = table_desc e (SubT i) ∧ own i = Some (l + 1, 512 * p + k)).

Definition cnt (c : xlat_ctx) (i : Z) : Z := default 0 (zget (tables_mapped_regions c) i).

(** [fresh] is a table that was just linked and whose count is still 0. *)
Record wf (fresh : option Z) (own : Z → option (Z * Z)) (c : xlat_ctx) : Prop := {
  wf_env : env_ok (tables_num c);
  wf_lvl : 0 <= base_level c <= 3;
  wf_base : zlen (base_table c) = base_table_entries c ∧ 1 <= base_table_entries c <= 512;
  wf_tabs : ∀ i tb, zget (tables c) i = Some tb → zlen tb = 512;
  wf_cnts : zlen (tables_mapped_regions c) = tables_num c;
  wf_own : ∀ i l p, own i = Some (l, p) →
    0 <= i < tables_num c ∧ base_level c < l <= 3 ∧ 0 <= p;
  wf_free : ∀ i k, 0 <= i < tables_num c → own i = None → 0 <= k < 512 →
    entry c (SubT i) k = Some 0;
  wf_ent : ∀ t l p k d, pos own c t = Some (l, p) → entry c t k = Some d → entry_ok own l p k d;
  wf_par : ∀ i l p, own i = Some (l, p) →
    ∃ t, pos own c t = Some (l - 1, p / 512) ∧ entry c t (p mod 512) = Some (table_desc e (SubT i));
  wf_cnt : ∀ i, 0 <= i < tables_num c →
    0 <= cnt c i ∧ (own i = None → cnt c i = 0) ∧ (own i ≠ None → fresh ≠ Some i → 0 < cnt c i);
}.

Lemma pos_level (fr : option Z) (own : Z → option (Z * Z)) (c : xlat_ctx) (t : tref) (l p : Z) :
  wf fr own c → pos own c t = Some (l, p) → base_level c <= l <= 3 ∧ 0 <= p.
Proof.
  intros Hw Ht. pose proof (wf_lvl _ _ _ Hw). destruct t as [|i]; cbn in Ht.
  - simplify_eq. lia.
  - pose proof (wf_own _ _ _ Hw _ _ _ Ht). lia.
Qed.

Lemma entry_sub (fr : option Z) (own : Z → option (Z * Z)) (c : xlat_ctx) (i k : Z) :
  wf fr own c → 0 <= i < tables_num c → 0 <= k < 512 → ∃ d, entry c (SubT i) k = Some d.
Proof.
  intros Hw Hi Hk. cbn. destruct (zget_is_Some (tables c) i Hi) as [tb Htb]. rewrite Htb. cbn.
  apply zget_is_Some. rewrite (wf_tabs _ _ _ Hw _ _ Htb). lia.
Qed.

(** The base table ends with the address space. *)
Lemma entry_some (fr : option Z) (own : Z → option (Z * Z)) (c : xlat_ctx) (t : tref) (l p k : Z) :
  wf fr own c → pos own c t = Some (l, p) → 0 <= k < entries_of c l →
  ∃ d, entry c t k = Some d ∧ entry_ok own l p k d.
Proof.
  intros Hw Ht Hk. assert (∃ d, entry c t k = Some d) as [d Hd].
  { unfold entries_of in Hk. destruct t as [|i]; cbn in Ht; simplify_eq.
    - rewrite Z.eqb_refl in Hk. apply zget_is_Some. rewrite (proj1 (wf_base _ _ _ Hw)). lia.
    - pose proof (wf_own _ _ _ Hw _ _ _ Ht). apply (entry_sub fr own); [done|lia|].
      rewrite (proj2 (Z.eqb_neq _ _)) in Hk by lia. lia. }
  exists d. split; [done|]. by eapply (wf_ent _ _ _ Hw).
Qed.

(** Two tables in use are never at the same place. *)
Lemma pos_inj (fr : option Z) (own : Z → option (Z * Z)) (c : xlat_ctx) (t t' : tref) (l p : Z) :
  wf fr own c → pos own c t = Some (l, p) → pos own c t' = Some (l, p) → t = t'.
Proof.
  intros Hw. pose proof (wf_lvl _ _ _ Hw).
  assert (∀ n : nat, ∀ t t' l p, l = base_level c + Z.of_nat n → pos own c t = Some (l, p) →
            pos own c t' = Some (l, p) → t = t') as Hind.
  { intros n. induction n as [|n IH]; intros t1 t2 l1 p1 Hl H1 H2.
    - destruct t1 as [|i]; [|cbn in H1; pose proof (wf_own _ _ _ Hw _ _ _ H1); lia].
      destruct t2 as [|j]; [done|]. cbn in H2. pose proof (wf_own _ _ _ Hw _ _ _ H2). lia.
    - destruct t1 as [|i]; [cbn in H1; simplify_eq; lia|].
      destruct t2 as [|j]; [cbn in H2; simplify_eq; lia|]. cbn in H1, H2.
      destruct (wf_par _ _ _ Hw _ _ _ H1) as (u1 & P1 & E1).
      destruct (wf_par _ _ _ Hw _ _ _ H2) as (u2 & P2 & E2).
      rewrite (IH u2 u1 (l1 - 1) (p1 / 512) ltac:(lia) P2 P1) in E2.
      rewrite E1 in E2. injection E2 as E2.
      f_equal. eapply table_desc_inj; [apply (wf_env _ _ _ Hw)|]. cbn. done. }
  intros H1 H2. pose proof (pos_level _ _ _ _ _ _ Hw H1).
  by apply (Hind (Z.to_nat (l - base_level c)) t t' l p ltac:(lia)).
Qed.

(** One step of a walk *)
Lemma W_step (fr : option Z) (own : Z → option (Z * Z)) (c : xlat_ctx) (t : tref) (l p k d va : Z) :
  wf fr own c → pos own c t = Some (l, p) → va / sz l = 512 * p + k → 0 <= k < 512 →
  entry c t k = Some d →
  W c t l va = (if Z.land d DESC_MASK =? INVALID_DESC then None
                else if l =? 3 then Some (d, l)
                else if Z.land d DESC_MASK =? BLOCK_DESC then Some (d, l)
                else i ← table_at e c (Z.land d TABLE_ADDR_MASK); W c (SubT i) (l + 1) va).
Proof.
  intros Hw Ht Hva Hk Hd. pose proof (pos_level _ _ _ _ _ _ Hw Ht) as [Hl _].
  unfold W. replace (Z.to_nat (4 - l)) with (S (Z.to_nat (4 - (l + 1)))) by lia. cbn [walk].
  destruct (idx_up va l p k) as [_ ->]; [lia|done|done|]. by rewrite Hd.
Qed.

Lemma W_zero (fr : option Z) (own : Z → option (Z * Z)) (c : xlat_ctx) (t : tref) (l p k va : Z) :
  wf fr own c → pos own c t = Some (l, p) → va / sz l = 512 * p + k → 0 <= k < 512 →
  entry c t k = Some 0 → W c t l va = None.
Proof. intros Hw Ht Hva Hk Hd. by rewrite (W_step _ _ _ _ _ _ _ _ _ Hw Ht Hva Hk Hd). Qed.

Lemma W_leaf (fr : option Z) (own : Z → option (Z * Z)) (c : xlat_ctx) (t : tref) (l p k d va : Z) :
  wf fr own c → pos own c t = Some (l, p) → va / sz l = 512 * p + k → 0 <= k < 512 →
  entry c t k = Some d →
  (l = 3 ∧ Z.land d DESC_MASK = PAGE_DESC) ∨ (l < 3 ∧ Z.land d DESC_MASK = BLOCK_DESC) →
  W c t l va = Some (d, l).
Proof.
  intros Hw Ht Hva Hk Hd Hty. rewrite (W_step _ _ _ _ _ _ _ _ _ Hw Ht Hva Hk Hd).
  destruct Hty as [[-> ->]|[Hl ->]]; [done|]. cbn. by destruct (l =? 3).
Qed.

Lemma W_table (fr : option Z) (own : Z → option (Z * Z)) (c : xlat_ctx) (t : tref) (l p k i va : Z) :
  wf fr own c → pos own c t = Some (l, p) → va / sz l = 512 * p + k → 0 <= k < 512 → l < 3 →
  0 <= i < tables_num c → entry c t k = Some (table_desc e (SubT i)) →
  W c t l va = W c (SubT i) (l + 1) va.
Proof.
  intros Hw Ht Hva Hk Hl Hi Hd. rewrite (W_step _ _ _ _ _ _ _ _ _ Hw Ht Hva Hk Hd).
  rewrite (table_desc_type (tables_num c)) by apply (wf_env _ _ _ Hw).
  rewrite (proj2 (Z.eqb_neq l 3)) by lia. cbn [Z.eqb]. change (3 =? INVALID_DESC) with false.
  change (3 =? BLOCK_DESC) with false. cbv iota.
  by rewrite table_desc_at by (done || apply (wf_env _ _ _ Hw)).
Qed.

(** ** Frames *)

(** The two contexts agree outside the table of level [l] at [p] and the
    tables below it. *)
Definition frame (own : Z → option (Z * Z)) (l p : Z) (c c' : xlat_ctx) : Prop :=
  ∀ t l' p' k va, pos own c t = Some (l', p') → 0 <= k < 512 → va / sz l' = 512 * p' + k →
    l' < l ∨ va / sz (l - 1) ≠ p → entry c' t k = entry c t k.

(** The same configuration: everything but the tables, their counts and the
    record of invalidations *)
Definition same_conf (c c' : xlat_ctx) : Prop :=
  set_tables c [] [] [] [] = set_tables c' [] [] [] [] ∧ tables_num c' = tables_num c.

Lemma same_conf_level (c c' : xlat_ctx) : same_conf c c' → base_level c' = base_level c.
Proof. intros [H _]. by apply (f_equal base_level) in H. Qed.

Lemma pos_conf (own : Z → option (Z * Z)) (c c' : xlat_ctx) (t : tref) :
  same_conf c c' → pos own c' t = pos own c t.
Proof. intros Hs. destruct t; cbn; [|done]. by rewrite (same_conf_level _ _ Hs). Qed.

Lemma table_at_conf (c c' : xlat_ctx) (a : Z) : same_conf c c' → table_at e c' a = table_at e c a.
Proof. intros [_ H]. unfold table_at. by rewrite H. Qed.

(** A walk that meets only unchanged entries is unchanged. *)
Lemma W_frame (fr : option Z) (own : Z → option (Z * Z)) (c c' : xlat_ctx) (t : tref) (l p va : Z) :
  wf fr own c → same_conf c c' → pos own c t = Some (l, p) → va / sz (l - 1) = p →
  (∀ t' l' p' k, pos own c t' = Some (l', p') → l <= l' → 0 <= k < 512 →
     va / sz l' = 512 * p' + k → entry c' t' k = entry c t' k) →
  W c' t l va = W c t l va.
Proof.
  intros Hw Hs. pose proof (wf_lvl _ _ _ Hw) as Hb. unfold W.
  remember (Z.to_nat (4 - l)) as d eqn:Hd. revert t l p Hd.
  induction d as [|d IH]; intros t l p Hd Ht Hp Hsame; [done|].
  pose proof (pos_level _ _ _ _ _ _ Hw Ht) as [Hl _]. cbn [walk].
  destruct (idx_of va l p) as [Hi Hk]; [lia|done|].
  rewrite (Hsame t l p _ Ht) by (lia || done).
  destruct (entry c t ((va / sz l) mod 512)) as [de|] eqn:Ede; [|done]. cbn.
  destruct (Z.land de DESC_MASK =? INVALID_DESC) eqn:E0; [done|].
  destruct (Z.eqb_spec l 3); [done|].
  destruct (Z.land de DESC_MASK =? BLOCK_DESC) eqn:E1; [done|].
  rewrite (table_at_conf c c') by done.
  destruct (wf_ent _ _ _ Hw _ _ _ _ _ Ht Ede) as [->|[[_ Hx]|[[Hx _]|(_ & i & -> & Hown)]]].
  - done.
  - rewrite Hx in E1. done.
  - lia.
  - pose proof (wf_own _ _ _ Hw _ _ _ Hown) as (Hi1 & Hl1 & _).
    rewrite table_desc_at by (done || apply (wf_env _ _ _ Hw)). cbn.
    apply (IH (SubT i) (l + 1) (512 * p + (va / sz l) mod 512)).
    + lia.
    + done.
    + by replace (l + 1 - 1) with l by lia.
    + intros t' l' p' k' Ht' Hl'. apply (Hsame t'); [done|lia].
Qed.
End Walk.
