(* ===== verification/XlatDesc.v ===== *)
(** * Translation tables: descriptors

    A block or page descriptor is an address and a set of flags that do not
    overlap; the attributes read back from it are those it was made with. *)

From S2P Require Import Prelude Bits Xlat XlatWalk.

Local Open Scope Z_scope.

Definition regime_ok (c : xlat_ctx) : Prop :=
  xlat_regime c = EL1_EL0_REGIME ∨ xlat_regime c = EL2_REGIME ∨ xlat_regime c = EL3_REGIME.

(** The memory types that are defined *)
Definition type_ok (a : Z) : Prop :=
  MT_TYPE a = MT_DEVICE ∨ MT_TYPE a = MT_NON_CACHEABLE ∨ MT_TYPE a = MT_MEMORY.

Section Desc.
Context (e : xlat_env).

Definition xn_bits (regime : Z) : Z :=
  if (regime =? EL1_EL0_REGIME) || ((regime =? EL2_REGIME) && host_mode e)
  then Z.lor (UPPER_ATTRS UXN) (UPPER_ATTRS PXN) else UPPER_ATTRS XN.

(** The flags of a descriptor: a function of the level, the regime, the memory
    type and four attributes *)
Definition flags (regime : Z) (last : bool) (type : Z) (ns rw user xn : bool) : Z :=
  let lower := Z.lor (Z.lor (Z.lor (if last then PAGE_DESC else BLOCK_DESC)
                 (LOWER_ATTRS ACCESS_FLAG)) (if ns then LOWER_ATTRS NS else 0))
                 (if rw then LOWER_ATTRS AP_RW else LOWER_ATTRS AP_RO) in
  let lower := Z.lor lower
    (if regime =? EL1_EL0_REGIME
     then if user then LOWER_ATTRS AP_ACCESS_UNPRIVILEGED
          else LOWER_ATTRS AP_NO_ACCESS_UNPRIVILEGED
     else LOWER_ATTRS AP_ONE_VA_RANGE_RES1) in
  if type =? MT_DEVICE then
    Z.lor (Z.lor lower (LOWER_ATTRS (Z.lor ATTR_DEVICE_INDEX OSH))) (xn_bits regime)
  else
    let fl := Z.lor lower (if rw || xn then xn_bits regime else 0) in
    if type =? MT_MEMORY then
      Z.lor (Z.lor fl (LOWER_ATTRS (Z.lor ATTR_IWBWA_OWBWA_NTR_INDEX ISH)))
        (if bti_present e && negb (rw || xn) then GP else 0)
    else Z.lor fl (LOWER_ATTRS (Z.lor ATTR_NON_CACHEABLE_INDEX OSH)).

Definition flags_of (c : xlat_ctx) (a level : Z) : Z :=
  flags (xlat_regime c) (level =? 3) (MT_TYPE a) (has a MT_NS) (has a MT_RW) (has a MT_USER)
    (has a MT_EXECUTE_NEVER).

(** The descriptor for attributes [a] at address [pa] *)
Definition desc_val (c : xlat_ctx) (a pa level : Z) : Z := Z.lor pa (flags_of c a level).

Lemma xn_desc_run (c : xlat_ctx) :
  regime_ok c → xlat_arch_regime_get_xn_desc e (xlat_regime c) c = Ok (xn_bits (xlat_regime c), c).
Proof.
  intros Hr. unfold xlat_arch_regime_get_xn_desc, xlat_regime_is_dual, xn_bits.
  destruct Hr as [-> | [-> | ->]]; [done|by destruct (host_mode e)|done].
Qed.

Lemma has_bit (a n : Z) : 0 <= n → has a (Z.shiftl 1 n) = Z.testbit a n.
Proof.
  intros Hn. unfold has. rewrite Z.shiftl_1_l.
  destruct (Z.testbit a n) eqn:E.
  - apply negb_true_iff, Z.eqb_neq. intros H.
    assert (Z.testbit (Z.land a (2 ^ n)) n = false) as Hb by (rewrite H; apply Z.bits_0).
    by rewrite Z.land_spec, E, Z.pow2_bits_true in Hb.
  - apply negb_false_iff, Z.eqb_eq, Z.bits_inj'. intros m Hm.
    rewrite Z.land_spec, Z.bits_0, Z.pow2_bits_eqb by done.
    destruct (Z.eqb_spec n m) as [<-|]; [by rewrite E|by rewrite andb_false_r].
Qed.

(** The test for code: normal memory, read-only and executable *)
Lemma code_test (a : Z) : MT_TYPE a = MT_MEMORY →
  (Z.land a (Z.lor (Z.lor MT_TYPE_MASK MT_RW) MT_EXECUTE_NEVER) =? MT_CODE)
  = negb (has a MT_RW || has a MT_EXECUTE_NEVER).
Proof.
  intros Ht. change (has a MT_RW) with (has a (Z.shiftl 1 3)).
  change (has a MT_EXECUTE_NEVER) with (has a (Z.shiftl 1 5)). rewrite !has_bit by lia.
  assert (Z.land a (Z.lor (Z.lor MT_TYPE_MASK MT_RW) MT_EXECUTE_NEVER)
          = Z.lor (Z.lor (MT_TYPE a) (if Z.testbit a 3 then 8 else 0))
              (if Z.testbit a 5 then 32 else 0)) as ->.
  { rewrite !Z.land_lor_distr_r. f_equal; [f_equal|].
    - pose proof (has_bit a 3 ltac:(lia)) as H. unfold has in H.
      unfold MT_RW. change (Z.shiftl 1 3) with (2 ^ 3) in *. apply Z.bits_inj'. intros m Hm.
      rewrite Z.land_spec, Z.pow2_bits_eqb by lia. destruct (Z.eqb_spec 3 m) as [<-|Hn].
      + by destruct (Z.testbit a 3).
      + rewrite andb_false_r. destruct (Z.testbit a 3); [|by rewrite Z.bits_0].
        change 8 with (2 ^ 3). by rewrite Z.pow2_bits_false.
    - unfold MT_EXECUTE_NEVER. change (Z.shiftl 1 5) with (2 ^ 5). apply Z.bits_inj'. intros m Hm.
      rewrite Z.land_spec, Z.pow2_bits_eqb by lia. destruct (Z.eqb_spec 5 m) as [<-|Hn].
      + by destruct (Z.testbit a 5).
      + rewrite andb_false_r. destruct (Z.testbit a 5); [|by rewrite Z.bits_0].
        change 32 with (2 ^ 5). by rewrite Z.pow2_bits_false. }
  rewrite Ht. by destruct (Z.testbit a 3), (Z.testbit a 5).
Qed.

Lemma xlat_desc_run (c : xlat_ctx) (a pa level : Z) :
  regime_ok c → type_ok a → Z.land pa (XLAT_BLOCK_MASK level) = 0 →
  xlat_desc e a pa level c = Ok (desc_val c a pa level, c).
Proof.
  intros Hr Ht Hpa. unfold xlat_desc. erewrite bind_Ok; [|reflexivity].
  rewrite Hpa. erewrite bind_Ok; [|reflexivity]. cbv zeta.
  erewrite bind_Ok; cycle 1.
  { instantiate (1 := c).
    instantiate (1 := Z.lor pa (Z.lor (Z.lor (Z.lor (Z.lor
      (if level =? 3 then PAGE_DESC else BLOCK_DESC) (LOWER_ATTRS ACCESS_FLAG))
      (if has a MT_NS then LOWER_ATTRS NS else 0))
      (if has a MT_RW then LOWER_ATTRS AP_RW else LOWER_ATTRS AP_RO))
      (if xlat_regime c =? EL1_EL0_REGIME
       then if has a MT_USER then LOWER_ATTRS AP_ACCESS_UNPRIVILEGED
            else LOWER_ATTRS AP_NO_ACCESS_UNPRIVILEGED
       else LOWER_ATTRS AP_ONE_VA_RANGE_RES1))).
    unfold XLAT_TABLE_LEVEL_MAX. rewrite !Z.lor_assoc.
    destruct Hr as [-> | [-> | ->]]; cbn [Z.eqb EL1_EL0_REGIME EL2_REGIME EL3_REGIME];
      [|done..]. by destruct (has a MT_USER). }
  unfold desc_val, flags_of, flags. pose proof (xn_desc_run c Hr) as Hxn.
  destruct Ht as [Ht|[Ht|Ht]]; rewrite Ht.
  - change (MT_DEVICE =? MT_DEVICE) with true. cbv iota zeta.
    rewrite (bind_Ok _ _ _ _ _ Hxn). unfold mret, M_ret. by rewrite !Z.lor_assoc.
  - change (MT_NON_CACHEABLE =? MT_DEVICE) with false.
    change (MT_NON_CACHEABLE =? MT_MEMORY) with false. cbv iota zeta.
    destruct (has a MT_RW || has a MT_EXECUTE_NEVER).
    + erewrite bind_Ok; [|by rewrite (bind_Ok _ _ _ _ _ Hxn)].
      erewrite bind_Ok; [|reflexivity]. unfold mret, M_ret. by rewrite !Z.lor_assoc.
    + erewrite bind_Ok; [|reflexivity]. erewrite bind_Ok; [|reflexivity].
      unfold mret, M_ret. by rewrite Z.lor_0_r, !Z.lor_assoc.
  - change (MT_MEMORY =? MT_DEVICE) with false.
    change (MT_MEMORY =? MT_MEMORY) with true. cbv iota zeta. rewrite (code_test a Ht).
    destruct (has a MT_RW || has a MT_EXECUTE_NEVER).
    + erewrite bind_Ok; [|by rewrite (bind_Ok _ _ _ _ _ Hxn)].
      rewrite andb_false_r. unfold mret, M_ret. by rewrite Z.lor_0_r, !Z.lor_assoc.
    + erewrite bind_Ok; [|reflexivity]. rewrite Z.lor_0_r. unfold mret, M_ret.
      destruct (bti_present e && negb false); by rewrite ?Z.lor_0_r, !Z.lor_assoc.
Qed.


(** ** Reading a descriptor back *)

Lemma land_lor_disj (x y m : Z) : Z.land x m = 0 → Z.land (Z.lor x y) m = Z.land y m.
Proof. intros H. by rewrite Z.land_lor_distr_l, H, Z.lor_0_l. Qed.

Lemma shiftr_land (x k m : Z) : 0 <= k →
  Z.land (Z.shiftr x k) m = Z.shiftr (Z.land x (Z.shiftl m k)) k.
Proof.
  intros Hk. apply Z.bits_inj'. intros n Hn.
  rewrite Z.land_spec, !Z.shiftr_spec, Z.land_spec, Z.shiftl_spec by lia.
  do 2 f_equal. lia.
Qed.

Lemma page_low (x m : Z) : (4096 | x) → 0 <= m < 4096 → Z.land x m = 0.
Proof.
  intros [q ->] Hm. rewrite <- (Z.mod_small m (2 ^ 12)) by done.
  rewrite <- Z.land_ones, (Z.land_comm m), Z.land_assoc, Z.land_ones by lia.
  change (2 ^ 12) with 4096. by rewrite Z.mod_mul.
Qed.

Lemma pa_high (x m : Z) : 0 <= x < 2 ^ 48 → Z.land m (Z.ones 48) = 0 → Z.land x m = 0.
Proof.
  intros Hx Hm. rewrite <- (Z.mod_small x (2 ^ 48)) by done.
  by rewrite <- Z.land_ones, <- Z.land_assoc, (Z.land_comm (Z.ones 48)), Hm, Z.land_0_r by lia.
Qed.

(** Every combination of what the flags depend on *)
Ltac all_flags :=
  intros [-> | [-> | ->]] [-> | [-> | ->]]; unfold flags, xn_bits;
  destruct (host_mode e), (bti_present e);
  repeat match goal with b : bool |- _ => destruct b end; vm_compute; done.

Definition regime_val (r : Z) : Prop := r = EL1_EL0_REGIME ∨ r = EL2_REGIME ∨ r = EL3_REGIME.
Definition type_val (t : Z) : Prop := t = MT_DEVICE ∨ t = MT_NON_CACHEABLE ∨ t = MT_MEMORY.

Lemma flags_type (r t : Z) (last ns rw user xn : bool) :
  regime_val r → type_val t →
  Z.land (flags r last t ns rw user xn) DESC_MASK = if last then PAGE_DESC else BLOCK_DESC.
Proof. all_flags. Qed.

Lemma flags_addr (r t : Z) (last ns rw user xn : bool) :
  regime_val r → type_val t →
  Z.land (flags r last t ns rw user xn) TABLE_ADDR_MASK = 0.
Proof. all_flags. Qed.

Lemma flags_attr_index (r t : Z) (last ns rw user xn : bool) :
  regime_val r → type_val t →
  Z.shiftr (Z.land (flags r last t ns rw user xn) (Z.shiftl ATTR_INDEX_MASK ATTR_INDEX_SHIFT))
    ATTR_INDEX_SHIFT
  = if t =? MT_DEVICE then ATTR_DEVICE_INDEX
    else if t =? MT_MEMORY then ATTR_IWBWA_OWBWA_NTR_INDEX else ATTR_NON_CACHEABLE_INDEX.
Proof. all_flags. Qed.

Lemma flags_ap2 (r t : Z) (last ns rw user xn : bool) :
  regime_val r → type_val t →
  Z.shiftr (Z.land (flags r last t ns rw user xn) (Z.shiftl 1 AP2_SHIFT)) AP2_SHIFT
  = if rw then AP2_RW else AP2_RO.
Proof. all_flags. Qed.

Lemma flags_ap1 (r t : Z) (last ns rw user xn : bool) :
  regime_val r → type_val t →
  Z.shiftr (Z.land (flags r last t ns rw user xn) (Z.shiftl 1 AP1_SHIFT)) AP1_SHIFT
  = if (r =? EL1_EL0_REGIME) && negb user then 0 else 1.
Proof. all_flags. Qed.

Lemma flags_ns (r t : Z) (last ns rw user xn : bool) :
  regime_val r → type_val t →
  Z.shiftr (Z.land (flags r last t ns rw user xn) (Z.shiftl 1 NS_SHIFT)) NS_SHIFT
  = if ns then 1 else 0.
Proof. all_flags. Qed.

Lemma flags_xn (r t : Z) (last ns rw user xn : bool) :
  regime_val r → type_val t →
  Z.land (flags r last t ns rw user xn) (xn_bits r)
  = if (t =? MT_DEVICE) || rw || xn then xn_bits r else 0.
Proof. all_flags. Qed.

Lemma xn_bits_nz (r : Z) : xn_bits r ≠ 0.
Proof. unfold xn_bits. by destruct (_ || _). Qed.

Section desc_facts.
Context (c : xlat_ctx) (a pa level : Z).
Context (Hr : regime_ok c) (Ht : type_ok a) (Hpage : (4096 | pa)) (Hpa : 0 <= pa < 2 ^ 48).

Lemma desc_val_type :
  Z.land (desc_val c a pa level) DESC_MASK = if level =? 3 then PAGE_DESC else BLOCK_DESC.
Proof.
  unfold desc_val, DESC_MASK. rewrite land_lor_disj by (apply page_low; [done|lia]).
  by apply flags_type.
Qed.

Lemma desc_val_addr : Z.land (desc_val c a pa level) TABLE_ADDR_MASK = pa.
Proof.
  unfold desc_val. rewrite Z.land_lor_distr_l. unfold flags_of. rewrite flags_addr by done.
  rewrite Z.lor_0_r. rewrite <- (Z.add_0_r pa) at 1. apply land_addr; [done|done|lia].
Qed.

(** The attributes a mapping ends up with: device memory and writable memory
    are never executable, and only the EL1&0 regime has user mappings. *)
Definition effective_attr : Z :=
  Z.lor (Z.lor (Z.lor (Z.lor (MT_TYPE a) (if has a MT_RW then MT_RW else 0))
    (if (xlat_regime c =? EL1_EL0_REGIME) && has a MT_USER then MT_USER else 0))
    (if has a MT_NS then MT_NS else 0))
    (if (MT_TYPE a =? MT_DEVICE) || has a MT_RW || has a MT_EXECUTE_NEVER
     then MT_EXECUTE_NEVER else 0).

Lemma desc_low (m : Z) : 0 <= m < 4096 →
  Z.land (desc_val c a pa level) m = Z.land (flags_of c a level) m.
Proof. intros Hm. apply land_lor_disj. by apply page_low. Qed.

Lemma desc_attributes_run :
  desc_attributes e (xlat_regime c) (desc_val c a pa level) c = Ok (effective_attr, c).
Proof.
  assert (Z.land (desc_val c a pa level) (xn_bits (xlat_regime c))
          = if (MT_TYPE a =? MT_DEVICE) || has a MT_RW || has a MT_EXECUTE_NEVER
            then xn_bits (xlat_regime c) else 0) as Hxn.
  { unfold desc_val. rewrite land_lor_disj; [by apply flags_xn|]. apply pa_high; [done|].
    unfold xn_bits. by destruct (_ || _). }
  unfold desc_attributes. rewrite !shiftr_land by done. rewrite !desc_low by (vm_compute; intuition congruence).
  unfold flags_of. rewrite flags_attr_index, flags_ap2, flags_ap1, flags_ns by done.
  erewrite (bind_Ok _ _ _ c (MT_TYPE a)); cycle 1.
  { destruct Ht as [-> | [-> | ->]]; reflexivity. }
  cbv zeta. rewrite (bind_Ok _ _ _ _ _ (xn_desc_run c Hr)), Hxn.
  pose proof (xn_bits_nz (xlat_regime c)) as Hnz.
  set (x := (MT_TYPE a =? MT_DEVICE) || has a MT_RW || has a MT_EXECUTE_NEVER).
  assert (((if x then xn_bits (xlat_regime c) else 0) =? xn_bits (xlat_regime c)) = x) as ->.
  { destruct x; [apply Z.eqb_refl|by apply Z.eqb_neq]. }
  assert (∀ m, (if x then mret (Z.lor m MT_EXECUTE_NEVER)
           else assert_ ((if x then xn_bits (xlat_regime c) else 0) =? 0);; mret m) c
          = Ok (Z.lor m (if x then MT_EXECUTE_NEVER else 0), c)) as ->.
  { intros m. destruct x; [done|]. by rewrite Z.lor_0_r. }
  unfold effective_attr. fold x. do 2 f_equal. f_equal.
  destruct (has a MT_RW), (xlat_regime c =? EL1_EL0_REGIME), (has a MT_USER), (has a MT_NS);
    cbn; rewrite ?Z.lor_0_r; done.
Qed.
End desc_facts.

(** A descriptor determines its address and what its attributes come to. *)
Lemma desc_val_inj (c : xlat_ctx) (a a' pa pa' level : Z) :
  regime_ok c → type_ok a → (4096 | pa) → 0 <= pa < 2 ^ 48 →
  type_ok a' → (4096 | pa') → 0 <= pa' < 2 ^ 48 →
  desc_val c a pa level = desc_val c a' pa' level →
  pa = pa' ∧ effective_attr c a = effective_attr c a'.
Proof.
  intros Hr Ha Hg Hp Ha' Hg' Hp' E.
  pose proof (desc_attributes_run c a pa level Hr Ha Hg Hp) as R1.
  pose proof (desc_val_addr c a pa level Hr Ha Hg Hp) as A1. rewrite E in R1, A1.
  rewrite desc_attributes_run in R1 by done. rewrite desc_val_addr in A1 by done.
  split; congruence.
Qed.
End Desc.
