(* ===== verification/XlatTree.v ===== *)
(** * Translation tables: writing to well-shaped tables

    How the accesses to entries and counts run, and that linking a table,
    writing a leaf and counting keep the tables well-shaped. *)

From S2P Require Import Prelude Bits Xlat XlatWalk XlatDesc.

Local Open Scope Z_scope.

Section Tree.
Context (e : xlat_env).

(** ** Entries *)

Lemma entry_put_eq (c : xlat_ctx) (t : tref) (k d d0 : Z) :
  entry c t k = Some d0 → entry (put_entry c t k d) t k = Some d.
Proof.
  destruct t as [|i]; cbn; intros H.
  - apply zget_zset_eq. by eapply zget_Some_range.
  - destruct (zget (tables c) i) as [tb|] eqn:E; [|done]. cbn in *.
    rewrite zget_zset_eq by (by eapply zget_Some_range). cbn.
    apply zget_zset_eq. by eapply zget_Some_range.
Qed.

Lemma entry_put_ne (c : xlat_ctx) (t t' : tref) (k k' d : Z) :
  t ≠ t' ∨ k ≠ k' → entry (put_entry c t k d) t' k' = entry c t' k'.
Proof.
  intros Hne. destruct t as [|i], t' as [|j]; cbn.
  - apply zget_zset_ne. destruct Hne; congruence.
  - done.
  - by destruct (zget (tables c) i).
  - destruct (zget (tables c) i) as [tb|] eqn:E; [|done]. cbn.
    destruct (decide (i = j)) as [->|Hij].
    + rewrite zget_zset_eq by (by eapply zget_Some_range). rewrite E. cbn.
      apply zget_zset_ne. destruct Hne; congruence.
    + by rewrite zget_zset_ne.
Qed.

Lemma put_entry_conf (c : xlat_ctx) (t : tref) (k d : Z) : same_conf c (put_entry c t k d).
Proof.
  unfold same_conf, tables_num. destruct t as [|i]; cbn; [done|].
  destruct (zget (tables c) i); cbn; [|done]. by rewrite zlen_zset.
Qed.

Lemma put_entry_cnt (c : xlat_ctx) (t : tref) (k d : Z) :
  tables_mapped_regions (put_entry c t k d) = tables_mapped_regions c.
Proof. destruct t as [|i]; cbn; [done|]. by destruct (zget (tables c) i). Qed.

Lemma put_entry_lens (c : xlat_ctx) (t : tref) (k d : Z) :
  zlen (base_table (put_entry c t k d)) = zlen (base_table c)
  ∧ ((∀ i tb, zget (tables c) i = Some tb → zlen tb = 512) →
     ∀ i tb, zget (tables (put_entry c t k d)) i = Some tb → zlen tb = 512).
Proof.
  destruct t as [|j]; cbn; [by rewrite zlen_zset|].
  destruct (zget (tables c) j) as [tb'|] eqn:E; cbn; [|done]. split; [done|].
  intros H i tb. destruct (decide (j = i)) as [->|Hne].
  - rewrite zget_zset_eq by (by eapply zget_Some_range). intros ?; simplify_eq.
    rewrite zlen_zset. by eapply H.
  - rewrite zget_zset_ne by done. apply H.
Qed.

Lemma read_entry_run (c : xlat_ctx) (t : tref) (k d : Z) :
  entry c t k = Some d → read_entry t k c = Ok (d, c).
Proof. intros H. unfold read_entry. by rewrite H. Qed.

Lemma put_entry_run (c : xlat_ctx) (t : tref) (k d d0 : Z) :
  entry c t k = Some d0 → write_entry t k d c = Ok (tt, put_entry c t k d).
Proof. intros H. unfold write_entry. by rewrite H. Qed.

Lemma subtable_of_run (c : xlat_ctx) (i : Z) :
  env_ok e (tables_num c) → 0 <= i < tables_num c →
  subtable_of e (table_desc e (SubT i)) c = Ok (SubT i, c).
Proof. intros He Hi. unfold subtable_of. by rewrite table_desc_at. Qed.

(** ** Configurations *)

Lemma same_conf_refl (c : xlat_ctx) : same_conf c c.
Proof. done. Qed.

Lemma same_conf_trans (c1 c2 c3 : xlat_ctx) :
  same_conf c1 c2 → same_conf c2 c3 → same_conf c1 c3.
Proof. intros [H1 H2] [H3 H4]. split; congruence. Qed.

Lemma same_conf_fields (c c' : xlat_ctx) : same_conf c c' →
  base_level c' = base_level c ∧ base_table_entries c' = base_table_entries c
  ∧ xlat_regime c' = xlat_regime c ∧ va_max_address c' = va_max_address c
  ∧ pa_max_address c' = pa_max_address c ∧ mmap c' = mmap c ∧ mmap_num c' = mmap_num c
  ∧ max_va c' = max_va c ∧ max_pa c' = max_pa c ∧ initialized c' = initialized c
  ∧ tables_num c' = tables_num c.
Proof.
  intros [H Hn].
  repeat (split; [match goal with |- ?f _ = ?f _ => by apply (f_equal f) in H end|]). done.
Qed.

Lemma conf_regime (c c' : xlat_ctx) : same_conf c c' → regime_ok c → regime_ok c'.
Proof. intros Hs. unfold regime_ok. by destruct (same_conf_fields _ _ Hs) as (_ & _ & -> & _). Qed.

Lemma conf_desc (c c' : xlat_ctx) (a pa l : Z) :
  same_conf c c' → desc_val e c' a pa l = desc_val e c a pa l.
Proof.
  intros Hs. unfold desc_val, flags_of. by destruct (same_conf_fields _ _ Hs) as (_ & _ & -> & _).
Qed.

Lemma entries_conf (c c' : xlat_ctx) (l : Z) : same_conf c c' → entries_of c' l = entries_of c l.
Proof.
  intros Hs. unfold entries_of. by destruct (same_conf_fields _ _ Hs) as (-> & -> & _).
Qed.

(** ** Counts *)

Definition with_counts (c : xlat_ctx) (l : list Z) : xlat_ctx :=
  set_tables c (base_table c) (tables c) l (tlbi c).

Lemma get_index_run (c : xlat_ctx) (i : Z) :
  0 <= i < tables_num c → xlat_table_get_index (SubT i) c = Ok (i, c).
Proof.
  intros Hi. unfold xlat_table_get_index. erewrite bind_Ok; [|reflexivity].
  by rewrite (proj2 (Z.leb_le _ _)), (proj2 (Z.ltb_lt _ _)) by lia.
Qed.

Lemma cnt_get (c : xlat_ctx) (i : Z) :
  0 <= i < zlen (tables_mapped_regions c) → zget (tables_mapped_regions c) i = Some (cnt c i).
Proof. intros Hi. unfold cnt. by destruct (zget_is_Some _ _ Hi) as [n ->]. Qed.

Definition bump_count (c : xlat_ctx) (i n : Z) : xlat_ctx :=
  with_counts c (zset (tables_mapped_regions c) i (cnt c i + n)).

Lemma add_count_run (c : xlat_ctx) (i n : Z) :
  0 <= i < zlen (tables_mapped_regions c) → add_count i n c = Ok (tt, bump_count c i n).
Proof.
  intros Hi. unfold add_count. erewrite bind_Ok; [|reflexivity].
  erewrite bind_Ok; [|apply aget_Ok, cnt_get; done].
  erewrite bind_Ok; [|by apply aset_Ok]. done.
Qed.

Lemma cnt_bump (c : xlat_ctx) (i j n : Z) :
  0 <= i < zlen (tables_mapped_regions c) →
  cnt (bump_count c i n) j = if decide (i = j) then cnt c i + n else cnt c j.
Proof.
  intros Hi. unfold cnt at 1, bump_count, with_counts. cbn.
  case_decide as Hd; [subst j; by rewrite zget_zset_eq|by rewrite zget_zset_ne].
Qed.

Lemma find_empty_spec (l : list Z) (i0 : Z) :
  match find_empty l i0 with
  | Some t => ∃ i, t = SubT (i0 + i) ∧ zget l i = Some 0
  | None => ∀ i n, zget l i = Some n → n ≠ 0
  end.
Proof.
  revert i0. induction l as [|n l IH]; intros i0; cbn [find_empty].
  - intros i n Hi. apply zget_Some_range in Hi. cbn in Hi. unfold zlen in Hi. cbn in Hi. lia.
  - destruct (Z.eqb_spec n 0) as [->|Hn].
    + exists 0. split; [by rewrite Z.add_0_r|done].
    + specialize (IH (i0 + 1)). destruct (find_empty l (i0 + 1)) as [t|].
      * destruct IH as (i & -> & Hi). exists (i + 1). split; [f_equal; lia|].
        apply zget_Some_range in Hi as Hr. rewrite zget_cons.
        rewrite (proj2 (Z.eqb_neq _ _)) by lia. by replace (i + 1 - 1) with i by lia.
      * intros i m. rewrite zget_cons. destruct (i =? 0); [by intros ?; simplify_eq|]. apply IH.
Qed.

(** Every sub-table is in use. *)
Definition exhausted (c : xlat_ctx) : Prop := ∀ i, 0 <= i < tables_num c → cnt c i ≠ 0.

Lemma get_empty_run (own : Z → option (Z * Z)) (c : xlat_ctx) :
  wf e None own c →
  (∃ i, xlat_table_get_empty c = Ok (Some (SubT i), c) ∧ 0 <= i < tables_num c ∧ own i = None
        ∧ cnt c i = 0)
  ∨ (xlat_table_get_empty c = Ok (None, c) ∧ exhausted c).
Proof.
  intros Hw. unfold xlat_table_get_empty. erewrite bind_Ok; [|reflexivity].
  pose proof (find_empty_spec (tables_mapped_regions c) 0) as H.
  pose proof (wf_cnts _ _ _ _ Hw) as Hlen.
  destruct (find_empty (tables_mapped_regions c) 0) as [t|].
  - destruct H as (i & -> & Hi). left. exists i. apply zget_Some_range in Hi as Hr.
    assert (cnt c i = 0) as Hz by (unfold cnt; by rewrite Hi).
    split_and!; [done|lia|lia| |done].
    destruct (own i) as [q|] eqn:Eo; [|done]. exfalso.
    destruct (wf_cnt _ _ _ _ Hw i ltac:(lia)) as (_ & _ & Hp).
    rewrite Hz in Hp. specialize (Hp ltac:(congruence) ltac:(done)). lia.
  - right. split; [done|]. intros i Hi. apply (H i). apply cnt_get. lia.
Qed.

(** ** Well-shaped tables stay so *)

Lemma wf_fresh (fr : option Z) (own : Z → option (Z * Z)) (c : xlat_ctx) :
  wf e None own c → wf e fr own c.
Proof.
  intros []. split; try done. intros i Hi. destruct (wf_cnt i Hi) as (? & ? & H).
  split_and!; [done|done|]. intros. by apply H.
Qed.

(** A table's first region is counted. *)
Lemma wf_bump (own : Z → option (Z * Z)) (c : xlat_ctx) (i : Z) :
  wf e (Some i) own c → own i ≠ None → wf e None own (bump_count c i 1).
Proof.
  intros Hw Ho. destruct (own i) as [[l p]|] eqn:Eo; [|done].
  pose proof (wf_own _ _ _ _ Hw _ _ _ Eo) as (Hi & _).
  pose proof (wf_cnts _ _ _ _ Hw) as Hlen.
  destruct Hw. split; try done.
  - cbn. by rewrite zlen_zset.
  - intros j Hj. rewrite cnt_bump by lia. case_decide as Hd.
    + subst j. destruct (wf_cnt i Hj) as (? & _). rewrite Eo. split_and!; [lia|done|lia].
    + destruct (wf_cnt j Hj) as (? & ? & H). split_and!; [done|done|]. intros ? _. apply H; congruence.
Qed.

(** What an entry that is not a link to a table may hold *)
Definition leaf_ok (l d : Z) : Prop :=
  d = 0 ∨ (l < 3 ∧ Z.land d DESC_MASK = BLOCK_DESC) ∨ (l = 3 ∧ Z.land d DESC_MASK = PAGE_DESC).

Lemma leaf_not_table (n l d i : Z) :
  env_ok e n → leaf_ok l d → l < 3 → d ≠ table_desc e (SubT i).
Proof.
  intros He Hd Hl ->. pose proof (table_desc_type e n i He) as Hty.
  destruct Hd as [H|[[_ H]|[H _]]]; [rewrite H in Hty; done|rewrite Hty in H; done|lia].
Qed.

Lemma wf_put_leaf (fr : option Z) (own : Z → option (Z * Z)) (c : xlat_ctx) (t : tref)
    (l p k d0 d : Z) :
  wf e fr own c → pos own c t = Some (l, p) → entry c t k = Some d0 →
  leaf_ok l d0 → leaf_ok l d → wf e fr own (put_entry c t k d).
Proof.
  intros Hw Ht Hd0 Hok0 Hok. pose proof (put_entry_conf c t k d) as Hs.
  destruct (same_conf_fields _ _ Hs) as (Fl & Fe & _ & _ & _ & _ & _ & _ & _ & _ & Fn).
  pose proof (put_entry_lens c t k d) as [Lb Lt].
  split.
  - rewrite Fn. apply (wf_env _ _ _ _ Hw).
  - rewrite Fl. apply (wf_lvl _ _ _ _ Hw).
  - rewrite Lb, Fe. apply (wf_base _ _ _ _ Hw).
  - apply Lt, (wf_tabs _ _ _ _ Hw).
  - rewrite put_entry_cnt, Fn. apply (wf_cnts _ _ _ _ Hw).
  - rewrite Fn, Fl. apply (wf_own _ _ _ _ Hw).
  - rewrite Fn. intros i k' Hi Ho Hk'. rewrite entry_put_ne.
    + by apply (wf_free _ _ _ _ Hw).
    + left. intros ->. cbn in Ht. congruence.
  - intros t' l' p' k' d'. rewrite (pos_conf _ c _ _ Hs). intros Ht' Hd'.
    destruct (decide (t = t' ∧ k = k')) as [[<- <-]|Hne].
    + rewrite Ht in Ht'. simplify_eq. rewrite (entry_put_eq _ _ _ _ _ Hd0) in Hd'. simplify_eq.
      destruct Hok as [?|[?|?]]; [by left|by right; left|by right; right; left].
    + rewrite entry_put_ne in Hd' by (destruct (decide (t = t')); [right|left]; naive_solver).
      by apply (wf_ent _ _ _ _ Hw t').
  - intros i li pi Hi. destruct (wf_par _ _ _ _ Hw _ _ _ Hi) as (u & Hu & Eu).
    exists u. rewrite (pos_conf _ c _ _ Hs). split; [done|].
    pose proof (wf_own _ _ _ _ Hw _ _ _ Hi) as (_ & Hli & _).
    rewrite entry_put_ne; [done|].
    destruct (decide (t = u)) as [<-|]; [|by left]. right. intros ->.
    rewrite Ht in Hu. simplify_eq.
    by eapply leaf_not_table; [apply (wf_env _ _ _ _ Hw)|exact Hok0|lia|].
  - rewrite Fn. intros i Hi. unfold cnt. rewrite put_entry_cnt. by apply (wf_cnt _ _ _ _ Hw).
Qed.

(** A free table is linked from an invalid entry. *)
Definition own_add (own : Z → option (Z * Z)) (i l p : Z) : Z → option (Z * Z) :=
  λ j, if decide (j = i) then Some (l, p) else own j.

Lemma wf_link (own : Z → option (Z * Z)) (c : xlat_ctx) (t : tref) (l p k i : Z) :
  wf e None own c → pos own c t = Some (l, p) → entry c t k = Some 0 → 0 <= k < 512 → l < 3 →
  0 <= i < tables_num c → own i = None →
  wf e (Some i) (own_add own i (l + 1) (512 * p + k)) (put_entry c t k (table_desc e (SubT i))).
Proof.
  intros Hw Ht Hd0 Hk Hl Hi Ho. set (d := table_desc e (SubT i)).
  pose proof (put_entry_conf c t k d) as Hs.
  destruct (same_conf_fields _ _ Hs) as (Fl & Fe & _ & _ & _ & _ & _ & _ & _ & _ & Fn).
  pose proof (put_entry_lens c t k d) as [Lb Lt].
  pose proof (pos_level _ _ _ _ _ _ _ Hw Ht) as [Hlt Hp].
  assert (t ≠ SubT i) as Hti by (intros ->; cbn in Ht; congruence).
  assert (∀ j x, own j = Some x → own_add own i (l + 1) (512 * p + k) j = Some x) as Hmono.
  { intros j x Hj. unfold own_add. case_decide; [congruence|done]. }
  split.
  - rewrite Fn. apply (wf_env _ _ _ _ Hw).
  - rewrite Fl. apply (wf_lvl _ _ _ _ Hw).
  - rewrite Lb, Fe. apply (wf_base _ _ _ _ Hw).
  - apply Lt, (wf_tabs _ _ _ _ Hw).
  - rewrite put_entry_cnt, Fn. apply (wf_cnts _ _ _ _ Hw).
  - rewrite Fn, Fl. intros j lj pj. unfold own_add. case_decide as Hj.
    + intros ?; simplify_eq. lia.
    + apply (wf_own _ _ _ _ Hw).
  - rewrite Fn. intros j k' Hj. unfold own_add. case_decide as Hd; [done|]. intros Hoj Hk'.
    rewrite entry_put_ne by (left; intros ->; cbn in Ht; congruence).
    by apply (wf_free _ _ _ _ Hw).
  - intros t' l' p' k' d' Ht' Hd'. destruct (decide (t' = SubT i)) as [->|Hne].
    + left. rewrite entry_put_ne in Hd' by (by left). cbn [pos] in Ht'.
      destruct (decide (0 <= k' < 512)) as [Hk'|Hk'].
      * rewrite (wf_free _ _ _ _ Hw i k' Hi Ho Hk') in Hd'. congruence.
      * exfalso. cbn in Hd'. destruct (zget (tables c) i) as [tb|] eqn:E; [|done]. cbn in Hd'.
        apply zget_Some_range in Hd'. rewrite (wf_tabs _ _ _ _ Hw _ _ E) in Hd'. lia.
    + assert (pos own c t' = Some (l', p')) as Ht''.
      { destruct t' as [|j]; cbn [pos] in Ht' |- *; [by rewrite Fl in Ht'|].
        unfold own_add in Ht'. case_decide; congruence. }
      destruct (decide (t = t' ∧ k = k')) as [[<- <-]|Hne'].
      * rewrite Ht in Ht''. simplify_eq. rewrite (entry_put_eq _ _ _ _ _ Hd0) in Hd'. simplify_eq.
        right; right; right. split; [done|]. exists i. split; [done|].
        unfold own_add. by rewrite decide_True.
      * rewrite entry_put_ne in Hd' by (destruct (decide (t = t')); [right|left]; naive_solver).
        destruct (wf_ent _ _ _ _ Hw t' _ _ _ _ Ht'' Hd') as [?|[?|[?|(? & j & ? & Hj)]]];
          [by left|by right; left|by right; right; left|].
        right; right; right. split; [done|]. exists j. split; [done|]. by apply Hmono.
  - intros j lj pj Hj. unfold own_add in Hj. case_decide as Hd.
    + simplify_eq. exists t. replace (l + 1 - 1) with l by lia.
      rewrite (proj2 (div_range (512 * p + k) 512 p ltac:(lia))) by lia.
      replace ((512 * p + k) mod 512) with k.
      * split; [|by eapply entry_put_eq].
        destruct t as [|j]; cbn [pos] in Ht |- *; [by rewrite Fl|by apply Hmono].
      * rewrite Z.add_comm, Z.mul_comm, Z.mod_add by lia. symmetry. by apply Z.mod_small.
    + destruct (wf_par _ _ _ _ Hw _ _ _ Hj) as (u & Hu & Eu). exists u. split.
      * destruct u as [|u]; cbn [pos] in Hu |- *; [by rewrite Fl|by apply Hmono].
      * rewrite entry_put_ne; [done|]. destruct (decide (t = u)) as [<-|]; [|by left]. right.
        intros ->. rewrite Hd0 in Eu. injection Eu as Eu.
        pose proof (table_desc_type e _ j (wf_env _ _ _ _ Hw)) as Hty. cbn in Hty.
        rewrite <- Eu in Hty. done.
  - rewrite Fn. intros j Hj. unfold cnt. rewrite put_entry_cnt. fold (cnt c j).
    destruct (wf_cnt _ _ _ _ Hw j Hj) as (H1 & H2 & H3). unfold own_add.
    case_decide as Hd; [subst j; split_and!; [done|done|congruence]|].
    split_and!; [done|done|]. intros Hne _. by apply H3.
Qed.
End Tree.
