(* ===== verification/XlatMap.v ===== *)
(** * Translation tables: mapping a region

    [xlat_tables_map_region()] on well-shaped tables either runs out of tables
    or extends the translation by the region: an address that was mapped keeps
    its descriptor, a new one gets the region's, and the count of each table
    the region meets goes up by one. *)

From S2P Require Import Prelude Bits Xlat XlatWalk XlatDesc XlatTree.

Local Open Scope Z_scope.

(** ** Masks and shifts as arithmetic *)

Lemma shiftr_sz (x l : Z) : l <= 3 → Z.shiftr x (XLAT_ADDR_SHIFT l) = x / sz l.
Proof.
  intros Hl. rewrite sz_pow by done. unfold XLAT_ADDR_SHIFT, PAGE_SIZE_SHIFT, XLAT_TABLE_LEVEL_MAX,
    XLAT_TABLE_ENTRIES_SHIFT. by rewrite Z.shiftr_div_pow2 by lia.
Qed.

Lemma block_mask (l : Z) : l <= 3 → XLAT_BLOCK_MASK l = Z.ones (12 + (3 - l) * 9).
Proof.
  intros Hl. rewrite Z.ones_equiv. unfold XLAT_BLOCK_MASK. change (XLAT_BLOCK_SIZE l) with (sz l).
  rewrite sz_pow by done. lia.
Qed.

Lemma mask_mod (x l : Z) : l <= 3 → Z.land x (XLAT_BLOCK_MASK l) = x mod sz l.
Proof. intros Hl. by rewrite block_mask, Z.land_ones, sz_pow by lia. Qed.

Lemma mask_floor (x l : Z) : l <= 3 → Z.ldiff x (XLAT_BLOCK_MASK l) = x / sz l * sz l.
Proof.
  intros Hl. rewrite block_mask, sz_pow by done.
  by rewrite Z.ldiff_ones_r, Z.shiftl_mul_pow2, Z.shiftr_div_pow2 by lia.
Qed.

Lemma page_up (x l : Z) : l <= 3 → (4096 | x * sz l).
Proof. intros Hl. apply Z.divide_mul_r. by apply sz_page. Qed.

(** Blocks of two levels are nested or disjoint: a multiple of the larger size
    does not cut a block of the smaller. *)
Lemma sz_divide (l l' : Z) : l <= l' <= 3 → (sz l' | sz l).
Proof.
  intros Hl. rewrite !sz_pow by lia. exists (2 ^ ((l' - l) * 9)).
  rewrite <- Z.pow_add_r by lia. f_equal. lia.
Qed.

Lemma block_cut (l l' m q va va' : Z) :
  l <= l' <= 3 → va / sz l' = q → va' / sz l' = q → va < m * sz l → va' < m * sz l.
Proof.
  intros Hl H1 H2 Hlt. destruct (sz_divide l l' Hl) as [x Hx]. pose proof (sz_pos l' ltac:(lia)).
  apply div_range in H1, H2; [|lia..]. rewrite Hx in *.
  assert (q < m * x) by nia. nia.
Qed.

Lemma entry_range (va l p k : Z) : l <= 3 →
  va / sz l = 512 * p + k ↔ (512 * p + k) * sz l <= va < (512 * p + k + 1) * sz l.
Proof.
  intros Hl. pose proof (sz_pos l Hl). rewrite div_range by lia.
  by replace ((512 * p + k + 1) * sz l) with ((512 * p + k) * sz l + sz l) by lia.
Qed.

Lemma table_range (va l p : Z) : l <= 3 →
  va / sz (l - 1) = p ↔ 512 * p * sz l <= va < 512 * (p + 1) * sz l.
Proof.
  intros Hl. pose proof (sz_pos l Hl). rewrite sz_up by done. rewrite div_range by lia.
  split; intros; nia.
Qed.


(** ** Regions *)

(** One past the last address *)
Definition rend (r : mmap_region_t) : Z := base_va r + size r.

Definition in_r (r : mmap_region_t) (va : Z) : Prop := base_va r <= va < rend r.

Record region_ok (c : xlat_ctx) (r : mmap_region_t) : Prop := {
  ro_va : (4096 | base_va r);
  ro_pa : (4096 | base_pa r);
  ro_size : (4096 | size r);
  ro_va0 : 0 <= base_va r;
  ro_pa0 : 0 <= base_pa r;
  ro_pos : 0 < size r;
  ro_end : rend r <= base_table_entries c * sz (base_level c);
  ro_pa_end : base_pa r + size r <= 2 ^ 48;
  ro_type : type_ok (attr r);
  ro_gran : granularity r = sz 1 ∨ granularity r = sz 2 ∨ granularity r = sz 3;
}.

Section Region.
Context (e : xlat_env) (c0 : xlat_ctx) (r : mmap_region_t).

(** The descriptor and level that map [va] for the region: a block inside the
    region, at most as large as the granularity, with the attributes of the
    region and its offset between virtual and physical addresses *)
Definition leaf_for (va : Z) (x : Z * Z) : Prop :=
  let l := x.2 in let blk := va / sz l * sz l in
  1 <= l <= 3 ∧ sz l <= granularity r ∧ base_va r <= blk ∧ blk + sz l <= rend r
  ∧ (base_pa r + blk - base_va r) mod sz l = 0
  ∧ x.1 = desc_val e c0 (attr r) (base_pa r + blk - base_va r) l.

(** The translation [w'] of [va] extends [w] by the region. *)
Definition covers (va : Z) (w w' : option (Z * Z)) : Prop :=
  match w with
  | Some x => w' = Some x
  | None => (in_r r va → ∃ x, w' = Some x ∧ leaf_for va x) ∧ (¬ in_r r va → w' = None)
  end.

(** The region meets the addresses of the table of level [l] at [p] that lie
    between [lo] and [hi]. *)
Definition touches (lo hi l p : Z) : Prop :=
  ∃ va, lo <= va < hi ∧ in_r r va ∧ va / sz (l - 1) = p.

(** A table of level [l] at [p] the region cannot do without: they meet, and
    one block of the level above does not do. *)
Definition needs (l p : Z) : Prop :=
  base_level c0 < l <= 3 ∧ p * sz (l - 1) < rend r ∧ base_va r < (p + 1) * sz (l - 1)
  ∧ ¬ (base_va r <= p * sz (l - 1) ∧ (p + 1) * sz (l - 1) <= rend r ∧ 2 <= l
       ∧ sz (l - 1) <= granularity r ∧ (base_pa r - base_va r) mod sz (l - 1) = 0).

(** What mapping the region does, in table [t] of level [l] and the tables
    below, between the addresses [lo] and [hi].  Counts go up from level [m]
    on. *)
Record step (m : Z) (own : Z → option (Z * Z)) (t : tref) (l lo hi : Z) (c : xlat_ctx)
    (own' : Z → option (Z * Z)) (c' : xlat_ctx) : Prop := {
  st_wf : wf e None own' c';
  st_conf : same_conf c c';
  st_mono : ∀ i x, own i = Some x → own' i = Some x;
  st_frame : ∀ t' l' p' k va, pos own c t' = Some (l', p') → 0 <= k < 512 →
    va / sz l' = 512 * p' + k → l' < l ∨ va < lo ∨ hi <= va → entry c' t' k = entry c t' k;
  st_cover : ∀ va, lo <= va < hi → covers va (W e c t l va) (W e c' t l va);
  st_new : ∀ i l' p', own i = None → own' i = Some (l', p') →
    l < l' ∧ ∀ va, va / sz (l' - 1) = p' → lo <= va < hi ∧ W e c t l va = None;
  st_need : ∀ i l' p', own i = None → own' i = Some (l', p') → needs l' p';
  st_cnt : ∀ i l' p', own' i = Some (l', p') →
    (m <= l' → touches lo hi l' p' → cnt c' i = cnt c i + 1)
    ∧ (l' < m ∨ ¬ touches lo hi l' p' → cnt c' i = cnt c i);
}.

#[local] Arguments st_wf {m own t l lo hi c own' c'} _.
#[local] Arguments st_conf {m own t l lo hi c own' c'} _.
#[local] Arguments st_mono {m own t l lo hi c own' c'} _.
#[local] Arguments st_frame {m own t l lo hi c own' c'} _.
#[local] Arguments st_cover {m own t l lo hi c own' c'} _.
#[local] Arguments st_new {m own t l lo hi c own' c'} _.
#[local] Arguments st_need {m own t l lo hi c own' c'} _.
#[local] Arguments st_cnt {m own t l lo hi c own' c'} _.

(** Outside a step's range a walk is unchanged. *)
Lemma step_walk (fr : option Z) (m : Z) (own own' : Z → option (Z * Z)) (t : tref)
    (l p lo hi : Z) (c c' : xlat_ctx) (va : Z) :
  wf e fr own c → pos own c t = Some (l, p) → va / sz (l - 1) = p →
  step m own t l lo hi c own' c' → va < lo ∨ hi <= va → W e c' t l va = W e c t l va.
Proof.
  intros Hw Ht Hva Hst Hout. eapply (W_frame e fr own c c' t l p); [done|by eapply st_conf|done..|].
  intros t' l' p' k Ht' _ Hk Hd. by eapply (st_frame Hst); eauto.
Qed.

Lemma covers_refl (va : Z) (w : option (Z * Z)) : ¬ in_r r va → covers va w w.
Proof. intros Hn. unfold covers. destruct w; [done|]. split; [done|done]. Qed.

(** Where the region is not, nothing is to be done. *)
Lemma step_refl (m : Z) (own : Z → option (Z * Z)) (t : tref) (l lo hi : Z) (c : xlat_ctx) :
  wf e None own c → (∀ va, lo <= va < hi → ¬ in_r r va) → step m own t l lo hi c own c.
Proof.
  intros Hw Hn. split; [done|done|done|done| |congruence|congruence|].
  - intros va Hva. apply covers_refl. by apply Hn.
  - intros i l' p' _. split; [|done]. intros _ (va & Hva & Hin & _). by destruct (Hn va Hva).
Qed.

Lemma touches_split (lo mid hi l p : Z) :
  lo <= mid <= hi → touches lo hi l p ↔ touches lo mid l p ∨ touches mid hi l p.
Proof.
  intros Hm. split.
  - intros (va & Hva & H). destruct (Z.lt_ge_cases va mid); [left|right]; exists va; (split; [lia|done]).
  - intros [(va & Hva & H)|(va & Hva & H)]; exists va; (split; [lia|done]).
Qed.

(** A table below level [l] lies on one side of a boundary of its entries. *)
Lemma touches_side (l q lo hi l' p' : Z) :
  l < l' <= 3 → touches lo (q * sz l) l' p' → ¬ touches (q * sz l) hi l' p'.
Proof.
  intros Hl (va & Hva & _ & E) (va' & Hva' & _ & E').
  pose proof (block_cut l (l' - 1) q p' va va' ltac:(lia) E E' ltac:(lia)). lia.
Qed.

(** Two steps of a loop over the entries of a table *)
Lemma step_trans (own own1 own2 : Z → option (Z * Z)) (t : tref) (l p lo q hi : Z)
    (c c1 c2 : xlat_ctx) :
  wf e None own c → pos own c t = Some (l, p) → 512 * p * sz l <= lo → hi <= 512 * (p + 1) * sz l →
  lo <= q * sz l <= hi →
  step (l + 1) own t l lo (q * sz l) c own1 c1 →
  step (l + 1) own1 t l (q * sz l) hi c1 own2 c2 →
  step (l + 1) own t l lo hi c own2 c2.
Proof.
  intros Hw Ht Hlo Hhi Hq S1 S2. pose proof (pos_level _ _ _ _ _ _ _ Hw Ht) as [Hl _].
  assert (pos own1 c1 t = Some (l, p)) as Ht1.
  { rewrite (pos_conf _ c c1) by apply S1. destruct t; [done|]. cbn in *. by eapply st_mono. }
  assert (∀ va, lo <= va < hi → va / sz (l - 1) = p) as Hp.
  { intros va Hva. apply table_range; lia. }
  split.
  - apply S2.
  - eapply same_conf_trans; [apply S1|apply S2].
  - intros i x Hi. by apply S2, S1.
  - intros t' l' p' k va Ht' Hk Hd Hout. rewrite (st_frame S2 t' l' p' k va).
    + apply (st_frame S1 t' l' p' k va); [done..|lia].
    + rewrite (pos_conf _ c c1) by apply S1. destruct t'; [done|]. cbn in *. by eapply st_mono.
    + done.
    + done.
    + lia.
  - intros va Hva. destruct (Z.lt_ge_cases va (q * sz l)) as [Hlt|Hge].
    + rewrite (step_walk None (l + 1) own1 own2 t l p (q * sz l) hi c1 c2 va);
        [|apply S1|done|by apply Hp|done|lia]. apply S1. lia.
    + rewrite <- (step_walk None (l + 1) own own1 t l p lo (q * sz l) c c1 va);
        [|done|done|by apply Hp|done|lia]. apply S2. lia.
  - intros i l' p' Hn H2. destruct (own1 i) as [[l1 p1]|] eqn:E1.
    + pose proof (st_mono S2 _ _ E1) as E2. rewrite H2 in E2. simplify_eq.
      destruct (st_new S1 _ _ _ Hn E1) as [H Hr]. split; [done|].
      intros va Hva. destruct (Hr va Hva). split; [lia|done].
    + destruct (st_new S2 _ _ _ E1 H2) as [H Hr]. split; [done|].
      intros va Hva. destruct (Hr va Hva) as [Hva1 Hw1]. split; [lia|].
      rewrite <- Hw1. symmetry.
      apply (step_walk None (l + 1) own own1 t l p lo (q * sz l) c c1 va);
        [done|done|apply Hp; lia|done|lia].
  - intros i l' p' Hn H2. destruct (own1 i) as [[l1 p1]|] eqn:E1.
    + pose proof (st_mono S2 _ _ E1) as E2. rewrite H2 in E2. simplify_eq. by eapply (st_need S1).
    + by eapply (st_need S2).
  - intros i l' p' H2. rewrite (touches_split lo (q * sz l) hi) by done.
    pose proof (wf_own _ _ _ _ (st_wf S2) _ _ _ H2) as (Hi & Hl' & _).
    destruct (st_cnt S2 _ _ _ H2) as [C2 C2'].
    assert ((l + 1 <= l' → touches lo (q * sz l) l' p' → cnt c1 i = cnt c i + 1)
            ∧ (l' < l + 1 ∨ ¬ touches lo (q * sz l) l' p' → cnt c1 i = cnt c i)) as [C1 C1'].
    { destruct (own1 i) as [[l1 p1]|] eqn:E1.
      - pose proof (st_mono S2 _ _ E1) as E2. rewrite H2 in E2. simplify_eq.
        by apply (st_cnt S1).
      - assert (own i = None) as E0.
        { destruct (own i) eqn:E; [|done]. apply (st_mono S1) in E. congruence. }
        rewrite (proj2 (same_conf_trans _ _ _ (st_conf S1)
          (st_conf S2))) in Hi.
        destruct (wf_cnt _ _ _ _ Hw i Hi) as (_ & Z0 & _). rewrite (Z0 E0).
        rewrite <- (proj2 (st_conf S1)) in Hi.
        destruct (wf_cnt _ _ _ _ (st_wf S1) i Hi) as (_ & Z1 & _).
        rewrite (Z1 E1). split; [|done]. intros _ (va & Hva & _ & Ev).
        destruct (st_new S2 _ _ _ E1 H2) as [_ Hr].
        destruct (Hr va Ev). lia. }
    split.
    + intros Hm [T|T].
      * rewrite C2' by (right; apply (touches_side l q lo); [lia|done]). by apply C1.
      * rewrite C2 by done. rewrite C1'; [done|]. right. intros T'.
        by apply (touches_side l q lo hi l' p' ltac:(lia) T').
    + intros Hor. rewrite C2' by naive_solver. apply C1'. naive_solver.
Qed.

(** ** The steps at one entry *)

(** A table in use below a table is reached through an entry that links to a
    table. *)
Lemma ancestor (fr : option Z) (own : Z → option (Z * Z)) (c : xlat_ctx) (j l l' p' va : Z) :
  wf e fr own c → own j = Some (l', p') → base_level c <= l < l' → va / sz (l' - 1) = p' →
  ∃ t i, pos own c t = Some (l, va / sz (l - 1))
         ∧ entry c t ((va / sz l) mod 512) = Some (table_desc e (SubT i)).
Proof.
  intros Hw. remember (Z.to_nat (l' - l)) as n eqn:Hn. revert j l' p' Hn.
  induction n as [|n IH]; intros j l' p' Hn Hj Hl Hva; [lia|].
  pose proof (wf_own _ _ _ _ Hw _ _ _ Hj) as (_ & Hl' & _). pose proof (wf_lvl _ _ _ _ Hw).
  destruct (wf_par _ _ _ _ Hw _ _ _ Hj) as (u & Hu & Eu).
  rewrite <- Hva in Hu, Eu. rewrite div_up in Hu by lia.
  destruct (decide (l = l' - 1)) as [->|Hne]; [by eauto|].
  destruct u as [|i]; [cbn in Hu; simplify_eq; lia|]. cbn in Hu.
  apply (IH i (l' - 1) _ ltac:(lia) Hu); [lia|done].
Qed.

Lemma no_table_below (fr : option Z) (own : Z → option (Z * Z)) (c : xlat_ctx) (t : tref)
    (l p k d j l' p' va : Z) :
  wf e fr own c → pos own c t = Some (l, p) → 0 <= k < 512 → entry c t k = Some d → leaf_ok l d →
  own j = Some (l', p') → l < l' → va / sz (l' - 1) = p' → va / sz l = 512 * p + k → False.
Proof.
  intros Hw Ht Hk Hd Hok Hj Hl Hva Hk'. pose proof (pos_level _ _ _ _ _ _ _ Hw Ht) as [Hb _].
  pose proof (wf_own _ _ _ _ Hw _ _ _ Hj) as (_ & Hl' & _).
  destruct (idx_up va l p k) as [Hp Hmod]; [lia|done|done|].
  destruct (ancestor fr own c j l l' p' va) as (u & i & Hu & Eu); [done|done|lia|done|].
  rewrite Hp in Hu. rewrite Hmod in Eu. rewrite (pos_inj e _ _ _ _ _ _ _ Hw Hu Ht) in Eu.
  rewrite Hd in Eu. injection Eu as Eu.
  eapply leaf_not_table; [apply (wf_env _ _ _ _ Hw)|exact Hok|lia|exact Eu].
Qed.

Section at_entry.
Context (own : Z → option (Z * Z)) (c : xlat_ctx) (t : tref) (l p k : Z).
Context (Hw : wf e None own c) (Ht : pos own c t = Some (l, p)) (Hk : 0 <= k < 512).
#[local] Abbreviation lo := ((512 * p + k) * sz l).
#[local] Abbreviation hi := ((512 * p + k + 1) * sz l).

Let Hl : base_level c <= l <= 3.
Proof. apply (pos_level _ _ _ _ _ _ _ Hw Ht). Qed.

Lemma in_entry (va : Z) : lo <= va < hi → va / sz l = 512 * p + k.
Proof using Hl. intros Hva. apply entry_range; lia. Qed.

(** The entry holds a block of the region's range already. *)
Lemma step_none (d : Z) :
  entry c t k = Some d → leaf_ok l d → d ≠ 0 → step (l + 1) own t l lo hi c own c.
Proof using Hw Ht Hk Hl.
  intros Hd Hok Hnz. split; [done|done|done|done| |congruence|congruence|].
  - intros va Hva%in_entry. unfold covers.
    by rewrite (W_leaf e _ _ _ _ _ _ _ _ _ Hw Ht Hva Hk Hd) by (destruct Hok as [?|[?|?]]; [done|by right|by left]).
  - intros i l' p' Hi. split; [|done]. intros Hm (va & Hva%in_entry & _ & E). exfalso.
    by eapply (no_table_below None own c t l p k d i l' p' va); [..|lia|exact E|].
Qed.

(** A descriptor of the region is written. *)
Lemma step_write (d : Z) :
  entry c t k = Some 0 →
  (l = 3 ∧ Z.land d DESC_MASK = PAGE_DESC) ∨ (l < 3 ∧ Z.land d DESC_MASK = BLOCK_DESC) →
  (∀ va, lo <= va < hi → in_r r va) → (∀ va, lo <= va < hi → leaf_for va (d, l)) →
  step (l + 1) own t l lo hi c own (put_entry c t k d).
Proof using Hw Ht Hk Hl.
  intros H0 Hd Hin Hleaf. pose proof (put_entry_conf c t k d) as Hs.
  assert (wf e None own (put_entry c t k d)) as Hw'.
  { eapply wf_put_leaf; [done|exact Ht|exact H0|by left|]. right. tauto. }
  split; [done|done|done| | |congruence|congruence|].
  - intros t' l' p' k' va Ht' Hk' Hva Hout. apply entry_put_ne.
    destruct (decide (t = t')) as [<-|]; [|by left]. right. intros <-. simplify_eq.
    apply entry_range in Hva; [|lia]. lia.
  - intros va Hva. pose proof (in_entry va Hva) as Hva'.
    rewrite (W_zero e _ _ _ _ _ _ _ _ Hw Ht Hva' Hk H0). split; [|by intros []; apply Hin].
    intros _. exists (d, l). split; [|by apply Hleaf].
    eapply (W_leaf e); [exact Hw'|by rewrite (pos_conf _ c)|exact Hva'|done|by eapply entry_put_eq|done].
  - intros i l' p' Hi. unfold cnt. rewrite put_entry_cnt. split; [|done].
    intros Hm (va & Hva%in_entry & _ & E). exfalso.
    by eapply (no_table_below None own c t l p k 0 i l' p' va); [..|by left|exact Hi|lia|exact E|].
Qed.

(** The region is mapped in the table the entry links to. *)
Lemma step_sub (i : Z) (own' : Z → option (Z * Z)) (c' : xlat_ctx) :
  l < 3 → entry c t k = Some (table_desc e (SubT i)) → own i = Some (l + 1, 512 * p + k) →
  step (l + 1) own (SubT i) (l + 1) lo hi c own' c' → step (l + 1) own t l lo hi c own' c'.
Proof using Hw Ht Hk Hl.
  intros Hl3 Hd Hi S. pose proof (wf_own _ _ _ _ Hw _ _ _ Hi) as (Hir & _ & _).
  pose proof (st_conf S) as Hs.
  assert (∀ va, lo <= va < hi → W e c t l va = W e c (SubT i) (l + 1) va) as HW.
  { intros va Hva%in_entry. by eapply W_table. }
  split; [apply S|apply S|apply S| | | |apply S|apply S].
  - intros t' l' p' k' va Ht' Hk' Hva Hout. apply (st_frame S t' l' p' k' va); [done..|lia].
  - intros va Hva. rewrite HW by done.
    rewrite (W_table e None own' c' t l p k i va).
    + by apply S.
    + apply S.
    + rewrite (pos_conf _ c c' t Hs). destruct t; [done|]. by apply S.
    + by apply in_entry.
    + done.
    + done.
    + by rewrite (proj2 Hs).
    + rewrite (st_frame S t l p k lo); [done|done|done| |lia]. apply in_entry.
      pose proof (sz_pos l ltac:(lia)). lia.
  - intros j l' p' H H'. destruct (st_new S _ _ _ H H') as [? Hr]. split; [lia|].
    intros va Hva. destruct (Hr va Hva). by rewrite HW.
Qed.

(** A free table is linked and the region mapped in it. *)
Lemma step_link (i : Z) (own' : Z → option (Z * Z)) (c' : xlat_ctx) :
  l < 3 → entry c t k = Some 0 → 0 <= i < tables_num c → own i = None →
  needs (l + 1) (512 * p + k) →
  step (l + 1) (own_add own i (l + 1) (512 * p + k)) (SubT i) (l + 1) lo hi
    (put_entry c t k (table_desc e (SubT i))) own' c' →
  step (l + 1) own t l lo hi c own' c'.
Proof using Hw Ht Hk Hl.
  intros Hl3 H0 Hir Ho Hnd S. set (c1 := put_entry c t k (table_desc e (SubT i))) in *.
  pose proof (put_entry_conf c t k (table_desc e (SubT i))) as Hs1. fold c1 in Hs1.
  pose proof (wf_link e own c t l p k i Hw Ht H0 Hk Hl3 Hir Ho) as Hw1. fold c1 in Hw1.
  pose proof (same_conf_trans _ _ _ Hs1 (st_conf S)) as Hs.
  assert (∀ j x, own j = Some x → own_add own i (l + 1) (512 * p + k) j = Some x) as Hmono.
  { intros j x Hj. unfold own_add. case_decide; [congruence|done]. }
  assert (∀ u x, pos own c u = Some x → pos (own_add own i (l + 1) (512 * p + k)) c1 u = Some x) as Hpos.
  { intros u x Hu. rewrite (pos_conf _ c c1 u Hs1). destruct u; [done|]. by apply Hmono. }
  assert (∀ va, lo <= va < hi → W e c t l va = None) as HW.
  { intros va Hva%in_entry. by eapply W_zero. }
  assert (own_add own i (l + 1) (512 * p + k) i = Some (l + 1, 512 * p + k)) as Hi1.
  { unfold own_add. by rewrite decide_True. }
  split; [apply S|done| | | | | |].
  - intros j x Hj. by apply S, Hmono.
  - intros t' l' p' k' va Ht' Hk' Hva Hout.
    rewrite (st_frame S t' l' p' k' va); [|by apply Hpos|done|done|lia].
    apply entry_put_ne. destruct (decide (t = t')) as [<-|]; [|by left]. right. intros <-.
    simplify_eq. apply entry_range in Hva; [|lia]. lia.
  - intros va Hva. rewrite HW by done.
    assert (W e c1 (SubT i) (l + 1) va = None) as H1.
    { destruct (idx_of va (l + 1) (512 * p + k)) as [E1 E2].
      - lia.
      - replace (l + 1 - 1) with l by lia. by apply in_entry.
      - apply (W_zero e _ _ c1 (SubT i) _ _ _ _ Hw1 Hi1 E1 E2). unfold c1.
        rewrite entry_put_ne by (left; intros ->; cbn in Ht; congruence).
        by eapply wf_free. }
    pose proof (st_cover S va Hva) as Hc. rewrite H1 in Hc.
    rewrite (W_table e None own' c' t l p k i va).
    + done.
    + apply S.
    + rewrite (pos_conf _ c c' t Hs). destruct t; [done|]. by apply S, Hmono.
    + by apply in_entry.
    + done.
    + done.
    + by rewrite (proj2 Hs).
    + rewrite (st_frame S t l p k lo); [by eapply entry_put_eq|by apply Hpos|done| |lia].
      apply in_entry. pose proof (sz_pos l ltac:(lia)). lia.
  - intros j l' p' Hj Hj'. destruct (decide (j = i)) as [->|Hne].
    + apply (st_mono S) in Hi1. rewrite Hj' in Hi1. simplify_eq. split; [lia|].
      intros va. replace (l + 1 - 1) with l by lia. intros Hva.
      assert (lo <= va < hi) by (by apply (proj1 (entry_range va l p k ltac:(lia)))). split; [done|by apply HW].
    + destruct (st_new S j l' p') as [? Hr]; [unfold own_add; by rewrite decide_False|done|].
      split; [lia|]. intros va Hva. destruct (Hr va Hva). split; [done|by apply HW].
  - intros j l' p' Hj Hj'. destruct (decide (j = i)) as [->|Hne].
    + apply (st_mono S) in Hi1. rewrite Hj' in Hi1. by simplify_eq.
    + apply (st_need S j); [unfold own_add; by rewrite decide_False|done].
  - intros j l' p' Hj. pose proof (st_cnt S j l' p' Hj) as Hc.
    unfold cnt in *. unfold c1 in Hc. by rewrite put_entry_cnt in Hc.
Qed.
End at_entry.

(** ** Counting the region in a table *)

Lemma W_counts (c : xlat_ctx) (l : list Z) (t : tref) (lv va : Z) :
  W e (with_counts c l) t lv va = W e c t lv va.
Proof. by apply W_ext. Qed.

Lemma step_bump (own own' : Z → option (Z * Z)) (i l p lo hi : Z) (c c' : xlat_ctx) :
  wf e (Some i) own c → own i = Some (l, p) → touches lo hi l p →
  (∀ va, lo <= va < hi → va / sz (l - 1) = p) →
  step (l + 1) own (SubT i) l lo hi (bump_count c i 1) own' c' →
  step l own (SubT i) l lo hi c own' c'.
Proof.
  intros Hw Hi Ht Hp S. pose proof (wf_own _ _ _ _ Hw _ _ _ Hi) as (Hir & _).
  assert (∀ j, cnt (bump_count c i 1) j = if decide (i = j) then cnt c i + 1 else cnt c j) as Hb.
  { intros j. apply cnt_bump. by rewrite (wf_cnts _ _ _ _ Hw). }
  split; [apply S| |apply S|apply S| | |apply S|].
  - eapply same_conf_trans; [|apply S]. done.
  - intros va Hva. rewrite <- (W_counts c (zset (tables_mapped_regions c) i (cnt c i + 1))).
    by apply S.
  - intros j l' p' Hj Hj'. destruct (st_new S j l' p' Hj Hj') as [? Hr]. split; [done|].
    intros va Hva. destruct (Hr va Hva) as [? HW]. split; [done|]. rewrite <- HW. symmetry. apply W_counts.
  - intros j l' p' Hj. destruct (st_cnt S j l' p' Hj) as [C1 C2]. rewrite Hb in C1, C2.
    case_decide as Hd.
    + subst j. apply (st_mono S) in Hi. rewrite Hj in Hi. simplify_eq.
      rewrite C2 by (left; lia). split; [done|]. intros [?|?]; [lia|done].
    + assert (l' = l → ¬ touches lo hi l' p') as Hne.
      { intros -> (va & Hva & Hin & E). destruct (own j) as [[lj pj]|] eqn:Ej.
        - pose proof (st_mono S _ _ Ej) as Ej'. rewrite Hj in Ej'. simplify_eq.
          rewrite <- (Hp va Hva) in Hi.
          by pose proof (pos_inj e _ _ _ (SubT i) (SubT j) _ _ Hw Hi Ej); simplify_eq.
        - by destruct (st_new S j l p' Ej Hj); lia. }
      split.
      * intros Hm T. destruct (decide (l' = l)) as [E|]; [by destruct (Hne E)|]. apply C1; [lia|done].
      * intros Hor. apply C2. destruct Hor as [?|?]; [left; lia|by right].
Qed.

(** ** The action at an entry *)

Context (Hro : region_ok c0 r) (Hreg : regime_ok c0).
Context (Hspace : base_table_entries c0 * sz (base_level c0) <= 2 ^ 48).

Lemma u64_va (x : Z) : 0 <= x <= 2 ^ 50 → u64 x = x.
Proof using. intros Hx. apply u64_small. unfold UINT64_MAX. lia. Qed.

Lemma rend_le : base_va r < rend r <= 2 ^ 48 ∧ (4096 | rend r).
Proof using Hro Hspace.
  destruct Hro. unfold rend in *. split; [lia|]. by apply Z.divide_add_r.
Qed.

Lemma region_end_eq : region_end r = rend r - 1.
Proof using Hro Hspace.
  pose proof rend_le. destruct Hro. unfold region_end, rend in *.
  rewrite (u64_va (base_va r + size r)), u64_va by lia. done.
Qed.

(** A block that is mapped already and meets the region lies inside it. *)
Definition compat (c : xlat_ctx) (t : tref) (l lo hi : Z) : Prop :=
  ∀ va d l', lo <= va < hi → in_r r va → W e c t l va = Some (d, l') →
    base_va r <= va / sz l' * sz l' ∧ va / sz l' * sz l' + sz l' <= rend r.

(** The entry [k] of a table meets the region. *)
Definition meets (l p k : Z) : Prop :=
  (512 * p + k) * sz l < rend r ∧ base_va r < (512 * p + k + 1) * sz l.

Definition dest_pa (l p k : Z) : Z :=
  u64 (u64 (base_pa r + (512 * p + k) * sz l) - base_va r).

Section action.
Context (own : Z → option (Z * Z)) (c : xlat_ctx) (t : tref) (l p k d : Z).
Context (Hw : wf e None own c) (Ht : pos own c t = Some (l, p)) (Hk : 0 <= k < 512).
Context (Hd : entry c t k = Some d) (Hm : meets l p k).
#[local] Abbreviation lo := ((512 * p + k) * sz l).
#[local] Abbreviation hi := ((512 * p + k + 1) * sz l).
Context (Hhi : hi <= 2 ^ 48) (Hc : compat c t l lo hi) (Hs0 : same_conf c0 c).

Let Hl : base_level c <= l <= 3 ∧ 0 <= p.
Proof. apply (pos_level _ _ _ _ _ _ _ Hw Ht). Qed.

Let Hlo : 0 <= lo ∧ hi = lo + sz l ∧ 4096 <= sz l.
Proof. pose proof (sz_pos l ltac:(lia)). nia. Qed.

Lemma dest_pa_full : base_va r <= lo → hi <= rend r →
  dest_pa l p k = base_pa r + lo - base_va r ∧ 0 <= dest_pa l p k ∧ dest_pa l p k + sz l <= 2 ^ 48
  ∧ (4096 | dest_pa l p k).
Proof using Hro Hspace Hl Hlo.
  intros H1 H2. pose proof rend_le. unfold dest_pa. destruct Hro. unfold rend in *.
  rewrite (u64_va (_ + _)), u64_va by lia. split_and!; [done|lia|lia|].
  apply Z.divide_sub_r; [|done]. apply Z.divide_add_r; [done|]. apply page_up. lia.
Qed.

Lemma leaf_inside : leaf_ok l d → d ≠ 0 → base_va r <= lo ∧ hi <= rend r.
Proof using Hro Hw Ht Hk Hd Hm Hc Hl Hlo.
  intros Hok Hnz. destruct Hm as [Hm1 Hm2].
  set (va := Z.max lo (base_va r)).
  assert (va / sz l = 512 * p + k) as Hva by (apply entry_range; unfold va; lia).
  destruct (Hc va d l) as [H1 H2].
  - unfold va. lia.
  - split; [unfold va; lia|]. unfold va. pose proof (ro_pos _ _ Hro). unfold rend in *. lia.
  - eapply W_leaf; [exact Hw|exact Ht|exact Hva|done|exact Hd|].
    destruct Hok as [?|[?|?]]; [done|by right|by left].
  - rewrite Hva in H1, H2. lia.
Qed.

Lemma entry_needs :
  l < 3 →
  ¬ (base_va r <= lo ∧ hi <= rend r ∧ 1 <= l ∧ sz l <= granularity r ∧ dest_pa l p k mod sz l = 0) →
  needs (l + 1) (512 * p + k).
Proof using Hro Hspace Hm Hs0 Hl Hlo.
  intros Hl3 Hn. unfold needs. replace (l + 1 - 1) with l by lia.
  rewrite <- (same_conf_level _ _ Hs0). destruct Hm as [Hm1 Hm2].
  split_and!; [lia|lia|lia|lia|]. intros (H1 & H2 & H3 & H4 & H5). apply Hn.
  split_and!; [done|done|lia|done|]. destruct (dest_pa_full H1 H2) as [-> _].
  replace (base_pa r + lo - base_va r) with (base_pa r - base_va r + (512 * p + k) * sz l) by lia.
  rewrite Z.mod_add by lia. done.
Qed.

Lemma map_action_run :
  ∃ a, xlat_tables_map_region_action r (Z.land d DESC_MASK) (dest_pa l p k) lo l c = Ok (a, c)
  ∧ match a with
    | ACTION_NONE => leaf_ok l d ∧ d ≠ 0
    | ACTION_WRITE_BLOCK_ENTRY =>
        d = 0 ∧ base_va r <= lo ∧ hi <= rend r ∧ 1 <= l ∧ sz l <= granularity r
        ∧ dest_pa l p k mod sz l = 0
    | ACTION_CREATE_NEW_TABLE => d = 0 ∧ l < 3 ∧ needs (l + 1) (512 * p + k)
    | ACTION_RECURSE_INTO_TABLE =>
        l < 3 ∧ ∃ i, d = table_desc e (SubT i) ∧ own i = Some (l + 1, 512 * p + k)
    end.
Proof using Hro Hreg Hspace Hw Ht Hk Hd Hm Hhi Hc Hs0 Hl Hlo.
  pose proof rend_le as [Hr1 Hr2]. pose proof (wf_ent _ _ _ _ Hw _ _ _ _ _ Ht Hd) as Hok.
  unfold xlat_tables_map_region_action. rewrite region_end_eq.
  change (XLAT_BLOCK_SIZE l) with (sz l).
  rewrite (u64_va (lo + sz l)), (u64_va (lo + sz l - 1)) by lia.
  assert ((base_va r <=? lo) && (lo + sz l - 1 <=? rend r - 1)
          = bool_decide (base_va r <= lo ∧ hi <= rend r)) as ->.
  { case_bool_decide; lia. }
  assert (0 < sz 3) by (pose proof (sz_pos 3); lia).
  case_bool_decide as Hfull.
  - destruct (dest_pa_full (proj1 Hfull) (proj2 Hfull)) as (Hpa & _ & _ & Hpage).
    destruct (Z.eqb_spec l 3) as [Hl3|Hl3].
    + destruct Hok as [E|[[? ?]|[[_ Hx]|[? _]]]]; [|lia| |lia].
      * exists ACTION_WRITE_BLOCK_ENTRY. rewrite E. split; [done|].
        split_and!; [done|lia|lia|lia| |].
        -- pose proof (ro_gran _ _ Hro) as Hg. subst l.
           pose proof (sz_up 3 ltac:(lia)) as U3. pose proof (sz_up 2 ltac:(lia)) as U2.
           change (3 - 1) with 2 in U3. change (2 - 1) with 1 in U2. lia.
        -- subst l. apply Z.mod_divide; [lia|].
           change (sz 3) with 4096. done.
      * exists ACTION_NONE. rewrite Hx. split; [done|]. split; [by right; right|].
        intros Hz. rewrite Hz in Hx. done.
    + destruct Hok as [E|[[_ Hx]|[[? _]|(Hlt & i & E & Hi)]]]; [| |lia|].
      * rewrite E. change (Z.land 0 DESC_MASK =? TABLE_DESC) with false.
        change (Z.land 0 DESC_MASK =? INVALID_DESC) with true. cbv iota.
        rewrite mask_mod by lia. change (XLAT_BLOCK_SIZE l) with (sz l).
        destruct (negb (dest_pa l p k mod sz l =? 0) || (l <? MIN_LVL_BLOCK_DESC)
                  || (granularity r <? sz l)) eqn:Eb.
        -- exists ACTION_CREATE_NEW_TABLE. split; [done|]. split_and!; [done|lia|].
           apply entry_needs; [lia|]. unfold MIN_LVL_BLOCK_DESC in Eb. lia.
        -- exists ACTION_WRITE_BLOCK_ENTRY. unfold MIN_LVL_BLOCK_DESC in Eb.
           split; [done|]. split_and!; lia.
      * exists ACTION_NONE. rewrite Hx. split; [done|]. split; [by right; left; split; [lia|]|].
        intros Hz. rewrite Hz in Hx. done.
      * exists ACTION_RECURSE_INTO_TABLE.
        rewrite E, (table_desc_type e (tables_num c)) by apply (wf_env _ _ _ _ Hw).
        split; [done|]. split; [lia|]. by exists i.
  - destruct Hm as [Hm1 Hm2].
    assert ((base_va r <=? lo + sz l - 1) || (lo <=? rend r - 1) = true) as -> by lia.
    assert (l < 3) as Hlt.
    { destruct (decide (l = 3)) as [E3|]; [|lia]. exfalso. apply Hfull. subst l.
      change (sz 3) with 4096 in *. destruct (ro_va _ _ Hro) as [x Hx], Hr2 as [y Hy]. lia. }
    rewrite (proj2 (Z.ltb_lt l 3)) by done. erewrite bind_Ok; [|reflexivity].
    destruct Hok as [E|[[? Hx]|[[? _]|(_ & i & E & Hi)]]]; [| |lia|].
    + rewrite E. exists ACTION_CREATE_NEW_TABLE. split_and!; [done|done|done|].
      apply entry_needs; [done|]. intros (? & ? & _). by apply Hfull.
    + exfalso. apply Hfull, leaf_inside; [by right; left|]. intros Hz. rewrite Hz in Hx. done.
    + exists ACTION_RECURSE_INTO_TABLE.
      rewrite E, (table_desc_type e (tables_num c)) by apply (wf_env _ _ _ _ Hw).
      split; [done|]. split; [done|]. by exists i.
Qed.
End action.

(** ** The loop over the entries *)

(** The tables ran out: all of them are in use, the new ones because the region
    needs them, and the region needs one more. *)
Definition failed (own : Z → option (Z * Z)) (c' : xlat_ctx) : Prop :=
  ∃ own', wf e None own' c' ∧ exhausted c'
    ∧ (∀ i l p, own' i = Some (l, p) → own i = Some (l, p) ∨ needs l p)
    ∧ ∃ l p, needs l p ∧ ∀ i, own' i ≠ Some (l, p).

Lemma failed_from (own own1 : Z → option (Z * Z)) (c' : xlat_ctx) :
  (∀ i l p, own1 i = Some (l, p) → own i = Some (l, p) ∨ needs l p) → failed own1 c' → failed own c'.
Proof using.
  intros H (own' & Hw & Hex & Hown & Hmore). exists own'. split_and!; [done|done| |done].
  intros i l p Hi. destruct (Hown i l p Hi) as [Hi1|]; [by apply H|by right].
Qed.

Lemma step_needs (m : Z) (own own1 : Z → option (Z * Z)) (t : tref) (l lo hi : Z) (c c1 : xlat_ctx) :
  step m own t l lo hi c own1 c1 → ∀ i l p, own1 i = Some (l, p) → own i = Some (l, p) ∨ needs l p.
Proof using.
  intros S i l' p' Hi. destruct (own i) as [x|] eqn:E.
  - left. apply (st_mono S) in E. congruence.
  - right. by apply (st_need S i).
Qed.

(** What a call or a loop returns: an address of a page when the tables ran
    out, else the last address that is mapped. *)
Definition mapped (m : Z) (own : Z → option (Z * Z)) (t : tref) (l lo hi : Z) (c : xlat_ctx)
    (ret : Z) (c' : xlat_ctx) : Prop :=
  ((4096 | ret) ∧ same_conf c c' ∧ failed own c')
  ∨ (ret = Z.min (rend r) hi - 1 ∧ ∃ own', step m own t l lo hi c own' c').

(** The call in a table of the next level, as the loop relies on it *)
Definition rec_ok (l : Z) (recurse : Z → tref → M xlat_ctx Z) : Prop :=
  ∀ own c i q, same_conf c0 c → wf e (Some i) own c → own i = Some (l + 1, q) →
    q * sz l < rend r → base_va r < (q + 1) * sz l →
    compat c (SubT i) (l + 1) (q * sz l) ((q + 1) * sz l) →
    ∃ ret c', recurse (q * sz l) (SubT i) c = Ok (ret, c')
      ∧ mapped (l + 1) own (SubT i) (l + 1) (q * sz l) ((q + 1) * sz l) c ret c'.

Section loop.
Context (recurse : Z → tref → M xlat_ctx Z) (t : tref) (l p : Z).
Context (Hrec : rec_ok l recurse).
#[local] Abbreviation hiT := ((512 * p + entries_of c0 l) * sz l).
#[local] Abbreviation at_ k := ((512 * p + k) * sz l).
#[local] Abbreviation next k := ((512 * p + k + 1) * sz l).
Context (HE : entries_of c0 l <= 512) (HT : hiT <= 2 ^ 48).

(** What the body of the loop does after the action at entry [k] *)
Definition continue (n : nat) (k : Z) : M xlat_ctx Z :=
  let table_idx_va := u64 (at_ k + XLAT_BLOCK_SIZE l) in
  if region_end r <=? table_idx_va then mret (u64 (table_idx_va - 1))
  else map_loop e recurse r t l n (k + 1) table_idx_va.

(** The action at entry [k]: the tables ran out, the region ended inside the
    entry, or the loop goes on. *)
Definition entry_post (own : Z → option (Z * Z)) (n : nat) (k : Z) (c : xlat_ctx) : Prop :=
  ∃ ret c1, (map_loop e recurse r t l (S n) k (at_ k) c = Ok (ret, c1)
             ∧ (4096 | ret) ∧ same_conf c c1 ∧ failed own c1)
  ∨ ∃ own1, step (l + 1) own t l (at_ k) (next k) c own1 c1
    ∧ ((rend r < next k ∧ map_loop e recurse r t l (S n) k (at_ k) c = Ok (rend r - 1, c1))
       ∨ (next k <= rend r ∧ map_loop e recurse r t l (S n) k (at_ k) c = continue n k c1)).

Lemma rec_post (own own' : Z → option (Z * Z)) (n : nat) (k i : Z) (c c1 : xlat_ctx) :
  0 <= k < entries_of c0 l → meets l p k → 0 <= p → l < 3 → same_conf c0 c → same_conf c c1 →
  wf e (Some i) own' c1 → own' i = Some (l + 1, 512 * p + k) →
  compat c1 (SubT i) (l + 1) (at_ k) (next k) →
  (∀ i l p, own' i = Some (l, p) → own i = Some (l, p) ∨ needs l p) →
  (∀ own1 c2, step (l + 1) own' (SubT i) (l + 1) (at_ k) (next k) c1 own1 c2 →
     step (l + 1) own t l (at_ k) (next k) c own1 c2) →
  map_loop e recurse r t l (S n) k (at_ k) c
    = (end_va ← recurse (at_ k) (SubT i);
       if negb (end_va =? u64 (u64 (at_ k + XLAT_BLOCK_SIZE l) - 1)) then mret end_va
       else continue n k) c1 →
  entry_post own n k c.
Proof using Hro Hspace HE HT Hrec.
  intros Hk [Hm1 Hm2] Hp Hl Hs0 Hs Hw1 Hi Hc Hnew Hlift Hrun.
  pose proof (sz_pos l ltac:(lia)). pose proof rend_le as [Hr1 Hr2].
  assert (next k = at_ k + sz l) as Hnext by lia. assert (next k <= hiT) as Hle by nia.
  assert (0 <= at_ k) by nia.
  destruct (Hrec own' c1 i (512 * p + k)) as (ret & c2 & Hret & Hmap);
    [by eapply same_conf_trans|done|done|done|done|done|].
  rewrite (bind_Ok _ _ _ _ _ Hret) in Hrun. unfold XLAT_BLOCK_SIZE in Hrun.
  change (Z.shiftl 1 (XLAT_ADDR_SHIFT l)) with (sz l) in Hrun.
  rewrite (u64_va (at_ k + sz l)), (u64_va (at_ k + sz l - 1)), <- Hnext in Hrun by lia.
  exists ret, c2. destruct Hmap as [(Hpg & Hsc & Hex)|(Hv & own1 & S)].
  - left. rewrite (proj2 (Z.eqb_neq _ _)) in Hrun; cycle 1.
    { intros E. destruct Hpg as [a Ha], (page_up (512 * p + k + 1) l ltac:(lia)) as [b Hb]. lia. }
    split_and!; [done|done|by eapply same_conf_trans|by eapply failed_from].
  - right. exists own1. split; [by apply Hlift|].
    destruct (Z.lt_ge_cases (rend r) (next k)) as [Hlt|Hge].
    + left. split; [done|]. rewrite Hrun, (proj2 (Z.eqb_neq _ _)) by lia. cbn. unfold mret, M_ret.
      by rewrite Hv, Z.min_l by lia.
    + right. split; [done|]. rewrite Hrun, (proj2 (Z.eqb_eq _ _)) by lia. done.
Qed.

Lemma entry_run (own : Z → option (Z * Z)) (n : nat) (k : Z) (c : xlat_ctx) :
  same_conf c0 c → wf e None own c → pos own c t = Some (l, p) → 0 <= k < entries_of c0 l →
  meets l p k → compat c t l (at_ k) hiT → entry_post own n k c.
Proof using Hro Hreg Hspace HE HT Hrec.
  intros Hs0 Hw Ht Hk Hm Hc. pose proof (pos_level _ _ _ _ _ _ _ Hw Ht) as [Hl Hp].
  pose proof (sz_pos l ltac:(lia)). pose proof rend_le as [Hr1 Hr2].
  assert (0 <= k < 512) as Hk' by lia. assert (next k <= hiT) as Hle by nia.
  assert (compat c t l (at_ k) (next k)) as Hck by (intros va d l' Hva; apply Hc; lia).
  destruct (entry_some e None own c t l p k Hw Ht) as (d & Hd & _).
  { by rewrite (entries_conf c0 c). }
  destruct (map_action_run own c t l p k d Hw Ht Hk' Hd Hm ltac:(lia) Hck Hs0) as (a & Ha & Hspec).
  pose proof (read_entry_run c t k d Hd) as Hread.
  destruct a.
  - destruct Hspec as [Hok Hnz]. exists 0, c. right. exists own.
    split; [by eapply step_none|]. right. split.
    + apply (leaf_inside own c t l p k d); (done || lia).
    + cbn [map_loop]. rewrite (bind_Ok _ _ _ _ _ Hread). cbv zeta. by rewrite (bind_Ok _ _ _ _ _ Ha).
  - destruct Hspec as (-> & H1 & H2 & Hl1 & Hg & Hal).
    destruct (dest_pa_full own c t l p k Hw Ht Hk' ltac:(lia) H1 H2) as (Hpa & Hpa0 & Hpa1 & Hpg).
    assert (desc_val e c (attr r) (dest_pa l p k) l = desc_val e c0 (attr r) (dest_pa l p k) l)
      as Hdv by (by apply conf_desc).
    exists 0, (put_entry c t k (desc_val e c (attr r) (dest_pa l p k) l)). right. exists own.
    split; [|right; split; [done|]].
    + apply (step_write own c t l p k Hw Ht Hk').
      * done.
      * rewrite desc_val_type by (done || apply Hro || by eapply conf_regime).
        destruct (Z.eqb_spec l 3); [by left|right; split; [lia|done]].
      * intros va Hva. split; lia.
      * intros va Hva. assert (va / sz l = 512 * p + k) as E by (apply entry_range; lia).
        unfold leaf_for. cbn. rewrite E, <- Hpa, Hdv. split_and!; (done || lia).
    + cbn [map_loop]. rewrite (bind_Ok _ _ _ _ _ Hread). cbv zeta. rewrite (bind_Ok _ _ _ _ _ Ha).
      erewrite bind_Ok; [|apply xlat_desc_run; [by eapply conf_regime|apply Hro|]].
      * by erewrite bind_Ok; [|by eapply put_entry_run].
      * rewrite mask_mod by lia. exact Hal.
  - destruct Hspec as (-> & Hl3 & Hnd).
    destruct (get_empty_run e own c Hw) as [(i & Hget & Hi & Ho & _)|(Hget & Hex)].
    + eapply (rec_post own (own_add own i (l + 1) (512 * p + k)) n k i c
        (put_entry c t k (table_desc e (SubT i)))); [done|done|done|done|done| | | | | | |].
      * apply put_entry_conf.
      * by apply wf_link.
      * unfold own_add. by rewrite decide_True.
      * intros va d l' Hva _ HW. exfalso.
        assert (W e (put_entry c t k (table_desc e (SubT i))) (SubT i) (l + 1) va = None) as HN.
        { pose proof (wf_link e own c t l p k i Hw Ht Hd Hk' Hl3 Hi Ho) as Hw1.
          destruct (idx_of va (l + 1) (512 * p + k)) as [E1 E2].
          - lia.
          - replace (l + 1 - 1) with l by lia. apply entry_range; lia.
          - eapply (W_zero e _ _ _ (SubT i)); [exact Hw1| |exact E1|done|].
            + cbn. unfold own_add. by rewrite decide_True.
            + rewrite entry_put_ne by (left; intros ->; cbn in Ht; congruence).
              by eapply wf_free. }
        congruence.
      * intros j l' p'. unfold own_add. case_decide; [|by left]. intros ?. simplify_eq. by right.
      * intros own1 c2. by apply step_link.
      * cbn [map_loop]. rewrite (bind_Ok _ _ _ _ _ Hread). cbv zeta. rewrite (bind_Ok _ _ _ _ _ Ha), (bind_Ok _ _ _ _ _ Hget).
        by erewrite bind_Ok; [|by eapply put_entry_run].
    + exists (at_ k), c. left. split_and!; [|by apply page_up; lia|done|].
      2:{ exists own. split_and!; [done|done|by left|]. exists (l + 1), (512 * p + k).
          split; [done|]. intros j Hj.
          eapply (no_table_below None own c t l p k 0 j (l + 1) _ ((512 * p + k) * sz l));
            [done|done|done|done|by left|exact Hj|lia| |].
          - replace (l + 1 - 1) with l by lia. apply Z.div_mul. lia.
          - apply Z.div_mul. lia. }
      cbn [map_loop]. rewrite (bind_Ok _ _ _ _ _ Hread). cbv zeta. by rewrite (bind_Ok _ _ _ _ _ Ha), (bind_Ok _ _ _ _ _ Hget).
  - destruct Hspec as (Hl3 & i & -> & Hi). pose proof (wf_own _ _ _ _ Hw _ _ _ Hi) as (Hir & _).
    eapply (rec_post own own n k i c c); [done|done|done|done|done|done| |done| | | |].
    + by apply wf_fresh.
    + intros va d l' Hva Hin HW. apply (Hck va d l' Hva Hin).
      rewrite (W_table e None own c t l p k i va); [done|done|done| |done|done|done|done].
      apply entry_range; lia.
    + by left.
    + intros own1 c2. by apply step_sub.
    + cbn [map_loop]. rewrite (bind_Ok _ _ _ _ _ Hread). cbv zeta. rewrite (bind_Ok _ _ _ _ _ Ha).
      by erewrite bind_Ok; [|apply subtable_of_run; [apply (wf_env _ _ _ _ Hw)|done]].
Qed.

Lemma map_loop_run (n : nat) (own : Z → option (Z * Z)) (k : Z) (c : xlat_ctx) :
  n = Z.to_nat (entries_of c0 l - k) → same_conf c0 c → wf e None own c →
  pos own c t = Some (l, p) → 0 <= k < entries_of c0 l → meets l p k →
  compat c t l (at_ k) hiT →
  ∃ ret c', map_loop e recurse r t l n k (at_ k) c = Ok (ret, c')
    ∧ mapped (l + 1) own t l (at_ k) hiT c ret c'.
Proof using Hro Hreg Hspace HE HT Hrec.
  revert own k c. induction n as [|n IH]; intros own k c Hn Hs0 Hw Ht Hk Hm Hc; [lia|].
  pose proof (pos_level _ _ _ _ _ _ _ Hw Ht) as [Hl Hp]. pose proof (sz_pos l ltac:(lia)).
  pose proof rend_le as [Hr1 Hr2]. destruct Hm as [Hm1 Hm2].
  assert (next k <= hiT) as Hle by nia. assert (next k = at_ k + sz l) as Hnx by lia.
  assert (0 <= at_ k) by nia.
  assert (hiT <= 512 * (p + 1) * sz l) by nia. assert (512 * p * sz l <= at_ k) by nia.
  destruct (entry_run own n k c) as (ret & c1 & [(Hrun & Hpg & Hs & Hex)|(own1 & S & Hcase)]);
    [done|done|done|done|done|done| |].
  { exists ret, c1. split; [done|]. by left. }
  assert (step (l + 1) own1 t l (next k) hiT c1 own1 c1 →
          step (l + 1) own t l (at_ k) hiT c own1 c1) as Hdone.
  { intros S2. eapply (step_trans own own1 own1 t l p (at_ k) (512 * p + k + 1));
      [done|done|lia|lia|lia|exact S|exact S2]. }
  destruct Hcase as [[Hlt Hrun]|[Hge Hrun]].
  { exists (rend r - 1), c1. split; [done|]. right. split; [lia|]. exists own1. apply Hdone.
    apply step_refl; [apply S|]. intros va Hva [_ Hin]. lia. }
  rewrite Hrun. unfold continue. rewrite region_end_eq. unfold XLAT_BLOCK_SIZE.
  change (Z.shiftl 1 (XLAT_ADDR_SHIFT l)) with (sz l). rewrite (u64_va (at_ k + sz l)) by lia.
  rewrite <- Hnx. pose proof (page_le (rend r) (next k) Hr2 (page_up _ l ltac:(lia))) as Hpl.
  destruct (Z.leb_spec (rend r - 1) (next k)) as [Hb|Hb].
  { exists (next k - 1), c1. rewrite u64_va by lia. split; [done|]. right. split; [lia|].
    exists own1. apply Hdone. apply step_refl; [apply S|]. intros va Hva [_ Hin]. lia. }
  destruct (decide (k + 1 = entries_of c0 l)) as [Hlast|Hmore].
  { replace n with 0%nat by lia. exists (next k - 1), c1. cbn [map_loop].
    rewrite u64_va by lia. split; [done|]. right. rewrite <- Hlast in *.
    replace (512 * p + (k + 1)) with (512 * p + k + 1) in * by lia. split; [lia|].
    exists own1. apply Hdone. apply step_refl; [apply S|]. intros; lia. }
  assert (pos own1 c1 t = Some (l, p)) as Ht1.
  { rewrite (pos_conf _ c c1) by apply S. destruct t; [done|]. cbn in *. by eapply st_mono. }
  destruct (IH own1 (k + 1) c1) as (ret' & c2 & Hrun' & Hmap).
  - lia.
  - eapply same_conf_trans; [done|apply S].
  - apply S.
  - done.
  - lia.
  - unfold meets. replace (512 * p + (k + 1)) with (512 * p + k + 1) by lia. lia.
  - intros va d l' Hva Hin. rewrite (step_walk None (l + 1) own own1 t l p (at_ k) (next k) c c1).
    + intros HW. apply (Hc va d l'); [lia|done|done].
    + done.
    + done.
    + apply table_range; lia.
    + done.
    + lia.
  - replace (512 * p + (k + 1)) with (512 * p + k + 1) in * by lia.
    exists ret', c2. split; [done|]. destruct Hmap as [(? & ? & ?)|(Hret & own2 & S2)].
    + left. split_and!; [done|eapply same_conf_trans; [apply S|done]|].
      by eapply failed_from; [by eapply step_needs|].
    + right. split; [done|]. exists own2.
      eapply (step_trans own own1 own2 t l p (at_ k) (512 * p + k + 1));
        [done|done|lia|lia|lia|exact S|exact S2].
Qed.
End loop.

(** ** The call on a table *)

Lemma entries_of_le (l : Z) : 1 <= base_table_entries c0 <= 512 → 1 <= entries_of c0 l <= 512.
Proof using. intros H. unfold entries_of. destruct (l =? base_level c0); lia. Qed.

Lemma find_start (l q : Z) : l <= 3 → q * sz l < rend r → base_va r < rend r →
  let va := xlat_tables_find_start_va r (q * sz l) l in
  va = Z.max q (base_va r / sz l) * sz l ∧ va < rend r ∧ base_va r < va + sz l.
Proof using.
  intros Hl Hq Hr. pose proof (sz_pos l Hl).
  pose proof (proj1 (div_range (base_va r) (sz l) _ ltac:(lia)) eq_refl) as Hd.
  cbv zeta. unfold xlat_tables_find_start_va. destruct (Z.ltb_spec (q * sz l) (base_va r)).
  - rewrite mask_floor by done. assert (q <= base_va r / sz l) by nia.
    rewrite Z.max_r by done. lia.
  - assert (base_va r / sz l <= q) by nia. rewrite Z.max_l by done. lia.
Qed.

(** The entry the loop starts at: the first that meets the region *)
Lemma start_run (l p n : Z) :
  l <= 3 → 0 <= p → 1 <= n <= 512 → 512 * p * sz l < rend r → base_va r < (512 * p + n) * sz l →
  (512 * p + n) * sz l <= 2 ^ 48 →
  ∃ k, xlat_tables_find_start_va r (512 * p * sz l) l = (512 * p + k) * sz l
    ∧ xlat_tables_va_to_index (512 * p * sz l) ((512 * p + k) * sz l) l = k
    ∧ 0 <= k < n ∧ meets l p k ∧ (512 * p + k) * sz l <= Z.max (base_va r) (512 * p * sz l).
Proof using Hro Hspace.
  intros Hl Hp Hn Hlo Hhi HT. pose proof (sz_pos l Hl) as Hsz. pose proof rend_le as [Hr1 _].
  destruct (find_start l (512 * p) ltac:(lia) Hlo ltac:(lia)) as (Hst & Hst1 & Hst2).
  pose proof (proj1 (div_range (base_va r) (sz l) _ ltac:(lia)) eq_refl) as Hd.
  assert (base_va r / sz l < 512 * p + n) as Hdn by (apply Z.div_lt_upper_bound; lia).
  exists (Z.max (512 * p) (base_va r / sz l) - 512 * p). rewrite Zplus_minus.
  set (k := Z.max (512 * p) (base_va r / sz l)) in *. rewrite Hst in *.
  assert (512 * p <= k < 512 * p + n) as Hk by (unfold k; lia).
  unfold meets. split_and!; [done| |lia|lia| | |].
  - unfold xlat_tables_va_to_index.
    replace (k * sz l - 512 * p * sz l) with ((k - 512 * p) * sz l) by lia.
    rewrite u64_va by nia. rewrite shiftr_sz, Z.div_mul by lia. apply u32_small.
    unfold UINT32_MAX. lia.
  - rewrite Zplus_minus. lia.
  - replace (512 * p + (k - 512 * p) + 1) with (k + 1) by lia. lia.
  - unfold k. destruct (Z.max_spec (512 * p) (base_va r / sz l)) as [[? ->]|[? ->]]; lia.
Qed.

(** A block that meets the region ends inside the address space. *)
Lemma sub_end (l q : Z) : base_level c0 <= l <= 3 → q * sz l < rend r → (q + 1) * sz l <= 2 ^ 48.
Proof using Hro Hspace.
  intros Hl Hq. pose proof (sz_pos l ltac:(lia)).
  apply (Z.le_trans _ (base_table_entries c0 * sz (base_level c0))); [|done].
  destruct (sz_divide (base_level c0) l ltac:(lia)) as [x Hx].
  pose proof (ro_end _ _ Hro). rewrite Hx, Z.mul_assoc in *.
  assert (q < base_table_entries c0 * x) by (apply (Z.mul_lt_mono_pos_r (sz l)); lia).
  apply Z.mul_le_mono_nonneg_r; lia.
Qed.

Lemma map_region_run (depth : nat) (own : Z → option (Z * Z)) (t : tref) (l p : Z) (c : xlat_ctx) :
  1 <= base_table_entries c0 <= 512 → 0 <= base_level c0 →
  depth = Z.to_nat (4 - l) → same_conf c0 c →
  wf e (match t with BaseT => None | SubT i => Some i end) own c →
  pos own c t = Some (l, p) →
  512 * p * sz l < rend r → base_va r < (512 * p + entries_of c0 l) * sz l →
  (512 * p + entries_of c0 l) * sz l <= 2 ^ 48 →
  compat c t l (512 * p * sz l) ((512 * p + entries_of c0 l) * sz l) →
  ∃ ret c', xlat_tables_map_region e depth r (512 * p * sz l) t (entries_of c0 l) l c = Ok (ret, c')
    ∧ mapped l own t l (512 * p * sz l) ((512 * p + entries_of c0 l) * sz l) c ret c'.
Proof using Hro Hreg Hspace.
  intros He Hb. revert own t l p c. induction depth as [|depth IH];
    intros own t l p c Hd Hs Hw Ht Hlo Hhi HT Hc.
  { pose proof (pos_level _ _ _ _ _ _ _ Hw Ht). lia. }
  pose proof (pos_level _ _ _ _ _ _ _ Hw Ht) as [Hl Hp]. pose proof (sz_pos l ltac:(lia)) as Hsz.
  pose proof (entries_of_le l He) as HE. pose proof rend_le as [Hr1 Hr2].
  cbn [xlat_tables_map_region]. erewrite bind_Ok; [|reflexivity].
  rewrite (proj2 (Z.leb_le (base_level c) l)), (proj2 (Z.leb_le l XLAT_TABLE_LEVEL_MAX))
    by (unfold XLAT_TABLE_LEVEL_MAX; lia). erewrite bind_Ok; [|reflexivity]. cbv zeta.
  destruct (start_run l p (entries_of c0 l)) as (k & Hst & Hidx & [Hk0 Hk1] & Hmk & Hkm);
    [lia|done|done|done|done|done|].
  rewrite Hst.
  rewrite Hidx.
  set (rec := λ va sub, xlat_tables_map_region e depth r va sub XLAT_TABLE_ENTRIES (l + 1)).
  assert (rec_ok l rec) as Hrec.
  { intros own1 c1 i q Hs1 Hw1 Hi Hq1 Hq2 Hc1. unfold rec.
    pose proof (wf_own _ _ _ _ Hw1 _ _ _ Hi) as (_ & Hl1 & _).
    pose proof (same_conf_level _ _ Hs1).
    assert (entries_of c0 (l + 1) = 512) as E5.
    { unfold entries_of. by rewrite (proj2 (Z.eqb_neq _ _)) by lia. }
    pose proof (sz_up (l + 1) ltac:(lia)) as Eup. replace (l + 1 - 1) with l in Eup by lia.
    assert (512 * q * sz (l + 1) = q * sz l) as E1 by lia.
    assert ((512 * q + entries_of c0 (l + 1)) * sz (l + 1) = (q + 1) * sz l) as E2 by lia.
    destruct (IH own1 (SubT i) (l + 1) q c1) as (ret & c' & Hret); rewrite ?E1, ?E2 in *;
      [lia|done|done|done|done|done| |done|].
    - apply sub_end; [lia|done].
    - rewrite E5 in Hret. by exists ret, c'. }
  assert (compat c t l ((512 * p + k) * sz l) ((512 * p + entries_of c0 l) * sz l)) as Hck.
  { intros va d l' Hva. apply Hc. nia. }
  assert (∀ own' c1 c', wf e None own c1 → pos own c1 t = Some (l, p) →
    step (l + 1) own t l ((512 * p + k) * sz l) ((512 * p + entries_of c0 l) * sz l) c1 own' c' →
    step (l + 1) own t l (512 * p * sz l) ((512 * p + entries_of c0 l) * sz l) c1 own' c') as Hfrom.
  { intros own' c1 c' Hw1 Ht1 S. eapply (step_trans own own own' t l p _ (512 * p + k));
      [done|done|lia|nia|nia|apply step_refl; [done|]|exact S].
    intros va Hva [Hin _]. lia. }
  destruct t as [|i].
  - cbn in Ht. simplify_eq. rewrite (proj2 (Z.ltb_ge _ _)) by lia.
    erewrite bind_Ok; [|reflexivity].
    destruct (map_loop_run rec BaseT (base_level c) 0 Hrec ltac:(lia) ltac:(lia)
      _ own k c eq_refl Hs Hw eq_refl ltac:(lia) Hmk Hck) as (ret & c' & Hrun & Hmap).
    exists ret, c'. split; [done|]. destruct Hmap as [?|(Hret & own' & S)]; [by left|].
    right. split; [done|]. exists own'. pose proof (Hfrom own' c c' Hw eq_refl S) as S'.
    destruct S'. split; try done. intros j l' p' Hj.
    destruct (wf_own _ _ _ _ st_wf0 _ _ _ Hj) as (_ & Hj1 & _).
    rewrite (same_conf_level _ _ st_conf0) in Hj1.
    destruct (st_cnt0 j l' p' Hj) as [C1 C2]. split; [intros; apply C1; [lia|done]|].
    intros [?|?]; [lia|]. apply C2. by right.
  - cbn in Ht. pose proof (wf_own _ _ _ _ Hw _ _ _ Ht) as (Hi & Hbl & _).
    rewrite (proj2 (Z.ltb_lt _ _)) by lia.
    erewrite bind_Ok; cycle 1.
    { unfold xlat_table_inc_regions_count. erewrite bind_Ok; [|by apply get_index_run].
      apply add_count_run. by rewrite (wf_cnts _ _ _ _ Hw). }
    pose proof (wf_bump e own c i Hw ltac:(congruence)) as Hw1.
    destruct (map_loop_run rec (SubT i) l p Hrec ltac:(lia) ltac:(lia)
      _ own k (bump_count c i 1) eq_refl) as (ret & c' & Hrun & Hmap);
      [done|done|done|lia|done| |].
    { intros va d l' Hva Hin. unfold bump_count. rewrite W_counts. by apply Hck. }
    exists ret, c'. split; [done|]. destruct Hmap as [?|(Hret & own' & S)]; [by left|].
    right. split; [done|]. exists own'. apply step_bump with (p := p); [done|done| | |].
    + exists (Z.max (base_va r) (512 * p * sz l)). split; [lia|]. split; [split; lia|].
      apply table_range; nia.
    + intros va Hva. apply table_range; nia.
    + by apply Hfrom.
Qed.

End Region.

(** ** Mapping a region in the context *)

(** The size of the address space *)
Definition space (c : xlat_ctx) : Z := base_table_entries c * sz (base_level c).

Lemma space_le (e : xlat_env) (fr : option Z) (own : Z → option (Z * Z)) (c : xlat_ctx) :
  wf e fr own c → 0 < space c <= 2 ^ 48.
Proof.
  intros Hw. pose proof (wf_lvl _ _ _ _ Hw) as Hl. pose proof (wf_base _ _ _ _ Hw) as [_ He].
  pose proof (sz_pos (base_level c) ltac:(lia)). pose proof (sz_le_48 (base_level c - 1) ltac:(lia)) as H48.
  rewrite sz_up in H48 by lia. unfold space. nia.
Qed.

Lemma map_all_run (e : xlat_env) (own : Z → option (Z * Z)) (c : xlat_ctx) (r : mmap_region_t) :
  wf e None own c → regime_ok c → region_ok c r →
  compat e r c BaseT (base_level c) 0 (space c) →
  ∃ ret c', map_all e r c = Ok (ret, c') ∧ same_conf c c'
    ∧ ((ret ≠ region_end r ∧ failed e c r own c')
       ∨ (ret = region_end r
          ∧ ∃ own', step e c r (base_level c) own BaseT (base_level c) 0 (space c) c own' c')).
Proof.
  intros Hw Hreg Hro Hc. pose proof (space_le _ _ _ _ Hw) as [Hs0 Hs].
  pose proof (wf_lvl _ _ _ _ Hw) as Hl. pose proof (wf_base _ _ _ _ Hw) as [_ He].
  assert (entries_of c (base_level c) = base_table_entries c) as HE.
  { unfold entries_of. by rewrite Z.eqb_refl. }
  pose proof (rend_le c r Hro Hs) as [Hr1 Hr2]. pose proof (ro_va0 _ _ Hro). pose proof (ro_end _ _ Hro).
  destruct (map_region_run e c r Hro Hreg Hs (Z.to_nat (4 - base_level c)) own BaseT
    (base_level c) 0 c) as (ret & c' & Hrun & Hmap);
    rewrite ?HE, ?Z.mul_0_r, ?Z.mul_0_l, ?Z.add_0_l in *;
    [done|lia|done|done|done|done|lia|lia|done|exact Hc|].
  exists ret, c'. rewrite (region_end_eq c r Hro Hs).
  split; [unfold map_all; by erewrite bind_Ok|].
  destruct Hmap as [(Hpg & Hsc & Hex)|(Hret & own' & S)].
  - split; [done|]. left. split; [|done]. intros E.
    destruct Hpg as [x Hx], Hr2 as [y Hy]. lia.
  - split; [apply S|]. right. split; [unfold space in *; lia|]. by exists own'.
Qed.
