(* ===== verification/XlatRegions.v ===== *)
(** * Translation tables: the array of regions

    The regions of a context are kept sorted by their end address, then by
    their size, and two of them are nested with the same offset or do not meet
    at all.  Adding and removing a region keep this. *)

From Stdlib Require Import Sorted.
From stdpp Require Import sets.
From S2P Require Import Prelude Bits Xlat XlatWalk XlatDesc XlatTree XlatMap.

Local Open Scope Z_scope.

(** ** Regions that were checked *)

(** The fields fit their types. *)
Definition raw_ok (r : mmap_region_t) : Prop :=
  in_width 64 (base_va r) ∧ in_width 64 (base_pa r) ∧ in_width 64 (size r).

(** What [mmap_add_region_check()] makes sure of, whatever the other regions *)
Record checked (c : xlat_ctx) (r : mmap_region_t) : Prop := {
  ck_va : (4096 | base_va r);
  ck_pa : (4096 | base_pa r);
  ck_size : (4096 | size r);
  ck_va0 : 0 <= base_va r;
  ck_pa0 : 0 <= base_pa r;
  ck_pos : 0 < size r;
  ck_end : rend r <= space c;
  ck_pa_end : base_pa r + size r <= pa_max_address c + 1;
  ck_gran : granularity r = sz 1 ∨ granularity r = sz 2 ∨ granularity r = sz 3;
}.

(** The limits of the context are those of its tables, and the array has room
    for one region and the entry that ends it. *)
Record conf_ok (c : xlat_ctx) : Prop := {
  cf_space : va_max_address c + 1 = space c;
  cf_le : 4096 <= space c <= 2 ^ 48;
  cf_pa : 0 <= pa_max_address c < 2 ^ 48;
  cf_num : 1 <= mmap_num c;
  cf_base : GET_XLAT_TABLE_LEVEL_BASE (space c) = base_level c;
}.

Lemma checked_region (c : xlat_ctx) (r : mmap_region_t) :
  conf_ok c → checked c r → type_ok (attr r) → region_ok c r.
Proof. intros [] [] Ht. split; try done. lia. Qed.

Lemma checked_end (c : xlat_ctx) (r : mmap_region_t) :
  conf_ok c → checked c r → region_end r = rend r - 1 ∧ region_end_pa r = base_pa r + size r - 1.
Proof.
  intros [] []. unfold region_end, region_end_pa, rend in *.
  rewrite !(u64_va (_ + _)), !u64_va by lia. done.
Qed.

Lemma page_aligned (x : Z) : IS_PAGE_ALIGNED x = true ↔ (4096 | x).
Proof.
  unfold IS_PAGE_ALIGNED. change PAGE_SIZE_MASK with (Z.ones 12). rewrite Z.land_ones by lia.
  change (2 ^ 12) with 4096. rewrite Z.eqb_eq. symmetry. by rewrite <- Z.mod_divide.
Qed.

(** An end address that did not wrap *)
Lemma end_nowrap (a s m : Z) :
  in_width 64 a → in_width 64 s → 0 < s → a <= u64 (u64 (a + s) - 1) → u64 (u64 (a + s) - 1) <= m →
  m < 2 ^ 64 - 1 → u64 (u64 (a + s) - 1) = a + s - 1.
Proof.
  unfold in_width. intros Ha Hs Hp H1 H2 Hm.
  destruct (Z.lt_ge_cases (a + s) (2 ^ 64)) as [Hlt|Hge].
  - rewrite (u64_small (a + s)), u64_small by (unfold UINT64_MAX; lia). done.
  - assert (u64 (a + s) = a + s - 2 ^ 64) as E.
    { unfold u64, wrap. symmetry. apply (Z.mod_unique_pos _ _ 1); lia. }
    rewrite E in *. destruct (decide (a + s = 2 ^ 64)) as [Eq|Hne].
    + rewrite Eq in H2. replace (2 ^ 64 - 2 ^ 64 - 1) with (-1) in H2 by lia.
      rewrite u64_neg in H2 by (unfold UINT64_MAX; lia). unfold UINT64_MAX in H2. lia.
    + rewrite u64_small in H1 by (unfold UINT64_MAX; lia). lia.
Qed.

(** ** Pairs of regions *)

Definition dyn (r : mmap_region_t) : bool := has (attr r) MT_DYNAMIC.

Definition inside (a b : mmap_region_t) : Prop := base_va b <= base_va a ∧ rend a <= rend b.

Definition apart (a b : mmap_region_t) : Prop := rend a <= base_va b ∨ rend b <= base_va a.

Definition apart_pa (a b : mmap_region_t) : Prop :=
  base_pa a + size a <= base_pa b ∨ base_pa b + size b <= base_pa a.

(** Two regions of a context: one inside the other, both static, with the same
    offset and not the same range, or apart in both address spaces *)
Definition pair_ok (a b : mmap_region_t) : Prop :=
  ((inside a b ∨ inside b a) ∧ dyn a = false ∧ dyn b = false
   ∧ base_va a - base_pa a = base_va b - base_pa b ∧ ¬ (base_va a = base_va b ∧ size a = size b))
  ∨ (apart a b ∧ apart_pa a b).

Lemma pair_ok_sym (a b : mmap_region_t) : pair_ok a b → pair_ok b a.
Proof.
  unfold pair_ok, apart, apart_pa.
  intros [(? & ? & ? & ? & Hn)|[? ?]]; [left|right; intuition lia].
  split_and!; [tauto|done|done|lia|]. intros [? ?]. apply Hn. split; lia.
Qed.

(** The order of the array *)
Definition region_lt (a b : mmap_region_t) : Prop :=
  rend a < rend b ∨ (rend a = rend b ∧ size a < size b).

Lemma region_lt_trans (a b d : mmap_region_t) : region_lt a b → region_lt b d → region_lt a d.
Proof. unfold region_lt. lia. Qed.

(** The regions of a context, in order *)
Record regions_ok (c : xlat_ctx) (rs : list mmap_region_t) : Prop := {
  rg_each : ∀ a, a ∈ rs → checked c a;
  rg_sorted : StronglySorted region_lt rs;
  rg_pair : ∀ a b, a ∈ rs → b ∈ rs → a ≠ b → pair_ok a b;
}.

(** The array: the regions, then entries of size 0 *)
Record arr (rs : list mmap_region_t) (c : xlat_ctx) : Prop := {
  ar_mmap : ∃ z, mmap c = rs ++ z ∧ Forall (λ q, size q = 0) z;
  ar_len : zlen (mmap c) = mmap_num c + 1;
  ar_room : zlen rs <= mmap_num c;
  ar_ok : regions_ok c rs;
}.

(** ** The check of a new region *)


Lemma diff_inj (c : xlat_ctx) (a b : mmap_region_t) :
  conf_ok c → checked c a → checked c b →
  u64 (base_va a - base_pa a) = u64 (base_va b - base_pa b) ↔
  base_va a - base_pa a = base_va b - base_pa b.
Proof.
  intros [] [] []. split; [|by intros ->]. unfold u64, wrap, rend in *. intros H.
  assert ((base_va a - base_pa a - (base_va b - base_pa b)) mod 2 ^ 64 = 0) as Hm.
  { rewrite Zminus_mod, H, Z.sub_diag. done. }
  apply Z.mod_divide in Hm; [|lia]. destruct Hm as [x Hx].
  change (2 ^ 64) with (65536 * 2 ^ 48) in Hx.
  assert (x = 0) by lia. lia.
Qed.

Lemma check_overlaps_run (c : xlat_ctx) (mm : mmap_region_t) (rs z : list mmap_region_t) :
  conf_ok c → checked c mm → (∀ a, a ∈ rs → checked c a) →
  Forall (λ q, size q = 0) z → z ≠ [] →
  (check_overlaps mm (rs ++ z) c = Ok (0, c) ∧ ∀ a, a ∈ rs → pair_ok mm a)
  ∨ (check_overlaps mm (rs ++ z) c = Ok (- EPERM, c) ∧ ∃ a, a ∈ rs ∧ ¬ pair_ok mm a).
Proof.
  intros Hcf Hmm Hrs Hz Hne. pose proof (checked_end c mm Hcf Hmm) as [Em Emp].
  induction rs as [|cur rs IH]; cbn [check_overlaps app].
  { destruct z as [|q z]; [done|]. cbn [check_overlaps]. inversion Hz as [|? ? E]; subst.
    rewrite E. left. split; [done|]. by intros a ?%not_elem_of_nil. }
  pose proof (Hrs cur ltac:(left)) as Hcur. pose proof (checked_end c cur Hcf Hcur) as [Ec Ecp].
  fold (region_end_pa mm). fold (region_end_pa cur). rewrite Em, Emp, Ec, Ecp.
  rewrite (proj2 (Z.eqb_neq _ _)) by (pose proof (ck_pos _ _ Hcur); lia). cbv zeta.
  specialize (IH (λ a Ha, Hrs a ltac:(by right))).
  assert (pair_ok mm cur →
    (check_overlaps mm (rs ++ z) c = Ok (0, c) ∧ (∀ a, a ∈ cur :: rs → pair_ok mm a))
    ∨ (check_overlaps mm (rs ++ z) c = Ok (- EPERM, c) ∧ ∃ a, a ∈ cur :: rs ∧ ¬ pair_ok mm a))
    as Hnext.
  { intros Hp. destruct IH as [[H1 H2]|(H1 & a & H2 & H3)].
    - left. split; [done|]. intros a [->|Ha]%elem_of_cons; [done|by apply H2].
    - right. split; [done|]. exists a. split; [by right|done]. }
  assert (¬ pair_ok mm cur → ∃ a, a ∈ cur :: rs ∧ ¬ pair_ok mm a) as Hno.
  { intros Hp. exists cur. split; [left|done]. }
  pose proof (ck_pos _ _ Hmm) as Pm. pose proof (ck_pos _ _ Hcur) as Pc.
  destruct (((base_va cur <=? base_va mm) && (rend mm - 1 <=? rend cur - 1))
            || ((base_va mm <=? base_va cur) && (rend cur - 1 <=? rend mm - 1))) eqn:En.
  - assert (¬ apart mm cur) as Hna by (unfold apart, rend in *; lia).
    destruct (has (attr mm) MT_DYNAMIC || has (attr cur) MT_DYNAMIC) eqn:Ed.
    { right. split; [done|]. apply Hno. intros [(_ & D1 & D2 & _)|[? _]]; [|done].
      unfold dyn in *. rewrite D1, D2 in Ed. done. }
    destruct (Z.eqb_spec (u64 (base_va cur - base_pa cur)) (u64 (base_va mm - base_pa mm)))
      as [Eo|Eo]; cbn [negb].
    2:{ right. split; [done|]. apply Hno. intros [(_ & _ & _ & D & _)|[? _]]; [|done].
        apply Eo. by rewrite D. }
    destruct ((base_va mm =? base_va cur) && (size mm =? size cur)) eqn:Es.
    { right. split; [done|]. apply Hno. intros [(_ & _ & _ & _ & D)|[? _]]; [|done]. lia. }
    apply Hnext. left. apply (diff_inj c) in Eo; [|done..]. unfold inside, dyn.
    apply orb_false_iff in Ed as [-> ->]. split_and!; [lia|done|done|lia|lia].
  - destruct (negb ((rend mm - 1 <? base_va cur) || (rend cur - 1 <? base_va mm))
              || negb ((base_pa mm + size mm - 1 <? base_pa cur)
                       || (base_pa cur + size cur - 1 <? base_pa mm))) eqn:Ea.
    { right. split; [done|]. apply Hno. unfold pair_ok, inside, apart, apart_pa.
      intros [(D & _)|[D1 D2]]; lia. }
    apply Hnext. right. unfold apart, apart_pa. lia.
Qed.

(** What a new region must be like to be added *)
Definition admissible (c : xlat_ctx) (rs : list mmap_region_t) (mm : mmap_region_t) : Prop :=
  checked c mm ∧ zlen rs < mmap_num c ∧ ∀ a, a ∈ rs → pair_ok mm a.

Lemma check_run (c : xlat_ctx) (rs : list mmap_region_t) (mm : mmap_region_t) :
  conf_ok c → arr rs c → raw_ok mm → size mm ≠ 0 →
  ∃ ret, mmap_add_region_check mm c = Ok (ret, c)
    ∧ (ret = 0 → admissible c rs mm)
    ∧ (ret ≠ 0 → ¬ admissible c rs mm
        ∧ (ret = - EINVAL ∨ ret = - ERANGE ∨ ret = - ENOMEM ∨ ret = - EPERM)).
Proof.
  intros Hcf [(z & Hz & Hz0) Hlen Hroom Hok] (Wv & Wp & Ws) Hs.
  unfold mmap_add_region_check. erewrite bind_Ok; [|reflexivity]. cbv zeta.
  destruct (negb (IS_PAGE_ALIGNED (base_pa mm)) || negb (IS_PAGE_ALIGNED (base_va mm))
            || negb (IS_PAGE_ALIGNED (size mm))) eqn:Eal.
  { exists (- EINVAL). split; [done|]. split; [done|]. intros _. split; [|by left].
    intros [[A1 A2 A3] _]. apply page_aligned in A1, A2, A3. by rewrite A1, A2, A3 in Eal. }
  destruct (negb (granularity mm =? XLAT_BLOCK_SIZE 1) && negb (granularity mm =? XLAT_BLOCK_SIZE 2)
            && negb (granularity mm =? XLAT_BLOCK_SIZE 3)) eqn:Egr.
  { exists (- EINVAL). split; [done|]. split; [done|]. intros _. split; [|by left].
    intros [A _]. pose proof (ck_gran _ _ A). change XLAT_BLOCK_SIZE with sz in Egr. lia. }
  assert (checked c mm → region_end mm = rend mm - 1
            ∧ u64 (u64 (base_pa mm + size mm) - 1) = base_pa mm + size mm - 1) as Hends.
  { intros A. by apply (checked_end c). }
  set (end_pa := u64 (u64 (base_pa mm + size mm) - 1)) in *.
  pose proof (cf_space _ Hcf) as Csp. unfold in_width in *.
  destruct ((end_pa <? base_pa mm) || (region_end mm <? base_va mm)) eqn:Ew.
  { exists (- ERANGE). split; [done|]. split; [done|]. intros _. split; [|by right; left].
    intros [A _]. destruct (Hends A), A. unfold rend in *. lia. }
  destruct (Z.ltb_spec (va_max_address c) (region_end mm)) as [Hva|Hva].
  { exists (- ERANGE). split; [done|]. split; [done|]. intros _. split; [|by right; left].
    intros [A _]. destruct (Hends A), A. lia. }
  destruct (Z.ltb_spec (pa_max_address c) end_pa) as [Hpa|Hpa].
  { exists (- ERANGE). split; [done|]. split; [done|]. intros _. split; [|by right; left].
    intros [A _]. destruct (Hends A), A. lia. }
  pose proof (cf_le _ Hcf). pose proof (cf_pa _ Hcf). pose proof (cf_num _ Hcf).
  destruct (zget_is_Some (mmap c) (mmap_num c - 1)) as [last Hlast]; [lia|].
  erewrite bind_Ok; [|by apply aget_Ok].
  destruct (Z.eqb_spec (size last) 0) as [Hl0|Hl0]; cbn [negb].
  2:{ exists (- ENOMEM). split; [done|]. split; [done|]. intros _. split; [|by right; right; left].
      intros (_ & A & _). rewrite Hz in Hlast. unfold zget in Hlast.
      destruct (mmap_num c - 1 <? 0); [done|]. unfold zlen in A.
      rewrite lookup_app_r in Hlast by lia. apply list_elem_of_lookup_2 in Hlast.
      rewrite Forall_forall in Hz0. by apply Hl0, Hz0. }
  assert (zlen rs < mmap_num c) as Hroom'.
  { destruct (decide (zlen rs = mmap_num c)) as [E|]; [exfalso|lia].
    rewrite Hz, <- E in Hlast. unfold zget, zlen in Hlast. destruct (_ <? 0) eqn:?; [done|].
    rewrite lookup_app_l in Hlast by (unfold zlen in *; lia).
    apply list_elem_of_lookup_2 in Hlast. pose proof (ck_pos _ _ (rg_each _ _ Hok _ Hlast)). lia. }
  assert (checked c mm) as Hck.
  { unfold in_width in *. unfold end_pa, region_end in *.
    rewrite (end_nowrap (base_va mm) (size mm) (va_max_address c)) in * by (done || lia).
    rewrite (end_nowrap (base_pa mm) (size mm) (pa_max_address c)) in * by (done || lia).
    rewrite !orb_false_iff, !negb_false_iff, !page_aligned in Eal.
    destruct Eal as [[? ?] ?].
    split; [done|done|done|lia|lia|lia|unfold rend; lia|lia|].
    change XLAT_BLOCK_SIZE with sz in Egr. lia. }
  assert (z ≠ []) as Hzne.
  { intros ->. rewrite Hz, app_nil_r in Hlen. lia. }
  rewrite Hz. destruct (check_overlaps_run c mm rs z Hcf Hck (rg_each _ _ Hok) Hz0 Hzne)
    as [[E Hp]|(E & a & Ha & Hbad)].
  - exists 0. split; [done|]. split; [done|]. by intros [].
  - exists (- EPERM). split; [done|]. split; [done|]. intros _. split; [|auto].
    intros (_ & _ & A). by apply Hbad, A.
Qed.

(** ** The place of a new region *)

Lemma skip_lower_run (c : xlat_ctx) (end_va : Z) (rs z : list mmap_region_t) (i : Z) :
  (∀ a, a ∈ rs → size a ≠ 0) → Forall (λ q, size q = 0) z → z ≠ [] →
  ∃ pre post, rs = pre ++ post ∧ skip_lower end_va (rs ++ z) i c = Ok (i + zlen pre, c)
    ∧ (∀ a, a ∈ pre → region_end a < end_va)
    ∧ (∀ a post', post = a :: post' → end_va <= region_end a).
Proof.
  intros Hs Hz Hne. revert i. induction rs as [|a rs IH]; intros i.
  - exists [], []. split; [done|]. destruct z as [|q z]; [done|]. inversion Hz as [|? ? E]; subst.
    cbn [app skip_lower]. rewrite E, andb_false_r. unfold zlen. cbn.
    rewrite Z.add_0_r. split_and!; [done|by intros ? ?%not_elem_of_nil|done].
  - cbn [app skip_lower]. rewrite (proj2 (Z.eqb_neq (size a) 0)) by (apply Hs; left).
    rewrite andb_true_r. destruct (Z.ltb_spec (region_end a) end_va) as [Hlt|Hge].
    + destruct (IH ltac:(intros; apply Hs; by right) (i + 1)) as (pre & post & -> & Hrun & H1 & H2).
      exists (a :: pre), post. split; [done|]. rewrite Hrun, zlen_cons.
      split_and!; [do 2 f_equal; lia| |done]. intros b [->|Hb]%elem_of_cons; [done|by apply H1].
    + exists [], (a :: rs). split; [done|]. unfold zlen at 1. cbn. rewrite Z.add_0_r.
      split_and!; [done|by intros ? ?%not_elem_of_nil|]. by intros b ? [= -> _].
Qed.

Lemma skip_smaller_run (c : xlat_ctx) (end_va s : Z) (rs z : list mmap_region_t) (i : Z) :
  (∀ a, a ∈ rs → size a ≠ 0) → Forall (λ q, size q = 0) z → z ≠ [] →
  ∃ pre post, rs = pre ++ post ∧ skip_smaller end_va s (rs ++ z) i c = Ok (i + zlen pre, c)
    ∧ (∀ a, a ∈ pre → region_end a = end_va ∧ size a < s)
    ∧ (∀ a post', post = a :: post' → region_end a = end_va → s <= size a).
Proof.
  intros Hs Hz Hne. revert i. induction rs as [|a rs IH]; intros i.
  - exists [], []. split; [done|]. destruct z as [|q z]; [done|]. inversion Hz as [|? ? E]; subst.
    cbn [app skip_smaller]. rewrite E, andb_false_r. unfold zlen. cbn.
    rewrite Z.add_0_r. split_and!; [done|by intros ? ?%not_elem_of_nil|done].
  - cbn [app skip_smaller]. rewrite (proj2 (Z.eqb_neq (size a) 0)) by (apply Hs; left).
    rewrite andb_true_r. destruct ((region_end a =? end_va) && (size a <? s)) eqn:E.
    + destruct (IH ltac:(intros; apply Hs; by right) (i + 1)) as (pre & post & -> & Hrun & H1 & H2).
      exists (a :: pre), post. split; [done|]. rewrite Hrun, zlen_cons.
      split_and!; [do 2 f_equal; lia| |done].
      intros b [->|Hb]%elem_of_cons; [lia|by apply H1].
    + exists [], (a :: rs). split; [done|]. unfold zlen at 1. cbn. rewrite Z.add_0_r.
      split_and!; [done|by intros ? ?%not_elem_of_nil|]. intros b ? [= -> _]. lia.
Qed.

Lemma sorted_app (l k : list mmap_region_t) :
  StronglySorted region_lt (l ++ k) ↔
  StronglySorted region_lt l ∧ StronglySorted region_lt k ∧ ∀ a b, a ∈ l → b ∈ k → region_lt a b.
Proof.
  induction l as [|x l IH]; cbn [app].
  - split; [|by intros (_ & ? & _)]. intros. split_and!; [constructor|done|].
    by intros a b ?%not_elem_of_nil.
  - split.
    + intros H. inversion H as [|? ? H1 H2]; subst. apply IH in H1 as (L & K & LK).
      rewrite List.Forall_forall in H2. split_and!; [|done|].
      * constructor; [done|]. rewrite List.Forall_forall. intros y Hy. apply H2, in_or_app. by left.
      * intros a b [->|Ha]%elem_of_cons Hb; [|by apply LK].
        apply H2, in_or_app. right. by apply list_elem_of_In.
    + intros (L & K & LK). inversion L as [|? ? H1 H2]; subst. constructor.
      * apply IH. split_and!; [done|done|]. intros a b Ha Hb. apply LK; [by right|done].
      * rewrite List.Forall_forall in *. intros y [Hy|Hy]%in_app_or; [by apply H2|].
        apply LK; [left|by apply list_elem_of_In].
Qed.

(** A place where the new region keeps the array in order *)
Lemma find_place_run (c : xlat_ctx) (mm : mmap_region_t) (rs z : list mmap_region_t) :
  conf_ok c → regions_ok c rs → checked c mm → (∀ a, a ∈ rs → pair_ok mm a) →
  Forall (λ q, size q = 0) z → z ≠ [] →
  ∃ pre post, rs = pre ++ post ∧ find_place mm (rs ++ z) c = Ok (zlen pre, c)
    ∧ regions_ok c (pre ++ mm :: post).
Proof.
  intros Hcf Hok Hmm Hpair Hz Hne.
  assert (∀ a, a ∈ rs → size a ≠ 0) as Hnz.
  { intros a Ha. pose proof (ck_pos _ _ (rg_each _ _ Hok a Ha)). lia. }
  assert (∀ a, a ∈ rs → region_end a = rend a - 1) as Hend.
  { intros a Ha. by apply (checked_end c a Hcf), (rg_each _ _ Hok). }
  pose proof (proj1 (checked_end c mm Hcf Hmm)) as Em.
  destruct (skip_lower_run c (region_end mm) rs z 0 Hnz Hz Hne)
    as (p1 & rest & E1 & Hr1 & L1 & U1).
  destruct (skip_smaller_run c (region_end mm) (size mm) rest z (zlen p1)) as
    (p2 & post & E2 & Hr2 & L2 & U2); [|done|done|].
  { intros a Ha. apply Hnz. rewrite E1. apply elem_of_app. by right. }
  exists (p1 ++ p2), post. split; [by rewrite <- app_assoc, <- E2|]. split.
  { unfold find_place. erewrite bind_Ok; [|exact Hr1]. rewrite Z.add_0_l.
    assert (drop (Z.to_nat (zlen p1)) (rs ++ z) = rest ++ z) as ->.
    { rewrite E1, <- app_assoc. unfold zlen. by rewrite Nat2Z.id, drop_app_length. }
    by rewrite Hr2, zlen_app. }
  pose proof (rg_sorted _ _ Hok) as Hsort. rewrite E1, E2, app_assoc in Hsort.
  apply sorted_app in Hsort as (S1 & S2 & S12).
  assert (∀ a, a ∈ p1 ++ p2 → region_lt a mm) as Hpre.
  { intros a Ha. assert (a ∈ rs) as Hin by (rewrite E1, E2, app_assoc; apply elem_of_app; by left).
    pose proof (Hend a Hin) as Ea. unfold region_lt. apply elem_of_app in Ha as [Ha|Ha].
    - specialize (L1 a Ha). lia.
    - destruct (L2 a Ha). lia. }
  assert (∀ a, a ∈ post → region_lt mm a) as Hpost.
  { destruct post as [|h post]; [by intros a ?%not_elem_of_nil|].
    assert (h ∈ rs) as Hin by (rewrite E1, E2; set_solver).
    assert (region_lt mm h) as Hh.
    { pose proof (Hend h Hin) as Eh. specialize (Hpair h Hin).
      assert (rend mm <= rend h) as Hle.
      { destruct p2 as [|a p2].
        - specialize (U1 h post E2). lia.
        - destruct (L2 a ltac:(left)) as [La _]. pose proof (S12 a h ltac:(set_solver) ltac:(left)) as Hlt.
          assert (a ∈ rs) as Ha by (rewrite E1, E2; set_solver).
          pose proof (Hend a Ha). unfold region_lt in Hlt. lia. }
      unfold region_lt. destruct (decide (rend mm = rend h)) as [E|]; [|lia]. right.
      split; [done|]. specialize (U2 h post eq_refl ltac:(lia)).
      pose proof (ck_pos _ _ Hmm). pose proof (ck_pos _ _ (rg_each _ _ Hok h Hin)).
      destruct Hpair as [(_ & _ & _ & _ & Hn)|[Hap _]].
      - unfold rend in *. lia.
      - unfold apart, rend in *. lia. }
    intros a [->|Ha]%elem_of_cons; [done|]. inversion S2 as [|? ? _ HF]; subst.
    eapply region_lt_trans; [exact Hh|]. rewrite List.Forall_forall in HF. by apply HF, list_elem_of_In. }
  split.
  - intros a [Ha|[->|Ha]%elem_of_cons]%elem_of_app; [|done|];
      apply (rg_each _ _ Hok); rewrite E1, E2; set_solver.
  - apply sorted_app. split_and!; [done| |].
    + constructor; [done|]. rewrite List.Forall_forall. intros a Ha. by apply Hpost, list_elem_of_In.
    + intros a b Ha [->|Hb]%elem_of_cons; [by apply Hpre|by apply S12].
  - assert (∀ a, a ∈ (p1 ++ p2) ++ mm :: post → a = mm ∨ a ∈ rs) as Hsub.
    { intros a Ha. rewrite E1, E2. set_solver. }
    intros a b [->|Ha]%Hsub [->|Hb]%Hsub Hab.
    + done.
    + by apply Hpair.
    + by apply pair_ok_sym, Hpair.
    + by apply (rg_pair _ _ Hok).
Qed.

(** ** Inserting and removing in the array *)

Lemma take_zlen {A} (l k : list A) : take (Z.to_nat (zlen l)) (l ++ k) = l.
Proof. unfold zlen. by rewrite Nat2Z.id, take_app_length. Qed.

Lemma drop_zlen {A} (l k : list A) : drop (Z.to_nat (zlen l)) (l ++ k) = k.
Proof. unfold zlen. by rewrite Nat2Z.id, drop_app_length. Qed.

Lemma array_move_Ok {A} (dst src n : Z) (l : list A) (c : xlat_ctx) :
  0 <= dst → 0 <= src → 0 <= n → dst + n <= zlen l → src + n <= zlen l →
  array_move dst src n l c
  = Ok (take (Z.to_nat dst) l ++ take (Z.to_nat n) (drop (Z.to_nat src) l)
          ++ drop (Z.to_nat (dst + n)) l, c).
Proof. intros. unfold array_move. by rewrite !(proj2 (Z.leb_le _ _)) by lia. Qed.

(** The elements [mid] move up by one, over [y]. *)
Lemma array_insert {A} (pre mid suf : list A) (x y : A) (c : xlat_ctx) :
  ∃ l, array_move (zlen pre + 1) (zlen pre) (zlen mid) (pre ++ mid ++ y :: suf) c = Ok (l, c)
    ∧ zlen l = zlen (pre ++ mid ++ y :: suf)
    ∧ (∀ i, zlen pre + zlen mid < i → zget l i = zget (pre ++ mid ++ y :: suf) i)
    ∧ zset l (zlen pre) x = pre ++ x :: mid ++ suf.
Proof.
  pose proof (zlen_nonneg pre). pose proof (zlen_nonneg mid). pose proof (zlen_nonneg suf).
  rewrite array_move_Ok by (rewrite ?zlen_app, ?zlen_cons; lia).
  rewrite drop_zlen, take_zlen.
  destruct (mid ++ y :: suf) as [|h tl] eqn:E; [by destruct mid|].
  assert (take (Z.to_nat (zlen pre + 1)) (pre ++ h :: tl) = pre ++ [h]) as ->.
  { replace (zlen pre + 1) with (zlen (pre ++ [h])) by (rewrite zlen_app, zlen_cons; done).
    rewrite (cons_middle h pre tl). rewrite app_assoc. apply take_zlen. }
  assert (drop (Z.to_nat (zlen pre + 1 + zlen mid)) (pre ++ h :: tl) = suf) as ->.
  { rewrite <- E. replace (zlen pre + 1 + zlen mid) with (zlen (pre ++ mid ++ [y])).
    - rewrite (cons_middle y mid suf), !app_assoc. apply drop_zlen.
    - rewrite !zlen_app, zlen_cons. unfold zlen at 3. cbn. lia. }
  exists ((pre ++ [h]) ++ mid ++ suf). split; [done|].
  assert ((pre ++ [h]) ++ mid ++ suf = pre ++ h :: mid ++ suf) as -> by (by rewrite <- app_assoc).
  split; [|split].
  - rewrite <- E. rewrite !zlen_app, !zlen_cons, !zlen_app, ?zlen_cons. lia.
  - intros i Hi. rewrite <- E. unfold zget. destruct (Z.ltb_spec i 0); [done|].
    unfold zlen in Hi. rewrite !(cons_middle _ pre), !(cons_middle y mid suf), !app_assoc.
    rewrite !(lookup_app_r _ suf) by (rewrite !length_app; cbn; lia).
    rewrite !length_app. cbn [length]. f_equal. lia.
  - apply zset_mid.
Qed.

(** One element is removed; the last one stays where it is. *)
Lemma array_remove {A} (pre suf : list A) (x : A) (c : xlat_ctx) :
  array_move (zlen pre) (zlen pre + 1) (zlen suf) (pre ++ x :: suf) c
  = Ok (pre ++ suf ++ drop (length suf) (x :: suf), c).
Proof.
  pose proof (zlen_nonneg pre). pose proof (zlen_nonneg suf).
  rewrite array_move_Ok by (rewrite ?zlen_app, ?zlen_cons; lia).
  rewrite take_zlen.
  assert (drop (Z.to_nat (zlen pre + 1)) (pre ++ x :: suf) = suf) as ->.
  { replace (zlen pre + 1) with (zlen (pre ++ [x])) by (rewrite zlen_app, zlen_cons; done).
    rewrite (cons_middle x pre suf), app_assoc. apply drop_zlen. }
  assert (take (Z.to_nat (zlen suf)) suf = suf) as ->.
  { apply take_ge. unfold zlen. lia. }
  assert (drop (Z.to_nat (zlen pre + zlen suf)) (pre ++ x :: suf) = drop (length suf) (x :: suf)) as ->.
  { rewrite <- (drop_app_add pre (x :: suf)). f_equal. unfold zlen. lia. }
  done.
Qed.

Lemma find_last_run (c : xlat_ctx) (rs z : list mmap_region_t) (i num : Z) :
  (∀ a, a ∈ rs → size a ≠ 0) → Forall (λ q, size q = 0) z → z ≠ [] → i + zlen rs <= num →
  find_last (rs ++ z) i num c = Ok (i + zlen rs, c).
Proof.
  intros Hs Hz Hne. revert i. induction rs as [|a rs IH]; intros i Hi.
  - destruct z as [|q z]; [done|]. inversion Hz as [|? ? E]; subst. cbn [app find_last].
    rewrite E. unfold zlen. cbn. by rewrite Z.add_0_r.
  - rewrite zlen_cons in *. pose proof (zlen_nonneg rs). cbn [app find_last].
    rewrite (proj2 (Z.eqb_neq (size a) 0)) by (apply Hs; left).
    rewrite (proj2 (Z.ltb_lt i num)) by lia. cbn [negb andb].
    rewrite IH by (try (intros; apply Hs; by right); lia). do 2 f_equal. lia.
Qed.

(** ** Adding a region *)

Definition with_region (c : xlat_ctx) (l : list mmap_region_t) (mm : mmap_region_t) : xlat_ctx :=
  set_mmap c l (Z.max (max_pa c) (base_pa mm + size mm - 1)) (Z.max (max_va c) (rend mm - 1)).

Lemma regions_conf (c c' : xlat_ctx) (rs : list mmap_region_t) :
  space c' = space c → pa_max_address c' = pa_max_address c → regions_ok c rs → regions_ok c' rs.
Proof.
  intros E1 E2 [H1 H2 H3]. split; [|done|done]. intros a Ha.
  destruct (H1 a Ha). split; rewrite ?E1, ?E2; done.
Qed.

Lemma max_if (a b : Z) : (if a <? b then b else a) = Z.max a b.
Proof. destruct (Z.ltb_spec a b); lia. Qed.

Lemma add_region_run (c : xlat_ctx) (rs : list mmap_region_t) (mm : mmap_region_t) :
  conf_ok c → arr rs c → raw_ok mm → size mm ≠ 0 → initialized c = false →
  mmap_add_region_ctx mm c = Stop AssertFail
  ∨ ∃ pre post l, rs = pre ++ post ∧ mmap_add_region_ctx mm c = Ok (tt, with_region c l mm)
      ∧ arr (pre ++ mm :: post) (with_region c l mm) ∧ (∀ a, a ∈ rs → pair_ok mm a).
Proof.
  intros Hcf Harr Hraw Hs Hi. destruct (check_run c rs mm Hcf Harr Hraw Hs) as (ret & Hck & Hz & _).
  unfold mmap_add_region_ctx. rewrite (proj2 (Z.eqb_neq _ _)) by done.
  erewrite bind_Ok; [|reflexivity]. rewrite Hi. erewrite bind_Ok; [|reflexivity].
  rewrite (bind_Ok _ _ _ _ _ Hck). destruct (Z.eqb_spec ret 0) as [->|Hne]; [right|by left].
  destruct (Hz eq_refl) as (Hmm & Hroom & Hpair). destruct Harr as [(z & Em & Hz0) Hlen _ Hok].
  assert (z ≠ []) as Hzne by (intros ->; rewrite Em, app_nil_r in Hlen; lia).
  destruct (find_place_run c mm rs z Hcf Hok Hmm Hpair Hz0 Hzne) as (pre & post & E & Hplace & Hok').
  erewrite bind_Ok; [|reflexivity]. cbv zeta. rewrite Em, (bind_Ok _ _ _ _ _ Hplace).
  assert (∀ a, a ∈ rs → size a ≠ 0) as Hnz.
  { intros a Ha. pose proof (ck_pos _ _ (rg_each _ _ Hok a Ha)). lia. }
  erewrite bind_Ok; [|apply find_last_run; [done|done|done|lia]]. rewrite Z.add_0_l.
  destruct z as [|z0 z]; [done|]. inversion Hz0 as [|? ? E0 Hz1]; subst.
  erewrite bind_Ok; [|apply aget_Ok, zget_mid]. rewrite E0. erewrite bind_Ok; [|reflexivity].
  destruct (array_insert pre post z mm z0 c) as (l & Hl & Hlen' & Hsame & Hset).
  rewrite <- app_assoc. erewrite bind_Ok; cycle 1.
  { rewrite zlen_app. replace (zlen pre + zlen post - zlen pre) with (zlen post) by lia. exact Hl. }
  rewrite Em, <- app_assoc in Hlen.
  assert (∃ y, zget l (mmap_num c) = Some y ∧ size y = 0) as (y & Hy & Hy0).
  { destruct (zget_is_Some l (mmap_num c)) as [y Hy].
    - pose proof (cf_num _ Hcf). lia.
    - exists y. split; [done|]. rewrite zlen_app in Hroom. rewrite Hsame in Hy by lia.
      rewrite app_assoc in Hy. unfold zget in Hy. destruct (Z.ltb_spec (mmap_num c) 0); [done|].
      rewrite lookup_app_r in Hy by (rewrite length_app; unfold zlen in *; lia).
      apply list_elem_of_lookup_2 in Hy. rewrite Forall_forall in Hz0. by apply Hz0. }
  erewrite bind_Ok; [|by apply aget_Ok]. rewrite Hy0. erewrite bind_Ok; [|reflexivity].
  erewrite bind_Ok; [|apply aset_Ok; pose proof (zlen_nonneg pre);
    pose proof (zlen_nonneg post); pose proof (zlen_nonneg z);
    rewrite Hlen', !zlen_app, !zlen_cons; lia].
  rewrite Hset, !max_if. destruct (checked_end c mm Hcf Hmm) as [-> Epa].
  fold (region_end_pa mm). rewrite Epa.
  exists pre, post, (pre ++ mm :: post ++ z). split; [done|]. split; [done|]. split; [|done].
  split.
  - exists z. cbn. by rewrite <- app_assoc.
  - cbn. rewrite <- Hlen, !zlen_app, !zlen_cons, !zlen_app, ?zlen_cons. lia.
  - cbn. rewrite zlen_app in *. rewrite zlen_cons. lia.
  - by apply (regions_conf c).
Qed.
