(* ===== verification/XlatInit.v ===== *)
(** * Translation tables: what the tables translate

    When the regions of the array are mapped one after the other, the tables
    translate each address as the smallest region that contains it says.  With
    enough tables for the places the regions need, initialisation does not
    panic. *)

From stdpp Require Import sets.
From Stdlib Require Import Sorted.
From S2P Require Import Prelude Bits Xlat XlatWalk XlatDesc XlatTree XlatMap XlatRegions.

Local Open Scope Z_scope.

#[local] Arguments replicate : simpl never.

(** ** The region of an address *)

#[export] Instance region_eq_dec : EqDecision mmap_region_t.
Proof. solve_decision. Defined.

#[export] Instance in_r_dec (r : mmap_region_t) (va : Z) : Decision (in_r r va).
Proof. unfold in_r. apply _. Defined.

(** The first region of the array that contains the address *)
Definition region_at (rs : list mmap_region_t) (va : Z) : option mmap_region_t :=
  List.find (λ r, bool_decide (in_r r va)) rs.

Lemma region_at_Some (rs : list mmap_region_t) (va : Z) (r : mmap_region_t) :
  region_at rs va = Some r → r ∈ rs ∧ in_r r va.
Proof.
  intros H. apply List.find_some in H as [H1 H2]. apply list_elem_of_In in H1.
  by apply bool_decide_eq_true in H2.
Qed.

Lemma region_at_None (rs : list mmap_region_t) (va : Z) :
  region_at rs va = None ↔ ∀ r, r ∈ rs → ¬ in_r r va.
Proof.
  split.
  - intros H r Hr. apply list_elem_of_In in Hr. pose proof (List.find_none _ _ H r Hr) as Hf.
    by apply bool_decide_eq_false in Hf.
  - intros H. destruct (region_at rs va) as [r|] eqn:E; [|done].
    apply region_at_Some in E as [Hr Hin]. by destruct (H r Hr).
Qed.

Lemma region_at_app (l k : list mmap_region_t) (va : Z) :
  region_at (l ++ k) va = match region_at l va with Some r => Some r | None => region_at k va end.
Proof.
  unfold region_at. induction l as [|x l IH]; cbn; [done|]. by destruct (bool_decide (in_r x va)).
Qed.

(** Of two regions of a context that meet, the earlier is inside the later. *)
Lemma earlier_inside (a b : mmap_region_t) (va : Z) :
  pair_ok a b → region_lt a b → in_r a va → in_r b va → inside a b.
Proof.
  unfold pair_ok, region_lt, inside, apart, in_r, rend. intros Hp Hlt [Ha1 Ha2] [Hb1 Hb2].
  destruct Hp as [([?|?] & _)|[? _]]; lia.
Qed.

(** The first region that contains an address is the smallest that does. *)
Lemma region_at_smallest (c : xlat_ctx) (rs : list mmap_region_t) (va : Z) (r : mmap_region_t) :
  regions_ok c rs → region_at rs va = Some r → ∀ q, q ∈ rs → in_r q va → size r <= size q.
Proof.
  intros Hok Hat q Hq Hin. destruct (decide (q = r)) as [->|Hne]; [done|].
  pose proof (region_at_Some _ _ _ Hat) as [Hr Hinr].
  assert (region_lt r q) as Hlt.
  { apply list_elem_of_split in Hr as (l & k & ->). pose proof (rg_sorted _ _ Hok) as Hs.
    apply sorted_app in Hs as (_ & Hs & _). inversion Hs as [|? ? _ HF]; subst.
    rewrite List.Forall_forall in HF.
    apply elem_of_app in Hq as [Hq|[->|Hq]%elem_of_cons]; [|done|by apply HF, list_elem_of_In].
    exfalso. rewrite region_at_app in Hat. destruct (region_at l va) as [r'|] eqn:E.
    - simplify_eq. apply region_at_Some in E as [E _].
      pose proof (rg_sorted _ _ Hok) as (_ & _ & H)%sorted_app.
      specialize (H r r E ltac:(left)). unfold region_lt in H. lia.
    - by apply (proj1 (region_at_None _ _) E q). }
  destruct (earlier_inside r q va) as [H1 H2]; [|done..|].
  - by apply (rg_pair _ _ Hok).
  - unfold rend in *. lia.
Qed.

(** ** Tables that translate a list of regions *)

Section Translates.
Context (e : xlat_env).

Definition translates (c : xlat_ctx) (rs : list mmap_region_t) : Prop :=
  ∀ va, 0 <= va < space c →
    match region_at rs va with
    | Some q => ∃ x, mapping e c va = Some x ∧ leaf_for e c q va x
    | None => mapping e c va = None
    end.

(** The region meets the addresses of the table of level [l] at [p]. *)
Definition meets_table (l p : Z) (r : mmap_region_t) : bool :=
  (p * sz (l - 1) <? rend r) && (base_va r <? (p + 1) * sz (l - 1)).

(** The count of each table is the number of regions that meet it. *)
Definition counts_ok (own : Z → option (Z * Z)) (c : xlat_ctx) (rs : list mmap_region_t) : Prop :=
  ∀ i l p, own i = Some (l, p) → cnt c i = zsum (λ r, if meets_table l p r then 1 else 0) rs.

(** Each table in use is needed by one of the regions. *)
Definition owned_needed (own : Z → option (Z * Z)) (c : xlat_ctx) (rs : list mmap_region_t) : Prop :=
  ∀ i l p, own i = Some (l, p) → ∃ q, q ∈ rs ∧ needs c q l p.

Lemma space_conf (c c' : xlat_ctx) : same_conf c c' → space c' = space c.
Proof. intros Hs. unfold space. by destruct (same_conf_fields _ _ Hs) as (-> & -> & _). Qed.

Lemma leaf_conf (c c' : xlat_ctx) (q : mmap_region_t) (va : Z) (x : Z * Z) :
  same_conf c c' → leaf_for e c q va x → leaf_for e c' q va x.
Proof.
  intros Hs. unfold leaf_for. cbv zeta. by rewrite (conf_desc e c c') by done.
Qed.

Lemma leaf_in (c : xlat_ctx) (q : mmap_region_t) (va : Z) (x : Z * Z) :
  leaf_for e c q va x → in_r q va.
Proof.
  intros (H1 & H2 & H3 & H4 & _). pose proof (sz_pos x.2 ltac:(lia)).
  pose proof (proj1 (div_range va (sz x.2) _ ltac:(lia)) eq_refl). unfold in_r. lia.
Qed.

(** Blocks that are mapped lie inside the next region or do not meet it. *)
Lemma translates_compat (c : xlat_ctx) (rs : list mmap_region_t) (r : mmap_region_t) :
  translates c rs → (∀ q va, q ∈ rs → in_r q va → in_r r va → inside q r) →
  compat e r c BaseT (base_level c) 0 (space c).
Proof.
  intros Ht Hin va d l' Hva Hr HW. specialize (Ht va Hva). unfold mapping in Ht.
  destruct (region_at rs va) as [q|] eqn:Eq; [|congruence].
  destruct Ht as (x & Hx & Hleaf). rewrite HW in Hx. simplify_eq.
  apply region_at_Some in Eq as [Hq Hqva]. destruct (Hin q va Hq Hqva Hr) as [I1 I2].
  destruct Hleaf as (_ & _ & H1 & H2 & _). cbn in *. lia.
Qed.

(** Both ways to say that a region meets a table *)
Lemma touches_meets (c : xlat_ctx) (r : mmap_region_t) (l p : Z) :
  l <= 3 → 0 <= base_va r < rend r → rend r <= space c →
  touches r 0 (space c) l p ↔ meets_table l p r = true.
Proof.
  intros Hl Hr He. pose proof (sz_pos (l - 1) ltac:(lia)). unfold touches, meets_table, in_r.
  rewrite andb_true_iff, !Z.ltb_lt. split.
  - intros (va & Hva & Hin & E). apply div_range in E; lia.
  - intros [H1 H2]. exists (Z.max (base_va r) (p * sz (l - 1))). split_and!; [lia|lia|lia|lia|].
    apply div_range; lia.
Qed.

(** Mapping one more region *)
Lemma step_translates (own own' : Z → option (Z * Z)) (c c' : xlat_ctx) (rs : list mmap_region_t)
    (r : mmap_region_t) :
  wf e None own c → 0 <= base_va r < rend r → rend r <= space c →
  (∀ q, q ∈ rs → 0 <= base_va q < rend q ∧ rend q <= space c) →
  translates c rs → counts_ok own c rs →
  step e c r (base_level c) own BaseT (base_level c) 0 (space c) c own' c' →
  translates c' (rs ++ [r]) ∧ counts_ok own' c' (rs ++ [r]).
Proof.
  intros Hw Hr He Hrs Ht Hcn S. pose proof (st_conf _ _ _ _ _ _ _ _ _ _ _ _ S) as Hs.
  pose proof (st_wf _ _ _ _ _ _ _ _ _ _ _ _ S) as Hw'.
  split.
  - intros va. rewrite (space_conf c c' Hs). intros Hva. rewrite region_at_app.
    pose proof (st_cover _ _ _ _ _ _ _ _ _ _ _ _ S va Hva) as Hcov.
    specialize (Ht va Hva). unfold mapping in *. rewrite (same_conf_level _ _ Hs).
    destruct (region_at rs va) as [q|].
    + destruct Ht as (x & Hx & Hleaf). rewrite Hx in Hcov. exists x. split; [done|].
      by eapply leaf_conf.
    + rewrite Ht in Hcov. destruct Hcov as [H1 H2]. cbn. case_bool_decide as Hin.
      * destruct (H1 Hin) as (x & Hx & Hleaf). exists x. split; [done|]. by eapply leaf_conf.
      * by apply H2.
  - intros i l p Hi. rewrite zsum_app. unfold zsum at 2. cbn [foldr]. rewrite Z.add_0_r.
    pose proof (wf_own _ _ _ _ Hw' _ _ _ Hi) as (Hi' & Hl & _).
    rewrite (same_conf_level _ _ Hs), (proj2 Hs) in *.
    destruct (st_cnt _ _ _ _ _ _ _ _ _ _ _ _ S _ _ _ Hi) as [C1 C2].
    rewrite (touches_meets c r l p) in C1, C2 by lia.
    assert (cnt c i = zsum (λ r, if meets_table l p r then 1 else 0) rs) as Hc0.
    { destruct (own i) as [[l0 p0]|] eqn:Eo.
      - pose proof (st_mono _ _ _ _ _ _ _ _ _ _ _ _ S _ _ Eo) as E. rewrite Hi in E. simplify_eq.
        by apply Hcn.
      - destruct (wf_cnt _ _ _ _ Hw i Hi') as (_ & Z0 & _). rewrite (Z0 Eo).
        destruct (st_new _ _ _ _ _ _ _ _ _ _ _ _ S i l p Eo Hi) as [_ Hnew].
        assert (∀ q, q ∈ rs → meets_table l p q = false) as Hq.
        { intros q Hq. destruct (meets_table l p q) eqn:E; [|done]. exfalso.
          destruct (Hrs q Hq) as [Hq1 Hq2]. apply (touches_meets c) in E; [|lia|done|done].
          destruct E as (va & Hva & Hin & Ep). destruct (Hnew va Ep) as [_ HW].
          specialize (Ht va Hva). unfold mapping in Ht. destruct (region_at rs va) as [q'|] eqn:Er.
          - destruct Ht as (x & Hx & _). congruence.
          - by apply (proj1 (region_at_None _ _) Er q). }
        clear - Hq. induction rs as [|q rs IH]; [done|]. unfold zsum in *. cbn [foldr].
        rewrite (Hq q) by left. rewrite <- IH; [done|]. intros q' Hq'. apply Hq. by right. }
    rewrite <- Hc0. destruct (meets_table l p r).
    + apply C1; [lia|done].
    + rewrite C2 by (right; done). lia.
Qed.

(** ** The tables a list of regions needs *)

#[export] Instance needs_dec (c : xlat_ctx) (r : mmap_region_t) (l p : Z) : Decision (needs c r l p).
Proof. unfold needs. apply _. Defined.

(** The places of the tables one region needs *)
Definition needed (c : xlat_ctx) (r : mmap_region_t) : list (Z * Z) :=
  l ← seqZ (base_level c + 1) (3 - base_level c);
  p ← seqZ (base_va r / sz (l - 1)) ((rend r - 1) / sz (l - 1) - base_va r / sz (l - 1) + 1);
  if decide (needs c r l p) then [(l, p)] else [].

(** The number of tables the regions need *)
Definition tables_needed (c : xlat_ctx) (rs : list mmap_region_t) : Z :=
  zlen (remove_dups (rs ≫= needed c)).

Lemma elem_of_needed (c : xlat_ctx) (r : mmap_region_t) (l p : Z) :
  needs c r l p → (l, p) ∈ needed c r.
Proof.
  intros Hn. pose proof Hn as (Hl & H1 & H2 & _). unfold needed.
  pose proof (sz_pos (l - 1) ltac:(lia)) as Hsz.
  apply list_elem_of_bind. exists l. split; [|apply elem_of_seqZ; lia].
  apply list_elem_of_bind. exists p. split.
  - rewrite decide_True by done. by left.
  - pose proof (proj1 (div_range (base_va r) (sz (l - 1)) _ ltac:(lia)) eq_refl).
    pose proof (proj1 (div_range (rend r - 1) (sz (l - 1)) _ ltac:(lia)) eq_refl).
    apply elem_of_seqZ. nia.
Qed.

Lemma NoDup_omap {A B} (f : A → option B) (l : list A) :
  (∀ i j x, f i = Some x → f j = Some x → i = j) → NoDup l → NoDup (omap f l).
Proof.
  intros Hinj. induction 1 as [|i l Hi Hl IH]; [constructor|]. cbn.
  destruct (f i) as [x|] eqn:E; [|done]. constructor; [|done].
  rewrite list_elem_of_omap. intros (j & Hj & Ej). by rewrite (Hinj i j x E Ej) in Hi.
Qed.

Lemma length_omap_all {A B} (f : A → option B) (l : list A) :
  (∀ i, i ∈ l → f i ≠ None) → length (omap f l) = length l.
Proof.
  induction l as [|i l IH]; intros H; [done|]. cbn.
  destruct (f i) eqn:E; [|by destruct (H i ltac:(left))]. cbn. f_equal. apply IH.
  intros j Hj. apply H. by right.
Qed.

(** Every table is used and one more is needed: there are too few. *)
Lemma failed_short (own : Z → option (Z * Z)) (c c' : xlat_ctx) (rs : list mmap_region_t)
    (r : mmap_region_t) :
  r ∈ rs → tables_num c' = tables_num c → failed e c r own c' →
  (∀ i l p, own i = Some (l, p) → ∃ q, q ∈ rs ∧ needs c q l p) →
  tables_num c < tables_needed c rs.
Proof.
  intros Hr Hnum (own' & Hw & Hex & Hown & (l0 & p0 & Hn0 & Hfree)) Hneed.
  set (places := (l0, p0) :: omap own' (seqZ 0 (tables_num c))).
  assert (∀ i, 0 <= i < tables_num c → own' i ≠ None) as Hall.
  { intros i Hi Ho. rewrite <- Hnum in Hi. destruct (wf_cnt _ _ _ _ Hw i Hi) as (_ & Hz & _).
    by apply (Hex i Hi), Hz. }
  assert (NoDup places) as Hnd.
  { constructor.
    - rewrite list_elem_of_omap. intros (i & _ & Hi). by apply (Hfree i).
    - apply NoDup_omap; [|apply NoDup_seqZ]. intros i j [l p] Hi Hj.
      by pose proof (pos_inj e _ _ _ (SubT i) (SubT j) _ _ Hw Hi Hj); simplify_eq. }
  assert (∀ x, x ∈ places → x ∈ remove_dups (rs ≫= needed c)) as Hsub.
  { intros [l p] Hx. apply elem_of_remove_dups, list_elem_of_bind.
    assert (∃ q, q ∈ rs ∧ needs c q l p) as (q & Hq & Hn).
    { apply elem_of_cons in Hx as [E|Hx]; [simplify_eq; by exists r|].
      apply list_elem_of_omap in Hx as (i & _ & Hi).
      destruct (Hown i l p Hi) as [Ho|Hn]; [by apply (Hneed i)|by exists r]. }
    exists q. split; [by apply elem_of_needed|done]. }
  assert (length (omap own' (seqZ 0 (tables_num c))) = Z.to_nat (tables_num c)) as Hlen.
  { rewrite length_omap_all; [by rewrite length_seqZ|].
    intros i Hi%elem_of_seqZ. apply Hall. lia. }
  pose proof (submseteq_length _ _ (NoDup_submseteq _ _ Hnd Hsub)) as Hle.
  unfold tables_needed, zlen. unfold places in Hle. cbn [length] in Hle. rewrite Hlen in Hle.
  pose proof (zlen_nonneg (tables c)). unfold tables_num in *. lia.
Qed.

(** ** Initialisation *)

Lemma conf_ok_conf (c c' : xlat_ctx) : same_conf c c' → conf_ok c → conf_ok c'.
Proof.
  intros Hs. pose proof (space_conf c c' Hs) as Hsp.
  destruct (same_conf_fields _ _ Hs) as (E1 & E2 & E3 & E4 & E5 & E6 & E7 & _).
  intros []. split; rewrite ?Hsp, ?E1, ?E4, ?E5, ?E7; done.
Qed.

Lemma regions_same (c c' : xlat_ctx) (rs : list mmap_region_t) :
  same_conf c c' → regions_ok c rs → regions_ok c' rs.
Proof.
  intros Hs. apply regions_conf; [by apply space_conf|].
  by destruct (same_conf_fields _ _ Hs) as (_ & _ & _ & _ & -> & _).
Qed.

Lemma needs_conf (c c' : xlat_ctx) (r : mmap_region_t) (l p : Z) :
  same_conf c c' → needs c r l p → needs c' r l p.
Proof. intros Hs. unfold needs. by rewrite (same_conf_level _ _ Hs). Qed.

Lemma tables_needed_conf (c c' : xlat_ctx) (rs : list mmap_region_t) :
  same_conf c c' → tables_needed c' rs = tables_needed c rs.
Proof.
  intros Hs. unfold tables_needed. do 2 f_equal. apply list_bind_ext; [|done]. intros r.
  unfold needed. rewrite (same_conf_level _ _ Hs). apply list_bind_ext; [|done]. intros l.
  apply list_bind_ext; [|done]. intros p. apply decide_ext. unfold needs.
  by rewrite (same_conf_level _ _ Hs).
Qed.

(** The loop over the regions: [done] are mapped, [todo] are not yet. *)
Lemma init_regions_run (todo done_ z : list mmap_region_t) (own : Z → option (Z * Z))
    (c : xlat_ctx) :
  conf_ok c → regime_ok c → regions_ok c (done_ ++ todo) → (∀ a, a ∈ todo → type_ok (attr a)) →
  Forall (λ q, size q = 0) z → z ≠ [] →
  wf e None own c → translates c done_ → counts_ok own c done_ →
  owned_needed own c done_ →
  (init_regions e (todo ++ z) c = Stop PanicCall ∧ tables_num c < tables_needed c (done_ ++ todo))
  ∨ ∃ own' c', init_regions e (todo ++ z) c = Ok (tt, c') ∧ same_conf c c' ∧ wf e None own' c'
      ∧ translates c' (done_ ++ todo) ∧ counts_ok own' c' (done_ ++ todo)
      ∧ owned_needed own' c' (done_ ++ todo).
Proof.
  intros Hcf Hreg Hok Hty Hz Hzne. revert done_ own c Hcf Hreg Hok Hty.
  induction todo as [|r todo IH]; intros done_ own c Hcf Hreg Hok Hty Hw Ht Hcn Hnd.
  - right. exists own, c. destruct z as [|q z]; [done|]. inversion Hz as [|? ? E]; subst.
    cbn [app init_regions]. rewrite E, app_nil_r. done.
  - assert (r ∈ done_ ++ r :: todo) as Hr by set_solver.
    pose proof (rg_each _ _ Hok r Hr) as Hck.
    pose proof (checked_region c r Hcf Hck (Hty r ltac:(left))) as Hro.
    pose proof (checked_end c r Hcf Hck) as [Hend _].
    pose proof (rg_sorted _ _ Hok) as Hsort. apply sorted_app in Hsort as (_ & _ & Hlt).
    assert (∀ q, q ∈ done_ ++ r :: todo → 0 <= base_va q < rend q ∧ rend q <= space c) as Hrange.
    { intros q Hq. destruct (rg_each _ _ Hok q Hq). unfold rend in *. lia. }
    assert (∀ q va, q ∈ done_ → in_r q va → in_r r va → inside q r) as Hin.
    { intros q va Hq Hq1 Hq2. pose proof (Hlt q r Hq ltac:(left)) as Hl.
      apply (earlier_inside q r va); [|done..]. apply (rg_pair _ _ Hok); [set_solver|done|].
      intros ->. unfold region_lt in Hl. lia. }
    destruct (map_all_run e own c r Hw Hreg Hro (translates_compat c done_ r Ht Hin))
      as (ret & c1 & Hrun & Hs & Hcase).
    cbn [app init_regions]. rewrite (proj2 (Z.eqb_neq (size r) 0)) by (pose proof (ck_pos _ _ Hck); lia).
    rewrite (bind_Ok _ _ _ _ _ Hrun). destruct Hcase as [[Hne Hfail]|[-> (own1 & S)]].
    + rewrite (proj2 (Z.eqb_neq _ _)) by done. left. split; [done|].
      apply (failed_short own c c1 _ r Hr); [by apply Hs|done|].
      intros i l p Hi. destruct (Hnd i l p Hi) as (q & Hq & Hn). exists q. split; [set_solver|done].
    + rewrite Z.eqb_refl. cbn [negb].
      destruct (step_translates own own1 c c1 done_ r Hw) as [Ht1 Hcn1]; [| | |done|done|done|].
      { apply Hrange, Hr. } { apply Hrange, Hr. } { intros q Hq. apply Hrange. set_solver. }
      destruct (IH (done_ ++ [r]) own1 c1) as [[Hp Hf]|(own' & c' & Hrun' & Hs' & Hw' & Ht' & Hcn' & Hnd')].
      * by eapply conf_ok_conf.
      * by eapply conf_regime.
      * rewrite <- app_assoc. by eapply regions_same.
      * intros a Ha. apply Hty. by right.
      * apply S.
      * done.
      * done.
      * intros i l p Hi.
        destruct (step_needs _ _ _ _ _ _ _ _ _ _ _ _ S i l p Hi) as [Ho|Hn].
        -- destruct (Hnd i l p Ho) as (q & Hq & Hn). exists q.
           split; [set_solver|by eapply needs_conf].
        -- exists r. split; [set_solver|by eapply needs_conf].
      * left. split; [done|]. rewrite (proj2 Hs), (tables_needed_conf c c1 _ Hs), <- app_assoc in Hf.
        done.
      * right. exists own', c'. rewrite <- app_assoc in Ht', Hcn', Hnd'.
        split_and!; [done|by eapply same_conf_trans|done|done|done|done].
Qed.


(** What the arrays of tables must be like before initialisation *)
Record tabs_ok (c : xlat_ctx) : Prop := {
  tb_env : env_ok e (tables_num c);
  tb_lvl : 0 <= base_level c <= 3;
  tb_base : 1 <= base_table_entries c <= 512;
}.

Lemma zero_conf (c : xlat_ctx) : same_conf c (zero_tables c).
Proof. split; [done|]. unfold tables_num, zlen. cbn. by rewrite length_replicate. Qed.

Lemma zero_entry (c : xlat_ctx) (t : tref) (k d : Z) :
  entry (zero_tables c) t k = Some d → d = 0.
Proof.
  destruct t as [|i]; cbn.
  - intros H%zget_elem. by apply elem_of_replicate in H as [-> _].
  - destruct (zget _ i) as [tb|] eqn:E; [|done]. cbn. intros H%zget_elem.
    apply zget_elem in E. apply elem_of_replicate in E as [-> _].
    by apply elem_of_replicate in H as [-> _].
Qed.

Lemma zero_wf (c : xlat_ctx) : tabs_ok c → wf e None (λ _, None) (zero_tables c).
Proof.
  intros [He Hl Hb]. pose proof (zero_conf c) as Hs.
  destruct (same_conf_fields _ _ Hs) as (Fl & Fe & _ & _ & _ & _ & _ & _ & _ & _ & Fn).
  split; rewrite ?Fn, ?Fl, ?Fe; [done|done| | | |done| | |done|].
  - cbn. rewrite zlen_replicate. lia.
  - intros i tb H%zget_elem. cbn in H. by apply elem_of_replicate in H as [-> _].
  - cbn. rewrite zlen_replicate. unfold tables_num, zlen. done.
  - intros i k Hi _ Hk. assert (∃ d, entry (zero_tables c) (SubT i) k = Some d) as [d Hd].
    { cbn. rewrite zget_replicate by (unfold tables_num, zlen in Hi; lia). cbn.
      exists 0. apply zget_replicate. lia. }
    rewrite Hd. f_equal. by eapply zero_entry.
  - intros t l p k d _ Hd. left. by eapply zero_entry.
  - intros i Hi. unfold cnt. cbn. rewrite zget_replicate by (unfold tables_num, zlen in Hi; lia).
    cbn. split_and!; [done|done|]. by intros [].
Qed.

Lemma zero_mapping (c : xlat_ctx) : translates (zero_tables c) [].
Proof.
  intros va Hva. cbn. unfold mapping, W. destruct (Z.to_nat _); [done|]. cbn [walk].
  destruct (entry (zero_tables c) BaseT _) as [d|] eqn:E; [|done].
  by rewrite (zero_entry _ _ _ _ E).
Qed.

(** What [init_xlat_tables_ctx()] asserts of the configuration *)
Record init_ok (c : xlat_ctx) : Prop := {
  io_init : initialized c = false;
  io_regime : regime_ok c;
  io_mmu : mmu_enabled e = false;
  io_min : u64 (min_virt_addr_space_size e - 1) <= va_max_address c;
  io_pow : ∃ k, 0 <= k <= 48 ∧ space c = 2 ^ k;
  io_pa : pa_max_address c <= max_supported_pa e;
}.

(** The tables and counts are those of the regions in the array. *)
Definition tables_inv (c : xlat_ctx) (rs : list mmap_region_t) : Prop :=
  ∃ own, wf e None own c ∧ translates c rs ∧ counts_ok own c rs ∧ owned_needed own c rs.

(** The highest addresses of the regions *)
Definition limits_ok (c : xlat_ctx) : Prop :=
  max_va c <= va_max_address c ∧ max_pa c <= pa_max_address c.

Lemma mapping_flags (c : xlat_ctx) (b : bool) (g va : Z) :
  mapping e (set_flags c b g) va = mapping e c va.
Proof. by apply W_ext. Qed.

Lemma wf_flags (fr : option Z) (own : Z → option (Z * Z)) (c : xlat_ctx) (b : bool) (g : Z) :
  wf e fr own c → wf e fr own (set_flags c b g).
Proof. intros []. by split. Qed.

Lemma init_run (c : xlat_ctx) (rs : list mmap_region_t) :
  conf_ok c → tabs_ok c → arr rs c → limits_ok c → init_ok c →
  (∀ a, a ∈ rs → type_ok (attr a)) →
  (init_xlat_tables_ctx e c = Stop PanicCall ∧ tables_num c < tables_needed c rs)
  ∨ ∃ c', init_xlat_tables_ctx e c = Ok (tt, set_flags c' true (xlat_regime c))
      ∧ same_conf c c' ∧ tables_inv (set_flags c' true (xlat_regime c)) rs.
Proof.
  intros Hcf Htb [(z & Em & Hz) Hlen Hroom Hok] [Lv Lp] [Hi Hreg Hmmu Hmin (k & Hk & Hpow) Hpa] Hty.
  pose proof (zero_conf c) as Hs. unfold init_xlat_tables_ctx.
  erewrite bind_Ok; [|reflexivity]. rewrite Hi. erewrite bind_Ok; [|reflexivity].
  assert ((xlat_regime c =? EL3_REGIME) || (xlat_regime c =? EL2_REGIME)
          || (xlat_regime c =? EL1_EL0_REGIME) = true) as -> by (destruct Hreg as [-> | [-> | ->]]; done).
  erewrite bind_Ok; [|reflexivity]. rewrite Hmmu. erewrite bind_Ok; [|reflexivity].
  rewrite (proj2 (Z.leb_le (u64 _) (va_max_address c))) by done. erewrite bind_Ok; [|reflexivity].
  pose proof (cf_space _ Hcf) as Hsp. pose proof (cf_le _ Hcf) as Hle.
  assert (MAX_VIRT_ADDR_SPACE_SIZE = 2 ^ 48) as EM by done.
  rewrite EM, (proj2 (Z.leb_le (va_max_address c) _)) by lia. erewrite bind_Ok; [|reflexivity].
  assert (IS_POWER_OF_TWO (u64 (va_max_address c + 1)) = true) as ->.
  { rewrite Hsp, u64_va by lia. unfold IS_POWER_OF_TWO. rewrite u64_va by lia. rewrite Hpow.
    by rewrite land_pred_pow2 by lia. }
  erewrite bind_Ok; [|reflexivity]. erewrite bind_Ok; [|reflexivity].
  assert (z ≠ []) as Hzne by (intros ->; rewrite Em, app_nil_r in Hlen; lia).
  destruct (init_regions_run rs [] z (λ _, None) (zero_tables c))
    as [[Hp Hf]|(own & c' & Hrun & Hs' & Hw & Ht & Hcn & Hnd)].
  - by eapply conf_ok_conf.
  - by eapply conf_regime.
  - by apply (regions_same c).
  - done.
  - done.
  - done.
  - by apply zero_wf.
  - apply zero_mapping.
  - done.
  - done.
  - left. split.
    + unfold mbind at 1, M_bind at 1. by rewrite Em, Hp.
    + by rewrite (proj2 Hs), (tables_needed_conf c _ _ Hs) in Hf.
  - right. exists c'. pose proof (same_conf_trans _ _ _ Hs Hs') as Hs2.
    destruct (same_conf_fields _ _ Hs2) as (_ & _ & E3 & E4 & E5 & _ & _ & E8 & E9 & _).
    split_and!.
    + rewrite Em, (bind_Ok _ _ _ _ _ Hrun). erewrite bind_Ok; [|reflexivity].
      rewrite E3, E4, E5, E8, E9. rewrite !(proj2 (Z.leb_le _ _)) by lia. done.
    + done.
    + exists own. split_and!; [by apply wf_flags| |done|done].
      intros va Hva. rewrite mapping_flags. specialize (Ht va Hva). cbn [app] in Ht.
      destruct (region_at rs va) as [q|]; [|done]. destruct Ht as (x & Hx & Hl). exists x.
      split; [done|]. unfold leaf_for, desc_val, flags_of in *. cbn in *. by rewrite <- E3.
Qed.
End Translates.
