(* ===== verification/XlatLookup.v ===== *)
(** * Translation tables: looking up attributes

    The software walk of [xlat_get_mem_attributes()] finds what the tables
    translate an address to, and reads back the attributes of its region. *)

From stdpp Require Import sets.
From S2P Require Import Prelude Bits Xlat XlatWalk XlatDesc XlatTree XlatMap XlatRegions XlatInit.

Local Open Scope Z_scope.

Section Lookup.
Context (e : xlat_env).

Lemma table_idx (va l : Z) : l <= 3 → XLAT_TABLE_IDX va l = (va / sz l) mod 512.
Proof.
  intros Hl. unfold XLAT_TABLE_IDX. rewrite shiftr_sz by done.
  change 0x1FF with (Z.ones 9). by rewrite Z.land_ones.
Qed.

(** The walk in software and the walk of the tables *)
Lemma find_run (fr : option Z) (own : Z → option (Z * Z)) (c : xlat_ctx) (depth : nat)
    (t : tref) (l p va : Z) :
  wf e fr own c → depth = Z.to_nat (4 - l) → pos own c t = Some (l, p) →
  va / sz (l - 1) = p → (va / sz l) mod 512 < entries_of c l →
  ∃ res, find_xlat_table_entry e depth va t (entries_of c l) l c = Ok (res, c)
    ∧ match res with
      | None => W e c t l va = None
      | Some (t', k, l') => ∃ d p', entry c t' k = Some d ∧ W e c t l va = Some (d, l')
          ∧ pos own c t' = Some (l', p') ∧ va / sz l' = 512 * p' + k ∧ 0 <= k < 512
          ∧ leaf_ok l' d ∧ d ≠ 0
      end.
Proof.
  intros Hw. revert t l p. induction depth as [|depth IH]; intros t l p Hd Ht Hp Hidx;
    pose proof (pos_level _ _ _ _ _ _ _ Hw Ht) as [Hl Hp0]; [lia|].
  destruct (idx_of va l p) as [Hva Hk]; [lia|done|]. set (k := (va / sz l) mod 512) in *.
  destruct (entry_some e fr own c t l p k Hw Ht ltac:(lia)) as (d & Hde & Hok).
  cbn [find_xlat_table_entry]. rewrite table_idx by lia. fold k.
  rewrite (proj2 (Z.leb_gt _ _)) by lia.
  rewrite (bind_Ok _ _ _ _ _ (read_entry_run c t k d Hde)). cbv zeta.
  assert (∀ l', leaf_ok l d → d ≠ 0 → l' = l →
    ∃ d0 p', entry c t k = Some d0 ∧ W e c t l va = Some (d0, l') ∧ pos own c t = Some (l', p')
      ∧ va / sz l' = 512 * p' + k ∧ 0 <= k < 512 ∧ leaf_ok l' d0 ∧ d0 ≠ 0) as Hleaf.
  { intros l' Hlf Hnz ->. exists d, p. split_and!; try done; try lia.
    eapply (W_leaf e _ _ _ _ _ _ _ _ _ Hw Ht Hva Hk Hde).
    destruct Hlf as [?|[?|?]]; [done|by right|by left]. }
  destruct Hok as [E|[[Hl3 Hx]|[[Hl3 Hx]|(Hl3 & i & E & Hi)]]].
  - subst d. exists None. split; [done|]. eapply (W_zero e); done.
  - rewrite Hx. change (BLOCK_DESC =? INVALID_DESC) with false. cbv iota.
    rewrite (proj2 (Z.eqb_neq l _)) by (unfold XLAT_TABLE_LEVEL_MAX; lia).
    exists (Some (t, k, l)). split; [done|]. apply Hleaf; [by right; left| |done].
    intros ->. done.
  - rewrite Hx. change (PAGE_DESC =? INVALID_DESC) with false. cbv iota.
    rewrite (proj2 (Z.eqb_eq l _)) by done.
    exists (Some (t, k, l)). split; [done|]. apply Hleaf; [by right; right| |done].
    intros ->. done.
  - subst d. pose proof (wf_own _ _ _ _ Hw _ _ _ Hi) as (Hir & Hl1 & _).
    rewrite (table_desc_type e (tables_num c)) by apply (wf_env _ _ _ _ Hw).
    change (3 =? INVALID_DESC) with false. cbv iota.
    rewrite (proj2 (Z.eqb_neq l _)) by (unfold XLAT_TABLE_LEVEL_MAX; lia).
    change (3 =? BLOCK_DESC) with false. cbv iota. erewrite bind_Ok; [|reflexivity].
    erewrite bind_Ok; [|apply subtable_of_run; [apply (wf_env _ _ _ _ Hw)|done]].
    assert (entries_of c (l + 1) = 512) as E5.
    { unfold entries_of. by rewrite (proj2 (Z.eqb_neq _ _)) by lia. }
    destruct (IH (SubT i) (l + 1) (512 * p + k)) as (res & Hrun & Hres).
    + lia.
    + done.
    + by replace (l + 1 - 1) with l by lia.
    + rewrite E5. apply Z.mod_pos_bound. lia.
    + rewrite E5 in Hrun. exists res. split; [exact Hrun|].
      assert (W e c t l va = W e c (SubT i) (l + 1) va) as HW by (by eapply W_table).
      rewrite HW. destruct res as [[[t' k'] l']|]; done.
Qed.

(** From the base table, for an address of the address space *)
Lemma find_entry_run (fr : option Z) (own : Z → option (Z * Z)) (c : xlat_ctx) (va : Z) :
  wf e fr own c → conf_ok c → 0 <= va < space c →
  ∃ res, find_entry e va (u64 (va_max_address c + 1)) c = Ok (res, c)
    ∧ match res with
      | None => mapping e c va = None
      | Some (t, k, l) => ∃ d p, entry c t k = Some d ∧ mapping e c va = Some (d, l)
          ∧ pos own c t = Some (l, p) ∧ va / sz l = 512 * p + k ∧ 0 <= k < 512
          ∧ leaf_ok l d ∧ d ≠ 0
      end.
Proof.
  intros Hw Hcf Hva. pose proof (cf_space _ Hcf) as Hsp. pose proof (cf_le _ Hcf).
  pose proof (wf_lvl _ _ _ _ Hw) as Hl. pose proof (wf_base _ _ _ _ Hw) as [_ Hb].
  pose proof (sz_pos (base_level c) ltac:(lia)).
  assert (entries_of c (base_level c) = base_table_entries c) as HE.
  { unfold entries_of. by rewrite Z.eqb_refl. }
  assert (0 <= va / sz (base_level c) < base_table_entries c) as Hdiv.
  { unfold space in Hva. split; [apply Z.div_pos; lia|apply Z.div_lt_upper_bound; lia]. }
  unfold find_entry. erewrite bind_Ok; [|reflexivity].
  rewrite Hsp, u64_va, (cf_base _ Hcf) by lia. cbv zeta. rewrite <- HE.
  apply (find_run fr own c _ BaseT (base_level c) 0 va Hw).
  - done.
  - done.
  - rewrite <- div_up by lia. apply Z.div_small. lia.
  - rewrite Z.mod_small by lia. lia.
Qed.

(** ** Lookups in tables that are in use *)

(** Every descriptor that maps an address is one [xlat_desc()] makes. *)
Definition descs_ok (c : xlat_ctx) : Prop :=
  ∀ v d l, 0 <= v < space c → mapping e c v = Some (d, l) →
    ∃ a pa, type_ok a ∧ (4096 | pa) ∧ 0 <= pa < 2 ^ 48 ∧ pa mod sz l = 0
      ∧ d = desc_val e c a pa l.

(** Tables in use, whatever the regions *)
Record in_use (own : Z → option (Z * Z)) (c : xlat_ctx) : Prop := {
  iu_wf : wf e None own c;
  iu_conf : conf_ok c;
  iu_regime : regime_ok c;
  iu_init : initialized c = true;
  iu_descs : descs_ok c;
}.

Lemma tables_in_use (c : xlat_ctx) (rs : list mmap_region_t) :
  conf_ok c → regime_ok c → initialized c = true → regions_ok c rs →
  (∀ a, a ∈ rs → type_ok (attr a)) → tables_inv e c rs → ∃ own, in_use own c.
Proof.
  intros Hcf Hreg Hi Hok Hty (own & Hw & Ht & _). exists own. split; try done.
  intros v d l Hv Hm. specialize (Ht v Hv). destruct (region_at rs v) as [r|] eqn:Er; [|congruence].
  destruct Ht as (x & Hx & Hl1 & Hg & Hb1 & Hb2 & Hal & Hd). rewrite Hm in Hx.
  injection Hx as <-. cbn in Hl1, Hg, Hb1, Hb2, Hal, Hd. apply region_at_Some in Er as [Hr _].
  pose proof (rg_each _ _ Hok r Hr) as []. pose proof (cf_pa _ Hcf).
  pose proof (sz_pos l ltac:(lia)).
  exists (attr r), (base_pa r + v / sz l * sz l - base_va r). split_and!; try done.
  - by apply Hty.
  - apply Z.divide_sub_r; [|done]. apply Z.divide_add_r; [done|]. apply page_up. lia.
  - lia.
  - unfold rend in *. lia.
Qed.

(** The lookup of an address, from what the tables hold *)
Lemma lookup_in_use (own : Z → option (Z * Z)) (c : xlat_ctx) (v : Z) :
  in_use own c → 0 <= v < space c →
  match mapping e c v with
  | None => xlat_get_mem_attributes_internal e v c = Ok ((- EINVAL, None), c)
  | Some (d, l) => ∃ t k p a pa, xlat_get_mem_attributes_internal e v c
        = Ok ((0, Some {| mi_attr := effective_attr c a; mi_entry := (t, k); mi_pa := pa;
                          mi_level := l |}), c)
      ∧ entry c t k = Some d ∧ pos own c t = Some (l, p) ∧ v / sz l = 512 * p + k ∧ 0 <= k < 512
      ∧ leaf_ok l d ∧ d ≠ 0
      ∧ type_ok a ∧ (4096 | pa) ∧ 0 <= pa < 2 ^ 48 ∧ pa mod sz l = 0 ∧ d = desc_val e c a pa l
  end.
Proof.
  intros [Hw Hcf Hreg Hinit Hds] Hv.
  pose proof (cf_space _ Hcf) as Hsp. pose proof (cf_le _ Hcf) as Hle.
  destruct (find_entry_run None own c v Hw Hcf Hv) as (res & Hrun & Hres).
  unfold xlat_get_mem_attributes_internal. erewrite bind_Ok; [|reflexivity].
  rewrite Hinit. erewrite bind_Ok; [|reflexivity].
  assert ((xlat_regime c =? EL1_EL0_REGIME) || (xlat_regime c =? EL2_REGIME)
          || (xlat_regime c =? EL3_REGIME) = true) as -> by (destruct Hreg as [-> | [-> | ->]]; done).
  erewrite bind_Ok; [|reflexivity]. cbv zeta.
  assert ((0 <? u64 (va_max_address c + 1)) = true) as ->.
  { rewrite Hsp, u64_va by lia. apply Z.ltb_lt. lia. }
  erewrite bind_Ok; [|reflexivity]. rewrite (bind_Ok _ _ _ _ _ Hrun).
  destruct res as [[[t k] l]|]; [|by rewrite Hres].
  destruct Hres as (d & p & Hd & Hm & Hpos & Hk1 & Hk2 & Hlf & Hnz). rewrite Hm.
  destruct (Hds v d l Hv Hm) as (a & pa & Ha & Hpg & Hpa & Hal & Ed).
  exists t, k, p, a, pa. split_and!; try done; try lia.
  rewrite (bind_Ok _ _ _ _ _ (read_entry_run c t k _ Hd)). rewrite Ed.
  erewrite bind_Ok; [|by apply desc_attributes_run]. cbn. by rewrite desc_val_addr.
Qed.
(** What the lookup returns: the attributes of the region, the entry, the
    physical address and size of the block *)
Lemma lookup_run (c : xlat_ctx) (rs : list mmap_region_t) (va : Z) :
  conf_ok c → regime_ok c → initialized c = true → regions_ok c rs →
  (∀ a, a ∈ rs → type_ok (attr a)) → tables_inv e c rs → 0 <= va < space c →
  match region_at rs va with
  | None => xlat_get_mem_attributes_internal e va c = Ok ((- EINVAL, None), c)
  | Some r => ∃ i, xlat_get_mem_attributes_internal e va c = Ok ((0, Some i), c)
      ∧ mi_attr i = effective_attr c (attr r)
      ∧ 1 <= mi_level i <= 3 ∧ mi_pa i mod sz (mi_level i) = 0
      ∧ mi_pa i + va mod sz (mi_level i) = base_pa r + (va - base_va r)
  end.
Proof.
  intros Hcf Hreg Hinit Hok Hty Hinv Hva.
  destruct (tables_in_use c rs Hcf Hreg Hinit Hok Hty Hinv) as [own Hin].
  pose proof (lookup_in_use own c va Hin Hva) as Hlk. destruct Hinv as (own' & _ & Ht & _).
  specialize (Ht va Hva). destruct (region_at rs va) as [r|] eqn:Er; [|by rewrite Ht in Hlk].
  destruct Ht as ([d l] & Hm & Hl1 & Hg & Hb1 & Hb2 & Hal & Hdesc). cbn in Hl1, Hg, Hb1, Hb2, Hal, Hdesc.
  rewrite Hm in Hlk. destruct Hlk as (t & k & p & a & pa & Hrun & _ & _ & _ & _ & _ & _ & Ha & Hpg & Hpa & Hpal & Ed).
  apply region_at_Some in Er as [Hr _]. pose proof (rg_each _ _ Hok r Hr) as [].
  pose proof (sz_pos l ltac:(lia)) as Hsz. pose proof (cf_pa _ Hcf) as Hcp.
  pose proof (Z.div_mod va (sz l) ltac:(lia)) as Hdm.
  set (blk := va / sz l * sz l) in *. set (pa' := base_pa r + blk - base_va r) in *.
  assert ((4096 | pa')) as Hpg'.
  { apply Z.divide_sub_r; [|done]. apply Z.divide_add_r; [done|]. apply page_up. lia. }
  assert (0 <= pa' < 2 ^ 48) as Hpa' by (unfold pa', rend in *; lia).
  eexists. split; [exact Hrun|]. cbn.
  destruct (desc_val_inj e c a (attr r) pa pa' l Hreg Ha Hpg Hpa (Hty r Hr) Hpg' Hpa') as [-> ->];
    [congruence|].
  split_and!; [done|lia|lia|done|]. unfold pa', blk in *. lia.
Qed.
End Lookup.
