(* ===== verification/XlatStatic.v ===== *)
(** * Translation tables: static regions, end to end

    From a context as it is registered, through adding regions and building
    the tables, to looking up an address. *)

From stdpp Require Import sets.
From S2P Require Import Prelude Bits Xlat XlatWalk XlatDesc XlatTree XlatMap XlatRegions XlatInit.
From S2P Require Import XlatLookup.

Local Open Scope Z_scope.

#[local] Arguments replicate : simpl never.

(** ** A registered context *)

(** The base level and the number of entries in the base table for an address
    space of [2 ^ k] bytes *)
Definition base_check (k : Z) : bool :=
  let s := 2 ^ k in let l := GET_XLAT_TABLE_LEVEL_BASE s in let n := GET_NUM_BASE_LEVEL_ENTRIES s in
  (0 <=? l) && (l <=? 3) && (1 <=? n) && (n <=? 512) && (n * XLAT_BLOCK_SIZE l =? s)
  && (GET_XLAT_TABLE_LEVEL_BASE s =? l).

Lemma base_check_all (k : Z) : 12 <= k <= 48 → base_check k = true.
Proof.
  intros Hk. assert (forallb base_check (seqZ 12 37) = true) as H by (vm_compute; reflexivity).
  rewrite forallb_forall in H. apply H, list_elem_of_In, elem_of_seqZ. lia.
Qed.

Section registered.
Context (e : xlat_env) (n m k j regime : Z).
Context (Hk : 12 <= k <= 48) (Hj : 0 <= j <= 48) (Hn : 1 <= n) (Hm : 0 <= m).
#[local] Abbreviation c := (registered n m (2 ^ k) (2 ^ j) regime).

Lemma registered_space : space c = 2 ^ k.
Proof using Hk. pose proof (base_check_all k Hk) as H. unfold base_check in H. unfold space. cbn.
  change (sz (GET_XLAT_TABLE_LEVEL_BASE (2 ^ k)))
    with (XLAT_BLOCK_SIZE (GET_XLAT_TABLE_LEVEL_BASE (2 ^ k))). lia.
Qed.

Lemma registered_pow : 4096 <= 2 ^ k <= 2 ^ 48 ∧ 0 < 2 ^ j <= 2 ^ 48.
Proof using Hk Hj.
  change 4096 with (2 ^ 12). split; [split; apply Z.pow_le_mono_r; lia|].
  split; [apply Z.pow_pos_nonneg; lia|apply Z.pow_le_mono_r; lia].
Qed.

Lemma registered_conf : conf_ok c.
Proof using Hk Hj Hn.
  pose proof registered_space as Hs. pose proof registered_pow.
  split; rewrite ?Hs; cbn; rewrite ?u64_va by lia; lia.
Qed.

Lemma registered_tabs : env_ok e m → tabs_ok e c.
Proof using Hk Hm.
  intros He. pose proof (base_check_all k Hk) as H. unfold base_check in H. split.
  - unfold tables_num, zlen. cbn. rewrite length_replicate. by rewrite Z2Nat.id.
  - cbn. lia.
  - cbn. lia.
Qed.

Lemma registered_arr : arr [] c.
Proof using Hn.
  split.
  - exists (mmap c). split; [done|]. cbn. by apply Forall_replicate.
  - cbn. rewrite zlen_replicate. lia.
  - cbn. unfold zlen. cbn. lia.
  - split; [by intros ? ?%not_elem_of_nil|constructor|by intros ? ? ?%not_elem_of_nil].
Qed.
End registered.

(** ** Adding an array of regions *)

Definition max_over (f : mmap_region_t → Z) (rs : list mmap_region_t) : Z :=
  foldr (λ r m, Z.max (f r) m) 0 rs.

(** [max_va] and [max_pa] are the highest addresses of the regions. *)
Definition limits (rs : list mmap_region_t) (c : xlat_ctx) : Prop :=
  max_va c = max_over (λ r, rend r - 1) rs ∧ max_pa c = max_over (λ r, base_pa r + size r - 1) rs.

Lemma max_over_insert (f : mmap_region_t → Z) (pre post : list mmap_region_t) (r : mmap_region_t) :
  max_over f (pre ++ r :: post) = Z.max (max_over f (pre ++ post)) (f r).
Proof. unfold max_over. induction pre as [|x pre IH]; cbn in *; lia. Qed.

Lemma max_over_le (f : mmap_region_t → Z) (rs : list mmap_region_t) (b : Z) :
  0 <= b → (∀ r, r ∈ rs → f r <= b) → max_over f rs <= b.
Proof.
  intros Hb H. unfold max_over. induction rs as [|x rs IH]; cbn; [done|].
  assert (f x <= b) by (apply H; left).
  assert (foldr (λ r m, Z.max (f r) m) 0 rs <= b) by (apply IH; intros; apply H; by right). lia.
Qed.

Lemma limits_bound (c : xlat_ctx) (rs : list mmap_region_t) :
  conf_ok c → regions_ok c rs → limits rs c → limits_ok c.
Proof.
  intros Hcf Hok [Hv Hp]. pose proof (cf_space _ Hcf). pose proof (cf_le _ Hcf).
  pose proof (cf_pa _ Hcf). unfold limits_ok. rewrite Hv, Hp. split.
  - apply max_over_le; [lia|]. intros r Hr. pose proof (ck_end _ _ (rg_each _ _ Hok r Hr)). lia.
  - apply max_over_le; [lia|]. intros r Hr. pose proof (ck_pa_end _ _ (rg_each _ _ Hok r Hr)). lia.
Qed.

(** The regions that are not empty *)
Definition proper (l : list mmap_region_t) : list mmap_region_t :=
  List.filter (λ r, negb (size r =? 0)) l.

Lemma set_mmap_same (c : xlat_ctx) : set_mmap c (mmap c) (max_pa c) (max_va c) = c.
Proof. by destruct c. Qed.

Lemma mmap_add_run (l rs : list mmap_region_t) (c : xlat_ctx) :
  conf_ok c → arr rs c → limits rs c → initialized c = false →
  (∀ a, a ∈ l → raw_ok a ∧ granularity a ≠ 0) →
  mmap_add_ctx (l ++ [null_region]) c = Stop AssertFail
  ∨ ∃ rs' mm mpa mva, mmap_add_ctx (l ++ [null_region]) c = Ok (tt, set_mmap c mm mpa mva)
      ∧ arr rs' (set_mmap c mm mpa mva) ∧ limits rs' (set_mmap c mm mpa mva)
      ∧ rs' ≡ₚ rs ++ proper l.
Proof.
  revert rs c. induction l as [|a l IH]; intros rs c Hcf Ha Hlm Hi Hraw.
  - right. exists rs, (mmap c), (max_pa c), (max_va c). rewrite set_mmap_same, app_nil_r. done.
  - destruct (Hraw a ltac:(left)) as [Hra Hg]. cbn [app mmap_add_ctx].
    rewrite (proj2 (Z.eqb_neq _ _)) by done.
    assert (∀ b, b ∈ l → raw_ok b ∧ granularity b ≠ 0) as Hl by (intros; apply Hraw; by right).
    destruct (Z.eqb_spec (size a) 0) as [Hz|Hnz].
    + unfold mmap_add_region_ctx at 1 2. rewrite (proj2 (Z.eqb_eq _ _)) by done.
      unfold mbind at 1 2, M_bind at 1 2. cbn [mret M_ret]. unfold proper. cbn [List.filter].
      rewrite (proj2 (Z.eqb_eq _ _)) by done. cbn [negb]. by apply IH.
    + destruct (add_region_run c rs a Hcf Ha Hra Hnz Hi)
        as [Hf|(pre & post & mm & -> & Hrun & Harr & _)].
      { left. unfold mbind, M_bind. by rewrite Hf. }
      rewrite (bind_Ok _ _ _ _ _ Hrun).
      destruct (IH (pre ++ a :: post) (with_region c mm a)) as
        [Hf|(rs' & mm' & mpa & mva & Hrun' & Harr' & Hlm' & Hperm)].
      * destruct Hcf. by split.
      * done.
      * unfold limits, with_region. cbn. rewrite !max_over_insert. by destruct Hlm as [-> ->].
      * done.
      * done.
      * by left.
      * right. exists rs', mm', mpa, mva. split_and!; [exact Hrun'|exact Harr'|exact Hlm'|].
        rewrite Hperm. unfold proper. cbn [List.filter]. rewrite (proj2 (Z.eqb_neq (size a) 0)) by done.
        cbn [negb]. rewrite <- !app_assoc. cbn. apply Permutation_app_head.
        apply Permutation_middle.
Qed.


(** ** From a registered context to a lookup *)

Lemma tables_needed_sub (c : xlat_ctx) (rs l : list mmap_region_t) :
  (∀ a, a ∈ rs → a ∈ l) → tables_needed c rs <= tables_needed c l.
Proof.
  intros H. unfold tables_needed, zlen.
  apply inj_le, submseteq_length, NoDup_submseteq; [apply NoDup_remove_dups|].
  intros x. rewrite !elem_of_remove_dups, !list_elem_of_bind. intros (a & Hx & Ha). eauto.
Qed.


(** The regime [init_xlat_tables()] sets *)
Definition el_regime (e : xlat_env) : Z := current_el e.

(** What the running CPU and the memory layout must be like *)
Record cpu_ok (e : xlat_env) (m k j : Z) : Prop := {
  cpu_env : env_ok e m;
  cpu_el : 1 <= current_el e <= 3;
  cpu_mmu : mmu_enabled e = false;
  cpu_min : u64 (min_virt_addr_space_size e - 1) <= 2 ^ k - 1;
  cpu_pa : 2 ^ j - 1 <= max_supported_pa e;
}.

Lemma init_regime_run (e : xlat_env) (c : xlat_ctx) :
  1 <= current_el e <= 3 → xlat_regime c = EL_REGIME_INVALID →
  init_xlat_tables e c = init_xlat_tables_ctx e (set_flags c (initialized c) (el_regime e)).
Proof.
  intros Hel Hr. unfold init_xlat_tables. erewrite bind_Ok; [|reflexivity]. rewrite Hr.
  erewrite bind_Ok; [|reflexivity]. unfold el_regime.
  assert (current_el e = 1 ∨ current_el e = 2 ∨ current_el e = 3) as [E|[E|E]] by lia;
    rewrite E; by erewrite bind_Ok.
Qed.

(** What does not change once a context is registered *)
Definition same_limits (c c' : xlat_ctx) : Prop :=
  tables_num c' = tables_num c ∧ base_level c' = base_level c ∧ space c' = space c
  ∧ pa_max_address c' = pa_max_address c ∧ mmap_num c' = mmap_num c.

(** What the lookup of an address answers when [l] are the regions: [-EINVAL]
    when no region contains it, else the attributes of the smallest region that
    does, and a block that leads to the address at the same offset *)
Definition lookup_spec (e : xlat_env) (c : xlat_ctx) (l : list mmap_region_t) (va : Z) : Prop :=
  ((∀ a, a ∈ l → ¬ in_r a va) →
     xlat_get_mem_attributes_internal e va c = Ok ((- EINVAL, None), c))
  ∧ (∀ r, r ∈ l → in_r r va → (∀ q, q ∈ l → in_r q va → size r <= size q) →
     ∃ i, xlat_get_mem_attributes_internal e va c = Ok ((0, Some i), c)
       ∧ mi_attr i = effective_attr c (attr r)
       ∧ 1 <= mi_level i <= 3 ∧ mi_pa i mod sz (mi_level i) = 0
       ∧ mi_pa i + va mod sz (mi_level i) = base_pa r + (va - base_va r)).

Lemma lookup_spec_run (e : xlat_env) (c : xlat_ctx) (rs l : list mmap_region_t) (va : Z) :
  conf_ok c → regime_ok c → initialized c = true → regions_ok c rs →
  (∀ a, a ∈ rs → type_ok (attr a)) → tables_inv e c rs →
  (∀ a, a ∈ rs ↔ a ∈ l ∧ size a ≠ 0) → 0 <= va < space c → lookup_spec e c l va.
Proof.
  intros Hcf Hrg Hi Hok Hty Hinv Hmem Hva.
  pose proof (lookup_run e c rs va Hcf Hrg Hi Hok Hty Hinv Hva) as Hlk.
  destruct (region_at rs va) as [r0|] eqn:Er.
  - apply region_at_Some in Er as Hr0. destruct Hr0 as [Hr0 Hin0]. split.
    + intros Hno. exfalso. by apply (Hno r0); [apply Hmem|].
    + intros r Hr Hin Hmin. assert (r = r0) as ->; [|done].
      assert (r ∈ rs) as Hr' by (apply Hmem; split; [done|]; unfold in_r, rend in Hin; lia).
      destruct (decide (r = r0)) as [|Hne]; [done|exfalso].
      pose proof (region_at_smallest c rs va r0 Hok Er r Hr' Hin) as S1.
      pose proof (Hmin r0 (proj1 (proj1 (Hmem r0) Hr0)) Hin0) as S2.
      pose proof (rg_pair _ _ Hok r r0 Hr' Hr0 Hne) as Hpr.
      unfold pair_ok, inside, apart, in_r, rend in *.
      destruct Hpr as [([?|?] & _ & _ & _ & Hx)|[? _]]; lia.
  - split; [by intros _|]. intros r Hr Hin. exfalso.
    apply (proj1 (region_at_None _ _) Er r); [|done].
    apply Hmem. split; [done|]. unfold in_r, rend in Hin. lia.
Qed.

Lemma proper_mem (l rs : list mmap_region_t) :
  rs ≡ₚ proper l → ∀ a, a ∈ rs ↔ a ∈ l ∧ size a ≠ 0.
Proof.
  intros Hp a. rewrite Hp. unfold proper. rewrite !list_elem_of_In, List.filter_In.
  rewrite negb_true_iff, Z.eqb_neq. done.
Qed.

Section end_to_end.
Context (e : xlat_env) (n m k j : Z) (l : list mmap_region_t) (c1 : xlat_ctx).
Context (Hk : 12 <= k <= 48) (Hj : 0 <= j <= 48) (Hn : 1 <= n) (Hm : 0 <= m).
Context (Hcpu : cpu_ok e m k j).
Context (Hl : ∀ a, a ∈ l → raw_ok a ∧ granularity a ≠ 0 ∧ type_ok (attr a)).
#[local] Abbreviation c0 := (registered n m (2 ^ k) (2 ^ j) EL_REGIME_INVALID).
Context (Hadd : mmap_add (l ++ [null_region]) c0 = Ok (tt, c1)).

Lemma added :
  ∃ rs, arr rs c1 ∧ limits rs c1 ∧ rs ≡ₚ proper l
    ∧ ∃ mm mpa mva, c1 = set_mmap c0 mm mpa mva.
Proof using Hk Hj Hn Hl Hadd.
  destruct (mmap_add_run l [] c0) as [Hf|(rs & mm & mpa & mva & Hrun & Ha & Hlm & Hp)].
  - by apply registered_conf.
  - by apply registered_arr.
  - done.
  - done.
  - intros a Ha. by destruct (Hl a Ha) as (? & ? & _).
  - unfold mmap_add in Hadd. congruence.
  - unfold mmap_add in Hadd. rewrite Hrun in Hadd. simplify_eq. exists rs. eauto 10.
Qed.

Lemma init_end_to_end (rs : list mmap_region_t) :
  arr rs c1 → limits rs c1 → rs ≡ₚ proper l →
  (∃ mm mpa mva, c1 = set_mmap c0 mm mpa mva) →
  (init_xlat_tables e c1 = Stop PanicCall ∧ m < tables_needed c1 rs)
  ∨ ∃ c2, init_xlat_tables e c1 = Ok (tt, c2) ∧ tables_inv e c2 rs ∧ arr rs c2 ∧ limits rs c2
      ∧ conf_ok c2 ∧ regime_ok c2 ∧ initialized c2 = true ∧ same_limits c1 c2
      ∧ xlat_regime c2 = current_el e ∧ space c2 = 2 ^ k ∧ tables_num c2 = m
      ∧ (∀ a, a ∈ rs → type_ok (attr a)).
Proof using Hk Hj Hn Hm Hl Hcpu.
  intros Ha Hlm Hp (mm & mpa & mva & Ec1). destruct Hcpu as [Henv Hel Hmmu Hmin Hpa].
  assert (∀ a, a ∈ rs → type_ok (attr a)) as Hty.
  { intros a Hin. apply Hl. rewrite Hp in Hin. unfold proper in Hin.
    apply list_elem_of_In, List.filter_In in Hin as [Hin _]. by apply list_elem_of_In. }
  set (cr := set_flags c1 (initialized c1) (el_regime e)).
  assert (conf_ok cr) as Hcf.
  { unfold cr. rewrite Ec1. destruct (registered_conf n m k j EL_REGIME_INVALID Hk Hj Hn). by split. }
  assert (space cr = 2 ^ k) as Hsp.
  { unfold cr. rewrite Ec1. by apply registered_space. }
  assert (tabs_ok e cr) as Htb.
  { unfold cr. rewrite Ec1. destruct (registered_tabs e n m k j EL_REGIME_INVALID Hk Hm Henv). by split. }
  assert (arr rs cr) as Har.
  { destruct Ha as [Hz Hlen Hroom Hok]. split; [done|done|done|]. by apply (regions_conf c1). }
  assert (regime_ok cr) as Hrg.
  { unfold regime_ok, cr, el_regime. cbn. unfold EL1_EL0_REGIME, EL2_REGIME, EL3_REGIME. lia. }
  assert (tables_num cr = m) as Hnum.
  { unfold cr. rewrite Ec1. unfold tables_num. cbn. rewrite zlen_replicate. lia. }
  pose proof (registered_pow k j Hk Hj) as [Hpk Hpj].
  assert (va_max_address cr = 2 ^ k - 1) as Hvm by (pose proof (cf_space _ Hcf); lia).
  assert (pa_max_address cr = 2 ^ j - 1) as Hpm.
  { unfold cr. rewrite Ec1. cbn. apply u64_va. lia. }
  rewrite init_regime_run; [|done|by rewrite Ec1]. fold cr.
  destruct (init_run e cr rs) as [[Hf Hlt]|(c' & Hrun & Hs & Hinv)].
  - done.
  - done.
  - done.
  - apply (limits_bound cr rs Hcf); [apply Har|exact Hlm].
  - split; [unfold cr; by rewrite Ec1|done|done|lia|exists k; split; [lia|done]|lia].
  - done.
  - left. split; [done|]. by rewrite Hnum in Hlt.
  - right. eexists. split; [exact Hrun|]. split; [exact Hinv|].
    destruct (same_conf_fields _ _ Hs) as (E1 & E2 & E3 & E4 & E5 & E6 & E7 & E8 & E9 & _ & E11).
    pose proof (space_conf cr c' Hs) as Hsp'.
    split_and!; [| | |done|done| |done| | |done].
    + destruct Har as [Hz Hlen Hroom Hok].
      split; cbn; rewrite ?E6, ?E7; [done|done|done|by apply (regions_conf cr)].
    + unfold limits. cbn. rewrite E8, E9. done.
    + destruct (conf_ok_conf cr c' Hs Hcf). by split.
    + done.
    + unfold space in *. cbn. lia.
    + by rewrite <- Hnum, <- E11.
Qed.
End end_to_end.

(** C2: The translation tables, end to end.  Regions are added to a context as
    it is registered (an address space of [2 ^ k] bytes, [m] sub-tables) and
    the tables are built with at least as many sub-tables as the regions need.
    Then the build does not panic, and for every virtual address: if no region
    contains it, the lookup answers [-EINVAL]; otherwise it answers with the
    attributes of the smallest region that contains it, and the block it finds
    leads to the physical address at the same offset in that region. *)
Theorem xlat_tables_translate (e : xlat_env) (n m k j : Z) (l : list mmap_region_t)
    (c1 : xlat_ctx) :
  12 <= k <= 48 → 0 <= j <= 48 → 1 <= n → 0 <= m → cpu_ok e m k j →
  (∀ a, a ∈ l → raw_ok a ∧ granularity a ≠ 0 ∧ type_ok (attr a)) →
  mmap_add (l ++ [null_region]) (registered n m (2 ^ k) (2 ^ j) EL_REGIME_INVALID) = Ok (tt, c1) →
  tables_needed c1 l <= m →
  ∃ c2, init_xlat_tables e c1 = Ok (tt, c2) ∧ ∀ va, 0 <= va < 2 ^ k → lookup_spec e c2 l va.
Proof.
  intros Hk Hj Hn Hm Hcpu Hl Hadd Hneed.
  destruct (added n m k j l c1 Hk Hj Hn Hl Hadd) as (rs & Ha & Hlm & Hp & Ec).
  destruct (init_end_to_end e n m k j l c1 Hk Hj Hn Hm Hcpu Hl rs Ha Hlm Hp Ec)
    as [[_ Hf]|(c2 & Hrun & Hinv & Har & _ & Hcf & Hrg & Hi & _ & _ & Hsp & _ & Hty)].
  { exfalso. apply (Z.lt_irrefl m). eapply Z.lt_le_trans; [exact Hf|]. etrans; [|exact Hneed].
    apply tables_needed_sub. intros a Hin. by apply (proper_mem l rs Hp). }
  exists c2. split; [done|]. intros va Hva. apply (lookup_spec_run e c2 rs l); try done.
  - apply Har.
  - by apply proper_mem.
  - lia.
Qed.

(** A context with two sub-tables: 2 MB of memory and, inside it, one page of
    code *)
Definition demo_env : xlat_env :=
  {| host_mode := false; bti_present := false; mmu_enabled := false;
     max_supported_pa := 2 ^ 40 - 1; min_virt_addr_space_size := 2 ^ 25; current_el := 2;
     tables_addr := 0x80000000 |}.
Definition demo_regions : list mmap_region_t :=
  [MAP_REGION 0x50000000 0x40000000 0x200000 (Z.lor MT_MEMORY MT_RW);
   MAP_REGION 0x50001000 0x40001000 0x1000 MT_CODE].
Definition demo_ctx : xlat_ctx :=
  match mmap_add (demo_regions ++ [null_region])
          (registered 4 2 (2 ^ 32) (2 ^ 36) EL_REGIME_INVALID) with
  | Ok (_, c) => c
  | Stop _ => registered 4 2 (2 ^ 32) (2 ^ 36) EL_REGIME_INVALID
  end.

Lemma demo_in (P : mmap_region_t → Prop) :
  P (MAP_REGION 0x50000000 0x40000000 0x200000 (Z.lor MT_MEMORY MT_RW)) →
  P (MAP_REGION 0x50001000 0x40001000 0x1000 MT_CODE) → ∀ a, a ∈ demo_regions → P a.
Proof. intros H1 H2 a Ha%list_elem_of_In. by destruct Ha as [<-|[<-|[]]]. Qed.

Lemma demo_cpu (m : Z) : 0 <= m <= 16 → cpu_ok demo_env m 32 36.
Proof.
  intros Hm. split; [|done|done|vm_compute; congruence|vm_compute; congruence].
  split_and!; [by exists 0x80000|done|]. cbn. lia.
Qed.

Lemma xlat_tables_translate_witness :
  mmap_add (demo_regions ++ [null_region]) (registered 4 2 (2 ^ 32) (2 ^ 36) EL_REGIME_INVALID)
    = Ok (tt, demo_ctx)
  ∧ tables_needed demo_ctx demo_regions = 2
  ∧ ∃ c2, init_xlat_tables demo_env demo_ctx = Ok (tt, c2)
      ∧ xlat_get_mem_attributes_internal demo_env 0x60000000 c2 = Ok ((- EINVAL, None), c2)
      ∧ ∃ i, xlat_get_mem_attributes_internal demo_env 0x40001234 c2 = Ok ((0, Some i), c2)
          ∧ mi_attr i = MT_CODE.
Proof.
  split; [vm_compute; reflexivity|]. split; [vm_compute; reflexivity|].
  destruct (xlat_tables_translate demo_env 4 2 32 36 demo_regions demo_ctx) as (c2 & Hrun & Hva).
  - lia.
  - lia.
  - lia.
  - lia.
  - by apply demo_cpu.
  - apply demo_in; (split; [by split_and!|split; [done|by right; right]]).
  - vm_compute. reflexivity.
  - vm_compute. congruence.
  - exists c2. split; [done|]. split.
    + destruct (Hva 0x60000000 ltac:(lia)) as [H _]. apply H. apply demo_in; intros [_ H2]; by vm_compute in H2.
    + destruct (Hva 0x40001234 ltac:(lia)) as [_ H].
      destruct (H (MAP_REGION 0x50001000 0x40001000 0x1000 MT_CODE)) as (i & Hi & Ha & _).
      * by right; left.
      * split; by vm_compute.
      * refine (demo_in (λ q, in_r q _ → _ <= size q) _ _); intros _; by vm_compute.
      * exists i. split; [done|]. rewrite Ha. unfold effective_attr.
        change (has (attr _) MT_USER) with false. by rewrite andb_false_r.
Defined.
