(* ===== verification/XlatUnmap.v ===== *)
(** * Translation tables: unmapping a region

    [xlat_tables_unmap_region()] for a region that is mapped and meets no
    other: its assertions hold, every address of the region is unmapped and
    invalidated in the TLBs, no other translation changes, and the tables no
    region meets any more are given back empty. *)

From stdpp Require Import sets.
From S2P Require Import Prelude Bits Xlat XlatWalk XlatDesc XlatTree XlatMap XlatRegions XlatInit.

Local Open Scope Z_scope.

Section Unmap.
Context (e : xlat_env).

(** ** Unlinking a table *)

Definition own_del (own : Z → option (Z * Z)) (i : Z) : Z → option (Z * Z) :=
  λ j, if decide (j = i) then None else own j.

Lemma own_del_Some (own : Z → option (Z * Z)) (i j : Z) (x : Z * Z) :
  own_del own i j = Some x → j ≠ i ∧ own j = Some x.
Proof. unfold own_del. case_decide; [done|]. done. Qed.

Lemma entry_idx (fr : option Z) (own : Z → option (Z * Z)) (c : xlat_ctx) (t : tref) (k d : Z) :
  wf e fr own c → entry c t k = Some d → 0 <= k < 512.
Proof.
  intros Hw Hd. destruct t as [|i]; cbn in Hd.
  - apply zget_Some_range in Hd. pose proof (wf_base _ _ _ _ Hw). lia.
  - destruct (zget (tables c) i) as [tb|] eqn:E; [|done]. cbn in Hd.
    apply zget_Some_range in Hd. by rewrite (wf_tabs _ _ _ _ Hw _ _ E) in Hd.
Qed.

Lemma pos_del (own : Z → option (Z * Z)) (c : xlat_ctx) (i : Z) (t : tref) :
  t ≠ SubT i → pos (own_del own i) c t = pos own c t.
Proof. intros Hne. destruct t as [|j]; [done|]. cbn. unfold own_del. case_decide; congruence. Qed.

Lemma wf_unlink (own : Z → option (Z * Z)) (c : xlat_ctx) (t : tref) (l p k i : Z) :
  wf e (Some i) own c → pos own c t = Some (l, p) → l < 3 → 0 <= k < 512 →
  own i = Some (l + 1, 512 * p + k) → entry c t k = Some (table_desc e (SubT i)) →
  (∀ k', 0 <= k' < 512 → entry c (SubT i) k' = Some 0) → cnt c i = 0 →
  wf e None (own_del own i) (put_entry c t k 0).
Proof.
  intros Hw Ht Hl Hk Hi Hd Hz Hc. pose proof (put_entry_conf c t k 0) as Hs.
  destruct (same_conf_fields _ _ Hs) as (Fl & Fe & _ & _ & _ & _ & _ & _ & _ & _ & Fn).
  pose proof (put_entry_lens c t k 0) as [Lb Lt].
  pose proof (wf_own _ _ _ _ Hw _ _ _ Hi) as (Hir & _ & _).
  assert (t ≠ SubT i) as Hti by (intros ->; cbn in Ht; rewrite Hi in Ht; simplify_eq; lia).
  pose proof (table_desc_type e _ i (wf_env _ _ _ _ Hw)) as Hty.
  split.
  - rewrite Fn. apply (wf_env _ _ _ _ Hw).
  - rewrite Fl. apply (wf_lvl _ _ _ _ Hw).
  - rewrite Lb, Fe. apply (wf_base _ _ _ _ Hw).
  - apply Lt, (wf_tabs _ _ _ _ Hw).
  - rewrite put_entry_cnt, Fn. apply (wf_cnts _ _ _ _ Hw).
  - rewrite Fn, Fl. intros j lj pj [_ Hj]%own_del_Some. by apply (wf_own _ _ _ _ Hw).
  - rewrite Fn. intros j k' Hj. unfold own_del. case_decide as Hd'.
    + intros _ Hk'. subst j. rewrite entry_put_ne by (by left). by apply Hz.
    + intros Ho Hk'. rewrite entry_put_ne; [by apply (wf_free _ _ _ _ Hw)|].
      left. intros ->. cbn in Ht. congruence.
  - intros t' l' p' k' d' Ht' Hd'. rewrite (pos_conf _ c _ _ Hs) in Ht'.
    assert (t' ≠ SubT i) as Hti'.
    { intros ->. cbn in Ht'. unfold own_del in Ht'. by rewrite decide_True in Ht'. }
    rewrite pos_del in Ht' by done.
    destruct (decide (t = t' ∧ k = k')) as [[<- <-]|Hne].
    { rewrite (entry_put_eq _ _ _ _ _ Hd) in Hd'. simplify_eq. by left. }
    rewrite entry_put_ne in Hd' by (destruct (decide (t = t')); [right|left]; naive_solver).
    pose proof (entry_idx _ _ _ _ _ _ Hw Hd') as Hk'.
    destruct (wf_ent _ _ _ _ Hw t' _ _ _ _ Ht' Hd') as [?|[?|[?|(? & j & -> & Hj)]]];
      [by left|by right; left|by right; right; left|].
    right; right; right. split; [done|]. exists j. split; [done|]. unfold own_del.
    rewrite decide_False; [done|]. intros ->. rewrite Hi in Hj. simplify_eq. apply Hne.
    assert (l' = l) as -> by lia. assert (p' = p ∧ k' = k) as [-> ->] by lia.
    split; [by eapply (pos_inj e)|done].
  - intros j lj pj [Hji Hj]%own_del_Some. destruct (wf_par _ _ _ _ Hw _ _ _ Hj) as (u & Hu & Eu).
    assert (u ≠ SubT i) as Hui.
    { intros ->. rewrite Hz in Eu by (apply Z.mod_pos_bound; lia). injection Eu as Eu.
      pose proof (table_desc_type e _ j (wf_env _ _ _ _ Hw)) as Hty'. cbn in Hty'.
      rewrite <- Eu in Hty'. done. }
    exists u. rewrite (pos_conf _ c _ _ Hs), pos_del by done. split; [done|].
    rewrite entry_put_ne; [done|]. destruct (decide (t = u)) as [<-|]; [|by left]. right.
    intros E. rewrite <- E, Hd in Eu. apply Hji. injection Eu as Eu.
    symmetry. eapply table_desc_inj; [apply (wf_env _ _ _ _ Hw)|]. cbn. exact Eu.
  - rewrite Fn. intros j Hj. unfold cnt. rewrite put_entry_cnt. fold (cnt c j).
    destruct (wf_cnt _ _ _ _ Hw j Hj) as (H1 & H2 & H3). unfold own_del.
    case_decide as Hd'; [subst j; split_and!; [done|done|done]|].
    split_and!; [done|done|]. intros Hne _. apply H3; congruence.
Qed.

(** ** Invalidating the TLBs *)

Definition with_tlbi (c : xlat_ctx) (va : Z) : xlat_ctx :=
  set_tables c (base_table c) (tables c) (tables_mapped_regions c) (va :: tlbi c).

Definition el_ok (c : xlat_ctx) : Prop := regime_ok c ∧ xlat_regime c <= current_el e.

Lemma tlbi_run (c : xlat_ctx) (va g : Z) :
  el_ok c → g = xlat_regime c → xlat_arch_tlbi_va e va g c = Ok (tt, with_tlbi c va).
Proof.
  intros [Hr He] ->. unfold xlat_arch_tlbi_va.
  destruct Hr as [E | [E | E]]; rewrite E in *; unfold EL1_EL0_REGIME, EL2_REGIME, EL3_REGIME in *;
    cbn [Z.eqb Pos.eqb]; rewrite (proj2 (Z.leb_le _ (current_el e))) by done; reflexivity.
Qed.

Lemma wf_tlbi (fr : option Z) (own : Z → option (Z * Z)) (c : xlat_ctx) (va : Z) :
  wf e fr own c → wf e fr own (with_tlbi c va).
Proof. intros []. by split. Qed.

Lemma W_tlbi (c : xlat_ctx) (v : Z) (t : tref) (l va : Z) :
  W e (with_tlbi c v) t l va = W e c t l va.
Proof. by apply W_ext. Qed.

Lemma el_conf (c c' : xlat_ctx) : same_conf c c' → el_ok c → el_ok c'.
Proof.
  intros Hs [Hr He]. split; [by eapply conf_regime|].
  by destruct (same_conf_fields _ _ Hs) as (_ & _ & -> & _).
Qed.

(** ** Unmapping, step by step

    [os] are the other regions of the context. *)

Section Steps.
Context (c0 : xlat_ctx) (r : mmap_region_t) (os : list mmap_region_t).

(** The number of other regions that meet a table *)
Definition others (l p : Z) : Z := zsum (λ o, if meets_table l p o then 1 else 0) os.

(** What unmapping the region does, in table [t] of level [l] and the tables
    below, between the addresses [lo] and [hi]; counts go down from level [m]
    on. *)
Record ustep (fr : option Z) (m : Z) (own : Z → option (Z * Z)) (t : tref) (l lo hi : Z)
    (c : xlat_ctx) (own' : Z → option (Z * Z)) (c' : xlat_ctx) : Prop := {
  us_wf : wf e fr own' c';
  us_conf : same_conf c c';
  us_sub : ∀ i x, own' i = Some x → own i = Some x;
  us_frame : ∀ t' l' p' k va, pos own c t' = Some (l', p') → 0 <= k < 512 →
    va / sz l' = 512 * p' + k → l' < l ∨ va < lo ∨ hi <= va → entry c' t' k = entry c t' k;
  us_cover : ∀ va, lo <= va < hi →
    W e c' t l va = if decide (in_r r va) then None else W e c t l va;
  us_gone : ∀ i l' p', own i = Some (l', p') → own' i = None →
    l < l' ∧ ∀ va, va / sz (l' - 1) = p' → lo <= va < hi;
  us_cnt : ∀ i l' p', own' i = Some (l', p') →
    (m <= l' → touches r lo hi l' p' → cnt c' i = cnt c i - 1)
    ∧ (l' < m ∨ ¬ touches r lo hi l' p' → cnt c' i = cnt c i);
  us_old : ∀ v, v ∈ tlbi c → v ∈ tlbi c';
  us_tlbi : ∀ va d l', lo <= va < hi → in_r r va → W e c t l va = Some (d, l') →
    va / sz l' * sz l' ∈ tlbi c';
}.

#[local] Arguments us_wf {fr m own t l lo hi c own' c'} _.
#[local] Arguments us_conf {fr m own t l lo hi c own' c'} _.
#[local] Arguments us_sub {fr m own t l lo hi c own' c'} _.
#[local] Arguments us_frame {fr m own t l lo hi c own' c'} _.
#[local] Arguments us_cover {fr m own t l lo hi c own' c'} _.
#[local] Arguments us_gone {fr m own t l lo hi c own' c'} _.
#[local] Arguments us_cnt {fr m own t l lo hi c own' c'} _.
#[local] Arguments us_old {fr m own t l lo hi c own' c'} _.
#[local] Arguments us_tlbi {fr m own t l lo hi c own' c'} _.

Lemma ustep_walk (fr fr' : option Z) (m : Z) (own own' : Z → option (Z * Z)) (t : tref)
    (l p lo hi : Z) (c c' : xlat_ctx) (va : Z) :
  wf e fr own c → pos own c t = Some (l, p) → va / sz (l - 1) = p →
  ustep fr' m own t l lo hi c own' c' → va < lo ∨ hi <= va → W e c' t l va = W e c t l va.
Proof using.
  intros Hw Ht Hva Hst Hout. eapply (W_frame e fr own c c' t l p); [done|by eapply us_conf|done..|].
  intros t' l' p' k Ht' _ Hk Hd. by eapply (us_frame Hst); eauto.
Qed.

(** A table that holds part of a step is still there after it. *)
Lemma ustep_pos (fr : option Z) (m : Z) (own own' : Z → option (Z * Z)) (t : tref)
    (l p lo hi : Z) (c c' : xlat_ctx) :
  ustep fr m own t l lo hi c own' c' → pos own c t = Some (l, p) → pos own' c' t = Some (l, p).
Proof using.
  intros S Ht. rewrite (pos_conf _ c c') by apply S. destruct t as [|i]; [done|]. cbn in *.
  destruct (own' i) as [x|] eqn:E; [apply (us_sub S) in E; congruence|].
  destruct (us_gone S i l p Ht E). lia.
Qed.

Lemma ustep_refl (m : Z) (own : Z → option (Z * Z)) (t : tref) (l lo hi : Z) (c : xlat_ctx) :
  wf e None own c → (∀ va, lo <= va < hi → ¬ in_r r va) → ustep None m own t l lo hi c own c.
Proof using.
  intros Hw Hn. split; [done|done|done|done| |congruence| |done|].
  - intros va Hva. rewrite decide_False by (by apply Hn). done.
  - intros i l' p' _. split; [|done]. intros _ (va & Hva & Hin & _). by destruct (Hn va Hva).
  - intros va d l' Hva Hin. by destruct (Hn va Hva).
Qed.

Lemma ustep_trans (own own1 own2 : Z → option (Z * Z)) (t : tref) (l p lo q hi : Z)
    (c c1 c2 : xlat_ctx) :
  wf e None own c → pos own c t = Some (l, p) → 512 * p * sz l <= lo → hi <= 512 * (p + 1) * sz l →
  lo <= q * sz l <= hi →
  ustep None (l + 1) own t l lo (q * sz l) c own1 c1 →
  ustep None (l + 1) own1 t l (q * sz l) hi c1 own2 c2 →
  ustep None (l + 1) own t l lo hi c own2 c2.
Proof using.
  intros Hw Ht Hlo Hhi Hq S1 S2. pose proof (pos_level _ _ _ _ _ _ _ Hw Ht) as [Hl _].
  pose proof (ustep_pos _ _ _ _ _ _ _ _ _ _ _ S1 Ht) as Ht1.
  assert (∀ va, lo <= va < hi → va / sz (l - 1) = p) as Hp.
  { intros va Hva. apply table_range; lia. }
  split.
  - apply S2.
  - eapply same_conf_trans; [apply S1|apply S2].
  - intros i x Hi. by apply S1, S2.
  - intros t' l' p' k va Ht' Hk Hd Hout.
    rewrite <- (us_frame S1 t' l' p' k va) by (done || lia).
    apply (us_frame S2 t' l' p' k va); [|done|done|lia].
    rewrite (pos_conf _ c c1) by apply S1. destruct t' as [|i]; [done|]. cbn in *.
    destruct (own1 i) as [x|] eqn:E; [apply (us_sub S1) in E; congruence|]. exfalso.
    destruct (us_gone S1 i l' p' Ht' E) as [Hll Hr].
    pose proof (wf_own _ _ _ _ Hw _ _ _ Ht') as (_ & Hl' & _).
    destruct (idx_up va l' p' k) as [Hva _]; [lia|done|done|]. specialize (Hr va Hva). lia.
  - intros va Hva. destruct (Z.lt_ge_cases va (q * sz l)) as [Hlt|Hge].
    + rewrite (ustep_walk None None (l + 1) own1 own2 t l p (q * sz l) hi c1 c2 va);
        [|apply S1|done|by apply Hp|done|lia]. apply S1. lia.
    + rewrite <- (ustep_walk None None (l + 1) own own1 t l p lo (q * sz l) c c1 va);
        [|done|done|by apply Hp|done|lia]. apply S2. lia.
  - intros i l' p' H0 H2. destruct (own1 i) as [[l1 p1]|] eqn:E1.
    + pose proof (us_sub S1 _ _ E1) as E0. rewrite H0 in E0. simplify_eq.
      destruct (us_gone S2 i l1 p1 E1 H2) as [H Hr]. split; [done|].
      intros va Hva. specialize (Hr va Hva). lia.
    + destruct (us_gone S1 i l' p' H0 E1) as [H Hr]. split; [done|].
      intros va Hva. specialize (Hr va Hva). lia.
  - intros i l' p' H2. rewrite (touches_split r lo (q * sz l) hi) by done.
    pose proof (wf_own _ _ _ _ (us_wf S2) _ _ _ H2) as (Hi & Hl' & _).
    destruct (us_cnt S2 _ _ _ H2) as [C2 C2'].
    destruct (us_cnt S1 _ _ _ (us_sub S2 _ _ H2)) as [C1 C1'].
    split.
    + intros Hm [T|T].
      * rewrite C2' by (right; apply (touches_side r l q lo); [lia|done]). by apply C1.
      * rewrite C2 by done. rewrite C1'; [done|]. right. intros T'.
        by apply (touches_side r l q lo hi l' p' ltac:(lia) T').
    + intros Hor. rewrite C2' by naive_solver. apply C1'. naive_solver.
  - intros v Hv. by apply S2, S1.
  - intros va d l' Hva Hin HW. destruct (Z.lt_ge_cases va (q * sz l)) as [Hlt|Hge].
    + apply (us_old S2). eapply (us_tlbi S1); [lia|done|exact HW].
    + rewrite <- (ustep_walk None None (l + 1) own own1 t l p lo (q * sz l) c c1 va) in HW;
        [|done|done|by apply Hp|done|lia]. eapply (us_tlbi S2); [lia|done|exact HW].
Qed.

Section at_entry.
Context (own : Z → option (Z * Z)) (c : xlat_ctx) (t : tref) (l p k : Z).
Context (Hw : wf e None own c) (Ht : pos own c t = Some (l, p)) (Hk : 0 <= k < 512).
#[local] Abbreviation lo := ((512 * p + k) * sz l).
#[local] Abbreviation hi := ((512 * p + k + 1) * sz l).

Let Hl : base_level c <= l <= 3.
Proof. apply (pos_level _ _ _ _ _ _ _ Hw Ht). Qed.

(** A block or page of the region is cleared. *)
Lemma ustep_write (d : Z) :
  entry c t k = Some d → leaf_ok l d → d ≠ 0 → (∀ va, lo <= va < hi → in_r r va) →
  ustep None (l + 1) own t l lo hi c own (with_tlbi (put_entry c t k 0) lo).
Proof using Hw Ht Hk Hl.
  intros Hd Hok Hnz Hin. pose proof (put_entry_conf c t k 0) as Hs.
  assert (wf e None own (put_entry c t k 0)) as Hw'.
  { eapply wf_put_leaf; [done|exact Ht|exact Hd|done|by left]. }
  assert (∀ va, lo <= va < hi → va / sz l = 512 * p + k) as Hent.
  { intros va Hva. apply entry_range; lia. }
  split; [by apply wf_tlbi|done|done| | |congruence| | |].
  - intros t' l' p' k' va Ht' Hk' Hva Hout.
    change (entry (put_entry c t k 0) t' k' = entry c t' k'). apply entry_put_ne.
    destruct (decide (t = t')) as [<-|]; [|by left]. right. intros <-. simplify_eq.
    apply entry_range in Hva; [|lia]. lia.
  - intros va Hva. rewrite decide_True by (by apply Hin). rewrite W_tlbi.
    eapply (W_zero e); [exact Hw'|by rewrite (pos_conf _ c)|by apply Hent|done|by eapply entry_put_eq].
  - intros i l' p' Hi. unfold cnt. cbn [with_tlbi tables_mapped_regions set_tables].
    rewrite put_entry_cnt. split; [|done]. intros Hm (va & Hva & _ & E). exfalso.
    by eapply (no_table_below e None own c t l p k d i l' p' va); [..|lia|exact E|apply Hent].
  - intros v Hv. cbn. right. by destruct t as [|j]; [|cbn; destruct (zget (tables c) j)].
  - intros va d' l' Hva _ HW. cbn.
    rewrite (W_leaf e _ _ _ _ _ _ _ _ _ Hw Ht (Hent va Hva) Hk Hd) in HW
      by (destruct Hok as [?|[?|?]]; [done|by right|by left]).
    simplify_eq. rewrite (Hent va Hva). by left.
Qed.

Section sub.
Context (i : Z) (own' : Z → option (Z * Z)) (c' : xlat_ctx).
Context (Hl3 : l < 3) (Hd : entry c t k = Some (table_desc e (SubT i))).
Context (Hi : own i = Some (l + 1, 512 * p + k)).
Context (S : ustep (Some i) (l + 1) own (SubT i) (l + 1) lo hi c own' c').

Lemma sub_walk (va : Z) : lo <= va < hi → W e c t l va = W e c (SubT i) (l + 1) va.
Proof using Hw Ht Hk Hl Hl3 Hd Hi.
  intros Hva. eapply W_table; [done|exact Ht| |done|done| |done].
  - apply entry_range; lia.
  - by apply (wf_own _ _ _ _ Hw _ _ _ Hi).
Qed.

Lemma sub_link : entry c' t k = Some (table_desc e (SubT i)) ∧ own' i = Some (l + 1, 512 * p + k)
  ∧ pos own' c' t = Some (l, p).
Proof using Hw Ht Hk Hl Hl3 Hd Hi S.
  pose proof (sz_pos l ltac:(lia)). split_and!.
  - rewrite (us_frame S t l p k lo); [done|done|done| |lia]. apply entry_range; lia.
  - by eapply (ustep_pos _ _ _ _ (SubT i)) in S.
  - rewrite (pos_conf _ c c') by apply S. destruct t as [|j]; [done|]. cbn in *.
    destruct (own' j) as [x|] eqn:E; [apply (us_sub S) in E; congruence|].
    destruct (us_gone S j l p Ht E). lia.
Qed.

(** The region is unmapped in the table the entry links to, which stays. *)
Lemma ustep_sub : 0 < cnt c' i → ustep None (l + 1) own t l lo hi c own' c'.
Proof using Hw Ht Hk Hl Hl3 Hd Hi S.
  intros Hpos. destruct sub_link as (Hd' & Hi' & Ht').
  assert (wf e None own' c') as Hw'.
  { destruct (us_wf S). split; try done. intros j Hj. destruct (wf_cnt j Hj) as (H1 & H2 & H3).
    split_and!; [done|done|]. intros Hne _. destruct (decide (i = j)) as [->|]; [done|].
    apply H3; congruence. }
  pose proof (wf_own _ _ _ _ Hw _ _ _ Hi) as (Hir & _).
  split; [done|apply S|apply S| | | |apply S|apply S|].
  - intros t' l' p' k' va H H1 H2 H3. apply (us_frame S t' l' p' k' va); [done..|lia].
  - intros va Hva. rewrite sub_walk by done. rewrite <- (us_cover S va Hva).
    eapply W_table; [exact Hw'|exact Ht'| |done|done| |done].
    + apply entry_range; lia.
    + by rewrite (proj2 (us_conf S)).
  - intros j l' p' H H'. destruct (us_gone S _ _ _ H H') as [? Hr]. split; [lia|done].
  - intros va d l' Hva Hin HW. rewrite sub_walk in HW by done. by eapply (us_tlbi S).
Qed.

(** The table is empty and given back. *)
Lemma ustep_unlink :
  cnt c' i = 0 → (∀ k', 0 <= k' < 512 → entry c' (SubT i) k' = Some 0) →
  ustep None (l + 1) own t l lo hi c (own_del own' i) (with_tlbi (put_entry c' t k 0) lo).
Proof using Hw Ht Hk Hl Hl3 Hd Hi S.
  intros Hz Hempty. destruct sub_link as (Hd' & Hi' & Ht').
  pose proof (wf_unlink own' c' t l p k i (us_wf S) Ht' Hl3 Hk Hi' Hd' Hempty Hz) as Hw'.
  pose proof (put_entry_conf c' t k 0) as Hs'.
  assert (t ≠ SubT i) as Hti by (intros ->; cbn in Ht; rewrite Hi in Ht; simplify_eq; lia).
  assert (∀ va, lo <= va < hi → W e c' (SubT i) (l + 1) va = None) as HN.
  { intros va Hva. destruct (idx_of va (l + 1) (512 * p + k)) as [E1 E2].
    - lia.
    - replace (l + 1 - 1) with l by lia. apply entry_range; lia.
    - eapply (W_zero e _ _ c' (SubT i)); [apply S|exact Hi'|exact E1|done|by apply Hempty]. }
  split; [by apply wf_tlbi|by eapply same_conf_trans; [apply S|]| | | | | | |].
  - intros j x [_ Hj]%own_del_Some. by apply S.
  - intros t' l' p' k' va H H1 H2 H3.
    rewrite <- (us_frame S t' l' p' k' va) by (done || lia).
    change (entry (put_entry c' t k 0) t' k' = entry c' t' k'). apply entry_put_ne.
    destruct (decide (t = t')) as [<-|]; [|by left]. right. intros <-. simplify_eq.
    apply entry_range in H2; [|lia]. lia.
  - intros va Hva. rewrite W_tlbi.
    rewrite (W_zero e None (own_del own' i) (put_entry c' t k 0) t l p k va).
    + pose proof (us_cover S va Hva) as HW. rewrite HN in HW by done. rewrite sub_walk by done.
      by case_decide.
    + done.
    + rewrite (pos_conf _ c' _ _ Hs'), pos_del; done.
    + apply entry_range; lia.
    + done.
    + by eapply entry_put_eq.
  - intros j l' p' Hj Hj'. destruct (decide (j = i)) as [->|Hne].
    + rewrite Hi in Hj. simplify_eq. split; [lia|]. intros va. replace (l + 1 - 1) with l by lia.
      intros Hva. by apply (proj1 (entry_range va l p k ltac:(lia))).
    + unfold own_del in Hj'. rewrite decide_False in Hj' by done.
      destruct (us_gone S _ _ _ Hj Hj') as [? Hr]. split; [lia|done].
  - intros j l' p' [_ Hj]%own_del_Some. pose proof (us_cnt S j l' p' Hj) as Hc.
    unfold cnt in *. cbn [with_tlbi tables_mapped_regions set_tables]. by rewrite put_entry_cnt.
  - intros v Hv%(us_old S). cbn. right.
    by destruct t as [|j]; [|cbn; destruct (zget (tables c') j)].
  - intros va d l' Hva Hin HW. rewrite sub_walk in HW by done. cbn. right.
    pose proof (us_tlbi S va d l' Hva Hin HW).
    by destruct t as [|j]; [|cbn; destruct (zget (tables c') j)].
Qed.
End sub.
End at_entry.

(** ** What holds before *)

Context (Hro : region_ok c0 r).
Context (Hspace : base_table_entries c0 * sz (base_level c0) <= 2 ^ 48).
Context (Hos : ∀ o, o ∈ os → 0 <= base_va o < rend o ∧ rend o <= space c0).

(** The region is mapped in the range, other addresses only by other regions,
    and the tables from level [m] on count the regions that meet them. *)
Record before (m : Z) (own : Z → option (Z * Z)) (t : tref) (l lo hi : Z) (c : xlat_ctx) : Prop := {
  bf_map : ∀ va, lo <= va < hi → in_r r va → ∃ x, W e c t l va = Some x ∧ leaf_for e c0 r va x;
  bf_oth : ∀ va x, lo <= va < hi → ¬ in_r r va → W e c t l va = Some x → ∃ o, o ∈ os ∧ in_r o va;
  bf_cnt : ∀ i l' p' va, own i = Some (l', p') → m <= l' → lo <= va < hi → va / sz (l' - 1) = p' →
    cnt c i = others l' p' + if meets_table l' p' r then 1 else 0;
}.

#[local] Arguments bf_map {m own t l lo hi c} _.
#[local] Arguments bf_oth {m own t l lo hi c} _.
#[local] Arguments bf_cnt {m own t l lo hi c} _.

Lemma before_sub (m : Z) (own : Z → option (Z * Z)) (t : tref) (l lo hi lo' hi' : Z) (c : xlat_ctx) :
  lo <= lo' → hi' <= hi → before m own t l lo hi c → before m own t l lo' hi' c.
Proof using.
  intros H1 H2 [Hm Ho Hc]. split.
  - intros va Hva. apply Hm. lia.
  - intros va x Hva. apply Ho. lia.
  - intros i l' p' va Hi Hm' Hva. apply (Hc i l' p' va Hi Hm'). lia.
Qed.

Lemma others_in (l p : Z) (o : mmap_region_t) :
  o ∈ os → meets_table l p o = true → 0 < others l p.
Proof using.
  intros Ho Hm. apply list_elem_of_lookup in Ho as [n Hn]. unfold others.
  pose proof (zsum_ge (λ o, if meets_table l p o then 1 else 0) os n o) as H. cbn in H.
  rewrite Hm in H. enough (1 <= zsum (λ o, if meets_table l p o then 1 else 0) os) by lia.
  apply H; [|done]. intros y _. by destruct (meets_table l p y).
Qed.

Lemma others_pos (l p : Z) : others l p ≠ 0 → ∃ o, o ∈ os ∧ meets_table l p o = true.
Proof using.
  unfold others. clear Hos. induction os as [|o l' IH]; [done|]. unfold zsum in *. cbn [foldr].
  destruct (meets_table l p o) eqn:E.
  - intros _. exists o. split; [left|done].
  - intros H. destruct IH as (o' & Ho' & Hm); [lia|]. exists o'. split; [by right|done].
Qed.

(** A region that contains an address of a table meets it. *)
Lemma in_meets (l p va : Z) (o : mmap_region_t) :
  l <= 3 → in_r o va → va / sz (l - 1) = p → meets_table l p o = true.
Proof using.
  intros Hl [H1 H2] E. pose proof (sz_pos (l - 1) ltac:(lia)). apply div_range in E; [|lia].
  unfold meets_table. apply andb_true_iff. rewrite !Z.ltb_lt. lia.
Qed.

(** A region that meets a table meets the tables above it. *)
Lemma meets_up (l p k : Z) (o : mmap_region_t) :
  l <= 2 → 0 <= k < 512 → meets_table (l + 1) (512 * p + k) o = true → meets_table l p o = true.
Proof using.
  intros Hl Hk. unfold meets_table. rewrite !andb_true_iff, !Z.ltb_lt.
  replace (l + 1 - 1) with l by lia. rewrite (sz_up l) by lia. pose proof (sz_pos l ltac:(lia)).
  intros [H1 H2]. nia.
Qed.

(** After the region is unmapped in a table no other region meets, the table
    is empty. *)
Lemma sub_empty (own own' : Z → option (Z * Z)) (i l p : Z) (c c' : xlat_ctx) :
  base_level c < l <= 3 → wf e None own c → own i = Some (l, p) →
  before l own (SubT i) l (p * sz (l - 1)) ((p + 1) * sz (l - 1)) c →
  ustep (Some i) l own (SubT i) l (p * sz (l - 1)) ((p + 1) * sz (l - 1)) c own' c' →
  others l p = 0 → ∀ k, 0 <= k < 512 → entry c' (SubT i) k = Some 0.
Proof using Hro Hspace Hos.
  intros Hl Hw Hi B S Hno k Hk. pose proof (sz_pos (l - 1) ltac:(lia)) as Hsz.
  pose proof (sz_pos l ltac:(lia)) as Hsz'.
  assert (∀ o va, o ∈ os → va / sz (l - 1) = p → ¬ in_r o va) as Hnone.
  { intros o va Ho Hp Hin. pose proof (others_in l p o Ho (in_meets l p va o ltac:(lia) Hin Hp)). lia. }
  pose proof (ustep_pos _ _ _ _ _ _ _ _ _ _ _ S Hi) as Hi'. pose proof (us_wf S) as Hw'.
  assert (entries_of c' l = 512) as E5.
  { unfold entries_of. rewrite (same_conf_level _ _ (us_conf S)).
    by rewrite (proj2 (Z.eqb_neq _ _)) by lia. }
  destruct (entry_some e _ _ _ _ _ _ k Hw' Hi' ltac:(lia)) as (d & Hd & Hok).
  rewrite Hd. f_equal. set (va := (512 * p + k) * sz l).
  assert (va / sz l = 512 * p + k) as Hva by (apply Z.div_mul; lia).
  destruct (idx_up va l p k) as [Hp _]; [lia|done|done|].
  assert (p * sz (l - 1) <= va < (p + 1) * sz (l - 1)) as Hr.
  { apply div_range in Hp; [|lia]. lia. }
  assert (W e c' (SubT i) l va = None) as HN.
  { rewrite (us_cover S va Hr). case_decide as Hin; [done|].
    destruct (W e c (SubT i) l va) as [x|] eqn:E; [|done].
    destruct (bf_oth B va x Hr Hin E) as (o & Ho & Hino). by destruct (Hnone o va Ho Hp). }
  destruct Hok as [?|[Hx|[Hx|(Hl3 & j & -> & Hj)]]]; [done| | |].
  - rewrite (W_leaf e _ _ _ _ _ _ _ _ _ Hw' Hi' Hva Hk Hd) in HN by (by right). done.
  - rewrite (W_leaf e _ _ _ _ _ _ _ _ _ Hw' Hi' Hva Hk Hd) in HN by (by left). done.
  - exfalso. pose proof (wf_own _ _ _ _ Hw' _ _ _ Hj) as (Hjr & _).
    assert (j ≠ i) as Hji by (intros ->; cbn in Hi'; rewrite Hi' in Hj; simplify_eq; lia).
    destruct (wf_cnt _ _ _ _ Hw' j Hjr) as (_ & _ & Hpos).
    specialize (Hpos ltac:(congruence) ltac:(congruence)).
    pose proof (us_sub S _ _ Hj) as Hj0.
    assert (va / sz (l + 1 - 1) = 512 * p + k) as Hva' by (by replace (l + 1 - 1) with l by lia).
    pose proof (bf_cnt B j (l + 1) (512 * p + k) va Hj0 ltac:(lia) Hr Hva') as Hc.
    destruct (us_cnt S j _ _ Hj) as [C1 C2].
    assert (touches r (p * sz (l - 1)) ((p + 1) * sz (l - 1)) (l + 1) (512 * p + k)
            ↔ meets_table (l + 1) (512 * p + k) r = true) as Ht.
    { pose proof (rend_le c0 r Hro Hspace) as [Hr1 _].
      rewrite <- (touches_meets c0 r (l + 1) (512 * p + k) ltac:(lia)).
      - unfold touches. split; intros (v & Hv & Hin & E); exists v; (split; [|done]).
        + pose proof (ro_va0 _ _ Hro). pose proof (ro_end _ _ Hro). unfold in_r, space in *. lia.
        + destruct (idx_up v l p k) as [Ev _]; [lia|done|by replace (l + 1 - 1) with l in E by lia|].
          apply div_range in Ev; lia.
      - pose proof (ro_va0 _ _ Hro). lia.
      - apply (ro_end _ _ Hro). }
    assert (others (l + 1) (512 * p + k) = 0) as Ho0.
    { destruct (decide (others (l + 1) (512 * p + k) = 0)) as [|Hne]; [done|].
      destruct (others_pos _ _ Hne) as (o & Ho & Hm). apply meets_up in Hm; [|lia|done].
      pose proof (others_in l p o Ho Hm). lia. }
    destruct (meets_table (l + 1) (512 * p + k) r) eqn:Em.
    + rewrite C1 in Hpos by (lia || by apply Ht). lia.
    + rewrite C2 in Hpos; [lia|]. right. rewrite Ht. done.
Qed.

(** ** The action at an entry *)

Lemma unmap_action_run (own : Z → option (Z * Z)) (c : xlat_ctx) (t : tref) (l p k : Z) :
  wf e None own c → pos own c t = Some (l, p) → 0 <= k < 512 → 0 <= k < entries_of c l →
  meets r l p k → (512 * p + k + 1) * sz l <= 2 ^ 48 →
  before (l + 1) own t l ((512 * p + k) * sz l) ((512 * p + k + 1) * sz l) c →
  ∃ d a, entry c t k = Some d
    ∧ xlat_tables_unmap_region_action r ((512 * p + k) * sz l)
        (u64 (u64 ((512 * p + k) * sz l + XLAT_BLOCK_SIZE l) - 1)) l (Z.land d DESC_MASK) c = Ok (a, c)
    ∧ match a with
      | ACTION_WRITE_BLOCK_ENTRY => leaf_ok l d ∧ d ≠ 0
          ∧ base_va r <= (512 * p + k) * sz l ∧ (512 * p + k + 1) * sz l <= rend r
      | ACTION_RECURSE_INTO_TABLE =>
          l < 3 ∧ ∃ i, d = table_desc e (SubT i) ∧ own i = Some (l + 1, 512 * p + k)
      | _ => False
      end.
Proof using Hro Hspace.
  intros Hw Ht Hk HkE [Hm1 Hm2] Hhi B. pose proof (pos_level _ _ _ _ _ _ _ Hw Ht) as [Hl Hp].
  pose proof (sz_pos l ltac:(lia)) as Hsz. pose proof (rend_le c0 r Hro Hspace) as [Hr1 Hr2].
  destruct (entry_some e None own c t l p k Hw Ht HkE) as (d & Hd & Hok).
  exists d. set (lo := (512 * p + k) * sz l) in *. set (hi := (512 * p + k + 1) * sz l) in *.
  assert (hi = lo + sz l ∧ 0 <= lo) as [Ehi Hlo0] by (unfold hi, lo; nia).
  set (va := Z.max lo (base_va r)).
  assert (va / sz l = 512 * p + k) as Hva by (apply entry_range; unfold va, lo, hi in *; lia).
  destruct (bf_map B va) as (x & HW & Hleaf); [unfold va; lia|split; unfold va; lia|].
  assert (leaf_ok l d → d ≠ 0 → base_va r <= lo ∧ hi <= rend r) as Hfull.
  { intros Hlf Hnz. rewrite (W_leaf e _ _ _ _ _ _ _ _ _ Hw Ht Hva Hk Hd) in HW
      by (destruct Hlf as [?|[?|?]]; [done|by right|by left]).
    injection HW as <-. destruct Hleaf as (_ & _ & H1 & H2 & _). cbn in H1, H2. rewrite Hva in H1, H2.
    unfold lo, hi in *. lia. }
  unfold xlat_tables_unmap_region_action. rewrite (region_end_eq c0 r Hro Hspace).
  change (XLAT_BLOCK_SIZE l) with (sz l).
  rewrite (u64_va (lo + sz l)), (u64_va (lo + sz l - 1)) by lia. rewrite <- Ehi.
  destruct Hok as [->|[[Hl3 Hx]|[[Hl3 Hx]|(Hl3 & i & -> & Hi)]]].
  - rewrite (W_zero e _ _ _ _ _ _ _ _ Hw Ht Hva Hk Hd) in HW. done.
  - assert (d ≠ 0) as Hnz by (intros ->; done).
    destruct (Hfull ltac:(by right; left) Hnz) as [F1 F2].
    exists ACTION_WRITE_BLOCK_ENTRY. split; [done|]. rewrite Hx.
    rewrite !(proj2 (Z.leb_le _ _)) by lia. rewrite (proj2 (Z.eqb_neq l 3)) by lia.
    split; [done|]. by split; [right; left|].
  - assert (d ≠ 0) as Hnz by (intros ->; done).
    destruct (Hfull ltac:(by right; right) Hnz) as [F1 F2].
    exists ACTION_WRITE_BLOCK_ENTRY. split; [done|]. rewrite Hx.
    rewrite !(proj2 (Z.leb_le _ _)) by lia. rewrite (proj2 (Z.eqb_eq l 3)) by done.
    split; [done|]. by split; [right; right|].
  - exists ACTION_RECURSE_INTO_TABLE. split; [done|].
    rewrite (table_desc_type e (tables_num c)) by apply (wf_env _ _ _ _ Hw).
    split; [|by split; [|exists i]].
    destruct ((base_va r <=? lo) && (hi - 1 <=? rend r - 1)).
    + by rewrite (proj2 (Z.eqb_neq l 3)) by lia.
    + assert ((base_va r <=? hi - 1) || (lo <=? rend r - 1) = true) as -> by lia.
      by rewrite (proj2 (Z.ltb_lt l 3)) by done.
Qed.

(** The call in a table of the next level, as the loop relies on it *)
Definition urec_ok (l : Z) (recurse : Z → tref → M xlat_ctx unit) : Prop :=
  ∀ own c i q, same_conf c0 c → wf e None own c → own i = Some (l + 1, q) →
    q * sz l < rend r → base_va r < (q + 1) * sz l →
    before (l + 1) own (SubT i) (l + 1) (q * sz l) ((q + 1) * sz l) c →
    ∃ own' c', recurse (q * sz l) (SubT i) c = Ok (tt, c')
      ∧ ustep (Some i) (l + 1) own (SubT i) (l + 1) (q * sz l) ((q + 1) * sz l) c own' c'.

Section loop.
Context (recurse : Z → tref → M xlat_ctx unit) (t : tref) (l p : Z).
Context (Hrec : urec_ok l recurse) (Hel : el_ok c0).
#[local] Abbreviation hiT := ((512 * p + entries_of c0 l) * sz l).
#[local] Abbreviation at_ k := ((512 * p + k) * sz l).
#[local] Abbreviation next k := ((512 * p + k + 1) * sz l).
Context (HE : entries_of c0 l <= 512) (HT : hiT <= 2 ^ 48).

(** What the body of the loop does after the action at entry [k] *)
Definition ucontinue (n : nat) (k : Z) : M xlat_ctx unit :=
  let table_idx_va := u64 (at_ k + XLAT_BLOCK_SIZE l) in
  if region_end r <=? table_idx_va then mret tt
  else unmap_loop e recurse r t l n (k + 1) table_idx_va.

Lemma is_empty_run (c : xlat_ctx) (i : Z) :
  zlen (tables_mapped_regions c) = tables_num c → 0 <= i < tables_num c →
  xlat_table_is_empty (SubT i) c = Ok (cnt c i =? 0, c).
Proof using.
  intros Hlen Hi. unfold xlat_table_is_empty. erewrite bind_Ok; [|by apply get_index_run].
  erewrite bind_Ok; [|reflexivity]. erewrite bind_Ok; [|apply aget_Ok, cnt_get; lia]. done.
Qed.

Lemma uentry_run (own : Z → option (Z * Z)) (n : nat) (k : Z) (c : xlat_ctx) :
  same_conf c0 c → wf e None own c → pos own c t = Some (l, p) → 0 <= k < entries_of c0 l →
  meets r l p k → before (l + 1) own t l (at_ k) (next k) c →
  ∃ own1 c1, ustep None (l + 1) own t l (at_ k) (next k) c own1 c1
    ∧ unmap_loop e recurse r t l (S n) k (at_ k) c = ucontinue n k c1.
Proof using Hro Hspace Hos Hrec Hel HE HT.
  intros Hs0 Hw Ht Hk Hm B. pose proof (pos_level _ _ _ _ _ _ _ Hw Ht) as [Hl Hp].
  pose proof (sz_pos l ltac:(lia)). assert (0 <= k < 512) as Hk' by lia.
  assert (next k <= hiT) as Hle by nia.
  destruct (unmap_action_run own c t l p k Hw Ht Hk') as (d & a & Hd & Ha & Hspec);
    [by rewrite (entries_conf c0 c)|done|lia|done|].
  pose proof (read_entry_run c t k d Hd) as Hread.
  cbn [unmap_loop]. erewrite bind_Ok; [|reflexivity]. rewrite (bind_Ok _ _ _ _ _ Hread).
  rewrite (bind_Ok _ _ _ _ _ Ha).
  destruct a; try done.
  - destruct Hspec as (Hok & Hnz & F1 & F2).
    exists own, (with_tlbi (put_entry c t k 0) (at_ k)). split.
    + eapply ustep_write; [done|done|done|exact Hd|done|done|]. intros va Hva. split; lia.
    + erewrite bind_Ok; cycle 1.
      { erewrite bind_Ok; [|by eapply put_entry_run].
        apply tlbi_run; [|by destruct (same_conf_fields _ _ (put_entry_conf c t k INVALID_DESC)) as (_ & _ & -> & _)].
        eapply el_conf; [|exact Hel]. eapply same_conf_trans; [exact Hs0|apply put_entry_conf]. }
      done.
  - destruct Hspec as (Hl3 & i & -> & Hi). pose proof (wf_own _ _ _ _ Hw _ _ _ Hi) as (Hir & _).
    assert (before (l + 1) own (SubT i) (l + 1) (at_ k) (next k) c) as Bs.
    { assert (∀ va, at_ k <= va < next k → W e c t l va = W e c (SubT i) (l + 1) va) as HW.
      { intros va Hva. by eapply sub_walk. }
      destruct B as [Bm Bo Bc]. split; [| |done].
      - intros va Hva. rewrite <- HW by done. by apply Bm.
      - intros va x Hva. rewrite <- HW by done. by apply Bo. }
    destruct Hm as [Hm1 Hm2].
    destruct (Hrec own c i (512 * p + k) Hs0 Hw Hi Hm1 Hm2 Bs) as (own1 & c1 & Hrun & S).
    destruct (sub_link own c t l p k Hw Ht Hk' i own1 c1 Hl3 Hd Hi S) as (Hd1 & Hi1 & Ht1).
    assert (0 <= i < tables_num c1) as Hir1 by (by rewrite (proj2 (us_conf S))).
    pose proof (is_empty_run c1 i (wf_cnts _ _ _ _ (us_wf S)) Hir1) as Hemp.
    destruct (Z.eqb_spec (cnt c1 i) 0) as [Hz|Hnz].
    + assert (others (l + 1) (512 * p + k) = 0) as Ho.
      { assert ((512 * p + k) * sz l / sz (l + 1 - 1) = 512 * p + k) as Eq.
        { replace (l + 1 - 1) with l by lia. apply Z.div_mul. lia. }
        pose proof (bf_cnt Bs i (l + 1) (512 * p + k) (at_ k) Hi ltac:(lia) ltac:(lia) Eq) as Hc.
        destruct (us_cnt S i _ _ Hi1) as [C1 _]. rewrite Hc in C1.
        assert (meets_table (l + 1) (512 * p + k) r = true) as Em.
        { unfold meets_table. replace (l + 1 - 1) with l by lia.
          apply andb_true_iff. rewrite !Z.ltb_lt. lia. }
        rewrite Em in C1. rewrite C1 in Hz; [lia|lia|].
        exists (Z.max (at_ k) (base_va r)). split; [lia|].
        pose proof (rend_le c0 r Hro Hspace) as [Hr1 _]. split; [split; lia|].
        replace (l + 1 - 1) with l by lia. apply entry_range; lia. }
      exists (own_del own1 i), (with_tlbi (put_entry c1 t k 0) (at_ k)). split.
      * apply (ustep_unlink own c t l p k Hw Ht Hk' i own1 c1 Hl3 Hd Hi S Hz).
        intros k' Hk2. assert (sz (l + 1 - 1) = sz l) as Es by (f_equal; lia).
        apply (sub_empty own own1 i (l + 1) (512 * p + k) c c1); rewrite ?Es; try done; lia.
      * erewrite bind_Ok; cycle 1.
        { erewrite bind_Ok; [|apply subtable_of_run; [apply (wf_env _ _ _ _ Hw)|done]].
          rewrite (bind_Ok _ _ _ _ _ Hrun), (bind_Ok _ _ _ _ _ Hemp). cbv iota.
          erewrite bind_Ok; [|by eapply put_entry_run].
          pose proof (same_conf_trans _ _ _ (us_conf S) (put_entry_conf c1 t k INVALID_DESC)) as Hs2.
          apply tlbi_run; [|by destruct (same_conf_fields _ _ Hs2) as (_ & _ & -> & _)].
          eapply el_conf; [|exact Hel]. by eapply same_conf_trans. }
        done.
    + exists own1, c1. split.
      * eapply ustep_sub; try done.
        destruct (wf_cnt _ _ _ _ (us_wf S) i Hir1) as (? & _). lia.
      * erewrite bind_Ok; cycle 1.
        { erewrite bind_Ok; [|apply subtable_of_run; [apply (wf_env _ _ _ _ Hw)|done]].
          by rewrite (bind_Ok _ _ _ _ _ Hrun), (bind_Ok _ _ _ _ _ Hemp). }
        done.
Qed.

Lemma before_next (own own1 : Z → option (Z * Z)) (c c1 : xlat_ctx) (k : Z) :
  wf e None own c → pos own c t = Some (l, p) → 0 <= k < entries_of c0 l →
  before (l + 1) own t l (at_ k) hiT c →
  ustep None (l + 1) own t l (at_ k) (next k) c own1 c1 →
  before (l + 1) own1 t l (next k) hiT c1.
Proof using HE HT.
  intros Hw Ht Hk [Bm Bo Bc] S. pose proof (pos_level _ _ _ _ _ _ _ Hw Ht) as [Hl Hp].
  pose proof (sz_pos l ltac:(lia)). assert (at_ k <= next k <= hiT) as Hn by nia.
  assert (hiT <= 512 * (p + 1) * sz l) by nia. assert (512 * p * sz l <= at_ k) by nia.
  assert (∀ va, next k <= va < hiT → W e c1 t l va = W e c t l va) as HW.
  { intros va Hva. eapply ustep_walk; [exact Hw|exact Ht| |exact S|lia]. apply table_range; lia. }
  split.
  - intros va Hva. rewrite HW by done. apply Bm. lia.
  - intros va x Hva. rewrite HW by done. apply Bo. lia.
  - intros i l' p' va Hi Hm Hva E. destruct (us_cnt S i l' p' Hi) as [_ C].
    rewrite C; [apply (Bc i l' p' va (us_sub S _ _ Hi) Hm); [lia|done]|].
    right. intros (v & Hv & _ & Ev).
    pose proof (wf_own _ _ _ _ (us_wf S) _ _ _ Hi) as (_ & Hl' & _).
    pose proof (block_cut l (l' - 1) (512 * p + k + 1) p' v va ltac:(lia) Ev E ltac:(lia)). lia.
Qed.

Lemma unmap_loop_run (n : nat) (own : Z → option (Z * Z)) (k : Z) (c : xlat_ctx) :
  n = Z.to_nat (entries_of c0 l - k) → same_conf c0 c → wf e None own c →
  pos own c t = Some (l, p) → 0 <= k < entries_of c0 l → meets r l p k →
  before (l + 1) own t l (at_ k) hiT c →
  ∃ own' c', unmap_loop e recurse r t l n k (at_ k) c = Ok (tt, c')
    ∧ ustep None (l + 1) own t l (at_ k) hiT c own' c'.
Proof using Hro Hspace Hos Hrec Hel HE HT.
  revert own k c. induction n as [|n IH]; intros own k c Hn Hs0 Hw Ht Hk Hm B; [lia|].
  pose proof (pos_level _ _ _ _ _ _ _ Hw Ht) as [Hl Hp]. pose proof (sz_pos l ltac:(lia)).
  pose proof (rend_le c0 r Hro Hspace) as [Hr1 Hr2].
  assert (next k <= hiT) as Hle by nia. assert (next k = at_ k + sz l) as Hnx by lia.
  assert (0 <= at_ k) by nia.
  assert (hiT <= 512 * (p + 1) * sz l) by nia. assert (512 * p * sz l <= at_ k) by nia.
  destruct (uentry_run own n k c) as (own1 & c1 & S & Hrun); [done..| |].
  { eapply before_sub; [| |exact B]; lia. }
  assert (ustep None (l + 1) own1 t l (next k) hiT c1 own1 c1 →
          ustep None (l + 1) own t l (at_ k) hiT c own1 c1) as Hdone.
  { intros S2. eapply (ustep_trans own own1 own1 t l p (at_ k) (512 * p + k + 1));
      [done|done|lia|lia|lia|exact S|exact S2]. }
  rewrite Hrun. unfold ucontinue. rewrite (region_end_eq c0 r Hro Hspace).
  change (XLAT_BLOCK_SIZE l) with (sz l). rewrite (u64_va (at_ k + sz l)) by lia.
  rewrite <- Hnx. pose proof (page_le (rend r) (next k) Hr2 (page_up _ l ltac:(lia))) as Hpl.
  destruct (Z.leb_spec (rend r - 1) (next k)) as [Hb|Hb].
  { exists own1, c1. split; [done|]. apply Hdone. apply ustep_refl; [apply S|].
    intros va Hva [_ Hin]. lia. }
  destruct (decide (k + 1 = entries_of c0 l)) as [Hlast|Hmore].
  { replace n with 0%nat by lia. exists own1, c1. split; [done|]. apply Hdone.
    apply ustep_refl; [apply S|]. rewrite <- Hlast. intros; lia. }
  pose proof (ustep_pos _ _ _ _ _ _ _ _ _ _ _ S Ht) as Ht1.
  replace (next k) with (at_ (k + 1)) in * by lia.
  destruct (IH own1 (k + 1) c1) as (own2 & c2 & Hrun' & S2).
  - lia.
  - eapply same_conf_trans; [done|apply S].
  - apply S.
  - done.
  - lia.
  - destruct Hm as [_ Hm2]. unfold meets. lia.
  - replace (at_ (k + 1)) with (next k) in * by lia. by eapply before_next.
  - exists own2, c2. split; [done|].
    eapply (ustep_trans own own1 own2 t l p (at_ k) (512 * p + (k + 1)));
      [done|done|lia|lia|lia|exact S|exact S2].
Qed.
End loop.

(** ** The call on a table *)

(** The region is counted out of a table. *)
Lemma ustep_dec (own own' : Z → option (Z * Z)) (i l p lo hi : Z) (c c' : xlat_ctx) :
  wf e None own c → own i = Some (l, p) → 0 < cnt c i → touches r lo hi l p →
  (∀ va, lo <= va < hi → va / sz (l - 1) = p) →
  ustep None (l + 1) own (SubT i) l lo hi c own' c' →
  ustep (Some i) l own (SubT i) l lo hi c own' (bump_count c' i (-1)).
Proof using.
  intros Hw Hi Hpos Ht Hp S. pose proof (ustep_pos _ _ _ _ _ _ _ _ _ _ _ S Hi) as Hi'. cbn in Hi'.
  pose proof (us_wf S) as Hw'. pose proof (wf_own _ _ _ _ Hw' _ _ _ Hi') as (Hir & _).
  assert (∀ j, cnt (bump_count c' i (-1)) j = if decide (i = j) then cnt c' i - 1 else cnt c' j) as Hb.
  { intros j. rewrite cnt_bump by (by rewrite (wf_cnts _ _ _ _ Hw')). done. }
  assert (cnt c' i = cnt c i) as Hci by (apply (us_cnt S i l p Hi'); left; lia).
  split.
  - destruct Hw'. split; try done.
    + cbn. by rewrite zlen_zset.
    + intros j Hj. rewrite Hb. destruct (wf_cnt j Hj) as (H1 & H2 & H3). case_decide as Hd.
      * subst j. split_and!; [lia|congruence|congruence].
      * split_and!; [done|done|]. intros Hne _. by apply H3.
  - apply S.
  - apply S.
  - apply S.
  - intros va Hva. rewrite <- (us_cover S va Hva). apply W_counts.
  - apply S.
  - intros j l' p' Hj. rewrite Hb. destruct (us_cnt S j l' p' Hj) as [C1 C2]. case_decide as Hd.
    + subst j. rewrite Hi' in Hj. simplify_eq. split; [lia|]. intros [?|?]; [lia|done].
    + assert (l' = l → ¬ touches r lo hi l' p') as Hne.
      { intros -> (va & Hva & Hin & E). pose proof (us_sub S _ _ Hj) as Hj0.
        rewrite (Hp va Hva) in E. subst p'.
        pose proof (pos_inj e _ _ _ (SubT i) (SubT j) _ _ Hw Hi Hj0). simplify_eq. }
      split.
      * intros Hm T. destruct (decide (l' = l)) as [E|]; [by destruct (Hne E)|]. apply C1; [lia|done].
      * intros Hor. apply C2. destruct Hor as [?|?]; [left; lia|by right].
  - apply S.
  - apply S.
Qed.

Lemma unmap_region_run (depth : nat) (own : Z → option (Z * Z)) (t : tref) (l p : Z) (c : xlat_ctx) :
  1 <= base_table_entries c0 <= 512 → 0 <= base_level c0 → el_ok c0 →
  depth = Z.to_nat (4 - l) → same_conf c0 c → wf e None own c → pos own c t = Some (l, p) →
  512 * p * sz l < rend r → base_va r < (512 * p + entries_of c0 l) * sz l →
  (512 * p + entries_of c0 l) * sz l <= 2 ^ 48 →
  before l own t l (512 * p * sz l) ((512 * p + entries_of c0 l) * sz l) c →
  ∃ own' c', xlat_tables_unmap_region e depth r (512 * p * sz l) t (entries_of c0 l) l c = Ok (tt, c')
    ∧ ustep (match t with BaseT => None | SubT i => Some i end) l own t l
        (512 * p * sz l) ((512 * p + entries_of c0 l) * sz l) c own' c'.
Proof using Hro Hspace Hos.
  intros He Hb Hel. revert own t l p c. induction depth as [|depth IH];
    intros own t l p c Hd Hs Hw Ht Hlo Hhi HT B.
  { pose proof (pos_level _ _ _ _ _ _ _ Hw Ht). lia. }
  pose proof (pos_level _ _ _ _ _ _ _ Hw Ht) as [Hl Hp]. pose proof (sz_pos l ltac:(lia)) as Hsz.
  pose proof (entries_of_le c0 l He) as HE. pose proof (rend_le c0 r Hro Hspace) as [Hr1 Hr2].
  cbn [xlat_tables_unmap_region]. erewrite bind_Ok; [|reflexivity].
  rewrite (proj2 (Z.leb_le (base_level c) l)), (proj2 (Z.leb_le l XLAT_TABLE_LEVEL_MAX))
    by (unfold XLAT_TABLE_LEVEL_MAX; lia). erewrite bind_Ok; [|reflexivity]. cbv zeta.
  destruct (start_run c0 r Hro Hspace l p (entries_of c0 l))
    as (k & Hst & Hidx & [Hk0 Hk1] & Hmk & Hkm); [lia|done|done|done|done|done|].
  rewrite Hst, Hidx.
  set (rec := λ va sub, xlat_tables_unmap_region e depth r va sub XLAT_TABLE_ENTRIES (l + 1)).
  assert (urec_ok l rec) as Hrec.
  { intros own1 c1 i q Hs1 Hw1 Hi Hq1 Hq2 B1. unfold rec.
    pose proof (wf_own _ _ _ _ Hw1 _ _ _ Hi) as (_ & Hl1 & _).
    pose proof (same_conf_level _ _ Hs1).
    assert (entries_of c0 (l + 1) = 512) as E5.
    { unfold entries_of. by rewrite (proj2 (Z.eqb_neq _ _)) by lia. }
    pose proof (sz_up (l + 1) ltac:(lia)) as Eup. replace (l + 1 - 1) with l in Eup by lia.
    assert (512 * q * sz (l + 1) = q * sz l) as E1 by lia.
    assert ((512 * q + entries_of c0 (l + 1)) * sz (l + 1) = (q + 1) * sz l) as E2 by lia.
    destruct (IH own1 (SubT i) (l + 1) q c1) as (own' & c' & Hret); rewrite ?E1, ?E2 in *;
      [lia|done|done|done|done|done| |done|].
    - apply (sub_end c0 r Hro Hspace); [lia|done].
    - rewrite E5 in Hret. by exists own', c'. }
  assert (before (l + 1) own t l ((512 * p + k) * sz l) ((512 * p + entries_of c0 l) * sz l) c) as Bk.
  { destruct (before_sub l own t l (512 * p * sz l) ((512 * p + entries_of c0 l) * sz l)
      ((512 * p + k) * sz l) ((512 * p + entries_of c0 l) * sz l) c ltac:(nia) ltac:(lia) B) as [Bm Bo Bc].
    split; [done|done|]. intros i l' p' va Hi Hm. apply (Bc i l' p' va Hi). lia. }
  destruct (unmap_loop_run rec t l p Hrec Hel ltac:(lia) HT _ own k c eq_refl Hs Hw Ht
    ltac:(lia) Hmk Bk) as (own' & c' & Hrun & S).
  erewrite bind_Ok; [|exact Hrun].
  assert (ustep None (l + 1) own t l (512 * p * sz l) ((512 * p + entries_of c0 l) * sz l) c own' c') as S'.
  { eapply (ustep_trans own own own' t l p _ (512 * p + k));
      [done|done|lia|nia|nia|apply ustep_refl; [done|]|exact S].
    intros va Hva [Hin _]. lia. }
  destruct t as [|i].
  - cbn in Ht. simplify_eq. rewrite (proj2 (Z.ltb_ge _ _)) by lia. exists own', c'. split; [done|].
    destruct S' as [Sw Sc Ssub Sf Sv Sg Scnt So St]. split; try done. intros j l' p' Hj.
    destruct (wf_own _ _ _ _ Sw _ _ _ Hj) as (_ & Hj1 & _). rewrite (same_conf_level _ _ Sc) in Hj1.
    destruct (Scnt j l' p' Hj) as [C1 C2]. split; [intros; apply C1; [lia|done]|].
    intros [?|?]; [lia|]. apply C2. by right.
  - cbn in Ht. pose proof (wf_own _ _ _ _ Hw _ _ _ Ht) as (Hi & Hbl & _).
    rewrite (proj2 (Z.ltb_lt _ _)) by lia. exists own', (bump_count c' i (-1)). split.
    + unfold xlat_table_dec_regions_count. erewrite bind_Ok; cycle 1.
      { apply get_index_run. by rewrite (proj2 (us_conf S')). }
      apply add_count_run. by rewrite (wf_cnts _ _ _ _ (us_wf S')), (proj2 (us_conf S')).
    + apply ustep_dec with (p := p); [done|done| | | |done].
      * destruct (wf_cnt _ _ _ _ Hw i Hi) as (_ & _ & H). apply H; congruence.
      * exists (Z.max (base_va r) (512 * p * sz l)). split; [lia|]. split; [split; lia|].
        apply table_range; nia.
      * intros va Hva. apply table_range; nia.
Qed.
End Steps.

(** ** Unmapping a region of the context *)

Lemma before_all (own : Z → option (Z * Z)) (c : xlat_ctx) (rs pre post : list mmap_region_t)
    (r : mmap_region_t) :
  rs = pre ++ r :: post → (∀ o, o ∈ pre ++ post → apart r o) → (∀ q, q ∈ rs → base_va q < rend q) →
  wf e None own c → translates e c rs → counts_ok own c rs →
  before c r (pre ++ post) (base_level c) own BaseT (base_level c) 0 (space c) c.
Proof.
  intros -> Hap Hrs Hw Ht Hc. split.
  - intros va Hva Hin. specialize (Ht va Hva). unfold mapping in Ht.
    destruct (region_at (pre ++ r :: post) va) as [q|] eqn:Eq.
    + apply region_at_Some in Eq as [Hq Hqin]. destruct (decide (q = r)) as [->|Hne]; [done|].
      assert (q ∈ pre ++ post) as Hq' by set_solver.
      pose proof (Hap q Hq') as Ha. unfold apart, in_r in *. lia.
    + exfalso. apply (proj1 (region_at_None _ _) Eq r); [set_solver|done].
  - intros va x Hva Hnin HW. specialize (Ht va Hva). unfold mapping in Ht.
    destruct (region_at (pre ++ r :: post) va) as [q|] eqn:Eq; [|congruence].
    apply region_at_Some in Eq as [Hq Hqin]. exists q. split; [|done].
    assert (q ≠ r) by (intros ->; done). set_solver.
  - intros i l p va Hi _ _ _. rewrite (Hc i l p Hi). unfold others.
    rewrite !zsum_app. unfold zsum at 2. cbn [foldr]. change (foldr _ 0 post) with
      (zsum (λ r, if meets_table l p r then 1 else 0) post). lia.
Qed.

Lemma region_at_without (pre post : list mmap_region_t) (r : mmap_region_t) (va : Z) :
  ¬ in_r r va → region_at (pre ++ r :: post) va = region_at (pre ++ post) va.
Proof.
  intros Hn. rewrite !region_at_app. destruct (region_at pre va); [done|].
  unfold region_at. cbn. by rewrite bool_decide_eq_false_2.
Qed.

Lemma unmap_all_run (c : xlat_ctx) (pre post : list mmap_region_t) (r : mmap_region_t) :
  conf_ok c → el_ok c → regions_ok c (pre ++ r :: post) → type_ok (attr r) →
  (∀ o, o ∈ pre ++ post → apart r o) → tables_inv e c (pre ++ r :: post) →
  ∃ c', unmap_all e r c = Ok (tt, c') ∧ same_conf c c' ∧ tables_inv e c' (pre ++ post)
    ∧ (∀ v, v ∈ tlbi c → v ∈ tlbi c')
    ∧ (∀ va d l, in_r r va → mapping e c va = Some (d, l) → va / sz l * sz l ∈ tlbi c').
Proof.
  intros Hcf Hel Hok Hty Hap (own & Hw & Ht & Hc & Hnd).
  assert (r ∈ pre ++ r :: post) as Hr by set_solver.
  pose proof (rg_each _ _ Hok r Hr) as Hck. pose proof (checked_region c r Hcf Hck Hty) as Hro.
  pose proof (space_le _ _ _ _ Hw) as [Hs0 Hs].
  pose proof (wf_lvl _ _ _ _ Hw) as Hl. pose proof (wf_base _ _ _ _ Hw) as [_ He].
  assert (∀ q, q ∈ pre ++ r :: post → 0 <= base_va q < rend q ∧ rend q <= space c) as Hrange.
  { intros q Hq. destruct (rg_each _ _ Hok q Hq). unfold rend in *. lia. }
  assert (∀ q, q ∈ pre ++ post → q ∈ pre ++ r :: post) as Hsub by set_solver.
  assert (entries_of c (base_level c) = base_table_entries c) as HE.
  { unfold entries_of. by rewrite Z.eqb_refl. }
  pose proof (rend_le c r Hro Hs) as [Hr1 Hr2]. pose proof (ro_va0 _ _ Hro). pose proof (ro_end _ _ Hro).
  destruct (unmap_region_run c r (pre ++ post) Hro Hs) with (depth := Z.to_nat (4 - base_level c))
    (own := own) (t := BaseT) (l := base_level c) (p := 0) (c := c) as (own' & c' & Hrun & S);
    rewrite ?HE, ?Z.mul_0_r, ?Z.mul_0_l, ?Z.add_0_l in *;
    [by intros o Ho; apply Hrange, Hsub|done|lia|done|done|done|done|done|lia|lia|done| |].
  { eapply before_all; [done|done| |done|done|done]. intros q Hq. by apply Hrange. }
  destruct S as [Sw Sc Ssub Sf Sv Sg Scnt So St]. change (base_table_entries c * sz (base_level c)) with (space c) in *.
  exists c'. split; [unfold unmap_all; by erewrite bind_Ok|]. split; [done|]. split; [|split; [done|]].
  - exists own'. split_and!; [done| | |].
    + intros va. rewrite (space_conf c c' Sc). intros Hva. unfold mapping in *.
      rewrite (same_conf_level _ _ Sc), (Sv va Hva). specialize (Ht va Hva). unfold mapping in Ht.
      case_decide as Hin.
      * assert (region_at (pre ++ post) va = None) as ->; [|done]. apply region_at_None.
        intros o Ho Hin'. pose proof (Hap o Ho) as Ha. unfold apart, in_r in *. lia.
      * rewrite region_at_without in Ht by done. destruct (region_at (pre ++ post) va) as [q|]; [|done].
        destruct Ht as (x & Hx & Hleaf). exists x. split; [done|]. by eapply leaf_conf.
    + intros i l p Hi. pose proof (Hc i l p (Ssub _ _ Hi)) as Hci.
      rewrite zsum_app in *. unfold zsum in Hci at 2. cbn [foldr] in Hci.
      change (foldr _ 0 post) with (zsum (λ r, if meets_table l p r then 1 else 0) post) in Hci.
      pose proof (wf_own _ _ _ _ Sw _ _ _ Hi) as (_ & Hli & _). rewrite (same_conf_level _ _ Sc) in Hli.
      destruct (Scnt i l p Hi) as [C1 C2].
      rewrite (touches_meets c r l p) in C1, C2 by (lia || apply Hrange; done).
      destruct (meets_table l p r).
      * rewrite C1 by (lia || done). lia.
      * rewrite C2 by (by right). lia.
    + intros i l p Hi. pose proof (Ssub _ _ Hi) as Hi0. destruct (Hnd i l p Hi0) as (q & Hq & Hn).
      pose proof (wf_own _ _ _ _ Sw _ _ _ Hi) as (Hir & Hli & _).
      destruct (decide (q = r)) as [->|Hne].
      2:{ exists q. split; [set_solver|by eapply needs_conf]. }
      destruct (wf_cnt _ _ _ _ Sw i Hir) as (_ & _ & Hpos). specialize (Hpos ltac:(congruence) ltac:(done)).
      assert (cnt c' i = others (pre ++ post) l p) as Hci.
      { pose proof (Hc i l p Hi0) as Hci. destruct (Scnt i l p Hi) as [C1 _].
        rewrite C1, Hci.
        - unfold others. rewrite !zsum_app. unfold zsum at 2. cbn [foldr].
          change (foldr _ 0 post) with (zsum (λ r, if meets_table l p r then 1 else 0) post).
          destruct Hn as (_ & N1 & N2 & _). unfold meets_table at 2.
          rewrite !(proj2 (Z.ltb_lt _ _)) by done. cbn [andb]. lia.
        - rewrite (same_conf_level _ _ Sc) in Hli. lia.
        - apply touches_meets; [lia|by apply Hrange|by apply Hrange|].
          destruct Hn as (_ & N1 & N2 & _). unfold meets_table.
          by rewrite !(proj2 (Z.ltb_lt _ _)) by done. }
      destruct (others_pos (pre ++ post) l p ltac:(lia)) as (o & Ho & Hm).
      exists o. split; [done|]. unfold meets_table in Hm.
      apply andb_true_iff in Hm as [M1%Z.ltb_lt M2%Z.ltb_lt].
      destruct Hn as (N0 & N1 & N2 & _). apply (needs_conf c c' o l p Sc).
      split_and!; [lia|lia|done|done|]. intros (F1 & F2 & _).
      pose proof (Hap o Ho) as Ha. unfold apart in Ha. lia.
  - intros va d l Hin HW. eapply St; [|done|exact HW]. unfold in_r, rend in *. lia.
Qed.
End Unmap.
