(* ===== verification/XlatDyn.v ===== *)
(** * Translation tables: dynamic regions

    Adding and removing regions while the tables are in use.  With enough
    tables, each call answers what the list of regions implies, and afterwards
    the tables translate exactly the regions of the list. *)

From stdpp Require Import sets.
From S2P Require Import Prelude Bits Xlat XlatWalk XlatDesc XlatTree XlatMap XlatRegions XlatInit.
From S2P Require Import XlatLookup XlatStatic XlatUnmap.

Local Open Scope Z_scope.

Section Dynamic.
Context (e : xlat_env).

(** An initialised context and its regions *)
Record ctx_inv (c : xlat_ctx) (rs : list mmap_region_t) : Prop := {
  ci_conf : conf_ok c;
  ci_el : el_ok e c;
  ci_init : initialized c = true;
  ci_arr : arr rs c;
  ci_lim : limits rs c;
  ci_type : ∀ a, a ∈ rs → type_ok (attr a);
  ci_tabs : tables_inv e c rs;
}.

(** ** Changes of the array leave the tables alone *)

Lemma tables_inv_mmap (c : xlat_ctx) (rs : list mmap_region_t) (l : list mmap_region_t) (a b : Z) :
  tables_inv e c rs → tables_inv e (set_mmap c l a b) rs.
Proof.
  intros (own & Hw & Ht & Hc & Hn). exists own. split_and!.
  - destruct Hw. by split.
  - intros va Hva. specialize (Ht va Hva).
    assert (mapping e (set_mmap c l a b) va = mapping e c va) as -> by (by apply W_ext). done.
  - done.
  - done.
Qed.

Lemma conf_ok_mmap (c : xlat_ctx) (l : list mmap_region_t) (a b : Z) :
  conf_ok c → conf_ok (set_mmap c l a b).
Proof. intros []. by split. Qed.

(** The attributes of a dynamic region *)
Lemma as_dynamic_type (mm : mmap_region_t) : type_ok (attr mm) → type_ok (attr (as_dynamic mm)).
Proof.
  unfold type_ok. cbn. unfold MT_TYPE. rewrite Z.land_lor_distr_l.
  change (Z.land MT_DYNAMIC MT_TYPE_MASK) with 0. by rewrite Z.lor_0_r.
Qed.

Lemma as_dynamic_dyn (mm : mmap_region_t) : dyn (as_dynamic mm) = true.
Proof.
  unfold dyn. cbn. change MT_DYNAMIC with (Z.shiftl 1 31). rewrite has_bit by lia.
  rewrite Z.lor_spec. change (Z.testbit (Z.shiftl 1 31) 31) with true. by rewrite orb_true_r.
Qed.

(** A dynamic region meets no other. *)
Lemma dyn_apart (a b : mmap_region_t) : dyn a = true → pair_ok a b → apart a b.
Proof. intros Hd [(_ & H & _)|[H _]]; [congruence|done]. Qed.

(** Where a region that meets no other stands in the list does not matter. *)
Lemma region_at_insert (pre post : list mmap_region_t) (r : mmap_region_t) (va : Z) :
  (∀ o, o ∈ pre ++ post → apart r o) →
  region_at (pre ++ r :: post) va = region_at ((pre ++ post) ++ [r]) va.
Proof.
  intros Hap. destruct (decide (in_r r va)) as [Hin|Hn].
  - assert (∀ o, o ∈ pre ++ post → ¬ in_r o va) as Ho.
    { intros o Ho. specialize (Hap o Ho). unfold apart, in_r in *. lia. }
    rewrite !region_at_app.
    rewrite (proj2 (region_at_None pre va)) by (intros o Hp; apply Ho; set_solver).
    rewrite (proj2 (region_at_None post va)) by (intros o Hp; apply Ho; set_solver).
    unfold region_at. cbn. by rewrite bool_decide_eq_true_2.
  - rewrite region_at_without by done. rewrite (region_at_app (pre ++ post)).
    destruct (region_at (pre ++ post) va); [done|]. unfold region_at. cbn.
    by rewrite bool_decide_eq_false_2.
Qed.

Lemma tables_inv_insert (c : xlat_ctx) (pre post : list mmap_region_t) (r : mmap_region_t) :
  (∀ o, o ∈ pre ++ post → apart r o) →
  tables_inv e c ((pre ++ post) ++ [r]) → tables_inv e c (pre ++ r :: post).
Proof.
  intros Hap (own & Hw & Ht & Hc & Hn). exists own. split_and!; [done| | |].
  - intros va Hva. rewrite region_at_insert by done. by apply Ht.
  - intros i l p Hi. rewrite (Hc i l p Hi). rewrite !zsum_app. unfold zsum. cbn [foldr]. lia.
  - intros i l p Hi. destruct (Hn i l p Hi) as (q & Hq & Hnq). exists q. split; [set_solver|done].
Qed.

(** ** Mapping a dynamic region *)

Lemma map_dynamic_run (c : xlat_ctx) (pre post : list mmap_region_t) (r : mmap_region_t)
    (cursor : Z) :
  conf_ok c → el_ok e c → tables_inv e c (pre ++ post) → regions_ok c (pre ++ r :: post) →
  type_ok (attr r) → (∀ o, o ∈ pre ++ post → apart r o) →
  tables_needed c (pre ++ r :: post) <= tables_num c →
  ∃ c', map_dynamic e r cursor c = Ok ((rend r - 1, None), c') ∧ same_conf c c'
    ∧ tables_inv e c' (pre ++ r :: post).
Proof.
  intros Hcf [Hreg Hel] (own & Hw & Ht & Hc & Hn) Hok Hty Hap Hneed.
  assert (r ∈ pre ++ r :: post) as Hr by set_solver.
  pose proof (rg_each _ _ Hok r Hr) as Hck. pose proof (checked_region c r Hcf Hck Hty) as Hro.
  pose proof (checked_end c r Hcf Hck) as [Hend _].
  assert (∀ q, q ∈ pre ++ r :: post → 0 <= base_va q < rend q ∧ rend q <= space c) as Hrange.
  { intros q Hq. destruct (rg_each _ _ Hok q Hq). unfold rend in *. lia. }
  assert (∀ q, q ∈ pre ++ post → q ∈ pre ++ r :: post) as Hsub by set_solver.
  destruct (map_all_run e own c r Hw Hreg Hro) as (ret & c' & Hrun & Hs & Hcase).
  { apply (translates_compat e c (pre ++ post) r Ht). intros q va Hq H1 H2. exfalso.
    specialize (Hap q Hq). unfold apart, in_r in *. lia. }
  destruct Hcase as [[Hne Hf]|[-> (own' & S)]].
  - exfalso. enough (tables_num c < tables_needed c (pre ++ r :: post)) by lia.
    apply (failed_short e own c c' _ r Hr); [apply Hs|done|].
    intros i l p Hi. destruct (Hn i l p Hi) as (q & Hq & Hnq). exists q. split; [by apply Hsub|done].
  - exists c'. unfold map_dynamic. rewrite (bind_Ok _ _ _ _ _ Hrun), Z.eqb_refl, Hend.
    split; [done|]. split; [done|]. apply tables_inv_insert; [done|].
    destruct (step_translates e own own' c c' (pre ++ post) r Hw) as [Ht' Hc'];
      [by apply Hrange|by apply Hrange|intros q Hq; by apply Hrange, Hsub|done|done|done|].
    exists own'. split_and!; [apply S|done|done|].
    intros i l p Hi. destruct (step_needs _ _ _ _ _ _ _ _ _ _ _ _ S i l p Hi) as [Ho|Hx].
    + destruct (Hn i l p Ho) as (q & Hq & Hnq). exists q. split; [set_solver|by eapply needs_conf].
    + exists r. split; [set_solver|by eapply needs_conf].
Qed.

(** ** Adding a dynamic region *)

Lemma as_dynamic_raw (mm : mmap_region_t) : raw_ok mm → raw_ok (as_dynamic mm).
Proof. done. Qed.

Lemma add_dynamic_run (c : xlat_ctx) (rs : list mmap_region_t) (mm : mmap_region_t) :
  ctx_inv c rs → raw_ok mm → type_ok (attr mm) → size mm ≠ 0 →
  tables_needed c (as_dynamic mm :: rs) <= tables_num c →
  (∃ err, mmap_add_dynamic_region_ctx e mm c = Ok (err, c) ∧ ¬ admissible c rs (as_dynamic mm)
     ∧ (err = - EINVAL ∨ err = - ERANGE ∨ err = - ENOMEM ∨ err = - EPERM))
  ∨ (admissible c rs (as_dynamic mm) ∧ ∃ rs' c', rs' ≡ₚ as_dynamic mm :: rs
     ∧ mmap_add_dynamic_region_ctx e mm c = Ok (0, c') ∧ ctx_inv c' rs'
     ∧ tables_num c' = tables_num c ∧ base_level c' = base_level c ∧ space c' = space c
     ∧ pa_max_address c' = pa_max_address c ∧ mmap_num c' = mmap_num c).
Proof.
  intros [Hcf Hel Hi Harr Hlim Hty Htb] Hraw Hta Hs Hneed. set (r := as_dynamic mm) in *.
  destruct (check_run c rs r Hcf Harr (as_dynamic_raw mm Hraw) Hs) as (ret & Hck & Hz & Hnz).
  unfold mmap_add_dynamic_region_ctx. rewrite (proj2 (Z.eqb_neq _ _)) by done. cbv zeta. fold r.
  rewrite (bind_Ok _ _ _ _ _ Hck). destruct (Z.eqb_spec ret 0) as [->|Hne]; cbn [negb].
  2:{ left. destruct (Hnz Hne) as [Hna Hcode]. by exists ret. }
  right. pose proof (Hz eq_refl) as Hadm. split; [done|]. destruct Hadm as (Hmm & Hroom & Hpair).
  destruct Harr as [(z & Em & Hz0) Hlen _ Hok].
  assert (z ≠ []) as Hzne by (intros ->; rewrite Em, app_nil_r in Hlen; lia).
  destruct (find_place_run c r rs z Hcf Hok Hmm Hpair Hz0 Hzne) as (pre & post & E & Hplace & Hok').
  erewrite bind_Ok; [|reflexivity]. rewrite Em, (bind_Ok _ _ _ _ _ Hplace).
  destruct (exists_last Hzne) as (z1 & zl & Ez). rewrite Ez in *. rewrite E in *.
  assert ((pre ++ post) ++ z1 ++ [zl] = pre ++ (post ++ z1) ++ zl :: []) as Earr
    by (by rewrite <- !app_assoc).
  rewrite Em, Earr in Hlen.
  destruct (array_insert pre (post ++ z1) [] r zl c) as (l & Hl & Hlen' & Hsame & Hset).
  assert (mmap_num c - zlen pre = zlen (post ++ z1)) as Hcount.
  { rewrite zlen_app, (zlen_app (post ++ z1)), zlen_cons in Hlen. change (zlen (@nil mmap_region_t)) with 0 in Hlen. lia. }
  rewrite Earr, Hcount, (bind_Ok _ _ _ _ _ Hl).
  pose proof (zlen_nonneg pre). pose proof (zlen_nonneg (post ++ z1)).
  assert (z1 ≠ []) as Hz1.
  { intros ->. rewrite app_nil_r, zlen_app in *. lia. }
  assert (∃ y, zget l (mmap_num c) = Some y ∧ size y = 0) as (y & Hy & Hy0).
  { destruct (zget_is_Some l (mmap_num c)) as [y Hy]; [lia|]. exists y. split; [done|].
    assert (0 < zlen z1) as Hzl by (destruct z1; [done|]; rewrite zlen_cons; pose proof (zlen_nonneg z1); lia).
    pose proof (zlen_nonneg post). rewrite zlen_app in Hcount.
    rewrite <- (zget_zset_ne l (zlen pre) (mmap_num c) r), Hset, app_nil_r in Hy by lia.
    rewrite (cons_middle r pre), !app_assoc in Hy. unfold zget in Hy.
    destruct (mmap_num c <? 0); [done|].
    rewrite lookup_app_r in Hy by (rewrite !length_app; cbn; unfold zlen in *; lia).
    apply list_elem_of_lookup_2 in Hy. apply Forall_app in Hz0 as [Hz0 _].
    rewrite Forall_forall in Hz0. by apply Hz0. }
  erewrite bind_Ok; [|by apply aget_Ok]. rewrite Hy0. erewrite bind_Ok; [|reflexivity].
  erewrite bind_Ok; [|apply aset_Ok; lia]. rewrite Hset, app_nil_r.
  set (c1 := set_mmap c (pre ++ r :: post ++ z1) (max_pa c) (max_va c)).
  erewrite bind_Ok; [|reflexivity]. rewrite Hi.
  assert (∀ o, o ∈ pre ++ post → apart r o) as Hap.
  { intros o Ho. apply dyn_apart; [apply as_dynamic_dyn|by apply Hpair]. }
  destruct (map_dynamic_run c1 pre post r (zlen pre)) as (c' & Hrun & Hsc & Htb').
  - by apply conf_ok_mmap.
  - done.
  - by apply tables_inv_mmap.
  - by apply (regions_conf c).
  - by apply as_dynamic_type.
  - done.
  - etrans; [|exact Hneed]. apply (tables_needed_sub c1). set_solver.
  - destruct (same_conf_fields _ _ Hsc) as (F1 & F2 & F3 & F4 & F5 & F6 & F7 & F8 & F9 & F10 & F11).
    pose proof (space_conf _ _ Hsc) as F12.
    rewrite (bind_Ok _ _ _ _ _ Hrun). cbn [fst snd]. erewrite bind_Ok; [|reflexivity].
    rewrite !max_if, F6, F8, F9. destruct (checked_end c r Hcf Hmm) as [_ Epa].
    fold (region_end_pa r). rewrite Epa.
    set (c2 := set_mmap c' _ _ _). exists (pre ++ r :: post), c2. split_and!.
    + rewrite <- Permutation_middle. done.
    + done.
    + split.
      * by apply conf_ok_mmap, (conf_ok_conf c1), conf_ok_mmap.
      * by apply (el_conf e c1 c').
      * cbn. by rewrite F10.
      * split.
        -- exists z1. cbn. split; [by rewrite <- app_assoc|].
           apply Forall_app in Hz0 as [? _]. done.
        -- cbn. rewrite F7. change (mmap_num c1) with (mmap_num c). rewrite <- Hlen.
           rewrite !zlen_app, !zlen_cons, ?zlen_app. change (zlen (@nil mmap_region_t)) with 0. lia.
        -- cbn. rewrite F7. change (mmap_num c1) with (mmap_num c).
           rewrite zlen_app, zlen_cons in *. lia.
        -- apply (regions_conf c); [|done|done]. exact F12.
      * unfold limits. cbn. rewrite !max_over_insert. destruct Hlim as [-> ->]. done.
      * intros a Ha. destruct (decide (a = r)) as [->|]; [by apply as_dynamic_type|].
        apply Hty. set_solver.
      * by apply tables_inv_mmap.
    + done.
    + done.
    + done.
    + done.
    + done.
Qed.

(** ** Removing a dynamic region *)

Definition is_at (va s : Z) (a : mmap_region_t) : Prop := base_va a = va ∧ size a = s.

Lemma find_region_run (c : xlat_ctx) (va s : Z) (rs z : list mmap_region_t) (i : Z) :
  (∀ a, a ∈ rs → size a ≠ 0) → Forall (λ q, size q = 0) z → z ≠ [] →
  (∃ j q, find_region va s (rs ++ z) i c = Ok ((j, q), c) ∧ size q = 0 ∧ ∀ a, a ∈ rs → ¬ is_at va s a)
  ∨ ∃ pre r post, rs = pre ++ r :: post ∧ find_region va s (rs ++ z) i c = Ok ((i + zlen pre, r), c)
      ∧ is_at va s r.
Proof.
  intros Hs Hz Hne. revert i. induction rs as [|a rs IH]; intros i.
  - left. destruct z as [|q z]; [done|]. inversion Hz as [|? ? E]; subst. exists i, q.
    cbn [app find_region]. rewrite E. split_and!; [done|done|by intros ? ?%not_elem_of_nil].
  - cbn [app find_region]. rewrite (proj2 (Z.eqb_neq (size a) 0)) by (apply Hs; left).
    destruct ((base_va a =? va) && (size a =? s)) eqn:E.
    + right. exists [], a, rs. change (zlen (@nil mmap_region_t)) with 0. rewrite Z.add_0_r.
      split_and!; [done|done|unfold is_at; lia].
    + destruct (IH ltac:(intros; apply Hs; by right) (i + 1))
        as [(j & q & H1 & H2 & H3)|(pre & r & post & -> & H1 & H2)].
      * left. exists j, q. split_and!; [done|done|]. intros b [->|Hb]%elem_of_cons; [|by apply H3].
        unfold is_at. lia.
      * right. exists (a :: pre), r, post. rewrite zlen_cons. split_and!; [done| |done].
        rewrite H1. do 3 f_equal. lia.
Qed.

Lemma max_over_nonneg (f : mmap_region_t → Z) (rs : list mmap_region_t) : 0 <= max_over f rs.
Proof. unfold max_over. induction rs; cbn; lia. Qed.

Lemma max_end_run (c : xlat_ctx) (f g : mmap_region_t → Z) (rs z : list mmap_region_t) (m : Z) :
  (∀ a, a ∈ rs → size a ≠ 0 ∧ f a = g a) → Forall (λ q, size q = 0) z → z ≠ [] → 0 <= m →
  max_end f (rs ++ z) m c = Ok (Z.max m (max_over g rs), c).
Proof.
  intros Hs Hz Hne. revert m. induction rs as [|a rs IH]; intros m Hm.
  - destruct z as [|q z]; [done|]. inversion Hz as [|? ? E]; subst. cbn [app max_end]. rewrite E.
    cbn. by rewrite Z.max_l.
  - destruct (Hs a ltac:(left)) as [Hnz Hf]. cbn [app max_end]. rewrite (proj2 (Z.eqb_neq (size a) 0)) by done.
    rewrite max_if, IH by (try (intros; apply Hs; by right); lia). rewrite Hf.
    unfold max_over. cbn [foldr]. do 2 f_equal. lia.
Qed.

Lemma regions_remove (c : xlat_ctx) (pre post : list mmap_region_t) (r : mmap_region_t) :
  regions_ok c (pre ++ r :: post) → regions_ok c (pre ++ post).
Proof.
  intros [G1 G2 G3]. split.
  - intros a Ha. apply G1. set_solver.
  - apply sorted_app in G2 as (S1 & S2 & S3). inversion S2; subst.
    apply sorted_app. split_and!; [done|done|]. intros a b Ha Hb. apply S3; [done|by right].
  - intros a b Ha Hb. apply G3; set_solver.
Qed.

Lemma dyn_apart_all (c : xlat_ctx) (pre post : list mmap_region_t) (r : mmap_region_t) :
  regions_ok c (pre ++ r :: post) → dyn r = true → ∀ o, o ∈ pre ++ post → apart r o.
Proof.
  intros Hok Hdyn o Ho. apply dyn_apart; [done|]. apply (rg_pair _ _ Hok); [set_solver|set_solver|].
  intros ->. pose proof (rg_sorted _ _ Hok) as (_ & S2 & S3)%sorted_app.
  apply elem_of_app in Ho as [Ho|Ho].
  - specialize (S3 o o Ho ltac:(left)). unfold region_lt in S3. lia.
  - inversion S2 as [|? ? _ HF]; subst. rewrite List.Forall_forall in HF.
    specialize (HF o (proj1 (list_elem_of_In _ _) Ho)). unfold region_lt in HF. lia.
Qed.

Lemma remove_array (c : xlat_ctx) (pre post z1 : list mmap_region_t) (r zl : mmap_region_t) :
  array_move (zlen pre) (zlen pre + 1) (zlen (post ++ z1 ++ [zl])) (pre ++ r :: post ++ z1 ++ [zl]) c
  = Ok (pre ++ (post ++ z1 ++ [zl]) ++ [zl], c).
Proof.
  rewrite array_remove. do 4 f_equal.
  assert (r :: post ++ z1 ++ [zl] = (r :: post ++ z1) ++ [zl]) as -> by (cbn; by rewrite app_assoc).
  assert (length (post ++ z1 ++ [zl]) = length (r :: post ++ z1)) as ->.
  { cbn. rewrite !length_app. cbn. lia. }
  by rewrite drop_app_length.
Qed.

(** The highest address after a removal: looked for again when the removed
    region had it *)
Lemma max_update (c : xlat_ctx) (f g : mmap_region_t → Z) (pre post z : list mmap_region_t)
    (r : mmap_region_t) (m : Z) :
  (∀ a, a ∈ pre ++ post → size a ≠ 0 ∧ f a = g a) → f r = g r →
  Forall (λ q, size q = 0) z → z ≠ [] → m = max_over g (pre ++ r :: post) →
  (if f r =? m then max_end f ((pre ++ post) ++ z) 0 else mret m) c
  = Ok (max_over g (pre ++ post), c).
Proof.
  intros Hs Hr Hz Hne ->. rewrite max_over_insert.
  destruct (Z.eqb_spec (f r) (Z.max (max_over g (pre ++ post)) (g r))) as [Eq|Eq].
  - rewrite (max_end_run c f g) by done. by rewrite Z.max_r by apply max_over_nonneg.
  - unfold mret, M_ret. do 2 f_equal. rewrite Hr in Eq. lia.
Qed.

Lemma remove_run (c : xlat_ctx) (rs : list mmap_region_t) (va s : Z) :
  ctx_inv c rs →
  (mmap_remove_dynamic_region_ctx e va s c = Ok (- EINVAL, c) ∧ ∀ a, a ∈ rs → ¬ is_at va s a)
  ∨ ∃ r, r ∈ rs ∧ is_at va s r
    ∧ ((dyn r = false ∧ mmap_remove_dynamic_region_ctx e va s c = Ok (- EPERM, c))
       ∨ (dyn r = true ∧ ∃ rs' c', rs ≡ₚ r :: rs'
          ∧ mmap_remove_dynamic_region_ctx e va s c = Ok (0, c') ∧ ctx_inv c' rs'
          ∧ (∀ v d l, in_r r v → mapping e c v = Some (d, l) → v / sz l * sz l ∈ tlbi c')
          ∧ tables_num c' = tables_num c ∧ base_level c' = base_level c ∧ space c' = space c
          ∧ pa_max_address c' = pa_max_address c ∧ mmap_num c' = mmap_num c)).
Proof.
  intros [Hcf Hel Hi [(z & Em & Hz0) Hlen Hroom Hok] Hlim Hty Htb].
  assert (z ≠ []) as Hzne by (intros ->; rewrite Em, app_nil_r in Hlen; lia).
  pose proof (cf_num _ Hcf) as Hnum.
  assert (∀ a, a ∈ rs → size a ≠ 0) as Hnz.
  { intros a Ha. pose proof (ck_pos _ _ (rg_each _ _ Hok a Ha)). lia. }
  unfold mmap_remove_dynamic_region_ctx. erewrite bind_Ok; [|reflexivity].
  destruct (exists_last Hzne) as (z1 & zl & Ez).
  assert (size zl = 0) as Hzl by (rewrite Ez in Hz0; apply Forall_app in Hz0 as [_ H]; by inversion H).
  assert (mmap_num c = zlen (rs ++ z1)) as Hn.
  { rewrite Em, Ez, app_assoc, zlen_app, zlen_cons in Hlen.
    change (zlen (@nil mmap_region_t)) with 0 in Hlen. lia. }
  erewrite bind_Ok; cycle 1.
  { apply aget_Ok. rewrite Hn, Em, Ez, app_assoc. apply zget_mid. }
  rewrite Hzl. erewrite bind_Ok; [|reflexivity]. rewrite Em.
  destruct (find_region_run c va s rs z 0 Hnz Hz0 Hzne)
    as [(j & q & Hf & Hq & Hno)|(pre & r & post & E & Hf & Hat)].
  { left. rewrite (bind_Ok _ _ _ _ _ Hf). cbn [fst snd]. by rewrite Hq. }
  right. rewrite (bind_Ok _ _ _ _ _ Hf). cbn [fst snd].
  assert (r ∈ rs) as Hr by (rewrite E; set_solver). exists r. split; [done|]. split; [done|].
  rewrite (proj2 (Z.eqb_neq (size r) 0)) by (by apply Hnz).
  destruct (Z.land (attr r) MT_DYNAMIC =? 0) eqn:Ed.
  { left. unfold dyn, has. by rewrite Ed. }
  right. assert (dyn r = true) as Hdyn by (unfold dyn, has; by rewrite Ed). split; [done|].
  rewrite Hi. subst rs.
  pose proof (dyn_apart_all c pre post r Hok Hdyn) as Hap.
  destruct (unmap_all_run e c pre post r Hcf Hel Hok (Hty r Hr) Hap Htb)
    as (c1 & Hrun & Hsc & Htb1 & Htl1 & Htl2).
  rewrite (bind_Ok _ _ _ _ _ Hrun). erewrite bind_Ok; [|reflexivity].
  destruct (same_conf_fields _ _ Hsc) as (F1 & F2 & F3 & F4 & F5 & F6 & F7 & F8 & F9 & F10 & F11).
  pose proof (space_conf _ _ Hsc) as F12.
  assert (mmap c1 = pre ++ r :: (post ++ z)) as Em1 by (rewrite F6, Em, <- app_assoc; done).
  assert (mmap_num c1 - (0 + zlen pre) = zlen (post ++ z)) as Hcount.
  { rewrite F7, Hn, Ez. rewrite !zlen_app, !zlen_cons. change (zlen (@nil mmap_region_t)) with 0. lia. }
  rewrite Hcount, Em1, Z.add_0_l.
  rewrite Ez, (bind_Ok _ _ _ _ _ (remove_array c1 pre post z1 r zl)), <- Ez.
  assert (pre ++ (post ++ z) ++ [zl] = (pre ++ post) ++ (z ++ [zl])) as -> by (by rewrite <- !app_assoc).
  assert (Forall (λ q, size q = 0) (z ++ [zl])) as Hz'.
  { apply Forall_app. split; [done|]. by constructor. }
  assert (z ++ [zl] ≠ []) as Hzne' by (by destruct z).
  assert (∀ a, a ∈ pre ++ r :: post → size a ≠ 0 ∧ region_end a = rend a - 1
            ∧ region_end_pa a = base_pa a + size a - 1) as Hends.
  { intros a Ha. split; [by apply Hnz|]. by apply (checked_end c), (rg_each _ _ Hok). }
  assert (∀ a, a ∈ pre ++ post → a ∈ pre ++ r :: post) as Hsub by set_solver.
  rewrite F8, F9. destruct Hlim as [Lv Lp].
  erewrite bind_Ok; [|apply max_update with (g := λ a, rend a - 1); try done;
    [intros a Ha%Hsub; by destruct (Hends a Ha) as (? & ? & _)|by apply Hends]].
  erewrite bind_Ok; [|apply max_update with (g := λ a, base_pa a + size a - 1); try done;
    [intros a Ha%Hsub; by destruct (Hends a Ha) as (? & _ & ?)|by apply Hends]].
  eexists (pre ++ post), _. split_and!.
  - symmetry. apply Permutation_middle.
  - reflexivity.
  - split.
    + by apply conf_ok_mmap, (conf_ok_conf c).
    + by apply (el_conf e c c1).
    + cbn. by rewrite F10.
    + split.
      * exists (z ++ [zl]). done.
      * cbn. rewrite F7, <- Hlen, Em.
        rewrite !zlen_app, !zlen_cons. change (zlen (@nil mmap_region_t)) with 0. lia.
      * cbn. rewrite F7. rewrite zlen_app in *. rewrite zlen_cons in Hroom. lia.
      * apply (regions_conf c); [exact F12|exact F5|by eapply regions_remove].
    + done.
    + intros a Ha. apply Hty. set_solver.
    + by apply tables_inv_mmap.
  - intros v d l0 Hin Hm. by eapply Htl2.
  - done.
  - done.
  - done.
  - done.
  - done.
Qed.
End Dynamic.


(** ** Sequences of calls *)

Inductive dyn_op : Set :=
| AddRegion (mm : mmap_region_t)
| RemoveRegion (va s : Z).

Definition run_op (e : xlat_env) (o : dyn_op) : M xlat_ctx Z :=
  match o with
  | AddRegion mm => mmap_add_dynamic_region_ctx e mm
  | RemoveRegion va s => mmap_remove_dynamic_region_ctx e va s
  end.

Fixpoint run_ops (e : xlat_env) (ops : list dyn_op) : M xlat_ctx (list Z) :=
  match ops with
  | [] => mret []
  | o :: ops' => ret ← run_op e o; rets ← run_ops e ops'; mret (ret :: rets)
  end.

Definition error_code (ret : Z) : Prop :=
  ret = - EINVAL ∨ ret = - ERANGE ∨ ret = - ENOMEM ∨ ret = - EPERM.

(** The abstract component: the regions, in no order.  A region that fits is
    added; one that is there and dynamic is removed. *)
Inductive spec_op (c : xlat_ctx) (rs : list mmap_region_t) : dyn_op → Z → list mmap_region_t → Prop :=
| so_add_empty mm : size mm = 0 → spec_op c rs (AddRegion mm) 0 rs
| so_add_error mm ret : size mm ≠ 0 → ¬ admissible c rs (as_dynamic mm) → error_code ret →
    spec_op c rs (AddRegion mm) ret rs
| so_add mm : size mm ≠ 0 → admissible c rs (as_dynamic mm) →
    spec_op c rs (AddRegion mm) 0 (as_dynamic mm :: rs)
| so_remove_none va s : (∀ a, a ∈ rs → ¬ is_at va s a) →
    spec_op c rs (RemoveRegion va s) (- EINVAL) rs
| so_remove_static va s r : r ∈ rs → is_at va s r → dyn r = false →
    spec_op c rs (RemoveRegion va s) (- EPERM) rs
| so_remove va s r rs' : rs ≡ₚ r :: rs' → is_at va s r → dyn r = true →
    spec_op c rs (RemoveRegion va s) 0 rs'.

Inductive spec_ops (c : xlat_ctx) : list mmap_region_t → list dyn_op → list Z →
    list mmap_region_t → Prop :=
| ss_nil rs rs' : rs ≡ₚ rs' → spec_ops c rs [] [] rs'
| ss_cons rs o ret rs1 ops rets rs' : spec_op c rs o ret rs1 → spec_ops c rs1 ops rets rs' →
    spec_ops c rs (o :: ops) (ret :: rets) rs'.

Lemma admissible_perm (c c' : xlat_ctx) (rs rs' : list mmap_region_t) (mm : mmap_region_t) :
  same_limits c c' → rs ≡ₚ rs' → admissible c rs mm ↔ admissible c' rs' mm.
Proof.
  intros (_ & _ & E1 & E2 & E3) Hp. unfold admissible. rewrite E3.
  assert (zlen rs' = zlen rs) as -> by (unfold zlen; by rewrite Hp).
  assert (checked c mm ↔ checked c' mm) as ->.
  { split; intros []; split; rewrite ?E1, ?E2 in *; done. }
  do 2 f_equiv. split; intros H a Ha; apply H; [by rewrite Hp|by rewrite <- Hp].
Qed.

Lemma spec_op_perm (c c' : xlat_ctx) (rs rs0 rs' : list mmap_region_t) (o : dyn_op) (ret : Z) :
  same_limits c c' → rs ≡ₚ rs0 → spec_op c' rs o ret rs' →
  ∃ rs0', spec_op c rs0 o ret rs0' ∧ rs' ≡ₚ rs0'.
Proof.
  intros Hl Hp H. destruct H as [mm Hz|mm ret Hz Hn He|mm Hz Ha|va s Hn|va s r Hr Ha Hd|va s r rs' Hr Ha Hd].
  - exists rs0. split; [by constructor|done].
  - exists rs0. split; [|done]. constructor; [done| |done].
    by rewrite (admissible_perm c c' rs0 rs).
  - exists (as_dynamic mm :: rs0). split; [|by rewrite Hp]. constructor; [done|].
    by rewrite (admissible_perm c c' rs0 rs).
  - exists rs0. split; [|done]. constructor. intros a Hin. apply Hn. by rewrite Hp.
  - exists rs0. split; [|done]. econstructor; [by rewrite <- Hp|done|done].
  - exists rs'. split; [|done]. econstructor; [|done|done]. by rewrite <- Hp.
Qed.

Lemma same_limits_trans (c1 c2 c3 : xlat_ctx) :
  same_limits c1 c2 → same_limits c2 c3 → same_limits c1 c3.
Proof. unfold same_limits. intuition congruence. Qed.

Section Sequences.
Context (e : xlat_env).

(** One call *)
Lemma run_op_spec (c : xlat_ctx) (rs : list mmap_region_t) (o : dyn_op) :
  ctx_inv e c rs →
  match o with
  | AddRegion mm => raw_ok mm ∧ type_ok (attr mm)
      ∧ tables_needed c (as_dynamic mm :: rs) <= tables_num c
  | _ => True
  end →
  ∃ ret rs' c', run_op e o c = Ok (ret, c') ∧ ctx_inv e c' rs' ∧ same_limits c c'
    ∧ ∃ rs1, spec_op c rs o ret rs1 ∧ rs' ≡ₚ rs1.
Proof.
  intros Hinv Ho. destruct o as [mm|va s]; cbn [run_op].
  - destruct Ho as (Hraw & Hty & Hneed). destruct (decide (size mm = 0)) as [Hz|Hnz].
    + exists 0, rs, c. split.
      { unfold mmap_add_dynamic_region_ctx. by rewrite (proj2 (Z.eqb_eq _ _)). }
      split; [done|]. split; [done|]. exists rs. split; [by constructor|done].
    + destruct (add_dynamic_run e c rs mm Hinv Hraw Hty Hnz Hneed)
        as [(err & Hrun & Hna & He)|(Ha & rs' & c' & Hp & Hrun & Hinv' & Hl)].
      * exists err, rs, c. split; [done|]. split; [done|]. split; [done|].
        exists rs. split; [by constructor|done].
      * exists 0, rs', c'. split; [done|]. split; [done|]. split; [exact Hl|].
        exists (as_dynamic mm :: rs). split; [by constructor|done].
  - destruct (remove_run e c rs va s Hinv)
      as [[Hrun Hno]|(r & Hr & Hat & [[Hd Hrun]|(Hd & rs' & c' & Hp & Hrun & Hinv' & _ & Hl)])].
    + exists (- EINVAL), rs, c. split; [done|]. split; [done|]. split; [done|].
      exists rs. split; [by constructor|done].
    + exists (- EPERM), rs, c. split; [done|]. split; [done|]. split; [done|].
      exists rs. split; [by econstructor|done].
    + exists 0, rs', c'. split; [done|]. split; [done|]. split; [exact Hl|].
      exists rs'. split; [by econstructor|done].
Qed.

(** The regions of the additions in a sequence *)
Definition additions (ops : list dyn_op) : list mmap_region_t :=
  omap (λ o, match o with AddRegion mm => Some (as_dynamic mm) | _ => None end) ops.

Definition op_ok (o : dyn_op) : Prop :=
  match o with AddRegion mm => raw_ok mm ∧ type_ok (attr mm) | _ => True end.

Lemma tables_needed_limits (c c' : xlat_ctx) (rs : list mmap_region_t) :
  same_limits c c' → tables_needed c' rs = tables_needed c rs.
Proof.
  intros (_ & El & _). unfold tables_needed. do 2 f_equal. apply list_bind_ext; [|done]. intros r.
  unfold needed. rewrite El. apply list_bind_ext; [|done]. intros l.
  apply list_bind_ext; [|done]. intros p. apply decide_ext. unfold needs. by rewrite El.
Qed.

Lemma spec_op_sub (c : xlat_ctx) (rs rs' : list mmap_region_t) (o : dyn_op) (ret : Z) :
  spec_op c rs o ret rs' → ∀ a, a ∈ rs' → a ∈ rs ++ additions [o].
Proof.
  destruct 1 as [| | | | |va s r rs' Hr]; intros a Ha; cbn; try set_solver.
  apply elem_of_app. left. rewrite Hr. by right.
Qed.

Lemma run_ops_spec (c c0 : xlat_ctx) (rs rs0 : list mmap_region_t) (ops : list dyn_op) :
  ctx_inv e c rs → same_limits c0 c → rs ≡ₚ rs0 → (∀ o, o ∈ ops → op_ok o) →
  tables_needed c (rs ++ additions ops) <= tables_num c →
  ∃ rets rs' c' rs0', run_ops e ops c = Ok (rets, c') ∧ ctx_inv e c' rs' ∧ same_limits c0 c'
    ∧ spec_ops c0 rs0 ops rets rs0' ∧ rs' ≡ₚ rs0'.
Proof.
  revert c rs rs0. induction ops as [|o ops IH]; intros c rs rs0 Hinv Hl Hp Hops Hneed.
  - exists [], rs, c, rs0. split; [done|]. split; [done|]. split; [done|].
    split; [by constructor|done].
  - destruct (run_op_spec c rs o Hinv) as (ret & rs1 & c1 & Hrun & Hinv1 & Hl1 & rs1' & Hspec & Hp1).
    { specialize (Hops o ltac:(left)). destruct o as [mm|]; [|done]. destruct Hops. split_and!; [done..|].
      etrans; [|exact Hneed]. apply tables_needed_sub. cbn. set_solver. }
    destruct (spec_op_perm c0 c rs rs0 rs1' o ret Hl Hp Hspec) as (rs01 & Hspec0 & Hp01).
    destruct (IH c1 rs1 rs01 Hinv1) as (rets & rs' & c' & rs0' & Hrun' & Hinv' & Hl' & Hs' & Hp').
    + by eapply same_limits_trans.
    + by rewrite Hp1.
    + intros o' Ho'. apply Hops. by right.
    + rewrite (tables_needed_limits c c1) by done. destruct Hl1 as (-> & _).
      etrans; [|exact Hneed]. apply tables_needed_sub. intros a [Ha|Ha]%elem_of_app.
      * rewrite Hp1 in Ha. pose proof (spec_op_sub _ _ _ _ _ Hspec a Ha) as Hin.
        unfold additions in *. cbn in Hin |- *. destruct o; cbn in *; set_solver.
      * unfold additions in *. cbn. destruct o; cbn in *; set_solver.
    + exists (ret :: rets), rs', c', rs0'. split.
      { cbn [run_ops]. by rewrite (bind_Ok _ _ _ _ _ Hrun), (bind_Ok _ _ _ _ _ Hrun'). }
      split; [done|]. split; [done|]. split; [by econstructor|done].
Qed.
End Sequences.


(** ** End to end *)

(** The context after initialisation *)
Lemma init_ctx_inv (e : xlat_env) (n m k j : Z) (l : list mmap_region_t) (c1 : xlat_ctx) :
  12 <= k <= 48 → 0 <= j <= 48 → 1 <= n → 0 <= m → cpu_ok e m k j →
  (∀ a, a ∈ l → raw_ok a ∧ granularity a ≠ 0 ∧ type_ok (attr a)) →
  mmap_add (l ++ [null_region]) (registered n m (2 ^ k) (2 ^ j) EL_REGIME_INVALID) = Ok (tt, c1) →
  tables_needed c1 l <= m →
  ∃ c2 rs, init_xlat_tables e c1 = Ok (tt, c2) ∧ ctx_inv e c2 rs ∧ rs ≡ₚ proper l
    ∧ same_limits c1 c2 ∧ tables_num c2 = m ∧ space c2 = 2 ^ k.
Proof.
  intros Hk Hj Hn Hm Hcpu Hl Hadd Hneed.
  destruct (added n m k j l c1 Hk Hj Hn Hl Hadd) as (rs & Ha & Hlm & Hp & Ec).
  destruct (init_end_to_end e n m k j l c1 Hk Hj Hn Hm Hcpu Hl rs Ha Hlm Hp Ec)
    as [[_ Hf]|(c2 & Hrun & Hinv & Har & Hlm2 & Hcf & Hrg & Hi & Hsl & Hel & Hsp & Hnum & Hty)].
  - exfalso. apply (Z.lt_irrefl m). eapply Z.lt_le_trans; [exact Hf|]. etrans; [|exact Hneed].
    apply tables_needed_sub. intros a Hin. by apply (proper_mem l rs Hp).
  - exists c2, rs. split_and!; try done. split; try done. split; [done|lia].
Qed.


(** The regions of [XlatStatic.demo_regions], three sub-tables *)
Definition demo_ctx3 : xlat_ctx :=
  match mmap_add (demo_regions ++ [null_region])
          (registered 4 3 (2 ^ 32) (2 ^ 36) EL_REGIME_INVALID) with
  | Ok (_, c) => c
  | Stop _ => registered 4 3 (2 ^ 32) (2 ^ 36) EL_REGIME_INVALID
  end.
Definition demo_page : mmap_region_t :=
  MAP_REGION 0x70000000 0x60000000 0x1000 (Z.lor MT_DEVICE MT_RW).
Definition demo_ops : list dyn_op :=
  [AddRegion demo_page; AddRegion demo_page; RemoveRegion 0x40000000 0x200000;
   RemoveRegion 0x60000000 0x1000].

Lemma demo_ok (a : mmap_region_t) :
  a ∈ demo_regions → raw_ok a ∧ granularity a ≠ 0 ∧ type_ok (attr a).
Proof. revert a. apply demo_in; (split; [by split_and!|split; [done|by right; right]]). Qed.

Lemma demo_ops_ok (o : dyn_op) : o ∈ demo_ops → op_ok o.
Proof.
  intros Ho%list_elem_of_In. destruct Ho as [<-|[<-|[<-|[<-|[]]]]]; try done;
    (split; [by split_and!|by left]).
Qed.


(** The answers of the calls in [demo_ops] *)
Example demo_rets :
  match (init_xlat_tables demo_env;; run_ops demo_env demo_ops) demo_ctx3 with
  | Ok (rets, _) => rets = [0; - EPERM; - EPERM; 0]
  | Stop _ => False
  end.
Proof. vm_compute. reflexivity. Qed.

(** C35: A removed region leaves nothing in the TLBs: when
    [mmap_remove_dynamic_region()] returns 0, every block or page that mapped an
    address of the region was unmapped, and the TLB entry for its first address
    was invalidated. *)
Theorem xlat_remove_invalidates (e : xlat_env) (c : xlat_ctx) (rs : list mmap_region_t)
    (va s : Z) (c' : xlat_ctx) :
  ctx_inv e c rs → mmap_remove_dynamic_region e va s c = Ok (0, c') →
  ∀ v, va <= v < va + s →
    mapping e c' v = None
    ∧ ∃ d l, mapping e c v = Some (d, l) ∧ v / sz l * sz l ∈ tlbi c'.
Proof.
  intros Hinv Hrun v Hv. unfold mmap_remove_dynamic_region in Hrun.
  destruct (remove_run e c rs va s Hinv)
    as [[H _]|(r & Hr & Hat & [[_ H]|(Hd & rs' & c2 & Hp & H & Hinv' & Htl & Hl)])];
    [rewrite H in Hrun; injection Hrun as Hx _; by vm_compute in Hx..|].
  rewrite Hrun in H. injection H as <-. destruct Hat as [<- <-].
  assert (in_r r v) as Hin by (unfold in_r, rend; lia).
  destruct Hinv as [Hcf _ _ Har _ _ (own & _ & Ht & _)].
  destruct Hinv' as [_ _ _ _ _ _ (own' & _ & Ht' & _)].
  pose proof (ar_ok _ _ Har) as Hok. pose proof (rg_each _ _ Hok r Hr) as Hck.
  assert (0 <= v < space c) as Hs by (destruct Hck; unfold in_r, rend in *; lia).
  assert (∀ o, o ∈ rs' → ¬ in_r o v) as Hno.
  { apply list_elem_of_split in Hr as (pre & post & ->).
    assert (rs' ≡ₚ pre ++ post) as Hp'.
    { apply (Permutation.Permutation_cons_inv (a := r)). rewrite <- Hp.
      symmetry. apply Permutation_middle. }
    intros o Ho Hino. rewrite Hp' in Ho. pose proof (dyn_apart_all c pre post r Hok Hd o Ho).
    unfold apart, in_r in *. lia. }
  destruct Hl as (_ & _ & Es & _). split.
  - specialize (Ht' v). rewrite (proj2 (region_at_None rs' v) Hno) in Ht'. apply Ht'. lia.
  - specialize (Ht v Hs). destruct (region_at rs v) as [q|] eqn:Eq.
    + destruct Ht as ([d l] & Hm & _). exists d, l. split; [done|]. by apply (Htl v d l).
    + exfalso. by apply (proj1 (region_at_None _ _) Eq r).
Qed.

(** The states along the way *)
Definition final {A} (c : xlat_ctx) (o : outcome (A * xlat_ctx)) : xlat_ctx :=
  match o with Ok (_, c') => c' | Stop _ => c end.
Definition demo_c2 : xlat_ctx := final demo_ctx3 (init_xlat_tables demo_env demo_ctx3).
Definition demo_c3 : xlat_ctx := final demo_c2 (mmap_add_dynamic_region_ctx demo_env demo_page demo_c2).
Definition demo_c4 : xlat_ctx :=
  final demo_c3 (mmap_remove_dynamic_region demo_env 0x60000000 0x1000 demo_c3).

Lemma demo_init : init_xlat_tables demo_env demo_ctx3 = Ok (tt, demo_c2).
Proof. vm_compute. reflexivity. Qed.
Lemma demo_added : mmap_add_dynamic_region_ctx demo_env demo_page demo_c2 = Ok (0, demo_c3).
Proof. vm_compute. reflexivity. Qed.
Lemma demo_removed :
  mmap_remove_dynamic_region demo_env 0x60000000 0x1000 demo_c3 = Ok (0, demo_c4).
Proof. vm_compute. reflexivity. Qed.

Lemma Ok_state {A} (a b : A) (c c' : xlat_ctx) : Ok (a, c) = Ok (b, c') → c = c'.
Proof. congruence. Qed.

Lemma Ok_value {A} (a b : A) (c c' : xlat_ctx) : Ok (a, c) = Ok (b, c') → a = b.
Proof. congruence. Qed.

Lemma demo_needed : tables_needed demo_ctx3 (as_dynamic demo_page :: demo_regions) = 3.
Proof. vm_compute. reflexivity. Qed.

Lemma demo_inv2 :
  ∃ rs, ctx_inv demo_env demo_c2 rs ∧ rs ≡ₚ proper demo_regions
    ∧ same_limits demo_ctx3 demo_c2 ∧ tables_num demo_c2 = 3.
Proof.
  destruct (init_ctx_inv demo_env 4 3 32 36 demo_regions demo_ctx3)
    as (c2 & rs & Hrun & Hinv & Hp & Hsl & Hnum & _).
  - lia.
  - lia.
  - lia.
  - lia.
  - by apply demo_cpu.
  - exact demo_ok.
  - vm_compute. reflexivity.
  - vm_compute. congruence.
  - rewrite demo_init in Hrun. apply Ok_state in Hrun. subst c2. exists rs. auto.
Qed.

Lemma demo_inv3 : ∃ rs, ctx_inv demo_env demo_c3 rs.
Proof.
  destruct demo_inv2 as (rs & Hinv & Hp & Hsl & Hnum).
  destruct (demo_ops_ok (AddRegion demo_page) ltac:(left)) as [Hraw Hty].
  assert (tables_needed demo_c2 (as_dynamic demo_page :: rs) <= tables_num demo_c2) as Hneed.
  { rewrite Hnum, (tables_needed_limits demo_ctx3 demo_c2 _ Hsl), <- demo_needed.
    apply tables_needed_sub. intros a [->|Ha]%elem_of_cons; [by left|right].
    by apply (proper_mem demo_regions rs Hp). }
  destruct (add_dynamic_run demo_env demo_c2 rs demo_page Hinv Hraw Hty) as
    [(err & Hadd & _ & Hbad)|(_ & rs1 & c3 & _ & Hadd & Hinv1 & _)]; [done|exact Hneed| |];
    rewrite demo_added in Hadd.
  { apply Ok_value in Hadd. subst err. by destruct Hbad as [H|[H|[H|H]]]. }
  apply Ok_state in Hadd. subst c3.
  by exists rs1.
Qed.

Lemma xlat_remove_invalidates_witness :
  ∃ c rs c', ctx_inv demo_env c rs
    ∧ mmap_remove_dynamic_region demo_env 0x60000000 0x1000 c = Ok (0, c')
    ∧ mapping demo_env c' 0x60000000 = None
    ∧ ∃ d l, mapping demo_env c 0x60000000 = Some (d, l)
        ∧ 0x60000000 / sz l * sz l ∈ tlbi c'.
Proof.
  destruct demo_inv3 as [rs Hinv]. exists demo_c3, rs, demo_c4.
  split; [exact Hinv|]. split; [exact demo_removed|].
  apply (xlat_remove_invalidates demo_env demo_c3 rs 0x60000000 0x1000 demo_c4 Hinv demo_removed).
  lia.
Defined.
