(* ===== verification/XlatChange.v ===== *)
(** * Translation tables: changing attributes

    [xlat_change_mem_attributes()] changes the access rights of a range of
    pages, or refuses and changes nothing. *)

From stdpp Require Import sets.
From S2P Require Import Prelude Bits Xlat XlatWalk XlatDesc XlatTree XlatMap XlatRegions XlatInit.
From S2P Require Import XlatLookup XlatStatic XlatUnmap XlatDyn.

Local Open Scope Z_scope.

Section Change.
Context (e : xlat_env).


(** ** The attributes of a page that is changed *)

Definition change_mask : Z := Z.lor (Z.lor MT_RW MT_EXECUTE_NEVER) MT_USER.

(** The rights come from [a], the rest from [old]. *)
Definition new_attr (old a : Z) : Z := Z.lor (Z.ldiff old change_mask) (Z.land a change_mask).

Lemma effective_type (c : xlat_ctx) (a : Z) : MT_TYPE (effective_attr c a) = MT_TYPE a.
Proof.
  unfold effective_attr. unfold MT_TYPE at 1. rewrite !Z.land_lor_distr_l.
  assert (∀ (b : bool) x, Z.land x MT_TYPE_MASK = 0 → Z.land (if b then x else 0) MT_TYPE_MASK = 0) as H.
  { intros [] x Hx; [done|by rewrite Z.land_0_l]. }
  rewrite !H by done. rewrite !Z.lor_0_r. unfold MT_TYPE. rewrite <- Z.land_assoc. done.
Qed.

Lemma new_type (c : xlat_ctx) (a b : Z) : type_ok a → type_ok (new_attr (effective_attr c a) b).
Proof.
  unfold type_ok. assert (MT_TYPE (new_attr (effective_attr c a) b) = MT_TYPE a) as ->; [|done].
  rewrite <- (effective_type c a). unfold MT_TYPE, new_attr. rewrite Z.land_lor_distr_l.
  rewrite <- (Z.land_assoc b). change (Z.land change_mask MT_TYPE_MASK) with 0.
  rewrite Z.land_0_r, Z.lor_0_r. apply Z.bits_inj'. intros n Hn.
  rewrite !Z.land_spec, Z.ldiff_spec. destruct (Z.testbit MT_TYPE_MASK n) eqn:E; [|by rewrite !andb_false_r].
  assert (Z.testbit change_mask n = false) as ->; [|by rewrite andb_true_r].
  assert (Z.testbit (Z.land change_mask MT_TYPE_MASK) n = false) as Hz by (apply Z.bits_0).
  rewrite Z.land_spec, E, andb_true_r in Hz. done.
Qed.

(** [w] was mapped by a page and has new rights. *)
Definition changed_at (a : Z) (c c' : xlat_ctx) (w : Z) : Prop :=
  ∃ b pa, type_ok b ∧ (4096 | pa) ∧ 0 <= pa < 2 ^ 48
    ∧ mapping e c w = Some (desc_val e c b pa 3, 3)
    ∧ mapping e c' w = Some (desc_val e c (new_attr (effective_attr c b) a) pa 3, 3).

Lemma sz3 : sz 3 = 4096.
Proof. done. Qed.

(** A walk comes past every table the address belongs to. *)
Lemma W_reach (fr : option Z) (own : Z → option (Z * Z)) (c : xlat_ctx) (t : tref) (l p va : Z) :
  wf e fr own c → pos own c t = Some (l, p) → va / sz (l - 1) = p → mapping e c va = W e c t l va.
Proof.
  intros Hw. remember (Z.to_nat (l - base_level c)) as n eqn:Hn. revert t l p Hn.
  induction n as [|n IH]; intros t l p Hn Ht Hp;
    pose proof (pos_level _ _ _ _ _ _ _ Hw Ht) as [Hl Hp0].
  - destruct t as [|i]; cbn in Ht; [by simplify_eq|].
    pose proof (wf_own _ _ _ _ Hw _ _ _ Ht). lia.
  - destruct t as [|i]; cbn in Ht; [simplify_eq; lia|].
    destruct (wf_par _ _ _ _ Hw _ _ _ Ht) as (u & Hu & Eu).
    pose proof (wf_own _ _ _ _ Hw _ _ _ Ht) as (Hi & _).
    rewrite (IH u (l - 1) (p / 512) ltac:(lia) Hu) by (rewrite <- Hp; symmetry; by apply div_up; lia).
    rewrite (W_table e fr own c u (l - 1) (p / 512) (p mod 512) i va Hw Hu).
    + by replace (l - 1 + 1) with l by lia.
    + rewrite Hp. apply Z.div_mod. lia.
    + apply Z.mod_pos_bound. lia.
    + lia.
    + done.
    + done.
Qed.

(** Addresses of one page are translated together. *)
Lemma W_page (c : xlat_ctx) (t : tref) (l v w : Z) :
  0 <= l <= 3 → w / 4096 = v / 4096 → W e c t l w = W e c t l v.
Proof.
  intros Hl E. assert (∀ l', l' <= 3 → w / sz l' = v / sz l') as Hd.
  { intros l' Hl'. destruct (sz_page l' Hl') as [x Hx]. pose proof (sz_pos l' Hl').
    rewrite Hx, Z.mul_comm, <- !Z.div_div by lia. by rewrite E. }
  unfold W. remember (Z.to_nat (4 - l)) as n eqn:Hn. revert t l Hl Hn.
  induction n as [|n IH]; intros t l Hl Hn; [done|]. cbn [walk]. rewrite Hd by lia.
  destruct (entry c t _) as [d|]; [|done]. cbn.
  destruct (Z.land d DESC_MASK =? INVALID_DESC); [done|].
  destruct (Z.eqb_spec l 3); [done|]. destruct (Z.land d DESC_MASK =? BLOCK_DESC); [done|].
  destruct (table_at e c _); [|done]. cbn. apply IH; lia.
Qed.

(** One page *)
Lemma change_page (own : Z → option (Z * Z)) (c : xlat_ctx) (n : nat) (v a d : Z) :
  in_use e own c → el_ok e c → 0 <= v < space c → mapping e c v = Some (d, 3) →
  ∃ c1, change_pages e (S n) v a c = change_pages e n (u64 (v + PAGE_SIZE)) a c1
    ∧ same_conf c c1 ∧ in_use e own c1
    ∧ ∀ w, 0 <= w < space c →
        if decide (w / 4096 = v / 4096) then changed_at a c c1 w
        else mapping e c1 w = mapping e c w.
Proof.
  intros Hin Hel Hv Hm. pose proof (lookup_in_use e own c v Hin Hv) as Hlk. rewrite Hm in Hlk.
  destruct Hlk as (t & k & p & b & pa & Hrun & Hd & Ht & Hk & Hk' & Hlf & Hnz & Hb & Hpg & Hpa & Hal & Ed).
  destruct Hin as [Hw Hcf Hreg Hinit Hds]. rewrite sz3 in *.
  set (d' := desc_val e c (new_attr (effective_attr c b) a) pa 3).
  set (c0 := with_tlbi (put_entry c t k 0) v). set (c1 := put_entry c0 t k d').
  assert (same_conf c c0) as Hs0 by (apply (put_entry_conf c t k 0)).
  assert (same_conf c c1) as Hs1.
  { eapply same_conf_trans; [exact Hs0|apply put_entry_conf]. }
  assert (entry c0 t k = Some 0) as Hd0 by (by apply (entry_put_eq c t k 0 d)).
  assert (Z.land d' DESC_MASK = PAGE_DESC) as Hty'.
  { unfold d'. by rewrite desc_val_type by (done || by apply new_type). }
  assert (wf e None own c0) as Hw0.
  { apply wf_tlbi. eapply wf_put_leaf; [done|exact Ht|exact Hd|done|by left]. }
  assert (wf e None own c1) as Hw1.
  { eapply wf_put_leaf; [done|by rewrite (pos_conf _ c)|exact Hd0|by left|by right; right]. }
  exists c1. split; [|split; [done|]].
  { cbn [change_pages]. rewrite (bind_Ok _ _ _ _ _ Hrun). cbn [snd mi_entry mi_attr mi_pa mi_level].
    erewrite bind_Ok; [|reflexivity]. rewrite (bind_Ok _ _ _ _ _ (put_entry_run c t k _ d Hd)).
    erewrite bind_Ok; cycle 1.
    { apply tlbi_run; [by apply (el_conf e c), Hel|].
      by destruct (same_conf_fields _ _ (put_entry_conf c t k INVALID_DESC)) as (_ & _ & -> & _). }
    fold c0. fold change_mask. fold (new_attr (effective_attr c b) a). erewrite bind_Ok; cycle 1.
    { apply xlat_desc_run; [by eapply conf_regime|by apply new_type|].
      rewrite mask_mod by lia. by rewrite sz3. }
    rewrite (conf_desc e c c0) by done. fold d'.
    by rewrite (bind_Ok _ _ _ _ _ (put_entry_run c0 t k d' 0 Hd0)). }
  assert (∀ w, 0 <= w < space c → w / 4096 = v / 4096 →
            mapping e c w = Some (d, 3) ∧ mapping e c1 w = Some (d', 3)) as Hsame.
  { intros w Hws E. pose proof (wf_lvl _ _ _ _ Hw) as Hl. pose proof (wf_lvl _ _ _ _ Hw1) as Hl1.
    assert (∀ x, 0 <= base_level x <= 3 → mapping e x w = mapping e x v) as Hpage
      by (intros x Hx; by apply W_page).
    rewrite !Hpage by done. split; [done|].
    assert (pos own c1 t = Some (3, p)) as Ht1 by (by rewrite (pos_conf _ c)).
    rewrite (W_reach None own c1 t 3 p v Hw1 Ht1).
    - eapply W_leaf; [exact Hw1|exact Ht1|by rewrite sz3|done|by eapply entry_put_eq|by left].
    - rewrite <- (div_up v 3) by lia. rewrite sz3, Hk.
      rewrite (Z.mul_comm 512 p), Z.div_add_l by lia. rewrite Z.div_small by lia. lia. }
  assert (∀ w, 0 <= w < space c → w / 4096 ≠ v / 4096 → mapping e c1 w = mapping e c w) as Hother.
  { intros w Hws Hne. unfold mapping. rewrite (same_conf_level _ _ Hs1).
    pose proof (wf_lvl _ _ _ _ Hw) as Hl. pose proof (wf_base _ _ _ _ Hw) as [_ Hbe].
    pose proof (sz_pos (base_level c) ltac:(lia)).
    apply (W_frame e None own c c1 BaseT (base_level c) 0 w Hw Hs1 eq_refl).
    - rewrite <- div_up by lia. apply Z.div_small. unfold space in Hws.
      split; [apply Z.div_pos; lia|apply Z.div_lt_upper_bound; nia].
    - intros t' l' p' k' Ht' _ Hk2 Hw'.
      assert (t ≠ t' ∨ k ≠ k') as Hne'.
      { destruct (decide (t = t')) as [<-|]; [|by left]. right. intros <-. rewrite Ht in Ht'.
        simplify_eq. rewrite sz3 in Hw'. lia. }
      unfold c1. rewrite entry_put_ne by done.
      change (entry (put_entry c t k 0) t' k' = entry c t' k'). by apply entry_put_ne. }
  split.
  - split; [done|by eapply conf_ok_conf|by eapply conf_regime| |].
    + destruct (same_conf_fields _ _ Hs1) as (_ & _ & _ & _ & _ & _ & _ & _ & _ & -> & _). done.
    + intros w x l. rewrite (space_conf c c1 Hs1). intros Hws Hmw.
      destruct (decide (w / 4096 = v / 4096)) as [E|Hne].
      * destruct (Hsame w Hws E) as [_ E1]. rewrite Hmw in E1. simplify_eq.
        exists (new_attr (effective_attr c b) a), pa. rewrite sz3, (conf_desc e c c1) by done.
        split_and!; try done; try lia. by apply new_type.
      * rewrite Hother in Hmw by done. destruct (Hds w x l Hws Hmw) as (b' & pa' & H).
        exists b', pa'. by rewrite (conf_desc e c c1).
  - intros w Hws. case_decide as E; [|by apply Hother].
    exists b, pa. destruct (Hsame w Hws E) as [E0 E1]. rewrite E0, E1, Ed. done.
Qed.

(** ** The sanity checks *)

(** The address is mapped by a page, and not by device memory that would
    become executable. *)
Definition page_ok (a : Z) (c : xlat_ctx) (v : Z) : Prop :=
  ∃ i, xlat_get_mem_attributes_internal e v c = Ok ((0, Some i), c) ∧ mi_level i = 3
    ∧ ¬ (MT_TYPE (mi_attr i) = MT_DEVICE ∧ has a MT_EXECUTE_NEVER = false).

Lemma desc_device (c : xlat_ctx) (a pa l : Z) :
  regime_ok c → type_ok a → (4096 | pa) →
  (Z.land (Z.shiftr (desc_val e c a pa l) ATTR_INDEX_SHIFT) ATTR_INDEX_MASK =? ATTR_DEVICE_INDEX)
  = (MT_TYPE a =? MT_DEVICE).
Proof.
  intros Hr Ha Hpg. rewrite shiftr_land by done. rewrite desc_low by (done || (vm_compute; intuition congruence)).
  unfold flags_of. rewrite flags_attr_index by done. by destruct Ha as [-> | [-> | ->]].
Qed.

Lemma check_pages_run (own : Z → option (Z * Z)) (c : xlat_ctx) (n : nat) (v a : Z) :
  in_use e own c → 0 <= v → v + 4096 * Z.of_nat n <= space c →
  ∃ b, check_pages e n v (u64 (va_max_address c + 1)) a c = Ok (b, c)
    ∧ (b = true ↔ ∀ i, 0 <= i < Z.of_nat n → page_ok a c (v + 4096 * i)).
Proof.
  intros Hin. revert v. induction n as [|n IH]; intros v Hv Hend.
  { exists true. split; [done|]. split; [|done]. intros _ i Hi. lia. }
  pose proof (cf_le _ (iu_conf _ _ _ Hin)) as Hle.
  assert (0 <= v < space c) as Hvs by lia.
  pose proof (lookup_in_use e own c v Hin Hvs) as Hlk.
  destruct (find_entry_run e None own c v (iu_wf _ _ _ Hin) (iu_conf _ _ _ Hin) Hvs) as (res & Hrun & Hres).
  cbn [check_pages]. rewrite (bind_Ok _ _ _ _ _ Hrun).
  assert (∀ b : bool, (¬ page_ok a c v) → b = false →
    (b = true ↔ ∀ i, 0 <= i < Z.of_nat (S n) → page_ok a c (v + 4096 * i))) as Hbad.
  { intros b Hno ->. split; [done|]. intros H. destruct Hno. specialize (H 0 ltac:(lia)).
    by rewrite Z.add_0_r in H. }
  destruct res as [[[t k] l]|]; cycle 1.
  { rewrite Hres in Hlk. exists false. split; [done|]. apply Hbad; [|done].
    intros (i & Hi & _). rewrite Hlk in Hi. done. }
  destruct Hres as (d & p & Hd & Hm & Hpos & _ & _ & Hlf & Hnz). rewrite Hm in Hlk.
  destruct Hlk as (t' & k' & p' & b & pa & Hlook & Hd' & _ & _ & _ & _ & _ & Hb & Hpg & Hpa & Hal & Ed).
  rewrite (bind_Ok _ _ _ _ _ (read_entry_run c t k d Hd)).
  assert (page_ok a c v ↔ l = 3 ∧ ¬ (MT_TYPE b = MT_DEVICE ∧ has a MT_EXECUTE_NEVER = false)) as Hpo.
  { unfold page_ok. rewrite Hlook. split.
    - intros (i & Hi & Hl & Hx). injection Hi as <-. cbn in *. by rewrite effective_type in Hx.
    - intros [Hl Hx]. eexists. split; [done|]. cbn. by rewrite effective_type. }
  pose proof (pos_level _ _ _ _ _ _ _ (iu_wf _ _ _ Hin) Hpos) as [Hll _].
  rewrite Ed, desc_device by (done || apply Hin).
  rewrite desc_val_type by (done || apply Hin).
  destruct (Z.eqb_spec l 3) as [->|Hl3]; cbn [negb orb].
  2:{ change (negb (BLOCK_DESC =? PAGE_DESC)) with true. cbn [orb]. exists false. split; [done|].
      apply Hbad; [|done]. rewrite Hpo. lia. }
  change (negb (PAGE_DESC =? PAGE_DESC)) with false.
  change (negb (3 =? XLAT_TABLE_LEVEL_MAX)) with false. cbn [orb].
  destruct ((MT_TYPE b =? MT_DEVICE) && (Z.land a MT_EXECUTE_NEVER =? 0)) eqn:Edev.
  { exists false. split; [done|]. apply Hbad; [|done]. rewrite Hpo. intros [_ Hx]. apply Hx.
    unfold has. apply andb_true_iff in Edev as [H1 ->]. split; [lia|done]. }
  change PAGE_SIZE with 4096. rewrite u64_va by lia.
  destruct (IH (v + 4096)) as (b' & Hrun' & Hiff); [lia|lia|]. exists b'. split; [done|].
  rewrite Hiff. split.
  - intros H i Hi. destruct (decide (i = 0)) as [->|Hne].
    + rewrite Z.mul_0_r, Z.add_0_r, Hpo. split; [done|]. unfold has. intros [H1 H2].
      apply negb_false_iff in H2. rewrite H1, H2 in Edev. done.
    + replace (v + 4096 * i) with (v + 4096 + 4096 * (i - 1)) by lia. apply H. lia.
  - intros H i Hi. replace (v + 4096 + 4096 * i) with (v + 4096 * (i + 1)) by lia. apply H. lia.
Qed.

(** ** All the pages *)

Lemma changed_trans (a : Z) (c c1 c' : xlat_ctx) (w : Z) :
  same_conf c c1 → mapping e c1 w = mapping e c w → changed_at a c1 c' w → changed_at a c c' w.
Proof.
  intros Hs E (b & pa & Hb & Hpg & Hpa & H1 & H2). exists b, pa.
  assert (effective_attr c1 b = effective_attr c b) as Ee.
  { unfold effective_attr. by destruct (same_conf_fields _ _ Hs) as (_ & _ & -> & _). }
  rewrite !(conf_desc e c c1) in H1, H2 by done. rewrite Ee in H2. rewrite <- E. done.
Qed.

Lemma change_pages_run (own : Z → option (Z * Z)) (n : nat) (c : xlat_ctx) (v a : Z) :
  in_use e own c → el_ok e c → (4096 | v) → 0 <= v → v + 4096 * Z.of_nat n <= space c →
  (∀ i, 0 <= i < Z.of_nat n → ∃ d, mapping e c (v + 4096 * i) = Some (d, 3)) →
  ∃ c', change_pages e n v a c = Ok (tt, c') ∧ same_conf c c' ∧ in_use e own c'
    ∧ ∀ w, 0 <= w < space c →
        if decide (v <= w < v + 4096 * Z.of_nat n) then changed_at a c c' w
        else mapping e c' w = mapping e c w.
Proof.
  revert c v. induction n as [|n IH]; intros c v Hin Hel Hdv Hv Hend Hmap.
  { exists c. split_and!; [done|done|done|]. intros w _. rewrite decide_False by lia. done. }
  destruct (Hmap 0 ltac:(lia)) as [d Hd]. rewrite Z.mul_0_r, Z.add_0_r in Hd.
  pose proof (cf_le _ (iu_conf _ _ _ Hin)) as Hle.
  destruct (change_page own c n v a d Hin Hel ltac:(lia) Hd) as (c1 & Hrun & Hs & Hin1 & Hw1).
  assert (∀ w, w / 4096 = v / 4096 ↔ v <= w < v + 4096) as Hpg.
  { intros w. destruct Hdv as [x ->]. rewrite Z.div_mul by lia. rewrite div_range by lia. lia. }
  change PAGE_SIZE with 4096 in Hrun. rewrite u64_va in Hrun by lia.
  destruct (IH c1 (v + 4096)) as (c' & Hrun' & Hs' & Hin' & Hw').
  - done.
  - by eapply el_conf.
  - apply Z.divide_add_r; [done|by exists 1].
  - lia.
  - rewrite (space_conf c c1 Hs). lia.
  - intros i Hi. specialize (Hw1 (v + 4096 + 4096 * i) ltac:(lia)).
    rewrite decide_False in Hw1 by (rewrite Hpg; lia). rewrite Hw1.
    replace (v + 4096 + 4096 * i) with (v + 4096 * (i + 1)) by lia. apply Hmap. lia.
  - exists c'. split_and!; [by rewrite Hrun|by eapply same_conf_trans|done|].
    intros w Hws. specialize (Hw1 w Hws). rewrite (space_conf c c1 Hs) in Hw'. specialize (Hw' w Hws).
    destruct (decide (v + 4096 <= w < v + 4096 + 4096 * Z.of_nat n)) as [H1|H1].
    + rewrite decide_True by lia. rewrite decide_False in Hw1 by (rewrite Hpg; lia).
      by apply (changed_trans a c c1 c' w).
    + destruct (decide (w / 4096 = v / 4096)) as [E|E].
      * rewrite decide_True by (apply Hpg in E; lia).
        destruct Hw1 as (b & pa & ? & ? & ? & ? & H2). exists b, pa. rewrite Hw'. done.
      * rewrite decide_False by (rewrite Hpg in E; lia). by rewrite Hw', Hw1.
Qed.

(** ** The lookup before and after *)

(** The lookup of an address that is mapped, given its descriptor *)
Lemma lookup_desc (own : Z → option (Z * Z)) (c : xlat_ctx) (w a pa l : Z) :
  in_use e own c → 0 <= w < space c → type_ok a → (4096 | pa) → 0 <= pa < 2 ^ 48 →
  mapping e c w = Some (desc_val e c a pa l, l) →
  ∃ t k p, xlat_get_mem_attributes_internal e w c
      = Ok ((0, Some {| mi_attr := effective_attr c a; mi_entry := (t, k); mi_pa := pa;
                        mi_level := l |}), c)
    ∧ pos own c t = Some (l, p) ∧ w / sz l = 512 * p + k ∧ 0 <= k < 512.
Proof.
  intros Hin Hw Ha Hpg Hpa Hm. pose proof (lookup_in_use e own c w Hin Hw) as Hlk. rewrite Hm in Hlk.
  destruct Hlk as (t & k & p & a' & pa' & Hrun & _ & Ht & Hk & Hk' & _ & _ & Ha' & Hpg' & Hpa' & _ & Ed).
  destruct (desc_val_inj e c a a' pa pa' l) as [<- ->]; [apply Hin|done..|].
  by exists t, k, p.
Qed.

(** The entry is found at the same place while the tables keep their shape. *)
Lemma entry_place (own : Z → option (Z * Z)) (c c' : xlat_ctx) (t t' : tref) (l p p' k k' w : Z) :
  in_use e own c → same_conf c c' → pos own c t = Some (l, p) → pos own c' t' = Some (l, p') →
  w / sz l = 512 * p + k → w / sz l = 512 * p' + k' → 0 <= k < 512 → 0 <= k' < 512 →
  t = t' ∧ k = k'.
Proof.
  intros Hin Hs Ht Ht' E E' Hk Hk'. assert (p = p' ∧ k = k') as [-> ->] by lia. split; [|done].
  rewrite (pos_conf _ c c') in Ht' by done. eapply (pos_inj e); [apply Hin|done|done].
Qed.

Lemma effective_conf (c c' : xlat_ctx) (a : Z) :
  same_conf c c' → effective_attr c' a = effective_attr c a.
Proof.
  intros Hs. unfold effective_attr. by destruct (same_conf_fields _ _ Hs) as (_ & _ & -> & _).
Qed.

Lemma lookup_unchanged (own : Z → option (Z * Z)) (c c' : xlat_ctx) (w : Z) :
  in_use e own c → in_use e own c' → same_conf c c' → 0 <= w < space c →
  mapping e c' w = mapping e c w →
  ∃ res, xlat_get_mem_attributes_internal e w c = Ok (res, c)
    ∧ xlat_get_mem_attributes_internal e w c' = Ok (res, c').
Proof.
  intros Hin Hin' Hs Hw Hm. assert (0 <= w < space c') as Hw' by (by rewrite (space_conf c c' Hs)).
  pose proof (lookup_in_use e own c w Hin Hw) as Hlk.
  destruct (mapping e c w) as [[d l]|] eqn:Ew.
  - destruct Hlk as (t & k & p & a & pa & Hrun & _ & Ht & Hk & Hk' & _ & _ & Ha & Hpg & Hpa & _ & Ed).
    destruct (lookup_desc own c' w a pa l Hin' Hw' Ha Hpg Hpa) as (t' & k' & p' & Hrun' & Ht' & Hk1 & Hk2).
    { by rewrite (conf_desc e c c'), <- Ed. }
    destruct (entry_place own c c' t t' l p p' k k' w) as [<- <-]; [done..|].
    rewrite (effective_conf c c') in Hrun' by done. eauto.
  - pose proof (lookup_in_use e own c' w Hin' Hw') as Hlk'. rewrite Hm in Hlk'. eauto.
Qed.

Lemma lookup_changed (own : Z → option (Z * Z)) (c c' : xlat_ctx) (w a : Z) :
  in_use e own c → in_use e own c' → same_conf c c' → 0 <= w < space c → changed_at a c c' w →
  ∃ i i', xlat_get_mem_attributes_internal e w c = Ok ((0, Some i), c)
    ∧ xlat_get_mem_attributes_internal e w c' = Ok ((0, Some i'), c')
    ∧ mi_attr i' = effective_attr c (new_attr (mi_attr i) a)
    ∧ mi_entry i' = mi_entry i ∧ mi_pa i' = mi_pa i ∧ mi_level i' = mi_level i.
Proof.
  intros Hin Hin' Hs Hw (b & pa & Hb & Hpg & Hpa & H1 & H2).
  assert (0 <= w < space c') as Hw' by (by rewrite (space_conf c c' Hs)).
  destruct (lookup_desc own c w b pa 3 Hin Hw Hb Hpg Hpa H1) as (t & k & p & R1 & Ht & Hk & Hk').
  destruct (lookup_desc own c' w (new_attr (effective_attr c b) a) pa 3 Hin' Hw') as
    (t' & k' & p' & R2 & Ht' & Hk1 & Hk2); [by apply new_type|done|done|by rewrite (conf_desc e c c')|].
  destruct (entry_place own c c' t t' 3 p p' k k' w) as [<- <-]; [done..|].
  rewrite (effective_conf c c') in R2 by done. do 2 eexists. split; [exact R1|]. split; [exact R2|]. done.
Qed.

(** ** The whole call *)

(** What the call needs to go ahead *)
Definition change_ok (va s a : Z) (c : xlat_ctx) : Prop :=
  (4096 | va) ∧ s ≠ 0 ∧ (4096 | s) ∧ ¬ (has a MT_EXECUTE_NEVER = false ∧ has a MT_RW = true)
  ∧ ∀ i, 0 <= i < s / 4096 → page_ok a c (va + 4096 * i).

#[local] Instance page_decision (x : Z) : Decision (4096 | x).
Proof. refine (cast_if (decide (x mod 4096 = 0))); by rewrite <- Z.mod_divide. Defined.

(** The guards of the call, and the two loops *)
Lemma change_guards (va s a : Z) (c : xlat_ctx) :
  conf_ok c → initialized c = true → 0 <= s →
  xlat_change_mem_attributes e va s a c
  = if bool_decide ((4096 | va) ∧ s ≠ 0 ∧ (4096 | s)
                    ∧ ¬ (has a MT_EXECUTE_NEVER = false ∧ has a MT_RW = true))
    then (ok ← check_pages e (Z.to_nat (s / 4096)) va (u64 (va_max_address c + 1)) a;
          if negb ok then mret (- EINVAL)
          else change_pages e (Z.to_nat (s / 4096)) va a;; mret 0) c
    else Ok (- EINVAL, c).
Proof.
  intros Hcf Hi Hs. pose proof (cf_space _ Hcf) as Hsp. pose proof (cf_le _ Hcf) as Hle.
  unfold xlat_change_mem_attributes, xlat_change_mem_attributes_ctx.
  erewrite bind_Ok; [|reflexivity]. rewrite Hi. erewrite bind_Ok; [|reflexivity]. cbv zeta.
  assert ((0 <? u64 (va_max_address c + 1)) = true) as ->.
  { rewrite Hsp, u64_va by lia. apply Z.ltb_lt. lia. }
  erewrite bind_Ok; [|reflexivity].
  destruct (IS_PAGE_ALIGNED va) eqn:Eva; cbn [negb].
  2:{ rewrite bool_decide_eq_false_2; [done|]. rewrite <- page_aligned, Eva. naive_solver. }
  destruct (Z.eqb_spec s 0) as [Ez|Hnz].
  { rewrite bool_decide_eq_false_2; [done|]. naive_solver. }
  change PAGE_SIZE with 4096. destruct (Z.eqb_spec (s mod 4096) 0) as [Em|Em]; cbn [negb].
  2:{ rewrite bool_decide_eq_false_2; [done|]. intros (_ & _ & Hd & _). apply Em.
      by apply Z.mod_divide. }
  destruct ((Z.land a MT_EXECUTE_NEVER =? 0) && has a MT_RW) eqn:Ex.
  { apply andb_true_iff in Ex as [E1 E2]. rewrite bool_decide_eq_false_2; [done|].
    intros (_ & _ & _ & Hx). apply Hx. split; [|done]. unfold has. by rewrite E1. }
  rewrite bool_decide_eq_true_2; [done|]. rewrite <- page_aligned. split_and!; [done|done| |].
  - by apply Z.mod_divide.
  - intros [E1 E2]. unfold has in E1. apply negb_false_iff in E1. by rewrite E1, E2 in Ex.
Qed.
End Change.


(** The page of [XlatDyn.demo_page] becomes read-only. *)
Lemma demo_change_ok : change_ok demo_env 0x60000000 0x1000 MT_EXECUTE_NEVER demo_c3.
Proof.
  split_and!; [by exists 0x60000|done|by exists 1|by intros [H _]|].
  intros i Hi. change (0x1000 / 4096) with 1 in Hi. assert (i = 0) as -> by lia.
  eexists. split; [vm_compute; reflexivity|]. split; [done|]. by intros [_ H].
Qed.

Lemma demo_space : space demo_c3 = 2 ^ 32.
Proof. vm_compute. reflexivity. Qed.

