(* ===== verification/XlatLimits.v ===== *)
(** * Translation tables: allocated addresses, and where the code falls short

    The virtual address the library chooses for a region; and cases in which
    it does not do what it means to: a context without regions, an address
    outside the address space, a dynamic region for which the tables run
    out. *)

From stdpp Require Import sets.
From S2P Require Import Prelude Bits Xlat XlatWalk XlatDesc XlatTree XlatMap XlatRegions XlatInit.
From S2P Require Import XlatLookup XlatStatic XlatUnmap XlatDyn.

Local Open Scope Z_scope.

(** ** Choosing an address *)

Lemma align_loop_run (n : nat) (l check : Z) (mm : mmap_region_t) :
  0 <= l → l + Z.of_nat n <= 3 → 0 <= base_va mm <= 2 ^ 48 →
  let va := base_va (align_loop n l check mm) in
  (∃ l', l <= l' < l + Z.of_nat n ∧ check mod sz l' = 0 ∧ va = align_up (base_va mm) (sz l')
     ∧ ∀ i, l <= i < l' → check mod sz i ≠ 0)
  ∨ (va = base_va mm ∧ ∀ i, l <= i < l + Z.of_nat n → check mod sz i ≠ 0).
Proof.
  revert l. induction n as [|n IH]; intros l Hl Hn Hva; cbv zeta; cbn [align_loop].
  { right. split; [done|]. lia. }
  rewrite mask_mod by lia. destruct (Z.eqb_spec (check mod sz l) 0) as [E|E]; cbn [negb].
  - left. exists l. split; [lia|]. split; [done|]. split; [|lia]. cbn [base_va].
    change (XLAT_BLOCK_SIZE l) with (sz l). pose proof (sz_pow l ltac:(lia)) as Hsz.
    pose proof (sz_le_48 l ltac:(lia)). pose proof (sz_pos l ltac:(lia)).
    pose proof (align_up_spec (base_va mm) (sz l) ltac:(lia)) as [Hb _].
    rewrite Hsz in *. apply round_up_pow2; [lia|unfold in_width; lia|unfold UINT64_MAX; lia].
  - destruct (IH (l + 1)) as [(l' & H1 & H2 & H3 & H4)|[H1 H2]]; [lia|lia|done| |].
    + left. exists l'. split_and!; [lia|lia|done|done|]. intros i Hi.
      destruct (decide (i = l)) as [->|]; [done|]. apply H4. lia.
    + right. split; [done|]. intros i Hi. destruct (decide (i = l)) as [->|]; [done|]. apply H2. lia.
Qed.

Lemma lor_mod (x y l : Z) : l <= 3 → Z.lor x y mod sz l = 0 ↔ (sz l | x) ∧ (sz l | y).
Proof.
  intros Hl. pose proof (sz_pos l Hl). rewrite <- !Z.mod_divide by lia.
  rewrite <- !mask_mod, Z.land_lor_distr_l by done. rewrite Z.lor_eq_0_iff. done.
Qed.

Lemma max_over_ge (f : mmap_region_t → Z) (rs : list mmap_region_t) (r : mmap_region_t) :
  r ∈ rs → f r <= max_over f rs.
Proof.
  unfold max_over. induction rs as [|x rs IH]; [by intros ?%not_elem_of_nil|].
  cbn. intros [->|Hr]%elem_of_cons; [lia|]. specialize (IH Hr). lia.
Qed.

(** The highest end is that of some region. *)
Lemma max_over_in (f : mmap_region_t → Z) (rs : list mmap_region_t) :
  rs ≠ [] → (∀ r, r ∈ rs → 0 <= f r) → ∃ r, r ∈ rs ∧ max_over f rs = f r.
Proof.
  unfold max_over. induction rs as [|x rs IH]; [done|]. intros _ Hf. cbn.
  destruct rs as [|y rs].
  - exists x. split; [left|]. cbn. specialize (Hf x ltac:(left)). lia.
  - destruct IH as (r & Hr & E); [done|intros; apply Hf; by right|].
    destruct (Z.max_spec (f x) (foldr (λ r m, Z.max (f r) m) 0 (y :: rs))) as [[? ->]|[? ->]].
    + exists r. split; [by right|done].
    + exists x. split; [left|done].
Qed.




(** In a context without regions the address is 1, unless the region can be
    mapped with blocks of level 2 or above: the dynamic variant then refuses
    any region. *)
Theorem xlat_alloc_va_empty (e : xlat_env) (c : xlat_ctx) (pa s a : Z) :
  ctx_inv e c [] → s ≠ 0 →
  (∀ l, base_level c <= l <= 2 → ¬ ((sz l | pa) ∧ (sz l | s))) →
  mmap_add_dynamic_region_alloc_va e pa s a c = Ok ((- EINVAL, 1), c).
Proof.
  intros Hinv Hs Hno. destruct (ci_lim _ _ _ Hinv) as [Hv _]. unfold max_over in Hv. cbn in Hv.
  destruct (ci_tabs _ _ _ Hinv) as (own & Hw & _). pose proof (wf_lvl _ _ _ _ Hw) as Hl.
  unfold mmap_add_dynamic_region_alloc_va, mmap_add_dynamic_region_alloc_va_ctx.
  erewrite bind_Ok; [|reflexivity]. rewrite Hv. cbv zeta.
  change (size (at_va (MAP_REGION pa 0 s a) (u64 (0 + 1)))) with s.
  rewrite (proj2 (Z.eqb_neq s 0)) by done.
  set (m := at_va (MAP_REGION pa 0 s a) (u64 (0 + 1))).
  assert (mmap_alloc_va_align_ctx c m = m) as ->.
  { unfold mmap_alloc_va_align_ctx.
    assert (∀ n l, 0 <= l → base_level c <= l → l + Z.of_nat n <= 3 →
              align_loop n l (Z.lor (base_pa m) (size m)) m = m) as H.
    { intros n. induction n as [|n IH]; intros l Hl0 Hlb Hn; [done|]. cbn [align_loop].
      rewrite mask_mod by lia. rewrite (proj2 (Z.eqb_neq _ _)); [cbn [negb]; apply IH; lia|].
      intros E. apply lor_mod in E; [|lia]. apply (Hno l); [lia|done]. }
    apply H; lia. }
  change (base_va m) with 1. change (1 <? 0) with false. cbv iota.
  erewrite bind_Ok; [reflexivity|]. unfold mmap_add_dynamic_region_ctx.
  change (size m) with s. rewrite (proj2 (Z.eqb_neq s 0)) by done. cbv zeta.
  assert (mmap_add_region_check (as_dynamic m) c = Ok (- EINVAL, c)) as Hck.
  { unfold mmap_add_region_check. erewrite bind_Ok; [|reflexivity]. cbv zeta.
    change (IS_PAGE_ALIGNED (base_va (as_dynamic m))) with false. cbn [negb].
    by rewrite orb_true_r. }
  by rewrite (bind_Ok _ _ _ _ _ Hck).
Qed.

(** ** Addresses outside the address space *)

Lemma idx_alias (va q b l : Z) : b <= l <= 3 →
  XLAT_TABLE_IDX (va + q * sz (b - 1)) l = XLAT_TABLE_IDX va l.
Proof.
  intros Hl. rewrite !table_idx by lia. pose proof (sz_pos l ltac:(lia)).
  destruct (sz_divide (b - 1) (l - 1) ltac:(lia)) as [x Hx]. rewrite (sz_up l) in Hx by lia.
  replace (va + q * sz (b - 1)) with (va + q * x * 512 * sz l) by (rewrite Hx; lia).
  rewrite Z.div_add by lia. by rewrite Z.mod_add by lia.
Qed.

Lemma base_level_range (s : Z) : 0 <= GET_XLAT_TABLE_LEVEL_BASE s <= 3.
Proof. unfold GET_XLAT_TABLE_LEVEL_BASE. repeat case_match; lia. Qed.

(** The lookup does not notice an address outside the address space: the
    bits above the reach of the base table are ignored, so that such an address
    is answered (and, in [xlat_change_mem_attributes()], changed) as if it were
    the address inside that it agrees with on the lower bits. *)
Theorem xlat_lookup_alias (e : xlat_env) (c : xlat_ctx) (va q : Z) :
  let base := GET_XLAT_TABLE_LEVEL_BASE (u64 (va_max_address c + 1)) in
  xlat_get_mem_attributes_internal e (va + q * sz (base - 1)) c
  = xlat_get_mem_attributes_internal e va c.
Proof.
  cbv zeta. set (s := u64 (va_max_address c + 1)). pose proof (base_level_range s) as Hb.
  assert (∀ n t k l, GET_XLAT_TABLE_LEVEL_BASE s <= l → l + Z.of_nat n <= 4 → ∀ c0,
    find_xlat_table_entry e n (va + q * sz (GET_XLAT_TABLE_LEVEL_BASE s - 1)) t k l c0
    = find_xlat_table_entry e n va t k l c0) as Hf.
  { intros n. induction n as [|n IH]; intros t k l Hl Hn c0; [done|]. cbn [find_xlat_table_entry].
    rewrite idx_alias by lia. destruct (k <=? XLAT_TABLE_IDX va l); [done|].
    unfold mbind, M_bind. destruct (read_entry t _ c0) as [[d c1]|w]; [|done].
    destruct (Z.land d DESC_MASK =? INVALID_DESC); [done|].
    destruct (l =? XLAT_TABLE_LEVEL_MAX); [done|].
    destruct (Z.land d DESC_MASK =? BLOCK_DESC); [done|].
    destruct (assert_ _ c1) as [[u c2]|w]; [|done].
    destruct (subtable_of e d c2) as [[t' c3]|w]; [|done]. apply IH; lia. }
  unfold xlat_get_mem_attributes_internal. unfold mbind at 1 5, M_bind at 1 5. cbn [get].
  fold s. unfold find_entry, mbind, M_bind. cbn [get].
  destruct (assert_ (initialized c) c) as [[u1 c1]|w]; [|done].
  destruct (assert_ _ c1) as [[u2 c2]|w]; [|done].
  destruct (assert_ _ c2) as [[u3 c3]|w]; [|done].
  rewrite Hf by lia. done.
Qed.


(** ** Running out of tables *)

Definition rw : Z := Z.lor MT_MEMORY MT_RW.

(** The answers of a sequence of calls on a context without static regions,
    and the physical address found for [va] afterwards *)
Definition answers (m k : Z) (ops : list dyn_op) (va : Z) : outcome (list Z * option Z) :=
  match (init_xlat_tables demo_env;;
         rets ← run_ops demo_env ops;
         r ← xlat_get_mem_attributes_internal demo_env va;
         mret (rets, mi_pa <$> r.2))
        (registered 8 m (2 ^ k) (2 ^ 40) EL_REGIME_INVALID) with
  | Ok (x, _) => Ok x
  | Stop w => Stop w
  end.

Definition one_page : dyn_op := AddRegion (MAP_REGION 0x1000 0x1000 0x1000 rw).
Definition one_block : dyn_op := AddRegion (MAP_REGION 0x40200000 0x40200000 0x200000 rw).

(** A dynamic region that cannot be mapped because the tables run out leaves
    a table behind: with one sub-table, a page (which needs two) is refused,
    and from then on so is a 2 MB block (which needs one), although no region
    is mapped; without the first call the block is mapped. *)
Theorem xlat_failed_add_leaks :
  answers 1 32 [one_page; one_block] 0x40200000 = Ok ([- ENOMEM; - ENOMEM], None)
  ∧ answers 1 32 [one_block] 0x40200000 = Ok ([0], Some 0x40200000).
Proof. split; vm_compute; reflexivity. Qed.

(** Two regions, a third for which the tables run out, the removal of the two,
    and two more *)
Definition stale_ops : list dyn_op :=
  [AddRegion (MAP_REGION 0x1000 (2 ^ 39) 0x1000 rw);
   AddRegion (MAP_REGION 0x40000000 0 0x40000000 rw);
   AddRegion (MAP_REGION 0x80000000 0x40000000 0x40001000 rw);
   RemoveRegion 0 0x40000000;
   RemoveRegion (2 ^ 39) 0x1000;
   AddRegion (MAP_REGION 0x200000 0x200000 0x1000 rw);
   AddRegion (MAP_REGION 0x400000 0x400000 0x4000 rw)].

(** After a dynamic region was refused because the tables ran out, the tables
    can become wrong: a table that is given back still links to another one, and
    when it is used again the old link is taken for a mapping.  Here the last
    call answers 0 for the region from 0x400000 on, but its third page, 0x402000,
    is translated to the address of translation table 4. *)
Theorem xlat_failed_add_corrupts :
  answers 5 40 stale_ops 0x402000 = Ok ([0; 0; - ENOMEM; 0; 0; 0; 0], Some (table_addr demo_env 4)).
Proof. vm_compute. reflexivity. Qed.
