(* ===== verification/Gic.v ===== *)
(** * GICv2 and GICv3 drivers (drivers/arm/gic)

    gic_v2v3_common.c, gic_v2.c and gic_v3.c in an AArch64 build.  The state is
    the static variables of the three files and a device; the device is what
    memory-mapped and system register accesses act on, a parameter with the
    interface [GicHw].  An operation is run by the CPU at core position
    [cpu], so that [platform_get_core_pos(read_mpidr_el1())] is [cpu]. *)

From S2P Require Import Prelude.

Local Open Scope Z_scope.

(** ** Registers (gic_v2v3_common.h, gic_v2.h, gic_v3.h) *)

Definition MIN_SGI_ID : Z := 0.
Definition MAX_SGI_ID : Z := 15.
Definition MIN_PPI_ID : Z := 16.
Definition MAX_PPI_ID : Z := 31.
Definition MIN_SPI_ID : Z := 32.
Definition MAX_SPI_ID : Z := 1019.
Definition GIC_SPURIOUS_INTERRUPT : Z := 1023.
Definition NUM_PCPU_INTR : Z := 32.
Definition GIC_PRI_MASK : Z := 0xff.

Definition GICD_CTLR : Z := 0x0.
Definition GICD_TYPER : Z := 0x4.
Definition GICD_ISENABLER : Z := 0x100.
Definition GICD_ICENABLER : Z := 0x180.
Definition GICD_ISPENDR : Z := 0x200.
Definition GICD_ICPENDR : Z := 0x280.
Definition GICD_ISACTIVER : Z := 0x300.
Definition GICD_ICACTIVER : Z := 0x380.
Definition GICD_IPRIORITYR : Z := 0x400.
Definition GICD_ICFGR : Z := 0xC00.
Definition GICD_ITARGETSR : Z := 0x800.
Definition GICD_SGIR : Z := 0xF00.
Definition GICD_CPENDSGIR : Z := 0xF10.
Definition GICD_SPENDSGIR : Z := 0xF20.
Definition GICD_IROUTER : Z := 0x6000.

Definition ISENABLER_SHIFT : Z := 5.
Definition ICENABLER_SHIFT : Z := ISENABLER_SHIFT.
Definition ISPENDR_SHIFT : Z := 5.
Definition ICPENDR_SHIFT : Z := ISPENDR_SHIFT.
Definition ISACTIVER_SHIFT : Z := 5.
Definition ICACTIVER_SHIFT : Z := ISACTIVER_SHIFT.
Definition IPRIORITYR_SHIFT : Z := 2.
Definition ICFGR_SHIFT : Z := 4.
Definition ITARGETSR_SHIFT : Z := 2.
Definition CPENDSGIR_SHIFT : Z := 2.
Definition SPENDSGIR_SHIFT : Z := CPENDSGIR_SHIFT.

Definition GICD_CTLR_ENABLE : Z := Z.shiftl 1 0.
Definition GICD_SGIR_INTID_SHIFT : Z := 0.
Definition GICD_SGIR_CPUTL_SHIFT : Z := 16.
Definition GICC_CTLR : Z := 0x0.
Definition GICC_PMR : Z := 0x4.
Definition GICC_BPR : Z := 0x8.
Definition GICC_IAR : Z := 0xC.
Definition GICC_EOIR : Z := 0x10.
Definition GICC_HPPIR : Z := 0x18.
Definition GICC_AHPPIR : Z := 0x28.
Definition GICC_IIDR : Z := 0xFC.
Definition GICC_DIR : Z := 0x1000.
Definition GICC_CTLR_ENABLE : Z := Z.shiftl 1 0.
Definition FIQ_BYP_DIS_GRP1 : Z := Z.shiftl 1 5.
Definition IRQ_BYP_DIS_GRP1 : Z := Z.shiftl 1 6.
Definition get_gicc_iar_intid (val : Z) : Z := Z.land (Z.shiftr val 0) 0x3ff.

Definition GICD_CTLR_ENABLE_GRP1A : Z := Z.shiftl 1 1.
Definition GICD_CTLR_ARE_NS_SHIFT : Z := 4.
Definition GICD_CTLR_ARE_NS_MASK : Z := 1.
Definition TYPER_AFF_VAL_SHIFT : Z := 32.
Definition TYPER_AFF_VAL_MASK : Z := 0xffffffff.
Definition TYPER_LAST_BIT : Z := Z.shiftl 1 4.
Definition TYPER_ESPI : Z := Z.shiftl 1 8.
Definition GICR_PCPUBASE_SHIFT : Z := 0x11.
Definition GICR_SGIBASE_OFFSET : Z := Z.shiftl 1 0x10.
Definition GICR_TYPER : Z := 0x08.
Definition GICR_ISENABLER0 : Z := GICR_SGIBASE_OFFSET + 0x100.
Definition GICR_ICENABLER0 : Z := GICR_SGIBASE_OFFSET + 0x180.
Definition GICR_ISPENDR0 : Z := GICR_SGIBASE_OFFSET + 0x200.
Definition GICR_ICPENDR0 : Z := GICR_SGIBASE_OFFSET + 0x280.
Definition GICR_IPRIORITYR : Z := GICR_SGIBASE_OFFSET + 0x400.
Definition GICR_ICFGR1 : Z := GICR_SGIBASE_OFFSET + 0xc04.
Definition ICC_SRE_SRE_BIT : Z := Z.shiftl 1 0.
Definition IAR1_EL1_INTID_MASK : Z := 0xffffff.
Definition SGI1R_TARGET_LIST_MASK : Z := 0xffff.
Definition SGI1R_TARGET_LIST_SHIFT : Z := 0.
Definition SGI1R_AFF_MASK : Z := 0xff.
Definition SGI1R_AFF1_SHIFT : Z := 16.
Definition SGI1R_AFF2_SHIFT : Z := 32.
Definition SGI1R_AFF3_SHIFT : Z := 48.
Definition SGI1R_INTID_MASK : Z := 0xf.
Definition SGI1R_INTID_SHIFT : Z := 24.
Definition IGRPEN1_EL1_ENABLE_BIT : Z := Z.shiftl 1 0.
Definition SGI_TARGET_MAX_AFF0 : Z := 16.

Definition MPIDR_AFFLVL_MASK : Z := 0xff.
Definition MPIDR_AFF3_SHIFT : Z := 32.
Definition MPIDR_AFFINITY_MASK : Z := 0xff00ffffff.
(** [MPIDR_AFF_ID(mpid, n)], with the shift of the affinity level *)
Definition MPIDR_AFF_ID (mpid shift : Z) : Z := Z.land (Z.shiftr mpid shift) MPIDR_AFFLVL_MASK.

Definition IS_SGI (irq_num : Z) : bool := (MIN_SGI_ID <=? irq_num) && (irq_num <=? MAX_SGI_ID).
Definition IS_PPI (irq_num : Z) : bool := (MIN_PPI_ID <=? irq_num) && (irq_num <=? MAX_PPI_ID).
Definition IS_SPI (irq_num : Z) : bool := (MIN_SPI_ID <=? irq_num) && (irq_num <=? MAX_SPI_ID).
Definition IS_VALID_INTR_ID (irq_num : Z) : bool :=
  (MIN_SGI_ID <=? irq_num) && (irq_num <=? MAX_SPI_ID).

(** ** The device *)

(** The system registers and instructions the drivers use; [GIC*] are the
    GICv5 instructions. *)
Inductive sysreg : Set :=
| ICC_SRE
| ICC_IGRPEN1_EL1
| ICC_PMR_EL1
| ICC_IAR1_EL1
| ICC_EOIR1_EL1
| ICC_SGI1R
| ICC_CR0_EL1
| ICC_PCR_EL1
| ICC_IAFFIDR_EL1
| ICC_ICSR_EL1
| ICC_PPI_ENABLER (n : Z)
| ICC_PPI_SPENDR (n : Z)
| ICC_PPI_CPENDR (n : Z)
| ICC_PPI_SACTIVER (n : Z)
| ICC_PPI_PRIORITYR (n : Z)
| GICCDPRI
| GICCDPEND
| GICCDAFF
| GICCDEN
| GICCDDIS
| GICCDRCFG
| GICCDDI
| GICCDEOI
| GICRCDIA.

#[export] Instance sysreg_eq_dec : EqDecision sysreg.
Proof. solve_decision. Defined.

(** An access by CPU [cpu]; [w] is its width in bytes.  A read may change the
    device (it acknowledges an interrupt). *)
Class GicHw (D : Type) := {
  hw_read : Z → Z → Z → D → Z * D;
  hw_write : Z → Z → Z → Z → D → D;
  hw_mrs : Z → sysreg → D → Z * D;
  hw_msr : Z → sysreg → Z → D → D;
}.

(** ** Static variables *)

Record gicv2_pcpu_ctx := {
  gicc_ctlr : Z;
  gicd_isenabler0 : Z;
  gicd_ipriorityr : list Z;
  gicd_icfgr : Z;
}.

Record gicv2_vars := {
  pcpu_gic_ctx : list gicv2_pcpu_ctx;
  gicc_base_addr : Z;
  gicv2_gicd_base_addr : Z;
  gic_cpu_id : list Z;
}.

Record gicv3_pcpu_ctx := {
  is_suspended : Z;
  icc_igrpen1 : Z;
  gicr_isenabler : Z;
  gicr_ipriorityr : list Z;
  gicr_icfgr : Z;
}.

(** [gicr_frames] is [None] for a NULL pointer. *)
Record gicv3_vars := {
  gicr_frames : option (list Z);
  gicv3_gicd_base_addr : Z;
  pcpu_ctx : list gicv3_pcpu_ctx;
  rdist_pcpu_base : list Z;
  mpidr_list : list Z;
}.

Record gicv5_pcpu_ctx := {
  icc_cr0_el1 : Z;
  icc_ppi_enabler : list Z;
  icc_ppi_xpendr : list Z;
  icc_ppi_priorityr : list Z;
}.

(** A handler is named by a number, [None] is NULL. *)
Definition irq_handler_t : Type := option Z.

Record gicv5_vars := {
  irs_base : Z;
  cpu_ctx : list gicv5_pcpu_ctx;
  iaffids : list Z;
  v5_ppi_desc_table : list (list irq_handler_t);
  v5_spi_desc_table : list irq_handler_t;
  v5_lpi_desc_table : list irq_handler_t;
}.

(** The tables of gic_v2v3_common.c *)
Record desc_tables := {
  spi_desc_table : list irq_handler_t;
  ppi_desc_table : list (list irq_handler_t);
  sgi_desc_table : list (list irq_handler_t);
  spurious_desc_handler : irq_handler_t;
}.

Record gic_state (D : Type) := {
  v2 : gicv2_vars;
  v3 : gicv3_vars;
  v5 : gicv5_vars;
  descs : desc_tables;
  gicv3_detected : bool;
  gicv5_detected : bool;
  gic_done_init : bool;
  shared_irq_lock : bool;
  dev : D;
}.
Arguments v2 {D} _.
Arguments v3 {D} _.
Arguments v5 {D} _.
Arguments descs {D} _.
Arguments gicv3_detected {D} _.
Arguments gicv5_detected {D} _.
Arguments gic_done_init {D} _.
Arguments shared_irq_lock {D} _.
Arguments dev {D} _.

Definition set_v2 {D} (s : gic_state D) (x : gicv2_vars) : gic_state D :=
  {| v2 := x; v3 := v3 s; v5 := v5 s; descs := descs s; gicv3_detected := gicv3_detected s;
     gicv5_detected := gicv5_detected s; gic_done_init := gic_done_init s;
     shared_irq_lock := shared_irq_lock s; dev := dev s |}.
Definition set_v3 {D} (s : gic_state D) (x : gicv3_vars) : gic_state D :=
  {| v2 := v2 s; v3 := x; v5 := v5 s; descs := descs s; gicv3_detected := gicv3_detected s;
     gicv5_detected := gicv5_detected s; gic_done_init := gic_done_init s;
     shared_irq_lock := shared_irq_lock s; dev := dev s |}.
Definition set_v5 {D} (s : gic_state D) (x : gicv5_vars) : gic_state D :=
  {| v2 := v2 s; v3 := v3 s; v5 := x; descs := descs s; gicv3_detected := gicv3_detected s;
     gicv5_detected := gicv5_detected s; gic_done_init := gic_done_init s;
     shared_irq_lock := shared_irq_lock s; dev := dev s |}.
Definition set_descs {D} (s : gic_state D) (x : desc_tables) : gic_state D :=
  {| v2 := v2 s; v3 := v3 s; v5 := v5 s; descs := x; gicv3_detected := gicv3_detected s;
     gicv5_detected := gicv5_detected s; gic_done_init := gic_done_init s;
     shared_irq_lock := shared_irq_lock s; dev := dev s |}.
Definition set_detected {D} (s : gic_state D) (is3 is5 done : bool) : gic_state D :=
  {| v2 := v2 s; v3 := v3 s; v5 := v5 s; descs := descs s; gicv3_detected := is3;
     gicv5_detected := is5; gic_done_init := done;
     shared_irq_lock := shared_irq_lock s; dev := dev s |}.
Definition set_lock {D} (s : gic_state D) (b : bool) : gic_state D :=
  {| v2 := v2 s; v3 := v3 s; v5 := v5 s; descs := descs s; gicv3_detected := gicv3_detected s;
     gicv5_detected := gicv5_detected s; gic_done_init := gic_done_init s;
     shared_irq_lock := b; dev := dev s |}.
Definition set_dev {D} (s : gic_state D) (d : D) : gic_state D :=
  {| v2 := v2 s; v3 := v3 s; v5 := v5 s; descs := descs s; gicv3_detected := gicv3_detected s;
     gicv5_detected := gicv5_detected s; gic_done_init := gic_done_init s;
     shared_irq_lock := shared_irq_lock s; dev := d |}.

(** The platform: how many cores and SPIs it has, the MPIDR of each core, and
    what the ID registers say *)
Record gic_plat := {
  PLATFORM_CORE_COUNT : Z;
  PLAT_MAX_SPI_OFFSET_ID : Z;
  mpidr_el1 : Z → Z;
  (** [is_feat_gic_supported()] *)
  feat_gic : bool;
  (** [is_feat_gcie_supported()] *)
  feat_gcie : bool;
}.

Section Gic_ops.

Context {D : Type} `{!GicHw D} (p : gic_plat) (cpu : Z).

Abbreviation G := (M (gic_state D)).

(** ** Register accesses (mmio.h, arch_helpers.h) *)

Definition mmio_read (w addr : Z) : G Z := λ s,
  let r := hw_read cpu w addr (dev s) in Ok (wrap (8 * w) r.1, set_dev s r.2).
Definition mmio_write (w addr val : Z) : G unit := λ s,
  Ok (tt, set_dev s (hw_write cpu w addr (wrap (8 * w) val) (dev s))).
Definition mmio_read_8 (addr : Z) : G Z := mmio_read 1 addr.
Definition mmio_read_32 (addr : Z) : G Z := mmio_read 4 addr.
Definition mmio_read_64 (addr : Z) : G Z := mmio_read 8 addr.
Definition mmio_write_8 (addr val : Z) : G unit := mmio_write 1 addr val.
Definition mmio_write_32 (addr val : Z) : G unit := mmio_write 4 addr val.
Definition mmio_write_64 (addr val : Z) : G unit := mmio_write 8 addr val.

Definition read_sysreg (r : sysreg) : G Z := λ s,
  let x := hw_mrs cpu r (dev s) in Ok (u64 x.1, set_dev s x.2).
Definition write_sysreg (r : sysreg) (val : Z) : G unit := λ s,
  Ok (tt, set_dev s (hw_msr cpu r (u64 val) (dev s))).

Definition IS_PLAT_SPI (irq_num : Z) : bool :=
  (MIN_SPI_ID <=? irq_num) && (irq_num <=? MIN_SPI_ID + PLAT_MAX_SPI_OFFSET_ID p).

(** ** gic_v2v3_common.c *)

(** The address of a 32-bit register of a bank: [base + reg + (n << 2)] *)
Definition reg_n (base reg shift interrupt_id : Z) : Z :=
  u64 (base + reg + u32 (Z.shiftl (Z.shiftr interrupt_id shift) 2)).

Definition gicd_read_isenabler (base id : Z) : G Z :=
  mmio_read_32 (reg_n base GICD_ISENABLER ISENABLER_SHIFT id).
Definition gicd_read_icenabler (base id : Z) : G Z :=
  mmio_read_32 (reg_n base GICD_ICENABLER ICENABLER_SHIFT id).
Definition gicd_read_ispendr (base id : Z) : G Z :=
  mmio_read_32 (reg_n base GICD_ISPENDR ISPENDR_SHIFT id).
Definition gicd_read_icpendr (base id : Z) : G Z :=
  mmio_read_32 (reg_n base GICD_ICPENDR ICPENDR_SHIFT id).
Definition gicd_read_isactiver (base id : Z) : G Z :=
  mmio_read_32 (reg_n base GICD_ISACTIVER ISACTIVER_SHIFT id).
Definition gicd_read_icactiver (base id : Z) : G Z :=
  mmio_read_32 (reg_n base GICD_ICACTIVER ICACTIVER_SHIFT id).
Definition gicd_read_ipriorityr (base id : Z) : G Z :=
  mmio_read_32 (reg_n base GICD_IPRIORITYR IPRIORITYR_SHIFT id).
Definition gicd_read_icfgr (base id : Z) : G Z :=
  mmio_read_32 (reg_n base GICD_ICFGR ICFGR_SHIFT id).

Definition gicd_write_isenabler (base id val : Z) : G unit :=
  mmio_write_32 (reg_n base GICD_ISENABLER ISENABLER_SHIFT id) val.
Definition gicd_write_icenabler (base id val : Z) : G unit :=
  mmio_write_32 (reg_n base GICD_ICENABLER ICENABLER_SHIFT id) val.
Definition gicd_write_ispendr (base id val : Z) : G unit :=
  mmio_write_32 (reg_n base GICD_ISPENDR ISPENDR_SHIFT id) val.
Definition gicd_write_icpendr (base id val : Z) : G unit :=
  mmio_write_32 (reg_n base GICD_ICPENDR ICPENDR_SHIFT id) val.
Definition gicd_write_isactiver (base id val : Z) : G unit :=
  mmio_write_32 (reg_n base GICD_ISACTIVER ISACTIVER_SHIFT id) val.
Definition gicd_write_icactiver (base id val : Z) : G unit :=
  mmio_write_32 (reg_n base GICD_ICACTIVER ICACTIVER_SHIFT id) val.
Definition gicd_write_ipriorityr (base id val : Z) : G unit :=
  mmio_write_32 (reg_n base GICD_IPRIORITYR IPRIORITYR_SHIFT id) val.
Definition gicd_write_icfgr (base id val : Z) : G unit :=
  mmio_write_32 (reg_n base GICD_ICFGR ICFGR_SHIFT id) val.

(** [1 << (interrupt_id & ((1 << shift) - 1))] *)
Definition id_bit (interrupt_id shift : Z) : Z :=
  Z.shiftl 1 (Z.land interrupt_id (Z.shiftl 1 shift - 1)).

Definition gicd_get_isenabler (base id : Z) : G Z :=
  v ← gicd_read_isenabler base id; mret (Z.land v (id_bit id ISENABLER_SHIFT)).
Definition gicd_set_isenabler (base id : Z) : G unit :=
  gicd_write_isenabler base id (id_bit id ISENABLER_SHIFT).
Definition gicd_set_icenabler (base id : Z) : G unit :=
  gicd_write_icenabler base id (id_bit id ICENABLER_SHIFT).
Definition gicd_set_ispendr (base id : Z) : G unit :=
  gicd_write_ispendr base id (id_bit id ISPENDR_SHIFT).
Definition gicd_set_icpendr (base id : Z) : G unit :=
  gicd_write_icpendr base id (id_bit id ICPENDR_SHIFT).
Definition gicd_set_isactiver (base id : Z) : G unit :=
  gicd_write_isactiver base id (id_bit id ISACTIVER_SHIFT).
Definition gicd_set_icactiver (base id : Z) : G unit :=
  gicd_write_icactiver base id (id_bit id ICACTIVER_SHIFT).
Definition gicd_get_ipriorityr (base id : Z) : G Z :=
  v ← gicd_read_ipriorityr base id; mret (Z.land v GIC_PRI_MASK).
Definition gicd_set_ipriorityr (base id priority : Z) : G unit :=
  mmio_write_8 (u64 (base + GICD_IPRIORITYR + id)) (Z.land priority GIC_PRI_MASK).

Definition gicd_read_ctlr (base : Z) : G Z := mmio_read_32 (u64 (base + GICD_CTLR)).
Definition gicd_read_typer (base : Z) : G Z := mmio_read_32 (u64 (base + GICD_TYPER)).
Definition gicd_write_ctlr (base val : Z) : G unit := mmio_write_32 (u64 (base + GICD_CTLR)) val.

(** [ICC_SRE] is [icc_sre_el2] or [icc_sre_el1], by the exception level. *)
Definition is_sre_enabled : G bool :=
  v ← read_sysreg ICC_SRE; mret (negb (Z.land v ICC_SRE_SRE_BIT =? 0)).

Definition is_gicv3_mode : G bool :=
  if negb (feat_gic p) then mret false else is_sre_enabled.

Definition gicv2v3_is_irq_spi (irq_num : Z) : bool := IS_PLAT_SPI irq_num.

Definition gicv2v3_irq_setup : G unit :=
  let cores := Z.to_nat (PLATFORM_CORE_COUNT p) in
  modify (λ s, set_descs s
    {| spi_desc_table := replicate (Z.to_nat (PLAT_MAX_SPI_OFFSET_ID p + 1)) None;
       ppi_desc_table := replicate cores (replicate (Z.to_nat (MAX_PPI_ID + 1 - MIN_PPI_ID)) None);
       sgi_desc_table := replicate cores (replicate (Z.to_nat (MAX_SGI_ID + 1)) None);
       spurious_desc_handler := None |}).

Definition gicv2v3_get_sgi_num (irq_num core_pos : Z) : Z := irq_num.

(** A pointer to a handler: the element of a table it points to *)
Inductive slot : Set :=
| SpiSlot (i : Z)
| PpiSlot (core i : Z)
| SgiSlot (core i : Z)
| SpuriousSlot
| V5PpiSlot (core i : Z)
| V5LpiSlot (i : Z)
| V5SpiSlot (i : Z).

Definition gicv2v3_get_irq_handler (irq_num : Z) : G slot :=
  if IS_PLAT_SPI irq_num then mret (SpiSlot (irq_num - MIN_SPI_ID))
  else if IS_PPI irq_num then mret (PpiSlot cpu (irq_num - MIN_PPI_ID))
  else if IS_SGI irq_num then mret (SgiSlot cpu (irq_num - MIN_SGI_ID))
  else assert_ (irq_num =? GIC_SPURIOUS_INTERRUPT);; mret SpuriousSlot.

(** ** gic_v2.c

    The accessors of this file and of gic_v2.h take the base as an
    [unsigned int]: its upper half is dropped. *)

Definition update_v2 (f : gicv2_vars → gicv2_vars) : G unit := modify (λ s, set_v2 s (f (v2 s))).
Definition gicc_base : G Z := s ← get; mret (gicc_base_addr (v2 s)).
Definition gicd_base2 : G Z := s ← get; mret (gicv2_gicd_base_addr (v2 s)).

(** [assert(gicc_base_addr)], [assert(gicd_base_addr)] *)
Definition need_gicc : G Z := b ← gicc_base; assert_ (negb (b =? 0));; mret b.
Definition need_gicd2 : G Z := b ← gicd_base2; assert_ (negb (b =? 0));; mret b.

Definition core_pos_to_gic_id (core_pos : Z) : G Z :=
  s ← get;
  v ← aget (gic_cpu_id (v2 s)) core_pos;
  assert_ (negb (v =? UINT32_MAX));;
  mret v.

Definition reg32_n (base reg shift interrupt_id : Z) : Z :=
  u32 (u32 base + reg + u32 (Z.shiftl (Z.shiftr interrupt_id shift) 2)).

Definition gicd_read_itargetsr_byte (base id : Z) : G Z :=
  mmio_read_8 (u32 (u32 base + GICD_ITARGETSR + id)).
Definition gicd_read_itargetsr (base id : Z) : G Z :=
  mmio_read_32 (reg32_n base GICD_ITARGETSR ITARGETSR_SHIFT id).
Definition gicd_read_cpendsgir (base id : Z) : G Z :=
  mmio_read_32 (reg32_n base GICD_CPENDSGIR CPENDSGIR_SHIFT id).
Definition gicd_read_spendsgir (base id : Z) : G Z :=
  mmio_read_32 (reg32_n base GICD_SPENDSGIR SPENDSGIR_SHIFT id).
Definition gicd_write_itargetsr (base id val : Z) : G unit :=
  mmio_write_32 (reg32_n base GICD_ITARGETSR ITARGETSR_SHIFT id) val.
Definition gicd_write_itargetsr_byte (base id val : Z) : G unit :=
  mmio_write_8 (u32 (u32 base + GICD_ITARGETSR + id)) val.
Definition gicd_write_cpendsgir (base id val : Z) : G unit :=
  mmio_write_32 (reg32_n base GICD_CPENDSGIR CPENDSGIR_SHIFT id) val.
Definition gicd_write_spendsgir (base id val : Z) : G unit :=
  mmio_write_32 (reg32_n base GICD_SPENDSGIR SPENDSGIR_SHIFT id) val.
Definition gicd_set_itargetsr (base id iface : Z) : G unit :=
  mmio_write_8 (u32 (u32 base + GICD_ITARGETSR + id)) (Z.shiftl 1 iface).

Definition gicd_write_sgir (base val : Z) : G unit := mmio_write_32 (u32 (u32 base + GICD_SGIR)) val.
Definition gicc_read_ctlr (base : Z) : G Z := mmio_read_32 (u32 (u32 base + GICC_CTLR)).
Definition gicc_read_iar (base : Z) : G Z := mmio_read_32 (u32 (u32 base + GICC_IAR)).
Definition gicd_read_sgir (base : Z) : G Z := mmio_read_32 (u32 (u32 base + GICD_SGIR)).
Definition gicc_read_pmr (base : Z) : G Z := mmio_read_32 (u32 (u32 base + GICC_PMR)).
Definition gicc_read_bpr (base : Z) : G Z := mmio_read_32 (u32 (u32 base + GICC_BPR)).
Definition gicc_read_eoir (base : Z) : G Z := mmio_read_32 (u32 (u32 base + GICC_EOIR)).
Definition gicc_read_hppir (base : Z) : G Z := mmio_read_32 (u32 (u32 base + GICC_HPPIR)).
Definition gicc_read_ahppir (base : Z) : G Z := mmio_read_32 (u32 (u32 base + GICC_AHPPIR)).
Definition gicc_read_dir (base : Z) : G Z := mmio_read_32 (u32 (u32 base + GICC_DIR)).
Definition gicc_read_iidr (base : Z) : G Z := mmio_read_32 (u32 (u32 base + GICC_IIDR)).
Definition gicc_write_ctlr (base val : Z) : G unit := mmio_write_32 (u32 (u32 base + GICC_CTLR)) val.
Definition gicc_write_pmr (base val : Z) : G unit := mmio_write_32 (u32 (u32 base + GICC_PMR)) val.
Definition gicc_write_eoir (base val : Z) : G unit := mmio_write_32 (u32 (u32 base + GICC_EOIR)) val.
Definition gicc_write_bpr (base val : Z) : G unit := mmio_write_32 (u32 (u32 base + GICC_BPR)) val.
Definition gicc_write_iar (base val : Z) : G unit := mmio_write_32 (u32 (u32 base + GICC_IAR)) val.
Definition gicc_write_hppir (base val : Z) : G unit := mmio_write_32 (u32 (u32 base + GICC_HPPIR)) val.
Definition gicc_write_dir (base val : Z) : G unit := mmio_write_32 (u32 (u32 base + GICC_DIR)) val.

Definition gicv2_enable_cpuif : G unit :=
  base ← need_gicc;
  gicc_write_ctlr base (Z.lor (Z.lor GICC_CTLR_ENABLE FIQ_BYP_DIS_GRP1) IRQ_BYP_DIS_GRP1).

(** [__builtin_ctz()]; undefined for 0 *)
Definition ctz (v : Z) : Z := Z.log2 (Z.land v (- v)).

Definition gicv2_probe_gic_cpu_id : G unit :=
  base ← need_gicd2;
  gicd_itargets_val ← gicd_read_itargetsr base 0;
  (if 1 <? PLATFORM_CORE_COUNT p then assert_ (negb (gicd_itargets_val =? 0)) else mret tt);;
  (if gicd_itargets_val =? 0 then fail OutOfBounds else mret tt);;
  s ← get;
  l ← aset (gic_cpu_id (v2 s)) cpu (ctz gicd_itargets_val);
  update_v2 (λ x, {| pcpu_gic_ctx := pcpu_gic_ctx x; gicc_base_addr := gicc_base_addr x;
                     gicv2_gicd_base_addr := gicv2_gicd_base_addr x; gic_cpu_id := l |}).

Definition gicv2_setup_cpuif : G unit :=
  base ← need_gicc;
  gicc_write_pmr base GIC_PRI_MASK;;
  gicv2_enable_cpuif.

Definition gicv2_disable_cpuif : G unit :=
  base ← need_gicc;
  v ← gicc_read_ctlr base;
  let v := Z.land v (u32 (Z.lnot GICC_CTLR_ENABLE)) in
  let v := Z.lor v (Z.lor FIQ_BYP_DIS_GRP1 IRQ_BYP_DIS_GRP1) in
  gicc_write_ctlr base v.

(** [pcpu_gic_ctx[core_pos]], read and updated *)
Definition get_ctx2 : G gicv2_pcpu_ctx := s ← get; aget (pcpu_gic_ctx (v2 s)) cpu.
Definition put_ctx2 (c : gicv2_pcpu_ctx) : G unit :=
  s ← get;
  l ← aset (pcpu_gic_ctx (v2 s)) cpu c;
  update_v2 (λ x, {| pcpu_gic_ctx := l; gicc_base_addr := gicc_base_addr x;
                     gicv2_gicd_base_addr := gicv2_gicd_base_addr x;
                     gic_cpu_id := gic_cpu_id x |}).

Definition gicv2_save_cpuif_context : G unit :=
  base ← need_gicc;
  v ← gicc_read_ctlr base;
  c ← get_ctx2;
  put_ctx2 {| gicc_ctlr := v; gicd_isenabler0 := gicd_isenabler0 c;
              gicd_ipriorityr := gicd_ipriorityr c; gicd_icfgr := gicd_icfgr c |}.

Definition gicv2_restore_cpuif_context : G unit :=
  base ← need_gicc;
  gicc_write_pmr base GIC_PRI_MASK;;
  c ← get_ctx2;
  gicc_write_ctlr base (gicc_ctlr c).

Definition gicv2_setup_distif : G unit :=
  base ← need_gicd2;
  v ← gicd_read_ctlr base;
  gicd_write_ctlr base (Z.lor v GICD_CTLR_ENABLE).

(** The loops over the priority registers, four interrupts at a time: [n]
    registers from register [i] on *)
Fixpoint read_regs (read : Z → G Z) (n : nat) (i : Z) : G (list Z) :=
  match n with
  | O => mret []
  | S n' =>
      v ← read (Z.shiftl i IPRIORITYR_SHIFT);
      l ← read_regs read n' (i + 1);
      mret (v :: l)
  end.
Fixpoint write_regs (write : Z → Z → G unit) (l : list Z) (i : Z) : G unit :=
  match l with
  | [] => mret tt
  | v :: l' => write (Z.shiftl i IPRIORITYR_SHIFT) v;; write_regs write l' (i + 1)
  end.

(** [NUM_PCPU_INTR >> IPRIORITYR_SHIFT] *)
Definition prio_regs : nat := Z.to_nat (Z.shiftr NUM_PCPU_INTR IPRIORITYR_SHIFT).

Definition gicv2_save_sgi_ppi_context : G unit :=
  base ← need_gicd2;
  en ← gicd_read_isenabler base 0;
  prio ← read_regs (gicd_read_ipriorityr base) prio_regs 0;
  cfg ← gicd_read_icfgr base MIN_PPI_ID;
  c ← get_ctx2;
  put_ctx2 {| gicc_ctlr := gicc_ctlr c; gicd_isenabler0 := en; gicd_ipriorityr := prio;
              gicd_icfgr := cfg |}.

Definition gicv2_restore_sgi_ppi_context : G unit :=
  base ← need_gicd2;
  c ← get_ctx2;
  write_regs (gicd_write_ipriorityr base) (gicd_ipriorityr c) 0;;
  gicd_write_icfgr base MIN_PPI_ID (gicd_icfgr c);;
  gicd_write_isenabler base 0 (gicd_isenabler0 c).

Definition gicv2_gicd_get_ipriorityr (id : Z) : G Z :=
  base ← need_gicd2; assert_ (IS_VALID_INTR_ID id);; gicd_get_ipriorityr base id.
Definition gicv2_gicd_set_ipriorityr (id priority : Z) : G unit :=
  base ← need_gicd2; assert_ (IS_VALID_INTR_ID id);; gicd_set_ipriorityr base id priority.

Definition gicv2_send_sgi (sgi_id core_pos : Z) : G unit :=
  base ← need_gicd2;
  assert_ (IS_SGI sgi_id);;
  gid ← core_pos_to_gic_id core_pos;
  gicd_write_sgir base
    (Z.lor (Z.shiftl sgi_id GICD_SGIR_INTID_SHIFT)
           (Z.shiftl (Z.shiftl 1 gid) GICD_SGIR_CPUTL_SHIFT)).

Definition gicv2_set_itargetsr (num core_pos : Z) : G unit :=
  base ← need_gicd2;
  if negb (IS_PLAT_SPI num) then mret tt
  else
    assert_ (IS_SPI num);;
    gid ← core_pos_to_gic_id core_pos;
    gicd_set_itargetsr base num gid.

Definition gicv2_read_itargetsr_value (num : Z) : G Z :=
  base ← gicd_base2; gicd_read_itargetsr_byte base num.
Definition gicv2_set_itargetsr_value (num val : Z) : G unit :=
  base ← need_gicd2;
  assert_ (IS_SPI num);;
  gicd_write_itargetsr_byte base num val;;
  r ← gicv2_read_itargetsr_value num;
  assert_ (r =? val).

Definition gicv2_gicd_get_isenabler (num : Z) : G Z :=
  base ← need_gicd2; assert_ (IS_VALID_INTR_ID num);; gicd_get_isenabler base num.
Definition gicv2_gicd_set_isenabler (num : Z) : G unit :=
  base ← need_gicd2; assert_ (IS_VALID_INTR_ID num);; gicd_set_isenabler base num.
Definition gicv2_gicd_set_icenabler (num : Z) : G unit :=
  base ← need_gicd2; assert_ (IS_VALID_INTR_ID num);; gicd_set_icenabler base num.
Definition gicv2_gicc_read_iar : G Z := base ← need_gicc; gicc_read_iar base.

(** [!!(v & (1 << (id % (1 << ISPENDR_SHIFT))))] *)
Definition pending_bit (v id : Z) : Z :=
  if Z.land v (Z.shiftl 1 (id mod Z.shiftl 1 ISPENDR_SHIFT)) =? 0 then 0 else 1.

Definition gicv2_gicd_get_ispendr (id : Z) : G Z :=
  base ← need_gicd2;
  assert_ (IS_VALID_INTR_ID id);;
  v ← gicd_read_ispendr base id;
  mret (pending_bit v id).
Definition gicv2_gicd_set_ispendr (id : Z) : G unit :=
  base ← need_gicd2; assert_ (IS_PPI id || IS_SPI id);; gicd_set_ispendr base id.
Definition gicv2_gicd_set_icpendr (id : Z) : G unit :=
  base ← need_gicd2; assert_ (IS_PPI id || IS_SPI id);; gicd_set_icpendr base id.
Definition gicv2_gicc_write_eoir (val : Z) : G unit :=
  base ← need_gicc; gicc_write_eoir base val.

Definition gicv2_init (gicc gicd : Z) : G unit :=
  assert_ (negb (gicc =? 0));;
  assert_ (negb (gicd =? 0));;
  v3mode ← is_gicv3_mode;
  assert_ (negb v3mode);;
  update_v2 (λ x, {| pcpu_gic_ctx := pcpu_gic_ctx x; gicc_base_addr := gicc;
                     gicv2_gicd_base_addr := gicd; gic_cpu_id := gic_cpu_id x |});;
  gicv2v3_irq_setup.

(** ** gic_v3.c *)

Definition update_v3 (f : gicv3_vars → gicv3_vars) : G unit := modify (λ s, set_v3 s (f (v3 s))).

(** [assert(gicd_base_addr)] *)
Definition need_gicd3 : G Z :=
  s ← get; let b := gicv3_gicd_base_addr (v3 s) in assert_ (negb (b =? 0));; mret b.
(** [assert(rdist_pcpu_base[core_pos])] *)
Definition need_rdist (core_pos : Z) : G Z :=
  s ← get; b ← aget (rdist_pcpu_base (v3 s)) core_pos; assert_ (negb (b =? 0));; mret b.

Definition gic_typer_affinity_from_mpidr (mpidr : Z) : Z :=
  let aff3 := Z.shiftl MPIDR_AFFLVL_MASK MPIDR_AFF3_SHIFT in
  Z.lor (Z.land mpidr (u64 (Z.lnot aff3))) (Z.shiftr (Z.land mpidr aff3) 8).

Definition gicd_write_irouter (base id route : Z) : G unit :=
  assert_ (MIN_SPI_ID <=? id);;
  mmio_write_64 (u64 (base + GICD_IROUTER + u32 (Z.shiftl id 3))) route.

Definition gicr_write_isenabler0 (base val : Z) : G unit :=
  mmio_write_32 (u64 (base + GICR_ISENABLER0)) val.
Definition gicr_write_icenabler0 (base val : Z) : G unit :=
  mmio_write_32 (u64 (base + GICR_ICENABLER0)) val.
Definition gicr_write_icpendr0 (base val : Z) : G unit :=
  mmio_write_32 (u64 (base + GICR_ICPENDR0)) val.
Definition gicr_write_ipriorityr (base id val : Z) : G unit :=
  mmio_write_32 (reg_n base GICR_IPRIORITYR IPRIORITYR_SHIFT id) val.
Definition gicr_write_icfgr1 (base val : Z) : G unit :=
  mmio_write_32 (u64 (base + GICR_ICFGR1)) val.
Definition gicr_read_typer (base : Z) : G Z := mmio_read_64 (u64 (base + GICR_TYPER)).
Definition gicr_read_icfgr1 (base : Z) : G Z := mmio_read_32 (u64 (base + GICR_ICFGR1)).
Definition gicr_read_isenabler0 (base : Z) : G Z := mmio_read_32 (u64 (base + GICR_ISENABLER0)).
Definition gicr_read_ipriorityr (base id : Z) : G Z :=
  mmio_read_32 (reg_n base GICR_IPRIORITYR IPRIORITYR_SHIFT id).
Definition gicr_read_ispendr0 (base : Z) : G Z := mmio_read_32 (u64 (base + GICR_ISPENDR0)).

Definition gicr_get_isenabler0 (base id : Z) : G Z :=
  v ← gicr_read_isenabler0 base; mret (Z.land v (id_bit id ISENABLER_SHIFT)).
Definition gicr_set_isenabler0 (base id : Z) : G unit :=
  gicr_write_isenabler0 base (id_bit id ISENABLER_SHIFT).
Definition gicr_set_icenabler0 (base id : Z) : G unit :=
  gicr_write_icenabler0 base (id_bit id ISENABLER_SHIFT).
Definition gicr_set_icpendr0 (base id : Z) : G unit :=
  gicr_write_icpendr0 base (id_bit id ICPENDR_SHIFT).

Definition gicv3_enable_cpuif : G unit :=
  sre ← is_sre_enabled;
  assert_ sre;;
  v ← read_sysreg ICC_IGRPEN1_EL1;
  write_sysreg ICC_IGRPEN1_EL1 (Z.lor v IGRPEN1_EL1_ENABLE_BIT).

Definition gicv3_setup_cpuif : G unit :=
  write_sysreg ICC_PMR_EL1 GIC_PRI_MASK;;
  gicv3_enable_cpuif.

Definition gicv3_disable_cpuif : G unit :=
  v ← read_sysreg ICC_IGRPEN1_EL1;
  write_sysreg ICC_IGRPEN1_EL1 (Z.land v (u64 (Z.lnot IGRPEN1_EL1_ENABLE_BIT))).

(** [pcpu_ctx[core_pos]], read and updated *)
Definition get_ctx3 (core_pos : Z) : G gicv3_pcpu_ctx := s ← get; aget (pcpu_ctx (v3 s)) core_pos.
Definition put_ctx3 (core_pos : Z) (c : gicv3_pcpu_ctx) : G unit :=
  s ← get;
  l ← aset (pcpu_ctx (v3 s)) core_pos c;
  update_v3 (λ x, {| gicr_frames := gicr_frames x; gicv3_gicd_base_addr := gicv3_gicd_base_addr x;
                     pcpu_ctx := l; rdist_pcpu_base := rdist_pcpu_base x;
                     mpidr_list := mpidr_list x |}).

Definition gicv3_save_cpuif_context : G unit :=
  v ← read_sysreg ICC_IGRPEN1_EL1;
  c ← get_ctx3 cpu;
  put_ctx3 cpu {| is_suspended := 1; icc_igrpen1 := u32 v; gicr_isenabler := gicr_isenabler c;
                  gicr_ipriorityr := gicr_ipriorityr c; gicr_icfgr := gicr_icfgr c |}.

Definition gicv3_restore_cpuif_context : G unit :=
  c ← get_ctx3 cpu;
  put_ctx3 cpu {| is_suspended := 0; icc_igrpen1 := icc_igrpen1 c;
                  gicr_isenabler := gicr_isenabler c; gicr_ipriorityr := gicr_ipriorityr c;
                  gicr_icfgr := gicr_icfgr c |};;
  write_sysreg ICC_PMR_EL1 GIC_PRI_MASK;;
  write_sysreg ICC_IGRPEN1_EL1 (icc_igrpen1 c).

(** What is saved and restored of one redistributor *)
Definition save_rdist (core_pos : Z) : G unit :=
  base ← need_rdist core_pos;
  en ← gicr_read_isenabler0 base;
  prio ← read_regs (gicr_read_ipriorityr base) prio_regs 0;
  cfg ← gicr_read_icfgr1 base;
  c ← get_ctx3 core_pos;
  put_ctx3 core_pos {| is_suspended := is_suspended c; icc_igrpen1 := icc_igrpen1 c;
                       gicr_isenabler := en; gicr_ipriorityr := prio; gicr_icfgr := cfg |}.
Definition restore_rdist (core_pos : Z) : G unit :=
  base ← need_rdist core_pos;
  c ← get_ctx3 core_pos;
  write_regs (gicr_write_ipriorityr base) (gicr_ipriorityr c) 0;;
  gicr_write_icfgr1 base (gicr_icfgr c);;
  gicr_write_isenabler0 base (gicr_isenabler c).

(** The loop over the cores: the calling core and the suspended ones *)
Fixpoint each_suspended (f : Z → G unit) (n : nat) (core_pos : Z) : G unit :=
  match n with
  | O => mret tt
  | S n' =>
      c ← get_ctx3 core_pos;
      (if negb (core_pos =? cpu) && (is_suspended c =? 0) then mret tt else f core_pos);;
      each_suspended f n' (core_pos + 1)
  end.

Definition gicv3_save_sgi_ppi_context : G unit :=
  each_suspended save_rdist (Z.to_nat (PLATFORM_CORE_COUNT p)) 0.
Definition gicv3_restore_sgi_ppi_context : G unit :=
  each_suspended restore_rdist (Z.to_nat (PLATFORM_CORE_COUNT p)) 0.

Definition gicv3_get_ipriorityr (id : Z) : G Z :=
  gicd ← need_gicd3;
  assert_ (IS_VALID_INTR_ID id);;
  if id <? MIN_SPI_ID then
    base ← need_rdist cpu; mmio_read_8 (u64 (base + GICR_IPRIORITYR + id))
  else mmio_read_8 (u64 (gicd + GICD_IPRIORITYR + id)).

Definition gicv3_set_ipriorityr (id priority : Z) : G unit :=
  gicd ← need_gicd3;
  assert_ (IS_VALID_INTR_ID id);;
  if id <? MIN_SPI_ID then
    base ← need_rdist cpu;
    mmio_write_8 (u64 (base + GICR_IPRIORITYR + id)) (Z.land priority GIC_PRI_MASK)
  else mmio_write_8 (u64 (gicd + GICD_IPRIORITYR + id)) (Z.land priority GIC_PRI_MASK).

(** The value written to [ICC_SGI1R] *)
Definition sgi1r_value (sgi_id mpidr : Z) : Z :=
  let aff0 := MPIDR_AFF_ID mpidr 0 in
  let aff1 := MPIDR_AFF_ID mpidr 8 in
  let aff2 := MPIDR_AFF_ID mpidr 16 in
  let aff3 := MPIDR_AFF_ID mpidr MPIDR_AFF3_SHIFT in
  let target_list := Z.shiftl 1 aff0 in
  let sgir :=
    Z.lor (Z.lor (Z.lor (Z.shiftl (Z.land aff3 SGI1R_AFF_MASK) SGI1R_AFF3_SHIFT)
                        (Z.shiftl (Z.land aff2 SGI1R_AFF_MASK) SGI1R_AFF2_SHIFT))
                 (Z.shiftl (Z.land aff1 SGI1R_AFF_MASK) SGI1R_AFF1_SHIFT))
          (Z.shiftl (Z.land target_list SGI1R_TARGET_LIST_MASK) SGI1R_TARGET_LIST_SHIFT) in
  Z.lor sgir (Z.shiftl (Z.land sgi_id SGI1R_INTID_MASK) SGI1R_INTID_SHIFT).

Definition gicv3_send_sgi (sgi_id core_pos : Z) : G unit :=
  assert_ (IS_SGI sgi_id);;
  assert_ (core_pos <? PLATFORM_CORE_COUNT p);;
  s ← get;
  mpidr ← aget (mpidr_list (v3 s)) core_pos;
  assert_ (negb (mpidr =? UINT64_MAX));;
  assert_ (MPIDR_AFF_ID mpidr 0 <? SGI_TARGET_MAX_AFF0);;
  write_sysreg ICC_SGI1R (sgi1r_value sgi_id mpidr).

Definition gicv3_set_intr_route (id core_pos : Z) : G unit :=
  gicd ← need_gicd3;
  assert_ (core_pos <? PLATFORM_CORE_COUNT p);;
  s ← get;
  mpidr ← aget (mpidr_list (v3 s)) core_pos;
  assert_ (negb (mpidr =? UINT64_MAX));;
  if negb (IS_PLAT_SPI id) then mret tt
  else assert_ (IS_SPI id);; gicd_write_irouter gicd id mpidr.

Definition gicv3_get_isenabler (id : Z) : G Z :=
  gicd ← need_gicd3;
  assert_ (IS_VALID_INTR_ID id);;
  if id <? MIN_SPI_ID then base ← need_rdist cpu; gicr_get_isenabler0 base id
  else gicd_get_isenabler gicd id.
Definition gicv3_set_isenabler (id : Z) : G unit :=
  gicd ← need_gicd3;
  assert_ (IS_VALID_INTR_ID id);;
  if id <? MIN_SPI_ID then base ← need_rdist cpu; gicr_set_isenabler0 base id
  else gicd_set_isenabler gicd id.
Definition gicv3_set_icenabler (id : Z) : G unit :=
  gicd ← need_gicd3;
  assert_ (IS_VALID_INTR_ID id);;
  if id <? MIN_SPI_ID then base ← need_rdist cpu; gicr_set_icenabler0 base id
  else gicd_set_icenabler gicd id.
Definition gicv3_get_ispendr (id : Z) : G Z :=
  gicd ← need_gicd3;
  assert_ (IS_VALID_INTR_ID id);;
  v ← (if id <? MIN_SPI_ID then base ← need_rdist cpu; gicr_read_ispendr0 base
       else gicd_read_ispendr gicd id);
  mret (pending_bit v id).
Definition gicv3_set_icpendr (id : Z) : G unit :=
  gicd ← need_gicd3;
  assert_ (IS_SPI id || IS_PPI id);;
  if id <? MIN_SPI_ID then base ← need_rdist cpu; gicr_set_icpendr0 base id
  else gicd_set_icpendr gicd id.

Definition gicv3_acknowledge_interrupt : G Z :=
  v ← read_sysreg ICC_IAR1_EL1; mret (Z.land v IAR1_EL1_INTID_MASK).
Definition gicv3_end_of_interrupt (id : Z) : G unit := write_sysreg ICC_EOIR1_EL1 id.

(** The do-while loop over the redistributors of one frame, at most [n]
    rounds: the address of the one with the given affinity *)
Fixpoint probe_frame (n : nat) (affinity rdistif_base : Z) : G (option Z) :=
  match n with
  | O => fail FuelOut
  | S n' =>
      typer_val ← gicr_read_typer rdistif_base;
      if affinity =? Z.land (Z.shiftr typer_val TYPER_AFF_VAL_SHIFT) TYPER_AFF_VAL_MASK
      then mret (Some rdistif_base)
      else if Z.land typer_val TYPER_LAST_BIT =? 0
      then probe_frame n' affinity (u64 (rdistif_base + Z.shiftl 1 GICR_PCPUBASE_SHIFT))
      else mret None
  end.

(** The loop over the frames, up to the 0 that ends the list *)
Fixpoint probe_frames (n : nat) (affinity : Z) (frames : list Z) : G (option Z) :=
  match frames with
  | [] => fail OutOfBounds
  | frame :: frames' =>
      if frame =? 0 then mret None
      else
        r ← probe_frame n affinity frame;
        match r with
        | Some base => mret (Some base)
        | None => probe_frames n affinity frames'
        end
  end.

Definition gicv3_probe_redistif_addr (n : nat) : G unit :=
  s ← get;
  frames ← (match gicr_frames (v3 s) with Some l => mret l | None => fail AssertFail end);
  cur ← aget (rdist_pcpu_base (v3 s)) cpu;
  if negb (cur =? 0) then mret tt
  else
    let mpidr := Z.land (mpidr_el1 p cpu) MPIDR_AFFINITY_MASK in
    r ← probe_frames n (gic_typer_affinity_from_mpidr mpidr) frames;
    match r with
    | None => fail PanicCall
    | Some base =>
        s ← get;
        rl ← aset (rdist_pcpu_base (v3 s)) cpu base;
        ml ← aset (mpidr_list (v3 s)) cpu mpidr;
        update_v3 (λ x, {| gicr_frames := gicr_frames x;
                           gicv3_gicd_base_addr := gicv3_gicd_base_addr x; pcpu_ctx := pcpu_ctx x;
                           rdist_pcpu_base := rl; mpidr_list := ml |})
    end.

Definition gicv3_setup_distif : G unit :=
  base ← need_gicd3;
  assert_ (feat_gic p);;
  sre ← is_sre_enabled;
  assert_ sre;;
  v ← gicd_read_ctlr base;
  assert_ (negb (Z.land v (Z.shiftl GICD_CTLR_ARE_NS_MASK GICD_CTLR_ARE_NS_SHIFT) =? 0));;
  gicd_write_ctlr base (Z.lor v GICD_CTLR_ENABLE_GRP1A).

Definition gicv3_init (frames : option (list Z)) (gicd : Z) : G unit :=
  assert_ (match frames with Some _ => true | None => false end);;
  assert_ (negb (gicd =? 0));;
  update_v3 (λ x, {| gicr_frames := frames; gicv3_gicd_base_addr := gicd; pcpu_ctx := pcpu_ctx x;
                     rdist_pcpu_base := rdist_pcpu_base x; mpidr_list := mpidr_list x |});;
  gicv2v3_irq_setup.

Definition gicv3_get_gicd_typer : G Z :=
  s ← get; gicd_read_typer (gicv3_gicd_base_addr (v3 s)).

End Gic_ops.
