(* ===== verification/GicV5.v ===== *)
(** * GICv5 driver (drivers/arm/gic/aarch64/gic_v5.c)

    Interrupts of the CPU (PPIs) are handled through system registers of the
    CPU, the others (SPIs and LPIs) with instructions to the interrupt routing
    service; SGIs are LPIs. *)

From S2P Require Import Prelude Gic.

Local Open Scope Z_scope.

(** ** Registers (gic_v5.h, arch.h) *)

Definition INT_PPI : Z := 1.
Definition INT_LPI : Z := 2.
Definition INT_SPI : Z := 3.
Definition GICV5_MAX_PPI_ID : Z := 128.
Definition GICV5_IDLE_PRIORITY : Z := 0xff.
Definition IRQ_NUM_SGIS : Z := 8.

Definition ICC_CR0_EL1_EN_BIT : Z := Z.shiftl 1 0.
Definition ICC_ICSR_EL1_F_BIT : Z := Z.shiftl 1 0.
Definition ICC_ICSR_EL1_PENDING_BIT : Z := Z.shiftl 1 2.
Definition ICC_PPI_PRIORITYR_FIELD_NUM : Z := 8.
Definition ICC_PPI_PRIORITYR_FIELD_MASK : Z := 0xff.
Definition ICC_PPI_ENABLER_FIELD_NUM : Z := 64.
Definition ICC_PPI_XPENDR_FIELD_NUM : Z := 64.
Definition GICCDAFF_IAFFID_SHIFT : Z := 32.
Definition GICCDPRI_PRIORITY_SHIFT : Z := 35.
Definition GICCDPRI_PRIORITY_WIDTH : Z := 5.
Definition GICCDPEND_PENDING_BIT : Z := Z.shiftl 1 32.
Definition GICRCDIA_VALID_BIT : Z := Z.shiftl 1 32.
Definition IRS_IDR2 : Z := 0x0008.
Definition IRS_CR0 : Z := 0x0080.
Definition IRS_IST_BASER : Z := 0x0180.
Definition IRS_IST_CFGR : Z := 0x0190.
Definition IRS_IST_STATUSR : Z := 0x0194.
Definition IRS_CR0_IRSEN_BIT : Z := Z.shiftl 1 0.
Definition IRS_CR0_IDLE_BIT : Z := Z.shiftl 1 1.
Definition IRS_IST_STATUSR_IDLE_BIT : Z := Z.shiftl 1 0.
Definition IRS_IST_BASER_VALID_BIT : Z := Z.shiftl 1 0.

(** [MASK(regfield)], [EXTRACT(regfield, reg)] and [INPLACE(regfield, val)], for
    a field given by its shift and width *)
Definition MASK (shift width : Z) : Z :=
  u64 (Z.shiftl (Z.shiftr UINT64_MAX (64 - width)) shift).
Definition EXTRACT (shift width reg : Z) : Z := Z.shiftr (Z.land reg (MASK shift width)) shift.
Definition INPLACE (shift val : Z) : Z := u64 (Z.shiftl val shift).

(** [EXTRACT(INT_TYPE, id)] and [EXTRACT(INT_ID, id)] *)
Definition INT_TYPE (id : Z) : Z := EXTRACT 29 3 id.
Definition INT_ID (id : Z) : Z := EXTRACT 0 24 id.

Definition is_interrupt (id : Z) : bool :=
  (INT_TYPE id =? INT_PPI) || (INT_TYPE id =? INT_LPI) || (INT_TYPE id =? INT_SPI).
Definition gicv5_is_irq_spi (irq_num : Z) : bool := INT_TYPE irq_num =? INT_SPI.

(** utils_def.h *)
Definition next_power_of_2 (x : Z) : Z :=
  let b2 y := Z.lor y (Z.shiftr y 1) in
  let b4 y := Z.lor (b2 y) (Z.shiftr (b2 y) 2) in
  let b8 y := Z.lor (b4 y) (Z.shiftr (b4 y) 4) in
  let b16 y := Z.lor (b8 y) (Z.shiftr (b8 y) 8) in
  let b32 y := Z.lor (b16 y) (Z.shiftr (b16 y) 16) in
  b32 (x - 1) + 1.

Section GicV5_ops.

Context {D : Type} `{!GicHw D} (p : gic_plat) (cpu : Z).

Abbreviation G := (M (gic_state D)).

Definition is_gicv5_mode : bool := feat_gcie p.

Definition update_v5 (f : gicv5_vars → gicv5_vars) : G unit := modify (λ s, set_v5 s (f (v5 s))).

(** The registers [icc_ppi_priorityr0] to [icc_ppi_priorityr15] *)
Definition read_icc_ppi_priorityrn (n : Z) : G Z :=
  if (0 <=? n) && (n <=? 15) then read_sysreg cpu (ICC_PPI_PRIORITYR n) else fail PanicCall.
Definition write_icc_ppi_priorityrn (n val : Z) : G unit :=
  if (0 <=? n) && (n <=? 15) then write_sysreg cpu (ICC_PPI_PRIORITYR n) val else fail PanicCall.

Definition gicv5_enable_cpuif : G unit :=
  v ← read_sysreg cpu ICC_CR0_EL1;
  write_sysreg cpu ICC_CR0_EL1 (Z.lor v ICC_CR0_EL1_EN_BIT).

Definition gicv5_setup_cpuif : G unit :=
  id ← read_sysreg cpu ICC_IAFFIDR_EL1;
  s ← get;
  l ← aset (iaffids (v5 s)) cpu (wrap 16 id);
  update_v5 (λ x, {| irs_base := irs_base x; cpu_ctx := cpu_ctx x; iaffids := l;
                     v5_ppi_desc_table := v5_ppi_desc_table x;
                     v5_spi_desc_table := v5_spi_desc_table x;
                     v5_lpi_desc_table := v5_lpi_desc_table x |});;
  write_sysreg cpu ICC_PCR_EL1 GICV5_IDLE_PRIORITY;;
  gicv5_enable_cpuif.

Definition gicv5_disable_cpuif : G unit :=
  v ← read_sysreg cpu ICC_CR0_EL1;
  write_sysreg cpu ICC_CR0_EL1 (Z.land v (u64 (Z.lnot ICC_CR0_EL1_EN_BIT))).

(** The loops [for (int i = 0; i < 15; i++)] over the priority registers *)
Fixpoint save_prios (n : nat) (i : Z) (l : list Z) : G (list Z) :=
  match n with
  | O => mret l
  | S n' =>
      v ← read_icc_ppi_priorityrn i;
      l ← aset l i v;
      save_prios n' (i + 1) l
  end.
Fixpoint restore_prios (n : nat) (i : Z) (l : list Z) : G unit :=
  match n with
  | O => mret tt
  | S n' =>
      v ← aget l i;
      write_icc_ppi_priorityrn i v;;
      restore_prios n' (i + 1) l
  end.

Definition gicv5_save_cpuif_context : G unit :=
  s ← get;
  c ← aget (cpu_ctx (v5 s)) cpu;
  cr0 ← read_sysreg cpu ICC_CR0_EL1;
  en0 ← read_sysreg cpu (ICC_PPI_ENABLER 0);
  en1 ← read_sysreg cpu (ICC_PPI_ENABLER 1);
  pe0 ← read_sysreg cpu (ICC_PPI_SPENDR 0);
  pe1 ← read_sysreg cpu (ICC_PPI_SPENDR 1);
  prio ← save_prios 15 0 (icc_ppi_priorityr c);
  s ← get;
  l ← aset (cpu_ctx (v5 s)) cpu
        {| icc_cr0_el1 := cr0; icc_ppi_enabler := [en0; en1]; icc_ppi_xpendr := [pe0; pe1];
           icc_ppi_priorityr := prio |};
  update_v5 (λ x, {| irs_base := irs_base x; cpu_ctx := l; iaffids := iaffids x;
                     v5_ppi_desc_table := v5_ppi_desc_table x;
                     v5_spi_desc_table := v5_spi_desc_table x;
                     v5_lpi_desc_table := v5_lpi_desc_table x |});;
  a0 ← read_sysreg cpu (ICC_PPI_SACTIVER 0);
  (if a0 =? 0 then
     a1 ← read_sysreg cpu (ICC_PPI_SACTIVER 1); assert_ (a1 =? 0)
   else fail AssertFail).

Definition gicv5_restore_cpuif_context : G unit :=
  s ← get;
  c ← aget (cpu_ctx (v5 s)) cpu;
  en0 ← aget (icc_ppi_enabler c) 0;
  en1 ← aget (icc_ppi_enabler c) 1;
  pe0 ← aget (icc_ppi_xpendr c) 0;
  pe1 ← aget (icc_ppi_xpendr c) 1;
  write_sysreg cpu (ICC_PPI_ENABLER 0) en0;;
  write_sysreg cpu (ICC_PPI_ENABLER 1) en1;;
  write_sysreg cpu (ICC_PPI_SPENDR 0) pe0;;
  write_sysreg cpu (ICC_PPI_SPENDR 1) pe1;;
  write_sysreg cpu (ICC_PPI_CPENDR 0) (Z.lnot pe0);;
  write_sysreg cpu (ICC_PPI_CPENDR 1) (Z.lnot pe1);;
  restore_prios 15 0 (icc_ppi_priorityr c);;
  write_sysreg cpu ICC_PCR_EL1 GICV5_IDLE_PRIORITY;;
  write_sysreg cpu ICC_CR0_EL1 (icc_cr0_el1 c).

(** [priority] is 32 bits wide: shifting it by 32 or more is undefined. *)
Definition gicv5_set_priority (interrupt_id priority : Z) : G unit :=
  assert_ (priority <? Z.shiftl 1 GICCDPRI_PRIORITY_WIDTH);;
  assert_ (is_interrupt interrupt_id);;
  if negb (INT_TYPE interrupt_id =? INT_PPI) then
    write_sysreg cpu GICCDPRI (Z.lor interrupt_id (INPLACE GICCDPRI_PRIORITY_SHIFT priority))
  else
    let id := INT_ID interrupt_id in
    let irq_reg := id / ICC_PPI_PRIORITYR_FIELD_NUM in
    let irq_idx := id mod ICC_PPI_PRIORITYR_FIELD_NUM in
    v ← read_icc_ppi_priorityrn irq_reg;
    let priorityr :=
      Z.land v (u64 (Z.shiftl ICC_PPI_PRIORITYR_FIELD_MASK
                       (irq_idx * ICC_PPI_PRIORITYR_FIELD_NUM))) in
    (if 32 <=? irq_idx * ICC_PPI_PRIORITYR_FIELD_NUM then fail OutOfBounds else mret tt);;
    write_icc_ppi_priorityrn irq_reg
      (Z.lor priorityr (u32 (Z.shiftl priority (irq_idx * ICC_PPI_PRIORITYR_FIELD_NUM)))).

Definition gicv5_get_sgi_num (index core_pos : Z) : G Z :=
  assert_ (index <=? IRQ_NUM_SGIS);;
  mret (u32 (Z.lor (u32 (core_pos * IRQ_NUM_SGIS + index)) (INPLACE 29 INT_LPI))).

Definition gicv5_send_sgi (sgi_id core_pos : Z) : G unit :=
  num ← gicv5_get_sgi_num sgi_id core_pos;
  write_sysreg cpu GICCDPEND (Z.lor num GICCDPEND_PENDING_BIT).

Definition gicv5_set_intr_route (interrupt_id core_pos : Z) : G unit :=
  assert_ (is_interrupt interrupt_id);;
  if INT_TYPE interrupt_id =? INT_PPI then mret tt
  else
    s ← get;
    id ← aget (iaffids (v5 s)) core_pos;
    assert_ (negb (id =? 0) || (core_pos =? 0));;
    write_sysreg cpu GICCDAFF (Z.lor (INPLACE GICCDAFF_IAFFID_SHIFT id) interrupt_id).

(** The register a PPI's enable or pending bit is in, and its bit there *)
Definition ppi_reg (id : Z) : Z := if INT_ID id / 64 =? 0 then 0 else 1.
Definition ppi_bit (id : Z) : Z := Z.shiftl 1 (INT_ID id mod 64).

Definition gicv5_intr_enable (interrupt_id : Z) : G unit :=
  assert_ (is_interrupt interrupt_id);;
  if negb (INT_TYPE interrupt_id =? INT_PPI) then write_sysreg cpu GICCDEN interrupt_id
  else
    let r := ICC_PPI_ENABLER (ppi_reg interrupt_id) in
    v ← read_sysreg cpu r;
    write_sysreg cpu r (Z.lor v (ppi_bit interrupt_id)).

Definition gicv5_intr_disable (interrupt_id : Z) : G unit :=
  assert_ (is_interrupt interrupt_id);;
  if negb (INT_TYPE interrupt_id =? INT_PPI) then write_sysreg cpu GICCDDIS interrupt_id
  else
    let r := ICC_PPI_ENABLER (ppi_reg interrupt_id) in
    v ← read_sysreg cpu r;
    write_sysreg cpu r (Z.land v (u64 (Z.lnot (ppi_bit interrupt_id)))).

Definition gicv5_acknowledge_interrupt : G Z :=
  iar ← read_sysreg cpu GICRCDIA;
  assert_ (negb (Z.land iar GICRCDIA_VALID_BIT =? 0));;
  mret (u32 (Z.land iar (u64 (Z.lnot GICRCDIA_VALID_BIT)))).

Definition gicv5_is_intr_pending (interrupt_id : Z) : G Z :=
  assert_ (is_interrupt interrupt_id);;
  if negb (INT_TYPE interrupt_id =? INT_PPI) then
    write_sysreg cpu GICCDRCFG interrupt_id;;
    icsr ← read_sysreg cpu ICC_ICSR_EL1;
    assert_ (Z.land icsr ICC_ICSR_EL1_F_BIT =? 0);;
    mret (if Z.land icsr ICC_ICSR_EL1_PENDING_BIT =? 0 then 0 else 1)
  else
    v ← read_sysreg cpu (ICC_PPI_SPENDR (ppi_reg interrupt_id));
    mret (if Z.land v (ppi_bit interrupt_id) =? 0 then 0 else 1).

Definition gicv5_intr_clear (interrupt_id : Z) : G unit :=
  assert_ (is_interrupt interrupt_id);;
  if negb (INT_TYPE interrupt_id =? INT_PPI) then write_sysreg cpu GICCDPEND interrupt_id
  else
    let r := ICC_PPI_CPENDR (ppi_reg interrupt_id) in
    v ← read_sysreg cpu r;
    write_sysreg cpu r (Z.lor v (ppi_bit interrupt_id)).

Definition gicv5_end_of_interrupt (raw_iar : Z) : G unit :=
  write_sysreg cpu GICCDDI raw_iar;; write_sysreg cpu GICCDEOI 0.

(** The waits for an idle bit, at most [n] reads *)
Fixpoint wait_for_idle (n : nat) (addr bit : Z) : G unit :=
  match n with
  | O => fail FuelOut
  | S n' =>
      v ← mmio_read_32 cpu addr;
      if Z.land v bit =? 0 then wait_for_idle n' addr bit else mret tt
  end.

(** [ist_addr] is the address of the array [ist]. *)
Definition gicv5_setup (n : nat) (ist_addr : Z) : G unit :=
  s ← get;
  let base := irs_base (v5 s) in
  irs_idr2 ← mmio_read_32 cpu (u64 (base + IRS_IDR2));
  let id_bits := Z.log2 (next_power_of_2 (PLATFORM_CORE_COUNT p) * IRQ_NUM_SGIS) in
  assert_ (EXTRACT 5 4 irs_idr2 <=? id_bits);;
  assert_ (id_bits <=? EXTRACT 0 5 irs_idr2);;
  mmio_write_32 cpu (u64 (base + IRS_IST_CFGR)) id_bits;;
  mmio_write_32 cpu (u64 (base + IRS_IST_BASER))
    (Z.lor (Z.land ist_addr (MASK 6 50)) IRS_IST_BASER_VALID_BIT);;
  wait_for_idle n (u64 (base + IRS_IST_STATUSR)) IRS_IST_STATUSR_IDLE_BIT;;
  mmio_write_32 cpu (u64 (base + IRS_CR0)) IRS_CR0_IRSEN_BIT;;
  wait_for_idle n (u64 (base + IRS_CR0)) IRS_CR0_IDLE_BIT.

Definition gicv5_get_irq_handler (irq_num : Z) : G slot :=
  if INT_TYPE irq_num =? INT_PPI then mret (V5PpiSlot cpu (INT_ID irq_num))
  else if INT_TYPE irq_num =? INT_LPI then mret (V5LpiSlot (INT_ID irq_num))
  else if INT_TYPE irq_num =? INT_SPI then mret (V5SpiSlot (INT_ID irq_num))
  else fail PanicCall.

Definition gicv5_init (irs_base_addr : Z) : G unit :=
  let cores := Z.to_nat (PLATFORM_CORE_COUNT p) in
  update_v5 (λ x,
    {| irs_base := irs_base_addr; cpu_ctx := cpu_ctx x; iaffids := iaffids x;
       v5_ppi_desc_table := replicate cores (replicate (Z.to_nat GICV5_MAX_PPI_ID) None);
       v5_spi_desc_table := replicate (Z.to_nat (PLAT_MAX_SPI_OFFSET_ID p)) None;
       v5_lpi_desc_table := replicate (Z.to_nat (PLATFORM_CORE_COUNT p * IRQ_NUM_SGIS)) None |}).

End GicV5_ops.
