(* ===== verification/Irq.v ===== *)
(** * Interrupt management (lib/exceptions/irq.c, drivers/arm/gic/arm_gic.c)

    arm_gic.c chooses the driver of the GIC that was detected; irq.c keeps the
    handlers of interrupts and runs them. *)

From S2P Require Import Prelude Gic GicV5.

Local Open Scope Z_scope.

(** The static variables before [arm_gic_probe()]: the initialisers
    [{UINT32_MAX}] and [{UINT64_MAX}] set the first element only. *)
Definition zero_ctx2 : gicv2_pcpu_ctx :=
  {| gicc_ctlr := 0; gicd_isenabler0 := 0; gicd_ipriorityr := replicate prio_regs 0;
     gicd_icfgr := 0 |}.
Definition zero_ctx3 : gicv3_pcpu_ctx :=
  {| is_suspended := 0; icc_igrpen1 := 0; gicr_isenabler := 0;
     gicr_ipriorityr := replicate prio_regs 0; gicr_icfgr := 0 |}.
Definition zero_ctx5 : gicv5_pcpu_ctx :=
  {| icc_cr0_el1 := 0; icc_ppi_enabler := [0; 0]; icc_ppi_xpendr := [0; 0];
     icc_ppi_priorityr := replicate 16 0 |}.

Definition first_only (n : nat) (x : Z) : list Z :=
  match n with O => [] | S n' => x :: replicate n' 0 end.

Definition gicv2_static (p : gic_plat) : gicv2_vars :=
  {| pcpu_gic_ctx := replicate (Z.to_nat (PLATFORM_CORE_COUNT p)) zero_ctx2;
     gicc_base_addr := 0; gicv2_gicd_base_addr := 0;
     gic_cpu_id := first_only (Z.to_nat (PLATFORM_CORE_COUNT p)) UINT32_MAX |}.
Definition gicv3_static (p : gic_plat) : gicv3_vars :=
  {| gicr_frames := None; gicv3_gicd_base_addr := 0;
     pcpu_ctx := replicate (Z.to_nat (PLATFORM_CORE_COUNT p)) zero_ctx3;
     rdist_pcpu_base := replicate (Z.to_nat (PLATFORM_CORE_COUNT p)) 0;
     mpidr_list := first_only (Z.to_nat (PLATFORM_CORE_COUNT p)) UINT64_MAX |}.
Definition gicv5_static (p : gic_plat) : gicv5_vars :=
  {| irs_base := 0; cpu_ctx := replicate (Z.to_nat (PLATFORM_CORE_COUNT p)) zero_ctx5;
     iaffids := replicate (Z.to_nat (PLATFORM_CORE_COUNT p)) 0;
     v5_ppi_desc_table := replicate (Z.to_nat (PLATFORM_CORE_COUNT p))
                            (replicate (Z.to_nat GICV5_MAX_PPI_ID) None);
     v5_spi_desc_table := replicate (Z.to_nat (PLAT_MAX_SPI_OFFSET_ID p)) None;
     v5_lpi_desc_table := replicate (Z.to_nat (PLATFORM_CORE_COUNT p * IRQ_NUM_SGIS)) None |}.
Definition descs_static (p : gic_plat) : desc_tables :=
  let cores := Z.to_nat (PLATFORM_CORE_COUNT p) in
  {| spi_desc_table := replicate (Z.to_nat (PLAT_MAX_SPI_OFFSET_ID p + 1)) None;
     ppi_desc_table := replicate cores (replicate (Z.to_nat (MAX_PPI_ID + 1 - MIN_PPI_ID)) None);
     sgi_desc_table := replicate cores (replicate (Z.to_nat (MAX_SGI_ID + 1)) None);
     spurious_desc_handler := None |}.

Definition gic_boot {D} (p : gic_plat) (d : D) : gic_state D :=
  {| v2 := gicv2_static p; v3 := gicv3_static p; v5 := gicv5_static p; descs := descs_static p;
     gicv3_detected := false; gicv5_detected := false; gic_done_init := false;
     shared_irq_lock := false; dev := d |}.

Section Irq_ops.

Context {D : Type} `{!GicHw D} (p : gic_plat) (cpu : Z).

Abbreviation G := (M (gic_state D)).

(** ** arm_gic.c *)

(** The choice every function of the file makes *)
Definition by_version {A} (on3 on5 on2 : G A) : G A :=
  s ← get;
  if gicv3_detected s then on3 else if gicv5_detected s then on5 else on2.

Definition arm_gic_get_version : G Z :=
  s ← get;
  assert_ (gic_done_init s);;
  mret (if gicv3_detected s then 3 else if gicv5_detected s then 5 else 2).

Definition arm_gic_enable_interrupts_local : G unit :=
  by_version (gicv3_enable_cpuif cpu) (gicv5_enable_cpuif cpu) (gicv2_enable_cpuif cpu).
Definition arm_gic_setup_local (n : nat) : G unit :=
  by_version (gicv3_probe_redistif_addr p cpu n;; gicv3_setup_cpuif cpu)
    (gicv5_setup_cpuif cpu)
    (gicv2_probe_gic_cpu_id p cpu;; gicv2_setup_cpuif cpu).
Definition arm_gic_disable_interrupts_local : G unit :=
  by_version (gicv3_disable_cpuif cpu) (gicv5_disable_cpuif cpu) (gicv2_disable_cpuif cpu).
Definition arm_gic_save_context_local : G unit :=
  by_version (gicv3_save_cpuif_context cpu) (gicv5_save_cpuif_context cpu)
    (gicv2_save_cpuif_context cpu).
Definition arm_gic_restore_context_local : G unit :=
  by_version (gicv3_restore_cpuif_context cpu) (gicv5_restore_cpuif_context cpu)
    (gicv2_restore_cpuif_context cpu).
Definition arm_gic_save_context_global : G unit :=
  by_version (gicv3_save_sgi_ppi_context p cpu) (mret tt) (gicv2_save_sgi_ppi_context cpu).
Definition arm_gic_restore_context_global : G unit :=
  by_version (gicv3_setup_distif p cpu;; gicv3_restore_sgi_ppi_context p cpu)
    (mret tt)
    (gicv2_setup_distif cpu;; gicv2_restore_sgi_ppi_context cpu).
Definition arm_gic_setup_global (n : nat) (ist_addr : Z) : G unit :=
  by_version (gicv3_setup_distif p cpu) (gicv5_setup p cpu n ist_addr) (gicv2_setup_distif cpu).
Definition arm_gic_get_intr_priority (num : Z) : G Z :=
  by_version (gicv3_get_ipriorityr cpu num) (fail AssertFail) (gicv2_gicd_get_ipriorityr cpu num).
Definition arm_gic_set_intr_priority (num priority : Z) : G unit :=
  by_version (gicv3_set_ipriorityr cpu num priority) (gicv5_set_priority cpu num priority)
    (gicv2_gicd_set_ipriorityr cpu num priority).
Definition arm_gic_get_sgi_num (seq_id core_pos : Z) : G Z :=
  s ← get;
  if gicv5_detected s then gicv5_get_sgi_num seq_id core_pos
  else mret (gicv2v3_get_sgi_num seq_id core_pos).
Definition arm_gic_send_sgi (sgi_id core_pos : Z) : G unit :=
  by_version (gicv3_send_sgi p cpu sgi_id core_pos) (gicv5_send_sgi cpu sgi_id core_pos)
    (gicv2_send_sgi cpu sgi_id core_pos).
Definition arm_gic_set_intr_target (num core_pos : Z) : G unit :=
  by_version (gicv3_set_intr_route p cpu num core_pos) (gicv5_set_intr_route cpu num core_pos)
    (gicv2_set_itargetsr p cpu num core_pos).
Definition arm_gic_intr_enabled (num : Z) : G bool :=
  by_version (v ← gicv3_get_isenabler cpu num; mret (negb (v =? 0))) (fail AssertFail)
    (v ← gicv2_gicd_get_isenabler cpu num; mret (negb (v =? 0))).
Definition arm_gic_intr_enable (num : Z) : G unit :=
  by_version (gicv3_set_isenabler cpu num) (gicv5_intr_enable cpu num)
    (gicv2_gicd_set_isenabler cpu num).
Definition arm_gic_intr_disable (num : Z) : G unit :=
  by_version (gicv3_set_icenabler cpu num) (gicv5_intr_disable cpu num)
    (gicv2_gicd_set_icenabler cpu num).

(** The interrupt and the raw value *)
Definition arm_gic_intr_ack : G (Z * Z) :=
  by_version (v ← gicv3_acknowledge_interrupt cpu; mret (u32 v, u32 v))
    (v ← gicv5_acknowledge_interrupt cpu; mret (v, v))
    (v ← gicv2_gicc_read_iar cpu; mret (get_gicc_iar_intid v, v)).
Definition arm_gic_is_intr_pending (num : Z) : G Z :=
  by_version (gicv3_get_ispendr cpu num) (gicv5_is_intr_pending cpu num)
    (gicv2_gicd_get_ispendr cpu num).
Definition arm_gic_intr_clear (num : Z) : G unit :=
  by_version (gicv3_set_icpendr cpu num) (gicv5_intr_clear cpu num)
    (gicv2_gicd_set_icpendr cpu num).
Definition arm_gic_end_of_intr (raw_iar : Z) : G unit :=
  by_version (gicv3_end_of_interrupt cpu raw_iar) (gicv5_end_of_interrupt cpu raw_iar)
    (gicv2_gicc_write_eoir cpu raw_iar).

Definition arm_gic_probe : G unit :=
  is3 ← is_gicv3_mode p cpu;
  s ← get;
  put (if is3 : bool then set_detected s true (gicv5_detected s) true
       else if is_gicv5_mode p then set_detected s (gicv3_detected s) true true
       else set_detected s (gicv3_detected s) (gicv5_detected s) true).

Definition arm_gic_init_frames (gicc gicd : Z) (frames : option (list Z)) : G unit :=
  by_version (assert_ (match frames with Some _ => true | None => false end);;
              gicv3_init p frames gicd)
    (gicv5_init p gicd)
    (gicv2_init p cpu gicc gicd).
Definition arm_gic_init (gicc gicd gicr : Z) : G unit :=
  arm_gic_init_frames gicc gicd (Some [gicr; 0]).

Definition arm_gic_is_espi_supported : G bool :=
  s ← get;
  if negb (gicv3_detected s) then mret false
  else v ← gicv3_get_gicd_typer cpu; mret (negb (Z.land v TYPER_ESPI =? 0)).

Definition arm_gic_get_irq_handler (irq_num : Z) : G slot :=
  s ← get;
  if gicv5_detected s then gicv5_get_irq_handler cpu irq_num
  else gicv2v3_get_irq_handler p cpu irq_num.
Definition arm_gic_is_irq_shared (irq_num : Z) : G bool :=
  s ← get;
  mret (if gicv5_detected s then gicv5_is_irq_spi irq_num else gicv2v3_is_irq_spi p irq_num).

(** ** Handlers behind a pointer *)

Definition aget2 (t : list (list irq_handler_t)) (i j : Z) : G irq_handler_t :=
  row ← aget t i; aget row j.
Definition aset2 (t : list (list irq_handler_t)) (i j : Z) (h : irq_handler_t)
    : G (list (list irq_handler_t)) :=
  row ← aget t i; row ← aset row j h; aset t i row.

Definition read_slot (x : slot) : G irq_handler_t :=
  s ← get;
  match x with
  | SpiSlot i => aget (spi_desc_table (descs s)) i
  | PpiSlot c i => aget2 (ppi_desc_table (descs s)) c i
  | SgiSlot c i => aget2 (sgi_desc_table (descs s)) c i
  | SpuriousSlot => mret (spurious_desc_handler (descs s))
  | V5PpiSlot c i => aget2 (v5_ppi_desc_table (v5 s)) c i
  | V5LpiSlot i => aget (v5_lpi_desc_table (v5 s)) i
  | V5SpiSlot i => aget (v5_spi_desc_table (v5 s)) i
  end.

Definition write_slot (x : slot) (h : irq_handler_t) : G unit :=
  s ← get;
  let d := descs s in
  let e := v5 s in
  match x with
  | SpiSlot i =>
      l ← aset (spi_desc_table d) i h;
      put (set_descs s {| spi_desc_table := l; ppi_desc_table := ppi_desc_table d;
                          sgi_desc_table := sgi_desc_table d;
                          spurious_desc_handler := spurious_desc_handler d |})
  | PpiSlot c i =>
      l ← aset2 (ppi_desc_table d) c i h;
      put (set_descs s {| spi_desc_table := spi_desc_table d; ppi_desc_table := l;
                          sgi_desc_table := sgi_desc_table d;
                          spurious_desc_handler := spurious_desc_handler d |})
  | SgiSlot c i =>
      l ← aset2 (sgi_desc_table d) c i h;
      put (set_descs s {| spi_desc_table := spi_desc_table d; ppi_desc_table := ppi_desc_table d;
                          sgi_desc_table := l;
                          spurious_desc_handler := spurious_desc_handler d |})
  | SpuriousSlot =>
      put (set_descs s {| spi_desc_table := spi_desc_table d; ppi_desc_table := ppi_desc_table d;
                          sgi_desc_table := sgi_desc_table d; spurious_desc_handler := h |})
  | V5PpiSlot c i =>
      l ← aset2 (v5_ppi_desc_table e) c i h;
      put (set_v5 s {| irs_base := irs_base e; cpu_ctx := cpu_ctx e; iaffids := iaffids e;
                       v5_ppi_desc_table := l; v5_spi_desc_table := v5_spi_desc_table e;
                       v5_lpi_desc_table := v5_lpi_desc_table e |})
  | V5LpiSlot i =>
      l ← aset (v5_lpi_desc_table e) i h;
      put (set_v5 s {| irs_base := irs_base e; cpu_ctx := cpu_ctx e; iaffids := iaffids e;
                       v5_ppi_desc_table := v5_ppi_desc_table e;
                       v5_spi_desc_table := v5_spi_desc_table e; v5_lpi_desc_table := l |})
  | V5SpiSlot i =>
      l ← aset (v5_spi_desc_table e) i h;
      put (set_v5 s {| irs_base := irs_base e; cpu_ctx := cpu_ctx e; iaffids := iaffids e;
                       v5_ppi_desc_table := v5_ppi_desc_table e; v5_spi_desc_table := l;
                       v5_lpi_desc_table := v5_lpi_desc_table e |})
  end.

(** ** irq.c *)

Definition tftf_irq_get_my_sgi_num (seq_id : Z) : G Z := arm_gic_get_sgi_num seq_id cpu.

(** [online] is [tftf_is_core_pos_online()]. *)
Definition tftf_send_sgi (online : Z → bool) (sgi_id core_pos : Z) : G unit :=
  assert_ (online core_pos);; arm_gic_send_sgi sgi_id core_pos.

Definition tftf_irq_enable (irq_num irq_priority : Z) : G unit :=
  arm_gic_set_intr_target irq_num cpu;;
  arm_gic_set_intr_priority irq_num irq_priority;;
  arm_gic_intr_enable irq_num.
Definition tftf_irq_enable_sgi (sgi_id irq_priority : Z) : G unit :=
  irq_num ← tftf_irq_get_my_sgi_num sgi_id; tftf_irq_enable irq_num irq_priority.
Definition tftf_irq_disable (irq_num : Z) : G unit := arm_gic_intr_disable irq_num.
Definition tftf_irq_disable_sgi (sgi_id : Z) : G unit :=
  irq_num ← tftf_irq_get_my_sgi_num sgi_id; tftf_irq_disable irq_num.

Definition HANDLER_VALID (handler : irq_handler_t) (expect_handler : bool) : bool :=
  match handler with Some _ => expect_handler | None => negb expect_handler end.

Definition spin_lock_irq : G unit :=
  s ← get; if shared_irq_lock s then fail FuelOut else put (set_lock s true).
Definition spin_unlock_irq : G unit := modify (λ s, set_lock s false).

Definition tftf_irq_update_handler (irq_num : Z) (irq_handler : irq_handler_t)
    (expect_handler : bool) : G Z :=
  cur_handler ← arm_gic_get_irq_handler irq_num;
  shared ← arm_gic_is_irq_shared irq_num;
  (if shared : bool then spin_lock_irq else mret tt);;
  h ← read_slot cur_handler;
  assert_ (HANDLER_VALID h expect_handler);;
  ret ← (if HANDLER_VALID h expect_handler then write_slot cur_handler irq_handler;; mret 0
         else mret (-1));
  shared ← arm_gic_is_irq_shared irq_num;
  (if shared : bool then spin_unlock_irq else mret tt);;
  mret ret.

Definition tftf_irq_register_handler (irq_num : Z) (irq_handler : irq_handler_t) : G Z :=
  tftf_irq_update_handler irq_num irq_handler false.
Definition tftf_irq_register_handler_sgi (sgi_id : Z) (irq_handler : irq_handler_t) : G Z :=
  irq_num ← tftf_irq_get_my_sgi_num sgi_id; tftf_irq_register_handler irq_num irq_handler.
Definition tftf_irq_unregister_handler (irq_num : Z) : G Z :=
  tftf_irq_update_handler irq_num None true.
Definition tftf_irq_unregister_handler_sgi (sgi_id : Z) : G Z :=
  irq_num ← tftf_irq_get_my_sgi_num sgi_id; tftf_irq_unregister_handler irq_num.

(** [call h irq_num] is what handler [h] does and returns. *)
Definition tftf_irq_handler_dispatcher (call : Z → Z → G Z) : G Z :=
  ack ← arm_gic_intr_ack;
  let irq_num := ack.1 in
  let raw_iar := ack.2 in
  handler ← arm_gic_get_irq_handler irq_num;
  h ← read_slot handler;
  rc ← (match h with Some f => call f irq_num | None => mret 0 end);
  (if negb (irq_num =? GIC_SPURIOUS_INTERRUPT) then arm_gic_end_of_intr raw_iar else mret tt);;
  mret rc.

Definition tftf_irq_setup : G unit := modify (λ s, set_lock s false).

End Irq_ops.
