(* ===== verification/GicSpec.v ===== *)
(** * What the GIC drivers rely on, and what they do with it

    The class [GicOk] states what the GICv2 and GICv3 architectures document of
    the registers the drivers use, for a register map; [gicv2_map] and
    [gicv3_map] are the two maps, and the register file of [SoftGic] an
    implementation of the class.  Against the class: enabling, disabling,
    clearing and inspecting interrupts. *)

From S2P Require Import Prelude Gic GicV5 Irq.

Local Open Scope Z_scope.

(** ** The state of the controller

    Interrupts below 32 are private to a core.  A key is an interrupt with the
    core it belongs to, or with -1 if it is shared. *)

Definition key (core id : Z) : Z * Z := (if id <? MIN_SPI_ID then core else -1, id).

Record gview := {
  g_enabled : Z * Z → bool;
  g_pending : Z * Z → bool;
  g_prio : Z * Z → Z;
  (** where a shared interrupt is routed to: the register of its target *)
  g_target : Z → Z;
  (** the configuration of the PPIs of a core *)
  g_cfg : Z → Z;
}.

Definition set_enabled (v : gview) (f : Z * Z → bool) : gview :=
  {| g_enabled := f; g_pending := g_pending v; g_prio := g_prio v; g_target := g_target v;
     g_cfg := g_cfg v |}.
Definition set_pending (v : gview) (f : Z * Z → bool) : gview :=
  {| g_enabled := g_enabled v; g_pending := f; g_prio := g_prio v; g_target := g_target v;
     g_cfg := g_cfg v |}.
Definition set_prio (v : gview) (f : Z * Z → Z) : gview :=
  {| g_enabled := g_enabled v; g_pending := g_pending v; g_prio := f; g_target := g_target v;
     g_cfg := g_cfg v |}.
Definition set_target (v : gview) (f : Z → Z) : gview :=
  {| g_enabled := g_enabled v; g_pending := g_pending v; g_prio := g_prio v; g_target := f;
     g_cfg := g_cfg v |}.
Definition set_cfg (v : gview) (f : Z → Z) : gview :=
  {| g_enabled := g_enabled v; g_pending := g_pending v; g_prio := g_prio v;
     g_target := g_target v; g_cfg := f |}.

(** The 32-bit word with the bits [f 0] to [f 31], and a word of four bytes *)
Fixpoint bits_val (f : Z → bool) (n : nat) : Z :=
  match n with
  | O => 0
  | S n' => let v := bits_val f n' in if f (Z.of_nat n') then Z.setbit v (Z.of_nat n') else v
  end.
Definition word (f : Z → bool) : Z := bits_val f 32.
Definition byte_of (v j : Z) : Z := (v / 2 ^ (8 * j)) mod 256.
Definition word4 (f : Z → Z) : Z := f 0 + 2 ^ 8 * f 1 + 2 ^ 16 * f 2 + 2 ^ 24 * f 3.

(** [k] is one of the 32 interrupts of the word [id] is in, for [core] *)
Definition in_word (core id : Z) (k : Z * Z) : bool :=
  bool_decide (k = key core k.2) && (k.2 / 32 =? id / 32).
(** ... or of the four of the word of priorities *)
Definition in_word4 (core id : Z) (k : Z * Z) : bool :=
  bool_decide (k = key core k.2) && (k.2 / 4 =? id / 4).

(** Where the registers of an interrupt are: [rm_acc c core] if CPU [c] reaches
    the registers of [core] at these addresses *)
Record regmap := {
  rm_acc : Z → Z → Prop;
  rm_isenabler : Z → Z → Z;
  rm_icenabler : Z → Z → Z;
  rm_ispendr : Z → Z → Z;
  rm_icpendr : Z → Z → Z;
  rm_prio : Z → Z → Z;
  rm_cfg : Z → Z;
  rm_target : Z → Z;
  rm_target_width : Z;
}.

Definition gicv2_map (gicd : Z) : regmap :=
  {| rm_acc c core := c = core;
     rm_isenabler _ id := gicd + GICD_ISENABLER + 4 * (id / 32);
     rm_icenabler _ id := gicd + GICD_ICENABLER + 4 * (id / 32);
     rm_ispendr _ id := gicd + GICD_ISPENDR + 4 * (id / 32);
     rm_icpendr _ id := gicd + GICD_ICPENDR + 4 * (id / 32);
     rm_prio _ id := gicd + GICD_IPRIORITYR + id;
     rm_cfg _ := gicd + GICD_ICFGR + 4;
     rm_target id := gicd + GICD_ITARGETSR + id;
     rm_target_width := 1 |}.

Definition gicv3_map (gicd : Z) (rdist : Z → Z) : regmap :=
  {| rm_acc _ _ := True;
     rm_isenabler core id :=
       if id <? MIN_SPI_ID then rdist core + GICR_ISENABLER0 else gicd + GICD_ISENABLER + 4 * (id / 32);
     rm_icenabler core id :=
       if id <? MIN_SPI_ID then rdist core + GICR_ICENABLER0 else gicd + GICD_ICENABLER + 4 * (id / 32);
     rm_ispendr core id :=
       if id <? MIN_SPI_ID then rdist core + GICR_ISPENDR0 else gicd + GICD_ISPENDR + 4 * (id / 32);
     rm_icpendr core id :=
       if id <? MIN_SPI_ID then rdist core + GICR_ICPENDR0 else gicd + GICD_ICPENDR + 4 * (id / 32);
     rm_prio core id :=
       if id <? MIN_SPI_ID then rdist core + GICR_IPRIORITYR + id else gicd + GICD_IPRIORITYR + id;
     rm_cfg core := rdist core + GICR_ICFGR1;
     rm_target id := gicd + GICD_IROUTER + 8 * id;
     rm_target_width := 8 |}.

(** ** The interface

    For the cores [core_ok] of the system.  A set-enable register reads as the
    enabled interrupts of its word, and writing it enables those whose bit is
    1; writing the clear-enable register disables them; the pending registers
    are alike.  A priority register keeps the bits [prio_mask] of each
    byte, a configuration register the bits [cfg_mask], the others reading as
    [cfg_ro]. *)
Class GicOk (D : Type) `{!GicHw D} (core_ok : Z → Prop) (rm : regmap) := {
  view : D → gview;
  prio_mask : Z;
  cfg_mask : Z;
  cfg_ro : Z;
  prio_mask_range : 0 <= prio_mask <= 255;
  cfg_range : 0 <= cfg_ro < 2 ^ 32 ∧ 0 <= cfg_mask < 2 ^ 32 ∧ Z.land cfg_ro cfg_mask = 0;
  prio_masked (d : D) (k : Z * Z) : Z.land (g_prio (view d) k) prio_mask = g_prio (view d) k;
  cfg_masked (d : D) (core : Z) : Z.land (g_cfg (view d) core) cfg_mask = g_cfg (view d) core;
  isenabler_read (c core id : Z) (d : D) :
    core_ok core → 0 <= id <= MAX_SPI_ID → rm_acc rm c core →
    hw_read c 4 (rm_isenabler rm core id) d
    = (word (λ b, g_enabled (view d) (key core (id / 32 * 32 + b))), d);
  isenabler_write (c core id v : Z) (d : D) :
    core_ok core → 0 <= id <= MAX_SPI_ID → rm_acc rm c core →
    view (hw_write c 4 (rm_isenabler rm core id) v d)
    = set_enabled (view d) (λ k, g_enabled (view d) k || in_word core id k && Z.testbit v (k.2 mod 32));
  icenabler_write (c core id v : Z) (d : D) :
    core_ok core → 0 <= id <= MAX_SPI_ID → rm_acc rm c core →
    view (hw_write c 4 (rm_icenabler rm core id) v d)
    = set_enabled (view d)
        (λ k, g_enabled (view d) k && negb (in_word core id k && Z.testbit v (k.2 mod 32)));
  ispendr_read (c core id : Z) (d : D) :
    core_ok core → 0 <= id <= MAX_SPI_ID → rm_acc rm c core →
    hw_read c 4 (rm_ispendr rm core id) d
    = (word (λ b, g_pending (view d) (key core (id / 32 * 32 + b))), d);
  icpendr_write (c core id v : Z) (d : D) :
    core_ok core → 0 <= id <= MAX_SPI_ID → rm_acc rm c core →
    view (hw_write c 4 (rm_icpendr rm core id) v d)
    = set_pending (view d)
        (λ k, g_pending (view d) k && negb (in_word core id k && Z.testbit v (k.2 mod 32)));
  prio_read (c core id : Z) (d : D) :
    core_ok core → 0 <= id <= MAX_SPI_ID → rm_acc rm c core →
    hw_read c 1 (rm_prio rm core id) d = (g_prio (view d) (key core id), d);
  prio_write (c core id v : Z) (d : D) :
    core_ok core → 0 <= id <= MAX_SPI_ID → rm_acc rm c core →
    view (hw_write c 1 (rm_prio rm core id) v d)
    = set_prio (view d)
        (λ k, if bool_decide (k = key core id) then Z.land v prio_mask else g_prio (view d) k);
  prio_read4 (c core id : Z) (d : D) :
    core_ok core → 0 <= id <= MAX_SPI_ID → id mod 4 = 0 → rm_acc rm c core →
    hw_read c 4 (rm_prio rm core id) d
    = (word4 (λ j, g_prio (view d) (key core (id + j))), d);
  prio_write4 (c core id v : Z) (d : D) :
    core_ok core → 0 <= id <= MAX_SPI_ID → id mod 4 = 0 → rm_acc rm c core →
    view (hw_write c 4 (rm_prio rm core id) v d)
    = set_prio (view d)
        (λ k, if in_word4 core id k then Z.land (byte_of v (k.2 mod 4)) prio_mask
              else g_prio (view d) k);
  cfg_read (c core : Z) (d : D) :
    core_ok core → rm_acc rm c core →
    hw_read c 4 (rm_cfg rm core) d = (Z.lor (g_cfg (view d) core) cfg_ro, d);
  cfg_write (c core v : Z) (d : D) :
    core_ok core → rm_acc rm c core →
    view (hw_write c 4 (rm_cfg rm core) v d)
    = set_cfg (view d) (λ x, if x =? core then Z.land v cfg_mask else g_cfg (view d) x);
  target_write (c id v : Z) (d : D) :
    MIN_SPI_ID <= id <= MAX_SPI_ID →
    view (hw_write c (rm_target_width rm) (rm_target rm id) v d)
    = set_target (view d) (λ x, if x =? id then v else g_target (view d) x);
}.

(** ** Words *)

Lemma bits_val_spec (f : Z → bool) (n : nat) (b : Z) :
  Z.testbit (bits_val f n) b = bool_decide (0 <= b < Z.of_nat n) && f b.
Proof.
  induction n as [|n IH]; cbn [bits_val].
  - rewrite Z.testbit_0_l, bool_decide_eq_false_2 by lia. done.
  - destruct (decide (b = Z.of_nat n)) as [->|Hne].
    + rewrite bool_decide_eq_true_2 by lia. destruct (f (Z.of_nat n)).
      * by rewrite Z.setbit_eqb, Z.eqb_refl by lia.
      * rewrite IH. by rewrite andb_false_r.
    + assert (bool_decide (0 <= b < Z.of_nat (S n)) = bool_decide (0 <= b < Z.of_nat n)) as ->.
      { apply bool_decide_ext. lia. }
      destruct (f (Z.of_nat n)); [|exact IH].
      rewrite Z.setbit_eqb, (proj2 (Z.eqb_neq _ _)) by lia. exact IH.
Qed.

Lemma word_bit (f : Z → bool) (b : Z) : 0 <= b < 32 → Z.testbit (word f) b = f b.
Proof.
  intros Hb. unfold word. by rewrite bits_val_spec, bool_decide_eq_true_2 by lia.
Qed.

Lemma word_wrap (f : Z → bool) : wrap 32 (word f) = word f.
Proof.
  unfold wrap. apply Z.bits_inj'. intros b Hb. destruct (Z.lt_ge_cases b 32).
  - by rewrite Z.mod_pow2_bits_low.
  - rewrite Z.mod_pow2_bits_high by lia. unfold word. by rewrite bits_val_spec, bool_decide_eq_false_2 by lia.
Qed.

Lemma word_range (f : Z → bool) : 0 <= word f < 2 ^ 32.
Proof. rewrite <- word_wrap. by apply wrap_in_width. Qed.

Lemma lor_range (n a b : Z) : 0 <= n → in_width n a → in_width n b → in_width n (Z.lor a b).
Proof.
  intros Hn Ha Hb. assert (Z.lor a b = Z.lor a b mod 2 ^ n) as ->.
  - rewrite <- Z.land_ones, Z.land_lor_distr_l, !Z.land_ones by done.
    by rewrite !Z.mod_small by (unfold in_width in *; lia).
  - apply Z.mod_pos_bound. lia.
Qed.

Lemma land_bit_nz (v b : Z) : 0 <= b → (Z.land v (2 ^ b) =? 0) = negb (Z.testbit v b).
Proof.
  intros Hb. destruct (Z.testbit v b) eqn:E; cbn.
  - apply Z.eqb_neq. intros Hz. assert (Z.testbit (Z.land v (2 ^ b)) b = false) as H.
    { by rewrite Hz, Z.testbit_0_l. }
    by rewrite Z.land_spec, E, Z.pow2_bits_true in H.
  - apply Z.eqb_eq. apply Z.bits_inj'. intros n Hn. rewrite Z.land_spec, Z.testbit_0_l.
    rewrite Z.pow2_bits_eqb by lia. destruct (Z.eqb_spec b n) as [->|]; [by rewrite E|].
    by rewrite andb_false_r.
Qed.

(** The bit the drivers compute for an interrupt *)
Lemma id_bit_val (id shift : Z) : 0 <= id → 0 <= shift → id_bit id shift = 2 ^ (id mod 2 ^ shift).
Proof.
  intros Hid Hs. unfold id_bit. rewrite !Z.shiftl_1_l.
  assert (2 ^ shift - 1 = Z.ones shift) as -> by (rewrite Z.ones_equiv; lia).
  by rewrite Z.land_ones.
Qed.

Lemma id_bit_range (id shift : Z) : 0 <= id → 0 <= shift <= 5 → 0 <= id_bit id shift < 2 ^ 32.
Proof.
  intros Hid Hs. rewrite id_bit_val by lia.
  assert (2 ^ shift <= 2 ^ 5) by (apply Z.pow_le_mono_r; lia).
  pose proof (Z.mod_pos_bound id (2 ^ shift) ltac:(lia)).
  split; [lia|]. apply Z.pow_lt_mono_r; lia.
Qed.

Lemma pow2_testbit (n b : Z) : 0 <= n → Z.testbit (2 ^ n) b = (n =? b).
Proof. intros Hn. by apply Z.pow2_bits_eqb. Qed.

(** ** The registers the drivers reach *)

Lemma shift_index (id shift : Z) : 0 <= shift →
  Z.shiftl (Z.shiftr id shift) 2 = 4 * (id / 2 ^ shift).
Proof. intros Hs. rewrite Z.shiftr_div_pow2, Z.shiftl_mul_pow2 by lia. lia. Qed.

Lemma reg_n_val (base reg shift id : Z) :
  0 <= shift → 0 <= id <= MAX_SPI_ID → 0 <= base → 0 <= reg → base + reg + 4096 <= 2 ^ 64 →
  reg_n base reg shift id = base + reg + 4 * (id / 2 ^ shift).
Proof.
  unfold MAX_SPI_ID. intros Hs Hid Hb Hr Hle. unfold reg_n. rewrite shift_index by done.
  assert (0 <= id / 2 ^ shift <= id).
  { split; [apply Z.div_pos; lia|]. apply Z.div_le_upper_bound; [lia|]. nia. }
  rewrite u32_small by (unfold UINT32_MAX; lia). apply u64_small. unfold UINT64_MAX. lia.
Qed.

Lemma one_bit (core id : Z) (k : Z * Z) :
  in_word core id k && Z.testbit (2 ^ (id mod 32)) (k.2 mod 32) = bool_decide (k = key core id).
Proof.
  pose proof (Z.mod_pos_bound id 32 ltac:(lia)). rewrite pow2_testbit by lia. unfold in_word.
  destruct k as [c i]. cbn [snd].
  destruct (decide (i = id)) as [->|Hne].
  - rewrite !Z.eqb_refl. by rewrite !andb_true_r.
  - rewrite (bool_decide_eq_false_2 ((c, i) = key core id)) by (unfold key; congruence).
    destruct (Z.eqb_spec (i / 32) (id / 32)), (Z.eqb_spec (id mod 32) (i mod 32));
      rewrite ?andb_false_r; try done.
    exfalso. apply Hne. rewrite (Z.div_mod i 32), (Z.div_mod id 32) by lia. lia.
Qed.

Lemma key_word (core id : Z) : 0 <= id → key core (id / 32 * 32 + id mod 32) = key core id.
Proof.
  intros Hid. f_equal. rewrite (Z.div_mod id 32) at 3 by lia. lia.
Qed.

Section Drivers.

Context {D : Type} `{!GicHw D} (p : gic_plat).

Abbreviation G := (M (gic_state D)).

Definition core_ok (c : Z) : Prop := 0 <= c < PLATFORM_CORE_COUNT p.

(** The GICv2 driver is set up, and the CPU has found its GIC CPU number. *)
Record ready2 (s : gic_state D) (gicd : Z) (cpu gid : Z) : Prop := {
  r2_det3 : gicv3_detected s = false;
  r2_det5 : gicv5_detected s = false;
  r2_base : gicv2_gicd_base_addr (v2 s) = gicd;
  r2_range : 0 < gicd ∧ gicd + 0x1000 <= 2 ^ 32;
  r2_core : core_ok cpu;
  r2_gid : zget (gic_cpu_id (v2 s)) cpu = Some gid;
  r2_gid_range : 0 <= gid < 8;
}.

(** The GICv3 driver is set up, and the CPU has found its redistributor. *)
Record ready3 (s : gic_state D) (gicd : Z) (rdist : Z → Z) (cpu mpidr : Z) : Prop := {
  r3_det : gicv3_detected s = true;
  r3_base : gicv3_gicd_base_addr (v3 s) = gicd;
  r3_range : 0 < gicd ∧ gicd + 0x10000 <= 2 ^ 64;
  r3_core : core_ok cpu;
  r3_rdist : zget (rdist_pcpu_base (v3 s)) cpu = Some (rdist cpu);
  r3_rdist_range : 0 < rdist cpu ∧ rdist cpu + 0x20000 <= 2 ^ 64;
  r3_mpidr : zget (mpidr_list (v3 s)) cpu = Some mpidr;
  r3_mpidr_range : 0 <= mpidr < UINT64_MAX;
}.

(** Either, with the register map and the value that routes a shared interrupt
    to the CPU *)
Inductive ready (s : gic_state D) (cpu : Z) : regmap → Z → Prop :=
| Ready2 (gicd gid : Z) :
    ready2 s gicd cpu gid → ready s cpu (gicv2_map gicd) (2 ^ gid)
| Ready3 (gicd : Z) (rdist : Z → Z) (mpidr : Z) :
    ready3 s gicd rdist cpu mpidr → ready s cpu (gicv3_map gicd rdist) mpidr.

Lemma ready_dev (s : gic_state D) (cpu : Z) (rm : regmap) (tgt : Z) (d : D) :
  ready s cpu rm tgt → ready (set_dev s d) cpu rm tgt.
Proof. intros [gicd gid []|gicd rdist mpidr []]; constructor; by split. Qed.

Lemma ready_core (s : gic_state D) (cpu : Z) (rm : regmap) (tgt : Z) :
  ready s cpu rm tgt → core_ok cpu ∧ rm_acc rm cpu cpu.
Proof. by intros [gicd gid []|gicd rdist mpidr []]. Qed.

Lemma need_gicd2_run (s : gic_state D) (gicd cpu gid : Z) :
  ready2 s gicd cpu gid → need_gicd2 s = Ok (gicd, s).
Proof.
  intros []. unfold need_gicd2, gicd_base2. erewrite bind_Ok by reflexivity.
  rewrite r2_base0. unfold mbind, M_bind, assert_.
  by rewrite (proj2 (Z.eqb_neq gicd 0)) by lia.
Qed.

Lemma need_gicd3_run (s : gic_state D) (gicd : Z) (rdist : Z → Z) (cpu mpidr : Z) :
  ready3 s gicd rdist cpu mpidr → need_gicd3 s = Ok (gicd, s).
Proof.
  intros []. unfold need_gicd3. erewrite bind_Ok by reflexivity.
  rewrite r3_base0. unfold mbind, M_bind, assert_.
  by rewrite (proj2 (Z.eqb_neq gicd 0)) by lia.
Qed.

Lemma need_rdist_run (s : gic_state D) (gicd : Z) (rdist : Z → Z) (cpu mpidr : Z) :
  ready3 s gicd rdist cpu mpidr → need_rdist cpu s = Ok (rdist cpu, s).
Proof.
  intros []. unfold need_rdist. erewrite bind_Ok by reflexivity.
  erewrite bind_Ok by (by apply aget_Ok). unfold mbind, M_bind, assert_.
  by rewrite (proj2 (Z.eqb_neq (rdist cpu) 0)) by lia.
Qed.

Lemma gic_id_run (s : gic_state D) (gicd cpu gid : Z) :
  ready2 s gicd cpu gid → core_pos_to_gic_id cpu s = Ok (gid, s).
Proof.
  intros []. unfold core_pos_to_gic_id. erewrite bind_Ok by reflexivity.
  erewrite bind_Ok by (by apply aget_Ok). unfold mbind, M_bind, assert_.
  by rewrite (proj2 (Z.eqb_neq gid UINT32_MAX)) by (unfold UINT32_MAX; lia).
Qed.

Lemma assert_run (b : bool) (s : gic_state D) : b = true → assert_ b s = Ok (tt, s).
Proof. by intros ->. Qed.

(** What [by_version] runs *)
Lemma by_version_run2 {A} (on3 on5 on2 : G A) (s : gic_state D) (gicd cpu gid : Z) :
  ready2 s gicd cpu gid → by_version on3 on5 on2 s = on2 s.
Proof.
  intros []. unfold by_version. erewrite bind_Ok by reflexivity. by rewrite r2_det4, r2_det6.
Qed.

Lemma by_version_run3 {A} (on3 on5 on2 : G A) (s : gic_state D) (gicd : Z) (rdist : Z → Z)
    (cpu mpidr : Z) :
  ready3 s gicd rdist cpu mpidr → by_version on3 on5 on2 s = on3 s.
Proof. intros []. unfold by_version. erewrite bind_Ok by reflexivity. by rewrite r3_det0. Qed.

Lemma valid_id (id : Z) : 0 <= id <= MAX_SPI_ID → IS_VALID_INTR_ID id = true.
Proof. unfold IS_VALID_INTR_ID, MIN_SGI_ID, MAX_SPI_ID. lia. Qed.

Lemma write32_run (cpu addr v : Z) (s : gic_state D) : 0 <= v < 2 ^ 32 →
  mmio_write_32 cpu addr v s = Ok (tt, set_dev s (hw_write cpu 4 addr v (dev s))).
Proof.
  intros Hv. unfold mmio_write_32, mmio_write. change (8 * 4) with 32.
  by rewrite (wrap_small 32) by done.
Qed.

Lemma write8_run (cpu addr v : Z) (s : gic_state D) : 0 <= v < 2 ^ 8 →
  mmio_write_8 cpu addr v s = Ok (tt, set_dev s (hw_write cpu 1 addr v (dev s))).
Proof.
  intros Hv. unfold mmio_write_8, mmio_write. change (8 * 1) with 8.
  by rewrite (wrap_small 8) by done.
Qed.

Lemma read_run (cpu w addr v : Z) (s : gic_state D) :
  hw_read cpu w addr (dev s) = (v, dev s) → wrap (8 * w) v = v →
  mmio_read cpu w addr s = Ok (v, s).
Proof. intros Hr Hv. unfold mmio_read. rewrite Hr. cbn [fst snd]. rewrite Hv. by destruct s. Qed.

(** The steps the functions of both drivers start with *)
Ltac run2 H :=
  rewrite (by_version_run2 _ _ _ _ _ _ _ H);
  unfold gicv2_gicd_get_isenabler, gicv2_gicd_set_isenabler, gicv2_gicd_set_icenabler,
    gicv2_gicd_get_ispendr, gicv2_gicd_set_icpendr, gicv2_gicd_get_ipriorityr,
    gicv2_gicd_set_ipriorityr, gicv2_set_itargetsr;
  rewrite ?(bind_Ok _ _ _ _ _ (need_gicd2_run _ _ _ _ H)).
Ltac run3 H :=
  rewrite (by_version_run3 _ _ _ _ _ _ _ _ H);
  unfold gicv3_get_isenabler, gicv3_set_isenabler, gicv3_set_icenabler, gicv3_get_ispendr,
    gicv3_set_icpendr, gicv3_get_ipriorityr, gicv3_set_ipriorityr, gicv3_set_intr_route;
  rewrite ?(bind_Ok _ _ _ _ _ (need_gicd3_run _ _ _ _ _ H)).
Ltac valid H :=
  rewrite (bind_Ok _ _ _ _ _ (assert_run _ _ (valid_id _ H))).
Ltac rdist H := rewrite (bind_Ok _ _ _ _ _ (need_rdist_run _ _ _ _ _ H)).
(** The address of a register *)
Ltac addr :=
  unfold GICR_ISENABLER0, GICR_ICENABLER0, GICR_ISPENDR0, GICR_ICPENDR0, GICR_IPRIORITYR,
    GICR_SGIBASE_OFFSET, GICD_ISENABLER, GICD_ICENABLER, GICD_ISPENDR, GICD_ICPENDR,
    GICD_IPRIORITYR, ISENABLER_SHIFT, ISPENDR_SHIFT, IPRIORITYR_SHIFT, MAX_SPI_ID in *;
  change (Z.shiftl 1 16) with 65536 in *;
  first [ rewrite reg_n_val by (unfold MAX_SPI_ID; lia)
        | rewrite u64_small by (unfold UINT64_MAX; lia) ]; done.

Section One_cpu.

Context (s : gic_state D) (cpu : Z) (rm : regmap) (tgt : Z) (Hr : ready s cpu rm tgt).
Context (id : Z) (Hid : 0 <= id <= MAX_SPI_ID).

Let bit_range (shift : Z) : 0 <= shift <= 5 → 0 <= id_bit id shift < 2 ^ 32.
Proof. apply id_bit_range; lia. Qed.

Lemma intr_enable_run :
  arm_gic_intr_enable cpu id s
  = Ok (tt, set_dev s (hw_write cpu 4 (rm_isenabler rm cpu id) (2 ^ (id mod 32)) (dev s))).
Proof.
  pose proof (bit_range 5 ltac:(lia)) as Hb. pose proof (id_bit_val id 5 ltac:(lia) ltac:(lia)) as Hv.
  change (2 ^ 5) with 32 in Hv. unfold arm_gic_intr_enable. destruct Hr as [gicd gid H|gicd rd m H].
  - run2 H. valid Hid. destruct H. unfold gicd_set_isenabler, gicd_write_isenabler, ISENABLER_SHIFT.
    rewrite write32_run, Hv by done. do 3 f_equal. cbn [rm_isenabler gicv2_map]. addr.
  - run3 H. valid Hid. cbn [rm_isenabler gicv3_map]. destruct (Z.ltb_spec id MIN_SPI_ID).
    + rdist H. destruct H. unfold gicr_set_isenabler0, gicr_write_isenabler0, ISENABLER_SHIFT.
      rewrite write32_run, Hv by done. do 3 f_equal. addr.
    + destruct H. unfold gicd_set_isenabler, gicd_write_isenabler, ISENABLER_SHIFT.
      rewrite write32_run, Hv by done. do 3 f_equal. addr.
Qed.

Lemma intr_disable_run :
  arm_gic_intr_disable cpu id s
  = Ok (tt, set_dev s (hw_write cpu 4 (rm_icenabler rm cpu id) (2 ^ (id mod 32)) (dev s))).
Proof.
  pose proof (bit_range 5 ltac:(lia)) as Hb. pose proof (id_bit_val id 5 ltac:(lia) ltac:(lia)) as Hv.
  change (2 ^ 5) with 32 in Hv. unfold arm_gic_intr_disable. destruct Hr as [gicd gid H|gicd rd m H].
  - run2 H. valid Hid. destruct H.
    unfold gicd_set_icenabler, gicd_write_icenabler, ICENABLER_SHIFT, ISENABLER_SHIFT.
    rewrite write32_run, Hv by done. do 3 f_equal. cbn [rm_icenabler gicv2_map]. addr.
  - run3 H. valid Hid. cbn [rm_icenabler gicv3_map]. destruct (Z.ltb_spec id MIN_SPI_ID).
    + rdist H. destruct H. unfold gicr_set_icenabler0, gicr_write_icenabler0, ISENABLER_SHIFT.
      rewrite write32_run, Hv by done. do 3 f_equal. addr.
    + destruct H. unfold gicd_set_icenabler, gicd_write_icenabler, ICENABLER_SHIFT, ISENABLER_SHIFT.
      rewrite write32_run, Hv by done. do 3 f_equal. addr.
Qed.

Lemma intr_clear_run : MIN_PPI_ID <= id →
  arm_gic_intr_clear cpu id s
  = Ok (tt, set_dev s (hw_write cpu 4 (rm_icpendr rm cpu id) (2 ^ (id mod 32)) (dev s))).
Proof.
  intros Hp. pose proof (bit_range 5 ltac:(lia)) as Hb.
  pose proof (id_bit_val id 5 ltac:(lia) ltac:(lia)) as Hv. change (2 ^ 5) with 32 in Hv.
  assert (IS_PPI id || IS_SPI id = true) as Hps.
  { unfold IS_PPI, IS_SPI, MIN_PPI_ID, MAX_PPI_ID, MIN_SPI_ID, MAX_SPI_ID in *. lia. }
  assert (IS_SPI id || IS_PPI id = true) as Hsp by (by rewrite orb_comm).
  unfold arm_gic_intr_clear. destruct Hr as [gicd gid H|gicd rd m H].
  - run2 H. rewrite (bind_Ok _ _ _ _ _ (assert_run _ _ Hps)). destruct H.
    unfold gicd_set_icpendr, gicd_write_icpendr, ICPENDR_SHIFT, ISPENDR_SHIFT.
    rewrite write32_run, Hv by done. do 3 f_equal. cbn [rm_icpendr gicv2_map]. addr.
  - run3 H. rewrite (bind_Ok _ _ _ _ _ (assert_run _ _ Hsp)). cbn [rm_icpendr gicv3_map].
    destruct (Z.ltb_spec id MIN_SPI_ID).
    + rdist H. destruct H. unfold gicr_set_icpendr0, gicr_write_icpendr0, ICPENDR_SHIFT, ISPENDR_SHIFT.
      rewrite write32_run, Hv by done. do 3 f_equal. addr.
    + destruct H. unfold gicd_set_icpendr, gicd_write_icpendr, ICPENDR_SHIFT, ISPENDR_SHIFT.
      rewrite write32_run, Hv by done. do 3 f_equal. addr.
Qed.

Lemma set_priority_run (prio : Z) : 0 <= prio <= 255 →
  arm_gic_set_intr_priority cpu id prio s
  = Ok (tt, set_dev s (hw_write cpu 1 (rm_prio rm cpu id) prio (dev s))).
Proof.
  intros Hp. assert (Z.land prio GIC_PRI_MASK = prio) as Hm.
  { unfold GIC_PRI_MASK. change 0xff with (Z.ones 8). rewrite Z.land_ones by lia.
    apply Z.mod_small. lia. }
  unfold arm_gic_set_intr_priority. destruct Hr as [gicd gid H|gicd rd m H].
  - run2 H. valid Hid. destruct H. unfold gicd_set_ipriorityr.
    rewrite Hm, write8_run by lia. do 3 f_equal. cbn [rm_prio gicv2_map]. addr.
  - run3 H. valid Hid. cbn [rm_prio gicv3_map]. destruct (Z.ltb_spec id MIN_SPI_ID).
    + rdist H. destruct H. rewrite Hm, write8_run by lia. do 3 f_equal. addr.
    + destruct H. rewrite Hm, write8_run by lia. do 3 f_equal. addr.
Qed.

Lemma set_target_run :
  arm_gic_set_intr_target p cpu id cpu s
  = Ok (tt, if IS_PLAT_SPI p id && IS_SPI id
            then set_dev s (hw_write cpu (rm_target_width rm) (rm_target rm id) tgt (dev s)) else s).
Proof.
  assert (IS_PLAT_SPI p id = true → IS_SPI id = true) as Himp.
  { unfold IS_PLAT_SPI, IS_SPI. intros. lia. }
  unfold arm_gic_set_intr_target. destruct Hr as [gicd gid H|gicd rd m H].
  - run2 H. destruct (IS_PLAT_SPI p id); cbn [negb]; [|done]. rewrite Himp by done. cbn [andb].
    erewrite bind_Ok by reflexivity. rewrite (bind_Ok _ _ _ _ _ (gic_id_run _ _ _ _ H)). destruct H.
    unfold gicd_set_itargetsr. rewrite Z.shiftl_1_l.
    rewrite write8_run; [|split; [lia|apply Z.pow_lt_mono_r; lia]].
    do 3 f_equal. cbn [rm_target gicv2_map]. unfold GICD_ITARGETSR, MAX_SPI_ID in *.
    rewrite (u32_small gicd) by (unfold UINT32_MAX; lia).
    by rewrite u32_small by (unfold UINT32_MAX; lia).
  - run3 H. destruct H.
    assert ((cpu <? PLATFORM_CORE_COUNT p) = true) as Hc by (unfold core_ok in *; lia).
    rewrite (bind_Ok _ _ _ _ _ (assert_run _ _ Hc)). erewrite bind_Ok by reflexivity.
    erewrite bind_Ok by (by apply aget_Ok).
    assert (negb (m =? UINT64_MAX) = true) as Hm by lia.
    rewrite (bind_Ok _ _ _ _ _ (assert_run _ _ Hm)).
    destruct (IS_PLAT_SPI p id); cbn [negb]; [|done]. rewrite Himp by done. cbn [andb].
    erewrite bind_Ok by reflexivity. unfold gicd_write_irouter.
    assert ((MIN_SPI_ID <=? id) = true) as Hge.
    { specialize (Himp eq_refl). unfold IS_SPI in Himp. lia. }
    rewrite (bind_Ok _ _ _ _ _ (assert_run _ _ Hge)).
    unfold mmio_write_64, mmio_write. change (8 * 8) with 64.
    assert (in_width 64 m) as Hw.
    { unfold in_width. change (2 ^ 64) with (UINT64_MAX + 1). lia. }
    rewrite (wrap_small 64 m Hw).
    cbn [rm_target rm_target_width gicv3_map]. unfold GICD_IROUTER, MAX_SPI_ID in *.
    rewrite Z.shiftl_mul_pow2, (u32_small (id * 2 ^ 3)) by (unfold UINT32_MAX; lia).
    rewrite u64_small by (unfold UINT64_MAX; lia).
    replace (gicd + 24576 + id * 2 ^ 3) with (gicd + 24576 + 8 * id) by lia. done.
Qed.

Context `{!GicOk D core_ok rm}.

Let Hcore : core_ok cpu.
Proof. exact (proj1 (ready_core _ _ _ _ Hr)). Qed.
Let Hacc : rm_acc rm cpu cpu.
Proof. exact (proj2 (ready_core _ _ _ _ Hr)). Qed.

(** A set-enable or set-pending word read back at the bit of [id] *)
Lemma word_at (f : Z * Z → bool) :
  Z.testbit (word (λ b, f (key cpu (id / 32 * 32 + b)))) (id mod 32) = f (key cpu id).
Proof.
  rewrite word_bit by (apply Z.mod_pos_bound; lia). by rewrite key_word by lia.
Qed.

Lemma intr_enabled_run :
  arm_gic_intr_enabled cpu id s = Ok (g_enabled (view (dev s)) (key cpu id), s).
Proof.
  pose proof (isenabler_read cpu cpu id (dev s) Hcore Hid Hacc) as Hrd.
  set (w := word (λ b, g_enabled (view (dev s)) (key cpu (id / 32 * 32 + b)))) in *.
  assert (wrap (8 * 4) w = w) as Hw by apply word_wrap.
  assert (negb (Z.land w (id_bit id 5) =? 0) = g_enabled (view (dev s)) (key cpu id)) as Hbit.
  { rewrite id_bit_val by lia. change (2 ^ 5) with 32.
    rewrite land_bit_nz by (apply Z.mod_pos_bound; lia). rewrite negb_involutive. apply word_at. }
  unfold arm_gic_intr_enabled. destruct Hr as [gicd gid H|gicd rd m H].
  - run2 H. rewrite <- Hbit. erewrite bind_Ok; [reflexivity|].
    rewrite (bind_Ok _ _ _ _ _ (need_gicd2_run _ _ _ _ H)). valid Hid. destruct H.
    unfold gicd_get_isenabler, gicd_read_isenabler. erewrite bind_Ok; [reflexivity|].
    apply read_run; [|done]. rewrite <- Hrd. cbn [rm_isenabler gicv2_map]. f_equal. addr.
  - run3 H. rewrite <- Hbit. erewrite bind_Ok; [reflexivity|].
    rewrite (bind_Ok _ _ _ _ _ (need_gicd3_run _ _ _ _ _ H)). valid Hid.
    cbn [rm_isenabler gicv3_map] in Hrd. destruct (Z.ltb_spec id MIN_SPI_ID).
    + rdist H. destruct H. unfold gicr_get_isenabler0, gicr_read_isenabler0.
      erewrite bind_Ok; [reflexivity|]. apply read_run; [|done]. rewrite <- Hrd. f_equal. addr.
    + destruct H. unfold gicd_get_isenabler, gicd_read_isenabler.
      erewrite bind_Ok; [reflexivity|]. apply read_run; [|done]. rewrite <- Hrd. f_equal. addr.
Qed.

Lemma intr_pending_run :
  arm_gic_is_intr_pending cpu id s
  = Ok (if g_pending (view (dev s)) (key cpu id) then 1 else 0, s).
Proof.
  pose proof (ispendr_read cpu cpu id (dev s) Hcore Hid Hacc) as Hrd.
  set (w := word (λ b, g_pending (view (dev s)) (key cpu (id / 32 * 32 + b)))) in *.
  assert (wrap (8 * 4) w = w) as Hw by apply word_wrap.
  assert (pending_bit w id = if g_pending (view (dev s)) (key cpu id) then 1 else 0) as Hbit.
  { unfold pending_bit, ISPENDR_SHIFT. rewrite !Z.shiftl_1_l. change (2 ^ 5) with 32.
    rewrite land_bit_nz by (apply Z.mod_pos_bound; lia). unfold w. rewrite word_at. by destruct g_pending. }
  rewrite <- Hbit. unfold arm_gic_is_intr_pending. destruct Hr as [gicd gid H|gicd rd m H].
  - run2 H. valid Hid. destruct H. unfold gicd_read_ispendr. erewrite bind_Ok; [reflexivity|].
    apply read_run; [|done]. rewrite <- Hrd. cbn [rm_ispendr gicv2_map]. f_equal. addr.
  - run3 H. valid Hid. cbn [rm_ispendr gicv3_map] in Hrd. erewrite bind_Ok; [reflexivity|].
    destruct (Z.ltb_spec id MIN_SPI_ID).
    + rdist H. destruct H. apply read_run; [|done]. rewrite <- Hrd. f_equal. addr.
    + destruct H. apply read_run; [|done]. rewrite <- Hrd. f_equal. addr.
Qed.

(** The effects on the controller *)
Lemma enable_view (k : Z * Z) :
  g_enabled (view (hw_write cpu 4 (rm_isenabler rm cpu id) (2 ^ (id mod 32)) (dev s))) k
  = if bool_decide (k = key cpu id) then true else g_enabled (view (dev s)) k.
Proof.
  rewrite isenabler_write by done. cbn [set_enabled g_enabled]. rewrite one_bit.
  case_bool_decide; by rewrite ?orb_true_r, ?orb_false_r.
Qed.

Lemma disable_view (k : Z * Z) :
  g_enabled (view (hw_write cpu 4 (rm_icenabler rm cpu id) (2 ^ (id mod 32)) (dev s))) k
  = if bool_decide (k = key cpu id) then false else g_enabled (view (dev s)) k.
Proof.
  rewrite icenabler_write by done. cbn [set_enabled g_enabled]. rewrite one_bit.
  case_bool_decide; cbn; by rewrite ?andb_true_r, ?andb_false_r.
Qed.

Lemma clear_view (k : Z * Z) :
  g_pending (view (hw_write cpu 4 (rm_icpendr rm cpu id) (2 ^ (id mod 32)) (dev s))) k
  = if bool_decide (k = key cpu id) then false else g_pending (view (dev s)) k.
Proof.
  rewrite icpendr_write by done. cbn [set_pending g_pending]. rewrite one_bit.
  case_bool_decide; cbn; by rewrite ?andb_true_r, ?andb_false_r.
Qed.

End One_cpu.

(** ** Enabling and disabling an interrupt *)

(** [f'] is [f] but for [x] at [k] *)
Definition at_key {A} (f f' : Z * Z → A) (k : Z * Z) (x : A) : Prop :=
  ∀ k', f' k' = if bool_decide (k' = k) then x else f k'.

Section Enable.

Context (rm : regmap) `{!GicOk D core_ok rm} (cpu tgt id : Z).

(** What enabling [id] with priority [prio] does to the controller *)
Definition enabled_by (prio : Z) (v v1 : gview) : Prop :=
  at_key (g_enabled v) (g_enabled v1) (key cpu id) true
  ∧ at_key (g_prio v) (g_prio v1) (key cpu id) (Z.land prio prio_mask)
  ∧ (∀ x, g_target v1 x = if (x =? id) && IS_PLAT_SPI p id then tgt else g_target v x)
  ∧ g_pending v1 = g_pending v ∧ g_cfg v1 = g_cfg v.

Lemma irq_enable_run (s : gic_state D) (prio : Z) :
  ready s cpu rm tgt → 0 <= id <= MAX_SPI_ID → 0 <= prio <= 255 →
  ∃ d, tftf_irq_enable p cpu id prio s = Ok (tt, set_dev s d)
    ∧ enabled_by prio (view (dev s)) (view d).
Proof.
  intros Hr Hid Hp. destruct (ready_core _ _ _ _ Hr) as [Hc Ha].
  assert (IS_PLAT_SPI p id && IS_SPI id = IS_PLAT_SPI p id) as Hspi.
  { unfold IS_PLAT_SPI, IS_SPI. lia. }
  unfold tftf_irq_enable. rewrite (bind_Ok _ _ _ _ _ (set_target_run _ _ _ _ Hr id Hid)), Hspi.
  set (s1 := if IS_PLAT_SPI p id then _ else s).
  assert (∃ d1, s1 = set_dev s d1 ∧ view d1 = if IS_PLAT_SPI p id
      then set_target (view (dev s)) (λ x, if x =? id then tgt else g_target (view (dev s)) x)
      else view (dev s)) as (d1 & -> & Hv1).
  { unfold s1. destruct (IS_PLAT_SPI p id) eqn:E.
    - eexists. split; [reflexivity|]. apply target_write. unfold IS_PLAT_SPI in E. lia.
    - exists (dev s). by destruct s. }
  pose proof (ready_dev _ _ _ _ d1 Hr) as Hr1.
  rewrite (bind_Ok _ _ _ _ _ (set_priority_run _ _ _ _ Hr1 id Hid prio Hp)).
  cbn [dev set_dev]. set (d2 := hw_write cpu 1 _ prio d1).
  pose proof (ready_dev _ _ _ _ d2 Hr) as Hr2.
  change (set_dev (set_dev s d1) d2) with (set_dev s d2).
  rewrite (intr_enable_run _ _ _ _ Hr2 id Hid). cbn [dev set_dev].
  eexists. split; [reflexivity|].
  pose proof (prio_write cpu cpu id prio d1 Hc Hid Ha) as Hv2. fold d2 in Hv2.
  pose proof (enable_view _ _ _ _ Hr2 id Hid) as Hen. cbn [dev set_dev] in Hen.
  split.
  { intros k. rewrite Hen, Hv2. cbn. rewrite Hv1. by destruct (IS_PLAT_SPI p id). }
  rewrite isenabler_write by done. cbn. rewrite Hv2. cbn. rewrite Hv1. split_and!.
  - intros k. by destruct (IS_PLAT_SPI p id).
  - intros x. destruct (IS_PLAT_SPI p id); by rewrite ?andb_true_r, ?andb_false_r.
  - by destruct (IS_PLAT_SPI p id).
  - by destruct (IS_PLAT_SPI p id).
Qed.

Lemma irq_disable_run (s : gic_state D) :
  ready s cpu rm tgt → 0 <= id <= MAX_SPI_ID →
  ∃ d, tftf_irq_disable cpu id s = Ok (tt, set_dev s d)
    ∧ at_key (g_enabled (view (dev s))) (g_enabled (view d)) (key cpu id) false
    ∧ set_enabled (view d) (g_enabled (view (dev s))) = view (dev s).
Proof.
  intros Hr Hid. destruct (ready_core _ _ _ _ Hr) as [Hc Ha]. unfold tftf_irq_disable.
  rewrite (intr_disable_run _ _ _ _ Hr id Hid). eexists. split; [reflexivity|]. split.
  - intros k. by apply (disable_view _ _ _ _ Hr id Hid).
  - rewrite icenabler_write by done. by destruct (view (dev s)).
Qed.

End Enable.

End Drivers.

(** C10: Whichever of GICv2 and GICv3 the driver found, [tftf_irq_enable()] on a
    set-up CPU returns, and of the whole controller it changes this: the
    interrupt is enabled (for the calling CPU, if it is private), it has the
    priority (as far as the controller keeps it) and, if it is shared, it is
    routed to the calling CPU.  [tftf_irq_disable()] disables it again and
    changes nothing else, and the driver reads the interrupt back as enabled
    and as disabled. *)
Theorem irq_enable_disable {D : Type} `{!GicHw D} (p : gic_plat) (rm : regmap)
    `{!GicOk D (core_ok p) rm} (s : gic_state D) (cpu tgt id prio : Z) :
  ready p s cpu rm tgt → 0 <= id <= MAX_SPI_ID → 0 <= prio <= 255 →
  ∃ d1 d2, tftf_irq_enable p cpu id prio s = Ok (tt, set_dev s d1)
    ∧ enabled_by p rm cpu tgt id prio (view (dev s)) (view d1)
    ∧ arm_gic_intr_enabled cpu id (set_dev s d1) = Ok (true, set_dev s d1)
    ∧ tftf_irq_disable cpu id (set_dev s d1) = Ok (tt, set_dev s d2)
    ∧ at_key (g_enabled (view d1)) (g_enabled (view d2)) (key cpu id) false
    ∧ set_enabled (view d2) (g_enabled (view d1)) = view d1
    ∧ arm_gic_intr_enabled cpu id (set_dev s d2) = Ok (false, set_dev s d2).
Proof.
  intros Hr Hid Hp.
  destruct (irq_enable_run p rm cpu tgt id s prio Hr Hid Hp) as (d1 & Hrun1 & Hv1).
  pose proof (ready_dev p _ _ _ _ d1 Hr) as Hr1.
  destruct (irq_disable_run p rm cpu tgt id (set_dev s d1) Hr1 Hid) as (d2 & Hrun2 & Hv2 & Hf).
  pose proof (ready_dev p _ _ _ _ d2 Hr) as Hr2. exists d1, d2.
  split_and!; [done|done| |exact Hrun2|exact Hv2|exact Hf|].
  - rewrite (intr_enabled_run p _ _ _ _ Hr1 id Hid). cbn [dev set_dev].
    destruct Hv1 as (He & _). by rewrite He, bool_decide_eq_true_2.
  - rewrite (intr_enabled_run p _ _ _ _ Hr2 id Hid). cbn [dev set_dev] in *.
    by rewrite Hv2, bool_decide_eq_true_2.
Qed.

(** ** Priorities *)

Lemma word4_range (f : Z → Z) :
  (∀ j, 0 <= j < 4 → 0 <= f j <= 255) → 0 <= word4 f < 2 ^ 32.
Proof.
  intros Hf. pose proof (Hf 0 ltac:(lia)). pose proof (Hf 1 ltac:(lia)).
  pose proof (Hf 2 ltac:(lia)). pose proof (Hf 3 ltac:(lia)). unfold word4. lia.
Qed.

Lemma byte_of_word4 (f : Z → Z) (j : Z) :
  (∀ i, 0 <= i < 4 → 0 <= f i <= 255) → 0 <= j < 4 → byte_of (word4 f) j = f j.
Proof.
  intros Hf Hj. pose proof (Hf 0 ltac:(lia)). pose proof (Hf 1 ltac:(lia)).
  pose proof (Hf 2 ltac:(lia)). pose proof (Hf 3 ltac:(lia)). unfold byte_of, word4.
  assert (j = 0 ∨ j = 1 ∨ j = 2 ∨ j = 3) as [-> | [-> | [-> | ->]]] by lia.
  - change (2 ^ (8 * 0)) with 1. rewrite Z.div_1_r.
    symmetry. apply (Z.mod_unique _ _ (f 1 + 2 ^ 8 * f 2 + 2 ^ 16 * f 3)); lia.
  - rewrite <- (Z.div_unique _ (2 ^ (8 * 1)) (f 1 + 2 ^ 8 * f 2 + 2 ^ 16 * f 3) (f 0)) by lia.
    symmetry. apply (Z.mod_unique _ _ (f 2 + 2 ^ 8 * f 3)); lia.
  - rewrite <- (Z.div_unique _ (2 ^ (8 * 2)) (f 2 + 2 ^ 8 * f 3) (f 0 + 2 ^ 8 * f 1)) by lia.
    symmetry. apply (Z.mod_unique _ _ (f 3)); lia.
  - rewrite <- (Z.div_unique _ (2 ^ (8 * 3)) (f 3) (f 0 + 2 ^ 8 * f 1 + 2 ^ 16 * f 2)) by lia.
    apply Z.mod_small. lia.
Qed.

Lemma land_le (x m : Z) : 0 <= m → Z.land x m = x → 0 <= x <= m.
Proof.
  intros Hm <-. split; [by apply Z.land_nonneg; right|].
  apply Z.ldiff_le; [lia|]. apply Z.bits_inj'. intros n Hn.
  rewrite Z.ldiff_spec, Z.land_spec, Z.testbit_0_l.
  by destruct (Z.testbit x n), (Z.testbit m n).
Qed.
