(* ===== verification/GicCtx.v ===== *)
(** * The saved context of a GIC

    The registers of the private interrupts are saved before a CPU or the
    system loses power and restored afterwards. *)

From S2P Require Import Prelude Gic GicV5 Irq GicSpec.

Local Open Scope Z_scope.

Section Ctx.

Context {D : Type} `{!GicHw D} (p : gic_plat) (rm : regmap) `{!GicOk D (core_ok p) rm}.

Abbreviation G := (M (gic_state D)).

Lemma prio_range (d : D) (k : Z * Z) : 0 <= g_prio (view d) k <= 255.
Proof.
  pose proof (prio_mask_range (rm := rm)) as Hm.
  pose proof (land_le _ _ (proj1 Hm) (prio_masked d k)). lia.
Qed.

(** A word of priorities, read *)
Lemma prio_word_run (s : gic_state D) (c core id : Z) :
  core_ok p core → rm_acc rm c core → 0 <= id <= MAX_SPI_ID → id mod 4 = 0 →
  mmio_read_32 c (rm_prio rm core id) s
  = Ok (word4 (λ j, g_prio (view (dev s)) (key core (id + j))), s).
Proof.
  intros Hc Ha Hid Hm. apply read_run; [by apply prio_read4|].
  change (8 * 4) with 32. apply wrap_small. apply word4_range. intros j _. apply prio_range.
Qed.

(** ** Saving and restoring the registers of one core

    The drivers differ in where the registers are; both go through [read_regs]
    and [write_regs]. *)
Section One_core.

Context (c core : Z) (Hc : core_ok p core) (Ha : rm_acc rm c core).

(** What is saved of the private interrupts of [core] *)
Definition prio_reg (v : gview) (i : Z) : Z := word4 (λ j, g_prio v (key core (4 * i + j))).
Definition saved (v : gview) (en : Z) (prio : list Z) (cfg : Z) : Prop :=
  en = word (λ b, g_enabled v (key core b)) ∧ prio = prio_reg v <$> seqZ 0 8
  ∧ cfg = Z.lor (g_cfg v core) (cfg_ro (rm := rm)).

Lemma read_regs_run (read : Z → G Z) (F : Z → Z) (n : nat) (i : Z) (s : gic_state D) :
  (∀ x, i <= x < i + Z.of_nat n → read (Z.shiftl x 2) s = Ok (F x, s)) →
  read_regs read n i s = Ok (F <$> seqZ i (Z.of_nat n), s).
Proof.
  revert i. induction n as [|n IH]; intros i Hread; [done|]. cbn [read_regs].
  rewrite (bind_Ok _ _ _ _ _ (Hread i ltac:(lia))).
  rewrite (bind_Ok _ _ _ _ _ (IH (i + 1) ltac:(intros; apply Hread; lia))).
  rewrite (seqZ_cons i) by lia. cbn. replace (Z.succ i) with (i + 1) by lia.
  by replace (Z.pred (Z.of_nat (S n))) with (Z.of_nat n) by lia.
Qed.

(** The private interrupts of [core] with a priority in registers [i] to
    [i + n - 1] *)
Definition in_regs (i n : Z) (k : Z * Z) : bool :=
  bool_decide (k = key core k.2 ∧ i <= k.2 / 4 < i + n).

Lemma write_regs_run (write : Z → Z → G unit) (v : gview) (n : nat) (i : Z) (s : gic_state D) :
  0 <= i → i + Z.of_nat n <= 8 →
  (∀ x y s', 0 <= x < 8 → 0 <= y < 2 ^ 32 → write (Z.shiftl x 2) y s'
     = Ok (tt, set_dev s' (hw_write c 4 (rm_prio rm core (4 * x)) y (dev s')))) →
  (∀ k, 0 <= g_prio v k <= 255 ∧ Z.land (g_prio v k) (prio_mask (rm := rm)) = g_prio v k) →
  ∃ d, write_regs write (prio_reg v <$> seqZ i (Z.of_nat n)) i s = Ok (tt, set_dev s d)
    ∧ (∀ k, g_prio (view d) k = if in_regs i (Z.of_nat n) k then g_prio v k else g_prio (view (dev s)) k)
    ∧ set_prio (view d) (g_prio (view (dev s))) = view (dev s).
Proof.
  intros Hi Hn Hw Hv. revert i s Hi Hn. induction n as [|n IH]; intros i s Hi Hn.
  { exists (dev s). split_and!; [by destruct s| |by destruct (view (dev s))].
    intros k. unfold in_regs. by rewrite bool_decide_eq_false_2 by lia. }
  rewrite seqZ_cons by lia. cbn [fmap list_fmap write_regs].
  assert (0 <= prio_reg v i < 2 ^ 32) as Hrange by (apply word4_range; intros; apply Hv).
  rewrite (bind_Ok _ _ _ _ _ (Hw i (prio_reg v i) s ltac:(lia) Hrange)).
  replace (Z.succ i) with (i + 1) by lia.
  replace (Z.pred (Z.of_nat (S n))) with (Z.of_nat n) by lia.
  set (d1 := hw_write c 4 _ _ (dev s)).
  destruct (IH (i + 1) (set_dev s d1) ltac:(lia) ltac:(lia)) as (d & Hrun & Hp & Hf).
  exists d. split; [exact Hrun|]. cbn [dev set_dev] in *.
  assert (view d1 = set_prio (view (dev s)) (λ k, if in_word4 core (4 * i) k
    then Z.land (byte_of (prio_reg v i) (k.2 mod 4)) prio_mask else g_prio (view (dev s)) k)) as Hd1.
  { apply prio_write4; try done; unfold MAX_SPI_ID; [lia|]. rewrite Z.mul_comm. by apply Z.mod_mul. }
  split.
  - intros k. rewrite Hp, Hd1. cbn [set_prio g_prio]. unfold in_regs, in_word4.
    replace (4 * i / 4) with i by (rewrite Z.mul_comm, Z.div_mul; lia).
    destruct (decide (k = key core k.2)) as [Hk|Hk].
    2:{ rewrite !bool_decide_eq_false_2 by tauto. done. }
    rewrite (bool_decide_eq_true_2 (k = key core k.2)) by done. cbn [andb].
    destruct (Z.eqb_spec (k.2 / 4) i) as [He|He].
    + rewrite bool_decide_eq_false_2 by (intros [? ?]; lia).
      rewrite bool_decide_eq_true_2 by (split; [done|lia]).
      unfold prio_reg. rewrite byte_of_word4; [|intros; apply Hv|apply Z.mod_pos_bound; lia].
      replace (4 * i + k.2 mod 4) with k.2 by (pose proof (Z.div_mod k.2 4 ltac:(lia)); lia).
      rewrite <- Hk. apply Hv.
    + assert (bool_decide (k = key core k.2 ∧ i + 1 <= k.2 / 4 < i + 1 + Z.of_nat n)
        = bool_decide (k = key core k.2 ∧ i <= k.2 / 4 < i + Z.of_nat (S n))) as ->.
      { apply bool_decide_ext. split; intros [? ?]; (split; [done|lia]). }
      done.
  - rewrite Hd1 in Hf. destruct (view d), (view (dev s)). cbn in *. injection Hf as -> -> -> ->. done.
Qed.

End One_core.

(** [new] is [old] with the private interrupts of the cores in [sel] as in [v] *)
Definition restored (sel : Z → bool) (v old new : gview) : Prop :=
  (∀ core id, 0 <= core → 0 <= id < 32 →
     g_prio new (core, id) = (if sel core then g_prio v (core, id) else g_prio old (core, id))
     ∧ g_enabled new (core, id) = g_enabled old (core, id) || sel core && g_enabled v (core, id))
  ∧ (∀ core, 0 <= core → g_cfg new core = if sel core then g_cfg v core else g_cfg old core)
  ∧ (∀ id, 32 <= id → g_prio new (-1, id) = g_prio old (-1, id)
       ∧ g_enabled new (-1, id) = g_enabled old (-1, id))
  ∧ g_pending new = g_pending old ∧ g_target new = g_target old.

Lemma key_private (core id : Z) : 0 <= id < 32 → key core id = (core, id).
Proof. intros Hid. unfold key, MIN_SPI_ID. by rewrite (proj2 (Z.ltb_lt id 32)) by lia. Qed.

Lemma key_shared (core id : Z) : 32 <= id → key core id = (-1, id).
Proof. intros Hid. unfold key, MIN_SPI_ID. by rewrite (proj2 (Z.ltb_ge id 32)) by lia. Qed.

Lemma in_regs_private (core x id : Z) : 0 <= id < 32 →
  in_regs core 0 8 (x, id) = (x =? core).
Proof.
  intros Hid. unfold in_regs. cbn [snd]. rewrite key_private by done.
  assert (0 <= id / 4 < 8) as Hd.
  { split; [apply Z.div_pos; lia|apply Z.div_lt_upper_bound; lia]. }
  destruct (Z.eqb_spec x core) as [->|Hne].
  - apply bool_decide_eq_true_2. split; [done|lia].
  - apply bool_decide_eq_false_2. intros [? ?]. congruence.
Qed.

Lemma in_regs_shared (core id : Z) : 32 <= id → in_regs core 0 8 (-1, id) = false.
Proof.
  intros Hid. unfold in_regs. apply bool_decide_eq_false_2. cbn [snd]. intros [_ H].
  assert (8 <= id / 4) by (apply Z.div_le_lower_bound; lia). lia.
Qed.

Lemma in_word_private (core x id : Z) : 0 <= id < 32 → in_word core 0 (x, id) = (x =? core).
Proof.
  intros Hid. unfold in_word. cbn [snd]. rewrite key_private, Z.div_small by done.
  change (0 / 32) with 0. rewrite Z.eqb_refl, andb_true_r.
  destruct (Z.eqb_spec x core) as [->|Hne]; [by apply bool_decide_eq_true_2|].
  apply bool_decide_eq_false_2. congruence.
Qed.

Lemma in_word_shared (core id : Z) : 32 <= id → in_word core 0 (-1, id) = false.
Proof.
  intros Hid. unfold in_word. cbn [snd]. change (0 / 32) with 0.
  assert (1 <= id / 32) by (apply Z.div_le_lower_bound; lia).
  by rewrite (proj2 (Z.eqb_neq (id / 32) 0)), andb_false_r by lia.
Qed.

Lemma restore_one (c core : Z) (write : Z → Z → G unit) (wcfg wen : Z → G unit) (d0 : D)
    (s : gic_state D) (en : Z) (prio : list Z) (cfg : Z) :
  core_ok p core → rm_acc rm c core →
  (∀ x y s', 0 <= x < 8 → 0 <= y < 2 ^ 32 → write (Z.shiftl x 2) y s'
     = Ok (tt, set_dev s' (hw_write c 4 (rm_prio rm core (4 * x)) y (dev s')))) →
  (∀ y s', 0 <= y < 2 ^ 32 →
     wcfg y s' = Ok (tt, set_dev s' (hw_write c 4 (rm_cfg rm core) y (dev s')))) →
  (∀ y s', 0 <= y < 2 ^ 32 →
     wen y s' = Ok (tt, set_dev s' (hw_write c 4 (rm_isenabler rm core 0) y (dev s')))) →
  saved core (view d0) en prio cfg →
  ∃ d, (write_regs write prio 0;; wcfg cfg;; wen en) s = Ok (tt, set_dev s d)
    ∧ restored (λ x, x =? core) (view d0) (view (dev s)) (view d).
Proof.
  intros Hc Ha Hw Hwc Hwe (-> & -> & ->).
  pose proof cfg_range as (Hro & Hcm & Hdis).
  pose proof (cfg_masked d0 core) as Hgm. pose proof (land_le _ _ (proj1 Hcm) Hgm) as Hgr.
  destruct (write_regs_run c core Hc Ha write (view d0) 8 0 s ltac:(lia) ltac:(lia) Hw)
    as (d1 & Hrun1 & Hp1 & Hf1).
  { intros k. split; [apply prio_range|apply prio_masked]. }
  rewrite (bind_Ok _ _ _ _ _ Hrun1).
  set (cv := Z.lor (g_cfg (view d0) core) cfg_ro).
  assert (0 <= cv < 2 ^ 32) as Hcv.
  { apply (lor_range 32); unfold in_width; lia. }
  rewrite (bind_Ok _ _ _ _ _ (Hwc cv (set_dev s d1) Hcv)). cbn [dev set_dev].
  set (d2 := hw_write c 4 (rm_cfg rm core) cv d1).
  set (ev := word _). change (set_dev (set_dev s d1) d2) with (set_dev s d2).
  rewrite (Hwe ev (set_dev s d2) (word_range _)). cbn [dev set_dev].
  eexists. split; [reflexivity|].
  assert (Z.land cv cfg_mask = g_cfg (view d0) core) as Hcm2.
  { unfold cv. by rewrite Z.land_lor_distr_l, Hdis, Z.lor_0_r. }
  pose proof (cfg_write c core cv d1 Hc Ha) as Hv2. fold d2 in Hv2. rewrite Hcm2 in Hv2.
  assert (∀ k, g_enabled (view d1) k = g_enabled (view (dev s)) k) as He1.
  { intros k. by rewrite <- Hf1. }
  assert (∀ x, g_cfg (view d1) x = g_cfg (view (dev s)) x) as Hc2.
  { intros x. by rewrite <- Hf1. }
  rewrite (isenabler_write c core 0 ev d2 Hc ltac:(unfold MAX_SPI_ID; lia) Ha), Hv2.
  split_and!; cbn [set_enabled set_cfg g_prio g_enabled g_cfg g_pending g_target].
  - intros x id Hx Hid. rewrite Hp1, He1. change (Z.of_nat 8) with 8.
    rewrite in_regs_private, in_word_private by done. split; [done|].
    destruct (Z.eqb_spec x core) as [->|]; [|done]. cbn [andb snd]. f_equal.
    rewrite Z.mod_small by done. unfold ev. rewrite word_bit by done. by rewrite key_private.
  - intros x Hx. rewrite Hc2. by destruct (Z.eqb_spec x core) as [->|].
  - intros id Hid. rewrite Hp1, He1. change (Z.of_nat 8) with 8.
    rewrite in_regs_shared, in_word_shared by done. split; [done|]. by rewrite orb_false_r.
  - by rewrite <- Hf1.
  - by rewrite <- Hf1.
Qed.

Lemma restored_refl (sel : Z → bool) (v old : gview) :
  (∀ x, 0 <= x → sel x = false) → restored sel v old old.
Proof.
  intros Hs. split_and!; try done.
  - intros core id Hc Hid. rewrite Hs by done. cbn. by rewrite orb_false_r.
  - intros core Hc. by rewrite Hs.
Qed.

Lemma restored_trans (sel1 sel2 sel : Z → bool) (v a b c : gview) :
  restored sel1 v a b → restored sel2 v b c → (∀ x, 0 <= x → sel x = sel1 x || sel2 x) →
  restored sel v a c.
Proof.
  intros (P1 & C1 & S1 & E1 & T1) (P2 & C2 & S2 & E2 & T2) Hsel. split_and!.
  - intros core id Hc Hid. destruct (P1 core id Hc Hid) as [Hp He]. destruct (P2 core id Hc Hid) as [-> ->].
    rewrite Hp, He, Hsel by done. destruct (sel1 core), (sel2 core); cbn; split; try done;
      by destruct (g_enabled a (core, id)), (g_enabled v (core, id)).
  - intros core Hc. rewrite C2, C1, Hsel by done. by destruct (sel1 core), (sel2 core).
  - intros id Hid. destruct (S2 id Hid) as [-> ->]. by apply S1.
  - by rewrite E2.
  - by rewrite T2.
Qed.

(** The registers of a core's word of priorities *)
Lemma prio_index (base reg x : Z) :
  0 <= x < 8 → 0 <= base → 0 <= reg → base + reg + 4096 <= 2 ^ 64 →
  reg_n base reg 2 (Z.shiftl x 2) = base + reg + 4 * x.
Proof.
  intros Hx Hb Hr Hle. rewrite Z.shiftl_mul_pow2 by lia. rewrite reg_n_val by (unfold MAX_SPI_ID; lia).
  by rewrite Z.div_mul by lia.
Qed.

Lemma enable_word_run (s : gic_state D) (c core : Z) :
  core_ok p core → rm_acc rm c core →
  mmio_read_32 c (rm_isenabler rm core 0) s
  = Ok (word (λ b, g_enabled (view (dev s)) (key core b)), s).
Proof.
  intros Hc Ha. apply read_run; [|apply word_wrap].
  by apply (isenabler_read c core 0).
Qed.

Lemma cfg_word_run (s : gic_state D) (c core : Z) :
  core_ok p core → rm_acc rm c core →
  mmio_read_32 c (rm_cfg rm core) s = Ok (Z.lor (g_cfg (view (dev s)) core) (cfg_ro (rm := rm)), s).
Proof.
  intros Hc Ha. apply read_run; [by apply cfg_read|]. pose proof cfg_range as (Hro & Hcm & _).
  pose proof (land_le _ _ (proj1 Hcm) (cfg_masked (dev s) core)).
  apply wrap_small. apply lor_range; unfold in_width; lia.
Qed.

End Ctx.

(** ** GICv2 *)

Section Ctx2.

Context {D : Type} `{!GicHw D} (p : gic_plat) (gicd : Z) `{!GicOk D (core_ok p) (gicv2_map gicd)}.
Context (cpu gid : Z).

Definition with_ctx2 (s : gic_state D) (l : list gicv2_pcpu_ctx) : gic_state D :=
  set_v2 s {| pcpu_gic_ctx := l; gicc_base_addr := gicc_base_addr (v2 s);
              gicv2_gicd_base_addr := gicv2_gicd_base_addr (v2 s); gic_cpu_id := gic_cpu_id (v2 s) |}.

Lemma ctx2_prio (x : Z) : 0 < gicd → gicd + 0x1000 <= 2 ^ 32 → 0 <= x < 8 →
  reg_n gicd GICD_IPRIORITYR IPRIORITYR_SHIFT (Z.shiftl x 2) = rm_prio (gicv2_map gicd) cpu (4 * x).
Proof.
  intros H1 H2 Hx. unfold IPRIORITYR_SHIFT. rewrite prio_index by (unfold GICD_IPRIORITYR; lia). done.
Qed.

Lemma ctx2_cfg : 0 < gicd → gicd + 0x1000 <= 2 ^ 32 →
  reg_n gicd GICD_ICFGR ICFGR_SHIFT MIN_PPI_ID = rm_cfg (gicv2_map gicd) cpu.
Proof.
  intros H1 H2. unfold ICFGR_SHIFT, MIN_PPI_ID, GICD_ICFGR.
  by rewrite reg_n_val by (unfold MAX_SPI_ID; lia).
Qed.

Lemma ctx2_enable : 0 < gicd → gicd + 0x1000 <= 2 ^ 32 →
  reg_n gicd GICD_ISENABLER ISENABLER_SHIFT 0 = rm_isenabler (gicv2_map gicd) cpu 0.
Proof.
  intros H1 H2. unfold ISENABLER_SHIFT, GICD_ISENABLER.
  by rewrite reg_n_val by (unfold MAX_SPI_ID; lia).
Qed.

Lemma gicv2_save_run (s : gic_state D) (c0 : gicv2_pcpu_ctx) :
  ready2 p s gicd cpu gid → zget (pcpu_gic_ctx (v2 s)) cpu = Some c0 →
  ∃ c, gicv2_save_sgi_ppi_context cpu s = Ok (tt, with_ctx2 s (zset (pcpu_gic_ctx (v2 s)) cpu c))
    ∧ saved p (gicv2_map gicd) cpu (view (dev s)) (gicd_isenabler0 c) (gicd_ipriorityr c)
        (gicd_icfgr c).
Proof.
  intros H Hc0. pose proof (r2_range _ _ _ _ _ H) as [Hr1 Hr2]. pose proof (r2_core _ _ _ _ _ H) as Hc.
  unfold gicv2_save_sgi_ppi_context. rewrite (bind_Ok _ _ _ _ _ (need_gicd2_run _ _ _ _ _ H)).
  unfold gicd_read_isenabler. rewrite ctx2_enable by done.
  rewrite (bind_Ok _ _ _ _ _ (enable_word_run p (gicv2_map gicd) s cpu cpu Hc eq_refl)).
  change prio_regs with 8%nat.
  rewrite (bind_Ok _ _ _ _ _ (read_regs_run (gicd_read_ipriorityr cpu gicd) (prio_reg cpu (view (dev s))) 8 0 s
    ltac:(intros x Hx; unfold gicd_read_ipriorityr; rewrite ctx2_prio by lia;
          apply (prio_word_run p (gicv2_map gicd)); [done|done|unfold MAX_SPI_ID; lia|];
          rewrite Z.mul_comm; by apply Z.mod_mul))).
  unfold gicd_read_icfgr. rewrite ctx2_cfg by done.
  rewrite (bind_Ok _ _ _ _ _ (cfg_word_run p (gicv2_map gicd) s cpu cpu Hc eq_refl)).
  unfold get_ctx2. erewrite bind_Ok; [|erewrite bind_Ok by reflexivity; by apply aget_Ok].
  unfold put_ctx2. erewrite bind_Ok by reflexivity.
  erewrite bind_Ok by (apply aset_Ok; by apply zget_Some_range in Hc0).
  eexists. split; [reflexivity|]. by split_and!.
Qed.

Lemma gicv2_restore_run (s : gic_state D) (c : gicv2_pcpu_ctx) (d0 : D) :
  ready2 p s gicd cpu gid → zget (pcpu_gic_ctx (v2 s)) cpu = Some c →
  saved p (gicv2_map gicd) cpu (view d0) (gicd_isenabler0 c) (gicd_ipriorityr c) (gicd_icfgr c) →
  ∃ d, gicv2_restore_sgi_ppi_context cpu s = Ok (tt, set_dev s d)
    ∧ restored (λ x, x =? cpu) (view d0) (view (dev s)) (view d).
Proof.
  intros H Hc0 Hs. pose proof (r2_range _ _ _ _ _ H) as [Hr1 Hr2].
  pose proof (r2_core _ _ _ _ _ H) as Hc.
  unfold gicv2_restore_sgi_ppi_context. rewrite (bind_Ok _ _ _ _ _ (need_gicd2_run _ _ _ _ _ H)).
  unfold get_ctx2. erewrite bind_Ok; [|erewrite bind_Ok by reflexivity; by apply aget_Ok].
  apply (restore_one p (gicv2_map gicd) cpu cpu); try done.
  - intros x y s' Hx Hy. unfold gicd_write_ipriorityr. rewrite ctx2_prio by lia. by apply write32_run.
  - intros y s' Hy. unfold gicd_write_icfgr. rewrite ctx2_cfg by lia. by apply write32_run.
  - intros y s' Hy. unfold gicd_write_isenabler. rewrite ctx2_enable by lia. by apply write32_run.
Qed.

(** Saving the registers of the private interrupts and restoring them later,
    whatever happened to the device in between *)
Theorem gicv2_context_roundtrip (s : gic_state D) :
  ready2 p s gicd cpu gid → cpu < zlen (pcpu_gic_ctx (v2 s)) →
  ∃ s1, gicv2_save_sgi_ppi_context cpu s = Ok (tt, s1) ∧ dev s1 = dev s
    ∧ ∀ d2, ∃ d3, gicv2_restore_sgi_ppi_context cpu (set_dev s1 d2) = Ok (tt, set_dev s1 d3)
        ∧ restored (λ x, x =? cpu) (view (dev s)) (view d2) (view d3).
Proof.
  intros H Hlen. pose proof (r2_core _ _ _ _ _ H) as Hc. destruct Hc as [Hc0 Hc1].
  destruct (zget_is_Some (pcpu_gic_ctx (v2 s)) cpu) as [c0 Hget]; [lia|].
  destruct (gicv2_save_run s c0 H Hget) as (c & Hrun & Hs).
  eexists. split; [exact Hrun|]. split; [done|]. intros d2.
  apply (gicv2_restore_run (set_dev (with_ctx2 s _) d2) c (dev s)).
  - destruct H. by split.
  - cbn. by rewrite zget_zset_eq.
  - exact Hs.
Qed.

End Ctx2.

(** ** GICv3 *)

Section Ctx3.

Context {D : Type} `{!GicHw D} (p : gic_plat) (gicd : Z) (rdist : Z → Z).
Context `{!GicOk D (core_ok p) (gicv3_map gicd rdist)} (cpu : Z).

Abbreviation G := (M (gic_state D)).
Abbreviation map3 := (gicv3_map gicd rdist).

Definition with_ctx3 (s : gic_state D) (l : list gicv3_pcpu_ctx) : gic_state D :=
  set_v3 s {| gicr_frames := gicr_frames (v3 s); gicv3_gicd_base_addr := gicv3_gicd_base_addr (v3 s);
              pcpu_ctx := l; rdist_pcpu_base := rdist_pcpu_base (v3 s);
              mpidr_list := mpidr_list (v3 s) |}.

(** The cores whose context is saved: the calling one and the suspended ones *)
Definition selected (l : list gicv3_pcpu_ctx) (core : Z) : bool :=
  (core =? cpu) || match zget l core with Some c => negb (is_suspended c =? 0) | None => false end.

(** Their redistributors are known. *)
Definition rdists_known (s : gic_state D) : Prop :=
  zlen (pcpu_ctx (v3 s)) = PLATFORM_CORE_COUNT p ∧ core_ok p cpu
  ∧ ∀ core, core_ok p core → selected (pcpu_ctx (v3 s)) core = true →
      zget (rdist_pcpu_base (v3 s)) core = Some (rdist core)
      ∧ 0 < rdist core ∧ rdist core + 0x20000 <= 2 ^ 64.

Definition saved_ctx (core : Z) (v : gview) (c : gicv3_pcpu_ctx) : Prop :=
  saved p map3 core v (gicr_isenabler c) (gicr_ipriorityr c) (gicr_icfgr c).

Lemma rdist_run (s : gic_state D) (core : Z) :
  zget (rdist_pcpu_base (v3 s)) core = Some (rdist core) → 0 < rdist core →
  need_rdist core s = Ok (rdist core, s).
Proof.
  intros H Hr. unfold need_rdist. erewrite bind_Ok by reflexivity.
  erewrite bind_Ok by (by apply aget_Ok). unfold mbind, M_bind, assert_.
  by rewrite (proj2 (Z.eqb_neq (rdist core) 0)) by lia.
Qed.

Lemma ctx3_prio (core x : Z) : 0 < rdist core → rdist core + 0x20000 <= 2 ^ 64 → 0 <= x < 8 →
  reg_n (rdist core) GICR_IPRIORITYR IPRIORITYR_SHIFT (Z.shiftl x 2) = rm_prio map3 core (4 * x).
Proof.
  intros H1 H2 Hx. unfold IPRIORITYR_SHIFT, GICR_IPRIORITYR, GICR_SGIBASE_OFFSET.
  change (Z.shiftl 1 16) with 65536. rewrite prio_index by lia. cbn [rm_prio gicv3_map].
  unfold GICR_IPRIORITYR, GICR_SGIBASE_OFFSET, MIN_SPI_ID. change (Z.shiftl 1 16) with 65536.
  by rewrite (proj2 (Z.ltb_lt (4 * x) 32)) by lia.
Qed.

Lemma ctx3_addr (core reg : Z) : 0 < rdist core → rdist core + 0x20000 <= 2 ^ 64 →
  0 <= reg < 0x20000 → u64 (rdist core + reg) = rdist core + reg.
Proof. intros H1 H2 H3. apply u64_small. unfold UINT64_MAX. lia. Qed.

Lemma save_rdist_run (s : gic_state D) (l : list gicv3_pcpu_ctx) (core : Z) (c : gicv3_pcpu_ctx) :
  core_ok p core → zget l core = Some c → zget (rdist_pcpu_base (v3 s)) core = Some (rdist core) →
  0 < rdist core → rdist core + 0x20000 <= 2 ^ 64 →
  ∃ c', save_rdist cpu core (with_ctx3 s l) = Ok (tt, with_ctx3 s (zset l core c'))
    ∧ is_suspended c' = is_suspended c ∧ saved_ctx core (view (dev s)) c'.
Proof.
  intros Hc Hl Hr Hr1 Hr2. unfold save_rdist.
  rewrite (bind_Ok _ _ _ _ _ (rdist_run (with_ctx3 s l) core Hr Hr1)).
  unfold gicr_read_isenabler0. rewrite ctx3_addr by (done || lia).
  rewrite (bind_Ok _ _ _ _ _ (enable_word_run p map3 (with_ctx3 s l) cpu core Hc I)).
  change prio_regs with 8%nat.
  rewrite (bind_Ok _ _ _ _ _ (read_regs_run (gicr_read_ipriorityr cpu (rdist core))
    (prio_reg core (view (dev (with_ctx3 s l)))) 8 0 (with_ctx3 s l)
    ltac:(intros x Hx; unfold gicr_read_ipriorityr; rewrite ctx3_prio by lia;
          apply (prio_word_run p map3); [done|done|unfold MAX_SPI_ID; lia|];
          rewrite Z.mul_comm; by apply Z.mod_mul))).
  unfold gicr_read_icfgr1. rewrite ctx3_addr by (done || lia).
  rewrite (bind_Ok _ _ _ _ _ (cfg_word_run p map3 (with_ctx3 s l) cpu core Hc I)).
  unfold get_ctx3. erewrite bind_Ok; [|erewrite bind_Ok by reflexivity; by apply aget_Ok].
  unfold put_ctx3. erewrite bind_Ok by reflexivity.
  erewrite bind_Ok by (apply aset_Ok; by apply zget_Some_range in Hl).
  eexists. split; [reflexivity|]. split; [done|]. by split_and!.
Qed.

Lemma restore_rdist_run (s : gic_state D) (core : Z) (c : gicv3_pcpu_ctx) (d0 : D) :
  core_ok p core → zget (pcpu_ctx (v3 s)) core = Some c →
  zget (rdist_pcpu_base (v3 s)) core = Some (rdist core) →
  0 < rdist core → rdist core + 0x20000 <= 2 ^ 64 → saved_ctx core (view d0) c →
  ∃ d, restore_rdist cpu core s = Ok (tt, set_dev s d)
    ∧ restored (λ x, x =? core) (view d0) (view (dev s)) (view d).
Proof.
  intros Hc Hl Hr Hr1 Hr2 Hs. unfold restore_rdist.
  rewrite (bind_Ok _ _ _ _ _ (rdist_run s core Hr Hr1)).
  unfold get_ctx3. erewrite bind_Ok; [|erewrite bind_Ok by reflexivity; by apply aget_Ok].
  apply (restore_one p map3 cpu core); try done.
  - intros x y s' Hx Hy. unfold gicr_write_ipriorityr. rewrite ctx3_prio by lia. by apply write32_run.
  - intros y s' Hy. unfold gicr_write_icfgr1. rewrite ctx3_addr by (done || lia). by apply write32_run.
  - intros y s' Hy. unfold gicr_write_isenabler0. rewrite ctx3_addr by (done || lia).
    by apply write32_run.
Qed.

Lemma get_ctx3_run (s : gic_state D) (core : Z) (c : gicv3_pcpu_ctx) :
  zget (pcpu_ctx (v3 s)) core = Some c → get_ctx3 core s = Ok (c, s).
Proof. intros H. unfold get_ctx3. erewrite bind_Ok by reflexivity. by apply aget_Ok. Qed.

(** One round of the loop *)
Lemma each_round (f : Z → G unit) (n : nat) (i : Z) (s : gic_state D) (c : gicv3_pcpu_ctx) :
  zget (pcpu_ctx (v3 s)) i = Some c →
  each_suspended cpu f (S n) i s
  = ((if selected (pcpu_ctx (v3 s)) i then f i else mret tt);; each_suspended cpu f n (i + 1)) s.
Proof.
  intros Hc. cbn [each_suspended]. rewrite (bind_Ok _ _ _ _ _ (get_ctx3_run _ _ _ Hc)).
  unfold selected. rewrite Hc. destruct (i =? cpu), (is_suspended c =? 0); done.
Qed.

(** What the saving loop leaves of the contexts of the cores from [i] on *)
Definition saved_from (s : gic_state D) (i n : Z) (l l' : list gicv3_pcpu_ctx) : Prop :=
  ∀ core c, zget l core = Some c → ∃ c', zget l' core = Some c'
    ∧ is_suspended c' = is_suspended c
    ∧ if bool_decide (i <= core < i + n) && selected l core then saved_ctx core (view (dev s)) c'
      else c' = c.

Lemma save_loop (s : gic_state D) (n : nat) (i : Z) (l : list gicv3_pcpu_ctx) :
  rdists_known s → zlen l = PLATFORM_CORE_COUNT p → 0 <= i →
  i + Z.of_nat n <= PLATFORM_CORE_COUNT p →
  (∀ core, selected l core = selected (pcpu_ctx (v3 s)) core) →
  ∃ l', each_suspended cpu (save_rdist cpu) n i (with_ctx3 s l) = Ok (tt, with_ctx3 s l')
    ∧ zlen l' = zlen l ∧ saved_from s i (Z.of_nat n) l l'.
Proof.
  intros Hk. pose proof Hk as (_ & _ & Hrd). revert i l.
  induction n as [|n IH]; intros i l Hlen Hi Hn Hsel.
  { exists l. split_and!; [done|done|]. intros core c Hc. exists c.
    rewrite bool_decide_eq_false_2 by lia. done. }
  destruct (zget_is_Some l i) as [c Hc]; [lia|].
  assert (core_ok p i) as Hok by (unfold core_ok; lia).
  rewrite (each_round _ n i (with_ctx3 s l) c Hc). change (pcpu_ctx (v3 (with_ctx3 s l))) with l.
  destruct (selected l i) eqn:Esel.
  2:{ destruct (IH (i + 1) l Hlen ltac:(lia) ltac:(lia) Hsel) as (l' & Hrun & Hl' & Hs).
      exists l'. split; [exact Hrun|]. split; [done|]. intros core x Hx.
      destruct (Hs core x Hx) as (x' & Hx' & Hsus & Hsv). exists x'. split_and!; [done|done|].
      destruct (decide (core = i)) as [->|Hne].
      - rewrite Esel, andb_false_r in *. done.
      - assert (bool_decide (i <= core < i + Z.of_nat (S n))
          = bool_decide (i + 1 <= core < i + 1 + Z.of_nat n)) as -> by (apply bool_decide_ext; lia).
        done. }
  destruct (Hrd i Hok) as (Hr & Hr1 & Hr2); [by rewrite <- Hsel|].
  destruct (save_rdist_run s l i c Hok Hc Hr Hr1 Hr2) as (c' & Hrun & Hsus & Hsv).
  rewrite (bind_Ok _ _ _ _ _ Hrun).
  assert (∀ core, selected (zset l i c') core = selected l core) as Hsel'.
  { intros core. unfold selected. rewrite zget_zset. case_decide as Hd; [|done].
    destruct Hd as [<- _]. by rewrite Hc, Hsus. }
  destruct (IH (i + 1) (zset l i c')) as (l' & Hrun' & Hl' & Hs);
    [by rewrite zlen_zset|lia|lia|intros; by rewrite Hsel'|].
  exists l'. split; [exact Hrun'|]. split; [by rewrite Hl', zlen_zset|]. intros core x Hx.
  destruct (decide (core = i)) as [->|Hne].
  - assert (x = c) as -> by congruence.
    destruct (Hs i c') as (x' & Hx' & Hsus' & Hsv'); [apply zget_zset_eq; lia|].
    rewrite bool_decide_eq_false_2 in Hsv' by lia. cbn in Hsv'. subst x'. exists c'.
    rewrite bool_decide_eq_true_2, Esel by lia. done.
  - destruct (Hs core x) as (x' & Hx' & Hsus' & Hsv'); [by rewrite zget_zset_ne|].
    exists x'. rewrite Hsel' in Hsv'. split_and!; [done|done|].
    assert (bool_decide (i <= core < i + Z.of_nat (S n))
      = bool_decide (i + 1 <= core < i + 1 + Z.of_nat n)) as -> by (apply bool_decide_ext; lia).
    done.
Qed.

Lemma restore_loop (s : gic_state D) (d0 : D) (n : nat) (i : Z) (d : D) :
  rdists_known s → 0 <= i → i + Z.of_nat n <= PLATFORM_CORE_COUNT p →
  (∀ core c, zget (pcpu_ctx (v3 s)) core = Some c → selected (pcpu_ctx (v3 s)) core = true →
     saved_ctx core (view d0) c) →
  ∃ d', each_suspended cpu (restore_rdist cpu) n i (set_dev s d) = Ok (tt, set_dev s d')
    ∧ restored (λ x, bool_decide (i <= x < i + Z.of_nat n) && selected (pcpu_ctx (v3 s)) x)
        (view d0) (view d) (view d').
Proof.
  intros Hk Hi Hn Hsv. pose proof Hk as (Hlen & _ & Hrd). revert i d Hi Hn.
  induction n as [|n IH]; intros i d Hi Hn.
  { exists d. split; [done|]. apply restored_refl. intros x _. by rewrite bool_decide_eq_false_2 by lia. }
  destruct (zget_is_Some (pcpu_ctx (v3 s)) i) as [c Hc]; [lia|].
  assert (core_ok p i) as Hok by (unfold core_ok; lia).
  rewrite (each_round _ n i (set_dev s d) c Hc). change (v3 (set_dev s d)) with (v3 s).
  assert (∀ x, x ≠ i → bool_decide (i <= x < i + Z.of_nat (S n))
    = bool_decide (i + 1 <= x < i + 1 + Z.of_nat n)) as Hx.
  { intros x Hne. apply bool_decide_ext. lia. }
  destruct (selected (pcpu_ctx (v3 s)) i) eqn:Esel.
  - destruct (Hrd i Hok Esel) as (Hr & Hr1 & Hr2).
    destruct (restore_rdist_run (set_dev s d) i c d0 Hok Hc Hr Hr1 Hr2 (Hsv i c Hc Esel))
      as (d1 & Hrun & Hres).
    rewrite (bind_Ok _ _ _ _ _ Hrun). change (set_dev (set_dev s d) d1) with (set_dev s d1).
    destruct (IH (i + 1) d1 ltac:(lia) ltac:(lia)) as (d' & Hrun' & Hres').
    exists d'. split; [exact Hrun'|]. eapply restored_trans; [exact Hres|exact Hres'|].
    intros x _. cbn beta. destruct (Z.eqb_spec x i) as [->|Hne]; [|by rewrite Hx].
    by rewrite bool_decide_eq_true_2, Esel by lia.
  - destruct (IH (i + 1) d ltac:(lia) ltac:(lia)) as (d' & Hrun' & Hres').
    exists d'. split; [exact Hrun'|].
    eapply (restored_trans (λ _, false)); [by apply restored_refl|exact Hres'|].
    intros x _. cbn [orb]. destruct (decide (x = i)) as [->|Hne]; [by rewrite Esel, !andb_false_r|].
    by rewrite Hx.
Qed.

End Ctx3.

(** C34: The context of the private interrupts survives a power down of the
    system.  [gicv3_save_sgi_ppi_context()] on a CPU and, later,
    [gicv3_restore_sgi_ppi_context()] on the same CPU both return, and whatever
    became of the device in between, for the calling core and for each core
    that is marked as suspended every private interrupt has its priority and
    configuration of before and is enabled if it was enabled before (or is
    already); nothing else changes. *)
Theorem gicv3_context_roundtrip {D : Type} `{!GicHw D} (p : gic_plat) (gicd : Z) (rdist : Z → Z)
    `{!GicOk D (core_ok p) (gicv3_map gicd rdist)} (s : gic_state D) (cpu : Z) :
  rdists_known p rdist cpu s →
  ∃ s1, gicv3_save_sgi_ppi_context p cpu s = Ok (tt, s1) ∧ dev s1 = dev s
    ∧ ∀ d2, ∃ d3, gicv3_restore_sgi_ppi_context p cpu (set_dev s1 d2) = Ok (tt, set_dev s1 d3)
        ∧ restored (λ x, bool_decide (core_ok p x) && selected cpu (pcpu_ctx (v3 s)) x)
            (view (dev s)) (view d2) (view d3).
Proof.
  intros Hk. pose proof Hk as (Hlen & Hc & Hrd). destruct Hc as [Hc0 Hc1].
  assert (s = with_ctx3 s (pcpu_ctx (v3 s))) as Es by (by destruct s as [? []]).
  destruct (save_loop p gicd rdist cpu s (Z.to_nat (PLATFORM_CORE_COUNT p)) 0 (pcpu_ctx (v3 s)))
    as (l' & Hrun & Hl' & Hs); [done|done|lia|lia|done|].
  rewrite <- Es in Hrun. exists (with_ctx3 s l'). split; [exact Hrun|]. split; [done|]. intros d2.
  assert (∀ core, selected cpu l' core = selected cpu (pcpu_ctx (v3 s)) core) as Hsel.
  { intros core. unfold selected. destruct (zget (pcpu_ctx (v3 s)) core) as [c|] eqn:E.
    - destruct (Hs core c E) as (c' & -> & -> & _). done.
    - assert (zget l' core = None) as ->; [|done]. apply zget_None. rewrite Hl'. by apply zget_None. }
  destruct (restore_loop p gicd rdist cpu (with_ctx3 s l') (dev s)
    (Z.to_nat (PLATFORM_CORE_COUNT p)) 0 d2) as (d3 & Hrun3 & Hres).
  - split_and!; [by rewrite <- Hlen|done|]. intros core Hok Hsl. apply Hrd; [done|].
    rewrite <- Hsel. exact Hsl.
  - lia.
  - lia.
  - intros core c' Hg Hsl. cbn in Hg, Hsl. rewrite Hsel in Hsl.
    destruct (zget_is_Some (pcpu_ctx (v3 s)) core) as [c E].
    { apply zget_Some_range in Hg. lia. }
    destruct (Hs core c E) as (c'' & Hg' & _ & Hsv). assert (c'' = c') as -> by congruence.
    rewrite Hsl, bool_decide_eq_true_2 in Hsv; [done|]. apply zget_Some_range in Hg. lia.
  - exists d3. split; [exact Hrun3|]. eapply restored_trans; [by apply (restored_refl (λ _, false))|exact Hres|].
    intros x Hx. cbn [orb]. cbn. rewrite Hsel. f_equal. apply bool_decide_ext. unfold core_ok. lia.
Qed.
