(* ===== verification/GicSgi.v ===== *)
(** * Which CPU: SGIs, redistributors, priorities

    The value that sends an SGI names exactly one core; a CPU finds its
    redistributor in the frames of the platform.  And where the drivers fall
    short: an SGI to a core that has not come up goes to another core, and
    GICv2 reads the priority of another interrupt. *)

From S2P Require Import Prelude Bits Gic GicV5 Irq GicSpec GicCtx.

Local Open Scope Z_scope.

(** ** SGIs on GICv3 *)

(** What the architecture reads from [ICC_SGI1R]: the interrupt, and whether
    the core with affinity [m] is a target *)
Definition sgi1r_intid (v : Z) : Z := (v / 2 ^ 24) mod 16.
Definition sgi1r_reaches (v m : Z) : Prop :=
  (v / 2 ^ 48) mod 256 = MPIDR_AFF_ID m 32 ∧ (v / 2 ^ 32) mod 256 = MPIDR_AFF_ID m 16
  ∧ (v / 2 ^ 16) mod 256 = MPIDR_AFF_ID m 8
  ∧ MPIDR_AFF_ID m 0 < 16 ∧ Z.testbit v (MPIDR_AFF_ID m 0) = true
  ∧ Z.testbit v 40 = false.

Lemma aff_range (m sh : Z) : 0 <= MPIDR_AFF_ID m sh < 256.
Proof.
  unfold MPIDR_AFF_ID, MPIDR_AFFLVL_MASK. change 0xff with (Z.ones 8).
  rewrite Z.land_ones by lia. apply Z.mod_pos_bound. lia.
Qed.

Lemma land_mask8 (x : Z) : 0 <= x < 256 → Z.land x 0xff = x.
Proof.
  intros Hx. change 0xff with (Z.ones 8). rewrite Z.land_ones by lia. by apply Z.mod_small.
Qed.

Lemma sgi1r_sum (sgi mpidr : Z) :
  0 <= sgi < 16 → MPIDR_AFF_ID mpidr 0 < 16 →
  sgi1r_value sgi mpidr
  = MPIDR_AFF_ID mpidr 32 * 2 ^ 48 + MPIDR_AFF_ID mpidr 16 * 2 ^ 32 + sgi * 2 ^ 24
    + MPIDR_AFF_ID mpidr 8 * 2 ^ 16 + 2 ^ MPIDR_AFF_ID mpidr 0.
Proof.
  intros Hs H0. unfold sgi1r_value, MPIDR_AFF3_SHIFT, SGI1R_AFF_MASK, SGI1R_TARGET_LIST_MASK,
    SGI1R_INTID_MASK, SGI1R_AFF3_SHIFT, SGI1R_AFF2_SHIFT, SGI1R_AFF1_SHIFT,
    SGI1R_TARGET_LIST_SHIFT, SGI1R_INTID_SHIFT.
  pose proof (aff_range mpidr 0). pose proof (aff_range mpidr 8) as H1.
  pose proof (aff_range mpidr 16) as H2. pose proof (aff_range mpidr 32) as H3.
  set (a0 := MPIDR_AFF_ID mpidr 0) in *. set (a1 := MPIDR_AFF_ID mpidr 8) in *.
  set (a2 := MPIDR_AFF_ID mpidr 16) in *. set (a3 := MPIDR_AFF_ID mpidr 32) in *.
  rewrite !land_mask8 by done.
  assert (0 < 2 ^ a0 <= 2 ^ 15) as Ht.
  { split; [apply Z.pow_pos_nonneg; lia|apply Z.pow_le_mono_r; lia]. }
  change 0xffff with (Z.ones 16). change 0xf with (Z.ones 4). rewrite !Z.land_ones by lia.
  rewrite Z.shiftl_1_l, Z.shiftl_0_r, !Z.mod_small by lia. rewrite !Z.shiftl_mul_pow2 by lia.
  rewrite <- (Z.lor_assoc _ (a1 * 2 ^ 16)), (lor_fields a1) by lia.
  rewrite <- Z.lor_assoc, (Z.lor_comm (a1 * 2 ^ 16 + _)), (lor_fields sgi) by lia.
  rewrite <- Z.lor_assoc, (lor_fields a2) by lia. rewrite (lor_fields a3) by lia. lia.
Qed.

(** Two MPIDRs with the same affinity fields *)
Definition same_affinity (m m' : Z) : Prop :=
  MPIDR_AFF_ID m 32 = MPIDR_AFF_ID m' 32 ∧ MPIDR_AFF_ID m 16 = MPIDR_AFF_ID m' 16
  ∧ MPIDR_AFF_ID m 8 = MPIDR_AFF_ID m' 8 ∧ MPIDR_AFF_ID m 0 = MPIDR_AFF_ID m' 0.

Lemma div_field (q r k : Z) : 0 <= k → 0 <= r < 2 ^ k → (q * 2 ^ k + r) / 2 ^ k = q.
Proof. intros Hk Hr. rewrite Z.add_comm, Z.div_add, Z.div_small by lia. lia. Qed.

Lemma mod_field (q r k : Z) : 0 <= k → 0 <= r < 2 ^ k → (q * 2 ^ k + r) mod 2 ^ k = r.
Proof. intros Hk Hr. rewrite Z.add_comm, Z.mod_add, Z.mod_small by lia. lia. Qed.

Lemma sgi1r_decode (sgi mpidr m : Z) :
  0 <= sgi < 16 → MPIDR_AFF_ID mpidr 0 < 16 →
  sgi1r_intid (sgi1r_value sgi mpidr) = sgi
  ∧ (sgi1r_reaches (sgi1r_value sgi mpidr) m ↔ same_affinity m mpidr).
Proof.
  intros Hs H0. rewrite sgi1r_sum by done.
  pose proof (aff_range mpidr 0) as Hr0. pose proof (aff_range mpidr 8) as H1.
  pose proof (aff_range mpidr 16) as H2. pose proof (aff_range mpidr 32) as H3.
  pose proof (aff_range m 0) as Hm0. unfold sgi1r_reaches, same_affinity, sgi1r_intid.
  set (a0 := MPIDR_AFF_ID mpidr 0) in *. set (a1 := MPIDR_AFF_ID mpidr 8) in *.
  set (a2 := MPIDR_AFF_ID mpidr 16) in *. set (a3 := MPIDR_AFF_ID mpidr 32) in *.
  assert (0 < 2 ^ a0 <= 2 ^ 15) as Ht.
  { split; [apply Z.pow_pos_nonneg; lia|apply Z.pow_le_mono_r; lia]. }
  set (v := a3 * 2 ^ 48 + _ + _ + _ + _).
  assert (v / 2 ^ 48 = a3) as E48.
  { replace v with (a3 * 2 ^ 48 + (a2 * 2 ^ 32 + sgi * 2 ^ 24 + a1 * 2 ^ 16 + 2 ^ a0)) by (unfold v; lia).
    apply div_field; lia. }
  assert (v / 2 ^ 32 = a3 * 2 ^ 16 + a2) as E32.
  { replace v with ((a3 * 2 ^ 16 + a2) * 2 ^ 32 + (sgi * 2 ^ 24 + a1 * 2 ^ 16 + 2 ^ a0)) by (unfold v; lia).
    apply div_field; lia. }
  assert (v / 2 ^ 24 = a3 * 2 ^ 24 + a2 * 2 ^ 8 + sgi) as E24.
  { replace v with ((a3 * 2 ^ 24 + a2 * 2 ^ 8 + sgi) * 2 ^ 24 + (a1 * 2 ^ 16 + 2 ^ a0)) by (unfold v; lia).
    apply div_field; lia. }
  assert (v / 2 ^ 16 = a3 * 2 ^ 32 + a2 * 2 ^ 16 + sgi * 2 ^ 8 + a1) as E16.
  { replace v with ((a3 * 2 ^ 32 + a2 * 2 ^ 16 + sgi * 2 ^ 8 + a1) * 2 ^ 16 + 2 ^ a0) by (unfold v; lia).
    apply div_field; lia. }
  assert (v mod 2 ^ 16 = 2 ^ a0) as E0.
  { replace v with ((a3 * 2 ^ 32 + a2 * 2 ^ 16 + sgi * 2 ^ 8 + a1) * 2 ^ 16 + 2 ^ a0) by (unfold v; lia).
    apply mod_field; lia. }
  assert (v / 2 ^ 16 mod 256 = a1) as F1.
  { rewrite E16.
    replace (a3 * 2 ^ 32 + _ + _ + a1) with ((a3 * 2 ^ 24 + a2 * 2 ^ 8 + sgi) * 2 ^ 8 + a1) by lia.
    apply (mod_field _ a1 8); lia. }
  assert (v / 2 ^ 32 mod 256 = a2) as F2.
  { rewrite E32. replace (a3 * 2 ^ 16 + a2) with (a3 * 2 ^ 8 * 2 ^ 8 + a2) by lia.
    apply (mod_field _ a2 8); lia. }
  assert (∀ b, 0 <= b < 16 → Z.testbit v b = (a0 =? b)) as Hbit.
  { intros b Hb. rewrite <- (Z.mod_pow2_bits_low v 16) by lia. rewrite E0. apply pow2_testbit. lia. }
  assert (Z.testbit v 40 = false) as H40.
  { change 40 with (8 + 32). rewrite <- Z.div_pow2_bits by lia. rewrite E32.
    rewrite <- (Z.mod_pow2_bits_low _ 16) by lia. rewrite mod_field by lia.
    rewrite <- (Z.mod_small a2 (2 ^ 8)) by lia. by rewrite Z.mod_pow2_bits_high by lia. }
  split.
  - rewrite E24.
    replace (a3 * 2 ^ 24 + _ + sgi) with ((a3 * 2 ^ 20 + a2 * 2 ^ 4) * 2 ^ 4 + sgi) by lia.
    apply (mod_field _ sgi 4); lia.
  - rewrite E48, F1, F2, H40. rewrite (Z.mod_small a3) by lia. split.
    + intros (? & ? & ? & ? & Hb & _). rewrite Hbit in Hb by lia. apply Z.eqb_eq in Hb.
      split_and!; lia.
    + intros (-> & -> & -> & ->). rewrite Hbit, Z.eqb_refl by lia. split_and!; done || lia.
Qed.

Lemma send_sgi3_run {D} `{!GicHw D} (p : gic_plat) (s : gic_state D) (cpu sgi core mpidr : Z)
    (online : Z → bool) :
  gicv3_detected s = true → online core = true → 0 <= sgi < 16 → core < PLATFORM_CORE_COUNT p →
  zget (mpidr_list (v3 s)) core = Some mpidr → 0 <= mpidr < UINT64_MAX →
  MPIDR_AFF_ID mpidr 0 < 16 →
  tftf_send_sgi p cpu online sgi core s
  = Ok (tt, set_dev s (hw_msr cpu ICC_SGI1R (sgi1r_value sgi mpidr) (dev s))).
Proof.
  intros Hd Hon Hs Hc Hm Hmr Ha. unfold tftf_send_sgi, arm_gic_send_sgi, by_version.
  rewrite Hon. erewrite bind_Ok by reflexivity. erewrite bind_Ok by reflexivity. rewrite Hd.
  unfold gicv3_send_sgi. rewrite (bind_Ok _ _ _ _ _ (assert_run (IS_SGI sgi) s
    ltac:(unfold IS_SGI, MIN_SGI_ID, MAX_SGI_ID; lia))).
  rewrite (bind_Ok _ _ _ _ _ (assert_run (core <? PLATFORM_CORE_COUNT p) s ltac:(lia))).
  erewrite bind_Ok by reflexivity. erewrite bind_Ok by (by apply aget_Ok).
  rewrite (bind_Ok _ _ _ _ _ (assert_run (negb (mpidr =? UINT64_MAX)) s ltac:(lia))).
  rewrite (bind_Ok _ _ _ _ _ (assert_run (MPIDR_AFF_ID mpidr 0 <? SGI_TARGET_MAX_AFF0) s
    ltac:(unfold SGI_TARGET_MAX_AFF0; lia))).
  unfold write_sysreg. do 4 f_equal. rewrite sgi1r_sum by done.
  pose proof (aff_range mpidr 0). pose proof (aff_range mpidr 8).
  pose proof (aff_range mpidr 16). pose proof (aff_range mpidr 32).
  assert (0 < 2 ^ MPIDR_AFF_ID mpidr 0 <= 2 ^ 15).
  { split; [apply Z.pow_pos_nonneg; lia|apply Z.pow_le_mono_r; lia]. }
  apply u64_small. unfold UINT64_MAX. lia.
Qed.

(** On GICv3, [tftf_send_sgi()] to a core that has found its redistributor
    raises exactly this SGI on exactly this core: the value written names the
    interrupt, and reaches the cores with the affinity recorded for the
    target and no others. *)
Theorem send_sgi_reaches {D} `{!GicHw D} (p : gic_plat) (s : gic_state D) (cpu sgi core mpidr : Z)
    (online : Z → bool) :
  gicv3_detected s = true → online core = true → 0 <= sgi < 16 → core < PLATFORM_CORE_COUNT p →
  zget (mpidr_list (v3 s)) core = Some mpidr → 0 <= mpidr < UINT64_MAX →
  MPIDR_AFF_ID mpidr 0 < 16 →
  ∃ v, tftf_send_sgi p cpu online sgi core s = Ok (tt, set_dev s (hw_msr cpu ICC_SGI1R v (dev s)))
    ∧ sgi1r_intid v = sgi ∧ ∀ m, sgi1r_reaches v m ↔ same_affinity m mpidr.
Proof.
  intros Hd Hon Hs Hc Hm Hmr Ha. exists (sgi1r_value sgi mpidr).
  split; [by apply send_sgi3_run|]. split; [by apply (sgi1r_decode sgi mpidr 0)|].
  intros m. by apply sgi1r_decode.
Qed.

(** The assertion of [gicv3_send_sgi()] that the target has come up does not
    hold what it says: only the first entry of the list of MPIDRs is
    initialised to the value it tests for.  An SGI to any other core that is
    marked online but has not found its redistributor passes, and goes to the
    core with affinity 0. *)
Theorem sgi_unprobed_core {D} `{!GicHw D} (p : gic_plat) (s : gic_state D) (cpu sgi core : Z)
    (online : Z → bool) :
  gicv3_detected s = true → online core = true → 0 <= sgi < 16 → 0 < core < PLATFORM_CORE_COUNT p →
  zget (mpidr_list (v3 s)) core = zget (mpidr_list (gicv3_static p)) core →
  ∃ v, tftf_send_sgi p cpu online sgi core s = Ok (tt, set_dev s (hw_msr cpu ICC_SGI1R v (dev s)))
    ∧ ∀ m, sgi1r_reaches v m ↔ same_affinity m 0.
Proof.
  intros Hd Hon Hs Hc Hm. exists (sgi1r_value sgi 0). split; [|intros m; by apply sgi1r_decode].
  apply send_sgi3_run; try done; [lia|]. rewrite Hm. cbn [mpidr_list gicv3_static].
  destruct (Z.to_nat (PLATFORM_CORE_COUNT p)) as [|n] eqn:En; [lia|]. cbn [first_only].
  rewrite zget_cons. destruct (Z.eqb_spec core 0); [lia|]. apply zget_replicate. lia.
Qed.

(** ** Priorities read back *)

Lemma land_low_byte (v : Z) : Z.land v GIC_PRI_MASK = byte_of v 0.
Proof.
  unfold GIC_PRI_MASK, byte_of. change 0xff with (Z.ones 8). rewrite Z.land_ones by lia.
  change (2 ^ (8 * 0)) with 1. by rewrite Z.div_1_r.
Qed.

(** [arm_gic_get_intr_priority()] on a set-up CPU reads the priority of the
    interrupt on GICv3.  On GICv2 it reads the register of four priorities
    and keeps its low byte: what it returns is the priority of the first
    interrupt of the group of four, whatever the interrupt asked for. *)
Theorem priority_readback {D} `{!GicHw D} (p : gic_plat) (rm : regmap)
    `{!GicOk D (core_ok p) rm} (s : gic_state D) (cpu tgt id : Z) :
  ready p s cpu rm tgt → 0 <= id <= MAX_SPI_ID →
  arm_gic_get_intr_priority cpu id s
  = Ok (g_prio (view (dev s)) (key cpu (if gicv3_detected s then id else id / 4 * 4)), s).
Proof.
  intros Hr Hid. destruct (ready_core p _ _ _ _ Hr) as [Hc Ha]. unfold arm_gic_get_intr_priority.
  pose proof (prio_range p rm (dev s)) as Hpr.
  destruct Hr as [gicd gid H|gicd rd m H].
  - pose proof (Z.div_mod id 4 ltac:(lia)). pose proof (Z.mod_pos_bound id 4 ltac:(lia)).
    assert (id / 4 * 4 mod 4 = 0) as Hm by (by apply Z.mod_mul).
    assert (0 <= id / 4 * 4 <= MAX_SPI_ID) as Hid' by lia.
    rewrite (by_version_run2 _ _ _ _ _ _ _ _ H), (r2_det3 _ _ _ _ _ H).
    unfold gicv2_gicd_get_ipriorityr. rewrite (bind_Ok _ _ _ _ _ (need_gicd2_run _ _ _ _ _ H)).
    rewrite (bind_Ok _ _ _ _ _ (assert_run _ _ (valid_id _ Hid))). unfold gicd_get_ipriorityr.
    destruct H. assert (gicd_read_ipriorityr cpu gicd id
      = mmio_read_32 cpu (rm_prio (gicv2_map gicd) cpu (id / 4 * 4))) as ->.
    { unfold gicd_read_ipriorityr. f_equal. unfold GICD_IPRIORITYR, IPRIORITYR_SHIFT, MAX_SPI_ID in *.
      rewrite reg_n_val by (unfold MAX_SPI_ID; lia). cbn [rm_prio gicv2_map]. unfold GICD_IPRIORITYR.
      change (2 ^ 2) with 4. lia. }
    rewrite (bind_Ok _ _ _ _ _ (prio_word_run p _ s cpu cpu _ Hc Ha Hid' Hm)).
    rewrite land_low_byte, byte_of_word4 by (intros; done || lia). by rewrite Z.add_0_r.
  - rewrite (by_version_run3 _ _ _ _ _ _ _ _ _ H), (r3_det _ _ _ _ _ _ H).
    unfold gicv3_get_ipriorityr. rewrite (bind_Ok _ _ _ _ _ (need_gicd3_run _ _ _ _ _ _ H)).
    rewrite (bind_Ok _ _ _ _ _ (assert_run _ _ (valid_id _ Hid))).
    pose proof (prio_read cpu cpu id (dev s) Hc Hid Ha) as Hrd. cbn [rm_prio gicv3_map] in Hrd.
    assert (wrap (8 * 1) (g_prio (view (dev s)) (key cpu id)) = g_prio (view (dev s)) (key cpu id)) as Hw.
    { apply (wrap_small 8). specialize (Hpr (key cpu id)). unfold in_width. lia. }
    unfold GICR_IPRIORITYR, GICR_SGIBASE_OFFSET, GICD_IPRIORITYR, MAX_SPI_ID in *.
    change (Z.shiftl 1 16) with 65536 in *.
    destruct (Z.ltb_spec id MIN_SPI_ID) as [Hlt|Hge].
    + rewrite (bind_Ok _ _ _ _ _ (need_rdist_run _ _ _ _ _ _ H)). destruct H.
      rewrite u64_small by (unfold UINT64_MAX, MIN_SPI_ID in *; lia). by apply read_run.
    + destruct H. rewrite u64_small by (unfold UINT64_MAX; lia). by apply read_run.
Qed.

(** ** Finding the redistributor of a CPU *)

(** The affinity fields of an MPIDR, in 32 bits *)
Definition packed_affinity (m : Z) : Z :=
  MPIDR_AFF_ID m 32 * 2 ^ 24 + (MPIDR_AFF_ID m 16 * 2 ^ 16 + (MPIDR_AFF_ID m 8 * 2 ^ 8 + MPIDR_AFF_ID m 0)).

Lemma aff_bit (m sh n : Z) : 0 <= sh → 0 <= n →
  Z.testbit (MPIDR_AFF_ID m sh) n = (n <? 8) && Z.testbit m (n + sh).
Proof.
  intros Hs Hn. unfold MPIDR_AFF_ID, MPIDR_AFFLVL_MASK. change 0xff with (Z.ones 8).
  rewrite Z.land_spec, Z.shiftr_spec by done. rewrite andb_comm. f_equal.
  destruct (Z.ltb_spec n 8); [by apply Z.ones_spec_low|apply Z.ones_spec_high; lia].
Qed.

Lemma packed_bit (m n : Z) : 0 <= n →
  Z.testbit (packed_affinity m) n
  = (n <? 32) && Z.testbit m (if n <? 24 then n else n + 8).
Proof.
  intros Hn. unfold packed_affinity. pose proof (aff_range m 0). pose proof (aff_range m 8).
  pose proof (aff_range m 16). pose proof (aff_range m 32).
  rewrite <- (lor_fields _ _ 24), <- (lor_fields _ _ 16), <- (lor_fields _ _ 8) by lia.
  assert (∀ x k, 0 <= k → Z.testbit (x * 2 ^ k) n = (k <=? n) && Z.testbit x (n - k)) as Hsh.
  { intros x k Hk. destruct (Z.leb_spec k n); cbn.
    - by apply Z.mul_pow2_bits.
    - by apply Z.mul_pow2_bits_low. }
  rewrite !Z.lor_spec, !Hsh by lia.
  assert (∀ k, 0 <= k → (k <=? n) && Z.testbit (MPIDR_AFF_ID m (if k =? 24 then 32 else k)) (n - k)
    = ((k <=? n) && (n <? k + 8)) && Z.testbit m (if k =? 24 then n + 8 else n)) as Hf.
  { intros k Hk. destruct (Z.leb_spec k n); cbn; [|done].
    rewrite aff_bit by (try destruct (k =? 24); lia).
    replace (n - k <? 8) with (n <? k + 8) by lia. f_equal. f_equal.
    destruct (Z.eqb_spec k 24); lia. }
  pose proof (Hf 24 ltac:(lia)) as H24. pose proof (Hf 16 ltac:(lia)) as H16.
  pose proof (Hf 8 ltac:(lia)) as H8. cbn [Z.eqb Pos.eqb] in H24, H16, H8.
  rewrite H24, H16, H8, (aff_bit m 0), Z.add_0_r by lia.
  destruct (Z.ltb_spec n 8), (Z.ltb_spec n 16), (Z.ltb_spec n 24), (Z.ltb_spec n 32),
    (Z.leb_spec 8 n), (Z.leb_spec 16 n), (Z.leb_spec 24 n); try lia;
  repeat match goal with |- context [?a <? ?b] => destruct (Z.ltb_spec a b); try lia end;
  cbn [andb orb]; by rewrite ?orb_false_r.
Qed.

Lemma typer_affinity (m : Z) :
  gic_typer_affinity_from_mpidr (Z.land m MPIDR_AFFINITY_MASK) = packed_affinity m.
Proof.
  apply Z.bits_inj'. intros n Hn. rewrite packed_bit by done.
  unfold gic_typer_affinity_from_mpidr.
  assert (∀ i, 0 <= i → Z.testbit (Z.shiftl MPIDR_AFFLVL_MASK MPIDR_AFF3_SHIFT) i
    = (32 <=? i) && (i <? 40)) as Ha.
  { intros i Hi. unfold MPIDR_AFFLVL_MASK, MPIDR_AFF3_SHIFT. change 0xff with (Z.ones 8).
    rewrite Z.shiftl_spec by done. destruct (Z.leb_spec 32 i); cbn.
    - destruct (Z.ltb_spec i 40); [apply Z.ones_spec_low|apply Z.ones_spec_high]; lia.
    - apply Z.testbit_neg_r. lia. }
  assert (∀ i, 0 <= i → Z.testbit MPIDR_AFFINITY_MASK i = (i <? 24) || (32 <=? i) && (i <? 40)) as Hm.
  { intros i Hi. change MPIDR_AFFINITY_MASK
      with (Z.lor (Z.ones 24) (Z.shiftl MPIDR_AFFLVL_MASK MPIDR_AFF3_SHIFT)).
    rewrite Z.lor_spec, Ha by done. f_equal.
    destruct (Z.ltb_spec i 24); [apply Z.ones_spec_low|apply Z.ones_spec_high]; lia. }
  rewrite Z.lor_spec, Z.shiftr_spec, !Z.land_spec, !Ha, !Hm by lia. unfold u64, wrap.
  assert (Z.testbit (Z.lnot (Z.shiftl MPIDR_AFFLVL_MASK MPIDR_AFF3_SHIFT) mod 2 ^ 64) n
    = (n <? 64) && negb ((32 <=? n) && (n <? 40))) as ->.
  { destruct (Z.ltb_spec n 64); cbn [andb].
    - rewrite Z.mod_pow2_bits_low, Z.lnot_spec, Ha by lia. done.
    - by apply Z.mod_pow2_bits_high. }
  destruct (Z.ltb_spec n 24), (Z.ltb_spec n 32), (Z.leb_spec 32 n), (Z.ltb_spec n 40),
    (Z.ltb_spec n 64); try lia;
  repeat match goal with |- context [?a <? ?b] => destruct (Z.ltb_spec a b); try lia end;
  repeat match goal with |- context [?a <=? ?b] => destruct (Z.leb_spec a b); try lia end;
  cbn [andb orb negb]; by rewrite ?andb_true_r, ?andb_false_r, ?orb_false_r.
Qed.

Section Probe.

Context {D : Type} `{!GicHw D} (p : gic_plat) (cpu : Z).

(** The redistributors of a frame: from address [b] on, one every 128 KB, with
    the affinities [l]; the last one is marked. *)
Inductive rdists (d : D) : Z → list Z → Prop :=
| rdists_last (b v : Z) :
    0 < b → b + 0x20000 <= 2 ^ 64 → hw_read cpu 8 (b + GICR_TYPER) d = (v, d) →
    0 <= v < 2 ^ 64 → Z.testbit v 4 = true → rdists d b [v / 2 ^ 32]
| rdists_more (b v : Z) (l : list Z) :
    0 < b → b + 0x20000 <= 2 ^ 64 → hw_read cpu 8 (b + GICR_TYPER) d = (v, d) →
    0 <= v < 2 ^ 64 → Z.testbit v 4 = false → rdists d (b + 0x20000) l →
    rdists d b (v / 2 ^ 32 :: l).

(** The redistributors of a list of frames, with their addresses *)
Fixpoint frame_rdists (b : Z) (l : list Z) : list (Z * Z) :=
  match l with [] => [] | a :: l' => (b, a) :: frame_rdists (b + 0x20000) l' end.
Definition all_rdists (fs : list (Z * list Z)) : list (Z * Z) :=
  fs ≫= λ f, frame_rdists f.1 f.2.
Definition rdist_of (aff : Z) (l : list (Z * Z)) : option Z :=
  fst <$> List.find (λ r, r.2 =? aff) l.

Lemma rdist_of_app (aff : Z) (l k : list (Z * Z)) :
  rdist_of aff (l ++ k) = match rdist_of aff l with Some b => Some b | None => rdist_of aff k end.
Proof.
  unfold rdist_of. induction l as [|[b a] l IH]; [done|]. cbn. by destruct (a =? aff).
Qed.

Lemma probe_frame_run (s : gic_state D) (n : nat) (aff b : Z) (l : list Z) :
  rdists (dev s) b l → (length l <= n)%nat →
  probe_frame cpu n aff b s = Ok (rdist_of aff (frame_rdists b l), s).
Proof.
  intros Hl. revert n. induction Hl as [b v Hb Hb' Hrd Hv Hlast|b v l Hb Hb' Hrd Hv Hlast Hl IH];
    intros [|n] Hn; cbn [length] in Hn; try lia; cbn [probe_frame].
  all: assert (gicr_read_typer cpu b s = Ok (v, s)) as Hrun by
    (unfold gicr_read_typer, GICR_TYPER in *; rewrite u64_small by (unfold UINT64_MAX; lia);
     by apply read_run; [|apply (wrap_small 64)]).
  all: rewrite (bind_Ok _ _ _ _ _ Hrun); unfold TYPER_AFF_VAL_SHIFT, TYPER_AFF_VAL_MASK, TYPER_LAST_BIT.
  all: change 0xffffffff with (Z.ones 32); rewrite Z.land_ones, Z.shiftr_div_pow2 by lia.
  all: rewrite (Z.mod_small (v / 2 ^ 32)) by
    (split; [apply Z.div_pos; lia|apply Z.div_lt_upper_bound; lia]).
  all: rewrite Z.shiftl_1_l, land_bit_nz, Hlast by lia; unfold rdist_of; cbn [negb frame_rdists List.find snd].
  all: rewrite (Z.eqb_sym aff); destruct (v / 2 ^ 32 =? aff); [done|].
  - done.
  - change (Z.shiftl 1 GICR_PCPUBASE_SHIFT) with 0x20000.
    assert (b + 0x20000 + 0x20000 <= 2 ^ 64) by (inversion Hl; lia).
    rewrite u64_small by (unfold UINT64_MAX; lia). apply IH. lia.
Qed.

Lemma probe_frames_run (s : gic_state D) (n : nat) (aff : Z) (fs : list (Z * list Z)) (rest : list Z) :
  (∀ f, f ∈ fs → rdists (dev s) f.1 f.2 ∧ (length f.2 <= n)%nat) →
  probe_frames cpu n aff ((fst <$> fs) ++ 0 :: rest) s = Ok (rdist_of aff (all_rdists fs), s).
Proof.
  induction fs as [|[b l] fs IH]; intros Hf; [done|]. cbn [fmap list_fmap app probe_frames fst].
  destruct (Hf (b, l)) as [Hl Hn]; [left|]. cbn [fst snd] in *.
  assert (0 < b) as Hb by (by inversion Hl). rewrite (proj2 (Z.eqb_neq b 0)) by lia.
  rewrite (bind_Ok _ _ _ _ _ (probe_frame_run s n aff b l Hl Hn)).
  unfold all_rdists. cbn [mbind list_bind fst snd]. rewrite rdist_of_app.
  destruct (rdist_of aff (frame_rdists b l)); [done|]. apply IH. intros f Hin. apply Hf. by right.
Qed.

(** The variables with the redistributor and the MPIDR of the CPU recorded *)
Definition rdist_found (x : gicv3_vars) (b m : Z) : gicv3_vars :=
  {| gicr_frames := gicr_frames x; gicv3_gicd_base_addr := gicv3_gicd_base_addr x;
     pcpu_ctx := pcpu_ctx x; rdist_pcpu_base := zset (rdist_pcpu_base x) cpu b;
     mpidr_list := zset (mpidr_list x) cpu m |}.

(** The search for the redistributor of a CPU terminates.  On a CPU that
    has not been through it, with the list of frames ended by 0 and as many
    rounds as a frame has redistributors, [gicv3_probe_redistif_addr()]
    records the address of the first redistributor whose affinity is the one
    of the CPU (all four fields of its MPIDR), together with the MPIDR, and
    panics if there is none. *)
Theorem probe_redistributor (s : gic_state D) (n : nat) (fs : list (Z * list Z)) (rest : list Z) (m0 : Z) :
  gicr_frames (v3 s) = Some ((fst <$> fs) ++ 0 :: rest) →
  (∀ f, f ∈ fs → rdists (dev s) f.1 f.2 ∧ (length f.2 <= n)%nat) →
  zget (rdist_pcpu_base (v3 s)) cpu = Some 0 → zget (mpidr_list (v3 s)) cpu = Some m0 →
  gicv3_probe_redistif_addr p cpu n s
  = match rdist_of (packed_affinity (mpidr_el1 p cpu)) (all_rdists fs) with
    | Some b => Ok (tt, set_v3 s (rdist_found (v3 s) b (Z.land (mpidr_el1 p cpu) MPIDR_AFFINITY_MASK)))
    | None => Stop PanicCall
    end.
Proof.
  intros Hfr Hf Hb Hm. unfold gicv3_probe_redistif_addr. erewrite bind_Ok by reflexivity.
  rewrite Hfr. erewrite bind_Ok by reflexivity. erewrite bind_Ok by (by apply aget_Ok).
  cbn [Z.eqb negb]. rewrite typer_affinity.
  rewrite (bind_Ok _ _ _ _ _ (probe_frames_run s n _ fs rest Hf)).
  destruct (rdist_of _ _) as [b|]; [|done]. erewrite bind_Ok by reflexivity.
  erewrite bind_Ok by (apply aset_Ok; eapply zget_Some_range; exact Hb).
  erewrite bind_Ok by (apply aset_Ok; eapply zget_Some_range; exact Hm). done.
Qed.

End Probe.
