(* ===== verification/IrqHandlers.v ===== *)
(** * The handlers of interrupts (lib/exceptions/irq.c)

    The tables of handlers of the GICv2 and GICv3 drivers implement a finite
    map from interrupts to handlers: registering, unregistering, and what the
    dispatcher runs. *)

From stdpp Require Import gmap.
From S2P Require Import Prelude Bits Gic GicV5 Irq GicSpec.

Local Open Scope Z_scope.

#[export] Instance slot_eq_dec : EqDecision slot.
Proof. solve_decision. Defined.

(** ** What a pointer to a handler points to *)

Definition get2 {A} (t : list (list A)) (i j : Z) : option A := row ← zget t i; zget row j.

Definition slot_val {D} (s : gic_state D) (x : slot) : option irq_handler_t :=
  match x with
  | SpiSlot i => zget (spi_desc_table (descs s)) i
  | PpiSlot c i => get2 (ppi_desc_table (descs s)) c i
  | SgiSlot c i => get2 (sgi_desc_table (descs s)) c i
  | SpuriousSlot => Some (spurious_desc_handler (descs s))
  | V5PpiSlot c i => get2 (v5_ppi_desc_table (v5 s)) c i
  | V5LpiSlot i => zget (v5_lpi_desc_table (v5 s)) i
  | V5SpiSlot i => zget (v5_spi_desc_table (v5 s)) i
  end.

(** Two states that differ in the tables of handlers only *)
Definition same_but_handlers {D} (s s' : gic_state D) : Prop :=
  v2 s' = v2 s ∧ v3 s' = v3 s ∧ gicv3_detected s' = gicv3_detected s
  ∧ gicv5_detected s' = gicv5_detected s ∧ gic_done_init s' = gic_done_init s
  ∧ shared_irq_lock s' = shared_irq_lock s ∧ dev s' = dev s
  ∧ irs_base (v5 s') = irs_base (v5 s) ∧ cpu_ctx (v5 s') = cpu_ctx (v5 s)
  ∧ iaffids (v5 s') = iaffids (v5 s).

#[export] Instance same_but_handlers_pre {D} : PreOrder (@same_but_handlers D).
Proof.
  split.
  - intros s. by split_and!.
  - intros s1 s2 s3 H H'. unfold same_but_handlers in *. destruct_and!. split_and!; congruence.
Qed.

Lemma get2_set (t : list (list irq_handler_t)) (i j : Z) (h h0 : irq_handler_t) :
  get2 t i j = Some h0 →
  ∃ row, zget t i = Some row ∧ 0 <= j < zlen row ∧ 0 <= i < zlen t
    ∧ ∀ i' j', get2 (zset t i (zset row j h)) i' j'
        = if bool_decide (i' = i ∧ j' = j) then Some h else get2 t i' j'.
Proof.
  unfold get2. intros H. destruct (zget t i) as [row|] eqn:Hrow; [|done]. cbn in H.
  pose proof (zget_Some_range _ _ _ Hrow). pose proof (zget_Some_range _ _ _ H).
  exists row. split_and!; try done; try lia. intros i' j'.
  destruct (decide (i' = i)) as [->|Hi].
  - rewrite zget_zset_eq, Hrow by lia. cbn. destruct (decide (j' = j)) as [->|Hj].
    + by rewrite zget_zset_eq, bool_decide_eq_true_2 by (done || lia).
    + by rewrite zget_zset_ne, bool_decide_eq_false_2 by naive_solver.
  - by rewrite zget_zset_ne, bool_decide_eq_false_2 by naive_solver.
Qed.

Lemma aset2_run {S} (t : list (list irq_handler_t)) (i j : Z) (h : irq_handler_t)
    (row : list irq_handler_t) (s : S) :
  zget t i = Some row → 0 <= j < zlen row → 0 <= i < zlen t →
  (row ← aget t i; row ← aset row j h; aset t i row) s = Ok (zset t i (zset row j h), s).
Proof.
  intros Hr Hj Hi. rewrite (bind_Ok _ _ _ _ _ (aget_Ok _ _ _ s Hr)).
  rewrite (bind_Ok _ _ _ _ _ (aset_Ok _ _ h s Hj)). by apply aset_Ok.
Qed.

Lemma read_slot_run {D} (s : gic_state D) (x : slot) (h : irq_handler_t) :
  slot_val s x = Some h → read_slot x s = Ok (h, s).
Proof.
  destruct x; cbn; intros H; unfold read_slot; (erewrite bind_Ok by reflexivity); cbv beta iota;
    try (by apply aget_Ok); try (by injection H as <-).
  all: unfold get2, aget2 in *; destruct (zget _ _) as [row|] eqn:E; [|done];
    rewrite (bind_Ok _ _ _ _ _ (aget_Ok _ _ _ s E)); by apply aget_Ok.
Qed.

Lemma write_slot_run {D} (s : gic_state D) (x : slot) (h h0 : irq_handler_t) :
  slot_val s x = Some h0 →
  ∃ s', write_slot x h s = Ok (tt, s') ∧ same_but_handlers s s'
    ∧ ∀ y, slot_val s' y = if bool_decide (y = x) then Some h else slot_val s y.
Proof.
  destruct x as [i|c i|c i| |c i|i|i]; cbn [slot_val]; intros H;
    unfold write_slot; (erewrite bind_Ok by reflexivity); cbv beta iota.
  all: try (pose proof (zget_Some_range _ _ _ H) as Hr;
            rewrite (bind_Ok _ _ _ _ _ (aset_Ok _ _ h s Hr))).
  all: try (destruct (get2_set _ _ _ h _ H) as (row & Hrow & Hj & Hi & Hset);
            rewrite (bind_Ok _ _ _ _ _ (aset2_run _ _ _ h _ s Hrow Hj Hi))).
  all: eexists; (split; [reflexivity|]); (split; [by split_and!|]).
  all: intros [i'|c' i'|c' i'| |c' i'|i'|i'];
    first [ rewrite bool_decide_eq_false_2 by done; reflexivity
          | rewrite bool_decide_eq_true_2 by done; reflexivity
          | cbn [slot_val descs v5 set_descs set_v5 spi_desc_table ppi_desc_table sgi_desc_table
              v5_ppi_desc_table v5_lpi_desc_table v5_spi_desc_table] ].
  all: try (rewrite Hset; case_bool_decide; case_bool_decide; naive_solver).
  all: case_bool_decide as He;
    [injection He as ->; by apply zget_zset_eq|apply zget_zset_ne; congruence].
Qed.

(** ** The interrupts of a GICv2 or GICv3 *)

Section Handlers.

Context {D : Type} `{!GicHw D} (p : gic_plat).

Abbreviation G := (M (gic_state D)).

(** The interrupts that have a place in the tables; 1023 is the spurious one. *)
Definition managed (id : Z) : Prop :=
  0 <= id < MIN_SPI_ID ∨ IS_PLAT_SPI p id = true ∨ id = GIC_SPURIOUS_INTERRUPT.

Definition irq_slot (core id : Z) : slot :=
  if IS_PLAT_SPI p id then SpiSlot (id - MIN_SPI_ID)
  else if IS_PPI id then PpiSlot core (id - MIN_PPI_ID)
  else if IS_SGI id then SgiSlot core (id - MIN_SGI_ID)
  else SpuriousSlot.

Lemma irq_slot_run (s : gic_state D) (cpu id : Z) :
  gicv5_detected s = false → managed id →
  arm_gic_get_irq_handler p cpu id s = Ok (irq_slot cpu id, s).
Proof.
  intros H5 Hid. unfold arm_gic_get_irq_handler. erewrite bind_Ok by reflexivity. rewrite H5.
  unfold gicv2v3_get_irq_handler, irq_slot.
  destruct (IS_PLAT_SPI p id) eqn:E1; [done|]. destruct (IS_PPI id) eqn:E2; [done|].
  destruct (IS_SGI id) eqn:E3; [done|].
  assert (id = GIC_SPURIOUS_INTERRUPT) as ->; [|done].
  unfold managed, IS_PPI, IS_SGI, MIN_SPI_ID, MIN_PPI_ID, MAX_PPI_ID, MIN_SGI_ID, MAX_SGI_ID in *.
  destruct Hid as [?|[?|?]]; [lia|congruence|done].
Qed.

(** Two interrupts share a place only if they are the same interrupt. *)
Lemma irq_slot_inj (core core' id id' : Z) :
  managed id → managed id' → irq_slot core id = irq_slot core' id' → key core id = key core' id'.
Proof.
  unfold managed, irq_slot, key, IS_PLAT_SPI, IS_PPI, IS_SGI, MIN_SPI_ID, MIN_PPI_ID, MAX_PPI_ID,
    MIN_SGI_ID, MAX_SGI_ID, GIC_SPURIOUS_INTERRUPT. intros H H' He.
  repeat match type of He with
  | context [if ?b then _ else _] => let E := fresh "E" in destruct b eqn:E
  end; simplify_eq; repeat case_match; f_equal; lia.
Qed.

Lemma irq_slot_key (core core' id id' : Z) :
  key core id = key core' id' → irq_slot core id = irq_slot core' id'.
Proof.
  unfold irq_slot, key. intros He. assert (id = id') as -> by congruence.
  unfold IS_PLAT_SPI, IS_PPI, IS_SGI in *. unfold MIN_SPI_ID, MIN_PPI_ID, MAX_PPI_ID, MIN_SGI_ID,
    MAX_SGI_ID in *. destruct (Z.ltb_spec id' 32); [by injection He as ->|].
  repeat case_match; done || lia.
Qed.

(** ** The abstract specification

    A finite map from interrupts to their handlers.  Registering needs that the
    interrupt has no handler, unregistering that it has one. *)
Inductive irq_op : Set :=
| Register (cpu id h : Z)
| Unregister (cpu id : Z).

Definition spec_op (o : irq_op) (m : gmap (Z * Z) Z) : option (gmap (Z * Z) Z) :=
  match o with
  | Register cpu id h =>
      match m !! key cpu id with Some _ => None | None => Some (<[key cpu id := h]> m) end
  | Unregister cpu id =>
      match m !! key cpu id with Some _ => Some (delete (key cpu id) m) | None => None end
  end.

Definition run_op (o : irq_op) : G Z :=
  match o with
  | Register cpu id h => tftf_irq_register_handler p cpu id (Some h)
  | Unregister cpu id => tftf_irq_unregister_handler p cpu id
  end.

Definition op_ok (o : irq_op) : Prop :=
  match o with Register cpu id _ | Unregister cpu id => core_ok p cpu ∧ managed id end.

(** The tables hold the map, and the lock is free. *)
Definition holds (s : gic_state D) (m : gmap (Z * Z) Z) : Prop :=
  gicv5_detected s = false ∧ shared_irq_lock s = false
  ∧ ∀ core id, core_ok p core → managed id → slot_val s (irq_slot core id) = Some (m !! key core id).

(** Only the device or the CPU interface changed *)
Lemma holds_dev (s : gic_state D) (m : gmap (Z * Z) Z) (d : D) : holds s m → holds (set_dev s d) m.
Proof. intros (H5 & Hl & H). split_and!; [done|done|]. intros core id Hc Hid. by rewrite <- H. Qed.

Lemma shared_run (s : gic_state D) (id : Z) : gicv5_detected s = false →
  arm_gic_is_irq_shared p id s = Ok (IS_PLAT_SPI p id, s).
Proof. intros H5. unfold arm_gic_is_irq_shared. erewrite bind_Ok by reflexivity. by rewrite H5. Qed.

Lemma lock_run (s : gic_state D) (b : bool) : shared_irq_lock s = false →
  ∃ s1, (if b then spin_lock_irq else mret tt) s = Ok (tt, s1) ∧ s1 = set_lock s b.
Proof.
  intros Hl. destruct b; eexists; (split; [|reflexivity]).
  - unfold spin_lock_irq. erewrite bind_Ok by reflexivity. by rewrite Hl.
  - destruct s. cbn in *. by subst.
Qed.

Lemma unlock_run (s : gic_state D) (b : bool) : shared_irq_lock s = b →
  (if b then spin_unlock_irq else mret tt) s = Ok (tt, set_lock s false).
Proof. intros Hl. destruct b; [done|]. destruct s. cbn in *. by subst. Qed.

Lemma slot_val_lock (s : gic_state D) (b : bool) (x : slot) :
  slot_val (set_lock s b) x = slot_val s x.
Proof. by destruct x. Qed.

(** Updating a handler, on every branch *)
Lemma update_handler_run (s : gic_state D) (cpu id : Z) (h h0 : irq_handler_t) (expect : bool) :
  gicv5_detected s = false → shared_irq_lock s = false → managed id →
  slot_val s (irq_slot cpu id) = Some h0 →
  if HANDLER_VALID h0 expect
  then ∃ s', tftf_irq_update_handler p cpu id h expect s = Ok (0, s') ∧ same_but_handlers s s'
       ∧ ∀ y, slot_val s' y = if bool_decide (y = irq_slot cpu id) then Some h else slot_val s y
  else tftf_irq_update_handler p cpu id h expect s = Stop AssertFail.
Proof.
  intros H5 Hl Hid Hv. unfold tftf_irq_update_handler.
  rewrite (bind_Ok _ _ _ _ _ (irq_slot_run s cpu id H5 Hid)).
  rewrite (bind_Ok _ _ _ _ _ (shared_run s id H5)).
  destruct (lock_run s (IS_PLAT_SPI p id) Hl) as (s1 & Hrun & ->).
  rewrite (bind_Ok _ _ _ _ _ Hrun). set (s1 := set_lock s (IS_PLAT_SPI p id)).
  assert (slot_val s1 (irq_slot cpu id) = Some h0) as Hv1 by (unfold s1; by rewrite slot_val_lock).
  rewrite (bind_Ok _ _ _ _ _ (read_slot_run s1 _ _ Hv1)).
  destruct (HANDLER_VALID h0 expect); [|done]. erewrite bind_Ok by reflexivity.
  destruct (write_slot_run s1 _ h _ Hv1) as (s2 & Hw & Hsame & Hs2).
  erewrite bind_Ok by (by rewrite (bind_Ok _ _ _ _ _ Hw)).
  unfold same_but_handlers in Hsame. destruct_and! Hsame. cbn in *.
  rewrite (bind_Ok _ _ _ _ _ (shared_run s2 id ltac:(congruence))).
  rewrite (bind_Ok _ _ _ _ _ (unlock_run s2 (IS_PLAT_SPI p id) ltac:(done))).
  exists (set_lock s2 false). split; [done|]. split.
  - split_and!; cbn; done || congruence.
  - intros y. rewrite slot_val_lock, Hs2. unfold s1. by rewrite slot_val_lock.
Qed.

Lemma op_refines (o : irq_op) (s : gic_state D) (m : gmap (Z * Z) Z) :
  holds s m → op_ok o →
  match spec_op o m with
  | Some m' => ∃ s', run_op o s = Ok (0, s') ∧ holds s' m' ∧ same_but_handlers s s'
  | None => run_op o s = Stop AssertFail
  end.
Proof.
  intros (H5 & Hl & H) Hok.
  assert (∀ cpu id h s' (m' : gmap (Z * Z) Z), core_ok p cpu → managed id → same_but_handlers s s' →
    (∀ y, slot_val s' y = if bool_decide (y = irq_slot cpu id) then Some h else slot_val s y) →
    (∀ k, m' !! k = if bool_decide (k = key cpu id) then h else m !! k) → holds s' m') as Hnew.
  { intros cpu id h s' m' Hc Hid Hsame Hs' Hm'. unfold same_but_handlers in Hsame.
    destruct_and! Hsame. split_and!; [congruence|congruence|]. intros core id' Hc' Hid'.
    rewrite Hs', Hm'. destruct (decide (key core id' = key cpu id)) as [E|E].
    - rewrite !bool_decide_eq_true_2 by (done || by apply irq_slot_key). done.
    - rewrite !bool_decide_eq_false_2; [by apply H|done|].
      intros Heq. apply E. by apply irq_slot_inj. }
  destruct o as [cpu id h|cpu id]; destruct Hok as [Hc Hid]; cbn [spec_op run_op].
  - pose proof (update_handler_run s cpu id (Some h) _ false H5 Hl Hid (H cpu id Hc Hid)) as Hu.
    destruct (m !! key cpu id); cbn in Hu; [done|]. destruct Hu as (s' & Hrun & Hsame & Hs').
    exists s'. split_and!; [done| |done]. eapply Hnew; [done|done|done|exact Hs'|].
    intros k. case_bool_decide as E; [subst; apply lookup_insert_eq|apply lookup_insert_ne; congruence].
  - pose proof (update_handler_run s cpu id None _ true H5 Hl Hid (H cpu id Hc Hid)) as Hu.
    destruct (m !! key cpu id); cbn in Hu; [|done]. destruct Hu as (s' & Hrun & Hsame & Hs').
    exists s'. split_and!; [done| |done]. eapply Hnew; [done|done|done|exact Hs'|].
    intros k. case_bool_decide as E; [subst; apply lookup_delete_eq|apply lookup_delete_ne; congruence].
Qed.

(** A sequence of operations, on the tables and on the map *)
Fixpoint run_ops (l : list irq_op) : G unit :=
  match l with [] => mret tt | o :: l' => run_op o;; run_ops l' end.
Fixpoint spec_ops (l : list irq_op) (m : gmap (Z * Z) Z) : option (gmap (Z * Z) Z) :=
  match l with [] => Some m | o :: l' => m' ← spec_op o m; spec_ops l' m' end.

Lemma ops_refine (l : list irq_op) (s : gic_state D) (m : gmap (Z * Z) Z) :
  holds s m → Forall op_ok l →
  match spec_ops l m with
  | Some m' => ∃ s', run_ops l s = Ok (tt, s') ∧ holds s' m' ∧ same_but_handlers s s'
  | None => run_ops l s = Stop AssertFail
  end.
Proof.
  revert s m. induction l as [|o l IH]; intros s m Hs Hl; cbn [spec_ops run_ops].
  { exists s. by split_and!. }
  apply Forall_cons in Hl as [Ho Hl]. pose proof (op_refines o s m Hs Ho) as Hop.
  destruct (spec_op o m) as [m1|]; cbn [mbind option_bind].
  - destruct Hop as (s1 & Hrun & Hs1 & Hsame). rewrite (bind_Ok _ _ _ _ _ Hrun).
    specialize (IH s1 m1 Hs1 Hl). destruct (spec_ops l m1); [|done].
    destruct IH as (s' & Hrun' & Hs' & Hsame'). exists s'. split_and!; [done|done|by etrans].
  - unfold mbind, M_bind. by rewrite Hop.
Qed.

(** After the driver is initialised no interrupt has a handler. *)
Lemma setup_holds (s : gic_state D) :
  gicv5_detected s = false → shared_irq_lock s = false →
  ∃ s', gicv2v3_irq_setup p s = Ok (tt, s') ∧ holds s' ∅ ∧ same_but_handlers s s'.
Proof.
  intros H5 Hl. eexists. split; [reflexivity|]. split; [|by split_and!].
  split_and!; [done|done|]. intros core id Hc Hid. rewrite lookup_empty. unfold core_ok in Hc.
  unfold irq_slot. cbn [slot_val set_descs descs spi_desc_table ppi_desc_table sgi_desc_table].
  unfold managed, IS_PLAT_SPI, IS_PPI, IS_SGI in *. case_match eqn:E1.
  { cbn. apply zget_replicate. lia. }
  assert (∀ n i, 0 <= i < Z.of_nat n → get2 (replicate (Z.to_nat (PLATFORM_CORE_COUNT p))
    (replicate n (@None Z))) core i = Some None) as Hget.
  { intros n i Hi. unfold get2. rewrite zget_replicate by lia. cbn. by apply zget_replicate. }
  case_match eqn:E2.
  { apply Hget. unfold MAX_PPI_ID, MIN_PPI_ID in *. lia. }
  case_match eqn:E3; [|done]. apply Hget. unfold MAX_SGI_ID, MIN_SGI_ID in *. lia.
Qed.

(** C9: The tables of handlers of the GICv2 and GICv3 drivers implement a map
    from interrupts to handlers, where a private interrupt of each core and a
    shared interrupt are entries of their own.  From the initialisation of the
    driver on, every sequence of [tftf_irq_register_handler()] and
    [tftf_irq_unregister_handler()] by any cores returns 0 at each step, with
    the tables holding what the map holds, the lock free and nothing else
    changed; it fails an assertion exactly where an interrupt that has a
    handler is registered, or one without a handler is unregistered. *)
Theorem handlers_refine (l : list irq_op) (s : gic_state D) :
  gicv5_detected s = false → shared_irq_lock s = false → Forall op_ok l →
  match spec_ops l ∅ with
  | Some m => ∃ s', (gicv2v3_irq_setup p;; run_ops l) s = Ok (tt, s') ∧ holds s' m
      ∧ same_but_handlers s s'
  | None => (gicv2v3_irq_setup p;; run_ops l) s = Stop AssertFail
  end.
Proof.
  intros H5 Hl Hops. destruct (setup_holds s H5 Hl) as (s1 & Hrun & Hs1 & Hsame).
  pose proof (ops_refine l s1 ∅ Hs1 Hops) as Hr. rewrite (bind_Ok _ _ _ _ _ Hrun).
  destruct (spec_ops l ∅); [|done]. destruct Hr as (s' & Hrun' & Hs' & Hsame').
  exists s'. split_and!; [done|done|by etrans].
Qed.

(** ** The dispatcher *)

(** Acknowledging reads [raw] and leaves the device as [d1]; the interrupt is
    the low part of it.  Ending writes [raw] back. *)
Definition ack_reads (s : gic_state D) (cpu raw : Z) (d1 : D) : Prop :=
  if gicv3_detected s then hw_mrs cpu ICC_IAR1_EL1 (dev s) = (raw, d1) ∧ 0 <= raw < 2 ^ 24
  else 0 < gicc_base_addr (v2 s) < 2 ^ 31
       ∧ hw_read cpu 4 (gicc_base_addr (v2 s) + GICC_IAR) (dev s) = (raw, d1) ∧ 0 <= raw < 2 ^ 32.
Definition acked (s : gic_state D) (raw : Z) : Z :=
  if gicv3_detected s then raw else raw mod 1024.
Definition ended (s : gic_state D) (cpu raw : Z) (d : D) : D :=
  if gicv3_detected s then hw_msr cpu ICC_EOIR1_EL1 raw d
  else hw_write cpu 4 (gicc_base_addr (v2 s) + GICC_EOIR) raw d.

Lemma ack_run (s : gic_state D) (cpu raw : Z) (d1 : D) :
  gicv5_detected s = false → ack_reads s cpu raw d1 →
  arm_gic_intr_ack cpu s = Ok ((acked s raw, raw), set_dev s d1).
Proof.
  unfold ack_reads, acked. intros H5 Ha. unfold arm_gic_intr_ack, by_version.
  erewrite bind_Ok by reflexivity. destruct (gicv3_detected s).
  - destruct Ha as [Hr Hb]. unfold gicv3_acknowledge_interrupt, read_sysreg.
    erewrite bind_Ok; [|erewrite bind_Ok by reflexivity; reflexivity]. rewrite Hr. cbn [fst snd].
    rewrite u64_small by (unfold UINT64_MAX; lia). unfold IAR1_EL1_INTID_MASK.
    change 0xffffff with (Z.ones 24). rewrite Z.land_ones, (Z.mod_small raw) by lia.
    by rewrite u32_small by (unfold UINT32_MAX; lia).
  - destruct Ha as (Hg & Hr & Hb). rewrite H5. unfold gicv2_gicc_read_iar, need_gicc, gicc_base.
    erewrite bind_Ok; [|erewrite bind_Ok; [|erewrite bind_Ok by reflexivity;
      rewrite (bind_Ok _ _ _ _ _ (assert_run (negb (gicc_base_addr (v2 s) =? 0)) s ltac:(lia)));
      reflexivity]; unfold gicc_read_iar, mmio_read_32, mmio_read; reflexivity].
    unfold GICC_IAR in *. rewrite (u32_small (gicc_base_addr (v2 s))) by (unfold UINT32_MAX; lia).
    rewrite (u32_small (gicc_base_addr (v2 s) + 12)), Hr by (unfold UINT32_MAX; lia). cbn [fst snd]. change (8 * 4) with 32.
    rewrite wrap_small by done. unfold get_gicc_iar_intid. rewrite Z.shiftr_0_r.
    change 0x3ff with (Z.ones 10). by rewrite Z.land_ones by lia.
Qed.

Lemma end_run (s s2 : gic_state D) (cpu raw : Z) (d1 : D) :
  gicv5_detected s = false → ack_reads s cpu raw d1 →
  v2 s2 = v2 s → gicv3_detected s2 = gicv3_detected s → gicv5_detected s2 = gicv5_detected s →
  arm_gic_end_of_intr cpu raw s2 = Ok (tt, set_dev s2 (ended s cpu raw (dev s2))).
Proof.
  unfold ack_reads, ended. intros H5 Ha Hv2 H3 H5'. unfold arm_gic_end_of_intr, by_version.
  erewrite bind_Ok by reflexivity. rewrite H3, H5', H5. destruct (gicv3_detected s).
  - destruct Ha as [_ Hb]. unfold gicv3_end_of_interrupt, write_sysreg.
    rewrite (u64_small raw); [done|]. unfold UINT64_MAX. lia.
  - destruct Ha as (Hg & _ & Hb). unfold gicv2_gicc_write_eoir, need_gicc, gicc_base.
    erewrite bind_Ok; [|erewrite bind_Ok by reflexivity; rewrite Hv2;
      rewrite (bind_Ok _ _ _ _ _ (assert_run (negb (gicc_base_addr (v2 s) =? 0)) s2 ltac:(lia)));
      reflexivity].
    unfold gicc_write_eoir, GICC_EOIR. rewrite (u32_small (gicc_base_addr (v2 s))) by (unfold UINT32_MAX; lia).
    rewrite u32_small by (unfold UINT32_MAX; lia). by rewrite write32_run.
Qed.

(** [tftf_irq_handler_dispatcher()] on GICv2 and GICv3 acknowledges one
    interrupt, runs the handler that is registered for it (on this CPU, if it
    is private) and no other, once, and returns what it returns, or 0 if there
    is none; it then ends the interrupt with the value it was acknowledged
    with, except for the spurious interrupt, which is not ended. *)
Theorem dispatch_runs_handler (call : Z → Z → G Z) (s s2 : gic_state D) (m : gmap (Z * Z) Z)
    (cpu raw rc : Z) (d1 : D) :
  holds s m → core_ok p cpu → ack_reads s cpu raw d1 → managed (acked s raw) →
  match m !! key cpu (acked s raw) with
  | Some f => call f (acked s raw) (set_dev s d1) = Ok (rc, s2)
      ∧ v2 s2 = v2 s ∧ gicv3_detected s2 = gicv3_detected s ∧ gicv5_detected s2 = gicv5_detected s
  | None => rc = 0 ∧ s2 = set_dev s d1
  end →
  tftf_irq_handler_dispatcher p cpu call s
  = Ok (rc, if acked s raw =? GIC_SPURIOUS_INTERRUPT then s2
            else set_dev s2 (ended s cpu raw (dev s2))).
Proof.
  intros Hs Hc Ha Hid Hcall. pose proof Hs as (H5 & _ & _). unfold tftf_irq_handler_dispatcher.
  rewrite (bind_Ok _ _ _ _ _ (ack_run s cpu raw d1 H5 Ha)). cbv zeta. cbn [fst snd].
  pose proof (holds_dev s m d1 Hs) as (H5' & _ & Hv).
  rewrite (bind_Ok _ _ _ _ _ (irq_slot_run (set_dev s d1) cpu _ H5' Hid)).
  rewrite (bind_Ok _ _ _ _ _ (read_slot_run _ _ _ (Hv _ _ Hc Hid))).
  assert ((match m !! key cpu (acked s raw) with Some f => call f (acked s raw) | None => mret 0 end)
    (set_dev s d1) = Ok (rc, s2) ∧ v2 s2 = v2 s ∧ gicv3_detected s2 = gicv3_detected s
    ∧ gicv5_detected s2 = gicv5_detected s) as (Hrun & Hv2 & Hd3 & Hd5).
  { destruct (m !! key cpu (acked s raw)); [done|]. by destruct Hcall as [-> ->]. }
  rewrite (bind_Ok _ _ _ _ _ Hrun). destruct (acked s raw =? GIC_SPURIOUS_INTERRUPT); [done|].
  cbn [negb]. by rewrite (bind_Ok _ _ _ _ _ (end_run s s2 cpu raw d1 H5 Ha Hv2 Hd3 Hd5)).
Qed.

End Handlers.
