(* ===== verification/GicV5Spec.v ===== *)
(** * GICv5: SGIs and priorities

    SGIs are numbered so that each core has numbers of its own, which hold for
    the eight SGIs of a core and not for the ninth the driver lets through;
    and what setting the priority of an interrupt of the CPU does. *)

From S2P Require Import Prelude Bits Gic GicV5 Irq GicSpec IrqHandlers.

Local Open Scope Z_scope.

Lemma mask_ones (shift width : Z) : 0 <= shift → 0 <= width → shift + width <= 64 →
  MASK shift width = Z.shiftl (Z.ones width) shift.
Proof.
  intros Hs Hw Hle. unfold MASK, UINT64_MAX. change 18446744073709551615 with (2 ^ 64 - 1).
  assert (Z.shiftr (2 ^ 64 - 1) (64 - width) = Z.ones width) as ->.
  { rewrite ones_pred, Z.shiftr_div_pow2, Z.ones_div_pow2 by lia. f_equal. lia. }
  apply u64_small. unfold UINT64_MAX. rewrite Z.shiftl_mul_pow2, Z.ones_equiv by lia.
  assert (0 < 2 ^ width) by lia. assert (0 < 2 ^ shift) by lia.
  assert (2 ^ width * 2 ^ shift <= 2 ^ 64) by (rewrite <- Z.pow_add_r by lia; apply Z.pow_le_mono_r; lia).
  nia.
Qed.

(** A field of a register *)
Lemma extract_field (shift width reg : Z) : 0 <= shift → 0 <= width → shift + width <= 64 →
  EXTRACT shift width reg = (reg / 2 ^ shift) mod 2 ^ width.
Proof.
  intros Hs Hw Hle. unfold EXTRACT. rewrite mask_ones by done.
  rewrite Z.shiftr_land, Z.shiftr_shiftl_l, Z.sub_diag, Z.shiftl_0_r by lia.
  by rewrite Z.land_ones, Z.shiftr_div_pow2 by lia.
Qed.

(** An interrupt of a type, as the number the drivers use *)
Lemma int_fields (t id : Z) : 0 <= t < 8 → 0 <= id < 2 ^ 24 →
  INT_TYPE (t * 2 ^ 29 + id) = t ∧ INT_ID (t * 2 ^ 29 + id) = id.
Proof.
  intros Ht Hid. unfold INT_TYPE, INT_ID. rewrite !extract_field by lia. split.
  - rewrite Z.add_comm, Z.div_add, Z.div_small by lia. apply Z.mod_small. lia.
  - change (2 ^ 0) with 1. rewrite Z.div_1_r.
    replace (t * 2 ^ 29 + id) with (id + t * 2 ^ 5 * 2 ^ 24) by lia.
    rewrite Z.mod_add by lia. apply Z.mod_small. lia.
Qed.

(** ** SGIs *)

Lemma sgi_num_run {S} (index core : Z) (s : S) :
  0 <= index <= IRQ_NUM_SGIS → 0 <= core → core * IRQ_NUM_SGIS + index < 2 ^ 24 →
  (assert_ (index <=? IRQ_NUM_SGIS);;
   mret (u32 (Z.lor (u32 (core * IRQ_NUM_SGIS + index)) (INPLACE 29 INT_LPI)))) s
  = Ok (INT_LPI * 2 ^ 29 + (core * IRQ_NUM_SGIS + index), s).
Proof.
  intros Hi Hc Hn. unfold mbind, M_bind, assert_. rewrite (proj2 (Z.leb_le _ _)) by lia.
  unfold IRQ_NUM_SGIS, INPLACE, INT_LPI in *. change (u64 (Z.shiftl 2 29)) with (2 * 2 ^ 29).
  rewrite (u32_small (core * 8 + index)) by (unfold UINT32_MAX; lia).
  rewrite Z.lor_comm, lor_fields by lia. by rewrite u32_small by (unfold UINT32_MAX; lia).
Qed.

(** On GICv5, each of the eight SGIs of each core has a number and a
    handler of its own: [gicv5_get_sgi_num()] returns, the handler found for
    the number is an element of the table of [gicv5_init()], and it is a
    different one for every core and SGI.  The assertion also lets index 8
    through: it names SGI 0 of the next core, and, for the last core, an
    element past the end of the table. *)
Theorem gicv5_sgi_handlers {D} `{!GicHw D} (p : gic_plat) (s : gic_state D) (irs cpu index core : Z) :
  gicv5_detected s = true → 0 <= index <= IRQ_NUM_SGIS → core_ok p core →
  (PLATFORM_CORE_COUNT p + 1) * IRQ_NUM_SGIS < 2 ^ 24 →
  ∃ s1 num x, gicv5_init p irs s = Ok (tt, s1)
    ∧ arm_gic_get_sgi_num index core s1 = Ok (num, s1)
    ∧ arm_gic_get_irq_handler p cpu num s1 = Ok (x, s1)
    ∧ (index < IRQ_NUM_SGIS → slot_val s1 x = Some None
       ∧ ∀ index' core', 0 <= index' < IRQ_NUM_SGIS → core_ok p core' →
         ∀ num' x', arm_gic_get_sgi_num index' core' s1 = Ok (num', s1) →
           arm_gic_get_irq_handler p cpu num' s1 = Ok (x', s1) →
           x' = x → index' = index ∧ core' = core)
    ∧ (index = IRQ_NUM_SGIS →
       (core + 1 = PLATFORM_CORE_COUNT p → slot_val s1 x = None)
       ∧ (core + 1 < PLATFORM_CORE_COUNT p → arm_gic_get_sgi_num 0 (core + 1) s1 = Ok (num, s1))).
Proof.
  intros H5 Hi Hc Hn. eexists _, (INT_LPI * 2 ^ 29 + (core * IRQ_NUM_SGIS + index)),
    (V5LpiSlot (core * IRQ_NUM_SGIS + index)). split; [reflexivity|].
  set (s1 := set_v5 s _). assert (gicv5_detected s1 = true) as H5' by done.
  assert (∀ i c, 0 <= i <= IRQ_NUM_SGIS → core_ok p c →
    arm_gic_get_sgi_num i c s1 = Ok (INT_LPI * 2 ^ 29 + (c * IRQ_NUM_SGIS + i), s1)
    ∧ arm_gic_get_irq_handler p cpu (INT_LPI * 2 ^ 29 + (c * IRQ_NUM_SGIS + i)) s1
      = Ok (V5LpiSlot (c * IRQ_NUM_SGIS + i), s1)) as Hrun.
  { intros i c Hi' Hc'. unfold core_ok, IRQ_NUM_SGIS in *. split.
    - unfold arm_gic_get_sgi_num. erewrite bind_Ok by reflexivity. rewrite H5'.
      apply sgi_num_run; unfold IRQ_NUM_SGIS; lia.
    - unfold arm_gic_get_irq_handler. erewrite bind_Ok by reflexivity. rewrite H5'.
      unfold gicv5_get_irq_handler.
      destruct (int_fields INT_LPI (c * 8 + i)) as [-> ->]; [by unfold INT_LPI|lia|]. done. }
  destruct (Hrun index core Hi Hc) as [Hnum Hh]. split; [exact Hnum|]. split; [exact Hh|].
  unfold core_ok, IRQ_NUM_SGIS in *. split.
  - intros Hlt. split.
    + cbn. apply zget_replicate. lia.
    + intros i c Hi' Hc' num' x' Hn' Hx' ->. destruct (Hrun i c ltac:(lia) Hc') as [En Eh].
      rewrite En in Hn'. injection Hn' as <-. rewrite Eh in Hx'. injection Hx' as E. lia.
  - intros ->. split.
    + intros Hlast. cbn. apply zget_None. rewrite zlen_replicate. lia.
    + intros Hlt. destruct (Hrun 0 (core + 1) ltac:(lia) ltac:(lia)) as [E _]. rewrite E.
      do 3 f_equal. lia.
Qed.

(** ** Priorities *)

Lemma byte_bit (v j n : Z) : 0 <= j → 0 <= n →
  Z.testbit (byte_of v j) n = (n <? 8) && Z.testbit v (n + 8 * j).
Proof.
  intros Hj Hn. unfold byte_of. change 256 with (2 ^ 8). destruct (Z.ltb_spec n 8); cbn [andb].
  - rewrite Z.mod_pow2_bits_low, Z.div_pow2_bits by lia. done.
  - by apply Z.mod_pow2_bits_high.
Qed.

(** A byte moved to place [i] *)
Lemma byte_shiftl (b i j : Z) : 0 <= b < 256 → 0 <= i → 0 <= j →
  byte_of (Z.shiftl b (8 * i)) j = if j =? i then b else 0.
Proof.
  intros Hb Hi Hj. apply Z.bits_inj'. intros n Hn. rewrite byte_bit, Z.shiftl_spec by lia.
  assert (∀ k, 8 <= k → Z.testbit b k = false) as Hhi.
  { intros k Hk. rewrite <- (Z.mod_small b (2 ^ 8)) by lia. by apply Z.mod_pow2_bits_high. }
  destruct (Z.eqb_spec j i) as [->|Hne].
  - replace (n + 8 * i - 8 * i) with n by lia. destruct (Z.ltb_spec n 8); [done|]. by rewrite Hhi.
  - rewrite Z.testbit_0_l. destruct (Z.ltb_spec n 8); [|done]. cbn [andb].
    destruct (Z.lt_ge_cases (n + 8 * j - 8 * i) 0); [by apply Z.testbit_neg_r|]. apply Hhi. lia.
Qed.

Lemma byte_logic (v w j : Z) : 0 <= j →
  byte_of (Z.lor v w) j = Z.lor (byte_of v j) (byte_of w j)
  ∧ byte_of (Z.land v w) j = Z.land (byte_of v j) (byte_of w j).
Proof.
  intros Hj. split; apply Z.bits_inj'; intros n Hn.
  - rewrite Z.lor_spec, !byte_bit, Z.lor_spec by lia. by destruct (n <? 8).
  - rewrite Z.land_spec, !byte_bit, Z.land_spec by lia. by destruct (n <? 8).
Qed.

Lemma byte_range (v j : Z) : 0 <= byte_of v j < 256.
Proof. unfold byte_of. apply Z.mod_pos_bound. lia. Qed.

(** What [gicv5_set_priority()] does to the interrupts of a CPU is not what
    it says.  They have a byte each, eight to a register.  For the first four
    of a register the priority is combined with the old one instead of
    replacing it, and the priorities of the seven others of the register
    become 0; for the other four the function shifts a 32-bit value by 32 or
    more, which is undefined. *)
Theorem gicv5_ppi_priority {D} `{!GicHw D} (cpu r i prio v : Z) (s : gic_state D) :
  0 <= r < 16 → 0 <= i < 8 → 0 <= prio < 32 →
  hw_mrs cpu (ICC_PPI_PRIORITYR r) (dev s) = (v, dev s) → 0 <= v < 2 ^ 64 →
  if i <? 4
  then ∃ w, gicv5_set_priority cpu (INT_PPI * 2 ^ 29 + (8 * r + i)) prio s
         = Ok (tt, set_dev s (hw_msr cpu (ICC_PPI_PRIORITYR r) w (dev s)))
       ∧ ∀ j, 0 <= j < 8 → byte_of w j = if j =? i then Z.lor (byte_of v i) prio else 0
  else gicv5_set_priority cpu (INT_PPI * 2 ^ 29 + (8 * r + i)) prio s = Stop OutOfBounds.
Proof.
  intros Hr Hi Hp Hrd Hv. unfold gicv5_set_priority.
  rewrite (bind_Ok _ _ _ _ _ (assert_run (prio <? Z.shiftl 1 GICCDPRI_PRIORITY_WIDTH) s
    ltac:(change (Z.shiftl 1 GICCDPRI_PRIORITY_WIDTH) with 32; lia))).
  destruct (int_fields INT_PPI (8 * r + i)) as [Ht Hid]; [by unfold INT_PPI|lia|].
  rewrite (bind_Ok _ _ _ _ _ (assert_run (is_interrupt (INT_PPI * 2 ^ 29 + (8 * r + i))) s
    ltac:(unfold is_interrupt; by rewrite Ht))).
  rewrite Ht, Hid. change (negb (INT_PPI =? INT_PPI)) with false. cbv iota zeta.
  unfold ICC_PPI_PRIORITYR_FIELD_NUM.
  replace ((8 * r + i) / 8) with r by (apply Z.div_unique with i; lia).
  replace ((8 * r + i) mod 8) with i by (apply Z.mod_unique with r; lia).
  unfold read_icc_ppi_priorityrn, write_icc_ppi_priorityrn.
  rewrite (proj2 (Z.leb_le 0 r)), (proj2 (Z.leb_le r 15)) by lia. cbn [andb].
  assert (read_sysreg cpu (ICC_PPI_PRIORITYR r) s = Ok (v, s)) as Hrun.
  { unfold read_sysreg. rewrite Hrd. cbn [fst snd]. rewrite u64_small by (unfold UINT64_MAX; lia).
    by destruct s. }
  rewrite (bind_Ok _ _ _ _ _ Hrun). destruct (Z.ltb_spec i 4).
  - rewrite (proj2 (Z.leb_gt 32 (i * 8))) by lia. erewrite bind_Ok by reflexivity.
    eexists. split; [reflexivity|]. intros j Hj.
    assert (∀ b, 0 <= b < 256 → 0 <= Z.shiftl b (8 * i) < 2 ^ 32) as Hb.
    { intros b Hb. rewrite Z.shiftl_mul_pow2 by lia.
      assert (0 < 2 ^ (8 * i) <= 2 ^ 24) by (split; [|apply Z.pow_le_mono_r]; lia). nia. }
    rewrite (Z.mul_comm i 8). pose proof (Hb prio ltac:(lia)) as Hb1.
    rewrite (u32_small (Z.shiftl prio (8 * i))) by (unfold UINT32_MAX; lia).
    unfold ICC_PPI_PRIORITYR_FIELD_MASK. pose proof (Hb 0xff ltac:(lia)) as Hb2.
    rewrite (u64_small (Z.shiftl 0xff (8 * i))) by (unfold UINT64_MAX; lia).
    rewrite u64_small.
    + destruct (byte_logic (Z.land v (Z.shiftl 0xff (8 * i))) (Z.shiftl prio (8 * i)) j) as [-> _]; [lia|].
      destruct (byte_logic v (Z.shiftl 0xff (8 * i)) j) as [_ ->]; [lia|].
      rewrite !byte_shiftl by lia. destruct (Z.eqb_spec j i) as [->|].
      * change 0xff with (Z.ones 8). rewrite Z.land_ones by lia.
        pose proof (byte_range v i). by rewrite Z.mod_small by lia.
      * by rewrite Z.land_0_r.
    + assert (in_width 64 (Z.lor (Z.land v (Z.shiftl 0xff (8 * i))) (Z.shiftl prio (8 * i)))) as Hw.
      { apply lor_range; [lia| |unfold in_width; lia]. unfold in_width.
        assert (0 <= Z.land v (Z.shiftl 255 (8 * i)) <= Z.shiftl 255 (8 * i)); [|lia].
        apply land_le; [lia|]. by rewrite <- Z.land_assoc, Z.land_diag. }
      unfold in_width in Hw. unfold UINT64_MAX. lia.
  - by rewrite (proj2 (Z.leb_le 32 (i * 8))) by lia.
Qed.
