(* ===== verification/SoftGic.v ===== *)
(** * A register file that behaves like a GIC

    An implementation of the interface the GIC drivers are verified against:
    the state of the controller itself, read and written through the registers
    of a GICv2 or of a GICv3.  The theorems on the drivers are applied to it at
    concrete inputs. *)

From Stdlib Require Import FunctionalExtensionality.
From stdpp Require Import gmap.
From S2P Require Import Prelude Bits Gic GicV5 Irq GicSpec GicCtx GicSgi IrqHandlers GicV5Spec.

Local Open Scope Z_scope.

(** A register, with the interrupts it is about: those of a core or, with -1,
    the shared ones *)
Inductive reg : Set :=
| RIsEnabler (core w : Z)
| RIcEnabler (core w : Z)
| RIsPendr (core w : Z)
| RIcPendr (core w : Z)
| RPrio (core id : Z)
| RCfg (core : Z)
| RTarget (id : Z)
| RTyper (core : Z)
| RNone.

(** The interrupts waiting to be acknowledged, those ended, and the SGIs sent *)
Record soft := {
  soft_view : gview;
  soft_waiting : list Z;
  soft_ended : list Z;
  soft_sgis : list Z;
}.

Definition PRIO_BITS : Z := 0xf0.
Definition CFG_BITS : Z := 0xaaaaaaaa.
Definition CORES : Z := 4.

Definition masked (v : gview) : gview :=
  set_cfg (set_prio v (λ k, Z.land (g_prio v k) PRIO_BITS)) (λ c, Z.land (g_cfg v c) CFG_BITS).

Section Soft.

Context (decode : Z → Z → reg).

Definition on_view (d : soft) (v : gview) : soft :=
  {| soft_view := v; soft_waiting := soft_waiting d; soft_ended := soft_ended d;
     soft_sgis := soft_sgis d |}.

Definition soft_read (c w addr : Z) (d : soft) : Z * soft :=
  let v := masked (soft_view d) in
  (match decode c addr with
   | RIsEnabler core n => word (λ b, g_enabled v (key core (n * 32 + b)))
   | RIsPendr core n => word (λ b, g_pending v (key core (n * 32 + b)))
   | RPrio core id => if w =? 1 then g_prio v (core, id) else word4 (λ j, g_prio v (core, id + j))
   | RCfg core => g_cfg v core
   | RTyper core => core * 2 ^ 32 + (if core =? CORES - 1 then 16 else 0)
   | _ => 0
   end, d).

Definition soft_write (c w addr x : Z) (d : soft) : soft :=
  let v := soft_view d in
  on_view d
    match decode c addr with
    | RIsEnabler core n =>
        set_enabled v (λ k, g_enabled v k || in_word core (n * 32) k && Z.testbit x (k.2 mod 32))
    | RIcEnabler core n =>
        set_enabled v (λ k, g_enabled v k && negb (in_word core (n * 32) k && Z.testbit x (k.2 mod 32)))
    | RIcPendr core n =>
        set_pending v (λ k, g_pending v k && negb (in_word core (n * 32) k && Z.testbit x (k.2 mod 32)))
    | RPrio core id =>
        if w =? 1 then set_prio v (λ k, if bool_decide (k = (core, id)) then x else g_prio v k)
        else set_prio v (λ k, if in_word4 core id k then byte_of x (k.2 mod 4) else g_prio v k)
    | RCfg core => set_cfg v (λ y, if y =? core then x else g_cfg v y)
    | RTarget id => set_target v (λ y, if y =? id then x else g_target v y)
    | _ => v
    end.

Definition soft_mrs (c : Z) (r : sysreg) (d : soft) : Z * soft :=
  match r, soft_waiting d with
  | ICC_IAR1_EL1, id :: l =>
      (id, {| soft_view := soft_view d; soft_waiting := l; soft_ended := soft_ended d;
              soft_sgis := soft_sgis d |})
  | ICC_IAR1_EL1, [] => (GIC_SPURIOUS_INTERRUPT, d)
  | _, _ => (0, d)
  end.

Definition soft_msr (c : Z) (r : sysreg) (x : Z) (d : soft) : soft :=
  match r with
  | ICC_EOIR1_EL1 =>
      {| soft_view := soft_view d; soft_waiting := soft_waiting d; soft_ended := x :: soft_ended d;
         soft_sgis := soft_sgis d |}
  | ICC_SGI1R =>
      {| soft_view := soft_view d; soft_waiting := soft_waiting d; soft_ended := soft_ended d;
         soft_sgis := x :: soft_sgis d |}
  | _ => d
  end.

#[local] Instance soft_hw : GicHw soft :=
  {| hw_read := soft_read; hw_write := soft_write; hw_mrs := soft_mrs; hw_msr := soft_msr |}.

(** What is asked of the decoder: it finds the registers of the map. *)
Record decodes (p : gic_plat) (rm : regmap) : Prop := {
  dec_isenabler c core id : core_ok p core → 0 <= id <= MAX_SPI_ID → rm_acc rm c core →
    decode c (rm_isenabler rm core id) = RIsEnabler (key core id).1 (id / 32);
  dec_icenabler c core id : core_ok p core → 0 <= id <= MAX_SPI_ID → rm_acc rm c core →
    decode c (rm_icenabler rm core id) = RIcEnabler (key core id).1 (id / 32);
  dec_ispendr c core id : core_ok p core → 0 <= id <= MAX_SPI_ID → rm_acc rm c core →
    decode c (rm_ispendr rm core id) = RIsPendr (key core id).1 (id / 32);
  dec_icpendr c core id : core_ok p core → 0 <= id <= MAX_SPI_ID → rm_acc rm c core →
    decode c (rm_icpendr rm core id) = RIcPendr (key core id).1 (id / 32);
  dec_prio c core id : core_ok p core → 0 <= id <= MAX_SPI_ID → rm_acc rm c core →
    decode c (rm_prio rm core id) = RPrio (key core id).1 id;
  dec_cfg c core : core_ok p core → rm_acc rm c core → decode c (rm_cfg rm core) = RCfg core;
  dec_target c id : MIN_SPI_ID <= id <= MAX_SPI_ID → decode c (rm_target rm id) = RTarget id;
}.

Lemma in_word_key (core id : Z) (k : Z * Z) : 0 <= id →
  in_word (key core id).1 (id / 32 * 32) k = in_word core id k.
Proof.
  intros Hid. unfold in_word, key, MIN_SPI_ID. rewrite Z.div_mul by lia. cbn [fst].
  pose proof (Z.div_mod id 32 ltac:(lia)). pose proof (Z.mod_pos_bound id 32 ltac:(lia)).
  pose proof (Z.div_mod k.2 32 ltac:(lia)). pose proof (Z.mod_pos_bound k.2 32 ltac:(lia)).
  destruct (Z.eqb_spec (k.2 / 32) (id / 32)) as [E|E]; rewrite ?andb_false_r, ?andb_true_r; [|done].
  destruct (Z.ltb_spec k.2 32), (Z.ltb_spec id 32); done || lia.
Qed.

Lemma in_word4_key (core id : Z) (k : Z * Z) : 0 <= id →
  in_word4 (key core id).1 id k = in_word4 core id k.
Proof.
  intros Hid. unfold in_word4, key, MIN_SPI_ID. cbn [fst].
  pose proof (Z.div_mod id 4 ltac:(lia)). pose proof (Z.mod_pos_bound id 4 ltac:(lia)).
  pose proof (Z.div_mod k.2 4 ltac:(lia)). pose proof (Z.mod_pos_bound k.2 4 ltac:(lia)).
  destruct (Z.eqb_spec (k.2 / 4) (id / 4)) as [E|E]; rewrite ?andb_false_r, ?andb_true_r; [|done].
  destruct (Z.ltb_spec k.2 32), (Z.ltb_spec id 32); done || lia.
Qed.

(** The core of an interrupt of the same word *)
Lemma key_of_word (core id j : Z) : 0 <= id → 0 <= j < 32 →
  key (key core id).1 (id / 32 * 32 + j) = key core (id / 32 * 32 + j).
Proof.
  intros Hid Hj. unfold key, MIN_SPI_ID. cbn [fst].
  pose proof (Z.div_mod id 32 ltac:(lia)). pose proof (Z.mod_pos_bound id 32 ltac:(lia)).
  destruct (Z.ltb_spec (id / 32 * 32 + j) 32), (Z.ltb_spec id 32); done || lia.
Qed.

Lemma key_of_word4 (core id j : Z) : 0 <= id → id mod 4 = 0 → 0 <= j < 4 →
  ((key core id).1, id + j) = key core (id + j).
Proof.
  intros Hid Hm Hj. unfold key, MIN_SPI_ID. cbn [fst]. pose proof (Z.div_mod id 4 ltac:(lia)).
  destruct (Z.ltb_spec (id + j) 32), (Z.ltb_spec id 32); done || lia.
Qed.

Lemma word_ext (f g : Z → bool) : (∀ b, 0 <= b < 32 → f b = g b) → word f = word g.
Proof.
  intros H. apply Z.bits_inj'. intros n Hn. unfold word. rewrite !bits_val_spec.
  case_bool_decide; [|done]. cbn. apply H. lia.
Qed.

Lemma masked_idem (x m : Z) : Z.land (Z.land x m) m = Z.land x m.
Proof. by rewrite <- Z.land_assoc, Z.land_diag. Qed.

(** Two views of a controller that agree everywhere *)
Lemma gview_ext (v v' : gview) :
  (∀ k, g_enabled v k = g_enabled v' k) → (∀ k, g_pending v k = g_pending v' k) →
  (∀ k, g_prio v k = g_prio v' k) → (∀ x, g_target v x = g_target v' x) →
  (∀ x, g_cfg v x = g_cfg v' x) → v = v'.
Proof.
  intros H1 H2 H3 H4 H5. destruct v, v'. cbn in *. f_equal; by apply functional_extensionality.
Qed.

Ltac views :=
  cbn [masked soft_view on_view set_cfg set_prio set_enabled set_pending set_target
       g_enabled g_pending g_prio g_cfg g_target Z.eqb Pos.eqb].

Program Definition soft_ok (p : gic_plat) (rm : regmap) (Hd : decodes p rm)
    : GicOk soft (core_ok p) rm :=
  {| view d := masked (soft_view d); prio_mask := PRIO_BITS; cfg_mask := CFG_BITS; cfg_ro := 0 |}.
Next Obligation. intros. unfold PRIO_BITS. lia. Qed.
Next Obligation. intros. unfold CFG_BITS. split_and!; [lia|lia|lia|lia|reflexivity]. Qed.
Next Obligation. intros. apply masked_idem. Qed.
Next Obligation. intros. apply masked_idem. Qed.
Next Obligation.
  intros p rm Hd c core id d Hc Hid Ha. cbn [hw_read hw_write soft_hw]. unfold soft_read.
  rewrite (dec_isenabler _ _ Hd _ _ _ Hc Hid Ha). f_equal. apply word_ext. intros b Hb.
  by rewrite key_of_word by lia.
Qed.
Next Obligation.
  intros p rm Hd c core id x d Hc Hid Ha. cbn [hw_read hw_write soft_hw]. unfold soft_write.
  rewrite (dec_isenabler _ _ Hd _ _ _ Hc Hid Ha). apply gview_ext; try reflexivity.
  intros k. views. by rewrite in_word_key by lia.
Qed.
Next Obligation.
  intros p rm Hd c core id x d Hc Hid Ha. cbn [hw_read hw_write soft_hw]. unfold soft_write.
  rewrite (dec_icenabler _ _ Hd _ _ _ Hc Hid Ha). apply gview_ext; try reflexivity.
  intros k. views. by rewrite in_word_key by lia.
Qed.
Next Obligation.
  intros p rm Hd c core id d Hc Hid Ha. cbn [hw_read hw_write soft_hw]. unfold soft_read.
  rewrite (dec_ispendr _ _ Hd _ _ _ Hc Hid Ha). f_equal. apply word_ext. intros b Hb.
  by rewrite key_of_word by lia.
Qed.
Next Obligation.
  intros p rm Hd c core id x d Hc Hid Ha. cbn [hw_read hw_write soft_hw]. unfold soft_write.
  rewrite (dec_icpendr _ _ Hd _ _ _ Hc Hid Ha). apply gview_ext; try reflexivity.
  intros k. views. by rewrite in_word_key by lia.
Qed.
Next Obligation.
  intros p rm Hd c core id d Hc Hid Ha. cbn [hw_read hw_write soft_hw]. unfold soft_read. by rewrite (dec_prio _ _ Hd _ _ _ Hc Hid Ha).
Qed.
Next Obligation.
  intros p rm Hd c core id x d Hc Hid Ha. cbn [hw_read hw_write soft_hw]. unfold soft_write.
  rewrite (dec_prio _ _ Hd _ _ _ Hc Hid Ha). apply gview_ext; try reflexivity.
  intros k. views. change ((key core id).1, id) with (key core id). by destruct (bool_decide _).
Qed.
Next Obligation.
  intros p rm Hd c core id d Hc Hid Hm Ha. cbn [hw_read hw_write soft_hw]. unfold soft_read. rewrite (dec_prio _ _ Hd _ _ _ Hc Hid Ha).
  cbn [Z.eqb Pos.eqb]. unfold word4. by rewrite !key_of_word4 by lia.
Qed.
Next Obligation.
  intros p rm Hd c core id x d Hc Hid Hm Ha. cbn [hw_read hw_write soft_hw]. unfold soft_write.
  rewrite (dec_prio _ _ Hd _ _ _ Hc Hid Ha). apply gview_ext; try reflexivity.
  intros k. views. rewrite in_word4_key by lia. by destruct (in_word4 core id k).
Qed.
Next Obligation.
  intros p rm Hd c core d Hc Ha. cbn [hw_read hw_write soft_hw]. unfold soft_read. rewrite (dec_cfg _ _ Hd _ _ Hc Ha).
  by rewrite Z.lor_0_r.
Qed.
Next Obligation.
  intros p rm Hd c core x d Hc Ha. cbn [hw_read hw_write soft_hw]. unfold soft_write.
  rewrite (dec_cfg _ _ Hd _ _ Hc Ha). apply gview_ext; try reflexivity. intros y. views. by destruct (y =? core).
Qed.
Next Obligation.
  intros p rm Hd c id x d Hid. cbn [hw_read hw_write soft_hw]. unfold soft_write. by rewrite (dec_target _ _ Hd _ _ Hid).
Qed.

End Soft.

(** ** A GICv2 and a GICv3 with four cores *)

Definition soft_plat : gic_plat :=
  {| PLATFORM_CORE_COUNT := CORES; PLAT_MAX_SPI_OFFSET_ID := 220;
     mpidr_el1 c := 0x80000000 + c; feat_gic := true; feat_gcie := false |}.

Definition GICD : Z := 0x1000000.
Definition GICR : Z := 0x2000000.
Definition soft_rdist (core : Z) : Z := GICR + core * 0x20000.

(** The registers of a distributor, for the interrupts private to [c] *)
Definition decode_gicd (c off : Z) : reg :=
  if (0x100 <=? off) && (off <? 0x180)
  then RIsEnabler (if off <? 0x104 then c else -1) ((off - 0x100) / 4)
  else if (0x180 <=? off) && (off <? 0x200)
  then RIcEnabler (if off <? 0x184 then c else -1) ((off - 0x180) / 4)
  else if (0x200 <=? off) && (off <? 0x280)
  then RIsPendr (if off <? 0x204 then c else -1) ((off - 0x200) / 4)
  else if (0x280 <=? off) && (off <? 0x300)
  then RIcPendr (if off <? 0x284 then c else -1) ((off - 0x280) / 4)
  else if (0x400 <=? off) && (off <? 0x800)
  then RPrio (if off <? 0x420 then c else -1) (off - 0x400)
  else if (0x800 <=? off) && (off <? 0xC00) then RTarget (off - 0x800)
  else if off =? 0xC04 then RCfg c
  else if (0x6000 <=? off) && (off <? 0x8000) then RTarget ((off - 0x6000) / 8)
  else RNone.

Definition decode2 (c addr : Z) : reg := decode_gicd c (addr - GICD).

(** ... and of the redistributor of a core *)
Definition decode_gicr (core off : Z) : reg :=
  if off =? 0x8 then RTyper core
  else if off =? 0x10100 then RIsEnabler core 0
  else if off =? 0x10180 then RIcEnabler core 0
  else if off =? 0x10200 then RIsPendr core 0
  else if off =? 0x10280 then RIcPendr core 0
  else if (0x10400 <=? off) && (off <? 0x10420) then RPrio core (off - 0x10400)
  else if off =? 0x10C04 then RCfg core
  else RNone.

Definition decode3 (c addr : Z) : reg :=
  if GICR <=? addr then decode_gicr ((addr - GICR) / 0x20000) ((addr - GICR) mod 0x20000)
  else decode_gicd c (addr - GICD).

(** The address of a register of the distributor is in one range only. *)
Ltac bank :=
  repeat match goal with
  | |- context [?a <=? ?b] => destruct (Z.leb_spec a b); try lia; cbn [andb]
  | |- context [?a <? ?b] => destruct (Z.ltb_spec a b); try lia; cbn [andb]
  | |- context [?a =? ?b] => destruct (Z.eqb_spec a b); try lia
  end.

Lemma dec_word (c id base off : Z) : 0 <= id <= MAX_SPI_ID → off = base + 4 * (id / 32) →
  (if off <? base + 4 then c else -1) = (key c id).1 ∧ (off - base) / 4 = id / 32
  ∧ base <= off < base + 128.
Proof.
  unfold MAX_SPI_ID, key, MIN_SPI_ID. intros Hid ->. cbn [fst].
  pose proof (Z.div_mod id 32 ltac:(lia)). pose proof (Z.mod_pos_bound id 32 ltac:(lia)).
  replace (base + 4 * (id / 32) - base) with (id / 32 * 4) by lia. rewrite Z.div_mul by lia.
  split_and!; [|done|lia|lia]. by bank.
Qed.

Lemma decode_banks (c off : Z) :
  (0x100 <= off < 0x180 → decode_gicd c off = RIsEnabler (if off <? 0x104 then c else -1) ((off - 0x100) / 4))
  ∧ (0x180 <= off < 0x200 → decode_gicd c off = RIcEnabler (if off <? 0x184 then c else -1) ((off - 0x180) / 4))
  ∧ (0x200 <= off < 0x280 → decode_gicd c off = RIsPendr (if off <? 0x204 then c else -1) ((off - 0x200) / 4))
  ∧ (0x280 <= off < 0x300 → decode_gicd c off = RIcPendr (if off <? 0x284 then c else -1) ((off - 0x280) / 4)).
Proof. split_and!; intros Hoff; unfold decode_gicd; by bank. Qed.

Lemma decode_gicd_words (c id : Z) : 0 <= id <= MAX_SPI_ID →
  decode_gicd c (0x100 + 4 * (id / 32)) = RIsEnabler (key c id).1 (id / 32)
  ∧ decode_gicd c (0x180 + 4 * (id / 32)) = RIcEnabler (key c id).1 (id / 32)
  ∧ decode_gicd c (0x200 + 4 * (id / 32)) = RIsPendr (key c id).1 (id / 32)
  ∧ decode_gicd c (0x280 + 4 * (id / 32)) = RIcPendr (key c id).1 (id / 32).
Proof.
  intros Hid. split_and!.
  - destruct (dec_word c id 0x100 _ Hid eq_refl) as (E1 & E2 & Hr).
    destruct (decode_banks c (0x100 + 4 * (id / 32))) as (-> & _); [f_equal; [exact E1|exact E2]|lia].
  - destruct (dec_word c id 0x180 _ Hid eq_refl) as (E1 & E2 & Hr).
    destruct (decode_banks c (0x180 + 4 * (id / 32))) as (_ & -> & _); [f_equal; [exact E1|exact E2]|lia].
  - destruct (dec_word c id 0x200 _ Hid eq_refl) as (E1 & E2 & Hr).
    destruct (decode_banks c (0x200 + 4 * (id / 32))) as (_ & _ & -> & _); [f_equal; [exact E1|exact E2]|lia].
  - destruct (dec_word c id 0x280 _ Hid eq_refl) as (E1 & E2 & Hr).
    destruct (decode_banks c (0x280 + 4 * (id / 32))) as (_ & _ & _ & ->); [f_equal; [exact E1|exact E2]|lia].
Qed.

Lemma decode_gicd_prio (c id : Z) : 0 <= id <= MAX_SPI_ID →
  decode_gicd c (0x400 + id) = RPrio (key c id).1 id.
Proof.
  unfold MAX_SPI_ID, key, MIN_SPI_ID. intros Hid. unfold decode_gicd. cbn [fst].
  replace (0x400 + id - 0x400) with id by lia. by bank.
Qed.

Lemma decodes2 : decodes decode2 soft_plat (gicv2_map GICD).
Proof.
  split; cbn [gicv2_map rm_acc rm_isenabler rm_icenabler rm_ispendr rm_icpendr rm_prio rm_cfg rm_target];
    unfold decode2, GICD_ISENABLER, GICD_ICENABLER, GICD_ISPENDR, GICD_ICPENDR, GICD_IPRIORITYR,
      GICD_ICFGR, GICD_ITARGETSR.
  1-4: intros c core id _ Hid ->; rewrite <- Z.add_assoc, Z.add_simpl_l;
    destruct (decode_gicd_words core id Hid) as (E1 & E2 & E3 & E4); done.
  - intros c core id _ Hid ->. rewrite <- Z.add_assoc, Z.add_simpl_l. by apply decode_gicd_prio.
  - intros c core _ ->. rewrite <- Z.add_assoc, Z.add_simpl_l. done.
  - intros c id Hid. unfold MIN_SPI_ID, MAX_SPI_ID in Hid. rewrite <- Z.add_assoc, Z.add_simpl_l.
    unfold decode_gicd. replace (0x800 + id - 0x800) with id by lia. by bank.
Qed.

(** A register of the redistributor of [core] *)
Lemma decode3_rdist (c core off : Z) : 0 <= core → 0 <= off < 0x20000 →
  decode3 c (soft_rdist core + off) = decode_gicr core off.
Proof.
  intros Hc Ho. unfold decode3, soft_rdist.
  rewrite (proj2 (Z.leb_le _ _)) by lia.
  replace (GICR + core * 0x20000 + off - GICR) with (off + core * 0x20000) by lia.
  by rewrite Z.div_add, Z.mod_add, Z.div_small, Z.mod_small by lia.
Qed.

Lemma decode3_gicd (c off : Z) : off < GICR - GICD → decode3 c (GICD + off) = decode_gicd c off.
Proof.
  intros Ho. unfold decode3. rewrite (proj2 (Z.leb_gt _ _)) by lia. by rewrite Z.add_simpl_l.
Qed.

Lemma decodes3 : decodes decode3 soft_plat (gicv3_map GICD soft_rdist).
Proof.
  assert (∀ id, 0 <= id <= MAX_SPI_ID → id / 32 <= 31) as Hd.
  { unfold MAX_SPI_ID. intros id Hid. apply Z.lt_succ_r, Z.div_lt_upper_bound; lia. }
  assert (∀ core id, 0 <= id → id < MIN_SPI_ID → (key core id).1 = core ∧ id / 32 = 0) as Hp.
  { unfold key, MIN_SPI_ID. intros core id H0 H. cbn [fst]. rewrite (proj2 (Z.ltb_lt id 32)) by lia.
    by rewrite Z.div_small by lia. }
  assert (∀ c core id, MIN_SPI_ID <= id → (key c id).1 = (key core id).1) as Hk.
  { unfold key, MIN_SPI_ID. intros c core id H. cbn [fst]. by rewrite (proj2 (Z.ltb_ge id 32)) by lia. }
  split; cbn [gicv3_map rm_acc rm_isenabler rm_icenabler rm_ispendr rm_icpendr rm_prio rm_cfg rm_target].
  1-4: intros c core id [Hc _] Hid _; specialize (Hd id Hid);
    unfold GICD_ISENABLER, GICD_ICENABLER, GICD_ISPENDR, GICD_ICPENDR;
    destruct (Z.ltb_spec id MIN_SPI_ID) as [Hlt|Hge];
    [ destruct (Hp core id ltac:(lia) Hlt) as [-> ->]; by rewrite decode3_rdist by (done || lia)
    | rewrite <- Z.add_assoc, decode3_gicd by (unfold GICR, GICD; lia); rewrite <- (Hk c core id Hge);
      by apply decode_gicd_words ].
  - intros c core id [Hc _] Hid _. destruct (Z.ltb_spec id MIN_SPI_ID) as [Hlt|Hge].
    + destruct (Hp core id ltac:(lia) Hlt) as [-> _]. unfold MIN_SPI_ID in Hlt.
      change GICR_IPRIORITYR with 0x10400. rewrite <- Z.add_assoc, decode3_rdist by lia.
      unfold decode_gicr. replace (0x10400 + id - 0x10400) with id by lia. by bank.
    + unfold GICD_IPRIORITYR, MAX_SPI_ID in *. rewrite <- Z.add_assoc, decode3_gicd by (unfold GICR, GICD; lia).
      rewrite <- (Hk c core id Hge). apply decode_gicd_prio. unfold MAX_SPI_ID. lia.
  - intros c core [Hc _] _. by rewrite decode3_rdist by (done || lia).
  - intros c id Hid. unfold MIN_SPI_ID, MAX_SPI_ID, GICD_IROUTER in *.
    rewrite <- Z.add_assoc, decode3_gicd by (unfold GICR, GICD; lia). unfold decode_gicd.
    replace (0x6000 + 8 * id - 0x6000) with (id * 8) by lia. rewrite Z.div_mul by lia. by bank.
Qed.

(** ** The drivers on these controllers *)

Definition idle_view : gview :=
  {| g_enabled _ := false; g_pending _ := false; g_prio k := 0xa0; g_target _ := 0; g_cfg _ := 0 |}.
Definition idle (waiting : list Z) : soft :=
  {| soft_view := idle_view; soft_waiting := waiting; soft_ended := []; soft_sgis := [] |}.

(** After the set-up of all cores *)
Definition state2 : gic_state soft :=
  {| v2 := {| pcpu_gic_ctx := replicate 4 zero_ctx2; gicc_base_addr := 0x1010000;
              gicv2_gicd_base_addr := GICD; gic_cpu_id := [0; 1; 2; 3] |};
     v3 := gicv3_static soft_plat; v5 := gicv5_static soft_plat; descs := descs_static soft_plat;
     gicv3_detected := false; gicv5_detected := false; gic_done_init := true;
     shared_irq_lock := false; dev := idle [] |}.

Definition state3_vars : gicv3_vars :=
  {| gicr_frames := Some [GICR; 0]; gicv3_gicd_base_addr := GICD; pcpu_ctx := replicate 4 zero_ctx3;
     rdist_pcpu_base := [soft_rdist 0; soft_rdist 1; soft_rdist 2; soft_rdist 3];
     mpidr_list := [0; 1; 2; 3] |}.
Definition state3 (waiting : list Z) : gic_state soft :=
  {| v2 := gicv2_static soft_plat; v3 := state3_vars; v5 := gicv5_static soft_plat;
     descs := descs_static soft_plat; gicv3_detected := true; gicv5_detected := false;
     gic_done_init := true; shared_irq_lock := false; dev := idle waiting |}.

#[local] Instance hw2 : GicHw soft | 10 := soft_hw decode2.
#[local] Instance ok2 : GicOk soft (GicHw0 := hw2) (core_ok soft_plat) (gicv2_map GICD) :=
  soft_ok decode2 soft_plat _ decodes2.
#[local] Instance hw3 : GicHw soft | 5 := soft_hw decode3.
#[local] Instance ok3 : GicOk soft (GicHw0 := hw3) (core_ok soft_plat) (gicv3_map GICD soft_rdist) :=
  soft_ok decode3 soft_plat _ decodes3.

Lemma state2_ready : ready soft_plat state2 1 (gicv2_map GICD) (2 ^ 1).
Proof.
  apply (Ready2 _ _ _ GICD 1).
  split; try done; unfold GICD, core_ok; cbn [soft_plat PLATFORM_CORE_COUNT]; unfold CORES; lia.
Qed.

Lemma state3_ready (waiting : list Z) :
  ready soft_plat (state3 waiting) 1 (gicv3_map GICD soft_rdist) 1.
Proof.
  apply (Ready3 _ _ _ GICD soft_rdist 1).
  split; try done; unfold soft_rdist, GICR, GICD, UINT64_MAX, core_ok;
    cbn [soft_plat PLATFORM_CORE_COUNT]; unfold CORES; lia.
Qed.

Lemma state3_known : rdists_known soft_plat soft_rdist 1 (state3 []).
Proof.
  assert (∀ core, core_ok soft_plat core → core = 0 ∨ core = 1 ∨ core = 2 ∨ core = 3) as Hc.
  { unfold core_ok. cbn [soft_plat PLATFORM_CORE_COUNT]. unfold CORES. lia. }
  split_and!; [done| |].
  - unfold core_ok. cbn [soft_plat PLATFORM_CORE_COUNT]. unfold CORES. lia.
  - intros core Hok _. unfold soft_rdist, GICR.
    destruct (Hc core Hok) as [-> | [-> | [-> | ->]]]; split_and!; reflexivity || lia.
Qed.

Lemma irq_enable_disable_witness :
  ∃ d1 d2, tftf_irq_enable soft_plat 1 42 0x80 (state3 []) = Ok (tt, set_dev (state3 []) d1)
    ∧ arm_gic_intr_enabled 1 42 (set_dev (state3 []) d1) = Ok (true, set_dev (state3 []) d1)
    ∧ tftf_irq_disable 1 42 (set_dev (state3 []) d1) = Ok (tt, set_dev (state3 []) d2)
    ∧ arm_gic_intr_enabled 1 42 (set_dev (state3 []) d2) = Ok (false, set_dev (state3 []) d2).
Proof.
  destruct (irq_enable_disable soft_plat (gicv3_map GICD soft_rdist) (state3 []) 1 1 42 0x80)
    as (d1 & d2 & H1 & _ & H2 & H3 & _ & _ & H4).
  - apply state3_ready.
  - unfold MAX_SPI_ID. lia.
  - lia.
  - exists d1, d2. exact (conj H1 (conj H2 (conj H3 H4))).
Defined.

Lemma gicv3_context_witness :
  ∃ s1, gicv3_save_sgi_ppi_context soft_plat 1 (state3 []) = Ok (tt, s1) ∧ dev s1 = idle [].
Proof.
  destruct (gicv3_context_roundtrip soft_plat GICD soft_rdist (state3 []) 1 state3_known)
    as (s1 & H1 & H2 & _).
  exists s1. exact (conj H1 H2).
Defined.

Lemma priority_readback_witness :
  arm_gic_get_intr_priority (GicHw0 := hw2) 1 42 state2
  = Ok (g_prio (view (GicOk := ok2) (dev state2)) (key 1 40), state2).
Proof.
  apply (priority_readback (GicHw0 := hw2) soft_plat (gicv2_map GICD) state2 1 (2 ^ 1) 42).
  - apply state2_ready.
  - unfold MAX_SPI_ID. lia.
Defined.

Lemma send_sgi_witness :
  ∃ v, tftf_send_sgi soft_plat 1 (λ _, true) 7 3 (state3 [])
    = Ok (tt, set_dev (state3 []) (hw_msr 1 ICC_SGI1R v (idle []))) ∧ sgi1r_intid v = 7.
Proof.
  destruct (send_sgi_reaches soft_plat (state3 []) 1 7 3 3 (λ _, true)) as (v & H1 & H2 & _);
    try reflexivity.
  - lia.
  - unfold UINT64_MAX. lia.
  - exists v. exact (conj H1 H2).
Defined.

(** A GICv3 whose cores other than the first have not been set up *)
Definition fresh3 : gic_state soft :=
  set_v3 (state3 []) {| gicr_frames := Some [GICR; 0]; gicv3_gicd_base_addr := GICD;
    pcpu_ctx := replicate 4 zero_ctx3; rdist_pcpu_base := [soft_rdist 0; 0; 0; 0];
    mpidr_list := [0; 0; 0; 0] |}.

Lemma sgi_unprobed_witness :
  ∃ v, tftf_send_sgi soft_plat 0 (λ _, true) 7 3 fresh3
    = Ok (tt, set_dev fresh3 (hw_msr 0 ICC_SGI1R v (dev fresh3)))
    ∧ (sgi1r_reaches v 0 ↔ same_affinity 0 0).
Proof.
  destruct (sgi_unprobed_core soft_plat fresh3 0 7 3 (λ _, true)) as (v & H1 & H2); try reflexivity.
  - lia.
  - cbn [soft_plat PLATFORM_CORE_COUNT]. unfold CORES. lia.
  - exists v. exact (conj H1 (H2 0)).
Defined.

Lemma soft_frame : rdists 2 (dev fresh3) GICR [0; 1; 2; 3].
Proof.
  assert (∀ core, 0 <= core < 4 → hw_read 2 8 (GICR + core * 0x20000 + GICR_TYPER) (dev fresh3)
    = (core * 2 ^ 32 + (if core =? 3 then 16 else 0), dev fresh3)) as Hrd.
  { intros core Hc. unfold hw_read, hw3, soft_hw, soft_read. fold (soft_rdist core).
    by rewrite decode3_rdist by (unfold GICR_TYPER; lia). }
  pose proof (Hrd 0 ltac:(lia)). pose proof (Hrd 1 ltac:(lia)). pose proof (Hrd 2 ltac:(lia)).
  pose proof (Hrd 3 ltac:(lia)).
  apply (rdists_more 2 _ GICR (0 * 2 ^ 32)); [unfold GICR; lia..|done|lia|done|].
  apply (rdists_more 2 _ (GICR + 0x20000) (1 * 2 ^ 32)); [unfold GICR; lia..|done|lia|done|].
  apply (rdists_more 2 _ (GICR + 0x20000 + 0x20000) (2 * 2 ^ 32)); [unfold GICR; lia..|done|lia|done|].
  apply (rdists_last 2 _ (GICR + 0x20000 + 0x20000 + 0x20000) (3 * 2 ^ 32 + 16));
    [unfold GICR; lia..|done|lia|done].
Qed.

Lemma probe_redistributor_witness :
  gicv3_probe_redistif_addr soft_plat 2 4 fresh3
  = Ok (tt, set_v3 fresh3 (rdist_found 2 (v3 fresh3) (soft_rdist 2) 2)).
Proof.
  apply (probe_redistributor soft_plat 2 fresh3 4 [(GICR, [0; 1; 2; 3])] [] 0); try reflexivity.
  intros f Hf. apply list_elem_of_singleton in Hf. subst f. split; [exact soft_frame|cbn; lia].
Defined.

(** Core 1 registers a handler for its timer interrupt, core 2 for its own and
    for a shared interrupt; core 1 unregisters. *)
Definition some_ops : list irq_op :=
  [Register 1 30 5; Register 2 30 6; Register 2 42 7; Unregister 1 30].

Lemma handlers_refine_witness :
  ∃ s', (gicv2v3_irq_setup soft_plat;; run_ops soft_plat some_ops) (state3 []) = Ok (tt, s')
    ∧ holds soft_plat s' (delete (1, 30) (<[(-1, 42) := 7]> (<[(2, 30) := 6]> (<[(1, 30) := 5]> ∅)))).
Proof.
  destruct (handlers_refine soft_plat some_ops (state3 [])) as (s' & H1 & H2 & _); try reflexivity.
  - unfold some_ops, op_ok, core_ok, managed. cbn [soft_plat PLATFORM_CORE_COUNT].
    unfold CORES, MIN_SPI_ID. repeat constructor; first [lia|right; left; reflexivity|left; lia].
  - exists s'. exact (conj H1 H2).
Defined.

Lemma boot_holds (waiting : list Z) : holds soft_plat (state3 waiting) ∅.
Proof.
  destruct (setup_holds soft_plat (state3 waiting)) as (s' & H1 & H2 & _); try reflexivity.
  injection H1 as <-. exact H2.
Qed.

Lemma dispatch_runs_handler_witness :
  tftf_irq_handler_dispatcher soft_plat 1 (λ _ _, mret 9) (state3 [42])
  = Ok (0, set_dev (state3 [42]) (hw_msr 1 ICC_EOIR1_EL1 42 (idle []))).
Proof.
  apply (dispatch_runs_handler soft_plat (λ _ _, mret 9) (state3 [42]) (set_dev (state3 [42]) (idle []))
    ∅ 1 42 0 (idle [])).
  - apply boot_holds.
  - unfold core_ok. cbn [soft_plat PLATFORM_CORE_COUNT]. unfold CORES. lia.
  - unfold ack_reads. cbn [gicv3_detected state3]. split; [reflexivity|lia].
  - right. left. reflexivity.
  - rewrite lookup_empty. split; reflexivity.
Defined.

Definition state5 : gic_state soft := set_detected (gic_boot soft_plat (idle [])) false true true.

Lemma gicv5_sgi_witness :
  ∃ s1 num x, gicv5_init soft_plat GICD state5 = Ok (tt, s1)
    ∧ arm_gic_get_sgi_num 3 2 s1 = Ok (num, s1)
    ∧ arm_gic_get_irq_handler soft_plat 1 num s1 = Ok (x, s1).
Proof.
  destruct (gicv5_sgi_handlers soft_plat state5 GICD 1 3 2) as (s1 & num & x & H1 & H2 & H3 & _).
  - reflexivity.
  - unfold IRQ_NUM_SGIS. lia.
  - unfold core_ok. cbn [soft_plat PLATFORM_CORE_COUNT]. unfold CORES. lia.
  - cbn [soft_plat PLATFORM_CORE_COUNT]. unfold CORES, IRQ_NUM_SGIS. lia.
  - exists s1, num, x. exact (conj H1 (conj H2 H3)).
Defined.

Lemma gicv5_ppi_priority_witness :
  ∃ w, gicv5_set_priority 1 (INT_PPI * 2 ^ 29 + (8 * 3 + 2)) 9 state5
    = Ok (tt, set_dev state5 (hw_msr 1 (ICC_PPI_PRIORITYR 3) w (idle [])))
    ∧ ∀ j, 0 <= j < 8 → byte_of w j = if j =? 2 then Z.lor (byte_of 0 2) 9 else 0.
Proof.
  apply (gicv5_ppi_priority 1 3 2 9 0 state5); lia || reflexivity.
Defined.
