(* ===== verification/FuzzMalloc.v ===== *)
(** * The allocator of the SMC fuzzing module (smc_fuzz/src/smcmalloc.c)

    A pool of memory whose first quarter holds the table of free blocks.  A
    block is named by its index in the table, which is what a [struct memblk *]
    is; an address is an offset into the rest of the pool.  Each allocation has
    an entry in parallel arrays, with the free blocks right before and after
    it.  The build has no DEBUG_SMC_MALLOC. *)

From S2P Require Import Prelude.

Local Open Scope Z_scope.

Definition TOTALMEMORYSIZE : Z := 0x10000.
Definition BLKSPACEDIV : Z := 4.
Definition TOPBITSIZE : Z := 20.

(** [(TOTALMEMORYSIZE / BLKSPACEDIV) / sizeof(struct memblk)] *)
Definition MAXBLKS : Z := TOTALMEMORYSIZE / BLKSPACEDIV / 12.
(** The size of what is given out *)
Definition POOL : Z := TOTALMEMORYSIZE - TOTALMEMORYSIZE / BLKSPACEDIV.

Record memblk := {
  address : Z;
  size : Z;
  valid : Z;
}.

(** [memory] is the table of blocks at its start. *)
Record memmod := {
  memory : list memblk;
  nmemblk : Z;
  maxmemblk : Z;
  memptrend : Z;
  mallocdeladd : list Z;
  precblock : list (option Z);
  trailblock : list (option Z);
  memblkqueue : list Z;
  memallocsize : list Z;
  mallocdeladd_valid : list Z;
  mallocdeladd_queue : list Z;
  cntdeladd : Z;
  ptrmemblkqueue : Z;
  mallocdeladd_queue_cnt : Z;
  memerror : Z;
}.

(** The arrays of the entries, and the table and its queue *)
Definition set_entries (s : memmod) (add : list Z) (prec trail : list (option Z))
    (sz val : list Z) : memmod :=
  {| memory := memory s; nmemblk := nmemblk s; maxmemblk := maxmemblk s;
     memptrend := memptrend s; mallocdeladd := add; precblock := prec; trailblock := trail;
     memblkqueue := memblkqueue s; memallocsize := sz; mallocdeladd_valid := val;
     mallocdeladd_queue := mallocdeladd_queue s; cntdeladd := cntdeladd s;
     ptrmemblkqueue := ptrmemblkqueue s; mallocdeladd_queue_cnt := mallocdeladd_queue_cnt s;
     memerror := memerror s |}.
Definition set_blocks (s : memmod) (mem : list memblk) (q : list Z) (ptr : Z) : memmod :=
  {| memory := mem; nmemblk := nmemblk s; maxmemblk := maxmemblk s;
     memptrend := memptrend s; mallocdeladd := mallocdeladd s; precblock := precblock s;
     trailblock := trailblock s; memblkqueue := q; memallocsize := memallocsize s;
     mallocdeladd_valid := mallocdeladd_valid s; mallocdeladd_queue := mallocdeladd_queue s;
     cntdeladd := cntdeladd s; ptrmemblkqueue := ptr;
     mallocdeladd_queue_cnt := mallocdeladd_queue_cnt s; memerror := memerror s |}.
Definition set_reuse (s : memmod) (q : list Z) (cnt : Z) : memmod :=
  {| memory := memory s; nmemblk := nmemblk s; maxmemblk := maxmemblk s;
     memptrend := memptrend s; mallocdeladd := mallocdeladd s; precblock := precblock s;
     trailblock := trailblock s; memblkqueue := memblkqueue s; memallocsize := memallocsize s;
     mallocdeladd_valid := mallocdeladd_valid s; mallocdeladd_queue := q;
     cntdeladd := cntdeladd s; ptrmemblkqueue := ptrmemblkqueue s;
     mallocdeladd_queue_cnt := cnt; memerror := memerror s |}.
Definition set_counts (s : memmod) (n last cnt err : Z) : memmod :=
  {| memory := memory s; nmemblk := n; maxmemblk := maxmemblk s;
     memptrend := last; mallocdeladd := mallocdeladd s; precblock := precblock s;
     trailblock := trailblock s; memblkqueue := memblkqueue s; memallocsize := memallocsize s;
     mallocdeladd_valid := mallocdeladd_valid s; mallocdeladd_queue := mallocdeladd_queue s;
     cntdeladd := cnt; ptrmemblkqueue := ptrmemblkqueue s;
     mallocdeladd_queue_cnt := mallocdeladd_queue_cnt s; memerror := err |}.

Abbreviation H := (M memmod).

(** ** The priority encoder *)

Record peret := { tbit : Z; pow2 : Z }.

(** The loop from bit [n] down to bit 1: the top bit and how many are set *)
Fixpoint pe_loop (n : nat) (num topbit cntbit : Z) : Z * Z :=
  match n with
  | O => (topbit, cntbit)
  | S n' =>
      let i := Z.of_nat n in
      if Z.land (Z.shiftr num i) 1 =? 1
      then pe_loop n' num (if topbit <? i then i else topbit) (cntbit + 1)
      else pe_loop n' num topbit cntbit
  end.

Definition priorityencoder (num : Z) : peret :=
  let r := pe_loop (Z.to_nat TOPBITSIZE) num 0 0 in
  let cntbit := if Z.land num 1 =? 1 then r.2 + 1 else r.2 in
  {| tbit := r.1; pow2 := if cntbit =? 1 then 1 else 0 |}.

(** ** Accesses through pointers *)

Definition get_block (i : Z) : H memblk := s ← get; aget (memory s) i.
Definition put_block (i : Z) (b : memblk) : H unit :=
  s ← get;
  l ← aset (memory s) i b;
  put (set_blocks s l (memblkqueue s) (ptrmemblkqueue s)).
Definition deref {S A} (p : option A) : M S A :=
  match p with Some x => mret x | None => fail OutOfBounds end.

Definition put_prec (e b : Z) : H unit :=
  s ← get;
  l ← aset (precblock s) e (Some b);
  put (set_entries s (mallocdeladd s) l (trailblock s) (memallocsize s) (mallocdeladd_valid s)).
Definition put_trail (e b : Z) : H unit :=
  s ← get;
  l ← aset (trailblock s) e (Some b);
  put (set_entries s (mallocdeladd s) (precblock s) l (memallocsize s) (mallocdeladd_valid s)).
Definition put_add (e a : Z) : H unit :=
  s ← get;
  l ← aset (mallocdeladd s) e a;
  put (set_entries s l (precblock s) (trailblock s) (memallocsize s) (mallocdeladd_valid s)).
Definition put_size (e n : Z) : H unit :=
  s ← get;
  l ← aset (memallocsize s) e n;
  put (set_entries s (mallocdeladd s) (precblock s) (trailblock s) l (mallocdeladd_valid s)).
Definition put_valid (e v : Z) : H unit :=
  s ← get;
  l ← aset (mallocdeladd_valid s) e v;
  put (set_entries s (mallocdeladd s) (precblock s) (trailblock s) (memallocsize s) l).

(** [memblkqueue[ptrmemblkqueue] = b; ptrmemblkqueue++], with what is done when
    the queue is full *)
Definition retire_block (full : H unit) (b : Z) : H unit :=
  s ← get;
  q ← aset (memblkqueue s) (ptrmemblkqueue s) b;
  put (set_blocks s (memory s) q (u32 (ptrmemblkqueue s + 1)));;
  s ← get;
  if maxmemblk s <=? ptrmemblkqueue s then full else mret tt.

(** The loop that makes entries next to a new block point to it; [size_of j] is
    the size the code takes for entry [j]. *)
Fixpoint retarget (size_of : Z → H Z) (fadd newblk : Z) (n : nat) (j : Z) : H unit :=
  match n with
  | O => mret tt
  | S n' =>
      s ← get;
      a ← aget (mallocdeladd s) j;
      v ← aget (mallocdeladd_valid s) j;
      (if (fadd =? a) && (v =? 1) then put_prec j newblk else mret tt);;
      sz ← size_of j;
      (if (fadd =? u32 (a + sz)) && (v =? 1) then put_trail j newblk else mret tt);;
      retarget size_of fadd newblk n' (j + 1)
  end.

(** The loop that retires empty blocks right after the block entry [e] is
    followed by *)
Fixpoint retire_empty (full : H unit) (e : Z) (n : nat) (j : Z) : H unit :=
  match n with
  | O => mret tt
  | S n' =>
      b ← get_block j;
      (if valid b =? 1 then
         s ← get;
         t ← aget (trailblock s) e;
         t ← deref t;
         tb ← get_block t;
         if (u32 (address tb + size tb) =? address b) && (size b =? 0) && negb (size tb =? 0)
         then put_block j {| address := address b; size := size b; valid := 0 |};;
              retire_block full j
         else mret tt
       else mret tt);;
      retire_empty full e n' (j + 1)
  end.

(** ** smcmalloc() *)

(** The entry to use, and whether it is a new one *)
Definition take_entry : H (Z * bool) :=
  s ← get;
  if 0 <? mallocdeladd_queue_cnt s then
    let cnt := mallocdeladd_queue_cnt s - 1 in
    put (set_reuse s (mallocdeladd_queue s) cnt);;
    pos ← aget (mallocdeladd_queue s) cnt;
    mret (pos, false)
  else mret (cntdeladd s, true).

(** The block to use, and whether it is a new one *)
Definition take_block : H (Z * bool) :=
  s ← get;
  if 0 <? ptrmemblkqueue s then
    b ← aget (memblkqueue s) (ptrmemblkqueue s - 1);
    put (set_blocks s (memory s) (memblkqueue s) (ptrmemblkqueue s - 1));;
    mret (b, false)
  else mret (memptrend s + 1, true).

Definition queue_full : H unit :=
  s ← get; put (set_counts s (nmemblk s) (memptrend s) (cntdeladd s) 1).

Definition entry_size (j : Z) : H Z := s ← get; aget (memallocsize s) j.

(** The block [i] starts at an aligned address: its first [rsize] bytes are
    taken, and an empty block goes before them. *)
Definition malloc_front (i pos rsize : Z) : H bool :=
  r ← take_block;
  let newblk := r.1 in
  b ← get_block i;
  put_block newblk {| address := address b; size := 0; valid := 1 |};;
  put_prec pos newblk;;
  s ← get;
  retarget entry_size (address b) newblk (Z.to_nat (cntdeladd s)) 0;;
  b ← get_block i;
  put_add pos (address b);;
  put_size pos rsize;;
  put_block i {| address := u32 (address b + rsize); size := u32 (size b - rsize);
                 valid := valid b |};;
  put_trail pos i;;
  put_valid pos 1;;
  s ← get;
  retire_empty queue_full pos (Z.to_nat (nmemblk s)) 0;;
  mret r.2.

(** Otherwise the first [gap] bytes stay free, and what follows the allocation
    is a new block. *)
Definition malloc_inside (i pos rsize gap : Z) : H bool :=
  b ← get_block i;
  let nblksize := u32 (size b - rsize - gap) in
  r ← take_block;
  let newblk := r.1 in
  let nadd := u32 (address b + gap + rsize) in
  put_block newblk {| address := nadd; size := nblksize; valid := 1 |};;
  put_trail pos newblk;;
  s ← get;
  retarget entry_size (u32 (nadd + nblksize)) newblk (Z.to_nat (cntdeladd s)) 0;;
  put_size pos rsize;;
  b ← get_block i;
  put_block i {| address := address b; size := gap; valid := valid b |};;
  put_add pos (u32 (address b + gap));;
  put_prec pos i;;
  put_valid pos 1;;
  mret r.2.

(** The search through the blocks: the entry of the allocation, and whether a
    block was added to the table *)
Fixpoint malloc_loop (rsize alignnum : Z) (n : nat) (i : Z) : H (option (Z * bool)) :=
  match n with
  | O => mret None
  | S n' =>
      b ← get_block i;
      let modval := address b mod alignnum in
      let aladd := if modval =? 0 then 0 else alignnum - modval in
      if (rsize <=? u32 (size b - aladd)) && (aladd <? size b) && (valid b =? 1) then
        e ← take_entry;
        let pos := e.1 in
        grown ← (if modval =? 0 then malloc_front i pos rsize
                 else malloc_inside i pos rsize (alignnum - modval));
        (if e.2 : bool then
           s ← get;
           let cnt := u32 (cntdeladd s + 1) in
           put (set_counts s (nmemblk s) (memptrend s) cnt
                  (if maxmemblk s <=? cnt then 2 else memerror s))
         else mret tt);;
        mret (Some (pos, grown))
      else malloc_loop rsize alignnum n' (i + 1)
  end.

(** The result is the offset of the allocation in [memory]. *)
Definition smcmalloc (rsize : Z) : H Z :=
  let rsize := if rsize <? 16 then 16 else rsize in
  let prt := priorityencoder rsize in
  let alignnum := if pow2 prt =? 1 then u32 (Z.shiftl 1 (tbit prt))
                  else u32 (Z.shiftl 1 (tbit prt + 1)) in
  s ← get;
  r ← malloc_loop rsize alignnum (Z.to_nat (nmemblk s)) 0;
  (match r with
   | Some (_, true) =>
       s ← get;
       let n := u32 (nmemblk s + 1) in
       put (set_counts s n (memptrend s + 1) (cntdeladd s)
              (if MAXBLKS <=? n then 3 else memerror s))
   | _ => mret tt
   end);;
  (match r with
   | None => s ← get; put (set_counts s (nmemblk s) (memptrend s) (cntdeladd s) 4)
   | Some _ => mret tt
   end);;
  s ← get;
  a ← aget (mallocdeladd s) (match r with Some (pos, _) => pos | None => 0 end);
  mret (TOTALMEMORYSIZE / BLKSPACEDIV + a).

(** ** smcfree() *)

(** Merging an allocation with the blocks around it; the block that results *)
Definition merge (i fadd : Z) : H (option Z) :=
  s ← get;
  t ← aget (trailblock s) i;
  match t with
  | None => mret None
  | Some t =>
      p ← aget (precblock s) i;
      p ← deref p;
      pb ← get_block p;
      if u32 (address pb + size pb) =? fadd then
        sz ← aget (memallocsize s) i;
        tb ← get_block t;
        put_block p {| address := address pb; size := u32 (size pb + u32 (sz + size tb));
                       valid := valid pb |};;
        retire_block (fail PanicCall) t;;
        tb ← get_block t;
        put_block t {| address := address tb; size := size tb; valid := 0 |};;
        s ← get;
        retire_empty (fail PanicCall) i (Z.to_nat (nmemblk s)) 0;;
        mret (Some p)
      else mret None
  end.

(** The loop over the entries; [newblk] keeps its value from one match to the
    next. *)
Fixpoint free_loop (fadd : Z) (newblk : option Z) (found : bool) (n : nat) (i : Z) : H bool :=
  match n with
  | O => mret found
  | S n' =>
      s ← get;
      a ← aget (mallocdeladd s) i;
      v ← aget (mallocdeladd_valid s) i;
      if (fadd =? a) && (v =? 1) then
        r ← merge i fadd;
        let newblk := match r with Some p => Some p | None => newblk end in
        put_valid i 0;;
        s ← get;
        q ← aset (mallocdeladd_queue s) (mallocdeladd_queue_cnt s) i;
        put (set_reuse s q (u32 (mallocdeladd_queue_cnt s + 1)));;
        s ← get;
        (if maxmemblk s <=? mallocdeladd_queue_cnt s then fail PanicCall else mret tt);;
        nb ← deref newblk;
        b ← get_block nb;
        retarget (λ _, entry_size i) (u32 (address b + size b)) nb (Z.to_nat (cntdeladd s)) 0;;
        free_loop fadd newblk true n' (i + 1)
      else free_loop fadd newblk found n' (i + 1)
  end.

(** [ptr] is an offset in [memory], as [smcmalloc()] returns it. *)
Definition smcfree (ptr : Z) : H Z :=
  let fadd := u32 (ptr - TOTALMEMORYSIZE / BLKSPACEDIV) in
  s ← get;
  found ← free_loop fadd None false (Z.to_nat (cntdeladd s)) 0;
  if found : bool then mret 0 else fail PanicCall.

(** The set-up of the pool in [init_smc_fuzzing()] *)
Definition init_mem : memmod :=
  let n := Z.to_nat MAXBLKS in
  {| memory := {| address := 0; size := POOL; valid := 1 |}
               :: replicate (Nat.pred n) {| address := 0; size := 0; valid := 0 |};
     nmemblk := 1; maxmemblk := MAXBLKS; memptrend := 0;
     mallocdeladd := replicate n 0;
     precblock := Some 0 :: replicate (Nat.pred n) None;
     trailblock := replicate n None;
     memblkqueue := replicate n 0; memallocsize := replicate n 0;
     mallocdeladd_valid := replicate n 0; mallocdeladd_queue := replicate n 0;
     cntdeladd := 0; ptrmemblkqueue := 0; mallocdeladd_queue_cnt := 0; memerror := 0 |}.
