(* ===== verification/FuzzHeap.v ===== *)
(** * The allocator of the SMC fuzzing module: what it keeps

    The pool is a chain: a free block, an allocation, a free block, and so on up
    to the end of the pool.  [smcmalloc()] splits a free block, [smcfree()]
    merges two with the allocation between them; both keep the chain. *)

From S2P Require Import Prelude FuzzMalloc.

Local Open Scope Z_scope.

(** A free block, and a live entry: its address, size, the block before and the
    block after it *)
Definition blocks : Type := Z → option (Z * Z).
Definition entries : Type := Z → option (Z * Z * Z * Z).

Inductive chain (B : blocks) (E : entries) : Z → Z → list (Z * Z) → Prop :=
| chain_last (a f s : Z) : B f = Some (a, s) → 0 <= s → a + s = POOL → chain B E a f []
| chain_step (a f s e n t : Z) (l : list (Z * Z)) :
    B f = Some (a, s) → 0 <= s → E e = Some (a + s, n, f, t) → 0 < n →
    chain B E (a + s + n) t l → chain B E a f ((e, t) :: l).

(** The blocks and the entries of a chain *)
Definition frees (f : Z) (l : list (Z * Z)) : list Z := f :: l.*2.
Definition ents (l : list (Z * Z)) : list Z := l.*1.

Lemma chain_head (B : blocks) (E : entries) (a f : Z) (l : list (Z * Z)) :
  chain B E a f l → ∃ s, B f = Some (a, s) ∧ 0 <= s ∧ a + s <= POOL.
Proof.
  induction 1 as [a f s Hf Hs He|a f s e n t l Hf Hs Ht Hn _ (s' & _ & Hs' & Hle)].
  - exists s. split_and!; done || lia.
  - exists s. split_and!; done || lia.
Qed.

(** Where the blocks and entries of a chain lie *)
Lemma chain_blocks (B : blocks) (E : entries) (a f : Z) (l : list (Z * Z)) (i b s : Z) :
  chain B E a f l → i ∈ frees f l → B i = Some (b, s) →
  a <= b ∧ b + s <= POOL ∧ 0 <= s ∧ (i ≠ f → a < b).
Proof.
  intros Hc. induction Hc as [a f s' Hf Hs He|a f s' e n t l Hf Hs He Hn Hc IH]; intros Hi Hb.
  - apply list_elem_of_singleton in Hi as ->. rewrite Hf in Hb. simplify_eq. lia.
  - destruct (chain_head _ _ _ _ _ Hc) as (st & _ & Hst & Hle).
    apply elem_of_cons in Hi as [->|Hi].
    + rewrite Hf in Hb. simplify_eq. lia.
    + destruct (IH Hi Hb) as (H1 & H2 & H3 & _). lia.
Qed.

Lemma chain_entries (B : blocks) (E : entries) (a f : Z) (l : list (Z * Z)) (e b n p t : Z) :
  chain B E a f l → e ∈ ents l → E e = Some (b, n, p, t) →
  a <= b ∧ 0 < n ∧ b + n <= POOL ∧ p ∈ frees f l ∧ t ∈ l.*2
  ∧ (∃ s, B p = Some (b - s, s) ∧ 0 <= s) ∧ (∃ s, B t = Some (b + n, s) ∧ 0 <= s).
Proof.
  intros Hc. induction Hc as [a f s' Hf Hs He|a f s' e' n' t' l Hf Hs He Hn Hc IH]; intros Hi Hb.
  - by apply elem_of_nil in Hi.
  - destruct (chain_head _ _ _ _ _ Hc) as (st & Ht & Hst & Hle).
    unfold ents in Hi. cbn in Hi. apply elem_of_cons in Hi as [->|Hi].
    + rewrite He in Hb. simplify_eq. split_and!; try lia; try (left; done).
      * exists s'. split; [|done]. rewrite Hf. do 2 f_equal. lia.
      * exists st. done.
    + destruct (IH Hi Hb) as (H1 & H2 & H3 & H4 & H5 & H6 & H7).
      split_and!; try done; try lia; by right.
Qed.

(** The chain depends on its own blocks and entries only. *)
Lemma chain_ext (B B' : blocks) (E E' : entries) (a f : Z) (l : list (Z * Z)) :
  chain B E a f l → (∀ i, i ∈ frees f l → B' i = B i) → (∀ e, e ∈ ents l → E' e = E e) →
  chain B' E' a f l.
Proof.
  intros Hc. induction Hc as [a f s Hf Hs He|a f s e n t l Hf Hs He Hn Hc IH]; intros HB HE.
  - apply chain_last with s; [|done|done]. rewrite HB; [done|left].
  - apply chain_step with s n; try done.
    + rewrite HB; [done|left].
    + rewrite HE; [done|left].
    + apply IH; intros x Hx; [apply HB|apply HE]; by right.
Qed.

(** Live allocations do not overlap. *)
Lemma chain_disjoint (B : blocks) (E : entries) (a f : Z) (l : list (Z * Z)) (e e' b n p t b' n' p' t' : Z) :
  chain B E a f l → NoDup (ents l) → e ∈ ents l → e' ∈ ents l → e ≠ e' →
  E e = Some (b, n, p, t) → E e' = Some (b', n', p', t') → b + n <= b' ∨ b' + n' <= b.
Proof.
  intros Hc. induction Hc as [a f s Hf Hs He|a f s e0 n0 t0 l Hf Hs He0 Hn Hc IH];
    intros Hnd Hi Hi' Hne Eq Eq'.
  - by apply elem_of_nil in Hi.
  - unfold ents in *. cbn in *. apply NoDup_cons in Hnd as [Hnot Hnd].
    apply elem_of_cons in Hi as [->|Hi]; apply elem_of_cons in Hi' as [->|Hi'].
    + done.
    + rewrite He0 in Eq. simplify_eq.
      destruct (chain_entries _ _ _ _ _ _ _ _ _ _ Hc Hi' Eq') as (H1 & _). lia.
    + rewrite He0 in Eq'. simplify_eq.
      destruct (chain_entries _ _ _ _ _ _ _ _ _ _ Hc Hi Eq) as (H1 & _). lia.
    + by apply IH.
Qed.

(** ** Splitting and merging blocks *)

Definition upd {A} (f : Z → option A) (k : Z) (x : option A) : Z → option A :=
  λ i, if bool_decide (i = k) then x else f i.

Lemma upd_eq {A} (f : Z → option A) (k : Z) (x : option A) : upd f k x k = x.
Proof. unfold upd. by rewrite bool_decide_eq_true_2. Qed.
Lemma upd_ne {A} (f : Z → option A) (k i : Z) (x : option A) : i ≠ k → upd f k x i = f i.
Proof. intros H. unfold upd. by rewrite bool_decide_eq_false_2. Qed.

(** The entries with pointers to a new block: before those that start at [x],
    and after those that, with the size [sz], end there *)
Definition repoint (sz : Z → Z) (E : entries) (x nb : Z) : entries := λ e,
  match E e with
  | Some (b, n, p, t) =>
      Some (b, n, if x =? b then nb else p, if x =? b + sz n then nb else t)
  | None => None
  end.

Lemma repoint_id (sz : Z → Z) (E : entries) (x nb e b n p t : Z) :
  E e = Some (b, n, p, t) → x ≠ b → x ≠ b + sz n → repoint sz E x nb e = E e.
Proof.
  intros He Hb Ht. unfold repoint. rewrite He.
  by rewrite (proj2 (Z.eqb_neq _ _) Hb), (proj2 (Z.eqb_neq _ _) Ht).
Qed.

(** The rest of a chain is not touched by what happens before it. *)
Lemma chain_after (sz : Z → Z) (B B' : blocks) (E : entries) (x nb pos : Z) (y : option (Z * Z * Z * Z))
    (a f : Z) (l : list (Z * Z)) :
  chain B E a f l → (∀ i, i ∈ frees f l → B' i = B i) → pos ∉ ents l →
  (∀ e b n p t, e ∈ ents l → E e = Some (b, n, p, t) → x ≠ b ∧ x ≠ b + sz n) →
  chain B' (upd (repoint sz E x nb) pos y) a f l.
Proof.
  intros Hc HB Hp Hx. apply (chain_ext B B' E); [done|done|]. intros e He.
  assert (e ≠ pos) as Hne by congruence. rewrite upd_ne by done.
  assert (∃ b n p t, E e = Some (b, n, p, t)) as (b & n & p & t & Eq).
  { clear -Hc He. induction Hc as [a f s Hf Hs He'|a f s e' n' t' l Hf Hs He' Hn Hc IH].
    - by apply elem_of_nil in He.
    - apply elem_of_cons in He as [->|He]; [by eauto|by apply IH]. }
  destruct (Hx e b n p t He Eq). by eapply repoint_id.
Qed.

Section Split.

Context (B : blocks) (E : entries) (i a s rs nb pos : Z).
Context (Hi : B i = Some (a, s)) (Hrs : 0 < rs <= s).

Let B1 : blocks := upd (upd B nb (Some (a, 0))) i (Some (a + rs, s - rs)).
Let E1 : entries := upd (repoint (λ n, n) E a nb) pos (Some (a, rs, nb, i)).

(** Taking the front of block [i] *)
Lemma chain_front (a0 f0 : Z) (l : list (Z * Z)) :
  chain B E a0 f0 l → NoDup (frees f0 l) → NoDup (ents l) → i ∈ frees f0 l →
  nb ∉ frees f0 l → pos ∉ ents l →
  ∃ l', chain B1 E1 a0 (if bool_decide (f0 = i) then nb else f0) l'
    ∧ ents l' ≡ₚ pos :: ents l
    ∧ frees (if bool_decide (f0 = i) then nb else f0) l' ≡ₚ nb :: frees f0 l.
Proof.
  intros Hc. induction Hc as [a0 f s0 Hf Hs He|a0 f s0 e n t l Hf Hs He Hn Hc IH];
    intros Hnf Hne Hin Hnb Hpos.
  - apply list_elem_of_singleton in Hin as <-. rewrite Hf in Hi. simplify_eq.
    rewrite bool_decide_eq_true_2 by done. exists [(pos, i)].
    assert (nb ≠ i) as Hnbi by (intros ->; apply Hnb; left).
    split; [|by split]. apply chain_step with 0 rs; try lia.
    + unfold B1. by rewrite upd_ne, upd_eq.
    + unfold E1. by rewrite upd_eq, Z.add_0_r.
    + rewrite Z.add_0_r. apply chain_last with (s - rs); [|lia|lia]. unfold B1. by rewrite upd_eq.
  - unfold frees, ents in *. cbn in *. apply NoDup_cons in Hnf as [Hft Hnf].
    apply NoDup_cons in Hne as [Hel Hne]. apply not_elem_of_cons in Hnb as [Hnbf Hnb].
    apply not_elem_of_cons in Hpos as [Hpe Hpos].
    destruct (decide (f = i)) as [->|Hfi].
    + rewrite bool_decide_eq_true_2 by done. rewrite Hf in Hi. simplify_eq.
      exists ((pos, i) :: (e, t) :: l). split; [|by split].
      apply chain_step with 0 rs; try lia.
      * unfold B1. rewrite upd_ne, upd_eq by done. done.
      * unfold E1. by rewrite upd_eq, Z.add_0_r.
      * rewrite Z.add_0_r. apply chain_step with (s - rs) n; try lia.
        -- unfold B1. by rewrite upd_eq.
        -- unfold E1. rewrite upd_ne by done.
           erewrite repoint_id; [|exact He|lia|lia]. rewrite He. do 4 f_equal. lia.
        -- replace (a + rs + (s - rs) + n) with (a + s + n) by lia. apply (chain_after _ B).
           ++ done.
           ++ intros j Hj. unfold B1. rewrite !upd_ne; [done| |]; intros ->; by eauto.
           ++ done.
           ++ intros e' b' n' p' t' He' Eq'.
              destruct (chain_entries _ _ _ _ _ _ _ _ _ _ Hc He' Eq') as (H1 & H2 & _). lia.
    + rewrite bool_decide_eq_false_2 by done.
      apply elem_of_cons in Hin as [?|Hin]; [done|].
      destruct (IH Hnf Hne Hin Hnb Hpos) as (l' & Hc' & Hpe' & Hpf').
      exists ((e, if bool_decide (t = i) then nb else t) :: l').
      destruct (chain_blocks _ _ _ _ _ _ _ _ Hc Hin Hi) as (Hle & _ & _ & Hlt).
      split; [|split].
      * apply chain_step with s0 n; try done.
        -- unfold B1. by rewrite !upd_ne by congruence.
        -- unfold E1. rewrite upd_ne by congruence. unfold repoint. rewrite He.
           rewrite (proj2 (Z.eqb_neq a (a0 + s0))) by lia. do 2 f_equal.
           destruct (decide (t = i)) as [->|Hti].
           ++ rewrite bool_decide_eq_true_2 by done.
              destruct (chain_head _ _ _ _ _ Hc) as (s1 & Hs1 & _). rewrite Hs1 in Hi. simplify_eq.
              by rewrite Z.eqb_refl.
           ++ rewrite bool_decide_eq_false_2 by done.
              by rewrite (proj2 (Z.eqb_neq _ _)) by (specialize (Hlt ltac:(congruence)); lia).
      * cbn. rewrite Hpe'. by rewrite Permutation_swap.
      * cbn. rewrite Hpf'. by rewrite Permutation_swap.
Qed.

End Split.

Section Split_inside.

Context (B : blocks) (E : entries) (i a s g rs nb pos : Z).
Context (Hi : B i = Some (a, s)) (Hg : 0 < g) (Hrs : 0 < rs) (Hs : g + rs <= s).

Let B1 : blocks := upd (upd B nb (Some (a + g + rs, s - rs - g))) i (Some (a, g)).
Let E1 : entries := upd (repoint (λ n, n) E (a + s) nb) pos (Some (a + g, rs, i, nb)).

(** Taking [rs] bytes after the first [g] of block [i] *)
Lemma chain_inside (a0 f0 : Z) (l : list (Z * Z)) :
  chain B E a0 f0 l → NoDup (frees f0 l) → NoDup (ents l) → i ∈ frees f0 l →
  nb ∉ frees f0 l → pos ∉ ents l →
  ∃ l', chain B1 E1 a0 f0 l' ∧ ents l' ≡ₚ pos :: ents l ∧ frees f0 l' ≡ₚ nb :: frees f0 l.
Proof.
  intros Hc. induction Hc as [a0 f s0 Hf Hs0 He|a0 f s0 e n t l Hf Hs0 He Hn Hc IH];
    intros Hnf Hne Hin Hnb Hpos.
  - apply list_elem_of_singleton in Hin as <-. rewrite Hf in Hi. simplify_eq.
    exists [(pos, nb)]. assert (nb ≠ i) as Hnbi by (intros ->; apply Hnb; left).
    split; [|split; [done|apply Permutation_swap]]. apply chain_step with g rs; try lia.
    + unfold B1. by rewrite upd_eq.
    + unfold E1. by rewrite upd_eq.
    + apply chain_last with (s - rs - g); [|lia|lia]. unfold B1. by rewrite upd_ne, upd_eq by done.
  - unfold frees, ents in *. cbn in *. apply NoDup_cons in Hnf as [Hft Hnf].
    apply NoDup_cons in Hne as [Hel Hne]. apply not_elem_of_cons in Hnb as [Hnbf Hnb].
    apply not_elem_of_cons in Hpos as [Hpe Hpos].
    destruct (decide (f = i)) as [->|Hfi].
    + rewrite Hf in Hi. simplify_eq. exists ((pos, nb) :: (e, t) :: l).
      split; [|split; [done|cbn; apply Permutation_swap]].
      apply chain_step with g rs; try lia.
      * unfold B1. by rewrite upd_eq.
      * unfold E1. by rewrite upd_eq.
      * apply chain_step with (s - rs - g) n; try lia.
        -- unfold B1. by rewrite upd_ne, upd_eq by done.
        -- unfold E1. rewrite upd_ne by done. unfold repoint. rewrite He, Z.eqb_refl.
           rewrite (proj2 (Z.eqb_neq _ _)) by lia. do 4 f_equal. lia.
        -- replace (a + g + rs + (s - rs - g) + n) with (a + s + n) by lia. apply (chain_after _ B).
           ++ done.
           ++ intros j Hj. unfold B1. rewrite !upd_ne; [done| |]; intros ->; by eauto.
           ++ done.
           ++ intros e' b' n' p' t' He' Eq'.
              destruct (chain_entries _ _ _ _ _ _ _ _ _ _ Hc He' Eq') as (H1 & H2 & _). lia.
    + apply elem_of_cons in Hin as [?|Hin]; [done|].
      destruct (IH Hnf Hne Hin Hnb Hpos) as (l' & Hc' & Hpe' & Hpf').
      exists ((e, t) :: l').
      destruct (chain_blocks _ _ _ _ _ _ _ _ Hc Hin Hi) as (Hle & _ & _ & Hlt).
      split; [|split].
      * apply chain_step with s0 n; try done.
        -- unfold B1. by rewrite !upd_ne by congruence.
        -- unfold E1. rewrite upd_ne by congruence. erewrite repoint_id; [exact He|exact He|lia|lia].
      * cbn. rewrite Hpe'. by rewrite Permutation_swap.
      * cbn in *. rewrite Hpf'. by rewrite Permutation_swap.
Qed.

End Split_inside.

Section Merge.

Context (B : blocks) (E : entries) (e0 b n p t a s st : Z).
Context (He0 : E e0 = Some (b, n, p, t)) (Hp : B p = Some (a, s)) (Ht : B t = Some (b + n, st)).

Let B1 : blocks := upd (upd B t None) p (Some (a, s + n + st)).
Let E1 : entries := upd (repoint (λ _, n) E (a + s + n + st) p) e0 None.

(** Giving allocation [e0] back *)
Lemma chain_merge (a0 f0 : Z) (l : list (Z * Z)) :
  chain B E a0 f0 l → NoDup (frees f0 l) → NoDup (ents l) → e0 ∈ ents l →
  ∃ l', chain B1 E1 a0 f0 l' ∧ ents l ≡ₚ e0 :: ents l' ∧ frees f0 l ≡ₚ t :: frees f0 l'.
Proof.
  intros Hc. induction Hc as [a0 f s0 Hf Hs0 He|a0 f s0 e n0 t0 l Hf Hs0 He Hn Hc IH];
    intros Hnf Hne Hin.
  - by apply elem_of_nil in Hin.
  - unfold frees, ents in *. cbn in *. apply NoDup_cons in Hnf as [Hft Hnf].
    apply NoDup_cons in Hne as [Hel Hne].
    destruct (decide (e = e0)) as [->|Hee].
    + rewrite He in He0. simplify_eq. exists l.
      assert (t ≠ p) as Htp by (intros ->; apply Hft; left).
      destruct (chain_head _ _ _ _ _ Hc) as (s1 & Hs1 & Hst & _). simplify_eq.
      split; [|split; [done|apply Permutation_swap]].
      inversion Hc as [? ? s2 Hf2 Hs2 Hend|? ? s2 e2 n2 t2 l2 Hf2 Hs2 He2 Hn2 Hc2]; subst;
        rewrite Ht in Hf2; simplify_eq.
      * apply chain_last with (s + n + s2); [|lia|lia]. unfold B1. by rewrite upd_eq.
      * cbn in *. apply NoDup_cons in Hnf as [Htl Hnf]. apply NoDup_cons in Hne as [Hel2 Hne].
        apply not_elem_of_cons in Hel as [Hee2 Hel]. apply not_elem_of_cons in Hft as [Hpt2 Hpl].
        apply chain_step with (s + n + s2) n2; try lia.
        -- unfold B1. by rewrite upd_eq.
        -- unfold E1. rewrite upd_ne by done. unfold repoint. rewrite He2, Z.eqb_refl.
           rewrite (proj2 (Z.eqb_neq _ _)) by lia. do 4 f_equal. lia.
        -- replace (a + (s + n + s2) + n2) with (a + s + n + s2 + n2) by lia. apply (chain_after _ B).
           ++ done.
           ++ intros j Hj. unfold B1. rewrite !upd_ne; [done| |]; intros ->; by eauto.
           ++ done.
           ++ intros e' b' n' p' t' He' Eq'.
              destruct (chain_entries _ _ _ _ _ _ _ _ _ _ Hc2 He' Eq') as (H1 & H2 & _). lia.
    + apply elem_of_cons in Hin as [?|Hin]; [done|].
      destruct (chain_entries _ _ _ _ _ _ _ _ _ _ Hc Hin He0) as (H1 & H2 & _ & H4 & H5 & (s1 & Hs1 & Hs1') & _).
      rewrite Hp in Hs1. simplify_eq.
      destruct (IH Hnf Hne Hin) as (l' & Hc' & Hpe' & Hpf').
      exists ((e, t0) :: l').
      assert (p ≠ f) as Hpf by (intros ->; by apply Hft).
      assert (t ≠ f) as Htf by (intros ->; apply Hft; by right).
      destruct (chain_blocks _ _ _ _ _ _ _ _ Hc H4 Hp) as (Hle & _).
      assert (0 <= st) as Hst.
      { destruct (chain_blocks _ _ _ _ _ t _ _ Hc ltac:(by right) Ht) as (_ & _ & ? & _). done. }
      split; [|split].
      * apply chain_step with s0 n0; try done.
        -- unfold B1. by rewrite !upd_ne by congruence.
        -- unfold E1. rewrite upd_ne by done. erewrite repoint_id; [exact He|exact He|lia|lia].
      * cbn. rewrite Hpe'. by rewrite Permutation_swap.
      * cbn in *. rewrite Hpf'. by rewrite Permutation_swap.
Qed.

End Merge.

(** Free blocks do not touch: there is an allocation between any two. *)
Lemma chain_apart (B : blocks) (E : entries) (a f : Z) (l : list (Z * Z)) (i j b s b' s' : Z) :
  chain B E a f l → i ∈ frees f l → j ∈ frees f l → i ≠ j →
  B i = Some (b, s) → B j = Some (b', s') → b + s < b' ∨ b' + s' < b.
Proof.
  intros Hc. induction Hc as [a f s0 Hf Hs He|a f s0 e n t l Hf Hs He Hn Hc IH]; intros Hi Hj Hne Eq Eq'.
  - apply list_elem_of_singleton in Hi, Hj. congruence.
  - apply elem_of_cons in Hi, Hj. destruct Hi as [->|Hi], Hj as [->|Hj].
    + done.
    + destruct (chain_blocks _ _ _ _ _ _ _ _ Hc Hj Eq') as (H1 & _). simplify_eq. lia.
    + destruct (chain_blocks _ _ _ _ _ _ _ _ Hc Hi Eq) as (H1 & _). simplify_eq. lia.
    + by apply IH.
Qed.

(** ** The addresses and sizes of the allocations *)

Definition base (x : Z * Z * Z * Z) : Z * Z := (x.1.1.1, x.1.1.2).
Definition allocs (E : entries) (l : list (Z * Z)) : list (Z * Z) :=
  omap (λ e, base <$> E e) (ents l).

Lemma allocs_perm (E E' : entries) (L L' : list Z) :
  L ≡ₚ L' → (∀ e, e ∈ L → base <$> E e = base <$> E' e) →
  omap (λ e, base <$> E e) L ≡ₚ omap (λ e, base <$> E' e) L'.
Proof.
  intros Hp He. rewrite <- Hp. clear L' Hp. induction L as [|x L IH]; [done|]. cbn.
  rewrite He by left. assert (∀ e, e ∈ L → base <$> E e = base <$> E' e) as He'.
  { intros e Hin. apply He. by right. }
  destruct (base <$> E' x); [apply perm_skip|]; by apply IH.
Qed.

Lemma repoint_base (sz : Z → Z) (E : entries) (x nb e : Z) :
  base <$> repoint sz E x nb e = base <$> E e.
Proof. unfold repoint. by destruct (E e) as [[[[b n] p] t]|]. Qed.
