(* ===== verification/FuzzAlloc.v ===== *)
(** * The allocator of the SMC fuzzing module: correctness

    In every state the allocator can reach, the table of blocks and the entries
    form a chain over the whole pool; from this follow what [smcmalloc()] and
    [smcfree()] promise. *)

From S2P Require Import Prelude Bits FuzzMalloc FuzzHeap.

Local Open Scope Z_scope.

(** ** The state as blocks and entries *)

Definition blk (m : memmod) : blocks := λ i,
  match zget (memory m) i with
  | Some b => if valid b =? 1 then Some (address b, size b) else None
  | None => None
  end.

Definition ent (m : memmod) : entries := λ e,
  match zget (mallocdeladd_valid m) e with
  | Some v =>
      if v =? 1 then
        a ← zget (mallocdeladd m) e;
        n ← zget (memallocsize m) e;
        p ← zget (precblock m) e;
        p ← p;
        t ← zget (trailblock m) e;
        t ← t;
        Some (a, n, p, t)
      else None
  | None => None
  end.

(** The first [n] elements of a queue *)
Definition queued (q : list Z) (n : Z) : list Z := take (Z.to_nat n) q.

(** Indices below [n] and outside [L] *)
Definition spare (q : list Z) (n : Z) (L : list Z) : Prop :=
  NoDup q ∧ ∀ x, x ∈ q → 0 <= x < n ∧ x ∉ L.

Record heap_ok (m : memmod) (f : Z) (l : list (Z * Z)) : Prop := {
  ok_chain : chain (blk m) (ent m) 0 f l;
  ok_frees : NoDup (frees f l);
  ok_ents : NoDup (ents l);
  ok_blk i b : zget (memory m) i = Some b → valid b = 1 ↔ i ∈ frees f l;
  ok_blk_range i : i ∈ frees f l → 0 <= i < nmemblk m;
  ok_ent e : zget (mallocdeladd_valid m) e = Some 1 ↔ e ∈ ents l;
  ok_ent_range e : e ∈ ents l → 0 <= e < cntdeladd m;
  ok_queue : spare (queued (memblkqueue m) (ptrmemblkqueue m)) (nmemblk m) (frees f l);
  ok_reuse : spare (queued (mallocdeladd_queue m) (mallocdeladd_queue_cnt m)) (cntdeladd m) (ents l);
  ok_nmemblk : 1 <= nmemblk m < MAXBLKS;
  ok_end : memptrend m = nmemblk m - 1;
  ok_cnt : 0 <= cntdeladd m < MAXBLKS;
  ok_ptr : 0 <= ptrmemblkqueue m;
  ok_qcnt : 0 <= mallocdeladd_queue_cnt m;
  ok_max : maxmemblk m = MAXBLKS;
  ok_lens : zlen (memory m) = MAXBLKS ∧ zlen (mallocdeladd m) = MAXBLKS
    ∧ zlen (precblock m) = MAXBLKS ∧ zlen (trailblock m) = MAXBLKS
    ∧ zlen (memblkqueue m) = MAXBLKS ∧ zlen (memallocsize m) = MAXBLKS
    ∧ zlen (mallocdeladd_valid m) = MAXBLKS ∧ zlen (mallocdeladd_queue m) = MAXBLKS;
  ok_err : memerror m = 0;
}.

(** ** Queues *)

Lemma queued_length (q : list Z) (n : Z) : 0 <= n <= zlen q → zlen (queued q n) = n.
Proof. unfold queued, zlen. intros Hn. rewrite length_take. lia. Qed.

Lemma queued_pop (q : list Z) (n x : Z) : 0 < n → zget q (n - 1) = Some x →
  queued q n = queued q (n - 1) ++ [x].
Proof.
  intros Hn Hx. unfold queued, zget in *. destruct (Z.ltb_spec (n - 1) 0); [done|].
  replace (Z.to_nat n) with (S (Z.to_nat (n - 1))) by lia. by apply take_S_r.
Qed.

Lemma queued_push (q : list Z) (n x : Z) : 0 <= n < zlen q →
  queued (zset q n x) (n + 1) = queued q n ++ [x].
Proof.
  intros Hn. rewrite (queued_pop _ _ x); [|lia|].
  - replace (n + 1 - 1) with n by lia. f_equal. unfold queued, zset.
    destruct (Z.ltb_spec n 0); [lia|]. rewrite take_insert_ge by lia. done.
  - replace (n + 1 - 1) with n by lia. by apply zget_zset_eq.
Qed.

(** Distinct indices below [n] are at most [n]. *)
Lemma nodup_bound (L : list Z) (n : Z) :
  0 <= n → NoDup L → (∀ x, x ∈ L → 0 <= x < n) → zlen L <= n.
Proof.
  intros Hn Hnd Hr. assert (length L <= length (seqZ 0 n))%nat as Hle.
  { apply submseteq_length, NoDup_submseteq; [done|]. intros x Hx. apply elem_of_seqZ.
    specialize (Hr x Hx). lia. }
  rewrite length_seqZ in Hle. unfold zlen. lia.
Qed.

Lemma spare_bound (q L : list Z) (n : Z) :
  0 <= n → spare q n L → NoDup L → (∀ x, x ∈ L → 0 <= x < n) → zlen q + zlen L <= n.
Proof.
  intros Hn [Hnd Hq] HL Hr. rewrite <- zlen_app. apply nodup_bound; [done| |].
  - apply NoDup_app. split_and!; [done| |done]. intros x Hx. by apply Hq.
  - intros x Hx. apply elem_of_app in Hx as [Hx|Hx]; [by apply Hq|by apply Hr].
Qed.

Lemma spare_pop (q L : list Z) (n x : Z) :
  spare (q ++ [x]) n L → spare q n (x :: L) ∧ 0 <= x < n ∧ x ∉ L.
Proof.
  intros [Hnd Hq]. apply NoDup_app in Hnd as (H1 & H2 & _).
  assert (x ∈ q ++ [x]) as Hx by (apply elem_of_app; right; left).
  split; [|by apply Hq]. split; [done|]. intros y Hy.
  destruct (Hq y) as [Hr HL]; [apply elem_of_app; by left|]. split; [done|].
  apply not_elem_of_cons. split; [|done]. intros ->. apply (H2 x Hy). left.
Qed.

Lemma spare_push (q L : list Z) (n x : Z) :
  spare q n (x :: L) → 0 <= x < n → x ∉ L → spare (q ++ [x]) n L.
Proof.
  intros [Hnd Hq] Hx HL. split.
  - apply NoDup_app. split_and!; [done| |apply NoDup_singleton]. intros y Hy Hy'.
    apply list_elem_of_singleton in Hy'. subst y. apply (Hq x Hy). left.
  - intros y Hy. apply elem_of_app in Hy as [Hy|Hy].
    + destruct (Hq y Hy) as [Hr H]. split; [done|]. intros ?. apply H. by right.
    + apply list_elem_of_singleton in Hy as ->. done.
Qed.

Lemma spare_grow (q L : list Z) (n : Z) : 0 <= n → spare q n L → spare q (n + 1) (n :: L).
Proof.
  intros Hn [Hnd Hq]. split; [done|]. intros x Hx. destruct (Hq x Hx) as [Hr HL].
  split; [lia|]. apply not_elem_of_cons. split; [lia|done].
Qed.

Lemma spare_perm (q L L' : list Z) (n : Z) : L ≡ₚ L' → spare q n L → spare q n L'.
Proof. intros Hp [Hnd Hq]. split; [done|]. intros x Hx. rewrite <- Hp. by apply Hq. Qed.

(** ** Accesses *)

Lemma get_block_run (s : memmod) (i : Z) (b : memblk) :
  zget (memory s) i = Some b → get_block i s = Ok (b, s).
Proof. intros Hb. unfold get_block. erewrite bind_Ok by reflexivity. by apply aget_Ok. Qed.

Definition with_memory (s : memmod) (mem : list memblk) : memmod :=
  set_blocks s mem (memblkqueue s) (ptrmemblkqueue s).

Lemma put_block_run (s : memmod) (i : Z) (b : memblk) :
  0 <= i < zlen (memory s) → put_block i b s = Ok (tt, with_memory s (zset (memory s) i b)).
Proof.
  intros Hi. unfold put_block. erewrite bind_Ok by reflexivity.
  by rewrite (bind_Ok _ _ _ _ _ (aset_Ok _ _ b s Hi)).
Qed.

Definition with_links (s : memmod) (prec trail : list (option Z)) : memmod :=
  set_entries s (mallocdeladd s) prec trail (memallocsize s) (mallocdeladd_valid s).

Lemma put_prec_run (s : memmod) (e b : Z) : 0 <= e < zlen (precblock s) →
  put_prec e b s = Ok (tt, with_links s (zset (precblock s) e (Some b)) (trailblock s)).
Proof.
  intros He. unfold put_prec. erewrite bind_Ok by reflexivity.
  by rewrite (bind_Ok _ _ _ _ _ (aset_Ok _ _ (Some b) s He)).
Qed.

Lemma put_trail_run (s : memmod) (e b : Z) : 0 <= e < zlen (trailblock s) →
  put_trail e b s = Ok (tt, with_links s (precblock s) (zset (trailblock s) e (Some b))).
Proof.
  intros He. unfold put_trail. erewrite bind_Ok by reflexivity.
  by rewrite (bind_Ok _ _ _ _ _ (aset_Ok _ _ (Some b) s He)).
Qed.

(** The address, size and flag of an entry *)
Definition with_entry (s : memmod) (add sz val : list Z) : memmod :=
  set_entries s add (precblock s) (trailblock s) sz val.

Lemma put_add_run (s : memmod) (e a : Z) : 0 <= e < zlen (mallocdeladd s) →
  put_add e a s
  = Ok (tt, with_entry s (zset (mallocdeladd s) e a) (memallocsize s) (mallocdeladd_valid s)).
Proof.
  intros He. unfold put_add. erewrite bind_Ok by reflexivity.
  by rewrite (bind_Ok _ _ _ _ _ (aset_Ok _ _ a s He)).
Qed.

Lemma put_size_run (s : memmod) (e n : Z) : 0 <= e < zlen (memallocsize s) →
  put_size e n s
  = Ok (tt, with_entry s (mallocdeladd s) (zset (memallocsize s) e n) (mallocdeladd_valid s)).
Proof.
  intros He. unfold put_size. erewrite bind_Ok by reflexivity.
  by rewrite (bind_Ok _ _ _ _ _ (aset_Ok _ _ n s He)).
Qed.

Lemma put_valid_run (s : memmod) (e v : Z) : 0 <= e < zlen (mallocdeladd_valid s) →
  put_valid e v s
  = Ok (tt, with_entry s (mallocdeladd s) (memallocsize s) (zset (mallocdeladd_valid s) e v)).
Proof.
  intros He. unfold put_valid. erewrite bind_Ok by reflexivity.
  by rewrite (bind_Ok _ _ _ _ _ (aset_Ok _ _ v s He)).
Qed.

(** The loop over the entries that repoints them.  [sf j] is the size the code
    takes for entry [j]. *)
Section Retarget.

Context (s : memmod) (size_of : Z → H Z) (sf : Z → Z) (fadd nb : Z).
Context (Hsz : ∀ j p t, 0 <= j < MAXBLKS → size_of j (with_links s p t) = Ok (sf j, with_links s p t)).
Context (Hadd : zlen (mallocdeladd s) = MAXBLKS) (Hval : zlen (mallocdeladd_valid s) = MAXBLKS).

Definition starts_at (e : Z) : bool :=
  bool_decide (zget (mallocdeladd s) e = Some fadd ∧ zget (mallocdeladd_valid s) e = Some 1).
Definition ends_at (e : Z) : bool :=
  match zget (mallocdeladd s) e with
  | Some a => (fadd =? u32 (a + sf e)) && bool_decide (zget (mallocdeladd_valid s) e = Some 1)
  | None => false
  end.

Lemma retarget_run (n : nat) (j : Z) (p t : list (option Z)) :
  0 <= j → j + Z.of_nat n <= MAXBLKS → zlen p = MAXBLKS → zlen t = MAXBLKS →
  ∃ p' t', retarget size_of fadd nb n j (with_links s p t) = Ok (tt, with_links s p' t')
    ∧ zlen p' = MAXBLKS ∧ zlen t' = MAXBLKS
    ∧ (∀ e, zget p' e = if bool_decide (j <= e < j + Z.of_nat n) && starts_at e
                        then Some (Some nb) else zget p e)
    ∧ (∀ e, zget t' e = if bool_decide (j <= e < j + Z.of_nat n) && ends_at e
                        then Some (Some nb) else zget t e).
Proof.
  revert j p t. induction n as [|n IH]; intros j p t Hj Hn Hp Ht.
  { exists p, t. split_and!; try done; intros e; by rewrite bool_decide_eq_false_2 by lia. }
  destruct (zget_is_Some (mallocdeladd s) j) as [a Ha]; [lia|].
  destruct (zget_is_Some (mallocdeladd_valid s) j) as [v Hv]; [lia|].
  cbn [retarget]. erewrite bind_Ok by reflexivity.
  rewrite (bind_Ok _ _ _ _ _ (aget_Ok _ _ _ (with_links s p t) Ha)).
  rewrite (bind_Ok _ _ _ _ _ (aget_Ok _ _ _ (with_links s p t) Hv)).
  assert (starts_at j = (fadd =? a) && (v =? 1)) as Hst.
  { unfold starts_at. rewrite Ha, Hv. destruct (Z.eqb_spec fadd a) as [->|]; cbn [andb].
    - destruct (Z.eqb_spec v 1) as [->|]; [by apply bool_decide_eq_true_2|].
      apply bool_decide_eq_false_2. intros [_ ?]. congruence.
    - apply bool_decide_eq_false_2. intros [? _]. congruence. }
  assert (ends_at j = (fadd =? u32 (a + sf j)) && (v =? 1)) as Hen.
  { unfold ends_at. rewrite Ha, Hv. f_equal. destruct (Z.eqb_spec v 1) as [->|].
    - by apply bool_decide_eq_true_2.
    - apply bool_decide_eq_false_2. congruence. }
  rewrite <- Hst.
  set (p1 := if starts_at j then zset p j (Some nb) else p).
  assert ((if starts_at j then put_prec j nb else mret tt) (with_links s p t)
    = Ok (tt, with_links s p1 t)) as Hrun1.
  { unfold p1. destruct (starts_at j); [|done]. rewrite put_prec_run by (cbn; lia). done. }
  rewrite (bind_Ok _ _ _ _ _ Hrun1).
  rewrite (bind_Ok _ _ _ _ _ (Hsz j p1 t ltac:(lia))). rewrite <- Hen.
  set (t1 := if ends_at j then zset t j (Some nb) else t).
  assert ((if ends_at j then put_trail j nb else mret tt) (with_links s p1 t)
    = Ok (tt, with_links s p1 t1)) as Hrun2.
  { unfold t1. destruct (ends_at j); [|done]. rewrite put_trail_run by (cbn; lia). done. }
  rewrite (bind_Ok _ _ _ _ _ Hrun2).
  destruct (IH (j + 1) p1 t1) as (p' & t' & Hrun & Hp' & Ht' & Hgp & Hgt); try lia.
  { unfold p1. destruct (starts_at j); [by rewrite zlen_zset|done]. }
  { unfold t1. destruct (ends_at j); [by rewrite zlen_zset|done]. }
  exists p', t'. split_and!; try done.
  - intros e. rewrite Hgp. unfold p1. destruct (decide (e = j)) as [->|Hne].
    + rewrite bool_decide_eq_false_2, bool_decide_eq_true_2 by lia. cbn [andb].
      destruct (starts_at j); [apply zget_zset_eq; lia|done].
    + assert (bool_decide (j <= e < j + Z.of_nat (S n))
        = bool_decide (j + 1 <= e < j + 1 + Z.of_nat n)) as -> by (apply bool_decide_ext; lia).
      destruct (starts_at j); [by rewrite zget_zset_ne|done].
  - intros e. rewrite Hgt. unfold t1. destruct (decide (e = j)) as [->|Hne].
    + rewrite bool_decide_eq_false_2, bool_decide_eq_true_2 by lia. cbn [andb].
      destruct (ends_at j); [apply zget_zset_eq; lia|done].
    + assert (bool_decide (j <= e < j + Z.of_nat (S n))
        = bool_decide (j + 1 <= e < j + 1 + Z.of_nat n)) as -> by (apply bool_decide_ext; lia).
      destruct (ends_at j); [by rewrite zget_zset_ne|done].
Qed.

End Retarget.

(** The loop that retires empty blocks finds none. *)
Lemma retire_empty_run (full : H unit) (s : memmod) (e t : Z) (tb : memblk) (n : nat) (j : Z) :
  zget (trailblock s) e = Some (Some t) → zget (memory s) t = Some tb →
  0 <= j → j + Z.of_nat n <= zlen (memory s) →
  (∀ i b, zget (memory s) i = Some b → valid b = 1 →
     u32 (address tb + size tb) = address b → size b = 0 → size tb = 0) →
  retire_empty full e n j s = Ok (tt, s).
Proof.
  intros Ht Htb. revert j. induction n as [|n IH]; intros j Hj Hn Hno; [done|].
  destruct (zget_is_Some (memory s) j) as [b Hb]; [lia|]. cbn [retire_empty].
  rewrite (bind_Ok _ _ _ _ _ (get_block_run _ _ _ Hb)).
  assert ((if valid b =? 1 then
      s0 ← get; t ← aget (trailblock s0) e; t ← deref t; tb ← get_block t;
      if (u32 (address tb + size tb) =? address b) && (size b =? 0) && negb (size tb =? 0)
      then put_block j {| address := address b; size := size b; valid := 0 |};; retire_block full j
      else mret tt
    else mret tt) s = Ok (tt, s)) as Hrun.
  { destruct (Z.eqb_spec (valid b) 1) as [Hv|]; [|done]. erewrite bind_Ok by reflexivity.
    rewrite (bind_Ok _ _ _ _ _ (aget_Ok _ _ _ s Ht)). erewrite bind_Ok by reflexivity.
    rewrite (bind_Ok _ _ _ _ _ (get_block_run _ _ _ Htb)).
    destruct (Z.eqb_spec (u32 (address tb + size tb)) (address b)) as [Ha|]; [|done].
    destruct (Z.eqb_spec (size b) 0) as [Hz|]; [|done].
    by rewrite (Hno j b Hb Hv Ha Hz). }
  rewrite (bind_Ok _ _ _ _ _ Hrun). apply IH; [lia|lia|done].
Qed.

(** ** Taking a spare entry or block *)

Lemma queue_short (q L : list Z) (n c : Z) :
  0 <= n → 0 <= c < zlen q → spare (queued q n) c L → n <= c ∧ n < zlen q.
Proof.
  intros Hn Hc [Hnd Hq]. pose proof (nodup_bound (queued q n) c ltac:(lia) Hnd) as Hb.
  specialize (Hb ltac:(intros; by apply Hq)). unfold queued, zlen in *. rewrite length_take in Hb. lia.
Qed.

Lemma take_entry_run (s : memmod) (f : Z) (l : list (Z * Z)) :
  heap_ok s f l →
  ∃ pos new qc, take_entry s = Ok ((pos, new : bool), set_reuse s (mallocdeladd_queue s) qc)
    ∧ (pos ∉ ents l) ∧ 0 <= qc ∧ 0 <= pos ∧ pos < (if new then cntdeladd s + 1 else cntdeladd s)
    ∧ spare (queued (mallocdeladd_queue s) qc) (if new then cntdeladd s + 1 else cntdeladd s) (pos :: ents l).
Proof.
  intros Hok. pose proof (ok_lens _ _ _ Hok) as Hl. destruct_and! Hl.
  pose proof (ok_reuse _ _ _ Hok) as Hr. pose proof (ok_cnt _ _ _ Hok). pose proof (ok_qcnt _ _ _ Hok).
  unfold take_entry. erewrite bind_Ok by reflexivity.
  destruct (Z.ltb_spec 0 (mallocdeladd_queue_cnt s)).
  - destruct (queue_short (mallocdeladd_queue s) (ents l) (mallocdeladd_queue_cnt s) (cntdeladd s)) as [_ Hlt]; [lia|lia|done|].
    destruct (zget_is_Some (mallocdeladd_queue s) (mallocdeladd_queue_cnt s - 1)) as [x Hx]; [lia|].
    exists x, false, (mallocdeladd_queue_cnt s - 1). erewrite bind_Ok by reflexivity.
    rewrite (bind_Ok _ _ _ _ _ (aget_Ok _ _ _ _ Hx)).
    rewrite (queued_pop _ _ x) in Hr by (done || lia). destruct (spare_pop _ _ _ _ Hr) as (Hs1 & Hs2 & Hs3).
    split_and!; done || lia.
  - exists (cntdeladd s), true, (mallocdeladd_queue_cnt s). split_and!; try lia; try (by destruct s).
    + intros Hin. pose proof (ok_ent_range _ _ _ Hok _ Hin). lia.
    + apply spare_grow; [lia|done].
Qed.

Lemma take_block_run (s : memmod) (L : list Z) :
  spare (queued (memblkqueue s) (ptrmemblkqueue s)) (nmemblk s) L →
  (∀ i, i ∈ L → 0 <= i < nmemblk s) → 0 <= ptrmemblkqueue s → memptrend s = nmemblk s - 1 →
  1 <= nmemblk s < MAXBLKS → zlen (memblkqueue s) = MAXBLKS →
  ∃ nb new ptr, take_block s = Ok ((nb, new : bool), set_blocks s (memory s) (memblkqueue s) ptr)
    ∧ (nb ∉ L) ∧ 0 <= ptr ∧ 0 <= nb ∧ nb < (if new then nmemblk s + 1 else nmemblk s)
    ∧ spare (queued (memblkqueue s) ptr) (if new then nmemblk s + 1 else nmemblk s) (nb :: L).
Proof.
  intros Hr HL Hp Hend Hn Hq. unfold take_block. erewrite bind_Ok by reflexivity.
  destruct (Z.ltb_spec 0 (ptrmemblkqueue s)).
  - destruct (queue_short (memblkqueue s) L (ptrmemblkqueue s) (nmemblk s)) as [_ Hlt]; [lia|lia|done|].
    destruct (zget_is_Some (memblkqueue s) (ptrmemblkqueue s - 1)) as [x Hx]; [lia|].
    exists x, false, (ptrmemblkqueue s - 1).
    rewrite (bind_Ok _ _ _ _ _ (aget_Ok _ _ _ _ Hx)). erewrite bind_Ok by reflexivity.
    rewrite (queued_pop _ _ x) in Hr by (done || lia). destruct (spare_pop _ _ _ _ Hr) as (Hs1 & Hs2 & Hs3).
    split_and!; done || lia.
  - exists (nmemblk s), true, (ptrmemblkqueue s). rewrite Hend.
    replace (nmemblk s - 1 + 1) with (nmemblk s) by lia. split_and!; try lia; try (by destruct s).
    + intros Hin. pose proof (HL _ Hin). lia.
    + apply spare_grow; [lia|done].
Qed.

(** ** What the two ways to allocate leave *)

(** [s'] is [s] with blocks [B] and entries [E], after block [nb] and entry
    [pos] were taken into use; [ptr] is how much of the queue is left. *)
Record taken (s s' : memmod) (nb pos ptr : Z) (B : blocks) (E : entries) : Prop := {
  tk_blk i : blk s' i = B i;
  tk_ent e : ent s' e = E e;
  tk_valid_blk i b : zget (memory s') i = Some b →
    valid b = 1 ↔ i = nb ∨ ∃ b0, zget (memory s) i = Some b0 ∧ valid b0 = 1;
  tk_valid_ent e : zget (mallocdeladd_valid s') e = Some 1
    ↔ e = pos ∨ zget (mallocdeladd_valid s) e = Some 1;
  tk_counts : nmemblk s' = nmemblk s ∧ maxmemblk s' = maxmemblk s ∧ memptrend s' = memptrend s
    ∧ cntdeladd s' = cntdeladd s ∧ mallocdeladd_queue_cnt s' = mallocdeladd_queue_cnt s
    ∧ memerror s' = memerror s ∧ memblkqueue s' = memblkqueue s
    ∧ mallocdeladd_queue s' = mallocdeladd_queue s ∧ ptrmemblkqueue s' = ptr;
  tk_lens : zlen (memory s') = MAXBLKS ∧ zlen (mallocdeladd s') = MAXBLKS
    ∧ zlen (precblock s') = MAXBLKS ∧ zlen (trailblock s') = MAXBLKS
    ∧ zlen (memallocsize s') = MAXBLKS ∧ zlen (mallocdeladd_valid s') = MAXBLKS;
}.

Lemma ent_Some (m : memmod) (e a n p t : Z) :
  ent m e = Some (a, n, p, t) ↔
  zget (mallocdeladd_valid m) e = Some 1 ∧ zget (mallocdeladd m) e = Some a
  ∧ zget (memallocsize m) e = Some n ∧ zget (precblock m) e = Some (Some p)
  ∧ zget (trailblock m) e = Some (Some t).
Proof.
  unfold ent. split.
  - destruct (zget (mallocdeladd_valid m) e) as [v|]; [|done].
    destruct (Z.eqb_spec v 1) as [->|]; [|done].
    destruct (zget (mallocdeladd m) e), (zget (memallocsize m) e), (zget (precblock m) e) as [[]|],
      (zget (trailblock m) e) as [[]|]; cbn; try done. intros ?. by simplify_eq.
  - intros (-> & -> & -> & -> & ->). done.
Qed.

Lemma ent_None (m : memmod) (e : Z) : zget (mallocdeladd_valid m) e ≠ Some 1 → ent m e = None.
Proof.
  unfold ent. destruct (zget (mallocdeladd_valid m) e) as [v|]; [|done].
  destruct (Z.eqb_spec v 1) as [->|]; done.
Qed.

Lemma blk_Some (m : memmod) (i a n : Z) :
  blk m i = Some (a, n) ↔ zget (memory m) i = Some {| address := a; size := n; valid := 1 |}.
Proof.
  unfold blk. split.
  - destruct (zget (memory m) i) as [[a' n' v']|]; [|done]. cbn.
    destruct (Z.eqb_spec v' 1) as [->|]; [|done]. intros ?. by simplify_eq.
  - by intros ->.
Qed.

(** Live entries, as the chain has them *)
Lemma live_entry (m : memmod) (f : Z) (l : list (Z * Z)) (e : Z) :
  heap_ok m f l → zget (mallocdeladd_valid m) e = Some 1 →
  ∃ a n p t, ent m e = Some (a, n, p, t) ∧ 0 <= e < cntdeladd m ∧ 0 <= a ∧ 0 < n ∧ a + n <= POOL.
Proof.
  intros Hok Hv. apply (ok_ent _ _ _ Hok) in Hv as Hin.
  pose proof (ok_chain _ _ _ Hok) as Hc.
  assert (∃ a n p t, ent m e = Some (a, n, p, t)) as (a & n & p & t & He).
  { clear -Hc Hin. induction Hc as [a f s Hf Hs He'|a f s e' n' t' l Hf Hs He' Hn Hc IH].
    - by apply elem_of_nil in Hin.
    - apply elem_of_cons in Hin as [->|He]; [by eauto|by apply IH]. }
  exists a, n, p, t. destruct (chain_entries _ _ _ _ _ _ _ _ _ _ Hc Hin He) as (H1 & H2 & H3 & _).
  split_and!; try done; by apply (ok_ent_range _ _ _ Hok).
Qed.

Lemma pool_small : POOL < UINT32_MAX.
Proof. reflexivity. Qed.

(** The entries after the loop that repoints them *)
Lemma relink (s : memmod) (sf : Z → Z) (x nb cnt : Z) (pl tl p' t' : list (option Z)) (e a p t : Z) :
  zget (mallocdeladd_valid s) e = Some 1 → zget (mallocdeladd s) e = Some a →
  0 <= e < cnt → 0 <= a + sf e <= UINT32_MAX →
  zget pl e = Some (Some p) → zget tl e = Some (Some t) →
  (∀ j, zget p' j = if bool_decide (0 <= j < 0 + Z.of_nat (Z.to_nat cnt)) && starts_at s x j
                    then Some (Some nb) else zget pl j) →
  (∀ j, zget t' j = if bool_decide (0 <= j < 0 + Z.of_nat (Z.to_nat cnt)) && ends_at s sf x j
                    then Some (Some nb) else zget tl j) →
  zget p' e = Some (Some (if x =? a then nb else p))
  ∧ zget t' e = Some (Some (if x =? a + sf e then nb else t)).
Proof.
  intros Hv Ha Hr Hu Hp Ht Hp' Ht'.
  rewrite Hp', Ht', Hp, Ht, bool_decide_eq_true_2 by lia. cbn [andb].
  unfold starts_at, ends_at. rewrite Ha, Hv, u32_small by done.
  rewrite (bool_decide_eq_true_2 (Some 1 = Some 1)), andb_true_r by done. split.
  - destruct (Z.eqb_spec x a) as [->|Hne].
    + by rewrite bool_decide_eq_true_2.
    + rewrite bool_decide_eq_false_2; [done|]. intros [? _]. congruence.
  - by destruct (x =? a + sf e).
Qed.

Definition size_at (s : memmod) (j : Z) : Z := default 0 (zget (memallocsize s) j).

Lemma entry_size_run (s : memmod) (p t : list (option Z)) (j : Z) :
  zlen (memallocsize s) = MAXBLKS → 0 <= j < MAXBLKS →
  entry_size j (with_links s p t) = Ok (size_at s j, with_links s p t).
Proof.
  intros Hl Hj. destruct (zget_is_Some (memallocsize s) j) as [x Hx]; [lia|].
  unfold entry_size, size_at. erewrite bind_Ok by reflexivity. rewrite Hx. by apply aget_Ok.
Qed.

(** The fields of the states in between *)
Ltac heap_fields :=
  cbn [with_memory with_links with_entry set_blocks set_entries set_reuse set_counts memory nmemblk
       maxmemblk memptrend mallocdeladd precblock trailblock memblkqueue memallocsize
       mallocdeladd_valid mallocdeladd_queue cntdeladd ptrmemblkqueue mallocdeladd_queue_cnt memerror
       address size valid fst snd].
Ltac heap_fields_in H :=
  cbn [with_memory with_links with_entry set_blocks set_entries set_reuse set_counts memory nmemblk
       maxmemblk memptrend mallocdeladd precblock trailblock memblkqueue memallocsize
       mallocdeladd_valid mallocdeladd_queue cntdeladd ptrmemblkqueue mallocdeladd_queue_cnt memerror
       address size valid fst snd] in H.
Ltac heap_len := heap_fields; rewrite ?zlen_zset; lia.
Ltac run H := rewrite (bind_Ok _ _ _ _ _ H).

Lemma blk_zset2 (m m' : memmod) (nb i x y u v j : Z) :
  0 <= nb < zlen (memory m) → 0 <= i < zlen (memory m) →
  memory m' = zset (zset (memory m) nb {| address := x; size := y; valid := 1 |}) i
    {| address := u; size := v; valid := 1 |} →
  blk m' j = upd (upd (blk m) nb (Some (x, y))) i (Some (u, v)) j.
Proof.
  intros Hnb Hi Hm. unfold blk at 1. rewrite Hm. destruct (decide (j = i)) as [->|Hji].
  - rewrite upd_eq, zget_zset_eq by (by rewrite zlen_zset). done.
  - rewrite upd_ne, zget_zset_ne by done. destruct (decide (j = nb)) as [->|Hjn].
    + rewrite upd_eq, zget_zset_eq by done. done.
    + rewrite upd_ne, zget_zset_ne by done. done.
Qed.

Lemma valid_zset2 (m m' : memmod) (nb i x y u v j : Z) (b bi : memblk) :
  0 <= nb < zlen (memory m) → zget (memory m) i = Some bi → valid bi = 1 →
  memory m' = zset (zset (memory m) nb {| address := x; size := y; valid := 1 |}) i
    {| address := u; size := v; valid := 1 |} →
  zget (memory m') j = Some b →
  valid b = 1 ↔ j = nb ∨ ∃ b0, zget (memory m) j = Some b0 ∧ valid b0 = 1.
Proof.
  intros Hnb Hi Hv Hm Hb. pose proof (zget_Some_range _ _ _ Hi) as Hir. rewrite Hm in Hb.
  destruct (decide (j = i)) as [->|Hji].
  - rewrite zget_zset_eq in Hb by (by rewrite zlen_zset). simplify_eq. naive_solver.
  - rewrite zget_zset_ne in Hb by done. destruct (decide (j = nb)) as [->|Hjn].
    + rewrite zget_zset_eq in Hb by done. simplify_eq. naive_solver.
    + rewrite zget_zset_ne in Hb by done. naive_solver.
Qed.

Lemma valid_zset (v : list Z) (pos e : Z) :
  0 <= pos < zlen v → zget (zset v pos 1) e = Some 1 ↔ e = pos ∨ zget v e = Some 1.
Proof.
  intros Hp. destruct (decide (e = pos)) as [->|Hne].
  - rewrite zget_zset_eq by done. naive_solver.
  - rewrite zget_zset_ne by done. naive_solver.
Qed.

Section Allocate.

Context (s0 : memmod) (f : Z) (l : list (Z * Z)) (Hok : heap_ok s0 f l).
Context (q : list Z) (qc pos i a sz rs : Z).
Let s := set_reuse s0 q qc.
Context (Hpos : 0 <= pos < MAXBLKS) (Hnew : pos ∉ ents l).
Context (Hi : blk s0 i = Some (a, sz)) (Hrs : 0 < rs).

(** What is known of block [i] *)
Lemma alloc_block : i ∈ frees f l ∧ 0 <= i < nmemblk s0 ∧ 0 <= a ∧ 0 <= sz ∧ a + sz <= POOL
  ∧ zget (memory s0) i = Some {| address := a; size := sz; valid := 1 |}.
Proof.
  pose proof (proj1 (blk_Some _ _ _ _) Hi) as Hb. pose proof (proj1 (ok_blk _ _ _ Hok _ _ Hb) eq_refl) as Hin.
  pose proof (ok_blk_range _ _ _ Hok _ Hin).
  destruct (chain_blocks _ _ _ _ _ _ _ _ (ok_chain _ _ _ Hok) Hin Hi) as (? & ? & ? & _).
  split_and!; done || lia.
Qed.

Lemma alloc_take_block :
  ∃ nb new ptr, take_block s = Ok ((nb, new : bool), set_blocks s (memory s) (memblkqueue s) ptr)
    ∧ (nb ∉ frees f l) ∧ 0 <= ptr ∧ 0 <= nb ∧ nb < (if new then nmemblk s + 1 else nmemblk s)
    ∧ spare (queued (memblkqueue s) ptr) (if new then nmemblk s + 1 else nmemblk s) (nb :: frees f l).
Proof.
  pose proof (ok_lens _ _ _ Hok) as Hl. destruct_and! Hl.
  apply (take_block_run s (frees f l)); unfold s; heap_fields.
  - exact (ok_queue _ _ _ Hok).
  - exact (ok_blk_range _ _ _ Hok).
  - exact (ok_ptr _ _ _ Hok).
  - exact (ok_end _ _ _ Hok).
  - exact (ok_nmemblk _ _ _ Hok).
  - done.
Qed.

(** The new view of the entries *)
Lemma alloc_ent (s' : memmod) (x nb aa P T e : Z) :
  mallocdeladd s' = zset (mallocdeladd s0) pos aa → memallocsize s' = zset (memallocsize s0) pos rs →
  mallocdeladd_valid s' = zset (mallocdeladd_valid s0) pos 1 →
  zget (precblock s') pos = Some (Some P) → zget (trailblock s') pos = Some (Some T) →
  (∀ e a n p t, e ≠ pos → ent s0 e = Some (a, n, p, t) →
     zget (precblock s') e = Some (Some (if x =? a then nb else p))
     ∧ zget (trailblock s') e = Some (Some (if x =? a + n then nb else t))) →
  ent s' e = upd (repoint (λ n, n) (ent s0) x nb) pos (Some (aa, rs, P, T)) e.
Proof.
  intros Ha Hs Hv HP HT Hl. pose proof (ok_lens _ _ _ Hok) as Hlen. destruct_and! Hlen.
  destruct (decide (e = pos)) as [->|Hne].
  - rewrite upd_eq. apply ent_Some. rewrite Ha, Hs, Hv, !zget_zset_eq by lia. done.
  - rewrite upd_ne by done. destruct (decide (zget (mallocdeladd_valid s0) e = Some 1)) as [Hv1|Hv1].
    + destruct (live_entry _ _ _ _ Hok Hv1) as (b & n & p & t & He & _).
      destruct (Hl e b n p t Hne He) as [H1' H2']. unfold repoint. rewrite He. apply ent_Some.
      apply ent_Some in He as (_ & Hea & Hes & _). rewrite Ha, Hs, Hv, !zget_zset_ne by done. done.
    + unfold repoint. rewrite (ent_None s0 e Hv1). apply ent_None. by rewrite Hv, zget_zset_ne.
Qed.

(** The loop that repoints the entries, with the links set so far *)
Lemma alloc_retarget (s1 : memmod) (x nb : Z) (pl tl : list (option Z)) :
  mallocdeladd s1 = mallocdeladd s0 → mallocdeladd_valid s1 = mallocdeladd_valid s0 →
  memallocsize s1 = memallocsize s0 → zlen pl = MAXBLKS → zlen tl = MAXBLKS →
  (∀ e, e ≠ pos → zget pl e = zget (precblock s0) e ∧ zget tl e = zget (trailblock s0) e) →
  ∃ p' t', retarget entry_size x nb (Z.to_nat (cntdeladd s0)) 0 (with_links s1 pl tl)
      = Ok (tt, with_links s1 p' t')
    ∧ zlen p' = MAXBLKS ∧ zlen t' = MAXBLKS
    ∧ (zget pl pos = Some (Some nb) → zget p' pos = Some (Some nb))
    ∧ (zget tl pos = Some (Some nb) → zget t' pos = Some (Some nb))
    ∧ ∀ e a n p t, e ≠ pos → ent s0 e = Some (a, n, p, t) →
     zget p' e = Some (Some (if x =? a then nb else p))
     ∧ zget t' e = Some (Some (if x =? a + n then nb else t)).
Proof.
  intros Ha Hv Hs Hpl Htl Heq. pose proof (ok_lens _ _ _ Hok) as Hlen. destruct_and! Hlen.
  pose proof (ok_cnt _ _ _ Hok).
  destruct (retarget_run s1 entry_size (size_at s1) x nb) with (n := Z.to_nat (cntdeladd s0)) (j := 0)
    (p := pl) (t := tl) as (p' & t' & Hrun & Hlp & Hlt & Hp' & Ht'); try lia.
  { intros j p t Hj. apply entry_size_run; [by rewrite Hs|done]. }
  { by rewrite Ha. } { by rewrite Hv. }
  exists p', t'. split_and!; try done.
  - intros Hp. rewrite Hp', Hp. by case_match.
  - intros Ht. rewrite Ht', Ht. by case_match.
  - intros e a' n p t Hne He. pose proof He as Hent. apply ent_Some in Hent as (Hv1 & Hea & Hes & Hep & Het).
    destruct (live_entry _ _ _ _ Hok Hv1) as (b' & n' & p1 & t1 & He' & Hr & Hb' & Hn' & Hle).
    rewrite He in He'. simplify_eq. destruct (Heq e Hne) as [Heq1 Heq2].
    assert (size_at s1 e = n') as Hsz by (unfold size_at; by rewrite Hs, Hes).
    rewrite <- Hsz. apply (relink s1 (size_at s1) x nb (cntdeladd s0) pl tl p' t' e b'); try done.
    + by rewrite Hv.
    + by rewrite Ha.
    + rewrite Hsz. pose proof pool_small. lia.
    + by rewrite Heq1.
    + by rewrite Heq2.
Qed.

(** A valid block other than [i] does not start where [i] ends. *)
Lemma alloc_apart (j : Z) (b : memblk) :
  zget (memory s0) j = Some b → valid b = 1 → j ≠ i → address b = a + sz → size b = 0 → False.
Proof.
  intros Hb Hv Hji Ha Hs. destruct alloc_block as (Hin & _ & _ & Hsz & _).
  assert (blk s0 j = Some (a + sz, 0)) as Hj.
  { apply blk_Some. rewrite Hb. destruct b; cbn in *; by subst. }
  pose proof (proj1 (ok_blk _ _ _ Hok _ _ Hb) Hv) as Hjn.
  destruct (chain_apart _ _ _ _ _ _ _ _ _ _ _ (ok_chain _ _ _ Hok) Hin Hjn (not_eq_sym Hji) Hi Hj); lia.
Qed.

(** The state [malloc_front] leaves *)
Definition front_state (nb ptr : Z) (p t : list (option Z)) : memmod :=
  with_entry (with_links (with_memory (set_blocks s (memory s) (memblkqueue s) ptr)
      (zset (zset (memory s0) nb {| address := a; size := 0; valid := 1 |}) i
         {| address := a + rs; size := sz - rs; valid := 1 |}))
      p (zset t pos (Some i)))
    (zset (mallocdeladd s0) pos a) (zset (memallocsize s0) pos rs) (zset (mallocdeladd_valid s0) pos 1).

Lemma front_retire (nb ptr : Z) (p t : list (option Z)) :
  0 <= nb < MAXBLKS → nb ≠ i → zlen t = MAXBLKS → rs <= sz →
  retire_empty queue_full pos (Z.to_nat (nmemblk s0)) 0 (front_state nb ptr p t)
  = Ok (tt, front_state nb ptr p t).
Proof.
  intros Hnb Hne Ht Hle. destruct alloc_block as (Hin & Hir & Ha & Hsz & Hpool & Hb).
  pose proof (ok_lens _ _ _ Hok) as Hlen. destruct_and! Hlen. pose proof pool_small.
  pose proof (ok_nmemblk _ _ _ Hok).
  apply (retire_empty_run _ _ _ i {| address := a + rs; size := sz - rs; valid := 1 |}).
  - unfold front_state. heap_fields. apply zget_zset_eq. lia.
  - unfold front_state. heap_fields. apply zget_zset_eq. rewrite zlen_zset. lia.
  - lia.
  - unfold front_state. heap_len.
  - unfold front_state. heap_fields. intros j b Hj Hv. rewrite u32_small by lia. intros Had Hs0.
    destruct (decide (j = i)) as [->|Hji].
    { rewrite zget_zset_eq in Hj by (rewrite zlen_zset; lia). simplify_eq. heap_fields_in Had. lia. }
    rewrite zget_zset_ne in Hj by done. destruct (decide (j = nb)) as [->|Hjn].
    { rewrite zget_zset_eq in Hj by lia. simplify_eq. heap_fields_in Had. lia. }
    rewrite zget_zset_ne in Hj by done. exfalso. apply (alloc_apart j b); try done. lia.
Qed.

(** [malloc_front] takes the first [rs] bytes of block [i]. *)
Lemma malloc_front_run : rs <= sz →
  ∃ nb new ptr s', malloc_front i pos rs s = Ok (new : bool, s')
    ∧ (nb ∉ frees f l) ∧ 0 <= ptr ∧ 0 <= nb ∧ nb < (if new then nmemblk s + 1 else nmemblk s)
    ∧ spare (queued (memblkqueue s) ptr) (if new then nmemblk s + 1 else nmemblk s) (nb :: frees f l)
    ∧ taken s s' nb pos ptr (upd (upd (blk s0) nb (Some (a, 0))) i (Some (a + rs, sz - rs)))
        (upd (repoint (λ n, n) (ent s0) a nb) pos (Some (a, rs, nb, i))).
Proof.
  intros Hle. destruct alloc_block as (Hin & Hir & Ha & Hsz & Hpool & Hb).
  destruct alloc_take_block as (nb & new & ptr & Htake & Hnb & Hptr & Hnb0 & Hnb1 & Hq).
  pose proof (ok_lens _ _ _ Hok) as Hlen. destruct_and! Hlen. pose proof pool_small.
  pose proof (ok_nmemblk _ _ _ Hok).
  assert (nb < MAXBLKS) as Hnbm by (unfold s in Hnb1; heap_fields_in Hnb1; destruct new; lia).
  assert (nb ≠ i) as Hnbi by congruence.
  unfold malloc_front. run Htake. heap_fields.
  erewrite bind_Ok; [|apply get_block_run; exact Hb]. heap_fields.
  erewrite bind_Ok; [|apply put_block_run; unfold s; heap_len].
  erewrite bind_Ok; [|apply put_prec_run; unfold s; heap_len].
  erewrite bind_Ok by reflexivity.
  set (s2 := with_memory _ _). heap_fields.
  destruct (alloc_retarget s2 a nb (zset (precblock s2) pos (Some nb)) (trailblock s2))
    as (p' & t' & Hrun & Hlp & Hlt & Hpp & _ & Hl); try done.
  { unfold s2, s. heap_len. }
  { intros e He. rewrite zget_zset_ne by done. done. }
  run Hrun.
  erewrite bind_Ok; [|apply get_block_run; unfold s2, s; heap_fields; rewrite zget_zset_ne by done; exact Hb].
  heap_fields. rewrite !u32_small by lia.
  erewrite bind_Ok; [|apply put_add_run; unfold s2, s; heap_len].
  erewrite bind_Ok; [|apply put_size_run; unfold s2, s; heap_len].
  erewrite bind_Ok; [|apply put_block_run; unfold s2, s; heap_len].
  erewrite bind_Ok; [|apply put_trail_run; unfold s2, s; heap_len].
  erewrite bind_Ok; [|apply put_valid_run; unfold s2, s; heap_len].
  erewrite bind_Ok by reflexivity.
  exists nb, new, ptr, (front_state nb ptr p' t'). split_and!; try done.
  - erewrite bind_Ok; [reflexivity|]. exact (front_retire nb ptr p' t' ltac:(lia) Hnbi Hlt Hle).
  - split.
    + intros j. apply blk_zset2; [lia|lia|done].
    + intros e. apply (alloc_ent _ a nb); try done.
      * unfold front_state. heap_fields. apply Hpp, zget_zset_eq. unfold s2, s. heap_len.
      * unfold front_state. heap_fields. apply zget_zset_eq. lia.
      * intros e' a' n p t Hne' He'. destruct (Hl _ _ _ _ _ Hne' He') as [Hl1 Hl2].
        unfold front_state. heap_fields. rewrite zget_zset_ne by done. done.
    + intros j b. eapply (valid_zset2 s); [unfold s; heap_fields; lia|exact Hb|done|reflexivity].
    + intros e. apply valid_zset. unfold s. heap_fields. lia.
    + split_and!; done.
    + unfold front_state, s. heap_fields. rewrite !zlen_zset. split_and!; done.
Qed.

(** The state [malloc_inside] leaves *)
Definition inside_state (g nb ptr : Z) (p t : list (option Z)) : memmod :=
  with_entry (with_links (with_memory (set_blocks s (memory s) (memblkqueue s) ptr)
      (zset (zset (memory s0) nb {| address := a + g + rs; size := sz - rs - g; valid := 1 |}) i
         {| address := a; size := g; valid := 1 |}))
      (zset p pos (Some i)) t)
    (zset (mallocdeladd s0) pos (a + g)) (zset (memallocsize s0) pos rs)
    (zset (mallocdeladd_valid s0) pos 1).

(** [malloc_inside] leaves the first [g] bytes of block [i] and takes the next
    [rs]. *)
Lemma malloc_inside_run (g : Z) : 0 < g → g + rs <= sz →
  ∃ nb new ptr s', malloc_inside i pos rs g s = Ok (new : bool, s')
    ∧ (nb ∉ frees f l) ∧ 0 <= ptr ∧ 0 <= nb ∧ nb < (if new then nmemblk s + 1 else nmemblk s)
    ∧ spare (queued (memblkqueue s) ptr) (if new then nmemblk s + 1 else nmemblk s) (nb :: frees f l)
    ∧ taken s s' nb pos ptr
        (upd (upd (blk s0) nb (Some (a + g + rs, sz - rs - g))) i (Some (a, g)))
        (upd (repoint (λ n, n) (ent s0) (a + sz) nb) pos (Some (a + g, rs, i, nb))).
Proof.
  intros Hg Hle. destruct alloc_block as (Hin & Hir & Ha & Hsz & Hpool & Hb).
  destruct alloc_take_block as (nb & new & ptr & Htake & Hnb & Hptr & Hnb0 & Hnb1 & Hq).
  pose proof (ok_lens _ _ _ Hok) as Hlen. destruct_and! Hlen. pose proof pool_small.
  pose proof (ok_nmemblk _ _ _ Hok).
  assert (nb < MAXBLKS) as Hnbm by (unfold s in Hnb1; heap_fields_in Hnb1; destruct new; lia).
  assert (nb ≠ i) as Hnbi by congruence.
  unfold malloc_inside. erewrite bind_Ok; [|apply get_block_run; exact Hb]. run Htake.
  heap_fields. rewrite (u32_small (sz - rs - g)), (u32_small (a + g + rs)) by lia.
  rewrite u32_small by lia. replace (a + g + rs + (sz - rs - g)) with (a + sz) by lia.
  erewrite bind_Ok; [|apply put_block_run; unfold s; heap_len].
  erewrite bind_Ok; [|apply put_trail_run; unfold s; heap_len].
  erewrite bind_Ok by reflexivity.
  set (s2 := with_memory _ _). heap_fields.
  destruct (alloc_retarget s2 (a + sz) nb (precblock s2) (zset (trailblock s2) pos (Some nb)))
    as (p' & t' & Hrun & Hlp & Hlt & _ & Htt & Hl); try done.
  { unfold s2, s. heap_len. }
  { intros e He. rewrite zget_zset_ne by done. done. }
  run Hrun.
  erewrite bind_Ok; [|apply put_size_run; unfold s2, s; heap_len].
  erewrite bind_Ok; [|apply get_block_run; unfold s2, s; heap_fields; rewrite zget_zset_ne by done; exact Hb].
  heap_fields. rewrite !u32_small by lia.
  erewrite bind_Ok; [|apply put_block_run; unfold s2, s; heap_len].
  erewrite bind_Ok; [|apply put_add_run; unfold s2, s; heap_len].
  erewrite bind_Ok; [|apply put_prec_run; unfold s2, s; heap_len].
  erewrite bind_Ok; [|apply put_valid_run; unfold s2, s; heap_len].
  exists nb, new, ptr, (inside_state g nb ptr p' t'). split_and!; try done.
  split.
  - intros j. apply blk_zset2; [lia|lia|done].
  - intros e. apply (alloc_ent _ (a + sz) nb); try done.
    + unfold inside_state. heap_fields. apply zget_zset_eq. lia.
    + unfold inside_state. heap_fields. apply Htt, zget_zset_eq. unfold s2, s. heap_len.
    + intros e' a' n p t Hne' He'. destruct (Hl _ _ _ _ _ Hne' He') as [Hl1 Hl2].
      unfold inside_state. heap_fields. rewrite zget_zset_ne by done. done.
  - intros j b. eapply (valid_zset2 s); [unfold s; heap_fields; lia|exact Hb|done|reflexivity].
  - intros e. apply valid_zset. unfold s. heap_fields. lia.
  - split_and!; done.
  - unfold inside_state, s. heap_fields. rewrite !zlen_zset. split_and!; done.
Qed.

End Allocate.
