(* ===== verification/FuzzPool.v ===== *)
(** * The allocator of the SMC fuzzing module: what it promises

    The live allocations as a list of addresses and sizes, and what
    [smcmalloc()] and [smcfree()] do to it. *)

From S2P Require Import Prelude Bits FuzzMalloc FuzzHeap FuzzAlloc.

Local Open Scope Z_scope.

(** The address and size of every live entry *)
Definition live (m : memmod) : list (Z * Z) :=
  omap (λ e, base <$> ent m e) (seqZ 0 (cntdeladd m)).

Lemma omap_filter_perm {A} (g : Z → option A) (L : list Z) (l : list Z) :
  NoDup L → NoDup l → (∀ e, e ∈ l → e ∈ L) → (∀ e, e ∈ L → e ∉ l → g e = None) →
  omap g L ≡ₚ omap g l.
Proof.
  revert l. induction L as [|x L IH]; intros l HL Hl Hin Hout.
  - destruct l as [|y l]; [done|]. by destruct (not_elem_of_nil y (Hin y ltac:(left))).
  - apply NoDup_cons in HL as [Hx HL]. destruct (decide (x ∈ l)) as [Hxl|Hxl].
    + apply elem_of_Permutation in Hxl as [k Hk]. rewrite Hk in Hl. apply NoDup_cons in Hl as [Hxk Hlk].
      assert (omap g L ≡ₚ omap g k) as Hp.
      { apply IH; [done|done| |].
        - intros e He. destruct (proj1 (elem_of_cons L e x)) as [->|]; [|done|done].
          apply Hin. rewrite Hk. by right.
        - intros e He Hek. apply Hout; [by right|]. rewrite Hk. intros [->|?]%elem_of_cons; done. }
      rewrite Hk. cbn. destruct (g x); by rewrite Hp.
    + cbn. rewrite (Hout x ltac:(left) Hxl). apply IH; [done|done| |].
      * intros e He. destruct (proj1 (elem_of_cons L e x) (Hin e He)) as [->|]; done.
      * intros e He Hek. apply Hout; [by right|done].
Qed.

Lemma live_allocs (m : memmod) (l : list (Z * Z)) :
  NoDup (ents l) → (∀ e, zget (mallocdeladd_valid m) e = Some 1 ↔ e ∈ ents l) →
  (∀ e, e ∈ ents l → 0 <= e < cntdeladd m) → live m ≡ₚ allocs (ent m) l.
Proof.
  intros Hnd Hv Hr. unfold live, allocs. apply omap_filter_perm; [apply NoDup_seqZ|done| |].
  - intros e He. apply elem_of_seqZ. specialize (Hr e He). lia.
  - intros e _ He. rewrite ent_None; [done|]. by rewrite Hv.
Qed.

Lemma live_ok (m : memmod) (f : Z) (l : list (Z * Z)) : heap_ok m f l → live m ≡ₚ allocs (ent m) l.
Proof. intros Hok. apply live_allocs; apply Hok. Qed.

(** The outcome of an allocation in terms of what was taken *)
Section Outcome.

Context (s : memmod) (f : Z) (l : list (Z * Z)) (Hok : heap_ok s f l).
Context (qc pos : Z) (newe : bool) (nb ptr : Z) (newb : bool) (s' : memmod) (B1 : blocks) (E1 : entries).
Let C := if newe then cntdeladd s + 1 else cntdeladd s.
Let N := if newb then nmemblk s + 1 else nmemblk s.
Context (Hqc : 0 <= qc) (Hpos : 0 <= pos < C) (Hfresh : pos ∉ ents l)
  (Hreuse : spare (queued (mallocdeladd_queue s) qc) C (pos :: ents l)).
Context (Hptr : 0 <= ptr) (Hnb : 0 <= nb < N) (Hnbf : nb ∉ frees f l)
  (Hqueue : spare (queued (memblkqueue s) ptr) N (nb :: frees f l)).
Context (Htk : taken (set_reuse s (mallocdeladd_queue s) qc) s' nb pos ptr B1 E1).
Context (f' : Z) (l' : list (Z * Z)) (Hc : chain B1 E1 0 f' l')
  (He : ents l' ≡ₚ pos :: ents l) (Hf : frees f' l' ≡ₚ nb :: frees f l).

Lemma outcome_heap : N < MAXBLKS → C < MAXBLKS →
  heap_ok (set_counts s' N (N - 1) C 0) f' l'.
Proof.
  intros HN HC. pose proof (ok_nmemblk _ _ _ Hok). pose proof (ok_cnt _ _ _ Hok).
  destruct (tk_counts _ _ _ _ _ _ _ Htk) as (? & Hmax & _ & _ & Hcn & _ & Hbq & Hdq & Hp).
  heap_fields_in Hmax. heap_fields_in Hcn. heap_fields_in Hbq. heap_fields_in Hdq.
  pose proof (ok_lens _ _ _ Hok) as Hl0. pose proof (tk_lens _ _ _ _ _ _ _ Htk) as Hl1.
  split; heap_fields.
  - apply (chain_ext B1 _ E1); [done| |]; intros; apply Htk.
  - rewrite Hf. apply NoDup_cons. split; [done|apply Hok].
  - rewrite He. apply NoDup_cons. split; [done|apply Hok].
  - intros i b Hb. rewrite (tk_valid_blk _ _ _ _ _ _ _ Htk i b Hb), Hf, elem_of_cons. heap_fields.
    split; (intros [->|Hx]; [by left|right]).
    + destruct Hx as (b0 & Hb0 & Hv0). by apply (ok_blk _ _ _ Hok i b0).
    + pose proof (ok_blk_range _ _ _ Hok _ Hx). destruct_and! Hl0.
      destruct (zget_is_Some (memory s) i) as [b0 Hb0]; [lia|]. exists b0. split; [done|].
      by apply (ok_blk _ _ _ Hok i b0).
  - intros i. rewrite Hf, elem_of_cons. intros [->|Hi]; [lia|].
    pose proof (ok_blk_range _ _ _ Hok _ Hi). unfold N. destruct newb; lia.
  - intros e. rewrite He, elem_of_cons. rewrite (tk_valid_ent _ _ _ _ _ _ _ Htk). heap_fields.
    by rewrite (ok_ent _ _ _ Hok).
  - intros e. rewrite He, elem_of_cons. intros [->|Hi]; [lia|].
    pose proof (ok_ent_range _ _ _ Hok _ Hi). unfold C. destruct newe; lia.
  - rewrite Hbq, Hp. by eapply spare_perm.
  - rewrite Hdq, Hcn. by eapply spare_perm.
  - lia.
  - done.
  - lia.
  - lia.
  - lia.
  - rewrite Hmax. apply Hok.
  - rewrite Hbq, Hdq. destruct_and! Hl0. destruct_and! Hl1. split_and!; done.
  - done.
Qed.

Lemma outcome_allocs (err : Z) : live (set_counts s' N (N - 1) C err) ≡ₚ allocs E1 l'.
Proof.
  pose proof (ok_cnt _ _ _ Hok). rewrite (live_allocs _ l'); heap_fields.
  - apply allocs_perm; [done|]. intros e _. f_equal. apply Htk.
  - rewrite He. apply NoDup_cons. split; [done|apply Hok].
  - intros e. rewrite He, elem_of_cons. rewrite (tk_valid_ent _ _ _ _ _ _ _ Htk). heap_fields.
    by rewrite (ok_ent _ _ _ Hok).
  - intros e. rewrite He, elem_of_cons. intros [->|Hi]; [lia|].
    pose proof (ok_ent_range _ _ _ Hok _ Hi). unfold C. destruct newe; lia.
Qed.

Lemma outcome_live (x rs P T err : Z) :
  E1 pos = Some (x, rs, P, T) → (∀ e, e ≠ pos → base <$> E1 e = base <$> ent s e) →
  live (set_counts s' N (N - 1) C err) ≡ₚ (x, rs) :: live s.
Proof.
  intros Hx HE. rewrite outcome_allocs, (live_ok s f l Hok). unfold allocs.
  transitivity (omap (λ e, base <$> E1 e) (pos :: ents l)); [by apply allocs_perm|].
  cbn. rewrite Hx. cbn. constructor. apply allocs_perm; [done|]. intros e Hin. apply HE. congruence.
Qed.

End Outcome.

(** ** The alignment *)

Lemma bit_one (x i : Z) : 0 <= i → (Z.land (Z.shiftr x i) 1 =? 1) = Z.testbit x i.
Proof.
  intros Hi. change 1 with (Z.ones 1) at 1. rewrite Z.land_ones, Z.shiftr_div_pow2 by lia.
  change (2 ^ 1) with 2. rewrite <- Z.testbit_spec' by done. by destruct (Z.testbit x i).
Qed.

(** Once the top bit is found, the loop only counts. *)
Lemma pe_loop_below (n : nat) (num tb c : Z) : Z.of_nat n < tb →
  (pe_loop n num tb c).1 = tb ∧ c <= (pe_loop n num tb c).2
  ∧ ((pe_loop n num tb c).2 = c ↔ ∀ i, 1 <= i <= Z.of_nat n → Z.testbit num i = false).
Proof.
  revert c. induction n as [|n IH]; intros c Htb.
  { cbn. split_and!; [done|lia|]. split; [intros; lia|done]. }
  cbn [pe_loop]. rewrite bit_one by lia. destruct (Z.testbit num (Z.of_nat (S n))) eqn:Hb.
  - destruct (Z.ltb_spec tb (Z.of_nat (S n))); [lia|].
    destruct (IH (c + 1) ltac:(lia)) as (H1 & H2 & H3). split_and!; [done|lia|]. split; [lia|].
    intros Hz. by rewrite Hz in Hb by lia.
  - destruct (IH c ltac:(lia)) as (H1 & H2 & H3). split_and!; [done|lia|]. rewrite H3. split.
    + intros Hz i Hi. destruct (decide (i = Z.of_nat (S n))) as [->|]; [done|]. apply Hz. lia.
    + intros Hz i Hi. apply Hz. lia.
Qed.

Lemma pe_loop_top (n : nat) (num : Z) : 1 <= Z.log2 num <= Z.of_nat n →
  (pe_loop n num 0 0).1 = Z.log2 num ∧ 1 <= (pe_loop n num 0 0).2
  ∧ ((pe_loop n num 0 0).2 = 1 ↔ ∀ i, 1 <= i < Z.log2 num → Z.testbit num i = false).
Proof.
  intros Hn. assert (0 < num) as Hpos by (destruct (Z.lt_ge_cases 0 num) as [|Hneg]; [done|];
    rewrite (Z.log2_nonpos num Hneg) in Hn; lia).
  revert Hn. induction n as [|n IH]; intros Hn; [lia|]. cbn [pe_loop]. rewrite bit_one by lia.
  destruct (decide (Z.log2 num = Z.of_nat (S n))) as [Hk|Hk].
  - rewrite <- Hk, Z.bit_log2 by done. destruct (Z.ltb_spec 0 (Z.log2 num)); [|lia].
    destruct (pe_loop_below n num (Z.log2 num) (0 + 1) ltac:(lia)) as (H1 & H2 & H3).
    split_and!; [done|lia|]. rewrite H3. split; intros Hz i Hi; apply Hz; lia.
  - rewrite Z.bits_above_log2 by lia. apply IH. lia.
Qed.

Lemma low_bits_zero (num : Z) : 0 < num →
  (∀ i, 0 <= i < Z.log2 num → Z.testbit num i = false) → num = 2 ^ Z.log2 num.
Proof.
  intros Hp Hz. apply Z.bits_inj'. intros i Hi. rewrite Z.pow2_bits_eqb by apply Z.log2_nonneg.
  destruct (Z.eqb_spec (Z.log2 num) i) as [<-|Hne]; [by apply Z.bit_log2|].
  destruct (Z.lt_ge_cases i (Z.log2 num)); [by apply Hz|]. apply Z.bits_above_log2; lia.
Qed.

(** The power of two an allocation of [rs] bytes is aligned to *)
Definition alignment (rs : Z) : Z := 2 ^ Z.log2_up rs.
Definition alignnum (rs : Z) : Z :=
  let prt := priorityencoder rs in
  if pow2 prt =? 1 then u32 (Z.shiftl 1 (tbit prt)) else u32 (Z.shiftl 1 (tbit prt + 1)).

Lemma priorityencoder_spec (rs : Z) : 2 <= rs < 2 ^ (TOPBITSIZE + 1) →
  tbit (priorityencoder rs) = Z.log2 rs
  ∧ pow2 (priorityencoder rs) = if bool_decide (rs = 2 ^ Z.log2 rs) then 1 else 0.
Proof.
  intros Hrs. assert (1 <= Z.log2 rs <= Z.of_nat (Z.to_nat TOPBITSIZE)) as Hlog.
  { split; [change 1 with (Z.log2 2); apply Z.log2_le_mono; lia|].
    change (Z.of_nat (Z.to_nat TOPBITSIZE)) with TOPBITSIZE.
    apply Z.lt_succ_r, Z.log2_lt_pow2; [lia|]. apply Hrs. }
  destruct (pe_loop_top _ rs Hlog) as (H1 & H2 & H3). unfold priorityencoder. cbn [tbit pow2].
  split; [done|]. replace (Z.land rs 1 =? 1) with (Z.testbit rs 0)
    by (by rewrite <- bit_one, Z.shiftr_0_r).
  destruct (Z.testbit rs 0) eqn:H0.
  - rewrite (proj2 (Z.eqb_neq _ _)) by lia. rewrite bool_decide_eq_false_2; [done|]. intros Heq.
    rewrite Heq, Z.pow2_bits_false in H0 by lia. done.
  - destruct (Z.eqb_spec (pe_loop (Z.to_nat TOPBITSIZE) rs 0 0).2 1) as [Hc|Hc].
    + rewrite bool_decide_eq_true_2; [done|]. apply low_bits_zero; [lia|]. intros i Hi.
      destruct (decide (i = 0)) as [->|]; [done|]. apply (proj1 H3 Hc). lia.
    + rewrite bool_decide_eq_false_2; [done|]. intros Heq. apply Hc, H3. intros i Hi.
      rewrite Heq. apply Z.pow2_bits_false. lia.
Qed.

Lemma alignnum_spec (rs : Z) : 2 <= rs < 2 ^ (TOPBITSIZE + 1) → alignnum rs = alignment rs.
Proof.
  intros Hrs. destruct (priorityencoder_spec rs Hrs) as [Ht Hp]. unfold alignnum, alignment.
  rewrite Ht, Hp. assert (0 <= Z.log2 rs <= 20) as Hlog.
  { split; [apply Z.log2_nonneg|]. apply Z.lt_succ_r, Z.log2_lt_pow2; [lia|]. apply Hrs. }
  assert (2 ^ Z.log2 rs <= 2 ^ 21 ∧ 2 ^ (Z.log2 rs + 1) <= 2 ^ 21) as [Hm1 Hm2]
    by (split; apply Z.pow_le_mono_r; lia).
  pose proof (Z.pow_pos_nonneg 2 (Z.log2 rs)). pose proof (Z.pow_pos_nonneg 2 (Z.log2 rs + 1)).
  change (2 ^ 21) with 2097152 in *.
  rewrite !Z.shiftl_1_l, !u32_small by (unfold UINT32_MAX; lia).
  destruct (decide (rs = 2 ^ Z.log2 rs)) as [Heq|Hne].
  - rewrite bool_decide_eq_true_2 by done. cbn [Z.eqb Pos.eqb].
    rewrite (proj2 (Z.log2_log2_up_exact rs ltac:(lia))); [done|]. by eexists.
  - rewrite bool_decide_eq_false_2 by done. cbn [Z.eqb]. f_equal.
    pose proof (Z.le_log2_log2_up rs). pose proof (Z.le_log2_up_succ_log2 rs).
    assert (Z.log2 rs ≠ Z.log2_up rs); [|lia]. intros Hx.
    apply Z.log2_log2_up_exact in Hx as [b Hb]; [|lia]. apply Hne. rewrite Hb.
    destruct (Z.lt_ge_cases b 0); [rewrite Z.pow_neg_r in Hb by done; lia|]. by rewrite Z.log2_pow2.
Qed.

(** Beyond that, the result is still a positive number. *)
Lemma alignnum_pos (rs : Z) : 0 < alignnum rs.
Proof.
  unfold alignnum. assert (0 <= tbit (priorityencoder rs) <= 20) as Ht.
  { unfold priorityencoder. cbn [tbit]. change 20 with (Z.of_nat (Z.to_nat TOPBITSIZE)).
    assert (∀ n tb c, 0 <= tb <= Z.of_nat (Z.to_nat TOPBITSIZE) → (n <= Z.to_nat TOPBITSIZE)%nat →
      0 <= (pe_loop n rs tb c).1 <= Z.of_nat (Z.to_nat TOPBITSIZE)) as Hg.
    { induction n as [|n IH]; intros tb c Htb Hn; [done|]. cbn [pe_loop].
      destruct (_ =? 1); apply IH; try lia. destruct (tb <? _); lia. }
    apply Hg; lia. }
  assert (∀ k, 0 <= k <= 21 → 0 < u32 (Z.shiftl 1 k)) as Hu.
  { intros k Hk. rewrite Z.shiftl_1_l. pose proof (Z.pow_pos_nonneg 2 k).
    assert (2 ^ k <= 2 ^ 21) by (apply Z.pow_le_mono_r; lia). change (2 ^ 21) with 2097152 in *.
    rewrite u32_small; unfold UINT32_MAX; lia. }
  destruct (_ =? 1); apply Hu; lia.
Qed.

(** ** smcmalloc() *)

(** The bytes up to the next multiple of [al] *)
Definition pad (al a : Z) : Z := if a mod al =? 0 then 0 else al - a mod al.

Lemma pad_range (al a : Z) : 0 < al → 0 <= pad al a < al.
Proof.
  intros Hal. pose proof (Z.mod_pos_bound a al Hal). unfold pad.
  destruct (Z.eqb_spec (a mod al) 0); lia.
Qed.

Lemma pad_aligned (al a : Z) : 0 < al → (a + pad al a) mod al = 0.
Proof.
  intros Hal. unfold pad. destruct (Z.eqb_spec (a mod al) 0) as [Hz|].
  - by rewrite Z.add_0_r.
  - rewrite (Z.div_mod a al) at 1 by lia.
    replace (al * (a / al) + a mod al + (al - a mod al)) with ((a / al + 1) * al) by lia.
    apply Z.mod_mul. lia.
Qed.

(** It is the first multiple. *)
Lemma pad_least (al a x : Z) : 0 < al → a <= x → x mod al = 0 → a + pad al a <= x.
Proof.
  intros Hal Hx Hm. apply Z.mod_divide in Hm as [k ->]; [|lia]. unfold pad.
  destruct (Z.eqb_spec (a mod al) 0) as [|Hne]; [lia|].
  pose proof (Z.div_mod a al ltac:(lia)). pose proof (Z.mod_pos_bound a al Hal).
  assert (a / al < k) as Hk by (apply Z.div_lt_upper_bound; [done|]; assert (a ≠ al * k); [|lia];
    intros ->; apply Hne; rewrite Z.mul_comm; by apply Z.mod_mul; lia).
  assert (al * (a / al + 1) <= al * k) by (apply Z.mul_le_mono_nonneg_l; lia). lia.
Qed.

(** The guard of the search *)
Lemma fits_spec (al rs a sz v : Z) : 0 < al → 0 < rs → 0 <= sz <= POOL →
  (rs <=? u32 (sz - (if a mod al =? 0 then 0 else al - a mod al)))
    && ((if a mod al =? 0 then 0 else al - a mod al) <? sz) && (v =? 1)
  = bool_decide (pad al a + rs <= sz ∧ v = 1).
Proof.
  intros Hal Hrs Hsz. pose proof (pad_range al a Hal). pose proof pool_small. fold (pad al a).
  destruct (Z.ltb_spec (pad al a) sz) as [Hlt|Hge].
  - rewrite u32_small by lia. destruct (Z.leb_spec rs (sz - pad al a)), (Z.eqb_spec v 1); cbn [andb];
      symmetry; (apply bool_decide_eq_true_2 || apply bool_decide_eq_false_2); lia.
  - rewrite andb_false_r. cbn [andb]. symmetry. apply bool_decide_eq_false_2. lia.
Qed.

Section Malloc.

Context (s : memmod) (f : Z) (l : list (Z * Z)) (Hok : heap_ok s f l).
Context (rs al : Z) (Hrs : 0 < rs) (Hal : 0 < al).

(** The allocation [x] from the block [i], as the search leaves it: [newe] and
    [newb] say whether the tables grow. *)
Definition allocated (i pos x : Z) (newe newb : bool) (s' : memmod) : Prop :=
  ∃ qc nb ptr B1 E1 P T f' l',
    let C := if newe then cntdeladd s + 1 else cntdeladd s in
    let N := if newb then nmemblk s + 1 else nmemblk s in
    (0 <= qc ∧ 0 <= pos < C ∧ (pos ∉ ents l)
     ∧ spare (queued (mallocdeladd_queue s) qc) C (pos :: ents l))
    ∧ (0 <= ptr ∧ 0 <= nb < N ∧ (nb ∉ frees f l)
       ∧ spare (queued (memblkqueue s) ptr) N (nb :: frees f l))
    ∧ taken (set_reuse s (mallocdeladd_queue s) qc) s' nb pos ptr B1 E1
    ∧ (chain B1 E1 0 f' l' ∧ ents l' ≡ₚ pos :: ents l ∧ frees f' l' ≡ₚ nb :: frees f l)
    ∧ E1 pos = Some (x, rs, P, T) ∧ ∀ e, e ≠ pos → base <$> E1 e = base <$> ent s e.

(** Allocating from a block that fits *)
Lemma pool_allocate_run (i a sz pos qc : Z) (newe : bool) :
  blk s i = Some (a, sz) → pad al a + rs <= sz →
  take_entry s = Ok ((pos, newe), set_reuse s (mallocdeladd_queue s) qc) →
  (pos ∉ ents l) → 0 <= qc → 0 <= pos → pos < (if newe then cntdeladd s + 1 else cntdeladd s) →
  spare (queued (mallocdeladd_queue s) qc) (if newe then cntdeladd s + 1 else cntdeladd s) (pos :: ents l) →
  ∃ newb s', (if a mod al =? 0 then malloc_front i pos rs else malloc_inside i pos rs (al - a mod al))
      (set_reuse s (mallocdeladd_queue s) qc) = Ok (newb : bool, s')
    ∧ allocated i pos (a + pad al a) newe newb s'.
Proof.
  intros Hi Hfit Htake Hfresh Hqc Hp0 Hp1 Hre. pose proof (ok_cnt _ _ _ Hok).
  assert (0 <= pos < MAXBLKS) as Hpm by (destruct newe; lia).
  pose proof (proj1 (blk_Some _ _ _ _) Hi) as Hb.
  pose proof (proj1 (ok_blk _ _ _ Hok _ _ Hb) eq_refl) as Hin.
  pose proof (ok_chain _ _ _ Hok) as Hc. pose proof (ok_frees _ _ _ Hok). pose proof (ok_ents _ _ _ Hok).
  unfold pad in *. destruct (Z.eqb_spec (a mod al) 0) as [Hm|Hm].
  - destruct (malloc_front_run s f l Hok (mallocdeladd_queue s) qc pos i a sz rs Hpm Hi Hrs ltac:(lia))
      as (nb & newb & ptr & s' & Hrun & Hnb & Hptr & Hnb0 & Hnb1 & Hq & Htk).
    destruct (chain_front _ _ i a sz rs nb pos Hi ltac:(lia) _ _ _ Hc) as (l' & Hc' & He' & Hf'); try done.
    exists newb, s'. split; [done|]. eexists qc, nb, ptr, _, _, nb, i, _, l'. cbn zeta.
    split_and!; try done; try lia.
    + rewrite upd_eq. by rewrite Z.add_0_r.
    + intros e Hne. rewrite upd_ne by done. apply repoint_base.
  - pose proof (Z.mod_pos_bound a al Hal).
    destruct (malloc_inside_run s f l Hok (mallocdeladd_queue s) qc pos i a sz rs Hpm Hi Hrs
      (al - a mod al) ltac:(lia) ltac:(lia))
      as (nb & newb & ptr & s' & Hrun & Hnb & Hptr & Hnb0 & Hnb1 & Hq & Htk).
    destruct (chain_inside _ (ent s) i a sz (al - a mod al) rs nb pos Hi ltac:(lia) ltac:(lia) ltac:(lia) _ _ _ Hc)
      as (l' & Hc' & He' & Hf'); try done.
    exists newb, s'. split; [done|]. eexists qc, nb, ptr, _, _, i, nb, _, l'. cbn zeta.
    split_and!; try done; try lia.
    + by rewrite upd_eq.
    + intros e Hne. rewrite upd_ne by done. apply repoint_base.
Qed.

Lemma guard_false (i : Z) (b : memblk) : zget (memory s) i = Some b →
  ¬ (valid b = 1 ∧ pad al (address b) + rs <= size b) →
  (rs <=? u32 (size b - (if address b mod al =? 0 then 0 else al - address b mod al)))
    && ((if address b mod al =? 0 then 0 else al - address b mod al) <? size b) && (valid b =? 1) = false.
Proof.
  intros Hb Hno. destruct (Z.eqb_spec (valid b) 1) as [Hv|]; [|by rewrite andb_false_r].
  assert (blk s i = Some (address b, size b)) as Hblk.
  { apply blk_Some. rewrite Hb. destruct b; cbn in *; by subst. }
  destruct (alloc_block s f l Hok i _ _ Hblk) as (_ & _ & Ha & Hsz & Hpool & _).
  change true with (1 =? 1). rewrite fits_spec by (done || lia). apply bool_decide_eq_false_2. naive_solver.
Qed.

(** The first block that fits is used; without one nothing happens. *)
Lemma malloc_loop_run (n : nat) (i : Z) : 0 <= i → i + Z.of_nat n <= nmemblk s →
  (malloc_loop rs al n i s = Ok (None, s)
   ∧ ∀ j a sz, i <= j < i + Z.of_nat n → blk s j = Some (a, sz) → sz < pad al a + rs)
  ∨ ∃ j a sz pos newe newb s', i <= j < i + Z.of_nat n ∧ blk s j = Some (a, sz) ∧ pad al a + rs <= sz
    ∧ allocated j pos (a + pad al a) newe newb s'
    ∧ malloc_loop rs al n i s = Ok (Some (pos, newb),
        if newe : bool then
          set_counts s' (nmemblk s') (memptrend s') (u32 (cntdeladd s' + 1))
            (if maxmemblk s' <=? u32 (cntdeladd s' + 1) then 2 else memerror s')
        else s').
Proof.
  revert i. induction n as [|n IH]; intros i Hi Hn.
  { left. split; [done|]. intros; lia. }
  pose proof (ok_lens _ _ _ Hok) as Hlen. destruct_and! Hlen. pose proof (ok_nmemblk _ _ _ Hok).
  destruct (zget_is_Some (memory s) i) as [b Hb]; [lia|]. cbn [malloc_loop].
  rewrite (bind_Ok _ _ _ _ _ (get_block_run _ _ _ Hb)).
  destruct (decide (valid b = 1 ∧ pad al (address b) + rs <= size b)) as [[Hv Hfit]|Hno].
  - right. assert (blk s i = Some (address b, size b)) as Hblk.
    { apply blk_Some. rewrite Hb. destruct b; cbn in *; by subst. }
    destruct (alloc_block s f l Hok i _ _ Hblk) as (_ & _ & Ha & Hsz & Hpool & _).
    rewrite fits_spec, bool_decide_eq_true_2 by (done || lia).
    destruct (take_entry_run s f l Hok) as (pos & newe & qc & Htake & Hfresh & Hqc & Hp0 & Hp1 & Hre).
    destruct (pool_allocate_run i _ _ pos qc newe Hblk Hfit Htake) as (newb & s' & Hrun & Hall); try done.
    exists i, (address b), (size b), pos, newe, newb, s'. split_and!; try done; try lia.
    run Htake. heap_fields. run Hrun. destruct newe; [|reflexivity].
    by erewrite bind_Ok by reflexivity.
  - assert (∀ a sz, blk s i = Some (a, sz) → sz < pad al a + rs) as Hnofit.
    { intros a sz Hblk. apply blk_Some in Hblk. rewrite Hb in Hblk. simplify_eq. cbn in Hno. lia. }
    rewrite (guard_false i) by done.
    destruct (IH (i + 1) ltac:(lia) ltac:(lia)) as [[Hrun Hnone]|(j & a & sz & pos & newe & newb & s' & Hj & Hrest)].
    + left. split; [done|]. intros j a sz Hj Hblk. destruct (decide (j = i)) as [->|]; [by apply Hnofit|].
      apply (Hnone j); [lia|done].
    + right. exists j, a, sz, pos, newe, newb, s'. split; [lia|done].
Qed.

End Malloc.

(** Regions that do not overlap *)
Definition apart (r r' : Z * Z) : Prop := r.1 + r.2 <= r'.1 ∨ r'.1 + r'.2 <= r.1.

#[global] Instance apart_sym : Symmetric apart.
Proof. intros r r' [H|H]; [by right|by left]. Qed.

Lemma pairs_perm {A} (R : A → A → Prop) `{!Symmetric R} (L L' : list A) :
  L ≡ₚ L' → ForallOrdPairs R L → ForallOrdPairs R L'.
Proof.
  induction 1 as [|x L L' Hp IH|x y L|L L2 L' _ IH1 _ IH2]; intros HL.
  - done.
  - inversion HL; subst. constructor; [by rewrite <- Hp|by apply IH].
  - inversion HL as [|? ? Hy HL']; subst. inversion HL' as [|? ? Hx HL'']; subst.
    apply Forall_cons in Hy as [Hyx Hy]. constructor; [|by constructor].
    apply Forall_cons. split; [by symmetry|done].
  - by apply IH2, IH1.
Qed.

Lemma chain_allocs (B : blocks) (E : entries) (a f : Z) (l : list (Z * Z)) :
  chain B E a f l →
  ForallOrdPairs apart (allocs E l) ∧ Forall (λ r, a <= r.1 ∧ 0 < r.2 ∧ r.1 + r.2 <= POOL) (allocs E l).
Proof.
  unfold allocs. induction 1 as [a f s Hf Hs He|a f s e n t l Hf Hs He Hn Hc [IH1 IH2]].
  - split; constructor.
  - cbn. rewrite He. cbn. destruct (chain_head _ _ _ _ _ Hc) as (st & _ & Hst & Hle).
    split; constructor; cbn; try done.
    + eapply Forall_impl; [exact IH2|]. intros r (H1 & _). left. cbn. lia.
    + lia.
    + eapply Forall_impl; [exact IH2|]. cbn. intros r ?. lia.
Qed.

(** A region clear of every allocation lies in one free block. *)
Lemma chain_gap (B : blocks) (E : entries) (a f : Z) (l : list (Z * Z)) (x n : Z) :
  chain B E a f l → a <= x → 0 < n → x + n <= POOL → Forall (apart (x, n)) (allocs E l) →
  ∃ i b s, i ∈ frees f l ∧ B i = Some (b, s) ∧ b <= x ∧ x + n <= b + s.
Proof.
  intros Hc. induction Hc as [a f s Hf Hs He|a f s e m t l Hf Hs He Hm Hc IH]; intros Ha Hn Hp Hap.
  - exists f, a, s. split_and!; [left|done|lia|lia].
  - unfold allocs in Hap. cbn in Hap. rewrite He in Hap. cbn in Hap.
    apply Forall_cons in Hap as [[H1|H1] Hap]; cbn in H1.
    + exists f, a, s. split_and!; [left|done|lia|lia].
    + destruct (IH ltac:(lia) Hn Hp Hap) as (i & b & s' & Hi & Hrest).
      exists i, b, s'. split; [by right|done].
Qed.

Section Smcmalloc.

Context (s : memmod) (f : Z) (l : list (Z * Z)) (Hok : heap_ok s f l).

(** The error left by an allocation that grows the tables to [N] and [C] *)
Definition grow_error (newe newb : bool) (C N : Z) : Z :=
  if newb && (MAXBLKS <=? N) then 3 else if newe && (MAXBLKS <=? C) then 2 else 0.

Lemma smcmalloc_run (rsize : Z) :
  let rs := if rsize <? 16 then 16 else rsize in
  let al := alignnum rs in
  (smcmalloc rsize s = Ok (TOTALMEMORYSIZE / BLKSPACEDIV + default 0 (zget (mallocdeladd s) 0),
     set_counts s (nmemblk s) (memptrend s) (cntdeladd s) 4)
   ∧ ∀ j a sz, blk s j = Some (a, sz) → sz < pad al a + rs)
  ∨ ∃ j a sz pos (newe newb : bool) s', blk s j = Some (a, sz) ∧ pad al a + rs <= sz
    ∧ allocated s f l rs j pos (a + pad al a) newe newb s'
    ∧ let C := if newe then cntdeladd s + 1 else cntdeladd s in
      let N := if newb then nmemblk s + 1 else nmemblk s in
      smcmalloc rsize s = Ok (TOTALMEMORYSIZE / BLKSPACEDIV + (a + pad al a),
        set_counts s' N (N - 1) C (grow_error newe newb C N)).
Proof.
  cbn zeta. set (rs := if rsize <? 16 then 16 else rsize).
  assert (0 < rs) as Hrs by (unfold rs; destruct (Z.ltb_spec rsize 16); lia).
  pose proof (alignnum_pos rs) as Hal. pose proof (ok_lens _ _ _ Hok) as Hlen.
  pose proof (ok_nmemblk _ _ _ Hok) as Hnm. pose proof (ok_cnt _ _ _ Hok) as Hcn.
  assert (MAXBLKS < UINT32_MAX) as Hmax by done.
  destruct (malloc_loop_run s f l Hok rs (alignnum rs) Hrs Hal (Z.to_nat (nmemblk s)) 0)
    as [[Hrun Hnone]|(j & a & sz & pos & newe & newb & s' & Hj & Hblk & Hfit & Hall & Hrun)]; [lia|lia| |].
  - left. split.
    + unfold smcmalloc. fold rs. change (if pow2 (priorityencoder rs) =? 1 then _ else _) with (alignnum rs).
      erewrite bind_Ok by reflexivity. run Hrun. erewrite bind_Ok by reflexivity.
      erewrite bind_Ok by reflexivity. erewrite bind_Ok by reflexivity.
      destruct (zget_is_Some (mallocdeladd s) 0) as [x Hx]; [destruct_and! Hlen; lia|].
      heap_fields. rewrite Hx. by rewrite (bind_Ok _ _ _ _ _ (aget_Ok _ _ _ _ Hx)).
    + intros j a sz Hblk. apply (Hnone j); [|done].
      destruct (alloc_block s f l Hok j _ _ Hblk) as (_ & ? & _). lia.
  - right. exists j, a, sz, pos, newe, newb, s'. split_and!; try done.
    destruct Hall as (qc & nb & ptr & B1 & E1 & P & T & f' & l' & _ & _ & Htk & _ & HE & _).
    destruct (tk_counts _ _ _ _ _ _ _ Htk) as (Hn' & Hm' & Hp' & Hc' & _ & He' & _).
    heap_fields_in Hn'. heap_fields_in Hm'. heap_fields_in Hp'. heap_fields_in Hc'. heap_fields_in He'.
    pose proof (tk_ent _ _ _ _ _ _ _ Htk pos) as Hent. rewrite HE in Hent. apply ent_Some in Hent as (_ & Hadd & _).
    rewrite (ok_end _ _ _ Hok) in Hp'. rewrite (ok_err _ _ _ Hok) in He'. rewrite (ok_max _ _ _ Hok) in Hm'.
    unfold smcmalloc. fold rs. change (if pow2 (priorityencoder rs) =? 1 then _ else _) with (alignnum rs).
    erewrite bind_Ok by reflexivity. run Hrun. unfold grow_error.
    rewrite Hm', Hn', Hp', Hc', He'. rewrite u32_small by lia.
    destruct newb, newe; heap_fields; cbn [andb]; repeat erewrite bind_Ok by reflexivity; heap_fields.
    all: match goal with |- mbind _ (aget _ _) ?S = _ => rewrite (bind_Ok _ _ _ _ _ (aget_Ok _ _ _ S Hadd)) end.
    all: rewrite ?Hn', ?Hp', ?Hc', ?He', ?u32_small by lia.
    all: replace (nmemblk s - 1 + 1) with (nmemblk s + 1 - 1) by lia.
    all: unfold mret, M_ret; do 2 f_equal; try reflexivity.
    destruct s'; cbn in *; by subst.
Qed.

Lemma smcmalloc_heap (j pos x rs : Z) (newe newb : bool) (s' : memmod) :
  allocated s f l rs j pos x newe newb s' →
  let C := if newe then cntdeladd s + 1 else cntdeladd s in
  let N := if newb then nmemblk s + 1 else nmemblk s in
  let s'' := set_counts s' N (N - 1) C (grow_error newe newb C N) in
  live s'' ≡ₚ (x, rs) :: live s ∧ ForallOrdPairs apart (live s'')
  ∧ (memerror s'' = 0 → ∃ f' l', heap_ok s'' f' l')
  ∧ (memerror s'' = 0 ∨ memerror s'' = 2 ∧ cntdeladd s'' = MAXBLKS
     ∨ memerror s'' = 3 ∧ nmemblk s'' = MAXBLKS).
Proof.
  intros (qc & nb & ptr & B1 & E1 & P & T & f' & l' & (Hqc & Hpos & Hfresh & Hre) & (Hptr & Hnb & Hnbf & Hq)
    & Htk & (Hc & He & Hf) & HE & Hbase) C N s''. fold C in Hpos, Hre. fold N in Hnb, Hq.
  pose proof (ok_nmemblk _ _ _ Hok). pose proof (ok_cnt _ _ _ Hok).
  split_and!.
  - by eapply outcome_live.
  - apply (pairs_perm apart (allocs E1 l')); [|by eapply chain_allocs]. symmetry. by eapply outcome_allocs.
  - unfold s''. heap_fields. intros Herr. exists f', l'. rewrite Herr. unfold grow_error in Herr.
    apply (outcome_heap s f l Hok qc pos newe nb ptr newb s' B1 E1); try done; fold N C.
    + destruct (Z.leb_spec MAXBLKS N); [|lia]. unfold N in *. destruct newb; [done|lia].
    + destruct (Z.leb_spec MAXBLKS C); [|lia]. unfold C in *. destruct newe; [|lia].
      by destruct (newb && (MAXBLKS <=? N)).
  - unfold s'', grow_error, N, C. heap_fields.
    destruct newb, newe; cbn [andb]; 
      repeat match goal with |- context [MAXBLKS <=? ?x] => destruct (Z.leb_spec MAXBLKS x) end; lia.
Qed.

End Smcmalloc.
