(* ===== verification/FuzzFree.v ===== *)
(** * The allocator of the SMC fuzzing module: giving memory back

    [smcfree()] merges an allocation with the blocks around it, and every state
    the allocator can reach is a chain of blocks and allocations. *)

From S2P Require Import Prelude Bits FuzzMalloc FuzzHeap FuzzAlloc FuzzPool.

Local Open Scope Z_scope.

Section Free.

Context (s : memmod) (f : Z) (l : list (Z * Z)) (Hok : heap_ok s f l).
Context (e0 b n p t : Z) (He0 : ent s e0 = Some (b, n, p, t)).

(** What surrounds the allocation *)
Lemma free_around : e0 ∈ ents l ∧ 0 <= e0 < cntdeladd s ∧ p ∈ frees f l ∧ t ∈ frees f l ∧ p ≠ t
  ∧ ∃ sp st, blk s p = Some (b - sp, sp) ∧ blk s t = Some (b + n, st)
    ∧ 0 <= sp ∧ 0 <= st ∧ 0 <= b - sp ∧ 0 < n ∧ b + n + st <= POOL.
Proof.
  pose proof (ok_chain _ _ _ Hok) as Hc. apply ent_Some in He0 as Hent. destruct Hent as (Hv & _).
  apply (ok_ent _ _ _ Hok) in Hv as Hin. pose proof (ok_ent_range _ _ _ Hok _ Hin).
  destruct (chain_entries _ _ _ _ _ _ _ _ _ _ Hc Hin He0)
    as (H1 & H2 & H3 & H4 & H5 & (sp & Hp & Hsp) & (st & Ht & Hst)).
  assert (t ∈ frees f l) as Htf by (by right).
  destruct (chain_blocks _ _ _ _ _ _ _ _ Hc H4 Hp) as (? & ? & _).
  destruct (chain_blocks _ _ _ _ _ _ _ _ Hc Htf Ht) as (? & ? & _).
  split_and!; try done; try lia.
  - intros ->. rewrite Hp in Ht. simplify_eq. lia.
  - exists sp, st. split_and!; done || lia.
Qed.

(** The table of blocks after the merge *)
Definition merged_memory (sp st : Z) : list memblk :=
  zset (zset (memory s) p {| address := b - sp; size := sp + (n + st); valid := 1 |}) t
    {| address := b + n; size := st; valid := 0 |}.

Definition merged (sp st : Z) : memmod :=
  set_blocks s (merged_memory sp st) (zset (memblkqueue s) (ptrmemblkqueue s) t) (ptrmemblkqueue s + 1).

(** There is room in the queue of blocks and in the queue of entries. *)
Lemma free_room : ptrmemblkqueue s + 1 < MAXBLKS ∧ mallocdeladd_queue_cnt s + 1 < MAXBLKS.
Proof.
  destruct free_around as (Hin & Her & Hpf & Htf & Hpt & _).
  pose proof (ok_nmemblk _ _ _ Hok). pose proof (ok_cnt _ _ _ Hok). pose proof (ok_ptr _ _ _ Hok).
  pose proof (ok_qcnt _ _ _ Hok). pose proof (ok_lens _ _ _ Hok) as Hlen. destruct_and! Hlen.
  assert (0 < zlen (ents l)) by (destruct (ents l); [by apply elem_of_nil in Hin|unfold zlen; cbn [length]; lia]).
  assert (2 <= zlen (frees f l)).
  { unfold zlen, frees. cbn [length]. destruct l as [|x l0]; [by apply elem_of_nil in Hin|].
    cbn [fmap list_fmap length]. lia. }
  pose proof (spare_bound _ _ (nmemblk s) ltac:(lia) (ok_queue _ _ _ Hok) (ok_frees _ _ _ Hok) (ok_blk_range _ _ _ Hok)) as Hb1.
  pose proof (spare_bound _ _ (cntdeladd s) ltac:(lia) (ok_reuse _ _ _ Hok) (ok_ents _ _ _ Hok) (ok_ent_range _ _ _ Hok)) as Hb2.
  unfold queued, zlen in Hb1, Hb2. rewrite length_take in Hb1, Hb2. unfold zlen in *. lia.
Qed.

Lemma merge_run (sp st : Z) :
  blk s p = Some (b - sp, sp) → blk s t = Some (b + n, st) → merge e0 b s = Ok (Some p, merged sp st).
Proof.
  intros Hp Ht. destruct free_around as (Hin & Her & Hpf & Htf & Hpt & sp' & st' & Hp' & Ht' & Hr).
  rewrite Hp in Hp'. rewrite Ht in Ht'. simplify_eq. pose proof pool_small. destruct free_room as [Hroom _].
  pose proof (ok_nmemblk _ _ _ Hok). pose proof (ok_ptr _ _ _ Hok). pose proof (ok_max _ _ _ Hok) as Hmax.
  assert (MAXBLKS < UINT32_MAX) as Hmx by done.
  pose proof (ok_lens _ _ _ Hok) as Hlen. destruct_and! Hlen.
  pose proof (ok_blk_range _ _ _ Hok _ Hpf). pose proof (ok_blk_range _ _ _ Hok _ Htf).
  pose proof (proj1 (blk_Some _ _ _ _) Hp) as Hpb. pose proof (proj1 (blk_Some _ _ _ _) Ht) as Htb.
  apply ent_Some in He0 as Hent. destruct Hent as (_ & Hea & Hes & Hep & Het).
  unfold merge. erewrite bind_Ok by reflexivity. run (aget_Ok _ _ _ s Het). run (aget_Ok _ _ _ s Hep).
  erewrite bind_Ok by reflexivity. run (get_block_run _ _ _ Hpb). heap_fields.
  rewrite (u32_small (b - sp' + sp')) by lia. rewrite (proj2 (Z.eqb_eq _ _)) by lia.
  run (aget_Ok _ _ _ s Hes). run (get_block_run _ _ _ Htb). heap_fields.
  rewrite (u32_small (n + st')), u32_small by lia.
  erewrite bind_Ok; [|apply put_block_run; lia].
  erewrite bind_Ok; cycle 1.
  { unfold retire_block. erewrite bind_Ok by reflexivity. heap_fields.
    erewrite bind_Ok; [|apply aset_Ok; lia]. erewrite bind_Ok by reflexivity.
    erewrite bind_Ok by reflexivity. heap_fields. rewrite u32_small by lia.
    rewrite (proj2 (Z.leb_gt _ _)) by lia. reflexivity. }
  erewrite bind_Ok; [|apply get_block_run; heap_fields; rewrite zget_zset_ne by done; exact Htb].
  erewrite bind_Ok; [|apply put_block_run; heap_len].
  erewrite bind_Ok by reflexivity. heap_fields. erewrite bind_Ok; [reflexivity|].
  apply (retire_empty_run _ _ _ t {| address := b + n; size := st'; valid := 0 |}); heap_fields.
  - done.
  - apply zget_zset_eq. heap_len.
  - lia.
  - rewrite !zlen_zset. lia.
  - intros j bj Hj Hv. rewrite u32_small by lia. intros Had Hs0.
    destruct (decide (j = t)) as [->|Hjt].
    { rewrite zget_zset_eq in Hj by heap_len. by simplify_eq. }
    rewrite zget_zset_ne in Hj by done. destruct (decide (j = p)) as [->|Hjp].
    { rewrite zget_zset_eq in Hj by heap_len. simplify_eq. heap_fields_in Had. lia. }
    rewrite zget_zset_ne in Hj by done. exfalso. by apply (alloc_apart s f l Hok t (b + n) st' Ht j bj).
Qed.

(** The state after the entry is retired, before its neighbours are repointed *)
Definition retired (sp st : Z) : memmod :=
  set_reuse (with_entry (merged sp st) (mallocdeladd s) (memallocsize s) (zset (mallocdeladd_valid s) e0 0))
    (zset (mallocdeladd_queue s) (mallocdeladd_queue_cnt s) e0) (mallocdeladd_queue_cnt s + 1).

(** The links after the neighbours are repointed *)
Definition relinked (x : Z) (pl tl : list (option Z)) : Prop :=
  zlen pl = MAXBLKS ∧ zlen tl = MAXBLKS
  ∧ ∀ e a m q u, e ≠ e0 → ent s e = Some (a, m, q, u) →
     zget pl e = Some (Some (if x =? a then p else q))
     ∧ zget tl e = Some (Some (if x =? a + n then p else u)).

Lemma free_retarget (sp st x : Z) :
  ∃ pl tl, retarget (λ _, entry_size e0) x p (Z.to_nat (cntdeladd s)) 0 (retired sp st)
    = Ok (tt, with_links (retired sp st) pl tl) ∧ relinked x pl tl.
Proof.
  destruct free_around as (Hin & Her & _ & _ & _ & sp0 & st0 & _ & _ & ? & ? & Hbr & Hn & Hle).
  pose proof (ok_lens _ _ _ Hok) as Hlen. destruct_and! Hlen. pose proof (ok_cnt _ _ _ Hok).
  apply ent_Some in He0 as Hent. destruct Hent as (_ & _ & Hes & _).
  destruct (retarget_run (retired sp st) (λ _, entry_size e0) (λ _, n) x p) with (n := Z.to_nat (cntdeladd s))
    (j := 0) (p := precblock s) (t := trailblock s) as (pl & tl & Hrun & Hlp & Hlt & Hp' & Ht'); try lia.
  { intros j q u Hj. rewrite entry_size_run; [|done|lia]. unfold size_at, retired. heap_fields. by rewrite Hes. }
  { done. } { unfold retired. heap_len. }
  exists pl, tl. split; [exact Hrun|]. split_and!; [done|done|]. intros e a m q u Hne He.
  pose proof He as Hent. apply ent_Some in Hent as (Hv1 & Hea & _ & Hep & Het).
  destruct (live_entry _ _ _ _ Hok Hv1) as (a' & m' & q' & u' & He' & Hr & Ha' & Hm' & Hle').
  rewrite He in He'. simplify_eq. pose proof pool_small.
  apply (relink (retired sp st) (λ _, n) x p (cntdeladd s) (precblock s) (trailblock s)); try done.
  - unfold retired. heap_fields. by rewrite zget_zset_ne.
  - assert (UINT32_MAX = 4294967295 ∧ POOL = 49152) as [Hu Hpl] by done. cbn beta. lia.
Qed.

(** The iteration of the loop that finds the entry *)
Lemma free_step (newblk : option Z) (found : bool) (k : nat) :
  ∃ sp st pl tl, blk s p = Some (b - sp, sp) ∧ blk s t = Some (b + n, st)
    ∧ relinked (b + n + st) pl tl
    ∧ free_loop b newblk found (S k) e0 s
      = free_loop b (Some p) true k (e0 + 1) (with_links (retired sp st) pl tl).
Proof.
  destruct free_around as (Hin & Her & Hpf & Htf & Hpt & sp & st & Hp & Ht & Hr). pose proof pool_small.
  destruct (free_retarget sp st (b + n + st)) as (pl & tl & Hre & Hl). destruct free_room as [Hr1 Hr2].
  exists sp, st, pl, tl. split_and!; [done|done|done|].
  pose proof (ok_lens _ _ _ Hok) as Hlen. destruct_and! Hlen. pose proof (ok_cnt _ _ _ Hok).
  pose proof (ok_qcnt _ _ _ Hok). pose proof (ok_max _ _ _ Hok). assert (MAXBLKS < UINT32_MAX) by done.
  pose proof (ok_nmemblk _ _ _ Hok). pose proof (ok_blk_range _ _ _ Hok _ Hpf).
  apply ent_Some in He0 as Hent. destruct Hent as (Hv & Ha & _).
  cbn [free_loop]. erewrite bind_Ok by reflexivity. run (aget_Ok _ _ _ s Ha). run (aget_Ok _ _ _ s Hv).
  rewrite Z.eqb_refl. cbn [andb Z.eqb Pos.eqb]. run (merge_run sp st Hp Ht).
  erewrite bind_Ok; [|apply put_valid_run; unfold merged; heap_len].
  erewrite bind_Ok by reflexivity. heap_fields.
  erewrite bind_Ok; [|apply aset_Ok; unfold merged; heap_len].
  erewrite bind_Ok by reflexivity. erewrite bind_Ok by reflexivity.
  unfold merged. heap_fields. rewrite u32_small by lia. rewrite (proj2 (Z.leb_gt _ _)) by lia.
  erewrite bind_Ok by reflexivity. erewrite bind_Ok by reflexivity.
  erewrite bind_Ok; [|apply get_block_run; heap_fields; unfold merged_memory;
    rewrite zget_zset_ne by done; apply zget_zset_eq; lia].
  heap_fields. rewrite u32_small by lia. replace (b - sp + (sp + (n + st))) with (b + n + st) by lia.
  by run Hre.
Qed.

Section Freed.

Context (sp st : Z) (pl tl : list (option Z)).
Context (Hp : blk s p = Some (b - sp, sp)) (Ht : blk s t = Some (b + n, st)).
Context (Hl : relinked (b + n + st) pl tl).
Let s' := with_links (retired sp st) pl tl.

Lemma freed_blk (j : Z) : blk s' j = upd (upd (blk s) t None) p (Some (b - sp, sp + n + st)) j.
Proof.
  destruct free_around as (Hin & Her & Hpf & Htf & Hpt & _).
  pose proof (ok_lens _ _ _ Hok) as Hlen. destruct_and! Hlen. pose proof (ok_nmemblk _ _ _ Hok).
  pose proof (ok_blk_range _ _ _ Hok _ Hpf). pose proof (ok_blk_range _ _ _ Hok _ Htf).
  unfold blk at 1, s', retired, merged. heap_fields. unfold merged_memory.
  destruct (decide (j = p)) as [->|Hjp].
  - rewrite upd_eq, zget_zset_ne, zget_zset_eq by (done || lia). heap_fields. cbn [Z.eqb Pos.eqb].
    do 2 f_equal. lia.
  - rewrite upd_ne by done. destruct (decide (j = t)) as [->|Hjt].
    + by rewrite upd_eq, zget_zset_eq by heap_len.
    + by rewrite upd_ne, !zget_zset_ne by done.
Qed.

Lemma freed_ent (e : Z) : ent s' e = upd (repoint (λ _, n) (ent s) (b + n + st) p) e0 None e.
Proof.
  destruct free_around as (Hin & Her & _). pose proof (ok_cnt _ _ _ Hok).
  pose proof (ok_lens _ _ _ Hok) as Hlen. destruct_and! Hlen. destruct (decide (e = e0)) as [->|Hne].
  - rewrite upd_eq. apply ent_None. unfold s', retired. heap_fields. rewrite zget_zset_eq by lia. done.
  - rewrite upd_ne by done. destruct (decide (zget (mallocdeladd_valid s) e = Some 1)) as [Hv1|Hv1].
    + destruct (live_entry _ _ _ _ Hok Hv1) as (a & m & q & u & He & _).
      destruct Hl as (_ & _ & Hl'). destruct (Hl' e a m q u Hne He) as [Hl1 Hl2].
      unfold repoint. rewrite He. apply ent_Some. apply ent_Some in He as (_ & Hea & Hes & _).
      unfold s', retired. heap_fields. rewrite zget_zset_ne by done. done.
    + unfold repoint. rewrite (ent_None s e Hv1). apply ent_None. unfold s', retired. heap_fields.
      by rewrite zget_zset_ne.
Qed.

Lemma freed_valid (F : list Z) (i : Z) (x : memblk) :
  (t ∉ F) → (∀ j, j ∈ frees f l ↔ j ∈ t :: F) → zget (memory s') i = Some x → valid x = 1 ↔ i ∈ F.
Proof.
  intros HtF HF Hx. destruct free_around as (Hin & Her & Hpf & Htf & Hpt & _).
  pose proof (ok_lens _ _ _ Hok) as Hlen. destruct_and! Hlen. pose proof (ok_nmemblk _ _ _ Hok).
  pose proof (ok_blk_range _ _ _ Hok _ Hpf). pose proof (ok_blk_range _ _ _ Hok _ Htf).
  unfold s', retired, merged in Hx. heap_fields_in Hx. unfold merged_memory in Hx.
  destruct (decide (i = t)) as [->|Hit].
  { rewrite zget_zset_eq in Hx by heap_len. simplify_eq. heap_fields. by split. }
  rewrite zget_zset_ne in Hx by done. destruct (decide (i = p)) as [->|Hip].
  { rewrite zget_zset_eq in Hx by heap_len. simplify_eq. heap_fields.
    apply HF, elem_of_cons in Hpf as [?|?]; [done|by split]. }
  rewrite zget_zset_ne in Hx by done. rewrite (ok_blk _ _ _ Hok i x Hx), HF, elem_of_cons. naive_solver.
Qed.

Lemma freed_ok : ∃ l', heap_ok s' f l' ∧ ents l ≡ₚ e0 :: ents l'.
Proof.
  destruct free_around as (Hin & Her & Hpf & Htf & Hpt & sp' & st' & Hp' & Ht' & Hr).
  assert (sp' = sp ∧ st' = st) as [-> ->] by (split; congruence). clear Hp' Ht'.
  destruct free_room as [Hr1 Hr2].
  pose proof (ok_lens _ _ _ Hok) as Hlen. destruct_and! Hlen. pose proof (ok_nmemblk _ _ _ Hok).
  pose proof (ok_frees _ _ _ Hok) as Hnf. pose proof (ok_ents _ _ _ Hok) as Hne.
  pose proof (ok_ptr _ _ _ Hok). pose proof (ok_qcnt _ _ _ Hok).
  destruct (chain_merge _ _ e0 b n p t (b - sp) sp st He0 Hp Ht _ _ _ (ok_chain _ _ _ Hok) Hnf Hne Hin)
    as (l' & Hc & He & Hf).
  exists l'. split; [|done]. rewrite Hf in Hnf. rewrite He in Hne.
  apply NoDup_cons in Hnf as [Htl Hnf]. apply NoDup_cons in Hne as [Hel Hne].
  pose proof (ok_queue _ _ _ Hok) as Hq. pose proof (ok_reuse _ _ _ Hok) as Hq'.
  apply (spare_perm _ _ _ _ Hf) in Hq. apply (spare_perm _ _ _ _ He) in Hq'.
  destruct Hl as (Hlp & Hlt & _).
  pose proof (ok_blk_range _ _ _ Hok t Htf). pose proof (ok_blk_range _ _ _ Hok p Hpf).
  pose proof (ok_cnt _ _ _ Hok). split.
  - eapply chain_ext; [exact Hc| |]; intros x _; [by rewrite freed_blk|]. rewrite freed_ent.
    by replace (b - sp + sp + n + st) with (b + n + st) by lia.
  - done.
  - done.
  - intros i x. apply freed_valid; [done|]. intros j. by rewrite Hf.
  - intros i Hi. apply (ok_blk_range _ _ _ Hok). rewrite Hf. by right.
  - intros e. unfold s', retired. heap_fields. destruct (decide (e = e0)) as [->|Hne0].
    + rewrite zget_zset_eq by lia. by split.
    + rewrite zget_zset_ne, (ok_ent _ _ _ Hok), He, elem_of_cons by done. naive_solver.
  - intros e Hx. apply (ok_ent_range _ _ _ Hok). rewrite He. by right.
  - unfold s', retired, merged. heap_fields. rewrite queued_push by lia. by apply spare_push.
  - unfold s', retired, merged. heap_fields. rewrite queued_push by lia. by apply spare_push.
  - done.
  - apply Hok.
  - apply Hok.
  - unfold s', retired, merged. heap_fields. lia.
  - unfold s', retired, merged. heap_fields. lia.
  - apply Hok.
  - unfold s', retired, merged. heap_fields. unfold merged_memory. rewrite !zlen_zset. by split_and!.
  - apply Hok.
Qed.

End Freed.

End Free.

(** ** The loop over the entries *)

Lemma free_loop_skip (s : memmod) (fadd : Z) (nb : option Z) (found : bool) (n : nat) (i : Z) :
  0 <= i → i + Z.of_nat n <= zlen (mallocdeladd s) → zlen (mallocdeladd_valid s) = zlen (mallocdeladd s) →
  (∀ e, i <= e < i + Z.of_nat n → zget (mallocdeladd s) e = Some fadd →
        zget (mallocdeladd_valid s) e = Some 1 → False) →
  free_loop fadd nb found n i s = Ok (found, s).
Proof.
  revert i. induction n as [|n IH]; intros i Hi Hn Hl Hno; [done|].
  destruct (zget_is_Some (mallocdeladd s) i) as [a Ha]; [lia|].
  destruct (zget_is_Some (mallocdeladd_valid s) i) as [v Hv]; [lia|].
  cbn [free_loop]. erewrite bind_Ok by reflexivity. run (aget_Ok _ _ _ s Ha). run (aget_Ok _ _ _ s Hv).
  destruct (Z.eqb_spec fadd a) as [->|]; [destruct (Z.eqb_spec v 1) as [->|]|]; cbn [andb].
  - destruct (Hno i); [lia|done|done].
  - apply IH; [lia|lia|done|]. intros e He. apply Hno. lia.
  - apply IH; [lia|lia|done|]. intros e He. apply Hno. lia.
Qed.

(** No two live entries have the same address. *)
Lemma live_unique (s : memmod) (f : Z) (l : list (Z * Z)) (e e' a : Z) : heap_ok s f l →
  zget (mallocdeladd s) e = Some a → zget (mallocdeladd_valid s) e = Some 1 →
  zget (mallocdeladd s) e' = Some a → zget (mallocdeladd_valid s) e' = Some 1 → e = e'.
Proof.
  intros Hok Ha Hv Ha' Hv'. destruct (decide (e = e')) as [|Hne]; [done|].
  destruct (live_entry _ _ _ _ Hok Hv) as (b & n & p & t & He & _ & _ & Hn & _).
  destruct (live_entry _ _ _ _ Hok Hv') as (b' & n' & p' & t' & He' & _ & _ & Hn' & _).
  apply (ok_ent _ _ _ Hok) in Hv, Hv'.
  destruct (chain_disjoint _ _ _ _ _ _ _ _ _ _ _ _ _ _ _ (ok_chain _ _ _ Hok) (ok_ents _ _ _ Hok) Hv Hv' Hne He He');
    apply ent_Some in He as (_ & Hb & _), He' as (_ & Hb' & _); simplify_eq; lia.
Qed.

Lemma free_loop_find (s : memmod) (f : Z) (l : list (Z * Z)) (e0 b n p t : Z) (nb : option Z) (found : bool)
    (k : nat) (i : Z) :
  heap_ok s f l → ent s e0 = Some (b, n, p, t) → 0 <= i <= e0 → e0 < i + Z.of_nat k → i + Z.of_nat k <= MAXBLKS →
  ∃ s' l', free_loop b nb found k i s = Ok (true, s') ∧ heap_ok s' f l' ∧ ents l ≡ₚ e0 :: ents l'
    ∧ ∀ e, e ≠ e0 → base <$> ent s' e = base <$> ent s e.
Proof.
  intros Hok He0. pose proof (ok_lens _ _ _ Hok) as Hlen. destruct_and! Hlen.
  apply ent_Some in He0 as Hent. destruct Hent as (Hv & Ha & _).
  revert i nb. induction k as [|k IH]; intros i nb Hi Hk Hm; [lia|].
  destruct (decide (i = e0)) as [->|Hne].
  - destruct (free_step s f l Hok e0 b n p t He0 nb found k) as (sp & st & pl & tl & Hp & Ht & Hl & ->).
    destruct (freed_ok s f l Hok e0 b n p t He0 sp st pl tl Hp Ht Hl) as (l' & Hok' & Hperm).
    set (s' := with_links _ _ _) in *. exists s', l'. split_and!; try done.
    + pose proof (ok_lens _ _ _ Hok') as Hlen'. destruct_and! Hlen'.
      apply free_loop_skip; [lia|lia|lia|]. intros e He Hea Hev.
      assert (e = e0); [|lia]. change (zget (mallocdeladd s) e = Some b) in Hea.
      apply (live_unique s f l e e0 b Hok); try done.
      destruct (decide (e = e0)) as [->|Hee]; [done|].
      change (zget (zset (mallocdeladd_valid s) e0 0) e = Some 1) in Hev. by rewrite zget_zset_ne in Hev.
    + intros e Hee. unfold s'. rewrite (freed_ent s f l Hok e0 b n p t He0 sp st pl tl Hl), upd_ne by done.
      apply repoint_base.
  - destruct (zget_is_Some (mallocdeladd s) i) as [a Hai]; [lia|].
    destruct (zget_is_Some (mallocdeladd_valid s) i) as [v Hvi]; [lia|].
    cbn [free_loop]. erewrite bind_Ok by reflexivity. run (aget_Ok _ _ _ s Hai). run (aget_Ok _ _ _ s Hvi).
    destruct (Z.eqb_spec b a) as [->|]; [destruct (Z.eqb_spec v 1) as [->|]|]; cbn [andb].
    + destruct Hne. by apply (live_unique s f l _ _ a Hok).
    + apply IH; lia.
    + apply IH; lia.
Qed.

(** ** smcfree() *)

Lemma smcfree_live (s : memmod) (f : Z) (l : list (Z * Z)) (r : Z * Z) : heap_ok s f l → r ∈ live s →
  ∃ s' l', smcfree (TOTALMEMORYSIZE / BLKSPACEDIV + r.1) s = Ok (0, s') ∧ heap_ok s' f l' ∧ live s ≡ₚ r :: live s'.
Proof.
  intros Hok Hr. unfold live in Hr. apply list_elem_of_omap in Hr as (e0 & He0 & Hent).
  destruct (ent s e0) as [[[[b n] p] t]|] eqn:Heq; [|done]. cbn in Hent. injection Hent as <-. unfold base at 1 2. cbn [fst snd].
  apply elem_of_seqZ in He0. pose proof (ok_cnt _ _ _ Hok). pose proof pool_small.
  apply ent_Some in Heq as Hv. destruct Hv as (Hv & _).
  destruct (live_entry _ _ _ _ Hok Hv) as (b' & n' & p' & t' & Heq' & _ & Hb & Hn & Hle).
  rewrite Heq in Heq'. injection Heq' as <- <- <- <-.
  destruct (free_loop_find s f l e0 b n p t None false (Z.to_nat (cntdeladd s)) 0)
    as (s' & l' & Hrun & Hok' & Hperm & Hbase); [done|done|lia|lia|lia|].
  exists s', l'. split_and!; [|done|].
  - unfold smcfree. rewrite Z.add_simpl_l, u32_small by lia. erewrite bind_Ok by reflexivity.
    by run Hrun.
  - rewrite (live_ok s f l Hok), (live_ok s' f l' Hok'). unfold allocs.
    transitivity (omap (λ e, base <$> ent s e) (e0 :: ents l')); [by apply allocs_perm|].
    cbn. rewrite Heq. cbn. constructor. apply allocs_perm; [done|]. intros e He. symmetry. apply Hbase.
    pose proof (ok_ents _ _ _ Hok) as Hnd. rewrite Hperm in Hnd. apply NoDup_cons in Hnd as [Hni _]. congruence.
Qed.

Lemma smcfree_not_live (s : memmod) (f : Z) (l : list (Z * Z)) (ptr : Z) : heap_ok s f l →
  (∀ r, r ∈ live s → r.1 ≠ u32 (ptr - TOTALMEMORYSIZE / BLKSPACEDIV)) → smcfree ptr s = Stop PanicCall.
Proof.
  intros Hok Hno. pose proof (ok_lens _ _ _ Hok) as Hlen. destruct_and! Hlen. pose proof (ok_cnt _ _ _ Hok).
  unfold smcfree. erewrite bind_Ok by reflexivity.
  erewrite bind_Ok; [|apply free_loop_skip; [lia|lia|lia|]]; [reflexivity|].
  intros e He Ha Hv. destruct (live_entry _ _ _ _ Hok Hv) as (b & n & p & t & Heq & _).
  assert ((b, n) ∈ live s) as Hin.
  { unfold live. apply list_elem_of_omap. exists e. rewrite Heq. split; [apply elem_of_seqZ; lia|done]. }
  apply (Hno _ Hin). cbn. apply ent_Some in Heq as (_ & Hb & _). congruence.
Qed.

(** ** The states the allocator reaches *)

(** Allocating and freeing, as long as no error is recorded *)
Inductive smc_reach : memmod → Prop :=
| reach_init : smc_reach init_mem
| reach_malloc (s s' : memmod) (n p : Z) :
    smc_reach s → 0 <= n <= UINT32_MAX → smcmalloc n s = Ok (p, s') → memerror s' = 0 → smc_reach s'
| reach_free (s s' : memmod) (p r : Z) : smc_reach s → smcfree p s = Ok (r, s') → smc_reach s'.

Lemma init_mem_ok : heap_ok init_mem 0 [].
Proof.
  split; try done.
  - by apply chain_last with POOL.
  - apply NoDup_singleton.
  - constructor.
  - intros i b Hb. unfold frees. cbn [fmap list_fmap]. rewrite list_elem_of_singleton.
    unfold zget in Hb. destruct (Z.ltb_spec i 0) as [|Hi]; [done|].
    destruct (decide (i = 0)) as [->|Hne]; [injection Hb as <-; by split|].
    split; [|done]. intros Hv. exfalso. unfold init_mem in Hb. cbn [memory] in Hb.
    rewrite lookup_cons_ne_0 in Hb by lia. apply lookup_replicate in Hb as [-> _]. by cbn in Hv.
  - intros i Hi. apply list_elem_of_singleton in Hi as ->. done.
  - intros e. split; [|intros H; by apply elem_of_nil in H]. intros Hv. exfalso. revert Hv. unfold zget.
    destruct (e <? 0); [done|]. unfold init_mem. cbn [mallocdeladd_valid].
    intros Hv. by apply lookup_replicate in Hv as [? _].
  - intros e He. by apply elem_of_nil in He.
  - split; [apply NoDup_nil_2|]. intros x Hx. by apply elem_of_nil in Hx.
  - split; [apply NoDup_nil_2|]. intros x Hx. by apply elem_of_nil in Hx.
Qed.

(** What is kept of every live allocation *)
Definition region_ok (r : Z * Z) : Prop :=
  0 <= r.1 ∧ 16 <= r.2 ∧ r.1 + r.2 <= POOL ∧ r.1 mod alignment r.2 = 0.

Lemma rsize_align (n : Z) : 0 <= n <= UINT32_MAX →
  let rs := if n <? 16 then 16 else n in rs <= POOL → alignnum rs = alignment rs.
Proof.
  intros Hn rs Hrs. apply alignnum_spec. assert (POOL < 2 ^ (TOPBITSIZE + 1)) by done.
  unfold rs in *. destruct (Z.ltb_spec n 16); lia.
Qed.

(** One allocation, from any sound state *)
Lemma smcmalloc_sound (s : memmod) (f : Z) (l : list (Z * Z)) (n : Z) : heap_ok s f l → 0 <= n <= UINT32_MAX →
  let rs := if n <? 16 then 16 else n in
  ∃ p s', smcmalloc n s = Ok (p, s')
    ∧ (memerror s' = 4 ∧ live s' = live s
       ∧ (∀ x, 0 <= x → x + rs <= POOL → x mod alignment rs = 0 → ¬ Forall (apart (x, rs)) (live s))
       ∨ (∃ x, p = TOTALMEMORYSIZE / BLKSPACEDIV + x ∧ region_ok (x, rs)
            ∧ live s' ≡ₚ (x, rs) :: live s ∧ ForallOrdPairs apart (live s'))
         ∧ (memerror s' = 0 ∧ (∃ f' l', heap_ok s' f' l')
            ∨ memerror s' = 2 ∧ cntdeladd s' = MAXBLKS ∨ memerror s' = 3 ∧ nmemblk s' = MAXBLKS)).
Proof.
  intros Hok Hn rs. assert (16 <= rs) as Hrs by (unfold rs; destruct (Z.ltb_spec n 16); lia).
  destruct (smcmalloc_run s f l Hok n) as [[Hrun Hno]|(j & a & sz & pos & newe & newb & s' & Hblk & Hfit & Hall & Hrun)];
    fold rs in Hrun.
  - eexists _, _. split; [exact Hrun|]. left. split_and!; [done|done|]. intros x Hx Hpool Hal Hap.
    assert (Forall (apart (x, rs)) (allocs (ent s) l)) as Hap' by (by rewrite <- (live_ok s f l Hok)).
    destruct (chain_gap _ _ _ _ _ x rs (ok_chain _ _ _ Hok) ltac:(lia) ltac:(lia) Hpool Hap')
      as (i & b & sz & Hi & Hb & Hle & Hle').
    specialize (Hno i b sz Hb). fold rs in Hno. assert (alignnum rs = alignment rs) as Heq by (apply (rsize_align n Hn); fold rs; lia).
    rewrite Heq in Hno.
    pose proof (pad_least (alignment rs) b x ltac:(by apply Z.pow_pos_nonneg; [lia|apply Z.log2_up_nonneg]) Hle Hal).
    lia.
  - fold rs in Hfit, Hall. eexists _, _. split; [exact Hrun|]. right.
    destruct (smcmalloc_heap s f l Hok _ _ _ _ _ _ _ Hall) as (Hlive & Hpairs & Hheap & Herr).
    destruct (alloc_block s f l Hok j _ _ Hblk) as (_ & _ & Ha & Hsz & Hpool & _).
    pose proof (pad_range (alignnum rs) a (alignnum_pos rs)).
    split; [|by destruct Herr as [|]; [left; split; [|apply Hheap]|right]].
    eexists. split_and!; [reflexivity| |done|done]. unfold region_ok. cbn [fst snd]. split_and!; try lia.
    assert (alignnum rs = alignment rs) as <- by (apply (rsize_align n Hn); fold rs; lia). apply pad_aligned, alignnum_pos.
Qed.

Lemma smcfree_result (s s' : memmod) (f : Z) (l : list (Z * Z)) (p r : Z) : heap_ok s f l →
  smcfree p s = Ok (r, s') → ∃ x l', r = 0 ∧ heap_ok s' f l' ∧ live s ≡ₚ x :: live s'.
Proof.
  intros Hok Hrun.
  destruct (decide (Exists (λ x, x.1 = u32 (p - TOTALMEMORYSIZE / BLKSPACEDIV)) (live s))) as [Hx|Hno].
  - apply Exists_exists in Hx as (x & Hin & Hx). destruct (smcfree_live s f l x Hok Hin) as (s1 & l1 & Hrun1 & Hok1 & Hp).
    assert (smcfree p s = smcfree (TOTALMEMORYSIZE / BLKSPACEDIV + x.1) s) as Heq.
    { unfold smcfree. rewrite Z.add_simpl_l, Hx. f_equal. by rewrite (u32_small (u32 _)) by apply u32_range. }
    rewrite Heq, Hrun1 in Hrun. simplify_eq. eauto.
  - rewrite (smcfree_not_live s f l p Hok) in Hrun; [done|]. intros x Hin Hx. apply Hno, Exists_exists. eauto.
Qed.

Lemma smc_reach_ok (s : memmod) : smc_reach s → (∃ f l, heap_ok s f l) ∧ Forall region_ok (live s).
Proof.
  induction 1 as [|s s' n p _ [(f & l & Hok) IH] Hn Hrun Herr|s s' p r _ [(f & l & Hok) IH] Hrun].
  - split; [exists 0, []; apply init_mem_ok|constructor].
  - destruct (smcmalloc_sound s f l n Hok Hn) as (p' & s1 & Hrun' & Hcase). rewrite Hrun in Hrun'. simplify_eq.
    destruct Hcase as [(Hx & _)|[(x & _ & Hr & Hl & _) [[_ Hh]|[[Hx _]|[Hx _]]]]]; try lia.
    split; [done|]. rewrite Hl. by apply Forall_cons.
  - destruct (smcfree_result s s' f l p r Hok Hrun) as (x & l' & _ & Hok' & Hl). split; [by eauto|].
    rewrite Hl in IH. by apply Forall_cons in IH as [_ IH].
Qed.

(** C12: in every state [smcmalloc()] and [smcfree()] reach from the set-up, as
    long as no error is recorded, no two live allocations overlap, and each has
    at least 16 bytes, lies in the pool, and starts at a multiple of the least
    power of two that is no smaller than it. *)
Theorem smc_live_apart (s : memmod) (Hs : smc_reach s) :
  ForallOrdPairs apart (live s) ∧ Forall region_ok (live s).
Proof.
  destruct (smc_reach_ok s Hs) as [(f & l & Hok) Hr]. split; [|done].
  apply (pairs_perm apart (allocs (ent s) l)); [symmetry; by eapply live_ok|].
  eapply chain_allocs, ok_chain, Hok.
Qed.

(** [smcmalloc()] always returns.  Either it finds an aligned region clear
    of every live allocation, which is then the only one added, whether or not
    the tables are full afterwards (errors 2 and 3); or it records error 4,
    changes no allocation, and no such region exists. *)
Theorem smcmalloc_spec (s : memmod) (n : Z) (Hs : smc_reach s) (Hn : 0 <= n <= UINT32_MAX) :
  let rs := if n <? 16 then 16 else n in
  ∃ p s', smcmalloc n s = Ok (p, s')
    ∧ (memerror s' = 4 ∧ live s' = live s
       ∧ (∀ x, 0 <= x → x + rs <= POOL → x mod alignment rs = 0 → ¬ Forall (apart (x, rs)) (live s))
       ∨ (∃ x, p = TOTALMEMORYSIZE / BLKSPACEDIV + x ∧ region_ok (x, rs)
            ∧ Forall (apart (x, rs)) (live s) ∧ live s' ≡ₚ (x, rs) :: live s)
         ∧ (memerror s' = 0 ∨ memerror s' = 2 ∧ cntdeladd s' = MAXBLKS
            ∨ memerror s' = 3 ∧ nmemblk s' = MAXBLKS)).
Proof.
  intros rs. destruct (smc_reach_ok s Hs) as [(f & l & Hok) Hr].
  destruct (smcmalloc_sound s f l n Hok Hn) as (p & s' & Hrun & Hcase). exists p, s'. split; [done|].
  destruct Hcase as [Hfull|[(x & Hp & Hreg & Hl & Hpairs) Herr]]; [by left|]. right. split; [|naive_solver].
  exists x. split_and!; try done. apply (pairs_perm apart _ _ Hl) in Hpairs. by inversion Hpairs.
Qed.

(** [smcfree()] of the address of a live allocation returns 0, records no
    error and removes exactly that allocation; of any other address it exits. *)
Theorem smcfree_spec (s : memmod) (p : Z) (Hs : smc_reach s) :
  (∀ r, r ∈ live s → p = TOTALMEMORYSIZE / BLKSPACEDIV + r.1 →
     ∃ s', smcfree p s = Ok (0, s') ∧ memerror s' = 0 ∧ live s ≡ₚ r :: live s')
  ∧ ((∀ r, r ∈ live s → r.1 ≠ u32 (p - TOTALMEMORYSIZE / BLKSPACEDIV)) → smcfree p s = Stop PanicCall).
Proof.
  destruct (smc_reach_ok s Hs) as [(f & l & Hok) Hr]. split.
  - intros r Hin ->. destruct (smcfree_live s f l r Hok Hin) as (s' & l' & Hrun & Hok' & Hl).
    exists s'. split_and!; [done|apply Hok'|done].
  - by apply (smcfree_not_live s f l).
Qed.

(** C31: what was freed is usable again in full: once nothing is live, whatever
    was allocated and freed before, one block covers the pool and any request
    that fits in it succeeds at its start. *)
Theorem smc_no_leak (s : memmod) (n : Z) (Hs : smc_reach s) (Hl : live s = []) (Hn : 0 <= n <= POOL) :
  (∃ i, blk s i = Some (0, POOL) ∧ ∀ j, j ≠ i → blk s j = None)
  ∧ ∃ s', smcmalloc n s = Ok (TOTALMEMORYSIZE / BLKSPACEDIV, s') ∧ memerror s' ≠ 4.
Proof.
  destruct (smc_reach_ok s Hs) as [(f & l & Hok) Hr].
  assert (l = [] ∧ blk s f = Some (0, POOL)) as [-> Hf].
  { pose proof (live_ok s f l Hok) as Hp. rewrite Hl in Hp. apply Permutation_nil in Hp.
    pose proof (ok_chain _ _ _ Hok) as Hc.
    inversion Hc as [? ? sz Hf Hsz Hend|? ? sz e m t l0 Hf Hsz He Hm Hc']; subst.
    - split; [done|]. rewrite Hf. do 2 f_equal. lia.
    - unfold allocs in Hp. cbn in Hp. by rewrite He in Hp. }
  assert (∀ j x, blk s j = Some x → j = f) as Honly.
  { intros j [a sz] Hj. destruct (alloc_block s f [] Hok j a sz Hj) as (Hin & _). by apply list_elem_of_singleton in Hin. }
  split.
  - exists f. split; [done|]. intros j Hne. destruct (blk s j) eqn:Hj; [|done]. by apply Honly in Hj.
  - destruct (smcmalloc_run s f [] Hok n) as [[_ Hno]|(j & a & sz & pos & newe & newb & s' & Hblk & Hfit & Hall & Hrun)].
    + specialize (Hno f 0 POOL Hf). unfold pad in Hno. rewrite Z.mod_0_l in Hno by (pose proof (alignnum_pos (if n <? 16 then 16 else n)); lia).
      cbn [Z.eqb] in Hno. assert (POOL = 49152) by done. destruct (Z.ltb_spec n 16); lia.
    + pose proof (Honly _ _ Hblk) as ->. rewrite Hf in Hblk. simplify_eq.
      unfold pad in Hrun. rewrite Z.mod_0_l in Hrun by (pose proof (alignnum_pos (if n <? 16 then 16 else n)); lia).
      cbn [Z.eqb] in Hrun. eexists. split; [exact Hrun|]. heap_fields. unfold grow_error.
      by repeat case_match.
Qed.

(** ** Concrete runs *)

Definition after {A} (m : M memmod A) (s : memmod) : memmod :=
  match m s with Ok (_, s') => s' | Stop _ => s end.

(** Two allocations *)
Definition heap2 : memmod := after (smcmalloc 100) (after (smcmalloc 20) init_mem).

Lemma heap2_reach : smc_reach heap2.
Proof.
  apply (reach_malloc (after (smcmalloc 20) init_mem) _ 100 16512).
  - apply (reach_malloc init_mem _ 20 16384); [apply reach_init|done|vm_compute; reflexivity|vm_compute; reflexivity].
  - done.
  - vm_compute. reflexivity.
  - vm_compute. reflexivity.
Qed.

Lemma smc_live_apart_witness : live heap2 = [(0, 20); (128, 100)] ∧ Forall region_ok (live heap2).
Proof. split; [vm_compute; reflexivity|]. apply (smc_live_apart heap2 heap2_reach). Defined.

Lemma smcmalloc_spec_witness : ∃ p s', smcmalloc 5 heap2 = Ok (p, s').
Proof. destruct (smcmalloc_spec heap2 5 heap2_reach ltac:(done)) as (p & s' & H & _). exists p, s'. exact H. Defined.

Lemma smcfree_spec_witness : ∃ s', smcfree (0x4000 + 128) heap2 = Ok (0, s') ∧ memerror s' = 0.
Proof.
  destruct (smcfree_spec heap2 (0x4000 + 128) heap2_reach) as [H _].
  destruct (H (128, 100)) as (s' & Hrun & Herr & _).
  - replace (live heap2) with [(0, 20); (128, 100)] by (vm_compute; reflexivity). right. left.
  - reflexivity.
  - exists s'. exact (conj Hrun Herr).
Defined.

Lemma smc_no_leak_witness : ∃ s', smcmalloc 0xC000 init_mem = Ok (0x4000, s') ∧ memerror s' ≠ 4.
Proof. apply (smc_no_leak init_mem 0xC000 reach_init); [reflexivity|done]. Defined.
