(* ===== verification/FuzzMem.v ===== *)
(** * Memory for the data of the SMC fuzzing module

    What its containers and tables ask of [GENMALLOC()] and [GENFREE()], as a
    class with laws.  [smc_allocator] is the module's own allocator;
    [checked_allocator], the same with every error it records turned into a
    stop, has the laws, and what returns with it returns the same with the
    other. *)

From S2P Require Import Prelude FuzzMalloc FuzzHeap FuzzAlloc FuzzPool FuzzFree.

Local Open Scope Z_scope.

(** An array of the program's is its address with its values. *)
Class Allocator (S : Type) := {
  GENMALLOC : Z → M S Z;
  GENFREE : Z → M S Z;
}.

(** [owned] is what was allocated and not freed. *)
Class AllocatorOk (S : Type) (A : Allocator S) := {
  mem_ok : S → Prop;
  owned : S → list Z;
  malloc_law s n : mem_ok s → 0 <= n <= UINT32_MAX →
    GENMALLOC n s = Stop NoMemory
    ∨ ∃ p s', GENMALLOC n s = Ok (p, s') ∧ mem_ok s' ∧ 0 < p ∧ owned s' ≡ₚ p :: owned s;
  free_law s p : mem_ok s → p ∈ owned s →
    ∃ r s', GENFREE p s = Ok (r, s') ∧ mem_ok s' ∧ owned s ≡ₚ p :: owned s';
}.

(** ** The two allocators *)

Definition smc_allocator : Allocator memmod := {|
  GENMALLOC := smcmalloc;
  GENFREE := smcfree;
|}.

Definition checked (n : Z) : M memmod Z :=
  p ← smcmalloc n;
  s ← get;
  if memerror s =? 0 then mret p else fail NoMemory.

Definition checked_allocator : Allocator memmod := {|
  GENMALLOC := checked;
  GENFREE := smcfree;
|}.

(** The addresses of the live allocations *)
Definition smc_owned (s : memmod) : list Z := (λ r, TOTALMEMORYSIZE / BLKSPACEDIV + r.1) <$> live s.

#[export] Instance checked_allocator_ok : AllocatorOk memmod checked_allocator.
Proof.
  refine {| mem_ok := smc_reach; owned := smc_owned |}.
  - intros s n Hs Hn. destruct (smc_reach_ok s Hs) as [(f & l & Hok) Hr].
    destruct (smcmalloc_sound s f l n Hok Hn) as (p & s' & Hrun & Hcase).
    cbn [GENMALLOC checked_allocator]. unfold checked. rewrite (bind_Ok _ _ _ _ _ Hrun).
    erewrite bind_Ok by reflexivity.
    destruct Hcase as [(-> & _)|[(x & -> & Hreg & Hl & _) Herr]]; [by left|].
    destruct Herr as [[Herr _]|[[-> _]|[-> _]]]; [|by left|by left]. rewrite Herr.
    right. eexists _, s'. split; [reflexivity|]. split; [by apply (reach_malloc s s' n _ Hs Hn Hrun)|].
    split.
    + destruct Hreg as (Hx & _). cbn [fst] in Hx. assert (0 < TOTALMEMORYSIZE / BLKSPACEDIV) by done. lia.
    + unfold smc_owned. by rewrite Hl.
  - intros s p Hs Hp. destruct (smc_reach_ok s Hs) as [(f & l & Hok) Hr].
    unfold smc_owned in Hp. apply list_elem_of_fmap in Hp as (r & -> & Hin).
    destruct (smcfree_live s f l r Hok Hin) as (s' & l' & Hrun & _ & Hl).
    exists 0, s'. split; [exact Hrun|]. split; [by apply (reach_free s s' _ 0 Hs Hrun)|].
    unfold smc_owned. by rewrite Hl.
Defined.

(** ** Programs that return the same *)

Definition refines {S A} (m m' : M S A) : Prop := ∀ s r, m s = Ok r → m' s = Ok r.

Lemma refines_refl {S A} (m : M S A) : refines m m.
Proof. by intros s r. Qed.

Lemma refines_bind {S A B} (m m' : M S A) (k k' : A → M S B) :
  refines m m' → (∀ a, refines (k a) (k' a)) → refines (m ≫= k) (m' ≫= k').
Proof.
  intros Hm Hk s [b s'] Hrun. apply bind_Ok_inv in Hrun as (a & s1 & Hrun & Hrun').
  rewrite (bind_Ok _ _ _ _ _ (Hm _ _ Hrun)). by apply Hk.
Qed.

Lemma checked_refines (n : Z) : refines (@GENMALLOC _ checked_allocator n) (@GENMALLOC _ smc_allocator n).
Proof.
  intros s [p s'] Hrun. cbn [GENMALLOC checked_allocator] in Hrun. unfold checked in Hrun.
  apply bind_Ok_inv in Hrun as (q & s1 & Hrun & Hrun'). erewrite bind_Ok in Hrun' by reflexivity.
  destruct (memerror s1 =? 0); [|done]. cbn [GENMALLOC smc_allocator].
  unfold mret, M_ret in Hrun'. by simplify_eq.
Qed.

Create HintDb refines.
#[export] Hint Resolve refines_refl refines_bind checked_refines : refines.
