(* ===== verification/FuzzConstraint.v ===== *)
(** * Constraints on the arguments of fuzzed calls (smc_fuzz/src/constraint.c)

    The tables that describe the calls, their arguments and the fields of each
    are generated at build time; they are arguments here.  The constraints of a
    field are arrays from [GENMALLOC()]. *)

From S2P Require Import Prelude Libc FuzzMem.

Local Open Scope Z_scope.

Definition SANITY_LEVEL_0 : Z := 0.
Definition SANITY_LEVEL_1 : Z := 1.
Definition SANITY_LEVEL_2 : Z := 2.
Definition SANITY_LEVEL_3 : Z := 3.
Definition FUZZER_CONSTRAINT_SVALUE : Z := 0.
Definition FUZZER_CONSTRAINT_RANGE : Z := 1.
Definition FUZZER_CONSTRAINT_VECTOR : Z := 2.
Definition FUZZER_CONSTRAINT_ACCMODE : Z := 0.
Definition FUZZER_CONSTRAINT_EXCMODE : Z := 1.
Definition FUZZ_MAX_SHIFT_AMNT : Z := 16.
Definition FUZZ_MAX_REG_SIZE : Z := 64.

(** A field; [None] is NULL, and an array is its address with its values. *)
Record fuzzer_arg_def := {
  regnum : Z;
  bitw : Z;
  bitst : Z;
  defval : Z;
  contval : option (Z * list (Z * list Z));
  contvallen : option (Z * list Z);
  contlen : Z;
  conttype : option (Z * list Z);
  reserved : Z;
}.

Definition set_cont (f : fuzzer_arg_def) (cv : Z * list (Z * list Z)) (cvl : Z * list Z) (n : Z)
    (ct : Z * list Z) : fuzzer_arg_def :=
  {| regnum := regnum f; bitw := bitw f; bitst := bitst f; defval := defval f; contval := Some cv;
     contvallen := Some cvl; contlen := n; conttype := Some ct; reserved := reserved f |}.

(** The generated tables: the span of fields of each argument, how many
    arguments each call has and the first, the argument and place of each
    field *)
Class FuzzTables := {
  fuzzer_arg_array_lst : list (Z * Z);
  fuzzer_arg_array_range : list Z;
  fuzzer_arg_array_start : list Z;
  fuzzer_fieldarg : list Z;
  fuzzer_fieldfld : list Z;
  MAX_ARG_LENGTH : Z;
  MAX_SMC_CALLS : Z;
}.

(** The heap, the fields, and the state of [rand()] *)
Record fuzz (S : Type) := {
  heap : S;
  fuzzer_arg_array : list fuzzer_arg_def;
  next : Z;
}.
Arguments heap {S} _.
Arguments fuzzer_arg_array {S} _.
Arguments next {S} _.
Arguments Build_fuzz {S} _ _ _.

Definition deref {S A} (p : option A) : M S A :=
  match p with Some x => mret x | None => fail OutOfBounds end.

(** ** Shifts *)

(** The loop that shifts by 16 bits and last by what remains *)
Fixpoint shift_loop (sh : Z → Z → Z) (ressh shamnt : Z) (n : nat) (i : Z) : Z :=
  match n with
  | O => ressh
  | S n' =>
      let ressh := if i =? shamnt / FUZZ_MAX_SHIFT_AMNT
                   then sh ressh (shamnt mod FUZZ_MAX_SHIFT_AMNT)
                   else sh ressh FUZZ_MAX_SHIFT_AMNT in
      shift_loop sh ressh shamnt n' (i + 1)
  end.

Definition shift_by {S} (sh : Z → Z → Z) (val shamnt : Z) : M S Z :=
  if FUZZ_MAX_REG_SIZE <? shamnt then fail PanicCall
  else if FUZZ_MAX_SHIFT_AMNT <? shamnt
  then mret (shift_loop sh val shamnt (Z.to_nat (shamnt / FUZZ_MAX_SHIFT_AMNT + 1)) 0)
  else if shamnt <? 0 then fail Undefined
  else mret (sh val shamnt).

Definition shiftlft {S} : Z → Z → M S Z := shift_by (λ v n, u64 (Z.shiftl v n)).
Definition shiftrht {S} : Z → Z → M S Z := shift_by Z.shiftr.

(** [%] *)
Definition modulo {S} (a b : Z) : M S Z := if b =? 0 then fail Undefined else mret (a mod b).

(** [a[k]] for [n] indices from [k] *)
Fixpoint read_vals {St} (l : list Z) (n : nat) (k : Z) : M St (list Z) :=
  match n with
  | O => mret []
  | S n' => x ← aget l k; r ← read_vals l n' (k + 1); mret (x :: r)
  end.

Section Constraint.

Context {St : Type} {A : Allocator St} {T : FuzzTables}.

Abbreviation F := (M (fuzz St)).

Definition on_heap {B} (m : M St B) : F B := λ s,
  match m (heap s) with
  | Ok (b, h) => Ok (b, Build_fuzz h (fuzzer_arg_array s) (next s))
  | Stop w => Stop w
  end.

Definition rand_ : F Z := λ s,
  Ok ((rand (next s)).1, Build_fuzz (heap s) (fuzzer_arg_array s) (rand (next s)).2).

Definition get_field (i : Z) : F fuzzer_arg_def := s ← get; aget (fuzzer_arg_array s) i.
Definition put_field (i : Z) (f : fuzzer_arg_def) : F unit :=
  s ← get;
  l ← aset (fuzzer_arg_array s) i f;
  put (Build_fuzz (heap s) l (next s)).

(** [GENMALLOC()] of [n] pointers *)
Definition new_array (n : Z) : F Z := on_heap (GENMALLOC (u32 (n * 8))).
Definition free_array (p : Z) : F unit := on_heap (GENFREE p);; mret tt.

(** ** setconstraint() *)

(** How many values of [vecinput] a constraint keeps *)
Definition kept (contype veclen : Z) : Z :=
  if contype =? FUZZER_CONSTRAINT_SVALUE then 1
  else if contype =? FUZZER_CONSTRAINT_RANGE then 2 else veclen.

(** The first constraint of a field *)
Definition first_constraint (contype veclen : Z) (vecinput : list Z) (fieldptr : Z) : F unit :=
  cv ← new_array 1;
  c0 ← new_array (kept contype veclen);
  vals ← read_vals vecinput (Z.to_nat (kept contype veclen)) 0;
  cvl ← new_array 1;
  ct ← new_array 1;
  f ← get_field fieldptr;
  put_field fieldptr
    (set_cont f (cv, [(c0, vals)]) (cvl, [kept contype veclen]) 1 (ct, [contype])).

(** Whether constraint [i] is the one to add *)
Definition same_constraint (contype veclen : Z) (vecinput : list Z) (f : fuzzer_arg_def) (i : Z) : F bool :=
  ct ← deref (conttype f);
  t ← aget ct.2 i;
  if t =? contype then
    cv ← deref (contval f);
    c ← aget cv.2 i;
    if contype =? FUZZER_CONSTRAINT_SVALUE then
      a ← aget c.2 0;
      v ← aget vecinput 0;
      mret (a =? v)
    else if contype =? FUZZER_CONSTRAINT_RANGE then
      a ← aget c.2 0;
      v ← aget vecinput 0;
      if a =? v then b ← aget c.2 1; w ← aget vecinput 1; mret (b =? w) else mret false
    else
      cvl ← deref (contvallen f);
      n ← aget cvl.2 i;
      if n =? veclen then
        a ← read_vals c.2 (Z.to_nat n) 0;
        v ← read_vals vecinput (Z.to_nat n) 0;
        mret (bool_decide (a = v))
      else mret false
  else mret false.

Fixpoint present (contype veclen : Z) (vecinput : list Z) (f : fuzzer_arg_def) (n : nat) (i : Z) : F bool :=
  match n with
  | O => mret false
  | S n' =>
      b ← same_constraint contype veclen vecinput f i;
      if b : bool then mret true else present contype veclen vecinput f n' (i + 1)
  end.

(** Copies of the arrays of values, and their release *)
Fixpoint copy_arrays (f : fuzzer_arg_def) (n : nat) (i : Z) : F (list (Z * list Z)) :=
  match n with
  | O => mret []
  | S n' =>
      cvl ← deref (contvallen f);
      len ← aget cvl.2 i;
      p ← new_array len;
      cv ← deref (contval f);
      c ← aget cv.2 i;
      vals ← read_vals c.2 (Z.to_nat len) 0;
      r ← copy_arrays f n' (i + 1);
      mret ((p, vals) :: r)
  end.

Fixpoint free_arrays (f : fuzzer_arg_def) (n : nat) (i : Z) : F unit :=
  match n with
  | O => mret tt
  | S n' =>
      cv ← deref (contval f);
      c ← aget cv.2 i;
      free_array c.1;;
      free_arrays f n' (i + 1)
  end.

Definition free_contval (f : fuzzer_arg_def) : F unit :=
  free_arrays f (Z.to_nat (contlen f)) 0;;
  cv ← deref (contval f);
  free_array cv.1.

(** One more constraint *)
Definition append_constraint (contype veclen : Z) (vecinput : list Z) (fieldptr : Z) : F unit :=
  f ← get_field fieldptr;
  let n := Z.to_nat (contlen f) in
  tarray ← new_array (1 + contlen f);
  copies ← copy_arrays f n 0;
  last ← new_array (kept contype veclen);
  vals ← read_vals vecinput (Z.to_nat (kept contype veclen)) 0;
  free_contval f;;
  lens ← new_array (1 + contlen f);
  cvl ← deref (contvallen f);
  oldlens ← read_vals cvl.2 n 0;
  free_array cvl.1;;
  types ← new_array (1 + contlen f);
  ct ← deref (conttype f);
  oldtypes ← read_vals ct.2 n 0;
  free_array ct.1;;
  put_field fieldptr
    (set_cont f (tarray, copies ++ [(last, vals)]) (lens, oldlens ++ [kept contype veclen])
       (contlen f + 1) (types, oldtypes ++ [contype])).

(** A constraint in place of all others *)
Definition replace_constraint (contype veclen : Z) (vecinput : list Z) (fieldptr : Z) : F unit :=
  f ← get_field fieldptr;
  free_contval f;;
  cvl ← deref (contvallen f);
  free_array cvl.1;;
  ct ← deref (conttype f);
  free_array ct.1;;
  first_constraint contype veclen vecinput fieldptr.

(** What follows the checks; [mode] 2 does nothing. *)
Definition add_constraint (contype veclen : Z) (vecinput : list Z) (fieldptr mode : Z) : F unit :=
  f ← get_field fieldptr;
  match contval f with
  | None => first_constraint contype veclen vecinput fieldptr
  | Some _ =>
      if mode =? FUZZER_CONSTRAINT_ACCMODE then
        b ← present contype veclen vecinput f (Z.to_nat (contlen f)) 0;
        if b : bool then mret tt else append_constraint contype veclen vecinput fieldptr
      else if mode =? FUZZER_CONSTRAINT_EXCMODE then
        replace_constraint contype veclen vecinput fieldptr
      else mret tt
  end.

Definition panic_if (b : bool) : F unit := if b then fail PanicCall else mret tt.

(** [vecinput] is [None] and [mmod] [false] when the pointer is NULL. *)
Definition setconstraint (contype : Z) (vecinput : option (list Z)) (veclen fieldnameptr : Z)
    (mmod : bool) (mode : Z) : F unit :=
  argdef ← aget fuzzer_fieldarg fieldnameptr;
  fieldname ← aget fuzzer_fieldfld fieldnameptr;
  panic_if ((MAX_ARG_LENGTH <? argdef) || (argdef <? 0));;
  span ← aget fuzzer_arg_array_lst argdef;
  panic_if ((span.2 - span.1 <? fieldname) || (fieldname <? 0));;
  let fieldptr := span.1 + fieldname in
  panic_if ((FUZZER_CONSTRAINT_VECTOR <? contype) || (contype <? 0));;
  panic_if (2 <? mode);;
  panic_if (negb mmod);;
  panic_if (veclen <? (if contype =? FUZZER_CONSTRAINT_SVALUE then 1 else 2));;
  match vecinput with
  | None => fail PanicCall
  | Some v => add_constraint contype veclen v fieldptr mode
  end.

(** ** Generating arguments *)

(** [(rand() % 65536) << 16] is an [int] before it is stored. *)
Definition rand64bit : F Z :=
  a ← rand_;
  let xreg := u64 (s32 (Z.shiftl (a mod 65536) FUZZ_MAX_SHIFT_AMNT)) in
  b ← rand_;
  let xreg := u64 (Z.shiftl (Z.lor (b mod 65536) xreg) FUZZ_MAX_SHIFT_AMNT) in
  c ← rand_;
  let xreg := u64 (Z.shiftl (Z.lor (c mod 65536) xreg) FUZZ_MAX_SHIFT_AMNT) in
  d ← rand_;
  mret (Z.lor (d mod 65536) xreg).

(** The largest value of a field: [shiftlft(1, bitw) - 1] *)
Definition field_max (f : fuzzer_arg_def) : F Z := m ← shiftlft 1 (bitw f); mret (u64 (m - 1)).

(** [resreg | shiftlft(v, bitst)], for a value that has to fit in the field *)
Definition place (f : fuzzer_arg_def) (resreg v : Z) : F Z :=
  sh ← shiftlft v (bitst f);
  mret (Z.lor resreg sh).
Definition place_checked (f : fuzzer_arg_def) (resreg v : Z) : F Z :=
  m ← field_max f;
  if m <? v then fail PanicCall else place f resreg v.

Definition field_uncon (f : fuzzer_arg_def) (resreg : Z) : F Z :=
  if reserved f =? 1 then place_checked f resreg (defval f)
  else
    r ← rand_;
    m ← shiftlft 1 (bitw f);
    v ← modulo r m;
    place f resreg v.

(** Every value of a vector has to fit. *)
Fixpoint check_vals (f : fuzzer_arg_def) (l : list Z) (n : nat) (j : Z) : F unit :=
  match n with
  | O => mret tt
  | S n' =>
      v ← aget l j;
      m ← field_max f;
      if m <? v then fail PanicCall else check_vals f l n' (j + 1)
  end.

(** A value that one of the constraints allows *)
Definition field_constrained (f : fuzzer_arg_def) (cv : Z * list (Z * list Z)) (resreg : Z) : F Z :=
  r ← rand_;
  selcon ← modulo r (contlen f);
  ct ← deref (conttype f);
  t ← aget ct.2 selcon;
  if t =? FUZZER_CONSTRAINT_SVALUE then
    c ← aget cv.2 selcon;
    v ← aget c.2 0;
    place_checked f resreg v
  else if t =? FUZZER_CONSTRAINT_RANGE then
    m ← field_max f;
    c ← aget cv.2 selcon;
    lo ← aget c.2 0;
    hi ← aget c.2 1;
    if (m <? lo) || (m <? hi) then fail PanicCall
    else
      r ← rand_;
      v ← modulo r (u64 (hi - lo + 1));
      place f resreg (u64 (v + lo))
  else if t =? FUZZER_CONSTRAINT_VECTOR then
    c ← aget cv.2 selcon;
    cvl ← deref (contvallen f);
    n ← aget cvl.2 selcon;
    check_vals f c.2 (Z.to_nat n) 0;;
    r ← rand_;
    k ← modulo r n;
    v ← aget c.2 k;
    place f resreg v
  else mret resreg.

Definition field_con (f : fuzzer_arg_def) (resreg : Z) : F Z :=
  match contval f with
  | None => place_checked f resreg (defval f)
  | Some cv =>
      c0 ← aget cv.2 0;
      if c0.1 =? 0 then place_checked f resreg (defval f) else field_constrained f cv resreg
  end.

(** The fields of argument [rsel] of a call, one after the other *)
Fixpoint field_loop (gen : fuzzer_arg_def → Z → F Z) (resreg : Z) (n : nat) (fieldptr : Z) : F Z :=
  match n with
  | O => mret resreg
  | S n' =>
      f ← get_field fieldptr;
      resreg ← gen f resreg;
      field_loop gen resreg n' (fieldptr + 1)
  end.

Definition generate_field (gen : fuzzer_arg_def → Z → F Z) (smccall rsel : Z) : F Z :=
  start ← aget fuzzer_arg_array_start smccall;
  span ← aget fuzzer_arg_array_lst (start + rsel);
  field_loop gen 0 (Z.to_nat (span.2 - span.1 + 1)) span.1.

Definition generate_field_uncon : Z → Z → F Z := generate_field field_uncon.
Definition generate_field_con : Z → Z → F Z := generate_field field_con.

(** The switch on the argument: registers [x1] to [x17], where others are left
    alone *)
Fixpoint arg_loop (gen : Z → F Z) (nparam : list Z) (n : nat) (i : Z) : F (list Z) :=
  match n with
  | O => mret nparam
  | S n' =>
      if i <? 17 then
        x ← gen i;
        nparam ← aset nparam i x;
        arg_loop gen nparam n' (i + 1)
      else arg_loop gen nparam n' (i + 1)
  end.

(** [uninit] is what the structure holds before it is written. *)
Definition generate_args (uninit : list Z) (smccall sanity : Z) : F (list Z) :=
  panic_if ((MAX_SMC_CALLS <? smccall) || (smccall <? 0));;
  panic_if ((SANITY_LEVEL_3 <? sanity) || (sanity <? 0));;
  nparam ← aset uninit 0 1;
  range ← aget fuzzer_arg_array_range smccall;
  let n := Z.to_nat range in
  if sanity =? SANITY_LEVEL_0 then arg_loop (λ _, rand64bit) nparam n 0
  else if sanity =? SANITY_LEVEL_1 then
    r ← rand_;
    selreg ← modulo r (range + 1);
    arg_loop (λ i, if selreg =? i then generate_field_uncon smccall i else rand64bit) nparam n 0
  else if sanity =? SANITY_LEVEL_2 then arg_loop (generate_field_uncon smccall) nparam n 0
  else arg_loop (generate_field_con smccall) nparam n 0.

(** ** Reading a field back *)

Definition get_generated_value (fieldnameptr : Z) (inp : list Z) : F Z :=
  argdef ← aget fuzzer_fieldarg fieldnameptr;
  fieldname ← aget fuzzer_fieldfld fieldnameptr;
  span ← aget fuzzer_arg_array_lst argdef;
  f ← get_field (span.1 + fieldname);
  if (1 <=? regnum f) && (regnum f <=? 17) then
    x ← aget inp (regnum f - 1);
    sh ← shiftrht x (bitst f);
    m ← field_max f;
    mret (Z.land sh m)
  else mret 0.

End Constraint.
