(* ===== verification/FuzzConSet.v ===== *)
(** * Setting constraints: what setconstraint() does

    The arrays of a field as a list of constraints, and [setconstraint()] as an
    update of that list, over any allocator with the laws of [FuzzMem]. *)

From S2P Require Import Prelude FuzzMalloc FuzzFree FuzzMem FuzzConstraint.

Local Open Scope Z_scope.

(** ** Constraints *)

Inductive constraint :=
| SValue (v : Z)
| Range (lo hi : Z)
| Vector (l : list Z).

#[export] Instance constraint_eq_dec : EqDecision constraint.
Proof. solve_decision. Defined.

Definition con_type (c : constraint) : Z :=
  match c with
  | SValue _ => FUZZER_CONSTRAINT_SVALUE
  | Range _ _ => FUZZER_CONSTRAINT_RANGE
  | Vector _ => FUZZER_CONSTRAINT_VECTOR
  end.
Definition con_vals (c : constraint) : list Z :=
  match c with SValue v => [v] | Range lo hi => [lo; hi] | Vector l => l end.
Definition con_len (c : constraint) : Z := zlen (con_vals c).

(** The constraint that [setconstraint()] is asked for *)
Definition requested (contype veclen : Z) (v : list Z) : option constraint :=
  if contype =? FUZZER_CONSTRAINT_SVALUE then SValue <$> zget v 0
  else if contype =? FUZZER_CONSTRAINT_RANGE then
    match zget v 0, zget v 1 with Some lo, Some hi => Some (Range lo hi) | _, _ => None end
  else if contype =? FUZZER_CONSTRAINT_VECTOR then
    if veclen <=? zlen v then Some (Vector (take (Z.to_nat veclen) v)) else None
  else None.

(** The arrays of a field hold [cs]. *)
Definition rep (f : fuzzer_arg_def) (cs : list constraint) : Prop :=
  match contval f with
  | None => cs = []
  | Some (_, arrs) =>
      cs ≠ [] ∧ contlen f = zlen cs ∧ arrs.*2 = con_vals <$> cs ∧ Forall (λ a, 0 < a.1) arrs
      ∧ (∃ p, contvallen f = Some (p, con_len <$> cs)) ∧ (∃ p, conttype f = Some (p, con_type <$> cs))
  end.

(** The arrays themselves *)
Definition addrs (f : fuzzer_arg_def) : list Z :=
  match contval f, contvallen f, conttype f with
  | Some (p, arrs), Some (pl, _), Some (pt, _) => p :: pl :: pt :: arrs.*1
  | _, _, _ => []
  end.

(** The list afterwards *)
Definition updated (mode : Z) (c : constraint) (cs : list constraint) : list constraint :=
  match cs with
  | [] => [c]
  | _ => if mode =? FUZZER_CONSTRAINT_ACCMODE then if bool_decide (c ∈ cs) then cs else cs ++ [c]
         else if mode =? FUZZER_CONSTRAINT_EXCMODE then [c] else cs
  end.

(** ** Running with an allocator that may run out *)

Section Runs.

Context {St : Type} {A : Allocator St} {AOk : AllocatorOk St A} {T : FuzzTables}.

Definition runs {B} (m : M (fuzz St) B) (s : fuzz St) (Q : B → fuzz St → Prop) : Prop :=
  m s = Stop NoMemory ∨ ∃ b s', m s = Ok (b, s') ∧ Q b s'.

Lemma runs_bind {B C} (m : M (fuzz St) B) (k : B → M (fuzz St) C) (s : fuzz St) Q R :
  runs m s Q → (∀ b s', Q b s' → runs (k b) s' R) → runs (m ≫= k) s R.
Proof.
  intros [Hm|(b & s' & Hm & HQ)] Hk.
  - left. unfold mbind, M_bind. by rewrite Hm.
  - unfold runs. rewrite (bind_Ok _ _ _ _ _ Hm). by apply Hk.
Qed.

Lemma runs_Ok {B} (m : M (fuzz St) B) (s s' : fuzz St) (b : B) (Q : B → fuzz St → Prop) :
  m s = Ok (b, s') → Q b s' → runs m s Q.
Proof. intros. right. eauto. Qed.

Lemma runs_ret {B} (b : B) (s : fuzz St) (Q : B → fuzz St → Prop) : Q b s → runs (mret b) s Q.
Proof. intros. by apply runs_Ok with s b. Qed.

(** A step that returns and changes nothing *)
Lemma runs_pure {B C} (m : M (fuzz St) B) (k : B → M (fuzz St) C) (s : fuzz St) (b : B) R :
  m s = Ok (b, s) → runs (k b) s R → runs (m ≫= k) s R.
Proof. intros Hm Hk. apply (runs_bind _ _ _ (λ b' s', b' = b ∧ s' = s)); [|by intros ? ? [-> ->]]. by eapply runs_Ok. Qed.

(** The heap holds the arrays [L]. *)
Definition holds (h : St) (L : list Z) : Prop := mem_ok h ∧ owned h ≡ₚ L.

Lemma holds_perm (h : St) (L L' : list Z) : L ≡ₚ L' → holds h L → holds h L'.
Proof. intros Hp [H1 H2]. split; [done|]. by rewrite H2. Qed.

Lemma runs_new_array {C} (n : Z) (k : Z → M (fuzz St) C) (h : St) a x (L : list Z) R :
  holds h L → (∀ p h', 0 < p → holds h' (p :: L) → runs (k p) (Build_fuzz h' a x) R) →
  runs (new_array n ≫= k) (Build_fuzz h a x) R.
Proof.
  intros [Hm Ho] Hk.
  apply (runs_bind _ _ _ (λ p s', ∃ h', s' = Build_fuzz h' a x ∧ 0 < p ∧ holds h' (p :: L)));
    [|intros p s' (h' & -> & Hp & Hh); by apply Hk].
  unfold runs, new_array, on_heap. cbn [heap fuzzer_arg_array next].
  destruct (malloc_law h (u32 (n * 8)) Hm (u32_range _)) as [->|(p & h' & -> & Hm' & Hp & Ho')]; [by left|].
  right. exists p, (Build_fuzz h' a x). split; [done|]. exists h'.
  split_and!; [done|done|]. split; [done|]. by rewrite Ho', Ho.
Qed.

Lemma runs_free_array {C} (p : Z) (k : unit → M (fuzz St) C) (h : St) a x (L L' : list Z) R :
  holds h L → L ≡ₚ p :: L' → (∀ h', holds h' L' → runs (k tt) (Build_fuzz h' a x) R) →
  runs (free_array p ≫= k) (Build_fuzz h a x) R.
Proof.
  intros [Hm Ho] HL Hk.
  apply (runs_bind _ _ _ (λ _ s', ∃ h', s' = Build_fuzz h' a x ∧ holds h' L'));
    [|intros [] s' (h' & -> & Hh); by apply Hk].
  right. destruct (free_law h p Hm) as (r & h' & Hrun & Hm' & Ho'); [rewrite Ho, HL; left|].
  exists tt, (Build_fuzz h' a x). split; [|exists h'; split; [done|]; split; [done|]].
  - unfold free_array, on_heap. cbn [heap fuzzer_arg_array next]. unfold mbind, M_bind.
    cbn [heap]. by rewrite Hrun.
  - apply (Permutation_cons_inv (a := p)). by rewrite <- Ho', Ho, HL.
Qed.

(** ** Arrays *)

Lemma read_vals_run {S'} (l : list Z) (n : nat) (k : Z) (s : S') :
  0 <= k → k + Z.of_nat n <= zlen l →
  read_vals l n k s = Ok (take n (drop (Z.to_nat k) l), s).
Proof.
  revert k. induction n as [|n IH]; intros k Hk Hn; [done|].
  destruct (zget_is_Some l k) as [x Hx]; [lia|]. cbn [read_vals].
  rewrite (bind_Ok _ _ _ _ _ (aget_Ok _ _ _ s Hx)), (bind_Ok _ _ _ _ _ (IH (k + 1) ltac:(lia) ltac:(lia))).
  unfold mret, M_ret. do 2 f_equal. replace (Z.to_nat (k + 1)) with (Datatypes.S (Z.to_nat k)) by lia.
  unfold zget in Hx. destruct (Z.ltb_spec k 0); [lia|]. by rewrite (drop_S l x _ Hx).
Qed.

Lemma read_all {S'} (l : list Z) (n : Z) (s : S') : n = zlen l → read_vals l (Z.to_nat n) 0 s = Ok (l, s).
Proof.
  intros ->. rewrite read_vals_run; [|done|unfold zlen; lia]. do 2 f_equal. change (Z.to_nat 0) with 0%nat. rewrite drop_0.
  apply take_ge. unfold zlen. lia.
Qed.

(** ** The steps of setconstraint() *)

Section Steps.

Context (f : fuzzer_arg_def) (cs : list constraint) (p pl pt : Z) (arrs : list (Z * list Z)).
Context (Hcv : contval f = Some (p, arrs)) (Hcvl : contvallen f = Some (pl, con_len <$> cs))
  (Hct : conttype f = Some (pt, con_type <$> cs)) (Harr : arrs.*2 = con_vals <$> cs).

Lemma rep_len : length arrs = length cs.
Proof. rewrite <- (length_fmap snd arrs), Harr. apply length_fmap. Qed.

Lemma rep_get (i : nat) (c : constraint) : cs !! i = Some c → ∃ q, arrs !! i = Some (q, con_vals c).
Proof.
  intros Hc. assert (arrs.*2 !! i = Some (con_vals c)) as Hi by (by rewrite Harr, list_lookup_fmap, Hc).
  rewrite list_lookup_fmap in Hi. destruct (arrs !! i) as [[q vs]|]; [|done]. cbn in Hi. simplify_eq. eauto.
Qed.

Lemma zget_nat {B} (l : list B) (i : nat) : zget l (Z.of_nat i) = l !! i.
Proof. unfold zget. destruct (Z.ltb_spec (Z.of_nat i) 0); [lia|]. by rewrite Nat2Z.id. Qed.

Lemma runs_copy_arrays (n i : nat) (h : St) a x (L : list Z) : (i + n = length cs)%nat → holds h L →
  runs (copy_arrays f n (Z.of_nat i)) (Build_fuzz h a x) (λ r s', ∃ h', s' = Build_fuzz h' a x
    ∧ r.*2 = con_vals <$> drop i cs ∧ Forall (λ y, 0 < y.1) r ∧ holds h' (r.*1 ++ L)).
Proof.
  revert i h L. induction n as [|n IH]; intros i h L Hn Hh.
  { apply runs_ret. exists h. rewrite drop_ge by lia. split_and!; done. }
  destruct (lookup_lt_is_Some_2 cs i) as [c Hc]; [lia|]. destruct (rep_get i c Hc) as [q Hq].
  cbn [copy_arrays]. rewrite Hcvl. apply runs_pure with (b := (pl, con_len <$> cs)); [done|].
  apply runs_pure with (b := con_len c).
  { apply aget_Ok. cbn [snd]. by rewrite zget_nat, list_lookup_fmap, Hc. }
  apply (runs_new_array _ _ _ _ _ L); [done|]. intros np h' Hnp Hh'. rewrite Hcv.
  apply runs_pure with (b := (p, arrs)); [done|]. apply runs_pure with (b := (q, con_vals c)).
  { apply aget_Ok. cbn [snd]. by rewrite zget_nat. }
  apply runs_pure with (b := con_vals c); [by apply read_all|].
  eapply runs_bind.
  { replace (Z.of_nat i + 1) with (Z.of_nat (Datatypes.S i)) by lia. apply (IH (Datatypes.S i) h' (np :: L)); [lia|done]. }
  intros r s' (h2 & -> & Hr & Hpos & Hh2). apply runs_ret. exists h2. cbn [fmap list_fmap fst snd].
  rewrite Hr, (drop_S cs c i Hc). split_and!; [done|done|by constructor|].
  apply (holds_perm _ _ _ (Permutation_sym (Permutation_middle _ _ _)) Hh2).
Qed.

Lemma runs_free_arrays (n i : nat) (h : St) a x (L L' : list Z) : (i + n = length cs)%nat → holds h L →
  L ≡ₚ drop i arrs.*1 ++ L' →
  runs (free_arrays f n (Z.of_nat i)) (Build_fuzz h a x) (λ _ s', ∃ h', s' = Build_fuzz h' a x ∧ holds h' L').
Proof.
  revert i h L. induction n as [|n IH]; intros i h L Hn Hh HL.
  { apply runs_ret. exists h. split; [done|]. apply (holds_perm _ L); [|done].
    rewrite HL, drop_ge; [done|]. rewrite length_fmap, rep_len. lia. }
  destruct (lookup_lt_is_Some_2 cs i) as [c Hc]; [lia|]. destruct (rep_get i c Hc) as [q Hq].
  cbn [free_arrays]. rewrite Hcv. apply runs_pure with (b := (p, arrs)); [done|].
  apply runs_pure with (b := (q, con_vals c)).
  { apply aget_Ok. cbn [snd]. by rewrite zget_nat. }
  assert (arrs.*1 !! i = Some q) as Hq1 by (by rewrite list_lookup_fmap, Hq).
  rewrite (drop_S _ q i Hq1) in HL. cbn [fst].
  apply (runs_free_array _ _ _ _ _ L (drop (Datatypes.S i) arrs.*1 ++ L')); [done|done|]. intros h' Hh'.
  replace (Z.of_nat i + 1) with (Z.of_nat (Datatypes.S i)) by lia.
  by apply (IH (Datatypes.S i) h' (drop (Datatypes.S i) arrs.*1 ++ L')); [lia|done|].
Qed.

Lemma runs_free_contval {C} (k : unit → M (fuzz St) C) (h : St) a x (L L' : list Z) R :
  contlen f = zlen cs → holds h L → L ≡ₚ p :: arrs.*1 ++ L' →
  (∀ h', holds h' L' → runs (k tt) (Build_fuzz h' a x) R) → runs (free_contval f ≫= k) (Build_fuzz h a x) R.
Proof.
  intros Hlen Hh HL Hk.
  apply (runs_bind _ _ _ (λ _ s', ∃ h', s' = Build_fuzz h' a x ∧ holds h' L'));
    [|intros [] s' (h' & -> & Hh'); by apply Hk].
  unfold free_contval. eapply runs_bind.
  { rewrite Hlen. unfold zlen. rewrite Nat2Z.id.
    apply (runs_free_arrays _ 0 h a x L (p :: L')); [done|done|]. rewrite drop_0, HL. by rewrite Permutation_middle. }
  intros b s' (h1 & -> & Hh1). rewrite Hcv. apply runs_pure with (b := (p, arrs)); [done|]. cbn [fst].
  assert (runs (free_array p ≫= λ u, mret u) (Build_fuzz h1 a x)
    (λ _ s', ∃ h', s' = Build_fuzz h' a x ∧ holds h' L')) as Hrun.
  { apply (runs_free_array _ _ _ _ _ (p :: L') L'); [done|done|]. intros h' Hh'. apply runs_ret. eauto. }
  revert Hrun. unfold runs, mbind, M_bind. destruct (free_array p _) as [[[] s2]|w]; done.
Qed.

End Steps.

Lemma requested_spec (contype veclen : Z) (v : list Z) (c : constraint) :
  requested contype veclen v = Some c → 0 <= veclen →
  con_type c = contype ∧ kept contype veclen = con_len c
  ∧ ∀ s : fuzz St, read_vals v (Z.to_nat (kept contype veclen)) 0 s = Ok (con_vals c, s).
Proof.
  unfold requested, kept. intros Hr Hv.
  destruct (Z.eqb_spec contype FUZZER_CONSTRAINT_SVALUE) as [->|_].
  { destruct (zget v 0) as [a|] eqn:Ha; [|done]. cbn in Hr. simplify_eq. split_and!; [done|done|]. intros s.
    change (Z.to_nat 1) with 1%nat. cbn [read_vals]. by rewrite (bind_Ok _ _ _ _ _ (aget_Ok _ _ _ s Ha)). }
  destruct (Z.eqb_spec contype FUZZER_CONSTRAINT_RANGE) as [->|_].
  { destruct (zget v 0) as [a|] eqn:Ha; [|done]. destruct (zget v 1) as [b|] eqn:Hb; [|done]. simplify_eq.
    split_and!; [done|done|]. intros s. change (Z.to_nat 2) with 2%nat. cbn [read_vals].
    rewrite (bind_Ok _ _ _ _ _ (aget_Ok _ _ _ s Ha)). change (0 + 1) with 1. erewrite bind_Ok; [reflexivity|].
    by rewrite (bind_Ok _ _ _ _ _ (aget_Ok _ _ _ s Hb)). }
  destruct (Z.eqb_spec contype FUZZER_CONSTRAINT_VECTOR) as [->|_]; [|done].
  destruct (Z.leb_spec veclen (zlen v)) as [Hle|]; [|done]. simplify_eq. split_and!; [done| |].
  - unfold con_len, con_vals, zlen in *. rewrite length_take. lia.
  - intros s. rewrite read_vals_run by (unfold zlen in *; lia). change (Z.to_nat 0) with 0%nat. by rewrite drop_0.
Qed.

Section Set_one.

Context (contype veclen : Z) (v : list Z) (c : constraint) (Hveclen : 0 <= veclen)
  (Hreq : requested contype veclen v = Some c).
Context (i x : Z) (a : list fuzzer_arg_def) (f : fuzzer_arg_def) (Hf : zget a i = Some f).

(** Field [i] holds [cs] now, in arrays of its own beside [L]. *)
Definition now_holds (cs : list constraint) (L : list Z) (s' : fuzz St) : Prop :=
  ∃ h' f', s' = Build_fuzz h' (zset a i f') x ∧ rep f' cs ∧ holds h' (addrs f' ++ L)
    ∧ (regnum f', bitw f', bitst f', defval f', reserved f')
      = (regnum f, bitw f, bitst f, defval f, reserved f).

Lemma put_field_run (h : St) (f' : fuzzer_arg_def) :
  put_field i f' (Build_fuzz h a x) = Ok (tt, Build_fuzz h (zset a i f') x).
Proof.
  pose proof (zget_Some_range _ _ _ Hf) as Hr. unfold put_field. erewrite bind_Ok by reflexivity.
  by rewrite (bind_Ok _ _ _ _ _ (aset_Ok a i f' (Build_fuzz h a x) Hr)).
Qed.

Lemma get_field_run (h : St) : get_field i (Build_fuzz h a x) = Ok (f, Build_fuzz h a x).
Proof. unfold get_field. erewrite bind_Ok by reflexivity. by apply aget_Ok. Qed.

Lemma runs_first (h : St) (L : list Z) : holds h L →
  runs (first_constraint contype veclen v i) (Build_fuzz h a x) (λ _, now_holds [c] L).
Proof.
  intros Hh. destruct (requested_spec _ _ _ _ Hreq Hveclen) as (Hty & Hk & Hread). unfold first_constraint.
  apply (runs_new_array _ _ _ _ _ L); [done|]. intros p1 h1 Hp1 Hh1.
  apply (runs_new_array _ _ _ _ _ (p1 :: L)); [done|]. intros p2 h2 Hp2 Hh2.
  apply runs_pure with (b := con_vals c); [apply Hread|].
  apply (runs_new_array _ _ _ _ _ (p2 :: p1 :: L)); [done|]. intros p3 h3 Hp3 Hh3.
  apply (runs_new_array _ _ _ _ _ (p3 :: p2 :: p1 :: L)); [done|]. intros p4 h4 Hp4 Hh4.
  apply runs_pure with (b := f); [apply get_field_run|].
  eapply runs_Ok; [apply put_field_run|]. rewrite Hk, <- Hty. eexists h4, _. split; [reflexivity|]. split_and!.
  - unfold rep. cbn. split_and!; try done; [by repeat constructor|by eexists|by eexists].
  - apply (holds_perm _ _ _) with (2 := Hh4). cbn. solve_Permutation.
  - done.
Qed.

Context (cs : list constraint) (p pl pt : Z) (arrs : list (Z * list Z)).
Context (Hcv : contval f = Some (p, arrs)) (Hcvl : contvallen f = Some (pl, con_len <$> cs))
  (Hct : conttype f = Some (pt, con_type <$> cs)) (Harr : arrs.*2 = con_vals <$> cs)
  (Hlen : contlen f = zlen cs) (Hne : cs ≠ []) (Hpos : Forall (λ y, 0 < y.1) arrs).

Lemma runs_append (h : St) (L : list Z) : holds h (addrs f ++ L) →
  runs (append_constraint contype veclen v i) (Build_fuzz h a x) (λ _, now_holds (cs ++ [c]) L).
Proof.
  intros Hh. unfold addrs in Hh. rewrite Hcv, Hcvl, Hct in Hh. cbn [app] in Hh.
  destruct (requested_spec _ _ _ _ Hreq Hveclen) as (Hty & Hk & Hread). unfold append_constraint.
  apply runs_pure with (b := f); [apply get_field_run|].
  apply (runs_new_array _ _ _ _ _ _ _ Hh). intros p1 h1 Hp1 Hh1.
  assert (Z.to_nat (contlen f) = length cs) as -> by (rewrite Hlen; unfold zlen; lia).
  eapply runs_bind.
  { apply (runs_copy_arrays f cs p pl arrs Hcv Hcvl Harr (length cs) 0 h1 a x _ eq_refl Hh1). }
  intros r s' (h2 & -> & Hr & Hrp & Hh2). rewrite drop_0 in Hr.
  apply (runs_new_array _ _ _ _ _ _ _ Hh2). intros p2 h3 Hp2 Hh3.
  apply runs_pure with (b := con_vals c); [apply Hread|].
  apply (runs_free_contval f cs p arrs Hcv Harr _ _ _ _ _ (p2 :: r.*1 ++ p1 :: pl :: pt :: L) _ Hlen Hh3).
  { solve_Permutation. }
  intros h4 Hh4. rewrite Hlen. apply (runs_new_array _ _ _ _ _ _ _ Hh4). intros p3 h5 Hp3 Hh5.
  rewrite Hcvl. apply runs_pure with (b := (pl, con_len <$> cs)); [done|]. cbn [fst snd].
  apply runs_pure with (b := con_len <$> cs).
  { rewrite <- (Nat2Z.id (length cs)). apply read_all. unfold zlen. by rewrite length_fmap. }
  apply (runs_free_array _ _ _ _ _ _ (p3 :: p2 :: r.*1 ++ p1 :: pt :: L) _ Hh5); [solve_Permutation|].
  intros h6 Hh6. apply (runs_new_array _ _ _ _ _ _ _ Hh6). intros p4 h7 Hp4 Hh7.
  rewrite Hct. apply runs_pure with (b := (pt, con_type <$> cs)); [done|]. cbn [fst snd].
  apply runs_pure with (b := con_type <$> cs).
  { rewrite <- (Nat2Z.id (length cs)). apply read_all. unfold zlen. by rewrite length_fmap. }
  apply (runs_free_array _ _ _ _ _ _ (p4 :: p3 :: p2 :: r.*1 ++ p1 :: L) _ Hh7); [solve_Permutation|].
  intros h8 Hh8. eapply runs_Ok; [apply put_field_run|]. rewrite Hk, <- Hty.
  eexists h8, _. split; [reflexivity|]. split_and!; [|apply (holds_perm _ _ _) with (2 := Hh8)|done].
  - unfold rep. cbn. rewrite !fmap_app, Hr. split_and!; try done.
    + by destruct cs.
    + unfold zlen. rewrite length_app. cbn [length]. lia.
    + apply Forall_app. split; [done|by constructor].
    + by eexists.
    + by eexists.
  - cbn. rewrite fmap_app. cbn. solve_Permutation.
Qed.

Lemma runs_replace (h : St) (L : list Z) : holds h (addrs f ++ L) →
  runs (replace_constraint contype veclen v i) (Build_fuzz h a x) (λ _, now_holds [c] L).
Proof.
  intros Hh. unfold addrs in Hh. rewrite Hcv, Hcvl, Hct in Hh. cbn [app] in Hh. unfold replace_constraint.
  apply runs_pure with (b := f); [apply get_field_run|].
  apply (runs_free_contval f cs p arrs Hcv Harr _ _ _ _ _ (pl :: pt :: L) _ Hlen Hh); [solve_Permutation|].
  intros h1 Hh1. rewrite Hcvl. apply runs_pure with (b := (pl, con_len <$> cs)); [done|].
  apply (runs_free_array _ _ _ _ _ _ (pt :: L) _ Hh1); [done|].
  intros h2 Hh2. rewrite Hct. apply runs_pure with (b := (pt, con_type <$> cs)); [done|].
  apply (runs_free_array _ _ _ _ _ _ L _ Hh2); [done|]. intros h3 Hh3. by apply runs_first.
Qed.

(** The comparison with a constraint already there *)
Lemma same_constraint_run (k : nat) (c0 : constraint) (s : fuzz St) : cs !! k = Some c0 →
  same_constraint contype veclen v f (Z.of_nat k) s = Ok (bool_decide (c0 = c), s).
Proof.
  intros Hk. destruct (requested_spec _ _ _ _ Hreq Hveclen) as (Hty & Hkept & Hread).
  destruct (rep_get cs arrs Harr k c0 Hk) as [q Hq]. unfold same_constraint. rewrite Hct, Hcv.
  rewrite (bind_Ok _ _ s s (pt, con_type <$> cs)) by done. cbn [snd].
  assert (aget (con_type <$> cs) (Z.of_nat k) s = Ok (con_type c0, s)) as Hget
    by (apply aget_Ok; by rewrite zget_nat, list_lookup_fmap, Hk).
  rewrite (bind_Ok _ _ _ _ _ Hget). destruct (Z.eqb_spec (con_type c0) contype) as [Heq|Hne0]; cycle 1.
  { rewrite bool_decide_eq_false_2; [done|]. intros ->. done. }
  rewrite (bind_Ok _ _ s s (p, arrs)) by done. cbn [snd].
  assert (aget arrs (Z.of_nat k) s = Ok ((q, con_vals c0), s)) as Hget2 by (apply aget_Ok; by rewrite zget_nat).
  rewrite (bind_Ok _ _ _ _ _ Hget2). cbn [snd]. unfold requested in Hreq.
  destruct (Z.eqb_spec contype FUZZER_CONSTRAINT_SVALUE) as [->|H1].
  { destruct c0 as [v0|? ?|?]; try done. destruct (zget v 0) as [w|] eqn:Hw; [|done]. cbn in Hreq. simplify_eq.
    cbn [con_vals]. rewrite (bind_Ok _ _ s s v0) by done. rewrite (bind_Ok _ _ s s w) by (by apply aget_Ok).
    unfold mret, M_ret. do 2 f_equal. destruct (Z.eqb_spec v0 w) as [->|Hn]; symmetry;
      [by apply bool_decide_eq_true_2|apply bool_decide_eq_false_2; congruence]. }
  destruct (Z.eqb_spec contype FUZZER_CONSTRAINT_RANGE) as [->|H2].
  { destruct c0 as [?|lo hi|?]; try done. destruct (zget v 0) as [w|] eqn:Hw; [|done].
    destruct (zget v 1) as [w'|] eqn:Hw'; [|done]. simplify_eq. cbn [con_vals].
    rewrite (bind_Ok _ _ s s lo) by done. rewrite (bind_Ok _ _ s s w) by (by apply aget_Ok).
    destruct (Z.eqb_spec lo w) as [->|Hn].
    - rewrite (bind_Ok _ _ s s hi) by done. rewrite (bind_Ok _ _ s s w') by (by apply aget_Ok).
      unfold mret, M_ret. do 2 f_equal. destruct (Z.eqb_spec hi w') as [->|Hn]; symmetry;
        [by apply bool_decide_eq_true_2|apply bool_decide_eq_false_2; congruence].
    - unfold mret, M_ret. do 2 f_equal. symmetry. apply bool_decide_eq_false_2. congruence. }
  destruct (Z.eqb_spec contype FUZZER_CONSTRAINT_VECTOR) as [->|H3]; [|done].
  destruct c0 as [?|? ?|l0]; try done. rewrite Hcvl. rewrite (bind_Ok _ _ s s (pl, con_len <$> cs)) by done.
  rewrite (bind_Ok _ _ s s (con_len (Vector l0)))
    by (apply aget_Ok; cbn [snd]; by rewrite zget_nat, list_lookup_fmap, Hk).
  unfold kept in Hkept, Hread. cbn in Hkept, Hread. destruct (Z.leb_spec veclen (zlen v)); [|done].
  destruct c as [?|? ?|l]; try done. cbn [con_vals] in *.
  destruct (Z.eqb_spec (con_len (Vector l0)) veclen) as [Hl|Hl].
  - rewrite (bind_Ok _ _ s s l0) by (by apply read_all). rewrite Hl. rewrite (bind_Ok _ _ _ _ _ (Hread s)).
    unfold mret, M_ret. do 2 f_equal. apply bool_decide_ext. naive_solver.
  - unfold mret, M_ret. do 2 f_equal. symmetry. apply bool_decide_eq_false_2. intros ?. simplify_eq.
Qed.

Lemma present_run (n k : nat) (s : fuzz St) : (k + n = length cs)%nat →
  present contype veclen v f n (Z.of_nat k) s = Ok (bool_decide (c ∈ drop k cs), s).
Proof.
  revert k. induction n as [|n IH]; intros k Hn.
  { rewrite drop_ge by lia. done. }
  destruct (lookup_lt_is_Some_2 cs k) as [c0 Hk]; [lia|]. cbn [present].
  rewrite (bind_Ok _ _ _ _ _ (same_constraint_run k c0 s Hk)), (drop_S cs c0 k Hk).
  destruct (decide (c0 = c)) as [->|Hne0].
  - rewrite bool_decide_eq_true_2 by done. unfold mret, M_ret. do 2 f_equal. symmetry.
    apply bool_decide_eq_true_2. left.
  - rewrite (bool_decide_eq_false_2 (c0 = c)) by done.
    replace (Z.of_nat k + 1) with (Z.of_nat (Datatypes.S k)) by lia. rewrite IH by lia. do 2 f_equal.
    apply bool_decide_ext. rewrite elem_of_cons. naive_solver.
Qed.

End Set_one.

(** The part of [setconstraint()] after its checks *)
Lemma runs_add (contype veclen : Z) (v : list Z) (c : constraint) (i x mode : Z) (a : list fuzzer_arg_def)
    (f : fuzzer_arg_def) (cs : list constraint) (h : St) (L : list Z) :
  0 <= veclen → requested contype veclen v = Some c → zget a i = Some f → rep f cs → holds h (addrs f ++ L) →
  runs (add_constraint contype veclen v i mode) (Build_fuzz h a x) (λ _, now_holds i x a f (updated mode c cs) L).
Proof.
  intros Hv Hreq Hf Hrep Hh. unfold add_constraint.
  apply runs_pure with (b := f); [by apply get_field_run|]. pose proof Hrep as Hrep0. unfold rep in Hrep.
  destruct (contval f) as [[p arrs]|] eqn:Hcv; cycle 1.
  { subst cs. apply (runs_first _ _ _ _ Hv Hreq _ _ _ _ Hf). unfold addrs in Hh. by rewrite Hcv in Hh. }
  destruct Hrep as (Hne & Hlen & Harr & Hpos & (pl & Hcvl) & (pt & Hct)).
  assert (runs (mret tt) (Build_fuzz h a x) (λ _, now_holds i x a f cs L)) as Hsame.
  { apply runs_ret. exists h, f. split_and!; try done. f_equal. symmetry. by apply zset_id. }
  unfold updated. destruct cs as [|c1 cs'] eqn:Ecs; [done|]. rewrite <- Ecs in *.
  destruct (mode =? FUZZER_CONSTRAINT_ACCMODE); [|destruct (mode =? FUZZER_CONSTRAINT_EXCMODE); [|done]].
  - apply runs_pure with (b := bool_decide (c ∈ cs)).
    { rewrite Hlen. unfold zlen. rewrite Nat2Z.id. change 0 with (Z.of_nat 0).
      by apply (present_run _ _ _ _ Hv Hreq f cs p pl pt arrs Hcv Hcvl Hct Harr). }
    destruct (bool_decide (c ∈ cs)); [done|].
    by apply (runs_append _ _ _ _ Hv Hreq _ _ _ _ Hf cs p pl pt arrs).
  - by apply (runs_replace _ _ _ _ Hv Hreq _ _ _ _ Hf cs p pl pt arrs).
Qed.

(** The name of a field, as the tables give it *)
Definition names (k i : Z) : Prop :=
  ∃ argdef fieldname span, zget fuzzer_fieldarg k = Some argdef ∧ zget fuzzer_fieldfld k = Some fieldname
    ∧ zget fuzzer_arg_array_lst argdef = Some span ∧ 0 <= argdef <= MAX_ARG_LENGTH
    ∧ 0 <= fieldname <= span.2 - span.1 ∧ i = span.1 + fieldname.

Lemma panic_if_bind {B} (b : bool) (k : unit → M (fuzz St) B) (s : fuzz St) :
  (panic_if b ≫= k) s = if b then Stop PanicCall else k tt s.
Proof. by destruct b. Qed.

Lemma setconstraint_checks (contype : Z) (vecinput : option (list Z)) (veclen k i mode : Z) (mmod : bool) (s : fuzz St) :
  names k i →
  setconstraint contype vecinput veclen k mmod mode s
  = if (FUZZER_CONSTRAINT_VECTOR <? contype) || (contype <? 0) || (2 <? mode) || negb mmod
       || (veclen <? (if contype =? FUZZER_CONSTRAINT_SVALUE then 1 else 2))
    then Stop PanicCall
    else match vecinput with
         | None => Stop PanicCall
         | Some v => add_constraint contype veclen v i mode s
         end.
Proof.
  intros (argdef & fieldname & span & H1 & H2 & H3 & H4 & H5 & ->). unfold setconstraint.
  rewrite (bind_Ok _ _ _ _ _ (aget_Ok _ _ _ s H1)), (bind_Ok _ _ _ _ _ (aget_Ok _ _ _ s H2)).
  rewrite (proj2 (Z.ltb_ge MAX_ARG_LENGTH argdef)), (proj2 (Z.ltb_ge argdef 0)) by lia. cbn [orb].
  rewrite (bind_Ok _ _ s s tt) by done. rewrite (bind_Ok _ _ _ _ _ (aget_Ok _ _ _ s H3)).
  rewrite (proj2 (Z.ltb_ge (span.2 - span.1) fieldname)), (proj2 (Z.ltb_ge fieldname 0)) by lia. cbn [orb].
  rewrite (bind_Ok _ _ s s tt) by done. cbv zeta. rewrite panic_if_bind.
  destruct ((FUZZER_CONSTRAINT_VECTOR <? contype) || (contype <? 0)); [done|]. cbn [orb].
  rewrite panic_if_bind. destruct (2 <? mode); [done|]. rewrite panic_if_bind. destruct mmod; [|done].
  cbn [negb orb]. rewrite panic_if_bind. destruct (veclen <? _); [done|]. by destruct vecinput.
Qed.

Lemma runs_setconstraint (contype veclen k i x mode : Z) (v : list Z) (c : constraint) (a : list fuzzer_arg_def)
    (f : fuzzer_arg_def) (cs : list constraint) (h : St) (L : list Z) :
  names k i → mode <= 2 → (if contype =? FUZZER_CONSTRAINT_SVALUE then 1 else 2) <= veclen →
  requested contype veclen v = Some c → zget a i = Some f → rep f cs → holds h (addrs f ++ L) →
  runs (setconstraint contype (Some v) veclen k true mode) (Build_fuzz h a x)
    (λ _, now_holds i x a f (updated mode c cs) L).
Proof.
  intros Hn Hm Hl Hreq Hf Hrep Hh.
  assert (0 <= veclen) as Hv by (destruct (contype =? FUZZER_CONSTRAINT_SVALUE); lia).
  destruct (requested_spec _ _ _ _ Hreq Hv) as (Hty & _).
  unfold runs. rewrite (setconstraint_checks _ _ _ _ i) by done.
  rewrite (proj2 (Z.ltb_ge FUZZER_CONSTRAINT_VECTOR contype)) by (subst contype; by destruct c).
  rewrite (proj2 (Z.ltb_ge contype 0)) by (subst contype; by destruct c).
  rewrite (proj2 (Z.ltb_ge 2 mode)), (proj2 (Z.ltb_ge veclen _)) by lia. cbn [orb negb].
  by apply runs_add.
Qed.

End Runs.

(** ** With the allocator of the module *)

Section Checked.

Context {T : FuzzTables}.

Lemma on_heap_refines {B} (m m' : M memmod B) : refines m m' → refines (on_heap m) (on_heap m').
Proof.
  intros Hm s [b s'] Hrun. unfold on_heap in *. destruct (m (heap s)) as [[b0 h]|] eqn:Hr; [|done].
  by rewrite (Hm _ _ Hr).
Qed.

Lemma new_array_refines (n : Z) :
  refines (@new_array memmod checked_allocator n) (@new_array memmod smc_allocator n).
Proof. apply on_heap_refines, checked_refines. Qed.

Lemma free_array_refines (p : Z) :
  refines (@free_array memmod checked_allocator p) (@free_array memmod smc_allocator p).
Proof. exact (refines_refl _). Qed.

Hint Resolve new_array_refines free_array_refines : refines.

Ltac refine_steps :=
  repeat match goal with
  | |- refines ?m ?m => apply refines_refl
  | |- refines (_ ≫= _) (_ ≫= _) => apply refines_bind; [|intros ?]
  | |- refines (if ?b then _ else _) _ => destruct b
  | |- refines (match ?x with _ => _ end) _ => destruct x
  | |- _ => solve [eauto with refines]
  end.

Lemma first_refines (contype veclen : Z) (v : list Z) (i : Z) :
  refines (@first_constraint memmod checked_allocator contype veclen v i)
    (@first_constraint memmod smc_allocator contype veclen v i).
Proof. unfold first_constraint. refine_steps. Qed.

Lemma copy_refines (f : fuzzer_arg_def) (n : nat) (i : Z) :
  refines (@copy_arrays memmod checked_allocator f n i) (@copy_arrays memmod smc_allocator f n i).
Proof. revert i. induction n as [|n IH]; intros i; cbn [copy_arrays]; refine_steps. Qed.

Lemma free_arrays_refines (f : fuzzer_arg_def) (n : nat) (i : Z) :
  refines (@free_arrays memmod checked_allocator f n i) (@free_arrays memmod smc_allocator f n i).
Proof. revert i. induction n as [|n IH]; intros i; cbn [free_arrays]; refine_steps. Qed.

Hint Resolve first_refines copy_refines free_arrays_refines : refines.

Lemma free_contval_refines (f : fuzzer_arg_def) :
  refines (@free_contval memmod checked_allocator f) (@free_contval memmod smc_allocator f).
Proof. unfold free_contval. refine_steps. Qed.

Hint Resolve free_contval_refines : refines.

Lemma append_refines (contype veclen : Z) (v : list Z) (i : Z) :
  refines (@append_constraint memmod checked_allocator contype veclen v i)
    (@append_constraint memmod smc_allocator contype veclen v i).
Proof. unfold append_constraint. cbv zeta. refine_steps. Qed.

Lemma replace_refines (contype veclen : Z) (v : list Z) (i : Z) :
  refines (@replace_constraint memmod checked_allocator contype veclen v i)
    (@replace_constraint memmod smc_allocator contype veclen v i).
Proof. unfold replace_constraint. refine_steps. Qed.

Hint Resolve append_refines replace_refines : refines.

Lemma setconstraint_refines (contype : Z) (v : option (list Z)) (veclen k mode : Z) (mmod : bool) :
  refines (@setconstraint memmod checked_allocator T contype v veclen k mmod mode)
    (@setconstraint memmod smc_allocator T contype v veclen k mmod mode).
Proof. unfold setconstraint, add_constraint. cbv zeta. refine_steps. Qed.

(** [setconstraint()] for a field the tables name.  Unless an allocation
    on the way records an error, it returns, and then: a field without
    constraints has this one; mode 0 adds it at the end, if it is not there
    yet; mode 1 makes it the only one; no other field and nothing else of this
    one changes; the arrays that held the old list are freed, and nothing but
    the new arrays is added to what is allocated. *)
Theorem setconstraint_spec (s : fuzz memmod) (contype veclen k i mode : Z) (v : list Z) (c : constraint)
    (f : fuzzer_arg_def) (cs : list constraint) (L : list Z)
    (Hk : names k i) (Hmode : mode <= 2)
    (Hveclen : (if contype =? FUZZER_CONSTRAINT_SVALUE then 1 else 2) <= veclen)
    (Hc : requested contype veclen v = Some c)
    (Hf : zget (fuzzer_arg_array s) i = Some f) (Hcs : rep f cs)
    (Hheap : smc_reach (heap s)) (Hown : smc_owned (heap s) ≡ₚ addrs f ++ L) :
  @setconstraint memmod checked_allocator T contype (Some v) veclen k true mode s = Stop NoMemory
  ∨ ∃ s' f', @setconstraint memmod smc_allocator T contype (Some v) veclen k true mode s = Ok (tt, s')
    ∧ fuzzer_arg_array s' = zset (fuzzer_arg_array s) i f' ∧ next s' = next s
    ∧ rep f' (updated mode c cs)
    ∧ (regnum f', bitw f', bitst f', defval f', reserved f')
      = (regnum f, bitw f, bitst f, defval f, reserved f)
    ∧ smc_reach (heap s') ∧ smc_owned (heap s') ≡ₚ addrs f' ++ L.
Proof.
  destruct s as [h a x]. cbn [heap fuzzer_arg_array next] in *.
  destruct (runs_setconstraint (A := checked_allocator) contype veclen k i x mode v c a f cs h L)
    as [Hno|([] & s' & Hrun & h' & f' & -> & Hrep & [Hm Ho] & Hsame)]; try done; [by left|].
  right. exists (Build_fuzz h' (zset a i f') x), f'. split; [by apply setconstraint_refines|].
  cbn [heap fuzzer_arg_array next]. split_and!; done.
Qed.

End Checked.
