(* ===== verification/FuzzConGen.v ===== *)
(** * Generating arguments: what generate_args() promises

    The shifts as plain shifts of a 64-bit word, the fields of an argument
    packed into a register, and the values a constrained call is given. *)

From S2P Require Import Prelude Bits Libc FuzzMalloc FuzzFree FuzzMem FuzzConstraint FuzzConSet.

Local Open Scope Z_scope.

(** ** Shifts *)

Lemma u64_shiftl (v a b : Z) : 0 <= a → 0 <= b →
  u64 (Z.shiftl (u64 (Z.shiftl v a)) b) = u64 (Z.shiftl v (a + b)).
Proof.
  intros Ha Hb. rewrite <- Z.shiftl_shiftl by done. unfold u64, wrap. rewrite !Z.shiftl_mul_pow2 by lia.
  by rewrite Z.mul_mod_idemp_l.
Qed.

(** A loop of shifts is one shift. *)
Lemma shift_loop_run (sh : Z → Z → Z) (v n : Z) :
  (∀ w a b, 0 <= a → 0 <= b → sh (sh w a) b = sh w (a + b)) → 16 < n <= 64 →
  shift_loop sh v n (Z.to_nat (n / 16 + 1)) 0 = sh v n.
Proof.
  intros Hsh Hn. pose proof (Z.div_mod n 16 ltac:(lia)) as Hdm. pose proof (Z.mod_pos_bound n 16 ltac:(lia)).
  assert (n / 16 = 1 ∨ n / 16 = 2 ∨ n / 16 = 3 ∨ n / 16 = 4) as Hq by lia.
  destruct Hq as [Hq|[Hq|[Hq|Hq]]]; rewrite Hq.
  all: match goal with |- context [Z.to_nat ?x] => let y := eval vm_compute in (Z.to_nat x) in change (Z.to_nat x) with y end.
  all: cbn [shift_loop]; unfold FUZZ_MAX_SHIFT_AMNT; rewrite Hq.
  all: repeat match goal with |- context [?a =? ?b] =>
         let c := eval vm_compute in (a =? b) in change (a =? b) with c; cbv iota end.
  all: rewrite !Hsh by lia; f_equal; lia.
Qed.

Lemma shift_by_run {S} (sh : Z → Z → Z) (v n : Z) (s : S) :
  (∀ w a b, 0 <= a → 0 <= b → sh (sh w a) b = sh w (a + b)) → 0 <= n <= 64 →
  shift_by sh v n s = Ok (sh v n, s).
Proof.
  intros Hsh Hn. unfold shift_by. rewrite (proj2 (Z.ltb_ge FUZZ_MAX_REG_SIZE n)) by (unfold FUZZ_MAX_REG_SIZE; lia).
  destruct (Z.ltb_spec FUZZ_MAX_SHIFT_AMNT n) as [Hlt|Hge].
  - unfold FUZZ_MAX_SHIFT_AMNT in *. rewrite shift_loop_run by (done || lia). done.
  - rewrite (proj2 (Z.ltb_ge n 0)) by lia. done.
Qed.

Lemma shiftlft_run {S} (v n : Z) (s : S) : 0 <= n <= 64 → shiftlft v n s = Ok (u64 (Z.shiftl v n), s).
Proof. intros Hn. apply (shift_by_run (λ v n, u64 (Z.shiftl v n))); [|done]. intros. by apply u64_shiftl. Qed.

Lemma shiftrht_run {S} (v n : Z) (s : S) : 0 <= n <= 64 → shiftrht v n s = Ok (Z.shiftr v n, s).
Proof. intros Hn. apply (shift_by_run Z.shiftr); [|done]. intros. by apply Z.shiftr_shiftr. Qed.

(** ** Fields *)

(** A field within a register *)
Definition field_wf (f : fuzzer_arg_def) : Prop := 0 <= bitw f ∧ 0 <= bitst f ∧ bitst f + bitw f <= 64.
Definition fits (f : fuzzer_arg_def) (v : Z) : Prop := 0 <= v < 2 ^ bitw f.

Section Fields.

Context {St : Type}.

Lemma field_max_run (f : fuzzer_arg_def) (s : fuzz St) : field_wf f →
  field_max f s = Ok (2 ^ bitw f - 1, s).
Proof.
  intros (Hw & Hs & Hle). unfold field_max. rewrite (bind_Ok _ _ _ _ _ (shiftlft_run 1 (bitw f) s ltac:(lia))).
  unfold mret, M_ret. do 2 f_equal. rewrite Z.shiftl_1_l. destruct (decide (bitw f = 64)) as [->|Hne]; [done|].
  assert (0 < 2 ^ bitw f <= 2 ^ 63) as Hp.
  { split; [by apply Z.pow_pos_nonneg|apply Z.pow_le_mono_r; lia]. }
  change (2 ^ 63) with 9223372036854775808 in Hp.
  rewrite (u64_small (2 ^ bitw f)), u64_small; unfold UINT64_MAX; lia.
Qed.

Lemma fits_shift (f : fuzzer_arg_def) (v : Z) : field_wf f → fits f v →
  u64 (Z.shiftl v (bitst f)) = Z.shiftl v (bitst f).
Proof.
  intros (Hw & Hs & Hle) [Hv0 Hv]. apply u64_small. rewrite Z.shiftl_mul_pow2 by done.
  assert (2 ^ bitw f * 2 ^ bitst f <= 2 ^ 64) as Hp.
  { rewrite <- Z.pow_add_r by done. apply Z.pow_le_mono_r; lia. }
  assert (0 < 2 ^ bitst f) by (by apply Z.pow_pos_nonneg).
  change (2 ^ 64) with 18446744073709551616 in Hp. unfold UINT64_MAX. split; [lia|].
  assert (v * 2 ^ bitst f < 2 ^ bitw f * 2 ^ bitst f) by (apply Z.mul_lt_mono_pos_r; lia). lia.
Qed.

Lemma place_run (f : fuzzer_arg_def) (r v : Z) (s : fuzz St) : field_wf f → fits f v →
  place f r v s = Ok (Z.lor r (Z.shiftl v (bitst f)), s).
Proof.
  intros Hf Hv. unfold place. pose proof Hf as (Hw & Hs & Hle).
  rewrite (bind_Ok _ _ _ _ _ (shiftlft_run v (bitst f) s ltac:(lia))). by rewrite fits_shift.
Qed.

Lemma place_checked_run (f : fuzzer_arg_def) (r v : Z) (s : fuzz St) : field_wf f → fits f v →
  place_checked f r v s = Ok (Z.lor r (Z.shiftl v (bitst f)), s).
Proof.
  intros Hf Hv. unfold place_checked. rewrite (bind_Ok _ _ _ _ _ (field_max_run f s Hf)).
  destruct Hv. rewrite (proj2 (Z.ltb_ge _ _)) by lia. by apply place_run.
Qed.

End Fields.

(** ** Fields packed in a register *)

Definition pack (fs : list fuzzer_arg_def) (vs : list Z) : Z :=
  foldr Z.lor 0 (zip_with (λ f v, Z.shiftl v (bitst f)) fs vs).

(** Fields with no bit in common *)
Definition bits_apart (f g : fuzzer_arg_def) : Prop :=
  bitst f + bitw f <= bitst g ∨ bitst g + bitw g <= bitst f.

Lemma shift_bit (f : fuzzer_arg_def) (v i : Z) : field_wf f → fits f v → 0 <= i →
  Z.testbit (Z.shiftl v (bitst f)) i = bool_decide (bitst f <= i < bitst f + bitw f) && Z.testbit v (i - bitst f).
Proof.
  intros (Hw & Hs & Hle) [Hv0 Hv] Hi. rewrite Z.shiftl_spec by done.
  destruct (decide (bitst f <= i < bitst f + bitw f)) as [Hin|Hout].
  - by rewrite bool_decide_eq_true_2.
  - rewrite bool_decide_eq_false_2 by done. cbn [andb].
    destruct (Z.lt_ge_cases i (bitst f)); [by apply Z.testbit_neg_r; lia|].
    destruct (decide (v = 0)) as [->|]; [apply Z.testbit_0_l|].
    apply Z.bits_above_log2; [lia|]. apply Z.log2_lt_pow2; [lia|].
    apply Z.lt_le_trans with (2 ^ bitw f); [lia|]. apply Z.pow_le_mono_r; lia.
Qed.

Lemma pack_bit_out (fs : list fuzzer_arg_def) (vs : list Z) (j : Z) :
  Forall field_wf fs → Forall2 fits fs vs → 0 <= j →
  Forall (λ g, ¬ bitst g <= j < bitst g + bitw g) fs → Z.testbit (pack fs vs) j = false.
Proof.
  intros Hwf Hfit Hj Hout. induction Hfit as [|f v fs vs Hfv Hfit IH]; [apply Z.testbit_0_l|].
  apply Forall_cons in Hwf as [Hw Hwf]. apply Forall_cons in Hout as [Ho Hout].
  unfold pack. cbn [zip_with foldr]. rewrite Z.lor_spec, shift_bit by done.
  rewrite bool_decide_eq_false_2 by done. by apply IH.
Qed.

Lemma pack_bit_in (fs : list fuzzer_arg_def) (vs : list Z) (k : nat) (f : fuzzer_arg_def) (v j : Z) :
  Forall field_wf fs → Forall2 fits fs vs → ForallOrdPairs bits_apart fs →
  fs !! k = Some f → vs !! k = Some v → bitst f <= j < bitst f + bitw f → 0 <= j →
  Z.testbit (pack fs vs) j = Z.testbit v (j - bitst f).
Proof.
  intros Hwf Hfit Hap Hf Hv Hin Hj. revert k Hf Hv.
  induction Hfit as [|g w fs vs Hgw Hfit IH]; intros k Hf Hv; [done|].
  apply Forall_cons in Hwf as [Hw Hwf]. inversion Hap as [|? ? Hg Hap']; subst.
  unfold pack. cbn [zip_with foldr]. rewrite Z.lor_spec, shift_bit by done. fold (pack fs vs).
  destruct k as [|k]; cbn in Hf, Hv.
  - simplify_eq. rewrite bool_decide_eq_true_2 by done. cbn [andb]. rewrite pack_bit_out; [apply orb_false_r|done|done|done|].
    eapply Forall_impl; [exact Hg|]. intros g' Hg'. unfold bits_apart in Hg'. lia.
  - pose proof (proj1 (Forall_lookup _ _) Hg _ _ Hf) as Hgf. unfold bits_apart in Hgf.
    rewrite bool_decide_eq_false_2 by lia. cbn [andb orb]. by apply (IH Hwf Hap' k).
Qed.

(** A register read through a field gives the value that was packed there. *)
Lemma pack_field (fs : list fuzzer_arg_def) (vs : list Z) (k : nat) (f : fuzzer_arg_def) (v : Z) :
  Forall field_wf fs → Forall2 fits fs vs → ForallOrdPairs bits_apart fs →
  fs !! k = Some f → vs !! k = Some v →
  Z.land (Z.shiftr (pack fs vs) (bitst f)) (2 ^ bitw f - 1) = v.
Proof.
  intros Hwf Hfit Hap Hf Hv.
  pose proof (proj1 (Forall_lookup _ _) Hwf _ _ Hf) as (Hw & Hs & Hle).
  pose proof (Forall2_lookup_lr _ _ _ _ _ _ Hfit Hf Hv) as [Hv0 Hv1].
  apply Z.bits_inj'. intros i Hi. rewrite Z.land_spec, Z.shiftr_spec, ones_pred by done.
  rewrite Z.testbit_ones_nonneg by done. destruct (Z.ltb_spec i (bitw f)) as [Hlt|Hge].
  - rewrite andb_true_r, (pack_bit_in fs vs k f v) by (done || lia). f_equal. lia.
  - rewrite andb_false_r. symmetry. destruct (decide (v = 0)) as [->|]; [apply Z.testbit_0_l|].
    apply Z.bits_above_log2; [lia|]. apply Z.log2_lt_pow2; [lia|].
    apply Z.lt_le_trans with (2 ^ bitw f); [lia|]. apply Z.pow_le_mono_r; lia.
Qed.

(** ** One field *)

(** What a constraint allows, and when it is sound for a field *)
Definition allows (c : constraint) (v : Z) : Prop :=
  match c with SValue w => v = w | Range lo hi => lo <= v <= hi | Vector l => v ∈ l end.
Definition con_wf (f : fuzzer_arg_def) (c : constraint) : Prop :=
  Forall (fits f) (con_vals c)
  ∧ match c with
    | SValue _ => True
    | Range lo hi => lo <= hi ∧ hi - lo < UINT64_MAX
    | Vector l => l ≠ []
    end.

(** What the constraints [cs] of a field allow: the default, without any *)
Definition allowed (f : fuzzer_arg_def) (cs : list constraint) (v : Z) : Prop :=
  match cs with [] => v = defval f | _ => ∃ c, c ∈ cs ∧ allows c v end.

Section Generate.

Context {St : Type} {T : FuzzTables}.

(** Generating changes the state of [rand()] only. *)
Definition keeps (s s' : fuzz St) : Prop :=
  heap s' = heap s ∧ fuzzer_arg_array s' = fuzzer_arg_array s.

#[export] Instance keeps_preorder : PreOrder keeps.
Proof. split; [by intros s|]. intros s1 s2 s3 [H1 H2] [H3 H4]. split; congruence. Qed.

Lemma rand_run (s : fuzz St) : ∃ r s', rand_ s = Ok (r, s') ∧ 0 <= r <= RAND_MAX ∧ keeps s s'.
Proof.
  eexists _, _. split; [reflexivity|]. split; [|done]. unfold rand. cbn zeta. cbn [fst].
  match goal with |- 0 <= ?x mod _ <= _ => pose proof (Z.mod_pos_bound x (RAND_MAX + 1) ltac:(done)) end. lia.
Qed.

Lemma modulo_run (a n : Z) (s : fuzz St) : 0 < n → modulo a n s = Ok (a mod n, s).
Proof. intros Hn. unfold modulo. by rewrite (proj2 (Z.eqb_neq n 0)) by lia. Qed.

Lemma check_vals_run (f : fuzzer_arg_def) (l : list Z) (n k : nat) (s : fuzz St) :
  field_wf f → Forall (fits f) l → (k + n = length l)%nat → check_vals f l n (Z.of_nat k) s = Ok (tt, s).
Proof.
  intros Hf Hl. revert k. induction n as [|n IH]; intros k Hn; [done|].
  destruct (lookup_lt_is_Some_2 l k) as [v Hv]; [lia|]. cbn [check_vals].
  assert (aget l (Z.of_nat k) s = Ok (v, s)) as Hget by (apply aget_Ok; by rewrite zget_nat).
  rewrite (bind_Ok _ _ _ _ _ Hget), (bind_Ok _ _ _ _ _ (field_max_run f s Hf)).
  destruct (proj1 (Forall_lookup _ _) Hl _ _ Hv) as [_ Hlt]. rewrite (proj2 (Z.ltb_ge _ _)) by lia.
  replace (Z.of_nat k + 1) with (Z.of_nat (S k)) by lia. apply IH. lia.
Qed.

(** [v] is placed in the field. *)
Definition places (f : fuzzer_arg_def) (r : Z) (Q : Z → Prop) (m : M (fuzz St) Z) (s : fuzz St) : Prop :=
  ∃ v s', m s = Ok (Z.lor r (Z.shiftl v (bitst f)), s') ∧ fits f v ∧ Q v ∧ keeps s s'.

Lemma places_place (f : fuzzer_arg_def) (r v : Z) (Q : Z → Prop) (s s' : fuzz St) :
  field_wf f → fits f v → Q v → keeps s s' →
  ∃ v' s'', place f r v s' = Ok (Z.lor r (Z.shiftl v' (bitst f)), s'') ∧ fits f v' ∧ Q v' ∧ keeps s s''.
Proof. intros Hf Hv HQ Hk. exists v, s'. by rewrite place_run. Qed.

Lemma field_constrained_run (f : fuzzer_arg_def) (cs : list constraint) cv (r : Z) (s : fuzz St) :
  field_wf f → rep f cs → contval f = Some cv → Forall (con_wf f) cs →
  places f r (allowed f cs) (field_constrained f cv r) s.
Proof.
  intros Hf Hrep Hcv Hwf. unfold rep in Hrep. rewrite Hcv in Hrep. destruct cv as [p arrs].
  destruct Hrep as (Hne & Hlen & Harr & _ & (pl & Hcvl) & (pt & Hct)).
  assert (0 < zlen cs) as Hpos by (destruct cs; [done|unfold zlen; cbn [length]; lia]).
  unfold places, field_constrained. destruct (rand_run s) as (r1 & s1 & Hr1 & Hr1b & Hk1).
  rewrite (bind_Ok _ _ _ _ _ Hr1), Hlen. rewrite (bind_Ok _ _ _ _ _ (modulo_run r1 (zlen cs) s1 Hpos)).
  pose proof (Z.mod_pos_bound r1 (zlen cs) Hpos) as Hsel. remember (r1 mod zlen cs) as sel eqn:Esel. clear Esel.
  rewrite <- (Z2Nat.id sel) by lia. set (k := Z.to_nat sel).
  destruct (lookup_lt_is_Some_2 cs k) as [c Hc]; [unfold k, zlen in *; lia|].
  destruct (rep_get cs arrs Harr k c Hc) as [q Hq].
  rewrite Hct. rewrite (bind_Ok _ _ s1 s1 (pt, con_type <$> cs)) by done. cbn [snd].
  rewrite (bind_Ok _ _ s1 s1 (con_type c)) by (apply aget_Ok; by rewrite zget_nat, list_lookup_fmap, Hc).
  pose proof (proj1 (Forall_lookup _ _) Hwf _ _ Hc) as [Hvals Hcw].
  assert (∀ v, allows c v → allowed f cs v) as Hall.
  { intros v Hv. unfold allowed. destruct cs; [done|]. exists c. split; [|done]. by eapply list_elem_of_lookup_2. }
  assert (∀ s' : fuzz St, aget arrs (Z.of_nat k) s' = Ok ((q, con_vals c), s')) as Hget
    by (intros s'; apply aget_Ok; by rewrite zget_nat).
  destruct c as [w|lo hi|l]; cbn [con_type con_vals] in *; cbn [Z.eqb Pos.eqb FUZZER_CONSTRAINT_SVALUE
    FUZZER_CONSTRAINT_RANGE FUZZER_CONSTRAINT_VECTOR].
  - rewrite (bind_Ok _ _ _ _ _ (Hget s1)). rewrite (bind_Ok _ _ s1 s1 w) by done.
    apply Forall_cons in Hvals as [Hw _]. exists w, s1. rewrite place_checked_run by done. split_and!; [done|done| |done].
    by apply Hall.
  - rewrite (bind_Ok _ _ _ _ _ (field_max_run f s1 Hf)), (bind_Ok _ _ _ _ _ (Hget s1)).
    rewrite (bind_Ok _ _ s1 s1 lo) by done. rewrite (bind_Ok _ _ s1 s1 hi) by done.
    apply Forall_cons in Hvals as [Hlo Hvals]. apply Forall_cons in Hvals as [Hhi _]. destruct Hlo, Hhi.
    rewrite !(proj2 (Z.ltb_ge _ _)) by lia. cbn [orb].
    destruct (rand_run s1) as (r2 & s2 & Hr2 & Hr2b & Hk2). rewrite (bind_Ok _ _ _ _ _ Hr2).
    assert (2 ^ bitw f <= 2 ^ 64) as Hp by (destruct Hf as (? & ? & ?); apply Z.pow_le_mono_r; lia).
    change (2 ^ 64) with (UINT64_MAX + 1) in Hp.
    rewrite (u64_small (hi - lo + 1)) by lia. rewrite (bind_Ok _ _ _ _ _ (modulo_run r2 (hi - lo + 1) s2 ltac:(lia))).
    pose proof (Z.mod_pos_bound r2 (hi - lo + 1) ltac:(lia)). rewrite u64_small by lia.
    apply places_place; [done|split; lia| |by transitivity s1]. apply Hall. cbn. lia.
  - rewrite (bind_Ok _ _ _ _ _ (Hget s1)), Hcvl. rewrite (bind_Ok _ _ s1 s1 (pl, con_len <$> cs)) by done. cbn [snd].
    rewrite (bind_Ok _ _ s1 s1 (zlen l)) by (apply aget_Ok; by rewrite zget_nat, list_lookup_fmap, Hc).
    assert (check_vals f l (Z.to_nat (zlen l)) 0 s1 = Ok (tt, s1)) as Hchk.
    { unfold zlen. rewrite Nat2Z.id. by apply (check_vals_run f l (length l) 0 s1 Hf Hvals). }
    rewrite (bind_Ok _ _ _ _ _ Hchk). destruct (rand_run s1) as (r2 & s2 & Hr2 & Hr2b & Hk2).
    rewrite (bind_Ok _ _ _ _ _ Hr2). assert (0 < zlen l) as Hl by (destruct l; [done|unfold zlen; cbn [length]; lia]).
    rewrite (bind_Ok _ _ _ _ _ (modulo_run r2 (zlen l) s2 Hl)). pose proof (Z.mod_pos_bound r2 (zlen l) Hl).
    destruct (zget_is_Some l (r2 mod zlen l)) as [v Hv]; [lia|].
    rewrite (bind_Ok _ _ _ _ _ (aget_Ok _ _ _ s2 Hv)). apply zget_elem in Hv as Hin.
    apply places_place; [done|by apply (proj1 (Forall_forall _ _) Hvals)| |by transitivity s1]. by apply Hall.
Qed.

Lemma field_con_run (f : fuzzer_arg_def) (cs : list constraint) (r : Z) (s : fuzz St) :
  field_wf f → rep f cs → (cs = [] → fits f (defval f)) → Forall (con_wf f) cs →
  places f r (allowed f cs) (field_con f r) s.
Proof.
  intros Hf Hrep Hdef Hwf. unfold places, field_con. destruct (contval f) as [cv|] eqn:Hcv.
  - pose proof Hrep as Hrep'. unfold rep in Hrep'. rewrite Hcv in Hrep'. destruct cv as [p arrs].
    destruct Hrep' as (Hne & Hlen & Harr & Hpos & _). destruct cs as [|c cs]; [done|].
    destruct arrs as [|[q vs] arrs]; [done|]. apply Forall_cons in Hpos as [Hq _]. cbn in Hq.
    rewrite (bind_Ok _ _ s s (q, vs)) by done. cbn [fst]. rewrite (proj2 (Z.eqb_neq q 0)) by lia.
    by apply field_constrained_run.
  - unfold rep in Hrep. rewrite Hcv in Hrep. subst cs. exists (defval f), s.
    rewrite place_checked_run by (try apply Hdef; done). by split_and!; [|apply Hdef| |].
Qed.

(** Without constraints: the default in a reserved field, anything that fits in
    another *)
Lemma field_uncon_run (f : fuzzer_arg_def) (r : Z) (s : fuzz St) :
  field_wf f → (reserved f = 1 → fits f (defval f)) → (reserved f ≠ 1 → bitw f < 64) →
  places f r (λ v, reserved f = 1 → v = defval f) (field_uncon f r) s.
Proof.
  intros Hf Hdef Hlt. unfold places, field_uncon. destruct (Z.eqb_spec (reserved f) 1) as [Hr|Hr].
  - exists (defval f), s. rewrite place_checked_run by (try apply Hdef; done). by split_and!; [|apply Hdef| |].
  - destruct (rand_run s) as (r1 & s1 & Hr1 & Hr1b & Hk1). rewrite (bind_Ok _ _ _ _ _ Hr1).
    pose proof Hf as (Hw & Hs & Hle). specialize (Hlt Hr).
    rewrite (bind_Ok _ _ _ _ _ (shiftlft_run 1 (bitw f) s1 ltac:(lia))), Z.shiftl_1_l.
    assert (0 < 2 ^ bitw f <= 2 ^ 63) as Hp.
    { split; [by apply Z.pow_pos_nonneg|apply Z.pow_le_mono_r; lia]. }
    change (2 ^ 63) with 9223372036854775808 in Hp. rewrite u64_small by (unfold UINT64_MAX; lia).
    rewrite (bind_Ok _ _ _ _ _ (modulo_run r1 (2 ^ bitw f) s1 ltac:(lia))).
    by apply places_place; [|apply Z.mod_pos_bound; lia|done|].
Qed.

(** ** One argument *)

Definition fields_at (s : fuzz St) (ptr : Z) (fs : list fuzzer_arg_def) : Prop :=
  ∀ k f, fs !! k = Some f → zget (fuzzer_arg_array s) (ptr + Z.of_nat k) = Some f.

Lemma field_loop_run (gen : fuzzer_arg_def → Z → M (fuzz St) Z) (Q : fuzzer_arg_def → Z → Prop)
    (fs : list fuzzer_arg_def) (ptr r : Z) (s : fuzz St) :
  (∀ f r s, f ∈ fs → places f r (Q f) (gen f r) s) → fields_at s ptr fs →
  ∃ vs s', field_loop gen r (length fs) ptr s = Ok (Z.lor r (pack fs vs), s')
    ∧ Forall2 fits fs vs ∧ Forall2 Q fs vs ∧ keeps s s'.
Proof.
  revert ptr r s. induction fs as [|f fs IH]; intros ptr r s Hgen Hat.
  { exists [], s. cbn. rewrite Z.lor_0_r. split_and!; try done; constructor. }
  cbn [length field_loop].
  assert (get_field ptr s = Ok (f, s)) as Hget.
  { unfold get_field. erewrite bind_Ok by reflexivity. apply aget_Ok. rewrite <- (Z.add_0_r ptr). by apply (Hat 0%nat). }
  rewrite (bind_Ok _ _ _ _ _ Hget).
  destruct (Hgen f r s ltac:(left)) as (v & s1 & Hv & Hfit & HQ & Hk). rewrite (bind_Ok _ _ _ _ _ Hv).
  destruct (IH (ptr + 1) (Z.lor r (Z.shiftl v (bitst f))) s1) as (vs & s2 & Hrun & Hfits & HQs & Hk2).
  - intros g r' s' Hg. apply Hgen. by right.
  - intros k g Hg. destruct Hk as [_ ->]. replace (ptr + 1 + Z.of_nat k) with (ptr + Z.of_nat (S k)) by lia. by apply Hat.
  - exists (v :: vs), s2. rewrite Hrun. unfold pack. cbn [zip_with foldr]. rewrite Z.lor_assoc.
    split_and!; [done|by constructor|by constructor|by transitivity s1].
Qed.

End Generate.

(** ** One call *)

Section Call.

Context {St : Type} {T : FuzzTables}.

(** The tables describe call [smccall] as [args], the fields of each of its
    arguments: argument [i] goes in register [x(i + 1)], and its fields have no
    bit in common. *)
Record call_wf (s : fuzz St) (smccall start : Z) (args : list (list fuzzer_arg_def)) : Prop := {
  call_range : 0 <= smccall <= MAX_SMC_CALLS;
  call_start : zget fuzzer_arg_array_start smccall = Some start;
  call_args : zget fuzzer_arg_array_range smccall = Some (zlen args);
  call_regs : zlen args <= 17;
  call_span i fs : args !! i = Some fs → ∃ a, zget fuzzer_arg_array_lst (start + Z.of_nat i) = Some (a, a + zlen fs - 1)
    ∧ fields_at s a fs;
  call_fields i fs : args !! i = Some fs →
    Forall field_wf fs ∧ ForallOrdPairs bits_apart fs ∧ Forall (λ f, regnum f = Z.of_nat i + 1) fs;
}.

Lemma generate_field_run (gen : fuzzer_arg_def → Z → M (fuzz St) Z) (Q : fuzzer_arg_def → Z → Prop)
    (s s' : fuzz St) (smccall start : Z) (args : list (list fuzzer_arg_def)) (i : nat) (fs : list fuzzer_arg_def) :
  call_wf s smccall start args → args !! i = Some fs → keeps s s' →
  (∀ f r s, f ∈ fs → places f r (Q f) (gen f r) s) →
  ∃ vs s'', generate_field gen smccall (Z.of_nat i) s' = Ok (pack fs vs, s'')
    ∧ Forall2 fits fs vs ∧ Forall2 Q fs vs ∧ keeps s' s''.
Proof.
  intros Hc Hfs Hk Hgen. destruct (call_span _ _ _ _ Hc i fs Hfs) as (a & Hspan & Hat). unfold generate_field.
  rewrite (bind_Ok _ _ _ _ _ (aget_Ok _ _ _ s' (call_start _ _ _ _ Hc))).
  rewrite (bind_Ok _ _ _ _ _ (aget_Ok _ _ _ s' Hspan)). cbn [fst snd].
  replace (Z.to_nat (a + zlen fs - 1 - a + 1)) with (length fs) by (unfold zlen; lia).
  destruct (field_loop_run gen Q fs a 0 s' Hgen) as (vs & s'' & Hrun & Hr).
  { intros k f Hf. destruct Hk as [_ ->]. by apply Hat. }
  exists vs, s''. by rewrite Hrun, Z.lor_0_l.
Qed.

Lemma arg_loop_run (gen : Z → M (fuzz St) Z) (X : nat → Z → Prop) (s0 : fuzz St) (n k : nat) (np : list Z) (s : fuzz St) :
  (∀ i s, (k <= i < k + n)%nat → keeps s0 s → ∃ x s', gen (Z.of_nat i) s = Ok (x, s') ∧ X i x ∧ keeps s s') →
  zlen np = 17 → (k + n <= 17)%nat → keeps s0 s →
  ∃ np' s', arg_loop gen np n (Z.of_nat k) s = Ok (np', s') ∧ zlen np' = 17 ∧ keeps s s'
    ∧ (∀ i, (k <= i < k + n)%nat → ∃ x, zget np' (Z.of_nat i) = Some x ∧ X i x)
    ∧ ∀ i, ¬ (Z.of_nat k <= i < Z.of_nat (k + n)) → zget np' i = zget np i.
Proof.
  revert k np s. induction n as [|n IH]; intros k np s Hgen Hlen Hn Hk.
  { exists np, s. split_and!; try done. intros i Hi. lia. }
  cbn [arg_loop]. rewrite (proj2 (Z.ltb_lt _ _)) by lia.
  destruct (Hgen k s ltac:(lia) Hk) as (x & s1 & Hx & HX & Hk1). rewrite (bind_Ok _ _ _ _ _ Hx).
  rewrite (bind_Ok _ _ _ _ _ (aset_Ok np (Z.of_nat k) x s1 ltac:(lia))).
  replace (Z.of_nat k + 1) with (Z.of_nat (S k)) by lia.
  destruct (IH (S k) (zset np (Z.of_nat k) x) s1) as (np' & s2 & Hrun & Hlen' & Hk2 & Hin & Hout).
  - intros i s' Hi. apply Hgen. lia.
  - by rewrite zlen_zset.
  - lia.
  - by transitivity s.
  - exists np', s2. split_and!; [done|done|by transitivity s1| |].
    + intros i Hi. destruct (decide (i = k)) as [->|Hne]; [|apply Hin; lia].
      exists x. split; [|done]. rewrite Hout by lia. apply zget_zset_eq. lia.
    + intros i Hi. rewrite Hout by lia. apply zget_zset_ne. lia.
Qed.

(** Reading a field of argument [i] back *)
Lemma get_generated_run (Q : fuzzer_arg_def → Z → Prop) (s s' : fuzz St) (smccall start : Z)
    (args : list (list fuzzer_arg_def)) (i j : nat) (fs : list fuzzer_arg_def) (f : fuzzer_arg_def) (vs inp : list Z) (k : Z) :
  call_wf s smccall start args → keeps s s' → args !! i = Some fs → fs !! j = Some f →
  zget fuzzer_fieldarg k = Some (start + Z.of_nat i) → zget fuzzer_fieldfld k = Some (Z.of_nat j) →
  zget inp (Z.of_nat i) = Some (pack fs vs) → Forall2 fits fs vs → Forall2 Q fs vs →
  ∃ v, get_generated_value k inp s' = Ok (v, s') ∧ fits f v ∧ Q f v.
Proof.
  intros Hc Hk Hfs Hf Hka Hkf Hinp Hfits HQ. destruct (call_span _ _ _ _ Hc i fs Hfs) as (a & Hspan & Hat).
  destruct (call_fields _ _ _ _ Hc i fs Hfs) as (Hwf & Hap & Hreg).
  pose proof (proj1 (Forall_lookup _ _) Hwf _ _ Hf) as Hw. pose proof (proj1 (Forall_lookup _ _) Hreg _ _ Hf) as Hrn.
  cbn in Hrn. pose proof (call_regs _ _ _ _ Hc) as Hr. apply lookup_lt_Some in Hfs as Hilt.
  destruct (Forall2_lookup_l _ _ _ _ _ Hfits Hf) as (v & Hv & Hfv).
  exists v. split_and!; [|done|by apply (Forall2_lookup_lr _ _ _ _ _ _ HQ Hf Hv)]. unfold get_generated_value.
  rewrite (bind_Ok _ _ _ _ _ (aget_Ok _ _ _ s' Hka)), (bind_Ok _ _ _ _ _ (aget_Ok _ _ _ s' Hkf)).
  rewrite (bind_Ok _ _ _ _ _ (aget_Ok _ _ _ s' Hspan)). cbn [fst].
  assert (get_field (a + Z.of_nat j) s' = Ok (f, s')) as Hget.
  { unfold get_field. erewrite bind_Ok by reflexivity. apply aget_Ok. destruct Hk as [_ ->]. by apply Hat. }
  rewrite (bind_Ok _ _ _ _ _ Hget), Hrn. unfold zlen in Hr.
  rewrite (proj2 (Z.leb_le 1 _)), (proj2 (Z.leb_le _ 17)) by lia. cbn [andb].
  replace (Z.of_nat i + 1 - 1) with (Z.of_nat i) by lia. rewrite (bind_Ok _ _ _ _ _ (aget_Ok _ _ _ s' Hinp)).
  pose proof Hw as (Hw1 & Hw2 & Hw3).
  rewrite (bind_Ok _ _ _ _ _ (shiftrht_run (pack fs vs) (bitst f) s' ltac:(lia))).
  rewrite (bind_Ok _ _ _ _ _ (field_max_run f s' Hw)). unfold mret, M_ret. do 2 f_equal.
  by apply (pack_field fs vs j).
Qed.

(** A whole call, for either way to generate a field *)
Lemma call_run (gen : fuzzer_arg_def → Z → M (fuzz St) Z) (Q : fuzzer_arg_def → Z → Prop) (s : fuzz St)
    (smccall start : Z) (args : list (list fuzzer_arg_def)) (np : list Z) :
  call_wf s smccall start args → zlen np = 17 →
  (∀ fs f r s, fs ∈ args → f ∈ fs → places f r (Q f) (gen f r) s) →
  ∃ inp s', arg_loop (generate_field gen smccall) np (length args) 0 s = Ok (inp, s')
    ∧ zlen inp = 17 ∧ keeps s s'
    ∧ (∀ i, zlen args <= i → zget inp i = zget np i)
    ∧ ∀ i j fs f k, args !! i = Some fs → fs !! j = Some f →
        zget fuzzer_fieldarg k = Some (start + Z.of_nat i) → zget fuzzer_fieldfld k = Some (Z.of_nat j) →
        ∃ v, get_generated_value k inp s' = Ok (v, s') ∧ fits f v ∧ Q f v.
Proof.
  intros Hc Hnp Hgen. pose proof (call_regs _ _ _ _ Hc) as Hr. unfold zlen in Hr.
  destruct (arg_loop_run (generate_field gen smccall)
    (λ i x, ∃ fs vs, args !! i = Some fs ∧ x = pack fs vs ∧ Forall2 fits fs vs ∧ Forall2 Q fs vs)
    s (length args) 0 np s) as (inp & s' & Hrun & Hlen & Hk & Hin & Hout).
  - intros i s1 Hi Hk. destruct (lookup_lt_is_Some_2 args i) as [fs Hfs]; [lia|].
    destruct (generate_field_run gen Q s s1 smccall start args i fs Hc Hfs Hk) as (vs & s2 & Hrun & Hf & HQ & Hk2).
    { intros f r s2 Hf. apply (Hgen fs); [by eapply list_elem_of_lookup_2|done]. }
    exists (pack fs vs), s2. split_and!; [done| |done]. by exists fs, vs.
  - done.
  - lia.
  - done.
  - exists inp, s'. split_and!; [done|done|done| |].
    + intros i Hi. apply Hout. unfold zlen in Hi. lia.
    + intros i j fs f k Hfs Hf Hka Hkf. apply lookup_lt_Some in Hfs as Hilt.
      destruct (Hin i ltac:(lia)) as (x & Hx & fs' & vs & Hfs' & -> & Hfits & HQ). rewrite Hfs in Hfs'. simplify_eq.
      by apply (get_generated_run Q s s' smccall start args i j fs' f vs inp k).
Qed.

End Call.

(** ** generate_args() *)

(** The constraints a field holds, and when they can be met *)
Definition field_sound (f : fuzzer_arg_def) : Prop :=
  field_wf f ∧ ∃ cs, rep f cs ∧ (cs = [] → fits f (defval f)) ∧ Forall (con_wf f) cs.

Lemma con_inj (cs cs' : list constraint) :
  con_type <$> cs = con_type <$> cs' → con_vals <$> cs = con_vals <$> cs' → cs = cs'.
Proof.
  revert cs'. induction cs as [|c cs IH]; intros [|c' cs'] Ht Hv; try done.
  cbn in Ht, Hv. injection Ht as Ht Hts. injection Hv as Hv Hvs. f_equal; [|by apply IH].
  destruct c, c'; cbn in Ht, Hv; try done; by simplify_eq.
Qed.

Lemma rep_inj (f : fuzzer_arg_def) (cs cs' : list constraint) : rep f cs → rep f cs' → cs = cs'.
Proof.
  unfold rep. destruct (contval f) as [[p arrs]|]; [|congruence].
  intros (_ & _ & Ha & _ & _ & pt & Ht) (_ & _ & Ha' & _ & _ & pt' & Ht').
  apply con_inj; congruence.
Qed.

Lemma sound_places {St} (f : fuzzer_arg_def) (r : Z) (s : fuzz St) : field_sound f →
  places f r (λ v, ∀ cs, rep f cs → allowed f cs v) (field_con f r) s.
Proof.
  intros (Hf & cs & Hrep & Hdef & Hwf). destruct (field_con_run f cs r s Hf Hrep Hdef Hwf) as (v & s' & Hrun & Hv & Ha & Hk).
  exists v, s'. split_and!; try done. intros cs' Hrep'. by rewrite (rep_inj f cs' cs).
Qed.

(** [generate_args()] at a level where every field is generated *)
Lemma generate_args_run {St} {T : FuzzTables} (gen : fuzzer_arg_def → Z → M (fuzz St) Z) (level : Z)
    (s : fuzz St) (uninit : list Z) (smccall start : Z) (args : list (list fuzzer_arg_def)) :
  call_wf s smccall start args → zlen uninit = 17 →
  level = SANITY_LEVEL_2 ∧ gen = field_uncon ∨ level = SANITY_LEVEL_3 ∧ gen = field_con →
  generate_args uninit smccall level s
  = arg_loop (generate_field gen smccall) (zset uninit 0 1) (length args) 0 s.
Proof.
  intros Hc Hu Hgen. pose proof (call_range _ _ _ _ Hc). unfold generate_args.
  rewrite (proj2 (Z.ltb_ge MAX_SMC_CALLS smccall)), (proj2 (Z.ltb_ge smccall 0)) by lia. cbn [orb].
  rewrite (bind_Ok _ _ s s tt) by done.
  rewrite (bind_Ok _ _ s s tt) by (by destruct Hgen as [[-> _]|[-> _]]).
  rewrite (bind_Ok _ _ _ _ _ (aset_Ok uninit 0 1 s ltac:(lia))).
  rewrite (bind_Ok _ _ _ _ _ (aget_Ok _ _ _ s (call_args _ _ _ _ Hc))).
  replace (Z.to_nat (zlen args)) with (length args) by (unfold zlen; lia).
  by destruct Hgen as [[-> ->]|[-> ->]].
Qed.

Lemma generate_args_sound {St : Type} {T : FuzzTables} (s : fuzz St) (uninit : list Z) (smccall start : Z)
    (args : list (list fuzzer_arg_def)) (Hcall : call_wf s smccall start args) (Hu : zlen uninit = 17)
    (Hsound : ∀ fs f, fs ∈ args → f ∈ fs → field_sound f) :
  ∃ inp s', generate_args uninit smccall SANITY_LEVEL_3 s = Ok (inp, s') ∧ keeps s s'
    ∧ ∀ i j fs f k cs, args !! i = Some fs → fs !! j = Some f → rep f cs →
        zget fuzzer_fieldarg k = Some (start + Z.of_nat i) → zget fuzzer_fieldfld k = Some (Z.of_nat j) →
        ∃ v, get_generated_value k inp s' = Ok (v, s') ∧ fits f v ∧ allowed f cs v.
Proof.
  rewrite (generate_args_run field_con SANITY_LEVEL_3 s uninit smccall start args) by (try done; by right).
  destruct (call_run field_con (λ f v, ∀ cs, rep f cs → allowed f cs v) s smccall start args (zset uninit 0 1))
    as (inp & s' & Hrun & _ & Hk & _ & Hget); [done|by rewrite zlen_zset| |].
  { intros fs f r s1 Hfs Hf. apply sound_places. by apply (Hsound fs). }
  exists inp, s'. split_and!; [done|done|]. intros i j fs f k cs Hfs Hf Hrep Hka Hkf.
  destruct (Hget i j fs f k Hfs Hf Hka Hkf) as (v & Hv & Hfit & HQ). exists v. split_and!; [done|done|by apply HQ].
Qed.

(** a call generated at sanity level 3.  When the tables describe the call
    and every field has room for what it is asked to hold, [generate_args()]
    returns, changes nothing but the state of [rand()], and each field read
    back with [get_generated_value()] has a value its constraints allow: the
    default without constraints, or a value that satisfies one of them. *)
Theorem generate_args_constrained {St : Type} {T : FuzzTables} (s : fuzz St) (uninit : list Z) (smccall start : Z)
    (args : list (list fuzzer_arg_def)) (Hcall : call_wf s smccall start args) (Hu : zlen uninit = 17)
    (Hsound : ∀ fs f, fs ∈ args → f ∈ fs → field_sound f) :
  ∃ inp s', generate_args uninit smccall SANITY_LEVEL_3 s = Ok (inp, s') ∧ keeps s s'
    ∧ ∀ i j fs f k cs, args !! i = Some fs → fs !! j = Some f → rep f cs →
        zget fuzzer_fieldarg k = Some (start + Z.of_nat i) → zget fuzzer_fieldfld k = Some (Z.of_nat j) →
        ∃ v, get_generated_value k inp s' = Ok (v, s') ∧ fits f v ∧ allowed f cs v.
Proof. by apply generate_args_sound. Qed.

(** at sanity level 2 constraints play no part: every field that is marked
    reserved has its default, any other has a value of its width. *)
Theorem generate_args_unconstrained {St : Type} {T : FuzzTables} (s : fuzz St) (uninit : list Z) (smccall start : Z)
    (args : list (list fuzzer_arg_def)) (Hcall : call_wf s smccall start args) (Hu : zlen uninit = 17)
    (Hres : ∀ fs f, fs ∈ args → f ∈ fs → if decide (reserved f = 1) then fits f (defval f) else bitw f < 64) :
  ∃ inp s', generate_args uninit smccall SANITY_LEVEL_2 s = Ok (inp, s') ∧ keeps s s'
    ∧ ∀ i j fs f k, args !! i = Some fs → fs !! j = Some f →
        zget fuzzer_fieldarg k = Some (start + Z.of_nat i) → zget fuzzer_fieldfld k = Some (Z.of_nat j) →
        ∃ v, get_generated_value k inp s' = Ok (v, s') ∧ fits f v ∧ (reserved f = 1 → v = defval f).
Proof.
  rewrite (generate_args_run field_uncon SANITY_LEVEL_2 s uninit smccall start args) by (try done; by left).
  destruct (call_run field_uncon (λ f v, reserved f = 1 → v = defval f) s smccall start args (zset uninit 0 1))
    as (inp & s' & Hrun & _ & Hk & _ & Hget); [done|by rewrite zlen_zset| |by exists inp, s'].
  intros fs f r s1 Hfs Hf. specialize (Hres fs f Hfs Hf).
  apply list_elem_of_lookup_1 in Hfs as [i Hi].
  apply field_uncon_run; [|by destruct (decide _)..].
  by apply (proj1 (Forall_forall _ _) (proj1 (call_fields _ _ _ _ Hcall i fs Hi))).
Qed.

(** ** Setting a constraint, then generating *)

(** What a field has apart from its constraints *)
Definition shape (f : fuzzer_arg_def) : Z * Z * Z * Z * Z :=
  (regnum f, bitw f, bitst f, defval f, reserved f).

Lemma shapes_apart (fs fs' : list fuzzer_arg_def) :
  shape <$> fs = shape <$> fs' → ForallOrdPairs bits_apart fs → ForallOrdPairs bits_apart fs'.
Proof.
  assert (∀ f f' l l', shape f = shape f' → shape <$> l = shape <$> l' →
    Forall (bits_apart f) l → Forall (bits_apart f') l') as Hall.
  { intros f f' l l' Hf. revert l'. induction l as [|g l IH]; intros [|g' l'] Hl Hap; try done.
    cbn in Hl. injection Hl as H1 H2 H3 H4 H5 Hl. apply Forall_cons in Hap as [Hg Hap].
    apply Forall_cons. split; [|by apply IH]. unfold shape in Hf. injection Hf as ?????. unfold bits_apart in *. lia. }
  revert fs'. induction fs as [|f fs IH]; intros [|f' fs'] Hs Hap; try done.
  change (shape f :: (shape <$> fs) = shape f' :: (shape <$> fs')) in Hs. injection Hs as H1 H2 H3 H4 H5 Hs.
  inversion Hap; subst. constructor; [|by apply IH].
  eapply Hall; [|exact Hs|done]. unfold shape. congruence.
Qed.

Lemma shapes_forall (P : fuzzer_arg_def → Prop) (fs fs' : list fuzzer_arg_def) :
  (∀ f f', shape f = shape f' → P f → P f') → shape <$> fs = shape <$> fs' → Forall P fs → Forall P fs'.
Proof.
  intros HP. revert fs'. induction fs as [|f fs IH]; intros [|f' fs'] Hs Hf; try done.
  change (shape f :: (shape <$> fs) = shape f' :: (shape <$> fs')) in Hs.
  apply Forall_cons in Hf as [Hf Hfs]. apply Forall_cons. split; [|apply IH; [congruence|done]].
  apply (HP f); [congruence|done].
Qed.

Lemma insert_shapes (fs : list fuzzer_arg_def) (j : nat) (f f' : fuzzer_arg_def) :
  fs !! j = Some f → shape f' = shape f → shape <$> <[j := f']> fs = shape <$> fs.
Proof.
  intros Hf Hs. rewrite list_fmap_insert, Hs. apply list_insert_id. by rewrite list_lookup_fmap, Hf.
Qed.

Section Set_generate.

Context {T : FuzzTables}.

(** The call after one of its fields changed its constraints *)
Lemma call_wf_update {St St'} (s : fuzz St) (s' : fuzz St') (smccall start a : Z) (args : list (list fuzzer_arg_def))
    (i j : nat) (fs : list fuzzer_arg_def) (f f' : fuzzer_arg_def) (span : Z) :
  call_wf s smccall start args → args !! i = Some fs → fs !! j = Some f → shape f' = shape f →
  zget fuzzer_arg_array_lst (start + Z.of_nat i) = Some (a, span) →
  fuzzer_arg_array s' = zset (fuzzer_arg_array s) (a + Z.of_nat j) f' →
  call_wf s' smccall start (<[i := <[j := f']> fs]> args).
Proof.
  intros Hc Hfs Hf Hs Ha Hs'. pose proof (insert_shapes fs j f f' Hf Hs) as Hsh.
  assert (∀ i' fs', <[i := <[j := f']> fs]> args !! i' = Some fs' → i' = i ∧ fs' = <[j := f']> fs ∨ i' ≠ i ∧ args !! i' = Some fs')
    as Hlook.
  { intros i' fs' Hl. destruct (decide (i' = i)) as [->|Hne].
    - left. rewrite list_lookup_insert_eq in Hl by (by eapply lookup_lt_Some). by simplify_eq.
    - right. by rewrite list_lookup_insert_ne in Hl. }
  destruct (call_span _ _ _ _ Hc i fs Hfs) as (a' & Ha' & Hat). rewrite Ha in Ha'. simplify_eq.
  assert (zget (fuzzer_arg_array s) (a' + Z.of_nat j) = Some f) as Hfj by (by apply Hat).
  split; try apply Hc.
  - unfold zlen. rewrite length_insert. apply Hc.
  - unfold zlen. rewrite length_insert. apply Hc.
  - intros i' fs' Hl. destruct (Hlook i' fs' Hl) as [[-> ->]|[Hne Hfs']].
    + exists a'. split; [unfold zlen; by rewrite length_insert|]. intros k g Hg. rewrite Hs'.
      destruct (decide (k = j)) as [->|Hkj].
      * rewrite list_lookup_insert_eq in Hg by (by eapply lookup_lt_Some). simplify_eq.
        apply zget_zset_eq. by eapply zget_Some_range.
      * rewrite list_lookup_insert_ne in Hg by done. rewrite zget_zset_ne by lia. by apply Hat.
    + destruct (call_span _ _ _ _ Hc i' fs' Hfs') as (b & Hb & Hbt). exists b. split; [done|]. intros k g Hg.
      rewrite Hs', zget_zset_ne; [by apply Hbt|]. intros Heq.
      pose proof (Hbt k g Hg) as Hbg. rewrite <- Heq, Hfj in Hbg. simplify_eq.
      pose proof (proj1 (Forall_lookup _ _) (proj2 (proj2 (call_fields _ _ _ _ Hc i' fs' Hfs'))) _ _ Hg) as R1.
      pose proof (proj1 (Forall_lookup _ _) (proj2 (proj2 (call_fields _ _ _ _ Hc i fs Hfs))) _ _ Hf) as R2.
      cbn in R1, R2. lia.
  - intros i' fs' Hl. destruct (Hlook i' fs' Hl) as [[-> ->]|[Hne Hfs']]; [|by apply Hc].
    destruct (call_fields _ _ _ _ Hc i fs Hfs) as (Hwf & Hap & Hreg). split_and!.
    + eapply shapes_forall; [|symmetry; exact Hsh|exact Hwf]. intros g g' Hg. unfold shape in Hg. unfold field_wf.
      injection Hg as _ -> -> _ _. done.
    + eapply shapes_apart; [symmetry; exact Hsh|done].
    + eapply shapes_forall; [|symmetry; exact Hsh|exact Hreg]. intros g g' Hg. unfold shape in Hg.
      injection Hg as -> _ _ _ _. done.
Qed.

Lemma updated_ne (mode : Z) (c : constraint) (cs : list constraint) : updated mode c cs ≠ [].
Proof.
  unfold updated. destruct cs as [|c1 cs]; [done|]. destruct (mode =? _); [by destruct (bool_decide _)|].
  by destruct (mode =? _).
Qed.

Lemma updated_forall (P : constraint → Prop) (mode : Z) (c : constraint) (cs : list constraint) :
  P c → Forall P cs → Forall P (updated mode c cs).
Proof.
  intros Hc Hcs. unfold updated. destruct cs as [|c1 cs]; [by constructor|].
  destruct (mode =? _); [destruct (bool_decide _); [done|]; apply Forall_app; by split; [|constructor]|].
  destruct (mode =? _); [by constructor|done].
Qed.

Lemma field_sound_update (f f' : fuzzer_arg_def) (mode : Z) (c : constraint) (cs : list constraint) :
  field_sound f → rep f cs → con_wf f c → shape f' = shape f → rep f' (updated mode c cs) → field_sound f'.
Proof.
  intros (Hwf & cs' & Hrep' & _ & Hcs) Hrep Hc Hs Hnew. rewrite <- (rep_inj f cs cs' Hrep Hrep') in Hcs.
  injection Hs as _ Hw Hst _ _. split; [unfold field_wf in *; by rewrite Hw, Hst|].
  exists (updated mode c cs). split_and!; [done|by intros ?%updated_ne|].
  assert (∀ c0, con_wf f c0 → con_wf f' c0) as Hwf'.
  { intros c0 [H1 H2]. split; [|done]. eapply Forall_impl; [exact H1|]. intros v. unfold fits. by rewrite Hw. }
  apply updated_forall; [by apply Hwf'|]. eapply Forall_impl; [exact Hcs|done].
Qed.

(** C13: a constraint set with [setconstraint()] is respected by the next call
    that is generated at sanity level 3: unless an allocation records an error,
    both return, and the value of the field read back satisfies one of the
    constraints the field has then; set exclusively, it satisfies this one. *)
Theorem constraint_respected (s : fuzz memmod) (uninit v : list Z) (smccall start contype veclen k mode : Z)
    (args : list (list fuzzer_arg_def)) (i j : nat) (fs : list fuzzer_arg_def) (f : fuzzer_arg_def)
    (c : constraint) (cs : list constraint) (L : list Z)
    (Hcall : call_wf s smccall start args) (Hu : zlen uninit = 17)
    (Hsound : ∀ fs f, fs ∈ args → f ∈ fs → field_sound f)
    (Hfs : args !! i = Some fs) (Hf : fs !! j = Some f) (Hcs : rep f cs)
    (Hka : zget fuzzer_fieldarg k = Some (start + Z.of_nat i)) (Hkf : zget fuzzer_fieldfld k = Some (Z.of_nat j))
    (Harg : 0 <= start + Z.of_nat i <= MAX_ARG_LENGTH) (Hmode : mode <= 2)
    (Hveclen : (if contype =? FUZZER_CONSTRAINT_SVALUE then 1 else 2) <= veclen)
    (Hreq : requested contype veclen v = Some c) (Hc : con_wf f c)
    (Hheap : smc_reach (heap s)) (Hown : smc_owned (heap s) ≡ₚ addrs f ++ L) :
  @setconstraint memmod checked_allocator T contype (Some v) veclen k true mode s = Stop NoMemory
  ∨ ∃ s' inp s'' x, @setconstraint memmod smc_allocator T contype (Some v) veclen k true mode s = Ok (tt, s')
    ∧ generate_args uninit smccall SANITY_LEVEL_3 s' = Ok (inp, s'')
    ∧ get_generated_value k inp s'' = Ok (x, s'')
    ∧ allowed f (updated mode c cs) x ∧ (mode = FUZZER_CONSTRAINT_EXCMODE → allows c x).
Proof.
  destruct (call_span _ _ _ _ Hcall i fs Hfs) as (a & Hspan & Hat). apply lookup_lt_Some in Hf as Hjlt.
  assert (names k (a + Z.of_nat j)) as Hnames.
  { exists (start + Z.of_nat i), (Z.of_nat j), (a, a + zlen fs - 1). cbn [fst snd]. unfold zlen. split_and!; done || lia. }
  destruct (runs_setconstraint (A := checked_allocator) (AOk := checked_allocator_ok) contype veclen k (a + Z.of_nat j) (next s) mode v c
    (fuzzer_arg_array s) f cs (heap s) L Hnames Hmode Hveclen Hreq (Hat j f Hf) Hcs (conj Hheap Hown))
    as [Hno|([] & s' & Hrun & h' & f' & -> & Hrep & _ & Hs)]; [left; by destruct s|right].
  assert (shape f' = shape f) as Hshape by (unfold shape; congruence).
  set (s' := Build_fuzz h' _ _) in *. exists s'.
  assert (call_wf s' smccall start (<[i := <[j := f']> fs]> args)) as Hcall'
    by (by eapply call_wf_update).
  destruct (generate_args_sound s' uninit smccall start _ Hcall' Hu) as (inp & s'' & Hgen & Hk & Hget).
  { intros fs1 f1 Hfs1 Hf1. apply list_elem_of_lookup_1 in Hfs1 as [i1 Hi1].
    assert (field_sound f) as Hsf by (apply (Hsound fs); by eapply list_elem_of_lookup_2).
    destruct (decide (i1 = i)) as [->|Hne].
    - rewrite list_lookup_insert_eq in Hi1 by (by eapply lookup_lt_Some). injection Hi1 as <-.
      apply list_elem_of_lookup_1 in Hf1 as [j1 Hj1]. destruct (decide (j1 = j)) as [->|Hne].
      + rewrite list_lookup_insert_eq in Hj1 by done. injection Hj1 as <-. by apply (field_sound_update f f' mode c cs).
      + rewrite list_lookup_insert_ne in Hj1 by done. apply (Hsound fs); by eapply list_elem_of_lookup_2.
    - rewrite list_lookup_insert_ne in Hi1 by done. apply (Hsound fs1); [by eapply list_elem_of_lookup_2|done]. }
  destruct (Hget i j (<[j := f']> fs) f' k (updated mode c cs)) as (x & Hx & _ & Hall); try done.
  { by rewrite list_lookup_insert_eq by (by eapply lookup_lt_Some). }
  { by rewrite list_lookup_insert_eq. }
  exists inp, s'', x. split_and!; [destruct s; by apply setconstraint_refines|done|done| |].
  - unfold allowed in *. destruct (updated mode c cs); [|done]. unfold shape in Hshape. congruence.
  - intros ->. unfold updated in Hall. destruct cs; cbn in Hall; destruct Hall as (c' & Hc' & Hall);
      by apply list_elem_of_singleton in Hc' as ->.
Qed.

End Set_generate.

(** ** A small table *)

Module Demo.

Definition field (reg w st def res : Z) : fuzzer_arg_def :=
  {| regnum := reg; bitw := w; bitst := st; defval := def; contval := None; contvallen := None;
     contlen := 0; conttype := None; reserved := res |}.

Definition arg1 : list fuzzer_arg_def := [field 1 8 0 5 0; field 1 24 8 0 1].
Definition arg2 : list fuzzer_arg_def := [field 2 32 0 9 0].

Instance tables : FuzzTables := {|
  fuzzer_arg_array_lst := [(0, 1); (2, 2)];
  fuzzer_arg_array_range := [2];
  fuzzer_arg_array_start := [0];
  fuzzer_fieldarg := [0; 0; 1];
  fuzzer_fieldfld := [0; 1; 0];
  MAX_ARG_LENGTH := 1;
  MAX_SMC_CALLS := 0;
|}.

Definition start : fuzz memmod := Build_fuzz init_mem (arg1 ++ arg2) 1.

Lemma call : call_wf start 0 0 [arg1; arg2].
Proof.
  split; try done.
  - intros i fs Hfs. destruct i as [|[|i]]; [| |done]; cbn in Hfs; injection Hfs as <-.
    + exists 0. split; [reflexivity|]. intros k f Hf. destruct k as [|[|k]]; [| |done]; by injection Hf as <-.
    + exists 2. split; [reflexivity|]. intros k f Hf. destruct k as [|k]; [|done]. by injection Hf as <-.
  - intros i fs Hfs. destruct i as [|[|i]]; [| |done]; cbn in Hfs; injection Hfs as <-.
    + split_and!; [by repeat constructor| |by repeat constructor].
      constructor; [|by repeat constructor]. constructor; [by left|constructor].
    + split_and!; by repeat constructor.
Qed.

Lemma sound (fs : list fuzzer_arg_def) (f : fuzzer_arg_def) : fs ∈ [arg1; arg2] → f ∈ fs → field_sound f.
Proof.
  assert (Forall (Forall field_sound) [arg1; arg2]) as Hall.
  { repeat constructor; try done; exists []; (split_and!; [done| |constructor]); intros _; split; cbn; lia. }
  intros Hfs Hf. pose proof (proj1 (Forall_forall _ _) Hall fs Hfs) as H. by apply (proj1 (Forall_forall _ _) H).
Qed.

Lemma owned_none : smc_owned (heap start) ≡ₚ addrs (field 1 8 0 5 0) ++ [].
Proof. reflexivity. Qed.

End Demo.

#[local] Existing Instance Demo.tables.

Lemma generate_args_constrained_witness :
  ∃ inp s', generate_args (replicate 17 0) 0 SANITY_LEVEL_3 Demo.start = Ok (inp, s')
    ∧ get_generated_value 0 inp s' = Ok (5, s').
Proof.
  destruct (generate_args_constrained Demo.start (replicate 17 0) 0 0 _ Demo.call eq_refl Demo.sound)
    as (inp & s' & Hrun & _ & Hget). exists inp, s'. split; [exact Hrun|].
  destruct (Hget 0%nat 0%nat Demo.arg1 (Demo.field 1 8 0 5 0) 0 []) as (v & Hv & _ & Ha); [reflexivity..|].
  cbn in Ha. rewrite Hv, Ha. reflexivity.
Defined.

Lemma generate_args_unconstrained_witness :
  ∃ inp s', generate_args (replicate 17 0) 0 SANITY_LEVEL_2 Demo.start = Ok (inp, s')
    ∧ get_generated_value 1 inp s' = Ok (0, s').
Proof.
  destruct (generate_args_unconstrained Demo.start (replicate 17 0) 0 0 _ Demo.call eq_refl) as (inp & s' & Hrun & _ & Hget).
  { intros fs f Hfs Hf.
    assert (Forall (Forall (λ f, if decide (reserved f = 1) then fits f (defval f) else bitw f < 64)) [Demo.arg1; Demo.arg2]) as Hall
      by (repeat (apply Forall_nil_2 || apply Forall_cons_2); by vm_compute).
    pose proof (proj1 (Forall_forall _ _) Hall fs Hfs) as H. apply (proj1 (Forall_forall _ _) H f Hf). }
  exists inp, s'. split; [exact Hrun|].
  destruct (Hget 0%nat 1%nat Demo.arg1 (Demo.field 1 24 8 0 1) 1) as (v & Hv & _ & Ha); [reflexivity..|].
  rewrite Hv, (Ha eq_refl). reflexivity.
Defined.

Lemma setconstraint_spec_witness :
  ∃ s' f', @setconstraint memmod smc_allocator Demo.tables FUZZER_CONSTRAINT_RANGE (Some [3; 7]) 2 0 true 0 Demo.start
    = Ok (tt, s') ∧ rep f' [Range 3 7].
Proof.
  destruct (setconstraint_spec Demo.start FUZZER_CONSTRAINT_RANGE 2 0 0 0 [3; 7] (Range 3 7) (Demo.field 1 8 0 5 0) [] [])
    as [Hno|(s' & f' & Hrun & _ & _ & Hrep & _)].
  - exists 0, 0, (0, 1). by split_and!.
  - done.
  - done.
  - reflexivity.
  - reflexivity.
  - reflexivity.
  - apply reach_init.
  - apply Demo.owned_none.
  - exfalso. revert Hno. vm_compute. discriminate.
  - exists s', f'. split; [exact Hrun|exact Hrep].
Defined.

Lemma constraint_respected_witness :
  ∃ s' inp s'', @setconstraint memmod smc_allocator Demo.tables FUZZER_CONSTRAINT_SVALUE (Some [0x42]) 1 0 true 1 Demo.start
      = Ok (tt, s')
    ∧ generate_args (replicate 17 0) 0 SANITY_LEVEL_3 s' = Ok (inp, s'')
    ∧ get_generated_value 0 inp s'' = Ok (0x42, s'').
Proof.
  destruct (constraint_respected Demo.start (replicate 17 0) [0x42] 0 0 FUZZER_CONSTRAINT_SVALUE 1 0 1 [Demo.arg1; Demo.arg2]
    0 0 Demo.arg1 (Demo.field 1 8 0 5 0) (SValue 0x42) [] [] Demo.call eq_refl Demo.sound eq_refl eq_refl eq_refl
    eq_refl eq_refl) as [Hno|(s' & inp & s'' & x & Hset & Hgen & Hget & _ & Hx)].
  - cbn. lia.
  - lia.
  - cbn. lia.
  - reflexivity.
  - split; [|exact I]. by repeat constructor.
  - apply reach_init.
  - apply Demo.owned_none.
  - exfalso. revert Hno. vm_compute. discriminate.
  - exists s', inp, s''. split; [exact Hset|]. split; [exact Hgen|]. rewrite Hget, (Hx eq_refl). reflexivity.
Defined.
