(* ===== verification/FuzzTree.v ===== *)
(** * The bias tree of the SMC fuzzing module
    (smc_fuzz/src/randsmcmod.c, fifo3d.c and nfifo.c)

    The tree of calls and biases is read from a device tree; a run walks it
    from the root, at each node to an entry chosen with its bias, until it
    reaches a call.  Here the arrays are values: where they lie in the pool
    ([FuzzMalloc]) and what happens when it is exhausted is left out. *)

From S2P Require Import Prelude Libc Nvm.

Local Open Scope Z_scope.

(** A string: its characters, without the NUL *)
Definition name : Type := list Z.

Definition MAX_NAME_CHARS : Z := 50.
Definition NFIFO_Q_THRESHOLD : Z := 10.
Definition FIRST_NODE_DEVTREE_OFFSET : Z := 8.

Definition NONE : name := [110; 111; 110; 101].
Definition BIAS : name := [98; 105; 97; 115].
Definition FUNCTIONNAME : name := [102; 117; 110; 99; 116; 105; 111; 110; 110; 97; 109; 101].

(** [strlcpy(dst, s, MAX_NAME_CHARS)] *)
Definition strlcpy_name (s : name) : name := take (Z.to_nat (MAX_NAME_CHARS - 1)) s.

(** ** Names and numbers (nfifo.c) *)

Record nfifo := {
  lnme : list name;
  thent : Z;
}.

Definition nfifoinit : nfifo := {| lnme := []; thent := NFIFO_Q_THRESHOLD |}.

(** The position of a name, from 1; -1 if it is not there *)
Fixpoint search_loop (nme : name) (l : list name) (x : Z) : Z :=
  match l with
  | [] => -1
  | y :: l' => if bool_decide (y = nme) then x + 1 else search_loop nme l' (x + 1)
  end.
Definition searchnme (nme : name) (nf : nfifo) : Z := search_loop nme (lnme nf) 0.

Definition pushnme (nme : name) (nf : nfifo) : nfifo :=
  if searchnme nme nf =? -1 then
    {| lnme := lnme nf ++ [strlcpy_name nme];
       thent := if thent nf <=? zlen (lnme nf) then thent nf + NFIFO_Q_THRESHOLD else thent nf |}
  else nf.

Definition readnme {S} (ent : Z) (nf : nfifo) : M S name := aget (lnme nf) ent.

(** ** What is read of the device tree (fifo3d.c) *)

(** One node: the four values kept of it *)
Record fentry := {
  nnfifo : name;
  fnamefifo : name;
  biasfifo : Z;
  fidfifo : Z;
}.

(** A column holds the nodes of one depth below the node being read; [row] is
    their number. *)
Record fifo3d := {
  fifo : list (list fentry);
  row : list Z;
  col : Z;
  curr_col : Z;
}.

(** ** The tree *)

(** [None] is a tree node that is never set. *)
#[warnings="-register-all"] Inductive rand_smc_node := Node {
  biases : list Z;
  biasarray : list Z;
  snames : list name;
  snameid : list Z;
  treenodes : list (option rand_smc_node);
  norcall : list Z;
  entries : Z;
  biasent : Z;
  nname : list name;
}.

(** What [createsmctree()] reports on the console *)
Inductive report := NoBias (nm : name) | EarlyTermination (nm : name).

(** The variables of [createsmctree()]; [dtb] and [dtb_pn] are offsets in the
    device tree. *)
Record reader := {
  dtb : Z;
  dtb_pn : Z;
  f3d : fifo3d;
  nf : nfifo;
  nodename : name;
  leafnode : Z;
  fnode : Z;
  bias_count : Z;
  bintnode : Z;
  treenodetrack : Z;
  ndarray : list rand_smc_node;
  reports : list report;
}.

Definition set_dtb (s : reader) (x : Z) : reader :=
  {| dtb := x; dtb_pn := dtb_pn s; f3d := f3d s; nf := nf s; nodename := nodename s; leafnode := leafnode s; fnode := fnode s;
     bias_count := bias_count s; bintnode := bintnode s; treenodetrack := treenodetrack s;
     ndarray := ndarray s; reports := reports s |}.
Definition set_dtb_pn (s : reader) (x : Z) : reader :=
  {| dtb := dtb s; dtb_pn := x; f3d := f3d s; nf := nf s; nodename := nodename s; leafnode := leafnode s; fnode := fnode s;
     bias_count := bias_count s; bintnode := bintnode s; treenodetrack := treenodetrack s;
     ndarray := ndarray s; reports := reports s |}.
Definition set_f3d (s : reader) (x : fifo3d) : reader :=
  {| dtb := dtb s; dtb_pn := dtb_pn s; f3d := x; nf := nf s; nodename := nodename s; leafnode := leafnode s; fnode := fnode s;
     bias_count := bias_count s; bintnode := bintnode s; treenodetrack := treenodetrack s;
     ndarray := ndarray s; reports := reports s |}.
Definition set_names (s : reader) (x : nfifo) (nm : name) : reader :=
  {| dtb := dtb s; dtb_pn := dtb_pn s; f3d := f3d s; nf := x; nodename := nm; leafnode := leafnode s; fnode := fnode s;
     bias_count := bias_count s; bintnode := bintnode s; treenodetrack := treenodetrack s;
     ndarray := ndarray s; reports := reports s |}.
Definition set_flags (s : reader) (leaf fn bc bint : Z) : reader :=
  {| dtb := dtb s; dtb_pn := dtb_pn s; f3d := f3d s; nf := nf s; nodename := nodename s; leafnode := leaf; fnode := fn;
     bias_count := bc; bintnode := bint; treenodetrack := treenodetrack s;
     ndarray := ndarray s; reports := reports s |}.
Definition set_nodes (s : reader) (track : Z) (nd : list rand_smc_node) : reader :=
  {| dtb := dtb s; dtb_pn := dtb_pn s; f3d := f3d s; nf := nf s; nodename := nodename s; leafnode := leafnode s; fnode := fnode s;
     bias_count := bias_count s; bintnode := bintnode s; treenodetrack := track;
     ndarray := nd; reports := reports s |}.
Definition add_report (s : reader) (r : report) : reader :=
  {| dtb := dtb s; dtb_pn := dtb_pn s; f3d := f3d s; nf := nf s; nodename := nodename s; leafnode := leafnode s; fnode := fnode s;
     bias_count := bias_count s; bintnode := bintnode s; treenodetrack := treenodetrack s;
     ndarray := ndarray s; reports := reports s ++ [r] |}.

Abbreviation R := (M reader).

(** *** fifo3d.c *)

(** The last node of the current column: [[col - 1][row[col - 1] - 1]] *)
Definition push_3dfifo (upd : fentry → fentry) : R unit :=
  s ← get;
  let f := f3d s in
  c ← aget (fifo f) (col f - 1);
  n ← aget (row f) (col f - 1);
  e ← aget c (n - 1);
  c ← aset c (n - 1) (upd e);
  l ← aset (fifo f) (col f - 1) c;
  put (set_f3d s {| fifo := l; row := row f; col := col f; curr_col := curr_col f |}).

Definition push_3dfifo_fname (fname : name) : R unit :=
  push_3dfifo (λ e, {| nnfifo := nnfifo e; fnamefifo := strlcpy_name fname; biasfifo := biasfifo e;
                       fidfifo := fidfifo e |}).
Definition push_3dfifo_bias (bias : Z) : R unit :=
  push_3dfifo (λ e, {| nnfifo := nnfifo e; fnamefifo := fnamefifo e; biasfifo := bias; fidfifo := fidfifo e |}).
Definition push_3dfifo_fid (id : Z) : R unit :=
  push_3dfifo (λ e, {| nnfifo := nnfifo e; fnamefifo := fnamefifo e; biasfifo := biasfifo e; fidfifo := id |}).

Definition new_entry (entry : name) : fentry :=
  {| nnfifo := strlcpy_name entry; fnamefifo := NONE; biasfifo := 0; fidfifo := 0 |}.

(** The copies of the first [n] columns: [row[i]] nodes of column [i] *)
Fixpoint copy_cols (f : fifo3d) (n : nat) (i : Z) : R (list (list fentry)) :=
  match n with
  | O => mret []
  | S n' =>
      c ← aget (fifo f) i;
      r ← aget (row f) i;
      if (0 <=? r) && (r <=? zlen c) then
        l ← copy_cols f n' (i + 1);
        mret (take (Z.to_nat r) c :: l)
      else fail OutOfBounds
  end.

(** A new column, or one more node in the current column *)
Definition push_3dfifo_col (entry : name) : R unit :=
  s ← get;
  let f := f3d s in
  let n := Z.to_nat (col f) in
  if col f =? curr_col f then
    old ← copy_cols f n 0;
    put (set_f3d s {| fifo := old ++ [[new_entry entry]]; row := take n (row f) ++ [1];
                      col := col f + 1; curr_col := curr_col f + 1 |})
  else
    old ← copy_cols f n 0;
    c ← aget (fifo f) (col f);
    r ← aget (row f) (col f);
    row' ← aset (row f) (col f) (r + 1);
    if r =? zlen c then
      put (set_f3d s {| fifo := old ++ [c ++ [new_entry entry]]; row := row';
                        col := col f + 1; curr_col := curr_col f |})
    else fail OutOfBounds.

(** *** Building a node *)

(** The new copy of a node: its tree nodes are those built before it, in the
    order in which they are needed. *)
Fixpoint relink (built : list rand_smc_node) (nor : list Z) (track : Z) : R (list (option rand_smc_node) * Z) :=
  match nor with
  | [] => mret ([], track)
  | x :: nor' =>
      if x =? 1 then
        t ← aget built track;
        r ← relink built nor' (track + 1);
        mret (Some t :: r.1, r.2)
      else
        r ← relink built nor' track;
        mret (None :: r.1, r.2)
  end.

Fixpoint copy_nodes (old built : list rand_smc_node) (track : Z) : R (list rand_smc_node) :=
  match old with
  | [] => mret built
  | n :: old' =>
      r ← relink built (norcall n) track;
      copy_nodes old' (built ++ [Node (biases n) (biasarray n) (snames n) (snameid n) r.1 (norcall n)
                                   (entries n) (biasent n) (nname n)]) r.2
  end.

(** Which entries are calls, and which are nodes *)
Definition calls (c : list fentry) : list Z :=
  (λ e, if bool_decide (fnamefifo e = NONE) then 1 else 0) <$> c.

(** [biasarray]: entry [j] as often as its bias says, from entry [j] on.  A
    negative bias is a huge number of times. *)
Fixpoint bias_array (bs : list Z) (j : Z) : R (list Z) :=
  match bs with
  | [] => mret []
  | b :: bs' =>
      if b <? 0 then fail OutOfBounds
      else r ← bias_array bs' (j + 1); mret (replicate (Z.to_nat b) j ++ r)
  end.

(** A node whose entries are the nodes of column [c]; [cntbias] is an [int]. *)
Definition build_node (c : list fentry) : R unit :=
  s ← get;
  built ← copy_nodes (ndarray s) [] 0;
  r ← relink built (calls c) (treenodetrack s);
  arr ← bias_array (biasfifo <$> c) 0;
  let cntbias := foldr Z.add 0 (biasfifo <$> c) in
  if 2 ^ 31 <=? cntbias then fail Undefined
  else
    put (set_nodes s r.2
           (built ++ [Node (biasfifo <$> c) arr (fnamefifo <$> c) (fidfifo <$> c) r.1 (calls c)
                        (zlen c) cntbias (nnfifo <$> c)])).

(** *** Reading the device tree *)

Section Read.

Context (dt : list Z).

(** [fdt32_to_cpu()] of a word *)
Definition rd32 (p : Z) : R Z :=
  a ← aget dt p;
  b ← aget dt (p + 1);
  c ← aget dt (p + 2);
  d ← aget dt (p + 3);
  mret (a * 16777216 + b * 65536 + c * 256 + d).

(** The characters from [p]: [n] is what is left of the buffer. *)
Fixpoint pull_loop (n : nat) (p : Z) : R name :=
  match n with
  | O => fail OutOfBounds
  | S n' =>
      c ← aget dt p;
      if c =? 0 then mret [] else r ← pull_loop n' (p + 1); mret (c :: r)
  end.

(** [pullstringdt()] from [p]: the string, and where the next word is *)
Definition pullstringdt (p : Z) : R (name * Z) :=
  s ← pull_loop (Z.to_nat MAX_NAME_CHARS) p;
  let cntchr := zlen s + 1 in
  mret (s, if cntchr mod 4 =? 0 then p + cntchr else p + cntchr + (4 - cntchr mod 4)).

(** A node begins *)
Definition begin_node : R unit :=
  s ← get;
  r ← pullstringdt (dtb s);
  put (set_dtb s r.2);;
  push_3dfifo_col r.1;;
  s ← get;
  put (set_names s (nf s) (strlcpy_name r.1));;
  s ← get;
  if fnode s =? 0 then put (set_flags s (leafnode s) 1 (bias_count s) (bintnode s))
  else
    (if (fnode s =? 1) && (bias_count s =? 1) then mret tt else put (add_report s (NoBias r.1)));;
    s ← get;
    put (set_flags s (leafnode s) (fnode s) 0 (bintnode s)).

(** A property; of one that is neither [bias] nor [functionname] the value is
    not skipped. *)
Definition property (off_dt_strings : Z) : R unit :=
  s ← get;
  nameoff ← rd32 (dtb s + 4);
  put (set_dtb s (dtb s + 8));;
  s ← get;
  let offset := (off_dt_strings + nameoff) mod 2 ^ 32 in
  r ← pullstringdt (if negb (offset =? 0) then offset else dtb_pn s);
  put (set_dtb_pn s r.2);;
  (if bool_decide (r.1 = BIAS) then
     s ← get;
     bval ← rd32 (dtb s);
     put (set_dtb s (dtb s + 4));;
     push_3dfifo_bias (s32 bval);;
     s ← get;
     if bintnode s =? 1 then put (set_flags s (leafnode s) 0 0 0)
     else put (set_flags s (leafnode s) (fnode s) (bias_count s + 1) (bintnode s))
   else mret tt);;
  if bool_decide (r.1 = FUNCTIONNAME) then
    s ← get;
    v ← pullstringdt (dtb s);
    put (set_dtb s v.2);;
    push_3dfifo_fname v.1;;
    s ← get;
    put (set_names s (pushnme v.1 (nf s)) (nodename s));;
    s ← get;
    push_3dfifo_fid (searchnme v.1 (nf s));;
    s ← get;
    if bias_count s =? 0 then put (set_flags s 1 1 (bias_count s) 1)
    else put (set_flags s 1 0 0 (bintnode s))
  else mret tt.

(** A node ends *)
Definition end_node : R unit :=
  s ← get;
  (if (0 <? fnode s) || (0 <? bias_count s) then put (add_report s (EarlyTermination (nodename s)))
   else mret tt);;
  s ← get;
  let f := f3d s in
  let f := {| fifo := fifo f; row := row f; col := col f - 1; curr_col := curr_col f |} in
  put (set_f3d s f);;
  if leafnode s =? 1 then
    s ← get;
    put (set_flags s 0 (fnode s) (bias_count s) (bintnode s))
  else
    r ← aget (row f) (col f + 1);
    c ← aget (fifo f) (col f + 1);
    (if (0 <=? r) && (r <=? zlen c) then build_node (take (Z.to_nat r) c) else fail OutOfBounds);;
    s ← get;
    put (set_f3d s {| fifo := take (Z.to_nat (col f + 1)) (fifo f); row := row f; col := col f;
                      curr_col := curr_col f - 1 |}).

(** The loop over the words of the structure block *)
Fixpoint read_loop (off_dt_strings : Z) (fuel : nat) : R unit :=
  match fuel with
  | O => fail FuelOut
  | S fuel' =>
      s ← get;
      rval ← rd32 (dtb s);
      put (set_dtb s (dtb s + 4));;
      (if rval =? 1 then begin_node else mret tt);;
      (if rval =? 3 then property off_dt_strings else mret tt);;
      (if rval =? 2 then end_node else mret tt);;
      if rval =? 9 then mret tt else read_loop off_dt_strings fuel'
  end.

Definition init_reader : reader :=
  {| dtb := 0; dtb_pn := 0; f3d := {| fifo := []; row := []; col := 0; curr_col := 0 |}; nf := nfifoinit; nodename := [];
     leafnode := 0; fnode := 0; bias_count := 0; bintnode := 0; treenodetrack := 0; ndarray := [];
     reports := [] |}.

Definition createsmctree (fuel : nat) : R (list rand_smc_node) :=
  put init_reader;;
  off_dt_struct ← rd32 8;
  off_dt_strings ← rd32 12;
  put (set_dtb init_reader (off_dt_struct + FIRST_NODE_DEVTREE_OFFSET));;
  read_loop off_dt_strings fuel;;
  s ← get;
  mret (ndarray s).

End Read.

(** ** Running *)

Section Run.

Context {W : Type}.

(** [runtestfunction()], with the state of [rand()] and whatever else it uses *)
Context (runtestfunction : Z → M (Z * W) Z).

Abbreviation X := (M (Z * W)).

Definition rand_w : X Z := λ s, Ok ((rand s.1).1, ((rand s.1).2, s.2)).

(** One way down the tree, until a call *)
Fixpoint walk (fuel : nat) (tlnode : rand_smc_node) : X Z :=
  match fuel with
  | O => fail FuelOut
  | S fuel' =>
      r ← rand_w;
      if biasent tlnode =? 0 then fail Undefined
      else
        selent ← aget (biasarray tlnode) (r mod biasent tlnode);
        c ← aget (norcall tlnode) selent;
        if c =? 0 then id ← aget (snameid tlnode) selent; runtestfunction id
        else
          t ← aget (treenodes tlnode) selent;
          match t with
          | Some t => walk fuel' t
          | None => fail Undefined
          end
  end.

Fixpoint call_loop (depth : nat) (root : rand_smc_node) (n : nat) : X Z :=
  match n with
  | O => mret TEST_RESULT_SUCCESS
  | S n' =>
      res ← walk depth root;
      if negb (res =? TEST_RESULT_SUCCESS) then mret TEST_RESULT_FAIL else call_loop depth root n'
  end.

(** [depth] bounds the height of the tree. *)
Definition smc_fuzzing_instance (depth : nat) (nodes : list rand_smc_node) (calls_per_instance : nat)
    (seed : Z) : X Z :=
  s ← get;
  put (srand seed, s.2);;
  match last nodes with
  | Some root => call_loop depth root calls_per_instance
  | None => fail OutOfBounds
  end.

(** The results of one instance per seed *)
Fixpoint instances (run : Z → X Z) (seeds : list Z) : X (list Z) :=
  match seeds with
  | [] => mret []
  | x :: seeds' => r ← run x; l ← instances run seeds'; mret (r :: l)
  end.

Definition smc_fuzzer_execute (depth : nat) (nodes : list rand_smc_node) (calls_per_instance : nat)
    (seeds : list Z) : X Z :=
  results ← instances (smc_fuzzing_instance depth nodes calls_per_instance) seeds;
  mret (if bool_decide (TEST_RESULT_FAIL ∈ results) then TEST_RESULT_FAIL else TEST_RESULT_SUCCESS).

End Run.
