(* ===== verification/FuzzTreeSpec.v ===== *)
(** * The bias tree: what createsmctree() builds

    Trees of calls as they are written, their encoding in a device tree, and
    the nodes [createsmctree()] makes of them. *)

From S2P Require Import Prelude Libc Nvm FuzzTree.

Local Open Scope Z_scope.

(** ** Trees *)

#[warnings="-register-all"] Inductive tree :=
| TLeaf (nm fn : name) (b : Z)
| TNode (nm : name) (b : Z) (cs : list tree).

Section Tree_ind.

Context (P : tree → Prop) (Hleaf : ∀ nm fn b, P (TLeaf nm fn b))
  (Hnode : ∀ nm b cs, Forall P cs → P (TNode nm b cs)).

Fixpoint tree_rect_all (t : tree) : P t :=
  match t with
  | TLeaf nm fn b => Hleaf nm fn b
  | TNode nm b cs =>
      Hnode nm b cs ((fix go (l : list tree) : Forall P l :=
        match l with [] => Forall_nil_2 _ | t :: l' => Forall_cons_2 _ _ _ (tree_rect_all t) (go l') end) cs)
  end.

End Tree_ind.

Definition is_node (t : tree) : bool := match t with TNode _ _ _ => true | TLeaf _ _ _ => false end.

(** A string the reader can hold *)
Definition name_ok (s : name) : Prop := Forall (λ c, 0 < c < 256) s ∧ zlen s < MAX_NAME_CHARS.
Definition bias_ok (b : Z) : Prop := 0 <= b < 2 ^ 31.

Definition bias_of (t : tree) : Z := match t with TLeaf _ _ b => b | TNode _ b _ => b end.
Definition total (cs : list tree) : Z := foldr Z.add 0 (bias_of <$> cs).

(** What is below a node: at least one entry, and the biases add up to an [int]. *)
Definition full (cs : list tree) : Prop := cs ≠ [] ∧ total cs < 2 ^ 31.

(** The calls have names other than "none". *)
Fixpoint tree_ok (t : tree) : Prop :=
  match t with
  | TLeaf nm fn b => name_ok nm ∧ name_ok fn ∧ fn ≠ NONE ∧ bias_ok b
  | TNode nm b cs =>
      name_ok nm ∧ bias_ok b ∧ full cs
      ∧ (fix go (l : list tree) : Prop := match l with [] => True | t :: l' => tree_ok t ∧ go l' end) cs
  end.
Definition forest_ok (cs : list tree) : Prop := Forall tree_ok cs.

Lemma tree_ok_node (nm : name) (b : Z) (cs : list tree) :
  tree_ok (TNode nm b cs) ↔ name_ok nm ∧ bias_ok b ∧ full cs ∧ forest_ok cs.
Proof.
  cbn [tree_ok].
  assert ((fix go (l : list tree) : Prop := match l with [] => True | t :: l' => tree_ok t ∧ go l' end) cs
    ↔ forest_ok cs) as ->; [|done].
  unfold forest_ok. induction cs as [|t cs IH]; [done|]. rewrite Forall_cons. by rewrite IH.
Qed.

(** ** The encoding *)

Definition word (w : Z) : list Z := [w / 16777216 mod 256; w / 65536 mod 256; w / 256 mod 256; w mod 256].
Definition str (s : name) : list Z :=
  s ++ [0] ++ replicate (Z.to_nat ((4 - (zlen s + 1) mod 4) mod 4)) 0.

Section Encode.

(** Where the two property names are in the strings block *)
Context (obias ofunc : Z).

Fixpoint enc (t : tree) : list Z :=
  match t with
  | TLeaf nm fn b =>
      word 1 ++ str nm ++ (word 3 ++ word 4 ++ word obias ++ word b)
      ++ (word 3 ++ word (zlen fn + 1) ++ word ofunc ++ str fn) ++ word 2
  | TNode nm b cs =>
      word 1 ++ str nm ++ (word 3 ++ word 4 ++ word obias ++ word b)
      ++ (fix go (l : list tree) : list Z := match l with [] => [] | t :: l' => enc t ++ go l' end) cs ++ word 2
  end.
Definition enc_all (cs : list tree) : list Z := concat (enc <$> cs).

Lemma enc_node (nm : name) (b : Z) (cs : list tree) :
  enc (TNode nm b cs)
  = word 1 ++ str nm ++ (word 3 ++ word 4 ++ word obias ++ word b) ++ enc_all cs ++ word 2.
Proof.
  cbn [enc]. do 4 f_equal. unfold enc_all. induction cs as [|t cs IH]; [done|]. cbn. by rewrite IH.
Qed.

End Encode.

(** Words of the structure block that the reader takes for a tree *)
Fixpoint ntok (t : tree) : nat :=
  match t with
  | TLeaf _ _ _ => 4
  | TNode _ _ cs => 3 + (fix go (l : list tree) : nat := match l with [] => 0 | t :: l' => ntok t + go l' end) cs
  end%nat.
Definition ntoks (cs : list tree) : nat := foldr (λ t n, ntok t + n)%nat 0%nat cs.

(** ** Reading bytes *)

Section Bytes.

Context (dt : list Z).

Definition at_ (p : Z) (bs : list Z) : Prop := 0 <= p ∧ ∀ k c, bs !! k = Some c → zget dt (p + Z.of_nat k) = Some c.

Lemma at_app (p : Z) (a b : list Z) : at_ p (a ++ b) → at_ p a ∧ at_ (p + zlen a) b.
Proof.
  intros [Hp H]. split; split; [done| |unfold zlen; lia|].
  - intros k c Hk. apply H. by apply lookup_app_l_Some.
  - intros k c Hk. rewrite <- Z.add_assoc. unfold zlen. rewrite <- Nat2Z.inj_add. apply H.
    rewrite lookup_app_r by lia. by replace (length a + k - length a)%nat with k by lia.
Qed.

Lemma rd32_run (p w : Z) (s : reader) : at_ p (word w) → 0 <= w < 2 ^ 32 → rd32 dt p s = Ok (w, s).
Proof.
  intros [Hp H] Hw. unfold rd32.
  assert (∀ k c, word w !! k = Some c → aget dt (p + Z.of_nat k) s = Ok (c, s)) as Hg
    by (intros k c Hk; apply aget_Ok, H, Hk).
  pose proof (Hg 0%nat _ eq_refl) as H0. rewrite Z.add_0_r in H0. rewrite (bind_Ok _ _ _ _ _ H0).
  rewrite (bind_Ok _ _ _ _ _ (Hg 1%nat _ eq_refl)), (bind_Ok _ _ _ _ _ (Hg 2%nat _ eq_refl)).
  rewrite (bind_Ok _ _ _ _ _ (Hg 3%nat _ eq_refl)). unfold mret, M_ret. do 2 f_equal.
  change (2 ^ 32) with 4294967296 in Hw.
  rewrite (Z.mod_small (w / 16777216)) by (split; [apply Z.div_pos; lia|apply Z.div_lt_upper_bound; lia]).
  pose proof (Z.div_mod w 256). pose proof (Z.div_mod (w / 256) 256). pose proof (Z.div_mod (w / 65536) 256).
  rewrite Z.div_div in * by lia. change (256 * 256) with 65536 in *. change (65536 * 256) with 16777216 in *. lia.
Qed.

Lemma pull_loop_run (n : nat) (p : Z) (s : name) (rest : list Z) (st : reader) :
  at_ p (s ++ 0 :: rest) → Forall (λ c, 0 < c < 256) s → (length s < n)%nat →
  pull_loop dt n p st = Ok (s, st).
Proof.
  revert p s. induction n as [|n IH]; intros p s Hat Hs Hn; [lia|]. cbn [pull_loop].
  destruct s as [|c s].
  - destruct Hat as [Hp Hat]. pose proof (Hat 0%nat 0 eq_refl) as H0. rewrite Z.add_0_r in H0.
    by rewrite (bind_Ok _ _ _ _ _ (aget_Ok _ _ _ st H0)).
  - apply Forall_cons in Hs as [Hc Hs]. pose proof (proj2 Hat 0%nat c eq_refl) as H0. rewrite Z.add_0_r in H0.
    rewrite (bind_Ok _ _ _ _ _ (aget_Ok _ _ _ st H0)). rewrite (proj2 (Z.eqb_neq c 0)) by lia.
    change ((c :: s) ++ 0 :: rest) with ([c] ++ (s ++ 0 :: rest)) in Hat. apply at_app in Hat as [_ Hat].
    cbn [length] in Hn. by rewrite (bind_Ok _ _ _ _ _ (IH (p + 1) s Hat Hs ltac:(lia))).
Qed.

Lemma zlen_str (s : name) : zlen (str s) = zlen s + 1 + (4 - (zlen s + 1) mod 4) mod 4.
Proof.
  unfold str. rewrite !zlen_app. unfold zlen at 2 3. rewrite length_replicate. cbn [length].
  pose proof (Z.mod_pos_bound (4 - (zlen s + 1) mod 4) 4). lia.
Qed.

Lemma pullstringdt_run (p : Z) (s : name) (st : reader) :
  at_ p (s ++ [0]) → name_ok s → pullstringdt dt p st = Ok ((s, p + zlen (str s)), st).
Proof.
  intros Hat [Hs Hlen]. unfold pullstringdt.
  rewrite (bind_Ok _ _ _ _ _ (pull_loop_run (Z.to_nat MAX_NAME_CHARS) p s [] st Hat Hs ltac:(unfold zlen in Hlen; lia))).
  unfold mret, M_ret. rewrite zlen_str. do 2 f_equal. apply (f_equal (pair s)).
  pose proof (Z.mod_pos_bound (zlen s + 1) 4 ltac:(lia)).
  destruct (Z.eqb_spec ((zlen s + 1) mod 4) 0) as [->|Hne].
  - change ((4 - 0) mod 4) with 0. lia.
  - rewrite (Z.mod_small (4 - _)) by lia. lia.
Qed.

Lemma at_str (p : Z) (s : name) : at_ p (str s) → at_ p (s ++ [0]).
Proof. unfold str. rewrite app_assoc. by intros [? _]%at_app. Qed.

End Bytes.

(** ** Names and their numbers *)

Definition extends (nf nf' : nfifo) : Prop := ∃ r, lnme nf' = lnme nf ++ r.

#[export] Instance extends_preorder : PreOrder extends.
Proof.
  split; [intros n; exists []; by rewrite app_nil_r|]. intros a b c [r Hr] [r' Hr']. exists (r ++ r').
  by rewrite Hr', Hr, app_assoc.
Qed.

Lemma search_loop_not (nme : name) (l : list name) (x : Z) : 0 <= x → search_loop nme l x = -1 ↔ nme ∉ l.
Proof.
  revert x. induction l as [|y l IH]; intros x Hx; cbn [search_loop].
  { split; [intros _; apply not_elem_of_nil|done]. }
  rewrite not_elem_of_cons. destruct (decide (y = nme)) as [->|Hne].
  - rewrite bool_decide_eq_true_2 by done. split; [lia|]. naive_solver.
  - rewrite bool_decide_eq_false_2, IH by (done || lia). naive_solver.
Qed.

Lemma search_loop_app (nme : name) (l l' : list name) (x : Z) : nme ∈ l →
  search_loop nme (l ++ l') x = search_loop nme l x.
Proof.
  revert x. induction l as [|y l IH]; intros x Hin; [by apply elem_of_nil in Hin|]. cbn [app search_loop].
  destruct (decide (y = nme)) as [->|Hne]; [by rewrite bool_decide_eq_true_2|].
  rewrite bool_decide_eq_false_2 by done. apply IH. by apply elem_of_cons in Hin as [?|?].
Qed.

Lemma strlcpy_ok (s : name) : name_ok s → strlcpy_name s = s.
Proof. intros [_ Hs]. unfold strlcpy_name. apply take_ge. unfold zlen, MAX_NAME_CHARS in *. lia. Qed.

Lemma pushnme_spec (nme : name) (nf : nfifo) : name_ok nme →
  extends nf (pushnme nme nf) ∧ nme ∈ lnme (pushnme nme nf).
Proof.
  intros Hn. unfold pushnme. destruct (Z.eqb_spec (searchnme nme nf) (-1)) as [Hs|Hs]; cbn [lnme].
  - rewrite strlcpy_ok by done. split; [by eexists|]. apply elem_of_app. right. left.
  - split; [done|]. unfold searchnme in Hs. rewrite search_loop_not in Hs by done. by apply dec_stable.
Qed.

Lemma searchnme_extends (nme : name) (nf nf' : nfifo) : nme ∈ lnme nf → extends nf nf' →
  searchnme nme nf' = searchnme nme nf.
Proof. intros Hin [r Hr]. unfold searchnme. rewrite Hr. by apply search_loop_app. Qed.

(** ** Columns *)

(** Columns [cols] lead to the node being read; [kids] are its entries so far. *)
Definition fstate (f : fifo3d) (cols : list (list fentry)) (kids : list fentry) : Prop :=
  col f = zlen cols ∧ (∃ junk, row f = (zlen <$> fifo f) ++ junk)
  ∧ match kids with
    | [] => fifo f = cols ∧ curr_col f = zlen cols
    | _ => fifo f = cols ++ [kids] ∧ curr_col f = zlen cols + 1
    end.

Lemma copy_cols_run (f : fifo3d) (pre cols rest : list (list fentry)) (junk : list Z) (s : reader) :
  fifo f = pre ++ cols ++ rest → row f = (zlen <$> fifo f) ++ junk →
  copy_cols f (length cols) (zlen pre) s = Ok (cols, s).
Proof.
  revert pre. induction cols as [|c cols IH]; intros pre Hf Hr; [done|]. cbn [length copy_cols].
  rewrite Hf, (bind_Ok _ _ s s c) by (apply aget_Ok; cbn [app]; apply zget_mid).
  assert (zget (row f) (zlen pre) = Some (zlen c)) as Hrow.
  { rewrite Hr, Hf, !fmap_app. cbn [fmap list_fmap app]. rewrite <- app_assoc. cbn [app].
    replace (zlen pre) with (zlen (zlen <$> pre)) by (unfold zlen; by rewrite length_fmap). apply zget_mid. }
  rewrite (bind_Ok _ _ _ _ _ (aget_Ok _ _ _ s Hrow)).
  rewrite (proj2 (Z.leb_le 0 (zlen c))), (proj2 (Z.leb_le (zlen c) (zlen c))) by (unfold zlen; lia). cbn [andb].
  assert (zlen pre + 1 = zlen (pre ++ [c])) as Hz by (rewrite zlen_app; done).
  rewrite Hz. rewrite (bind_Ok _ _ _ _ _ (IH (pre ++ [c]) ltac:(by rewrite Hf, <- app_assoc) Hr)).
  unfold mret, M_ret. do 3 f_equal. unfold zlen. rewrite Nat2Z.id. by apply take_ge.
Qed.

(** A node begins: it is the last of its column, which is the current one. *)
Lemma push_col_run (s : reader) (cols : list (list fentry)) (kids : list fentry) (nm : name) :
  fstate (f3d s) cols kids → name_ok nm →
  ∃ f, push_3dfifo_col nm s = Ok (tt, set_f3d s f) ∧ fstate f (cols ++ [kids ++ [new_entry nm]]) [].
Proof.
  intros (Hcol & (junk & Hrow) & Hk) Hnm. unfold push_3dfifo_col. erewrite bind_Ok by reflexivity. rewrite Hcol.
  assert (Z.to_nat (zlen cols) = length cols) as Hn by (unfold zlen; lia). rewrite Hn.
  destruct kids as [|k0 kids'] eqn:Ek.
  - destruct Hk as [Hf Hcc]. rewrite Hcc, Z.eqb_refl.
    pose proof (copy_cols_run (f3d s) [] cols [] junk s ltac:(by rewrite app_nil_r) Hrow) as Hcopy.
    change (zlen []) with 0 in Hcopy. rewrite (bind_Ok _ _ _ _ _ Hcopy).
    eexists. split; [reflexivity|]. unfold fstate. cbn [col row fifo curr_col]. rewrite zlen_app. cbn [app].
    split_and!; try done. exists []. rewrite app_nil_r, fmap_app. f_equal. rewrite Hrow, Hf, take_app_le.
    + rewrite take_ge; [done|]. by rewrite length_fmap.
    + by rewrite length_fmap.
  - rewrite <- Ek in *. destruct Hk as [Hf Hcc]. rewrite Hcc, (proj2 (Z.eqb_neq _ _)) by lia.
    pose proof (copy_cols_run (f3d s) [] cols [kids] junk s Hf Hrow) as Hcopy.
    change (zlen []) with 0 in Hcopy. rewrite (bind_Ok _ _ _ _ _ Hcopy).
    rewrite Hf, (bind_Ok _ _ s s kids) by (apply aget_Ok, zget_mid).
    assert (row (f3d s) = (zlen <$> cols) ++ zlen kids :: junk) as Hr.
    { rewrite Hrow, Hf, fmap_app, <- app_assoc. done. }
    rewrite (bind_Ok _ _ s s (zlen kids))
      by (apply aget_Ok; rewrite Hr, <- (zlen_fmap zlen cols); apply zget_mid).
    rewrite (bind_Ok _ _ s s ((zlen <$> cols) ++ zlen kids + 1 :: junk)).
    2: { rewrite <- (zset_mid _ _ (zlen kids)), zlen_fmap, Hr. apply aset_Ok. rewrite zlen_app, zlen_fmap.
         unfold zlen. cbn [length]. lia. }
    rewrite Z.eqb_refl. eexists. split; [reflexivity|]. unfold fstate. cbn [col row fifo curr_col].
    rewrite zlen_app. split_and!; try done. exists junk. rewrite fmap_app, <- app_assoc. cbn. f_equal.
    by rewrite zlen_app.
Qed.

(** A property of the node *)
Lemma push_run (upd : fentry → fentry) (s : reader) (cols : list (list fentry)) (kids : list fentry) (e : fentry) :
  fstate (f3d s) (cols ++ [kids ++ [e]]) [] →
  ∃ f, push_3dfifo upd s = Ok (tt, set_f3d s f) ∧ fstate f (cols ++ [kids ++ [upd e]]) [].
Proof.
  intros (Hcol & (junk & Hrow) & Hf & Hcc). rewrite zlen_app in Hcol, Hcc. change (zlen [kids ++ [e]]) with 1 in *.
  unfold push_3dfifo. erewrite bind_Ok by reflexivity. rewrite Hcol, Z.add_simpl_r, Hf.
  rewrite (bind_Ok _ _ s s (kids ++ [e])) by (apply aget_Ok, zget_mid).
  assert (row (f3d s) = (zlen <$> cols) ++ (zlen kids + 1) :: junk) as Hr.
  { rewrite Hrow, Hf, fmap_app, <- app_assoc. cbn. by rewrite zlen_app. }
  rewrite Hr, <- (zlen_fmap zlen cols). rewrite (bind_Ok _ _ s s (zlen kids + 1)) by (apply aget_Ok, zget_mid).
  rewrite Z.add_simpl_r. rewrite (bind_Ok _ _ s s e) by (apply aget_Ok, zget_mid).
  rewrite (bind_Ok _ _ s s (kids ++ [upd e])).
  2: { rewrite <- (zset_mid kids [] e (upd e)). apply aset_Ok. rewrite zlen_app. unfold zlen. cbn [length]. lia. }
  rewrite (bind_Ok _ _ s s (cols ++ [kids ++ [upd e]])).
  2: { rewrite zlen_fmap, <- (zset_mid cols [] (kids ++ [e]) (kids ++ [upd e])). apply aset_Ok.
       rewrite zlen_app. unfold zlen. cbn [length]. lia. }
  eexists. split; [reflexivity|]. unfold fstate. cbn [col row fifo curr_col].
  rewrite zlen_app, ?zlen_fmap, ?Hcol. split_and!; try done. exists junk. rewrite fmap_app, <- app_assoc. cbn.
  by rewrite zlen_app.
Qed.

(** ** Nodes *)

(** The nodes built so far refer to one another in the order in which they were
    built: copying them changes nothing. *)
Inductive linked : list rand_smc_node → Z → Prop :=
| linked_nil : linked [] 0
| linked_snoc (nds : list rand_smc_node) (n : rand_smc_node) (k k' : Z) : linked nds k →
    (∀ s, relink nds (norcall n) k s = Ok ((treenodes n, k'), s)) → linked (nds ++ [n]) k'.


Lemma copy_nodes_linked (nds : list rand_smc_node) (k : Z) (old : list rand_smc_node) (s : reader) :
  linked nds k → copy_nodes (nds ++ old) [] 0 s = copy_nodes old nds k s.
Proof.
  intros Hl. revert old. induction Hl as [|nds n k k' Hl IH Hr]; intros old; [done|].
  rewrite <- app_assoc. rewrite IH. cbn [app copy_nodes]. rewrite (bind_Ok _ _ _ _ _ (Hr s)). cbn [fst snd].
  by destruct n.
Qed.

Lemma copy_nodes_id (nds : list rand_smc_node) (k : Z) (s : reader) :
  linked nds k → copy_nodes nds [] 0 s = Ok (nds, s).
Proof. intros Hl. pose proof (copy_nodes_linked nds k [] s Hl) as H. by rewrite app_nil_r in H. Qed.

Fixpoint biasarray_of (bs : list Z) (j : Z) : list Z :=
  match bs with [] => [] | b :: bs' => replicate (Z.to_nat b) j ++ biasarray_of bs' (j + 1) end.

Lemma bias_array_run (bs : list Z) (j : Z) (s : reader) : Forall (λ b, 0 <= b) bs →
  bias_array bs j s = Ok (biasarray_of bs j, s).
Proof.
  intros Hb. revert j. induction Hb as [|b bs Hb _ IH]; intros j; [done|]. cbn [bias_array biasarray_of].
  rewrite (proj2 (Z.ltb_ge b 0)) by lia. by rewrite (bind_Ok _ _ _ _ _ (IH (j + 1))).
Qed.

(** ** What is built *)

Section Built.

(** The names of the calls and their numbers, when all is read *)
Context (NF : nfifo).

Definition entry_of (t : tree) : fentry :=
  match t with
  | TLeaf nm fn b => {| nnfifo := nm; fnamefifo := fn; biasfifo := b; fidfifo := searchnme fn NF |}
  | TNode nm b _ => {| nnfifo := nm; fnamefifo := NONE; biasfifo := b; fidfifo := 0 |}
  end.

Definition node_with (c : list fentry) (subs : list (option rand_smc_node)) : rand_smc_node :=
  Node (biasfifo <$> c) (biasarray_of (biasfifo <$> c) 0) (fnamefifo <$> c) (fidfifo <$> c) subs (calls c)
    (zlen c) (foldr Z.add 0 (biasfifo <$> c)) (nnfifo <$> c).

(** The node of a tree, and of the entries below it *)
Fixpoint sub (t : tree) : option rand_smc_node :=
  match t with
  | TLeaf _ _ _ => None
  | TNode _ _ cs =>
      Some (node_with (entry_of <$> cs)
        ((fix go (l : list tree) : list (option rand_smc_node) :=
            match l with [] => [] | t :: l' => sub t :: go l' end) cs))
  end.
Definition node_of (cs : list tree) : rand_smc_node := node_with (entry_of <$> cs) (sub <$> cs).

Lemma sub_node (nm : name) (b : Z) (cs : list tree) : sub (TNode nm b cs) = Some (node_of cs).
Proof. reflexivity. Qed.

Lemma sub_is_node (t : tree) : sub t = None ↔ is_node t = false.
Proof. by destruct t. Qed.

(** The nodes below a forest that no node refers to yet, taken in order *)
Lemma relink_run (nds : list rand_smc_node) (cs : list tree) (k : Z) (s : reader) :
  forest_ok cs → 0 <= k → (∀ i n, omap sub cs !! i = Some n → zget nds (k + Z.of_nat i) = Some n) →
  relink nds (calls (entry_of <$> cs)) k s = Ok ((sub <$> cs, k + zlen (omap sub cs)), s).
Proof.
  intros Hok. revert k. induction Hok as [|t cs Ht _ IH]; intros k Hk Hn.
  { cbn. by rewrite Z.add_0_r. }
  destruct t as [nm fn b|nm b cs'].
  - destruct Ht as (_ & _ & Hfn & _). cbn [fmap list_fmap entry_of calls fnamefifo].
    rewrite bool_decide_eq_false_2 by done. cbn [relink Z.eqb Pos.eqb].
    rewrite (bind_Ok _ _ _ _ _ (IH k Hk Hn)). done.
  - change (calls (entry_of <$> TNode nm b cs' :: cs)) with (1 :: calls (entry_of <$> cs)). cbn [relink Z.eqb Pos.eqb].
    rewrite fmap_cons, (sub_node nm b cs').
    assert (omap sub (TNode nm b cs' :: cs) = node_of cs' :: omap sub cs) as Ho
      by (cbn [omap list_omap]; by rewrite sub_node).
    rewrite Ho in Hn |- *. pose proof (Hn 0%nat _ eq_refl) as H0. rewrite Z.add_0_r in H0.
    rewrite (bind_Ok _ _ _ _ _ (aget_Ok _ _ _ s H0)).
    rewrite (bind_Ok _ _ _ _ _ (IH (k + 1) ltac:(lia) ltac:(intros i n Hi; rewrite <- Z.add_assoc;
      replace (1 + Z.of_nat i) with (Z.of_nat (S i)) by lia; by apply Hn))).
    replace (k + zlen (node_of cs' :: omap sub cs)) with (k + 1 + zlen (omap sub cs))
      by (unfold zlen; cbn [length]; lia). done.
Qed.

Lemma forest_biases (cs : list tree) : forest_ok cs → Forall (λ b, 0 <= b) (biasfifo <$> (entry_of <$> cs)).
Proof.
  intros Hok. rewrite <- list_fmap_compose. apply Forall_fmap. eapply Forall_impl; [exact Hok|].
  intros [nm fn b|nm b cs'] Ht; cbn; [by destruct Ht as (_ & _ & _ & [? _])|].
  apply tree_ok_node in Ht as (_ & [? _] & _). done.
Qed.

Lemma total_entries (cs : list tree) : foldr Z.add 0 (biasfifo <$> (entry_of <$> cs)) = total cs.
Proof. unfold total. induction cs as [|t cs IH]; [done|]. cbn. rewrite IH. by destruct t. Qed.

Lemma build_node_run (cs : list tree) (s : reader) :
  forest_ok cs → total cs < 2 ^ 31 → linked (ndarray s) (treenodetrack s) → 0 <= treenodetrack s →
  (∀ i n, omap sub cs !! i = Some n → zget (ndarray s) (treenodetrack s + Z.of_nat i) = Some n) →
  build_node (entry_of <$> cs) s
  = Ok (tt, set_nodes s (treenodetrack s + zlen (omap sub cs)) (ndarray s ++ [node_of cs]))
  ∧ linked (ndarray s ++ [node_of cs]) (treenodetrack s + zlen (omap sub cs)).
Proof.
  intros Hok Htot Hl Hk Hn. split.
  - unfold build_node. erewrite bind_Ok by reflexivity. rewrite (bind_Ok _ _ _ _ _ (copy_nodes_id _ _ s Hl)).
    rewrite (bind_Ok _ _ _ _ _ (relink_run _ cs _ s Hok Hk Hn)).
    rewrite (bind_Ok _ _ _ _ _ (bias_array_run _ 0 s (forest_biases cs Hok))).
    unfold node_of, node_with. rewrite total_entries. by rewrite (proj2 (Z.leb_gt _ _) Htot).
  - apply linked_snoc with (treenodetrack s); [done|]. intros s'. by apply relink_run.
Qed.

End Built.

(** ** Where the code is right

    Nodes are taken in the order in which they were completed.  This is the
    right order when, of the nodes below any node, only the first has nodes
    below it. *)

Fixpoint good (t : tree) : Prop :=
  match t with
  | TLeaf _ _ _ => True
  | TNode _ _ cs =>
      (fix go (pend : bool) (l : list tree) : Prop :=
         match l with
         | [] => True
         | t :: l' =>
             match t with TNode _ _ cs' => existsb is_node cs' = true → pend = false | TLeaf _ _ _ => True end
             ∧ good t ∧ go (pend || is_node t) l'
         end) false cs
  end.

Fixpoint good_forest (pend : bool) (l : list tree) : Prop :=
  match l with
  | [] => True
  | t :: l' =>
      match t with TNode _ _ cs' => existsb is_node cs' = true → pend = false | TLeaf _ _ _ => True end
      ∧ good t ∧ good_forest (pend || is_node t) l'
  end.

Lemma good_node (nm : name) (b : Z) (cs : list tree) : good (TNode nm b cs) ↔ good_forest false cs.
Proof. reflexivity. Qed.

(** Without nodes below, nothing is taken. *)
Lemma good_leaves (cs : list tree) (pend : bool) : existsb is_node cs = false → good_forest pend cs.
Proof.
  revert pend. induction cs as [|t cs IH]; intros pend Hex; [done|]. cbn in Hex.
  apply orb_false_iff in Hex as [Ht Hex]. destruct t; [|done]. cbn [good_forest]. split_and!; [done|done|]. by apply IH.
Qed.

Lemma omap_leaves (NF : nfifo) (cs : list tree) : existsb is_node cs = false → omap (sub NF) cs = [].
Proof.
  induction cs as [|t cs IH]; intros Hex; [done|]. cbn in Hex. apply orb_false_iff in Hex as [Ht Hex].
  destruct t; [|done]. cbn. by apply IH.
Qed.

(** ** Reading a tree *)

Section Read_tree.

Context (dt : list Z) (NF : nfifo) (ostr obias ofunc : Z).
Context (Hob : 0 <= obias < 2 ^ 32) (Hof : 0 <= ofunc < 2 ^ 32)
  (Hbias : at_ dt (ostr + obias) (BIAS ++ [0])) (Hfunc : at_ dt (ostr + ofunc) (FUNCTIONNAME ++ [0]))
  (Hsb : 0 < ostr + obias < 2 ^ 32) (Hsf : 0 < ostr + ofunc < 2 ^ 32).

(** What is left of the state apart from the position and the columns *)
Definition view (s : reader) : nfifo * Z * Z * Z * Z * Z * list rand_smc_node * list report :=
  (nf s, leafnode s, fnode s, bias_count s, bintnode s, treenodetrack s, ndarray s, reports s).

Lemma read_word (w p : Z) (s s' : reader) (fuel : nat) :
  at_ dt p (word w) → dtb s = p → 0 <= w < 2 ^ 32 →
  (w = 1 ∧ begin_node dt (set_dtb s (p + 4)) = Ok (tt, s')
   ∨ w = 3 ∧ property dt ostr (set_dtb s (p + 4)) = Ok (tt, s')
   ∨ w = 2 ∧ end_node (set_dtb s (p + 4)) = Ok (tt, s')) →
  read_loop dt ostr (S fuel) s = read_loop dt ostr fuel s'.
Proof.
  intros Hat Hp Hw Hcase. cbn [read_loop]. erewrite bind_Ok by reflexivity. rewrite Hp.
  rewrite (bind_Ok _ _ _ _ _ (rd32_run dt p w s Hat Hw)). erewrite bind_Ok by reflexivity.
  destruct Hcase as [[-> Hr]|[[-> Hr]|[-> Hr]]]; cbn [Z.eqb Pos.eqb].
  - rewrite (bind_Ok _ _ _ _ _ Hr). by do 2 erewrite bind_Ok by reflexivity.
  - erewrite bind_Ok by reflexivity. rewrite (bind_Ok _ _ _ _ _ Hr). by erewrite bind_Ok by reflexivity.
  - do 2 erewrite bind_Ok by reflexivity. by rewrite (bind_Ok _ _ _ _ _ Hr).
Qed.

(** Before an entry of a node: nothing is open, or the node just got its bias. *)
Definition ready (s : reader) (n : nfifo) (track : Z) (nds : list rand_smc_node) (rep : list report) : Prop :=
  view s = (n, 0, 0, 0, 0, track, nds, rep) ∨ view s = (n, 0, 1, 1, 0, track, nds, rep).

Lemma begin_run (s : reader) (p : Z) (nm : name) (cols : list (list fentry)) (kids : list fentry) n track nds rep :
  at_ dt p (str nm) → name_ok nm → dtb s = p → fstate (f3d s) cols kids → ready s n track nds rep →
  ∃ s', begin_node dt s = Ok (tt, s') ∧ dtb s' = p + zlen (str nm)
    ∧ fstate (f3d s') (cols ++ [kids ++ [new_entry nm]]) [] ∧ view s' = (n, 0, 1, 0, 0, track, nds, rep).
Proof.
  intros Hat Hnm Hp Hf Hv. unfold begin_node. erewrite bind_Ok by reflexivity. rewrite Hp.
  rewrite (bind_Ok _ _ _ _ _ (pullstringdt_run dt p nm s (at_str dt p nm Hat) Hnm)). cbn [fst snd].
  erewrite bind_Ok by reflexivity.
  destruct (push_col_run (set_dtb s (p + zlen (str nm))) cols kids nm Hf Hnm) as (f & Hpush & Hf').
  rewrite (bind_Ok _ _ _ _ _ Hpush). erewrite bind_Ok by reflexivity. erewrite bind_Ok by reflexivity.
  erewrite bind_Ok by reflexivity. unfold view in Hv.
  cbn [fnode set_names set_f3d set_dtb bias_count]. destruct Hv as [Hv|Hv]; injection Hv as H1 H2 H3 H4 H5 H6 H7 H8.
  - rewrite H3. cbn [Z.eqb]. eexists. split; [reflexivity|]. split_and!; [done|done|]. unfold view. cbn. congruence.
  - rewrite H3, H4. cbn [Z.eqb Pos.eqb andb]. erewrite bind_Ok by reflexivity. erewrite bind_Ok by reflexivity.
    eexists. split; [reflexivity|]. split_and!; [done|done|]. unfold view. cbn. congruence.
Qed.

Lemma bias_run (s : reader) (p b : Z) (cols : list (list fentry)) (kids : list fentry) (e : fentry) n track nds rep :
  at_ dt p (word 4 ++ word obias ++ word b) → bias_ok b → dtb s = p →
  fstate (f3d s) (cols ++ [kids ++ [e]]) [] → view s = (n, 0, 1, 0, 0, track, nds, rep) →
  ∃ s', property dt ostr s = Ok (tt, s') ∧ dtb s' = p + 12
    ∧ fstate (f3d s') (cols ++ [kids ++ [{| nnfifo := nnfifo e; fnamefifo := fnamefifo e; biasfifo := b;
                                            fidfifo := fidfifo e |}]]) []
    ∧ view s' = (n, 0, 1, 1, 0, track, nds, rep).
Proof.
  intros Hat [Hb0 Hb] Hp Hf Hv. change (2 ^ 31) with 2147483648 in Hb.
  apply at_app in Hat as [_ Hat]. change (zlen (word 4)) with 4 in Hat. apply at_app in Hat as [Ho Hat].
  change (zlen (word obias)) with 4 in Hat. unfold property. erewrite bind_Ok by reflexivity. rewrite Hp.
  rewrite (bind_Ok _ _ _ _ _ (rd32_run dt (p + 4) obias s Ho Hob)). erewrite bind_Ok by reflexivity.
  erewrite bind_Ok by reflexivity. rewrite (Z.mod_small (ostr + obias)) by (split; [apply Z.lt_le_incl|]; apply Hsb).
  rewrite (proj2 (Z.eqb_neq (ostr + obias) 0)) by (clear -Hsb; lia). cbn [negb].
  erewrite bind_Ok; [|apply (pullstringdt_run dt _ BIAS _ Hbias); by repeat constructor]. cbn [fst snd].
  erewrite bind_Ok by reflexivity. set (pn := ostr + obias + _).
  rewrite (bool_decide_eq_true_2 (BIAS = BIAS)) by done. unfold view in Hv. injection Hv as H1 H2 H3 H4 H5 H6 H7 H8.
  set (s1 := set_dtb_pn (set_dtb s (p + 8)) pn). set (s2 := set_dtb s1 (p + 12)).
  destruct (push_run (λ e, {| nnfifo := nnfifo e; fnamefifo := fnamefifo e; biasfifo := s32 b; fidfifo := fidfifo e |})
    s2 cols kids e Hf) as (f & Hpush & Hf').
  erewrite bind_Ok.
  2: { erewrite bind_Ok by reflexivity.
       rewrite (bind_Ok _ _ _ _ _ (rd32_run dt (p + 8) b s1 ltac:(by rewrite <- (Z.add_assoc p 4 4) in Hat)
         ltac:(change (2 ^ 32) with 4294967296; lia))).
       erewrite bind_Ok by reflexivity. replace (dtb s1 + 4) with (p + 12) by (cbn; lia). fold s2.
       erewrite bind_Ok; [|exact Hpush]. erewrite bind_Ok by reflexivity.
       change (bintnode (set_f3d s2 f)) with (bintnode s). rewrite H5. cbn [Z.eqb]. reflexivity. }
  rewrite (bool_decide_eq_false_2 (BIAS = FUNCTIONNAME)) by done. eexists. split; [reflexivity|]. split_and!; [done| |].
  - cbn [f3d set_flags set_f3d]. by rewrite s32_small in Hf' by lia.
  - unfold view. cbn. rewrite ?H1, ?H2, ?H3, ?H4, ?H5, ?H6, ?H7, ?H8. done.
Qed.

Lemma func_run (s : reader) (p x : Z) (fn : name) (cols : list (list fentry)) (kids : list fentry) (e : fentry) n track nds rep :
  at_ dt p (word x ++ word ofunc ++ str fn) → name_ok fn → dtb s = p →
  fstate (f3d s) (cols ++ [kids ++ [e]]) [] → view s = (n, 0, 1, 1, 0, track, nds, rep) →
  ∃ s', property dt ostr s = Ok (tt, s') ∧ dtb s' = p + 8 + zlen (str fn)
    ∧ fstate (f3d s') (cols ++ [kids ++ [{| nnfifo := nnfifo e; fnamefifo := fn; biasfifo := biasfifo e;
                                            fidfifo := searchnme fn (pushnme fn n) |}]]) []
    ∧ view s' = (pushnme fn n, 1, 0, 0, 0, track, nds, rep).
Proof.
  intros Hat Hfn Hp Hf Hv. apply at_app in Hat as [_ Hat]. change (zlen (word x)) with 4 in Hat.
  apply at_app in Hat as [Ho Hat]. change (zlen (word ofunc)) with 4 in Hat. rewrite <- (Z.add_assoc p 4 4) in Hat.
  unfold property. erewrite bind_Ok by reflexivity. rewrite Hp.
  rewrite (bind_Ok _ _ _ _ _ (rd32_run dt (p + 4) ofunc s Ho Hof)). erewrite bind_Ok by reflexivity.
  erewrite bind_Ok by reflexivity. rewrite (Z.mod_small (ostr + ofunc)) by (split; [apply Z.lt_le_incl|]; apply Hsf).
  rewrite (proj2 (Z.eqb_neq (ostr + ofunc) 0)) by (clear -Hsf; lia). cbn [negb].
  erewrite bind_Ok; [|apply (pullstringdt_run dt _ FUNCTIONNAME _ Hfunc); by repeat constructor]. cbn [fst snd].
  erewrite bind_Ok by reflexivity. set (pn := ostr + ofunc + _).
  rewrite (bool_decide_eq_false_2 (FUNCTIONNAME = BIAS)) by done. erewrite bind_Ok by reflexivity.
  rewrite (bool_decide_eq_true_2 (FUNCTIONNAME = FUNCTIONNAME)) by done.
  unfold view in Hv. injection Hv as H1 H2 H3 H4 H5 H6 H7 H8.
  set (s1 := set_dtb_pn (set_dtb s (p + 8)) pn). erewrite bind_Ok by reflexivity.
  rewrite (bind_Ok _ _ _ _ _ (pullstringdt_run dt (p + 8) fn s1 (at_str dt _ fn Hat) Hfn)). cbn [fst snd].
  erewrite bind_Ok by reflexivity. set (s2 := set_dtb s1 _).
  destruct (push_run (λ e, {| nnfifo := nnfifo e; fnamefifo := strlcpy_name fn; biasfifo := biasfifo e; fidfifo := fidfifo e |})
    s2 cols kids e Hf) as (f & Hpush & Hf').
  erewrite bind_Ok; [|exact Hpush]. erewrite bind_Ok by reflexivity. erewrite bind_Ok by reflexivity.
  erewrite bind_Ok by reflexivity. set (s3 := set_names _ _ _).
  destruct (push_run (λ e, {| nnfifo := nnfifo e; fnamefifo := fnamefifo e; biasfifo := biasfifo e;
    fidfifo := searchnme fn (nf s3) |}) s3 cols kids _ Hf') as (f2 & Hpush2 & Hf2).
  erewrite bind_Ok; [|exact Hpush2]. erewrite bind_Ok by reflexivity.
  change (bias_count (set_f3d s3 f2)) with (bias_count s). rewrite H4. cbn [Z.eqb].
  eexists. split; [reflexivity|]. cbn [nnfifo fnamefifo biasfifo] in Hf2. rewrite strlcpy_ok in Hf2 by done.
  assert (nf s3 = pushnme fn n) as Hnf by (cbn; by rewrite H1). rewrite Hnf in Hf2.
  split_and!; [done|exact Hf2|]. unfold view. cbn. rewrite ?H1, ?H5, ?H6, ?H7, ?H8. done.
Qed.

(** A call ends *)
Lemma end_leaf_run (s : reader) (cols : list (list fentry)) (kids : list fentry) (e : fentry) n track nds rep :
  fstate (f3d s) (cols ++ [kids ++ [e]]) [] → view s = (n, 1, 0, 0, 0, track, nds, rep) →
  ∃ s', end_node s = Ok (tt, s') ∧ dtb s' = dtb s ∧ fstate (f3d s') cols (kids ++ [e])
    ∧ view s' = (n, 0, 0, 0, 0, track, nds, rep).
Proof.
  intros (Hcol & (junk & Hrow) & Hf & Hcc) Hv. unfold view in Hv. injection Hv as H1 H2 H3 H4 H5 H6 H7 H8.
  rewrite zlen_app in Hcol, Hcc. change (zlen [kids ++ [e]]) with 1 in *.
  unfold end_node. erewrite bind_Ok by reflexivity. rewrite H3, H4. cbn [Z.ltb Z.compare orb].
  do 3 erewrite bind_Ok by reflexivity. rewrite H2. cbn [Z.eqb Pos.eqb]. erewrite bind_Ok by reflexivity.
  eexists. split; [reflexivity|]. split_and!; [done| |unfold view; cbn; congruence].
  unfold fstate. cbn [f3d set_flags set_f3d col row fifo curr_col]. rewrite Hcol, Z.add_simpl_r, Hf, Hcc.
  split_and!; [done|exists junk; by rewrite Hrow, Hf|]. by destruct kids.
Qed.

(** A node ends: it is built from its entries. *)
Lemma end_node_run (s : reader) (cols : list (list fentry)) (cs : list tree) n track nds rep :
  fstate (f3d s) cols (entry_of NF <$> cs) → full cs → view s = (n, 0, 0, 0, 0, track, nds, rep) →
  forest_ok cs → linked nds track → 0 <= track →
  (∀ i x, omap (sub NF) cs !! i = Some x → zget nds (track + Z.of_nat i) = Some x) →
  ∃ s', end_node s = Ok (tt, s') ∧ dtb s' = dtb s ∧ fifo (f3d s') = cols ∧ col (f3d s') = zlen cols - 1
    ∧ curr_col (f3d s') = zlen cols ∧ (∃ junk, row (f3d s') = (zlen <$> cols) ++ junk)
    ∧ view s' = (n, 0, 0, 0, 0, track + zlen (omap (sub NF) cs), nds ++ [node_of NF cs], rep).
Proof.
  intros (Hcol & (junk & Hrow) & Hk) [Hne Htot] Hv Hok Hl Ht Hpend.
  unfold view in Hv. injection Hv as H1 H2 H3 H4 H5 H6 H7 H8.
  set (kids := entry_of NF <$> cs) in *.
  assert (fifo (f3d s) = cols ++ [kids] ∧ curr_col (f3d s) = zlen cols + 1) as [Hf Hcc] by (by unfold kids in *; destruct cs).
  assert (row (f3d s) = (zlen <$> cols) ++ zlen kids :: junk) as Hr.
  { rewrite Hrow, Hf, fmap_app, <- app_assoc. done. }
  unfold end_node. erewrite bind_Ok by reflexivity. rewrite H3, H4. cbn [Z.ltb Z.compare orb].
  do 3 erewrite bind_Ok by reflexivity. rewrite H2. cbn [Z.eqb Pos.eqb row col fifo curr_col].
  rewrite Hcol, Z.sub_add. set (s1 := set_f3d s _).
  rewrite (bind_Ok _ _ s1 s1 (zlen kids))
    by (apply aget_Ok; rewrite Hr, <- (zlen_fmap zlen cols); apply zget_mid).
  rewrite (bind_Ok _ _ s1 s1 kids) by (apply aget_Ok; rewrite Hf; apply zget_mid).
  rewrite (proj2 (Z.leb_le 0 (zlen kids))), (proj2 (Z.leb_le (zlen kids) (zlen kids))) by (unfold zlen; lia). cbn [andb].
  assert (take (Z.to_nat (zlen kids)) kids = kids) as -> by (apply take_ge; unfold zlen; lia).
  destruct (build_node_run NF cs s1) as [Hb _]; [done|done| | | |].
  { change (linked (ndarray s) (treenodetrack s)). by rewrite H7, H6. }
  { change (0 <= treenodetrack s). by rewrite H6. }
  { change (∀ i x, omap (sub NF) cs !! i = Some x → zget (ndarray s) (treenodetrack s + Z.of_nat i) = Some x).
    by rewrite H7, H6. }
  rewrite (bind_Ok _ _ _ _ _ Hb). erewrite bind_Ok by reflexivity.
  eexists. split; [reflexivity|]. cbn [dtb f3d set_f3d set_nodes fifo col curr_col row].
  assert (take (Z.to_nat (zlen cols)) (fifo (f3d s)) = cols) as Htake.
  { rewrite Hf. unfold zlen. rewrite Nat2Z.id. apply take_app_length. }
  split_and!; [done|done|done|lia| |].
  - exists (zlen kids :: junk). done.
  - unfold view. cbn. congruence.
Qed.

(** The names of the calls, in order *)
Fixpoint fnames (t : tree) : list name :=
  match t with
  | TLeaf _ fn _ => [fn]
  | TNode _ _ cs =>
      (fix go (l : list tree) : list name := match l with [] => [] | t :: l' => fnames t ++ go l' end) cs
  end.
Definition fnames_all (cs : list tree) : list name := concat (fnames <$> cs).

Lemma fnames_node (nm : name) (b : Z) (cs : list tree) : fnames (TNode nm b cs) = fnames_all cs.
Proof. unfold fnames_all. cbn [fnames]. induction cs as [|t cs IH]; [done|]. cbn. by rewrite IH. Qed.

Lemma ntok_node (nm : name) (b : Z) (cs : list tree) : ntok (TNode nm b cs) = (3 + ntoks cs)%nat.
Proof. reflexivity. Qed.

Definition push_all (n : nfifo) (l : list name) : nfifo := foldl (λ n x, pushnme x n) n l.

Lemma push_all_app (n : nfifo) (a b : list name) : push_all n (a ++ b) = push_all (push_all n a) b.
Proof. apply foldl_app. Qed.

Lemma fnames_ok (t : tree) : tree_ok t → Forall name_ok (fnames t).
Proof.
  induction t as [nm fn b|nm b cs IH] using tree_rect_all.
  - intros (_ & Hfn & _). by constructor.
  - rewrite tree_ok_node, fnames_node. intros (_ & _ & _ & Hok). unfold fnames_all.
    induction IH as [|t cs Ht _ IHc]; [constructor|]. apply Forall_cons in Hok as [H1 H2]. cbn.
    apply Forall_app. split; [by apply Ht|by apply IHc].
Qed.

Lemma push_all_extends (n : nfifo) (l : list name) : Forall name_ok l → extends n (push_all n l).
Proof.
  intros Hl. revert n. induction Hl as [|x l Hx _ IH]; intros n; [done|]. cbn.
  etransitivity; [by apply (pushnme_spec x n Hx)|]. apply IH.
Qed.

(** What reading a tree, or a list of them, does.  [P] are the nodes built that
    no node refers to yet. *)
Definition done_reading (s s' : reader) (tok : nat) (p : Z) (cols : list (list fentry)) (kids : list fentry)
    (n : nfifo) (rep : list report) (P : list rand_smc_node) : Prop :=
  ∃ track nds, (∀ fuel, read_loop dt ostr (tok + fuel) s = read_loop dt ostr fuel s') ∧ dtb s' = p
    ∧ fstate (f3d s') cols kids ∧ view s' = (n, 0, 0, 0, 0, track, nds, rep)
    ∧ linked nds track ∧ 0 <= track <= zlen nds ∧ drop (Z.to_nat track) nds = P.

Definition reads (t : tree) : Prop :=
  ∀ p s cols kids n track nds rep P,
    tree_ok t → good t → match t with TNode _ _ cs => existsb is_node cs = true → P = [] | _ => True end →
    at_ dt p (enc obias ofunc t) → dtb s = p → fstate (f3d s) cols kids → ready s n track nds rep →
    extends (push_all n (fnames t)) NF → linked nds track → 0 <= track <= zlen nds → drop (Z.to_nat track) nds = P →
    ∃ s', done_reading s s' (ntok t) (p + zlen (enc obias ofunc t)) cols (kids ++ [entry_of NF t])
            (push_all n (fnames t)) rep (P ++ option_list (sub NF t)).

Lemma reads_leaf (nm fn : name) (b : Z) : reads (TLeaf nm fn b).
Proof.
  intros p s cols kids n track nds rep P (Hnm & Hfn & Hnone & Hb) _ _ Hat Hp Hf Hv Hext Hl [Ht0 Ht1] HP.
  cbn [enc] in Hat. apply at_app in Hat as [A1 Hat]. apply at_app in Hat as [A2 Hat]. apply at_app in Hat as [A3 Hat].
  apply at_app in Hat as [A4 A5]. apply at_app in A3 as [A3 B3]. apply at_app in A4 as [A4 B4].
  change (zlen (word 1)) with 4 in *. change (zlen (word 3)) with 4 in *.
  change (zlen (word 3 ++ word 4 ++ word obias ++ word b)) with 16 in *.
  destruct (begin_run (set_dtb s (p + 4)) (p + 4) nm cols kids n track nds rep A2 Hnm eq_refl Hf Hv)
    as (s1 & R1 & P1 & F1 & V1).
  destruct (bias_run (set_dtb s1 (p + 4 + zlen (str nm) + 4)) _ b cols kids (new_entry nm) n track nds rep B3 Hb eq_refl F1 V1)
    as (s2 & R2 & P2 & F2 & V2).
  destruct (func_run (set_dtb s2 (p + 4 + zlen (str nm) + 16 + 4)) _ _ fn cols kids _ n track nds rep B4 Hfn eq_refl F2 V2)
    as (s3 & R3 & P3 & F3 & V3).
  set (q := p + 4 + zlen (str nm) + 16 + zlen (word 3 ++ word (zlen fn + 1) ++ word ofunc ++ str fn)) in *.
  destruct (end_leaf_run (set_dtb s3 (q + 4)) cols kids _ _ track nds rep F3 V3) as (s4 & R4 & P4 & F4 & V4).
  exists s4, track, nds. split_and!; try done.
  - intros fuel. cbn [ntok Nat.add].
    rewrite (read_word 1 p s s1) by (first [done|by left]).
    rewrite (read_word 3 (p + 4 + zlen (str nm)) s1 s2) by (first [done|right; by left]).
    rewrite (read_word 3 (p + 4 + zlen (str nm) + 16) s2 s3) by (first [done|lia|right; by left]).
    rewrite (read_word 2 q s3 s4); [done|done| |done|by right; right].
    rewrite P3. unfold q. rewrite !zlen_app. change (zlen (word _)) with 4. lia.
  - rewrite P4. cbn [dtb set_dtb]. unfold q. cbn [enc]. rewrite !zlen_app. change (zlen (word _)) with 4. lia.
  - assert (searchnme fn (pushnme fn n) = searchnme fn NF) as Hid.
    { symmetry. apply searchnme_extends; [by apply pushnme_spec|done]. }
    rewrite Hid in F4. cbn [nnfifo fnamefifo biasfifo new_entry] in F4. by rewrite strlcpy_ok in F4.
  - cbn. by rewrite app_nil_r.
Qed.

Lemma reads_forest (cs : list tree) : Forall reads cs → ∀ p s cols kids n track nds rep P,
  forest_ok cs → good_forest (bool_decide (P ≠ [])) cs → cs ≠ [] →
  at_ dt p (enc_all obias ofunc cs) → dtb s = p → fstate (f3d s) cols kids → ready s n track nds rep →
  extends (push_all n (fnames_all cs)) NF → linked nds track → 0 <= track <= zlen nds → drop (Z.to_nat track) nds = P →
  ∃ s', done_reading s s' (ntoks cs) (p + zlen (enc_all obias ofunc cs)) cols (kids ++ (entry_of NF <$> cs))
          (push_all n (fnames_all cs)) rep (P ++ omap (sub NF) cs).
Proof.
  intros Hall. induction Hall as [|t cs Ht Hall IH]; intros p s cols kids n track nds rep P Hok Hgood Hne Hat Hp Hf Hv Hext Hl Htr HP;
    [done|].
  apply Forall_cons in Hok as [Hokt Hok]. cbn [good_forest] in Hgood. destruct Hgood as (Hg1 & Hg2 & Hg3).
  change (enc_all obias ofunc (t :: cs)) with (enc obias ofunc t ++ enc_all obias ofunc cs) in *.
  change (fnames_all (t :: cs)) with (fnames t ++ fnames_all cs) in *. rewrite push_all_app in *.
  apply at_app in Hat as [A1 A2].
  assert (Forall name_ok (fnames_all cs)) as Hnames.
  { unfold fnames_all. clear -Hok. induction Hok as [|t cs Ht _ IH]; [constructor|]. cbn. apply Forall_app.
    split; [by apply fnames_ok|done]. }
  destruct (Ht p s cols kids n track nds rep P) as (s1 & track1 & nds1 & R1 & P1 & F1 & V1 & L1 & [T1 T1'] & D1); try done.
  { destruct t; [done|]. intros Hex. specialize (Hg1 Hex). apply bool_decide_eq_false in Hg1. destruct P; [done|]. by destruct Hg1. }
  { etransitivity; [by apply push_all_extends|exact Hext]. }
  destruct (decide (cs = [])) as [->|Hcs].
  - exists s1, track1, nds1. split_and!; try done.
    + intros fuel. cbn [ntoks foldr]. by rewrite Nat.add_0_r.
    + change (enc_all obias ofunc []) with (@nil Z). by rewrite app_nil_r.
  - destruct (IH (p + zlen (enc obias ofunc t)) s1 cols (kids ++ [entry_of NF t]) (push_all n (fnames t)) track1 nds1 rep
      (P ++ option_list (sub NF t))) as (s2 & track2 & nds2 & R2 & P2 & F2 & V2 & L2 & [T2 T2'] & D2); try done.
    + assert (bool_decide (P ++ option_list (sub NF t) ≠ []) = bool_decide (P ≠ []) || is_node t) as ->; [|done].
      destruct P, t; cbn; done.
    + by left.
    + exists s2, track2, nds2. split_and!; try done.
      * intros fuel. change (ntoks (t :: cs)) with (ntok t + ntoks cs)%nat. by rewrite <- Nat.add_assoc, R1, R2.
      * rewrite P2, zlen_app. lia.
      * by rewrite <- app_assoc in F2.
      * rewrite D2, <- app_assoc. f_equal. cbn. by destruct (sub NF t).
Qed.

(** The nodes that wait to be taken are taken, or there are none to take. *)
Lemma pending_taken (cs : list tree) (P nds : list rand_smc_node) (track : Z) :
  (existsb is_node cs = true → P = []) → 0 <= track <= zlen nds →
  drop (Z.to_nat track) nds = P ++ omap (sub NF) cs →
  (∀ i x, omap (sub NF) cs !! i = Some x → zget nds (track + Z.of_nat i) = Some x)
  ∧ 0 <= track + zlen (omap (sub NF) cs) <= zlen (nds ++ [node_of NF cs])
  ∧ drop (Z.to_nat (track + zlen (omap (sub NF) cs))) (nds ++ [node_of NF cs]) = P ++ [node_of NF cs].
Proof.
  intros HP Ht HD. assert (zlen nds = track + zlen P + zlen (omap (sub NF) cs)) as Hlen.
  { apply (f_equal length) in HD. rewrite length_drop, length_app in HD. unfold zlen in *. lia. }
  rewrite zlen_app. change (zlen [_]) with 1. destruct (existsb is_node cs) eqn:Hex.
  - rewrite (HP eq_refl) in *. cbn [app] in HD. change (zlen []) with 0 in Hlen. split_and!; try (unfold zlen in *; lia).
    + intros i x Hi. rewrite <- HD, lookup_drop in Hi. unfold zget. destruct (Z.ltb_spec (track + Z.of_nat i) 0); [lia|].
      rewrite <- Hi. f_equal. lia.
    + rewrite drop_app_ge by (unfold zlen in *; lia).
      replace (Z.to_nat (track + zlen (omap (sub NF) cs)) - length nds)%nat with 0%nat by (unfold zlen in *; lia). done.
  - rewrite (omap_leaves NF cs Hex) in *. rewrite app_nil_r in HD. change (zlen []) with 0 in *. split_and!; try (unfold zlen in *; lia).
    + intros i x Hi. by rewrite lookup_nil in Hi.
    + rewrite Z.add_0_r, drop_app_le by (unfold zlen in *; lia). by rewrite HD.
Qed.

Lemma reads_node (nm : name) (b : Z) (cs : list tree) : Forall reads cs → reads (TNode nm b cs).
Proof.
  intros Hall p s cols kids n track nds rep P Htok Hgood HP Hat Hp Hf Hv Hext Hl Ht HD.
  apply tree_ok_node in Htok as (Hnm & Hb & Hfull & Hok). pose proof (proj1 Hfull) as Hne. apply good_node in Hgood. rewrite fnames_node in *.
  rewrite enc_node in *. apply at_app in Hat as [A1 Hat]. apply at_app in Hat as [A2 Hat]. apply at_app in Hat as [A3 Hat].
  apply at_app in Hat as [A4 A5]. apply at_app in A3 as [A3 B3].
  change (zlen (word 1)) with 4 in *. change (zlen (word 3)) with 4 in *.
  change (zlen (word 3 ++ word 4 ++ word obias ++ word b)) with 16 in *.
  destruct (begin_run (set_dtb s (p + 4)) (p + 4) nm cols kids n track nds rep A2 Hnm eq_refl Hf Hv)
    as (s1 & R1 & P1 & F1 & V1).
  destruct (bias_run (set_dtb s1 (p + 4 + zlen (str nm) + 4)) _ b cols kids (new_entry nm) n track nds rep B3 Hb eq_refl F1 V1)
    as (s2 & R2 & P2 & F2 & V2).
  set (q := p + 4 + zlen (str nm) + 16) in *.
  assert (dtb s2 = q) as Hq by (rewrite P2; unfold q; lia).
  set (cols' := cols ++ [kids ++ [{| nnfifo := nnfifo (new_entry nm); fnamefifo := fnamefifo (new_entry nm); biasfifo := b;
                                    fidfifo := fidfifo (new_entry nm) |}]]) in *.
  destruct (reads_forest cs Hall q s2 cols' [] n track nds rep P Hok)
    as (s3 & track3 & nds3 & R3 & P3 & F3 & V3 & L3 & T3 & D3); try done.
  { destruct (existsb is_node cs) eqn:Hex; [|by apply good_leaves]. rewrite (HP eq_refl). done. }
  { by right. }
  cbn [app] in F3. destruct (pending_taken cs P nds3 track3 HP T3 D3) as (Hpend & HT & HD').
  destruct (end_node_run (set_dtb s3 (q + zlen (enc_all obias ofunc cs) + 4)) cols' cs _ track3 nds3 rep F3 Hfull V3 Hok L3 ltac:(lia) Hpend)
    as (s4 & R4 & P4 & Ff4 & Fc4 & Fcc4 & Fr4 & V4).
  exists s4, (track3 + zlen (omap (sub NF) cs)), (nds3 ++ [node_of NF cs]).
  destruct (build_node_run NF cs s3) as [_ HL4]; [done|apply Hfull|..].
  { injection V3 as _ _ _ _ _ -> -> _. done. }
  { injection V3 as _ _ _ _ _ -> _ _. lia. }
  { injection V3 as _ _ _ _ _ -> -> _. done. }
  injection V3 as _ _ _ _ _ Ht3 Hn3 _. rewrite Ht3, Hn3 in HL4.
  split_and!; try done; try lia.
  - intros fuel. rewrite ntok_node. change (3 + ntoks cs + fuel)%nat with (S (S (S (ntoks cs + fuel)))).
    rewrite (read_word 1 p s s1) by (first [done|by left]).
    rewrite (read_word 3 (p + 4 + zlen (str nm)) s1 s2) by (first [done|right; by left]).
    rewrite <- Nat.add_succ_r, R3. apply (read_word 2 (q + zlen (enc_all obias ofunc cs))); [done|done|done|by right; right].
  - rewrite P4. cbn [dtb set_dtb]. unfold q. rewrite !zlen_app. change (zlen (word _)) with 4. lia.
  - assert (new_entry nm = {| nnfifo := nm; fnamefifo := NONE; biasfifo := 0; fidfifo := 0 |}) as Hnew
      by (unfold new_entry; by rewrite strlcpy_ok).
    unfold fstate. rewrite Fc4, Fcc4. destruct Fr4 as (junk & ->). unfold cols' in *. rewrite Ff4, Hnew, !zlen_app.
    change (zlen [_]) with 1. split_and!; [lia|by exists junk|]. by destruct kids.
Qed.

Lemma reads_tree (t : tree) : reads t.
Proof. induction t using tree_rect_all; [apply reads_leaf|by apply reads_node]. Qed.

End Read_tree.

(** ** The whole of a device tree *)

(** A device tree: offsets of the structure and strings blocks in its header,
    the two property names in the strings block, and in the structure block the
    root's begin word and empty name, the nodes below the root, the root's end
    word and the last word. *)
Record blocks := { ostruct : Z; ostrings : Z; obias : Z; ofunc : Z }.
Record holds (dt : list Z) (o : blocks) (cs : list tree) : Prop := {
  holds_struct : at_ dt 8 (word (ostruct o));
  holds_strings : at_ dt 12 (word (ostrings o));
  holds_ranges : 0 <= ostruct o < 2 ^ 32 ∧ 0 <= ostrings o < 2 ^ 32 ∧ 0 <= obias o < 2 ^ 32 ∧ 0 <= ofunc o < 2 ^ 32;
  holds_bias : at_ dt (ostrings o + obias o) (BIAS ++ [0]) ∧ 0 < ostrings o + obias o < 2 ^ 32;
  holds_func : at_ dt (ostrings o + ofunc o) (FUNCTIONNAME ++ [0]) ∧ 0 < ostrings o + ofunc o < 2 ^ 32;
  holds_tree : at_ dt (ostruct o + 8) (enc_all (obias o) (ofunc o) cs ++ word 2 ++ word 9);
}.

(** The names of the calls, numbered from 1 in the order in which they are met *)
Definition numbering (cs : list tree) : nfifo := push_all nfifoinit (fnames_all cs).

Lemma read_end (dt : list Z) (ostr p : Z) (s : reader) (fuel : nat) : at_ dt p (word 9) → dtb s = p →
  read_loop dt ostr (S fuel) s = Ok (tt, set_dtb s (p + 4)).
Proof.
  intros Hat Hp. cbn [read_loop]. erewrite bind_Ok by reflexivity. rewrite Hp.
  rewrite (bind_Ok _ _ _ _ _ (rd32_run dt p 9 s Hat ltac:(done))). by do 4 erewrite bind_Ok by reflexivity.
Qed.

Lemma createsmctree_run (dt : list Z) (o : blocks) (cs : list tree) (s : reader) (k : nat) :
  holds dt o cs → forest_ok cs → full cs → good_forest false cs →
  ∃ nds s', createsmctree dt (ntoks cs + 2 + k) s = Ok (nds ++ [node_of (numbering cs) cs], s')
    ∧ reports s' = [] ∧ nf s' = numbering cs.
Proof.
  intros [H1 H2 (R1 & R2 & R3 & R4) (B1 & B2) (F1 & F2) Ht] Hok Hfull Hgood. unfold createsmctree.
  set (ost := ostruct o) in *. set (ostr := ostrings o) in *. set (ob := obias o) in *. set (ofn := ofunc o) in *.
  erewrite bind_Ok by reflexivity.
  rewrite (bind_Ok _ _ _ _ _ (rd32_run dt 8 ost init_reader H1 R1)).
  rewrite (bind_Ok _ _ _ _ _ (rd32_run dt 12 ostr init_reader H2 R2)). erewrite bind_Ok by reflexivity.
  set (s0 := set_dtb init_reader _). apply at_app in Ht as [T1 T2]. apply at_app in T2 as [T2 T3].
  change (zlen (word 2)) with 4 in T3. set (NF := numbering cs).
  destruct (reads_forest dt NF ostr ob ofn cs
      ltac:(apply Forall_forall; intros t _; by apply reads_tree) (ost + 8) s0 [] [] nfifoinit 0 [] [] [])
    as (s1 & track & nds & R & P & F & V & L & T & D); try done; try apply Hfull.
  { split_and!; [done|by exists []|done|done]. }
  { by left. }
  { constructor. }
  set (q := ost + 8 + zlen (enc_all ob ofn cs)) in *.
  destruct (pending_taken NF cs [] nds track ltac:(done) T D) as (Hpend & _ & _).
  destruct (end_node_run NF (set_dtb s1 (q + 4)) [] cs NF track nds [] F Hfull V Hok L ltac:(lia) Hpend)
    as (s2 & E2 & P2 & _ & _ & _ & _ & V2).
  erewrite bind_Ok.
  2: { rewrite <- Nat.add_assoc, R. change (2 + k)%nat with (S (S k)).
       rewrite (read_word dt ostr 2 q s1 s2) by (first [done|by right; right]).
       apply (read_end dt ostr (q + 4) s2 k T3). by rewrite P2. }
  erewrite bind_Ok by reflexivity. unfold view in V2. injection V2 as V21 _ _ _ _ _ V27 V28.
  exists nds, (set_dtb s2 (q + 4 + 4)). unfold mret, M_ret. cbn [ndarray reports nf set_dtb]. by rewrite V27.
Qed.
