(* ===== verification/FuzzTreeRun.v ===== *)
(** * The bias tree: reading it back, and running it

    The nodes [createsmctree()] builds hold the tree that was written, and a
    run makes as many calls as it is asked for, each one reached through biases
    other than 0. *)

From S2P Require Import Prelude Libc Nvm FuzzTree FuzzTreeSpec.

Local Open Scope Z_scope.

(** ** Reading a tree back *)

Fixpoint tree_of (n : rand_smc_node) : list tree :=
  match n with
  | Node bs _ fns _ subs _ _ _ nms =>
      (fix go (subs : list (option rand_smc_node)) (nms fns : list name) (bs : list Z) : list tree :=
         match subs, nms, fns, bs with
         | t :: subs', nm :: nms', fn :: fns', b :: bs' =>
             match t with Some t => TNode nm b (tree_of t) | None => TLeaf nm fn b end :: go subs' nms' fns' bs'
         | _, _, _, _ => []
         end) subs nms fns bs
  end.

Lemma tree_of_node_of (NF : nfifo) (cs : list tree) : tree_of (node_of NF cs) = cs.
Proof.
  assert (∀ t, match t with TNode _ _ cs' => tree_of (node_of NF cs') = cs' | TLeaf _ _ _ => True end) as Hall.
  { intros t. induction t as [|nm b cs' IH] using tree_rect_all; [done|].
    unfold node_of, node_with. cbn [tree_of]. induction IH as [|t cs' Ht _ IHc]; [done|].
    cbn [fmap list_fmap]. rewrite IHc. f_equal. destruct t as [|nm' b' cs'']; [done|].
    rewrite sub_node. cbn [entry_of nnfifo biasfifo]. by rewrite Ht. }
  exact (Hall (TNode [] 0 cs)).
Qed.

(** ** The array of biases *)

Lemma length_biasarray_of (bs : list Z) (j : Z) : Forall (λ b, 0 <= b) bs →
  zlen (biasarray_of bs j) = foldr Z.add 0 bs.
Proof.
  intros Hb. revert j. induction Hb as [|b bs Hb _ IH]; intros j; [done|]. cbn [biasarray_of foldr].
  rewrite zlen_app, IH. unfold zlen. rewrite length_replicate. lia.
Qed.

Lemma biasarray_of_ge (bs : list Z) (j x : Z) : x ∈ biasarray_of bs j → j <= x.
Proof.
  revert j. induction bs as [|b bs IH]; intros j Hx; [by apply elem_of_nil in Hx|]. cbn in Hx.
  apply elem_of_app in Hx as [Hx|Hx]; [apply elem_of_replicate in Hx as [-> _]; lia|]. apply IH in Hx. lia.
Qed.

(** Every entry of the array is a number of an entry with a bias. *)
Lemma biasarray_of_elem (bs : list Z) (j x : Z) : x ∈ biasarray_of bs j →
  ∃ i b, x = j + Z.of_nat i ∧ bs !! i = Some b ∧ 0 < b.
Proof.
  revert j. induction bs as [|b bs IH]; intros j Hx; [by apply elem_of_nil in Hx|]. cbn in Hx.
  apply elem_of_app in Hx as [Hx|Hx].
  - apply elem_of_replicate in Hx as [-> Hb]. exists 0%nat, b. split_and!; [lia|done|lia].
  - apply IH in Hx as (i & b' & -> & Hi & Hb'). exists (S i), b'. split_and!; [lia|done|done].
Qed.

(** The number of places that hold [x] *)
Definition share (l : list Z) (x : Z) : Z := zlen (filter (λ y, y = x) l).

Lemma share_app (l l' : list Z) (x : Z) : share (l ++ l') x = share l x + share l' x.
Proof. unfold share. by rewrite filter_app, zlen_app. Qed.

Lemma share_replicate (n : nat) (y x : Z) : share (replicate n y) x = if decide (y = x) then Z.of_nat n else 0.
Proof.
  unfold share, zlen. induction n as [|n IH]; cbn [replicate]; [by destruct (decide _)|].
  rewrite filter_cons. destruct (decide (y = x)) as [->|]; cbn [length]; lia.
Qed.

Lemma share_none (l : list Z) (x : Z) : x ∉ l → share l x = 0.
Proof.
  unfold share. intros Hx. induction l as [|y l IH]; [done|]. apply not_elem_of_cons in Hx as [Hy Hx].
  rewrite filter_cons, decide_False by done. by apply IH.
Qed.

Lemma share_biasarray_of (bs : list Z) (j : Z) (i : nat) (b : Z) : Forall (λ b, 0 <= b) bs → bs !! i = Some b →
  share (biasarray_of bs j) (j + Z.of_nat i) = b.
Proof.
  intros Hb. revert i j. induction Hb as [|b' bs Hb' Hb IH]; intros i j Hi; [done|]. cbn [biasarray_of].
  rewrite share_app, share_replicate. destruct i as [|i].
  - injection Hi as ->. rewrite decide_True by lia. rewrite share_none; [lia|].
    intros Hin. apply biasarray_of_ge in Hin. lia.
  - rewrite decide_False by lia. replace (j + Z.of_nat (S i)) with (j + 1 + Z.of_nat i) by lia. by rewrite IH.
Qed.

(** ** Walking down *)

(** Trees in which every node that can be reached has an entry to go on to *)
#[warnings="-register-all"] Inductive runnable : list tree → Prop :=
| runnable_intro (cs : list tree) : 0 < total cs →
    (∀ nm b cs', TNode nm b cs' ∈ cs → 0 < b → runnable cs') → runnable cs.

(** The calls that can be reached *)
#[warnings="-register-all"] Inductive reach : list tree → name → Prop :=
| reach_leaf (cs : list tree) (nm fn : name) (b : Z) : TLeaf nm fn b ∈ cs → 0 < b → reach cs fn
| reach_node (cs cs' : list tree) (nm fn : name) (b : Z) : TNode nm b cs' ∈ cs → 0 < b → reach cs' fn → reach cs fn.

Fixpoint height (t : tree) : nat :=
  match t with
  | TLeaf _ _ _ => O
  | TNode _ _ cs =>
      S ((fix go (l : list tree) : nat := match l with [] => O | t :: l' => Nat.max (height t) (go l') end) cs)
  end.
Definition heights (cs : list tree) : nat := S (foldr (λ t n, Nat.max (height t) n) O cs).

Lemma height_node (nm : name) (b : Z) (cs : list tree) : height (TNode nm b cs) = heights cs.
Proof. reflexivity. Qed.

Lemma heights_elem (t : tree) (cs : list tree) : t ∈ cs → (S (height t) ≤ heights cs)%nat.
Proof.
  unfold heights. intros Ht. apply le_n_S. induction Ht as [t cs|t t' cs _ IH]; cbn [foldr]; lia.
Qed.

Lemma rand_nonneg (next : Z) : 0 <= (rand next).1.
Proof. unfold rand. cbn [fst]. apply Z.mod_pos_bound. reflexivity. Qed.

Section Walk.

Context {W : Type} (runtestfunction : Z → M (Z * W) Z) (NF : nfifo).

(** The entry picked at a node *)
Lemma pick (cs : list tree) (r : Z) (s : Z * W) : forest_ok cs → 0 < total cs → 0 <= r →
  ∃ i t, cs !! i = Some t ∧ 0 < bias_of t
    ∧ aget (biasarray (node_of NF cs)) (r mod total cs) s = Ok (Z.of_nat i, s).
Proof.
  intros Hok Htot Hr. pose proof (forest_biases NF cs Hok) as Hb. pose proof (total_entries NF cs) as Hsum.
  pose proof (length_biasarray_of _ 0 Hb) as Hlen. rewrite Hsum in Hlen.
  pose proof (Z.mod_pos_bound r (total cs) Htot) as Hk. cbn [node_of node_with biasarray].
  destruct (zget_is_Some (biasarray_of (biasfifo <$> (entry_of NF <$> cs)) 0) (r mod total cs)) as [x Hx];
    [by rewrite Hlen|].
  assert (x ∈ biasarray_of (biasfifo <$> (entry_of NF <$> cs)) 0) as Hin.
  { unfold zget in Hx. destruct (Z.ltb_spec (r mod total cs) 0); [done|]. by eapply list_elem_of_lookup_2. }
  apply biasarray_of_elem in Hin as (i & b & -> & Hi & Hpos). rewrite <- list_fmap_compose, list_lookup_fmap in Hi.
  destruct (cs !! i) as [t|] eqn:Ht; [|done]. injection Hi as <-. exists i, t. split_and!; [done|by destruct t|].
  by apply aget_Ok.
Qed.

Lemma aget_fmap {A B} (f : A → B) (l : list A) (i : nat) (x : A) (s : Z * W) :
  l !! i = Some x → aget (f <$> l) (Z.of_nat i) s = Ok (f x, s).
Proof.
  intros Hi. apply aget_Ok. unfold zget. destruct (Z.ltb_spec (Z.of_nat i) 0); [lia|].
  by rewrite Nat2Z.id, list_lookup_fmap, Hi.
Qed.

Lemma walk_spec (cs : list tree) : runnable cs → forest_ok cs → ∀ fuel s, (heights cs ≤ fuel)%nat →
  ∃ fn next, reach cs fn
    ∧ walk runtestfunction fuel (node_of NF cs) s = runtestfunction (searchnme fn NF) (next, s.2).
Proof.
  intros Hrun. induction Hrun as [cs Htot _ IH]. intros Hok fuel s Hfuel.
  destruct fuel as [|fuel]; [unfold heights in Hfuel; lia|]. cbn [walk].
  set (s1 := ((rand s.1).2, s.2)). rewrite (bind_Ok _ _ s s1 (rand s.1).1) by reflexivity.
  assert (biasent (node_of NF cs) = total cs) as -> by (apply total_entries).
  rewrite (proj2 (Z.eqb_neq (total cs) 0)) by lia.
  destruct (pick cs (rand s.1).1 s1 Hok Htot (rand_nonneg _)) as (i & t & Hi & Hpos & Hpick).
  rewrite (bind_Ok _ _ _ _ _ Hpick). pose proof (list_elem_of_lookup_2 _ _ _ Hi) as Hin.
  pose proof (proj1 (Forall_forall _ _) Hok t Hin) as Hokt. cbn [node_of node_with norcall snameid treenodes].
  unfold calls. rewrite <- !list_fmap_compose. rewrite (bind_Ok _ _ _ _ _ (aget_fmap _ cs i t s1 Hi)).
  destruct t as [nm fn b|nm b cs']; cbn [compose entry_of fnamefifo bias_of] in *.
  - rewrite bool_decide_eq_false_2 by apply Hokt. cbn [Z.eqb].
    rewrite (bind_Ok _ _ _ _ _ (aget_fmap _ cs i _ s1 Hi)). exists fn, (rand s.1).2.
    split; [by eapply reach_leaf|done].
  - rewrite bool_decide_eq_true_2 by done. cbn [Z.eqb].
    rewrite (bind_Ok _ _ _ _ _ (aget_fmap _ cs i _ s1 Hi)). rewrite sub_node.
    apply tree_ok_node in Hokt as (_ & _ & _ & Hok'). pose proof (heights_elem _ _ Hin) as Hh. rewrite height_node in Hh.
    destruct (IH nm b cs' Hin Hpos Hok' fuel s1 ltac:(lia)) as (fn & next & Hreach & ->).
    exists fn, next. split; [by eapply reach_node|done].
Qed.

(** ** An instance *)

(** [n] calls, each of one that can be reached; it ends early when one does not
    succeed. *)
Inductive runs (cs : list tree) : nat → Z * W → Z → Z * W → Prop :=
| runs_done (s : Z * W) : runs cs O s TEST_RESULT_SUCCESS s
| runs_failed (n : nat) (s s' : Z * W) (fn : name) (next r : Z) : reach cs fn →
    runtestfunction (searchnme fn NF) (next, s.2) = Ok (r, s') → r ≠ TEST_RESULT_SUCCESS →
    runs cs (S n) s TEST_RESULT_FAIL s'
| runs_call (n : nat) (s s' s'' : Z * W) (fn : name) (next r : Z) : reach cs fn →
    runtestfunction (searchnme fn NF) (next, s.2) = Ok (TEST_RESULT_SUCCESS, s') →
    runs cs n s' r s'' → runs cs (S n) s r s''.

(** [runtestfunction()] returns *)
Definition always_returns : Prop := ∀ id s, ∃ r s', runtestfunction id s = Ok (r, s').

Lemma call_loop_spec (cs : list tree) (depth n : nat) : always_returns → runnable cs → forest_ok cs →
  (heights cs ≤ depth)%nat →
  ∀ s, ∃ r s', call_loop runtestfunction depth (node_of NF cs) n s = Ok (r, s') ∧ runs cs n s r s'.
Proof.
  intros Hret Hrun Hok Hd. induction n as [|n IH]; intros s.
  { exists TEST_RESULT_SUCCESS, s. split; [done|constructor]. }
  cbn [call_loop]. destruct (walk_spec cs Hrun Hok depth s Hd) as (fn & next & Hreach & Hw).
  destruct (Hret (searchnme fn NF) (next, s.2)) as (r & s1 & Hr). rewrite Hr in Hw. rewrite (bind_Ok _ _ _ _ _ Hw).
  destruct (Z.eqb_spec r TEST_RESULT_SUCCESS) as [->|Hne]; cbn [negb].
  - destruct (IH s1) as (r & s2 & -> & Hs2). exists r, s2. split; [done|]. by eapply runs_call.
  - exists TEST_RESULT_FAIL, s1. split; [done|]. by eapply runs_failed.
Qed.

End Walk.

(** The results of one instance after the other *)
Inductive session {W} (run : Z → M (Z * W) Z) (NF : nfifo) (cs : list tree) (n : nat) :
    list Z → Z * W → list Z → Z * W → Prop :=
| session_nil (s : Z * W) : session run NF cs n [] s [] s
| session_cons (seed r : Z) (seeds rs : list Z) (s s' s'' : Z * W) :
    runs run NF cs n (srand seed, s.2) r s' → session run NF cs n seeds s' rs s'' →
    session run NF cs n (seed :: seeds) s (r :: rs) s''.

Lemma instances_spec {W} (run : Z → M (Z * W) Z) (NF : nfifo) (cs : list tree) (nds : list rand_smc_node)
    (depth n : nat) (seeds : list Z) :
  always_returns run → runnable cs → forest_ok cs → (heights cs ≤ depth)%nat → ∀ s, ∃ rs s',
    instances (smc_fuzzing_instance run depth (nds ++ [node_of NF cs]) n) seeds s = Ok (rs, s')
    ∧ session run NF cs n seeds s rs s'.
Proof.
  intros Hret Hrun Hok Hd. induction seeds as [|seed seeds IH]; intros s.
  { exists [], s. split; [done|constructor]. }
  destruct (call_loop_spec run NF cs depth n Hret Hrun Hok Hd (srand seed, s.2)) as (r & s1 & Hl & Hr).
  destruct (IH s1) as (rs & s2 & Hi & Hs). exists (r :: rs), s2. split; [|by econstructor]. cbn [instances].
  erewrite bind_Ok; [|unfold smc_fuzzing_instance; do 2 erewrite bind_Ok by reflexivity; rewrite last_snoc; exact Hl].
  by rewrite (bind_Ok _ _ _ _ _ Hi).
Qed.

(** ** A device tree *)

(** A device tree with the strings block after the header and the structure
    block after it *)
Definition flat (cs : list tree) : list Z :=
  (word 0xd00dfeed ++ word 0) ++ word 60 ++ word 40 ++ concat (replicate 6 (word 0))
  ++ (BIAS ++ [0]) ++ (FUNCTIONNAME ++ [0]) ++ ([0; 0] ++ word 1 ++ word 0)
  ++ (enc_all 0 5 cs ++ word 2 ++ word 9).
Definition flat_blocks : blocks := {| ostruct := 60; ostrings := 40; obias := 0; ofunc := 5 |}.

Lemma at_here (l bs r : list Z) (p : Z) : p = zlen l → at_ (l ++ bs ++ r) p bs.
Proof.
  intros ->. split; [unfold zlen; lia|]. intros k c Hk. unfold zget, zlen.
  destruct (Z.ltb_spec (Z.of_nat (length l) + Z.of_nat k) 0); [lia|].
  rewrite lookup_app_r by lia. rewrite lookup_app_l; [|apply lookup_lt_Some in Hk; lia].
  by replace (Z.to_nat (Z.of_nat (length l) + Z.of_nat k) - length l)%nat with k by lia.
Qed.

Lemma flat_holds (cs : list tree) : holds (flat cs) flat_blocks cs.
Proof.
  assert (∀ l bs r p, flat cs = l ++ bs ++ r → p = zlen l → at_ (flat cs) p bs) as Hat
    by (intros l bs r p -> Hp; by apply at_here).
  set (z := concat (replicate 6 (word 0))).
  split; cbn [ostruct ostrings obias ofunc flat_blocks]; [| |done|split; [|done]|split; [|done]|].
  - eapply (Hat (word 0xd00dfeed ++ word 0)); reflexivity.
  - eapply (Hat ((word 0xd00dfeed ++ word 0) ++ word 60)); reflexivity.
  - eapply (Hat ((word 0xd00dfeed ++ word 0) ++ word 60 ++ word 40 ++ z)); reflexivity.
  - eapply (Hat ((word 0xd00dfeed ++ word 0) ++ word 60 ++ word 40 ++ z ++ (BIAS ++ [0]))); reflexivity.
  - eapply (Hat ((word 0xd00dfeed ++ word 0) ++ word 60 ++ word 40 ++ z ++ (BIAS ++ [0]) ++ (FUNCTIONNAME ++ [0])
      ++ ([0; 0] ++ word 1 ++ word 0)) _ []); [by rewrite app_nil_r|reflexivity].
Qed.

Module Demo.

Definition call (c b : Z) : tree := TLeaf [c] [c; c] b.

(** Two nodes, the first with a node below it *)
Definition deep : list tree :=
  [call 97 3; TNode [110] 2 [call 98 0; TNode [109] 5 [call 99 4; call 100 1]]; TNode [111] 0 [call 97 2]].

(** Two nodes, each with a node below it *)
Definition wide : list tree :=
  [TNode [97] 1 [TNode [98] 1 [call 99 1]]; TNode [100] 1 [TNode [101] 1 [call 102 1]]].

(** Every call succeeds and is noted. *)
Definition note (id : Z) : M (Z * list Z) Z := λ s, Ok (TEST_RESULT_SUCCESS, (s.1, s.2 ++ [id])).

Lemma name_ok_1 (c : Z) : 0 < c < 256 → name_ok [c].
Proof. intros Hc. split; [by apply Forall_singleton|done]. Qed.

Lemma call_ok (c b : Z) : 0 < c < 256 → 0 <= b < 2 ^ 31 → tree_ok (call c b).
Proof. intros Hc Hb. split_and!; [by apply name_ok_1|split; [by apply Forall_cons_2, Forall_singleton|done]|done|done]. Qed.

Lemma deep_ok : forest_ok deep ∧ full deep ∧ good_forest false deep.
Proof.
  split_and!; [|by split|cbn; naive_solver].
  repeat first [apply Forall_cons; split|apply Forall_nil_2|apply call_ok|apply tree_ok_node; split_and!
    |apply name_ok_1|split; [done|reflexivity]|done|split; done].
Qed.

Lemma deep_runnable : runnable deep.
Proof.
  constructor; [reflexivity|]. intros nm b cs' Hin Hb.
  apply elem_of_cons in Hin as [Heq|Hin]; [discriminate Heq|].
  apply elem_of_cons in Hin as [[= -> -> ->]|Hin].
  - constructor; [reflexivity|]. intros nm b cs' Hin _. apply elem_of_cons in Hin as [Heq|Hin]; [discriminate Heq|].
    apply list_elem_of_singleton in Hin as [= -> -> ->]. constructor; [reflexivity|]. intros nm b cs' Hin _.
    apply elem_of_cons in Hin as [Heq|Hin]; [discriminate Heq|]. apply list_elem_of_singleton in Hin. discriminate Hin.
  - apply list_elem_of_singleton in Hin as [= -> -> ->]. lia.
Qed.

End Demo.

(** ** Properties *)



(** The tree a run starts from, and what was reported *)
Definition root_tree (r : outcome (list rand_smc_node * reader)) : option (list tree * list report) :=
  match r with
  | Ok (nds, s) => (λ n, (tree_of n, reports s)) <$> last nds
  | Stop _ => None
  end.

(** nodes are taken in the order in which they are completed.  Of two nodes
    below the root that each have a node below them, [a{b{c}} d{e{f}}], the
    first gets what is below the second's node and the second gets the first:
    runs start from [a{f} d{e{b{c}}}].  Nothing is reported. *)
Theorem createsmctree_completion_order :
  root_tree (createsmctree (flat Demo.wide) 40 init_reader)
  = Some ([TNode [97] 1 [Demo.call 102 1]; TNode [100] 1 [TNode [101] 1 [TNode [98] 1 [Demo.call 99 1]]]], []).
Proof. vm_compute. reflexivity. Qed.



(** an entry of a node is chosen with its bias: [biasarray] has one place
    for each unit of bias, so that a drawn number modulo [biasent] falls on
    entry [i] for exactly as many remainders as its bias says. *)
Theorem bias_array_shares (bs : list Z) (s : reader) : Forall (λ b, 0 <= b) bs →
  ∃ arr, bias_array bs 0 s = Ok (arr, s) ∧ zlen arr = foldr Z.add 0 bs
    ∧ ∀ (i : nat) b, bs !! i = Some b → share arr (Z.of_nat i) = b.
Proof.
  intros Hb. exists (biasarray_of bs 0). split_and!; [by apply bias_array_run|by apply length_biasarray_of|].
  intros i b Hi. by apply (share_biasarray_of bs 0 i b Hb).
Qed.

Lemma bias_array_shares_witness :
  ∃ arr, bias_array [2; 5; 7] 0 init_reader = Ok (arr, init_reader) ∧ zlen arr = 14
    ∧ ∀ (i : nat) b, [2; 5; 7] !! i = Some b → share arr (Z.of_nat i) = b.
Proof. apply (bias_array_shares [2; 5; 7] init_reader). repeat (constructor; [lia|]). constructor. Defined.

(** The array of the comment in [smc_fuzzing_instance()] *)
Example bias_array_2_5_7 : biasarray_of [2; 5; 7] 0 = [0; 0; 1; 1; 1; 1; 1; 2; 2; 2; 2; 2; 2; 2].
Proof. reflexivity. Qed.
