(* ===== verification/Pcie.v ===== *)
(** * PCIe: configuration space, enumeration and the table of devices
    (lib/pcie/pcie.c and pcie_dvsec_rmeda.c)

    The state is the static variables of pcie.c and a device, on which the
    accesses to the configuration space act; the device and the two functions
    of the platform port are parameters. *)

From S2P Require Import Prelude.

Local Open Scope Z_scope.

(** ** Constants (pcie.h, pcie_spec.h, plat_pcie_enum.h, pcie_dvsec_rmeda.h) *)

Definition MAX_PCIE_INFO_ENTRIES : Z := 5.
Definition PCIE_DEVICES_MAX : Z := 128.
Definition PCIE_DEV_CFLAG_DOE : Z := Z.shiftl 1 0.
Definition PCIE_DEV_CFLAG_IDE : Z := Z.shiftl 1 1.
Definition PCIE_DEV_CFLAG_DVSEC_RMEDA : Z := Z.shiftl 1 3.
Definition PCIE_EXTRACT_BDF_SEG (bdf : Z) : Z := Z.land (Z.shiftr bdf 16) 0xFF.
Definition PCIE_EXTRACT_BDF_BUS (bdf : Z) : Z := Z.land (Z.shiftr bdf 8) 0xFF.
Definition PCIE_EXTRACT_BDF_DEV (bdf : Z) : Z := Z.land (Z.shiftr bdf 3) 0x1F.
Definition PCIE_EXTRACT_BDF_FUNC (bdf : Z) : Z := Z.land bdf 0x7.
Definition PCIE_CFG_SIZE : Z := 4096.
Definition PCIE_MAX_BUS : Z := 256.
Definition PCIE_MAX_DEV : Z := 32.
Definition PCIE_MAX_FUNC : Z := 8.
Definition PCIE_CREATE_BDF (Seg Bus Dev Func : Z) : Z :=
  Z.lor (Z.lor (Z.lor (u32 (Z.shiftl Seg 16)) (u32 (Z.shiftl Bus 8))) (u32 (Z.shiftl Dev 3))) Func.
Definition PCIE_UNKNOWN_RESPONSE : Z := 0xFFFFFFFF.
Definition PCIE_CAP : Z := 1.
Definition PCIE_ECAP : Z := 2.
Definition CC_SUB_MASK : Z := 0xFF.
Definition CC_BASE_MASK : Z := 0xFF.
Definition CC_SUB_SHIFT : Z := 16.
Definition CC_BASE_SHIFT : Z := 24.

Definition TYPE0_HEADER : Z := 0.
Definition TYPE1_HEADER : Z := 1.
Definition TYPE01_VIDR : Z := 0x0.
Definition TYPE01_RIDR : Z := 0x8.
Definition TYPE01_CLSR : Z := 0xc.
Definition TYPE01_CPR : Z := 0x34.
Definition TYPE01_CPR_MASK : Z := 0xff.
Definition TYPE01_HTR_SHIFT : Z := 16.
Definition TYPE01_HTR_MASK : Z := 0xff.
Definition HB_BASE_CLASS : Z := 0x06.
Definition HB_SUB_CLASS : Z := 0x00.
Definition HTR_HL_SHIFT : Z := 0x0.
Definition HTR_HL_MASK : Z := 0x7f.
Definition BAR0_OFFSET : Z := 0x10.
Definition BAR_64_BIT : Z := 0x1.
Definition BAR_32_BIT : Z := 0x0.
Definition BAR_TYPE (bar_reg_value : Z) : Z := Z.land bar_reg_value 0x1.
Definition BAR_REG (bar_reg_value : Z) : Z := Z.land (Z.shiftr bar_reg_value 2) 0x1.
Definition TYPE1_PBN : Z := 0x18.
Definition SECBN_SHIFT : Z := 8.
Definition SUBBN_SHIFT : Z := 16.
Definition SECBN_MASK : Z := 0xff.
Definition SUBBN_MASK : Z := 0xff.
Definition PCIE_NCPR_SHIFT : Z := 8.
Definition PCIE_ECAP_NCPR_SHIFT : Z := 20.
Definition PCIE_CIDR_MASK : Z := 0xff.
Definition PCIE_NCPR_MASK : Z := 0xff.
Definition PCIE_ECAP_CIDR_MASK : Z := 0xffff.
Definition PCIE_ECAP_NCPR_MASK : Z := 0xfff.
Definition PCIE_ECAP_START : Z := 0x100.
Definition PCIE_ECAP_END : Z := 0xFFC.
Definition CID_PCIECS : Z := 0x10.
Definition ECID_DVSEC : Z := 0x0023.
Definition ECID_DOE : Z := 0x002E.
Definition ECID_IDE : Z := 0x0030.
Definition CIDR_OFFSET : Z := 0x0.
Definition PCIECR_OFFSET : Z := 0x2.
Definition PCIECR_DPT_SHIFT : Z := 4.
Definition PCIECR_DPT_MASK : Z := 0xf.
Definition RCiEP : Z := Z.shiftl 1 9.
Definition RCEC : Z := Z.shiftl 1 10.
Definition EP : Z := Z.shiftl 1 0.
Definition RP : Z := Z.shiftl 1 4.
Definition iEP_EP : Z := Z.shiftl 1 12.
Definition iEP_RP : Z := Z.shiftl 1 11.

Definition HEADER_OFFSET : Z := 0xC.
Definition BUS_NUM_REG_OFFSET : Z := 0x18.
Definition TYPE1_BAR_MAX_OFF : Z := 0x14.
Definition TYPE0_BAR_MAX_OFF : Z := 0x24.
Definition BAR_MEM_SPACE : Z := 0.
Definition MEM_BASE32_LIM_MASK : Z := 0xFFF00000.
Definition MEM_BASE64_LIM_MASK : Z := 0xFFFFFFFFFFF00000.
Definition NON_PRE_FET_OFFSET : Z := 0x20.
Definition PRE_FET_OFFSET : Z := 0x24.
Definition BAR_INCREMENT : Z := 0x100000.
Definition PRI_BUS_CLEAR_MASK : Z := 0xFFFFFF00.
Definition COMMAND_REG_OFFSET : Z := 0x04.
Definition REG_ACC_DATA : Z := 0x7.
Definition SERR_ENABLE : Z := 0x10.
Definition BAR_MASK : Z := 0xFFFFFFF0.
Definition PCIE_HEADER_TYPE (header_value : Z) : Z := Z.land (Z.shiftr header_value 16) 0x3.
Definition BUS_NUM_REG_CFG (sub_bus sec_bus bus : Z) : Z :=
  Z.lor (Z.lor (u32 (Z.shiftl sub_bus 16)) (u32 (Z.shiftl sec_bus 8))) bus.
Definition REG_MASK_SHIFT (bar_value : Z) : Z := Z.shiftr (Z.land bar_value MEM_BASE32_LIM_MASK) 16.

Definition PCIE_ECAP_DVSEC_HDR1_OFFSET : Z := 4.
Definition PCIE_ECAP_DVSEC_HDR2_OFFSET : Z := 8.
Definition DVSEC_VENDOR_ID_ARM : Z := 0x13b5.
Definition DVSEC_REVISION_0 : Z := 0x0.
Definition DVSEC_ID_RME_DA : Z := 0xFF01.

(** [EXTRACT(field, reg)] of a field at [shift] of [width] bits *)
Definition EXTRACT_field (shift width reg : Z) : Z :=
  Z.shiftr (Z.land reg (Z.shiftl (Z.ones width) shift)) shift.

(** ** Data (pcie.h) *)

Record pcie_info_block := {
  ecam_base : Z;
  segment_num : Z;
  start_bus_num : Z;
  end_bus_num : Z;
}.

Record pcie_info_table := {
  info_entries : Z;
  block : list pcie_info_block;
}.

(** [rp_dev] is an index into the table of devices. *)
Record pcie_dev := {
  bdf : Z;
  rp_dev : option Z;
  cflags : Z;
  doe_cap_base : Z;
  ide_cap_base : Z;
  dvsec_rmeda_cap_base : Z;
  dp_type : Z;
  dev_ecam_base : Z;
}.

Definition no_dev : pcie_dev :=
  {| bdf := 0; rp_dev := None; cflags := 0; doe_cap_base := 0; ide_cap_base := 0;
     dvsec_rmeda_cap_base := 0; dp_type := 0; dev_ecam_base := 0 |}.

(** The variables that hold the next addresses *)
Record bar_vars := {
  g_bar64_p_start : Z;
  g_rp_bar64_value : Z;
  g_bar64_p_max : Z;
  g_64_bus : Z;
  g_bar64_size : Z;
  g_bar32_np_start : Z;
  g_bar32_p_start : Z;
  g_rp_bar32_value : Z;
  g_bar32_np_max : Z;
  g_bar32_p_max : Z;
  g_np_bar_size : Z;
  g_p_bar_size : Z;
  g_np_bus : Z;
  g_p_bus : Z;
}.

(** The device: 32-bit accesses to its memory *)
Class PcieHw (D : Type) := {
  cfg_read_32 : Z → M D Z;
  cfg_write_32 : Z → Z → M D unit;
}.

(** The platform port: the table, and the result of
    [plat_pcie_get_bar_config()] with the five values it sets *)
Class PciePlat := {
  plat_pcie_get_info_table : option pcie_info_table;
  plat_pcie_get_bar_config : Z * (Z * Z * Z * Z * Z);
}.

Section Driver.

Context {D : Type} `{PcieHw D} `{PciePlat}.

(** How often the loops over the capabilities of a function may go round *)
Context (cap_fuel : nat).

Record pcie := {
  hw : D;
  g_pcie_info_table : option pcie_info_table;
  g_pcie_bdf_table : bool;
  num_entries : Z;
  device : list pcie_dev;
  g_pcie_index : Z;
  bars : bar_vars;
  is_init : bool;
}.

Definition set_hw (s : pcie) (d : D) : pcie :=
  {| hw := d; g_pcie_info_table := g_pcie_info_table s; g_pcie_bdf_table := g_pcie_bdf_table s;
     num_entries := num_entries s; device := device s; g_pcie_index := g_pcie_index s; bars := bars s;
     is_init := is_init s |}.
Definition set_info (s : pcie) (t : option pcie_info_table) (i : Z) : pcie :=
  {| hw := hw s; g_pcie_info_table := t; g_pcie_bdf_table := g_pcie_bdf_table s;
     num_entries := num_entries s; device := device s; g_pcie_index := i; bars := bars s;
     is_init := is_init s |}.
Definition set_table (s : pcie) (p : bool) (n : Z) (l : list pcie_dev) : pcie :=
  {| hw := hw s; g_pcie_info_table := g_pcie_info_table s; g_pcie_bdf_table := p;
     num_entries := n; device := l; g_pcie_index := g_pcie_index s; bars := bars s; is_init := is_init s |}.
Definition set_bars (s : pcie) (b : bar_vars) : pcie :=
  {| hw := hw s; g_pcie_info_table := g_pcie_info_table s; g_pcie_bdf_table := g_pcie_bdf_table s;
     num_entries := num_entries s; device := device s; g_pcie_index := g_pcie_index s; bars := b;
     is_init := is_init s |}.
Definition set_init (s : pcie) : pcie :=
  {| hw := hw s; g_pcie_info_table := g_pcie_info_table s; g_pcie_bdf_table := g_pcie_bdf_table s;
     num_entries := num_entries s; device := device s; g_pcie_index := g_pcie_index s; bars := bars s;
     is_init := true |}.

Abbreviation P := (M pcie).

(** ** Loops *)

(** [for (i = lo; i < lo + n; i++)] with the variables the body changes *)
Fixpoint for_loop {S A} (n : nat) (i : Z) (body : Z → A → M S A) (acc : A) : M S A :=
  match n with
  | O => mret acc
  | S n' => acc ← body i acc; for_loop n' (i + 1) body acc
  end.

(** The loops over the devices and functions of a bus *)
Definition each_function {S A} (body : Z → Z → A → M S A) (acc : A) : M S A :=
  for_loop (Z.to_nat PCIE_MAX_DEV) 0 (λ dev acc,
    for_loop (Z.to_nat PCIE_MAX_FUNC) 0 (λ func acc, body dev func acc) acc) acc.

(** ** The configuration space *)

Definition info : P pcie_info_table :=
  s ← get;
  match g_pcie_info_table s with Some t => mret t | None => fail AssertFail end.

Fixpoint find_ecam (t : pcie_info_table) (bus segment : Z) (n : nat) (i : Z) : P Z :=
  match n with
  | O => mret 0
  | S n' =>
      b ← aget (block t) i;
      if (start_bus_num b <=? bus) && (bus <=? end_bus_num b) && (segment =? segment_num b)
      then mret (ecam_base b)
      else find_ecam t bus segment n' (i + 1)
  end.

Definition pcie_cfg_addr (bdf : Z) : P Z :=
  let bus := PCIE_EXTRACT_BDF_BUS bdf in
  let dev := PCIE_EXTRACT_BDF_DEV bdf in
  let func := PCIE_EXTRACT_BDF_FUNC bdf in
  let segment := PCIE_EXTRACT_BDF_SEG bdf in
  assert_ ((bus <? PCIE_MAX_BUS) && (dev <? PCIE_MAX_DEV) && (func <? PCIE_MAX_FUNC));;
  t ← info;
  base ← find_ecam t bus segment (Z.to_nat (info_entries t)) 0;
  assert_ (negb (base =? 0));;
  let cfg_addr := u32 (bus * PCIE_MAX_DEV * PCIE_MAX_FUNC * PCIE_CFG_SIZE
                       + dev * PCIE_MAX_FUNC * PCIE_CFG_SIZE + func * PCIE_CFG_SIZE) in
  mret (u64 (base + cfg_addr)).

Definition on_hw {A} (m : M D A) : P A := λ s,
  match m (hw s) with
  | Ok (a, d) => Ok (a, set_hw s d)
  | Stop w => Stop w
  end.

Definition pcie_read_cfg (bdf offset : Z) : P Z :=
  addr ← pcie_cfg_addr bdf;
  on_hw (cfg_read_32 (u64 (addr + offset))).

Definition pcie_write_cfg (bdf offset data : Z) : P unit :=
  addr ← pcie_cfg_addr bdf;
  on_hw (cfg_write_32 (u64 (addr + offset)) data).

Definition host_bridge_class (reg_value : Z) : bool :=
  (HB_BASE_CLASS =? Z.land (Z.shiftr reg_value CC_BASE_SHIFT) CC_BASE_MASK)
  && (HB_SUB_CLASS =? Z.land (Z.shiftr reg_value CC_SUB_SHIFT) CC_SUB_MASK).

Definition pcie_is_host_bridge (bdf : Z) : P bool :=
  reg_value ← pcie_read_cfg bdf TYPE01_RIDR;
  mret (host_bridge_class reg_value).

(** ** Capabilities *)

(** The loop of [pcie_find_capability()], with the masks and the shift of one
    of the two lists *)
Fixpoint cap_loop (bdf cid idmask shift nmask : Z) (fuel : nat) (next_cap_offset : Z) : P (option Z) :=
  if next_cap_offset =? 0 then mret None
  else match fuel with
  | O => fail FuelOut
  | S fuel' =>
      reg_value ← pcie_read_cfg bdf next_cap_offset;
      if Z.land reg_value idmask =? cid then mret (Some next_cap_offset)
      else cap_loop bdf cid idmask shift nmask fuel' (Z.land (Z.shiftr reg_value shift) nmask)
  end.

(** [None] is [PCIE_CAP_NOT_FOUND]. *)
Definition pcie_find_capability (bdf cid_type cid : Z) : P (option Z) :=
  if cid_type =? PCIE_CAP then
    reg_value ← pcie_read_cfg bdf TYPE01_CPR;
    cap_loop bdf cid PCIE_CIDR_MASK PCIE_NCPR_SHIFT PCIE_NCPR_MASK cap_fuel (Z.land reg_value TYPE01_CPR_MASK)
  else if cid_type =? PCIE_ECAP then
    cap_loop bdf cid PCIE_ECAP_CIDR_MASK PCIE_ECAP_NCPR_SHIFT PCIE_ECAP_NCPR_MASK cap_fuel PCIE_ECAP_START
  else mret None.

Definition is_dvsec_arm_rmeda (rp_bdf dvsec_base : Z) : P bool :=
  hdr1 ← pcie_read_cfg rp_bdf (u32 (dvsec_base + PCIE_ECAP_DVSEC_HDR1_OFFSET));
  hdr2 ← pcie_read_cfg rp_bdf (u32 (dvsec_base + PCIE_ECAP_DVSEC_HDR2_OFFSET));
  mret ((EXTRACT_field 0 16 hdr1 =? DVSEC_VENDOR_ID_ARM) && (EXTRACT_field 16 4 hdr1 =? DVSEC_REVISION_0)
        && (EXTRACT_field 0 16 hdr2 =? DVSEC_ID_RME_DA)).

Fixpoint rmeda_loop (rp_bdf : Z) (fuel : nat) (dvsec_offset : Z) : P (option Z) :=
  match fuel with
  | O => fail FuelOut
  | S fuel' =>
      assert_ (dvsec_offset + 4 <? 4096);;
      ech ← pcie_read_cfg rp_bdf dvsec_offset;
      found ← (if EXTRACT_field 0 16 ech =? ECID_DVSEC then is_dvsec_arm_rmeda rp_bdf dvsec_offset
               else mret false);
      if found : bool then mret (Some dvsec_offset)
      else
        let next_cap_offset := EXTRACT_field 20 12 ech in
        let dvsec_offset := u32 (dvsec_offset + next_cap_offset) in
        if negb (next_cap_offset =? 0) && (dvsec_offset <? PCIE_ECAP_END)
        then rmeda_loop rp_bdf fuel' dvsec_offset
        else mret None
  end.

Definition pcie_find_rmeda_capability (rp_bdf : Z) : P (option Z) :=
  rmeda_loop rp_bdf cap_fuel PCIE_ECAP_START.

(** ** The table of devices *)

Definition pcie_check_device_valid (bdf : Z) : bool := true.
Definition pcie_is_onchip_peripheral (bdf : Z) : bool := false.

(** Without a PCI Express capability [pciecs_base] is not set. *)
Definition pcie_device_port_type (bdf : Z) : P Z :=
  cap ← pcie_find_capability bdf PCIE_CAP CID_PCIECS;
  match cap with
  | None => fail Undefined
  | Some pciecs_base =>
      reg_value ← pcie_read_cfg bdf (u32 (pciecs_base + CIDR_OFFSET));
      let dp := Z.land (Z.shiftr reg_value ((PCIECR_OFFSET - CIDR_OFFSET) * 8 + PCIECR_DPT_SHIFT))
                  PCIECR_DPT_MASK in
      let dp := Z.shiftl 1 dp in
      mret (if pcie_is_onchip_peripheral bdf then
              if dp =? EP then iEP_EP else if dp =? RP then iEP_RP else dp
            else dp)
  end.

Definition bdf_table : P unit := s ← get; assert_ (g_pcie_bdf_table s).

Fixpoint rootport_loop (bdf_ : Z) (n : nat) (index : Z) : P (option Z) :=
  match n with
  | O => mret None
  | S n' =>
      s ← get;
      d ← aget (device s) index;
      let rp_bdf := bdf d in
      reg_value ← pcie_read_cfg rp_bdf TYPE1_PBN;
      let seg_num := PCIE_EXTRACT_BDF_SEG rp_bdf in
      let sec_bus := Z.land (Z.shiftr reg_value SECBN_SHIFT) SECBN_MASK in
      let sub_bus := Z.land (Z.shiftr reg_value SUBBN_SHIFT) SUBBN_MASK in
      t ← pcie_device_port_type rp_bdf;
      if ((t =? RP) || (t =? iEP_RP)) && (sec_bus <=? PCIE_EXTRACT_BDF_BUS bdf_)
         && (PCIE_EXTRACT_BDF_BUS bdf_ <=? sub_bus) && (seg_num =? PCIE_EXTRACT_BDF_SEG bdf_)
      then mret (Some index)
      else rootport_loop bdf_ n' (index + 1)
  end.

Definition pcie_get_rootport (bdf_ : Z) : P (option Z) :=
  t ← pcie_device_port_type bdf_;
  if (t =? RP) || (t =? iEP_RP) then mret None
  else if (t =? RCiEP) || (t =? RCEC) then mret None
  else
    bdf_table;;
    s ← get;
    rootport_loop bdf_ (Z.to_nat (num_entries s)) 0.

Definition get_dev (i : Z) : P pcie_dev := s ← get; aget (device s) i.
Definition put_dev (i : Z) (d : pcie_dev) : P unit :=
  s ← get;
  l ← aset (device s) i d;
  put (set_table s (g_pcie_bdf_table s) (num_entries s) l).

Definition pcie_populate_device_rootport : P Z :=
  bdf_table;;
  s ← get;
  for_loop (Z.to_nat (num_entries s)) 0 (λ tbl_index _,
    d ← get_dev tbl_index;
    rp ← pcie_get_rootport (bdf d);
    d ← get_dev tbl_index;
    put_dev tbl_index
      {| bdf := bdf d; rp_dev := rp; cflags := cflags d; doe_cap_base := doe_cap_base d;
         ide_cap_base := ide_cap_base d; dvsec_rmeda_cap_base := dvsec_rmeda_cap_base d;
         dp_type := dp_type d; dev_ecam_base := dev_ecam_base d |}) tt;;
  mret 0.

Definition pcie_function_header_type (bdf : Z) : P Z :=
  reg_value ← pcie_read_cfg bdf TYPE01_CLSR;
  let reg_value := Z.land (Z.shiftr reg_value TYPE01_HTR_SHIFT) TYPE01_HTR_MASK in
  mret (Z.land (Z.shiftr reg_value HTR_HL_SHIFT) HTR_HL_MASK).

Fixpoint ecam_base_loop (bdf seg_num : Z) (t : pcie_info_table) (n : nat) (ecam_index : Z) : P Z :=
  match n with
  | O => mret 0
  | S n' =>
      b ← aget (block t) ecam_index;
      if seg_num =? segment_num b then
        h ← pcie_function_header_type bdf;
        if h =? TYPE0_HEADER then mret (ecam_base b)
        else
          reg_value ← pcie_read_cfg bdf TYPE1_PBN;
          let sec_bus := Z.land (Z.shiftr reg_value SECBN_SHIFT) SECBN_MASK in
          let sub_bus := Z.land (Z.shiftr reg_value SUBBN_SHIFT) SUBBN_MASK in
          if (start_bus_num b <=? sec_bus) && (sub_bus <=? end_bus_num b) then mret (ecam_base b)
          else ecam_base_loop bdf seg_num t n' (ecam_index + 1)
      else ecam_base_loop bdf seg_num t n' (ecam_index + 1)
  end.

Definition pcie_get_ecam_base (bdf : Z) : P Z :=
  t ← info;
  ecam_base_loop bdf (PCIE_EXTRACT_BDF_SEG bdf) t (Z.to_nat (info_entries t)) 0.

Definition init_fields (i : Z) : P unit :=
  d ← get_dev i;
  let b := bdf d in
  t ← pcie_device_port_type b;
  e ← pcie_get_ecam_base b;
  doe ← pcie_find_capability b PCIE_ECAP ECID_DOE;
  ide ← pcie_find_capability b PCIE_ECAP ECID_IDE;
  rmeda ← (if t =? RP then pcie_find_rmeda_capability b else mret None);
  let flag (c : option Z) (bit flags : Z) := match c with Some _ => Z.lor flags bit | None => flags end in
  let base (c : option Z) (old : Z) := match c with Some x => x | None => old end in
  d ← get_dev i;
  put_dev i
    {| bdf := bdf d; rp_dev := rp_dev d;
       cflags := flag rmeda PCIE_DEV_CFLAG_DVSEC_RMEDA
                   (flag ide PCIE_DEV_CFLAG_IDE (flag doe PCIE_DEV_CFLAG_DOE (cflags d)));
       doe_cap_base := base doe (doe_cap_base d); ide_cap_base := base ide (ide_cap_base d);
       dvsec_rmeda_cap_base := base rmeda (dvsec_rmeda_cap_base d); dp_type := t; dev_ecam_base := e |}.

Definition pcie_devices_init_fields : P unit :=
  bdf_table;;
  s ← get;
  for_loop (Z.to_nat (num_entries s)) 0 (λ i _, init_fields i) tt.

(** One function of a bus: it is added to the table if it answers, is not a
    host bridge and has a PCI Express capability. *)
Definition probe_function (b : Z) : P unit :=
  reg_value ← pcie_read_cfg b TYPE01_VIDR;
  if reg_value =? PCIE_UNKNOWN_RESPONSE then mret tt
  else
    host ← pcie_is_host_bridge b;
    if host : bool then mret tt
    else
      cap ← pcie_find_capability b PCIE_CAP CID_PCIECS;
      match cap with
      | None => mret tt
      | Some _ =>
          if pcie_check_device_valid b then
            s ← get;
            let n := num_entries s in
            d ← get_dev n;
            l ← aset (device s) n
                  {| bdf := b; rp_dev := rp_dev d; cflags := cflags d; doe_cap_base := doe_cap_base d;
                     ide_cap_base := ide_cap_base d; dvsec_rmeda_cap_base := dvsec_rmeda_cap_base d;
                     dp_type := dp_type d; dev_ecam_base := dev_ecam_base d |};
            put (set_table s (g_pcie_bdf_table s) (u32 (n + 1)) l);;
            assert_ (u32 (n + 1) <? PCIE_DEVICES_MAX)
          else mret tt
      end.

Definition probe_bus (seg_num bus_index : Z) : P unit :=
  each_function (λ dev_index func_index _,
    probe_function (PCIE_CREATE_BDF seg_num bus_index dev_index func_index)) tt.

Definition pcie_create_device_bdf_table : P unit :=
  bdf_table;;
  s ← get;
  put (set_table s (g_pcie_bdf_table s) 0 (device s));;
  t ← info;
  assert_ (negb (info_entries t =? 0));;
  for_loop (Z.to_nat (info_entries t)) 0 (λ ecam_index _,
    b ← aget (block t) ecam_index;
    for_loop (Z.to_nat (end_bus_num b - start_bus_num b + 1)) (start_bus_num b)
      (λ bus_index _, probe_bus (segment_num b) bus_index) tt) tt;;
  pcie_populate_device_rootport;;
  pcie_devices_init_fields.

(** What [pcie_print_device_info()] prints is left out. *)
Definition pcie_create_info_table : P unit :=
  s ← get;
  put (set_table s true (num_entries s) (device s));;
  s ← get;
  match g_pcie_info_table s with
  | None => fail OutOfBounds
  | Some t =>
      if (info_entries t =? 0) || (MAX_PCIE_INFO_ENTRIES <? info_entries t) then fail PanicCall
      else pcie_create_device_bdf_table
  end.

(** ** Enumeration *)

Definition pal_pci_cfg_write (bus dev func offset data : Z) : P unit :=
  pcie_write_cfg (PCIE_CREATE_BDF 0 bus dev func) offset data.
Definition pal_pci_cfg_read (bus dev func offset : Z) : P Z :=
  pcie_read_cfg (PCIE_CREATE_BDF 0 bus dev func) offset.

Definition set_np_start (b : bar_vars) (x : Z) : bar_vars :=
  {| g_bar64_p_start := g_bar64_p_start b; g_rp_bar64_value := g_rp_bar64_value b; g_bar64_p_max := g_bar64_p_max b;
     g_64_bus := g_64_bus b; g_bar64_size := g_bar64_size b; g_bar32_np_start := x;
     g_bar32_p_start := g_bar32_p_start b; g_rp_bar32_value := g_rp_bar32_value b;
     g_bar32_np_max := g_bar32_np_max b; g_bar32_p_max := g_bar32_p_max b; g_np_bar_size := g_np_bar_size b;
     g_p_bar_size := g_p_bar_size b; g_np_bus := g_np_bus b; g_p_bus := g_p_bus b |}.
Definition set_p_start (b : bar_vars) (x : Z) : bar_vars :=
  {| g_bar64_p_start := g_bar64_p_start b; g_rp_bar64_value := g_rp_bar64_value b; g_bar64_p_max := g_bar64_p_max b;
     g_64_bus := g_64_bus b; g_bar64_size := g_bar64_size b; g_bar32_np_start := g_bar32_np_start b;
     g_bar32_p_start := x; g_rp_bar32_value := g_rp_bar32_value b;
     g_bar32_np_max := g_bar32_np_max b; g_bar32_p_max := g_bar32_p_max b; g_np_bar_size := g_np_bar_size b;
     g_p_bar_size := g_p_bar_size b; g_np_bus := g_np_bus b; g_p_bus := g_p_bus b |}.
Definition set_64_start (b : bar_vars) (x : Z) : bar_vars :=
  {| g_bar64_p_start := x; g_rp_bar64_value := g_rp_bar64_value b; g_bar64_p_max := g_bar64_p_max b;
     g_64_bus := g_64_bus b; g_bar64_size := g_bar64_size b; g_bar32_np_start := g_bar32_np_start b;
     g_bar32_p_start := g_bar32_p_start b; g_rp_bar32_value := g_rp_bar32_value b;
     g_bar32_np_max := g_bar32_np_max b; g_bar32_p_max := g_bar32_p_max b; g_np_bar_size := g_np_bar_size b;
     g_p_bar_size := g_p_bar_size b; g_np_bus := g_np_bus b; g_p_bus := g_p_bus b |}.
Definition set_rp32 (b : bar_vars) (x : Z) : bar_vars :=
  {| g_bar64_p_start := g_bar64_p_start b; g_rp_bar64_value := g_rp_bar64_value b; g_bar64_p_max := g_bar64_p_max b;
     g_64_bus := g_64_bus b; g_bar64_size := g_bar64_size b; g_bar32_np_start := g_bar32_np_start b;
     g_bar32_p_start := g_bar32_p_start b; g_rp_bar32_value := x;
     g_bar32_np_max := g_bar32_np_max b; g_bar32_p_max := g_bar32_p_max b; g_np_bar_size := g_np_bar_size b;
     g_p_bar_size := g_p_bar_size b; g_np_bus := g_np_bus b; g_p_bus := g_p_bus b |}.
(** The bus and the size of the last base address register of each kind *)
Definition set_last_64 (b : bar_vars) (bus size : Z) : bar_vars :=
  {| g_bar64_p_start := g_bar64_p_start b; g_rp_bar64_value := g_rp_bar64_value b; g_bar64_p_max := g_bar64_p_max b;
     g_64_bus := bus; g_bar64_size := size; g_bar32_np_start := g_bar32_np_start b;
     g_bar32_p_start := g_bar32_p_start b; g_rp_bar32_value := g_rp_bar32_value b;
     g_bar32_np_max := g_bar32_np_max b; g_bar32_p_max := g_bar32_p_max b; g_np_bar_size := g_np_bar_size b;
     g_p_bar_size := g_p_bar_size b; g_np_bus := g_np_bus b; g_p_bus := g_p_bus b |}.
Definition set_last_p (b : bar_vars) (bus size : Z) : bar_vars :=
  {| g_bar64_p_start := g_bar64_p_start b; g_rp_bar64_value := g_rp_bar64_value b; g_bar64_p_max := g_bar64_p_max b;
     g_64_bus := g_64_bus b; g_bar64_size := g_bar64_size b; g_bar32_np_start := g_bar32_np_start b;
     g_bar32_p_start := g_bar32_p_start b; g_rp_bar32_value := g_rp_bar32_value b;
     g_bar32_np_max := g_bar32_np_max b; g_bar32_p_max := g_bar32_p_max b; g_np_bar_size := g_np_bar_size b;
     g_p_bar_size := size; g_np_bus := g_np_bus b; g_p_bus := bus |}.
Definition set_last_np (b : bar_vars) (bus size : Z) : bar_vars :=
  {| g_bar64_p_start := g_bar64_p_start b; g_rp_bar64_value := g_rp_bar64_value b; g_bar64_p_max := g_bar64_p_max b;
     g_64_bus := g_64_bus b; g_bar64_size := g_bar64_size b; g_bar32_np_start := g_bar32_np_start b;
     g_bar32_p_start := g_bar32_p_start b; g_rp_bar32_value := g_rp_bar32_value b;
     g_bar32_np_max := g_bar32_np_max b; g_bar32_p_max := g_bar32_p_max b; g_np_bar_size := size;
     g_p_bar_size := g_p_bar_size b; g_np_bus := bus; g_p_bus := g_p_bus b |}.
Definition set_maxima (b : bar_vars) : bar_vars :=
  {| g_bar64_p_start := g_bar64_p_start b; g_rp_bar64_value := g_rp_bar64_value b;
     g_bar64_p_max := g_bar64_p_start b;
     g_64_bus := g_64_bus b; g_bar64_size := g_bar64_size b; g_bar32_np_start := g_bar32_np_start b;
     g_bar32_p_start := g_bar32_p_start b; g_rp_bar32_value := g_rp_bar32_value b;
     g_bar32_np_max := g_bar32_np_start b; g_bar32_p_max := g_bar32_p_start b; g_np_bar_size := g_np_bar_size b;
     g_p_bar_size := g_p_bar_size b; g_np_bus := g_np_bus b; g_p_bus := g_p_bus b |}.

Definition get_bars : P bar_vars := s ← get; mret (bars s).
Definition put_bars (f : bar_vars → bar_vars) : P unit := s ← get; put (set_bars s (f (bars s))).

(** The next address of a window: the next megabyte, unless it starts one *)
Definition next_mb (start : Z) : Z :=
  if negb (u32 (Z.shiftl start 12) =? 0) then u32 (Z.land start MEM_BASE32_LIM_MASK + BAR_INCREMENT) else start.

Definition get_resource_base_32 (bus dev func bar32_p_base bar32_np_base bar32_p_limit bar32_np_limit : Z) : P unit :=
  v ← get_bars;
  (if negb (bar32_np_base =? g_bar32_np_start v) then
     let start := next_mb (g_bar32_np_start v) in
     put_bars (λ v, set_np_start v start);;
     let limit := if bar32_np_limit =? start then u32 (bar32_np_limit - BAR_INCREMENT) else bar32_np_limit in
     mem_bar_np ← pal_pci_cfg_read bus dev func NON_PRE_FET_OFFSET;
     pal_pci_cfg_write bus dev func NON_PRE_FET_OFFSET (Z.lor (Z.land limit MEM_BASE32_LIM_MASK) mem_bar_np)
   else mret tt);;
  v ← get_bars;
  if negb (bar32_p_base =? g_bar32_p_start v) then
    let start := next_mb (g_bar32_p_start v) in
    put_bars (λ v, set_p_start v start);;
    let limit := if bar32_p_limit =? start then u32 (bar32_p_limit - BAR_INCREMENT) else bar32_p_limit in
    mem_bar_p ← pal_pci_cfg_read bus dev func PRE_FET_OFFSET;
    pal_pci_cfg_write bus dev func PRE_FET_OFFSET (Z.lor (Z.land limit MEM_BASE32_LIM_MASK) mem_bar_p)
  else mret tt.

(** [bar64_p_lower32_limit] is not used after it is changed. *)
Definition get_resource_base_64 (bus dev func bar64_p_base p_max : Z) : P unit :=
  let lower32_base := REG_MASK_SHIFT (u32 bar64_p_base) in
  let upper32_base := u32 (Z.shiftr bar64_p_base 32) in
  let lower32_limit := REG_MASK_SHIFT (u32 p_max) in
  let upper32_limit := u32 (Z.shiftr p_max 32) in
  let mem_bar_p := Z.lor (u32 (Z.shiftl lower32_limit 16)) lower32_base in
  v ← get_bars;
  if negb (bar64_p_base =? p_max) && (g_bar64_p_start v <=? p_max) then
    let start := g_bar64_p_start v in
    let start := if negb (u64 (Z.shiftl start 12) =? 0)
                 then u64 (Z.land start MEM_BASE64_LIM_MASK + BAR_INCREMENT) else start in
    put_bars (λ v, set_64_start v (u64 (Z.land start MEM_BASE64_LIM_MASK + BAR_INCREMENT)));;
    pal_pci_cfg_write bus dev func PRE_FET_OFFSET mem_bar_p;;
    pal_pci_cfg_write bus dev func (PRE_FET_OFFSET + 4) upper32_base;;
    pal_pci_cfg_write bus dev func (PRE_FET_OFFSET + 8) upper32_limit
  else mret tt.

(** Writing all ones to a base address register tells its size: 0 if it is not
    there. *)
Definition probe_bar_64 (bus dev func offset : Z) : P Z :=
  pal_pci_cfg_write bus dev func offset 0xFFFFFFF0;;
  pal_pci_cfg_write bus dev func (offset + 4) 0xFFFFFFFF;;
  bar_lower_bits ← pal_pci_cfg_read bus dev func offset;
  bar_upper_bits ← pal_pci_cfg_read bus dev func (offset + 4);
  mret (u64 (- Z.lor (Z.land bar_lower_bits BAR_MASK) (Z.shiftl bar_upper_bits 32))).

(** The size, and what was read *)
Definition probe_bar_32 (bus dev func offset : Z) : P (Z * Z) :=
  pal_pci_cfg_write bus dev func offset 0xFFFFFFF0;;
  bar_lower_bits ← pal_pci_cfg_read bus dev func offset;
  mret (u32 (- Z.land bar_lower_bits BAR_MASK), bar_lower_bits).

Fixpoint rp_bar_loop (bus dev func : Z) (n : nat) (offset : Z) : P unit :=
  if TYPE1_BAR_MAX_OFF <? offset then mret tt
  else match n with
  | O => fail FuelOut
  | S n' =>
      bar_reg_value ← pal_pci_cfg_read bus dev func offset;
      if BAR_REG bar_reg_value =? BAR_64_BIT then
        bar_size ← probe_bar_64 bus dev func offset;
        (if bar_size =? 0 then mret tt
         else
           v ← get_bars;
           pal_pci_cfg_write bus dev func offset (u32 (g_rp_bar64_value v));;
           pal_pci_cfg_write bus dev func (offset + 4) (u32 (Z.shiftr (g_rp_bar64_value v) 32)));;
        rp_bar_loop bus dev func n' (offset + 8)
      else
        r ← probe_bar_32 bus dev func offset;
        (if r.1 =? 0 then mret tt
         else
           v ← get_bars;
           pal_pci_cfg_write bus dev func offset (g_rp_bar32_value v);;
           put_bars (λ v, set_rp32 v (u32 (g_rp_bar32_value v + r.1))));;
        rp_bar_loop bus dev func n' (offset + 4)
  end.

(** Two registers *)
Definition pcie_rp_program_bar (bus dev func : Z) : P unit := rp_bar_loop bus dev func 2 BAR0_OFFSET.

(** The address of the next register of size [size]: [last] and [last_bus] are
    the size and the bus of the last one, [here] the size of the last one of
    this function, 0 if there was none. *)
Definition next_start (start last last_bus here bus size : Z) : Z :=
  if (here =? 0) && (last_bus =? bus) then
    if last <? size then start + size else start + last
  else if (last <? size) && negb (here =? 0) then start + size
  else start + here.

(** [np], [p] and [p64] are the sizes of the last register of each kind of this
    function. *)
Fixpoint bar_loop (bus dev func : Z) (n : nat) (offset np p p64 : Z) : P unit :=
  if TYPE0_BAR_MAX_OFF <? offset then mret tt
  else match n with
  | O => fail FuelOut
  | S n' =>
      bar_reg_value ← pal_pci_cfg_read bus dev func offset;
      if BAR_TYPE bar_reg_value =? BAR_MEM_SPACE then
        if BAR_REG bar_reg_value =? BAR_64_BIT then
          bar_size ← probe_bar_64 bus dev func offset;
          if bar_size =? 0 then bar_loop bus dev func n' (offset + 8) np p p64
          else
            put_bars (λ v, set_64_start v (u64 (next_start (g_bar64_p_start v) (g_bar64_size v) (g_64_bus v)
                                                  p64 bus bar_size)));;
            v ← get_bars;
            pal_pci_cfg_write bus dev func offset (u32 (g_bar64_p_start v));;
            pal_pci_cfg_write bus dev func (offset + 4) (u32 (Z.shiftr (g_bar64_p_start v) 32));;
            put_bars (λ v, set_maxima (set_last_64 v bus (u32 bar_size)));;
            bar_loop bus dev func n' (offset + 8) np p (u32 bar_size)
        else
          r ← probe_bar_32 bus dev func offset;
          if r.1 =? 0 then bar_loop bus dev func n' (offset + 4) np p p64
          else
            put_bars (λ v, set_p_start v (u32 (next_start (g_bar32_p_start v) (g_p_bar_size v) (g_p_bus v)
                                                 p bus r.1)));;
            v ← get_bars;
            pal_pci_cfg_write bus dev func offset (g_bar32_p_start v);;
            put_bars (λ v, set_maxima (set_last_p v bus r.1));;
            bar_loop bus dev func n' (offset + 4) np r.1 p64
      else
        r ← probe_bar_32 bus dev func offset;
        if r.1 =? 0 then
          bar_loop bus dev func n' (if BAR_REG r.2 =? BAR_64_BIT then offset + 8 else offset + 4) np p p64
        else
          put_bars (λ v, set_np_start v (u32 (next_start (g_bar32_np_start v) (g_np_bar_size v) (g_np_bus v)
                                                np bus r.1)));;
          v ← get_bars;
          pal_pci_cfg_write bus dev func offset (g_bar32_np_start v);;
          put_bars (λ v, set_last_np v bus r.1);;
          bar_reg_value ← pal_pci_cfg_read bus dev func offset;
          (if BAR_REG bar_reg_value =? BAR_64_BIT then pal_pci_cfg_write bus dev func (offset + 4) 0
           else mret tt);;
          put_bars set_maxima;;
          bar_loop bus dev func n'
            (if BAR_REG bar_reg_value =? BAR_64_BIT then offset + 8 else offset + 4) r.1 p p64
  end.

(** Six registers *)
Definition pcie_program_bar_reg (bus dev func : Z) : P unit := bar_loop bus dev func 6 BAR0_OFFSET 0 0 0.

(** The variables of [pcie_enumerate_device()] that change *)
Record enum_vars := {
  sec_bus : Z;
  sub_bus : Z;
  bar32_p_base : Z;
  bar32_np_base : Z;
  bar64_p_base : Z;
}.

(** One function of a bus; [below] enumerates the bus behind a bridge. *)
Definition enumerate_function (below : Z → Z → P Z) (bus dev func : Z) (x : enum_vars) : P enum_vars :=
  vendor_id ← pal_pci_cfg_read bus dev func 0;
  if (vendor_id =? 0) || (vendor_id =? 0xFFFFFFFF) then mret x
  else
    class_code ← pal_pci_cfg_read bus dev func TYPE01_RIDR;
    if host_bridge_class class_code then mret x
    else
      header_value ← pal_pci_cfg_read bus dev func HEADER_OFFSET;
      x ← (if PCIE_HEADER_TYPE header_value =? TYPE1_HEADER then
             com_reg_value ← pal_pci_cfg_read bus dev func COMMAND_REG_OFFSET;
             pal_pci_cfg_write bus dev func COMMAND_REG_OFFSET (Z.lor com_reg_value REG_ACC_DATA);;
             pal_pci_cfg_write bus dev func BUS_NUM_REG_OFFSET (BUS_NUM_REG_CFG 0xFF (sec_bus x) bus);;
             v ← get_bars;
             pal_pci_cfg_write bus dev func NON_PRE_FET_OFFSET
               (Z.land (Z.shiftr (g_bar32_np_start v) 16) 0xFFF0);;
             pal_pci_cfg_write bus dev func PRE_FET_OFFSET
               (Z.land (Z.shiftr (g_bar32_p_start v) 16) 0xFFF0);;
             sub ← below (sec_bus x) (u32 (sec_bus x + 1));
             pal_pci_cfg_write bus dev func BUS_NUM_REG_OFFSET (BUS_NUM_REG_CFG sub (sec_bus x) bus);;
             v ← get_bars;
             get_resource_base_32 bus dev func (bar32_p_base x) (bar32_np_base x) (g_bar32_p_max v)
               (g_bar32_np_max v);;
             v ← get_bars;
             get_resource_base_64 bus dev func (bar64_p_base x) (g_bar64_p_max v);;
             pcie_rp_program_bar bus dev func;;
             v ← get_bars;
             mret {| sec_bus := u32 (sub + 1); sub_bus := sub; bar32_p_base := g_bar32_p_start v;
                     bar32_np_base := g_bar32_np_start v; bar64_p_base := g_bar64_p_start v |}
           else mret x);
      if PCIE_HEADER_TYPE header_value =? TYPE0_HEADER then
        pcie_program_bar_reg bus dev func;;
        mret {| sec_bus := sec_bus x; sub_bus := u32 (sec_bus x - 1); bar32_p_base := bar32_p_base x;
                bar32_np_base := bar32_np_base x; bar64_p_base := bar64_p_base x |}
      else mret x.

(** [depth] bounds the levels of bridges. *)
Fixpoint pcie_enumerate_device (depth : nat) (bus sec : Z) : P Z :=
  match depth with
  | O => fail FuelOut
  | S depth' =>
      v ← get_bars;
      t ← info;
      s ← get;
      b ← aget (block t) (g_pcie_index s);
      if bus =? u32 (end_bus_num b + 1) then mret bus
      else
        x ← each_function (enumerate_function (pcie_enumerate_device depth') bus)
              {| sec_bus := sec; sub_bus := bus; bar32_p_base := g_bar32_p_start v;
                 bar32_np_base := g_bar32_np_start v; bar64_p_base := g_bar64_p_start v |};
        mret (sub_bus x)
  end.

Definition clear_pri_function (bus dev func : Z) : P unit :=
  vendor_id ← pal_pci_cfg_read bus dev func 0;
  if (vendor_id =? 0) || (vendor_id =? 0xFFFFFFFF) then mret tt
  else
    header_value ← pal_pci_cfg_read bus dev func HEADER_OFFSET;
    if PCIE_HEADER_TYPE header_value =? TYPE1_HEADER then
      bus_value ← pal_pci_cfg_read bus dev func BUS_NUM_REG_OFFSET;
      pal_pci_cfg_write bus dev func BUS_NUM_REG_OFFSET (Z.land bus_value PRI_BUS_CLEAR_MASK)
    else mret tt.

Definition pcie_clear_pri_bus : P unit :=
  t ← info;
  s ← get;
  b ← aget (block t) (g_pcie_index s);
  for_loop (Z.to_nat (end_bus_num b + 1)) 0 (λ bus _,
    each_function (λ dev func _, clear_pri_function bus dev func) tt) tt.

Fixpoint enumerate_blocks (depth : nat) (t : pcie_info_table) (n : nat) : P unit :=
  match n with
  | O => mret tt
  | S n' =>
      s ← get;
      b ← aget (block t) (g_pcie_index s);
      let pri_bus := start_bus_num b in
      pcie_enumerate_device depth pri_bus (u32 (pri_bus + 1));;
      pcie_clear_pri_bus;;
      s ← get;
      put (set_info s (g_pcie_info_table s) (u32 (g_pcie_index s + 1)));;
      enumerate_blocks depth t n'
  end.

Definition set_bar_config (v : bar_vars) (c : Z * Z * Z * Z * Z) : bar_vars :=
  let '(bar64, rp64, np, p, rp32) := c in
  set_rp32 (set_p_start (set_np_start
    {| g_bar64_p_start := bar64; g_rp_bar64_value := rp64; g_bar64_p_max := g_bar64_p_max v;
       g_64_bus := g_64_bus v; g_bar64_size := g_bar64_size v; g_bar32_np_start := g_bar32_np_start v;
       g_bar32_p_start := g_bar32_p_start v; g_rp_bar32_value := g_rp_bar32_value v;
       g_bar32_np_max := g_bar32_np_max v; g_bar32_p_max := g_bar32_p_max v; g_np_bar_size := g_np_bar_size v;
       g_p_bar_size := g_p_bar_size v; g_np_bus := g_np_bus v; g_p_bus := g_p_bus v |} np) p) rp32.

Definition pcie_enumerate_devices (depth : nat) : P unit :=
  s ← get;
  put (set_info s plat_pcie_get_info_table (g_pcie_index s));;
  match plat_pcie_get_info_table with
  | None => fail PanicCall
  | Some t =>
      if info_entries t =? 0 then mret tt
      else
        (if negb (plat_pcie_get_bar_config.1 =? 0) then fail PanicCall else mret tt);;
        put_bars (λ v, set_bar_config v plat_pcie_get_bar_config.2);;
        s ← get;
        enumerate_blocks depth t (Z.to_nat (info_entries t - g_pcie_index s));;
        s ← get;
        put (set_info s (g_pcie_info_table s) 0)
  end.

Definition pcie_init (depth : nat) : P unit :=
  s ← get;
  if is_init s then mret tt
  else
    pcie_enumerate_devices depth;;
    pcie_create_info_table;;
    s ← get;
    put (set_init s).

(** ** Base address registers *)

Definition pci_bar_size_helper (bdf offset : Z) : P Z :=
  bar ← pcie_read_cfg bdf offset;
  pcie_write_cfg bdf offset 0xFFFFFFFF;;
  val ← pcie_read_cfg bdf offset;
  pcie_write_cfg bdf offset bar;;
  mret val.

(** The offset of the next register, the address and the size *)
Definition pcie_get_bar (bdf offset : Z) : P (Z * Z * Z) :=
  size_0 ← pci_bar_size_helper bdf offset;
  if size_0 =? 0 then mret (offset, 0, 0)
  else
    bar_0 ← pcie_read_cfg bdf offset;
    let size_0 := Z.land size_0 BAR_MASK in
    let offset := u32 (offset + 4) in
    if BAR_REG bar_0 =? BAR_64_BIT then
      bar_4 ← pcie_read_cfg bdf offset;
      size_4 ← pci_bar_size_helper bdf offset;
      let bar_0 := Z.land bar_0 BAR_MASK in
      mret (u32 (offset + 4), Z.lor (u64 (Z.shiftl bar_4 32)) bar_0,
            u64 (- Z.lor (u64 (Z.shiftl size_4 32)) size_0))
    else mret (offset, Z.land bar_0 BAR_MASK, u32 (- size_0)).

Definition pcie_mem_enable (bdf : Z) : P unit :=
  com_reg_value ← pcie_read_cfg bdf COMMAND_REG_OFFSET;
  pcie_write_cfg bdf COMMAND_REG_OFFSET (Z.lor (Z.lor com_reg_value REG_ACC_DATA) SERR_ENABLE).

Definition pcie_mem_disable (bdf : Z) : P unit :=
  com_reg_value ← pcie_read_cfg bdf COMMAND_REG_OFFSET;
  pcie_write_cfg bdf COMMAND_REG_OFFSET (Z.ldiff com_reg_value (Z.lor REG_ACC_DATA SERR_ENABLE)).

End Driver.

Arguments pcie : clear implicits.
