(* ===== verification/PcieTree.v ===== *)
(** * A PCIe hierarchy

    The hardware the enumeration of [Pcie] works on, as the PCI Express
    specification describes it: functions on buses, bridges that pass requests
    for a range of bus numbers on, and an ECAM window through which a request
    enters at bus 0.  What the registers of a function do is a parameter, with
    the laws the specification gives ([FnOk]). *)

From S2P Require Import Prelude Bits Pcie.

Local Open Scope Z_scope.

(** ** Functions *)

(** The registers of one function: 32-bit reads and writes at an offset *)
Class FnHw (R : Type) := {
  rd : R → Z → Z;
  wr : R → Z → Z → R;
}.

Inductive role := HostBridge | Endpoint | Bridge.

#[export] Instance role_eq_dec : EqDecision role.
Proof. solve_decision. Defined.

(** What a function is: [express] says whether it has a PCI Express capability,
    and [port] is the device or port type it has then. *)
Record fkind := { what : role; express : bool; port : Z }.

Definition bus_sec (v : Z) : Z := Z.land (Z.shiftr v SECBN_SHIFT) SECBN_MASK.
Definition bus_sub (v : Z) : Z := Z.land (Z.shiftr v SUBBN_SHIFT) SUBBN_MASK.

(** The layout of the header, and the device or port type *)
Definition header_layout (v : Z) : Z := Z.land (Z.shiftr v TYPE01_HTR_SHIFT) HTR_HL_MASK.
Definition port_type (v : Z) : Z := Z.land (Z.shiftr v 20) PCIECR_DPT_MASK.

(** A list of capabilities: the offsets, from [off] on, and the identifiers *)
Inductive caps (get : Z → Z) (idmask shift nmask : Z) : Z → list (Z * Z) → Prop :=
| caps_end : caps get idmask shift nmask 0 []
| caps_cons (off : Z) (l : list (Z * Z)) : off ≠ 0 →
    caps get idmask shift nmask (Z.land (Z.shiftr (get off) shift) nmask) l →
    caps get idmask shift nmask off ((off, Z.land (get off) idmask) :: l).

Definition pci_caps (get : Z → Z) : list (Z * Z) → Prop :=
  caps get PCIE_CIDR_MASK PCIE_NCPR_SHIFT PCIE_NCPR_MASK (Z.land (get TYPE01_CPR) TYPE01_CPR_MASK).
Definition ext_caps (get : Z → Z) : list (Z * Z) → Prop :=
  caps get PCIE_ECAP_CIDR_MASK PCIE_ECAP_NCPR_SHIFT PCIE_ECAP_NCPR_MASK PCIE_ECAP_START.

Fixpoint find_cap (cid : Z) (l : list (Z * Z)) : option Z :=
  match l with
  | [] => None
  | (off, id) :: l' => if id =? cid then Some off else find_cap cid l'
  end.

(** The laws: [fn_ok k r] says that [r] are registers of a function of kind [k].
    Vendor, class and header type are read only; a bridge keeps the bus numbers
    it is given until they are written again, and has no 64-bit base address
    register in the second of its two places; the capabilities form lists
    that end. *)
Class FnOk (R : Type) `{FnHw R} := {
  fn_ok : fkind → R → Prop;
  cap_bound : nat;
  fn_wr k r o v : fn_ok k r → fn_ok k (wr r o v);
  fn_vendor k r : fn_ok k r → rd r TYPE01_VIDR ≠ 0 ∧ rd r TYPE01_VIDR ≠ PCIE_UNKNOWN_RESPONSE;
  fn_class k r : fn_ok k r → host_bridge_class (rd r TYPE01_RIDR) = bool_decide (what k = HostBridge);
  fn_header k r : fn_ok k r →
    header_layout (rd r HEADER_OFFSET) = if bool_decide (what k = Bridge) then TYPE1_HEADER else TYPE0_HEADER;
  fn_bus k r v : fn_ok k r → what k = Bridge → 0 <= v < 2 ^ 32 →
    bus_sec (rd (wr r BUS_NUM_REG_OFFSET v) BUS_NUM_REG_OFFSET) = bus_sec v
    ∧ bus_sub (rd (wr r BUS_NUM_REG_OFFSET v) BUS_NUM_REG_OFFSET) = bus_sub v;
  fn_bus_kept k r o v : fn_ok k r → what k = Bridge → o ≠ BUS_NUM_REG_OFFSET →
    rd (wr r o v) BUS_NUM_REG_OFFSET = rd r BUS_NUM_REG_OFFSET;
  fn_bus_range k r : fn_ok k r → what k = Bridge → 0 <= rd r BUS_NUM_REG_OFFSET < 2 ^ 32;
  fn_bar_type k r o v : fn_ok k r → what k = Bridge →
    BAR_REG (rd (wr r o v) BAR0_OFFSET) = BAR_REG (rd r BAR0_OFFSET);
  fn_bar_second k r : fn_ok k r → what k = Bridge → BAR_REG (rd r BAR0_OFFSET) = BAR_32_BIT →
    BAR_REG (rd r (BAR0_OFFSET + 4)) = BAR_32_BIT;
  fn_caps k r : fn_ok k r →
    ∃ l, pci_caps (rd r) l ∧ (length l ≤ cap_bound)%nat ∧
      match find_cap CID_PCIECS l with
      | Some off => express k = true ∧ port_type (rd r off) = port k
      | None => express k = false
      end;
  fn_ecaps k r : fn_ok k r → ∃ l, ext_caps (rd r) l ∧ (length l ≤ cap_bound)%nat;
}.

Lemma fn_header_type {R} `{FnOk R} (k : fkind) (r : R) : fn_ok k r →
  PCIE_HEADER_TYPE (rd r HEADER_OFFSET) = if bool_decide (what k = Bridge) then TYPE1_HEADER else TYPE0_HEADER.
Proof.
  intros Hok. unfold PCIE_HEADER_TYPE. change 3 with (Z.land HTR_HL_MASK 3). rewrite Z.land_assoc.
  change (Z.land (Z.shiftr (rd r HEADER_OFFSET) 16) HTR_HL_MASK) with (header_layout (rd r HEADER_OFFSET)).
  rewrite (fn_header k r Hok). by destruct (bool_decide _).
Qed.

(** ** The hierarchy *)

(** A function has a name, its kind and, if it is a bridge, the functions on the
    bus behind it, each under its device and function number. *)
#[warnings="-register-all"] Inductive func := Func (id : nat) (k : fkind) (below : list (Z * func)).
Abbreviation bus := (list (Z * func)).

Definition fid (f : func) : nat := match f with Func id _ _ => id end.
Definition fkd (f : func) : fkind := match f with Func _ k _ => k end.
Definition fbelow (f : func) : bus := match f with Func _ _ l => l end.
Definition is_bridge (f : func) : bool := bool_decide (what (fkd f) = Bridge).

Section Func_ind.

Context (P : func → Prop) (Hf : ∀ id k below, Forall (λ x, P x.2) below → P (Func id k below)).

Fixpoint func_rect_all (f : func) : P f :=
  match f with
  | Func id k below =>
      Hf id k below ((fix go (l : bus) : Forall (λ x, P x.2) l :=
        match l with
        | [] => Forall_nil_2 _
        | x :: l' => Forall_cons_2 (λ x, P x.2) x l' (func_rect_all x.2) (go l')
        end) below)
  end.

End Func_ind.

(** All functions *)
Fixpoint funcs (f : func) : list func :=
  match f with
  | Func _ _ below =>
      f :: (fix go (l : bus) : list func := match l with [] => [] | (_, g) :: l' => funcs g ++ go l' end) below
  end.
Definition bus_funcs (l : bus) : list func := concat (funcs <$> l.*2).

Lemma funcs_eq (id : nat) (k : fkind) (below : bus) :
  funcs (Func id k below) = Func id k below :: bus_funcs below.
Proof.
  cbn [funcs]. f_equal. unfold bus_funcs. induction below as [|[x g] l IH]; [done|]. cbn. by rewrite IH.
Qed.

Lemma funcs_self (f : func) : f ∈ funcs f.
Proof. destruct f. rewrite funcs_eq. left. Qed.

Lemma bus_funcs_cons (x : Z) (f : func) (l : bus) : bus_funcs ((x, f) :: l) = funcs f ++ bus_funcs l.
Proof. done. Qed.

Lemma bus_funcs_app (l l' : bus) : bus_funcs (l ++ l') = bus_funcs l ++ bus_funcs l'.
Proof. unfold bus_funcs. by rewrite fmap_app, fmap_app, concat_app. Qed.

Lemma bus_funcs_elem (x : Z) (f : func) (l : bus) : (x, f) ∈ l → f ∈ bus_funcs l.
Proof.
  intros Hin. apply list_elem_of_split in Hin as (l1 & l2 & ->). rewrite bus_funcs_app, bus_funcs_cons.
  apply elem_of_app. right. apply elem_of_app. left. apply funcs_self.
Qed.

(** ** Requests *)

Section Route.

Context {R : Type} `{FnHw R} (m : nat → R).

Definition claims (f : func) (b : Z) : bool :=
  is_bridge f && (bus_sec (rd (m (fid f)) BUS_NUM_REG_OFFSET) <=? b)
  && (b <=? bus_sub (rd (m (fid f)) BUS_NUM_REG_OFFSET)).

Fixpoint on_bus (k : Z) (l : bus) : option func :=
  match l with
  | [] => None
  | (x, f) :: l' => if x =? k then Some f else on_bus k l'
  end.

(** The function a request for device and function [k] of bus [b] gets to: from
    a bus with other number, the first bridge that claims [b] passes it on. *)
Fixpoint froute (f : func) (b k : Z) : option func :=
  match f with
  | Func id _ below =>
      if b =? bus_sec (rd (m id) BUS_NUM_REG_OFFSET) then on_bus k below
      else
        (fix go (l : bus) : option func :=
           match l with
           | [] => None
           | (_, g) :: l' => if claims g b then froute g b k else go l'
           end) below
  end.

Fixpoint pass (l : bus) (b k : Z) : option func :=
  match l with
  | [] => None
  | (_, g) :: l' => if claims g b then froute g b k else pass l' b k
  end.

Definition broute (here : Z) (l : bus) (b k : Z) : option func :=
  if b =? here then on_bus k l else pass l b k.

Lemma froute_eq (id : nat) (kd : fkind) (below : bus) (b k : Z) :
  froute (Func id kd below) b k = broute (bus_sec (rd (m id) BUS_NUM_REG_OFFSET)) below b k.
Proof.
  unfold broute. cbn [froute]. destruct (b =? _); [done|]. induction below as [|[x g] l IH]; [done|].
  cbn [pass]. by rewrite IH.
Qed.

End Route.

(** ** Changes that leave requests alone *)

(** The same buses behind the bridges of [fs] *)
Definition same_buses {R} `{FnHw R} (fs : list func) (m m' : nat → R) : Prop :=
  ∀ f, f ∈ fs → is_bridge f = true →
    bus_sec (rd (m' (fid f)) BUS_NUM_REG_OFFSET) = bus_sec (rd (m (fid f)) BUS_NUM_REG_OFFSET)
    ∧ bus_sub (rd (m' (fid f)) BUS_NUM_REG_OFFSET) = bus_sub (rd (m (fid f)) BUS_NUM_REG_OFFSET).

Section Frame.

Context {R : Type} `{FnHw R}.

Lemma claims_same (fs : list func) (m m' : nat → R) (f : func) (b : Z) :
  same_buses fs m m' → f ∈ fs → claims m' f b = claims m f b.
Proof. unfold claims. intros Hs Hf. destruct (is_bridge f) eqn:Hb; [|done]. by destruct (Hs f Hf Hb) as [-> ->]. Qed.

Lemma claims_bridge (m : nat → R) (f : func) (b : Z) : claims m f b = true → is_bridge f = true.
Proof. unfold claims. intros Hc. apply andb_true_iff in Hc as [Hc _]. by apply andb_true_iff in Hc as [Hc _]. Qed.

Lemma pass_same (m m' : nat → R) (l : bus) : same_buses (bus_funcs l) m m' → ∀ b k, pass m' l b k = pass m l b k.
Proof.
  assert (∀ f, same_buses (funcs f) m m' → is_bridge f = true → ∀ b k, froute m' f b k = froute m f b k) as Hf.
  { intros f. induction f as [id kd below IH] using func_rect_all. intros Hs Hb b k. rewrite !froute_eq.
    rewrite funcs_eq in Hs. pose proof (Hs (Func id kd below) ltac:(left) Hb) as [Hid _]. cbn [fid] in Hid. rewrite Hid. unfold broute.
    destruct (b =? _); [done|].
    assert (same_buses (bus_funcs below) m m') as Hs' by (intros g Hg; apply Hs; by right).
    clear Hs Hid Hb. induction IH as [|[x g] l' Hg _ IHl]; [done|]. cbn [pass]. rewrite bus_funcs_cons in Hs'.
    rewrite (claims_same (funcs g) m m') by (try apply funcs_self; intros h Hh; apply Hs'; apply elem_of_app; by left).
    destruct (claims m g b) eqn:Hc.
    - apply Hg; [|by eapply claims_bridge].
      intros h Hh. apply Hs'. apply elem_of_app. by left.
    - apply IHl. intros h Hh. apply Hs'. apply elem_of_app. by right. }
  intros Hs b k. induction l as [|[x g] l IH]; [done|]. rewrite bus_funcs_cons in Hs. cbn [pass].
  rewrite (claims_same (funcs g) m m') by (try apply funcs_self; intros h Hh; apply Hs; apply elem_of_app; by left).
  destruct (claims m g b) eqn:Hc.
  - apply Hf; [|by eapply claims_bridge]. intros h Hh. apply Hs. apply elem_of_app. by left.
  - apply IH. intros h Hh. apply Hs. apply elem_of_app. by right.
Qed.

Lemma broute_same (m m' : nat → R) (l : bus) : same_buses (bus_funcs l) m m' →
  ∀ here b k, broute m' here l b k = broute m here l b k.
Proof. intros Hs here b k. unfold broute. by rewrite (pass_same m m' l Hs). Qed.

(** A request passes the functions that do not claim it. *)
Lemma pass_skip (m : nat → R) (l l' : bus) (b k : Z) :
  Forall (λ x, claims m x.2 b = false) l → pass m (l ++ l') b k = pass m l' b k.
Proof. intros Hl. induction Hl as [|[x g] l Hg _ IH]; [done|]. cbn [app pass snd] in *. by rewrite Hg. Qed.

End Frame.

(** ** The way down

    While a bus is enumerated, every bridge above it claims all higher bus
    numbers, and the bridges before those claim only lower ones. *)

Section Open.

Context {R : Type} `{FnHw R} (root : bus).

Inductive opened (m : nat → R) : Z → bus → Prop :=
| opened_root : opened m 0 root
| opened_step (b c : Z) (pre : bus) (x : Z) (f : func) (post : bus) :
    opened m b (pre ++ (x, f) :: post) →
    Forall (λ y, ∀ d, c <= d → claims m y.2 d = false) pre →
    is_bridge f = true → b < c →
    bus_sec (rd (m (fid f)) BUS_NUM_REG_OFFSET) = c → bus_sub (rd (m (fid f)) BUS_NUM_REG_OFFSET) = 255 →
    opened m c (fbelow f).

Lemma opened_route (m : nat → R) (b : Z) (l : bus) : opened m b l →
  ∀ d k, b <= d <= 255 → broute m 0 root d k = broute m b l d k.
Proof.
  intros Ho. induction Ho as [|b c pre x f post Ho IH Hpre Hf Hbc Hsec Hsub]; intros d k Hd; [done|].
  rewrite IH by lia. unfold broute at 1. rewrite (proj2 (Z.eqb_neq d b)) by lia.
  rewrite pass_skip by (eapply Forall_impl; [exact Hpre|]; intros y Hy; apply Hy; lia). cbn [pass].
  assert (claims m f d = true) as ->.
  { unfold claims. rewrite Hf, Hsec, Hsub. cbn [andb]. apply andb_true_iff. split; apply Z.leb_le; lia. }
  destruct f as [id kd below]. by rewrite froute_eq, <- Hsec.
Qed.

Lemma opened_sub (m : nat → R) (b : Z) (l : bus) : opened m b l → bus_funcs l ⊆+ bus_funcs root.
Proof.
  intros Ho. induction Ho as [|b c pre x f post Ho IH Hpre Hf Hbc Hsec Hsub]; [done|].
  etransitivity; [|exact IH]. rewrite bus_funcs_app, bus_funcs_cons. destruct f as [id kd below].
  rewrite funcs_eq. cbn [fbelow]. apply submseteq_inserts_l. apply submseteq_inserts_r. by constructor.
Qed.

Lemma opened_nodup (m : nat → R) (b : Z) (l : bus) : NoDup (fid <$> bus_funcs root) → opened m b l →
  NoDup (fid <$> bus_funcs l).
Proof.
  intros Hnd Ho. pose proof (fmap_submseteq fid _ _ (opened_sub _ _ _ Ho)) as Hsm.
  apply submseteq_Permutation in Hsm as [rest Hperm]. rewrite Hperm in Hnd. by apply NoDup_app in Hnd as (Hnd & _ & _).
Qed.

(** What happens below a bus does not close the way to it. *)
Lemma opened_frame (m m' : nat → R) (b : Z) (l : bus) : NoDup (fid <$> bus_funcs root) → opened m b l →
  (∀ id, id ∉ fid <$> bus_funcs l → rd (m' id) BUS_NUM_REG_OFFSET = rd (m id) BUS_NUM_REG_OFFSET) → opened m' b l.
Proof.
  intros Hnd Ho. induction Ho as [|b c pre x f post Ho IH Hpre Hf Hbc Hsec Hsub]; intros Hm; [constructor|].
  assert (NoDup (fid <$> bus_funcs (pre ++ (x, f) :: post))) as Hnd' by (by eapply opened_nodup).
  rewrite bus_funcs_app, bus_funcs_cons, fmap_app, fmap_app in Hnd'.
  destruct f as [id kd below]. rewrite funcs_eq in Hnd'. cbn [fbelow fid] in *.
  apply NoDup_app in Hnd' as (_ & Hpre' & Hnd'). apply NoDup_app in Hnd' as (Hnd' & _ & _).
  cbn in Hnd'. apply NoDup_cons in Hnd' as [Hid Hnd'].
  eapply (opened_step m' b c pre x (Func id kd below) post); try done; cbn [fid].
  - apply IH. intros i Hi. apply Hm. contradict Hi. rewrite bus_funcs_app, bus_funcs_cons, funcs_eq, !fmap_app.
    apply elem_of_app. right. apply elem_of_app. left. cbn. by right.
  - apply Forall_forall. intros y Hin d Hd. rewrite <- (proj1 (Forall_forall _ _) Hpre y Hin d Hd). unfold claims. rewrite Hm; [done|].
    assert (fid y.2 ∈ fid <$> bus_funcs pre) as Hyin.
    { apply list_elem_of_fmap_2. destruct y. by eapply bus_funcs_elem. }
    intros Hbad. apply (Hpre' _ Hyin). apply elem_of_app. left. cbn. by right.
  - rewrite <- Hsec. by rewrite Hm.
  - by rewrite Hm.
Qed.

End Open.

(** ** Bus numbers *)

(** How many buses are behind a function *)
Fixpoint buses (f : func) : Z :=
  match f with
  | Func _ k below =>
      if bool_decide (what k = Bridge) then
        1 + (fix go (l : bus) : Z := match l with [] => 0 | (_, g) :: l' => buses g + go l' end) below
      else 0
  end.
Definition bus_total (l : bus) : Z := foldr (λ x n, buses x.2 + n) 0 l.

Lemma buses_eq (f : func) : buses f = if is_bridge f then 1 + bus_total (fbelow f) else 0.
Proof.
  destruct f as [id k below]. cbn [buses]. unfold is_bridge. cbn [fkd fbelow]. destruct (bool_decide _); [|done].
  f_equal. induction below as [|[x g] l IH]; [done|]. cbn. by rewrite IH.
Qed.

Lemma bus_total_cons (x : Z) (f : func) (l : bus) : bus_total ((x, f) :: l) = buses f + bus_total l.
Proof. reflexivity. Qed.

Lemma bus_total_app (l l' : bus) : bus_total (l ++ l') = bus_total l + bus_total l'.
Proof. induction l as [|[x f] l IH]; [done|]. cbn [app]. rewrite !bus_total_cons, IH. lia. Qed.

Lemma buses_nonneg (f : func) : 0 <= buses f.
Proof.
  induction f as [id k below IH] using func_rect_all. rewrite buses_eq. destruct (is_bridge _); [|done]. cbn [fbelow].
  assert (0 <= bus_total below); [|lia]. induction IH as [|[x g] l Hg _ IHl]; [done|]. rewrite bus_total_cons. cbn [snd] in Hg. lia.
Qed.

Lemma bus_total_nonneg (l : bus) : 0 <= bus_total l.
Proof. induction l as [|[x f] l IH]; [done|]. rewrite bus_total_cons. pose proof (buses_nonneg f). lia. Qed.

Lemma bus_total_elem (x : Z) (f : func) (l : bus) : (x, f) ∈ l → buses f <= bus_total l.
Proof.
  intros Hin. apply list_elem_of_split in Hin as (l1 & l2 & ->). rewrite bus_total_app, bus_total_cons.
  pose proof (bus_total_nonneg l1). pose proof (bus_total_nonneg l2). lia.
Qed.

Section Number.

Context {R : Type} `{FnHw R} (m : nat → R).

(** The buses behind [f] are numbered in the order in which they are met, from
    [next] on. *)
Fixpoint numbered_f (f : func) (next : Z) : Prop :=
  match f with
  | Func id k below =>
      if bool_decide (what k = Bridge) then
        bus_sec (rd (m id) BUS_NUM_REG_OFFSET) = next
        ∧ bus_sub (rd (m id) BUS_NUM_REG_OFFSET) = next + bus_total below
        ∧ (fix go (l : bus) (next : Z) : Prop :=
             match l with
             | [] => True
             | (_, g) :: l' => numbered_f g next ∧ go l' (next + buses g)
             end) below (next + 1)
      else True
  end.
Fixpoint numbered (l : bus) (next : Z) : Prop :=
  match l with
  | [] => True
  | (_, g) :: l' => numbered_f g next ∧ numbered l' (next + buses g)
  end.

End Number.

Section Numbered.

Context {R : Type} `{FnHw R}.

Lemma numbered_f_eq (m : nat → R) (f : func) (next : Z) : is_bridge f = true →
  numbered_f m f next ↔ bus_sec (rd (m (fid f)) BUS_NUM_REG_OFFSET) = next
    ∧ bus_sub (rd (m (fid f)) BUS_NUM_REG_OFFSET) = next + bus_total (fbelow f)
    ∧ numbered m (fbelow f) (next + 1).
Proof.
  destruct f as [id k below]. unfold is_bridge. cbn [fkd fid fbelow numbered_f]. intros ->. reflexivity.
Qed.

Lemma numbered_f_leaf (m : nat → R) (f : func) (next : Z) : is_bridge f = false → numbered_f m f next.
Proof. destruct f as [id k below]. unfold is_bridge. cbn [fkd numbered_f]. by intros ->. Qed.

Lemma numbered_app (m : nat → R) (l l' : bus) (next : Z) :
  numbered m (l ++ l') next ↔ numbered m l next ∧ numbered m l' (next + bus_total l).
Proof.
  revert next. induction l as [|[x f] l IH]; intros next; cbn [app numbered].
  { change (bus_total []) with 0. rewrite Z.add_0_r. tauto. }
  rewrite IH, bus_total_cons, Z.add_assoc. tauto.
Qed.

Lemma numbered_same (m m' : nat → R) (l : bus) (next : Z) : same_buses (bus_funcs l) m m' →
  numbered m l next → numbered m' l next.
Proof.
  assert (∀ f next, same_buses (funcs f) m m' → numbered_f m f next → numbered_f m' f next) as Hf.
  { intros f. induction f as [id k below IH] using func_rect_all. intros nx Hs.
    destruct (is_bridge (Func id k below)) eqn:Hb; [|intros _; by apply numbered_f_leaf].
    rewrite !numbered_f_eq by done. rewrite funcs_eq in Hs. destruct (Hs (Func id k below)) as [-> ->]; [left|done|].
    intros (H1 & H2 & H3). split_and!; [done|done|]. cbn [fbelow] in *.
    assert (same_buses (bus_funcs below) m m') as Hs' by (intros g Hg; apply Hs; by right).
    clear Hs H1 H2 Hb. revert H3. generalize (nx + 1). clear nx.
    induction IH as [|[x g] l' Hg _ IHl]; intros nx; [done|]. rewrite bus_funcs_cons in Hs'. cbn [numbered].
    intros [H1 H2]. split; [apply Hg; [|done]|apply IHl; [|done]]; intros h Hh; apply Hs', elem_of_app; first [by left|by right]. }
  revert next. induction l as [|[x g] l IH]; intros next Hs; [done|]. rewrite bus_funcs_cons in Hs. cbn [numbered].
  intros [H1 H2]. split; [apply Hf; [|done]|apply IH; [|done]]; intros h Hh; apply Hs, elem_of_app; first [by left|by right].
Qed.

(** A numbered bridge claims no bus past its own. *)
Lemma numbered_claims (m : nat → R) (f : func) (next d : Z) : numbered_f m f next →
  claims m f d = is_bridge f && (next <=? d) && (d <? next + buses f).
Proof.
  intros Hn. unfold claims. rewrite buses_eq. destruct (is_bridge f) eqn:Hb; [|done]. cbn [andb].
  apply (numbered_f_eq m f next Hb) in Hn as (-> & -> & _). f_equal.
  destruct (Z.leb_spec d (next + bus_total (fbelow f))), (Z.ltb_spec d (next + (1 + bus_total (fbelow f)))); lia.
Qed.

Lemma numbered_closed (m : nat → R) (l : bus) (next : Z) : numbered m l next →
  Forall (λ y, ∀ d, next + bus_total l <= d → claims m y.2 d = false) l.
Proof.
  revert next. induction l as [|[x f] l IH]; intros next; [constructor|]. cbn [numbered].
  intros [Hf Hl]. pose proof (bus_total_nonneg l). rewrite bus_total_cons. constructor.
  - intros d Hd. cbn [snd]. rewrite (numbered_claims m f next d Hf). rewrite (proj2 (Z.ltb_ge d (next + buses f))) by lia.
    apply andb_false_r.
  - eapply Forall_impl; [exact (IH _ Hl)|]. intros y Hy d Hd. apply Hy. lia.
Qed.

(** ** Where the functions are then *)

(** The buses with their numbers, in order *)
Fixpoint fbuses (f : func) (next : Z) : list (Z * bus) :=
  match f with
  | Func _ k below =>
      if bool_decide (what k = Bridge) then
        (next, below) ::
          (fix go (l : bus) (next : Z) : list (Z * bus) :=
             match l with
             | [] => []
             | (_, g) :: l' => fbuses g next ++ go l' (next + buses g)
             end) below (next + 1)
      else []
  end.
Fixpoint behind (l : bus) (next : Z) : list (Z * bus) :=
  match l with
  | [] => []
  | (_, g) :: l' => fbuses g next ++ behind l' (next + buses g)
  end.

Lemma fbuses_eq (f : func) (next : Z) :
  fbuses f next = if is_bridge f then (next, fbelow f) :: behind (fbelow f) (next + 1) else [].
Proof. by destruct f as [id k below]. Qed.

Lemma fbuses_numbers (f : func) (next : Z) : (fbuses f next).*1 = seqZ next (buses f).
Proof.
  revert next. induction f as [id k below IH] using func_rect_all. intros next. rewrite fbuses_eq, buses_eq.
  destruct (is_bridge _); [|done]. cbn [fbelow]. rewrite fmap_cons. cbn [fst].
  assert (∀ nx, (behind below nx).*1 = seqZ nx (bus_total below)) as Hb.
  { induction IH as [|[x g] l Hg _ IHl]; intros nx; [done|]. cbn [behind snd] in *. rewrite fmap_app, Hg, IHl, bus_total_cons.
    rewrite <- seqZ_app; [done|apply buses_nonneg|apply bus_total_nonneg]. }
  rewrite Hb. rewrite (seqZ_cons next (1 + bus_total below)) by (pose proof (bus_total_nonneg below); lia).
  f_equal. rewrite <- Z.add_1_r. f_equal. lia.
Qed.

Lemma behind_numbers (l : bus) (next : Z) : (behind l next).*1 = seqZ next (bus_total l).
Proof.
  revert next. induction l as [|[x g] l IH]; intros next; [done|]. cbn [behind].
  rewrite fmap_app, fbuses_numbers, IH, bus_total_cons. rewrite <- seqZ_app; [done|apply buses_nonneg|apply bus_total_nonneg].
Qed.

Lemma behind_range (l l' : bus) (next b : Z) : (b, l') ∈ behind l next → next <= b < next + bus_total l.
Proof.
  intros Hin. apply (list_elem_of_fmap_2 fst) in Hin. rewrite behind_numbers in Hin. by apply elem_of_seqZ in Hin.
Qed.

Lemma fbuses_range (f : func) (l' : bus) (next b : Z) : (b, l') ∈ fbuses f next → next <= b < next + buses f.
Proof.
  intros Hin. apply (list_elem_of_fmap_2 fst) in Hin. rewrite fbuses_numbers in Hin. by apply elem_of_seqZ in Hin.
Qed.

(** Once the buses are numbered, requests for each get to its functions. *)
Lemma numbered_pass (m : nat → R) (l : bus) (next : Z) : numbered m l next →
  ∀ b l' k, (b, l') ∈ behind l next → pass m l b k = on_bus k l'.
Proof.
  assert (∀ f next, numbered_f m f next → ∀ b l' k, (b, l') ∈ fbuses f next → froute m f b k = on_bus k l') as Hf.
  { intros f. induction f as [id kd below IH] using func_rect_all. intros nx Hn b l' k Hin.
    rewrite fbuses_eq in Hin. destruct (is_bridge _) eqn:Hb; [|by apply elem_of_nil in Hin].
    apply (numbered_f_eq m _ nx Hb) in Hn as (Hsec & _ & Hn). cbn [fbelow fid] in *. rewrite froute_eq, Hsec. unfold broute.
    apply elem_of_cons in Hin as [[= -> ->]|Hin]; [by rewrite Z.eqb_refl|].
    pose proof (behind_range _ _ _ _ Hin). rewrite (proj2 (Z.eqb_neq b nx)) by lia.
    clear Hsec Hb. revert Hn Hin. generalize (nx + 1). clear nx H0.
    induction IH as [|[x g] l0 Hg _ IHl]; intros nx Hn Hin; [by apply elem_of_nil in Hin|].
    cbn [numbered behind pass snd] in *. destruct Hn as [H1 H2]. rewrite (numbered_claims m g nx b H1).
    apply elem_of_app in Hin as [Hin|Hin].
    - pose proof (fbuses_range _ _ _ _ Hin). rewrite buses_eq in H0. destruct (is_bridge g) eqn:Hb; [|lia].
      rewrite buses_eq, Hb. rewrite (proj2 (Z.leb_le nx b)), (proj2 (Z.ltb_lt b _)) by lia. cbn [andb]. by eapply Hg.
    - pose proof (behind_range _ _ _ _ Hin). rewrite (proj2 (Z.ltb_ge b _)) by lia. rewrite andb_false_r. by eapply IHl. }
  revert next. induction l as [|[x g] l IH]; intros next Hn b l' k Hin; [by apply elem_of_nil in Hin|].
  cbn [numbered behind pass] in *. destruct Hn as [H1 H2]. rewrite (numbered_claims m g next b H1).
  apply elem_of_app in Hin as [Hin|Hin].
  - pose proof (fbuses_range _ _ _ _ Hin). rewrite buses_eq in H0. destruct (is_bridge g) eqn:Hb; [|lia].
    rewrite buses_eq, Hb. rewrite (proj2 (Z.leb_le next b)), (proj2 (Z.ltb_lt b _)) by lia. cbn [andb]. by eapply Hf.
  - pose proof (behind_range _ _ _ _ Hin). rewrite (proj2 (Z.ltb_ge b _)) by lia. rewrite andb_false_r. by eapply IH.
Qed.

Lemma numbered_beyond (m : nat → R) (l : bus) (next b k : Z) : numbered m l next → next + bus_total l <= b →
  pass m l b k = None.
Proof.
  intros Hn Hb. rewrite <- (app_nil_r l). rewrite pass_skip; [done|].
  eapply Forall_impl; [apply (numbered_closed m l next Hn)|]. intros y Hy. by apply Hy.
Qed.

End Numbered.

(** ** The window *)

Definition upd {R} (m : nat → R) (i : nat) (r : R) : nat → R := λ j, if decide (j = i) then r else m j.

Lemma fn_upd_same {R} (m : nat → R) (i : nat) (r : R) : upd m i r i = r.
Proof. unfold upd. by rewrite decide_True. Qed.
Lemma fn_upd_other {R} (m : nat → R) (i j : nat) (r : R) : j ≠ i → upd m i r j = m j.
Proof. unfold upd. intros Hne. by rewrite decide_False. Qed.

(** A request at an address of the window: each function has 4 kB; nobody
    answers reads that get nowhere. *)
Definition tree_hw {R} `{FnHw R} (base : Z) (root : bus) : PcieHw (nat → R) := {|
  cfg_read_32 := λ addr m,
    let a := addr - base in
    match broute m 0 root (a / 1048576) (a / 4096 mod 256) with
    | Some f => Ok (rd (m (fid f)) (a mod 4096), m)
    | None => Ok (PCIE_UNKNOWN_RESPONSE, m)
    end;
  cfg_write_32 := λ addr v m,
    let a := addr - base in
    match broute m 0 root (a / 1048576) (a / 4096 mod 256) with
    | Some f => Ok (tt, upd m (fid f) (wr (m (fid f)) (a mod 4096) v))
    | None => Ok (tt, m)
    end;
|}.
