(* ===== verification/PcieEnum.v ===== *)
(** * Enumeration of a PCIe hierarchy

    What [pcie_enumerate_device()] does to a hierarchy of [PcieTree]: it numbers
    the buses in the order in which they are met, so that every function can
    be reached afterwards. *)

From Stdlib Require Import Sorted.
From S2P Require Import Prelude Bits Pcie PcieTree.

Local Open Scope Z_scope.

(** ** Loops *)

Section Loops.

Context {S A : Type}.

Lemma for_loop_ext (n : nat) (i : Z) (f g : Z → A → M S A) (acc : A) (s : S) :
  (∀ j acc s, i <= j < i + Z.of_nat n → f j acc s = g j acc s) → for_loop n i f acc s = for_loop n i g acc s.
Proof.
  revert i acc s. induction n as [|n IH]; intros i acc s Hfg; [done|]. cbn [for_loop].
  unfold mbind, M_bind. rewrite Hfg by lia. destruct (g i acc s) as [[a s']|w]; [|done].
  apply IH. intros j acc' s0 Hj. apply Hfg. lia.
Qed.

Lemma for_loop_app (n n' : nat) (i : Z) (f : Z → A → M S A) (acc : A) (s : S) :
  for_loop (n + n') i f acc s = (for_loop n i f acc ≫= for_loop n' (i + Z.of_nat n) f) s.
Proof.
  revert i acc s. induction n as [|n IH]; intros i acc s.
  { cbn. by rewrite Z.add_0_r. }
  cbn [Nat.add for_loop]. unfold mbind, M_bind. destruct (f i acc s) as [[a s']|w]; [|done].
  rewrite IH. unfold mbind, M_bind. by replace (i + 1 + Z.of_nat n) with (i + Z.of_nat (Datatypes.S n)) by lia.
Qed.

Lemma for_loop_shift (n : nat) (i d : Z) (f : Z → A → M S A) (acc : A) (s : S) :
  for_loop n i (λ j, f (d + j)) acc s = for_loop n (d + i) f acc s.
Proof.
  revert i acc s. induction n as [|n IH]; intros i acc s; [done|]. cbn [for_loop]. unfold mbind, M_bind.
  destruct (f (d + i) acc s) as [[a s']|w]; [|done]. rewrite IH. by rewrite Z.add_assoc.
Qed.

Lemma for_loop_nest (n k : nat) (i : Z) (f : Z → A → M S A) (acc : A) (s : S) :
  for_loop n i (λ d acc, for_loop k 0 (λ j acc, f (d * Z.of_nat k + j) acc) acc) acc s
  = for_loop (n * k) (i * Z.of_nat k) f acc s.
Proof.
  revert i acc s. induction n as [|n IH]; intros i acc s; [done|].
  change (Datatypes.S n * k)%nat with (k + n * k)%nat. rewrite for_loop_app. cbn [for_loop]. unfold mbind, M_bind.
  rewrite (for_loop_shift k 0 (i * Z.of_nat k) f), Z.add_0_r.
  destruct (for_loop k (i * Z.of_nat k) f acc s) as [[a s']|w]; [|done].
  rewrite IH. by replace (i * Z.of_nat k + Z.of_nat k) with ((i + 1) * Z.of_nat k) by lia.
Qed.

(** The loops over devices and functions are one loop. *)
Lemma each_function_run (body : Z → Z → A → M S A) (acc : A) (s : S) :
  each_function body acc s = for_loop 256 0 (λ k, body (k / 8) (k mod 8)) acc s.
Proof.
  unfold each_function. change (Z.to_nat PCIE_MAX_DEV) with 32%nat. change (Z.to_nat PCIE_MAX_FUNC) with 8%nat.
  rewrite <- (for_loop_nest 32 8 0 (λ k, body (k / 8) (k mod 8))). apply for_loop_ext. intros d acc' s' _.
  apply for_loop_ext. intros j a t Hj. change (Z.of_nat 8) with 8 in *.
  rewrite Z.div_add_l, Z.div_small, Z.add_0_r by lia. by rewrite Z.add_comm, Z.mod_add, Z.mod_small by lia.
Qed.

End Loops.

(** ** Accesses *)

Section Access.

Context {R : Type} `{FnHw R} (base last : Z) (root : bus).

(** One window for segment 0, from bus 0 to bus [last] *)
Definition window : pcie_info_table :=
  {| info_entries := 1;
     block := [{| ecam_base := base; segment_num := 0; start_bus_num := 0; end_bus_num := last |}] |}.

Context (Hbase : 0 < base) (Htop : base + 2 ^ 28 < 2 ^ 64) (Hlast : 0 <= last <= 255).

#[local] Instance hw_inst : PcieHw (nat → R) := tree_hw base root.

(** What does not belong to the device or to the addresses *)
Definition rest (s : pcie (nat → R)) : option pcie_info_table * bool * Z * list pcie_dev * Z * bool :=
  (g_pcie_info_table s, g_pcie_bdf_table s, num_entries s, device s, g_pcie_index s, is_init s).

Lemma create_bdf (b k : Z) : 0 <= b < 256 → 0 <= k < 256 → PCIE_CREATE_BDF 0 b (k / 8) (k mod 8) = b * 256 + k.
Proof.
  intros Hb Hk. unfold PCIE_CREATE_BDF. change (u32 (Z.shiftl 0 16)) with 0. rewrite Z.lor_0_l.
  rewrite !Z.shiftl_mul_pow2 by lia. change (2 ^ 8) with 256. change (2 ^ 3) with 8.
  assert (0 <= k / 8 < 32) by (split; [apply Z.div_pos; lia|apply Z.div_lt_upper_bound; lia]).
  pose proof (Z.mod_pos_bound k 8 ltac:(lia)).
  rewrite !u32_small by (unfold UINT32_MAX in *; lia).
  change 256 with (2 ^ 8) at 1. rewrite (lor_fields b (k / 8 * 8) 8) by lia.
  replace (b * 2 ^ 8 + k / 8 * 8) with ((b * 32 + k / 8) * 2 ^ 3) by (change (2 ^ 8) with 256; change (2 ^ 3) with 8; lia).
  rewrite (lor_fields _ (k mod 8) 3) by (change (2 ^ 3) with 8; lia). change (2 ^ 3) with 8.
  pose proof (Z.div_mod k 8 ltac:(lia)). lia.
Qed.

Lemma extract_bdf (b k : Z) : 0 <= b < 256 → 0 <= k < 256 → let d := b * 256 + k in
  PCIE_EXTRACT_BDF_SEG d = 0 ∧ PCIE_EXTRACT_BDF_BUS d = b ∧ PCIE_EXTRACT_BDF_DEV d = k / 8
  ∧ PCIE_EXTRACT_BDF_FUNC d = k mod 8.
Proof.
  intros Hb Hk d. unfold PCIE_EXTRACT_BDF_SEG, PCIE_EXTRACT_BDF_BUS, PCIE_EXTRACT_BDF_DEV, PCIE_EXTRACT_BDF_FUNC.
  change 0xFF with (2 ^ 8 - 1). change 0x1F with (2 ^ 5 - 1). change 0x7 with (2 ^ 3 - 1).
  rewrite !land_mask by lia. rewrite !Z.shiftr_div_pow2 by lia. change (2 ^ 16) with 65536. change (2 ^ 8) with 256.
  change (2 ^ 5) with 32. change (2 ^ 3) with 8. subst d.
  assert ((b * 256 + k) / 256 = b) as Hbus by (rewrite Z.div_add_l, Z.div_small by lia; lia).
  split_and!.
  - rewrite Z.div_small by lia. done.
  - rewrite Hbus. apply Z.mod_small. lia.
  - replace (b * 256 + k) with ((b * 32) * 8 + k) by lia. rewrite Z.div_add_l by lia.
    rewrite Z.add_comm, Z.mod_add by lia. apply Z.mod_small.
    split; [apply Z.div_pos; lia|apply Z.div_lt_upper_bound; lia].
  - replace (b * 256 + k) with (k + (b * 32) * 8) by lia. by rewrite Z.mod_add by lia.
Qed.

Lemma cfg_addr_run (b k : Z) (s : pcie (nat → R)) : g_pcie_info_table s = Some window → 0 <= b <= last → 0 <= k < 256 →
  pcie_cfg_addr (b * 256 + k) s = Ok (base + (b * 1048576 + k * 4096), s).
Proof.
  intros Ht Hb Hk. destruct (extract_bdf b k ltac:(lia) Hk) as (Hs & Hbus & Hd & Hf).
  assert (0 <= k / 8 < 32) by (split; [apply Z.div_pos; lia|apply Z.div_lt_upper_bound; lia]).
  pose proof (Z.mod_pos_bound k 8 ltac:(lia)). change (2 ^ 28) with 268435456 in Htop. change (2 ^ 64) with 18446744073709551616 in Htop.
  unfold pcie_cfg_addr. rewrite Hs, Hbus, Hd, Hf. unfold PCIE_MAX_BUS, PCIE_MAX_DEV, PCIE_MAX_FUNC, PCIE_CFG_SIZE.
  rewrite (proj2 (Z.ltb_lt b 256)), (proj2 (Z.ltb_lt (k / 8) 32)), (proj2 (Z.ltb_lt (k mod 8) 8)) by lia. cbn [andb].
  erewrite bind_Ok by reflexivity. unfold info. rewrite (bind_Ok _ _ s s window).
  2: { erewrite bind_Ok by reflexivity. by rewrite Ht. }
  rewrite (bind_Ok _ _ s s base).
  2: { change (Z.to_nat (info_entries window)) with 1%nat. cbn [find_ecam]. erewrite bind_Ok by reflexivity.
       cbn [start_bus_num end_bus_num segment_num ecam_base].
       rewrite (proj2 (Z.leb_le 0 b)), (proj2 (Z.leb_le b last)) by lia. done. }
  rewrite (proj2 (Z.eqb_neq base 0)) by lia. erewrite bind_Ok by reflexivity.
  pose proof (Z.div_mod k 8 ltac:(lia)).
  rewrite (u32_small (b * 32 * 8 * 4096 + k / 8 * 8 * 4096 + k mod 8 * 4096)) by (unfold UINT32_MAX; lia).
  rewrite u64_small by (unfold UINT64_MAX; lia). unfold mret, M_ret. do 2 f_equal. lia.
Qed.

Lemma set_hw_id (s : pcie (nat → R)) : set_hw s (hw s) = s.
Proof. by destruct s. Qed.

Lemma decode_addr (b k o : Z) : 0 <= b <= last → 0 <= k < 256 → 0 <= o < 4096 →
  let a := u64 (base + (b * 1048576 + k * 4096) + o) - base in
  a / 1048576 = b ∧ a / 4096 mod 256 = k ∧ a mod 4096 = o.
Proof.
  intros Hb Hk Ho. change (2 ^ 28) with 268435456 in Htop. change (2 ^ 64) with 18446744073709551616 in Htop.
  rewrite u64_small by (unfold UINT64_MAX; lia). cbv zeta.
  replace (base + (b * 1048576 + k * 4096) + o - base) with (b * 1048576 + (k * 4096 + o)) by lia. split_and!.
  - rewrite Z.div_add_l, Z.div_small by lia. lia.
  - replace (b * 1048576 + (k * 4096 + o)) with ((b * 256 + k) * 4096 + o) by lia.
    rewrite Z.div_add_l, Z.div_small, Z.add_0_r by lia. rewrite Z.add_comm, Z.mod_add by lia. by apply Z.mod_small.
  - replace (b * 1048576 + (k * 4096 + o)) with (o + (b * 256 + k) * 4096) by lia.
    rewrite Z.mod_add by lia. by apply Z.mod_small.
Qed.

(** A read and a write, whatever the request gets to *)
Lemma read_cfg_run (b k o : Z) (s : pcie (nat → R)) :
  g_pcie_info_table s = Some window → 0 <= b <= last → 0 <= k < 256 → 0 <= o < 4096 →
  pcie_read_cfg (b * 256 + k) o s
  = Ok (match broute (hw s) 0 root b k with Some f => rd (hw s (fid f)) o | None => PCIE_UNKNOWN_RESPONSE end, s).
Proof.
  intros Ht Hb Hk Ho. unfold pcie_read_cfg. rewrite (bind_Ok _ _ _ _ _ (cfg_addr_run b k s Ht Hb Hk)).
  destruct (decode_addr b k o Hb Hk Ho) as (H1 & H2 & H3). unfold on_hw. cbn [cfg_read_32 hw_inst tree_hw].
  rewrite H1, H2, H3. destruct (broute _ _ _ _ _); by rewrite set_hw_id.
Qed.

Lemma write_cfg_run (b k o v : Z) (s : pcie (nat → R)) (f : func) :
  g_pcie_info_table s = Some window → 0 <= b <= last → 0 <= k < 256 → 0 <= o < 4096 →
  broute (hw s) 0 root b k = Some f →
  pcie_write_cfg (b * 256 + k) o v s = Ok (tt, set_hw s (upd (hw s) (fid f) (wr (hw s (fid f)) o v))).
Proof.
  intros Ht Hb Hk Ho Hf. unfold pcie_write_cfg. rewrite (bind_Ok _ _ _ _ _ (cfg_addr_run b k s Ht Hb Hk)).
  destruct (decode_addr b k o Hb Hk Ho) as (H1 & H2 & H3). unfold on_hw. cbn [cfg_write_32 hw_inst tree_hw].
  by rewrite H1, H2, H3, Hf.
Qed.

(** *** Accesses to one function *)

Section Touch.

Context {HO : FnOk R} (Hnd : NoDup (fid <$> bus_funcs root)).
Context (b k : Z) (f : func) (Hb : 0 <= b <= last) (Hk : 0 <= k < 256) (Hin : f ∈ bus_funcs root).

(** The function can be reached. *)
Definition here (s : pcie (nat → R)) : Prop :=
  g_pcie_info_table s = Some window ∧ broute (hw s) 0 root b k = Some f ∧ fn_ok (fkd f) (hw s (fid f)).

(** Nothing but registers of the function and the next addresses have changed,
    and not the bus numbers. *)
Definition touched (s s' : pcie (nat → R)) : Prop :=
  (∀ i, i ≠ fid f → hw s' i = hw s i) ∧ fn_ok (fkd f) (hw s' (fid f))
  ∧ (is_bridge f = true → rd (hw s' (fid f)) BUS_NUM_REG_OFFSET = rd (hw s (fid f)) BUS_NUM_REG_OFFSET
      ∧ BAR_REG (rd (hw s' (fid f)) BAR0_OFFSET) = BAR_REG (rd (hw s (fid f)) BAR0_OFFSET))
  ∧ rest s' = rest s.

Lemma touched_refl (s : pcie (nat → R)) : here s → touched s s.
Proof. intros (_ & _ & Hok). done. Qed.

Lemma touched_trans (s s1 s2 : pcie (nat → R)) : touched s s1 → touched s1 s2 → touched s s2.
Proof.
  intros (A1 & A2 & A3 & A4) (B1 & B2 & B3 & B4). split_and!; [|done| |congruence].
  - intros i Hi. by rewrite B1, A1.
  - intros Hf. destruct (A3 Hf), (B3 Hf). split; congruence.
Qed.

Lemma same_id (g : func) : g ∈ bus_funcs root → fid g = fid f → g = f.
Proof.
  intros Hg He. apply list_elem_of_lookup_1 in Hg as [i Hi]. pose proof Hin as Hj.
  apply list_elem_of_lookup_1 in Hj as [j Hj].
  assert (i = j) as ->; [|congruence].
  eapply (NoDup_lookup _ i j (fid f) Hnd); rewrite list_lookup_fmap; [by rewrite Hi, <- He|by rewrite Hj].
Qed.

Lemma touched_buses (s s' : pcie (nat → R)) : touched s s' → same_buses (bus_funcs root) (hw s) (hw s').
Proof.
  intros (A1 & _ & A3 & _) g Hg Hbr. destruct (decide (fid g = fid f)) as [He|Hne]; [|by rewrite A1].
  apply same_id in He as ->; [|done]. by destruct (A3 Hbr) as [-> _].
Qed.

Lemma touched_here (s s' : pcie (nat → R)) : here s → touched s s' → here s'.
Proof.
  intros (H1 & H2 & H3) Ht. pose proof (touched_buses _ _ Ht) as Hs. destruct Ht as (A1 & A2 & A3 & A4).
  split_and!; [|by rewrite (broute_same (hw s) (hw s') root Hs)|done].
  unfold rest in A4. injection A4 as -> _ _ _ _ _. done.
Qed.

(** A computation that only accesses the function *)
Definition safe {A} (m : M (pcie (nat → R)) A) : Prop :=
  ∀ s, here s → ∃ a s', m s = Ok (a, s') ∧ touched s s'.

Lemma safe_ret {A} (a : A) : safe (mret a).
Proof. intros s Hs. exists a, s. split; [done|by apply touched_refl]. Qed.

Lemma safe_bind {A B} (m : M (pcie (nat → R)) A) (g : A → M (pcie (nat → R)) B) :
  safe m → (∀ a, safe (g a)) → safe (m ≫= g).
Proof.
  intros Hm Hg s Hs. destruct (Hm s Hs) as (a & s1 & Hr1 & Ht1).
  destruct (Hg a s1 (touched_here _ _ Hs Ht1)) as (a' & s2 & Hr2 & Ht2). exists a', s2.
  split; [by rewrite (bind_Ok _ _ _ _ _ Hr1)|by eapply touched_trans].
Qed.

Lemma read_here (o : Z) (s : pcie (nat → R)) : here s → 0 <= o < 4096 →
  pal_pci_cfg_read b (k / 8) (k mod 8) o s = Ok (rd (hw s (fid f)) o, s).
Proof.
  intros (H1 & H2 & _) Ho. unfold pal_pci_cfg_read. rewrite create_bdf by lia.
  by rewrite read_cfg_run, H2 by (done || lia).
Qed.

Lemma safe_read (o : Z) : 0 <= o < 4096 → safe (pal_pci_cfg_read b (k / 8) (k mod 8) o).
Proof. intros Ho s Hs. eexists _, s. split; [by apply read_here|by apply touched_refl]. Qed.

Lemma write_here (o v : Z) (s : pcie (nat → R)) : here s → 0 <= o < 4096 →
  pal_pci_cfg_write b (k / 8) (k mod 8) o v s
  = Ok (tt, set_hw s (upd (hw s) (fid f) (wr (hw s (fid f)) o v))).
Proof.
  intros (H1 & H2 & _) Ho. unfold pal_pci_cfg_write. rewrite create_bdf by lia.
  by rewrite (write_cfg_run b k o v s f) by (done || lia).
Qed.

Lemma safe_write (o v : Z) : 0 <= o < 4096 → is_bridge f = false ∨ o ≠ BUS_NUM_REG_OFFSET →
  safe (pal_pci_cfg_write b (k / 8) (k mod 8) o v).
Proof.
  intros Ho Hor s Hs. eexists tt, _. split; [by apply write_here|]. destruct Hs as (H1 & H2 & H3).
  split_and!; cbn [hw set_hw]; [| | |done].
  - intros i Hi. by rewrite fn_upd_other.
  - rewrite fn_upd_same. by apply fn_wr.
  - intros Hbr. rewrite fn_upd_same. destruct Hor as [Hor|Hor]; [congruence|].
    apply bool_decide_eq_true in Hbr. split; [by apply (fn_bus_kept (fkd f))|by apply (fn_bar_type (fkd f))].
Qed.

Lemma safe_get_bars : safe get_bars.
Proof. intros s Hs. eexists _, s. split; [reflexivity|by apply touched_refl]. Qed.

Lemma safe_put_bars (g : bar_vars → bar_vars) : safe (put_bars g).
Proof. intros s Hs. eexists tt, _. split; [reflexivity|]. destruct Hs as (_ & _ & Hok). done. Qed.

Ltac safe_step :=
  first
    [ apply safe_ret | apply safe_get_bars | apply safe_put_bars
    | apply safe_read; lia | apply safe_write; [lia|first [by left|by right|tauto|intuition lia]]
    | apply safe_bind; [|intros ?]
    | match goal with |- context [if ?c then _ else _] => destruct c end ].

Lemma safe_probe_64 (o : Z) : 0 <= o < 4092 → is_bridge f = false ∨ o ≠ BUS_NUM_REG_OFFSET ∧ o + 4 ≠ BUS_NUM_REG_OFFSET →
  safe (probe_bar_64 b (k / 8) (k mod 8) o).
Proof. intros Ho Hor. unfold probe_bar_64. repeat safe_step. Qed.

Lemma safe_probe_32 (o : Z) : 0 <= o < 4096 → is_bridge f = false ∨ o ≠ BUS_NUM_REG_OFFSET →
  safe (probe_bar_32 b (k / 8) (k mod 8) o).
Proof. intros Ho Hor. unfold probe_bar_32. repeat safe_step. Qed.

(** Programming the registers of an endpoint ends. *)
Lemma safe_bar_loop (n : nat) (o np p p64 : Z) : is_bridge f = false → BAR0_OFFSET <= o → 0x28 <= o + 4 * Z.of_nat n →
  safe (bar_loop b (k / 8) (k mod 8) n o np p p64).
Proof.
  intros Hf. unfold BAR0_OFFSET. revert o np p p64. induction n as [|n IH]; intros o np p p64 Ho Hn; cbn [bar_loop];
    unfold TYPE0_BAR_MAX_OFF; destruct (Z.ltb_spec 0x24 o) as [Hgt|Hle]; try apply safe_ret; [lia|].
  repeat first [apply IH; lia|apply safe_probe_64; [lia|by left]|apply safe_probe_32; [lia|by left]|safe_step].
Qed.

Lemma safe_program_bar : is_bridge f = false → safe (pcie_program_bar_reg b (k / 8) (k mod 8)).
Proof. intros Hf. by apply safe_bar_loop. Qed.

Lemma safe_resource_32 (x y z w : Z) : safe (get_resource_base_32 b (k / 8) (k mod 8) x y z w).
Proof. unfold get_resource_base_32, NON_PRE_FET_OFFSET, PRE_FET_OFFSET, BUS_NUM_REG_OFFSET. cbv zeta. repeat safe_step. Qed.

Lemma safe_resource_64 (x y : Z) : safe (get_resource_base_64 b (k / 8) (k mod 8) x y).
Proof. unfold get_resource_base_64, PRE_FET_OFFSET, BUS_NUM_REG_OFFSET. cbv zeta. repeat safe_step. Qed.

(** A 32-bit register of a bridge *)
Lemma safe_rp_bar_32 (o : Z) (n : nat) (s : pcie (nat → R)) : 0 <= o < 4096 → o ≠ BUS_NUM_REG_OFFSET →
  o <= TYPE1_BAR_MAX_OFF → here s → BAR_REG (rd (hw s (fid f)) o) = BAR_32_BIT →
  ∃ s', rp_bar_loop b (k / 8) (k mod 8) (Datatypes.S n) o s = rp_bar_loop b (k / 8) (k mod 8) n (o + 4) s' ∧ touched s s'.
Proof.
  intros Ho Hne Hmax Hs Hbar. cbn [rp_bar_loop]. rewrite (proj2 (Z.ltb_ge TYPE1_BAR_MAX_OFF o)) by done.
  rewrite (bind_Ok _ _ _ _ _ (read_here o s Hs Ho)). rewrite Hbar. change (BAR_32_BIT =? BAR_64_BIT) with false. cbv iota.
  destruct (safe_probe_32 o Ho ltac:(by right) s Hs) as (r & s1 & Hr1 & Ht1). rewrite (bind_Ok _ _ _ _ _ Hr1).
  pose proof (touched_here _ _ Hs Ht1) as Hs1.
  destruct (r.1 =? 0).
  - erewrite bind_Ok by reflexivity. by exists s1.
  - erewrite bind_Ok; [|erewrite bind_Ok by reflexivity; rewrite (bind_Ok _ _ _ _ _ (write_here o _ s1 Hs1 Ho)); reflexivity].
    eexists. split; [reflexivity|]. eapply touched_trans; [exact Ht1|].
    destruct (safe_write o (g_rp_bar32_value (bars s1)) Ho ltac:(by right) s1 Hs1) as (u & s2 & Hr2 & Ht2).
    rewrite (write_here o _ s1 Hs1 Ho) in Hr2. injection Hr2 as _ <-. eapply touched_trans; [exact Ht2|].
    destruct (safe_put_bars (λ v, set_rp32 v (u32 (g_rp_bar32_value v + r.1))) _ (touched_here _ _ Hs1 Ht2)) as (u2 & s3 & Hr3 & Ht3).
    injection Hr3 as _ <-. exact Ht3.
Qed.

(** The two registers of a bridge: the second is not taken for a 64-bit one, so
    the bus numbers after it are not overwritten. *)
Lemma safe_rp_bar : is_bridge f = true → safe (pcie_rp_program_bar b (k / 8) (k mod 8)).
Proof.
  intros Hbr s Hs. unfold pcie_rp_program_bar.
  assert (what (fkd f) = Bridge) as Hw by (by apply bool_decide_eq_true in Hbr).
  destruct (decide (BAR_REG (rd (hw s (fid f)) BAR0_OFFSET) = BAR_32_BIT)) as [H32|H64].
  - destruct (safe_rp_bar_32 BAR0_OFFSET 1 s) as (s1 & -> & Ht1); try done.
    pose proof (touched_here _ _ Hs Ht1) as Hs1. destruct Ht1 as (A1 & A2 & A3 & A4). destruct (A3 Hbr) as [A5 A6].
    destruct (safe_rp_bar_32 (BAR0_OFFSET + 4) 0 s1) as (s2 & -> & Ht2); try done.
    { apply (fn_bar_second (fkd f)); [apply Hs1|done|]. by rewrite A6. }
    exists tt, s2. split; [done|]. eapply touched_trans; [|exact Ht2]. done.
  - assert (safe (bar_size ← probe_bar_64 b (k / 8) (k mod 8) BAR0_OFFSET;
      (if bar_size =? 0 then mret ()
       else (v ← get_bars;
            pal_pci_cfg_write b (k / 8) (k mod 8) BAR0_OFFSET (u32 (g_rp_bar64_value v));;
            pal_pci_cfg_write b (k / 8) (k mod 8) (BAR0_OFFSET + 4) (u32 (Z.shiftr (g_rp_bar64_value v) 32))));;
      rp_bar_loop b (k / 8) (k mod 8) 1 (BAR0_OFFSET + 8))) as Hsafe.
    { change (rp_bar_loop b (k / 8) (k mod 8) 1 (BAR0_OFFSET + 8)) with (mret (M := M (pcie (nat → R))) tt).
      unfold BAR0_OFFSET, BUS_NUM_REG_OFFSET. repeat first [apply safe_probe_64; [lia|by right]|safe_step]. }
    cbn [rp_bar_loop]. change (TYPE1_BAR_MAX_OFF <? BAR0_OFFSET) with false. cbv iota.
    rewrite (bind_Ok _ _ _ _ _ (read_here BAR0_OFFSET s Hs ltac:(done))).
    assert ((BAR_REG (rd (hw s (fid f)) BAR0_OFFSET) =? BAR_64_BIT) = true) as ->.
    { unfold BAR_REG, BAR_64_BIT, BAR_32_BIT in *. change 1 with (2 ^ 1 - 1) in *. rewrite land_mask in * by lia.
      change (2 ^ 1 - 1) with 1. change (2 ^ 1) with 2 in *.
      pose proof (Z.mod_pos_bound (Z.shiftr (rd (hw s (fid f)) BAR0_OFFSET) 2) 2). apply Z.eqb_eq. lia. }
    exact (Hsafe s Hs).
Qed.

End Touch.

(** ** Enumerating a bus *)

(** A bus: its functions in order, each under a number of its own *)
Definition bus_wf (l : bus) : Prop :=
  StronglySorted (λ x y : Z * func, x.1 < y.1) l ∧ Forall (λ x : Z * func, 0 <= x.1 < 256) l.

Lemma on_bus_here (x : Z) (f : func) (pre post : bus) : bus_wf (pre ++ (x, f) :: post) →
  on_bus x (pre ++ (x, f) :: post) = Some f.
Proof.
  intros [Hs _]. induction pre as [|[y g] pre IH]; cbn [app on_bus]; [by rewrite Z.eqb_refl|].
  cbn [app] in Hs. apply StronglySorted_inv in Hs as [Hs Hy]. rewrite (proj2 (Z.eqb_neq y x)); [by apply IH|].
  apply Forall_app in Hy as [_ Hy]. apply Forall_cons in Hy as [Hy _]. cbn [fst] in Hy. lia.
Qed.

Lemma on_bus_none (k : Z) (l : bus) : (∀ y, y ∈ l → y.1 ≠ k) → on_bus k l = None.
Proof.
  induction l as [|[x f] l IH]; intros Hk; [done|]. cbn [on_bus].
  rewrite (proj2 (Z.eqb_neq x k)) by (apply (Hk (x, f)); left). apply IH. intros y Hy. apply Hk. by right.
Qed.

Lemma split_ids (pre post : bus) (x : Z) (f : func) : NoDup (fid <$> bus_funcs (pre ++ (x, f) :: post)) →
  (∀ i, i ∈ fid <$> bus_funcs pre → i ≠ fid f ∧ i ∉ fid <$> bus_funcs (fbelow f))
  ∧ fid f ∉ fid <$> bus_funcs (fbelow f).
Proof.
  intros Hn. rewrite bus_funcs_app, bus_funcs_cons, !fmap_app in Hn. destruct f as [id kd below]. rewrite funcs_eq in Hn.
  cbn [fid fbelow]. apply NoDup_app in Hn as (_ & Hpre & Hn). apply NoDup_app in Hn as (Hn & _ & _). cbn in Hn.
  apply NoDup_cons in Hn as [Hid _]. split; [|done]. intros i Hi. specialize (Hpre i Hi).
  split; intros Hbad; apply Hpre, elem_of_app; left; cbn; [rewrite Hbad; left|by right].
Qed.

(** Bus numbers as they are written *)
Lemma bus_reg (sub sec pri : Z) : 0 <= sub < 256 → 0 <= sec < 256 → 0 <= pri < 256 →
  let v := BUS_NUM_REG_CFG sub sec pri in 0 <= v < 2 ^ 32 ∧ bus_sec v = sec ∧ bus_sub v = sub.
Proof.
  intros H1 H2 H3 v. assert (v = (sub * 256 + sec) * 256 + pri) as ->.
  { unfold v, BUS_NUM_REG_CFG. rewrite !Z.shiftl_mul_pow2 by lia. change (2 ^ 16) with 65536. change (2 ^ 8) with 256.
    rewrite !u32_small by (unfold UINT32_MAX; lia).
    change 65536 with (2 ^ 16). rewrite (lor_fields sub (sec * 256) 16) by (change (2 ^ 16) with 65536; lia).
    change (2 ^ 16) with 65536. replace (sub * 65536 + sec * 256) with ((sub * 256 + sec) * 2 ^ 8) by (change (2 ^ 8) with 256; lia).
    rewrite (lor_fields _ pri 8) by (change (2 ^ 8) with 256; lia). change (2 ^ 8) with 256. lia. }
  change (2 ^ 32) with 4294967296. split_and!; try lia.
  - unfold bus_sec, SECBN_SHIFT, SECBN_MASK. change 0xff with (2 ^ 8 - 1). rewrite land_mask, Z.shiftr_div_pow2 by lia.
    change (2 ^ 8) with 256. rewrite Z.div_add_l, (Z.div_small pri), Z.add_0_r by lia.
    rewrite Z.add_comm, Z.mod_add by lia. by apply Z.mod_small.
  - unfold bus_sub, SUBBN_SHIFT, SUBBN_MASK. change 0xff with (2 ^ 8 - 1). rewrite land_mask, Z.shiftr_div_pow2 by lia.
    change (2 ^ 8) with 256. change (2 ^ 16) with 65536.
    replace ((sub * 256 + sec) * 256 + pri) with (sub * 65536 + (sec * 256 + pri)) by lia.
    rewrite Z.div_add_l, (Z.div_small (sec * 256 + pri)), Z.add_0_r by lia. by apply Z.mod_small.
Qed.

Section Enumerate.

Context {HO : FnOk R} (Hnd : NoDup (fid <$> bus_funcs root)).
Context (Hroot : bus_wf root) (Hwf : ∀ g, g ∈ bus_funcs root → bus_wf (fbelow g)).

(** The hierarchy behind the window *)
Definition ready (s : pcie (nat → R)) : Prop :=
  g_pcie_info_table s = Some window ∧ g_pcie_index s = 0 ∧ ∀ g, g ∈ bus_funcs root → fn_ok (fkd g) (hw s (fid g)).

(** What the enumeration of the bus [l] changes: its functions only *)
Definition only (l : bus) (s s' : pcie (nat → R)) : Prop :=
  (∀ i, i ∉ fid <$> bus_funcs l → hw s' i = hw s i) ∧ ready s' ∧ rest s' = rest s.

Lemma opened_wf (m : nat → R) (b : Z) (l : bus) : opened root m b l → bus_wf l.
Proof.
  intros Ho. destruct Ho as [|b c pre x f post Ho _ _ _ _ _]; [done|]. apply Hwf.
  eapply elem_of_submseteq; [|exact (opened_sub root m b _ Ho)]. eapply bus_funcs_elem, elem_of_app. right. left.
Qed.

Lemma opened_in (m : nat → R) (b x : Z) (pre post : bus) (f : func) :
  opened root m b (pre ++ (x, f) :: post) → f ∈ bus_funcs root.
Proof.
  intros Ho. eapply elem_of_submseteq; [|exact (opened_sub root m b _ Ho)]. eapply bus_funcs_elem, elem_of_app. right. left.
Qed.

Lemma opened_only (s s' : pcie (nat → R)) (b : Z) (l l' : bus) :
  opened root (hw s) b l → only l' s s' → fid <$> bus_funcs l' ⊆ fid <$> bus_funcs l → opened root (hw s') b l.
Proof.
  intros Ho (Hs & _) Hsub. eapply opened_frame; [exact Hnd|exact Ho|]. intros i Hi. rewrite Hs; [done|]. set_solver.
Qed.

(** A function of an open bus can be reached. *)
Lemma opened_here (s : pcie (nat → R)) (b k : Z) (pre post : bus) (f : func) : ready s →
  opened root (hw s) b (pre ++ (k, f) :: post) → 0 <= b <= 255 → here b k f s.
Proof.
  intros (H1 & _ & H3) Ho Hb. split_and!; [done| |by eapply H3, opened_in].
  rewrite (opened_route root _ _ _ Ho) by lia. unfold broute. rewrite Z.eqb_refl. eapply on_bus_here, opened_wf, Ho.
Qed.

Lemma only_one (f : func) (l : bus) (s s' : pcie (nat → R)) : ready s → f ∈ bus_funcs root → f ∈ bus_funcs l →
  (∀ i, i ≠ fid f → hw s' i = hw s i) → fn_ok (fkd f) (hw s' (fid f)) → rest s' = rest s → only l s s'.
Proof.
  intros (H1 & H2 & H3) Hin Hl A1 A2 A4. unfold rest in A4. injection A4 as B1 B2 B3 B4 B5 B6.
  split_and!; [| |by unfold rest; congruence].
  - intros i Hi. apply A1. intros ->. apply Hi. by apply list_elem_of_fmap_2.
  - split_and!; [congruence|congruence|]. intros g Hg. destruct (decide (fid g = fid f)) as [He|Hne].
    + by rewrite (same_id Hnd f Hin g Hg He).
    + rewrite A1 by done. by apply H3.
Qed.

Lemma touched_only (f : func) (l : bus) (s s' : pcie (nat → R)) : ready s → f ∈ bus_funcs root →
  f ∈ bus_funcs l → touched f s s' → only l s s'.
Proof. intros Hr Hin Hl (A1 & A2 & A3 & A4). by eapply only_one. Qed.

Lemma only_trans (l : bus) (s s1 s2 : pcie (nat → R)) : only l s s1 → only l s1 s2 → only l s s2.
Proof. intros (A1 & A2 & A3) (B1 & B2 & B3). split_and!; [|done|congruence]. intros i Hi. by rewrite B1, A1. Qed.

Lemma numbered_ext (m m' : nat → R) (l : bus) (n : Z) : (∀ i, i ∈ fid <$> bus_funcs l → m' i = m i) →
  numbered m l n → numbered m' l n.
Proof. intros He. apply numbered_same. intros g Hg _. rewrite He; [done|]. by apply list_elem_of_fmap_2. Qed.

(** Half way through a bus: the functions [pre] are done, [post] are left. *)
Definition halfway (b : Z) (pre post : bus) (x : enum_vars) (s0 s : pcie (nat → R)) : Prop :=
  opened root (hw s) b (pre ++ post) ∧ numbered (hw s) pre (b + 1)
  ∧ sec_bus x = b + 1 + bus_total pre ∧ sub_bus x = b + bus_total pre ∧ only (pre ++ post) s0 s.

Lemma identify (s : pcie (nat → R)) (b k : Z) (f : func) {A} (rest : Z → M (pcie (nat → R)) A) (skip : A) :
  here b k f s → 0 <= b <= last → 0 <= k < 256 →
  (vendor_id ← pal_pci_cfg_read b (k / 8) (k mod 8) 0;
   if (vendor_id =? 0) || (vendor_id =? 0xFFFFFFFF) then mret skip
   else rest vendor_id) s = rest (rd (hw s (fid f)) TYPE01_VIDR) s.
Proof.
  intros Hs Hb Hk. rewrite (bind_Ok _ _ _ _ _ (read_here b k f Hb Hk 0 s Hs ltac:(done))).
  destruct Hs as (_ & _ & Hok). destruct (fn_vendor _ _ Hok) as [V1 V2]. unfold TYPE01_VIDR, PCIE_UNKNOWN_RESPONSE in *.
  by rewrite (proj2 (Z.eqb_neq _ _) V1), (proj2 (Z.eqb_neq _ _) V2).
Qed.

Lemma elem_middle (x : Z) (f : func) (pre post : bus) : f ∈ bus_funcs (pre ++ (x, f) :: post).
Proof. eapply bus_funcs_elem, elem_of_app. right. left. Qed.

(** An endpoint, or a host bridge *)
Lemma halfway_leaf (below : Z → Z → M (pcie (nat → R)) Z) (b k : Z) (pre post : bus) (f : func) (x : enum_vars)
    (s0 s : pcie (nat → R)) :
  is_bridge f = false → 0 <= b <= last → 0 <= k < 256 → b + bus_total (pre ++ (k, f) :: post) <= last →
  halfway b pre ((k, f) :: post) x s0 s →
  ∃ x' s', enumerate_function below b (k / 8) (k mod 8) x s = Ok (x', s') ∧ halfway b (pre ++ [(k, f)]) post x' s0 s'.
Proof.
  intros Hf Hb Hk Htot (Ho & Hn & Hsec & Hsub & Honly). assert (what (fkd f) ≠ Bridge) as Hw by (by apply bool_decide_eq_false in Hf).
  pose proof (proj1 (proj2 Honly)) as Hready. pose proof (opened_here s b k pre post f Hready Ho ltac:(lia)) as Hs.
  pose proof (opened_in _ _ _ _ _ _ Ho) as Hin.
  assert (bus_total (pre ++ [(k, f)]) = bus_total pre) as Ht0.
  { rewrite bus_total_app, bus_total_cons, buses_eq, Hf. change (bus_total []) with 0. lia. }
  assert (∀ x' s', sec_bus x' = sec_bus x → sub_bus x' = sub_bus x → touched f s s' →
    halfway b (pre ++ [(k, f)]) post x' s0 s') as Hdone.
  { intros x' s' E1 E2 Ht.
    pose proof (touched_only f (pre ++ (k, f) :: post) s s' Hready Hin (elem_middle _ _ _ _) Ht) as Hstep.
    unfold halfway. rewrite Ht0, <- app_assoc, E1, E2. cbn [app]. split_and!; [| |done|done|by eapply only_trans].
    - eapply opened_only; [exact Ho|exact Hstep|done].
    - apply numbered_app. split; [|cbn [numbered]; split; [by apply numbered_f_leaf|done]].
      eapply numbered_ext; [|exact Hn]. intros i Hi. apply Ht.
      by apply (split_ids pre post k f (opened_nodup root _ _ _ Hnd Ho)). }
  unfold enumerate_function. rewrite identify with (f := f) by done.
  rewrite (bind_Ok _ _ _ _ _ (read_here b k f Hb Hk TYPE01_RIDR s Hs ltac:(done))).
  pose proof Hs as (_ & _ & Hok). rewrite (fn_class _ _ Hok).
  destruct (decide (what (fkd f) = HostBridge)) as [Hh|Hh].
  - rewrite bool_decide_eq_true_2 by done. exists x, s. split; [done|]. apply Hdone; [done|done|by eapply touched_refl].
  - rewrite bool_decide_eq_false_2 by done.
    rewrite (bind_Ok _ _ _ _ _ (read_here b k f Hb Hk HEADER_OFFSET s Hs ltac:(done))).
    rewrite (fn_header_type _ _ Hok), bool_decide_eq_false_2 by done. change (TYPE0_HEADER =? TYPE1_HEADER) with false.
    erewrite bind_Ok by reflexivity. change (TYPE0_HEADER =? TYPE0_HEADER) with true. cbv iota.
    destruct (safe_program_bar Hnd b k f Hb Hk Hin Hf s Hs) as (u & s' & Hr & Ht). rewrite (bind_Ok _ _ _ _ _ Hr).
    eexists _, s'. split; [reflexivity|]. apply Hdone; [done| |done]. cbn [sub_bus]. rewrite Hsub, Hsec.
    rewrite u32_small; [lia|]. pose proof (bus_total_nonneg pre). rewrite bus_total_app in Htot.
    pose proof (bus_total_nonneg ((k, f) :: post)). unfold UINT32_MAX. lia.
Qed.

(** Giving a bridge its bus numbers *)
Lemma write_bus (b k sub sec : Z) (l : bus) (f : func) (s : pcie (nat → R)) : ready s → here b k f s → 0 <= b <= last →
  0 <= k < 256 → 0 <= sub < 256 → 0 <= sec < 256 → f ∈ bus_funcs root → f ∈ bus_funcs l → is_bridge f = true →
  ∃ s', pal_pci_cfg_write b (k / 8) (k mod 8) BUS_NUM_REG_OFFSET (BUS_NUM_REG_CFG sub sec b) s = Ok (tt, s')
    ∧ only l s s' ∧ (∀ i, i ≠ fid f → hw s' i = hw s i)
    ∧ bus_sec (rd (hw s' (fid f)) BUS_NUM_REG_OFFSET) = sec ∧ bus_sub (rd (hw s' (fid f)) BUS_NUM_REG_OFFSET) = sub.
Proof.
  intros Hr Hs Hb Hk Hsub Hsec Hin Hl Hbr. eexists. split; [by apply write_here|]. cbn [hw set_hw]. rewrite fn_upd_same.
  pose proof Hs as (_ & _ & Hok). apply bool_decide_eq_true in Hbr.
  destruct (bus_reg sub sec b Hsub Hsec ltac:(lia)) as (V1 & V2 & V3).
  destruct (fn_bus _ _ _ Hok Hbr V1) as [-> ->]. split_and!; [|intros i Hi; by rewrite fn_upd_other|done|done].
  eapply (only_one f); try done; cbn [hw set_hw]; [intros i Hi; by rewrite fn_upd_other|].
  rewrite fn_upd_same. by apply fn_wr.
Qed.

(** [n] accesses to a function of an open bus *)
Lemma opened_safe {A} (m : M (pcie (nat → R)) A) (b k : Z) (pre post : bus) (f : func) (s : pcie (nat → R)) :
  safe b k f m → ready s → opened root (hw s) b (pre ++ (k, f) :: post) → 0 <= b <= 255 →
  ∃ a s', m s = Ok (a, s') ∧ touched f s s' ∧ only (pre ++ (k, f) :: post) s s'
    ∧ opened root (hw s') b (pre ++ (k, f) :: post).
Proof.
  intros Hm Hr Ho Hb. destruct (Hm s (opened_here _ _ _ _ _ _ Hr Ho Hb)) as (a & s' & Hrun & Ht).
  assert (only (pre ++ (k, f) :: post) s s') as Hstep.
  { eapply touched_only; [done|by eapply opened_in|apply elem_middle|done]. }
  exists a, s'. split_and!; [done|done|done|]. by eapply opened_only.
Qed.

Lemma below_sub (pre post : bus) (x : Z) (f : func) :
  fid <$> bus_funcs (fbelow f) ⊆ fid <$> bus_funcs (pre ++ (x, f) :: post).
Proof.
  intros i Hi. rewrite bus_funcs_app, bus_funcs_cons, !fmap_app. apply elem_of_app. right. apply elem_of_app. left.
  destruct f. rewrite funcs_eq. cbn. by right.
Qed.

Lemma only_below (pre post : bus) (x : Z) (f : func) (s s' : pcie (nat → R)) :
  only (fbelow f) s s' → only (pre ++ (x, f) :: post) s s'.
Proof.
  intros (A1 & A2 & A3). split_and!; [|done|done]. intros i Hi. apply A1. intros Hbad. apply Hi. by apply below_sub.
Qed.

(** What enumerating a bus is to do *)
Definition enumerates (below : Z → Z → M (pcie (nat → R)) Z) (b : Z) (l : bus) : Prop :=
  ∀ s, opened root (hw s) b l → ready s → ∃ s', below b (u32 (b + 1)) s = Ok (b + bus_total l, s')
    ∧ numbered (hw s') l (b + 1) ∧ only l s s'.

(** Before the bus behind a bridge is enumerated, the bridge is opened. *)
Lemma open_bridge (b k : Z) (pre post : bus) (f : func) (x : enum_vars) (s0 s : pcie (nat → R)) :
  is_bridge f = true → 0 <= b <= last → 0 <= k < 256 → 0 <= sec_bus x <= last →
  halfway b pre ((k, f) :: post) x s0 s →
  ∃ s1, (∀ A (next : M (pcie (nat → R)) A),
        (com_reg_value ← pal_pci_cfg_read b (k / 8) (k mod 8) COMMAND_REG_OFFSET;
         pal_pci_cfg_write b (k / 8) (k mod 8) COMMAND_REG_OFFSET (Z.lor com_reg_value REG_ACC_DATA);;
         pal_pci_cfg_write b (k / 8) (k mod 8) BUS_NUM_REG_OFFSET (BUS_NUM_REG_CFG 0xFF (sec_bus x) b);;
         v ← get_bars;
         pal_pci_cfg_write b (k / 8) (k mod 8) NON_PRE_FET_OFFSET (Z.land (Z.shiftr (g_bar32_np_start v) 16) 0xFFF0);;
         pal_pci_cfg_write b (k / 8) (k mod 8) PRE_FET_OFFSET (Z.land (Z.shiftr (g_bar32_p_start v) 16) 0xFFF0);;
         next) s = next s1)
    ∧ only (pre ++ (k, f) :: post) s s1 ∧ (∀ i, i ≠ fid f → hw s1 i = hw s i)
    ∧ opened root (hw s1) b (pre ++ (k, f) :: post) ∧ opened root (hw s1) (sec_bus x) (fbelow f).
Proof.
  intros Hf Hb Hk Hx (Ho & Hn & Hsec & Hsub & Honly). pose proof (proj1 (proj2 Honly)) as Hr.
  pose proof (opened_in _ _ _ _ _ _ Ho) as Hin.
  pose proof (read_here b k f Hb Hk COMMAND_REG_OFFSET s (opened_here _ _ _ _ _ _ Hr Ho ltac:(lia)) ltac:(done)) as R0.
  destruct (opened_safe _ b k pre post f s (safe_write b k f Hb Hk COMMAND_REG_OFFSET
    (Z.lor (rd (hw s (fid f)) COMMAND_REG_OFFSET) REG_ACC_DATA) ltac:(done) ltac:(by right)) Hr Ho ltac:(lia))
    as (? & s1 & R1 & T1 & O1 & P1).
  pose proof (proj1 (proj2 O1)) as Hr1.
  destruct (write_bus b k 0xFF (sec_bus x) (pre ++ (k, f) :: post) f s1 Hr1 (opened_here _ _ _ _ _ _ Hr1 P1 ltac:(lia)))
    as (s2 & R2 & O2 & E2 & S2 & U2); try done; try lia; [apply elem_middle|].
  pose proof (proj1 (proj2 O2)) as Hr2.
  assert (opened root (hw s2) b (pre ++ (k, f) :: post)) as P2 by (by eapply opened_only).
  destruct (opened_safe _ b k pre post f s2 (safe_write b k f Hb Hk NON_PRE_FET_OFFSET
    (Z.land (Z.shiftr (g_bar32_np_start (bars s2)) 16) 0xFFF0) ltac:(done) ltac:(by right)) Hr2 P2 ltac:(lia))
    as (? & s3 & R3 & T3 & O3 & P3).
  pose proof (proj1 (proj2 O3)) as Hr3.
  destruct (opened_safe _ b k pre post f s3 (safe_write b k f Hb Hk PRE_FET_OFFSET
    (Z.land (Z.shiftr (g_bar32_p_start (bars s2)) 16) 0xFFF0) ltac:(done) ltac:(by right)) Hr3 P3 ltac:(lia))
    as (? & s4 & R4 & T4 & O4 & P4).
  exists s4. destruct T1 as (T1 & _), T3 as (T3 & _ & T3' & _), T4 as (T4 & _ & T4' & _).
  destruct (T3' Hf) as [T3b _], (T4' Hf) as [T4b _].
  assert (∀ i, i ≠ fid f → hw s4 i = hw s i) as Hother by (intros i Hi; by rewrite T4, T3, E2, T1).
  split_and!; [| |done|done|].
  - intros A next. by rewrite (bind_Ok _ _ _ _ _ R0), (bind_Ok _ _ _ _ _ R1), (bind_Ok _ _ _ _ _ R2), (bind_Ok _ _ _ _ _ eq_refl),
      (bind_Ok _ _ _ _ _ R3), (bind_Ok _ _ _ _ _ R4).
  - eapply only_trans; [exact O1|]. eapply only_trans; [exact O2|]. by eapply only_trans.
  - eapply (opened_step root (hw s4) b (sec_bus x) pre k f post P4); [|done| | |].
    + assert (numbered (hw s4) pre (b + 1)) as Hn4.
      { eapply numbered_ext; [|exact Hn]. intros i Hi. apply Hother.
        by apply (split_ids pre post k f (opened_nodup root _ _ _ Hnd Ho)). }
      eapply Forall_impl; [apply (numbered_closed _ _ _ Hn4)|]. intros y Hy d Hd. apply Hy. lia.
    + pose proof (bus_total_nonneg pre). lia.
    + by rewrite T4b, T3b.
    + by rewrite T4b, T3b.
Qed.

(** Afterwards it gets its range, and its own registers. *)
Lemma close_bridge (b k sub : Z) (pre post : bus) (f : func) (x : enum_vars) (s : pcie (nat → R)) :
  is_bridge f = true → 0 <= b <= last → 0 <= k < 256 → 0 <= sec_bus x <= last → 0 <= sub <= last → ready s →
  opened root (hw s) b (pre ++ (k, f) :: post) →
  ∃ x' s', (pal_pci_cfg_write b (k / 8) (k mod 8) BUS_NUM_REG_OFFSET (BUS_NUM_REG_CFG sub (sec_bus x) b);;
             v ← get_bars;
             get_resource_base_32 b (k / 8) (k mod 8) (bar32_p_base x) (bar32_np_base x) (g_bar32_p_max v)
               (g_bar32_np_max v);;
             v ← get_bars;
             get_resource_base_64 b (k / 8) (k mod 8) (bar64_p_base x) (g_bar64_p_max v);;
             pcie_rp_program_bar b (k / 8) (k mod 8);;
             v ← get_bars;
             mret {| sec_bus := u32 (sub + 1); sub_bus := sub; bar32_p_base := g_bar32_p_start v;
                     bar32_np_base := g_bar32_np_start v; bar64_p_base := g_bar64_p_start v |}) s = Ok (x', s')
    ∧ sec_bus x' = sub + 1 ∧ sub_bus x' = sub
    ∧ only (pre ++ (k, f) :: post) s s' ∧ (∀ i, i ≠ fid f → hw s' i = hw s i)
    ∧ opened root (hw s') b (pre ++ (k, f) :: post)
    ∧ bus_sec (rd (hw s' (fid f)) BUS_NUM_REG_OFFSET) = sec_bus x
    ∧ bus_sub (rd (hw s' (fid f)) BUS_NUM_REG_OFFSET) = sub.
Proof.
  intros Hf Hb Hk Hx Hsub Hr Ho. pose proof (opened_in _ _ _ _ _ _ Ho) as Hin.
  destruct (write_bus b k sub (sec_bus x) (pre ++ (k, f) :: post) f s Hr (opened_here _ _ _ _ _ _ Hr Ho ltac:(lia)))
    as (s1 & R1 & O1 & E1 & S1 & U1); try done; try lia; [apply elem_middle|].
  rewrite (bind_Ok _ _ _ _ _ R1). pose proof (proj1 (proj2 O1)) as Hr1.
  assert (opened root (hw s1) b (pre ++ (k, f) :: post)) as P1 by (by eapply opened_only).
  erewrite bind_Ok by reflexivity.
  destruct (opened_safe _ b k pre post f s1 (safe_resource_32 Hnd b k f Hb Hk Hin (bar32_p_base x) (bar32_np_base x)
    (g_bar32_p_max (bars s1)) (g_bar32_np_max (bars s1))) Hr1 P1 ltac:(lia)) as (? & s2 & R2 & T2 & O2 & P2).
  rewrite (bind_Ok _ _ _ _ _ R2). pose proof (proj1 (proj2 O2)) as Hr2. erewrite bind_Ok by reflexivity.
  destruct (opened_safe _ b k pre post f s2 (safe_resource_64 Hnd b k f Hb Hk Hin (bar64_p_base x)
    (g_bar64_p_max (bars s2))) Hr2 P2 ltac:(lia)) as (? & s3 & R3 & T3 & O3 & P3).
  rewrite (bind_Ok _ _ _ _ _ R3). pose proof (proj1 (proj2 O3)) as Hr3.
  destruct (opened_safe _ b k pre post f s3 (safe_rp_bar Hnd b k f Hb Hk Hin Hf) Hr3 P3 ltac:(lia))
    as (? & s4 & R4 & T4 & O4 & P4).
  rewrite (bind_Ok _ _ _ _ _ R4). erewrite bind_Ok by reflexivity. eexists _, s4. split; [reflexivity|].
  cbn [sec_bus sub_bus]. destruct T2 as (T2 & _ & T2' & _), T3 as (T3 & _ & T3' & _), T4 as (T4 & _ & T4' & _).
  destruct (T2' Hf) as [T2b _], (T3' Hf) as [T3b _], (T4' Hf) as [T4b _].
  split_and!; [|done| | |done|by rewrite T4b, T3b, T2b|by rewrite T4b, T3b, T2b].
  - apply u32_small. unfold UINT32_MAX. lia.
  - eapply only_trans; [exact O1|]. eapply only_trans; [exact O2|]. by eapply only_trans.
  - intros i Hi. by rewrite T4, T3, T2, E1.
Qed.

(** A bridge *)
Lemma halfway_bridge (below : Z → Z → M (pcie (nat → R)) Z) (b k : Z) (pre post : bus) (f : func) (x : enum_vars)
    (s0 s : pcie (nat → R)) :
  is_bridge f = true → 0 <= b <= last → 0 <= k < 256 → b + bus_total (pre ++ (k, f) :: post) <= last →
  enumerates below (b + 1 + bus_total pre) (fbelow f) → halfway b pre ((k, f) :: post) x s0 s →
  ∃ x' s', enumerate_function below b (k / 8) (k mod 8) x s = Ok (x', s') ∧ halfway b (pre ++ [(k, f)]) post x' s0 s'.
Proof.
  intros Hf Hb Hk Htot Hbelow Hhalf. pose proof Hhalf as (Ho & Hn & Hsec & Hsub & Honly).
  assert (what (fkd f) = Bridge) as Hw by (by apply bool_decide_eq_true in Hf).
  rewrite bus_total_app, bus_total_cons, buses_eq, Hf in Htot.
  pose proof (bus_total_nonneg pre). pose proof (bus_total_nonneg post). pose proof (bus_total_nonneg (fbelow f)).
  pose proof (proj1 (proj2 Honly)) as Hready. pose proof (opened_here s b k pre post f Hready Ho ltac:(lia)) as Hs.
  destruct (split_ids pre post k f (opened_nodup root _ _ _ Hnd Ho)) as [Hids Hself].
  unfold enumerate_function. rewrite identify with (f := f) by done.
  rewrite (bind_Ok _ _ _ _ _ (read_here b k f Hb Hk TYPE01_RIDR s Hs ltac:(done))).
  pose proof Hs as (_ & _ & Hok). rewrite (fn_class _ _ Hok), bool_decide_eq_false_2 by (rewrite Hw; done).
  rewrite (bind_Ok _ _ _ _ _ (read_here b k f Hb Hk HEADER_OFFSET s Hs ltac:(done))).
  rewrite (fn_header_type _ _ Hok), bool_decide_eq_true_2 by done. change (TYPE1_HEADER =? TYPE1_HEADER) with true.
  change (TYPE1_HEADER =? TYPE0_HEADER) with false. cbv iota.
  destruct (open_bridge b k pre post f x s0 s) as (s1 & R1 & O1 & E1 & P1 & Q1); [done|done|done|lia|done|].
  rewrite <- Hsec in Hbelow. destruct (Hbelow s1 Q1 (proj1 (proj2 O1))) as (s2 & R2 & N2 & O2).
  pose proof (only_below pre post k f _ _ O2) as O2'. pose proof (opened_only _ _ _ _ _ P1 O2 (below_sub pre post k f)) as P2.
  destruct (close_bridge b k (sec_bus x + bus_total (fbelow f)) pre post f x s2)
    as (x' & s' & R3 & V1 & V2 & O3 & E3 & P3 & W1 & W2); [done|done|done|lia|lia|apply O2|done|].
  exists x', s'. split.
  { rewrite (bind_Ok _ _ s s' x'); [done|]. rewrite R1, (bind_Ok _ _ _ _ _ R2). exact R3. }
  assert (bus_total (pre ++ [(k, f)]) = bus_total pre + (1 + bus_total (fbelow f))) as Ht0.
  { rewrite bus_total_app, bus_total_cons, buses_eq, Hf. change (bus_total []) with 0. lia. }
  unfold halfway. rewrite Ht0, <- app_assoc. cbn [app]. split_and!; [done| |lia|lia|].
  - apply numbered_app. split; [|cbn [numbered]; split; [|done]; apply numbered_f_eq; [done|split_and!; [lia|lia|]]].
    + eapply numbered_ext; [|exact Hn]. intros i Hi. destruct (Hids i Hi) as [I1 I2].
      rewrite E3 by done. rewrite (proj1 O2) by done. by apply E1.
    + rewrite <- Hsec. eapply numbered_ext; [|exact N2]. intros i Hi. apply E3. by intros ->.
  - eapply only_trans; [exact Honly|]. eapply only_trans; [exact O1|]. by eapply only_trans.
Qed.

(** A number without function *)
Lemma enumerate_absent (below : Z → Z → M (pcie (nat → R)) Z) (b k : Z) (l : bus) (x : enum_vars) (s : pcie (nat → R)) :
  ready s → opened root (hw s) b l → 0 <= b <= last → 0 <= k < 256 → on_bus k l = None →
  enumerate_function below b (k / 8) (k mod 8) x s = Ok (x, s).
Proof.
  intros (Hw & _ & _) Ho Hb Hk Hnone. unfold enumerate_function, pal_pci_cfg_read. rewrite create_bdf by lia.
  rewrite (bind_Ok _ _ _ _ _ (read_cfg_run b k 0 s Hw Hb Hk ltac:(lia))).
  rewrite (opened_route root _ _ _ Ho) by lia. unfold broute. by rewrite Z.eqb_refl, Hnone.
Qed.

Lemma bus_wf_tail (pre post : bus) : bus_wf (pre ++ post) → StronglySorted (λ x y : Z * func, x.1 < y.1) post.
Proof. intros [Hs _]. induction pre as [|y pre IH]; [done|]. apply StronglySorted_inv in Hs as [Hs _]. by apply IH. Qed.

(** What is left of a bus at number [i] *)
Lemma bus_next (i : Z) (post : bus) : StronglySorted (λ x y : Z * func, x.1 < y.1) post → Forall (λ y, i <= y.1) post →
  (∃ f post', post = (i, f) :: post' ∧ Forall (λ y, i + 1 <= y.1) post') ∨ Forall (λ y, i + 1 <= y.1) post.
Proof.
  intros Hs Hi. destruct post as [|[j f] post]; [by right|]. apply StronglySorted_inv in Hs as [_ Hgt].
  apply Forall_cons in Hi as [Hj _]. cbn [fst] in Hj.
  assert (Forall (λ y : Z * func, i + 1 <= y.1) post) as Hpost by (eapply Forall_impl; [exact Hgt|]; cbn; lia).
  destruct (decide (j = i)) as [->|Hne]; [left; by exists f, post|right]. constructor; [cbn; lia|done].
Qed.

Lemma forall_before (i : Z) (pre : bus) : Forall (λ y, y.1 < i) pre → Forall (λ y, y.1 < i + 1) pre.
Proof. intros Hpre. eapply Forall_impl; [exact Hpre|]. cbn. lia. Qed.

(** Between two functions *)
Lemma on_bus_between (i : Z) (pre post : bus) : Forall (λ y, y.1 < i) pre → Forall (λ y, i + 1 <= y.1) post →
  on_bus i (pre ++ post) = None.
Proof.
  rewrite !Forall_forall. intros Hpre Hpost. apply on_bus_none. intros y Hy. apply elem_of_app in Hy as [Hy|Hy].
  - specialize (Hpre y Hy). lia.
  - specialize (Hpost y Hy). lia.
Qed.

(** The loop over the numbers from [i] on *)
Lemma enumerate_from (below : Z → Z → M (pcie (nat → R)) Z) (b : Z) (l : bus) (n : nat) (i : Z) (pre post : bus)
    (x : enum_vars) (s0 s : pcie (nat → R)) :
  0 <= b <= last → b + bus_total l <= last → bus_wf l →
  (∀ pre k f post, l = pre ++ (k, f) :: post → is_bridge f = true → enumerates below (b + 1 + bus_total pre) (fbelow f)) →
  l = pre ++ post → Forall (λ y, y.1 < i) pre → Forall (λ y, i <= y.1) post → 0 <= i → i + Z.of_nat n = 256 →
  halfway b pre post x s0 s →
  ∃ x' s', for_loop n i (λ k, enumerate_function below b (k / 8) (k mod 8)) x s = Ok (x', s') ∧ halfway b l [] x' s0 s'.
Proof.
  intros Hb Htot Hlwf Hbelow. revert i pre post x s. induction n as [|n IH]; intros i pre post x s Hl Hpre Hpost Hi Hn Hh.
  - assert (post = []) as ->; [|exists x, s; split; [done|]; by rewrite Hl, app_nil_r in *].
    destruct post as [|y post]; [done|]. apply Forall_cons in Hpost as [Hy _]. destruct Hlwf as [_ Hr].
    rewrite Hl, Forall_app, Forall_cons in Hr. lia.
  - assert (StronglySorted (λ x y : Z * func, x.1 < y.1) post) as Hsort by (rewrite Hl in Hlwf; by eapply bus_wf_tail).
    cbn [for_loop]. destruct (bus_next i post Hsort Hpost) as [(f & post' & -> & Hpost')|Hpost'].
    + assert (∃ x1 s1, enumerate_function below b (i / 8) (i mod 8) x s = Ok (x1, s1)
        ∧ halfway b (pre ++ [(i, f)]) post' x1 s0 s1) as (x1 & s1 & Hr & Hh1).
      { destruct (is_bridge f) eqn:Hf; [|apply halfway_leaf; subst; done || lia].
        apply halfway_bridge; subst; try done; [lia|]. by eapply Hbelow. }
      rewrite (bind_Ok _ _ _ _ _ Hr). eapply (IH (i + 1) (pre ++ [(i, f)]) post'); try done; try lia.
      * by rewrite <- app_assoc.
      * apply Forall_app. split; [by apply forall_before|]. constructor; [cbn; lia|done].
    + rewrite (bind_Ok _ _ s s x).
      * eapply (IH (i + 1) pre post); try done; [by apply forall_before|lia|lia].
      * destruct Hh as (Ho & _ & _ & _ & Honly). eapply enumerate_absent; [apply Honly|exact Ho|done|lia|].
        by apply on_bus_between.
Qed.

(** Enumerating a bus that is open numbers everything behind it, in order. *)
Lemma enumerate_device_ok (depth : nat) (b : Z) (l : bus) : bus_total l < Z.of_nat depth → 0 <= b →
  b + bus_total l <= last → enumerates (pcie_enumerate_device depth) b l.
Proof.
  revert b l. induction depth as [|depth IH]; intros b l Hd Hb Htot; pose proof (bus_total_nonneg l); [lia|].
  intros s Ho Hr. cbn [pcie_enumerate_device]. erewrite bind_Ok by reflexivity. pose proof Hr as (Hw & Hi & _).
  rewrite (bind_Ok _ _ s s window) by (unfold info; erewrite bind_Ok by reflexivity; by rewrite Hw).
  erewrite bind_Ok by reflexivity. rewrite Hi. erewrite bind_Ok by reflexivity. cbn [end_bus_num].
  rewrite (u32_small (last + 1)), (u32_small (b + 1)) by (unfold UINT32_MAX; lia). rewrite (proj2 (Z.eqb_neq b (last + 1))) by lia.
  match goal with |- context [each_function _ ?x0] => set (x := x0) end.
  assert (∃ x' s', each_function (enumerate_function (pcie_enumerate_device depth) b) x s = Ok (x', s')
    ∧ halfway b l [] x' s s') as (x' & s' & Hrun & Hdone).
  { rewrite each_function_run. eapply (enumerate_from _ b l 256 0 [] l); try done; [lia|by eapply opened_wf| | |].
    - intros pre k f post -> Hf. rewrite bus_total_app, bus_total_cons, buses_eq, Hf in *.
      pose proof (bus_total_nonneg pre). pose proof (bus_total_nonneg post). apply IH; lia.
    - eapply Forall_impl; [exact (proj2 (opened_wf _ _ _ Ho))|]. cbn. lia.
    - change (bus_total []) with 0. subst x. unfold halfway. cbn [sec_bus sub_bus app numbered]. change (bus_total []) with 0.
      split_and!; try done; lia. }
  rewrite (bind_Ok _ _ _ _ _ Hrun). exists s'. destruct Hdone as (_ & D1 & D2 & D3 & D4). rewrite app_nil_r in D4.
  split_and!; [|done|done..]. unfold mret, M_ret. by rewrite D3.
Qed.

End Enumerate.

End Access.
