(* ===== verification/PcieTable.v ===== *)
(** * The table of PCIe devices

    What [pcie_init()] does with a hierarchy of [PcieTree] behind one window:
    after the enumeration of [PcieEnum] it lists the PCI Express functions, in
    the order of their numbers, with their root ports and capabilities. *)

From Stdlib Require Import Sorted.
From S2P Require Import Prelude Bits Pcie PcieTree PcieEnum.

Local Open Scope Z_scope.

(** ** Loops *)

Lemma for_loop_inv {S A} (I : S → Prop) (n : nat) (i : Z) (f : Z → A → M S A) (acc : A) (s : S) :
  (∀ j acc s, i <= j < i + Z.of_nat n → I s → ∃ acc' s', f j acc s = Ok (acc', s') ∧ I s') → I s →
  ∃ acc' s', for_loop n i f acc s = Ok (acc', s') ∧ I s'.
Proof.
  revert i acc s. induction n as [|n IH]; intros i acc s Hf Hi; [by exists acc, s|]. cbn [for_loop].
  destruct (Hf i acc s ltac:(lia) Hi) as (a1 & s1 & Hr & Hi1). rewrite (bind_Ok _ _ _ _ _ Hr).
  apply IH; [|done]. intros j a t Hj. apply Hf. lia.
Qed.

(** A loop that works through a list in the state, up to [post] *)
Lemma for_loop_list {S D} (mk : list D → S) (ok : list D → Prop) (rel : D → D → Prop) (body : Z → unit → M S unit)
    (pre l post : list D) :
  (∀ pre d mid, ok (pre ++ d :: mid ++ post) →
    ∃ d', body (Z.of_nat (length pre)) tt (mk (pre ++ d :: mid ++ post)) = Ok (tt, mk (pre ++ d' :: mid ++ post))
      ∧ rel d d' ∧ ok (pre ++ d' :: mid ++ post)) →
  ok (pre ++ l ++ post) →
  ∃ l', for_loop (length l) (Z.of_nat (length pre)) body tt (mk (pre ++ l ++ post)) = Ok (tt, mk (pre ++ l' ++ post))
    ∧ Forall2 rel l l' ∧ ok (pre ++ l' ++ post).
Proof.
  intros Hbody. revert pre. induction l as [|d l IH]; intros pre Hok; [by exists []|].
  cbn [length for_loop app] in *. destruct (Hbody pre d l Hok) as (d' & Hr & Hrel & Hok').
  rewrite (bind_Ok _ _ _ _ _ Hr). destruct (IH (pre ++ [d'])) as (l' & Hl & Hrels & Hok2).
  { by rewrite <- app_assoc. }
  rewrite length_app, <- !app_assoc in Hl. cbn [length app] in Hl.
  replace (Z.of_nat (length pre) + 1) with (Z.of_nat (length pre + 1)) by lia. rewrite Hl.
  exists (d' :: l'). rewrite <- app_assoc in Hok2. split_and!; [done|by constructor|done].
Qed.

(** ** Where requests get to *)

Lemma on_bus_in (k : Z) (l : bus) (f : func) : on_bus k l = Some f → (k, f) ∈ l.
Proof.
  induction l as [|[x g] l IH]; [done|]. cbn [on_bus]. destruct (Z.eqb_spec x k) as [->|]; [intros [= ->]; left|].
  intros Hf. right. by apply IH.
Qed.

Lemma pass_in {R} `{FnHw R} (m : nat → R) (l : bus) (b k : Z) (f : func) : pass m l b k = Some f → f ∈ bus_funcs l.
Proof.
  assert (∀ g, froute m g b k = Some f → f ∈ funcs g) as Hg.
  { intros g. induction g as [id kd below IH] using func_rect_all. rewrite froute_eq, funcs_eq. unfold broute.
    destruct (b =? _). { intros Hf%on_bus_in. right. by eapply bus_funcs_elem. }
    intros Hf. right. induction IH as [|[x g] l' Hg _ IHl]; [done|]. cbn [pass snd] in *. rewrite bus_funcs_cons.
    apply elem_of_app. destruct (claims m g b); [left; by apply Hg|right; by apply IHl]. }
  induction l as [|[x g] l IH]; [done|]. cbn [pass]. rewrite bus_funcs_cons. intros Hf. apply elem_of_app.
  destruct (claims m g b); [left; by apply Hg|right; by apply IH].
Qed.

Lemma broute_in {R} `{FnHw R} (m : nat → R) (c : Z) (l : bus) (b k : Z) (f : func) :
  broute m c l b k = Some f → f ∈ bus_funcs l.
Proof. unfold broute. destruct (b =? c); [intros Hf%on_bus_in; by eapply bus_funcs_elem|apply pass_in]. Qed.

(** The numbers of the bridges below a numbered bus *)
Lemma numbered_range {R} `{FnHw R} (m : nat → R) (l : bus) (next : Z) (g : func) : numbered m l next →
  (∀ h, h ∈ bus_funcs l → is_bridge h = false → fbelow h = []) → g ∈ bus_funcs l → is_bridge g = true →
  next <= bus_sec (rd (m (fid g)) BUS_NUM_REG_OFFSET)
  ∧ bus_sub (rd (m (fid g)) BUS_NUM_REG_OFFSET) < next + bus_total l.
Proof.
  intros Hn Hl Hg Hb. revert l next Hn Hl Hg.
  assert (∀ l, Forall (λ x, ∀ next, numbered_f m x.2 next → (∀ h, h ∈ funcs x.2 → is_bridge h = false → fbelow h = []) →
      g ∈ funcs x.2 → next <= bus_sec (rd (m (fid g)) BUS_NUM_REG_OFFSET)
      ∧ bus_sub (rd (m (fid g)) BUS_NUM_REG_OFFSET) < next + buses x.2) l →
    ∀ next, numbered m l next → (∀ h, h ∈ bus_funcs l → is_bridge h = false → fbelow h = []) → g ∈ bus_funcs l →
      next <= bus_sec (rd (m (fid g)) BUS_NUM_REG_OFFSET)
      ∧ bus_sub (rd (m (fid g)) BUS_NUM_REG_OFFSET) < next + bus_total l) as Hbus.
  { intros l IH. induction IH as [|[x h] l Hh _ IHl]; intros next Hn Hl Hg; [by apply elem_of_nil in Hg|].
    cbn [numbered snd] in *. rewrite bus_funcs_cons in *. rewrite bus_total_cons. destruct Hn as [N1 N2].
    pose proof (bus_total_nonneg l). pose proof (buses_nonneg h). apply elem_of_app in Hg as [Hg|Hg].
    - destruct (Hh _ N1 ltac:(intros; apply Hl; [by apply elem_of_app; left|done]) Hg). lia.
    - destruct (IHl _ N2 ltac:(intros; apply Hl; [by apply elem_of_app; right|done]) Hg). lia. }
  assert (∀ f next, numbered_f m f next → (∀ h, h ∈ funcs f → is_bridge h = false → fbelow h = []) →
    g ∈ funcs f → next <= bus_sec (rd (m (fid g)) BUS_NUM_REG_OFFSET)
    ∧ bus_sub (rd (m (fid g)) BUS_NUM_REG_OFFSET) < next + buses f) as Hf.
  { intros f. induction f as [id kd below IH] using func_rect_all. intros next Hn Hl Hg. rewrite buses_eq.
    rewrite funcs_eq in *. destruct (is_bridge (Func id kd below)) eqn:Hbr.
    - apply (numbered_f_eq m _ next Hbr) in Hn as (Hsec & Hsub & Hn). cbn [fbelow fid] in *. pose proof (bus_total_nonneg below).
      apply elem_of_cons in Hg as [->|Hg]; [cbn [fid]; lia|].
      destruct (Hbus below IH _ Hn ltac:(intros; apply Hl; [by right|done]) Hg). lia.
    - specialize (Hl _ ltac:(left) Hbr) as Hnil. cbn in Hnil. rewrite Hnil in Hg.
      apply list_elem_of_singleton in Hg as ->. congruence. }
  intros l. apply Hbus, Forall_true. intros y. apply Hf.
Qed.

Section Window.

Context {R : Type} `{FnHw R} {HO : FnOk R} (base last : Z) (root : bus).
Context (Hbase : 0 < base) (Htop : base + 2 ^ 28 < 2 ^ 64) (Hlast : 0 <= last <= 255).
Context (Hnd : NoDup (fid <$> bus_funcs root)) (Hroot : bus_wf root).
Context (Hwf : ∀ g, g ∈ bus_funcs root → bus_wf (fbelow g)) (Htotal : bus_total root <= last).
Context (Hleaf : ∀ g, g ∈ bus_funcs root → is_bridge g = false → fbelow g = []).

#[local] Hint Extern 0 (PcieHw (nat → R)) => exact (hw_inst base root) : typeclass_instances.

Abbreviation ready := (ready base last root).
Abbreviation window := (window base last).

(** ** The primary bus numbers *)

(** The hierarchy with its buses numbered *)
Definition settled (s : pcie (nat → R)) : Prop := ready s ∧ numbered (hw s) root 1.

Lemma ready_here (s : pcie (nat → R)) (b k : Z) (f : func) : ready s → broute (hw s) 0 root b k = Some f →
  here base last root b k f s.
Proof. intros (H1 & _ & H3) Hf. split_and!; [done|done|]. by eapply H3, broute_in. Qed.

Lemma read_absent (s : pcie (nat → R)) (b k o : Z) : g_pcie_info_table s = Some window → 0 <= b <= last → 0 <= k < 256 →
  0 <= o < 4096 → broute (hw s) 0 root b k = None →
  pal_pci_cfg_read b (k / 8) (k mod 8) o s = Ok (PCIE_UNKNOWN_RESPONSE, s).
Proof.
  intros Hs Hb Hk Ho Hno. unfold pal_pci_cfg_read. rewrite create_bdf by lia.
  rewrite (read_cfg_run base last root Hbase Htop Hlast b k o s Hs Hb Hk Ho). by rewrite Hno.
Qed.

(** Clearing the primary bus number leaves the others. *)
Lemma clear_mask (v : Z) : 0 <= v < 2 ^ 32 →
  0 <= Z.land v PRI_BUS_CLEAR_MASK < 2 ^ 32 ∧ bus_sec (Z.land v PRI_BUS_CLEAR_MASK) = bus_sec v
  ∧ bus_sub (Z.land v PRI_BUS_CLEAR_MASK) = bus_sub v.
Proof.
  intros Hv. split; [|split].
  - split; [apply Z.land_nonneg; lia|]. replace (Z.land v PRI_BUS_CLEAR_MASK) with (Z.land (Z.land v PRI_BUS_CLEAR_MASK) (2 ^ 32 - 1)).
    + rewrite land_mask by lia. apply Z.mod_pos_bound. lia.
    + rewrite <- Z.land_assoc. done.
  - unfold bus_sec. rewrite Z.shiftr_land, <- Z.land_assoc. done.
  - unfold bus_sub. rewrite Z.shiftr_land, <- Z.land_assoc. done.
Qed.

Lemma clear_function (b k : Z) (s : pcie (nat → R)) : settled s → 0 <= b <= last → 0 <= k < 256 →
  ∃ s', clear_pri_function b (k / 8) (k mod 8) s = Ok (tt, s') ∧ settled s' ∧ rest s' = rest s.
Proof.
  intros [Hr Hn] Hb Hk. unfold clear_pri_function. destruct (broute (hw s) 0 root b k) as [f|] eqn:Hf.
  - pose proof (ready_here s b k f Hr Hf) as Hs. pose proof (broute_in _ _ _ _ _ _ Hf) as Hin.
    rewrite (identify base last root Hbase Htop Hlast s b k f) by done.
    rewrite (bind_Ok _ _ _ _ _ (read_here base last root Hbase Htop Hlast b k f Hb Hk HEADER_OFFSET s Hs ltac:(done))).
    pose proof Hs as (_ & _ & Hok). rewrite (fn_header_type _ _ Hok).
    destruct (decide (what (fkd f) = Bridge)) as [Hw|Hw].
    2: { rewrite bool_decide_eq_false_2 by done. exists s. done. }
    rewrite bool_decide_eq_true_2 by done. change (TYPE1_HEADER =? TYPE1_HEADER) with true. cbv iota.
    rewrite (bind_Ok _ _ _ _ _ (read_here base last root Hbase Htop Hlast b k f Hb Hk BUS_NUM_REG_OFFSET s Hs ltac:(done))).
    rewrite (write_here base last root Hbase Htop Hlast b k f Hb Hk) by done. eexists. split; [reflexivity|].
    destruct (clear_mask _ (fn_bus_range _ _ Hok Hw)) as (V1 & V2 & V3). destruct (fn_bus _ _ _ Hok Hw V1) as [W1 W2].
    set (s' := set_hw _ _).
    assert (only base last root root s s') as (O1 & O2 & O3).
    { eapply (only_one base last root Hnd f); try done; unfold s'; cbn [hw set_hw]; [intros i Hi; by rewrite fn_upd_other|].
      rewrite fn_upd_same. by apply fn_wr. }
    split; [|done]. split; [done|]. eapply numbered_same; [|exact Hn]. intros g Hg Hbr.
    destruct (decide (fid g = fid f)) as [He|Hne].
    + apply (same_id root Hnd f Hin) in He as ->; [|done]. cbn [hw set_hw s']. rewrite fn_upd_same. split; congruence.
    + cbn [hw set_hw s']. by rewrite fn_upd_other.
  - rewrite (bind_Ok _ _ _ _ _ (read_absent s b k 0 (proj1 Hr) Hb Hk ltac:(lia) Hf)). by exists s.
Qed.

Lemma clear_pri_bus_ok (s : pcie (nat → R)) : settled s →
  ∃ s', pcie_clear_pri_bus s = Ok (tt, s') ∧ settled s' ∧ rest s' = rest s.
Proof.
  intros Hs. pose proof Hs as [(Hw & Hi & _) _]. unfold pcie_clear_pri_bus.
  rewrite (bind_Ok _ _ s s window) by (unfold info; erewrite bind_Ok by reflexivity; by rewrite Hw).
  erewrite bind_Ok by reflexivity. rewrite Hi. erewrite bind_Ok by reflexivity. cbn [end_bus_num].
  match goal with |- ∃ s', ?run s = _ ∧ _ =>
    assert (∃ u s', run s = Ok (u, s') ∧ settled s' ∧ rest s' = rest s) as ([] & s' & Hrun & Hs' & Hrest) end.
  2: { by exists s'. }
  apply (for_loop_inv (λ t, settled t ∧ rest t = rest s)); [|done].
  intros b [] t Hb [Ht Hrt]. rewrite each_function_run. apply (for_loop_inv (λ t, settled t ∧ rest t = rest s)); [|done].
  intros k [] t' Hk [Ht' Hrt']. rewrite Z2Nat.id in Hb by lia.
  destruct (clear_function b k t' Ht' ltac:(lia) ltac:(lia)) as (s' & -> & Hs' & Hrest). exists tt, s'.
  split_and!; [done|done|congruence].
Qed.

(** ** Enumeration *)

Context {PP : PciePlat} (Hinfo : plat_pcie_get_info_table = Some window) (Hbars : plat_pcie_get_bar_config.1 = 0).

Lemma enumerate_devices_ok (depth : nat) (s : pcie (nat → R)) : bus_total root < Z.of_nat depth →
  g_pcie_index s = 0 → (∀ g, g ∈ bus_funcs root → fn_ok (fkd g) (hw s (fid g))) →
  ∃ s', pcie_enumerate_devices depth s = Ok (tt, s') ∧ settled s'
    ∧ g_pcie_bdf_table s' = g_pcie_bdf_table s ∧ num_entries s' = num_entries s ∧ device s' = device s
    ∧ is_init s' = is_init s.
Proof.
  intros Hd Hi Hok. unfold pcie_enumerate_devices. rewrite Hinfo, Hbars. erewrite bind_Ok by reflexivity.
  erewrite bind_Ok by reflexivity. cbn [info_entries PcieEnum.window]. change (1 =? 0) with false. change (0 =? 0) with true. cbv iota. cbn [negb].
  erewrite bind_Ok by reflexivity. erewrite bind_Ok by reflexivity. erewrite bind_Ok by reflexivity.
  set (s1 := set_bars _ _). assert (ready s1) as Hr1 by done.
  change (g_pcie_index s1) with (g_pcie_index s). rewrite Hi. change (Z.to_nat (1 - 0)) with 1%nat.
  destruct (enumerate_device_ok base last root Hbase Htop Hlast Hnd Hroot Hwf depth 0 root Hd ltac:(lia) Htotal s1
    (opened_root root (hw s1)) Hr1) as (s2 & R2 & N2 & O2 & Hr2 & E2).
  destruct (clear_pri_bus_ok s2 (conj Hr2 N2)) as (s3 & R3 & Hs3 & E3).
  rewrite (bind_Ok _ _ s1 (set_info s3 (g_pcie_info_table s3) 1) tt).
  - erewrite bind_Ok by reflexivity. eexists. split; [reflexivity|].
    rewrite E2 in E3. unfold rest in E3. injection E3 as F1 F2 F3 F4 F5 F6. split; [|done].
    destruct Hs3 as [(G1 & G2 & G3) G4]. split; [split_and!|]; done.
  - cbn [enumerate_blocks]. erewrite bind_Ok by reflexivity. change (g_pcie_index s1) with (g_pcie_index s). rewrite Hi.
    erewrite bind_Ok by reflexivity. cbn [start_bus_num]. rewrite (bind_Ok _ _ _ _ _ R2), (bind_Ok _ _ _ _ _ R3).
    erewrite bind_Ok by reflexivity. destruct Hs3 as [(G1 & G2 & G3) G4]. rewrite G2. done.
Qed.

(** ** Capabilities *)

Context (cap_fuel : nat) (Hfuel : (cap_bound ≤ cap_fuel)%nat) (Hfuel' : (4096 ≤ cap_fuel)%nat).

Lemma bdf_read (b k : Z) (f : func) (s : pcie (nat → R)) (o : Z) : here base last root b k f s → 0 <= b <= last →
  0 <= k < 256 → 0 <= o < 4096 → pcie_read_cfg (b * 256 + k) o s = Ok (rd (hw s (fid f)) o, s).
Proof.
  intros (H1 & H2 & _) Hb Hk Ho. rewrite (read_cfg_run base last root Hbase Htop Hlast) by done. by rewrite H2.
Qed.

Lemma cap_loop_run (b k : Z) (f : func) (s : pcie (nat → R)) (cid idmask shift j : Z) (fuel : nat) (off : Z)
    (l : list (Z * Z)) :
  here base last root b k f s → 0 <= b <= last → 0 <= k < 256 → 0 <= j <= 12 →
  caps (rd (hw s (fid f))) idmask shift (2 ^ j - 1) off l → (length l ≤ fuel)%nat → 0 <= off < 4096 →
  cap_loop (b * 256 + k) cid idmask shift (2 ^ j - 1) fuel off s = Ok (find_cap cid l, s).
Proof.
  intros Hs Hb Hk Hj Hc. revert fuel. induction Hc as [|off l Hne Hc IH]; intros fuel Hlen Hoff; [by destruct fuel|].
  destruct fuel as [|fuel]; [cbn in Hlen; lia|]. cbn [cap_loop find_cap]. rewrite (proj2 (Z.eqb_neq off 0) Hne).
  rewrite (bind_Ok _ _ _ _ _ (bdf_read b k f s off Hs Hb Hk Hoff)). destruct (_ =? cid); [done|].
  apply IH; [cbn in Hlen; lia|]. rewrite land_mask by lia. pose proof (Z.mod_pos_bound (Z.shiftr (rd (hw s (fid f)) off) shift) (2 ^ j)).
  assert (2 ^ j <= 2 ^ 12) by (apply Z.pow_le_mono_r; lia). change (2 ^ 12) with 4096 in *. lia.
Qed.

(** The search in either list of a function *)
Lemma find_pci_cap (b k cid : Z) (f : func) (s : pcie (nat → R)) (l : list (Z * Z)) : here base last root b k f s →
  0 <= b <= last → 0 <= k < 256 → pci_caps (rd (hw s (fid f))) l → (length l ≤ cap_bound)%nat →
  pcie_find_capability cap_fuel (b * 256 + k) PCIE_CAP cid s = Ok (find_cap cid l, s).
Proof.
  intros Hs Hb Hk Hl Hlen. unfold pcie_find_capability. change (PCIE_CAP =? PCIE_CAP) with true. cbv iota.
  rewrite (bind_Ok _ _ _ _ _ (bdf_read b k f s TYPE01_CPR Hs Hb Hk ltac:(done))).
  apply (cap_loop_run b k f s cid PCIE_CIDR_MASK PCIE_NCPR_SHIFT 8); try done; [lia|].
  unfold TYPE01_CPR_MASK. change 0xff with (2 ^ 8 - 1). rewrite land_mask by lia.
  pose proof (Z.mod_pos_bound (rd (hw s (fid f)) TYPE01_CPR) (2 ^ 8)). change (2 ^ 8) with 256 in *. lia.
Qed.

Lemma find_ext_cap (b k cid : Z) (f : func) (s : pcie (nat → R)) (l : list (Z * Z)) : here base last root b k f s →
  0 <= b <= last → 0 <= k < 256 → ext_caps (rd (hw s (fid f))) l → (length l ≤ cap_bound)%nat →
  pcie_find_capability cap_fuel (b * 256 + k) PCIE_ECAP cid s = Ok (find_cap cid l, s).
Proof.
  intros Hs Hb Hk Hl Hlen. unfold pcie_find_capability. change (PCIE_ECAP =? PCIE_CAP) with false.
  change (PCIE_ECAP =? PCIE_ECAP) with true. cbv iota.
  apply (cap_loop_run b k f s cid PCIE_ECAP_CIDR_MASK PCIE_ECAP_NCPR_SHIFT 12); try done. lia.
Qed.

(** The lists have one shape. *)
Lemma caps_fun (get : Z → Z) (idmask shift nmask off : Z) (l l' : list (Z * Z)) :
  caps get idmask shift nmask off l → caps get idmask shift nmask off l' → l = l'.
Proof.
  intros Hl. revert l'. induction Hl as [|off l Hne Hl IH]; intros l' Hl'; inversion Hl' as [|? l2 Hne2 Hl2]; subst; try done.
  by rewrite (IH l2).
Qed.

Definition dev_type (f : func) : Z := Z.shiftl 1 (port (fkd f)).

Lemma port_type_run (b k : Z) (f : func) (s : pcie (nat → R)) : here base last root b k f s → 0 <= b <= last →
  0 <= k < 256 → express (fkd f) = true → pcie_device_port_type cap_fuel (b * 256 + k) s = Ok (dev_type f, s).
Proof.
  intros Hs Hb Hk He. pose proof Hs as (_ & _ & Hok). destruct (fn_caps _ _ Hok) as (l & Hl & Hlen & Hfind).
  unfold pcie_device_port_type. rewrite (bind_Ok _ _ _ _ _ (find_pci_cap b k CID_PCIECS f s l Hs Hb Hk Hl Hlen)).
  destruct (find_cap CID_PCIECS l) as [off|] eqn:Hf; [|congruence]. destruct Hfind as [_ Hport].
  assert (0 <= off < 256) as Hoff.
  { clear -Hl Hf. unfold pci_caps in Hl. remember (Z.land (rd (hw s (fid f)) TYPE01_CPR) TYPE01_CPR_MASK) as o eqn:Ho.
    assert (0 <= o < 256) as Hor.
    { rewrite Ho. unfold TYPE01_CPR_MASK. change 0xff with (2 ^ 8 - 1). rewrite land_mask by lia. by apply Z.mod_pos_bound. }
    clear Ho. induction Hl as [|o l Hne Hl IH]; [done|]. cbn [find_cap] in Hf. destruct (_ =? _); [by injection Hf as <-|].
    apply IH; [done|]. unfold PCIE_NCPR_MASK. change 0xff with (2 ^ 8 - 1). rewrite land_mask by lia. by apply Z.mod_pos_bound. }
  unfold CIDR_OFFSET. rewrite Z.add_0_r, u32_small by (unfold UINT32_MAX; lia).
  rewrite (bind_Ok _ _ _ _ _ (bdf_read b k f s off Hs Hb Hk ltac:(lia))).
  change ((PCIECR_OFFSET - 0) * 8 + PCIECR_DPT_SHIFT) with 20.
  change (Z.land (Z.shiftr (rd (hw s (fid f)) off) 20) PCIECR_DPT_MASK) with (port_type (rd (hw s (fid f)) off)).
  by rewrite Hport.
Qed.

(** ** Probing *)

Definition listed (f : func) : bool := express (fkd f) && negb (bool_decide (what (fkd f) = HostBridge)).

(** The entries for a bus: where each function is, and the function *)
Definition bus_entries (b : Z) (l : bus) : list (Z * func) :=
  (λ y : Z * func, (b * 256 + y.1, y.2)) <$> filter (λ y : Z * func, listed y.2 = true) l.
Definition entries (bs : list (Z * bus)) : list (Z * func) := concat ((λ x : Z * bus, bus_entries x.1 x.2) <$> bs).

Definition entry (x : Z * func) : pcie_dev :=
  {| bdf := x.1; rp_dev := None; cflags := 0; doe_cap_base := 0; ide_cap_base := 0; dvsec_rmeda_cap_base := 0;
     dp_type := 0; dev_ecam_base := 0 |}.

(** The table with entries [es] *)
Definition tbl (s : pcie (nat → R)) (es : list (Z * func)) : pcie (nat → R) :=
  set_table s true (Z.of_nat (length es)) ((entry <$> es) ++ replicate (128 - length es) no_dev).

Lemma tbl_add (s : pcie (nat → R)) (es : list (Z * func)) (x : Z * func) : (length es + 1 < 128)%nat →
  tbl s (es ++ [x]) = set_table s true (u32 (Z.of_nat (length es) + 1))
    (zset ((entry <$> es) ++ replicate (128 - length es) no_dev) (Z.of_nat (length es)) (entry x)).
Proof.
  intros Hlen. unfold tbl. rewrite length_app, u32_small by (unfold UINT32_MAX; lia). cbn [length].
  f_equal; [lia|]. rewrite fmap_app, <- app_assoc. replace (128 - length es)%nat with (S (128 - (length es + 1)))%nat by lia.
  cbn [replicate fmap list_fmap app]. change (Z.of_nat (length es)) with (zlen es). rewrite <- (zlen_fmap entry es). by rewrite zset_mid.
Qed.

Lemma probe_some (b k : Z) (f : func) (s : pcie (nat → R)) (es : list (Z * func)) : here base last root b k f s →
  0 <= b <= last → 0 <= k < 256 → (listed f = true → (length es + 1 < 128)%nat) →
  probe_function cap_fuel (b * 256 + k) (tbl s es)
  = Ok (tt, tbl s (if listed f then es ++ [(b * 256 + k, f)] else es)).
Proof.
  intros Hs Hb Hk Hlen. assert (here base last root b k f (tbl s es)) as Ht by exact Hs. unfold probe_function.
  rewrite (bind_Ok _ _ _ _ _ (bdf_read b k f _ TYPE01_VIDR Ht Hb Hk ltac:(done))).
  pose proof Ht as (_ & _ & Hok). rewrite (proj2 (Z.eqb_neq _ _) (proj2 (fn_vendor _ _ Hok))).
  unfold pcie_is_host_bridge. erewrite bind_Ok.
  2: { rewrite (bind_Ok _ _ _ _ _ (bdf_read b k f _ TYPE01_RIDR Ht Hb Hk ltac:(done))). reflexivity. }
  rewrite (fn_class _ _ Hok). unfold listed in *.
  destruct (bool_decide (what (fkd f) = HostBridge)); [by rewrite andb_false_r|]. rewrite andb_true_r in *.
  destruct (fn_caps _ _ Hok) as (l & Hl & Hll & Hfind).
  rewrite (bind_Ok _ _ _ _ _ (find_pci_cap b k CID_PCIECS f _ l Ht Hb Hk Hl Hll)).
  destruct (find_cap CID_PCIECS l) as [off|]; [|by rewrite Hfind]. destruct Hfind as [He _]. rewrite He in *.
  specialize (Hlen eq_refl). change (pcie_check_device_valid (b * 256 + k)) with true. cbv iota.
  erewrite bind_Ok by reflexivity. cbn [num_entries tbl set_table device].
  assert (Z.of_nat (length es) < zlen ((entry <$> es) ++ replicate (128 - length es) no_dev)) as Hz.
  { rewrite zlen_app. unfold zlen. rewrite length_fmap, length_replicate. lia. }
  rewrite (bind_Ok _ _ (tbl s es) (tbl s es) no_dev).
  2: { unfold get_dev. erewrite bind_Ok by reflexivity. apply aget_Ok. cbn [device tbl set_table].
       replace (128 - length es)%nat with (S (127 - length es))%nat by lia. cbn [replicate].
       change (Z.of_nat (length es)) with (zlen es). rewrite <- (zlen_fmap entry es). apply zget_mid. }
  rewrite (bind_Ok _ _ _ _ _ (aset_Ok _ _ _ _ (conj (Zle_0_nat _) Hz))). erewrite bind_Ok by reflexivity.
  rewrite tbl_add by done. rewrite u32_small by (unfold UINT32_MAX; lia). unfold assert_, PCIE_DEVICES_MAX.
  by rewrite (proj2 (Z.ltb_lt _ _)) by lia.
Qed.

Lemma probe_absent (b k : Z) (s : pcie (nat → R)) (es : list (Z * func)) : ready s → 0 <= b <= last → 0 <= k < 256 →
  broute (hw s) 0 root b k = None → probe_function cap_fuel (b * 256 + k) (tbl s es) = Ok (tt, tbl s es).
Proof.
  intros (Hw & _) Hb Hk Hno. unfold probe_function.
  rewrite (bind_Ok _ _ _ _ _ (read_cfg_run base last root Hbase Htop Hlast b k TYPE01_VIDR (tbl s es) Hw Hb Hk ltac:(done))).
  cbn [hw tbl set_table]. by rewrite Hno.
Qed.

Lemma bus_entries_cons (b k : Z) (f : func) (l : bus) :
  bus_entries b ((k, f) :: l) = (if listed f then [(b * 256 + k, f)] else []) ++ bus_entries b l.
Proof.
  unfold bus_entries. rewrite filter_cons. cbn [snd]. by destruct (listed f); [rewrite decide_True|rewrite decide_False].
Qed.

(** A bus from number [i] on *)
Lemma probe_from (b : Z) (l : bus) (s : pcie (nat → R)) (n : nat) (i : Z) (pre post : bus) (es : list (Z * func)) :
  ready s → 0 <= b <= last → bus_wf l → (∀ k, broute (hw s) 0 root b k = on_bus k l) →
  l = pre ++ post → Forall (λ y, y.1 < i) pre → Forall (λ y, i <= y.1) post → 0 <= i → i + Z.of_nat n = 256 →
  (length es + length (bus_entries b post) < 128)%nat →
  for_loop n i (λ k _, probe_function cap_fuel (PCIE_CREATE_BDF 0 b (k / 8) (k mod 8))) tt (tbl s es)
  = Ok (tt, tbl s (es ++ bus_entries b post)).
Proof.
  intros Hr Hb Hl Hroute. revert i pre post es. induction n as [|n IH]; intros i pre post es Hsplit Hpre Hpost Hi Hn Hlen.
  - assert (post = []) as ->; [|by rewrite app_nil_r]. destruct post as [|y post]; [done|].
    apply Forall_cons in Hpost as [Hy _]. destruct Hl as [_ Hl]. rewrite Hsplit, Forall_app, Forall_cons in Hl. lia.
  - assert (StronglySorted (λ x y : Z * func, x.1 < y.1) post) as Hsort by (rewrite Hsplit in Hl; by eapply bus_wf_tail).
    cbn [for_loop]. rewrite create_bdf by lia.
    destruct (bus_next i post Hsort Hpost) as [(f & post' & -> & Hpost')|Hpost'].
    + assert (here base last root b i f s) as Hs.
      { apply ready_here; [done|]. rewrite Hroute, Hsplit. apply on_bus_here. by rewrite <- Hsplit. }
      assert (Forall (λ y : Z * func, y.1 < i + 1) (pre ++ [(i, f)])) as Hpre'.
      { apply Forall_app. split; [by apply forall_before|]. constructor; [cbn; lia|done]. }
      rewrite bus_entries_cons, length_app in *.
      erewrite bind_Ok.
      2: { apply (probe_some b i f s es Hs); [done|lia|]. intros Hf. rewrite Hf in Hlen. cbn [length] in Hlen. lia. }
      rewrite app_assoc. replace (if listed f then es ++ [(b * 256 + i, f)] else es)
        with (es ++ if listed f then [(b * 256 + i, f)] else []) by (destruct (listed f); [done|apply app_nil_r]).
      eapply (IH (i + 1) (pre ++ [(i, f)]) post'); try done; [by rewrite <- app_assoc|lia|lia|]. rewrite length_app. lia.
    + erewrite bind_Ok; [eapply (IH (i + 1) pre post); try done; [by apply forall_before|lia|lia]|].
      apply probe_absent; [done|done|lia|]. rewrite Hroute, Hsplit. by apply on_bus_between.
Qed.

Lemma probe_bus_ok (b : Z) (l : bus) (s : pcie (nat → R)) (es : list (Z * func)) : ready s → 0 <= b <= last → bus_wf l →
  (∀ k, broute (hw s) 0 root b k = on_bus k l) → (length es + length (bus_entries b l) < 128)%nat →
  probe_bus cap_fuel 0 b (tbl s es) = Ok (tt, tbl s (es ++ bus_entries b l)).
Proof.
  intros Hr Hb Hl Hroute Hlen. unfold probe_bus. rewrite each_function_run.
  eapply (probe_from b l s 256 0 [] l es); try done. eapply Forall_impl; [exact (proj2 Hl)|]. cbn. lia.
Qed.

Lemma probe_empty_bus (b : Z) (s : pcie (nat → R)) (es : list (Z * func)) : ready s → 0 <= b <= last →
  (∀ k, broute (hw s) 0 root b k = None) → (length es < 128)%nat → probe_bus cap_fuel 0 b (tbl s es) = Ok (tt, tbl s es).
Proof.
  intros Hr Hb Hroute Hlen. rewrite (probe_bus_ok b [] s es) by (done || (split; constructor) || (cbn; lia)).
  by rewrite app_nil_r.
Qed.

(** All buses *)
Lemma probe_buses (s : pcie (nat → R)) (bs : list (Z * bus)) (n : nat) (i : Z) (es : list (Z * func)) : ready s →
  (∀ b l, (b, l) ∈ bs → bus_wf l ∧ ∀ k, broute (hw s) 0 root b k = on_bus k l) →
  (∀ b k, i + zlen bs <= b <= last → broute (hw s) 0 root b k = None) →
  bs.*1 = seqZ i (zlen bs) → (length bs ≤ n)%nat → 0 <= i → i + Z.of_nat n = last + 1 →
  (length es + length (entries bs) < 128)%nat →
  for_loop n i (λ bus_index _, probe_bus cap_fuel 0 bus_index) tt (tbl s es) = Ok (tt, tbl s (es ++ entries bs)).
Proof.
  intros Hr. revert i bs es. induction n as [|n IH]; intros i bs es Hbs Hno Hseq Hlen Hi Hn Hes.
  { destruct bs; [|cbn in Hlen; lia]. cbn. by rewrite app_nil_r. }
  cbn [for_loop]. destruct bs as [|[b l] bs].
  - change (zlen []) with 0 in *. rewrite (bind_Ok _ _ (tbl s es) (tbl s es) tt).
    + apply IH; try done; try (cbn; lia). intros b k Hb. apply Hno. change (zlen []) with 0 in *. lia.
    + apply probe_empty_bus; [done|lia| |cbn in Hes; lia]. intros k. apply Hno. lia.
  - rewrite zlen_cons in *. rewrite seqZ_cons in Hseq by (pose proof (zlen_nonneg bs); lia). cbn in Hseq.
    injection Hseq as -> Hseq. destruct (Hbs i l ltac:(left)) as [Hl Hroute].
    change (entries ((i, l) :: bs)) with (bus_entries i l ++ entries bs) in *. rewrite length_app in Hes.
    erewrite bind_Ok by (apply (probe_bus_ok i l s es); try done; lia). rewrite app_assoc. apply IH; try lia.
    + intros b l' Hin. apply Hbs. by right.
    + intros b k Hb. apply Hno. lia.
    + rewrite Hseq. f_equal; lia.
    + cbn in Hlen. lia.
    + rewrite length_app. lia.
Qed.

(** The buses of the hierarchy, with their numbers *)
Definition all_buses : list (Z * bus) := (0, root) :: behind root 1.

Lemma behind_in (l l' : bus) (n b : Z) : (b, l') ∈ behind l n → ∃ g, g ∈ bus_funcs l ∧ is_bridge g = true ∧ l' = fbelow g.
Proof.
  assert (∀ f n, (b, l') ∈ fbuses f n → ∃ g, g ∈ funcs f ∧ is_bridge g = true ∧ l' = fbelow g) as Hf.
  { intros f. induction f as [id kd below IH] using func_rect_all. intros i. rewrite fbuses_eq.
    destruct (is_bridge _) eqn:Hb; [|by intros ?%elem_of_nil]. rewrite funcs_eq. intros Hin.
    apply elem_of_cons in Hin as [[= -> ->]|Hin]; [eexists; split; [left|done]|]. cbn [fbelow] in Hin.
    assert (∃ g, g ∈ bus_funcs below ∧ is_bridge g = true ∧ l' = fbelow g) as (g & Hg & Hg'); [|exists g; split; [by right|done]].
    clear Hb. revert Hin. generalize (i + 1). clear i. induction IH as [|[x g] l0 Hg _ IHl]; intros i Hin; [by apply elem_of_nil in Hin|].
    cbn [behind snd] in *. rewrite bus_funcs_cons. apply elem_of_app in Hin as [Hin|Hin].
    - destruct (Hg _ Hin) as (h & Hh & ?). exists h. split; [apply elem_of_app; by left|done].
    - destruct (IHl _ Hin) as (h & Hh & ?). exists h. split; [apply elem_of_app; by right|done]. }
  revert n. induction l as [|[x g] l IH]; intros n Hin; [by apply elem_of_nil in Hin|]. cbn [behind] in Hin.
  rewrite bus_funcs_cons. apply elem_of_app in Hin as [Hin|Hin].
  - destruct (Hf _ _ Hin) as (h & Hh & ?). exists h. split; [apply elem_of_app; by left|done].
  - destruct (IH _ Hin) as (h & Hh & ?). exists h. split; [apply elem_of_app; by right|done].
Qed.

Lemma all_buses_route (s : pcie (nat → R)) (b : Z) (l : bus) : settled s → (b, l) ∈ all_buses →
  0 <= b <= last ∧ bus_wf l ∧ ∀ k, broute (hw s) 0 root b k = on_bus k l.
Proof.
  intros [_ Hn] Hin. apply elem_of_cons in Hin as [[= -> ->]|Hin].
  { split_and!; [lia|lia|done|]. intros k. done. }
  pose proof (behind_range _ _ _ _ Hin). split_and!; [lia|lia| |].
  - destruct (behind_in _ _ _ _ Hin) as (g & Hg & _ & ->). by apply Hwf.
  - intros k. unfold broute. rewrite (proj2 (Z.eqb_neq b 0)) by lia. by eapply numbered_pass.
Qed.

Lemma probe_all (s : pcie (nat → R)) : settled s → (length (entries all_buses) < 128)%nat →
  for_loop (Z.to_nat (last - 0 + 1)) 0 (λ bus_index _, probe_bus cap_fuel 0 bus_index) tt (tbl s [])
  = Ok (tt, tbl s (entries all_buses)).
Proof.
  intros Hs Hlen. assert (zlen all_buses = bus_total root + 1) as Hz.
  { unfold all_buses. rewrite zlen_cons. f_equal. rewrite <- (zlen_fmap fst), behind_numbers. unfold zlen. rewrite length_seqZ.
    pose proof (bus_total_nonneg root). lia. }
  apply (probe_buses s all_buses); try done; try lia.
  - apply Hs.
  - intros b l Hin. by destruct (all_buses_route s b l Hs Hin) as (_ & ? & ?).
  - rewrite Hz. intros b k Hb. unfold broute. pose proof (bus_total_nonneg root). rewrite (proj2 (Z.eqb_neq b 0)) by lia.
    apply (numbered_beyond _ _ 1); [apply Hs|lia].
  - rewrite Hz. unfold all_buses. rewrite fmap_cons, behind_numbers. cbn [fst].
    rewrite (seqZ_cons 0) by (pose proof (bus_total_nonneg root); lia). f_equal. f_equal; lia.
  - unfold zlen in Hz. lia.
Qed.

(** Where the entries are *)
Definition placed (s : pcie (nat → R)) (e : Z * func) : Prop :=
  ∃ b k, e.1 = b * 256 + k ∧ 0 <= b <= last ∧ 0 <= k < 256 ∧ here base last root b k e.2 s ∧ listed e.2 = true.

Lemma bus_entries_in (b : Z) (l : bus) (e : Z * func) : e ∈ bus_entries b l →
  ∃ k, e.1 = b * 256 + k ∧ (k, e.2) ∈ l ∧ listed e.2 = true.
Proof.
  unfold bus_entries. intros Hin. apply list_elem_of_fmap in Hin as ([k f] & -> & Hin).
  apply list_elem_of_filter in Hin as [Hl Hin]. by exists k.
Qed.

Lemma entries_elem (bs : list (Z * bus)) (e : Z * func) : e ∈ entries bs →
  ∃ b l k, (b, l) ∈ bs ∧ e.1 = b * 256 + k ∧ (k, e.2) ∈ l ∧ listed e.2 = true.
Proof.
  unfold entries. intros Hin. apply list_elem_of_In, in_concat in Hin as (es & Hin & He). apply list_elem_of_In in Hin, He.
  apply list_elem_of_fmap in Hin as ([b l] & -> & Hin). apply bus_entries_in in He as (k & Hk & Hel & Hl). by exists b, l, k.
Qed.

Lemma on_bus_elem (k : Z) (f : func) (l : bus) : bus_wf l → (k, f) ∈ l → on_bus k l = Some f.
Proof. intros Hl Hin. apply list_elem_of_split in Hin as (l1 & l2 & ->). by apply on_bus_here. Qed.

Lemma entries_placed (s : pcie (nat → R)) (e : Z * func) : settled s → e ∈ entries all_buses → placed s e.
Proof.
  intros Hs Hin. apply entries_elem in Hin as (b & l & k & Hin & Hk & Hel & Hlist).
  destruct (all_buses_route s b l Hs Hin) as (Hb & Hl & Hroute). exists b, k. split_and!; try done; try lia.
  1, 2: destruct Hl as [_ Hl]; rewrite Forall_forall in Hl; specialize (Hl _ Hel); cbn in Hl; lia.
  apply ready_here; [apply Hs|]. rewrite Hroute. by apply on_bus_elem.
Qed.

(** ** Root ports *)

Definition is_rp (f : func) : bool := (dev_type f =? RP) || (dev_type f =? iEP_RP).

(** The first entry from [i] on that is a root port with the bus behind it *)
Fixpoint first_rp (m : nat → R) (bus : Z) (es : list (Z * func)) (i : Z) : option Z :=
  match es with
  | [] => None
  | (_, f) :: es' =>
      let v := rd (m (fid f)) BUS_NUM_REG_OFFSET in
      if is_rp f && (bus_sec v <=? bus) && (bus <=? bus_sub v) then Some i else first_rp m bus es' (i + 1)
  end.

(** Root ports, and what is integrated into the root complex, have none. *)
Definition rootport (m : nat → R) (es : list (Z * func)) (e : Z * func) : option Z :=
  if is_rp e.2 || (dev_type e.2 =? RCiEP) || (dev_type e.2 =? RCEC) then None else first_rp m (e.1 / 256) es 0.

Section Fields.

Context (s : pcie (nat → R)) (es : list (Z * func)) (Hset : settled s) (Hplaced : ∀ e, e ∈ es → placed s e).
Context (Hes : (length es < 128)%nat).

Abbreviation mk := (set_table s true (Z.of_nat (length es))).

(** A table for the entries *)
Definition fits (devs : list pcie_dev) : Prop := length devs = 128%nat ∧ take (length es) (bdf <$> devs) = es.*1.

Lemma fits_lookup (devs : list pcie_dev) (i : nat) (e : Z * func) : fits devs → es !! i = Some e →
  ∃ d, zget devs (Z.of_nat i) = Some d ∧ bdf d = e.1.
Proof.
  intros [Hlen Hb] Hi. pose proof (lookup_lt_Some _ _ _ Hi) as Hlt.
  assert ((bdf <$> devs) !! i = Some e.1) as Hd.
  { rewrite <- (lookup_take_lt (bdf <$> devs) (length es)) by done. by rewrite Hb, list_lookup_fmap, Hi. }
  rewrite list_lookup_fmap in Hd. apply fmap_Some in Hd as (d & Hd & He). exists d. split; [|done].
  unfold zget. rewrite (proj2 (Z.ltb_ge _ 0)), Nat2Z.id by lia. done.
Qed.

Lemma listed_express (f : func) : listed f = true → express (fkd f) = true.
Proof. unfold listed. by intros [? _]%andb_true_iff. Qed.

Lemma placed_type (devs : list pcie_dev) (e : Z * func) : placed s e →
  pcie_device_port_type cap_fuel e.1 (mk devs) = Ok (dev_type e.2, mk devs).
Proof. intros (b & k & -> & Hb & Hk & Hh & Hl). apply port_type_run; [exact Hh|done|done|by apply listed_express]. Qed.

Lemma placed_seg (e : Z * func) : placed s e → PCIE_EXTRACT_BDF_SEG e.1 = 0 ∧ PCIE_EXTRACT_BDF_BUS e.1 = e.1 / 256.
Proof.
  intros (b & k & -> & Hb & Hk & _). destruct (extract_bdf b k ltac:(lia) Hk) as (-> & -> & _). split; [done|].
  rewrite Z.div_add_l, Z.div_small by lia. lia.
Qed.

Lemma placed_read (devs : list pcie_dev) (e : Z * func) (o : Z) : placed s e → 0 <= o < 4096 →
  pcie_read_cfg e.1 o (mk devs) = Ok (rd (hw s (fid e.2)) o, mk devs).
Proof. intros (b & k & -> & Hb & Hk & Hh & Hl) Ho. by apply (bdf_read b k e.2 (mk devs)). Qed.

Lemma rootport_loop_run (devs : list pcie_dev) (e : Z * func) (pre post : list (Z * func)) : fits devs → placed s e →
  es = pre ++ post → rootport_loop cap_fuel e.1 (length post) (Z.of_nat (length pre)) (mk devs)
  = Ok (first_rp (hw s) (e.1 / 256) post (Z.of_nat (length pre)), mk devs).
Proof.
  intros Hfit He. revert pre. induction post as [|[b f] post IH]; intros pre Hsplit; [done|].
  assert (es !! length pre = Some (b, f)) as Hlk by (rewrite Hsplit; by apply list_lookup_middle).
  destruct (fits_lookup devs _ _ Hfit Hlk) as (d & Hd & Hdb). cbn [fst] in Hdb.
  assert (placed s (b, f)) as Hp by (by eapply Hplaced, list_elem_of_lookup_2).
  cbn [rootport_loop length first_rp]. erewrite bind_Ok by reflexivity. cbn [device set_table].
  rewrite (bind_Ok _ _ _ _ _ (aget_Ok _ _ _ _ Hd)). rewrite Hdb.
  rewrite (bind_Ok _ _ _ _ _ (placed_read devs (b, f) TYPE1_PBN Hp ltac:(done))).
  rewrite (bind_Ok _ _ _ _ _ (placed_type devs (b, f) Hp)).
  destruct (placed_seg (b, f) Hp) as [E1 _], (placed_seg e He) as [-> ->]. cbn [fst] in E1. rewrite E1.
  change (0 =? 0) with true. rewrite andb_true_r. unfold is_rp, bus_sec, bus_sub. cbn [snd].
  change TYPE1_PBN with BUS_NUM_REG_OFFSET. destruct (_ && _); [done|].
  specialize (IH (pre ++ [(b, f)])). rewrite length_app in IH. cbn [length] in IH.
  replace (Z.of_nat (length pre) + 1) with (Z.of_nat (length pre + 1)) by lia. apply IH. by rewrite <- app_assoc.
Qed.

Lemma get_rootport_run (devs : list pcie_dev) (e : Z * func) : fits devs → placed s e →
  pcie_get_rootport cap_fuel e.1 (mk devs) = Ok (rootport (hw s) es e, mk devs).
Proof.
  intros Hfit He. unfold pcie_get_rootport, rootport, is_rp. rewrite (bind_Ok _ _ _ _ _ (placed_type devs e He)).
  destruct (dev_type e.2 =? RP), (dev_type e.2 =? iEP_RP); try done. cbn [orb].
  destruct (dev_type e.2 =? RCiEP), (dev_type e.2 =? RCEC); try done. cbn [orb].
  erewrite bind_Ok by reflexivity. erewrite bind_Ok by reflexivity. cbn [num_entries set_table]. rewrite Nat2Z.id.
  by apply (rootport_loop_run devs e [] es).
Qed.

(** Changing an entry *)
Lemma get_dev_run (pre post : list pcie_dev) (d : pcie_dev) :
  get_dev (Z.of_nat (length pre)) (mk (pre ++ d :: post)) = Ok (d, mk (pre ++ d :: post)).
Proof. unfold get_dev. erewrite bind_Ok by reflexivity. apply aget_Ok. apply zget_mid. Qed.

Lemma put_dev_run (pre post : list pcie_dev) (d d' : pcie_dev) :
  put_dev (Z.of_nat (length pre)) d' (mk (pre ++ d :: post)) = Ok (tt, mk (pre ++ d' :: post)).
Proof.
  unfold put_dev. erewrite bind_Ok by reflexivity. cbn [device set_table].
  erewrite bind_Ok.
  2: { apply aset_Ok. rewrite zlen_app, zlen_cons. unfold zlen. lia. }
  change (Z.of_nat (length pre)) with (zlen pre). by rewrite zset_mid.
Qed.

Lemma fits_change (pre post : list pcie_dev) (d d' : pcie_dev) : bdf d' = bdf d →
  fits (pre ++ d :: post) → fits (pre ++ d' :: post).
Proof. intros Hb. unfold fits. rewrite !length_app, !fmap_app, !fmap_cons, Hb. done. Qed.

(** The entry of a place in the table *)
Lemma fits_elem (pre mid : list pcie_dev) (d : pcie_dev) :
  fits (pre ++ d :: mid ++ replicate (128 - length es) no_dev) → ∃ f, (bdf d, f) ∈ es.
Proof.
  intros Hfit. pose proof Hfit as [Hlen _]. rewrite !length_app in Hlen. cbn [length] in Hlen. rewrite length_app, length_replicate in Hlen.
  destruct (lookup_lt_is_Some_2 es (length pre) ltac:(lia)) as [[b f] Hi].
  destruct (fits_lookup _ _ _ Hfit Hi) as (d' & Hd' & Hb). change (Z.of_nat (length pre)) with (zlen pre) in Hd'.
  rewrite zget_mid in Hd'. injection Hd' as <-. cbn [fst] in Hb. exists f. rewrite Hb. by eapply list_elem_of_lookup_2.
Qed.

Lemma placed_unique (e e' : Z * func) : placed s e → placed s e' → e.1 = e'.1 → e = e'.
Proof.
  intros (b & k & E & Hb & Hk & (_ & Hr & _) & _) (b' & k' & E' & Hb' & Hk' & (_ & Hr' & _) & _) He.
  assert (b = b') as <- by lia. assert (k = k') as <- by lia. destruct e, e'. cbn in *. congruence.
Qed.

(** What [pcie_populate_device_rootport()] sets *)
Definition with_rp (d d' : pcie_dev) : Prop :=
  ∃ f, (bdf d, f) ∈ es ∧ d' =
    {| bdf := bdf d; rp_dev := rootport (hw s) es (bdf d, f); cflags := cflags d; doe_cap_base := doe_cap_base d;
       ide_cap_base := ide_cap_base d; dvsec_rmeda_cap_base := dvsec_rmeda_cap_base d; dp_type := dp_type d;
       dev_ecam_base := dev_ecam_base d |}.

Lemma populate_run (devs : list pcie_dev) : length devs = length es → fits (devs ++ replicate (128 - length es) no_dev) →
  ∃ devs', pcie_populate_device_rootport cap_fuel (mk (devs ++ replicate (128 - length es) no_dev))
    = Ok (0, mk (devs' ++ replicate (128 - length es) no_dev))
    ∧ Forall2 with_rp devs devs' ∧ fits (devs' ++ replicate (128 - length es) no_dev).
Proof.
  intros Hlen Hfit. unfold pcie_populate_device_rootport. erewrite bind_Ok by reflexivity. erewrite bind_Ok by reflexivity.
  cbn [num_entries set_table]. rewrite Nat2Z.id, <- Hlen.
  edestruct (for_loop_list mk fits with_rp) with (pre := @nil pcie_dev) (l := devs) (post := replicate (128 - length es) no_dev)
    as (devs' & Hr & Hrel & Hfit'); [|exact Hfit|].
  2: { cbn [app length] in *. rewrite <- Hlen in *. exists devs'. split; [|done]. erewrite bind_Ok; [reflexivity|exact Hr]. }
  intros pre d mid Hf. destruct (fits_elem pre mid d Hf) as (f & Hin). eexists. split_and!; [|exists f; split; [done|reflexivity]|by apply (fits_change pre _ d)].
  cbv beta. rewrite (bind_Ok _ _ _ _ _ (get_dev_run pre _ d)).
  rewrite (bind_Ok _ _ _ _ _ (get_rootport_run _ (bdf d, f) Hf (Hplaced _ Hin))).
  rewrite (bind_Ok _ _ _ _ _ (get_dev_run pre _ d)). apply put_dev_run.
Qed.

(** ** The other fields *)

Lemma placed_read_any (devs : list pcie_dev) (e : Z * func) (o : Z) : placed s e →
  ∃ v, pcie_read_cfg e.1 o (mk devs) = Ok (v, mk devs).
Proof.
  intros (b & k & -> & Hb & Hk & (Hw & _) & _). unfold pcie_read_cfg.
  rewrite (bind_Ok _ _ _ _ _ (cfg_addr_run base last Hbase Htop Hlast b k (mk devs) Hw Hb Hk)).
  unfold on_hw. cbn [cfg_read_32 hw_inst tree_hw]. destruct (broute _ _ _ _ _); by eexists.
Qed.

Lemma field_range (shift width v : Z) : 0 <= shift → 0 <= width → 0 <= EXTRACT_field shift width v < 2 ^ width.
Proof.
  intros Hs Hw. unfold EXTRACT_field. rewrite Z.shiftr_land, Z.shiftr_shiftl_l, Z.sub_diag, Z.shiftl_0_r, Z.land_ones by lia.
  apply Z.mod_pos_bound. lia.
Qed.

(** The search for the RME-DA capability of a root port ends. *)
Lemma rmeda_loop_run (devs : list pcie_dev) (e : Z * func) (fuel : nat) (off : Z) : placed s e →
  PCIE_ECAP_START <= off < PCIE_ECAP_END → PCIE_ECAP_END - off < Z.of_nat fuel →
  ∃ r, rmeda_loop e.1 fuel off (mk devs) = Ok (r, mk devs) ∧ (∀ o, r = Some o → PCIE_ECAP_START <= o < PCIE_ECAP_END
    ∧ EXTRACT_field 0 16 (rd (hw s (fid e.2)) o) = ECID_DVSEC).
Proof.
  intros He. unfold PCIE_ECAP_START, PCIE_ECAP_END. revert off. induction fuel as [|fuel IH]; intros off Hoff Hf; [lia|].
  cbn [rmeda_loop]. unfold assert_. rewrite (proj2 (Z.ltb_lt _ _)) by lia. erewrite bind_Ok by reflexivity.
  rewrite (bind_Ok _ _ _ _ _ (placed_read devs e off He ltac:(lia))).
  set (v := rd (hw s (fid e.2)) off). pose proof (field_range 20 12 v ltac:(lia) ltac:(lia)) as Hn.
  assert (∃ r : bool, (if EXTRACT_field 0 16 v =? ECID_DVSEC then is_dvsec_arm_rmeda e.1 off else mret false) (mk devs)
    = Ok (r, mk devs) ∧ (r = true → EXTRACT_field 0 16 v = ECID_DVSEC)) as (r & Hr & Hid).
  { destruct (Z.eqb_spec (EXTRACT_field 0 16 v) ECID_DVSEC) as [Heq|_]; [|by exists false]. unfold is_dvsec_arm_rmeda.
    destruct (placed_read_any devs e (u32 (off + PCIE_ECAP_DVSEC_HDR1_OFFSET)) He) as (h1 & H1).
    destruct (placed_read_any devs e (u32 (off + PCIE_ECAP_DVSEC_HDR2_OFFSET)) He) as (h2 & H2).
    rewrite (bind_Ok _ _ _ _ _ H1), (bind_Ok _ _ _ _ _ H2). by eexists. }
  rewrite (bind_Ok _ _ _ _ _ Hr). destruct r.
  { eexists. split; [reflexivity|]. intros o [= <-]. split; [lia|by apply Hid]. }
  change (2 ^ 12) with 4096 in Hn. rewrite u32_small by (unfold UINT32_MAX; lia).
  destruct (Z.eqb_spec (EXTRACT_field 20 12 v) 0) as [_|Hnz]; cbn [negb andb]; [exists None; split; [reflexivity|done]|].
  destruct (Z.ltb_spec (off + EXTRACT_field 20 12 v) PCIE_ECAP_END) as [Hlt|_]; [|exists None; split; [reflexivity|done]]. unfold PCIE_ECAP_END in Hlt. apply IH; lia.
Qed.

(** All functions are behind the one window. *)
Lemma ecam_base_run (devs : list pcie_dev) (e : Z * func) : placed s e →
  (is_bridge e.2 = true → bus_sub (rd (hw s (fid e.2)) BUS_NUM_REG_OFFSET) <= last) →
  pcie_get_ecam_base e.1 (mk devs) = Ok (base, mk devs).
Proof.
  intros He Hsub. pose proof He as (b & k & _ & _ & _ & (Hw & _ & Hok) & _). unfold pcie_get_ecam_base.
  rewrite (bind_Ok _ _ (mk devs) (mk devs) window) by (unfold info; erewrite bind_Ok by reflexivity; cbn; by rewrite Hw).
  destruct (placed_seg e He) as [-> _]. change (Z.to_nat (info_entries window)) with 1%nat. cbn [ecam_base_loop].
  erewrite bind_Ok by reflexivity. cbn [segment_num start_bus_num end_bus_num ecam_base]. change (0 =? 0) with true. cbv iota.
  unfold pcie_function_header_type. erewrite bind_Ok.
  2: { rewrite (bind_Ok _ _ _ _ _ (placed_read devs e TYPE01_CLSR He ltac:(done))). reflexivity. }
  change TYPE01_CLSR with HEADER_OFFSET. unfold HTR_HL_SHIFT. rewrite Z.shiftr_0_r, <- Z.land_assoc.
  change (Z.land TYPE01_HTR_MASK HTR_HL_MASK) with HTR_HL_MASK.
  change (Z.land (Z.shiftr (rd (hw s (fid e.2)) HEADER_OFFSET) TYPE01_HTR_SHIFT) HTR_HL_MASK)
    with (header_layout (rd (hw s (fid e.2)) HEADER_OFFSET)).
  rewrite (fn_header _ _ Hok). destruct (decide (what (fkd e.2) = Bridge)) as [Hb|Hb].
  2: { by rewrite bool_decide_eq_false_2 by done. }
  rewrite bool_decide_eq_true_2 by done. change (TYPE1_HEADER =? TYPE0_HEADER) with false. cbv iota.
  rewrite (bind_Ok _ _ _ _ _ (placed_read devs e TYPE1_PBN He ltac:(done))). change TYPE1_PBN with BUS_NUM_REG_OFFSET.
  specialize (Hsub (bool_decide_eq_true_2 _ Hb)). unfold bus_sub in Hsub.
  rewrite (proj2 (Z.leb_le 0 _)), (proj2 (Z.leb_le _ last)); [done|done|].
  unfold SECBN_MASK. change 0xff with (2 ^ 8 - 1). rewrite land_mask by lia. by apply Z.mod_pos_bound.
Qed.

(** What [pcie_devices_init_fields()] sets *)
Definition flag (c : option Z) (bit flags : Z) : Z := match c with Some _ => Z.lor flags bit | None => flags end.
Definition with_fields (d d' : pcie_dev) : Prop :=
  ∃ f l rmeda, (bdf d, f) ∈ es ∧ ext_caps (rd (hw s (fid f))) l ∧ (dev_type f ≠ RP → rmeda = None)
    ∧ (∀ o, rmeda = Some o → EXTRACT_field 0 16 (rd (hw s (fid f)) o) = ECID_DVSEC)
    ∧ d' = {| bdf := bdf d; rp_dev := rp_dev d;
              cflags := flag rmeda PCIE_DEV_CFLAG_DVSEC_RMEDA (flag (find_cap ECID_IDE l) PCIE_DEV_CFLAG_IDE
                          (flag (find_cap ECID_DOE l) PCIE_DEV_CFLAG_DOE (cflags d)));
              doe_cap_base := default (doe_cap_base d) (find_cap ECID_DOE l);
              ide_cap_base := default (ide_cap_base d) (find_cap ECID_IDE l);
              dvsec_rmeda_cap_base := default (dvsec_rmeda_cap_base d) rmeda;
              dp_type := dev_type f; dev_ecam_base := base |}.

Lemma placed_ext (devs : list pcie_dev) (e : Z * func) (l : list (Z * Z)) (cid : Z) : placed s e →
  ext_caps (rd (hw s (fid e.2))) l → (length l ≤ cap_bound)%nat →
  pcie_find_capability cap_fuel e.1 PCIE_ECAP cid (mk devs) = Ok (find_cap cid l, mk devs).
Proof. intros (b & k & -> & Hb & Hk & Hh & _) Hl Hlen. by apply (find_ext_cap b k cid e.2 (mk devs)). Qed.

Lemma placed_rmeda (devs : list pcie_dev) (e : Z * func) : placed s e →
  ∃ r, (if dev_type e.2 =? RP then pcie_find_rmeda_capability cap_fuel e.1 else mret None) (mk devs) = Ok (r, mk devs)
    ∧ (dev_type e.2 ≠ RP → r = None) ∧ (∀ o, r = Some o → EXTRACT_field 0 16 (rd (hw s (fid e.2)) o) = ECID_DVSEC).
Proof.
  intros He. destruct (Z.eqb_spec (dev_type e.2) RP) as [Heq|Hne]; [|by exists None].
  destruct (rmeda_loop_run devs e cap_fuel PCIE_ECAP_START He) as (r & Hr & Hid);
    [unfold PCIE_ECAP_START, PCIE_ECAP_END; lia..|].
  exists r. split_and!; [done|by rewrite Heq|]. intros o Ho. by apply Hid.
Qed.

Lemma init_fields_run (pre mid : list pcie_dev) (d : pcie_dev) :
  let post := mid ++ replicate (128 - length es) no_dev in
  fits (pre ++ d :: post) →
  ∃ d', init_fields cap_fuel (Z.of_nat (length pre)) (mk (pre ++ d :: post)) = Ok (tt, mk (pre ++ d' :: post))
    ∧ with_fields d d' ∧ fits (pre ++ d' :: post).
Proof.
  intros post Hf. destruct (fits_elem pre mid d Hf) as (f & Hin). pose proof (Hplaced _ Hin) as He.
  assert (is_bridge f = true → bus_sub (rd (hw s (fid f)) BUS_NUM_REG_OFFSET) <= last) as Hsub.
  { intros Hb. destruct He as (b & k & _ & _ & _ & (_ & Hroute & _) & _). apply broute_in in Hroute.
    pose proof (numbered_range (hw s) root 1 f (proj2 Hset) Hleaf Hroute Hb). lia. }
  pose proof He as (b & k & _ & _ & _ & (_ & _ & Hok) & _). cbn [snd] in Hok.
  destruct (fn_ecaps _ _ Hok) as (l & Hl & Hlen).
  destruct (placed_rmeda (pre ++ d :: post) (bdf d, f) He) as (r & Hr & Hr1 & Hr2). cbn [fst snd] in *.
  eexists. split_and!; [|exists f, l, r; split_and!; [done..|reflexivity]|by apply (fits_change pre _ d)].
  unfold init_fields. rewrite (bind_Ok _ _ _ _ _ (get_dev_run pre _ d)).
  rewrite (bind_Ok _ _ _ _ _ (placed_type _ (bdf d, f) He)). rewrite (bind_Ok _ _ _ _ _ (ecam_base_run _ (bdf d, f) He Hsub)).
  rewrite (bind_Ok _ _ _ _ _ (placed_ext _ (bdf d, f) l ECID_DOE He Hl Hlen)).
  rewrite (bind_Ok _ _ _ _ _ (placed_ext _ (bdf d, f) l ECID_IDE He Hl Hlen)). cbn [snd].
  rewrite (bind_Ok _ _ _ _ _ Hr), (bind_Ok _ _ _ _ _ (get_dev_run pre _ d)). apply put_dev_run.
Qed.

Lemma init_all_run (devs : list pcie_dev) : length devs = length es → fits (devs ++ replicate (128 - length es) no_dev) →
  ∃ devs', pcie_devices_init_fields cap_fuel (mk (devs ++ replicate (128 - length es) no_dev))
    = Ok (tt, mk (devs' ++ replicate (128 - length es) no_dev))
    ∧ Forall2 with_fields devs devs' ∧ fits (devs' ++ replicate (128 - length es) no_dev).
Proof.
  intros Hlen Hfit. unfold pcie_devices_init_fields. erewrite bind_Ok by reflexivity. erewrite bind_Ok by reflexivity.
  cbn [num_entries set_table]. rewrite Nat2Z.id, <- Hlen.
  edestruct (for_loop_list mk fits with_fields) with (pre := @nil pcie_dev) (l := devs)
    (post := replicate (128 - length es) no_dev) as (devs' & Hr & Hrel & Hfit'); [|exact Hfit|].
  2: { cbn [app length] in *. rewrite <- Hlen in *. exists devs'. split; [exact Hr|done]. }
  intros pre d mid Hf. by apply init_fields_run.
Qed.

(** The entry of the table for a function *)
Definition device_of (e : Z * func) (d : pcie_dev) : Prop :=
  bdf d = e.1 ∧ rp_dev d = rootport (hw s) es e ∧ dp_type d = dev_type e.2 ∧ dev_ecam_base d = base
  ∧ ∃ l rmeda, ext_caps (rd (hw s (fid e.2))) l ∧ (dev_type e.2 ≠ RP → rmeda = None)
    ∧ (∀ o, rmeda = Some o → EXTRACT_field 0 16 (rd (hw s (fid e.2)) o) = ECID_DVSEC)
    ∧ doe_cap_base d = default 0 (find_cap ECID_DOE l) ∧ ide_cap_base d = default 0 (find_cap ECID_IDE l)
    ∧ dvsec_rmeda_cap_base d = default 0 rmeda
    ∧ cflags d = flag rmeda PCIE_DEV_CFLAG_DVSEC_RMEDA (flag (find_cap ECID_IDE l) PCIE_DEV_CFLAG_IDE
                   (flag (find_cap ECID_DOE l) PCIE_DEV_CFLAG_DOE 0)).

Lemma device_of_steps (e : Z * func) (d d' : pcie_dev) : e ∈ es → with_rp (entry e) d → with_fields d d' → device_of e d'.
Proof.
  intros He (f & Hf & ->) (g & l & r & Hg & Hl & Hr1 & Hr2 & ->). cbn in *.
  pose proof (placed_unique (e.1, f) e (Hplaced _ Hf) (Hplaced _ He) eq_refl) as Ef.
  pose proof (placed_unique (e.1, g) e (Hplaced _ Hg) (Hplaced _ He) eq_refl) as Eg.
  assert (f = e.2) as -> by (rewrite <- Ef; done). assert (g = e.2) as -> by (rewrite <- Eg; done).
  unfold device_of. cbn. split_and!; [done|by rewrite <- Ef at 2|done|done|]. by exists l, r.
Qed.

Lemma fields_run : ∃ devs, (pcie_populate_device_rootport cap_fuel;; pcie_devices_init_fields cap_fuel) (tbl s es)
    = Ok (tt, mk (devs ++ replicate (128 - length es) no_dev)) ∧ Forall2 device_of es devs.
Proof.
  assert (fits ((entry <$> es) ++ replicate (128 - length es) no_dev)) as Hfit.
  { split; [rewrite length_app, length_fmap, length_replicate; lia|]. rewrite fmap_app, <- list_fmap_compose, take_app_le.
    2: { by rewrite length_fmap. }
    rewrite take_ge by (by rewrite length_fmap). done. }
  destruct (populate_run (entry <$> es)) as (d1 & R1 & F1 & Hfit1); [by rewrite length_fmap|done|].
  destruct (init_all_run d1) as (d2 & R2 & F2 & Hfit2); [rewrite <- (Forall2_length _ _ _ F1); by rewrite length_fmap|done|].
  exists d2. split; [unfold tbl; rewrite (bind_Ok _ _ _ _ _ R1); exact R2|].
  clear R1 R2 Hfit1 Hfit2 Hfit. apply (proj1 (Forall2_fmap_l entry with_rp es d1)) in F1.
  assert (∀ l, l ⊆ es → Forall2 (with_rp ∘ entry) l d1 → Forall2 device_of l d2) as Hall; [|apply Hall; [done|exact F1]].
  clear F1. intros l Hl F1. revert d2 F2.
  induction F1 as [|e x l d1 Hx F1 IH]; intros d2 F2; inversion F2 as [|? y ? d3 Hy F3]; subst; constructor.
  - apply (device_of_steps e x y); [apply Hl; left|done|done].
  - apply IH; [|done]. set_solver.
Qed.

End Fields.

(** ** The whole of [pcie_init()] *)

Lemma create_table_run (s : pcie (nat → R)) : settled s → device s = replicate 128 no_dev →
  (length (entries all_buses) < 128)%nat →
  ∃ devs, pcie_create_info_table cap_fuel s
      = Ok (tt, set_table s true (Z.of_nat (length (entries all_buses)))
                  (devs ++ replicate (128 - length (entries all_buses)) no_dev))
    ∧ Forall2 (device_of s (entries all_buses)) (entries all_buses) devs.
Proof.
  intros Hs Hdev Hlen. pose proof Hs as [(Hw & _ & _) _]. unfold pcie_create_info_table. erewrite bind_Ok by reflexivity.
  erewrite bind_Ok by reflexivity. erewrite bind_Ok by reflexivity. cbn [g_pcie_info_table set_table]. rewrite Hw.
  cbn [info_entries PcieEnum.window]. change ((1 =? 0) || (MAX_PCIE_INFO_ENTRIES <? 1)) with false. cbv iota.
  unfold pcie_create_device_bdf_table. erewrite bind_Ok by reflexivity. erewrite bind_Ok by reflexivity.
  erewrite bind_Ok by reflexivity. cbn [device set_table g_pcie_bdf_table hw]. rewrite Hdev.
  change (set_table (set_table s true (num_entries s) (replicate 128 no_dev)) true 0 (replicate 128 no_dev)) with (tbl s []).
  rewrite (bind_Ok _ _ (tbl s []) (tbl s []) window).
  2: { unfold info. erewrite bind_Ok by reflexivity. cbn. by rewrite Hw. }
  erewrite bind_Ok by reflexivity. change (Z.to_nat (info_entries window)) with 1%nat. cbn [for_loop].
  rewrite (bind_Ok _ _ (tbl s []) (tbl s (entries all_buses)) tt).
  2: { rewrite (bind_Ok _ _ (tbl s []) (tbl s (entries all_buses)) tt); [done|]. erewrite bind_Ok by reflexivity.
       cbn [start_bus_num end_bus_num segment_num]. by apply probe_all. }
  destruct (fields_run s (entries all_buses) Hs (λ e, entries_placed s e Hs) Hlen) as (devs & Hr & HF). by exists devs.
Qed.

Lemma pcie_init_run (depth : nat) (s : pcie (nat → R)) : bus_total root < Z.of_nat depth → is_init s = false →
  g_pcie_index s = 0 → device s = replicate 128 no_dev →
  (∀ g, g ∈ bus_funcs root → fn_ok (fkd g) (hw s (fid g))) → (length (entries all_buses) < 128)%nat →
  ∃ s' devs, pcie_init cap_fuel depth s = Ok (tt, s') ∧ settled s' ∧ is_init s' = true
    ∧ num_entries s' = Z.of_nat (length (entries all_buses)) ∧ g_pcie_bdf_table s' = true
    ∧ device s' = devs ++ replicate (128 - length (entries all_buses)) no_dev
    ∧ Forall2 (device_of s' (entries all_buses)) (entries all_buses) devs.
Proof.
  intros Hd Hinit Hi Hdev Hok Hlen. unfold pcie_init. erewrite bind_Ok by reflexivity. rewrite Hinit.
  destruct (enumerate_devices_ok depth s Hd Hi Hok) as (s1 & R1 & Hs1 & E1 & E2 & E3 & E4). rewrite (bind_Ok _ _ _ _ _ R1).
  destruct (create_table_run s1 Hs1 ltac:(congruence) Hlen) as (devs & R2 & HF). rewrite (bind_Ok _ _ _ _ _ R2).
  erewrite bind_Ok by reflexivity. eexists _, devs. split; [reflexivity|]. split_and!; done.
Qed.

End Window.
