(* ===== verification/PcieSpec.v ===== *)
(** * What [pcie_init()] establishes

    The theorems on the enumeration of a hierarchy and on the table of devices,
    and a hierarchy with concrete registers on which they apply. *)

From Stdlib Require Import Sorted.
From S2P Require Import Prelude Bits Pcie PcieTree PcieEnum PcieTable.

Local Open Scope Z_scope.

(** A hierarchy behind one window at [base], with buses 0 to [last] *)
Record hierarchy (base last : Z) (root : bus) : Prop := {
  h_base : 0 < base;
  h_top : base + 2 ^ 28 < 2 ^ 64;
  h_last : 0 <= last <= 255;
  h_ids : NoDup (fid <$> bus_funcs root);
  h_root : bus_wf root;
  h_below : ∀ g, g ∈ bus_funcs root → bus_wf (fbelow g) ∧ (is_bridge g = false → fbelow g = []);
  h_total : bus_total root <= last;
  h_table : (length (entries (all_buses root)) < 128)%nat;
}.

(** The driver before [pcie_init()] *)
Record fresh {R} `{FnOk R} (root : bus) (s : pcie (nat → R)) : Prop := {
  f_init : is_init s = false;
  f_index : g_pcie_index s = 0;
  f_device : device s = replicate 128 no_dev;
  f_regs : ∀ g, g ∈ bus_funcs root → fn_ok (fkd g) (hw s (fid g));
}.


(** ** The root port above a function *)

Section Ports.

Context {R : Type} `{FnHw R} (m : nat → R).

Lemma numbered_elem (l : bus) (next k : Z) (f : func) : numbered m l next → (k, f) ∈ l →
  ∃ n, numbered_f m f n ∧ next <= n ∧ n + buses f <= next + bus_total l.
Proof.
  intros Hn Hin. apply list_elem_of_split in Hin as (l1 & l2 & ->). apply numbered_app in Hn as [_ [Hf _]].
  exists (next + bus_total l1). rewrite bus_total_app, bus_total_cons.
  pose proof (bus_total_nonneg l1). pose proof (bus_total_nonneg l2). split_and!; [done|lia|lia].
Qed.

(** No bus is behind two functions of one bus. *)
Lemma numbered_apart (l : bus) (next b : Z) (x y : Z * func) : numbered m l next → x ∈ l → y ∈ l →
  claims m x.2 b = true → claims m y.2 b = true → x = y.
Proof.
  revert next. induction l as [|[k h] l IH]; intros next Hn Hx Hy Cx Cy; [by apply elem_of_nil in Hx|].
  cbn [numbered] in Hn. destruct Hn as [Hh Hl].
  assert (∀ z, z ∈ l → claims m z.2 b = true → claims m h b = true → False) as Hno.
  { intros [i g] Hz Cz Ch. destruct (numbered_elem _ _ _ _ Hl Hz) as (n & Hn & Hle & _). cbn [snd] in Cz.
    rewrite (numbered_claims m g n b Hn) in Cz. rewrite (numbered_claims m h next b Hh) in Ch.
    apply andb_true_iff in Cz as [Cz _], Ch as [_ Ch]. apply andb_true_iff in Cz as [_ Cz].
    apply Z.leb_le in Cz. apply Z.ltb_lt in Ch. lia. }
  apply elem_of_cons in Hx as [->|Hx], Hy as [->|Hy]; [done| | |by eapply IH]; exfalso; by eapply Hno.
Qed.

Lemma first_rp_some (b : Z) (es : list (Z * func)) (i j : Z) : first_rp m b es i = Some j →
  i <= j ∧ ∃ e, es !! Z.to_nat (j - i) = Some e ∧ is_rp e.2 = true
    ∧ bus_sec (rd (m (fid e.2)) BUS_NUM_REG_OFFSET) <= b <= bus_sub (rd (m (fid e.2)) BUS_NUM_REG_OFFSET).
Proof.
  revert i. induction es as [|[x f] es IH]; intros i; [done|]. cbn [first_rp]. destruct (_ && _) eqn:Hc.
  - intros [= <-]. split; [lia|]. exists (x, f). rewrite Z.sub_diag. apply andb_true_iff in Hc as [Hc H3].
    apply andb_true_iff in Hc as [H1 H2]. apply Z.leb_le in H2, H3. done.
  - intros Hj. apply IH in Hj as (Hle & e & He & Hrest). split; [lia|]. exists e. split; [|done].
    by replace (Z.to_nat (j - i)) with (S (Z.to_nat (j - (i + 1)))) by lia.
Qed.

Lemma first_rp_found (b : Z) (es : list (Z * func)) (i : Z) (e : Z * func) : e ∈ es → is_rp e.2 = true →
  bus_sec (rd (m (fid e.2)) BUS_NUM_REG_OFFSET) <= b <= bus_sub (rd (m (fid e.2)) BUS_NUM_REG_OFFSET) →
  is_Some (first_rp m b es i).
Proof.
  intros He Hr [H1 H2]. revert i. induction es as [|[x f] es IH]; intros i; [by apply elem_of_nil in He|]. cbn [first_rp].
  destruct (_ && _) eqn:Hc; [by eexists|]. apply elem_of_cons in He as [->|He]; [|by apply IH]. cbn [snd] in *.
  rewrite Hr, (proj2 (Z.leb_le _ _) H1), (proj2 (Z.leb_le _ _) H2) in Hc. done.
Qed.

Lemma elem_entries (bs : list (Z * bus)) (b k : Z) (l : bus) (f : func) : (b, l) ∈ bs → (k, f) ∈ l → listed f = true →
  (b * 256 + k, f) ∈ entries bs.
Proof.
  intros Hb Hk Hl. unfold entries. apply list_elem_of_In, in_concat. exists (bus_entries b l).
  split; apply list_elem_of_In; [by apply (list_elem_of_fmap_2 (λ x : Z * bus, bus_entries x.1 x.2) bs (b, l))|].
  unfold bus_entries. apply (list_elem_of_fmap_2 (λ y : Z * func, (b * 256 + y.1, y.2)) _ (k, f)).
  by apply list_elem_of_filter.
Qed.

(** The bridges on the first bus are listed as root ports, and nothing else is. *)
Definition root_ports (root : bus) : Prop :=
  (∀ k f, (k, f) ∈ root → is_bridge f = true → is_rp f = true ∧ listed f = true)
  ∧ (∀ e, e ∈ entries (all_buses root) → is_rp e.2 = true → e ∈ root ∧ is_bridge e.2 = true).

Lemma rootport_above (root : bus) (k : Z) (f : func) (e : Z * func) : numbered m root 1 → root_ports root →
  (k, f) ∈ root → is_bridge f = true → e ∈ entries (fbuses f (bus_sec (rd (m (fid f)) BUS_NUM_REG_OFFSET))) →
  (∀ g, g ∈ bus_funcs root → bus_wf (fbelow g)) →
  is_rp e.2 = false → dev_type e.2 ≠ RCiEP → dev_type e.2 ≠ RCEC →
  ∃ i, rootport m (entries (all_buses root)) e = Some i ∧ 0 <= i
    ∧ entries (all_buses root) !! Z.to_nat i = Some (k, f).
Proof.
  intros Hn [Hp1 Hp2] Hin Hf He Hwf Hrp Ht1 Ht2. destruct (Hp1 k f Hin Hf) as [Hrf Hlf].
  destruct (numbered_elem root 1 k f Hn Hin) as (n & Hnf & Hn1 & Hn2).
  pose proof (proj1 (numbered_f_eq m f n Hf) Hnf) as (Hsec & Hsub & _).
  assert (bus_sec (rd (m (fid f)) BUS_NUM_REG_OFFSET) <= e.1 / 256 <= bus_sub (rd (m (fid f)) BUS_NUM_REG_OFFSET)) as Hb.
  { rewrite Hsec in He. apply entries_elem in He as (b & l & j & Hbl & He & Hj & _). pose proof (fbuses_range _ _ _ _ Hbl).
    assert ((b, l) ∈ behind [(k, f)] n) as Hbl' by (cbn [behind]; apply elem_of_app; by left).
    destruct (behind_in _ _ _ _ Hbl') as (g & Hg & _ & ->).
    assert (g ∈ bus_funcs root) as Hgr.
    { apply list_elem_of_split in Hin as (l1 & l2 & ->). rewrite bus_funcs_cons, app_nil_r in Hg.
      rewrite bus_funcs_app, bus_funcs_cons. apply elem_of_app. right. apply elem_of_app. by left. }
    pose proof (proj1 (Forall_forall _ _) (proj2 (Hwf g Hgr)) _ Hj) as Hj'. cbn [fst] in Hj'.
    rewrite He, Z.div_add_l, Z.div_small by lia. rewrite buses_eq, Hf in *. lia. }
  assert ((k, f) ∈ entries (all_buses root)) as Hkf.
  { apply elem_entries with (b := 0) (l := root); [left|done|done]. }
  unfold rootport. rewrite Hrp, (proj2 (Z.eqb_neq _ _) Ht1), (proj2 (Z.eqb_neq _ _) Ht2). cbn [orb].
  destruct (first_rp_found (e.1 / 256) _ 0 (k, f) Hkf Hrf Hb) as (i & Hi). exists i. split; [done|].
  apply first_rp_some in Hi as (Hle & e' & He' & Hr' & Hb'). split; [done|]. rewrite Z.sub_0_r in He'. rewrite He'. f_equal.
  destruct (Hp2 e' (list_elem_of_lookup_2 _ _ _ He') Hr') as [Hin' Hbr'].
  apply (numbered_apart root 1 (e.1 / 256)); try done; unfold claims.
  - rewrite Hbr'. cbn [andb]. apply andb_true_iff. split; apply Z.leb_le; lia.
  - cbn [snd]. rewrite Hf. cbn [andb]. apply andb_true_iff. split; apply Z.leb_le; lia.
Qed.

End Ports.

Section Theorems.

Context {R : Type} `{FnHw R} {HO : FnOk R} {PP : PciePlat} (base last : Z) (root : bus).

#[local] Hint Extern 0 (PcieHw (nat → R)) => exact (hw_inst base root) : typeclass_instances.

Lemma pcie_init_fresh (cap_fuel depth : nat) (s : pcie (nat → R)) :
  hierarchy base last root → plat_pcie_get_info_table = Some (window base last) → plat_pcie_get_bar_config.1 = 0 →
  (cap_bound ≤ cap_fuel)%nat → (4096 ≤ cap_fuel)%nat → bus_total root < Z.of_nat depth → fresh root s →
  let es := entries (all_buses root) in
  ∃ s' devs, pcie_init cap_fuel depth s = Ok (tt, s') ∧ settled base last root s' ∧ is_init s' = true
    ∧ g_pcie_bdf_table s' = true ∧ num_entries s' = Z.of_nat (length es) ∧ device s' = devs ++ replicate (128 - length es) no_dev
    ∧ Forall2 (device_of base s' es) es devs.
Proof.
  intros [H1 H2 H3 H4 H5 H6 H7 H8] Hi Hb Hf1 Hf2 Hd [F1 F2 F3 F4] es.
  destruct (pcie_init_run base last root H1 H2 H3 H4 H5 (λ g Hg, proj1 (H6 g Hg)) H7 (λ g Hg, proj2 (H6 g Hg)) Hi Hb
    cap_fuel Hf1 Hf2 depth s Hd F1 F2 F3 F4 H8) as (s' & devs & Hr & Hs & Hin & Hn & Hp & Hdev & HF).
  by exists s', devs.
Qed.

(** C14: On a hierarchy with as many buses as the window has at most and fewer
    than 128 PCI Express functions, [pcie_init()] returns.  The buses are then
    numbered in the order in which they are met, so that a request for a number
    gets to the function that is there and to no other; and the table lists the
    PCI Express functions that are not host bridges, in the order of their
    numbers, each with its type, the root port above it and its DOE and IDE
    capabilities. *)
Theorem pcie_init_enumerates (cap_fuel depth : nat) (s : pcie (nat → R)) :
  hierarchy base last root → plat_pcie_get_info_table = Some (window base last) → plat_pcie_get_bar_config.1 = 0 →
  (cap_bound ≤ cap_fuel)%nat → (4096 ≤ cap_fuel)%nat → bus_total root < Z.of_nat depth → fresh root s →
  let es := entries (all_buses root) in
  ∃ s' devs, pcie_init cap_fuel depth s = Ok (tt, s') ∧ is_init s' = true
    ∧ numbered (hw s') root 1
    ∧ (∀ b l, (b, l) ∈ all_buses root → ∀ k, broute (hw s') 0 root b k = on_bus k l)
    ∧ num_entries s' = Z.of_nat (length es)
    ∧ device s' = devs ++ replicate (128 - length es) no_dev
    ∧ Forall2 (device_of base s' es) es devs.
Proof.
  intros Hh Hi Hb Hf1 Hf2 Hd Hs es.
  destruct (pcie_init_fresh cap_fuel depth s Hh Hi Hb Hf1 Hf2 Hd Hs) as (s' & devs & Hr & Hset & Hin & _ & Hn & Hdev & HF).
  exists s', devs. split_and!; try done; [apply Hset|]. intros b l Hbl k. destruct Hh as [_ _ H3 _ H5 H6 H7 _].
  destruct (all_buses_route base last root H3 H5 (λ g Hg, proj1 (H6 g Hg)) H7 cap_fuel Hf1 Hf2 s' b l Hset Hbl)
    as (_ & _ & Hroute). apply Hroute.
Qed.

(** When the bridges on the first bus are the root ports, every device
    [pcie_init()] lists on a bus behind one of them, other than those that
    count as integrated into the root complex, has that port as its root
    port. *)
Theorem pcie_rootport_above (cap_fuel depth : nat) (s : pcie (nat → R)) :
  hierarchy base last root → plat_pcie_get_info_table = Some (window base last) → plat_pcie_get_bar_config.1 = 0 →
  (cap_bound ≤ cap_fuel)%nat → (4096 ≤ cap_fuel)%nat → bus_total root < Z.of_nat depth → fresh root s →
  root_ports root →
  ∃ s', pcie_init cap_fuel depth s = Ok (tt, s') ∧
    ∀ k f e j, (k, f) ∈ root → is_bridge f = true →
      e ∈ entries (fbuses f (bus_sec (rd (hw s' (fid f)) BUS_NUM_REG_OFFSET))) →
      entries (all_buses root) !! j = Some e → is_rp e.2 = false → dev_type e.2 ≠ RCiEP → dev_type e.2 ≠ RCEC →
      ∃ d i port, device s' !! j = Some d ∧ bdf d = e.1 ∧ rp_dev d = Some i
        ∧ device s' !! Z.to_nat i = Some port ∧ bdf port = k.
Proof.
  intros Hh Hi Hb Hf1 Hf2 Hd Hs Hports.
  destruct (pcie_init_fresh cap_fuel depth s Hh Hi Hb Hf1 Hf2 Hd Hs) as (s' & devs & Hr & Hset & _ & _ & _ & Hdev & HF).
  exists s'. split; [done|]. intros k f e j Hin Hf He Hj Hrp Ht1 Ht2.
  destruct (rootport_above (hw s') root k f e) as (i & Hi1 & _ & Hi2); try done; [apply Hset|intros g Hg; by apply (h_below _ _ _ Hh)|].
  destruct (Forall2_lookup_l _ _ _ _ _ HF Hj) as (d & Hd1 & Hbdf & Hrpd & _).
  destruct (Forall2_lookup_l _ _ _ _ _ HF Hi2) as (p & Hp1 & Hpb & _).
  exists d, i, p. rewrite Hdev. split_and!; [by apply lookup_app_l_Some|done|congruence|by apply lookup_app_l_Some|done].
Qed.

End Theorems.

(** ** A hierarchy with concrete registers *)

Module Sample.

(** The kind, the bus numbers of a bridge and a base address register *)
Record regs := { rk : fkind; rbus : Z; rbar : Z }.

#[export] Instance sample_fn : FnHw regs := {|
  rd r o :=
    if o =? TYPE01_VIDR then 0x13b5
    else if o =? TYPE01_RIDR then
      match what (rk r) with HostBridge => 0x06000000 | Endpoint => 0x02000000 | Bridge => 0x06040000 end
    else if o =? HEADER_OFFSET then (if bool_decide (what (rk r) = Bridge) then 0x10000 else 0)
    else if o =? BUS_NUM_REG_OFFSET then (if bool_decide (what (rk r) = Bridge) then rbus r else 0)
    else if o =? BAR0_OFFSET then
      (if bool_decide (what (rk r) = Endpoint) then Z.land (rbar r) 0xFFF00000 else 0)
    else if o =? TYPE01_CPR then 0x40
    else if o =? 0x40 then (if express (rk r) then port (rk r) * 2 ^ 20 + CID_PCIECS else 1)
    else if o =? PCIE_ECAP_START then (if bool_decide (what (rk r) = Endpoint) then 0x1002E else 0)
    else 0;
  wr r o v :=
    if o =? BUS_NUM_REG_OFFSET then {| rk := rk r; rbus := v mod 2 ^ 32; rbar := rbar r |}
    else if o =? BAR0_OFFSET then {| rk := rk r; rbus := rbus r; rbar := v |}
    else r;
|}.

Definition regs_ok (k : fkind) (r : regs) : Prop := rk r = k ∧ 0 <= rbus r < 2 ^ 32 ∧ 0 <= port k < 16.

Lemma port_read (p : Z) : 0 <= p < 16 → port_type (p * 2 ^ 20 + CID_PCIECS) = p ∧ Z.land (p * 2 ^ 20 + CID_PCIECS) PCIE_CIDR_MASK = CID_PCIECS
  ∧ Z.land (Z.shiftr (p * 2 ^ 20 + CID_PCIECS) PCIE_NCPR_SHIFT) PCIE_NCPR_MASK = 0.
Proof.
  intros Hp. assert (p ∈ seqZ 0 16) as Hin by (apply elem_of_seqZ; lia). revert p Hin Hp. cbv [seqZ].
  assert (∀ p, p ∈ seqZ 0 16 → port_type (p * 2 ^ 20 + CID_PCIECS) = p ∧ Z.land (p * 2 ^ 20 + CID_PCIECS) PCIE_CIDR_MASK = CID_PCIECS
    ∧ Z.land (Z.shiftr (p * 2 ^ 20 + CID_PCIECS) PCIE_NCPR_SHIFT) PCIE_NCPR_MASK = 0) as Hall; [|intros p Hin _; by apply Hall].
  apply Forall_forall. vm_compute. repeat constructor.
Qed.

#[export] Instance sample_ok : FnOk regs.
Proof.
  refine {| fn_ok := regs_ok; cap_bound := 1 |}.
  - intros k r o v (H1 & H2 & H3). unfold wr, sample_fn, regs_ok. destruct (o =? BUS_NUM_REG_OFFSET); cbn [rk rbus];
      [|by destruct (o =? BAR0_OFFSET)]. split; [done|]. split; [by apply Z.mod_pos_bound|done].
  - intros k r _. done.
  - intros k r (<- & _). cbn. by destruct (what (rk r)).
  - intros k r (<- & _). cbn. by destruct (what (rk r)).
  - intros k r v (<- & _) Hk Hv. cbn. rewrite Hk, Z.mod_small by done. done.
  - intros k r o v _ _ Ho. unfold wr, sample_fn. rewrite (proj2 (Z.eqb_neq o _) Ho). by destruct (o =? BAR0_OFFSET).
  - intros k r (<- & Hr & _) Hk. cbn. rewrite Hk. exact Hr.
  - intros k r o v (<- & _) Hk. unfold wr, sample_fn. destruct (o =? BUS_NUM_REG_OFFSET); [|destruct (o =? BAR0_OFFSET)];
      unfold rd; cbn; by rewrite Hk.
  - intros k r (<- & _) Hk _. done.
  - intros k r (<- & _ & Hp). destruct (port_read _ Hp) as (P1 & P2 & P3).
    assert (rd r 0x40 = if express (rk r) then port (rk r) * 2 ^ 20 + CID_PCIECS else 1) as Hrd by done.
    destruct (express (rk r)) eqn:He.
    + exists [(0x40, CID_PCIECS)]. split; [|split; [done|]].
      * unfold pci_caps. change (Z.land (rd r TYPE01_CPR) TYPE01_CPR_MASK) with 0x40.
        rewrite <- P2, <- Hrd. apply caps_cons; [done|]. rewrite Hrd, P3. constructor.
      * cbn [find_cap]. change (CID_PCIECS =? CID_PCIECS) with true. cbv iota. by rewrite Hrd.
    + exists [(0x40, 1)]. split; [|split; done].
      unfold pci_caps. change (Z.land (rd r TYPE01_CPR) TYPE01_CPR_MASK) with 0x40.
      assert (1 = Z.land (rd r 0x40) PCIE_CIDR_MASK) as -> by (by rewrite Hrd). apply caps_cons; [done|]. rewrite Hrd. constructor.
  - intros k r (<- & _). unfold ext_caps. eexists. split; [apply caps_cons; [done|]|].
    + assert (Z.land (Z.shiftr (rd r PCIE_ECAP_START) PCIE_ECAP_NCPR_SHIFT) PCIE_ECAP_NCPR_MASK = 0) as ->; [|constructor].
      cbn. by destruct (bool_decide _).
    + done.
Defined.

Definition host : fkind := {| what := HostBridge; express := false; port := 0 |}.
Definition root_port : fkind := {| what := Bridge; express := true; port := 4 |}.
Definition switch_port : fkind := {| what := Bridge; express := true; port := 5 |}.
Definition endpoint : fkind := {| what := Endpoint; express := true; port := 0 |}.

(** Two root ports: behind the first an endpoint and a bridge with another one *)
Definition root : bus :=
  [(0, Func 0 host []);
   (8, Func 1 root_port [(0, Func 2 endpoint []); (8, Func 3 switch_port [(0, Func 4 endpoint [])])]);
   (16, Func 5 root_port [(0, Func 6 endpoint [])])].

Definition kind_of (i : nat) : fkind := nth i [host; root_port; endpoint; switch_port; endpoint; root_port; endpoint] host.

Definition base : Z := 0x40000000.

#[export] Instance sample_plat : PciePlat := {|
  plat_pcie_get_info_table := Some (window base 7);
  plat_pcie_get_bar_config := (0, (0x4000000000, 0x4040000000, 0x60000000, 0x60000000, 0x60850000));
|}.

Definition start : pcie (nat → regs) := {|
  hw := λ i, {| rk := kind_of i; rbus := 0; rbar := 0 |};
  g_pcie_info_table := None; g_pcie_bdf_table := false; num_entries := 0; device := replicate 128 no_dev;
  g_pcie_index := 0;
  bars := {| g_bar64_p_start := 0; g_rp_bar64_value := 0; g_bar64_p_max := 0; g_64_bus := 0; g_bar64_size := 0;
             g_bar32_np_start := 0; g_bar32_p_start := 0; g_rp_bar32_value := 0; g_bar32_np_max := 0;
             g_bar32_p_max := 0; g_np_bar_size := 0; g_p_bar_size := 0; g_np_bus := 0; g_p_bus := 0 |};
  is_init := false |}.

(** A bus that is written out *)
Ltac literal_bus :=
  split; repeat first [apply SSorted_nil | apply SSorted_cons | apply Forall_nil_2 | apply Forall_cons_2]; cbn; lia.

Lemma sample_hierarchy : hierarchy base 7 root.
Proof.
  split; try done.
  - apply (bool_decide_unpack _). vm_compute. done.
  - literal_bus.
  - apply Forall_forall. unfold bus_funcs, root. cbn. repeat first [apply Forall_nil_2 | apply Forall_cons_2; [split; [literal_bus|done]|]].
  - apply Nat.ltb_lt. by vm_compute.
Qed.

Lemma sample_fresh : fresh root start.
Proof. split; try done. apply Forall_forall. repeat (constructor; [split_and!; vm_compute; done|]). constructor. Qed.

Lemma sample_ports : root_ports root.
Proof.
  split.
  - intros k f Hin. repeat (apply elem_of_cons in Hin as [[= -> ->]|Hin]; [done|]). by apply elem_of_nil in Hin.
  - intros e Hin. let l := eval vm_compute in (entries (all_buses root)) in change (e ∈ l) in Hin.
    repeat (apply elem_of_cons in Hin as [->|Hin]; [intros Hr; first [discriminate Hr|split; [set_solver|done]]|]).
    by apply elem_of_nil in Hin.
Qed.

Lemma pcie_init_enumerates_witness : hierarchy base 7 root ∧ fresh root start ∧
  ∃ s', pcie_init (H := hw_inst base root) 4096 5 start = Ok (tt, s') ∧ num_entries s' = 6.
Proof.
  split; [exact sample_hierarchy|]. split; [exact sample_fresh|].
  destruct (pcie_init_enumerates (PP := sample_plat) base 7 root 4096 5 start sample_hierarchy eq_refl eq_refl
    ltac:(apply Nat.leb_le; vm_compute; reflexivity) ltac:(apply Nat.leb_le; vm_compute; reflexivity) ltac:(vm_compute; reflexivity) sample_fresh) as (s' & devs & Hr & _ & _ & _ & Hn & _).
  exists s'. split; [exact Hr|]. rewrite Hn. vm_compute. reflexivity.
Defined.

Lemma pcie_rootport_above_witness : root_ports root ∧
  ∃ s' d i port, pcie_init (H := hw_inst base root) 4096 5 start = Ok (tt, s') ∧ device s' !! 4%nat = Some d ∧ bdf d = 0x200
    ∧ rp_dev d = Some i ∧ device s' !! Z.to_nat i = Some port ∧ bdf port = 0x8.
Proof.
  split; [exact sample_ports|].
  destruct (pcie_rootport_above (PP := sample_plat) base 7 root 4096 5 start sample_hierarchy eq_refl eq_refl
    ltac:(apply Nat.leb_le; vm_compute; reflexivity) ltac:(apply Nat.leb_le; vm_compute; reflexivity) ltac:(vm_compute; reflexivity) sample_fresh sample_ports) as (s' & Hr & Hall).
  assert (bus_sec (rd (hw s' 1%nat) BUS_NUM_REG_OFFSET) = 1) as Hsec.
  { assert (match pcie_init (H := hw_inst base root) 4096 5 start with
            | Ok (_, t) => bus_sec (rd (hw t 1%nat) BUS_NUM_REG_OFFSET) | Stop _ => 0 end = 1) as He by (vm_compute; reflexivity).
    rewrite Hr in He. exact He. }
  destruct (Hall 8 _ (0x200, Func 4 endpoint []) 4%nat ltac:(right; left) eq_refl) as (d & i & port & D1 & D2 & D3 & D4 & D5).
  - cbn [fid]. rewrite Hsec. vm_compute. do 2 right. left.
  - vm_compute. reflexivity.
  - vm_compute. reflexivity.
  - vm_compute. discriminate.
  - vm_compute. discriminate.
  - exists s', d, i, port. split_and!; done.
Defined.

(** Endpoints behind different bridges that have one base address register each
    get the same address: the address is moved on when a second register of a
    function or a second function of a bus needs one, and past a bridge only if it
    has moved since. *)
Lemma pcie_bars_overlap :
  match pcie_init (H := hw_inst base root) 4096 5 start with
  | Ok (_, s) => (λ i, rd (hw s i) BAR0_OFFSET) <$> [2; 4; 6]%nat = [0x60000000; 0x60000000; 0x60000000]
  | Stop _ => False
  end.
Proof. vm_compute. reflexivity. Qed.

End Sample.
