(* ===== verification/PcieDoe.v ===== *)
(** * PCIe data object exchange (lib/pcie/pcie_doe.c)

    Requests and responses are in byte and word buffers that the caller owns;
    the time that passes while the driver waits is an effect on the device,
    [waitms]. *)

From S2P Require Import Prelude Bytes Pcie.

Local Open Scope Z_scope.

(** ** Constants (pcie_doe.h, errno.h) *)

Definition DOE_CTRL_REG : Z := 0x8.
Definition DOE_STATUS_REG : Z := 0xC.
Definition DOE_WRITE_DATA_MAILBOX_REG : Z := 0x10.
Definition DOE_READ_DATA_MAILBOX_REG : Z := 0x14.
Definition DOE_CTRL_GO_BIT : Z := Z.shiftl 1 31.
Definition DOE_STATUS_BUSY_BIT : Z := Z.shiftl 1 0.
Definition DOE_STATUS_ERROR_BIT : Z := Z.shiftl 1 2.
Definition DOE_STATUS_READY_BIT : Z := Z.shiftl 1 31.
Definition PCI_DOE_TIMEOUT : Z := 1000.
Definition PCI_DOE_POLL_TIME : Z := 10.
Definition PCI_DOE_POLL_LOOP : Z := PCI_DOE_TIMEOUT / PCI_DOE_POLL_TIME.
Definition PCI_DOE_RESERVED_SHIFT : Z := 18.
Definition PCI_DOE_RESERVED_MASK : Z := 0xFFFC0000.
Definition PCI_DOE_MAX_LENGTH : Z := Z.shiftl 1 PCI_DOE_RESERVED_SHIFT.
Definition PSI_SIG_VENDOR_ID : Z := 1.
Definition DOE_DISC_PROTOCOL : Z := 0.
Definition CMA_SPDM_PROTOCOL : Z := 1.
Definition SEC_CMA_SPDM_PROTOCOL : Z := 2.
Definition DOE_HEADER (type : Z) : Z := Z.lor (Z.shiftl type 16) PSI_SIG_VENDOR_ID.
Definition DOE_HEADER_0 : Z := DOE_HEADER DOE_DISC_PROTOCOL.
Definition DOE_HEADER_1 : Z := DOE_HEADER CMA_SPDM_PROTOCOL.
Definition DOE_HEADER_2 : Z := DOE_HEADER SEC_CMA_SPDM_PROTOCOL.
Definition DOE_HEADER_LENGTH : Z := 2.
Definition EIO : Z := 5.
Definition EBUSY : Z := 16.
Definition ENODEV : Z := 19.
Definition ETIMEDOUT : Z := 60.

(** Time passes for the device. *)
Class DoeClock (D : Type) := { waitms : Z → M D unit }.

Section Doe.

Context {D : Type} `{PcieHw D} `{DoeClock D}.

Abbreviation P := (M (pcie D)).

(** ** Sending and receiving *)

(** [for (i = 0; i < PCI_DOE_POLL_LOOP; i++)] *)
Fixpoint wait_loop (bdf doe_cap_base : Z) (n : nat) : P Z :=
  match n with
  | O => mret (- ETIMEDOUT)
  | S n' =>
      value ← pcie_read_cfg bdf (u32 (doe_cap_base + DOE_STATUS_REG));
      if negb (Z.land value DOE_STATUS_BUSY_BIT =? 0) then mret (- EBUSY)
      else if negb (Z.land value DOE_STATUS_ERROR_BIT =? 0) then mret (- EIO)
      else if negb (Z.land value DOE_STATUS_READY_BIT =? 0) then mret 0
      else on_hw (waitms PCI_DOE_POLL_TIME);; wait_loop bdf doe_cap_base n'
  end.

Definition pcie_doe_wait_ready (bdf doe_cap_base : Z) : P Z :=
  wait_loop bdf doe_cap_base (Z.to_nat PCI_DOE_POLL_LOOP).

(** [req_addr[i]], or its first [n] bytes *)
Definition req_word (req : list Z) (i n : Z) : P Z :=
  if (0 <=? 4 * i) && (4 * i + n <=? zlen req) then mret (le_value (slice (4 * i) n req)) else fail OutOfBounds.

Fixpoint send_loop (bdf doe_cap_base : Z) (req : list Z) (n : nat) (i : Z) : P unit :=
  match n with
  | O => mret tt
  | S n' =>
      value ← req_word req i 4;
      pcie_write_cfg bdf (u32 (doe_cap_base + DOE_WRITE_DATA_MAILBOX_REG)) value;;
      send_loop bdf doe_cap_base req n' (i + 1)
  end.

Definition pcie_doe_send_req (header bdf doe_cap_base : Z) (req : list Z) (req_len : Z) : P Z :=
  value ← pcie_read_cfg bdf (u32 (doe_cap_base + DOE_STATUS_REG));
  if negb (Z.land value DOE_STATUS_BUSY_BIT =? 0) then mret (- EBUSY)
  else if negb (Z.land value DOE_STATUS_ERROR_BIT =? 0) then mret (- EIO)
  else
    let send_length := Z.shiftr req_len 2 in
    let rem_length := Z.land req_len 3 in
    let doe_length := if rem_length =? 0 then send_length else u32 (send_length + 1) in
    pcie_write_cfg bdf (u32 (doe_cap_base + DOE_WRITE_DATA_MAILBOX_REG)) header;;
    pcie_write_cfg bdf (u32 (doe_cap_base + DOE_WRITE_DATA_MAILBOX_REG)) (u32 (doe_length + DOE_HEADER_LENGTH));;
    send_loop bdf doe_cap_base req (Z.to_nat send_length) 0;;
    (if negb (rem_length =? 0) then
       value ← req_word req send_length rem_length;
       pcie_write_cfg bdf (u32 (doe_cap_base + DOE_WRITE_DATA_MAILBOX_REG)) value
     else mret tt);;
    pcie_write_cfg bdf (u32 (doe_cap_base + DOE_CTRL_REG)) DOE_CTRL_GO_BIT;;
    mret 0.

(** One word of the read mailbox, and the write that takes it off *)
Definition recv_word (bdf doe_cap_base : Z) : P Z :=
  value ← pcie_read_cfg bdf (u32 (doe_cap_base + DOE_READ_DATA_MAILBOX_REG));
  pcie_write_cfg bdf (u32 (doe_cap_base + DOE_READ_DATA_MAILBOX_REG)) 0;;
  mret value.

(** [for (i = 0; i < length; i++)]: the buffer [resp] is in words, and the word
    is stored before the mailbox is written.  [fuel] is one more than the
    size of the buffer, past which the loop cannot get. *)
Fixpoint recv_loop (bdf doe_cap_base length : Z) (fuel : nat) (i : Z) (resp : list Z) : P (list Z) :=
  if i <? length then
    match fuel with
    | O => fail FuelOut
    | S fuel' =>
        value ← pcie_read_cfg bdf (u32 (doe_cap_base + DOE_READ_DATA_MAILBOX_REG));
        resp ← aset resp i value;
        pcie_write_cfg bdf (u32 (doe_cap_base + DOE_READ_DATA_MAILBOX_REG)) 0;;
        recv_loop bdf doe_cap_base length fuel' (i + 1) resp
    end
  else mret resp.

(** The result, the buffer and the length if it was set *)
Definition pcie_doe_recv_resp (bdf doe_cap_base : Z) (resp : list Z) : P (Z * list Z * option Z) :=
  ret ← pcie_doe_wait_ready bdf doe_cap_base;
  if negb (ret =? 0) then mret (ret, resp, None)
  else
    _ ← recv_word bdf doe_cap_base;
    value ← recv_word bdf doe_cap_base;
    if negb (Z.land value PCI_DOE_RESERVED_MASK =? 0) then mret (- EIO, resp, None)
    else
      let length := if negb (value =? 0) then u32 (value - DOE_HEADER_LENGTH)
                    else PCI_DOE_MAX_LENGTH - DOE_HEADER_LENGTH in
      let resp_len := u32 (Z.shiftl length 2) in
      resp ← recv_loop bdf doe_cap_base length (S (List.length resp)) 0 resp;
      value ← pcie_read_cfg bdf (u32 (doe_cap_base + DOE_STATUS_REG));
      if negb (Z.land value (Z.lor DOE_STATUS_READY_BIT DOE_STATUS_ERROR_BIT) =? 0)
      then mret (- EIO, resp, Some resp_len)
      else mret (0, resp, Some resp_len).

(** [rsp_sz] points to 64 bits, of which the lower 32 are set. *)
Definition pcie_doe_communicate (header bdf doe_cap_base : Z) (req : list Z) (req_sz : Z) (rsp : list Z) (rsp_sz : Z)
    : P (Z * list Z * Z) :=
  assert_ ((header =? DOE_HEADER_0) || (header =? DOE_HEADER_1) || (header =? DOE_HEADER_2));;
  rc ← pcie_doe_send_req header bdf doe_cap_base req (u32 req_sz);
  if negb (rc =? 0) then mret (rc, rsp, rsp_sz)
  else
    r ← pcie_doe_recv_resp bdf doe_cap_base rsp;
    let '(rc, rsp, len) := r in
    mret (rc, rsp, match len with Some l => rsp_sz / 2 ^ 32 * 2 ^ 32 + l | None => rsp_sz end).

(** ** A device with a mailbox *)

Definition pcie_dev_has_doe (d : pcie_dev) : bool := negb (Z.land (cflags d) PCIE_DEV_CFLAG_DOE =? 0).

(** [while (num_bdf-- != 0)] *)
Fixpoint find_doe_loop (num_bdf : nat) : P (option (Z * Z)) :=
  match num_bdf with
  | O => mret None
  | S n =>
      dev ← get_dev (Z.of_nat n);
      if (dp_type dev =? EP) && pcie_dev_has_doe dev then mret (Some (bdf dev, doe_cap_base dev))
      else find_doe_loop n
  end.

(** The result, and the function and its capability when it is 0 *)
Definition pcie_find_doe_device : P (Z * option (Z * Z)) :=
  s ← get;
  assert_ (g_pcie_bdf_table s);;
  if num_entries s =? 0 then mret (- ENODEV, None)
  else
    r ← find_doe_loop (Z.to_nat (num_entries s));
    mret (match r with Some _ => 0 | None => - ENODEV end, r).

End Doe.
