(* ===== verification/PcieDoeSpec.v ===== *)
(** * Exchanges with a PCIe mailbox

    The mailbox of a function as a state machine, as the PCI Express
    specification describes data object exchange, and what [PcieDoe] does with
    the mailbox of a function of a hierarchy. *)

From S2P Require Import Prelude Bits Bytes Pcie PcieTree PcieEnum PcieTable PcieSpec PcieDoe.

Local Open Scope Z_scope.

(** ** The mailbox *)

(** The words of the object that is written, the objects that were submitted,
    the response that is prepared with the number of polls until it is ready, and
    the words of a response that are left to be read *)
Record mbox := {
  inbox : list Z;
  submitted : list (list Z);
  pending : option (nat * list Z);
  outbox : list Z;
  busy : bool;
  failed : bool;
}.

Section Mbox.

(** What the responder makes of an object *)
Context (answer : list Z → nat * list Z).

Definition status (m : mbox) : Z :=
  (if busy m then DOE_STATUS_BUSY_BIT else 0) + (if failed m then DOE_STATUS_ERROR_BIT else 0)
  + (match outbox m with [] => 0 | _ => DOE_STATUS_READY_BIT end).

Definition deliver (p : option (nat * list Z)) (m : mbox) : mbox :=
  match p with
  | Some (O, resp) =>
      {| inbox := inbox m; submitted := submitted m; pending := None; outbox := resp; busy := busy m; failed := failed m |}
  | _ =>
      {| inbox := inbox m; submitted := submitted m; pending := p; outbox := outbox m; busy := busy m; failed := failed m |}
  end.

Definition push (m : mbox) (v : Z) : mbox :=
  {| inbox := inbox m ++ [v]; submitted := submitted m; pending := pending m; outbox := outbox m; busy := busy m;
     failed := failed m |}.
Definition go (m : mbox) : mbox :=
  deliver (Some (answer (inbox m)))
    {| inbox := []; submitted := inbox m :: submitted m; pending := None; outbox := []; busy := busy m; failed := failed m |}.
Definition pop (m : mbox) : mbox :=
  {| inbox := inbox m; submitted := submitted m; pending := pending m; outbox := tail (outbox m); busy := busy m;
     failed := failed m |}.
Definition poll (m : mbox) : mbox :=
  deliver (match pending m with Some (S n, resp) => Some (n, resp) | p => p end) m.

(** A function with such a mailbox at [cap] *)
Class DoeFn (R : Type) `{FnHw R} (cap : Z) := {
  view : R → mbox;
  tick : R → R;
  doe_status r : rd r (cap + DOE_STATUS_REG) = status (view r);
  doe_read r : rd r (cap + DOE_READ_DATA_MAILBOX_REG) = hd 0 (outbox (view r));
  doe_push r v : view (wr r (cap + DOE_WRITE_DATA_MAILBOX_REG) v) = push (view r) v;
  doe_pop r v : view (wr r (cap + DOE_READ_DATA_MAILBOX_REG) v) = pop (view r);
  doe_go r : view (wr r (cap + DOE_CTRL_REG) DOE_CTRL_GO_BIT) = go (view r);
  doe_tick r : view (tick r) = poll (view r);
  tick_bus r : rd (tick r) BUS_NUM_REG_OFFSET = rd r BUS_NUM_REG_OFFSET;
}.

(** Time passes for all functions. *)
Definition tree_clock {R} `{FnHw R} (cap : Z) {DF : DoeFn R cap} : DoeClock (nat → R) :=
  {| waitms _ m := Ok (tt, λ i, tick (m i)) |}.

(** ** Accesses *)

Section Access.

Context {R : Type} `{FnHw R} (cap base last : Z) {DF : DoeFn R cap} (root : bus).
Context (Hbase : 0 < base) (Htop : base + 2 ^ 28 < 2 ^ 64) (Hlast : 0 <= last <= 255).
Context (Hnd : NoDup (fid <$> bus_funcs root)).
Context (b k : Z) (f : func) (Hb : 0 <= b <= last) (Hk : 0 <= k < 256) (Hf : is_bridge f = false).
Context (Hcap : 0 <= cap <= 4072).

#[local] Hint Extern 0 (PcieHw (nat → R)) => exact (hw_inst base root) : typeclass_instances.
#[local] Hint Extern 0 (DoeClock (nat → R)) => exact (tree_clock cap) : typeclass_instances.

Abbreviation window := (window base last).
Abbreviation id := (b * 256 + k).

(** The function can be reached, with its mailbox in state [m]. *)
Definition holds (s : pcie (nat → R)) (m : mbox) : Prop :=
  g_pcie_info_table s = Some window ∧ broute (hw s) 0 root b k = Some f ∧ view (hw s (fid f)) = m.

(** Nothing but the device changes. *)
Definition kept (s s' : pcie (nat → R)) : Prop := rest s' = rest s ∧ bars s' = bars s.

Lemma kept_trans (s s1 s2 : pcie (nat → R)) : kept s s1 → kept s1 s2 → kept s s2.
Proof. intros [A1 A2] [B1 B2]. split; congruence. Qed.

Lemma reg_offset (o : Z) : 0 <= o <= 0x14 → u32 (cap + o) = cap + o ∧ 0 <= cap + o < 4096.
Proof. intros Ho. rewrite u32_small by (unfold UINT32_MAX; lia). lia. Qed.

Lemma read_status (s : pcie (nat → R)) (m : mbox) : holds s m →
  pcie_read_cfg id (u32 (cap + DOE_STATUS_REG)) s = Ok (status m, s).
Proof.
  intros (Hw & Hr & <-). destruct (reg_offset DOE_STATUS_REG ltac:(done)) as [-> Ho].
  rewrite (read_cfg_run base last root Hbase Htop Hlast) by done. by rewrite Hr, doe_status.
Qed.

Lemma read_mail (s : pcie (nat → R)) (m : mbox) : holds s m →
  pcie_read_cfg id (u32 (cap + DOE_READ_DATA_MAILBOX_REG)) s = Ok (hd 0 (outbox m), s).
Proof.
  intros (Hw & Hr & <-). destruct (reg_offset DOE_READ_DATA_MAILBOX_REG ltac:(done)) as [-> Ho].
  rewrite (read_cfg_run base last root Hbase Htop Hlast) by done. by rewrite Hr, doe_read.
Qed.

(** A write to a register of the capability *)
Lemma write_reg (s : pcie (nat → R)) (m m' : mbox) (o v : Z) : 0 <= o <= 0x14 → holds s m →
  (∀ r, view r = m → view (wr r (cap + o) v) = m') →
  ∃ s', pcie_write_cfg id (u32 (cap + o)) v s = Ok (tt, s') ∧ holds s' m' ∧ kept s s'.
Proof.
  intros Ho (Hw & Hr & Hv) Hm. destruct (reg_offset o Ho) as [-> Ho'].
  rewrite (write_cfg_run base last root Hbase Htop Hlast b k (cap + o) v s f) by done.
  eexists. split; [reflexivity|]. split; [|done]. split; [done|]. cbn [hw set_hw]. split; [|rewrite fn_upd_same; by apply Hm].
  rewrite (broute_same (hw s)); [done|]. intros g Hg Hbr. destruct (decide (fid g = fid f)) as [He|Hne].
  - pose proof (broute_in _ _ _ _ _ _ Hr) as Hin. apply (same_id root Hnd f Hin) in He as ->; [congruence|done].
  - by rewrite fn_upd_other.
Qed.

Lemma write_mail (s : pcie (nat → R)) (m : mbox) (v : Z) : holds s m →
  ∃ s', pcie_write_cfg id (u32 (cap + DOE_WRITE_DATA_MAILBOX_REG)) v s = Ok (tt, s') ∧ holds s' (push m v) ∧ kept s s'.
Proof. intros Hs. apply (write_reg s m); [done|done|]. intros r <-. apply doe_push. Qed.

Lemma write_pop (s : pcie (nat → R)) (m : mbox) (v : Z) : holds s m →
  ∃ s', pcie_write_cfg id (u32 (cap + DOE_READ_DATA_MAILBOX_REG)) v s = Ok (tt, s') ∧ holds s' (pop m) ∧ kept s s'.
Proof. intros Hs. apply (write_reg s m); [done|done|]. intros r <-. apply doe_pop. Qed.

Lemma write_go (s : pcie (nat → R)) (m : mbox) : holds s m →
  ∃ s', pcie_write_cfg id (u32 (cap + DOE_CTRL_REG)) DOE_CTRL_GO_BIT s = Ok (tt, s') ∧ holds s' (go m) ∧ kept s s'.
Proof. intros Hs. apply (write_reg s m); [done|done|]. intros r <-. apply doe_go. Qed.

Lemma wait_tick (s : pcie (nat → R)) (m : mbox) (t : Z) : holds s m →
  ∃ s', on_hw (waitms t) s = Ok (tt, s') ∧ holds s' (poll m) ∧ kept s s'.
Proof.
  intros (Hw & Hr & <-). eexists. split; [reflexivity|]. split; [|done]. split; [done|]. cbn [hw set_hw].
  split; [|apply doe_tick]. rewrite (broute_same (hw s)); [done|]. intros g Hg Hbr. by rewrite tick_bus.
Qed.

(** ** Sending *)

Definition pushes (m : mbox) (l : list Z) : mbox :=
  {| inbox := inbox m ++ l; submitted := submitted m; pending := pending m; outbox := outbox m; busy := busy m;
     failed := failed m |}.

(** The words of a request, the last one filled up with zeros *)
Definition words (req : list Z) : list Z :=
  (λ i, le_value (slice (4 * i) 4 req)) <$> seqZ 0 ((zlen req + 3) / 4).
Definition object (header : Z) (req : list Z) : list Z := header :: zlen (words req) + 2 :: words req.

Lemma send_loop_run (req : list Z) (n : nat) (i : Z) (s : pcie (nat → R)) (m : mbox) : holds s m → 0 <= i →
  4 * (i + Z.of_nat n) <= zlen req →
  ∃ s', send_loop id cap req n i s = Ok (tt, s')
    ∧ holds s' (pushes m ((λ i, le_value (slice (4 * i) 4 req)) <$> seqZ i (Z.of_nat n))) ∧ kept s s'.
Proof.
  revert i s m. induction n as [|n IH]; intros i s m Hs Hi Hn.
  { exists s. split; [done|]. split; [|done]. cbn. unfold pushes. rewrite app_nil_r. by destruct m. }
  cbn [send_loop]. unfold req_word. rewrite (proj2 (Z.leb_le 0 (4 * i))), (proj2 (Z.leb_le _ (zlen req))) by lia. cbn [andb].
  erewrite bind_Ok by reflexivity. destruct (write_mail s m (le_value (slice (4 * i) 4 req)) Hs) as (s1 & R1 & H1 & K1).
  rewrite (bind_Ok _ _ _ _ _ R1). destruct (IH (i + 1) s1 _ H1 ltac:(lia) ltac:(lia)) as (s2 & R2 & H2 & K2).
  exists s2. split; [done|]. split; [|by eapply kept_trans]. rewrite seqZ_cons by lia. rewrite fmap_cons.
  replace (Z.succ i) with (i + 1) by lia. replace (Z.pred (Z.of_nat (S n))) with (Z.of_nat n) by lia.
  unfold pushes, push in *. cbn in *. by rewrite <- app_assoc in H2.
Qed.

(** The state bits *)
Lemma status_busy (m : mbox) : negb (Z.land (status m) DOE_STATUS_BUSY_BIT =? 0) = busy m.
Proof. unfold status. by destruct (busy m), (failed m), (outbox m). Qed.
Lemma status_failed (m : mbox) : negb (Z.land (status m) DOE_STATUS_ERROR_BIT =? 0) = failed m.
Proof. unfold status. by destruct (busy m), (failed m), (outbox m). Qed.
Lemma status_ready (m : mbox) :
  negb (Z.land (status m) DOE_STATUS_READY_BIT =? 0) = match outbox m with [] => false | _ => true end.
Proof. unfold status. by destruct (busy m), (failed m), (outbox m). Qed.
Lemma status_end (m : mbox) : negb (Z.land (status m) (Z.lor DOE_STATUS_READY_BIT DOE_STATUS_ERROR_BIT) =? 0)
  = failed m || match outbox m with [] => false | _ => true end.
Proof. unfold status. by destruct (busy m), (failed m), (outbox m). Qed.

Lemma word_count (n : Z) : 0 <= n → Z.shiftr n 2 = n / 4 ∧ Z.land n 3 = n mod 4
  ∧ (n + 3) / 4 = (if n mod 4 =? 0 then n / 4 else n / 4 + 1).
Proof.
  intros Hn. rewrite Z.shiftr_div_pow2 by lia. change 3 with (2 ^ 2 - 1) at 1. rewrite land_mask by lia. change (2 ^ 2) with 4.
  split_and!; [done|done|]. pose proof (Z.div_mod n 4 ltac:(lia)) as Hd. pose proof (Z.mod_pos_bound n 4 ltac:(lia)).
  destruct (Z.eqb_spec (n mod 4) 0); symmetry; eapply Z.div_unique_pos; [|rewrite Hd at 1| |rewrite Hd at 1].
  - instantiate (1 := n mod 4 + 3). lia.
  - lia.
  - instantiate (1 := n mod 4 - 1). lia.
  - lia.
Qed.

Lemma zlen_words (req : list Z) : zlen (words req) = (zlen req + 3) / 4.
Proof. unfold words. rewrite zlen_fmap. unfold zlen at 1. rewrite length_seqZ, Z2Nat.id; [done|]. apply Z.div_pos; [|lia]. pose proof (zlen_nonneg req). lia. Qed.

Lemma push_pushes (m : mbox) (v : Z) : push m v = pushes m [v].
Proof. done. Qed.
Lemma pushes_app (m : mbox) (l l' : list Z) : pushes (pushes m l) l' = pushes m (l ++ l').
Proof. unfold pushes. cbn [inbox submitted pending outbox busy failed]. by rewrite <- app_assoc. Qed.

(** Sending a request when the mailbox is idle *)
Lemma send_req_run (header : Z) (req : list Z) (s : pcie (nat → R)) (m : mbox) : holds s m → busy m = false →
  failed m = false → inbox m = [] → zlen req <= 2 ^ 20 →
  ∃ s', pcie_doe_send_req header id cap req (zlen req) s = Ok (0, s')
    ∧ holds s' (go (pushes m (object header req))) ∧ kept s s'.
Proof.
  intros Hs Hbusy Hfail Hin Hlen. pose proof (zlen_nonneg req) as H0. change (2 ^ 20) with 1048576 in Hlen.
  unfold pcie_doe_send_req. rewrite (bind_Ok _ _ _ _ _ (read_status s m Hs)). rewrite status_busy, status_failed, Hbusy, Hfail.
  destruct (word_count (zlen req) H0) as (-> & -> & Hcount). pose proof (Z.div_mod (zlen req) 4 ltac:(lia)) as Hd.
  pose proof (Z.mod_pos_bound (zlen req) 4 ltac:(lia)) as Hm. assert (0 <= zlen req / 4) as Hq by (apply Z.div_pos; lia).
  assert ((if zlen req mod 4 =? 0 then zlen req / 4 else u32 (zlen req / 4 + 1)) = zlen (words req)) as Hl.
  { rewrite zlen_words, Hcount. destruct (_ =? 0); [done|]. apply u32_small. unfold UINT32_MAX. lia. }
  rewrite Hl. unfold DOE_HEADER_LENGTH. rewrite (u32_small (zlen (words req) + 2)).
  2: { rewrite zlen_words, Hcount. unfold UINT32_MAX. destruct (_ =? 0); lia. }
  destruct (write_mail s m header Hs) as (s1 & R1 & H1 & K1). rewrite (bind_Ok _ _ _ _ _ R1).
  destruct (write_mail s1 _ (zlen (words req) + 2) H1) as (s2 & R2 & H2 & K2). rewrite (bind_Ok _ _ _ _ _ R2).
  destruct (send_loop_run req (Z.to_nat (zlen req / 4)) 0 s2 _ H2) as (s3 & R3 & H3 & K3); [lia|lia|].
  rewrite (bind_Ok _ _ _ _ _ R3). rewrite Z2Nat.id in H3 by done.
  assert (∃ s4, (if negb (zlen req mod 4 =? 0) then
       value ← req_word req (zlen req / 4) (zlen req mod 4);
       pcie_write_cfg id (u32 (cap + DOE_WRITE_DATA_MAILBOX_REG)) value
     else mret tt) s3 = Ok (tt, s4) ∧ holds s4 (pushes m (object header req)) ∧ kept s3 s4) as (s4 & R4 & H4 & K4).
  { unfold object. set (c := zlen (words req) + 2) in *. clearbody c. unfold words. rewrite Hcount. destruct (Z.eqb_spec (zlen req mod 4) 0) as [He|Hne]; cbn [negb].
    - exists s3. split; [done|]. split; [|done]. by rewrite !push_pushes, !pushes_app in H3.
    - unfold req_word. rewrite (proj2 (Z.leb_le 0 _)), (proj2 (Z.leb_le _ (zlen req))) by lia. cbn [andb].
      erewrite bind_Ok by reflexivity. destruct (write_mail s3 _ (le_value (slice (4 * (zlen req / 4)) (zlen req mod 4) req)) H3)
        as (s4 & R4 & H4 & K4). exists s4. split; [done|]. split; [|done].
      rewrite seqZ_app by lia. rewrite fmap_app.
      assert (slice (4 * (zlen req / 4)) (zlen req mod 4) req = slice (4 * (zlen req / 4)) 4 req) as Hsl.
      { unfold slice. rewrite !take_ge; [done|rewrite length_drop; unfold zlen in *; lia..]. }
      rewrite !push_pushes, !pushes_app, Hsl in H4. exact H4. }
  rewrite (bind_Ok _ _ _ _ _ R4). destruct (write_go s4 _ H4) as (s5 & R5 & H5 & K5). rewrite (bind_Ok _ _ _ _ _ R5).
  exists s5. split; [done|]. split; [done|]. exact (kept_trans _ _ _ K1 (kept_trans _ _ _ K2 (kept_trans _ _ _ K3 (kept_trans _ _ _ K4 K5)))).
Qed.

(** ** Receiving *)

(** Waiting for a response that is ready after [n] polls: [idle] is the mailbox without it. *)
Definition idle (m : mbox) : Prop := busy m = false ∧ failed m = false ∧ pending m = None ∧ outbox m = [].

Lemma poll_deliver (n : nat) (resp : list Z) (m : mbox) :
  poll (deliver (Some (S n, resp)) m) = deliver (Some (n, resp)) m.
Proof. destruct n; reflexivity. Qed.

Lemma poll_again (n : nat) (resp : list Z) (m : mbox) (s : pcie (nat → R)) (c : nat) : idle m →
  holds s (deliver (Some (S n, resp)) m) →
  ∃ s1, wait_loop id cap (S c) s = wait_loop id cap c s1 ∧ holds s1 (deliver (Some (n, resp)) m) ∧ kept s s1.
Proof.
  intros (Hbusy & Hfail & _ & Hout) Hs. destruct (wait_tick s _ PCI_DOE_POLL_TIME Hs) as (s1 & R1 & H1 & K1).
  rewrite poll_deliver in H1. exists s1. split; [|done]. cbn [wait_loop]. rewrite (bind_Ok _ _ _ _ _ (read_status s _ Hs)).
  rewrite status_busy, status_failed, status_ready. cbn [deliver busy failed outbox]. rewrite Hbusy, Hfail, Hout.
  by rewrite (bind_Ok _ _ _ _ _ R1).
Qed.

Lemma wait_in_time (n c : nat) (resp : list Z) (m : mbox) (s : pcie (nat → R)) : idle m → resp ≠ [] → (n < c)%nat →
  holds s (deliver (Some (n, resp)) m) →
  ∃ s', wait_loop id cap c s = Ok (0, s') ∧ holds s' (deliver (Some (O, resp)) m) ∧ kept s s'.
Proof.
  intros Hi Hresp. revert c s. induction n as [|n IH]; intros c s Hc Hs; (destruct c as [|c]; [lia|]).
  - exists s. split; [|done]. destruct Hi as (Hbusy & Hfail & _). cbn [wait_loop].
    rewrite (bind_Ok _ _ _ _ _ (read_status s _ Hs)). rewrite status_busy, status_failed, status_ready.
    cbn [deliver busy failed outbox]. rewrite Hbusy, Hfail. by destruct resp.
  - destruct (poll_again n resp m s c Hi Hs) as (s1 & -> & H1 & K1).
    destruct (IH c s1 ltac:(lia) H1) as (s2 & R2 & H2 & K2). exists s2. split; [done|]. split; [done|by eapply kept_trans].
Qed.

Lemma wait_too_long (n c : nat) (resp : list Z) (m : mbox) (s : pcie (nat → R)) : idle m →
  holds s (deliver (Some (c + n, resp)%nat) m) →
  ∃ s', wait_loop id cap c s = Ok (- ETIMEDOUT, s') ∧ holds s' (deliver (Some (n, resp)) m) ∧ kept s s'.
Proof.
  intros Hi. revert s. induction c as [|c IH]; intros s Hs; [by exists s|].
  destruct (poll_again (c + n) resp m s c Hi Hs) as (s1 & -> & H1 & K1). destruct (IH s1 H1) as (s2 & R2 & H2 & K2).
  exists s2. split; [done|]. split; [done|by eapply kept_trans].
Qed.

Definition with_out (m : mbox) (l : list Z) : mbox :=
  {| inbox := inbox m; submitted := submitted m; pending := pending m; outbox := l; busy := busy m; failed := failed m |}.

Lemma recv_word_run (s : pcie (nat → R)) (m : mbox) (v : Z) (l : list Z) : holds s m → outbox m = v :: l →
  ∃ s', recv_word id cap s = Ok (v, s') ∧ holds s' (with_out m l) ∧ kept s s'.
Proof.
  intros Hs Hv. unfold recv_word. rewrite (bind_Ok _ _ _ _ _ (read_mail s m Hs)).
  destruct (write_pop s m 0 Hs) as (s1 & R1 & H1 & K1). rewrite (bind_Ok _ _ _ _ _ R1). exists s1.
  unfold pop in H1. rewrite Hv in *. done.
Qed.

Lemma recv_loop_run (pay done tl : list Z) (fuel : nat) (s : pcie (nat → R)) (m : mbox) : holds s m → outbox m = pay →
  zlen pay <= zlen tl → (length pay < fuel)%nat →
  ∃ s', recv_loop id cap (zlen done + zlen pay) fuel (zlen done) (done ++ tl) s
      = Ok (done ++ pay ++ drop (length pay) tl, s') ∧ holds s' (with_out m []) ∧ kept s s'.
Proof.
  revert done tl fuel s m. induction pay as [|v pay IH]; intros done tl fuel s m Hs Hout Hlen Hfu.
  - exists s. change (zlen []) with 0. rewrite Z.add_0_r. split; [|split; [|done]].
    + unfold recv_loop. destruct fuel; by rewrite Z.ltb_irrefl.
    + unfold with_out. rewrite <- Hout. by destruct m.
  - destruct fuel as [|fuel]; [cbn in Hfu; lia|]. rewrite zlen_cons in *. pose proof (zlen_nonneg pay).
    cbn [recv_loop]. rewrite (proj2 (Z.ltb_lt _ _)) by lia. rewrite (bind_Ok _ _ _ _ _ (read_mail s m Hs)). rewrite Hout. cbn [hd].
    destruct tl as [|x tl]; [change (zlen []) with 0 in Hlen; lia|]. rewrite zlen_cons in Hlen.
    erewrite bind_Ok.
    2: { apply aset_Ok. rewrite zlen_app, zlen_cons. pose proof (zlen_nonneg done). pose proof (zlen_nonneg tl). lia. }
    rewrite zset_mid. destruct (write_pop s m 0 Hs) as (s1 & R1 & H1 & K1). rewrite (bind_Ok _ _ _ _ _ R1).
    destruct (IH (done ++ [v]) tl fuel s1 _ H1) as (s2 & R2 & H2 & K2); [cbn; by rewrite Hout|lia|cbn in Hfu; lia|].
    exists s2. rewrite zlen_app in R2. change (zlen [v]) with 1 in R2. rewrite <- !app_assoc in R2. cbn [app] in R2.
    replace (zlen done + (zlen pay + 1)) with (zlen done + 1 + zlen pay) by lia. cbn [length drop app].
    split; [done|]. split; [done|by eapply kept_trans].
Qed.

(** More words than the buffer has room for *)
Lemma recv_loop_over (done tl : list Z) (len : Z) (fuel : nat) (s : pcie (nat → R)) (m : mbox) : holds s m →
  zlen done + zlen tl < len → (length tl < fuel)%nat →
  recv_loop id cap len fuel (zlen done) (done ++ tl) s = Stop OutOfBounds.
Proof.
  revert done fuel s m. induction tl as [|x tl IH]; intros done fuel s m Hs Hlen Hfu; (destruct fuel as [|fuel]; [cbn in Hfu; lia|]).
  - change (zlen []) with 0 in Hlen. cbn [recv_loop]. rewrite (proj2 (Z.ltb_lt _ _)) by lia.
    rewrite (bind_Ok _ _ _ _ _ (read_mail s m Hs)). rewrite app_nil_r. unfold mbind, M_bind, aset, in_range.
    by rewrite (proj2 (Z.ltb_ge (zlen done) (zlen done))), andb_false_r by lia.
  - rewrite zlen_cons in Hlen. pose proof (zlen_nonneg tl). cbn [recv_loop]. rewrite (proj2 (Z.ltb_lt _ _)) by lia.
    rewrite (bind_Ok _ _ _ _ _ (read_mail s m Hs)). erewrite bind_Ok.
    2: { apply aset_Ok. rewrite zlen_app, zlen_cons. pose proof (zlen_nonneg done). lia. }
    rewrite zset_mid. destruct (write_pop s m 0 Hs) as (s1 & R1 & H1 & K1). rewrite (bind_Ok _ _ _ _ _ R1).
    specialize (IH (done ++ [hd 0 (outbox m)]) fuel s1 _ H1). rewrite zlen_app, <- app_assoc in IH. cbn [app] in IH.
    change (zlen [hd 0 (outbox m)]) with 1 in IH. apply IH; [lia|cbn in Hfu; lia].
Qed.

(** The length in the second word of an object of [n] words *)
Definition length_field (n : Z) : Z := if n =? PCI_DOE_MAX_LENGTH then 0 else n.

Lemma recv_head (n : nat) (h1 h2 : Z) (pay resp : list Z) (s : pcie (nat → R)) (m : mbox) : idle m → (n < 100)%nat →
  holds s (deliver (Some (n, h1 :: h2 :: pay)) m) →
  ∃ s', pcie_doe_recv_resp id cap resp s
      = (if negb (Z.land h2 PCI_DOE_RESERVED_MASK =? 0) then mret (- EIO, resp, None)
         else
           let len := if negb (h2 =? 0) then u32 (h2 - DOE_HEADER_LENGTH) else PCI_DOE_MAX_LENGTH - DOE_HEADER_LENGTH in
           let resp_len := u32 (Z.shiftl len 2) in
           resp ← recv_loop id cap len (S (length resp)) 0 resp;
           value ← pcie_read_cfg id (u32 (cap + DOE_STATUS_REG));
           if negb (Z.land value (Z.lor DOE_STATUS_READY_BIT DOE_STATUS_ERROR_BIT) =? 0)
           then mret (- EIO, resp, Some resp_len)
           else mret (0, resp, Some resp_len)) s'
    ∧ holds s' (with_out m pay) ∧ kept s s'.
Proof.
  intros Hi Hn Hs. destruct (wait_in_time n 100 (h1 :: h2 :: pay) m s Hi ltac:(done) Hn Hs) as (s1 & R1 & H1 & K1).
  destruct (recv_word_run s1 _ h1 (h2 :: pay) H1 eq_refl) as (s2 & R2 & H2 & K2).
  destruct (recv_word_run s2 _ h2 pay H2 eq_refl) as (s3 & R3 & H3 & K3). exists s3. split.
  - unfold pcie_doe_recv_resp, pcie_doe_wait_ready. change (Z.to_nat PCI_DOE_POLL_LOOP) with 100%nat.
    rewrite (bind_Ok _ _ _ _ _ R1). change (negb (0 =? 0)) with false. cbv iota.
    by rewrite (bind_Ok _ _ _ _ _ R2), (bind_Ok _ _ _ _ _ R3).
  - split; [|exact (kept_trans _ _ _ K1 (kept_trans _ _ _ K2 K3))].
    destruct Hi as (_ & _ & Hp & _). unfold with_out, deliver in *. cbn in *. by rewrite Hp.
Qed.

Lemma recv_resp_run (n : nat) (h1 : Z) (pay resp : list Z) (s : pcie (nat → R)) (m : mbox) : idle m → (n < 100)%nat →
  zlen pay + 2 <= PCI_DOE_MAX_LENGTH → zlen pay <= zlen resp →
  holds s (deliver (Some (n, h1 :: length_field (zlen pay + 2) :: pay)) m) →
  ∃ s', pcie_doe_recv_resp id cap resp s = Ok (0, pay ++ drop (length pay) resp, Some (4 * zlen pay), s')
    ∧ holds s' m ∧ kept s s'.
Proof.
  intros Hi Hn Hmax Hlen Hs. destruct (recv_head n _ _ pay resp s m Hi Hn Hs) as (s1 & -> & H1 & K1).
  pose proof (zlen_nonneg pay) as H0. unfold PCI_DOE_MAX_LENGTH, PCI_DOE_RESERVED_SHIFT in *. change (Z.shiftl 1 18) with 262144 in *.
  assert (Z.land (length_field (zlen pay + 2)) PCI_DOE_RESERVED_MASK = 0) as ->.
  { unfold length_field, PCI_DOE_RESERVED_MASK, PCI_DOE_MAX_LENGTH, PCI_DOE_RESERVED_SHIFT. change (Z.shiftl 1 18) with (2 ^ 18).
    destruct (Z.eqb_spec (zlen pay + 2) (2 ^ 18)) as [|Hne]; [done|]. change 0xFFFC0000 with (Z.shiftl (2 ^ 14 - 1) 18).
    change (2 ^ 18) with 262144 in Hne. rewrite <- (Z.mod_small (zlen pay + 2) (2 ^ 18)) by (change (2 ^ 18) with 262144; lia).
    rewrite <- Z.land_ones by lia. rewrite <- Z.land_assoc. change (Z.land (Z.ones 18) (Z.shiftl (2 ^ 14 - 1) 18)) with 0. apply Z.land_0_r. }
  change (negb (0 =? 0)) with false. cbv iota zeta.
  assert ((if negb (length_field (zlen pay + 2) =? 0) then u32 (length_field (zlen pay + 2) - DOE_HEADER_LENGTH)
           else 262144 - DOE_HEADER_LENGTH) = zlen pay) as ->.
  { unfold length_field, PCI_DOE_MAX_LENGTH, PCI_DOE_RESERVED_SHIFT, DOE_HEADER_LENGTH. change (Z.shiftl 1 18) with 262144.
    destruct (Z.eqb_spec (zlen pay + 2) 262144); [cbn; lia|]. rewrite (proj2 (Z.eqb_neq (zlen pay + 2) 0)) by lia. cbn [negb].
    rewrite u32_small by (unfold UINT32_MAX; lia). lia. }
  destruct (recv_loop_run pay [] resp (S (length resp)) s1 _ H1 eq_refl Hlen) as (s2 & R2 & H2 & K2); [unfold zlen in Hlen; lia|].
  change (zlen []) with 0 in R2. cbn [app] in R2. rewrite Z.add_0_l in R2. rewrite (bind_Ok _ _ _ _ _ R2).
  rewrite (bind_Ok _ _ _ _ _ (read_status s2 _ H2)). rewrite status_end.
  pose proof Hi as (_ & Hfail & _ & Hout). cbn [with_out failed outbox]. rewrite Hfail. exists s2.
  rewrite Z.shiftl_mul_pow2, (Z.mul_comm (zlen pay)), u32_small by (unfold UINT32_MAX; change (2 ^ 2) with 4; lia). change (2 ^ 2) with 4.
  split; [|split; [|by eapply kept_trans]].
  - reflexivity.
  - unfold with_out in H2. cbn in H2. rewrite <- Hout in H2. by destruct m.
Qed.

(** ** The bytes of the words *)

Lemma words_cons (x y z w : Z) (l : list Z) : words (x :: y :: z :: w :: l) = le_value [x; y; z; w] :: words l.
Proof.
  unfold words. rewrite !zlen_cons. pose proof (zlen_nonneg l).
  replace ((zlen l + 1 + 1 + 1 + 1 + 3) / 4) with (1 + (zlen l + 3) / 4) by (rewrite <- Z.div_add_l by lia; f_equal; lia).
  assert (0 <= (zlen l + 3) / 4) by (apply Z.div_pos; lia). rewrite seqZ_app by lia. rewrite fmap_app. cbn [seqZ fmap list_fmap app].
  f_equal. change (0 + 1) with (1 + 0). rewrite <- fmap_add_seqZ, <- list_fmap_compose. apply list_fmap_ext. intros i j Hj.
  apply lookup_seqZ in Hj as [-> _]. cbn [compose]. f_equal. unfold slice.
  replace (Z.to_nat (4 * (1 + (0 + Z.of_nat i)))) with (4 + Z.to_nat (4 * (0 + Z.of_nat i)))%nat by lia. done.
Qed.

Lemma words_bytes (req : list Z) : Forall (λ x, 0 <= x < 256) req →
  take (length req) (concat (le_bytes 4 <$> words req)) = req.
Proof.
  remember (length req) as n eqn:Hn. revert req Hn. induction n as [n IH] using lt_wf_ind. intros req -> Hreq.
  destruct req as [|x [|y [|z [|w l]]]]; [done|..].
  4: { rewrite words_cons, fmap_cons. cbn [concat]. change (x :: y :: z :: w :: l) with ([x; y; z; w] ++ l) in Hreq.
       apply Forall_app in Hreq as [H4 Hl].
       rewrite (le_bytes_value [x; y; z; w] 4 H4 ltac:(done)). cbn [length app replicate Nat.sub take]. do 4 f_equal.
       apply (IH (length l)); [cbn; lia|done|done]. }
  - change (words [x]) with [le_value [x]]. cbn [fmap list_fmap concat]. by rewrite (le_bytes_value [x] 4) by (done || (cbn; lia)).
  - change (words [x; y]) with [le_value [x; y]]. cbn [fmap list_fmap concat].
    by rewrite (le_bytes_value [x; y] 4) by (done || (cbn; lia)).
  - change (words [x; y; z]) with [le_value [x; y; z]]. cbn [fmap list_fmap concat].
    by rewrite (le_bytes_value [x; y; z] 4) by (done || (cbn; lia)).
Qed.

(** ** The theorems *)

Definition known_header (header : Z) : Prop := header = DOE_HEADER_0 ∨ header = DOE_HEADER_1 ∨ header = DOE_HEADER_2.

Lemma known_header_assert (header : Z) (s : pcie (nat → R)) : known_header header →
  assert_ ((header =? DOE_HEADER_0) || (header =? DOE_HEADER_1) || (header =? DOE_HEADER_2)) s = Ok (tt, s).
Proof. by intros [->|[->| ->]]. Qed.

(** The mailbox after an object was submitted *)
Definition took (m : mbox) (o : list Z) : mbox :=
  {| inbox := []; submitted := o :: submitted m; pending := None; outbox := []; busy := busy m; failed := failed m |}.

Lemma communicate_sends (header : Z) (req rsp : list Z) (rsp_sz : Z) (s : pcie (nat → R)) (m : mbox) :
  known_header header → holds s m → idle m → inbox m = [] → zlen (words req) + 2 < PCI_DOE_MAX_LENGTH →
  ∃ s1, pcie_doe_communicate header id cap req (zlen req) rsp rsp_sz s
      = (r ← pcie_doe_recv_resp id cap rsp;
         let '(rc, rsp, len) := r in
         mret (rc, rsp, match len with Some l => rsp_sz / 2 ^ 32 * 2 ^ 32 + l | None => rsp_sz end)) s1
    ∧ holds s1 (deliver (Some (answer (object header req))) (took m (object header req))) ∧ kept s s1
    ∧ idle (took m (object header req)).
Proof.
  intros Hh Hs (Hbusy & Hfail & Hpend & Hout) Hin Hlen. rewrite zlen_words in Hlen. pose proof (zlen_nonneg req) as H0.
  unfold PCI_DOE_MAX_LENGTH, PCI_DOE_RESERVED_SHIFT in Hlen. change (Z.shiftl 1 18) with 262144 in Hlen.
  assert (zlen req <= 2 ^ 20) as Hreq.
  { change (2 ^ 20) with 1048576. pose proof (Z.div_mod (zlen req + 3) 4 ltac:(lia)). pose proof (Z.mod_pos_bound (zlen req + 3) 4). lia. }
  destruct (send_req_run header req s m Hs Hbusy Hfail Hin Hreq) as (s1 & R1 & H1 & K1). exists s1.
  split_and!; [|by unfold go, pushes in H1; rewrite Hin in H1|done|done].
  unfold pcie_doe_communicate. rewrite (bind_Ok _ _ _ _ _ (known_header_assert header s Hh)).
  change (2 ^ 20) with 1048576 in Hreq. rewrite u32_small by (unfold UINT32_MAX; lia).
  by rewrite (bind_Ok _ _ _ _ _ R1).
Qed.

Lemma communicate_refused (header rc rsp_sz : Z) (req rsp : list Z) (s : pcie (nat → R)) : known_header header → rc ≠ 0 →
  pcie_doe_send_req header id cap req (u32 (zlen req)) s = Ok (rc, s) →
  pcie_doe_communicate header id cap req (zlen req) rsp rsp_sz s = Ok (rc, rsp, rsp_sz, s).
Proof.
  intros Hh Hrc Hr. unfold pcie_doe_communicate. rewrite (bind_Ok _ _ _ _ _ (known_header_assert header s Hh)).
  rewrite (bind_Ok _ _ _ _ _ Hr). by rewrite (proj2 (Z.eqb_neq _ _) Hrc).
Qed.

(** C22: An exchange with an idle mailbox: if the responder answers within the
    time limit with an object that says its own length and whose payload fits into
    the buffer, [pcie_doe_communicate()] returns 0, the responder has got one
    object with the request, filled up with zeros to whole words, from which
    the bytes of the request can be read back, the buffer holds the payload
    of the response and its size in bytes is set, and the mailbox is idle. *)
Theorem doe_exchange (header h1 rsp_sz : Z) (req pay rsp : list Z) (n : nat) (s : pcie (nat → R)) (m : mbox) :
  known_header header → holds s m → idle m → inbox m = [] → Forall (λ x, 0 <= x < 256) req →
  zlen (words req) + 2 < PCI_DOE_MAX_LENGTH → 0 <= rsp_sz < 2 ^ 32 →
  answer (object header req) = (n, h1 :: length_field (zlen pay + 2) :: pay) → (n < 100)%nat →
  zlen pay + 2 <= PCI_DOE_MAX_LENGTH → zlen pay <= zlen rsp →
  ∃ s' m', pcie_doe_communicate header id cap req (zlen req) rsp rsp_sz s
      = Ok (0, pay ++ drop (length pay) rsp, 4 * zlen pay, s')
    ∧ holds s' m' ∧ idle m' ∧ inbox m' = [] ∧ submitted m' = object header req :: submitted m
    ∧ take (length req) (concat (le_bytes 4 <$> drop 2 (object header req))) = req ∧ kept s s'.
Proof.
  intros Hh Hs Hi Hin Hbytes Hlen Hsz Ha Hn Hmax Hroom.
  destruct (communicate_sends header req rsp rsp_sz s m Hh Hs Hi Hin Hlen) as (s1 & -> & H1 & K1 & Hi1). rewrite Ha in H1.
  destruct (recv_resp_run n h1 pay rsp s1 _ Hi1 Hn Hmax Hroom H1) as (s2 & R2 & H2 & K2).
  exists s2, (took m (object header req)). rewrite (bind_Ok _ _ _ _ _ R2). rewrite Z.div_small by done.
  split_and!; try done; [by apply words_bytes|by eapply kept_trans].
Qed.


End Access.

End Mbox.

(** ** The device *)

Section Find.

Context {R : Type} `{FnHw R} {HO : FnOk R} {PP : PciePlat} (base last : Z) (root : bus).

#[local] Hint Extern 0 (PcieHw (nat → R)) => exact (hw_inst base root) : typeclass_instances.

Definition doe_endpoint (d : pcie_dev) : bool := (dp_type d =? EP) && pcie_dev_has_doe d.

Lemma find_doe_loop_run (n : nat) (s : pcie (nat → R)) : (n ≤ length (device s))%nat →
  ∃ r, find_doe_loop n s = Ok (r, s) ∧
    match r with
    | Some (b, c) => ∃ i d, (i < n)%nat ∧ device s !! i = Some d ∧ doe_endpoint d = true ∧ b = bdf d ∧ c = doe_cap_base d
    | None => ∀ i d, (i < n)%nat → device s !! i = Some d → doe_endpoint d = false
    end.
Proof.
  induction n as [|n IH]; intros Hn; [exists None; split; [done|lia]|]. cbn [find_doe_loop].
  destruct (lookup_lt_is_Some_2 (device s) n ltac:(lia)) as [d Hd].
  rewrite (bind_Ok _ _ s s d).
  2: { unfold get_dev. erewrite bind_Ok by reflexivity. apply aget_Ok. unfold zget. rewrite (proj2 (Z.ltb_ge _ 0)), Nat2Z.id by lia. done. }
  change ((dp_type d =? EP) && pcie_dev_has_doe d) with (doe_endpoint d). destruct (doe_endpoint d) eqn:Hdoe.
  - eexists. split; [reflexivity|]. exists n, d. split_and!; [lia|done..].
  - destruct (IH ltac:(lia)) as (r & Hr & Hspec). exists r. split; [done|]. destruct r as [[b c]|].
    + destruct Hspec as (i & d' & Hi & Hrest). exists i, d'. split; [lia|done].
    + intros i d' Hi Hd'. destruct (decide (i = n)) as [->|Hne]; [congruence|]. apply (Hspec i d'); [lia|done].
Qed.

Lemma flag_doe (rmeda ide doe : option Z) :
  negb (Z.land (flag rmeda PCIE_DEV_CFLAG_DVSEC_RMEDA (flag ide PCIE_DEV_CFLAG_IDE (flag doe PCIE_DEV_CFLAG_DOE 0)))
          PCIE_DEV_CFLAG_DOE =? 0) = match doe with Some _ => true | None => false end.
Proof. by destruct rmeda, ide, doe. Qed.

Lemma device_doe (s : pcie (nat → R)) (es : list (Z * func)) (e : Z * func) (d : pcie_dev) : device_of base s es e d →
  ∃ l, ext_caps (rd (hw s (fid e.2))) l
    ∧ doe_endpoint d = (dev_type e.2 =? EP) && match find_cap ECID_DOE l with Some _ => true | None => false end
    ∧ bdf d = e.1 ∧ doe_cap_base d = default 0 (find_cap ECID_DOE l).
Proof.
  intros (Hb & _ & Ht & _ & l & r & Hl & _ & _ & Hdoe & _ & _ & Hfl). exists l. split_and!; try done.
  unfold doe_endpoint, pcie_dev_has_doe. by rewrite Ht, Hfl, flag_doe.
Qed.

(** After [pcie_init()], [pcie_find_doe_device()] finds an endpoint with a
    DOE capability, with the place of the function and of the capability,
    whenever the hierarchy has one, and reports that there is none otherwise. *)
Theorem doe_device_found (cap_fuel depth : nat) (s : pcie (nat → R)) :
  hierarchy base last root → plat_pcie_get_info_table = Some (window base last) → plat_pcie_get_bar_config.1 = 0 →
  (cap_bound ≤ cap_fuel)%nat → (4096 ≤ cap_fuel)%nat → bus_total root < Z.of_nat depth → fresh root s →
  let es := entries (all_buses root) in
  ∃ rc r s', (pcie_init cap_fuel depth;; pcie_find_doe_device) s = Ok (rc, r, s') ∧
    match r with
    | Some (id, off) => rc = 0 ∧ ∃ f l, (id, f) ∈ es ∧ dev_type f = EP ∧ ext_caps (rd (hw s' (fid f))) l
        ∧ find_cap ECID_DOE l = Some off
    | None => rc = - ENODEV ∧ ∀ id f l, (id, f) ∈ es → dev_type f = EP → ext_caps (rd (hw s' (fid f))) l →
        find_cap ECID_DOE l = None
    end.
Proof.
  intros Hh Hi Hb Hf1 Hf2 Hd Hs es.
  destruct (pcie_init_fresh base last root cap_fuel depth s Hh Hi Hb Hf1 Hf2 Hd Hs)
    as (s' & devs & Hr & _ & _ & Hp & Hn & Hdev & HF). rewrite (bind_Ok _ _ _ _ _ Hr).
  fold es in Hn, Hdev, HF. unfold pcie_find_doe_device. erewrite bind_Ok by reflexivity.
  rewrite Hp. erewrite bind_Ok by reflexivity. rewrite Hn.
  destruct (Z.eqb_spec (Z.of_nat (length es)) 0) as [H0|_].
  { eexists _, None, s'. split; [reflexivity|]. split; [done|]. intros id f l Hin. destruct es; [|cbn in H0; lia].
    by apply elem_of_nil in Hin. }
  rewrite Nat2Z.id. pose proof (Forall2_length _ _ _ HF) as Hlen.
  destruct (find_doe_loop_run (length es) s') as (r & Hr1 & Hspec); [rewrite Hdev, length_app; lia|].
  rewrite (bind_Ok _ _ _ _ _ Hr1). eexists _, r, s'. split; [reflexivity|].
  assert (∀ i d, (i < length es)%nat → device s' !! i = Some d → devs !! i = Some d) as Hlk.
  { intros i d Hlt Hi'. rewrite Hdev, lookup_app_l in Hi' by lia. done. }
  destruct r as [[id off]|]; (split; [done|]).
  - destruct Hspec as (i & d & Hlt & Hd1 & Hdoe & -> & ->).
    destruct (Forall2_lookup_r _ _ _ _ _ HF (Hlk i d Hlt Hd1)) as ([x f] & He & Hof).
    destruct (device_doe s' es (x, f) d Hof) as (l & Hl & Heq & Hbdf & Hoff). rewrite Heq in Hdoe. apply andb_true_iff in Hdoe as [Ht Hc].
    apply Z.eqb_eq in Ht. exists f, l. rewrite Hbdf, Hoff. destruct (find_cap ECID_DOE l); [|done].
    split_and!; try done. by eapply list_elem_of_lookup_2.
  - intros id f l Hin Ht Hl. apply list_elem_of_lookup_1 in Hin as [i He].
    destruct (Forall2_lookup_l _ _ _ _ _ HF He) as (d & Hd1 & Hof).
    destruct (device_doe s' es (id, f) d Hof) as (l' & Hl' & Heq & _). cbn [snd] in *.
    rewrite (caps_fun _ _ _ _ _ _ _ Hl Hl'). rewrite (Hspec i d) in Heq.
    + rewrite Ht in Heq. change (EP =? EP) with true in Heq. by destruct (find_cap ECID_DOE l').
    + by eapply lookup_lt_Some.
    + rewrite Hdev. by apply lookup_app_l_Some.
Qed.

End Find.

(** ** A mailbox *)

Module SampleDoe.

(** A responder that answers any object with two words after three polls, and
    a function with nothing but its mailbox *)
Definition answer (o : list Z) : nat * list Z := (3%nat, [DOE_HEADER_0; 4; 0xAA; 0xBB]).

Definition cap : Z := 0x100.
Definition base : Z := 0x40000000.

#[export] Instance box_fn : FnHw mbox := {|
  rd m o :=
    if o =? cap + DOE_STATUS_REG then status m
    else if o =? cap + DOE_READ_DATA_MAILBOX_REG then hd 0 (outbox m)
    else 0;
  wr m o v :=
    if o =? cap + DOE_WRITE_DATA_MAILBOX_REG then push m v
    else if o =? cap + DOE_READ_DATA_MAILBOX_REG then pop m
    else if (o =? cap + DOE_CTRL_REG) && (v =? DOE_CTRL_GO_BIT) then go answer m
    else m;
|}.

#[export] Instance box_doe : DoeFn answer mbox cap.
Proof. by refine {| view := λ m, m; tick := poll |}. Defined.

Definition func1 : func := Func 1 Sample.endpoint [].
Definition root : bus := [(8, func1)].
Definition empty : mbox :=
  {| inbox := []; submitted := []; pending := None; outbox := []; busy := false; failed := false |}.

Definition start (m : mbox) : pcie (nat → mbox) := {|
  hw := λ _, m; g_pcie_info_table := Some (window base 255); g_pcie_bdf_table := true; num_entries := 0; device := [];
  g_pcie_index := 0; bars := bars Sample.start; is_init := true |}.

Lemma doe_exchange_witness :
  ∃ s' m', pcie_doe_communicate (H := hw_inst base root) (H0 := tree_clock answer cap) DOE_HEADER_1 8 cap
      [1; 2; 3; 4; 5] 5 [0; 0; 0] 0 (start empty) = Ok (0, [0xAA; 0xBB; 0], 8, s')
    ∧ submitted m' = [[DOE_HEADER_1; 4; 0x04030201; 5]] ∧ hw s' 1%nat = m'.
Proof.
  destruct (doe_exchange answer cap base 255 root ltac:(done) ltac:(done) ltac:(lia) ltac:(apply (bool_decide_unpack _); vm_compute; done)
    0 8 func1 ltac:(lia) ltac:(lia) eq_refl ltac:(done) DOE_HEADER_1 DOE_HEADER_0 0 [1; 2; 3; 4; 5] [0xAA; 0xBB] [0; 0; 0] 3
    (start empty) empty) as (s' & m' & Hr & (_ & _ & Hv) & _ & _ & Hsub & _).
  - right. by left.
  - done.
  - done.
  - done.
  - repeat constructor; lia.
  - vm_compute. reflexivity.
  - lia.
  - reflexivity.
  - lia.
  - vm_compute. discriminate.
  - vm_compute. discriminate.
  - exists s', m'. split; [exact Hr|]. split; [rewrite Hsub; vm_compute; reflexivity|exact Hv].
Defined.

Definition busy_box : mbox :=
  {| inbox := []; submitted := []; pending := None; outbox := []; busy := true; failed := false |}.


Lemma doe_device_found_witness : ∃ r s',
  (pcie_init (H := hw_inst (H := Sample.sample_fn) Sample.base Sample.root) (H0 := Sample.sample_plat) 4096 5;; pcie_find_doe_device) Sample.start
    = Ok (0, r, s') ∧ r = Some (0x300, 0x100).
Proof.
  destruct (doe_device_found (H := Sample.sample_fn) (HO := Sample.sample_ok) (PP := Sample.sample_plat) Sample.base 7 Sample.root 4096 5 Sample.start
    Sample.sample_hierarchy eq_refl eq_refl
    ltac:(apply Nat.leb_le; vm_compute; reflexivity) ltac:(apply Nat.leb_le; vm_compute; reflexivity)
    ltac:(vm_compute; reflexivity) Sample.sample_fresh) as (rc & r & s' & Hr & _).
  assert (match (pcie_init (H := hw_inst (H := Sample.sample_fn) Sample.base Sample.root) (H0 := Sample.sample_plat) 4096 5;; pcie_find_doe_device)
      Sample.start with Ok (rc, r, _) => (rc, r) | Stop _ => (1, None) end = (0, Some (0x300, 0x100))) as He by (vm_compute; reflexivity).
  rewrite Hr in He. injection He as -> ->. exists (Some (0x300, 0x100)), s'. split; [exact Hr|reflexivity].
Defined.

End SampleDoe.
