(* ===== verification/Nor.v ===== *)
(** * NOR flash (drivers/io/vexpress_nor)

    The driver works on the words of a memory-mapped flash, two 16-bit chips
    side by side; the flash is a parameter, the class [NorHw].  The buffers of
    callers are byte lists, with the address where alignment matters. *)

From S2P Require Import Prelude Bytes.

Local Open Scope Z_scope.

(** ** Constants (norflash.h, io_vexpress_nor_hw.c, io_storage.h) *)

Definition NOR_CMD_READ_ARRAY : Z := 0xFF.
Definition NOR_CMD_READ_ID_CODE : Z := 0x90.
Definition NOR_CMD_READ_STATUS_REG : Z := 0x70.
Definition NOR_CMD_CLEAR_STATUS_REG : Z := 0x50.
Definition NOR_CMD_WORD_PROGRAM : Z := 0x40.
Definition NOR_CMD_BLOCK_ERASE : Z := 0x20.
Definition NOR_CMD_LOCK_UNLOCK : Z := 0x60.
Definition NOR_CMD_BLOCK_ERASE_ACK : Z := 0xD0.
Definition NOR_CMD_BUFFERED_PROGRAM : Z := 0xE8.
Definition NOR_LOCK_BLOCK : Z := 0x01.
Definition NOR_UNLOCK_BLOCK : Z := 0xD0.
Definition NOR_CMD_BUFFERED_PROGRAM_ACK : Z := 0xD0.
Definition NOR_DEVICE_ID_LOCK_CONFIGURATION : Z := 0x02.
Definition NOR_DEVICE_ID_BLOCK_LOCKED : Z := Z.shiftl 1 0.
Definition NOR_SR_BIT_WRITE : Z := Z.lor (Z.shiftl 1 23) (Z.shiftl 1 7).
Definition NOR_SR_BIT_ERASE : Z := Z.lor (Z.shiftl 1 21) (Z.shiftl 1 5).
Definition NOR_SR_BIT_PROGRAM : Z := Z.lor (Z.shiftl 1 20) (Z.shiftl 1 4).
Definition NOR_SR_BIT_VPP : Z := Z.lor (Z.shiftl 1 19) (Z.shiftl 1 3).
Definition NOR_SR_BIT_BLOCK_LOCKED : Z := Z.lor (Z.shiftl 1 17) (Z.shiftl 1 1).
Definition NOR_MAX_BUFFER_SIZE_IN_BYTES : Z := 128.
Definition MAX_BUFFERED_PROG_ITERATIONS : Z := 1000.
Definition LOW_16_BITS : Z := 0x0000FFFF.
Definition FOLD_32BIT_INTO_16BIT (value : Z) : Z := Z.lor (Z.shiftr value 16) (Z.land value LOW_16_BITS).
Definition BOUNDARY_OF_32_WORDS : Z := 0x7F.
Definition NOR_2X16 (d : Z) : Z := Z.lor (u64 (Z.shiftl d 16)) (Z.land d 0xffff).

Definition IO_SUCCESS : Z := 0.
Definition IO_FAIL : Z := -1.
Definition IO_RESOURCES_EXHAUSTED : Z := -3.
Inductive io_seek_mode_t : Set := IO_SEEK_INVALID | IO_SEEK_SET | IO_SEEK_END | IO_SEEK_CUR.

(** ** Data *)

Record io_nor_flash_spec_t := {
  device_address : Z;
  region_address : Z;
  block_size : Z;
  block_count : Z;
}.

Record file_state_t := {
  in_use : bool;
  base : Z;
  file_pos : Z;
  block_spec : option io_nor_flash_spec_t;
}.

Definition no_file : file_state_t := {| in_use := false; base := 0; file_pos := 0; block_spec := None |}.

(** The flash: words are read and written, and bytes copied out of it *)
Class NorHw (D : Type) := {
  flash_read_32 : Z → M D Z;
  flash_write_32 : Z → Z → M D unit;
  flash_copy : Z → Z → M D (list Z);
}.

Section Driver.

Context {D : Type} `{NorHw D}.

(** How often the wait for the flash may go round, and the size and the address
    of the buffer for one block *)
Context (wait_fuel : nat) (NOR_FLASH_BLOCK_SIZE BLOCK_BUFFER : Z).

Record nor_state := {
  chip : D;
  current_file : file_state_t;
  block_buffer : list Z;
}.

Definition set_chip (s : nor_state) (d : D) : nor_state :=
  {| chip := d; current_file := current_file s; block_buffer := block_buffer s |}.
Definition set_file (s : nor_state) (f : file_state_t) : nor_state :=
  {| chip := chip s; current_file := f; block_buffer := block_buffer s |}.
Definition set_buffer (s : nor_state) (b : list Z) : nor_state :=
  {| chip := chip s; current_file := current_file s; block_buffer := b |}.

Abbreviation N := (M nor_state).

Definition on_chip {A} (m : M D A) : N A := λ s,
  match m (chip s) with
  | Ok (a, d) => Ok (a, set_chip s d)
  | Stop w => Stop w
  end.

(** ** Commands (io_vexpress_nor_hw.c) *)

Definition nor_send_cmd (base_addr cmd : Z) : N unit := on_chip (flash_write_32 base_addr (u32 (NOR_2X16 cmd))).

Definition flash_read_status (device : io_nor_flash_spec_t) : N Z :=
  nor_send_cmd (device_address device) NOR_CMD_READ_STATUS_REG;;
  on_chip (flash_read_32 (device_address device)).

Fixpoint wait_loop (device : io_nor_flash_spec_t) (fuel : nat) : N Z :=
  match fuel with
  | O => fail FuelOut
  | S fuel' =>
      lock_status ← flash_read_status device;
      if Z.land lock_status NOR_SR_BIT_WRITE =? NOR_SR_BIT_WRITE then mret lock_status
      else wait_loop device fuel'
  end.

Definition flash_wait_until_complete (device : io_nor_flash_spec_t) : N Z := wait_loop device wait_fuel.

Definition flash_block_is_locked (block_offset : Z) : N bool :=
  let addr := u32 (block_offset + Z.shiftl NOR_DEVICE_ID_LOCK_CONFIGURATION 2) in
  nor_send_cmd addr NOR_CMD_READ_ID_CODE;;
  lock_status ← on_chip (flash_read_32 addr);
  mret (negb (Z.land (FOLD_32BIT_INTO_16BIT lock_status) NOR_DEVICE_ID_BLOCK_LOCKED =? 0)).

Definition flash_perform_lock_operation (device : io_nor_flash_spec_t) (block_offset lock_operation : Z) : N unit :=
  assert_ ((lock_operation =? NOR_UNLOCK_BLOCK) || (lock_operation =? NOR_LOCK_BLOCK));;
  nor_send_cmd block_offset NOR_CMD_LOCK_UNLOCK;;
  nor_send_cmd block_offset lock_operation;;
  flash_wait_until_complete device;;
  nor_send_cmd block_offset NOR_CMD_READ_ARRAY.

Definition flash_unlock_block_if_necessary (device : io_nor_flash_spec_t) (block_offset : Z) : N unit :=
  locked ← flash_block_is_locked block_offset;
  if locked : bool then flash_perform_lock_operation device block_offset NOR_UNLOCK_BLOCK else mret tt.

(** The checks of the status register: an error if one of the bits is set *)
Definition has (status_register bits : Z) : bool := negb (Z.land status_register bits =? 0).

(** After an operation: the status register is cleared if there was an error. *)
Definition finish (device : io_nor_flash_spec_t) (failed : bool) : N Z :=
  (if failed then nor_send_cmd (device_address device) NOR_CMD_CLEAR_STATUS_REG else mret tt);;
  nor_send_cmd (device_address device) NOR_CMD_READ_ARRAY;;
  mret (if failed then IO_FAIL else IO_SUCCESS).

Definition flash_erase_block (device : io_nor_flash_spec_t) (block_offset : Z) : N Z :=
  nor_send_cmd block_offset NOR_CMD_BLOCK_ERASE;;
  nor_send_cmd block_offset NOR_CMD_BLOCK_ERASE_ACK;;
  sr ← flash_wait_until_complete device;
  let both := Z.lor NOR_SR_BIT_ERASE NOR_SR_BIT_PROGRAM in
  finish device (has sr NOR_SR_BIT_VPP || (Z.land sr both =? both) || has sr NOR_SR_BIT_ERASE
                 || has sr NOR_SR_BIT_BLOCK_LOCKED).

(** [do ... while ((timeout > 0) && (is_buffer_available == 0))]: the value of
    [timeout] afterwards *)
Fixpoint setup_loop (offset : Z) (timeout : nat) : N Z :=
  match timeout with
  | O => mret 0
  | S timeout' =>
      nor_send_cmd offset NOR_CMD_BUFFERED_PROGRAM;;
      value ← on_chip (flash_read_32 offset);
      if Z.land value NOR_SR_BIT_WRITE =? NOR_SR_BIT_WRITE then mret (Z.of_nat timeout')
      else setup_loop offset timeout'
  end.

(** [for (count = 0; count < size_in_words; ...)] over the words of the buffer *)
Fixpoint fill_loop (offset : Z) (buffer : list Z) (n : nat) (count : Z) : N unit :=
  match n with
  | O => mret tt
  | S n' =>
      (if 4 * count + 4 <=? zlen buffer then mret tt else fail OutOfBounds);;
      on_chip (flash_write_32 (offset + 4 * count) (le_value (slice (4 * count) 4 buffer)));;
      fill_loop offset buffer n' (count + 1)
  end.

Definition flash_write_buffer (device : io_nor_flash_spec_t) (offset buffer_addr : Z) (buffer : list Z) (buffer_size : Z)
    : N Z :=
  if negb (Z.land offset BOUNDARY_OF_32_WORDS =? 0) then mret IO_FAIL
  else if negb (Z.land buffer_addr 3 =? 0) then mret IO_FAIL
  else
    assert_ (0 <? buffer_size);;
    assert_ (buffer_size <=? NOR_MAX_BUFFER_SIZE_IN_BYTES);;
    assert_ (buffer_size mod 4 =? 0);;
    timeout ← setup_loop offset (Z.to_nat MAX_BUFFERED_PROG_ITERATIONS);
    if timeout =? 0 then
      nor_send_cmd (device_address device) NOR_CMD_READ_ARRAY;;
      mret IO_FAIL
    else
      let size_in_words := buffer_size / 4 in
      nor_send_cmd offset (size_in_words - 1);;
      fill_loop offset buffer (Z.to_nat size_in_words) 0;;
      nor_send_cmd (device_address device) NOR_CMD_BUFFERED_PROGRAM_ACK;;
      sr ← flash_wait_until_complete device;
      finish device (has sr NOR_SR_BIT_VPP || has sr NOR_SR_BIT_PROGRAM || has sr NOR_SR_BIT_BLOCK_LOCKED).

(** [offset] is an [int32_t], which is extended to an address. *)
Definition flash_write_single_word (device : io_nor_flash_spec_t) (offset data : Z) : N Z :=
  let addr := u64 (s32 offset) in
  nor_send_cmd addr NOR_CMD_WORD_PROGRAM;;
  on_chip (flash_write_32 addr data);;
  sr ← flash_wait_until_complete device;
  finish device (has sr NOR_SR_BIT_VPP || has sr NOR_SR_BIT_PROGRAM || has sr NOR_SR_BIT_BLOCK_LOCKED).

(** [while ((remaining >= 4) && (ret == IO_SUCCESS))]: the result, what is left,
    the position and how far the buffer was used.  A round that makes no
    progress fails an assertion, so [fuel] of one per byte is enough. *)
Fixpoint buffer_loop (device : io_nor_flash_spec_t) (buffer_addr : Z) (buffer : list Z) (fuel : nat)
    (flash_pos remaining used : Z) : N (Z * Z * Z * Z) :=
  if remaining <? 4 then mret (IO_SUCCESS, flash_pos, remaining, used)
  else
    match fuel with
    | O => fail FuelOut
    | S fuel' =>
        let buffer_size := if NOR_MAX_BUFFER_SIZE_IN_BYTES <=? remaining then NOR_MAX_BUFFER_SIZE_IN_BYTES
                           else Z.land remaining 3 in
        ret ← flash_write_buffer device flash_pos (buffer_addr + used) (drop (Z.to_nat used) buffer) buffer_size;
        let flash_pos := u32 (flash_pos + buffer_size) in
        let remaining := u32 (remaining - buffer_size) in
        let used := used + buffer_size in
        if ret =? IO_SUCCESS then buffer_loop device buffer_addr buffer fuel' flash_pos remaining used
        else mret (ret, flash_pos, remaining, used)
    end.

(** [while ((remaining > 0) && (ret == IO_SUCCESS))]: the data that is passed is
    the pointer. *)
Fixpoint byte_loop (device : io_nor_flash_spec_t) (n : nat) (flash_pos buffer_ptr : Z) : N Z :=
  match n with
  | O => mret IO_SUCCESS
  | S n' =>
      ret ← flash_write_single_word device flash_pos (u32 buffer_ptr);
      if ret =? IO_SUCCESS then byte_loop device n' (u32 (flash_pos + 1)) (u64 (buffer_ptr + 1))
      else mret ret
  end.

Definition the_spec (fp : file_state_t) : N io_nor_flash_spec_t :=
  match block_spec fp with Some sp => mret sp | None => fail OutOfBounds end.

(** The result, and the number of bytes written if it is 0 *)
Definition flash_block_write (fp : file_state_t) (offset buffer_addr : Z) (buffer : list Z) : N (Z * option Z) :=
  sp ← the_spec fp;
  let flash_pos := u32 (region_address sp + offset) in
  (if block_size sp =? 0 then fail Undefined else mret tt);;
  assert_ (offset mod block_size sp =? 0);;
  flash_unlock_block_if_necessary sp flash_pos;;
  ret ← flash_erase_block sp flash_pos;
  ret ← (if negb (ret =? IO_SUCCESS) then mret ret
         else
           r ← buffer_loop sp buffer_addr buffer (Z.to_nat (block_size sp)) flash_pos (block_size sp) 0;
           let '(ret, pos, remaining, used) := r in
           if ret =? IO_SUCCESS then byte_loop sp (Z.to_nat remaining) pos (u64 (buffer_addr + used)) else mret ret);
  flash_perform_lock_operation sp flash_pos NOR_LOCK_BLOCK;;
  mret (ret, if ret =? IO_SUCCESS then Some (block_size sp) else None).

Definition flash_partial_write (fp : file_state_t) (offset : Z) (buffer : list Z) (length : Z) : N (Z * option Z) :=
  sp ← the_spec fp;
  (if block_size sp =? 0 then fail Undefined else mret tt);;
  let block_start := offset / block_size sp * block_size sp in
  assert_ (block_size sp <=? NOR_FLASH_BLOCK_SIZE);;
  assert_ (offset / block_size sp =? u64 (offset + length - 1) / block_size sp);;
  old ← on_chip (flash_copy (u64 (region_address sp + block_start)) (block_size sp));
  s ← get;
  put (set_buffer s (splice 0 old (block_buffer s)));;
  let block_offset := offset mod block_size sp in
  (if length <=? zlen buffer then mret tt else fail OutOfBounds);;
  s ← get;
  (if block_offset + length <=? zlen (block_buffer s) then mret tt else fail OutOfBounds);;
  put (set_buffer s (splice block_offset (take (Z.to_nat length) buffer) (block_buffer s)));;
  s ← get;
  r ← flash_block_write fp (u32 block_start) BLOCK_BUFFER (block_buffer s);
  mret (r.1, if r.1 =? IO_SUCCESS then Some length else r.2).

(** ** The device (io_vexpress_nor_ops.c)

    The handle of the one file is that it is open: [flash_fp] fails where the
    code would use the pointer of an entity that is not. *)

Definition flash_dev_close : N Z := mret IO_SUCCESS.

Definition flash_open (spec : io_nor_flash_spec_t) : N Z :=
  s ← get;
  if in_use (current_file s) then mret IO_RESOURCES_EXHAUSTED
  else
    put (set_file s {| in_use := true; base := region_address spec; file_pos := 0; block_spec := Some spec |});;
    mret IO_SUCCESS.

Definition flash_fp : N file_state_t :=
  s ← get;
  if in_use (current_file s) then mret (current_file s) else fail OutOfBounds.

Definition put_pos (pos : Z) : N unit :=
  s ← get;
  let f := current_file s in
  put (set_file s {| in_use := in_use f; base := base f; file_pos := pos; block_spec := block_spec f |}).

(** [offset] is signed; where it is added to or compared with a [size_t] it is
    taken modulo 2^64. *)
Definition flash_seek (mode : io_seek_mode_t) (offset : Z) : N Z :=
  fp ← flash_fp;
  sp ← the_spec fp;
  let flash_size := u32 (block_count sp * block_size sp) in
  match mode with
  | IO_SEEK_SET =>
      if (0 <=? offset) && (u64 offset <? flash_size) then put_pos (u64 offset);; mret IO_SUCCESS else mret IO_FAIL
  | IO_SEEK_END =>
      if (offset <=? 0) && (0 <=? u64 (flash_size + offset))
      then put_pos (u64 (region_address sp + flash_size + offset));; mret IO_SUCCESS
      else mret IO_FAIL
  | IO_SEEK_CUR =>
      if (region_address sp <=? u64 (file_pos fp + offset))
         && (u64 (file_pos fp + offset) <? u64 (region_address sp + flash_size))
      then put_pos (u64 (file_pos fp + offset));; mret IO_SUCCESS
      else mret IO_FAIL
  | IO_SEEK_INVALID => mret IO_FAIL
  end.

Definition flash_read (length : Z) : N (Z * list Z) :=
  fp ← flash_fp;
  d ← on_chip (flash_copy (u64 (base fp + file_pos fp)) length);
  put_pos (u64 (file_pos fp + length));;
  mret (IO_SUCCESS, d).

Definition IS_FLASH_ADDRESS_BLOCK_ALIGNED (sp : io_nor_flash_spec_t) (addr : Z) : bool :=
  Z.land addr (u32 (block_size sp - 1)) =? 0.

(** [while (length > 0)]: the result and the number of bytes written *)
Fixpoint write_loop (fp : file_state_t) (sp : io_nor_flash_spec_t) (buffer_addr : Z) (fuel : nat)
    (pos : Z) (buffer : list Z) (written : Z) : N (Z * Z) :=
  if zlen buffer =? 0 then mret (IO_SUCCESS, written)
  else
    match fuel with
    | O => fail FuelOut
    | S fuel' =>
        (if block_size sp =? 0 then fail Undefined else mret tt);;
        r ← (if IS_FLASH_ADDRESS_BLOCK_ALIGNED sp pos then
               if 0 <? zlen buffer / block_size sp then flash_block_write fp (u32 pos) buffer_addr buffer
               else flash_partial_write fp (u32 pos) buffer (zlen buffer)
             else
               let remaining_block_size := u32 (block_size sp - pos mod block_size sp) in
               if zlen buffer <? remaining_block_size then flash_partial_write fp (u32 pos) buffer (zlen buffer)
               else flash_partial_write fp (u32 pos) buffer remaining_block_size);
        match r with
        | (ret, Some n) =>
            if ret =? IO_SUCCESS
            then write_loop fp sp (u64 (buffer_addr + n)) fuel' (u64 (pos + n)) (drop (Z.to_nat n) buffer) (written + n)
            else mret (ret, written)
        | (ret, None) => mret (ret, written)
        end
    end.

(** The cursor is advanced by what is left of [length], which is 0. *)
Definition flash_write (buffer_addr : Z) (buffer : list Z) : N (Z * Z) :=
  fp ← flash_fp;
  sp ← the_spec fp;
  r ← write_loop fp sp buffer_addr (length buffer) (file_pos fp) buffer 0;
  (if r.1 =? IO_SUCCESS then put_pos (file_pos fp) else mret tt);;
  mret r.

Definition flash_close : N Z :=
  s ← get;
  put (set_file s no_file);;
  mret IO_SUCCESS.

End Driver.

Arguments nor_state : clear implicits.
