(* ===== verification/NorSpec.v ===== *)
(** * The NOR flash and what the driver does to it

    The flash is a state machine, as the datasheets of such chips describe it:
    an array of cells that can only be cleared by programming and set by
    erasing a block, a protection bit per block, a status register and the mode
    that the last command has put it into.  The theorems say what the
    operations of [Nor] do to the array. *)

From S2P Require Import Prelude Bits Bytes Nor.

Local Open Scope Z_scope.

(** ** The flash *)

Inductive mode :=
| MArray
| MStatus
| MId
| MErase
| MLock
| MWord
| MSetup
| MFill (start : Z) (more : nat) (data : list Z)
| MConfirm (start : Z) (data : list Z).

(** [pause] is the number of times that the status is read before the flash is
    ready.  A block that is [sealed] (locked down) cannot be unlocked. *)
Record flash := Flash {
  cells : list Z;
  protected : Z → bool;
  sealed : Z → bool;
  in_mode : mode;
  errors : Z;
  pause : nat;
}.

Section Flash.

(** Where the flash is, its blocks, and how long it needs for an operation and
    to make its buffer available *)
Context (dev bs blocks : Z) (latency setup : flash → nat).

Definition word_is (v cmd : Z) : bool := v =? u32 (NOR_2X16 cmd).

Definition block_of (addr : Z) : Z := (addr - dev) / bs.

Definition go_mode (m : mode) (f : flash) : flash :=
  Flash (cells f) (protected f) (sealed f) m (errors f) (pause f).

(** The flash is busy with an operation that has changed its state. *)
Definition begin (l : list Z) (p : Z → bool) (err : Z) (f : flash) : flash :=
  Flash l p (sealed f) MStatus (Z.lor (errors f) err) (latency f).

Definition set_protected (b : Z) (v : bool) (p : Z → bool) : Z → bool := λ c, if c =? b then v else p c.

(** Programming only clears bits. *)
Definition burn (off : Z) (d l : list Z) : list Z := splice off (zip_with Z.land (slice off (zlen d) l) d) l.

Definition program (addr : Z) (d : list Z) (f : flash) : flash :=
  if protected f (block_of addr) then begin (cells f) (protected f) (Z.lor NOR_SR_BIT_PROGRAM NOR_SR_BIT_BLOCK_LOCKED) f
  else begin (burn (addr - dev) d (cells f)) (protected f) 0 f.

Definition erase (addr : Z) (f : flash) : flash :=
  let b := block_of addr in
  if protected f b then begin (cells f) (protected f) (Z.lor NOR_SR_BIT_ERASE NOR_SR_BIT_BLOCK_LOCKED) f
  else begin (splice (b * bs) (replicate (Z.to_nat bs) 0xFF) (cells f)) (protected f) 0 f.

Definition lock (addr : Z) (v : bool) (f : flash) : flash :=
  let b := block_of addr in
  begin (cells f) (if sealed f b then protected f else set_protected b v (protected f)) 0 f.

(** A wrong sequence of commands *)
Definition confused (f : flash) : flash :=
  begin (cells f) (protected f) (Z.lor NOR_SR_BIT_ERASE NOR_SR_BIT_PROGRAM) f.

(** A command when none is under way; a flash that is busy only takes the one
    to read the status. *)
Definition command (v : Z) (f : flash) : flash :=
  if negb (Nat.eqb (pause f) 0) then if word_is v NOR_CMD_READ_STATUS_REG then go_mode MStatus f else f
  else if word_is v NOR_CMD_READ_ARRAY then go_mode MArray f
  else if word_is v NOR_CMD_READ_STATUS_REG then go_mode MStatus f
  else if word_is v NOR_CMD_READ_ID_CODE then go_mode MId f
  else if word_is v NOR_CMD_CLEAR_STATUS_REG then Flash (cells f) (protected f) (sealed f) (in_mode f) 0 0
  else if word_is v NOR_CMD_WORD_PROGRAM then go_mode MWord f
  else if word_is v NOR_CMD_BLOCK_ERASE then go_mode MErase f
  else if word_is v NOR_CMD_LOCK_UNLOCK then go_mode MLock f
  else if word_is v NOR_CMD_BUFFERED_PROGRAM then Flash (cells f) (protected f) (sealed f) MSetup (errors f) (setup f)
  else confused f.

(** A word written to [addr] *)
Definition absorb (addr v : Z) (f : flash) : flash :=
  match in_mode f with
  | MArray | MStatus | MId => command v f
  | MErase => if word_is v NOR_CMD_BLOCK_ERASE_ACK then erase addr f else confused f
  | MLock =>
      if word_is v NOR_LOCK_BLOCK then lock addr true f
      else if word_is v NOR_UNLOCK_BLOCK then lock addr false f
      else confused f
  | MWord => program addr (le_bytes 4 v) f
  | MSetup =>
      if word_is v NOR_CMD_BUFFERED_PROGRAM then f
      else if Nat.eqb (pause f) 0 then go_mode (MFill addr (S (Z.to_nat (Z.land v 0xFFFF))) []) f
      else confused f
  | MFill start more data =>
      if addr =? start + zlen data then
        let data' := data ++ le_bytes 4 v in
        go_mode (match more with S (S n) => MFill start (S n) data' | _ => MConfirm start data' end) f
      else confused f
  | MConfirm start data => if word_is v NOR_CMD_BUFFERED_PROGRAM_ACK then program start data f else confused f
  end.

Definition status_of (f : flash) : Z := if Nat.eqb (pause f) 0 then Z.lor NOR_SR_BIT_WRITE (errors f) else errors f.

(** A word read at [addr]; the identification has the protection of a block in
    its third word. *)
Definition answer (addr : Z) (f : flash) : Z * flash :=
  match in_mode f with
  | MArray => (le_value (slice (addr - dev) 4 (cells f)), f)
  | MId =>
      (if ((addr - dev) mod bs =? Z.shiftl NOR_DEVICE_ID_LOCK_CONFIGURATION 2) && protected f (block_of addr)
       then u32 (NOR_2X16 NOR_DEVICE_ID_BLOCK_LOCKED) else 0, f)
  | m => (status_of f, Flash (cells f) (protected f) (sealed f) m (errors f) (Nat.pred (pause f)))
  end.

Definition inside (addr n : Z) : bool := (dev <=? addr) && (addr + n <=? dev + blocks * bs).

Definition flash_hw : NorHw flash := {|
  flash_read_32 addr f := if inside addr 4 then Ok (answer addr f) else Stop OutOfBounds;
  flash_write_32 addr v f := if inside addr 4 then Ok (tt, absorb addr v f) else Stop OutOfBounds;
  flash_copy addr n f :=
    if inside addr n then match in_mode f with MArray => Ok (slice (addr - dev) n (cells f), f) | _ => Stop Undefined end
    else Stop OutOfBounds;
|}.

(** ** Steps of the driver *)

Context (fuel : nat) (NB BB : Z).
Context (Hdev : 0 <= dev) (Htop : dev + blocks * bs <= 2 ^ 32) (Hbs : 0 < bs) (Hbs128 : bs mod 128 = 0) (Hal : dev mod 128 = 0).
Context (Hlat : ∀ f, (latency f < fuel)%nat) (Hset : ∀ f, (setup f < 999)%nat).
Context (region : Z) (count : Z).

#[local] Hint Extern 0 (NorHw flash) => exact flash_hw : typeclass_instances.

Abbreviation state := (nor_state flash).

Lemma send_run (a cmd : Z) (s : state) (f : flash) : inside a 4 = true →
  nor_send_cmd a cmd (set_chip s f) = Ok (tt, set_chip s (absorb a (u32 (NOR_2X16 cmd)) f)).
Proof. intros Ha. unfold nor_send_cmd, on_chip, flash_write_32, flash_hw. cbn [chip set_chip]. by rewrite Ha. Qed.

Lemma write_run (a v : Z) (s : state) (f : flash) : inside a 4 = true →
  on_chip (flash_write_32 a v) (set_chip s f) = Ok (tt, set_chip s (absorb a v f)).
Proof. intros Ha. unfold on_chip, flash_write_32, flash_hw. cbn [chip set_chip]. by rewrite Ha. Qed.

Lemma chip_read_run (a : Z) (s : state) (f : flash) : inside a 4 = true →
  on_chip (flash_read_32 a) (set_chip s f) = Ok ((answer a f).1, set_chip s (answer a f).2).
Proof. intros Ha. unfold on_chip, flash_read_32, flash_hw. cbn [chip set_chip]. rewrite Ha. by destruct (answer a f). Qed.

Context (Hblocks : 0 < blocks).

Definition sp : io_nor_flash_spec_t :=
  {| device_address := dev; region_address := region; block_size := bs; block_count := count |}.

Lemma bs_128 : 128 <= bs.
Proof. pose proof (Z.div_mod bs 128 ltac:(lia)). lia. Qed.

Lemma inside_dev : inside dev 4 = true.
Proof. unfold inside. pose proof bs_128. apply andb_true_iff. split; apply Z.leb_le; nia. Qed.

(** Addresses in a block *)
Definition block_addr (b : Z) : Z := dev + b * bs.

Lemma inside_block (b o n : Z) : 0 <= b < blocks → 0 <= o → o + n <= bs → inside (block_addr b + o) n = true.
Proof. intros Hb Ho Hn. unfold inside, block_addr. apply andb_true_iff. split; apply Z.leb_le; nia. Qed.

Lemma block_of_addr (b o : Z) : 0 <= o < bs → block_of (block_addr b + o) = b.
Proof.
  intros Ho. unfold block_of, block_addr. replace (dev + b * bs + o - dev) with (o + b * bs) by lia.
  rewrite Z.div_add, Z.div_small by lia. lia.
Qed.

Lemma block_of_start (b : Z) : block_of (block_addr b) = b.
Proof. pose proof bs_128. rewrite <- (Z.add_0_r (block_addr b)). apply block_of_addr. lia. Qed.

Lemma block_addr_32 (b o : Z) : 0 <= b < blocks → 0 <= o <= bs → 0 <= block_addr b + o <= 2 ^ 32.
Proof. intros Hb Ho. unfold block_addr. nia. Qed.

Lemma status_write (e : Z) : Z.land e NOR_SR_BIT_WRITE = 0 →
  Z.land (Z.lor NOR_SR_BIT_WRITE e) NOR_SR_BIT_WRITE = NOR_SR_BIT_WRITE.
Proof. intros He. rewrite Z.land_lor_distr_l, He, Z.lor_0_r. done. Qed.

Lemma wait_run (l : list Z) (p z : Z → bool) (e : Z) (n k : nat) (s : state) :
  Z.land e NOR_SR_BIT_WRITE = 0 → (n < k)%nat →
  wait_loop sp k (set_chip s (Flash l p z MStatus e n))
  = Ok (Z.lor NOR_SR_BIT_WRITE e, set_chip s (Flash l p z MStatus e 0)).
Proof.
  intros He. revert n. induction k as [|k IH]; intros n Hn; [lia|]. cbn [wait_loop].
  assert (flash_read_status sp (set_chip s (Flash l p z MStatus e n))
    = Ok (if Nat.eqb n 0 then Z.lor NOR_SR_BIT_WRITE e else e, set_chip s (Flash l p z MStatus e (Nat.pred n)))) as Hr.
  { unfold flash_read_status. rewrite (bind_Ok _ _ _ _ _ (send_run _ _ _ _ inside_dev)).
    rewrite (chip_read_run _ _ _ inside_dev). by destruct n. }
  rewrite (bind_Ok _ _ _ _ _ Hr). destruct n as [|n]; cbn [Nat.eqb Nat.pred].
  - by rewrite status_write, Z.eqb_refl by done.
  - rewrite He. apply IH. lia.
Qed.

Lemma complete_run (l : list Z) (p z : Z → bool) (e : Z) (f : flash) (s : state) :
  Z.land e NOR_SR_BIT_WRITE = 0 →
  flash_wait_until_complete fuel sp (set_chip s (Flash l p z MStatus e (latency f)))
  = Ok (Z.lor NOR_SR_BIT_WRITE e, set_chip s (Flash l p z MStatus e 0)).
Proof. intros He. by apply wait_run. Qed.

(** The flash with nothing under way, in a mode *)
Abbreviation Idle l p z m := (Flash l p z m 0 0).

Lemma begin_idle (l l' : list Z) (p p' z : Z → bool) (m : mode) (e : Z) :
  begin l' p' e (Idle l p z m) = Flash l' p' z MStatus e (latency (Idle l p z m)).
Proof. done. Qed.

Definition resting (m : mode) : bool := match m with MArray | MStatus | MId => true | _ => false end.

Lemma is_locked_run (l : list Z) (p z : Z → bool) (b : Z) (s : state) : 0 <= b < blocks →
  flash_block_is_locked (block_addr b) (set_chip s (Idle l p z MArray)) = Ok (p b, set_chip s (Idle l p z MId)).
Proof.
  intros Hb. unfold flash_block_is_locked. pose proof bs_128. change (Z.shiftl NOR_DEVICE_ID_LOCK_CONFIGURATION 2) with 8.
  rewrite u32_small by (unfold UINT32_MAX, block_addr in *; nia).
  assert (inside (block_addr b + 8) 4 = true) as Hi by (apply inside_block; lia).
  rewrite (bind_Ok _ _ _ _ _ (send_run _ _ _ _ Hi)), (bind_Ok _ _ _ _ _ (chip_read_run _ _ _ Hi)).
  change (absorb _ _ _) with (Idle l p z MId). unfold answer. cbn [in_mode fst snd protected].
  rewrite block_of_addr by lia. unfold block_addr. replace (dev + b * bs + 8 - dev) with (8 + b * bs) by lia.
  rewrite Z.mod_add, Z.mod_small by lia. change (Z.shiftl NOR_DEVICE_ID_LOCK_CONFIGURATION 2) with 8. by destruct (p b).
Qed.

Lemma lock_op_run (l : list Z) (p z : Z → bool) (m : mode) (b : Z) (v : bool) (s : state) : 0 <= b < blocks → resting m = true →
  flash_perform_lock_operation fuel sp (block_addr b) (if v then NOR_LOCK_BLOCK else NOR_UNLOCK_BLOCK)
    (set_chip s (Idle l p z m))
  = Ok (tt, set_chip s (Idle l (if z b then p else set_protected b v p) z MArray)).
Proof.
  intros Hb Hm. pose proof bs_128. pose proof (inside_block b 0 4 Hb ltac:(lia) ltac:(lia)) as Hi. rewrite Z.add_0_r in Hi.
  unfold flash_perform_lock_operation. rewrite (bind_Ok _ _ (set_chip s (Idle l p z m)) (set_chip s (Idle l p z m)) tt) by (by destruct v).
  rewrite (bind_Ok _ _ _ _ _ (send_run _ _ _ _ Hi)), (bind_Ok _ _ _ _ _ (send_run _ _ _ _ Hi)).
  assert (absorb (block_addr b) (u32 (NOR_2X16 NOR_CMD_LOCK_UNLOCK)) (Idle l p z m) = Idle l p z MLock) as -> by (by destruct m).
  assert (absorb (block_addr b) (u32 (NOR_2X16 (if v then NOR_LOCK_BLOCK else NOR_UNLOCK_BLOCK))) (Idle l p z MLock)
    = lock (block_addr b) v (Idle l p z MLock)) as -> by (by destruct v).
  unfold lock. rewrite block_of_start, begin_idle.
  rewrite (bind_Ok _ _ _ _ _ (complete_run _ _ _ 0 _ _ eq_refl)).
  by rewrite (send_run _ _ _ _ Hi).
Qed.

(** The protection of a block after it was unlocked *)
Definition opened (b : Z) (p z : Z → bool) : Z → bool :=
  if p b then if z b then p else set_protected b false p else p.

Lemma unlock_if_run (l : list Z) (p z : Z → bool) (b : Z) (s : state) : 0 <= b < blocks →
  ∃ m, resting m = true ∧ flash_unlock_block_if_necessary fuel sp (block_addr b) (set_chip s (Idle l p z MArray))
    = Ok (tt, set_chip s (Idle l (opened b p z) z m)).
Proof.
  intros Hb. unfold flash_unlock_block_if_necessary, opened. rewrite (bind_Ok _ _ _ _ _ (is_locked_run l p z b s Hb)).
  destruct (p b); [|by exists MId]. exists MArray. split; [done|]. by apply (lock_op_run l p z MId b false).
Qed.

Lemma finish_run (l : list Z) (p z : Z → bool) (e : Z) (failed : bool) (s : state) : (failed = false → e = 0) →
  finish sp failed (set_chip s (Flash l p z MStatus e 0))
  = Ok (if failed then IO_FAIL else IO_SUCCESS, set_chip s (Idle l p z MArray)).
Proof.
  intros He. unfold finish. destruct failed.
  - by rewrite (bind_Ok _ _ _ _ _ (send_run _ _ _ _ inside_dev)), (bind_Ok _ _ _ _ _ (send_run _ _ _ _ inside_dev)).
  - rewrite He by done. erewrite bind_Ok by reflexivity. by rewrite (bind_Ok _ _ _ _ _ (send_run _ _ _ _ inside_dev)).
Qed.

(** A block that is erased, if it is not protected *)
Definition erased (b : Z) (l : list Z) : list Z := splice (b * bs) (replicate (Z.to_nat bs) 0xFF) l.

Lemma erase_run (l : list Z) (p z : Z → bool) (m : mode) (b : Z) (s : state) : 0 <= b < blocks → resting m = true →
  flash_erase_block fuel sp (block_addr b) (set_chip s (Idle l p z m))
  = Ok (if p b then IO_FAIL else IO_SUCCESS, set_chip s (Idle (if p b then l else erased b l) p z MArray)).
Proof.
  intros Hb Hm. pose proof bs_128. pose proof (inside_block b 0 4 Hb ltac:(lia) ltac:(lia)) as Hi. rewrite Z.add_0_r in Hi.
  unfold flash_erase_block. rewrite (bind_Ok _ _ _ _ _ (send_run _ _ _ _ Hi)), (bind_Ok _ _ _ _ _ (send_run _ _ _ _ Hi)).
  assert (absorb (block_addr b) (u32 (NOR_2X16 NOR_CMD_BLOCK_ERASE)) (Idle l p z m) = Idle l p z MErase) as -> by (by destruct m).
  change (absorb _ _ _) with (erase (block_addr b) (Idle l p z MErase)). unfold erase. rewrite block_of_start. cbn [protected cells].
  destruct (p b); rewrite begin_idle.
  - rewrite (bind_Ok _ _ _ _ _ (complete_run _ _ _ (Z.lor NOR_SR_BIT_ERASE NOR_SR_BIT_BLOCK_LOCKED) _ _ eq_refl)).
    by apply (finish_run l p z _ true).
  - rewrite (bind_Ok _ _ _ _ _ (complete_run _ _ _ 0 _ _ eq_refl)). by apply (finish_run (erased b l) p z 0 false).
Qed.

(** ** Programming through the buffer *)

Lemma setup_run (a : Z) (l : list Z) (p z : Z → bool) (n k : nat) (s : state) : inside a 4 = true → (n < k)%nat →
  setup_loop a k (set_chip s (Flash l p z MSetup 0 n)) = Ok (Z.of_nat (k - n - 1), set_chip s (Idle l p z MSetup)).
Proof.
  intros Ha. revert n. induction k as [|k IH]; intros n Hn; [lia|]. cbn [setup_loop].
  rewrite (bind_Ok _ _ _ _ _ (send_run _ _ _ _ Ha)). change (absorb _ _ _) with (Flash l p z MSetup 0 n).
  rewrite (bind_Ok _ _ _ _ _ (chip_read_run _ _ _ Ha)). destruct n as [|n].
  - cbn [answer fst snd in_mode]. change (Z.land _ _ =? _) with true. cbn [cells protected sealed errors pause Nat.pred].
    replace (S k - 0 - 1)%nat with k by lia. done.
  - change (Z.land _ _ =? _) with false. apply (IH n). lia.
Qed.

Lemma setup_start (a : Z) (l : list Z) (p z : Z → bool) (k : nat) (s : state) : inside a 4 = true →
  setup_loop a (S k) (set_chip s (Idle l p z MArray))
  = setup_loop a (S k) (set_chip s (Flash l p z MSetup 0 (setup (Idle l p z MArray)))).
Proof. intros Ha. cbn [setup_loop]. by rewrite !(bind_Ok _ _ _ _ _ (send_run _ _ _ _ Ha)). Qed.

(** The buffer while [n] more words are expected *)
Definition filling (a : Z) (n : nat) (data : list Z) : mode :=
  match n with O => MConfirm a data | S _ => MFill a n data end.

Lemma slice_next (i n : Z) (l : list Z) : 0 <= i → 0 <= n → 4 * (i + n + 1) <= zlen l →
  slice (4 * i) (4 * (n + 1)) l = slice (4 * i) 4 l ++ slice (4 * (i + 1)) (4 * n) l.
Proof.
  intros Hi Hn Hl. unfold slice. replace (Z.to_nat (4 * (n + 1))) with (4 + Z.to_nat (4 * n))%nat by lia.
  rewrite <- (take_drop 4 (take _ (drop _ l))). rewrite take_take, skipn_firstn_comm, drop_drop. repeat f_equal; lia.
Qed.

Lemma word_stored (i : Z) (buffer : list Z) : Forall (λ x, 0 <= x < 256) buffer → 0 <= i → 4 * i + 4 <= zlen buffer →
  le_bytes 4 (le_value (slice (4 * i) 4 buffer)) = slice (4 * i) 4 buffer.
Proof.
  intros Hb Hi Hl. pose proof (length_slice (4 * i) 4 buffer ltac:(lia) ltac:(lia) ltac:(lia)) as Hs. unfold zlen in Hs.
  rewrite le_bytes_value; [|by apply Forall_take, Forall_drop|lia]. replace (4 - length _)%nat with 0%nat by lia. apply app_nil_r.
Qed.

Lemma fill_run (a : Z) (buffer : list Z) (l : list Z) (p z : Z → bool) (n : nat) (i : Z) (data : list Z) (s : state) :
  Forall (λ x, 0 <= x < 256) buffer → 0 <= i → zlen data = 4 * i → 4 * (i + Z.of_nat n) <= zlen buffer →
  inside a (4 * (i + Z.of_nat n)) = true →
  fill_loop a buffer n i (set_chip s (Idle l p z (filling a n data)))
  = Ok (tt, set_chip s (Idle l p z (MConfirm a (data ++ slice (4 * i) (4 * Z.of_nat n) buffer)))).
Proof.
  intros Hb. revert i data. induction n as [|n IH]; intros i data Hi Hd Hl Ha.
  { cbn [fill_loop filling]. rewrite Z.mul_0_r, slice_0, app_nil_r. done. }
  cbn [fill_loop]. rewrite (proj2 (Z.leb_le (4 * i + 4) (zlen buffer))) by lia. erewrite bind_Ok by reflexivity.
  assert (inside (a + 4 * i) 4 = true) as Hin.
  { unfold inside in *. apply andb_true_iff in Ha as [A1 A2]. apply andb_true_iff. rewrite !Z.leb_le in *. lia. }
  rewrite (bind_Ok _ _ _ _ _ (write_run _ _ _ _ Hin)). cbn [absorb in_mode filling]. rewrite Hd, Z.eqb_refl, word_stored by (done || lia).
  replace (4 * Z.of_nat (S n)) with (4 * (Z.of_nat n + 1)) by lia. rewrite slice_next by lia. rewrite app_assoc.
  rewrite <- IH; try lia.
  - by destruct n.
  - rewrite zlen_app, length_slice; lia.
  - replace (i + 1 + Z.of_nat n) with (i + Z.of_nat (S n)) by lia. done.
Qed.

Lemma mod_128 (b o : Z) : o mod 128 = 0 → (block_addr b + o) mod 128 = 0.
Proof.
  intros Ho. unfold block_addr. rewrite Z.add_mod, Ho, Z.add_0_r, Z.mod_mod, Z.add_mod, Hal, Z.mul_mod, Hbs128 by lia.
  by rewrite Z.mul_0_r.
Qed.

Lemma land_127 (x : Z) : Z.land x BOUNDARY_OF_32_WORDS = x mod 128.
Proof. apply (land_mask x 7). lia. Qed.
Lemma nor_land_3 (x : Z) : Z.land x 3 = x mod 4.
Proof. apply (land_mask x 2). lia. Qed.

Lemma write_buffer_run (b o baddr : Z) (buffer l : list Z) (p z : Z → bool) (s : state) :
  0 <= b < blocks → 0 <= o → o + 128 <= bs → o mod 128 = 0 → baddr mod 4 = 0 → p b = false →
  Forall (λ x, 0 <= x < 256) buffer → 128 <= zlen buffer →
  flash_write_buffer fuel sp (block_addr b + o) baddr buffer 128 (set_chip s (Idle l p z MArray))
  = Ok (IO_SUCCESS, set_chip s (Idle (burn (b * bs + o) (slice 0 128 buffer) l) p z MArray)).
Proof.
  intros Hb Ho Hob Hom Hba Hp Hby Hlen. unfold flash_write_buffer. rewrite land_127, mod_128, nor_land_3, Hba by done.
  change (128 <=? NOR_MAX_BUFFER_SIZE_IN_BYTES) with true. change (128 mod 4 =? 0) with true. change (0 <? 128) with true.
  cbn [negb Z.eqb]. erewrite !bind_Ok by reflexivity.
  assert (inside (block_addr b + o) 4 = true) as Hi by (apply inside_block; lia).
  assert (inside (block_addr b + o) 128 = true) as Hi128 by (apply inside_block; lia).
  change (Z.to_nat MAX_BUFFERED_PROG_ITERATIONS) with 1000%nat. pose proof (Hset (Idle l p z MArray)) as Hs.
  rewrite (bind_Ok _ _ _ _ _ (eq_trans (setup_start _ l p z 999 s Hi) (setup_run _ l p z (setup (Idle l p z MArray)) 1000 s Hi ltac:(lia)))).
  rewrite (proj2 (Z.eqb_neq _ 0)) by lia. rewrite (bind_Ok _ _ _ _ _ (send_run _ _ _ _ Hi)).
  change (128 / 4 - 1) with 31. change (Z.to_nat (128 / 4)) with 32%nat.
  change (absorb _ _ _) with (Idle l p z (filling (block_addr b + o) 32 [])).
  rewrite (bind_Ok _ _ _ _ _ (fill_run _ buffer l p z 32 0 [] s Hby ltac:(lia) eq_refl Hlen Hi128)).
  rewrite (bind_Ok _ _ _ _ _ (send_run _ _ _ _ inside_dev)). cbn [app].
  change (absorb _ _ _) with (program (block_addr b + o) (slice 0 128 buffer) (Idle l p z (MConfirm (block_addr b + o) (slice 0 128 buffer)))).
  unfold program. rewrite block_of_addr by lia. cbn [protected cells]. rewrite Hp, begin_idle.
  rewrite (bind_Ok _ _ _ _ _ (complete_run _ _ _ 0 _ _ eq_refl)).
  replace (block_addr b + o - dev) with (b * bs + o) by (unfold block_addr; lia). by apply (finish_run _ p z 0 false).
Qed.

Lemma write_buffer_misaligned (a baddr : Z) (buffer : list Z) (n : Z) (s : state) : baddr mod 4 ≠ 0 →
  flash_write_buffer fuel sp a baddr buffer n s = Ok (IO_FAIL, s).
Proof.
  intros Hb. unfold flash_write_buffer. destruct (negb (Z.land a _ =? 0)); [done|]. rewrite nor_land_3.
  by rewrite (proj2 (Z.eqb_neq _ _) Hb).
Qed.

(** Programming erased cells *)
Lemma burn_erased (off : Z) (d l : list Z) : Forall (λ x, 0 <= x < 256) d →
  slice off (zlen d) l = replicate (length d) 0xFF → burn off d l = splice off d l.
Proof.
  intros Hd Hl. unfold burn. rewrite Hl. f_equal. clear Hl. induction Hd as [|x d Hx _ IH]; [done|]. cbn. f_equal; [|done].
  rewrite Z.land_comm. change 255 with (2 ^ 8 - 1). rewrite land_mask by lia. by apply Z.mod_small.
Qed.

(** ** A block *)

(** The array while a block is written: the first [used] bytes are there. *)
Definition half_written (b used : Z) (buffer l : list Z) : list Z :=
  splice (b * bs) (take (Z.to_nat used) buffer) (erased b l).

Lemma zlen_erased (b : Z) (l : list Z) : 0 <= b < blocks → zlen l = blocks * bs → zlen (erased b l) = blocks * bs.
Proof. intros Hb Hl. unfold erased. rewrite zlen_splice; rewrite ?zlen_replicate; nia. Qed.

Lemma half_written_next (b used : Z) (buffer l : list Z) :
  0 <= b < blocks → zlen l = blocks * bs → 0 <= used → used + 128 <= bs → bs <= zlen buffer →
  Forall (λ x, 0 <= x < 256) buffer →
  burn (b * bs + used) (slice 0 128 (drop (Z.to_nat used) buffer)) (half_written b used buffer l)
  = half_written b (used + 128) buffer l.
Proof.
  intros Hb Hl Hu Hub Hbuf Hby. pose proof (zlen_erased b l Hb Hl) as He.
  change (slice 0 128 (drop (Z.to_nat used) buffer)) with (slice used 128 buffer).
  pose proof (length_slice used 128 buffer ltac:(lia) ltac:(lia) ltac:(lia)) as Hs.
  pose proof (zlen_take_le used buffer ltac:(lia)) as Ht.
  rewrite burn_erased.
  - unfold half_written. rewrite <- splice_app by (rewrite ?Hs; nia). f_equal.
    unfold slice. rewrite <- (take_drop (Z.to_nat used) (take (Z.to_nat (used + 128)) buffer)).
    rewrite take_take, skipn_firstn_comm. repeat f_equal; lia.
  - by apply Forall_take, Forall_drop.
  - rewrite Hs. unfold half_written. rewrite slice_splice_ne by (rewrite ?Ht; nia).
    unfold erased. rewrite slice_in_splice by (rewrite ?zlen_replicate; nia). rewrite slice_replicate by lia.
    f_equal. unfold zlen in Hs. lia.
Qed.

Lemma buffer_loop_run (b baddr : Z) (buffer l : list Z) (p z : Z → bool) (k : nat) (used : Z) (s : state) :
  0 <= b < blocks → zlen l = blocks * bs → bs <= zlen buffer → Forall (λ x, 0 <= x < 256) buffer → baddr mod 4 = 0 →
  p b = false → 0 <= used <= bs → used mod 128 = 0 → bs - used <= Z.of_nat k →
  ∃ pos, buffer_loop fuel sp baddr buffer k (u32 (block_addr b + used)) (bs - used) used
      (set_chip s (Idle (half_written b used buffer l) p z MArray))
    = Ok (IO_SUCCESS, pos, 0, bs, set_chip s (Idle (half_written b bs buffer l) p z MArray)).
Proof.
  intros Hb Hl Hbuf Hby Hba Hp. revert used. induction k as [|k IH]; intros used Hu Hum Hk.
  { replace used with bs by lia. rewrite Z.sub_diag. eexists. reflexivity. }
  destruct (decide (used = bs)) as [->|Hne]. { rewrite Z.sub_diag. eexists. reflexivity. }
  assert (used + 128 <= bs) as Hroom.
  { pose proof (Z.div_mod bs 128 ltac:(lia)). pose proof (Z.div_mod used 128 ltac:(lia)). lia. }
  cbn [buffer_loop]. rewrite (proj2 (Z.ltb_ge _ 4)) by lia. unfold NOR_MAX_BUFFER_SIZE_IN_BYTES.
  rewrite (proj2 (Z.leb_le 128 _)) by lia. rewrite (u32_small (block_addr b + used)) by (unfold UINT32_MAX, block_addr; nia).
  erewrite bind_Ok.
  2: { apply write_buffer_run; try done; try lia.
       - rewrite Z.add_mod, Hba, Z.add_0_l, Z.mod_mod by lia. rewrite (Z.div_mod used 128), Hum, Z.add_0_r by lia.
         change 128 with (32 * 4). rewrite <- Z.mul_assoc, (Z.mul_comm 32), <- Z.mul_assoc, (Z.mul_comm 4). apply Z.mod_mul. lia.
       - by apply Forall_drop.
       - unfold zlen in *. rewrite length_drop. lia. }
  rewrite Z.eqb_refl, half_written_next by (done || lia). pose proof (block_addr_32 b 0 Hb ltac:(lia)).
  rewrite (u32_small (bs - used - 128)) by (unfold UINT32_MAX; nia). replace (bs - used - 128) with (bs - (used + 128)) by lia.
  rewrite <- Z.add_assoc. apply IH; try lia. rewrite Z.add_mod, Hum by lia. done.
Qed.

Lemma half_written_full (b : Z) (buffer l : list Z) : 0 <= b < blocks → zlen l = blocks * bs → bs <= zlen buffer →
  half_written b bs buffer l = splice (b * bs) (take (Z.to_nat bs) buffer) l.
Proof.
  intros Hb Hl Hbuf. unfold half_written, erased. rewrite splice_splice; [done|nia|..]; rewrite zlen_take_le, ?zlen_replicate; nia.
Qed.

Lemma half_written_start (b : Z) (buffer l : list Z) : half_written b 0 buffer l = erased b l.
Proof. unfold half_written. apply splice_nil. Qed.

(** The file is a number of blocks of the flash from block [first] on. *)
Context (first : Z) (Hreg : region = block_addr first) (Hfirst : 0 <= first) (Hcount : first + count <= blocks).

(** A block that can be written: not locked down while it is protected *)
Definition writable (b : Z) (p z : Z → bool) : bool := negb (p b && z b).

(** The protection after a write: a block is protected unless that is sealed. *)
Definition relocked (b : Z) (p z : Z → bool) : Z → bool :=
  if z b then opened b p z else set_protected b true (opened b p z).

Lemma opened_writable (b : Z) (p z : Z → bool) : opened b p z b = negb (writable b p z).
Proof.
  unfold opened, writable, set_protected. destruct (p b) eqn:Hp, (z b) eqn:Hz; try done. by rewrite Z.eqb_refl.
Qed.

Lemma relocked_at (b c : Z) (p z : Z → bool) :
  relocked b p z c = if c =? b then if z b then p b else true else p c.
Proof.
  unfold relocked, opened, set_protected. destruct (p b) eqn:Hp, (z b) eqn:Hz; cbn; destruct (Z.eqb_spec c b); congruence.
Qed.

(** What a write of a block leaves in the array, and its result *)
Definition block_cells (b baddr : Z) (buffer l : list Z) (p z : Z → bool) : list Z :=
  if writable b p z then
    if baddr mod 4 =? 0 then splice (b * bs) (take (Z.to_nat bs) buffer) l else erased b l
  else l.
Definition block_result (b baddr : Z) (p z : Z → bool) : Z * option Z :=
  if writable b p z && (baddr mod 4 =? 0) then (IO_SUCCESS, Some bs) else (IO_FAIL, None).

Lemma buffer_loop_misaligned (b baddr pos : Z) (buffer : list Z) (s : state) : baddr mod 4 ≠ 0 →
  ∃ pos' rest, buffer_loop fuel sp baddr buffer (Z.to_nat bs) pos bs 0 s = Ok (IO_FAIL, pos', rest, 128, s).
Proof.
  intros Hba. pose proof bs_128. destruct (Z.to_nat bs) as [|k] eqn:Hk; [lia|]. cbn [buffer_loop].
  rewrite (proj2 (Z.ltb_ge bs 4)) by lia. unfold NOR_MAX_BUFFER_SIZE_IN_BYTES. rewrite (proj2 (Z.leb_le 128 bs)) by lia.
  rewrite Z.add_0_r. rewrite (bind_Ok _ _ _ _ _ (write_buffer_misaligned _ _ _ _ _ Hba)). eexists _, _. reflexivity.
Qed.

Lemma block_write_run (fp : file_state_t) (k baddr : Z) (buffer l : list Z) (p z : Z → bool) (s : state) :
  block_spec fp = Some sp → 0 <= k < count → zlen l = blocks * bs → bs <= zlen buffer → Forall (λ x, 0 <= x < 256) buffer →
  flash_block_write fuel fp (k * bs) baddr buffer (set_chip s (Idle l p z MArray))
  = Ok (block_result (first + k) baddr p z,
        set_chip s (Idle (block_cells (first + k) baddr buffer l p z) (relocked (first + k) p z) z MArray)).
Proof.
  intros Hfp Hk Hl Hbuf Hby. set (b := first + k). assert (0 <= b < blocks) as Hb by (subst b; lia). pose proof bs_128.
  unfold flash_block_write, the_spec. rewrite Hfp. erewrite bind_Ok by reflexivity. cbn [block_size region_address sp].
  rewrite (proj2 (Z.eqb_neq bs 0)) by lia. erewrite bind_Ok by reflexivity. rewrite Z.mod_mul, Z.eqb_refl by lia.
  erewrite bind_Ok by reflexivity. replace (region + k * bs) with (block_addr b + 0) by (subst b; rewrite Hreg; unfold block_addr; lia).
  rewrite u32_small by (unfold UINT32_MAX, block_addr; nia). rewrite Z.add_0_r.
  destruct (unlock_if_run l p z b s Hb) as (m & Hm & Hun). rewrite (bind_Ok _ _ _ _ _ Hun).
  rewrite (bind_Ok _ _ _ _ _ (erase_run l _ z m b s Hb Hm)). rewrite opened_writable. unfold block_result, block_cells.
  assert (∀ (l' : list Z) (ret : Z), (flash_perform_lock_operation fuel sp (block_addr b) NOR_LOCK_BLOCK ≫= λ _,
      mret (ret, if ret =? IO_SUCCESS then Some bs else None)) (set_chip s (Idle l' (opened b p z) z MArray))
    = Ok (ret, if ret =? IO_SUCCESS then Some bs else None, set_chip s (Idle l' (relocked b p z) z MArray))) as Hlast.
  { intros l' ret. by rewrite (bind_Ok _ _ _ _ _ (lock_op_run l' (opened b p z) z MArray b true s Hb eq_refl)). }
  destruct (writable b p z) eqn:Hw; cbn [negb andb].
  2: { rewrite (bind_Ok _ _ (set_chip s (Idle l (opened b p z) z MArray)) _ IO_FAIL eq_refl). apply Hlast. }
  destruct (Z.eqb_spec (baddr mod 4) 0) as [Hba|Hba].
  - destruct (buffer_loop_run b baddr buffer l (opened b p z) z (Z.to_nat bs) 0 s) as (pos & Hrun); try done; try lia.
    { by rewrite opened_writable, Hw. }
    rewrite half_written_start, half_written_full in Hrun by (done || lia). rewrite Z.sub_0_r, Z.add_0_r, (u32_small (block_addr b)) in Hrun
      by (unfold UINT32_MAX, block_addr; nia).
    erewrite bind_Ok; [apply Hlast|]. change (negb (IO_SUCCESS =? IO_SUCCESS)) with false. cbv iota. rewrite (bind_Ok _ _ _ _ _ Hrun).
    reflexivity.
  - destruct (buffer_loop_misaligned b baddr (block_addr b) buffer (set_chip s (Idle (erased b l) (opened b p z) z MArray)) Hba)
      as (pos & rest & Hrun).
    erewrite bind_Ok; [apply Hlast|]. change (negb (IO_SUCCESS =? IO_SUCCESS)) with false. cbv iota. rewrite (bind_Ok _ _ _ _ _ Hrun).
    reflexivity.
Qed.

(** ** A part of a block *)

Lemma block_arith (pos n : Z) : 0 <= pos → 0 < n → pos mod bs + n <= bs →
  pos = pos / bs * bs + pos mod bs ∧ 0 <= pos mod bs < bs ∧ (pos + n - 1) / bs = pos / bs ∧ 0 <= pos / bs.
Proof.
  intros Hp Hn Hb. pose proof (Z.div_mod pos bs ltac:(lia)). pose proof (Z.mod_pos_bound pos bs Hbs). split_and!; try lia.
  - symmetry. apply (Z.div_unique_pos _ _ _ (pos mod bs + n - 1)); lia.
  - by apply Z.div_pos.
Qed.

Lemma file_in_32 (k : Z) : 0 <= k <= count → 0 <= k * bs ∧ region + k * bs <= 2 ^ 32 ∧ 0 <= region
  ∧ region + k * bs = block_addr (first + k).
Proof. intros Hk. rewrite Hreg. unfold block_addr. split_and!; nia. Qed.

(** The buffer for a block after a part of the block was written *)
Definition staged (pos n : Z) (data l bb : list Z) : list Z :=
  splice (pos mod bs) (take (Z.to_nat n) data) (splice 0 (slice ((first + pos / bs) * bs) bs l) bb).

Lemma staged_block (pos n : Z) (data l bb : list Z) : 0 <= pos → 0 < n <= zlen data → pos mod bs + n <= bs → pos / bs < count →
  zlen l = blocks * bs → bs <= zlen bb →
  zlen (staged pos n data l bb) = zlen bb
  ∧ splice ((first + pos / bs) * bs) (take (Z.to_nat bs) (staged pos n data l bb)) l
    = splice (first * bs + pos) (take (Z.to_nat n) data) l.
Proof.
  intros Hp Hn Hfit Hc Hl Hbb. destruct (block_arith pos n Hp ltac:(lia) Hfit) as (Hpos & Hm & _ & Hd0).
  pose proof (zlen_take_le n data ltac:(lia)) as Ht. set (b := first + pos / bs).
  assert (0 <= b * bs ∧ b * bs + bs <= zlen l) as [Hb0 Hb1] by (subst b; split; nia).
  pose proof (length_slice (b * bs) bs l Hb0 ltac:(lia) Hb1) as Hs. unfold staged. fold b. split.
  - rewrite !zlen_splice; rewrite ?zlen_splice; lia.
  - replace (splice 0 (slice (b * bs) bs l) bb) with (slice (b * bs) bs l ++ drop (Z.to_nat bs) bb).
    2: { unfold splice. change (Z.to_nat 0) with 0%nat. rewrite take_0. cbn [app Nat.add]. unfold zlen in Hs. do 2 f_equal. lia. }
    rewrite splice_prefix by lia. rewrite take_app_le by (pose proof (zlen_splice (pos mod bs) (take (Z.to_nat n) data) (slice (b * bs) bs l)); unfold zlen in *; lia).
    rewrite take_ge by (pose proof (zlen_splice (pos mod bs) (take (Z.to_nat n) data) (slice (b * bs) bs l)); unfold zlen in *; lia).
    rewrite splice_in_slice by lia. f_equal. subst b. lia.
Qed.

Context (HBB : BB mod 4 = 0) (HNB : bs <= NB).

Lemma staged_bytes (pos n : Z) (data l bb : list Z) : Forall (λ x, 0 <= x < 256) data → Forall (λ x, 0 <= x < 256) l →
  Forall (λ x, 0 <= x < 256) bb → Forall (λ x, 0 <= x < 256) (staged pos n data l bb).
Proof. intros Hd Hl Hb. unfold staged, splice, slice. repeat first [apply Forall_app; split|apply Forall_take|apply Forall_drop|done]. Qed.

Lemma partial_write_run (fp : file_state_t) (pos n : Z) (data l : list Z) (p z : Z → bool) (s : state) :
  block_spec fp = Some sp → 0 <= pos → 0 < n <= zlen data → pos mod bs + n <= bs → pos / bs < count →
  zlen l = blocks * bs → zlen (block_buffer s) = NB →
  Forall (λ x, 0 <= x < 256) data → Forall (λ x, 0 <= x < 256) l → Forall (λ x, 0 <= x < 256) (block_buffer s) →
  let b := first + pos / bs in
  flash_partial_write fuel NB BB fp pos data n (set_chip s (Idle l p z MArray))
  = Ok (if writable b p z then (IO_SUCCESS, Some n) else (IO_FAIL, None),
        set_chip (set_buffer s (staged pos n data l (block_buffer s)))
          (Idle (if writable b p z then splice (first * bs + pos) (take (Z.to_nat n) data) l else l) (relocked b p z) z MArray)).
Proof.
  intros Hfp Hp Hn Hfit Hc Hl Hbb Hbd Hbl Hbb8 b. destruct (block_arith pos n Hp ltac:(lia) Hfit) as (Hpos & Hm & Hlast & Hd0).
  destruct (staged_block pos n data l (block_buffer s) Hp Hn Hfit Hc Hl ltac:(lia)) as [Hlen Hcells].
  destruct (file_in_32 (pos / bs) ltac:(lia)) as (Hk0 & Hk1 & Hr0 & Hra). destruct (file_in_32 (pos / bs + 1) ltac:(lia)) as (_ & Hk2 & _ & _).
  change (2 ^ 32) with 4294967296 in *.
  unfold flash_partial_write, the_spec. rewrite Hfp. erewrite bind_Ok by reflexivity. cbn [block_size region_address sp].
  rewrite (proj2 (Z.eqb_neq bs 0)), (proj2 (Z.leb_le bs NB)) by lia. do 2 erewrite bind_Ok by reflexivity.
  rewrite (u64_small (pos + n - 1)), Hlast, Z.eqb_refl by (unfold UINT64_MAX; nia). erewrite bind_Ok by reflexivity.
  rewrite u64_small by (unfold UINT64_MAX; lia). rewrite Hra. fold b.
  assert (inside (block_addr b) bs = true) as Hi.
  { rewrite <- (Z.add_0_r (block_addr b)). apply inside_block; subst b; lia. }
  erewrite bind_Ok. 2: { unfold on_chip, flash_copy, flash_hw. cbn [chip set_chip]. rewrite Hi. reflexivity. }
  replace (block_addr b - dev) with (b * bs) by (unfold block_addr; lia).
  do 2 erewrite bind_Ok by reflexivity. rewrite (proj2 (Z.leb_le n _)) by lia. do 2 erewrite bind_Ok by reflexivity. cbn [block_buffer set_buffer set_chip cells].
  assert (zlen (splice 0 (slice (b * bs) bs l) (block_buffer s)) = NB) as Hcopy.
  { rewrite zlen_splice; [done|lia|]. rewrite length_slice by (subst b; nia). lia. }
  rewrite Hcopy, (proj2 (Z.leb_le _ NB)) by lia. do 3 erewrite bind_Ok by reflexivity. cbn [block_buffer set_buffer].
  change (splice (pos mod bs) (take (Z.to_nat n) data) (splice 0 (slice (b * bs) bs l) (block_buffer s))) with (staged pos n data l (block_buffer s)).
  rewrite u32_small by (unfold UINT32_MAX; lia).
  pose proof (block_write_run fp (pos / bs) BB (staged pos n data l (block_buffer s)) l p z
    (set_buffer s (staged pos n data l (block_buffer s))) Hfp ltac:(lia) Hl ltac:(lia) ltac:(by apply staged_bytes)) as Hrun. fold b in Hrun.
  erewrite bind_Ok by exact Hrun. unfold block_result, block_cells. rewrite HBB, Z.eqb_refl. subst b.
  destruct (writable _ p z); [by rewrite Hcells|done].
Qed.

(** ** The whole of a write *)

Context (e : Z) (He : 0 <= e) (Hpow : bs = 2 ^ e).

Lemma aligned_test (pos : Z) : IS_FLASH_ADDRESS_BLOCK_ALIGNED sp pos = (pos mod bs =? 0).
Proof.
  unfold IS_FLASH_ADDRESS_BLOCK_ALIGNED. cbn [block_size sp]. rewrite u32_small by (unfold UINT32_MAX; nia). rewrite Hpow.
  by rewrite land_mask.
Qed.

(** One round: as much as fits into the block is written. *)
Definition write_round (fp : file_state_t) (pos baddr : Z) (buffer : list Z) : M state (Z * option Z) :=
  if IS_FLASH_ADDRESS_BLOCK_ALIGNED sp pos then
    if 0 <? zlen buffer / bs then flash_block_write fuel fp (u32 pos) baddr buffer
    else flash_partial_write fuel NB BB fp (u32 pos) buffer (zlen buffer)
  else
    let remaining_block_size := u32 (bs - pos mod bs) in
    if zlen buffer <? remaining_block_size then flash_partial_write fuel NB BB fp (u32 pos) buffer (zlen buffer)
    else flash_partial_write fuel NB BB fp (u32 pos) buffer remaining_block_size.

Lemma bs_mod_4 : bs mod 4 = 0.
Proof.
  rewrite (Z.div_mod bs 128), Hbs128, Z.add_0_r by lia. replace (128 * (bs / 128)) with (32 * (bs / 128) * 4) by lia.
  apply Z.mod_mul. lia.
Qed.

Lemma mod_4_aligned (pos : Z) : pos mod bs = 0 → pos mod 4 = 0.
Proof.
  intros Hm. rewrite (Z.div_mod pos bs), Hm, Z.add_0_r, Z.mul_mod, bs_mod_4 by lia. done.
Qed.

Definition bytes (l : list Z) : Prop := Forall (λ x, 0 <= x < 256) l.

(** The state of driver and flash between the rounds *)
Definition ready (s : state) (l : list Z) (p z : Z → bool) : Prop :=
  chip s = Idle l p z MArray ∧ zlen (block_buffer s) = NB ∧ bytes (block_buffer s) ∧ zlen l = blocks * bs ∧ bytes l.

Lemma splice_bytes (off : Z) (d l : list Z) : bytes d → bytes l → bytes (splice off d l).
Proof. intros Hd Hl. unfold bytes, splice. repeat first [apply Forall_app; split|apply Forall_take|apply Forall_drop|done]. Qed.

Lemma chip_eta (s : state) (f : flash) : chip s = f → s = set_chip s f.
Proof. destruct s; cbn. by intros ->. Qed.

(** What a round leaves in the array, and its result *)
Definition round_cells (b pos n : Z) (buffer l : list Z) (p z : Z → bool) : list Z :=
  if writable b p z then splice (first * bs + pos) (take (Z.to_nat n) buffer) l else l.
Definition round_result (b n : Z) (p z : Z → bool) : Z * option Z :=
  if writable b p z then (IO_SUCCESS, Some n) else (IO_FAIL, None).

Lemma full_block_run (fp : file_state_t) (pos baddr : Z) (buffer l : list Z) (p z : Z → bool) (s : state) :
  block_spec fp = Some sp → 0 <= pos / bs < count → 0 < zlen buffer / bs → (baddr - pos) mod 4 = 0 → pos mod bs = 0 →
  bytes buffer → zlen l = blocks * bs →
  let b := first + pos / bs in
  bs <= zlen buffer ∧ flash_block_write fuel fp pos baddr buffer (set_chip s (Idle l p z MArray))
  = Ok (round_result b bs p z, set_chip s (Idle (round_cells b pos bs buffer l p z) (relocked b p z) z MArray)).
Proof.
  intros Hfp Hk Hfull Hal4 H0 Hby Hl b. pose proof (Z.div_mod pos bs ltac:(lia)) as Hdm. assert (bs <= zlen buffer) as Hbig.
  { destruct (Z.le_gt_cases bs (zlen buffer)); [done|]. rewrite Z.div_small in Hfull; [lia|]. pose proof (zlen_nonneg buffer). lia. }
  split; [done|]. replace pos with (pos / bs * bs) at 1 by lia. rewrite block_write_run by (done || lia). fold b.
  assert (baddr mod 4 = 0) as Hba.
  { replace baddr with (baddr - pos + pos) by lia. rewrite Z.add_mod, Hal4, (mod_4_aligned pos H0) by lia. done. }
  unfold block_result, block_cells, round_result, round_cells. rewrite Hba, Z.eqb_refl, andb_true_r.
  destruct (writable b p z); [|done]. replace (b * bs) with (first * bs + pos) by (subst b; lia). done.
Qed.

Lemma write_round_run (fp : file_state_t) (pos baddr : Z) (buffer l : list Z) (p z : Z → bool) (s : state) :
  block_spec fp = Some sp → 0 <= pos → 0 < zlen buffer → pos + zlen buffer <= count * bs → (baddr - pos) mod 4 = 0 →
  bytes buffer → ready s l p z →
  let b := first + pos / bs in let n := Z.min (zlen buffer) (bs - pos mod bs) in
  ∃ s', write_round fp pos baddr buffer s = Ok (round_result b n p z, s')
    ∧ ready s' (round_cells b pos n buffer l p z) (relocked b p z) z ∧ current_file s' = current_file s.
Proof.
  intros Hfp Hp Hlen Hend Hal4 Hby (Hs & Hbb & Hbb8 & Hl & Hl8) b n.
  pose proof (Z.div_mod pos bs ltac:(lia)) as Hdm. pose proof (Z.mod_pos_bound pos bs Hbs) as Hm.
  assert (pos / bs < count) as Hk by (apply Z.div_lt_upper_bound; lia). assert (0 <= pos / bs) as Hk0 by (apply Z.div_pos; lia).
  destruct (file_in_32 count ltac:(lia)) as (_ & Htop32 & Hr0 & _). change (2 ^ 32) with 4294967296 in *.
  rewrite (chip_eta s _ Hs). unfold write_round. rewrite aligned_test, (u32_small pos) by (unfold UINT32_MAX; lia).
  assert (bytes (round_cells b pos n buffer l p z) ∧ zlen (round_cells b pos n buffer l p z) = blocks * bs) as [Hc1 Hc2].
  { unfold round_cells. destruct (writable b p z); split; try done; [apply splice_bytes; [by apply Forall_take|done]|].
    rewrite zlen_splice; rewrite ?zlen_take_le; subst n; nia. }
  destruct (staged_block pos n buffer l (block_buffer s) Hp ltac:(subst n; lia) ltac:(subst n; lia) Hk Hl ltac:(lia)) as [Hst _].
  assert (bytes (staged pos n buffer l (block_buffer s))) as Hst8 by (by apply staged_bytes).
  assert (∀ k, k = n → ∃ s', flash_partial_write fuel NB BB fp pos buffer k (set_chip s (Idle l p z MArray))
    = Ok (round_result b n p z, s') ∧ ready s' (round_cells b pos n buffer l p z) (relocked b p z) z
    ∧ current_file s' = current_file s) as Hpart.
  { intros k ->. eexists. split; [apply partial_write_run; try done; subst n; lia|].
    split; [|done]. split_and!; cbn; congruence || done. }
  assert (bs <= 4294967296) as Hbs32 by nia.
  destruct (Z.eqb_spec (pos mod bs) 0) as [H0|H0]; [destruct (Z.ltb_spec 0 (zlen buffer / bs)) as [Hf|Hf]
    |rewrite (u32_small (bs - pos mod bs)) by (unfold UINT32_MAX; lia); destruct (Z.ltb_spec (zlen buffer) (bs - pos mod bs))].
  - destruct (full_block_run fp pos baddr buffer l p z s) as [Hbig Hrun]; try done. replace n with bs in * by (subst n; lia).
    eexists. split; [exact Hrun|]. done.
  - apply Hpart. subst n. destruct (Z.le_gt_cases bs (zlen buffer)) as [Hle|]; [|lia].
    pose proof (Z.div_le_mono bs (zlen buffer) bs Hbs Hle) as Hd. rewrite Z.div_same in Hd; lia.
  - apply Hpart. subst n. lia.
  - apply Hpart. subst n. lia.
Qed.

(** The protection after bytes of blocks [lo .. hi] were written *)
Definition guarded (some : bool) (lo hi : Z) (p z : Z → bool) : Z → bool :=
  λ c, if some && (lo <=? c) && (c <=? hi) then if z c then p c else true else p c.

(** What a write of [buffer] at [pos] comes to: [w] bytes were written, all of
    them or up to a block that is locked down. *)
Definition write_outcome (pos : Z) (buffer l : list Z) (p z : Z → bool) (r w : Z) (s s' : state) : Prop :=
  0 <= w <= zlen buffer
  ∧ (∀ i, 0 <= i < w → writable (first + (pos + i) / bs) p z = true)
  ∧ (if w =? zlen buffer then r = IO_SUCCESS else r = IO_FAIL ∧ writable (first + (pos + w) / bs) p z = false)
  ∧ (∃ p', ready s' (splice (first * bs + pos) (take (Z.to_nat w) buffer) l) p' z
       ∧ ∀ c, p' c = guarded (0 <? w) (first + pos / bs) (first + (pos + w - 1) / bs) p z c)
  ∧ current_file s' = current_file s.

Lemma writable_relocked (b c : Z) (p z : Z → bool) : writable c (relocked b p z) z = writable c p z.
Proof. unfold writable. rewrite relocked_at. destruct (Z.eqb_spec c b) as [->|]; [|done]. destruct (z b); [done|]. by rewrite !andb_false_r. Qed.

Lemma div_next (pos n : Z) : 0 <= pos → n = bs - pos mod bs → (pos + n) / bs = pos / bs + 1.
Proof.
  intros Hp ->. pose proof (Z.div_mod pos bs ltac:(lia)). symmetry. apply (Z.div_unique_pos _ _ _ 0); lia.
Qed.

(** A round followed by the rest of the write *)
Lemma outcome_next (pos : Z) (buffer l : list Z) (p z : Z → bool) (r w : Z) (s s1 s' : state) :
  let b := first + pos / bs in let n := Z.min (zlen buffer) (bs - pos mod bs) in
  0 <= pos → 0 < zlen buffer → pos + zlen buffer <= count * bs → zlen l = blocks * bs →
  writable b p z = true → current_file s1 = current_file s →
  write_outcome (pos + n) (drop (Z.to_nat n) buffer) (round_cells b pos n buffer l p z) (relocked b p z) z r w s1 s' →
  write_outcome pos buffer l p z r (n + w) s s'.
Proof.
  intros b n Hp Hlen Hend Hl Hw Hcf (Hwr & Hall & Hres & (p' & Hready & Hp') & Hcf').
  pose proof (Z.mod_pos_bound pos bs Hbs) as Hm. assert (0 < n <= zlen buffer) as Hn by (subst n; lia).
  destruct (block_arith pos n Hp ltac:(lia) ltac:(subst n; lia)) as (Hpos & _ & Hlast & Hd0).
  assert (zlen (drop (Z.to_nat n) buffer) = zlen buffer - n) as Hdrop by (unfold zlen in *; rewrite length_drop; lia).
  rewrite Hdrop in *. unfold write_outcome. split_and!; [lia|lia|..].
  - intros i Hi. destruct (Z.lt_ge_cases i n) as [Hlt|Hge].
    + destruct (block_arith pos (i + 1) Hp ltac:(lia) ltac:(subst n; lia)) as (_ & _ & Hd & _).
      replace (pos + (i + 1) - 1) with (pos + i) in Hd by lia. by rewrite Hd.
    + specialize (Hall (i - n) ltac:(lia)). rewrite writable_relocked in Hall. by replace (pos + n + (i - n)) with (pos + i) in Hall by lia.
  - rewrite writable_relocked in Hres. replace (pos + (n + w)) with (pos + n + w) by lia.
    by replace (n + w =? zlen buffer) with (w =? zlen buffer - n) by (apply eq_true_iff_eq; rewrite !Z.eqb_eq; lia).
  - exists p'. split.
    + rewrite take_take_drop by lia. unfold round_cells in Hready. rewrite Hw in Hready.
      rewrite (splice_app _ n) by (rewrite ?zlen_take_le; rewrite ?Hdrop; nia). by rewrite <- Z.add_assoc.
    + intros c. rewrite Hp'. unfold guarded. rewrite !relocked_at. fold b. rewrite (proj2 (Z.ltb_lt 0 (n + w))) by lia.
      destruct (Z.ltb_spec 0 w).
      * rewrite div_next by (done || (subst n; lia)). replace (pos + (n + w) - 1) with (pos + n + w - 1) by lia.
        assert (pos / bs + 1 <= (pos + n + w - 1) / bs).
        { rewrite <- (div_next pos n) by (done || (subst n; lia)). apply Z.div_le_mono; lia. }
        clear Hp' Hres. subst b. destruct (Z.eqb_spec c (first + pos / bs)) as [->|]; repeat case_Z; cbn; first [done|lia|by destruct (z _)].
      * replace (n + w) with n by lia. rewrite Hlast. fold b. cbn [andb].
        clear Hp' Hres. subst b. destruct (Z.eqb_spec c (first + pos / bs)) as [->|]; repeat case_Z; cbn; first [done|lia|by destruct (z _)].
  - congruence.
Qed.

Lemma write_loop_unfold (fp : file_state_t) (baddr pos written : Z) (buffer : list Z) (k : nat) (s : state) : 0 < zlen buffer →
  write_loop fuel NB BB fp sp baddr (S k) pos buffer written s
  = (r ← write_round fp pos baddr buffer;
     match r with
     | (ret, Some n) =>
         if ret =? IO_SUCCESS
         then write_loop fuel NB BB fp sp (u64 (baddr + n)) k (u64 (pos + n)) (drop (Z.to_nat n) buffer) (written + n)
         else mret (ret, written)
     | (ret, None) => mret (ret, written)
     end) s.
Proof.
  intros Hl. cbn [write_loop]. rewrite (proj2 (Z.eqb_neq (zlen buffer) 0)) by lia. cbn [block_size sp].
  rewrite (proj2 (Z.eqb_neq bs 0)) by lia. by erewrite bind_Ok by reflexivity.
Qed.

Lemma write_loop_run (fp : file_state_t) (k : nat) (baddr pos written : Z) (buffer l : list Z) (p z : Z → bool) (s : state) :
  block_spec fp = Some sp → 0 <= pos → pos + zlen buffer <= count * bs → (baddr - pos) mod 4 = 0 →
  0 <= baddr → baddr + zlen buffer <= UINT64_MAX → bytes buffer → ready s l p z → zlen buffer <= Z.of_nat k →
  ∃ r w s', write_loop fuel NB BB fp sp baddr k pos buffer written s = Ok (r, written + w, s')
    ∧ write_outcome pos buffer l p z r w s s'.
Proof.
  intros Hfp. revert baddr pos written buffer l p s.
  induction k as [|k IH]; intros baddr pos written buffer l p s Hp Hend Hal4 Hb0 Hb64 Hby Hrdy Hk.
  all: destruct (decide (zlen buffer = 0)) as [H0|H0];
    [exists IO_SUCCESS, 0, s; rewrite Z.add_0_r; split; [cbn; by rewrite (proj2 (Z.eqb_eq _ _) H0)|];
     split_and!; try lia; [by rewrite H0|exists p; split; [cbn; by rewrite splice_nil|done]|done]|].
  all: pose proof (zlen_nonneg buffer); try lia.
  rewrite write_loop_unfold by lia. set (b := first + pos / bs). set (n := Z.min (zlen buffer) (bs - pos mod bs)).
  destruct (write_round_run fp pos baddr buffer l p z s) as (s1 & Hr & Hrdy1 & Hcf); try done; try lia. fold b n in Hr, Hrdy1.
  rewrite (bind_Ok _ _ _ _ _ Hr). pose proof (Z.mod_pos_bound pos bs Hbs) as Hm. unfold round_result.
  destruct (writable b p z) eqn:Hw.
  - change (IO_SUCCESS =? IO_SUCCESS) with true. cbv iota.
    destruct (file_in_32 count ltac:(nia)) as (_ & Htop32 & Hr0 & _). change (2 ^ 32) with 4294967296 in *.
    rewrite !u64_small by (unfold UINT64_MAX in *; subst n; lia).
    assert (zlen (drop (Z.to_nat n) buffer) = zlen buffer - n) as Hdrop by (unfold zlen in *; rewrite length_drop; subst n; lia).
    destruct (IH (baddr + n) (pos + n) (written + n) (drop (Z.to_nat n) buffer) (round_cells b pos n buffer l p z) (relocked b p z) s1)
      as (r & w & s' & Hrun & Hout); rewrite ?Hdrop; try (subst n; lia); [by replace (baddr + n - (pos + n)) with (baddr - pos) by lia|by apply Forall_drop|done|].
    exists r, (n + w), s'. rewrite Z.add_assoc. split; [done|]. apply (outcome_next _ _ _ _ _ _ _ s s1); try done; [lia|by destruct Hrdy as (_ & _ & _ & ? & _)].
  - exists IO_FAIL, 0, s1. rewrite Z.add_0_r. split; [done|]. unfold round_cells in Hrdy1. rewrite Hw in Hrdy1.
    split_and!; try lia; [|exists (relocked b p z); split|done].
    + rewrite (proj2 (Z.eqb_neq 0 _)) by lia. rewrite Z.add_0_r. done.
    + cbn. by rewrite splice_nil.
    + intros c. rewrite relocked_at. cbn. destruct (Z.eqb_spec c b) as [->|]; [|done].
      unfold writable in Hw. apply negb_false_iff, andb_true_iff in Hw as [-> ->]. done.
Qed.

(** ** The operations on the open file *)

(** The file of the driver, opened at [pos] *)
Definition file_at (pos : Z) : file_state_t :=
  {| in_use := true; base := region; file_pos := pos; block_spec := Some sp |}.

Lemma flash_fp_run (s : state) (pos : Z) : current_file s = file_at pos → flash_fp s = Ok (file_at pos, s).
Proof. intros Hf. unfold flash_fp. erewrite bind_Ok by reflexivity. by rewrite Hf. Qed.

Lemma put_pos_run (s : state) (pos pos' : Z) : current_file s = file_at pos → put_pos pos' s = Ok (tt, set_file s (file_at pos')).
Proof. intros Hf. unfold put_pos. erewrite bind_Ok by reflexivity. by rewrite Hf. Qed.

Lemma file_eta (s : state) : s = set_file s (current_file s).
Proof. by destruct s. Qed.

Lemma nor_write_run (baddr pos : Z) (data l : list Z) (p z : Z → bool) (s : state) :
  current_file s = file_at pos → ready s l p z → 0 <= pos → pos + zlen data <= count * bs → (baddr - pos) mod 4 = 0 →
  0 <= baddr → baddr + zlen data <= UINT64_MAX → bytes data →
  ∃ r w s', flash_write fuel NB BB baddr data s = Ok (r, w, s') ∧ write_outcome pos data l p z r w s s'.
Proof.
  intros Hf Hr Hp Hend Hal4 Hb0 Hb64 Hby. unfold flash_write. rewrite (bind_Ok _ _ _ _ _ (flash_fp_run s pos Hf)).
  unfold the_spec. erewrite bind_Ok by reflexivity.
  destruct (write_loop_run (file_at pos) (length data) baddr pos 0 data l p z s) as (r & w & s' & Hrun & Hout); try done.
  rewrite (bind_Ok _ _ _ _ _ Hrun). exists r, w, s'. split; [|done]. cbn [fst]. destruct Hout as (_ & _ & _ & _ & Hcf).
  rewrite Hf in Hcf. destruct (r =? IO_SUCCESS).
  - rewrite (bind_Ok _ _ _ _ _ (put_pos_run s' pos (file_pos (file_at pos)) Hcf)). cbn [file_pos file_at].
    pose proof (file_eta s') as He'. rewrite Hcf in He'. by rewrite <- He'.
  - done.
Qed.

Context (Hsize : count * bs < 2 ^ 32).

Lemma seek_start (s : state) (pos off : Z) (md : io_seek_mode_t) (r : outcome (Z * state)) : current_file s = file_at pos →
  (match md with
   | IO_SEEK_SET => if (0 <=? off) && (u64 off <? count * bs) then Ok (IO_SUCCESS, set_file s (file_at (u64 off))) else Ok (IO_FAIL, s)
   | IO_SEEK_END =>
       if off <=? 0 then Ok (IO_SUCCESS, set_file s (file_at (u64 (region + count * bs + off)))) else Ok (IO_FAIL, s)
   | IO_SEEK_CUR =>
       if (region <=? u64 (pos + off)) && (u64 (pos + off) <? u64 (region + count * bs))
       then Ok (IO_SUCCESS, set_file s (file_at (u64 (pos + off)))) else Ok (IO_FAIL, s)
   | IO_SEEK_INVALID => Ok (IO_FAIL, s)
   end) = r → 0 <= count → flash_seek md off s = r.
Proof.
  intros Hf <- Hc. unfold flash_seek. rewrite (bind_Ok _ _ _ _ _ (flash_fp_run s pos Hf)). unfold the_spec. cbn [block_spec file_at].
  erewrite bind_Ok by reflexivity. cbn [block_count block_size region_address file_pos file_at sp].
  rewrite (u32_small (count * bs)) by (unfold UINT32_MAX; nia). rewrite (proj2 (Z.leb_le 0 (u64 _))) by apply u64_range. rewrite andb_true_r.
  destruct md; try done; lazymatch goal with |- _ = (if ?c then _ else _) => destruct c end; try done;
    by rewrite (bind_Ok _ _ _ _ _ (put_pos_run s pos _ Hf)).
Qed.

Lemma seek_set_run (s : state) (pos pos' : Z) : current_file s = file_at pos → 0 <= pos' < count * bs →
  flash_seek IO_SEEK_SET pos' s = Ok (IO_SUCCESS, set_file s (file_at pos')).
Proof.
  intros Hf Hp. apply (seek_start s pos); [done| |nia]. change (2 ^ 32) with 4294967296 in Hsize.
  rewrite u64_small by (unfold UINT64_MAX; lia). by rewrite (proj2 (Z.leb_le 0 pos')), (proj2 (Z.ltb_lt pos' _)) by lia.
Qed.

Lemma read_ready (s : state) (pos n : Z) (l : list Z) (p z : Z → bool) : current_file s = file_at pos → ready s l p z →
  0 <= pos → 0 <= n → pos + n <= count * bs →
  flash_read n s = Ok (IO_SUCCESS, slice (first * bs + pos) n l, set_file s (file_at (pos + n))).
Proof.
  intros Hf (Hc & _) Hp Hn Hend. destruct (file_in_32 count ltac:(nia)) as (_ & Htop32 & Hr0 & _). change (2 ^ 32) with 4294967296 in *.
  unfold flash_read. rewrite (bind_Ok _ _ _ _ _ (flash_fp_run s pos Hf)). cbn [base file_pos file_at].
  rewrite !u64_small by (unfold UINT64_MAX; lia).
  assert (inside (region + pos) n = true) as Hi.
  { unfold inside. rewrite Hreg. unfold block_addr. apply andb_true_iff. split; apply Z.leb_le; nia. }
  erewrite bind_Ok. 2: { unfold on_chip, flash_copy, flash_hw. rewrite Hc, Hi. cbn [in_mode]. reflexivity. }
  rewrite <- (chip_eta s _ Hc). erewrite bind_Ok by (by apply (put_pos_run s pos)). cbn [cells].
  replace (region + pos - dev) with (first * bs + pos) by (rewrite Hreg; unfold block_addr; lia). done.
Qed.

(** ** The theorems *)



(** C27: Round trip: what is written to the flash through open, seek and write is
    read back through seek and read, if no block of the range is locked down;
    the rest of the array is as before. *)
Theorem nor_write_read (baddr pos : Z) (data l : list Z) (p z : Z → bool) (s : state) :
  in_use (current_file s) = false → ready s l p z → 0 <= pos → pos + zlen data <= count * bs → 0 < zlen data →
  (baddr - pos) mod 4 = 0 → 0 <= baddr → baddr + zlen data <= UINT64_MAX → bytes data →
  (∀ i, 0 <= i < zlen data → writable (first + (pos + i) / bs) p z = true) →
  ∃ s' p', (o ← flash_open sp; k ← flash_seek IO_SEEK_SET pos; w ← flash_write fuel NB BB baddr data;
            k' ← flash_seek IO_SEEK_SET pos; r ← flash_read (zlen data); c ← flash_close;
            mret (o, k, w, k', r, c)) s
    = Ok (IO_SUCCESS, IO_SUCCESS, (IO_SUCCESS, zlen data), IO_SUCCESS, (IO_SUCCESS, data), IO_SUCCESS, s')
    ∧ current_file s' = no_file ∧ ready s' (splice (first * bs + pos) data l) p' z.
Proof.
  intros Huse Hrdy Hp Hend Hlen Hal4 Hb0 Hb64 Hby Hall. set (s1 := set_file s (file_at 0)).
  assert (flash_open sp s = Ok (IO_SUCCESS, s1)) as Ho.
  { unfold flash_open. erewrite bind_Ok by reflexivity. by rewrite Huse. }
  rewrite (bind_Ok _ _ _ _ _ Ho), (bind_Ok _ _ _ _ _ (seek_set_run s1 0 pos eq_refl ltac:(lia))).
  destruct (nor_write_run baddr pos data l p z (set_file s1 (file_at pos))) as (r & w & s2 & Hw & Hr & Hpre & Hres & (p' & Hrdy2 & _) & Hcf); try done.
  destruct (Z.eqb_spec w (zlen data)) as [->|Hne]; [subst r|].
  2: { destruct Hres as [_ Hbad]. rewrite Hall in Hbad by lia. done. }
  rewrite (bind_Ok _ _ _ _ _ Hw), (bind_Ok _ _ _ _ _ (seek_set_run s2 pos pos Hcf ltac:(lia))).
  replace (take (Z.to_nat (zlen data)) data) with data in Hrdy2 by (unfold zlen; by rewrite Nat2Z.id, firstn_all).
  rewrite (bind_Ok _ _ _ _ _ (read_ready (set_file s2 (file_at pos)) pos (zlen data) _ p' z eq_refl Hrdy2 Hp ltac:(lia) Hend)).
  rewrite slice_splice_eq by (destruct Hrdy as (_ & _ & _ & ? & _); nia). eexists _, p'. split; [reflexivity|]. done.
Qed.

(** A seek relative to the end succeeds for every offset that is not positive
    but stores an address, not a position, so that the read that follows is
    outside the flash if the file lies at its end, and a seek relative to the
    current position compares it with the address of the file, so that it
    fails for all positions of a file that lies above its own size. *)
Theorem nor_seek_relative (s : state) (pos off n : Z) : current_file s = file_at pos → 0 <= pos < count * bs → 0 < n →
  (- count * bs <= off <= 0 → dev + blocks * bs < 2 * region + count * bs + off + n →
    (flash_seek IO_SEEK_END off;; flash_read n) s = Stop OutOfBounds)
  ∧ (0 <= pos + off < count * bs → count * bs <= region → flash_seek IO_SEEK_CUR off s = Ok (IO_FAIL, s)).
Proof.
  intros Hf Hpos Hn. destruct (file_in_32 count ltac:(nia)) as (_ & Htop32 & Hr0 & _). change (2 ^ 32) with 4294967296 in *. split.
  - intros Hoff Hbig. rewrite (bind_Ok _ _ s (set_file s (file_at (region + count * bs + off))) IO_SUCCESS).
    2: { apply (seek_start s pos); [done| |nia]. rewrite u64_small by (unfold UINT64_MAX; lia). by rewrite (proj2 (Z.leb_le off 0)) by lia. }
    unfold flash_read. erewrite bind_Ok by (by apply flash_fp_run). cbn [base file_pos file_at].
    rewrite (u64_small (region + (region + count * bs + off))) by (unfold UINT64_MAX; lia). unfold mbind, M_bind, on_chip, flash_copy, flash_hw.
    replace (inside _ n) with false; [done|]. symmetry. unfold inside. apply andb_false_iff. right. apply Z.leb_gt. lia.
  - intros Hoff Hbig. apply (seek_start s pos); [done| |nia]. rewrite !u64_small by (unfold UINT64_MAX; lia).
    by rewrite (proj2 (Z.leb_gt region _)) by lia.
Qed.

End Flash.

(** ** A flash of four blocks of 128 bytes *)

Module SampleNor.

Definition dev : Z := 0x08000000.
Definition wait (f : flash) : nat := 2.
Definition region : Z := dev + 128.
Definition spec : io_nor_flash_spec_t := NorSpec.sp dev 128 region 3.
Definition array : list Z := (λ i, i mod 256) <$> seqZ 0 512.
Definition all_locked (b : Z) : bool := true.
Definition last_sealed (b : Z) : bool := b =? 3.
Definition chip0 : flash := Flash array all_locked last_sealed MArray 0 0.
Definition closed : nor_state flash := {| chip := chip0; current_file := no_file; block_buffer := replicate 128 0 |}.
Definition opened_at (pos : Z) : nor_state flash := set_file closed (file_at dev 128 region 3 pos).
Definition text : list Z := (λ i, (7 * i + 3) mod 256) <$> seqZ 0 150.

#[local] Instance chip_hw : NorHw flash := flash_hw dev 128 4 wait wait.

Lemma bytes_check (l : list Z) : forallb (λ x, (0 <=? x) && (x <? 256)) l = true → bytes l.
Proof.
  intros Hl. apply Forall_forall. intros x Hx. rewrite forallb_forall in Hl. specialize (Hl x (proj1 (list_elem_of_In _ _) Hx)). cbn in Hl.
  apply andb_true_iff in Hl as [H1 H2]. apply Z.leb_le in H1. apply Z.ltb_lt in H2. done.
Qed.

Lemma ready_closed : ready 128 4 128 closed array all_locked last_sealed.
Proof. split_and!; try done; by apply bytes_check. Qed.

Ltac geometry := first [done | vm_compute; lia | intros; vm_compute; lia | vm_compute; reflexivity].



Lemma nor_write_read_witness :
  ∃ s' p', (o ← flash_open spec; k ← flash_seek IO_SEEK_SET 90; w ← flash_write 5 128 0x2000 0x1002 text;
            k' ← flash_seek IO_SEEK_SET 90; r ← flash_read 150; c ← flash_close; mret (o, k, w, k', r, c)) closed
    = Ok (IO_SUCCESS, IO_SUCCESS, (IO_SUCCESS, 150), IO_SUCCESS, (IO_SUCCESS, text), IO_SUCCESS, s')
    ∧ current_file s' = no_file ∧ ready 128 4 128 s' (splice 218 text array) p' last_sealed.
Proof.
  apply (nor_write_read dev 128 4 wait wait 5 128 0x2000 ltac:(geometry) ltac:(geometry) ltac:(geometry) eq_refl eq_refl ltac:(geometry)
    ltac:(geometry) region 3 ltac:(geometry) 1 eq_refl ltac:(geometry) ltac:(geometry) eq_refl ltac:(geometry) 7 ltac:(geometry) eq_refl
    ltac:(geometry) 0x1002 90 text array all_locked last_sealed closed);
    [done|exact ready_closed|geometry|geometry|geometry|geometry|geometry|geometry|by apply bytes_check|].
  intros i Hi. change (zlen text) with 150 in Hi. unfold writable, last_sealed, all_locked. cbn [andb]. apply negb_true_iff, Z.eqb_neq.
  pose proof (Z.div_lt_upper_bound (90 + i) 128 2 ltac:(lia) ltac:(lia)). lia.
Defined.

Lemma nor_seek_relative_witness :
  (flash_seek IO_SEEK_END (-16);; flash_read 16) (opened_at 40) = Stop OutOfBounds
  ∧ flash_seek IO_SEEK_CUR 8 (opened_at 40) = Ok (IO_FAIL, opened_at 40).
Proof.
  split.
  - by apply (nor_seek_relative dev 128 4 wait wait ltac:(geometry) ltac:(geometry) ltac:(geometry) region 3 ltac:(geometry) 1 eq_refl ltac:(geometry)
      ltac:(geometry) 7 ltac:(geometry) eq_refl ltac:(geometry) (opened_at 40) 40 (-16) 16); geometry.
  - by apply (nor_seek_relative dev 128 4 wait wait ltac:(geometry) ltac:(geometry) ltac:(geometry) region 3 ltac:(geometry) 1 eq_refl ltac:(geometry)
      ltac:(geometry) 7 ltac:(geometry) eq_refl ltac:(geometry) (opened_at 40) 40 8 16); geometry.
Defined.

End SampleNor.
