(* ===== verification/Ffa.v ===== *)
(** * FF-A calls (include/runtime_services/ffa_svc.h, ffa_helpers.h,
    tftf/tests/runtime_services/secure_service/ffa_helpers.c)

    A call passes registers to the partition manager (SPMC) and gets registers
    back.  The manager is a parameter, the class [Spmc]: it also reads the
    buffer the caller sends from (TX) and writes the one it receives into (RX). *)

From S2P Require Import Prelude Bytes.

Local Open Scope Z_scope.

(** ** Function identifiers *)

Definition SMC_64 : Z := 1.
Definition SMC_32 : Z := 0.
Definition SMC_TYPE_FAST : Z := 1.
Definition OEN_STD_START : Z := 4.
Definition FUNCID_TYPE_SHIFT : Z := 31.
Definition FUNCID_CC_SHIFT : Z := 30.
Definition FUNCID_OEN_SHIFT : Z := 24.
Definition FUNCID_NUM_SHIFT : Z := 0.

Definition FFA_FID (smc_cc func_num : Z) : Z :=
  Z.lor (Z.lor (Z.lor (Z.shiftl SMC_TYPE_FAST FUNCID_TYPE_SHIFT) (Z.shiftl smc_cc FUNCID_CC_SHIFT))
               (Z.shiftl OEN_STD_START FUNCID_OEN_SHIFT)) (Z.shiftl func_num FUNCID_NUM_SHIFT).

Definition FFA_ERROR : Z := FFA_FID SMC_32 0x60.
Definition FFA_SUCCESS_SMC32 : Z := FFA_FID SMC_32 0x61.
Definition FFA_VERSION : Z := FFA_FID SMC_32 0x63.
Definition FFA_FEATURES : Z := FFA_FID SMC_32 0x64.
Definition FFA_RX_RELEASE : Z := FFA_FID SMC_32 0x65.
Definition FFA_RXTX_MAP_SMC64 : Z := FFA_FID SMC_64 0x66.
Definition FFA_RXTX_UNMAP : Z := FFA_FID SMC_32 0x67.
Definition FFA_PARTITION_INFO_GET : Z := FFA_FID SMC_32 0x68.
Definition FFA_ID_GET : Z := FFA_FID SMC_32 0x69.
Definition FFA_MSG_WAIT : Z := FFA_FID SMC_32 0x6B.
Definition FFA_MSG_YIELD : Z := FFA_FID SMC_32 0x6C.
Definition FFA_RUN : Z := FFA_FID SMC_32 0x6D.
Definition FFA_MSG_SEND_DIRECT_REQ_SMC32 : Z := FFA_FID SMC_32 0x6F.
Definition FFA_MSG_SEND_DIRECT_RESP_SMC32 : Z := FFA_FID SMC_32 0x70.
Definition FFA_MEM_RETRIEVE_RESP : Z := FFA_FID SMC_32 0x75.
Definition FFA_MEM_RELINQUISH : Z := FFA_FID SMC_32 0x76.
Definition FFA_MEM_RECLAIM : Z := FFA_FID SMC_32 0x77.
Definition FFA_MEM_FRAG_RX : Z := FFA_FID SMC_32 0x7A.
Definition FFA_MEM_FRAG_TX : Z := FFA_FID SMC_32 0x7B.
Definition FFA_NOTIFICATION_BITMAP_CREATE : Z := FFA_FID SMC_32 0x7D.
Definition FFA_NOTIFICATION_BITMAP_DESTROY : Z := FFA_FID SMC_32 0x7E.
Definition FFA_NOTIFICATION_BIND : Z := FFA_FID SMC_32 0x7F.
Definition FFA_NOTIFICATION_UNBIND : Z := FFA_FID SMC_32 0x80.
Definition FFA_NOTIFICATION_SET : Z := FFA_FID SMC_32 0x81.
Definition FFA_NOTIFICATION_GET : Z := FFA_FID SMC_32 0x82.
Definition FFA_SPM_ID_GET : Z := FFA_FID SMC_32 0x85.
Definition FFA_MSG_SEND2 : Z := FFA_FID SMC_32 0x86.
Definition FFA_SUCCESS_SMC64 : Z := FFA_FID SMC_64 0x61.
Definition FFA_MSG_SEND_DIRECT_REQ_SMC64 : Z := FFA_FID SMC_64 0x6F.
Definition FFA_MSG_SEND_DIRECT_RESP_SMC64 : Z := FFA_FID SMC_64 0x70.
Definition FFA_MEM_DONATE_SMC64 : Z := FFA_FID SMC_64 0x71.
Definition FFA_MEM_LEND_SMC64 : Z := FFA_FID SMC_64 0x72.
Definition FFA_MEM_SHARE_SMC64 : Z := FFA_FID SMC_64 0x73.
Definition FFA_MEM_RETRIEVE_REQ_SMC64 : Z := FFA_FID SMC_64 0x74.
Definition FFA_NOTIFICATION_INFO_GET_SMC64 : Z := FFA_FID SMC_64 0x83.
Definition FFA_CONSOLE_LOG_SMC64 : Z := FFA_FID SMC_64 0x8A.
Definition FFA_PARTITION_INFO_GET_REGS_SMC64 : Z := FFA_FID SMC_64 0x8B.

Definition FFA_ERROR_NOT_SUPPORTED : Z := -1.
Definition FFA_PARAM_MBZ : Z := 0.

(** ** Registers *)

Record ffa_value := {
  fid : Z; arg1 : Z; arg2 : Z; arg3 : Z; arg4 : Z; arg5 : Z; arg6 : Z; arg7 : Z; arg8 : Z; arg9 : Z;
  arg10 : Z; arg11 : Z; arg12 : Z; arg13 : Z; arg14 : Z; arg15 : Z; arg16 : Z; arg17 : Z;
}.

(** An initialiser that names the first registers; the others are 0. *)
Definition regs (f a1 a2 a3 a4 a5 a6 a7 : Z) : ffa_value :=
  {| fid := f; arg1 := a1; arg2 := a2; arg3 := a3; arg4 := a4; arg5 := a5; arg6 := a6; arg7 := a7; arg8 := 0; arg9 := 0;
     arg10 := 0; arg11 := 0; arg12 := 0; arg13 := 0; arg14 := 0; arg15 := 0; arg16 := 0; arg17 := 0 |}.

(** [struct ffa_value] as the array of registers that it is in memory *)
Definition reg_list (v : ffa_value) : list Z :=
  [fid v; arg1 v; arg2 v; arg3 v; arg4 v; arg5 v; arg6 v; arg7 v; arg8 v; arg9 v; arg10 v; arg11 v; arg12 v; arg13 v;
   arg14 v; arg15 v; arg16 v; arg17 v].

Definition ffa_func_id (val : ffa_value) : Z := u32 (fid val).
Definition ffa_error_code (val : ffa_value) : Z := s32 (arg2 val).
Definition u16 (x : Z) : Z := wrap 16 x.
Definition ffa_endpoint_id (val : ffa_value) : Z := Z.land (u16 (arg2 val)) 0xffff.
Definition ffa_partition_info_count (val : ffa_value) : Z := u32 (arg2 val).
Definition ffa_partition_info_desc_size (val : ffa_value) : Z := u32 (arg3 val).
Definition ffa_feature_intid (val : ffa_value) : Z := u32 (arg2 val).
Definition ffa_partition_info_regs_get_last_idx (args : ffa_value) : Z := Z.land (arg2 args) 0xFFFF.
Definition ffa_partition_info_regs_get_curr_idx (args : ffa_value) : Z := Z.land (Z.shiftr (arg2 args) 16) 0xFFFF.
Definition ffa_partition_info_regs_get_tag (args : ffa_value) : Z := Z.land (Z.shiftr (arg2 args) 32) 0xFFFF.
Definition ffa_partition_info_regs_get_desc_size (args : ffa_value) : Z := u16 (Z.shiftr (arg2 args) 48).
Definition ffa_partition_info_regs_partition_count (args : ffa_value) : Z := ffa_partition_info_regs_get_last_idx args + 1.
Definition ffa_partition_info_regs_entry_count (args : ffa_value) (start_idx : Z) : Z :=
  u32 (ffa_partition_info_regs_get_curr_idx args - start_idx + 1).
Definition ffa_partition_info_regs_entry_size (args : ffa_value) : Z := Z.land (Z.shiftr (arg2 args) 48) 0xFFFF.

Definition FFA_FRAMEWORK_MSG_BIT : Z := Z.shiftl 1 31.
Definition FFA_FRAMEWORK_MSG_MASK : Z := 0xFF.
Definition ffa_framework_msg_flags (args : ffa_value) : Z := u32 (arg2 args).
Definition ffa_is_framework_msg (args : ffa_value) : bool :=
  ((ffa_func_id args =? FFA_MSG_SEND_DIRECT_REQ_SMC32) || (ffa_func_id args =? FFA_MSG_SEND_DIRECT_REQ_SMC64))
  && negb (Z.land (ffa_framework_msg_flags args) FFA_FRAMEWORK_MSG_BIT =? 0).
Definition ffa_get_framework_msg (args : ffa_value) : Z := Z.land (ffa_framework_msg_flags args) FFA_FRAMEWORK_MSG_MASK.

Definition FFA_NOTIFICATION (ID : Z) : Z := Z.shiftl 1 ID.
Definition FFA_NOTIFICATIONS_FLAG_BITMAP_SPM : Z := Z.shiftl 1 2.
Definition FFA_NOTIFICATION_SPM_BUFFER_FULL_MASK : Z := FFA_NOTIFICATION 0.
Definition FFA_NOTIFICATION_HYP_BUFFER_FULL_MASK : Z := FFA_NOTIFICATION 32.
Definition ffa_notification_bitmap (lo hi : Z) : Z := Z.lor (u64 (Z.shiftl hi 32)) lo.
Definition ffa_notification_get_from_sp (val : ffa_value) : Z := ffa_notification_bitmap (u32 (arg2 val)) (u32 (arg3 val)).
Definition ffa_notification_get_from_vm (val : ffa_value) : Z := ffa_notification_bitmap (u32 (arg4 val)) (u32 (arg5 val)).
Definition ffa_notification_get_from_framework (val : ffa_value) : Z :=
  ffa_notification_bitmap (u32 (arg6 val)) (u32 (arg7 val)).
Definition is_ffa_hyp_buffer_full_notification (framework : Z) : bool :=
  negb (Z.land framework FFA_NOTIFICATION_HYP_BUFFER_FULL_MASK =? 0).
Definition is_ffa_spm_buffer_full_notification (framework : Z) : bool :=
  negb (Z.land framework FFA_NOTIFICATION_SPM_BUFFER_FULL_MASK =? 0).

Definition FFA_NOTIFICATIONS_INFO_GET_FLAG_MORE_PENDING : Z := 1.
Definition FFA_NOTIFICATIONS_LISTS_COUNT_SHIFT : Z := 7.
Definition FFA_NOTIFICATIONS_LISTS_COUNT_MASK : Z := 0x1F.
Definition FFA_NOTIFICATIONS_LIST_SHIFT (l : Z) : Z := u32 (2 * u32 (l - 1) + 12).
Definition FFA_NOTIFICATIONS_LIST_SIZE_MASK : Z := 3.
Definition ffa_notification_info_get_lists_count (ret : ffa_value) : Z :=
  Z.land (u32 (Z.shiftr (arg2 ret) FFA_NOTIFICATIONS_LISTS_COUNT_SHIFT)) FFA_NOTIFICATIONS_LISTS_COUNT_MASK.
Definition ffa_notification_info_get_list_size (ret : ffa_value) (l : Z) : Z :=
  Z.land (u32 (Z.shiftr (arg2 ret) (FFA_NOTIFICATIONS_LIST_SHIFT l))) FFA_NOTIFICATIONS_LIST_SIZE_MASK.
Definition ffa_notification_info_get_more_pending (ret : ffa_value) : bool :=
  negb (Z.land (arg2 ret) FFA_NOTIFICATIONS_INFO_GET_FLAG_MORE_PENDING =? 0).

Definition ffa_assemble_handle (h1 h2 : Z) : Z := Z.lor (u32 h1) (u64 (Z.shiftl (u32 h2) 32)).
Definition ffa_mem_success_handle (r : ffa_value) : Z := ffa_assemble_handle (arg2 r) (arg3 r).
Definition ffa_frag_handle (r : ffa_value) : Z := ffa_assemble_handle (arg1 r) (arg2 r).
Definition ffa_frag_sender (args : ffa_value) : Z := Z.land (Z.shiftr (arg4 args) 16) 0xffff.
Definition ffa_mem_retrieve_res_total_size (ret : ffa_value) : Z := u32 (arg1 ret).
Definition ffa_mem_retrieve_res_frag_size (ret : ffa_value) : Z := u32 (arg2 ret).
Definition ffa_mem_frag_tx_frag_size (ret : ffa_value) : Z := u32 (arg3 ret).
Definition ffa_dir_msg_dest (val : ffa_value) : Z := Z.land (u16 (arg1 val)) 0xFFFF.
Definition ffa_dir_msg_source (val : ffa_value) : Z := u16 (Z.shiftr (arg1 val) 16).

(** ** Versions *)

Definition FFA_VERSION_1_1 : Z := 0x10001.
Definition FFA_VERSION_1_3 : Z := 0x10003.
Definition FFA_VERSION_COMPILED : Z := FFA_VERSION_1_3.
Definition FFA_VERSION_MBZ_BIT : Z := Z.shiftl 1 31.
Definition FFA_VERSION_MAJOR_SHIFT : Z := 16.
Definition FFA_VERSION_MAJOR_MASK : Z := 0x7FFF.
Definition FFA_VERSION_MINOR_SHIFT : Z := 0.
Definition FFA_VERSION_MINOR_MASK : Z := 0xFFFF.
Definition ffa_version_is_valid (version : Z) : bool := Z.land version FFA_VERSION_MBZ_BIT =? 0.
Definition make_ffa_version (major minor : Z) : Z :=
  u32 (Z.lor (Z.shiftl major FFA_VERSION_MAJOR_SHIFT) (Z.shiftl minor FFA_VERSION_MINOR_SHIFT)).
Definition ffa_version_get_major (version : Z) : Z := Z.land (Z.shiftr version FFA_VERSION_MAJOR_SHIFT) FFA_VERSION_MAJOR_MASK.
Definition ffa_version_get_minor (version : Z) : Z := Z.land (Z.shiftr version FFA_VERSION_MINOR_SHIFT) FFA_VERSION_MINOR_MASK.
Definition ffa_versions_are_compatible (caller callee : Z) : bool :=
  (ffa_version_get_major caller =? ffa_version_get_major callee)
  && (ffa_version_get_minor caller <=? ffa_version_get_minor callee).

(** ** The manager *)

(** What a call answers, given the registers and the buffers, and what it
    leaves in RX *)
Class Spmc (D : Type) := {
  spmc_call : ffa_value → list Z → list Z → D → ffa_value * list Z * D;
}.

Section Calls.

Context {D : Type} `{Spmc D}.

Record ffa_state := {
  spmc : D;
  tx : list Z;
  rx : list Z;
}.

Definition set_tx (s : ffa_state) (t : list Z) : ffa_state := {| spmc := spmc s; tx := t; rx := rx s |}.

Abbreviation N := (M ffa_state).

Definition ffa_service_call (args : ffa_value) : N ffa_value := λ s,
  let '(ret, r, d) := spmc_call args (tx s) (rx s) (spmc s) in
  Ok (ret, {| spmc := d; tx := tx s; rx := r |}).

(** [id << 16] of an [unsigned short] is an [int]: its sign is extended when it
    is stored in a register. *)
Definition id_shifted (id : Z) : Z := u64 (s32 (Z.shiftl id 16)).
Definition ids_shifted (hi lo : Z) : Z := u64 (s32 (Z.lor (Z.shiftl hi 16) lo)).

(** The same where the code casts to [uint32_t] *)
Definition ids_cast (hi lo : Z) : Z := Z.lor (u32 (Z.shiftl hi 16)) lo.

Definition ffa_run (dest_id vcpu_id : Z) : N ffa_value :=
  ffa_service_call (regs FFA_RUN (Z.lor (u32 (Z.shiftl dest_id 16)) vcpu_id) 0 0 0 0 0 0).

Definition ffa_msg_send_direct_req64 (source_id dest_id a0 a1 a2 a3 a4 : Z) : N ffa_value :=
  ffa_service_call (regs FFA_MSG_SEND_DIRECT_REQ_SMC64 (ids_cast source_id dest_id) 0 a0 a1 a2 a3 a4).
Definition ffa_msg_send_direct_req32 (source_id dest_id a0 a1 a2 a3 a4 : Z) : N ffa_value :=
  ffa_service_call (regs FFA_MSG_SEND_DIRECT_REQ_SMC32 (ids_cast source_id dest_id) 0 a0 a1 a2 a3 a4).
Definition ffa_msg_send_direct_resp64 (source_id dest_id a0 a1 a2 a3 a4 : Z) : N ffa_value :=
  ffa_service_call (regs FFA_MSG_SEND_DIRECT_RESP_SMC64 (ids_cast source_id dest_id) 0 a0 a1 a2 a3 a4).
Definition ffa_msg_send_direct_resp32 (source_id dest_id a0 a1 a2 a3 a4 : Z) : N ffa_value :=
  ffa_service_call (regs FFA_MSG_SEND_DIRECT_RESP_SMC32 (ids_cast source_id dest_id) 0 a0 a1 a2 a3 a4).
Definition ffa_framework_msg_send_direct_resp (source_id dest_id msg status_code : Z) : N ffa_value :=
  ffa_service_call (regs FFA_MSG_SEND_DIRECT_RESP_SMC32 (ids_cast source_id dest_id)
    (Z.lor (u32 (Z.shiftl 1 31)) (Z.land msg 0xFF)) status_code 0 0 0 0).
Definition ffa_yield : N ffa_value := ffa_service_call (regs FFA_MSG_YIELD 0 0 0 0 0 0 0).

Definition ffa_version (input_version : Z) : N ffa_value := ffa_service_call (regs FFA_VERSION input_version 0 0 0 0 0 0).
Definition ffa_id_get : N ffa_value := ffa_service_call (regs FFA_ID_GET 0 0 0 0 0 0 0).
Definition ffa_spm_id_get : N ffa_value := ffa_service_call (regs FFA_SPM_ID_GET 0 0 0 0 0 0 0).
Definition ffa_msg_wait : N ffa_value := ffa_service_call (regs FFA_MSG_WAIT 0 0 0 0 0 0 0).
Definition ffa_error (error_code : Z) : N ffa_value := ffa_service_call (regs FFA_ERROR 0 (u64 error_code) 0 0 0 0 0).
Definition ffa_features (feature : Z) : N ffa_value := ffa_service_call (regs FFA_FEATURES feature 0 0 0 0 0 0).
Definition ffa_features_with_input_property (feature param : Z) : N ffa_value :=
  ffa_service_call (regs FFA_FEATURES feature param 0 0 0 0 0).

(** A UUID is its four words. *)
Record ffa_uuid := { uuid0 : Z; uuid1 : Z; uuid2 : Z; uuid3 : Z }.

Definition ffa_partition_info_get_regs (uuid : ffa_uuid) (start_index tag : Z) : N ffa_value :=
  ffa_service_call (regs FFA_PARTITION_INFO_GET_REGS_SMC64 (Z.lor (u64 (Z.shiftl (uuid1 uuid) 32)) (uuid0 uuid))
    (Z.lor (u64 (Z.shiftl (uuid3 uuid) 32)) (uuid2 uuid)) (Z.lor start_index (u64 (Z.shiftl tag 16))) 0 0 0 0).
Definition ffa_partition_info_get (uuid : ffa_uuid) : N ffa_value :=
  ffa_service_call (regs FFA_PARTITION_INFO_GET (uuid0 uuid) (uuid1 uuid) (uuid2 uuid) (uuid3 uuid) 0 0 0).

Definition ffa_rx_release_with_id (vm_id : Z) : N ffa_value := ffa_service_call (regs FFA_RX_RELEASE vm_id 0 0 0 0 0 0).
Definition ffa_rx_release : N ffa_value := ffa_rx_release_with_id 0.
Definition ffa_rxtx_map (send recv pages : Z) : N ffa_value :=
  ffa_service_call (regs FFA_RXTX_MAP_SMC64 send recv pages FFA_PARAM_MBZ FFA_PARAM_MBZ FFA_PARAM_MBZ FFA_PARAM_MBZ).
Definition ffa_rxtx_unmap_with_id (id : Z) : N ffa_value :=
  ffa_service_call (regs FFA_RXTX_UNMAP (u32 (Z.shiftl id 16)) FFA_PARAM_MBZ FFA_PARAM_MBZ FFA_PARAM_MBZ FFA_PARAM_MBZ
    FFA_PARAM_MBZ FFA_PARAM_MBZ).
Definition ffa_rxtx_unmap : N ffa_value := ffa_rxtx_unmap_with_id 0.

Definition ffa_msg_send2_with_id (flags sender : Z) : N ffa_value :=
  ffa_service_call (regs FFA_MSG_SEND2 (id_shifted sender) flags FFA_PARAM_MBZ FFA_PARAM_MBZ FFA_PARAM_MBZ FFA_PARAM_MBZ
    FFA_PARAM_MBZ).
Definition ffa_msg_send2 (flags : Z) : N ffa_value := ffa_msg_send2_with_id flags 0.

Definition ffa_mem_donate (descriptor_length fragment_length : Z) : N ffa_value :=
  ffa_service_call (regs FFA_MEM_DONATE_SMC64 descriptor_length fragment_length FFA_PARAM_MBZ FFA_PARAM_MBZ 0 0 0).
Definition ffa_mem_lend (descriptor_length fragment_length : Z) : N ffa_value :=
  ffa_service_call (regs FFA_MEM_LEND_SMC64 descriptor_length fragment_length FFA_PARAM_MBZ FFA_PARAM_MBZ 0 0 0).
Definition ffa_mem_share (descriptor_length fragment_length : Z) : N ffa_value :=
  ffa_service_call (regs FFA_MEM_SHARE_SMC64 descriptor_length fragment_length FFA_PARAM_MBZ FFA_PARAM_MBZ 0 0 0).
Definition ffa_mem_retrieve_req (descriptor_length fragment_length : Z) : N ffa_value :=
  ffa_service_call (regs FFA_MEM_RETRIEVE_REQ_SMC64 descriptor_length fragment_length FFA_PARAM_MBZ FFA_PARAM_MBZ
    FFA_PARAM_MBZ FFA_PARAM_MBZ FFA_PARAM_MBZ).
Definition ffa_mem_relinquish : N ffa_value := ffa_service_call (regs FFA_MEM_RELINQUISH 0 0 0 0 0 0 0).
Definition ffa_mem_reclaim (handle flags : Z) : N ffa_value :=
  ffa_service_call (regs FFA_MEM_RECLAIM (u32 handle) (u32 (Z.shiftr handle 32)) flags 0 0 0 0).
Definition ffa_mem_frag_rx (handle fragment_offset : Z) : N ffa_value :=
  ffa_service_call (regs FFA_MEM_FRAG_RX (u32 handle) (u32 (Z.shiftr handle 32)) fragment_offset 0 0 0 0).
Definition ffa_mem_frag_tx (handle fragment_length : Z) : N ffa_value :=
  ffa_service_call (regs FFA_MEM_FRAG_TX (u32 handle) (u32 (Z.shiftr handle 32)) fragment_length 0 0 0 0).

Definition ffa_notification_bitmap_create (vm_id vcpu_count : Z) : N ffa_value :=
  ffa_service_call (regs FFA_NOTIFICATION_BITMAP_CREATE vm_id vcpu_count FFA_PARAM_MBZ FFA_PARAM_MBZ FFA_PARAM_MBZ
    FFA_PARAM_MBZ FFA_PARAM_MBZ).
Definition ffa_notification_bitmap_destroy (vm_id : Z) : N ffa_value :=
  ffa_service_call (regs FFA_NOTIFICATION_BITMAP_DESTROY vm_id FFA_PARAM_MBZ FFA_PARAM_MBZ FFA_PARAM_MBZ FFA_PARAM_MBZ
    FFA_PARAM_MBZ FFA_PARAM_MBZ).
Definition ffa_notification_bind (sender receiver flags bitmap : Z) : N ffa_value :=
  ffa_service_call (regs FFA_NOTIFICATION_BIND (ids_shifted sender receiver) flags (u32 (Z.land bitmap 0xFFFFFFFF))
    (u32 (Z.shiftr bitmap 32)) FFA_PARAM_MBZ FFA_PARAM_MBZ FFA_PARAM_MBZ).
Definition ffa_notification_unbind (sender receiver bitmap : Z) : N ffa_value :=
  ffa_service_call (regs FFA_NOTIFICATION_UNBIND (ids_shifted sender receiver) FFA_PARAM_MBZ (u32 bitmap)
    (u32 (Z.shiftr bitmap 32)) FFA_PARAM_MBZ FFA_PARAM_MBZ FFA_PARAM_MBZ).
Definition ffa_notification_set (sender receiver flags bitmap : Z) : N ffa_value :=
  ffa_service_call (regs FFA_NOTIFICATION_SET (ids_shifted sender receiver) flags (u32 (Z.land bitmap 0xFFFFFFFF))
    (u32 (Z.shiftr bitmap 32)) FFA_PARAM_MBZ FFA_PARAM_MBZ FFA_PARAM_MBZ).
Definition ffa_notification_get (receiver vcpu_id flags : Z) : N ffa_value :=
  ffa_service_call (regs FFA_NOTIFICATION_GET (Z.lor (u32 (Z.shiftl vcpu_id 16)) receiver) flags FFA_PARAM_MBZ
    FFA_PARAM_MBZ FFA_PARAM_MBZ FFA_PARAM_MBZ FFA_PARAM_MBZ).
Definition ffa_notification_info_get : N ffa_value :=
  ffa_service_call (regs FFA_NOTIFICATION_INFO_GET_SMC64 FFA_PARAM_MBZ FFA_PARAM_MBZ FFA_PARAM_MBZ FFA_PARAM_MBZ
    FFA_PARAM_MBZ FFA_PARAM_MBZ FFA_PARAM_MBZ).

(** The bytes of the message that go into one register, and the rest *)
Definition char_to_arg_helper (message : list Z) (size : Z) : Z * Z :=
  let to_write := if 8 <? size then 8 else size in
  (le_value (take (Z.to_nat to_write) message), to_write).

Definition ffa_console_log (message : list Z) (char_count : Z) : N ffa_value :=
  assert_ (char_count <=? 8 * 6);;
  (if char_count <=? zlen message then mret tt else fail OutOfBounds);;
  let piece written := char_to_arg_helper (drop (Z.to_nat written) message) (char_count - written) in
  let '(a2, n) := piece 0 in let w := n in
  let '(a3, n) := piece w in let w := w + n in
  let '(a4, n) := piece w in let w := w + n in
  let '(a5, n) := piece w in let w := w + n in
  let '(a6, n) := piece w in let w := w + n in
  let '(a7, _) := piece w in
  ffa_service_call (regs FFA_CONSOLE_LOG_SMC64 char_count a2 a3 a4 a5 a6 a7).

End Calls.

Arguments ffa_state : clear implicits.
