(* ===== verification/FfaMem.v ===== *)
(** * FF-A memory transactions and messages (ffa_helpers.c, spm_common.c)

    Descriptors are bytes in TX and RX; an access outside a buffer is
    [OutOfBounds].  The pointers the helpers take are TX, RX or, for the copy
    of a message, a buffer of the caller. *)

From S2P Require Import Prelude Bytes Ffa.

Local Open Scope Z_scope.

(** ** Layout (ffa_helpers.h) *)

Definition PAGE_SIZE : Z := 4096.
Definition SIZEOF_MEMORY_REGION : Z := 48.
Definition SIZEOF_MEMORY_ACCESS : Z := 32.
Definition SIZEOF_COMPOSITE : Z := 16.
Definition SIZEOF_CONSTITUENT : Z := 16.
Definition SIZEOF_RXTX_DESCRIPTOR : Z := 16.
Definition FFA_RXTX_HEADER_SIZE : Z := 40.

Definition FFA_MEMORY_HANDLE_ALLOCATOR_MASK : Z := 1.
Definition FFA_MEMORY_HANDLE_ALLOCATOR_SHIFT : Z := 63.
Definition FFA_MEMORY_HANDLE_ALLOCATOR_HYPERVISOR : Z := 1.
Definition FFA_MEMORY_HANDLE_ALLOCATOR_SPMC : Z := 0.
Definition FFA_MEMORY_HANDLE_INVALID : Z := UINT64_MAX.
Definition MAX_MEM_SHARE_RECIPIENTS : Z := 2.
Definition FFA_MSG_PAYLOAD_MAX : Z := PAGE_SIZE.
Definition SP_ID_MASK : Z := Z.shiftl 1 15.
Definition IS_SP_ID (x : Z) : bool := negb (Z.land x SP_ID_MASK =? 0).
Definition SP_ID (x : Z) : Z := Z.lor x SP_ID_MASK.
Definition HYP_ID : Z := 0.

Inductive ffa_data_access : Set :=
| FFA_DATA_ACCESS_NOT_SPECIFIED | FFA_DATA_ACCESS_RO | FFA_DATA_ACCESS_RW | FFA_DATA_ACCESS_RESERVED.
Inductive ffa_instruction_access : Set :=
| FFA_INSTRUCTION_ACCESS_NOT_SPECIFIED | FFA_INSTRUCTION_ACCESS_NX | FFA_INSTRUCTION_ACCESS_X | FFA_INSTRUCTION_ACCESS_RESERVED.
Inductive ffa_memory_type : Set := FFA_MEMORY_NOT_SPECIFIED_MEM | FFA_MEMORY_DEVICE_MEM | FFA_MEMORY_NORMAL_MEM.

Definition data_access_code (a : ffa_data_access) : Z :=
  match a with FFA_DATA_ACCESS_NOT_SPECIFIED => 0 | FFA_DATA_ACCESS_RO => 1 | FFA_DATA_ACCESS_RW => 2 | FFA_DATA_ACCESS_RESERVED => 3 end.
Definition instruction_access_code (a : ffa_instruction_access) : Z :=
  match a with
  | FFA_INSTRUCTION_ACCESS_NOT_SPECIFIED => 0 | FFA_INSTRUCTION_ACCESS_NX => 1 | FFA_INSTRUCTION_ACCESS_X => 2
  | FFA_INSTRUCTION_ACCESS_RESERVED => 3
  end.
Definition memory_type_code (t : ffa_memory_type) : Z :=
  match t with FFA_MEMORY_NOT_SPECIFIED_MEM => 0 | FFA_MEMORY_DEVICE_MEM => 1 | FFA_MEMORY_NORMAL_MEM => 2 end.

Definition FFA_MEMORY_CACHE_WRITE_BACK : Z := 3.
Definition FFA_MEMORY_DEV_NGNRNE : Z := 0.
Definition FFA_MEMORY_INNER_SHAREABLE : Z := 3.

(** [ffa_memory_attributes_t]: shareability, cacheability, type and security
    from bit 0 on; the last is left 0 by the initialisers. *)
Definition attributes_code (type : ffa_memory_type) (cacheability shareability : Z) : Z :=
  shareability + 4 * cacheability + 16 * memory_type_code type.

Record ffa_memory_region_constituent := {
  address : Z;
  page_count : Z;
  reserved : Z;
}.

Definition constituent_bytes (c : ffa_memory_region_constituent) : list Z :=
  le_bytes 8 (address c) ++ le_bytes 4 (page_count c) ++ le_bytes 4 (reserved c).

(** [permissions] is the byte of the two bit fields. *)
Record ffa_memory_access := {
  receiver : Z;
  permissions : Z;
  receiver_flags : Z;
  composite_memory_region_offset : Z;
  impdef : Z * Z;
  reserved_0 : Z;
}.

Definition access_bytes (a : ffa_memory_access) : list Z :=
  le_bytes 2 (receiver a) ++ le_bytes 1 (permissions a) ++ le_bytes 1 (receiver_flags a)
  ++ le_bytes 4 (composite_memory_region_offset a) ++ le_bytes 8 (impdef a).1 ++ le_bytes 8 (impdef a).2
  ++ le_bytes 8 (reserved_0 a).

(** The local variable of [ffa_memory_access_init()] is not initialised: [junk]
    is what its permissions held; the two bit fields are its lower half. *)
Definition ffa_memory_access_init (junk receiver_id : Z) (da : ffa_data_access) (ia : ffa_instruction_access)
    (flags : Z) (imp : option (Z * Z)) : ffa_memory_access :=
  {| receiver := receiver_id;
     permissions := 16 * (junk / 16) + 4 * instruction_access_code ia + data_access_code da;
     receiver_flags := flags; composite_memory_region_offset := 0;
     impdef := match imp with Some i => i | None => (0, 0) end; reserved_0 := 0 |}.

Definition ffa_memory_access_init_permissions_from_mem_func (junk receiver_id mem_func : Z) : ffa_memory_access :=
  ffa_memory_access_init junk receiver_id
    (if mem_func =? FFA_MEM_DONATE_SMC64 then FFA_DATA_ACCESS_NOT_SPECIFIED else FFA_DATA_ACCESS_RW)
    FFA_INSTRUCTION_ACCESS_NOT_SPECIFIED 0 None.

(** A field of [n] bytes *)
Definition field (n : nat) (off : Z) (mem : list Z) : option Z :=
  if (0 <=? off) && (off + Z.of_nat n <=? zlen mem) then Some (le_value (slice off (Z.of_nat n) mem)) else None.

(** ** Reading a descriptor (ffa_helpers.h) *)

(** [None]: outside the memory; [Some None]: NULL *)
Definition ffa_memory_region_get_receiver (mem : list Z) (receiver_index : Z) : option (option Z) :=
  match field 4 24 mem, field 4 28 mem, field 4 32 mem with
  | Some memory_access_desc_size, Some receiver_count, Some receivers_offset =>
      Some (if receiver_count <=? receiver_index then None
            else if SIZEOF_MEMORY_ACCESS <? memory_access_desc_size then None
            else if negb (receivers_offset =? SIZEOF_MEMORY_REGION) then None
            else Some (receivers_offset + u32 (receiver_index * memory_access_desc_size)))
  | _, _, _ => None
  end.

Definition ffa_memory_region_get_composite (mem : list Z) (receiver_index : Z) : option (option Z) :=
  match field 4 (SIZEOF_MEMORY_REGION + SIZEOF_MEMORY_ACCESS * receiver_index + 4) mem with
  | Some offset => Some (if offset =? 0 then None else Some offset)
  | None => None
  end.

Section Mem.

Context {D : Type} `{Spmc D}.

Abbreviation N := (M (ffa_state D)).

(** Stores to TX and loads from it *)
Definition store_bytes (off : Z) (d : list Z) : N unit := λ s,
  if (0 <=? off) && (off + zlen d <=? zlen (tx s)) then Ok (tt, set_tx s (splice off d (tx s))) else Stop OutOfBounds.
Definition store (n : nat) (off v : Z) : N unit := store_bytes off (le_bytes n v).
Definition of_option {A} (o : option A) : N A := match o with Some a => mret a | None => fail OutOfBounds end.
Definition load (n : nat) (off : Z) : N Z := s ← get; of_option (field n off (tx s)).

(** ** Writing a descriptor (ffa_helpers.c) *)

Definition ffa_memory_region_init_header (sender attributes flags handle tag receiver_count : Z) : N unit :=
  store 2 0 sender;;
  store 2 2 attributes;;
  store 4 4 flags;;
  store 8 8 handle;;
  store 8 16 tag;;
  store 4 24 SIZEOF_MEMORY_ACCESS;;
  store 4 28 receiver_count;;
  store 4 32 SIZEOF_MEMORY_REGION;;
  store_bytes 36 (replicate 12 0).

(** [for (i = 0; i < receiver_count; i++)] from [i] on, [n] rounds *)
Fixpoint composite_offsets (receiver_count : Z) (n : nat) (i : Z) : N unit :=
  match n with
  | O => mret tt
  | S n' =>
      store 4 (SIZEOF_MEMORY_REGION + SIZEOF_MEMORY_ACCESS * i + 4)
        (SIZEOF_MEMORY_REGION + receiver_count * SIZEOF_MEMORY_ACCESS);;
      composite_offsets receiver_count n' (i + 1)
  end.

(** The loop over the constituents: those that fit are copied, the pages of all
    are counted. *)
Fixpoint copy_loop (composite count_to_copy : Z) (cs : list ffa_memory_region_constituent) (i : Z) : N unit :=
  match cs with
  | [] => mret tt
  | c :: cs' =>
      (if i <? count_to_copy then store_bytes (composite + SIZEOF_COMPOSITE + SIZEOF_CONSTITUENT * i) (constituent_bytes c)
       else mret tt);;
      pages ← load 4 composite;
      store 4 composite (u32 (pages + page_count c));;
      copy_loop composite count_to_copy cs' (i + 1)
  end.

(** The number of constituents left, the total length and that of the fragment *)
Definition ffa_memory_region_init_constituents (memory_region_max_size : Z) (cs : list ffa_memory_region_constituent)
    : N (Z * Z * Z) :=
  let constituent_count := zlen cs in
  receiver_count ← load 4 28;
  composite_offsets receiver_count (Z.to_nat receiver_count) 0;;
  s ← get;
  composite ← of_option (ffa_memory_region_get_composite (tx s) 0);
  composite ← of_option composite;
  store 4 composite 0;;
  store 4 (composite + 4) constituent_count;;
  store 8 (composite + 8) 0;;
  offset ← load 4 (SIZEOF_MEMORY_REGION + 4);
  let constituents_offset := u32 (offset + SIZEOF_COMPOSITE) in
  let fragment_max_constituents := u32 (u64 (memory_region_max_size - constituents_offset) / SIZEOF_CONSTITUENT) in
  let count_to_copy := if fragment_max_constituents <? constituent_count then fragment_max_constituents else constituent_count in
  copy_loop composite count_to_copy cs 0;;
  constituent_count ← load 4 (composite + 4);
  mret (u32 (constituent_count - count_to_copy), u32 (constituents_offset + constituent_count * SIZEOF_CONSTITUENT),
        u32 (constituents_offset + count_to_copy * SIZEOF_CONSTITUENT)).

Definition ffa_memory_region_init (memory_region_max_size sender : Z) (receivers : list ffa_memory_access)
    (cs : list ffa_memory_region_constituent) (tag flags : Z) (type : ffa_memory_type) (cacheability shareability : Z)
    : N (Z * Z * Z) :=
  ffa_memory_region_init_header sender (attributes_code type cacheability shareability) flags 0 tag (zlen receivers);;
  store_bytes SIZEOF_MEMORY_REGION (concat (access_bytes <$> receivers));;
  ffa_memory_region_init_constituents memory_region_max_size cs.

(** The number of constituents left and the length of the fragment *)
Fixpoint fragment_loop (cs : list ffa_memory_region_constituent) (n : nat) (i : Z) : N unit :=
  match n, cs with
  | S n', c :: cs' => store_bytes (SIZEOF_CONSTITUENT * i) (constituent_bytes c);; fragment_loop cs' n' (i + 1)
  | S _, [] => fail OutOfBounds
  | O, _ => mret tt
  end.
Definition ffa_memory_fragment_init (fragment_max_size : Z) (cs : list ffa_memory_region_constituent) (constituent_count : Z)
    : N (Z * Z) :=
  let fragment_max_constituents := u32 (fragment_max_size / SIZEOF_CONSTITUENT) in
  let count_to_copy := Z.min constituent_count fragment_max_constituents in
  fragment_loop cs (Z.to_nat count_to_copy) 0;;
  mret (u32 (constituent_count - count_to_copy), u32 (count_to_copy * SIZEOF_CONSTITUENT)).

Fixpoint clear_offsets (n : nat) (i : Z) : N unit :=
  match n with
  | O => mret tt
  | S n' =>
      store 4 (SIZEOF_MEMORY_REGION + SIZEOF_MEMORY_ACCESS * i + 4) 0;;
      store 8 (SIZEOF_MEMORY_REGION + SIZEOF_MEMORY_ACCESS * i + 24) 0;;
      clear_offsets n' (i + 1)
  end.
Definition ffa_memory_retrieve_request_init (handle sender : Z) (receivers : list ffa_memory_access) (tag flags : Z)
    (type : ffa_memory_type) (cacheability shareability : Z) : N Z :=
  ffa_memory_region_init_header sender (attributes_code type cacheability shareability) flags handle tag (zlen receivers);;
  store_bytes SIZEOF_MEMORY_REGION (concat (access_bytes <$> receivers));;
  clear_offsets (length receivers) 0;;
  receiver_count ← load 4 28;
  mret (u32 (SIZEOF_MEMORY_REGION + receiver_count * SIZEOF_MEMORY_ACCESS)).

Definition ffa_hypervisor_retrieve_request_init (handle : Z) : N unit :=
  store_bytes 0 (replicate 48 0);;
  store 8 8 handle.

Definition ffa_mem_relinquish_init (handle flags sender : Z) : N Z :=
  store 8 0 handle;;
  store 4 8 flags;;
  store 4 12 1;;
  store 2 16 sender;;
  mret 18.

Definition ffa_composite_memory_region_init (composite addr pages : Z) : N unit :=
  store 4 composite pages;;
  store 4 (composite + 4) 1;;
  store 8 (composite + 8) 0;;
  store 4 (composite + 24) pages;;
  store 8 (composite + 16) addr;;
  store 4 (composite + 28) 0.

Definition ffa_endpoint_rxtx_descriptor_init (endpoint_id rx_address tx_address : Z) : N unit :=
  store 2 0 endpoint_id;;
  store 2 2 0;;
  store 4 12 0;;
  store 4 4 SIZEOF_RXTX_DESCRIPTOR;;
  rx_offset ← load 4 4;
  ffa_composite_memory_region_init rx_offset rx_address 1;;
  rx_offset ← load 4 4;
  store 4 8 (rx_offset + SIZEOF_COMPOSITE + SIZEOF_CONSTITUENT);;
  tx_offset ← load 4 8;
  ffa_composite_memory_region_init tx_offset tx_address 1.

Definition ffa_rxtx_map_forward (endpoint_id rx_address tx_address : Z) : N ffa_value :=
  ffa_endpoint_rxtx_descriptor_init endpoint_id rx_address tx_address;;
  ffa_rxtx_map 0 0 0.

(** ** Answers (spm_common.c) *)

Definition is_ffa_call_error (ret : ffa_value) : bool := ffa_func_id ret =? FFA_ERROR.
Definition is_expected_ffa_error (ret : ffa_value) (expected_error : Z) : bool :=
  (ffa_func_id ret =? FFA_ERROR) && (ffa_error_code ret =? expected_error).
Definition is_ffa_direct_response (ret : ffa_value) : bool :=
  (ffa_func_id ret =? FFA_MSG_SEND_DIRECT_RESP_SMC32) || (ffa_func_id ret =? FFA_MSG_SEND_DIRECT_RESP_SMC64).
Definition is_expected_ffa_return (ret : ffa_value) (func_id : Z) : bool := ffa_func_id ret =? func_id.
Definition cactus_get_response (ret : ffa_value) : Z := u32 (arg3 ret).
Definition is_expected_cactus_response (ret : ffa_value) (expected_resp arg : Z) : bool :=
  is_ffa_direct_response ret && (cactus_get_response ret =? expected_resp) && (u32 (arg4 ret) =? arg).

Definition OPTEE_FFA_GET_API_VERSION : Z := 0.
Definition OPTEE_FFA_GET_OS_VERSION : Z := 1.
Definition OPTEE_FFA_GET_OS_VERSION_MAJOR : Z := 3.
Definition OPTEE_FFA_GET_OS_VERSION_MINOR : Z := 10.
Definition check_spmc_execution_level : N bool :=
  r1 ← ffa_msg_send_direct_req32 HYP_ID (SP_ID 1) OPTEE_FFA_GET_API_VERSION 0 0 0 0;
  let c1 := (arg3 r1 =? 1) && ((arg4 r1 =? 0) || (arg4 r1 =? 1)) in
  r2 ← ffa_msg_send_direct_req32 HYP_ID (SP_ID 1) OPTEE_FFA_GET_OS_VERSION 0 0 0 0;
  let c2 := (arg3 r2 =? OPTEE_FFA_GET_OS_VERSION_MAJOR) && (arg4 r2 =? OPTEE_FFA_GET_OS_VERSION_MINOR) in
  mret (c1 && c2).

Record ffa_features_test := { feature : Z; expected_ret : Z; param : Z; version_added : Z }.

Fixpoint ffa_features_test_targets (targets : list ffa_features_test) : N bool :=
  match targets with
  | [] => mret true
  | t :: targets' =>
      ffa_ret ← ffa_features_with_input_property (feature t) (param t);
      let expected := if version_added t <=? FFA_VERSION_COMPILED then expected_ret t else FFA_ERROR in
      let ok1 := ffa_func_id ffa_ret =? expected in
      let ok2 := negb (expected =? FFA_ERROR) || (ffa_error_code ffa_ret =? FFA_ERROR_NOT_SUPPORTED) in
      rest ← ffa_features_test_targets targets';
      mret (ok1 && ok2 && rest)
  end.

(** ** Retrieving memory *)

Definition memory_retrieve (handle sender : Z) (receivers : list ffa_memory_access) (flags : Z) (is_normal_memory : bool)
    : N bool :=
  let memory_type := if is_normal_memory then FFA_MEMORY_NORMAL_MEM else FFA_MEMORY_DEVICE_MEM in
  let memory_cacheability := if is_normal_memory then FFA_MEMORY_CACHE_WRITE_BACK else FFA_MEMORY_DEV_NGNRNE in
  descriptor_size ← ffa_memory_retrieve_request_init handle sender receivers 0 flags memory_type memory_cacheability
                      FFA_MEMORY_INNER_SHAREABLE;
  ret ← ffa_mem_retrieve_req descriptor_size descriptor_size;
  if negb (ffa_func_id ret =? FFA_MEM_RETRIEVE_RESP) then mret false
  else
    let total_size := u32 (arg1 ret) in
    let fragment_size := u32 (arg2 ret) in
    if negb (total_size =? fragment_size) then mret false
    else if PAGE_SIZE <? fragment_size then mret false
    else
      s ← get;
      receiver_count ← of_option (field 4 28 (rx s));
      mret (receiver_count <=? MAX_MEM_SHARE_RECIPIENTS).

(** [memcpy(out + off, mb->recv, n)] *)
Definition copy_recv (out : list Z) (off n : Z) : N (list Z) :=
  s ← get;
  if (n <=? zlen (rx s)) && (off + n <=? zlen out) then mret (splice off (take (Z.to_nat n) (rx s)) out)
  else fail OutOfBounds.

(** [while (fragment_offset < total_size)]: whether to go on and with which
    offset; [out] is the buffer of the caller, if there is one, which is said to
    have [out_size] bytes. *)
Fixpoint retrieve_loop (fuel : nat) (handle out_size total_size fragment_offset : Z) (release_rx : bool) (out : option (list Z))
    : N (option Z * option (list Z)) :=
  if total_size <=? fragment_offset then mret (Some fragment_offset, out)
  else
    match fuel with
    | O => fail FuelOut
    | S fuel' =>
        released ← (if release_rx then r ← ffa_rx_release; mret (fid r =? FFA_SUCCESS_SMC32) else mret true);
        if negb released then mret (None, out)
        else
          ret ← ffa_mem_frag_rx handle fragment_offset;
          if negb (fid ret =? FFA_MEM_FRAG_TX) then mret (None, out)
          else if negb (ffa_frag_handle ret =? handle) then mret (None, out)
          else if negb (ffa_frag_sender ret =? 0) then mret (None, out)
          else
            let fragment_size := ffa_mem_frag_tx_frag_size ret in
            if fragment_size =? 0 then mret (None, out)
            else
              match out with
              | None => retrieve_loop fuel' handle out_size total_size (u32 (fragment_offset + fragment_size)) true None
              | Some b =>
                  if out_size <? u32 (fragment_offset + fragment_size) then mret (None, out)
                  else
                    b ← copy_recv b fragment_offset fragment_size;
                    retrieve_loop fuel' handle out_size total_size (u32 (fragment_offset + fragment_size)) true (Some b)
              end
    end.

Definition hypervisor_retrieve_request_continue (fuel : nat) (handle out_size total_size fragment_offset : Z)
    (release_rx : bool) (out : option (list Z)) : N (bool * option (list Z)) :=
  r ← retrieve_loop fuel handle out_size total_size fragment_offset release_rx out;
  match r with
  | (None, out) => mret (false, out)
  | (Some fragment_offset, out) =>
      if negb (fragment_offset =? total_size) then mret (false, out)
      else
        ret ← ffa_rx_release;
        mret (fid ret =? FFA_SUCCESS_SMC32, out)
  end.

Definition hypervisor_retrieve_request (fuel : nat) (handle out_size : Z) (out : option (list Z)) : N (bool * option (list Z)) :=
  ffa_hypervisor_retrieve_request_init handle;;
  ret ← ffa_mem_retrieve_req SIZEOF_MEMORY_REGION SIZEOF_MEMORY_REGION;
  if negb (ffa_func_id ret =? FFA_MEM_RETRIEVE_RESP) then mret (false, out)
  else
    let total_size := ffa_mem_retrieve_res_total_size ret in
    let fragment_size := ffa_mem_retrieve_res_frag_size ret in
    match out with
    | None => hypervisor_retrieve_request_continue fuel handle out_size total_size fragment_size false None
    | Some b =>
        if PAGE_SIZE <? fragment_size then mret (false, out)
        else if out_size <? total_size then mret (false, out)
        else
          b ← copy_recv b 0 fragment_size;
          receiver_count ← of_option (field 4 28 b);
          if receiver_count =? 0 then mret (false, Some b)
          else if MAX_MEM_SHARE_RECIPIENTS <? receiver_count then mret (false, Some b)
          else hypervisor_retrieve_request_continue fuel handle out_size total_size fragment_size false (Some b)
    end.

Definition memory_relinquish (handle id : Z) : N bool :=
  ffa_mem_relinquish_init handle 0 id;;
  ret ← ffa_mem_relinquish;
  mret (ffa_func_id ret =? FFA_SUCCESS_SMC32).

(** ** Sending memory *)

(** [while (remaining_constituent_count != 0)]: whether to go on, the last
    answer, the handle of the fragments and the length that was sent *)
Fixpoint send_loop (fuel : nat) (cs : list ffa_memory_region_constituent) (remaining : Z) (ret : ffa_value)
    (fragment_handle sent_length : Z) : N (bool * ffa_value * Z * Z) :=
  if remaining =? 0 then mret (true, ret, fragment_handle, sent_length)
  else
    match fuel with
    | O => fail FuelOut
    | S fuel' =>
        if negb (fid ret =? FFA_MEM_FRAG_RX) then mret (false, ret, fragment_handle, sent_length)
        else if negb (fragment_handle =? FFA_MEMORY_HANDLE_INVALID) && negb (ffa_frag_handle ret =? fragment_handle)
        then mret (false, ret, fragment_handle, sent_length)
        else
          let fragment_handle := if fragment_handle =? FFA_MEMORY_HANDLE_INVALID then ffa_frag_handle ret else fragment_handle in
          if negb (arg3 ret =? sent_length) then mret (false, ret, fragment_handle, sent_length)
          else
            r ← ffa_memory_fragment_init PAGE_SIZE (drop (Z.to_nat (zlen cs - remaining)) cs) remaining;
            let '(remaining, fragment_length) := r in
            ret ← ffa_mem_frag_tx fragment_handle fragment_length;
            send_loop fuel' cs remaining ret fragment_handle (u32 (sent_length + fragment_length))
    end.

Definition send_fragmented_memory_region (cs : list ffa_memory_region_constituent) (remaining sent_length total_length : Z)
    (allocator_is_spmc : bool) (ret : ffa_value) : N (bool * ffa_value) :=
  let expected_handle_mask :=
    if allocator_is_spmc then FFA_MEMORY_HANDLE_ALLOCATOR_SPMC else FFA_MEMORY_HANDLE_ALLOCATOR_HYPERVISOR in
  r ← send_loop (S (length cs)) cs remaining ret FFA_MEMORY_HANDLE_INVALID sent_length;
  let '(ok, ret, fragment_handle, sent_length) := r in
  if negb ok then mret (false, ret)
  else if negb (sent_length =? total_length) then mret (false, ret)
  else if negb (fid ret =? FFA_SUCCESS_SMC32) then mret (false, ret)
  else
    let handle := ffa_mem_success_handle ret in
    let handle_mask := Z.land (Z.shiftr handle FFA_MEMORY_HANDLE_ALLOCATOR_SHIFT) FFA_MEMORY_HANDLE_ALLOCATOR_MASK in
    if negb (handle_mask =? expected_handle_mask) then mret (false, ret)
    else if negb (fragment_handle =? FFA_MEMORY_HANDLE_INVALID) && negb (handle =? fragment_handle) then mret (false, ret)
    else mret (true, ret).

(** The handle and the last answer *)
Definition memory_send (mem_func : Z) (cs : list ffa_memory_region_constituent) (remaining fragment_length total_length : Z)
    (ret : ffa_value) : N (Z * ffa_value) :=
  if (remaining =? 0) && negb (fragment_length =? total_length) then mret (FFA_MEMORY_HANDLE_INVALID, ret)
  else
    match (if mem_func =? FFA_MEM_SHARE_SMC64 then Some (ffa_mem_share total_length fragment_length)
           else if mem_func =? FFA_MEM_LEND_SMC64 then Some (ffa_mem_lend total_length fragment_length)
           else if mem_func =? FFA_MEM_DONATE_SMC64 then Some (ffa_mem_donate total_length fragment_length)
           else None) with
    | None => mret (FFA_MEMORY_HANDLE_INVALID, ret)
    | Some call =>
        ret ← call;
        if is_ffa_call_error ret then mret (FFA_MEMORY_HANDLE_INVALID, ret)
        else
          r ← send_fragmented_memory_region cs remaining fragment_length total_length true ret;
          let '(ok, ret) := r in
          if negb ok then mret (FFA_MEMORY_HANDLE_INVALID, ret)
          else mret (ffa_mem_success_handle ret, ret)
    end.

Definition memory_init_and_send (memory_region_max_size sender : Z) (receivers : list ffa_memory_access)
    (cs : list ffa_memory_region_constituent) (mem_func : Z) (ret : ffa_value) : N (Z * ffa_value) :=
  let type := if (zlen receivers =? 1) && negb (mem_func =? FFA_MEM_SHARE_SMC64) then FFA_MEMORY_NOT_SPECIFIED_MEM
              else FFA_MEMORY_NORMAL_MEM in
  r ← ffa_memory_region_init memory_region_max_size sender receivers cs 0 0 type FFA_MEMORY_CACHE_WRITE_BACK
        FFA_MEMORY_INNER_SHAREABLE;
  let '(remaining, total_length, fragment_length) := r in
  memory_send mem_func cs remaining fragment_length total_length ret.

(** ** Partitions *)

Definition ffa_uuid_equal (u v : ffa_uuid) : bool :=
  (uuid0 u =? uuid0 v) && (uuid1 u =? uuid1 v) && (uuid2 u =? uuid2 v) && (uuid3 u =? uuid3 v).
Definition NULL_UUID : ffa_uuid := {| uuid0 := 0; uuid1 := 0; uuid2 := 0; uuid3 := 0 |}.
Definition ffa_get_uuid_lo (u : ffa_uuid) : Z := Z.lor (u64 (Z.shiftl (uuid1 u) 32)) (uuid0 u).
Definition ffa_get_uuid_hi (u : ffa_uuid) : Z := Z.lor (u64 (Z.shiftl (uuid3 u) 32)) (uuid2 u).

(** What is compared of a partition; the UUID of its image, its version and a
    reserved word follow in memory. *)
Record ffa_partition_info := {
  id : Z;
  exec_context : Z;
  properties : Z;
  protocol_uuid : ffa_uuid;
}.
Definition SIZEOF_PARTITION_INFO : Z := 48.
Definition MAX_INFO_REGS_ENTRIES_PER_CALL : Z := 15 * 8 / SIZEOF_PARTITION_INFO.

Definition ffa_partition_info_regs_get_part_info (args : ffa_value) (idx : Z) : option ffa_partition_info :=
  if MAX_INFO_REGS_ENTRIES_PER_CALL <=? idx then None
  else
    match zget (reg_list args) (idx * 6 + 3), zget (reg_list args) (idx * 6 + 4), zget (reg_list args) (idx * 6 + 5) with
    | Some info, Some uuid_lo, Some uuid_high =>
        Some {| id := Z.land info 0xFFFF; exec_context := Z.land (Z.shiftr info 16) 0xFFFF; properties := u32 (Z.shiftr info 32);
                protocol_uuid := {| uuid0 := Z.land uuid_lo 0xFFFFFFFF; uuid1 := Z.land (Z.shiftr uuid_lo 32) 0xFFFFFFFF;
                                    uuid2 := Z.land uuid_high 0xFFFFFFFF; uuid3 := Z.land (Z.shiftr uuid_high 32) 0xFFFFFFFF |} |}
    | _, _, _ => None
    end.

Definition ffa_compare_partition_info (uuid : ffa_uuid) (info expected : ffa_partition_info) : bool :=
  let expected_uuid := if ffa_uuid_equal uuid NULL_UUID then protocol_uuid expected else NULL_UUID in
  (id info =? id expected) && (exec_context info =? exec_context expected) && (properties info =? properties expected)
  && ffa_uuid_equal (protocol_uuid info) expected_uuid.

(** [for (i = 0; i < desc_count_per_invocation; i++)]; an entry that cannot be
    read is compared as 0. *)
Fixpoint regs_loop (uuid : ffa_uuid) (ret : ffa_value) (expected : list ffa_partition_info) (n : nat) (i : Z) : N bool :=
  match n with
  | O => mret true
  | S n' =>
      let info := match ffa_partition_info_regs_get_part_info ret i with
                  | Some info => info
                  | None => {| id := 0; exec_context := 0; properties := 0; protocol_uuid := NULL_UUID |}
                  end in
      e ← of_option (zget expected i);
      if ffa_compare_partition_info uuid info e then regs_loop uuid ret expected n' (i + 1) else mret false
  end.
Definition ffa_partition_info_regs_helper (uuid : ffa_uuid) (expected : list ffa_partition_info)
    (desc_count_per_invocation desc_count_total : Z) : N bool :=
  if MAX_INFO_REGS_ENTRIES_PER_CALL <? desc_count_per_invocation then mret false
  else
    ret ← ffa_partition_info_get_regs uuid 0 0;
    if negb (ffa_func_id ret =? FFA_SUCCESS_SMC64) then mret false
    else if negb (ffa_partition_info_regs_partition_count ret =? desc_count_total) then mret false
    else if negb (ffa_partition_info_regs_entry_size ret =? SIZEOF_PARTITION_INFO) then mret false
    else regs_loop uuid ret expected (Z.to_nat desc_count_per_invocation) 0.

(** [info[i]] in RX *)
Definition recv_info (i : Z) (mem : list Z) : option ffa_partition_info :=
  let at_ n off := field n (SIZEOF_PARTITION_INFO * i + off) mem in
  match at_ 2%nat 0, at_ 2%nat 2, at_ 4%nat 4, at_ 4%nat 8, at_ 4%nat 12, at_ 4%nat 16, at_ 4%nat 20 with
  | Some a, Some b, Some c, Some u0, Some u1, Some u2, Some u3 =>
      Some {| id := a; exec_context := b; properties := c;
              protocol_uuid := {| uuid0 := u0; uuid1 := u1; uuid2 := u2; uuid3 := u3 |} |}
  | _, _, _, _, _, _, _ => None
  end.
Fixpoint info_loop (uuid : ffa_uuid) (expected : list ffa_partition_info) (n : nat) (i : Z) : N bool :=
  match n with
  | O => mret true
  | S n' =>
      s ← get;
      info ← of_option (recv_info i (rx s));
      e ← of_option (zget expected i);
      rest ← info_loop uuid expected n' (i + 1);
      mret (ffa_compare_partition_info uuid info e && rest)
  end.
Definition ffa_partition_info_helper (uuid : ffa_uuid) (expected : list ffa_partition_info) (expected_size : Z) : N bool :=
  ret ← ffa_partition_info_get uuid;
  r ← (if ffa_func_id ret =? FFA_SUCCESS_SMC32 then
         if negb (ffa_partition_info_count ret =? expected_size) then mret None
         else if negb (ffa_partition_info_desc_size ret =? SIZEOF_PARTITION_INFO) then mret None
         else result ← info_loop uuid expected (Z.to_nat expected_size) 0; mret (Some result)
       else mret (Some true));
  match r with
  | None => mret false
  | Some result => ret ← ffa_rx_release; mret (result && negb (is_ffa_call_error ret))
  end.

(** ** Messages *)

(** [ffa_rxtx_header_init()] on the header at the start of TX *)
Definition ffa_rxtx_header_init (sender receiver size : Z) : N unit :=
  store 4 0 0;;
  store 4 4 0;;
  store 4 8 FFA_RXTX_HEADER_SIZE;;
  store 2 14 sender;;
  store 2 12 receiver;;
  store 4 16 size;;
  store 4 20 0;;
  store_bytes 24 (replicate 16 0).

Definition send_indirect_message (from to : Z) (payload : list Z) (send_flags : Z) : N ffa_value :=
  ffa_rxtx_header_init from to (u32 (zlen payload));;
  store_bytes FFA_RXTX_HEADER_SIZE payload;;
  ffa_msg_send2 send_flags.

(** Whether it succeeded, the buffer of the caller, and the sender if it is
    stored *)
Definition receive_indirect_message (buffer : list Z) (buffer_size receiver_id own_id : Z) : N (bool * list Z * option Z) :=
  if FFA_MSG_PAYLOAD_MAX <? buffer_size then mret (false, buffer, None)
  else
    ret ← ffa_notification_get receiver_id 0 FFA_NOTIFICATIONS_FLAG_BITMAP_SPM;
    if is_ffa_call_error ret then mret (false, buffer, None)
    else
      let fwk_notif := ffa_notification_get_from_framework ret in
      if fwk_notif =? 0 then mret (false, buffer, None)
      else
        s ← get;
        header_receiver ← of_option (field 2 12 (rx s));
        source_vm_id ← of_option (field 2 14 (rx s));
        header_size ← of_option (field 4 16 (rx s));
        (if FFA_RXTX_HEADER_SIZE <=? zlen (rx s) then mret tt else fail OutOfBounds);;
        (if is_ffa_spm_buffer_full_notification fwk_notif then assert_ (IS_SP_ID source_vm_id) else mret tt);;
        if buffer_size <? header_size then mret (false, buffer, None)
        else
          (if (FFA_RXTX_HEADER_SIZE + header_size <=? zlen (rx s)) && (header_size <=? zlen buffer) then mret tt else fail OutOfBounds);;
          let buffer := splice 0 (slice FFA_RXTX_HEADER_SIZE header_size (rx s)) buffer in
          ret ← (if negb (receiver_id =? own_id) then ffa_rx_release_with_id receiver_id else ffa_rx_release);
          if is_ffa_call_error ret then mret (false, buffer, None)
          else if negb (receiver_id =? header_receiver) then mret (false, buffer, None)
          else mret (true, buffer, Some source_vm_id).

(** ** Commands to a test partition (cactus_test_cmds.h) *)

Definition CACTUS_SUCCESS : Z := 0.
Definition CACTUS_INTERRUPT_CMD : Z := 0x696e7472.
Definition INTERRUPT_TYPE_IRQ : Z := 0.
Definition cactus_send_cmd (source dest cmd val0 val1 val2 val3 : Z) : N ffa_value :=
  ffa_msg_send_direct_req64 source dest cmd val0 val1 val2 val3.
Definition cactus_interrupt_cmd (source dest interrupt_id : Z) (enable : bool) (pin : Z) : N ffa_value :=
  cactus_send_cmd source dest CACTUS_INTERRUPT_CMD interrupt_id (if enable then 1 else 0) pin 0.

(** [IRQ_TWDOG_INTID] is a constant of the platform. *)
Definition configure_trusted_wdog_interrupt (IRQ_TWDOG_INTID source dest : Z) (enable : bool) : N bool :=
  ret_values ← cactus_interrupt_cmd source dest IRQ_TWDOG_INTID enable INTERRUPT_TYPE_IRQ;
  if negb (is_ffa_direct_response ret_values) then mret false
  else mret (cactus_get_response ret_values =? CACTUS_SUCCESS).
Definition enable_trusted_wdog_interrupt (IRQ_TWDOG_INTID source dest : Z) : N bool :=
  configure_trusted_wdog_interrupt IRQ_TWDOG_INTID source dest true.
Definition disable_trusted_wdog_interrupt (IRQ_TWDOG_INTID source dest : Z) : N bool :=
  configure_trusted_wdog_interrupt IRQ_TWDOG_INTID source dest false.

End Mem.
