(* ===== verification/FfaSpec.v ===== *)
(** * What FF-A descriptors and transactions carry

    The bytes of a memory transaction as a whole ([message]), what the helpers
    of [FfaMem] write of them, and what the partition manager gets. *)

From S2P Require Import Prelude Bits Bytes Ffa FfaMem.

Local Open Scope Z_scope.

(** ** The message *)

Definition header_bytes (sender attributes flags handle tag receiver_count : Z) : list Z :=
  le_bytes 2 sender ++ le_bytes 2 attributes ++ le_bytes 4 flags ++ le_bytes 8 handle ++ le_bytes 8 tag
  ++ le_bytes 4 SIZEOF_MEMORY_ACCESS ++ le_bytes 4 receiver_count ++ le_bytes 4 SIZEOF_MEMORY_REGION ++ replicate 12 0.

Definition with_offset (off : Z) (a : ffa_memory_access) : ffa_memory_access :=
  {| receiver := receiver a; permissions := permissions a; receiver_flags := receiver_flags a;
     composite_memory_region_offset := off; impdef := impdef a; reserved_0 := reserved_0 a |}.

(** Where the composite descriptor is, for [n] receivers *)
Definition composite_at (n : Z) : Z := SIZEOF_MEMORY_REGION + n * SIZEOF_MEMORY_ACCESS.

Definition receivers_bytes (receivers : list ffa_memory_access) : list Z :=
  concat (access_bytes ∘ with_offset (composite_at (zlen receivers)) <$> receivers).

Definition pages (cs : list ffa_memory_region_constituent) : Z := zsum page_count cs.

Definition composite_bytes (cs : list ffa_memory_region_constituent) : list Z :=
  le_bytes 4 (pages cs) ++ le_bytes 4 (zlen cs) ++ le_bytes 8 0.

Definition constituents_bytes (cs : list ffa_memory_region_constituent) : list Z := concat (constituent_bytes <$> cs).

(** All but the constituents *)
Definition message_head (sender attributes flags handle tag : Z) (receivers : list ffa_memory_access)
    (cs : list ffa_memory_region_constituent) : list Z :=
  header_bytes sender attributes flags handle tag (zlen receivers) ++ receivers_bytes receivers ++ composite_bytes cs.
Definition message (sender attributes flags handle tag : Z) (receivers : list ffa_memory_access)
    (cs : list ffa_memory_region_constituent) : list Z :=
  message_head sender attributes flags handle tag receivers cs ++ constituents_bytes cs.

Lemma zlen_le (n : nat) (v : Z) : zlen (le_bytes n v) = Z.of_nat n.
Proof. unfold zlen. by rewrite length_le_bytes. Qed.

Lemma zlen_nil_0 : zlen (@nil Z) = 0.
Proof. done. Qed.

Lemma zlen_header (a b c d e f : Z) : zlen (header_bytes a b c d e f) = 48.
Proof. unfold header_bytes. by rewrite !zlen_app, !zlen_le, zlen_replicate. Qed.
Lemma zlen_access (a : ffa_memory_access) : zlen (access_bytes a) = 32.
Proof. unfold access_bytes. by rewrite !zlen_app, !zlen_le. Qed.
Lemma zlen_constituent (c : ffa_memory_region_constituent) : zlen (constituent_bytes c) = 16.
Proof. unfold constituent_bytes. by rewrite !zlen_app, !zlen_le. Qed.
Lemma zlen_composite (cs : list ffa_memory_region_constituent) : zlen (composite_bytes cs) = 16.
Proof. unfold composite_bytes. by rewrite !zlen_app, !zlen_le. Qed.

Lemma zlen_concat_fixed {A} (f : A → list Z) (k : Z) (l : list A) : (∀ a, zlen (f a) = k) → zlen (concat (f <$> l)) = k * zlen l.
Proof.
  intros Hf. induction l as [|a l IH]; [unfold zlen; cbn; lia|]. rewrite fmap_cons. cbn [concat]. rewrite zlen_app, IH, Hf, zlen_cons. lia.
Qed.
Lemma zlen_receivers (rs : list ffa_memory_access) : zlen (receivers_bytes rs) = 32 * zlen rs.
Proof. unfold receivers_bytes. rewrite (zlen_concat_fixed _ 32); [done|]. intros a. apply zlen_access. Qed.
Lemma zlen_constituents (cs : list ffa_memory_region_constituent) : zlen (constituents_bytes cs) = 16 * zlen cs.
Proof. apply zlen_concat_fixed, zlen_constituent. Qed.

Lemma zlen_head (sender attributes flags handle tag : Z) (rs : list ffa_memory_access) (cs : list ffa_memory_region_constituent) :
  zlen (message_head sender attributes flags handle tag rs cs) = composite_at (zlen rs) + 16.
Proof.
  unfold message_head, composite_at, SIZEOF_MEMORY_REGION, SIZEOF_MEMORY_ACCESS.
  rewrite !zlen_app, zlen_header, zlen_receivers, zlen_composite. lia.
Qed.

Section Write.

Context {D : Type} `{Spmc D}.

Abbreviation state := (ffa_state D).

(** TX starts with [X]; otherwise nothing has changed since [s0]. *)
Definition laid (s0 : state) (X : list Z) (s : state) : Prop :=
  (∃ rest, tx s = X ++ rest) ∧ zlen (tx s) = zlen (tx s0) ∧ spmc s = spmc s0 ∧ rx s = rx s0.

Lemma laid_start (s : state) : laid s [] s.
Proof. split_and!; try done. by exists (tx s). Qed.

(** A store over [B] between [A] and [C], or behind [A] *)
Lemma laid_mid (s0 s : state) (A B C d : list Z) (off : Z) : laid s0 (A ++ B ++ C) s → off = zlen A → zlen d = zlen B →
  returns (store_bytes off d) s (λ _, laid s0 (A ++ d ++ C)).
Proof.
  intros ((rest & Htx) & Hlen & Hd & Hr) -> Hz. pose proof (zlen_nonneg A). pose proof (zlen_nonneg C). pose proof (zlen_nonneg rest).
  unfold returns, store_bytes. rewrite Htx, !zlen_app. rewrite (proj2 (Z.leb_le 0 (zlen A))), (proj2 (Z.leb_le _ _)) by lia. cbn [andb].
  split_and!; try done.
  - exists rest. cbn [tx set_tx]. rewrite <- !app_assoc, <- (Z.add_0_r (zlen A)), splice_middle by lia. f_equal.
    unfold splice. cbn [Z.to_nat take app Nat.add]. change (Z.to_nat 0) with 0%nat. cbn [take app Nat.add].
    rewrite drop_ge by (unfold zlen in Hz; lia). by rewrite app_nil_r.
  - cbn [tx set_tx]. rewrite zlen_splice; [|lia|rewrite !zlen_app; lia]. rewrite <- Hlen, Htx. done.
Qed.

Lemma laid_next (s0 s : state) (X d : list Z) (off : Z) : laid s0 X s → off = zlen X → zlen X + zlen d <= zlen (tx s0) →
  returns (store_bytes off d) s (λ _, laid s0 (X ++ d)).
Proof.
  intros ((rest & Htx) & Hlen & Hd & Hr) -> Hroom.
  assert (laid s0 (X ++ take (length d) rest ++ []) s) as Hl.
  { split_and!; try done. exists (drop (length d) rest). by rewrite app_nil_r, <- app_assoc, take_drop. }
  eapply returns_mono; [eapply laid_mid; [exact Hl|done|]|].
  - rewrite <- Hlen, Htx, zlen_app in Hroom. unfold zlen in *. rewrite length_take. lia.
  - cbn. intros _ s'. by rewrite app_nil_r.
Qed.

Lemma laid_load (s0 s : state) (A B C : list Z) (n : nat) (off : Z) : laid s0 (A ++ B ++ C) s → off = zlen A → length B = n →
  load n off s = Ok (le_value B, s).
Proof.
  intros ((rest & Htx) & Hlen & _) -> <-. pose proof (zlen_nonneg A). pose proof (zlen_nonneg C). pose proof (zlen_nonneg rest).
  unfold load, field. erewrite bind_Ok by reflexivity. rewrite Htx, !zlen_app, (proj2 (Z.leb_le 0 (zlen A))), (proj2 (Z.leb_le _ _))
    by (unfold zlen in *; lia). cbn [andb of_option].
  rewrite <- !app_assoc, slice_app_r by lia. by rewrite Z.sub_diag, slice_app_l by done.
Qed.

Lemma laid_room (s0 s : state) (X : list Z) : laid s0 X s → zlen X <= zlen (tx s0).
Proof. intros ((rest & Htx) & Hlen & _). rewrite <- Hlen, Htx, zlen_app. pose proof (zlen_nonneg rest). lia. Qed.

(** ** The header *)

Lemma header_run (s0 s : state) (sender attributes flags handle tag n : Z) : laid s0 [] s → 48 <= zlen (tx s0) →
  returns (ffa_memory_region_init_header sender attributes flags handle tag n) s
    (λ _, laid s0 (header_bytes sender attributes flags handle tag n)).
Proof.
  intros Hl Hroom. unfold ffa_memory_region_init_header, store.
  repeat (eapply returns_bind; [eapply laid_next; [eassumption|by rewrite ?zlen_app, ?zlen_le|rewrite ?zlen_app, ?zlen_le, ?zlen_nil_0; lia]|
    cbn beta; clear s Hl; intros _ s Hl]).
  eapply returns_mono; [eapply laid_next; [eassumption|by rewrite ?zlen_app, ?zlen_le|rewrite ?zlen_app, ?zlen_le, ?zlen_nil_0, zlen_replicate; lia]|].
  cbn beta. intros _ s' Hl'. unfold header_bytes. by rewrite <- !app_assoc in Hl'.
Qed.

(** ** The receivers *)

Lemma access_split (a : ffa_memory_access) :
  access_bytes a = (le_bytes 2 (receiver a) ++ le_bytes 1 (permissions a) ++ le_bytes 1 (receiver_flags a))
    ++ le_bytes 4 (composite_memory_region_offset a) ++ le_bytes 8 (impdef a).1 ++ le_bytes 8 (impdef a).2 ++ le_bytes 8 (reserved_0 a).
Proof. unfold access_bytes. by rewrite <- !app_assoc. Qed.

Lemma offsets_run (s0 : state) (X : list Z) (n : Z) (ds rs : list ffa_memory_access) (s : state) : zlen X = 48 →
  laid s0 (X ++ concat (access_bytes ∘ with_offset (composite_at n) <$> ds) ++ concat (access_bytes <$> rs)) s →
  returns (composite_offsets n (length rs) (zlen ds)) s
    (λ _, laid s0 (X ++ concat (access_bytes ∘ with_offset (composite_at n) <$> ds ++ rs))).
Proof.
  intros HX. revert ds s. induction rs as [|a rs IH]; intros ds s Hl.
  { cbn in *. rewrite app_nil_r in *. done. }
  cbn [length composite_offsets]. set (f := access_bytes ∘ with_offset (composite_at n)) in *.
  assert (zlen (concat (f <$> ds)) = 32 * zlen ds) as Hds by (apply zlen_concat_fixed; intros; apply zlen_access).
  rewrite fmap_cons in Hl. cbn [concat] in Hl. rewrite access_split in Hl.
  eapply returns_bind.
  - unfold store.
    eapply (laid_mid s0 s (X ++ concat (f <$> ds) ++ le_bytes 2 (receiver a) ++ le_bytes 1 (permissions a) ++ le_bytes 1 (receiver_flags a))
      (le_bytes 4 (composite_memory_region_offset a))
      ((le_bytes 8 (impdef a).1 ++ le_bytes 8 (impdef a).2 ++ le_bytes 8 (reserved_0 a)) ++ concat (access_bytes <$> rs))).
    + by rewrite <- !app_assoc in *.
    + rewrite !zlen_app, HX, Hds, !zlen_le. unfold SIZEOF_MEMORY_REGION, SIZEOF_MEMORY_ACCESS. lia.
    + by rewrite !zlen_le.
  - cbn beta. clear s Hl. intros _ s Hl. specialize (IH (ds ++ [a]) s). rewrite <- app_assoc in IH. cbn [app] in IH.
    rewrite zlen_app in IH. change (zlen [a]) with 1 in IH. apply IH. rewrite fmap_app, concat_app. cbn [fmap list_fmap concat]. rewrite app_nil_r.
    assert (f a = le_bytes 2 (receiver a) ++ le_bytes 1 (permissions a) ++ le_bytes 1 (receiver_flags a) ++ le_bytes 4 (composite_at n)
      ++ le_bytes 8 (impdef a).1 ++ le_bytes 8 (impdef a).2 ++ le_bytes 8 (reserved_0 a)) as -> by done.
    by rewrite <- !app_assoc in *.
Qed.

(** ** The constituents *)

Lemma le_bytes_mod (n : nat) (v : Z) : le_bytes n (v mod 2 ^ (8 * Z.of_nat n)) = le_bytes n v.
Proof.
  rewrite <- le_value_bytes, le_bytes_value; rewrite ?length_le_bytes; [|apply le_bytes_range|done].
  rewrite Nat.sub_diag. apply app_nil_r.
Qed.

Lemma le_bytes_u32 (v : Z) : le_bytes 4 (u32 v) = le_bytes 4 v.
Proof. apply (le_bytes_mod 4). Qed.

Lemma pages_added (p c : Z) : le_bytes 4 (u32 (le_value (le_bytes 4 p) + c)) = le_bytes 4 (p + c).
Proof.
  rewrite le_value_bytes, le_bytes_u32. change (8 * Z.of_nat 4) with 32. rewrite <- (le_bytes_u32 (p mod 2 ^ 32 + c)), <- (le_bytes_u32 (p + c)).
  f_equal. unfold u32, wrap. rewrite Zplus_mod_idemp_l. done.
Qed.

Lemma copy_run (s0 : state) (X W K : list Z) (ctc cnt : Z) (cs : list ffa_memory_region_constituent) (i p : Z) (s : state) :
  zlen W = 12 → 0 <= i → 0 <= ctc → zlen K = 16 * Z.min i ctc → zlen X + 16 + 16 * Z.min (i + zlen cs) ctc <= zlen (tx s0) →
  laid s0 (X ++ le_bytes 4 p ++ W ++ K) s →
  returns (copy_loop (zlen X) ctc cs i) s
    (λ _, laid s0 (X ++ le_bytes 4 (p + pages cs) ++ W ++ K ++ constituents_bytes (take (Z.to_nat (ctc - i)) cs))).
Proof.
  intros HW. revert i p K s. induction cs as [|c cs IH]; intros i p K s Hi Hctc HK Hroom Hl.
  { cbn [copy_loop]. unfold returns. cbn. rewrite take_nil. cbn. unfold pages, zsum. cbn. by rewrite Z.add_0_r, app_nil_r. }
  cbn [copy_loop]. rewrite zlen_cons in Hroom.
  set (K' := if i <? ctc then K ++ constituent_bytes c else K).
  eapply (returns_bind _ _ _ (λ _, laid s0 (X ++ le_bytes 4 p ++ W ++ K'))).
  { subst K'. destruct (Z.ltb_spec i ctc) as [Hlt|Hge]; [|done]. eapply returns_mono.
    - eapply laid_next; [exact Hl|rewrite !zlen_app, zlen_le; unfold SIZEOF_COMPOSITE, SIZEOF_CONSTITUENT; lia|].
      rewrite !zlen_app, zlen_le, zlen_constituent. pose proof (zlen_nonneg cs). lia.
    - cbn beta. intros _ s'. by rewrite <- !app_assoc. }
  cbn beta. clear s Hl. intros _ s Hl. eapply (returns_bind _ _ _ (λ v s', v = le_value (le_bytes 4 p) ∧ s' = s)).
  { unfold returns. rewrite (laid_load s0 s X (le_bytes 4 p) (W ++ K')) by (done || apply length_le_bytes). done. }
  cbn beta. intros ? ? [-> ->]. eapply returns_bind.
  { unfold store. eapply (laid_mid s0 s X (le_bytes 4 p) (W ++ K')); [done|done|by rewrite !zlen_le]. }
  cbn beta. clear s Hl. intros _ s Hl. rewrite pages_added in Hl.
  assert (zlen K' = 16 * Z.min (i + 1) ctc) as HK'.
  { subst K'. destruct (Z.ltb_spec i ctc); rewrite ?zlen_app, ?zlen_constituent; lia. }
  eapply returns_mono; [apply (IH (i + 1) (p + page_count c) K' s); try done; try lia|].
  cbn beta. intros _ s' Hl'. replace (p + pages (c :: cs)) with (p + page_count c + pages cs) by (unfold pages, zsum; cbn; lia).
  assert (W ++ K ++ constituents_bytes (take (Z.to_nat (ctc - i)) (c :: cs))
    = W ++ K' ++ constituents_bytes (take (Z.to_nat (ctc - (i + 1))) cs)) as ->; [|done].
  f_equal. subst K'. destruct (Z.ltb_spec i ctc).
  - replace (Z.to_nat (ctc - i)) with (S (Z.to_nat (ctc - (i + 1)))) by lia. cbn [take]. unfold constituents_bytes. rewrite fmap_cons. cbn [concat].
    by rewrite <- app_assoc.
  - replace (Z.to_nat (ctc - i)) with 0%nat by lia. replace (Z.to_nat (ctc - (i + 1))) with 0%nat by lia. done.
Qed.

(** ** The descriptor as a whole *)

(** How many constituents fit into the first fragment *)
Definition first_count (max n : Z) (cs : list ffa_memory_region_constituent) : Z :=
  Z.min (zlen cs) ((max - (composite_at n + 16)) / 16).

(** The first fragment *)
Definition first_fragment (max sender attributes flags handle tag : Z) (rs : list ffa_memory_access)
    (cs : list ffa_memory_region_constituent) : list Z :=
  message_head sender attributes flags handle tag rs cs ++ constituents_bytes (take (Z.to_nat (first_count max (zlen rs) cs)) cs).

Lemma composite_at_start (n : Z) : composite_at n = 48 + 32 * n.
Proof. unfold composite_at, SIZEOF_MEMORY_REGION, SIZEOF_MEMORY_ACCESS. lia. Qed.

Lemma le_value_4 (v : Z) : 0 <= v <= UINT32_MAX → le_value (le_bytes 4 v) = v.
Proof. intros Hv. apply le_roundtrip. unfold UINT32_MAX in Hv. change (2 ^ (8 * Z.of_nat 4)) with 4294967296. lia. Qed.

(** The offset of the composite descriptor, stored for the first receiver *)
Lemma first_offset (s0 s : state) (X Y : list Z) (rs : list ffa_memory_access) : zlen X = 48 → rs ≠ [] →
  composite_at (zlen rs) <= UINT32_MAX → laid s0 (X ++ receivers_bytes rs ++ Y) s →
  load 4 (SIZEOF_MEMORY_REGION + 4) s = Ok (composite_at (zlen rs), s)
  ∧ ffa_memory_region_get_composite (tx s) 0 = Some (Some (composite_at (zlen rs))).
Proof.
  intros HX Hne Hmax Hl. rewrite composite_at_start in *. pose proof (zlen_nonneg rs).
  assert (load 4 (SIZEOF_MEMORY_REGION + 4) s = Ok (48 + 32 * zlen rs, s)) as Hload.
  { rewrite <- (le_value_4 (48 + 32 * zlen rs)) by lia. destruct rs as [|a rs]; [done|]. unfold receivers_bytes in Hl. rewrite fmap_cons in Hl. cbn [concat compose] in Hl.
    rewrite access_split in Hl. rewrite <- (composite_at_start (zlen (a :: rs))). set (W := with_offset _ a) in *.
    apply (laid_load s0 s (X ++ le_bytes 2 (receiver W) ++ le_bytes 1 (permissions W) ++ le_bytes 1 (receiver_flags W))
      (le_bytes 4 (composite_memory_region_offset W)) ((le_bytes 8 (impdef W).1 ++ le_bytes 8 (impdef W).2 ++ le_bytes 8 (reserved_0 W))
      ++ concat (access_bytes ∘ with_offset (composite_at (zlen (a :: rs))) <$> rs) ++ Y)).
    - rewrite <- !app_assoc in *. done.
    - by rewrite !zlen_app, HX, !zlen_le.
    - apply length_le_bytes. }
  split; [done|]. unfold ffa_memory_region_get_composite. rewrite Z.mul_0_r, Z.add_0_r.
  unfold load in Hload. erewrite bind_Ok in Hload by reflexivity. destruct (field 4 (SIZEOF_MEMORY_REGION + 4) (tx s)) as [v|]; [|done].
  cbn in Hload. injection Hload as ->. rewrite (proj2 (Z.eqb_neq _ 0)) by lia. done.
Qed.

Lemma returns_step {S A B} (m : M S A) (f : A → M S B) (s s' : S) (a : A) (Q : B → S → Prop) :
  m s = Ok (a, s') → returns (f a) s' Q → returns (m ≫= f) s Q.
Proof. intros Hm Hq. unfold returns. by rewrite (bind_Ok _ _ _ _ _ Hm). Qed.

Lemma init_constituents_run (max : Z) (X : list Z) (rs : list ffa_memory_access) (cs : list ffa_memory_region_constituent) (s s1 : state) :
  let off := composite_at (zlen rs) + 16 in
  rs ≠ [] → off <= max <= UINT32_MAX → max <= zlen (tx s) → off + 16 * zlen cs <= UINT32_MAX → zlen X = 48 →
  laid s (X ++ concat (access_bytes <$> rs)) s1 → load 4 28 s1 = Ok (zlen rs, s1) →
  returns (ffa_memory_region_init_constituents max cs) s1 (λ r s',
    r = (zlen cs - first_count max (zlen rs) cs, off + 16 * zlen cs, off + 16 * first_count max (zlen rs) cs)
    ∧ laid s (X ++ receivers_bytes rs ++ composite_bytes cs ++ constituents_bytes (take (Z.to_nat (first_count max (zlen rs) cs)) cs)) s').
Proof.
  intros off Hne Hmax Htx Htotal HX L1 Hcount. pose proof (composite_at_start (zlen rs)) as Hc. pose proof (zlen_nonneg rs). pose proof (zlen_nonneg cs).
  unfold ffa_memory_region_init_constituents. eapply returns_step; [exact Hcount|]. eapply returns_bind.
  { unfold zlen at 2. rewrite Nat2Z.id. apply (offsets_run s X (zlen rs) [] rs); [done|]. exact L1. }
  cbn beta. cbn [app]. fold (receivers_bytes rs). clear s1 L1 Hcount. intros _ s1 L1.
  assert (zlen (X ++ receivers_bytes rs) = composite_at (zlen rs)) as HXR by (rewrite zlen_app, HX, zlen_receivers; lia).
  eapply returns_step; [reflexivity|]. cbn beta.
  destruct (first_offset s s1 X [] rs HX Hne ltac:(lia) ltac:(by rewrite app_nil_r)) as [_ Hcomp].
  eapply returns_step; [by rewrite Hcomp|]. eapply returns_step; [reflexivity|]. clear Hcomp.
  do 3 (eapply returns_bind; [unfold store; eapply laid_next; [eassumption|rewrite ?zlen_app, ?zlen_le; rewrite ?zlen_app in HXR; lia|
    rewrite ?zlen_app, ?zlen_le; rewrite ?zlen_app in HXR; lia]|cbn beta; clear s1 L1; intros _ s1 L1; rewrite <- ?app_assoc in L1]).
  destruct (first_offset s s1 X (le_bytes 4 0 ++ le_bytes 4 (zlen cs) ++ le_bytes 8 0) rs HX Hne ltac:(lia) L1) as [Hoff _].
  eapply returns_step; [exact Hoff|]. clear Hoff.
  unfold SIZEOF_COMPOSITE, SIZEOF_CONSTITUENT. fold off. rewrite (u32_small off) by lia. rewrite u64_small by (unfold UINT64_MAX, UINT32_MAX in *; lia).
  assert (0 <= (max - off) / 16 <= max) as Hdiv by (split; [apply Z.div_pos; lia|apply Z.div_le_upper_bound; lia]).
  rewrite (u32_small ((max - off) / 16)) by lia.
  assert ((if (max - off) / 16 <? zlen cs then (max - off) / 16 else zlen cs) = first_count max (zlen rs) cs) as ->.
  { unfold first_count. fold off. case_Z; lia. }
  assert (0 <= first_count max (zlen rs) cs <= zlen cs ∧ 16 * first_count max (zlen rs) cs <= max - off) as [Hk Hfit].
  { unfold first_count. fold off. pose proof (Z.mul_div_le (max - off) 16 ltac:(lia)). lia. }
  rewrite <- HXR at 1. eapply returns_bind.
  { apply (copy_run s (X ++ receivers_bytes rs) (le_bytes 4 (zlen cs) ++ le_bytes 8 0) [] _ (zlen cs) cs 0 0); try done; try lia;
      first [by rewrite Z.min_l by lia|rewrite <- !app_assoc; by rewrite app_nil_r]. }
  cbn beta. clear s1 L1. intros _ s1 L1. rewrite Z.sub_0_r, Z.add_0_l in L1.
  eapply returns_step.
  { rewrite <- HXR. apply (laid_load s s1 ((X ++ receivers_bytes rs) ++ le_bytes 4 (pages cs)) (le_bytes 4 (zlen cs))
      (le_bytes 8 0 ++ [] ++ constituents_bytes (take (Z.to_nat (first_count max (zlen rs) cs)) cs))).
    - by rewrite <- !app_assoc in *.
    - rewrite (zlen_app (X ++ _)), zlen_le. done.
    - apply length_le_bytes. }
  rewrite le_value_4 by lia. unfold returns, mret, M_ret. cbv beta iota. assert (64 <= off) by (subst off; lia).
  rewrite !u32_small by (unfold UINT32_MAX in *; lia). split; [f_equal; [f_equal|]; lia|].
  unfold composite_bytes. by rewrite <- !app_assoc in *.
Qed.

Lemma region_init_run (max sender tag flags cacheability shareability : Z) (type : ffa_memory_type) (rs : list ffa_memory_access)
    (cs : list ffa_memory_region_constituent) (s : state) :
  let attributes := attributes_code type cacheability shareability in let off := composite_at (zlen rs) + 16 in
  rs ≠ [] → off <= max <= UINT32_MAX → max <= zlen (tx s) → off + 16 * zlen cs <= UINT32_MAX →
  returns (ffa_memory_region_init max sender rs cs tag flags type cacheability shareability) s (λ r s',
    r = (zlen cs - first_count max (zlen rs) cs, off + 16 * zlen cs, off + 16 * first_count max (zlen rs) cs)
    ∧ laid s (first_fragment max sender attributes flags 0 tag rs cs) s').
Proof.
  intros attributes off Hne Hmax Htx Htotal. pose proof (composite_at_start (zlen rs)) as Hc. pose proof (zlen_nonneg rs). pose proof (zlen_nonneg cs).
  set (H48 := header_bytes sender attributes flags 0 tag (zlen rs)). assert (zlen H48 = 48) as HH by apply zlen_header.
  assert (zlen (concat (access_bytes <$> rs)) = 32 * zlen rs) as Hr by (apply zlen_concat_fixed, zlen_access).
  unfold ffa_memory_region_init. eapply returns_bind; [eapply header_run; [apply laid_start|lia]|]. cbn beta. fold attributes H48. intros _ s1 L1.
  eapply returns_bind; [eapply laid_next; [exact L1|done|rewrite Hr, HH; lia]|]. cbn beta. clear s1 L1. intros _ s1 L1.
  eapply returns_mono.
  - apply (init_constituents_run max H48 rs cs s s1); try done; try lia. rewrite <- (le_value_4 (zlen rs)) by lia.
    subst H48. unfold header_bytes in L1. rewrite <- !app_assoc in L1.
    apply (laid_load s s1 (le_bytes 2 sender ++ le_bytes 2 attributes ++ le_bytes 4 flags ++ le_bytes 8 0 ++ le_bytes 8 tag ++ le_bytes 4 SIZEOF_MEMORY_ACCESS)
      (le_bytes 4 (zlen rs)) (le_bytes 4 SIZEOF_MEMORY_REGION ++ replicate 12 0 ++ concat (access_bytes <$> rs))).
    + by rewrite <- !app_assoc.
    + by rewrite !zlen_app, !zlen_le.
    + apply length_le_bytes.
  - cbn beta. intros r s' [-> Hl]. split; [done|]. unfold first_fragment, message_head. fold H48. by rewrite <- !app_assoc in *.
Qed.

(** ** Fragments *)

Lemma fragment_loop_run (s0 : state) (cs : list ffa_memory_region_constituent) (n : nat) (i : Z) (K : list Z) (s : state) :
  (n ≤ length cs)%nat → zlen K = 16 * i → 16 * (i + Z.of_nat n) <= zlen (tx s0) → laid s0 K s →
  returns (fragment_loop cs n i) s (λ _, laid s0 (K ++ constituents_bytes (take n cs))).
Proof.
  revert cs i K s. induction n as [|n IH]; intros cs i K s Hn HK Hroom Hl.
  { destruct cs; cbn; unfold returns; cbn; by rewrite app_nil_r. }
  destruct cs as [|c cs]; [cbn in Hn; lia|]. cbn [fragment_loop]. eapply returns_bind.
  { eapply laid_next; [exact Hl|unfold SIZEOF_CONSTITUENT; lia|rewrite zlen_constituent; lia]. }
  cbn beta. clear s Hl. intros _ s Hl. eapply returns_mono; [apply (IH cs (i + 1) (K ++ constituent_bytes c))|].
  - cbn in Hn. lia.
  - rewrite zlen_app, zlen_constituent. lia.
  - lia.
  - done.
  - cbn beta. intros _ s'. cbn [take]. unfold constituents_bytes. rewrite fmap_cons. cbn [concat]. by rewrite <- app_assoc.
Qed.

(** How many constituents a further fragment holds *)
Definition next_count (cs : list ffa_memory_region_constituent) : Z := Z.min (zlen cs) 256.

Lemma fragment_init_run (cs : list ffa_memory_region_constituent) (s : state) : PAGE_SIZE <= zlen (tx s) → zlen cs <= UINT32_MAX →
  returns (ffa_memory_fragment_init PAGE_SIZE cs (zlen cs)) s (λ r s',
    r = (zlen cs - next_count cs, 16 * next_count cs) ∧ laid s (constituents_bytes (take (Z.to_nat (next_count cs)) cs)) s').
Proof.
  intros Hpage Hmax. pose proof (zlen_nonneg cs). unfold ffa_memory_fragment_init. change (u32 (PAGE_SIZE / SIZEOF_CONSTITUENT)) with 256. fold (next_count cs).
  assert (0 <= next_count cs <= zlen cs ∧ next_count cs <= 256) as [Hk H256] by (unfold next_count; lia). unfold PAGE_SIZE in Hpage.
  eapply returns_bind; [apply (fragment_loop_run s cs (Z.to_nat (next_count cs)) 0 []); [unfold zlen in Hk; lia|done|lia|apply laid_start]|].
  cbn beta. cbn [app]. intros _ s' Hl. unfold returns, mret, M_ret, SIZEOF_CONSTITUENT. cbv beta iota.
  rewrite !u32_small by (unfold UINT32_MAX in *; lia). split; [f_equal; lia|done].
Qed.

Lemma take_laid (s0 s : state) (X : list Z) (n : Z) : laid s0 X s → n = zlen X → take (Z.to_nat n) (tx s) = X.
Proof. intros ((rest & ->) & _) ->. unfold zlen. by rewrite Nat2Z.id, take_app_length. Qed.
End Write.

(** ** Sending to any manager *)

(** A manager of which the calls are recorded, newest first, with what was in TX *)
Definition recorded {D} `{Spmc D} : Spmc (D * list (ffa_value * list Z)) := {|
  spmc_call args t r d := let '(ret, r', d') := spmc_call args t r d.1 in (ret, r', (d', (args, t) :: d.2));
|}.

(** The bytes a call hands over, and those of a sequence of calls *)
Definition piece (e : ffa_value * list Z) : list Z :=
  take (Z.to_nat (if fid e.1 =? FFA_MEM_FRAG_TX then arg3 e.1 else arg2 e.1)) e.2.
Definition sent (log : list (ffa_value * list Z)) : list Z := concat (piece <$> reverse log).

Lemma sent_cons (e : ffa_value * list Z) (log : list (ffa_value * list Z)) : sent (e :: log) = sent log ++ piece e.
Proof. unfold sent. rewrite reverse_cons, fmap_app, concat_app. cbn. by rewrite app_nil_r. Qed.

Section AnyManager.

Context {D : Type} `{Spmc D}.

#[local] Hint Extern 0 (Spmc (D * list (ffa_value * list Z))) => exact recorded : typeclass_instances.

Abbreviation rstate := (ffa_state (D * list (ffa_value * list Z))).

Lemma recorded_call (args : ffa_value) (s : rstate) : ∃ ret d r,
  ffa_service_call args s = Ok (ret, {| spmc := (d, (args, tx s) :: (spmc s).2); tx := tx s; rx := r |}).
Proof. unfold ffa_service_call. cbn. destruct (spmc_call args (tx s) (rx s) (spmc s).1) as [[ret r] d] eqn:Hc. eauto. Qed.

(** The loop has sent [n] more constituents behind [X] and those before. *)
Definition loop_post (prior : list (ffa_value * list Z)) (X : list Z) (past todo : list ffa_memory_region_constituent) (len : Z) (s : rstate)
    (r : bool * ffa_value * Z * Z) (s' : rstate) : Prop :=
  let '(ok, ret', fh', len') := r in
  ∃ n, (n ≤ length todo)%nat ∧ sent (spmc s').2 = sent prior ++ X ++ constituents_bytes (past ++ take n todo)
    ∧ len' = len + 16 * Z.of_nat n ∧ (ok = true → n = length todo) ∧ zlen (tx s') = zlen (tx s).

Lemma loop_post_none (prior : list (ffa_value * list Z)) (X : list Z) (past todo : list ffa_memory_region_constituent) (len : Z) (s : rstate)
    (ok : bool) (ret : ffa_value) (fh : Z) :
  sent (spmc s).2 = sent prior ++ X ++ constituents_bytes past → (ok = true → todo = []) →
  loop_post prior X past todo len s (ok, ret, fh, len) s.
Proof. intros Hs Hok. exists 0%nat. rewrite app_nil_r. split_and!; try done; try lia. intros Ht. by rewrite (Hok Ht). Qed.

Lemma loop_post_more (prior : list (ffa_value * list Z)) (X : list Z) (past todo : list ffa_memory_region_constituent) (len : Z) (s s2 s' : rstate)
    (n : nat) (r : bool * ffa_value * Z * Z) : (n ≤ length todo)%nat → zlen (tx s2) = zlen (tx s) →
  loop_post prior X (past ++ take n todo) (drop n todo) (len + 16 * Z.of_nat n) s2 r s' → loop_post prior X past todo len s r s'.
Proof.
  destruct r as [[[ok ret'] f] l']. intros Hle Htx (m & Hm & Hs' & Hl' & Hok & Htx'). rewrite length_drop in *. exists (n + m)%nat. split_and!.
  - lia.
  - rewrite Hs', <- app_assoc. do 4 f_equal. rewrite <- (take_drop n (take (n + m) todo)), take_take, skipn_firstn_comm.
    f_equal; f_equal; lia.
  - lia.
  - intros Hk. specialize (Hok Hk). lia.
  - congruence.
Qed.

Lemma send_loop_any (cs : list ffa_memory_region_constituent) (k : nat) (past todo : list ffa_memory_region_constituent) (ret : ffa_value)
    (fh len : Z) (s : rstate) (prior : list (ffa_value * list Z)) (X : list Z) :
  cs = past ++ todo → (length todo ≤ k)%nat → PAGE_SIZE <= zlen (tx s) → 0 <= len → len + 16 * zlen todo <= UINT32_MAX →
  sent (spmc s).2 = sent prior ++ X ++ constituents_bytes past →
  returns (send_loop k cs (zlen todo) ret fh len) s (loop_post prior X past todo len s).
Proof.
  intros Hcs. revert past todo Hcs ret fh len s. induction k as [|k IH]; intros past todo Hcs ret fh len s Hk Hpage H0 Hlen Hsent.
  all: destruct todo as [|c todo'] eqn:Htodo; [apply (loop_post_none prior X past [] len s true); done|].
  { cbn in Hk. lia. }
  rewrite <- Htodo in *. assert (0 < zlen todo) as Hpos by (subst todo; rewrite zlen_cons; pose proof (zlen_nonneg todo'); lia).
  assert (∀ f, returns (mret (false, ret, f, len)) s (loop_post prior X past todo len s)) as Hgiveup.
  { intros f. by apply (loop_post_none prior X past todo len s false). }
  cbn [send_loop]. rewrite (proj2 (Z.eqb_neq (zlen todo) 0)) by lia.
  destruct (negb (fid ret =? FFA_MEM_FRAG_RX)); [apply Hgiveup|]. destruct (_ && negb (ffa_frag_handle ret =? fh)); [apply Hgiveup|].
  set (fh' := if fh =? FFA_MEMORY_HANDLE_INVALID then ffa_frag_handle ret else fh).
  destruct (negb (arg3 ret =? len)); [apply Hgiveup|].
  assert (drop (Z.to_nat (zlen cs - zlen todo)) cs = todo) as ->.
  { rewrite Hcs, zlen_app. replace (zlen past + zlen todo - zlen todo) with (zlen past) by lia. unfold zlen. by rewrite Nat2Z.id, drop_app_length. }
  eapply returns_bind; [apply fragment_init_run; [done|lia]|]. cbn beta. intros r s1 [-> Hl].
  set (n := Z.to_nat (next_count todo)). assert (next_count todo = Z.of_nat n) as Hnc by (subst n; unfold next_count; lia). rewrite Hnc.
  assert ((0 < n ≤ length todo)%nat) as Hn by (unfold next_count, zlen in *; lia).
  assert (zlen (constituents_bytes (take n todo)) = 16 * Z.of_nat n) as Hz by (rewrite zlen_constituents; unfold zlen; rewrite length_take; lia).
  pose proof (take_laid s s1 _ (16 * Z.of_nat n) Hl (eq_sym Hz)) as Htake. destruct Hl as (_ & Htx & Hsp & _). unfold ffa_mem_frag_tx.
  destruct (recorded_call (regs FFA_MEM_FRAG_TX (u32 fh') (u32 (Z.shiftr fh' 32)) (16 * Z.of_nat n) 0 0 0 0) s1) as (ret1 & d1 & r1 & Hcall).
  eapply returns_step; [exact Hcall|]. rewrite (u32_small (len + 16 * Z.of_nat n)) by (unfold zlen in *; lia).
  assert (zlen todo - Z.of_nat n = zlen (drop n todo)) as Hrem by (unfold zlen; rewrite length_drop; lia). rewrite Hrem.
  eapply returns_mono; [apply (IH (past ++ take n todo))|intros r s'; eapply loop_post_more; [lia|cbn; exact Htx]]; cbn [tx spmc snd].
  - by rewrite <- app_assoc, take_drop.
  - rewrite length_drop. lia.
  - lia.
  - lia.
  - rewrite <- Hrem. lia.
  - rewrite sent_cons, Hsp, Hsent. unfold piece. cbn [fst snd fid regs arg3]. rewrite Z.eqb_refl, Htake.
    unfold constituents_bytes. by rewrite fmap_app, concat_app, <- !app_assoc.
Qed.

(** The attributes [memory_init_and_send()] puts into the descriptor *)
Definition send_attributes (rs : list ffa_memory_access) (mem_func : Z) : Z :=
  attributes_code (if (zlen rs =? 1) && negb (mem_func =? FFA_MEM_SHARE_SMC64) then FFA_MEMORY_NOT_SPECIFIED_MEM else FFA_MEMORY_NORMAL_MEM)
    FFA_MEMORY_CACHE_WRITE_BACK FFA_MEMORY_INNER_SHAREABLE.

Lemma first_count_range (max n : Z) (cs : list ffa_memory_region_constituent) : composite_at n + 16 <= max →
  0 <= first_count max n cs <= zlen cs.
Proof. intros Hm. unfold first_count. pose proof (zlen_nonneg cs). pose proof (Z.div_pos (max - (composite_at n + 16)) 16 ltac:(lia) ltac:(lia)). lia. Qed.

Lemma zlen_first (max sender attributes flags handle tag : Z) (rs : list ffa_memory_access) (cs : list ffa_memory_region_constituent) :
  composite_at (zlen rs) + 16 <= max →
  zlen (first_fragment max sender attributes flags handle tag rs cs) = composite_at (zlen rs) + 16 + 16 * first_count max (zlen rs) cs.
Proof.
  intros Hm. pose proof (first_count_range max (zlen rs) cs Hm) as Hc. unfold first_fragment. rewrite zlen_app, zlen_head, zlen_constituents. unfold zlen in *.
  rewrite length_take. lia.
Qed.

(** What is handed over by the fragments, and the checks of the answers *)
Lemma fragmented_any (cs : list ffa_memory_region_constituent) (past todo : list ffa_memory_region_constituent) (ret : ffa_value)
    (len : Z) (s : rstate) (prior : list (ffa_value * list Z)) (X : list Z) :
  cs = past ++ todo → PAGE_SIZE <= zlen (tx s) → 0 <= len → len + 16 * zlen todo <= UINT32_MAX →
  sent (spmc s).2 = sent prior ++ X ++ constituents_bytes past →
  returns (send_fragmented_memory_region cs (zlen todo) len (len + 16 * zlen todo) true ret) s (λ r s',
    ∃ n, (n ≤ length todo)%nat ∧ sent (spmc s').2 = sent prior ++ X ++ constituents_bytes (past ++ take n todo)
      ∧ (r.1 = true → n = length todo ∧ fid r.2 = FFA_SUCCESS_SMC32 ∧ Z.testbit (ffa_mem_success_handle r.2) 63 = false)).
Proof.
  intros Hcs Hpage H0 Hlen Hs. unfold send_fragmented_memory_region. eapply returns_bind.
  { apply (send_loop_any cs (S (length cs)) past todo ret _ len s prior X); try done. rewrite Hcs, length_app. lia. }
  intros [[[ok ret'] fh] l'] s' (n & Hn & Hs' & Hl' & Hok & _).
  assert (∀ b r, (b = true → False) → returns (mret (b, r)) s' (λ r s', ∃ n, (n ≤ length todo)%nat
      ∧ sent (spmc s').2 = sent prior ++ X ++ constituents_bytes (past ++ take n todo)
      ∧ (r.1 = true → n = length todo ∧ fid r.2 = FFA_SUCCESS_SMC32 ∧ Z.testbit (ffa_mem_success_handle r.2) 63 = false))) as Hno.
  { intros b r Hb. exists n. split_and!; [done|done|]. intros Ht. by destruct (Hb Ht). }
  destruct ok; [|by apply Hno]. cbn [negb]. destruct (negb (l' =? _)); [by apply Hno|].
  destruct (fid ret' =? FFA_SUCCESS_SMC32) eqn:Hfid; [|by apply Hno]. cbn [negb]. apply Z.eqb_eq in Hfid.
  destruct (_ =? _) eqn:Hmask; cbn [negb]; [|by apply Hno]. destruct (_ && _); [by apply Hno|].
  exists n. split_and!; [done|done|]. intros _. split_and!; [auto|done|]. cbn [snd]. apply Z.eqb_eq in Hmask.
  unfold FFA_MEMORY_HANDLE_ALLOCATOR_SPMC, FFA_MEMORY_HANDLE_ALLOCATOR_SHIFT, FFA_MEMORY_HANDLE_ALLOCATOR_MASK in Hmask.
  assert (Z.testbit (Z.land (Z.shiftr (ffa_mem_success_handle ret') 63) 1) 0 = false) as Hb by (by rewrite Hmask).
  rewrite Z.land_spec, Z.shiftr_spec in Hb by lia. cbn in Hb. by rewrite andb_true_r in Hb.
Qed.

Lemma memory_send_any (mem_func : Z) (cs past todo : list ffa_memory_region_constituent) (ret : ffa_value) (s0 s : rstate) (X : list Z) :
  let F := X ++ constituents_bytes past in
  cs = past ++ todo → laid s0 F s → PAGE_SIZE <= zlen (tx s0) → zlen F + 16 * zlen todo <= UINT32_MAX →
  returns (memory_send mem_func cs (zlen todo) (zlen F) (zlen F + 16 * zlen todo) ret) s (λ r s',
    (sent (spmc s').2 = sent (spmc s0).2 ∧ r.1 = FFA_MEMORY_HANDLE_INVALID)
    ∨ ∃ n, (n ≤ length todo)%nat ∧ sent (spmc s').2 = sent (spmc s0).2 ++ X ++ constituents_bytes (past ++ take n todo)
      ∧ (r.1 ≠ FFA_MEMORY_HANDLE_INVALID →
           n = length todo ∧ fid r.2 = FFA_SUCCESS_SMC32 ∧ r.1 = ffa_mem_success_handle r.2 ∧ Z.testbit r.1 63 = false)).
Proof.
  intros F Hcs Hl Hpage Hmax. pose proof (zlen_nonneg F). pose proof (zlen_nonneg todo). unfold memory_send.
  replace ((zlen todo =? 0) && negb (zlen F =? zlen F + 16 * zlen todo)) with false.
  2: { destruct (Z.eqb_spec (zlen todo) 0) as [->|]; [|done]. rewrite Z.mul_0_r, Z.add_0_r, Z.eqb_refl. done. }
  pose proof (take_laid s0 s F (zlen F) Hl eq_refl) as Htake. destruct Hl as (_ & Htx & Hsp & _).
  assert (∀ f (call : M rstate ffa_value), f ≠ FFA_MEM_FRAG_TX →
    call = ffa_service_call (regs f (zlen F + 16 * zlen todo) (zlen F) FFA_PARAM_MBZ FFA_PARAM_MBZ 0 0 0) →
    returns (call ≫= λ ret, if is_ffa_call_error ret then mret (FFA_MEMORY_HANDLE_INVALID, ret)
      else send_fragmented_memory_region cs (zlen todo) (zlen F) (zlen F + 16 * zlen todo) true ret ≫= λ '(ok, ret),
        if negb ok then mret (FFA_MEMORY_HANDLE_INVALID, ret) else mret (ffa_mem_success_handle ret, ret)) s (λ r s',
    (sent (spmc s').2 = sent (spmc s0).2 ∧ r.1 = FFA_MEMORY_HANDLE_INVALID)
    ∨ ∃ n, (n ≤ length todo)%nat ∧ sent (spmc s').2 = sent (spmc s0).2 ++ X ++ constituents_bytes (past ++ take n todo)
      ∧ (r.1 ≠ FFA_MEMORY_HANDLE_INVALID →
           n = length todo ∧ fid r.2 = FFA_SUCCESS_SMC32 ∧ r.1 = ffa_mem_success_handle r.2 ∧ Z.testbit r.1 63 = false))) as Hcall.
  { intros f call Hf ->. destruct (recorded_call (regs f (zlen F + 16 * zlen todo) (zlen F) FFA_PARAM_MBZ FFA_PARAM_MBZ 0 0 0) s) as (ret1 & d1 & r1 & Hc).
    eapply returns_step; [exact Hc|]. clear Hc. set (e := (regs _ _ _ _ _ _ _ _, tx s)).
    assert (sent (e :: (spmc s).2) = sent (spmc s0).2 ++ X ++ constituents_bytes past) as Hsent.
    { rewrite sent_cons, Hsp. subst e. unfold piece. cbn [fst snd fid arg2 regs]. rewrite (proj2 (Z.eqb_neq _ _) Hf), Htake. done. }
    destruct (is_ffa_call_error ret1).
    { right. exists 0%nat. cbn [spmc snd]. rewrite app_nil_r. split_and!; [lia|done|]. by intros []. }
    eapply returns_bind; [apply (fragmented_any cs past todo ret1 (zlen F) _ (spmc s0).2 X Hcs); cbn [tx spmc snd]; try done; lia|].
    intros [ok ret'] s' (n & Hn & Hs' & Hok). destruct ok; right; exists n; split_and!; try done.
    intros _. destruct (Hok eq_refl) as (? & ? & ?). done. }
  unfold ffa_mem_share, ffa_mem_lend, ffa_mem_donate. repeat case_Z.
  - apply (Hcall FFA_MEM_SHARE_SMC64); [by vm_compute|done].
  - apply (Hcall FFA_MEM_LEND_SMC64); [by vm_compute|done].
  - apply (Hcall FFA_MEM_DONATE_SMC64); [by vm_compute|done].
  - left. by rewrite Hsp.
Qed.

(** C17: Whatever the partition manager answers, [memory_init_and_send()] returns,
    what it hands over in TX is a prefix of the message for the memory region
    it was given (header, receivers, pages and all constituents), and it
    returns a handle only if the whole message was handed over and the last
    answer was success with this handle, which is one of the manager. *)
Theorem ffa_handle_means_sent (max sender mem_func : Z) (rs : list ffa_memory_access) (cs : list ffa_memory_region_constituent)
    (ret : ffa_value) (s : rstate) :
  let m := message sender (send_attributes rs mem_func) 0 0 0 rs cs in
  rs ≠ [] → composite_at (zlen rs) + 16 <= max <= UINT32_MAX → max <= zlen (tx s) → PAGE_SIZE <= zlen (tx s) → zlen m <= UINT32_MAX →
  returns (memory_init_and_send max sender rs cs mem_func ret) s (λ r s',
    ∃ out rest, sent (spmc s').2 = sent (spmc s).2 ++ out ∧ m = out ++ rest
      ∧ (r.1 ≠ FFA_MEMORY_HANDLE_INVALID →
           rest = [] ∧ fid r.2 = FFA_SUCCESS_SMC32 ∧ r.1 = ffa_mem_success_handle r.2 ∧ Z.testbit r.1 63 = false)).
Proof.
  intros m Hne Hmax Htx Hpage Hm. subst m. unfold message in Hm. rewrite zlen_app, zlen_head, zlen_constituents in Hm.
  unfold memory_init_and_send. fold (send_attributes rs mem_func). eapply returns_bind; [apply region_init_run; try done; lia|].
  fold (send_attributes rs mem_func). cbn beta. intros ? s1 [-> Hl]. set (k := first_count max (zlen rs) cs) in *.
  pose proof (first_count_range max (zlen rs) cs ltac:(lia)) as Hk. fold k in Hk.
  set (X := message_head sender (send_attributes rs mem_func) 0 0 0 rs cs). set (past := take (Z.to_nat k) cs). set (todo := drop (Z.to_nat k) cs).
  assert (cs = past ++ todo) as Hcs by (symmetry; apply take_drop).
  assert (zlen (X ++ constituents_bytes past) = composite_at (zlen rs) + 16 + 16 * k) as HF by (apply zlen_first; lia).
  assert (zlen cs - k = zlen todo) as Hrem by (subst todo; unfold zlen in *; rewrite length_drop; lia).
  replace (composite_at (zlen rs) + 16 + 16 * zlen cs) with (zlen (X ++ constituents_bytes past) + 16 * zlen todo) by lia.
  rewrite Hrem, <- HF. eapply returns_mono; [apply (memory_send_any mem_func cs past todo ret s s1 X Hcs Hl Hpage); lia|].
  assert (∀ n, message sender (send_attributes rs mem_func) 0 0 0 rs cs
    = (X ++ constituents_bytes (past ++ take n todo)) ++ constituents_bytes (drop n todo)) as Hmsg.
  { intros n. unfold message. fold X. rewrite Hcs at 1. rewrite <- (take_drop n todo) at 1. unfold constituents_bytes.
    by rewrite !fmap_app, !concat_app, <- !app_assoc. }
  cbn beta. intros r s' [[Hs Hr]|(n & Hn & Hs & Hok)].
  - exists [], (message sender (send_attributes rs mem_func) 0 0 0 rs cs). rewrite app_nil_r. split_and!; [done|done|]. by intros [].
  - exists (X ++ constituents_bytes (past ++ take n todo)), (constituents_bytes (drop n todo)). split_and!; [done|apply Hmsg|].
    intros Hh. destruct (Hok Hh) as (-> & ? & ? & ?). by rewrite drop_all.
Qed.
End AnyManager.

Module SampleFfaSend.

(** A manager that counts what it is sent and has the handle 5 for it all *)
Definition counting (args : ffa_value) (t r : list Z) (d : Z * Z) : ffa_value * list Z * (Z * Z) :=
  let '(total, got) := if fid args =? FFA_MEM_FRAG_TX then (d.1, d.2 + arg3 args) else (arg1 args, arg2 args) in
  (if got =? total then regs FFA_SUCCESS_SMC32 0 5 0 0 0 0 0 else regs FFA_MEM_FRAG_RX 5 0 got 0 0 0 0, r, (total, got)).
Definition counter : Spmc (Z * Z) := {| spmc_call := counting |}.

Definition to_first : list ffa_memory_access := [ffa_memory_access_init_permissions_from_mem_func 0 0x8001 FFA_MEM_SHARE_SMC64].
(** 300 constituents, which is more than fits in a page *)
Definition pages_300 : list ffa_memory_region_constituent :=
  (λ i, {| address := 4096 * Z.of_nat i; page_count := 1; reserved := 0 |}) <$> seq 0 300.
Definition start : ffa_state (Z * Z * list (ffa_value * list Z)) :=
  {| spmc := ((0, 0), []); tx := replicate 4096 0; rx := replicate 4096 0 |}.

Definition none : ffa_value := regs 0 0 0 0 0 0 0 0.

Example counter_handle :
  match memory_init_and_send (H := recorded (H := counter)) 4096 1 to_first pages_300 FFA_MEM_SHARE_SMC64 none start with
  | Ok (r, _) => r.1 = 5
  | Stop _ => False
  end.
Proof. vm_compute. reflexivity. Qed.

Lemma ffa_handle_means_sent_witness :
  returns (memory_init_and_send (H := recorded (H := counter)) 4096 1 to_first pages_300 FFA_MEM_SHARE_SMC64 none) start (λ r s',
    ∃ out rest, sent (spmc s').2 = sent (spmc start).2 ++ out
      ∧ message 1 (send_attributes to_first FFA_MEM_SHARE_SMC64) 0 0 0 to_first pages_300 = out ++ rest
      ∧ (r.1 ≠ FFA_MEMORY_HANDLE_INVALID →
           rest = [] ∧ fid r.2 = FFA_SUCCESS_SMC32 ∧ r.1 = ffa_mem_success_handle r.2 ∧ Z.testbit r.1 63 = false)).
Proof.
  exact (ffa_handle_means_sent (H := counter) 4096 1 FFA_MEM_SHARE_SMC64 to_first pages_300 none start
    ltac:(done) ltac:(by vm_compute) ltac:(by vm_compute) ltac:(by vm_compute) ltac:(by vm_compute)).
Defined.

End SampleFfaSend.
