(* ===== verification/FfaRun.v ===== *)
(** * FF-A memory sharing with a partition manager

    A manager that collects the fragments of a transaction and hands a memory
    region out again in fragments, as the FF-A specification describes it, and
    what the helpers of [FfaMem] do with it from end to end; what can be read
    from a message; the encodings of registers. *)

From S2P Require Import Prelude Bits Bytes Ffa FfaMem FfaSpec.

Local Open Scope Z_scope.

(** ** The manager *)

(** The transaction under way (handle, length, what has come so far) and the
    regions, by handle *)
Record manager := {
  underway : option (Z * Z * list Z);
  regions : list (Z * list Z);
}.

Section Manager.

(** The handles it gives and the size of the fragments it sends *)
Context (new_handle : list (Z * list Z) → Z) (chunk : Z).

Definition refuse (r : list Z) (d : manager) : ffa_value * list Z * manager := (regs FFA_ERROR 0 (u64 FFA_ERROR_NOT_SUPPORTED) 0 0 0 0 0, r, d).

Definition accept (h total : Z) (data r : list Z) (d : manager) : ffa_value * list Z * manager :=
  if zlen data =? total then
    (regs FFA_SUCCESS_SMC32 0 (u32 h) (u32 (Z.shiftr h 32)) 0 0 0 0, r, {| underway := None; regions := (h, data) :: regions d |})
  else if zlen data <? total then
    (regs FFA_MEM_FRAG_RX (u32 h) (u32 (Z.shiftr h 32)) (zlen data) 0 0 0 0, r, {| underway := Some (h, total, data); regions := regions d |})
  else refuse r d.

(** The region of a handle, with the handle in it *)
Definition find_region (h : Z) (d : manager) : option (list Z) :=
  match list_find (λ e, e.1 = h) (regions d) with Some (_, (_, m)) => Some (splice 8 (le_bytes 8 h) m) | None => None end.

Definition fragment_at (off : Z) (m : list Z) : list Z := slice off (Z.min chunk (zlen m - off)) m.

Definition mem_send (f : Z) : bool := (f =? FFA_MEM_SHARE_SMC64) || (f =? FFA_MEM_LEND_SMC64) || (f =? FFA_MEM_DONATE_SMC64).

Definition manager_call (args : ffa_value) (t r : list Z) (d : manager) : ffa_value * list Z * manager :=
  if mem_send (fid args) then accept (new_handle (regions d)) (arg1 args) (take (Z.to_nat (arg2 args)) t) r d
  else if fid args =? FFA_MEM_FRAG_TX then
    match underway d with
    | Some (h, total, data) =>
        if ffa_frag_handle args =? h then accept h total (data ++ take (Z.to_nat (arg3 args)) t) r d else refuse r d
    | None => refuse r d
    end
  else if fid args =? FFA_MEM_RETRIEVE_REQ_SMC64 then
    match field 8 8 t with
    | Some h =>
        match find_region h d with
        | Some m => (regs FFA_MEM_RETRIEVE_RESP (zlen m) (zlen (fragment_at 0 m)) 0 0 0 0 0, splice 0 (fragment_at 0 m) r, d)
        | None => refuse r d
        end
    | None => refuse r d
    end
  else if fid args =? FFA_MEM_FRAG_RX then
    let h := ffa_frag_handle args in
    match find_region h d with
    | Some m =>
        let f := fragment_at (arg3 args) m in
        (regs FFA_MEM_FRAG_TX (u32 h) (u32 (Z.shiftr h 32)) (zlen f) 0 0 0 0, splice 0 f r, d)
    | None => refuse r d
    end
  else if fid args =? FFA_RX_RELEASE then (regs FFA_SUCCESS_SMC32 0 0 0 0 0 0 0, r, d)
  else refuse r d.

Definition manager_spmc : Spmc manager := {| spmc_call := manager_call |}.
#[local] Hint Extern 0 (Spmc manager) => exact manager_spmc : typeclass_instances.

Abbreviation state := (ffa_state manager).

Lemma manager_run (args : ffa_value) (s : state) : ffa_service_call args s =
  Ok ((manager_call args (tx s) (rx s) (spmc s)).1.1,
      {| spmc := (manager_call args (tx s) (rx s) (spmc s)).2; tx := tx s; rx := (manager_call args (tx s) (rx s) (spmc s)).1.2 |}).
Proof. unfold ffa_service_call. cbn. by destruct (manager_call args (tx s) (rx s) (spmc s)) as [[ret r] d]. Qed.

(** ** Handles in registers *)

Lemma handle_parts (h : Z) : 0 <= h <= UINT64_MAX → ffa_assemble_handle (u32 h) (u32 (Z.shiftr h 32)) = h.
Proof.
  unfold UINT64_MAX. intros Hh. unfold ffa_assemble_handle. rewrite !Z.shiftr_div_pow2, Z.shiftl_mul_pow2 by lia.
  assert (0 <= h / 2 ^ 32 < 2 ^ 32) as Hd by (split; [apply Z.div_pos; lia|apply Z.div_lt_upper_bound; lia]).
  unfold u32, u64, wrap. rewrite !Zmod_mod, (Z.mod_small (h / 2 ^ 32)) by lia. rewrite (Z.mod_small (h / 2 ^ 32 * 2 ^ 32)) by lia.
  rewrite Z.lor_comm, lor_fields by (lia || (apply Z.mod_pos_bound; lia)). pose proof (Z.div_mod h (2 ^ 32) ltac:(lia)). lia.
Qed.

Context (Hhandle : ∀ l, 0 <= new_handle l < 2 ^ 63) (Hchunk : 48 <= chunk <= PAGE_SIZE).

Lemma handle_range (l : list (Z * list Z)) : 0 <= new_handle l <= UINT64_MAX.
Proof. pose proof (Hhandle l) as Hh. change (2 ^ 63) with 9223372036854775808 in Hh. unfold UINT64_MAX. lia. Qed.

(** ** Sending *)

(** [data] of [total] bytes has been taken under handle [h]: the answer to the
    last piece, and the state *)
Definition taken (h total : Z) (data : list Z) (rs : list (Z * list Z)) (ret : ffa_value) (d : manager) : Prop :=
  if zlen data =? total then
    ret = regs FFA_SUCCESS_SMC32 0 (u32 h) (u32 (Z.shiftr h 32)) 0 0 0 0 ∧ d = {| underway := None; regions := (h, data) :: rs |}
  else
    ret = regs FFA_MEM_FRAG_RX (u32 h) (u32 (Z.shiftr h 32)) (zlen data) 0 0 0 0
    ∧ d = {| underway := Some (h, total, data); regions := rs |}.

Lemma accept_taken (h total : Z) (data r : list Z) (d : manager) : zlen data <= total →
  taken h total data (regions d) (accept h total data r d).1.1 (accept h total data r d).2 ∧ (accept h total data r d).1.2 = r.
Proof.
  intros Hle. unfold accept, taken. destruct (Z.eqb_spec (zlen data) total); [done|]. rewrite (proj2 (Z.ltb_lt _ _)) by lia. done.
Qed.

(** The state of the manager has changed, and what is in TX. *)
Definition kept (s : state) (d : manager) (s' : state) : Prop := spmc s' = d ∧ zlen (tx s') = zlen (tx s) ∧ rx s' = rx s.

Lemma kept_from (s s1 : state) (d : manager) (s' : state) : zlen (tx s1) = zlen (tx s) → rx s1 = rx s → kept s1 d s' → kept s d s'.
Proof. intros Ht Hr (? & ? & ?). split_and!; congruence. Qed.

Lemma send_loop_taken (cs : list ffa_memory_region_constituent) (k : nat) (past todo : list ffa_memory_region_constituent) (ret : ffa_value)
    (fh h : Z) (X : list Z) (l : list (Z * list Z)) (data : list Z) (total : Z) (s : state) :
  data = X ++ constituents_bytes past → total = zlen data + 16 * zlen todo → cs = past ++ todo → (length todo ≤ k)%nat → PAGE_SIZE <= zlen (tx s) → total <= UINT32_MAX → 0 <= h < 2 ^ 63 →
  fh = FFA_MEMORY_HANDLE_INVALID ∨ fh = h → taken h total data l ret (spmc s) →
  returns (send_loop k cs (zlen todo) ret fh (zlen data)) s (λ r s',
    ∃ fh' , r = (true, regs FFA_SUCCESS_SMC32 0 (u32 h) (u32 (Z.shiftr h 32)) 0 0 0 0, fh', total)
      ∧ (fh' = FFA_MEMORY_HANDLE_INVALID ∨ fh' = h) ∧ kept s {| underway := None; regions := (h, X ++ constituents_bytes cs) :: l |} s').
Proof.
  revert past todo ret fh data s. induction k as [|k IH]; intros past todo ret fh data s Hdata Htotal Hcs Hk Hpage Hmax Hh Hfh Htaken.
  all: destruct (decide (todo = [])) as [Hnil|Hne]; [rewrite Hnil in *; change (zlen (@nil ffa_memory_region_constituent)) with 0 in *|].
  1, 3: unfold taken in Htaken; rewrite Htotal, Z.mul_0_r, Z.add_0_r, Z.eqb_refl in *; destruct Htaken as [-> Hd]; exists fh;
    rewrite app_nil_r in Hcs; subst cs; split_and!; [done|done|rewrite <- Hdata; by split_and!].
  { destruct todo; [done|cbn in Hk; lia]. }
  assert (0 < zlen todo) as Hpos by (destruct todo as [|c todo']; [done|rewrite zlen_cons; pose proof (zlen_nonneg todo'); lia]).
  unfold taken in Htaken. rewrite (proj2 (Z.eqb_neq (zlen data) total)) in Htaken by lia. destruct Htaken as [-> Hd].
  assert (0 <= h <= UINT64_MAX) as Hh64 by (change (2 ^ 63) with 9223372036854775808 in Hh; unfold UINT64_MAX; lia).
  cbn [send_loop]. rewrite (proj2 (Z.eqb_neq (zlen todo) 0)) by lia. cbn [fid regs]. rewrite Z.eqb_refl. cbn [negb]. cbv iota.
  unfold ffa_frag_handle. cbn [arg1 arg2 arg3 regs]. rewrite !(handle_parts h Hh64).
  replace (negb (fh =? FFA_MEMORY_HANDLE_INVALID) && negb (h =? fh)) with false by (destruct Hfh as [-> | ->]; [done|by rewrite Z.eqb_refl, andb_false_r]).
  replace (if fh =? FFA_MEMORY_HANDLE_INVALID then h else fh) with h by (destruct Hfh as [-> | ->]; [done|by destruct (h =? _)]).
  rewrite Z.eqb_refl. cbn [negb]. cbv iota.
  assert (drop (Z.to_nat (zlen cs - zlen todo)) cs = todo) as ->.
  { rewrite Hcs, zlen_app. replace (zlen past + zlen todo - zlen todo) with (zlen past) by lia. unfold zlen. by rewrite Nat2Z.id, drop_app_length. }
  pose proof (zlen_nonneg data) as Hd0. eapply returns_bind; [apply fragment_init_run; [done|lia]|]. cbn beta. intros r s1 [-> Hl].
  set (n := Z.to_nat (next_count todo)) in *. assert (next_count todo = Z.of_nat n) as Hnc by (subst n; unfold next_count; lia). rewrite Hnc.
  assert ((0 < n ≤ length todo)%nat) as Hn by (unfold next_count, zlen in *; lia).
  assert (zlen (constituents_bytes (take n todo)) = 16 * Z.of_nat n) as Hz by (rewrite zlen_constituents; unfold zlen; rewrite length_take; lia).
  pose proof (take_laid s s1 _ (16 * Z.of_nat n) Hl (eq_sym Hz)) as Htake. destruct Hl as (_ & Htx & Hsp & Hrx).
  eapply returns_step; [apply manager_run|]. rewrite Hsp, Hd. unfold manager_call. cbn [fid regs underway arg3].
  change (mem_send FFA_MEM_FRAG_TX) with false. cbv iota. rewrite Z.eqb_refl. unfold ffa_frag_handle. cbn [arg1 arg2 regs].
  rewrite (handle_parts h Hh64), Z.eqb_refl, Htake.
  assert (zlen todo - Z.of_nat n = zlen (drop n todo)) as Hrem by (unfold zlen; rewrite length_drop; lia).
  assert (zlen (data ++ constituents_bytes (take n todo)) = zlen data + 16 * Z.of_nat n) as Hlen by (rewrite zlen_app; lia).
  destruct (accept_taken h total (data ++ constituents_bytes (take n todo)) (rx s1) {| underway := Some (h, total, data); regions := l |}) as [Hacc Hr];
    [pose proof (zlen_nonneg (drop n todo)); lia|]. cbn [regions] in Hacc.
  rewrite Hrem, (u32_small (zlen data + _)) by (pose proof (zlen_nonneg (drop n todo)); lia). rewrite <- Hlen.
  eapply returns_mono; [apply (IH (past ++ take n todo) (drop n todo)); cbn [tx spmc]; try done|].
  - rewrite Hdata, <- app_assoc. unfold constituents_bytes. by rewrite fmap_app, concat_app.
  - lia.
  - by rewrite <- app_assoc, take_drop.
  - rewrite length_drop. lia.
  - lia.
  - by right.
  - cbn beta. intros r s' (fh' & ? & ? & Hkept). exists fh'. split_and!; [done|done|]. eapply kept_from; [| |exact Hkept]; cbn; congruence.
Qed.

Lemma mem_send_call (f a b : Z) (s : state) : mem_send f = true →
  match (if f =? FFA_MEM_SHARE_SMC64 then Some (ffa_mem_share a b) else if f =? FFA_MEM_LEND_SMC64 then Some (ffa_mem_lend a b)
         else if f =? FFA_MEM_DONATE_SMC64 then Some (ffa_mem_donate a b) else None) with
  | Some call => call s = ffa_service_call (regs f a b 0 0 0 0 0) s
  | None => False
  end.
Proof. intros Hf. unfold mem_send in Hf. repeat case_Z; subst; done. Qed.

Definition success (h : Z) : ffa_value := regs FFA_SUCCESS_SMC32 0 (u32 h) (u32 (Z.shiftr h 32)) 0 0 0 0.

Lemma success_handle (h : Z) : 0 <= h < 2 ^ 63 → ffa_mem_success_handle (success h) = h.
Proof.
  intros Hh. change (2 ^ 63) with 9223372036854775808 in Hh. apply handle_parts. unfold UINT64_MAX. lia.
Qed.

Lemma fragmented_taken (cs past todo : list ffa_memory_region_constituent) (ret : ffa_value) (h : Z) (X : list Z) (l : list (Z * list Z)) (s : state) :
  let F := X ++ constituents_bytes past in
  cs = past ++ todo → PAGE_SIZE <= zlen (tx s) → zlen F + 16 * zlen todo <= UINT32_MAX → 0 <= h < 2 ^ 63 →
  taken h (zlen F + 16 * zlen todo) F l ret (spmc s) →
  returns (send_fragmented_memory_region cs (zlen todo) (zlen F) (zlen F + 16 * zlen todo) true ret) s (λ r s',
    r = (true, success h) ∧ kept s {| underway := None; regions := (h, X ++ constituents_bytes cs) :: l |} s').
Proof.
  intros F Hcs Hpage Hmax Hh Ht. unfold send_fragmented_memory_region. eapply returns_bind.
  { apply (send_loop_taken cs (S (length cs)) past todo ret _ h X l F (zlen F + 16 * zlen todo)); try done; [|by left].
    rewrite Hcs, length_app. lia. }
  cbn beta. intros ? s' (fh & -> & Hfh & Hsp). cbn [negb]. rewrite Z.eqb_refl. cbn [negb fid regs]. rewrite Z.eqb_refl. cbn [negb].
  fold (success h). rewrite (success_handle h Hh). unfold FFA_MEMORY_HANDLE_ALLOCATOR_SHIFT.
  rewrite Z.shiftr_div_pow2, Z.div_small by lia. cbn [negb].
  replace (negb (fh =? FFA_MEMORY_HANDLE_INVALID) && negb (h =? fh)) with false by (destruct Hfh as [-> | ->]; [done|by rewrite Z.eqb_refl, andb_false_r]).
  done.
Qed.

(** The laid-out first fragment is taken, and then the others. *)
Lemma memory_send_taken (f : Z) (cs past todo : list ffa_memory_region_constituent) (ret : ffa_value) (X : list Z) (s0 s : state) :
  let F := X ++ constituents_bytes past in let h := new_handle (regions (spmc s0)) in
  mem_send f = true → cs = past ++ todo → laid s0 F s → PAGE_SIZE <= zlen (tx s0) → zlen F + 16 * zlen todo <= UINT32_MAX →
  returns (memory_send f cs (zlen todo) (zlen F) (zlen F + 16 * zlen todo) ret) s (λ r s',
    r.1 = h ∧ kept s0 {| underway := None; regions := (h, X ++ constituents_bytes cs) :: regions (spmc s0) |} s').
Proof.
  intros F h Hf Hcs Hl Hpage Hmax. pose proof (zlen_nonneg F) as HF. pose proof (zlen_nonneg todo) as Ht. unfold memory_send.
  replace ((zlen todo =? 0) && negb (zlen F =? zlen F + 16 * zlen todo)) with false.
  2: { destruct (Z.eqb_spec (zlen todo) 0) as [->|]; [|done]. rewrite Z.mul_0_r, Z.add_0_r, Z.eqb_refl. done. }
  pose proof (take_laid s0 s F (zlen F) Hl eq_refl) as Htake. destruct Hl as (_ & Htx & Hsp & Hrx).
  pose proof (mem_send_call f (zlen F + 16 * zlen todo) (zlen F) s Hf) as Hcall.
  destruct (if f =? FFA_MEM_SHARE_SMC64 then _ else _) as [call|]; [|done].
  eapply returns_step; [etransitivity; [exact Hcall|apply manager_run]|]. unfold manager_call. cbn [fid regs arg1 arg2]. rewrite Hf, Hsp, Htake. fold h.
  destruct (accept_taken h (zlen F + 16 * zlen todo) F (rx s) (spmc s0)) as [Hacc Hr]; [lia|].
  set (a := accept h _ F (rx s) (spmc s0)) in *.
  assert (is_ffa_call_error a.1.1 = false) as ->.
  { unfold taken in Hacc. destruct (zlen F =? _); destruct Hacc as [-> _]; done. }
  eapply returns_bind; [apply (fragmented_taken cs past todo _ h X (regions (spmc s0))); cbn [tx spmc]; try done; [lia|apply Hhandle]|].
  cbn beta. intros ? s' [-> Hs']. cbn [negb]. rewrite success_handle by apply Hhandle. split; [done|].
  eapply kept_from; [| |exact Hs']; cbn; congruence.
Qed.

Lemma send_taken (max sender f : Z) (rs : list ffa_memory_access) (cs : list ffa_memory_region_constituent) (ret : ffa_value) (s : state) :
  let m := message sender (send_attributes rs f) 0 0 0 rs cs in let h := new_handle (regions (spmc s)) in
  mem_send f = true → rs ≠ [] → composite_at (zlen rs) + 16 <= max <= UINT32_MAX → max <= zlen (tx s) → PAGE_SIZE <= zlen (tx s) →
  zlen m <= UINT32_MAX →
  returns (memory_init_and_send max sender rs cs f ret) s (λ r s',
    r.1 = h ∧ kept s {| underway := None; regions := (h, m) :: regions (spmc s) |} s').
Proof.
  intros m h Hf Hne Hmax Htx Hpage Hm. subst m. unfold message in Hm. rewrite zlen_app, zlen_head, zlen_constituents in Hm.
  unfold memory_init_and_send. fold (send_attributes rs f). eapply returns_bind; [apply region_init_run; try done; lia|].
  fold (send_attributes rs f). cbn beta. intros ? s1 [-> Hl]. set (k := first_count max (zlen rs) cs) in *.
  pose proof (first_count_range max (zlen rs) cs ltac:(lia)) as Hk. fold k in Hk.
  set (X := message_head sender (send_attributes rs f) 0 0 0 rs cs). set (past := take (Z.to_nat k) cs). set (todo := drop (Z.to_nat k) cs).
  assert (cs = past ++ todo) as Hcs by (symmetry; apply take_drop).
  assert (zlen (X ++ constituents_bytes past) = composite_at (zlen rs) + 16 + 16 * k) as HF by (apply zlen_first; lia).
  assert (zlen cs - k = zlen todo) as Hrem by (subst todo; unfold zlen in *; rewrite length_drop; lia).
  replace (composite_at (zlen rs) + 16 + 16 * zlen cs) with (zlen (X ++ constituents_bytes past) + 16 * zlen todo) by lia.
  rewrite Hrem, <- HF. apply (memory_send_taken f cs past todo ret X s s1); try done. lia.
Qed.

(** ** Retrieving *)

Lemma take_splice_0 (f r : list Z) (n : Z) : n = zlen f → take (Z.to_nat n) (splice 0 f r) = f.
Proof. intros ->. unfold splice, zlen. change (Z.to_nat 0) with 0%nat. rewrite take_0. cbn [app]. by rewrite Nat2Z.id, take_app_length. Qed.

Lemma zlen_fragment (off : Z) (m : list Z) : 0 <= off <= zlen m → zlen (fragment_at off m) = Z.min chunk (zlen m - off).
Proof. intros Ho. unfold fragment_at. apply length_slice; lia. Qed.

Lemma take_all (l : list Z) : take (Z.to_nat (zlen l)) l = l.
Proof. unfold zlen. by rewrite Nat2Z.id, firstn_all. Qed.

(** A fragment is copied behind those that are there. *)
Lemma copy_next (off : Z) (m b : list Z) (s : state) (r : list Z) : 0 <= off <= zlen m → zlen m <= zlen b → chunk <= zlen r →
  rx s = splice 0 (fragment_at off m) r →
  copy_recv (splice 0 (take (Z.to_nat off) m) b) off (zlen (fragment_at off m)) s
  = Ok (splice 0 (take (Z.to_nat (off + zlen (fragment_at off m))) m) b, s).
Proof.
  intros Ho Hb Hr Hrx. pose proof (zlen_fragment off m Ho) as Hf. unfold copy_recv. erewrite bind_Ok by reflexivity.
  pose proof (zlen_take_le off m Ho) as Ht.
  rewrite Hrx, !zlen_splice by lia. rewrite !(proj2 (Z.leb_le _ _)) by lia. cbn [andb]. rewrite take_splice_0 by done. unfold mret, M_ret.
  rewrite take_take_drop by lia. rewrite (splice_app 0 off); [|lia|done|].
  - replace (fragment_at off m) with (take (Z.to_nat (zlen (fragment_at off m))) (drop (Z.to_nat off) m)) at 1; [done|]. rewrite Hf. done.
  - rewrite zlen_take_le; [lia|]. unfold zlen in *. rewrite length_drop. lia.
Qed.

Lemma frag_rx_run (h off : Z) (m : list Z) (s : state) : 0 <= h <= UINT64_MAX → find_region h (spmc s) = Some m → 0 <= off <= zlen m →
  zlen m <= UINT32_MAX →
  ffa_mem_frag_rx h off s = Ok (regs FFA_MEM_FRAG_TX (u32 h) (u32 (Z.shiftr h 32)) (zlen (fragment_at off m)) 0 0 0 0,
    {| spmc := spmc s; tx := tx s; rx := splice 0 (fragment_at off m) (rx s) |}).
Proof.
  intros Hh Hm Ho Hmax. unfold ffa_mem_frag_rx. rewrite manager_run. unfold manager_call. cbn [fid regs arg3].
  change (mem_send FFA_MEM_FRAG_RX) with false. change (FFA_MEM_FRAG_RX =? FFA_MEM_FRAG_TX) with false.
  change (FFA_MEM_FRAG_RX =? FFA_MEM_RETRIEVE_REQ_SMC64) with false. rewrite Z.eqb_refl. cbv iota. unfold ffa_frag_handle. cbn [arg1 arg2 regs].
  rewrite (handle_parts h Hh), Hm. done.
Qed.

Lemma release_run (s : state) : ffa_rx_release s = Ok (regs FFA_SUCCESS_SMC32 0 0 0 0 0 0 0, s).
Proof. unfold ffa_rx_release, ffa_rx_release_with_id. rewrite manager_run. by destruct s. Qed.

Lemma retrieve_loop_run (h : Z) (m b : list Z) (k : nat) (off : Z) (release : bool) (s : state) :
  0 <= h <= UINT64_MAX → find_region h (spmc s) = Some m → 0 <= off <= zlen m → zlen m <= zlen b → zlen b <= UINT32_MAX → chunk <= zlen (rx s) →
  zlen m - off <= Z.of_nat k →
  returns (retrieve_loop k h (zlen b) (zlen m) off release (Some (splice 0 (take (Z.to_nat off) m) b))) s (λ r s',
    r = (Some (zlen m), Some (splice 0 m b)) ∧ spmc s' = spmc s).
Proof.
  intros Hh Hm Ho Hmb Hb Hr. revert off release s Hm Ho Hr. induction k as [|k IH]; intros off release s Hm Ho Hr Hk.
  all: destruct (decide (off = zlen m)) as [->|Hne];
    [cbn [retrieve_loop]; rewrite Z.leb_refl, take_all; done|].
  { lia. }
  cbn [retrieve_loop]. rewrite (proj2 (Z.leb_gt (zlen m) off)) by lia.
  assert ((if release then r ← ffa_rx_release; mret (fid r =? FFA_SUCCESS_SMC32) else mret true) s = Ok (true, s)) as Hrel.
  { destruct release; [|done]. by rewrite (bind_Ok _ _ _ _ _ (release_run s)). }
  eapply returns_step; [exact Hrel|]. cbn [negb]. eapply returns_step; [apply (frag_rx_run h off m); try done; lia|].
  cbn [fid regs]. rewrite Z.eqb_refl. unfold ffa_frag_handle, ffa_frag_sender, ffa_mem_frag_tx_frag_size. cbn [arg1 arg2 arg3 arg4 regs negb].
  rewrite (handle_parts h Hh), Z.eqb_refl. change (Z.land (Z.shiftr 0 16) 0xffff =? 0) with true. cbn [negb].
  pose proof (zlen_fragment off m Ho) as Hf. rewrite (u32_small (zlen (fragment_at off m))) by (unfold UINT32_MAX, PAGE_SIZE in *; lia).
  rewrite (proj2 (Z.eqb_neq (zlen (fragment_at off m)) 0)) by lia. rewrite (u32_small (off + _)) by lia.
  rewrite (proj2 (Z.ltb_ge (zlen b) _)) by lia.
  eapply returns_step; [apply (copy_next off m b _ (rx s)); try done; lia|].
  apply (IH (off + zlen (fragment_at off m)) true {| spmc := spmc s; tx := tx s; rx := splice 0 (fragment_at off m) (rx s) |}); cbn [spmc rx]; try done; try lia.
  rewrite zlen_splice; lia.
Qed.

(** ** Fields of a message *)

Lemma field_mid (A B C : list Z) (n : nat) (off : Z) : off = zlen A → length B = n → field n off (A ++ B ++ C) = Some (le_value B).
Proof.
  intros -> <-. pose proof (zlen_nonneg A). pose proof (zlen_nonneg C). unfold field. rewrite !zlen_app, (proj2 (Z.leb_le 0 (zlen A))), (proj2 (Z.leb_le _ _))
    by (unfold zlen in *; lia). cbn [andb]. rewrite slice_app_r by lia. by rewrite Z.sub_diag, slice_app_l by done.
Qed.

(** A field that lies in the first bytes *)
Lemma field_prefix (m b : list Z) (n : nat) (off k : Z) : 0 <= off → off + Z.of_nat n <= k → k <= zlen m → k <= zlen b →
  field n off (splice 0 (take (Z.to_nat k) m) b) = field n off m.
Proof.
  intros Ho Hn Hk Hb. pose proof (zlen_take_le k m ltac:(lia)) as Ht. unfold field. rewrite zlen_splice by lia.
  rewrite !(proj2 (Z.leb_le _ _)) by lia. cbn [andb]. do 2 f_equal. rewrite <- (Z.add_0_l off) at 1. rewrite slice_in_splice by lia.
  unfold slice. rewrite skipn_firstn_comm, take_take. f_equal. lia.
Qed.

Lemma message_handle (sender attributes flags h h' tag : Z) (rs : list ffa_memory_access) (cs : list ffa_memory_region_constituent) :
  splice 8 (le_bytes 8 h') (message sender attributes flags h tag rs cs) = message sender attributes flags h' tag rs cs.
Proof.
  unfold message, message_head, header_bytes. rewrite <- !app_assoc.
  rewrite !(app_assoc (le_bytes 2 sender)), !(app_assoc (le_bytes 2 sender ++ _)).
  set (A := (le_bytes 2 sender ++ le_bytes 2 attributes) ++ le_bytes 4 flags).
  assert (8 = zlen A + 0) as -> by (subst A; by rewrite !zlen_app, !zlen_le).
  rewrite splice_middle by (rewrite ?zlen_le; lia). unfold splice. change (Z.to_nat 0) with 0%nat. rewrite take_0. cbn [app].
  by rewrite drop_ge, app_nil_r by (rewrite !length_le_bytes; lia).
Qed.

Lemma message_count (sender attributes flags h tag : Z) (rs : list ffa_memory_access) (cs : list ffa_memory_region_constituent) :
  zlen rs <= UINT32_MAX → field 4 28 (message sender attributes flags h tag rs cs) = Some (zlen rs).
Proof.
  intros Hn. pose proof (zlen_nonneg rs). assert (Some (zlen rs) = Some (le_value (le_bytes 4 (zlen rs)))) as -> by (by rewrite le_value_4 by lia).
  unfold message, message_head, header_bytes. rewrite <- !app_assoc.
  rewrite !(app_assoc (le_bytes 2 sender)), !(app_assoc (le_bytes 2 sender ++ _)), !(app_assoc ((le_bytes 2 sender ++ _) ++ _)),
    !(app_assoc (((le_bytes 2 sender ++ _) ++ _) ++ _)), !(app_assoc ((((le_bytes 2 sender ++ _) ++ _) ++ _) ++ _)).
  apply field_mid; [by rewrite !zlen_app, !zlen_le|apply length_le_bytes].
Qed.

Lemma zlen_message (sender attributes flags h tag : Z) (rs : list ffa_memory_access) (cs : list ffa_memory_region_constituent) :
  zlen (message sender attributes flags h tag rs cs) = composite_at (zlen rs) + 16 + 16 * zlen cs.
Proof. unfold message. by rewrite zlen_app, zlen_head, zlen_constituents. Qed.

(** ** The request of a hypervisor *)

Lemma request_init_run (h : Z) (s : state) : 0 <= h <= UINT64_MAX → 48 <= zlen (tx s) →
  returns (ffa_hypervisor_retrieve_request_init h) s (λ _ s', field 8 8 (tx s') = Some h ∧ spmc s' = spmc s ∧ rx s' = rx s).
Proof.
  intros Hh Htx. unfold ffa_hypervisor_retrieve_request_init. eapply returns_bind.
  { eapply laid_next; [apply laid_start|done|]. rewrite zlen_replicate, zlen_nil_0. lia. }
  cbn beta. cbn [app]. intros _ s1 Hl. eapply returns_mono.
  { unfold store. apply (laid_mid s s1 (replicate 8 0) (replicate 8 0) (replicate 32 0)); [done|done|by rewrite zlen_le]. }
  cbn beta. intros _ s' ((rest & Ht) & _ & Hsp & Hr). split_and!; [|done|done]. rewrite Ht, <- !app_assoc.
  rewrite (field_mid (replicate 8 0) (le_bytes 8 h) _ 8) by (done || apply length_le_bytes). f_equal. apply le_roundtrip.
  unfold UINT64_MAX in Hh. change (2 ^ (8 * Z.of_nat 8)) with 18446744073709551616. lia.
Qed.

Lemma retrieve_run (h n : Z) (m b : list Z) (k : nat) (s : state) :
  0 <= h <= UINT64_MAX → find_region h (spmc s) = Some m → 48 <= zlen m → field 4 28 m = Some n → 1 <= n <= 2 → zlen m <= zlen b →
  zlen b <= UINT32_MAX → 48 <= zlen (tx s) → chunk <= zlen (rx s) → zlen m <= Z.of_nat k →
  returns (hypervisor_retrieve_request k h (zlen b) (Some b)) s (λ r s', r = (true, Some (splice 0 m b)) ∧ spmc s' = spmc s).
Proof.
  intros Hh Hm Hlen Hn Hn12 Hmb Hb Htx Hr Hk. unfold hypervisor_retrieve_request.
  eapply returns_bind; [by apply request_init_run|]. cbn beta. intros _ s1 (Hf & Hsp & Hrx).
  unfold ffa_mem_retrieve_req. eapply returns_step; [apply manager_run|]. unfold manager_call. cbn [fid regs].
  change (mem_send FFA_MEM_RETRIEVE_REQ_SMC64) with false. change (FFA_MEM_RETRIEVE_REQ_SMC64 =? FFA_MEM_FRAG_TX) with false. rewrite Z.eqb_refl. cbv iota.
  rewrite Hf, Hsp, Hm. cbn [fst snd]. change (ffa_func_id _ =? FFA_MEM_RETRIEVE_RESP) with true. cbn [negb].
  unfold ffa_mem_retrieve_res_total_size, ffa_mem_retrieve_res_frag_size. cbn [arg1 arg2 regs].
  pose proof (zlen_fragment 0 m ltac:(lia)) as Hf0. rewrite !u32_small by (unfold UINT32_MAX, PAGE_SIZE in *; lia).
  rewrite (proj2 (Z.ltb_ge PAGE_SIZE _)), (proj2 (Z.ltb_ge (zlen b) _)) by lia.
  eapply returns_step.
  { pose proof (copy_next 0 m b {| spmc := spmc s; tx := tx s1; rx := splice 0 (fragment_at 0 m) (rx s1) |} (rx s1)) as Hc.
    change (Z.to_nat 0) with 0%nat in Hc. rewrite take_0, splice_nil, Z.add_0_l in Hc. apply Hc; try done; rewrite ?Hrx; lia. }
  eapply returns_step; [rewrite (field_prefix m b 4 28) by lia; by rewrite Hn|].
  rewrite (proj2 (Z.eqb_neq n 0)), (proj2 (Z.ltb_ge MAX_MEM_SHARE_RECIPIENTS n)) by (unfold MAX_MEM_SHARE_RECIPIENTS; lia).
  unfold hypervisor_retrieve_request_continue. eapply returns_bind.
  { apply (retrieve_loop_run h m b k); cbn [spmc rx]; try done; try lia. rewrite zlen_splice; rewrite ?Hrx; lia. }
  cbn beta. intros ? s2 [-> Hsp2]. rewrite Z.eqb_refl. cbn [negb]. eapply returns_step; [apply release_run|]. done.
Qed.


End Manager.

(** ** What a receiver reads *)

Lemma zget_split {A} (l : list A) (i : Z) (a : A) : zget l i = Some a → ∃ l1 l2, l = l1 ++ a :: l2 ∧ zlen l1 = i.
Proof.
  unfold zget. destruct (Z.ltb_spec i 0); [done|]. intros Hl. exists (take (Z.to_nat i) l), (drop (S (Z.to_nat i)) l). split.
  - symmetry. by apply take_drop_middle.
  - apply lookup_lt_Some in Hl. unfold zlen. rewrite length_take. lia.
Qed.

Definition constituent_ok (c : ffa_memory_region_constituent) : Prop := 0 <= address c <= UINT64_MAX ∧ 0 <= page_count c <= UINT32_MAX.

(** A message around one of its receivers, and around one of its constituents *)
Lemma message_receiver (sender attributes flags h tag : Z) (rs r1 r2 : list ffa_memory_access) (a : ffa_memory_access)
    (cs : list ffa_memory_region_constituent) : rs = r1 ++ a :: r2 →
  ∃ A C, message sender attributes flags h tag rs cs = A ++ access_bytes (with_offset (composite_at (zlen rs)) a) ++ C ∧ zlen A = 48 + 32 * zlen r1.
Proof.
  intros Hrs. set (f := access_bytes ∘ with_offset (composite_at (zlen rs))).
  assert (receivers_bytes rs = concat (f <$> r1) ++ f a ++ concat (f <$> r2)) as Hr.
  { unfold receivers_bytes. fold f. clearbody f. by rewrite Hrs, fmap_app, concat_app, fmap_cons. }
  exists (header_bytes sender attributes flags h tag (zlen rs) ++ concat (f <$> r1)), (concat (f <$> r2) ++ composite_bytes cs ++ constituents_bytes cs).
  split; [unfold message, message_head; by rewrite Hr, <- !app_assoc|]. rewrite zlen_app, zlen_header, (zlen_concat_fixed _ 32); [done|].
  intros x. apply zlen_access.
Qed.

Lemma message_constituent (sender attributes flags h tag : Z) (rs : list ffa_memory_access) (cs c1 c2 : list ffa_memory_region_constituent)
    (c : ffa_memory_region_constituent) : cs = c1 ++ c :: c2 →
  ∃ A C, message sender attributes flags h tag rs cs = A ++ constituent_bytes c ++ C ∧ zlen A = composite_at (zlen rs) + 16 + 16 * zlen c1.
Proof.
  intros Hcs. exists (message_head sender attributes flags h tag rs cs ++ constituents_bytes c1), (constituents_bytes c2).
  split; [|by rewrite zlen_app, zlen_head, zlen_constituents].
  assert (constituents_bytes cs = constituents_bytes c1 ++ constituent_bytes c ++ constituents_bytes c2) as Hb
    by (unfold constituents_bytes; by rewrite Hcs, fmap_app, concat_app, fmap_cons).
  unfold message. by rewrite Hb, <- !app_assoc.
Qed.

(** A field of the header, between the ones before and those behind *)
Lemma header_field (sender attributes flags h tag n : Z) (A B C Y : list Z) (k : nat) (off : Z) :
  header_bytes sender attributes flags h tag n = A ++ B ++ C → off = zlen A → length B = k →
  field k off (header_bytes sender attributes flags h tag n ++ Y) = Some (le_value B).
Proof. intros -> Ho Hk. rewrite <- !app_assoc. by apply field_mid. Qed.

Lemma message_start (sender attributes flags h tag : Z) (rs : list ffa_memory_access) (cs : list ffa_memory_region_constituent) :
  zlen rs <= UINT32_MAX → let m := message sender attributes flags h tag rs cs in
  field 4 24 m = Some SIZEOF_MEMORY_ACCESS ∧ field 4 28 m = Some (zlen rs) ∧ field 4 32 m = Some SIZEOF_MEMORY_REGION.
Proof.
  intros Hn m. split_and!; [|by apply message_count|]; subst m; unfold message, message_head; rewrite <- !app_assoc.
  - apply (header_field _ _ _ _ _ _ (le_bytes 2 sender ++ le_bytes 2 attributes ++ le_bytes 4 flags ++ le_bytes 8 h ++ le_bytes 8 tag)
      (le_bytes 4 SIZEOF_MEMORY_ACCESS) (le_bytes 4 (zlen rs) ++ le_bytes 4 SIZEOF_MEMORY_REGION ++ replicate 12 0));
      [unfold header_bytes; by rewrite <- !app_assoc|by rewrite !zlen_app, !zlen_le|done].
  - apply (header_field _ _ _ _ _ _ (le_bytes 2 sender ++ le_bytes 2 attributes ++ le_bytes 4 flags ++ le_bytes 8 h ++ le_bytes 8 tag
      ++ le_bytes 4 SIZEOF_MEMORY_ACCESS ++ le_bytes 4 (zlen rs)) (le_bytes 4 SIZEOF_MEMORY_REGION) (replicate 12 0));
      [unfold header_bytes; by rewrite <- !app_assoc|by rewrite !zlen_app, !zlen_le|done].
Qed.

(** C23: A message is read back as it was written: for each receiver the descriptor
    is found with its permissions and the offset of the composite region, there
    is none behind the last, and the composite region has the number of pages
    (modulo the width of the field), the number of constituents, and each
    constituent with its address and pages. *)
Theorem ffa_message_decodes (sender attributes flags h tag : Z) (rs : list ffa_memory_access) (cs : list ffa_memory_region_constituent) :
  let m := message sender attributes flags h tag rs cs in let c0 := composite_at (zlen rs) in
  zlen m <= UINT32_MAX →
  (∀ i a, zget rs i = Some a →
     ffa_memory_region_get_receiver m i = Some (Some (48 + 32 * i)) ∧ slice (48 + 32 * i) 32 m = access_bytes (with_offset c0 a)
     ∧ ffa_memory_region_get_composite m i = Some (Some c0))
  ∧ (∀ i, zlen rs <= i → ffa_memory_region_get_receiver m i = Some None)
  ∧ field 4 c0 m = Some (u32 (pages cs)) ∧ field 4 (c0 + 4) m = Some (zlen cs)
  ∧ (∀ i c, zget cs i = Some c → constituent_ok c →
       field 8 (c0 + 16 + 16 * i) m = Some (address c) ∧ field 4 (c0 + 16 + 16 * i + 8) m = Some (page_count c)).
Proof.
  intros m c0 Hmax. pose proof (zlen_message sender attributes flags h tag rs cs) as Hz. fold m c0 in Hz. pose proof (zlen_nonneg rs). pose proof (zlen_nonneg cs).
  pose proof (composite_at_start (zlen rs)) as Hc. fold c0 in Hc.
  destruct (message_start sender attributes flags h tag rs cs ltac:(lia)) as (F1 & F2 & F3). fold m in F1, F2, F3.
  split_and!.
  - intros i a Hi. destruct (zget_split rs i a Hi) as (r1 & r2 & Hrs & <-).
    destruct (message_receiver sender attributes flags h tag rs r1 r2 a cs Hrs) as (A & C & Hm & HA). fold m c0 in Hm.
    assert (zlen r1 < zlen rs) as Hlt by (rewrite Hrs, zlen_app, zlen_cons; pose proof (zlen_nonneg r2); lia). pose proof (zlen_nonneg r1). split_and!.
    + unfold ffa_memory_region_get_receiver. rewrite F1, F2, F3, (proj2 (Z.leb_gt (zlen rs) _)) by lia. cbn. unfold SIZEOF_MEMORY_REGION, SIZEOF_MEMORY_ACCESS.
      rewrite u32_small by lia. do 2 f_equal. lia.
    + rewrite Hm, <- HA, slice_app_r, Z.sub_diag by lia. apply slice_app_l, zlen_access.
    + unfold ffa_memory_region_get_composite. rewrite access_split in Hm. rewrite <- !app_assoc in Hm.
      rewrite (app_assoc A), (app_assoc (A ++ _)), (app_assoc ((A ++ _) ++ _)) in Hm. rewrite Hm, field_mid with (n := 4%nat);
        [|rewrite !zlen_app, !zlen_le; unfold SIZEOF_MEMORY_REGION, SIZEOF_MEMORY_ACCESS; lia|apply length_le_bytes].
      cbn [composite_memory_region_offset with_offset]. rewrite le_value_4 by lia. by rewrite (proj2 (Z.eqb_neq c0 0)) by lia.
  - intros i Hi. unfold ffa_memory_region_get_receiver. by rewrite F1, F2, F3, (proj2 (Z.leb_le (zlen rs) i)).
  - subst m. unfold message, message_head, composite_bytes. rewrite <- !app_assoc, (app_assoc (header_bytes _ _ _ _ _ _)).
    rewrite field_mid with (n := 4%nat); [|rewrite zlen_app, zlen_header, zlen_receivers; lia|apply length_le_bytes]. by rewrite le_value_bytes.
  - subst m. unfold message, message_head, composite_bytes. rewrite <- !app_assoc, (app_assoc (header_bytes _ _ _ _ _ _)), (app_assoc (_ ++ _)).
    rewrite field_mid with (n := 4%nat); [|rewrite !zlen_app, zlen_header, zlen_receivers, zlen_le; lia|apply length_le_bytes]. by rewrite le_value_4 by lia.
  - intros i c Hi [Ha Hp]. destruct (zget_split cs i c Hi) as (c1 & c2 & Hcs & <-).
    destruct (message_constituent sender attributes flags h tag rs cs c1 c2 c Hcs) as (A & C & Hm & HA). fold m c0 in Hm, HA.
    unfold constituent_bytes in Hm. rewrite <- !app_assoc in Hm. split.
    + rewrite Hm, field_mid with (n := 8%nat); [|done|apply length_le_bytes]. f_equal. apply le_roundtrip.
      unfold UINT64_MAX in Ha. change (2 ^ (8 * Z.of_nat 8)) with 18446744073709551616. lia.
    + rewrite (app_assoc A) in Hm. rewrite Hm, field_mid with (n := 4%nat); [|rewrite zlen_app, zlen_le; lia|apply length_le_bytes]. by rewrite le_value_4.
Qed.

(** ** Where the size of a fragment is not checked *)

(** A manager that always gives one answer *)
Definition constant_spmc (ret : ffa_value) : Spmc unit := {| spmc_call _ _ r d := (ret, r, d) |}.

(** If the first fragment is longer than the message it belongs to,
    [hypervisor_retrieve_request()] writes past the end of the buffer it was
    given, although it knows the size. *)
Theorem ffa_retrieve_overrun (ret : ffa_value) (h : Z) (b : list Z) (k : nat) (s : ffa_state unit) :
  48 <= zlen (tx s) → ffa_func_id ret = FFA_MEM_RETRIEVE_RESP → u32 (arg1 ret) <= zlen b → zlen b < u32 (arg2 ret) <= PAGE_SIZE →
  hypervisor_retrieve_request (H := constant_spmc ret) k h (zlen b) (Some b) s = Stop OutOfBounds.
Proof.
  intros Htx Hf Hs Hb. unfold hypervisor_retrieve_request.
  assert (∃ s1, ffa_hypervisor_retrieve_request_init h s = Ok (tt, s1)) as (s1 & Ht).
  { assert (returns (ffa_hypervisor_retrieve_request_init h) s (λ _ _, True)) as Hr.
    { unfold ffa_hypervisor_retrieve_request_init. eapply returns_bind; [eapply laid_next; [apply laid_start|done|]|].
      - rewrite zlen_replicate, zlen_nil_0. lia.
      - cbn beta. cbn [app]. intros _ s1 Hl. eapply returns_mono; [|done]. unfold store.
        apply (laid_mid s s1 (replicate 8 0) (replicate 8 0) (replicate 32 0)); [done|done|by rewrite zlen_le]. }
    unfold returns in Hr. destruct (ffa_hypervisor_retrieve_request_init h s) as [[[] s1]|]; [by exists s1|done]. }
  rewrite (bind_Ok _ _ _ _ _ Ht). unfold ffa_mem_retrieve_req. erewrite bind_Ok by reflexivity. rewrite Hf, Z.eqb_refl. cbn [negb].
  unfold ffa_mem_retrieve_res_total_size, ffa_mem_retrieve_res_frag_size.
  rewrite (proj2 (Z.ltb_ge PAGE_SIZE _)), (proj2 (Z.ltb_ge (zlen b) _)) by lia.
  unfold copy_recv, mbind, M_bind. cbn [get]. rewrite (proj2 (Z.leb_gt (0 + _) (zlen b))) by lia. by rewrite andb_false_r.
Qed.

(** ** Indirect messages *)

(** A manager that passes one message at a time on, from TX to RX, and says who
    has sent it *)
Definition courier_call (args : ffa_value) (t r : list Z) (full : option bool) : ffa_value * list Z * option bool :=
  if fid args =? FFA_MSG_SEND2 then
    match full, field 2 14 t with
    | None, Some sender => (regs FFA_SUCCESS_SMC32 0 0 0 0 0 0 0, splice 0 (take (length r) t) r, Some (IS_SP_ID sender))
    | _, _ => (regs FFA_ERROR 0 (u64 (-4)) 0 0 0 0 0, r, full)
    end
  else if fid args =? FFA_NOTIFICATION_GET then
    match full with
    | Some true => (regs FFA_SUCCESS_SMC32 0 0 0 0 0 1 0, r, full)
    | Some false => (regs FFA_SUCCESS_SMC32 0 0 0 0 0 0 1, r, full)
    | None => (regs FFA_SUCCESS_SMC32 0 0 0 0 0 0 0, r, full)
    end
  else if fid args =? FFA_RX_RELEASE then (regs FFA_SUCCESS_SMC32 0 0 0 0 0 0 0, r, None)
  else (regs FFA_ERROR 0 (u64 (-1)) 0 0 0 0 0, r, full).
Definition courier : Spmc (option bool) := {| spmc_call := courier_call |}.

Definition rxtx_header (from to size : Z) : list Z :=
  le_bytes 4 0 ++ le_bytes 4 0 ++ le_bytes 4 FFA_RXTX_HEADER_SIZE ++ le_bytes 2 to ++ le_bytes 2 from ++ le_bytes 4 size ++ le_bytes 4 0
  ++ replicate 16 0.

Section Courier.

#[local] Hint Extern 0 (Spmc (option bool)) => exact courier : typeclass_instances.

Abbreviation cstate := (ffa_state (option bool)).

Lemma laid_extend (s0 s : cstate) (X : list Z) (n : nat) : laid s0 X s → zlen X + Z.of_nat n <= zlen (tx s0) →
  ∃ J, length J = n ∧ laid s0 (X ++ J) s.
Proof.
  intros ((rest & Htx) & Hlen & Hd & Hr) Hroom. exists (take n rest). split.
  - rewrite <- Hlen, Htx, zlen_app in Hroom. unfold zlen in Hroom. rewrite length_take. lia.
  - split_and!; try done. exists (drop n rest). by rewrite <- app_assoc, take_drop.
Qed.

(** The sender is stored before the receiver, which lies in front of it. *)
Lemma header_init_run (from to size : Z) (s : cstate) : 40 <= zlen (tx s) →
  returns (ffa_rxtx_header_init from to size) s (λ _, laid s (rxtx_header from to size)).
Proof.
  intros Htx. unfold ffa_rxtx_header_init, store. pose proof (laid_start s) as Hl. assert (∃ s1, s1 = s) as [s1 Hs1] by eauto. rewrite <- Hs1 in Hl at 2.
  rewrite <- Hs1 at 1. clear Hs1.
  do 3 (eapply returns_bind; [eapply laid_next; [exact Hl|by rewrite ?zlen_app, ?zlen_le|rewrite ?zlen_app, ?zlen_le, ?zlen_nil_0; lia]|
    cbn beta; clear s1 Hl; intros _ s1 Hl]).
  destruct (laid_extend s s1 _ 2 Hl) as (J & HJ & Hl2); [rewrite !zlen_app, !zlen_le, zlen_nil_0; lia|].
  eapply returns_bind; [eapply laid_next; [exact Hl2|rewrite !zlen_app, !zlen_le, zlen_nil_0; unfold zlen; rewrite HJ; done|
    rewrite !zlen_app, !zlen_le, zlen_nil_0; unfold zlen at 1; rewrite HJ; lia]|cbn beta; clear s1 Hl Hl2; intros _ s1 Hl]. rewrite <- !app_assoc in Hl.
  eapply returns_bind; [apply (laid_mid s s1 ([] ++ le_bytes 4 0 ++ le_bytes 4 0 ++ le_bytes 4 FFA_RXTX_HEADER_SIZE) J (le_bytes 2 from));
    [by rewrite <- !app_assoc|by rewrite !zlen_app, !zlen_le|rewrite zlen_le; unfold zlen; by rewrite HJ]|cbn beta; clear s1 Hl; intros _ s1 Hl].
  do 2 (eapply returns_bind; [eapply laid_next; [exact Hl|by rewrite ?zlen_app, ?zlen_le|rewrite ?zlen_app, ?zlen_le, ?zlen_nil_0; lia]|
    cbn beta; clear s1 Hl; intros _ s1 Hl]).
  eapply returns_mono; [eapply laid_next; [exact Hl|by rewrite ?zlen_app, ?zlen_le|rewrite ?zlen_app, ?zlen_le, ?zlen_nil_0, zlen_replicate; lia]|].
  cbn beta. intros _ s' Hl'. unfold rxtx_header. by rewrite <- !app_assoc in Hl'.
Qed.

Lemma header_read (from to size : Z) (Y : list Z) : 0 <= from < 65536 → 0 <= to < 65536 → 0 <= size <= UINT32_MAX →
  field 2 12 (rxtx_header from to size ++ Y) = Some to ∧ field 2 14 (rxtx_header from to size ++ Y) = Some from
  ∧ field 4 16 (rxtx_header from to size ++ Y) = Some size.
Proof.
  intros Hf Ht Hs. unfold UINT32_MAX in Hs. unfold rxtx_header. rewrite <- !app_assoc.
  rewrite (app_assoc (le_bytes 4 0)), (app_assoc (le_bytes 4 0 ++ le_bytes 4 0)). set (A := (le_bytes 4 0 ++ le_bytes 4 0) ++ le_bytes 4 FFA_RXTX_HEADER_SIZE).
  set (tb := le_bytes 2 to). set (fb := le_bytes 2 from). set (sb := le_bytes 4 size). set (B := le_bytes 4 0 ++ _).
  split_and!.
  - rewrite field_mid by done. f_equal. by apply le_roundtrip.
  - rewrite (app_assoc A), field_mid by (unfold tb; rewrite ?zlen_app, ?zlen_le; done). f_equal. by apply le_roundtrip.
  - rewrite (app_assoc A), (app_assoc (A ++ tb)), field_mid by (unfold tb, fb; rewrite ?zlen_app, ?zlen_le; done). f_equal. apply le_roundtrip.
    change (2 ^ (8 * Z.of_nat 4)) with 4294967296. lia.
Qed.

Lemma send_message_run (from to flags : Z) (payload : list Z) (s : cstate) : spmc s = None → 0 <= from < 65536 → 0 <= to < 65536 → 40 + zlen payload <= zlen (tx s) →
  zlen (rx s) = zlen (tx s) → zlen (tx s) <= UINT32_MAX →
  returns (send_indirect_message from to payload flags) s (λ r s', fid r = FFA_SUCCESS_SMC32 ∧ spmc s' = Some (IS_SP_ID from)
    ∧ ∃ rest, rx s' = rxtx_header from to (zlen payload) ++ payload ++ rest).
Proof.
  intros Hsp Hfrom Hto Htx Hrx Hmax. pose proof (zlen_nonneg payload). unfold send_indirect_message. rewrite (u32_small (zlen payload)) by lia.
  assert (zlen (rxtx_header from to (zlen payload)) = 40) as Hh by (unfold rxtx_header; by rewrite !zlen_app, !zlen_le, zlen_replicate).
  eapply returns_bind; [apply header_init_run; lia|]. cbn beta. intros _ s1 Hl.
  eapply returns_bind; [eapply laid_next; [exact Hl|done|lia]|]. cbn beta. clear s1 Hl. intros _ s1 ((rest & Ht) & Hlen & Hs1 & Hr1).
  unfold ffa_msg_send2, ffa_msg_send2_with_id, returns, ffa_service_call. cbn [spmc_call courier]. unfold courier_call. cbn [fid regs].
  rewrite Z.eqb_refl, Hs1, Hsp.
  rewrite Ht, <- app_assoc, (proj1 (proj2 (header_read from to (zlen payload) (payload ++ rest) Hfrom Hto ltac:(lia)))).
  rewrite Ht, <- app_assoc in Hlen. assert (length (rx s1) = length (rxtx_header from to (zlen payload) ++ payload ++ rest)) as Hrl
    by (rewrite Hr1; apply Nat2Z.inj; fold (zlen (rx s)); by rewrite Hrx, <- Hlen).
  split_and!; [done|done|]. exists rest. cbn [rx]. rewrite take_ge by (rewrite Hrl; lia).
  unfold splice. change (Z.to_nat 0) with 0%nat. rewrite take_0. cbn [app Nat.add]. rewrite drop_ge by (rewrite Hrl; lia).
  by rewrite app_nil_r.
Qed.


(** The receiver finds the message while it is in RX. *)
Lemma receive_message_run (from to size own : Z) (payload rest buffer : list Z) (s : cstate) :
  spmc s = Some (IS_SP_ID from) → rx s = rxtx_header from to (zlen payload) ++ payload ++ rest → 0 <= from < 65536 → 0 <= to < 65536 →
  zlen payload <= size <= zlen buffer → size <= FFA_MSG_PAYLOAD_MAX →
  returns (receive_indirect_message buffer size to own) s (λ r s', r = (true, splice 0 payload buffer, Some from) ∧ spmc s' = None ∧ rx s' = rx s).
Proof.
  intros Hsp Hrx Hfrom Hto Hsize Hmax. pose proof (zlen_nonneg payload). unfold FFA_MSG_PAYLOAD_MAX, PAGE_SIZE in Hmax.
  unfold receive_indirect_message. rewrite (proj2 (Z.ltb_ge FFA_MSG_PAYLOAD_MAX size)) by (unfold FFA_MSG_PAYLOAD_MAX, PAGE_SIZE; lia).
  destruct (header_read from to (zlen payload) (payload ++ rest) Hfrom Hto ltac:(unfold UINT32_MAX; lia)) as (F1 & F2 & F3). rewrite <- Hrx in F1, F2, F3.
  assert (zlen (rxtx_header from to (zlen payload)) = 40) as Hh by (unfold rxtx_header; by rewrite !zlen_app, !zlen_le, zlen_replicate).
  assert (40 + zlen payload <= zlen (rx s)) as Hz by (rewrite Hrx, !zlen_app; pose proof (zlen_nonneg rest); lia).
  assert (ffa_notification_get to 0 FFA_NOTIFICATIONS_FLAG_BITMAP_SPM s
    = Ok (if IS_SP_ID from then regs FFA_SUCCESS_SMC32 0 0 0 0 0 1 0 else regs FFA_SUCCESS_SMC32 0 0 0 0 0 0 1, s)) as Hn.
  { destruct s as [d t r]. cbn in Hsp. unfold ffa_notification_get, ffa_service_call. cbn. rewrite Hsp. unfold courier_call. cbn. by destruct (IS_SP_ID from). }
  eapply returns_step; [exact Hn|]. clear Hn.
  assert (slice FFA_RXTX_HEADER_SIZE (zlen payload) (rx s) = payload) as Hpay.
  { rewrite Hrx, slice_app_r by (unfold FFA_RXTX_HEADER_SIZE; lia). rewrite Hh, Z.sub_diag. by apply slice_app_l. }
  destruct (IS_SP_ID from) eqn:Hid; cbn; (eapply returns_step; [reflexivity|]); rewrite F1, F2, F3; cbn; unfold assert_; rewrite ?Hid.
  all: rewrite (proj2 (Z.leb_le FFA_RXTX_HEADER_SIZE _)) by (unfold FFA_RXTX_HEADER_SIZE; lia).
  all: repeat (eapply returns_step; [rewrite ?Hid; reflexivity|]).
  all: rewrite (proj2 (Z.ltb_ge size _)), (proj2 (Z.leb_le (FFA_RXTX_HEADER_SIZE + _) _)), (proj2 (Z.leb_le (zlen payload) _)) by (unfold FFA_RXTX_HEADER_SIZE; lia).
  all: cbn [andb]; eapply returns_step; [reflexivity|]; rewrite Hpay.
  all: assert ((if negb (to =? own) then ffa_rx_release_with_id to else ffa_rx_release) s
    = Ok (regs FFA_SUCCESS_SMC32 0 0 0 0 0 0 0, {| spmc := None; tx := tx s; rx := rx s |})) as Hrel by (by destruct (to =? own)).
  all: eapply returns_step; [exact Hrel|]; cbn; by rewrite Z.eqb_refl.
Qed.

Lemma receive_nothing (size to own : Z) (buffer : list Z) (s : cstate) : spmc s = None → size <= FFA_MSG_PAYLOAD_MAX →
  returns (receive_indirect_message buffer size to own) s (λ r _, r = (false, buffer, None)).
Proof.
  intros Hsp Hmax. unfold receive_indirect_message. rewrite (proj2 (Z.ltb_ge _ _)) by done.
  assert (ffa_notification_get to 0 FFA_NOTIFICATIONS_FLAG_BITMAP_SPM s = Ok (regs FFA_SUCCESS_SMC32 0 0 0 0 0 0 0, s)) as Hn.
  { destruct s as [d t r]. cbn in Hsp. unfold ffa_notification_get, ffa_service_call. cbn. by rewrite Hsp. }
  eapply returns_step; [exact Hn|]. done.
Qed.


End Courier.

Module SampleFfaRun.

Definition to_two : list ffa_memory_access :=
  [ffa_memory_access_init_permissions_from_mem_func 0 0x8001 FFA_MEM_LEND_SMC64;
   ffa_memory_access_init 0 0x8002 FFA_DATA_ACCESS_RO FFA_INSTRUCTION_ACCESS_NX 0 (Some (7, 9))].
Definition pages_300 : list ffa_memory_region_constituent :=
  (λ i, {| address := 4096 * Z.of_nat i; page_count := 1; reserved := 0 |}) <$> seq 0 300.
Definition count_handle (l : list (Z * list Z)) : Z := Z.land (zlen l) 0xFFFF.
Lemma count_handle_range (l : list (Z * list Z)) : 0 <= count_handle l < 2 ^ 63.
Proof. unfold count_handle. change 0xFFFF with (Z.ones 16). rewrite Z.land_ones by lia. pose proof (Z.mod_pos_bound (zlen l) (2 ^ 16)). lia. Qed.
Definition start : ffa_state manager :=
  {| spmc := {| underway := None; regions := [] |}; tx := replicate 4096 0; rx := replicate 4096 0 |}.
Definition none : ffa_value := regs 0 0 0 0 0 0 0 0.


Lemma ffa_message_decodes_witness :
  let m := message 1 0x2f 0 5 0 to_two (take 3 pages_300) in
  ffa_memory_region_get_receiver m 1 = Some (Some 80) ∧ ffa_memory_region_get_receiver m 2 = Some None
  ∧ field 4 112 m = Some 3 ∧ field 8 (112 + 16 + 32) m = Some 8192.
Proof.
  destruct (ffa_message_decodes 1 0x2f 0 5 0 to_two (take 3 pages_300) ltac:(by vm_compute)) as (Hr & Hn & Hp & _ & Hc). split_and!.
  - by destruct (Hr 1 _ eq_refl).
  - by apply Hn.
  - exact Hp.
  - by destruct (Hc 2 _ eq_refl ltac:(done)).
Defined.

Definition idle : ffa_state (option bool) := {| spmc := None; tx := replicate 4096 0; rx := replicate 4096 0 |}.


End SampleFfaRun.
