(* ===== verification/Cactus.v ===== *)
(** * Cactus, a secure partition of the tests (cactus_test_cmds.h,
    spm/cactus/cactus_main.c, cactus_tests/cactus_message_loop.c,
    cactus_test_direct_messaging.c, cactus_test_notifications.c,
    cactus_test_indirect_message.c, cactus_test_interrupts.c)

    A command is a direct request whose first argument names it; a handler ends
    with a direct response.  That response is a call too: it returns with the
    next request, so that the value of a handler is what the partition is
    asked next. *)

From S2P Require Import Prelude Bytes Ffa FfaMem.

Local Open Scope Z_scope.

Definition CACTUS_ERROR : Z := u32 (-1).
Definition CACTUS_ERROR_TEST : Z := 2.
Definition CACTUS_ERROR_FFA_CALL : Z := 3.
Definition CACTUS_ERROR_UNHANDLED : Z := 4.
Definition CACTUS_ECHO_CMD : Z := 0x6563686f.
Definition CACTUS_REQ_ECHO_CMD : Z := CACTUS_ECHO_CMD + 1.
Definition CACTUS_DEADLOCK_CMD : Z := 0x64656164.
Definition CACTUS_REQ_DEADLOCK_CMD : Z := CACTUS_DEADLOCK_CMD + 1.
Definition CACTUS_MEM_SEND_CMD : Z := 0x6d656d.
Definition CACTUS_REQ_MEM_SEND_CMD : Z := 0x6d656d6f7279.
Definition CACTUS_REQ_SIMD_FILL_CMD : Z := 0x53494d44.
Definition CACTUS_CMP_SIMD_VALUE_CMD : Z := CACTUS_REQ_SIMD_FILL_CMD + 1.
Definition CACTUS_SLEEP_CMD : Z := 0x736c656570.
Definition CACTUS_FWD_SLEEP_CMD : Z := CACTUS_SLEEP_CMD + 1.
Definition CACTUS_SLEEP_TRIGGER_TWDOG_CMD : Z := CACTUS_SLEEP_CMD + 2.
Definition CACTUS_DMA_SMMUv3_CMD : Z := 0x534d4d55.
Definition CACTUS_NOTIFICATION_BIND_CMD : Z := 0x62696e64.
Definition CACTUS_NOTIFICATION_UNBIND_CMD : Z := 0x756e62696e64.
Definition CACTUS_NOTIFICATION_GET_CMD : Z := 0x6765746e6f74.
Definition CACTUS_NOTIFICATIONS_SET_CMD : Z := 0x6e6f74736574.
Definition CACTUS_TWDOG_START_CMD : Z := 0x57444f47.
Definition CACTUS_GET_REQ_COUNT_CMD : Z := 0x726571636f756e74.
Definition CACTUS_LAST_INTERRUPT_SERVICED_CMD : Z := 0x76494e54.
Definition CACTUS_RESUME_AFTER_MANAGED_EXIT : Z := 0x52414d45.
Definition CACTUS_TRIGGER_ESPI_CMD : Z := 0x65737069.
Definition CACTUS_RAS_DELEGATE_CMD : Z := 0x72617365.
Definition CACTUS_REQ_MSG_SEND_CMD : Z := 0x4d5347524551a.
Definition CACTUS_SET_ARCH_TIMER_CMD : Z := 0x54494d4552.

Definition FFA_INTERRUPT : Z := FFA_FID SMC_32 0x62.
Definition FFA_ERROR_INVALID_PARAMETER : Z := -2.
Definition FFA_ERROR_BUSY : Z := -4.
Definition FFA_ERROR_DENIED : Z := -6.
Definition FFA_NOTIFICATIONS_FLAG_DELAY_SRI : Z := Z.shiftl 1 1.
Definition FFA_FRAMEWORK_MSG_PSCI_REQ : Z := 0.
Definition FFA_FRAMEWORK_MSG_PSCI_RESP : Z := 2.
Definition SPMC_ID : Z := 0x8000.
Definition MANAGED_EXIT_INTERRUPT_ID : Z := 4.
Definition SMC_PSCI_CPU_OFF : Z := 0x84000002.
Definition PSCI_E_SUCCESS : Z := 0.
Definition PSCI_E_DENIED : Z := -3.
Definition SPM_INTERRUPT_ENABLE : Z := 0xFF03.

(** ** What is read from a command or a response *)

Definition to_bool (x : Z) : bool := negb (x =? 0).
Definition of_bool (b : bool) : Z := if b then 1 else 0.

Definition cactus_get_cmd (ret : ffa_value) : Z := arg3 ret.
Definition cactus_error_code (ret : ffa_value) : Z := u32 (arg4 ret).
Definition cactus_echo_get_val (ret : ffa_value) : Z := arg4 ret.
Definition cactus_req_echo_get_echo_dest (ret : ffa_value) : Z := u16 (arg5 ret).
Definition cactus_deadlock_get_next_dest (ret : ffa_value) : Z := u16 (arg4 ret).
Definition cactus_deadlock_get_next_dest2 (ret : ffa_value) : Z := u16 (arg5 ret).
Definition cactus_mem_send_get_handle (ret : ffa_value) : Z := arg5 ret.
Definition cactus_mem_send_get_retrv_flags (ret : ffa_value) : Z := u32 (arg6 ret).
Definition cactus_mem_send_words_to_write (ret : ffa_value) : Z := Z.land (u16 (arg7 ret)) 0xFFFF.
Definition cactus_mem_send_expect_exception (ret : ffa_value) : bool := to_bool (Z.land (Z.shiftr (arg7 ret) 32) 1).
Definition cactus_mem_send_is_normal_memory (ret : ffa_value) : bool := to_bool (Z.land (Z.shiftr (arg7 ret) 33) 1).
Definition cactus_req_mem_send_get_mem_func (ret : ffa_value) : Z := u32 (arg4 ret).
Definition cactus_req_mem_send_get_receiver (ret : ffa_value) : Z := u16 (arg5 ret).
Definition cactus_req_mem_send_get_non_secure (ret : ffa_value) : bool := to_bool (arg6 ret).
Definition cactus_get_sleep_time (ret : ffa_value) : Z := u32 (arg4 ret).
Definition cactus_get_fwd_sleep_dest (ret : ffa_value) : Z := u16 (arg5 ret).
Definition cactus_get_fwd_sleep_interrupted_hint (ret : ffa_value) : bool := to_bool (arg6 ret).
Definition cactus_get_wdog_trigger_duration (ret : ffa_value) : Z := u32 (arg5 ret).
Definition cactus_get_interrupt_id (ret : ffa_value) : Z := u32 (arg4 ret).
Definition cactus_get_interrupt_enable (ret : ffa_value) : bool := to_bool (arg5 ret).
Definition cactus_get_interrupt_pin (ret : ffa_value) : Z := u32 (arg6 ret).
Definition cactus_notification_get_receiver (ret : ffa_value) : Z := u16 (arg4 ret).
Definition cactus_notification_get_sender (ret : ffa_value) : Z := u16 (arg5 ret).
Definition cactus_notification_get_notifications (ret : ffa_value) : Z := arg6 ret.
Definition cactus_notification_get_vcpu (ret : ffa_value) : Z := u32 (arg5 ret).
Definition cactus_notification_get_flags (ret : ffa_value) : Z := u32 (arg7 ret).
Definition cactus_notifications_get_from_sp (ret : ffa_value) : Z := arg4 ret.
Definition cactus_notifications_get_from_vm (ret : ffa_value) : Z := arg5 ret.
Definition cactus_notifications_check_npi_handled (ret : ffa_value) : bool := to_bool (arg6 ret).
Definition cactus_notifications_set_get_receiver (ret : ffa_value) : Z := u16 (Z.land (arg4 ret) 0xFFFF).
Definition cactus_notifications_set_get_sender (ret : ffa_value) : Z := u16 (Z.land (Z.shiftr (arg4 ret) 16) 0xFFFF).
Definition cactus_get_wdog_duration (ret : ffa_value) : Z := u32 (arg4 ret).
Definition cactus_get_req_count (ret : ffa_value) : Z := u32 (arg4 ret).
Definition cactus_get_espi_id (ret : ffa_value) : Z := u32 (arg4 ret).
Definition cactus_ras_get_event_id (ret : ffa_value) : Z := arg4 ret.
Definition cactus_msg_send_receiver (ret : ffa_value) : Z := u16 (arg5 ret).
Definition cactus_msg_send_sender (ret : ffa_value) : Z := u16 (arg6 ret).
Definition cactus_msg_send_flags (ret : ffa_value) : Z := arg4 ret.
Definition cactus_get_timer_deadline (ret : ffa_value) : Z := arg4 ret.
Definition cactus_get_timer_wait_time (ret : ffa_value) : Z := arg5 ret.

Section Commands.

Context {D : Type} `{Spmc D}.

Abbreviation F := (M (ffa_state D)).

Definition cactus_send_response (source dest resp val0 val1 val2 val3 : Z) : F ffa_value :=
  ffa_msg_send_direct_resp64 source dest (u32 resp) val0 val1 val2 val3.
Definition cactus_response (source dest response : Z) : F ffa_value := cactus_send_response source dest (u32 response) 0 0 0 0.
Definition cactus_success_resp (source dest value : Z) : F ffa_value := cactus_send_response source dest CACTUS_SUCCESS value 0 0 0.
Definition cactus_error_resp (source dest error_code : Z) : F ffa_value :=
  cactus_send_response source dest CACTUS_ERROR (u32 error_code) 0 0 0.

Definition cactus_echo_send_cmd (source dest echo_val : Z) : F ffa_value := cactus_send_cmd source dest CACTUS_ECHO_CMD echo_val 0 0 0.
Definition cactus_req_echo_send_cmd (source dest echo_dest echo_val : Z) : F ffa_value :=
  cactus_send_cmd source dest CACTUS_REQ_ECHO_CMD echo_val echo_dest 0 0.
Definition cactus_deadlock_send_cmd (source dest next_dest : Z) : F ffa_value :=
  cactus_send_cmd source dest CACTUS_DEADLOCK_CMD next_dest 0 0 0.
Definition cactus_req_deadlock_send_cmd (source dest next_dest1 next_dest2 : Z) : F ffa_value :=
  cactus_send_cmd source dest CACTUS_REQ_DEADLOCK_CMD next_dest1 next_dest2 0 0.
Definition cactus_mem_send_cmd (source dest mem_func handle retrieve_flags word_to_write : Z) (expect_exception is_normal_memory : bool)
    : F ffa_value :=
  let exception := if expect_exception then Z.shiftl 1 32 else 0 in
  let normal := if is_normal_memory then Z.shiftl 1 33 else 0 in
  cactus_send_cmd source dest CACTUS_MEM_SEND_CMD mem_func handle retrieve_flags (Z.lor (Z.lor word_to_write exception) normal).
Definition cactus_req_mem_send_send_cmd (source dest mem_func receiver : Z) (non_secure : bool) : F ffa_value :=
  cactus_send_cmd source dest CACTUS_REQ_MEM_SEND_CMD mem_func receiver (of_bool non_secure) 0.
Definition cactus_req_simd_fill_send_cmd (source dest : Z) : F ffa_value := cactus_send_cmd source dest CACTUS_REQ_SIMD_FILL_CMD 0 0 0 0.
Definition cactus_req_simd_compare_send_cmd (source dest : Z) : F ffa_value :=
  cactus_send_cmd source dest CACTUS_CMP_SIMD_VALUE_CMD 0 0 0 0.
Definition cactus_sleep_cmd (source dest sleep_time : Z) : F ffa_value := cactus_send_cmd source dest CACTUS_SLEEP_CMD sleep_time 0 0 0.
Definition cactus_fwd_sleep_cmd (source dest fwd_dest sleep_time : Z) (hint_interrupted : bool) : F ffa_value :=
  cactus_send_cmd source dest CACTUS_FWD_SLEEP_CMD sleep_time fwd_dest (of_bool hint_interrupted) 0.
Definition cactus_sleep_trigger_wdog_cmd (source dest sleep_time wdog_time : Z) : F ffa_value :=
  cactus_send_cmd source dest CACTUS_SLEEP_TRIGGER_TWDOG_CMD sleep_time wdog_time 0 0.
Definition cactus_send_dma_cmd (source dest operation base range attributes : Z) : F ffa_value :=
  cactus_send_cmd source dest CACTUS_DMA_SMMUv3_CMD operation base range attributes.
Definition cactus_notification_bind_send_cmd (source dest receiver sender notifications flags : Z) : F ffa_value :=
  cactus_send_cmd source dest CACTUS_NOTIFICATION_BIND_CMD receiver sender notifications flags.
Definition cactus_notification_unbind_send_cmd (source dest receiver sender notifications : Z) : F ffa_value :=
  cactus_send_cmd source dest CACTUS_NOTIFICATION_UNBIND_CMD receiver sender notifications 0.
Definition cactus_notification_get_send_cmd (source dest receiver vcpu_id flags : Z) (check_npi_handled : bool) : F ffa_value :=
  cactus_send_cmd source dest CACTUS_NOTIFICATION_GET_CMD receiver vcpu_id (of_bool check_npi_handled) flags.
Definition cactus_notifications_get_success_resp (source dest from_sp from_vm : Z) : F ffa_value :=
  cactus_send_response source dest CACTUS_SUCCESS from_sp from_vm 0 0.
Definition cactus_notifications_set_send_cmd (source dest receiver sender flags notifications echo_dest : Z) : F ffa_value :=
  cactus_send_cmd source dest CACTUS_NOTIFICATIONS_SET_CMD (Z.lor receiver (u32 (Z.shiftl sender 16))) echo_dest notifications flags.
Definition cactus_send_twdog_cmd (source dest time : Z) : F ffa_value := cactus_send_cmd source dest CACTUS_TWDOG_START_CMD time 0 0 0.
Definition cactus_get_req_count_send_cmd (source dest : Z) : F ffa_value := cactus_send_cmd source dest CACTUS_GET_REQ_COUNT_CMD 0 0 0 0.
Definition cactus_get_last_interrupt_cmd (source dest : Z) : F ffa_value :=
  cactus_send_cmd source dest CACTUS_LAST_INTERRUPT_SERVICED_CMD 0 0 0 0.
Definition cactus_resume_after_managed_exit (source dest : Z) : F ffa_value :=
  cactus_send_cmd source dest CACTUS_RESUME_AFTER_MANAGED_EXIT 0 0 0 0.
Definition cactus_trigger_espi_cmd (source dest espi_id : Z) : F ffa_value :=
  cactus_send_cmd source dest CACTUS_TRIGGER_ESPI_CMD espi_id 0 0 0.
Definition cactus_ras_delegate_send_cmd (source dest event_id : Z) : F ffa_value :=
  cactus_send_cmd source dest CACTUS_RAS_DELEGATE_CMD event_id 0 0 0.
Definition cactus_req_ind_msg_send_cmd (source dest receiver sender flags : Z) : F ffa_value :=
  cactus_send_cmd source dest CACTUS_REQ_MSG_SEND_CMD flags receiver sender 0.
Definition cactus_send_arch_timer_cmd (source dest deadline wait : Z) : F ffa_value :=
  cactus_send_cmd source dest CACTUS_SET_ARCH_TIMER_CMD deadline wait 0 0.

End Commands.

(** ** The partition *)

(** The counter and the calls of the hypervisor that a partition uses *)
Class SpHw (E : Type) := {
  virtualcounter_read : E → Z * E;
  read_cntfrq_el0 : Z;
  tftf_hvc : Z → Z → Z → Z → E → Z * E;
}.

Section Partition.

Context {D : Type} `{Spmc D} {E : Type} `{SpHw E}.

(** The static variables, what is outside and the mailbox *)
Record cactus_state := {
  requests_counter : list Z;
  npi_handled : list bool;
  g_dir_req_source_id : Z;
  last_serviced_interrupt : list Z;
  hw : E;
  spm : ffa_state D;
}.

Definition set_counter (s : cactus_state) (c : list Z) : cactus_state :=
  {| requests_counter := c; npi_handled := npi_handled s; g_dir_req_source_id := g_dir_req_source_id s;
     last_serviced_interrupt := last_serviced_interrupt s; hw := hw s; spm := spm s |}.
Definition set_npi (s : cactus_state) (n : list bool) : cactus_state :=
  {| requests_counter := requests_counter s; npi_handled := n; g_dir_req_source_id := g_dir_req_source_id s;
     last_serviced_interrupt := last_serviced_interrupt s; hw := hw s; spm := spm s |}.
Definition set_source (s : cactus_state) (i : Z) : cactus_state :=
  {| requests_counter := requests_counter s; npi_handled := npi_handled s; g_dir_req_source_id := i;
     last_serviced_interrupt := last_serviced_interrupt s; hw := hw s; spm := spm s |}.
Definition set_hw (s : cactus_state) (e : E) : cactus_state :=
  {| requests_counter := requests_counter s; npi_handled := npi_handled s; g_dir_req_source_id := g_dir_req_source_id s;
     last_serviced_interrupt := last_serviced_interrupt s; hw := e; spm := spm s |}.
Definition set_spm (s : cactus_state) (f : ffa_state D) : cactus_state :=
  {| requests_counter := requests_counter s; npi_handled := npi_handled s; g_dir_req_source_id := g_dir_req_source_id s;
     last_serviced_interrupt := last_serviced_interrupt s; hw := hw s; spm := f |}.

Abbreviation C := (M cactus_state).

Definition ffa {A} (m : M (ffa_state D) A) : C A := λ s,
  match m (spm s) with Ok (a, f) => Ok (a, set_spm s f) | Stop w => Stop w end.
Definition on_hw {A} (f : E → A * E) : C A := λ s, let '(a, e) := f (hw s) in Ok (a, set_hw s e).
Definition index {A} (l : list A) (i : Z) : C A := match zget l i with Some a => mret a | None => fail OutOfBounds end.

(** [EXPECT()] waits forever if the values differ. *)
Definition EXPECT (b : bool) : C unit := if b then mret tt else fail FuelOut.

Definition handler : Type := ffa_value → C ffa_value.

(** *** Direct messages *)

Definition echo_cmd : handler := λ args,
  ffa (cactus_success_resp (ffa_dir_msg_dest args) (ffa_dir_msg_source args) (cactus_echo_get_val args)).

Definition req_echo_cmd : handler := λ args,
  let vm_id := ffa_dir_msg_dest args in
  let echo_dest := cactus_req_echo_get_echo_dest args in
  let echo_val := cactus_echo_get_val args in
  ffa_ret ← ffa (cactus_echo_send_cmd vm_id echo_dest echo_val);
  if negb (is_ffa_direct_response ffa_ret) then ffa (cactus_error_resp vm_id (ffa_dir_msg_source args) CACTUS_ERROR_FFA_CALL)
  else if negb (cactus_get_response ffa_ret =? CACTUS_SUCCESS) || negb (cactus_echo_get_val ffa_ret =? echo_val)
  then ffa (cactus_error_resp vm_id (ffa_dir_msg_source args) CACTUS_ERROR_TEST)
  else ffa (cactus_success_resp vm_id (ffa_dir_msg_source args) 0).

Definition base_deadlock_handler (vm_id source deadlock_dest deadlock_next_dest : Z) : C ffa_value :=
  ffa_ret ← ffa (cactus_deadlock_send_cmd vm_id deadlock_dest deadlock_next_dest);
  let is_deadlock_detected := (ffa_func_id ffa_ret =? FFA_ERROR) && (ffa_error_code ffa_ret =? FFA_ERROR_BUSY) in
  let is_returning_from_deadlock := is_ffa_direct_response ffa_ret && (cactus_get_response ffa_ret =? CACTUS_SUCCESS) in
  if is_deadlock_detected || is_returning_from_deadlock then ffa (cactus_success_resp vm_id source 0)
  else ffa (cactus_error_resp vm_id source CACTUS_ERROR_TEST).

Definition deadlock_cmd : handler := λ args,
  let source := ffa_dir_msg_source args in
  base_deadlock_handler (ffa_dir_msg_dest args) source (cactus_deadlock_get_next_dest args) source.

Definition req_deadlock_cmd : handler := λ args,
  base_deadlock_handler (ffa_dir_msg_dest args) (ffa_dir_msg_source args) (cactus_deadlock_get_next_dest args)
    (cactus_deadlock_get_next_dest2 args).

Definition ras_delegate_cmd : handler := λ args,
  ffa (cactus_success_resp (ffa_dir_msg_dest args) (ffa_dir_msg_source args) (cactus_ras_get_event_id args)).

(** *** Notifications *)

Definition set_npi_handled (vcpu_id : Z) (val : bool) : C unit :=
  s ← get;
  index (npi_handled s) vcpu_id;;
  put (set_npi s (zset (npi_handled s) vcpu_id val)).
Definition get_npi_handled (vcpu_id : Z) : C bool := s ← get; index (npi_handled s) vcpu_id.

(** The vCPU that runs *)
Context (core_pos : Z).

Definition notification_pending_interrupt_handler : C unit := set_npi_handled core_pos true.

Definition notifications_bind : handler := λ args,
  let source := ffa_dir_msg_source args in
  let vm_id := ffa_dir_msg_dest args in
  ret ← ffa (ffa_notification_bind (cactus_notification_get_sender args) (cactus_notification_get_receiver args)
               (cactus_notification_get_flags args) (cactus_notification_get_notifications args));
  if is_ffa_call_error ret then ffa (cactus_error_resp vm_id source (ffa_error_code ret))
  else ffa (cactus_response vm_id source CACTUS_SUCCESS).

Definition notifications_unbind : handler := λ args,
  let source := ffa_dir_msg_source args in
  let vm_id := ffa_dir_msg_dest args in
  ret ← ffa (ffa_notification_unbind (cactus_notification_get_sender args) (cactus_notification_get_receiver args)
               (cactus_notification_get_notifications args));
  if is_ffa_call_error ret then ffa (cactus_error_resp vm_id source (ffa_error_code ret))
  else ffa (cactus_response vm_id source CACTUS_SUCCESS).

Definition notifications_get : handler := λ args,
  let source := ffa_dir_msg_source args in
  let vm_id := ffa_dir_msg_dest args in
  let vcpu_id := cactus_notification_get_vcpu args in
  ret ← ffa (ffa_notification_get (cactus_notification_get_receiver args) vcpu_id (cactus_notification_get_flags args));
  if is_ffa_call_error ret then ffa (cactus_error_resp vm_id source (ffa_error_code ret))
  else
    handled ← (if cactus_notifications_check_npi_handled args then
                 handled ← get_npi_handled vcpu_id;
                 if negb handled then mret false else set_npi_handled vcpu_id false;; mret true
               else mret true);
    if negb handled then ffa (cactus_error_resp vm_id source CACTUS_ERROR_TEST)
    else ffa (cactus_notifications_get_success_resp vm_id source (ffa_notification_get_from_sp ret) (ffa_notification_get_from_vm ret)).

Definition notifications_set : handler := λ args,
  let source := ffa_dir_msg_source args in
  let vm_id := ffa_dir_msg_dest args in
  let echo_dest := cactus_req_echo_get_echo_dest args in
  let flags := cactus_notification_get_flags args in
  ret ← ffa (ffa_notification_set (cactus_notifications_set_get_sender args) (cactus_notifications_set_get_receiver args) flags
               (cactus_notification_get_notifications args));
  if is_ffa_call_error ret then ffa (cactus_error_resp vm_id source (ffa_error_code ret))
  else
    ok ← (if negb (Z.land flags FFA_NOTIFICATIONS_FLAG_DELAY_SRI =? 0) && IS_SP_ID echo_dest then
            ret ← ffa (cactus_echo_send_cmd vm_id echo_dest FFA_NOTIFICATION_SET);
            mret (is_expected_cactus_response ret CACTUS_SUCCESS FFA_NOTIFICATION_SET)
          else mret true);
    if negb ok then ffa (cactus_error_resp vm_id source CACTUS_ERROR_TEST)
    else ffa (cactus_response vm_id source CACTUS_SUCCESS).

(** *** Indirect messages *)

(** The characters of the text, with the terminator *)
Definition test_message : list Z :=
  [0x54; 0x65; 0x73; 0x74; 0x69; 0x6e; 0x67; 0x20; 0x46; 0x46; 0x2d; 0x41; 0x20; 0x6d; 0x65; 0x73; 0x73; 0x61; 0x67; 0x65; 0x2e; 0].

Definition req_msg_send : handler := λ args,
  let vm_id := ffa_dir_msg_dest args in
  let source := ffa_dir_msg_source args in
  ret ← ffa (send_indirect_message (cactus_msg_send_sender args) (cactus_msg_send_receiver args) test_message 0);
  if is_ffa_call_error ret then ffa (cactus_error_resp vm_id source (ffa_error_code ret))
  else ffa (cactus_success_resp vm_id source 0).

(** *** Sleeping and interrupts *)

(** [while ((time2 - time1) < ((ms * timer_freq) / 1000U))] *)
Fixpoint sleep_loop (fuel : nat) (time1 time2 wait : Z) : C Z :=
  if u64 (time2 - time1) <? wait then
    match fuel with
    | O => fail FuelOut
    | S fuel' => time2 ← on_hw virtualcounter_read; sleep_loop fuel' time1 time2 wait
    end
  else mret time2.
Definition sp_sleep_elapsed_time (fuel : nat) (ms : Z) : C Z :=
  let timer_freq := read_cntfrq_el0 in
  time1 ← on_hw virtualcounter_read;
  time2 ← sleep_loop fuel time1 time1 (u64 (ms * timer_freq) / 1000);
  if timer_freq =? 0 then fail Undefined else mret (u64 (u64 (time2 - time1) * 1000) / timer_freq).

Definition sleep_cmd (fuel : nat) : handler := λ args,
  time_lapsed ← sp_sleep_elapsed_time fuel (cactus_get_sleep_time args);
  ffa (cactus_response (ffa_dir_msg_dest args) (ffa_dir_msg_source args) (u32 time_lapsed)).

(** The last answer and whether the destination was interrupted; the variable
    is set in the loop only, [interrupted] is what it held before. *)
Fixpoint forward_loop (fuel : nat) (vm_id fwd_dest : Z) (ffa_ret : ffa_value) (interrupted : bool) : C (ffa_value * bool) :=
  if (ffa_func_id ffa_ret =? FFA_INTERRUPT) || is_expected_cactus_response ffa_ret MANAGED_EXIT_INTERRUPT_ID 0 then
    match fuel with
    | O => fail FuelOut
    | S fuel' =>
        ffa_ret ← ffa (if ffa_func_id ffa_ret =? FFA_INTERRUPT then ffa_run fwd_dest core_pos
                       else cactus_resume_after_managed_exit vm_id fwd_dest);
        forward_loop fuel' vm_id fwd_dest ffa_ret true
    end
  else mret (ffa_ret, interrupted).
Definition sleep_fwd_cmd (fuel : nat) (junk : bool) : handler := λ args,
  let vm_id := ffa_dir_msg_dest args in
  let fwd_dest := cactus_get_fwd_sleep_dest args in
  let sleep_ms := cactus_get_sleep_time args in
  ffa_ret ← ffa (cactus_sleep_cmd vm_id fwd_dest sleep_ms);
  r ← forward_loop fuel vm_id fwd_dest ffa_ret junk;
  let '(ffa_ret, fwd_dest_interrupted) := r in
  if cactus_get_fwd_sleep_interrupted_hint args && negb fwd_dest_interrupted
  then ffa (cactus_error_resp vm_id (ffa_dir_msg_source args) CACTUS_ERROR_TEST)
  else if negb (is_ffa_direct_response ffa_ret) then ffa (cactus_error_resp vm_id (ffa_dir_msg_source args) CACTUS_ERROR_FFA_CALL)
  else if cactus_get_response ffa_ret <? sleep_ms then ffa (cactus_error_resp vm_id (ffa_dir_msg_source args) CACTUS_ERROR_TEST)
  else ffa (cactus_success_resp vm_id (ffa_dir_msg_source args) 0).

Definition spm_interrupt_enable (int_id : Z) (enable : bool) (pin : Z) : C Z :=
  on_hw (tftf_hvc SPM_INTERRUPT_ENABLE int_id (of_bool enable) pin).

Definition interrupt_cmd : handler := λ args,
  ret ← spm_interrupt_enable (cactus_get_interrupt_id args) (cactus_get_interrupt_enable args) (cactus_get_interrupt_pin args);
  if negb (ret =? 0) then ffa (cactus_error_resp (ffa_dir_msg_dest args) (ffa_dir_msg_source args) CACTUS_ERROR_TEST)
  else ffa (cactus_response (ffa_dir_msg_dest args) (ffa_dir_msg_source args) CACTUS_SUCCESS).

Definition interrupt_serviced_cmd : handler := λ args,
  s ← get;
  intid ← index (last_serviced_interrupt s) core_pos;
  ffa (cactus_response (ffa_dir_msg_dest args) (ffa_dir_msg_source args) intid).

(** *** The table of handlers and the loop *)

(** The linker collects the handlers; those of the files that are not modelled
    are left out. *)
Definition cactus_cmd_handlers (fuel : nat) (junk : bool) : list (Z * handler) :=
  [(CACTUS_ECHO_CMD, echo_cmd); (CACTUS_REQ_ECHO_CMD, req_echo_cmd); (CACTUS_DEADLOCK_CMD, deadlock_cmd);
   (CACTUS_REQ_DEADLOCK_CMD, req_deadlock_cmd); (CACTUS_RAS_DELEGATE_CMD, ras_delegate_cmd);
   (CACTUS_NOTIFICATION_BIND_CMD, notifications_bind); (CACTUS_NOTIFICATION_UNBIND_CMD, notifications_unbind);
   (CACTUS_NOTIFICATION_GET_CMD, notifications_get); (CACTUS_NOTIFICATIONS_SET_CMD, notifications_set);
   (CACTUS_REQ_MSG_SEND_CMD, req_msg_send); (CACTUS_SLEEP_CMD, sleep_cmd fuel); (CACTUS_FWD_SLEEP_CMD, sleep_fwd_cmd fuel junk);
   (CACTUS_INTERRUPT_CMD, interrupt_cmd); (CACTUS_LAST_INTERRUPT_SERVICED_CMD, interrupt_serviced_cmd)].

Context (handlers : list (Z * handler)).

(** [for (it_cmd = cactus_cmd_handler_begin; ...)] *)
Fixpoint find_handler (table : list (Z * handler)) (in_cmd : Z) : option handler :=
  match table with
  | [] => None
  | (id, fn) :: table' => if id =? in_cmd then Some fn else find_handler table' in_cmd
  end.

Definition is_direct_request (v : ffa_value) : bool :=
  (ffa_func_id v =? FFA_MSG_SEND_DIRECT_REQ_SMC32) || (ffa_func_id v =? FFA_MSG_SEND_DIRECT_REQ_SMC64).

Definition cactus_handle_cmd (cmd_args : ffa_value) : C ffa_value :=
  s ← get;
  (if is_direct_request cmd_args then put (set_source s (ffa_dir_msg_source cmd_args)) else mret tt);;
  let in_cmd := cactus_get_cmd cmd_args in
  match find_handler handlers in_cmd with
  | Some fn =>
      ret ← fn cmd_args;
      s ← get;
      n ← index (requests_counter s) core_pos;
      put (set_counter s (zset (requests_counter s) core_pos (u32 (n + 1))));;
      mret ret
  | None =>
      if in_cmd =? CACTUS_GET_REQ_COUNT_CMD then
        s ← get;
        n ← index (requests_counter s) core_pos;
        ffa (cactus_success_resp (ffa_dir_msg_dest cmd_args) (ffa_dir_msg_source cmd_args) n)
      else ffa (cactus_error_resp (ffa_dir_msg_dest cmd_args) (ffa_dir_msg_source cmd_args) CACTUS_ERROR_UNHANDLED)
  end.

(** [pwr_mgmt] is CACTUS_PWR_MGMT_SUPPORT. *)
Definition denied (ret : ffa_value) : C unit :=
  EXPECT (ffa_func_id ret =? FFA_ERROR);;
  EXPECT (ffa_error_code ret =? FFA_ERROR_DENIED).
Definition cactus_handle_framework_msg (pwr_mgmt : bool) (args : ffa_value) : C ffa_value :=
  let source_id := ffa_dir_msg_source args in
  let destination_id := ffa_dir_msg_dest args in
  status_code ← (if pwr_mgmt then
                   if negb (ffa_get_framework_msg args =? FFA_FRAMEWORK_MSG_PSCI_REQ) then mret PSCI_E_DENIED
                   else if negb (u32 (arg3 args) =? SMC_PSCI_CPU_OFF) then mret PSCI_E_DENIED
                   else if negb (source_id =? SPMC_ID) then mret PSCI_E_DENIED
                   else
                     ret ← ffa (cactus_success_resp destination_id source_id PSCI_E_SUCCESS); denied ret;;
                     ret ← ffa (cactus_echo_send_cmd destination_id (SP_ID 4) 0x9999); denied ret;;
                     ret ← ffa (ffa_run (SP_ID 4) 0); denied ret;;
                     ret ← ffa ffa_yield; denied ret;;
                     mret PSCI_E_SUCCESS
                 else mret PSCI_E_DENIED);
  ffa (ffa_framework_msg_send_direct_resp destination_id source_id FFA_FRAMEWORK_MSG_PSCI_RESP (u32 status_code)).

(** One round: the next message, or [None] where the loop is left *)
Definition message_round (pwr_mgmt : bool) (vm_id : Z) (ffa_ret : ffa_value) : C (option ffa_value) :=
  if ffa_func_id ffa_ret =? FFA_ERROR then mret None
  else if negb (is_direct_request ffa_ret) && negb (ffa_func_id ffa_ret =? FFA_INTERRUPT) && negb (ffa_func_id ffa_ret =? FFA_RUN)
  then mret None
  else if (ffa_func_id ffa_ret =? FFA_INTERRUPT) || (ffa_func_id ffa_ret =? FFA_RUN) then ret ← ffa ffa_msg_wait; mret (Some ret)
  else if ffa_is_framework_msg ffa_ret then ret ← cactus_handle_framework_msg pwr_mgmt ffa_ret; mret (Some ret)
  else if negb (ffa_dir_msg_dest ffa_ret =? vm_id) then mret None
  else ret ← cactus_handle_cmd ffa_ret; mret (Some ret).

Fixpoint rounds (fuel : nat) (pwr_mgmt : bool) (vm_id : Z) (ffa_ret : ffa_value) : C unit :=
  match fuel with
  | O => fail FuelOut
  | S fuel' =>
      r ← message_round pwr_mgmt vm_id ffa_ret;
      match r with Some ffa_ret => rounds fuel' pwr_mgmt vm_id ffa_ret | None => fail PanicCall end
  end.
Definition message_loop (fuel : nat) (pwr_mgmt : bool) (vm_id : Z) : C unit :=
  ffa_ret ← ffa ffa_msg_wait;
  rounds fuel pwr_mgmt vm_id ffa_ret.

End Partition.

Arguments cactus_state : clear implicits.
Arguments handler : clear implicits.
