(* ===== verification/CactusSpec.v ===== *)
(** * Partitions that call each other

    A system of Cactus partitions in which a direct request runs the partition
    it is for, and no partition is entered while it waits; what the handlers
    leave alone; what commands and responses carry; the theorems. *)

From stdpp Require Import gmap.
From S2P Require Import Prelude Bits Bytes Ffa FfaMem FfaSpec Cactus.

Local Open Scope Z_scope.

(** ** What handlers leave alone *)

Section Keeps.

Context {D : Type} `{Spmc D} {E : Type} `{SpHw E}.

Abbreviation cstate := (cactus_state D E).

Definition keeps {A} (P : cstate → Prop) (m : M cstate A) : Prop :=
  ∀ s, P s → match m s with Ok (_, s') => P s' | Stop _ => True end.

(** The same of a computation on the mailbox of [s] *)
Definition keeps_mail {A} (P : cstate → Prop) (m : M (ffa_state D) A) : Prop :=
  ∀ s f, P (set_spm s f) → match m f with Ok (_, f') => P (set_spm s f') | Stop _ => True end.

Lemma keeps_ret {A} P (a : A) : keeps P (mret a).
Proof. by intros s. Qed.
Lemma keeps_fail {A} P w : keeps P (fail (A := A) w).
Proof. by intros s. Qed.
Lemma keeps_get P : keeps P get.
Proof. by intros s. Qed.
Lemma keeps_bind {A B} P (m : M cstate A) (k : A → M cstate B) : keeps P m → (∀ a, keeps P (k a)) → keeps P (m ≫= k).
Proof.
  intros Hm Hk s Hs. unfold mbind, M_bind. specialize (Hm s Hs). destruct (m s) as [[a s']|]; [|done]. by apply Hk.
Qed.
Lemma keeps_get_bind {B} P (k : cstate → M cstate B) :
  (∀ s, P s → match k s s with Ok (_, s') => P s' | Stop _ => True end) → keeps P (get ≫= k).
Proof. intros Hk s Hs. by apply Hk. Qed.
Lemma keeps_index {A} P (l : list A) i : keeps P (index l i).
Proof. intros s. unfold index. by destruct (zget l i). Qed.
Lemma keeps_mail_ret {A} P (a : A) : keeps_mail P (mret a).
Proof. by intros s f. Qed.
Lemma keeps_mail_bind {A B} P (m : M (ffa_state D) A) (k : A → M (ffa_state D) B) :
  keeps_mail P m → (∀ a, keeps_mail P (k a)) → keeps_mail P (m ≫= k).
Proof.
  intros Hm Hk s f Hs. unfold mbind, M_bind. specialize (Hm s f Hs). destruct (m f) as [[a f']|]; [|done]. by apply Hk.
Qed.
Lemma set_spm_same (s : cstate) : set_spm s (spm s) = s.
Proof. by destruct s. Qed.
Lemma keeps_ffa {A} P (m : M (ffa_state D) A) : keeps_mail P m → keeps P (ffa m).
Proof.
  intros Hm s Hs. unfold ffa. specialize (Hm s (spm s)). rewrite set_spm_same in Hm. specialize (Hm Hs). by destruct (m (spm s)) as [[a f]|].
Qed.
Lemma keeps_if {A} P (b : bool) (m k : M cstate A) : keeps P m → keeps P k → keeps P (if b then m else k).
Proof. by destruct b. Qed.

(** A property that calls and the variables a handler writes do not touch *)
Context (P : cstate → Prop).
Context (Pcall : ∀ args, keeps_mail P (ffa_service_call args)).
Context (Ptx : ∀ s f t, P (set_spm s f) → P (set_spm s (set_tx f t))).
Context (Pnpi : ∀ s n, P s → P (set_npi s n)).
Context (Phw : ∀ s e, P s → P (set_hw s e)).

Lemma keeps_store n off v : keeps_mail P (store n off v).
Proof. intros s f Hs. unfold store, store_bytes. destruct (_ && _); [by apply Ptx|done]. Qed.
Lemma keeps_store_bytes off d : keeps_mail P (store_bytes off d).
Proof. intros s f Hs. unfold store_bytes. destruct (_ && _); [by apply Ptx|done]. Qed.
Lemma keeps_on_hw {A} (g : E → A * E) : keeps P (on_hw g).
Proof. intros s Hs. unfold on_hw. destruct (g (hw s)) as [a e]. by apply Phw. Qed.
Lemma keeps_set_npi_handled v b : keeps P (set_npi_handled v b).
Proof.
  apply keeps_get_bind. intros s Hs. unfold index. destruct (zget (npi_handled s) v); [|done]. by apply Pnpi.
Qed.
Lemma keeps_get_npi_handled v : keeps P (get_npi_handled v).
Proof. apply keeps_bind; [apply keeps_get|]. intros s. apply keeps_index. Qed.

Lemma keeps_message from to payload flags : keeps_mail P (send_indirect_message from to payload flags).
Proof.
  unfold send_indirect_message, ffa_rxtx_header_init.
  repeat first [apply keeps_mail_bind; [|intros ?]|apply keeps_store|apply keeps_store_bytes|apply Pcall].
Qed.

Create HintDb keeps.
#[local] Hint Resolve keeps_ret keeps_fail keeps_get keeps_index keeps_on_hw keeps_set_npi_handled keeps_get_npi_handled keeps_message : keeps.
#[local] Hint Extern 0 (keeps_mail P _) => apply Pcall : keeps.

(** Steps of a handler, one after the other *)
Ltac keep := repeat first
  [apply keeps_if | apply keeps_ffa; solve [auto with keeps] | solve [auto with keeps] | apply keeps_bind; [|intros ?] | apply keeps_ret].

Lemma keeps_sleep fuel t1 t2 w : keeps P (sleep_loop fuel t1 t2 w).
Proof. revert t2. induction fuel as [|fuel IH]; intros t2; cbn [sleep_loop]; keep. Qed.

Lemma keeps_forward fuel core a b ret i : keeps P (forward_loop core fuel a b ret i).
Proof.
  revert ret i. induction fuel as [|fuel IH]; intros ret i; cbn [forward_loop]; keep.
  - destruct (_ =? _); apply keeps_ffa; auto with keeps.
Qed.

Lemma handlers_keep core fuel junk id fn args : (id, fn) ∈ cactus_cmd_handlers core fuel junk → keeps P (fn args).
Proof.
  intros Hin. unfold cactus_cmd_handlers in Hin. rewrite !elem_of_cons in Hin.
  assert (∀ x, x ∉ @nil (Z * handler D E)) as Hnil by (intros x Hx; inversion Hx).
  destruct_or! Hin; simplify_eq; try by destruct (Hnil _ Hin).
  - unfold echo_cmd. keep.
  - unfold req_echo_cmd. keep.
  - unfold deadlock_cmd, base_deadlock_handler. keep.
  - unfold req_deadlock_cmd, base_deadlock_handler. keep.
  - unfold ras_delegate_cmd. keep.
  - unfold notifications_bind. keep.
  - unfold notifications_unbind. keep.
  - unfold notifications_get. keep.
  - unfold notifications_set. keep.
  - unfold req_msg_send. keep.
  - unfold sleep_cmd, sp_sleep_elapsed_time. keep. apply keeps_sleep.
  - unfold sleep_fwd_cmd. keep; [apply keeps_forward|]. destruct a0. keep.
  - unfold interrupt_cmd, spm_interrupt_enable. keep.
  - unfold interrupt_serviced_cmd. keep.
Qed.

End Keeps.

(** ** A round of the loop *)

Section Round.

Context {D : Type} `{Spmc D} {E : Type} `{SpHw E}.

Abbreviation cstate := (cactus_state D E).

Context (P : cstate → Prop).
Context (Pcall : ∀ args, keeps_mail P (ffa_service_call args)).
Context (Ptx : ∀ s f t, P (set_spm s f) → P (set_spm s (set_tx f t))).
Context (Pnpi : ∀ s n, P s → P (set_npi s n)).
Context (Phw : ∀ s e, P s → P (set_hw s e)).
Context (Psource : ∀ s i, P s → P (set_source s i)).
Context (Pcounter : ∀ s c, P s → P (set_counter s c)).

Lemma find_handler_in (table : list (Z * handler D E)) cmd fn : find_handler table cmd = Some fn → (cmd, fn) ∈ table.
Proof.
  induction table as [|[id f] table IH]; [done|]. cbn [find_handler]. destruct (Z.eqb_spec id cmd) as [->|].
  - intros [= ->]. apply list_elem_of_here.
  - intros Hf. by apply list_elem_of_further, IH.
Qed.

Lemma keeps_call args : keeps P (ffa (ffa_service_call args)).
Proof. by apply keeps_ffa. Qed.

Lemma handle_cmd_keeps core fuel junk args : keeps P (cactus_handle_cmd core (cactus_cmd_handlers core fuel junk) args).
Proof.
  unfold cactus_handle_cmd. apply keeps_get_bind. intros s Hs.
  set (rest := λ _ : unit, _). assert (∀ u, keeps P (rest u)) as Hrest.
  { intros u. unfold rest. destruct (find_handler _ _) as [fn|] eqn:Hf.
    - apply keeps_bind; [by eapply handlers_keep, find_handler_in|]. intros ret. apply keeps_get_bind. intros s1 Hs1.
      unfold mbind, M_bind, index. destruct (zget _ _); [|done]. by apply Pcounter.
    - destruct (_ =? _); [|apply keeps_call]. apply keeps_get_bind. intros s1 Hs1. unfold mbind, M_bind, index.
      destruct (zget _ _); [|done]. by apply (keeps_call _ s1). }
  unfold mbind at 1, M_bind at 1. destruct (is_direct_request args); apply Hrest; [by apply Psource|done].
Qed.

Lemma denied_keeps ret : keeps P (denied ret).
Proof.
  unfold denied, EXPECT. apply keeps_bind; [|intros ?]; destruct (_ =? _); first [apply keeps_ret|apply keeps_fail].
Qed.

Lemma framework_keeps pwr args : keeps P (cactus_handle_framework_msg pwr args).
Proof.
  unfold cactus_handle_framework_msg. apply keeps_bind; [|intros ?; apply keeps_call].
  repeat first [apply keeps_if|apply keeps_ret|apply keeps_call|apply denied_keeps|apply keeps_bind; [|intros ?]].
Qed.

Lemma round_keeps core fuel junk pwr vm_id msg : keeps P (message_round core (cactus_cmd_handlers core fuel junk) pwr vm_id msg).
Proof.
  unfold message_round.
  repeat first [apply keeps_ret|apply keeps_call|apply framework_keeps|apply handle_cmd_keeps|apply keeps_if|apply keeps_bind; [|intros ?]].
Qed.

End Round.

(** ** Requests and responses in registers *)

Definition request (source dest cmd v0 v1 v2 v3 : Z) : ffa_value :=
  regs FFA_MSG_SEND_DIRECT_REQ_SMC64 (ids_cast source dest) 0 cmd v0 v1 v2 v3.
Definition response (source dest resp v0 v1 v2 v3 : Z) : ffa_value :=
  regs FFA_MSG_SEND_DIRECT_RESP_SMC64 (ids_cast source dest) 0 (u32 resp) v0 v1 v2 v3.

Lemma u16_small (x : Z) : 0 <= x < 65536 → u16 x = x.
Proof. intros Hx. apply wrap_small. unfold in_width. lia. Qed.

Lemma land_16 (x : Z) : 0 <= x < 65536 → Z.land x 0xFFFF = x.
Proof. intros Hx. change 0xFFFF with (Z.ones 16). rewrite Z.land_ones by lia. apply Z.mod_small. lia. Qed.

Lemma ids_value (hi lo : Z) : 0 <= hi < 65536 → 0 <= lo < 65536 → ids_cast hi lo = hi * 65536 + lo.
Proof.
  intros Hh Hl. unfold ids_cast. rewrite Z.shiftl_mul_pow2 by lia. change (2 ^ 16) with 65536. rewrite u32_small by (unfold UINT32_MAX; lia).
  change 65536 with (2 ^ 16). rewrite lor_fields by lia. lia.
Qed.

Lemma ids_dest (v : ffa_value) (hi lo : Z) : arg1 v = ids_cast hi lo → 0 <= hi < 65536 → 0 <= lo < 65536 → ffa_dir_msg_dest v = lo.
Proof.
  intros Ha Hh Hl. unfold ffa_dir_msg_dest. rewrite Ha, ids_value by done. unfold u16, wrap. change (2 ^ 16) with 65536.
  rewrite Z.add_comm, Z.mod_add by lia. rewrite Z.mod_small by lia. by apply land_16.
Qed.

Lemma ids_source (v : ffa_value) (hi lo : Z) : arg1 v = ids_cast hi lo → 0 <= hi < 65536 → 0 <= lo < 65536 → ffa_dir_msg_source v = hi.
Proof.
  intros Ha Hh Hl. unfold ffa_dir_msg_source. rewrite Ha, ids_value by done. rewrite Z.shiftr_div_pow2 by lia. change (2 ^ 16) with 65536.
  rewrite Z.add_comm, Z.div_add, Z.div_small by lia. by apply u16_small.
Qed.

Lemma taken_round {D E} `{Spmc D} `{SpHw E} (core : Z) (table : list (Z * handler D E)) (pwr : bool) (args : ffa_value) (fn : handler D E)
    (s s' : cactus_state D E) (ret : ffa_value) (c : Z) :
  fid args = FFA_MSG_SEND_DIRECT_REQ_SMC64 → arg2 args = 0 → find_handler table (arg3 args) = Some fn →
  fn args (set_source s (ffa_dir_msg_source args)) = Ok (ret, s') → zget (requests_counter s') core = Some c →
  message_round core table pwr (ffa_dir_msg_dest args) args s
  = Ok (Some ret, set_counter s' (zset (requests_counter s') core (u32 (c + 1)))).
Proof.
  intros Hf H2 Hfind Hfn Hc.
  assert (ffa_func_id args = FFA_MSG_SEND_DIRECT_REQ_SMC64) as Hid by (unfold ffa_func_id; by rewrite Hf).
  assert (is_direct_request args = true) as Hreq by (unfold is_direct_request; by rewrite Hid).
  assert (ffa_is_framework_msg args = false) as Hfw by (unfold ffa_is_framework_msg, ffa_framework_msg_flags; by rewrite H2, Hid).
  unfold message_round. rewrite Hid, Hreq, Hfw, Z.eqb_refl. change (FFA_MSG_SEND_DIRECT_REQ_SMC64 =? FFA_ERROR) with false.
  change (FFA_MSG_SEND_DIRECT_REQ_SMC64 =? FFA_INTERRUPT) with false. change (FFA_MSG_SEND_DIRECT_REQ_SMC64 =? FFA_RUN) with false.
  cbn [negb andb orb]. unfold cactus_handle_cmd, cactus_get_cmd. rewrite Hreq, Hfind. unfold mbind, M_bind. cbn [get put].
  rewrite Hfn. unfold index. rewrite Hc. done.
Qed.

(** ** The system *)

Inductive halt : Set := TooDeep | PartitionStop (why : stop).

Section System.

Context {E : Type} `{SpHw E}.

(** The partitions by id, those that wait for an answer or run, the response of
    the one that runs, and whether something has come to a halt *)
Record system := {
  parts : gmap Z (cactus_state unit E);
  busy : list Z;
  reply : option ffa_value;
  halted : option halt;
}.

Definition wake (p : cactus_state unit E) (d : system) : cactus_state system E :=
  {| requests_counter := requests_counter p; npi_handled := npi_handled p; g_dir_req_source_id := g_dir_req_source_id p;
     last_serviced_interrupt := last_serviced_interrupt p; hw := hw p; spm := {| spmc := d; tx := tx (spm p); rx := rx (spm p) |} |}.
Definition rest (s : cactus_state system E) : cactus_state unit E :=
  {| requests_counter := requests_counter s; npi_handled := npi_handled s; g_dir_req_source_id := g_dir_req_source_id s;
     last_serviced_interrupt := last_serviced_interrupt s; hw := hw s; spm := {| spmc := tt; tx := tx (spm s); rx := rx (spm s) |} |}.

Definition nothing : ffa_value := regs 0 0 0 0 0 0 0 0.
Definition error_answer (code : Z) : ffa_value := regs FFA_ERROR 0 (u64 code) 0 0 0 0 0.

(** The answers of the manager to other calls; the vCPU; the bounds of the waits
    in handlers, and what is in a variable that is not initialised *)
Context (other : ffa_value → list Z → list Z → ffa_value * list Z) (core : Z) (fuel : nat) (junk pwr : bool).

(** A response ends the round: what it returns, the next message, is not needed
    here. *)
Fixpoint system_call (n : nat) (args : ffa_value) (t r : list Z) (d : system) : ffa_value * list Z * system :=
  if is_direct_request args then
    let dest := ffa_dir_msg_dest args in
    if decide (dest ∈ busy d) then (error_answer FFA_ERROR_BUSY, r, d)
    else
      match parts d !! dest with
      | None => (error_answer FFA_ERROR_INVALID_PARAMETER, r, d)
      | Some p =>
          match n with
          | O => (nothing, r, {| parts := parts d; busy := busy d; reply := reply d; halted := Some TooDeep |})
          | S n' =>
              match message_round (H := {| spmc_call := system_call n' |}) core
                      (cactus_cmd_handlers (H := {| spmc_call := system_call n' |}) core fuel junk) pwr dest args
                      (wake p {| parts := parts d; busy := dest :: busy d; reply := None; halted := halted d |}) with
              | Ok (_, s') =>
                  let d' := spmc (spm s') in
                  (default nothing (reply d'), r,
                   {| parts := <[dest := rest s']> (parts d'); busy := busy d; reply := reply d; halted := halted d' |})
              | Stop w => (nothing, r, {| parts := parts d; busy := busy d; reply := reply d; halted := Some (PartitionStop w) |})
              end
          end
      end
  else if is_ffa_direct_response args then
    (nothing, r, {| parts := parts d; busy := busy d; reply := Some args; halted := halted d |})
  else let '(ret, r') := other args t r in (ret, r', d).

Definition system_spmc (n : nat) : Spmc system := {| spmc_call := system_call n |}.

(** The partitions that can be entered *)
Definition free (X : gset Z) (b : list Z) : nat := size (X ∖ list_to_set b).

Definition sound (X : gset Z) (b : list Z) (d : system) : Prop := halted d ≠ Some TooDeep ∧ busy d = b ∧ dom (parts d) = X.

Lemma free_less (X : gset Z) (b : list Z) (i : Z) : i ∈ X → i ∉ b → (free X (i :: b) < free X b)%nat.
Proof.
  intros Hi Hb. unfold free. apply subset_size. split; [set_solver|]. intros Hsub.
  assert (i ∈ X ∖ list_to_set b) as Hin by (apply elem_of_difference; split; [done|]; by rewrite elem_of_list_to_set).
  apply Hsub in Hin. set_solver.
Qed.

(** No call goes deeper than there are partitions that can be entered. *)
Lemma call_sound (n : nat) : ∀ X b args t r d, (free X b ≤ n)%nat → sound X b d → sound X b (system_call n args t r d).2.
Proof.
  induction n as [|n IH]; intros X b args t r d Hn Hd; cbn [system_call].
  all: destruct (is_direct_request args); [|by destruct (is_ffa_direct_response args); [|destruct (other args t r)]].
  all: destruct Hd as (Hh & Hb & Hp); destruct (decide _) as [Hbusy|Hidle]; [done|];
    destruct (parts d !! ffa_dir_msg_dest args) as [p|] eqn:Hpart; [|done].
  all: assert (ffa_dir_msg_dest args ∈ X) as Hin by (rewrite <- Hp; by eapply elem_of_dom_2).
  all: rewrite Hb in Hidle; pose proof (free_less X b _ Hin Hidle) as Hless.
  { lia. }
  set (dest := ffa_dir_msg_dest args) in *.
  set (S1 := {| spmc_call := system_call n |}).
  assert (keeps (λ s, sound X (dest :: b) (spmc (spm s))) (message_round (H := S1) core (cactus_cmd_handlers core fuel junk) pwr dest args)) as Hround.
  { apply round_keeps; try done. intros a s f Hf. unfold ffa_service_call. cbn [spmc_call S1].
    pose proof (IH X (dest :: b) a (tx f) (rx f) (spmc f) ltac:(lia) Hf) as Hs. by destruct (system_call n a (tx f) (rx f) (spmc f)) as [[ret r'] d']. }
  specialize (Hround (wake p {| parts := parts d; busy := dest :: busy d; reply := None; halted := halted d |})). cbv beta in Hround.
  destruct (message_round core _ pwr dest args _) as [[m s']|w]; [|done].
  destruct Hround as (Hh' & Hb' & Hp'); [split_and!; [done|by rewrite <- Hb|done]|].
  split_and!; [done|done|]. cbn [parts snd]. rewrite dom_insert_L, Hp'. set_solver.
Qed.

(** ** One request in the system *)

Lemma request_run (n : nat) (args : ffa_value) (t r : list Z) (d : system) (p : cactus_state unit E) (s' : cactus_state system E) (ret : ffa_value)
    (c : Z) (fn : handler system E) :
  fid args = FFA_MSG_SEND_DIRECT_REQ_SMC64 → arg2 args = 0 →
  find_handler (cactus_cmd_handlers (H := system_spmc n) core fuel junk) (arg3 args) = Some fn →
  let dest := ffa_dir_msg_dest args in dest ∉ busy d → parts d !! dest = Some p →
  fn args (set_source (wake p {| parts := parts d; busy := dest :: busy d; reply := None; halted := halted d |}) (ffa_dir_msg_source args)) = Ok (ret, s') →
  zget (requests_counter s') core = Some c →
  system_call (S n) args t r d
  = (default nothing (reply (spmc (spm s'))), r,
     {| parts := <[dest := rest (set_counter s' (zset (requests_counter s') core (u32 (c + 1))))]> (parts (spmc (spm s')));
        busy := busy d; reply := reply d; halted := halted (spmc (spm s')) |}).
Proof.
  intros Hf H2 Hfind dest Hidle Hp Hfn Hc. cbn [system_call]. fold (system_spmc n).
  assert (is_direct_request args = true) as -> by (unfold is_direct_request, ffa_func_id; by rewrite Hf).
  fold dest. rewrite decide_False, Hp by done. subst dest.
  by rewrite (taken_round (H := system_spmc n) core _ pwr args fn _ s' ret c Hf H2 Hfind Hfn Hc).
Qed.

(** A response is what the manager keeps for the one who waits. *)
Lemma respond_run (n : nat) (s : cactus_state system E) (source dest resp v0 v1 v2 v3 : Z) :
  ffa (cactus_send_response (H := system_spmc n) source dest resp v0 v1 v2 v3) s
  = Ok (nothing, set_spm s {| spmc := {| parts := parts (spmc (spm s)); busy := busy (spmc (spm s));
                                         reply := Some (response source dest resp v0 v1 v2 v3); halted := halted (spmc (spm s)) |};
                              tx := tx (spm s); rx := rx (spm s) |}).
Proof. destruct n; reflexivity. Qed.

Definition well (X : gset Z) (b : list Z) (d : system) : Prop :=
  halted d = None ∧ busy d = b ∧ dom (parts d) = X ∧ ∀ i p, parts d !! i = Some p → in_range (requests_counter p) core = true.

Lemma counter_get (l : list Z) : in_range l core = true → ∃ c, zget l core = Some c.
Proof. intros Hr. apply zget_is_Some. unfold in_range in Hr. lia. Qed.

(** What is left of a partition and of the system once the partition has
    answered *)
Lemma well_answered (X : gset Z) (b : list Z) (s' : cactus_state system E) (dest c : Z) (o : option ffa_value) :
  dest ∈ X → well X (dest :: b) (spmc (spm s')) → in_range (requests_counter s') core = true →
  well X b {| parts := <[dest := rest (set_counter s' (zset (requests_counter s') core c))]> (parts (spmc (spm s'))); busy := b; reply := o;
              halted := halted (spmc (spm s')) |}.
Proof.
  intros Hin (Hh & _ & Hp & Hw) Hr. split_and!; [done|done|cbn; rewrite dom_insert_L, Hp; set_solver|].
  cbn [parts]. intros i p. destruct (decide (dest = i)) as [->|Hne].
  - rewrite lookup_insert_eq. intros [= <-]. cbn [requests_counter rest set_counter]. unfold in_range in *. by rewrite zlen_zset.
  - rewrite lookup_insert_ne by done. apply Hw.
Qed.

(** ** Requests in a circle *)

Definition deadlock_request (source dest next : Z) : ffa_value := request source dest CACTUS_DEADLOCK_CMD next 0 0 0.

(** The answers that end the test of a circle *)
Definition detected (v : ffa_value) : bool :=
  (ffa_func_id v =? FFA_ERROR) && (ffa_error_code v =? FFA_ERROR_BUSY) || is_ffa_direct_response v && (cactus_get_response v =? CACTUS_SUCCESS).

(** [s] after the answer of the partition whose request was answered in [d'] *)
Definition replied (s : cactus_state system E) (d' : system) (v : ffa_value) : cactus_state system E :=
  set_spm s {| spmc := {| parts := parts d'; busy := busy d'; reply := Some v; halted := halted d' |}; tx := tx (spm s); rx := rx (spm s) |}.

Lemma base_run (n : nat) (s : cactus_state system E) (vm source dest next : Z) (v : ffa_value) (d' : system) :
  system_call n (deadlock_request vm dest next) (tx (spm s)) (rx (spm s)) (spmc (spm s)) = (v, rx (spm s), d') → detected v = true →
  base_deadlock_handler (H := system_spmc n) vm source dest next s
  = Ok (nothing, replied s d' (response vm source CACTUS_SUCCESS 0 0 0 0)).
Proof.
  intros Hcall Hv. unfold base_deadlock_handler.
  assert (ffa (cactus_deadlock_send_cmd (H := system_spmc n) vm dest next) s = Ok (v, set_spm s {| spmc := d'; tx := tx (spm s); rx := rx (spm s) |})) as Hf.
  { unfold ffa, cactus_deadlock_send_cmd, cactus_send_cmd, ffa_msg_send_direct_req64, ffa_service_call. cbn [spmc_call system_spmc].
    unfold deadlock_request, request in Hcall. by rewrite Hcall. }
  rewrite (bind_Ok _ _ _ _ _ Hf). unfold detected in Hv. rewrite Hv. unfold cactus_success_resp. rewrite respond_run. done.
Qed.

Lemma error_busy_detected : detected (error_answer FFA_ERROR_BUSY) = true.
Proof. by vm_compute. Qed.
Lemma success_detected (source dest v : Z) : detected (response source dest CACTUS_SUCCESS v 0 0 0) = true.
Proof. reflexivity. Qed.

Lemma deadlock_detected (n : nat) (X : gset Z) : (∀ i, i ∈ X → 0 <= i < 65536) → ∀ b source dest next t r d, (free X b ≤ n)%nat → well X b d →
  source ∈ X → dest ∈ X → next ∈ X →
  ∃ v d', system_call n (deadlock_request source dest next) t r d = (v, r, d') ∧ detected v = true ∧ well X b d' ∧ reply d' = reply d.
Proof.
  intros HX. induction n as [|n IH]; intros b source dest next t r d Hn Hd Hs Hdest Hnext.
  all: pose proof (ids_dest (deadlock_request source dest next) source dest eq_refl (HX _ Hs) (HX _ Hdest)) as Hto.
  all: pose proof (ids_source (deadlock_request source dest next) source dest eq_refl (HX _ Hs) (HX _ Hdest)) as Hfrom.
  all: destruct (decide (dest ∈ busy d)) as [Hb|Hb];
    [exists (error_answer FFA_ERROR_BUSY), d; cbn [system_call]; change (is_direct_request _) with true; cbv iota zeta; rewrite Hto, decide_True by done;
     by split_and!|].
  all: assert (dest ∉ b) as Hb' by (destruct Hd as (_ & <- & _); done); pose proof (free_less X b dest Hdest Hb') as Hless.
  { lia. }
  assert (dest ∈ dom (parts d)) as [p Hp]%elem_of_dom by (destruct Hd as (_ & _ & -> & _); done).
  set (d1 := {| parts := parts d; busy := dest :: busy d; reply := None; halted := halted d |}).
  assert (well X (dest :: b) d1) as Hd1 by (destruct Hd as (? & <- & ? & ?); by split_and!).
  destruct (IH (dest :: b) dest next source (tx (spm p)) (rx (spm p)) d1 ltac:(lia) Hd1 Hdest Hnext Hs) as (v & d' & Hcall & Hv & Hd' & Hr').
  set (s := set_source (wake p d1) source).
  assert (in_range (requests_counter p) core = true) as Hc by (destruct Hd as (_ & _ & _ & Hw); by eapply Hw).
  destruct (counter_get _ Hc) as [c Hget].
  assert (deadlock_cmd (H := system_spmc n) (deadlock_request source dest next) s
    = Ok (nothing, replied s d' (response dest source CACTUS_SUCCESS 0 0 0 0))) as Hfn.
  { unfold deadlock_cmd, cactus_deadlock_get_next_dest. rewrite Hto, Hfrom. cbn [arg4 regs deadlock_request request].
    rewrite u16_small by auto. by apply base_run with v. }
  pose proof (request_run n (deadlock_request source dest next) t r d p (replied s d' (response dest source CACTUS_SUCCESS 0 0 0 0)) nothing c deadlock_cmd
    eq_refl eq_refl eq_refl) as Hrun. cbv zeta in Hrun. rewrite Hto, Hfrom in Hrun.
  rewrite (Hrun Hb Hp Hfn Hget). eexists _, _. split; [reflexivity|]. split; [apply success_detected|]. split; [|done].
  replace (busy d) with b by (by destruct Hd as (_ & <- & _)). apply well_answered; [done| |done].
  destruct Hd' as (? & ? & ? & ?). by split_and!.
Qed.



(** ** Echoes *)

Lemma echo_run (n : nat) (X : gset Z) (source dest val : Z) (t r : list Z) (d : system) :
  (∀ i, i ∈ X → 0 <= i < 65536) → 0 <= source < 65536 → dest ∈ X → dest ∉ busy d → well X (busy d) d →
  ∃ d', system_call (S n) (request source dest CACTUS_ECHO_CMD val 0 0 0) t r d = (response dest source CACTUS_SUCCESS val 0 0 0, r, d')
    ∧ well X (busy d) d'.
Proof.
  intros HX Hs Hdest Hidle Hd. set (args := request source dest CACTUS_ECHO_CMD val 0 0 0).
  pose proof (ids_dest args source dest eq_refl Hs (HX _ Hdest)) as Hto. pose proof (ids_source args source dest eq_refl Hs (HX _ Hdest)) as Hfrom.
  assert (dest ∈ dom (parts d)) as [p Hp]%elem_of_dom by (destruct Hd as (_ & _ & -> & _); done).
  set (d1 := {| parts := parts d; busy := dest :: busy d; reply := None; halted := halted d |}). set (s := set_source (wake p d1) source).
  assert (in_range (requests_counter p) core = true) as Hr by (destruct Hd as (_ & _ & _ & Hw); by eapply Hw).
  destruct (counter_get _ Hr) as [k Hget].
  assert (echo_cmd (H := system_spmc n) args s = Ok (nothing, replied s d1 (response dest source CACTUS_SUCCESS val 0 0 0))) as Hfn
    by (unfold echo_cmd; rewrite Hto, Hfrom; unfold cactus_success_resp; by rewrite respond_run).
  pose proof (request_run n args t r d p (replied s d1 (response dest source CACTUS_SUCCESS val 0 0 0)) nothing k echo_cmd eq_refl eq_refl eq_refl) as Hrun.
  cbv zeta in Hrun. rewrite Hto, Hfrom in Hrun. rewrite (Hrun Hidle Hp Hfn Hget). eexists. split; [reflexivity|].
  apply well_answered; [done| |done]. destruct Hd as (? & ? & ? & ?). by split_and!.
Qed.

Lemma refused_run (n : nat) (X : gset Z) (source dest cmd v0 v1 v2 v3 : Z) (t r : list Z) (d : system) :
  0 <= source < 65536 → 0 <= dest < 65536 → dom (parts d) = X → ¬ (dest ∈ X ∧ dest ∉ busy d) →
  ∃ code, system_call n (request source dest cmd v0 v1 v2 v3) t r d = (error_answer code, r, d).
Proof.
  intros Hs Hdest HX Hno. set (args := request source dest cmd v0 v1 v2 v3).
  pose proof (ids_dest args source dest eq_refl Hs Hdest) as Hto.
  destruct n; cbn [system_call]; change (is_direct_request args) with true; cbv iota zeta; rewrite Hto; (destruct (decide (dest ∈ busy d)); [by eexists|]);
    (assert (parts d !! dest = None) as -> by (apply not_elem_of_dom; rewrite HX; tauto)); by eexists.
Qed.

Lemma req_echo_run (n : nat) (s : cactus_state system E) (args v : ffa_value) (d' : system) :
  let vm := ffa_dir_msg_dest args in let source := ffa_dir_msg_source args in let val := cactus_echo_get_val args in
  system_call n (request vm (cactus_req_echo_get_echo_dest args) CACTUS_ECHO_CMD val 0 0 0) (tx (spm s)) (rx (spm s)) (spmc (spm s)) = (v, rx (spm s), d') →
  req_echo_cmd (H := system_spmc n) args s
  = Ok (nothing, replied s d'
      (if negb (is_ffa_direct_response v) then response vm source CACTUS_ERROR CACTUS_ERROR_FFA_CALL 0 0 0
       else if negb (cactus_get_response v =? CACTUS_SUCCESS) || negb (cactus_echo_get_val v =? val)
       then response vm source CACTUS_ERROR CACTUS_ERROR_TEST 0 0 0 else response vm source CACTUS_SUCCESS 0 0 0 0)).
Proof.
  intros vm source val Hcall. unfold req_echo_cmd. fold vm source val.
  assert (ffa (cactus_echo_send_cmd (H := system_spmc n) vm (cactus_req_echo_get_echo_dest args) val) s
    = Ok (v, set_spm s {| spmc := d'; tx := tx (spm s); rx := rx (spm s) |})) as Hf.
  { unfold ffa, cactus_echo_send_cmd, cactus_send_cmd, ffa_msg_send_direct_req64, ffa_service_call. cbn [spmc_call system_spmc].
    unfold request in Hcall. by rewrite Hcall. }
  rewrite (bind_Ok _ _ _ _ _ Hf). unfold cactus_success_resp, cactus_error_resp.
  destruct (negb (is_ffa_direct_response v)); [by rewrite respond_run|]. by destruct (_ || _); rewrite respond_run.
Qed.

(** A partition that is asked to send an echo to another one answers success if
    that partition exists and is neither waiting nor the same, for any value, and
    an error of the call otherwise. *)
Theorem cactus_echo_forwarded (source a b val : Z) (t r : list Z) (d : system) :
  let X := dom (parts d) in
  (∀ i, i ∈ X → 0 <= i < 65536) → 0 <= source < 65536 → 0 <= b < 65536 → well X (busy d) d → a ∈ X → a ∉ busy d →
  let '(v, _, d') := system_call (size X) (request source a CACTUS_REQ_ECHO_CMD val b 0 0) t r d in
  v = (if decide (b ∈ X ∧ b ∉ a :: busy d) then response a source CACTUS_SUCCESS 0 0 0 0
       else response a source CACTUS_ERROR CACTUS_ERROR_FFA_CALL 0 0 0)
  ∧ well X (busy d) d'.
Proof.
  intros X HX Hs Hb16 Hd Ha Hidle. set (args := request source a CACTUS_REQ_ECHO_CMD val b 0 0).
  pose proof (ids_dest args source a eq_refl Hs (HX _ Ha)) as Hto. pose proof (ids_source args source a eq_refl Hs (HX _ Ha)) as Hfrom.
  assert (a ∈ dom (parts d)) as [p Hp]%elem_of_dom by done. pose proof (free_less X (busy d) a Ha Hidle) as Hless.
  assert (free X (busy d) ≤ size X)%nat as Hle by (unfold free; apply subseteq_size; set_solver).
  destruct (size X) as [|n]; [lia|].
  set (d1 := {| parts := parts d; busy := a :: busy d; reply := None; halted := halted d |}). set (s := set_source (wake p d1) source).
  assert (well X (busy d1) d1) as Hd1 by (destruct Hd as (? & ? & ? & ?); by split_and!).
  assert (in_range (requests_counter p) core = true) as Hr by (destruct Hd as (_ & _ & _ & Hw); by eapply Hw).
  destruct (counter_get _ Hr) as [k Hget].
  set (w := if decide (b ∈ X ∧ b ∉ a :: busy d) then response a source CACTUS_SUCCESS 0 0 0 0 else response a source CACTUS_ERROR CACTUS_ERROR_FFA_CALL 0 0 0).
  assert (∃ d', req_echo_cmd (H := system_spmc n) args s = Ok (nothing, replied s d' w) ∧ well X (a :: busy d) d') as (d' & Hfn & Hd').
  { assert (cactus_req_echo_get_echo_dest args = b) as Hbb by (unfold cactus_req_echo_get_echo_dest; cbn [arg5 regs args request]; by apply u16_small).
    unfold w. destruct (decide _) as [[Hb Hbusy]|Hno].
    - pose proof (free_less X (a :: busy d) b Hb Hbusy) as Hl2. destruct n as [|n]; [lia|].
      destruct (echo_run n X a b val (tx (spm p)) (rx (spm p)) d1 HX (HX _ Ha) Hb Hbusy Hd1) as (d' & Hcall & Hd').
      exists d'. split; [|done]. rewrite (req_echo_run (S n) s args (response b a CACTUS_SUCCESS val 0 0 0) d').
      + rewrite Hto, Hfrom. unfold cactus_echo_get_val. cbn [arg4 response regs args request]. rewrite (Z.eqb_refl val). reflexivity.
      + by rewrite Hto, Hbb.
    - destruct (refused_run n X a b CACTUS_ECHO_CMD val 0 0 0 (tx (spm p)) (rx (spm p)) d1 (HX _ Ha) Hb16 eq_refl Hno) as (code & Hcall).
      exists d1. split; [|done]. rewrite (req_echo_run n s args (error_answer code) d1).
      + change (is_ffa_direct_response (error_answer code)) with false. cbn [negb]. by rewrite Hto, Hfrom.
      + by rewrite Hto, Hbb. }
  pose proof (request_run n args t r d p (replied s d' w) nothing k req_echo_cmd eq_refl eq_refl eq_refl) as Hrun.
  cbv zeta in Hrun. rewrite Hto, Hfrom in Hrun. rewrite (Hrun Hidle Hp Hfn Hget). split; [done|].
  apply well_answered; [done| |done]. destruct Hd' as (? & ? & ? & ?). by split_and!.
Qed.

End System.

Arguments system : clear implicits.

(** ** Commands and their arguments *)

Section Decode.

Context {D : Type} `{Spmc D}.

(** [m] is the call with the registers [v] *)
Definition sends (m : M (ffa_state D) ffa_value) (v : ffa_value) : Prop := ∀ s, m s = ffa_service_call v s.

(** A direct request that the loop of a partition takes for the command [cmd] *)
Definition addressed (v : ffa_value) (source dest cmd : Z) : Prop :=
  is_direct_request v = true ∧ ffa_is_framework_msg v = false ∧ ffa_dir_msg_source v = source ∧ ffa_dir_msg_dest v = dest ∧ cactus_get_cmd v = cmd.

Definition id16 (x : Z) : Prop := 0 <= x < 65536.
Definition word32 (x : Z) : Prop := 0 <= x <= UINT32_MAX.

Lemma request_addressed (source dest cmd v0 v1 v2 v3 : Z) : id16 source → id16 dest → addressed (request source dest cmd v0 v1 v2 v3) source dest cmd.
Proof. intros Hs Hd. split_and!; [done|done|by eapply ids_source|by eapply ids_dest|done]. Qed.

Lemma to_of_bool (b : bool) : to_bool (of_bool b) = b.
Proof. by destruct b. Qed.

(** The word and the two flags of a memory command *)
Lemma packed_fields (word : Z) (e m : bool) : id16 word →
  let v := Z.lor (Z.lor word (if e then Z.shiftl 1 32 else 0)) (if m then Z.shiftl 1 33 else 0) in
  Z.land (u16 v) 0xFFFF = word ∧ to_bool (Z.land (Z.shiftr v 32) 1) = e ∧ to_bool (Z.land (Z.shiftr v 33) 1) = m.
Proof.
  intros Hw v.
  assert (v = (of_bool m * 2 + of_bool e) * 2 ^ 32 + word) as Hv.
  { subst v. rewrite (Z.lor_comm word), <- Z.lor_assoc, (Z.lor_comm word), Z.lor_assoc. rewrite <- lor_fields by (unfold id16 in Hw; lia). f_equal.
    by destruct e, m. }
  assert (v mod 2 ^ 16 = word) as Hlow.
  { rewrite Hv. replace ((of_bool m * 2 + of_bool e) * 2 ^ 32 + word) with (word + (of_bool m * 2 + of_bool e) * 2 ^ 16 * 2 ^ 16) by lia.
    rewrite Z.mod_add by lia. apply Z.mod_small. exact Hw. }
  assert (v / 2 ^ 32 = of_bool m * 2 + of_bool e) as H32 by (rewrite Hv, Z.div_add_l by lia; rewrite Z.div_small by (unfold id16 in Hw; lia); lia).
  assert (v / 2 ^ 33 = of_bool m) as H33.
  { change (2 ^ 33) with (2 ^ 32 * 2). rewrite <- Z.div_div, H32, Z.div_add_l by lia. rewrite Z.div_small by (destruct e; cbn; lia). lia. }
  split_and!.
  - unfold u16, wrap. rewrite Hlow. by apply land_16.
  - rewrite Z.shiftr_div_pow2, H32 by lia. by destruct e, m.
  - rewrite Z.shiftr_div_pow2, H33 by lia. by destruct m.
Qed.

(** The two ids of a command to set notifications *)
Lemma set_fields (receiver sender : Z) : id16 receiver → id16 sender →
  let v := Z.lor receiver (u32 (Z.shiftl sender 16)) in u16 (Z.land v 0xFFFF) = receiver ∧ u16 (Z.land (Z.shiftr v 16) 0xFFFF) = sender.
Proof.
  intros Hr Hs v. assert (v = sender * 65536 + receiver) as Hv by (unfold v; rewrite Z.lor_comm; by apply ids_value). rewrite Hv. unfold id16 in *.
  change 0xFFFF with (Z.ones 16). rewrite !Z.land_ones, Z.shiftr_div_pow2 by lia. change (2 ^ 16) with 65536.
  rewrite Z.div_add_l, Z.div_small, Z.add_0_r by lia. rewrite (Z.add_comm (sender * 65536)), Z.mod_add, !Z.mod_small by lia. split; apply u16_small; lia.
Qed.


End Decode.

(** ** The count of requests *)

Section Counted.

Context {D : Type} `{Spmc D} {E : Type} `{SpHw E}.

(** A command of the table adds one to the counter of the core that runs it and
    to no other, whatever its handler does; the command that asks for the
    counter answers it, and any other is answered as unhandled. *)
Theorem cactus_requests_counted (core : Z) (fuel : nat) (junk : bool) (args : ffa_value) (s : cactus_state D E) :
  let table := cactus_cmd_handlers core fuel junk in
  let s1 := if is_direct_request args then set_source s (ffa_dir_msg_source args) else s in
  match find_handler table (cactus_get_cmd args) with
  | Some _ =>
      match cactus_handle_cmd core table args s with
      | Ok (_, s') => ∃ c, zget (requests_counter s) core = Some c ∧ requests_counter s' = zset (requests_counter s) core (u32 (c + 1))
      | Stop _ => True
      end
  | None =>
      cactus_handle_cmd core table args s =
        (if cactus_get_cmd args =? CACTUS_GET_REQ_COUNT_CMD then
           match zget (requests_counter s) core with
           | Some c => ffa (cactus_success_resp (ffa_dir_msg_dest args) (ffa_dir_msg_source args) c) s1
           | None => Stop OutOfBounds
           end
         else ffa (cactus_error_resp (ffa_dir_msg_dest args) (ffa_dir_msg_source args) CACTUS_ERROR_UNHANDLED) s1)
  end.
Proof.
  intros table s1. unfold cactus_handle_cmd, mbind, M_bind. cbn [get].
  assert ((if is_direct_request args then put (set_source s (ffa_dir_msg_source args)) else mret tt) s = Ok (tt, s1)) as ->
    by (unfold s1; by destruct (is_direct_request args)).
  assert (requests_counter s1 = requests_counter s) as Hs1 by (unfold s1; by destruct (is_direct_request args)).
  destruct (find_handler table (cactus_get_cmd args)) as [fn|] eqn:Hf.
  - assert (keeps (λ s', requests_counter s' = requests_counter s) (fn args)) as Hk.
    { eapply handlers_keep; [| | | |by apply find_handler_in]; try done.
      intros a s0 f Hc. unfold ffa_service_call. by destruct (spmc_call _ _ _ _) as [[? ?] ?]. }
    specialize (Hk s1 Hs1). destruct (fn args s1) as [[ret s2]|]; [|done]. unfold index. rewrite Hk.
    destruct (zget (requests_counter s) core) as [c|] eqn:Hc; [|done]. cbn. exists c. by split; [done|].
  - destruct (_ =? _); [|done]. unfold index. rewrite Hs1. by destruct (zget (requests_counter s) core).
Qed.

End Counted.

Module SampleCactus.

(** Hardware that does not move *)
Definition still : SpHw unit := {| virtualcounter_read e := (0, e); read_cntfrq_el0 := 1000; tftf_hvc _ _ _ _ e := (0, e) |}.
#[local] Hint Extern 0 (SpHw unit) => exact still : typeclass_instances.

Definition fresh : cactus_state unit unit :=
  {| requests_counter := [0; 0]; npi_handled := [false; false]; g_dir_req_source_id := 0; last_serviced_interrupt := [0; 0]; hw := tt;
     spm := {| spmc := tt; tx := []; rx := [] |} |}.
Definition sp (i : Z) : Z := 0x8000 + i.
Definition three : system unit :=
  {| parts := {[ sp 1 := fresh; sp 2 := fresh; sp 3 := fresh ]}; busy := []; reply := None; halted := None |}.
Definition others (args : ffa_value) (t r : list Z) : ffa_value * list Z := (error_answer FFA_ERROR_NOT_SUPPORTED, r).

Lemma parts_ids (i : Z) : i ∈ dom (parts three) → 0 <= i < 65536.
Proof. unfold three. cbn [parts]. rewrite !dom_insert_L, dom_singleton_L, !elem_of_union, !elem_of_singleton. unfold sp. lia. Qed.

Lemma three_well : well 0 (dom (parts three)) (busy three) three.
Proof.
  split; [done|]. split; [done|]. split; [done|]. unfold three. cbn [parts]. intros i p.
  intros [[_ <-]|[_ [[_ <-]|[_ [_ <-]%lookup_singleton_Some]]%lookup_insert_Some]]%lookup_insert_Some; done.
Qed.


Lemma in_three (i : Z) : i = sp 1 ∨ i = sp 2 ∨ i = sp 3 → i ∈ dom (parts three).
Proof. unfold three. cbn [parts]. rewrite !dom_insert_L, dom_singleton_L. set_solver. Qed.


Definition mute : Spmc unit := {| spmc_call _ _ r d := (nothing, r, d) |}.


End SampleCactus.
